(* ===== verification/_CoqProject ===== *)
-Q . S2P
Prelude.v
Vec.v
RingBuffer.v
HashMap.v
Errors.v
Bytes.v
Dirent.v
Services.v
PageAlloc.v
PageTable.v
Cow.v
Fork.v
Destroy.v
AddressSpace.v
VmRegion.v
DemandPaging.v
BlockCache.v
Bitmap.v
Layout.v
Inode.v
Mkfs.v
FileMap.v
FileFree.v
FileIO.v
Kmalloc.v
KString.v
Printf.v
UserLib.v
Programs.v
Tasks.v
Sched.v
Threads.v
Signals.v
Kill.v
Interleaving.v
Pipe.v
Timer.v
ExecStack.v
ExecImage.v
Exec.v
Process.v
ProcLife.v
ProcTheory.v
ProcEnd.v
Forking.v
