(* ===== verification/Prelude.v ===== *)
(** * AcheronOS verification library

    AcheronOS is a small multi-core kernel for AArch64 in C, with the user
    library and programs that run on it.  The library models the parts of the
    kernel that keep state and proves what they promise to each other.

    ** The program and the files

    Containers (src/kernel/data-structs).  [Vec] models vec.c, [RingBuffer]
    ring_buffer.c and [HashMap] hashmap.c, down to the backing arrays, with
    failing allocations and destructor calls.  Each is shown to refine the
    list, bounded deque or finite map it stands for; [Services] is what the
    files above them use of that, together with the heap and spin locks.

    Memory (src/kernel/memory).  [Kmalloc] models kmalloc.c on the words of the
    heap.  [PageAlloc], [PageTable], [Cow] and [VmRegion] model page_table.c:
    the page allocator with its reference counts, the four-level tables, the
    copy-on-write helpers and the regions with mmap and munmap.  [Fork] is the
    copy of the tables by [cpy_address_space] (src/kernel/scheduler/process.c),
    [DemandPaging] the abort handlers of mmu.c.  [AddressSpace] composes them.

    File system (src/kernel/fs).  [BlockCache] models lru_cache.c and the block
    layer over an abstract device, [Bitmap] and [Layout] disk.c, [Inode],
    [FileMap] and [FileFree] inodes.c (the inode table, the block map of a file
    and its truncation), [Mkfs] the formatting of a card, [FileIO] the
    open-file entries and read, write and lseek of kapi.c, [Dirent] the
    directory entry and [Errors] the error numbers.  [Bytes] is the layout of
    structures in byte buffers.

    Threads (src/kernel/scheduler, threading, signals).  [Tasks] holds the
    control blocks and tables, [Sched] models scheduler.c, [Threads] thread.c
    with the accounting of process.c and the notification of parents of
    signals.c.  [Programs] is the type of code that gives up the CPU.

    Text.  [KString] models kernel/string.c, [Printf] kernel/uart/printf.c and
    [UserLib] user/lib/string.c and stdio.c.

    ** How code becomes definitions

    A function of the source is a definition of the same name.  Code without
    effects is a function into [outcome]; code with effects is a function in
    the state monad [stM S] over the record [S] of the static variables and
    memory of its component.  [Fatal] is [fatal_exception], [Fault] undefined
    behaviour and [Hang] a lock the caller already holds; [wp m Q s] says that
    [m] ends without any of them in a result and a state that satisfy [Q], so
    every theorem of the form [wp] is total correctness.  Machine integers are
    [Z] with their wrap-around written out ([to_u32], [to_s32], ...).  A pointer
    to a table entry is its index, a pointer into a string the rest of the
    string.  A lock of another CPU is not visible in a function that runs with
    the lock held, so one call is one step; code that waits is a [prog], and a
    theorem about it holds for every behaviour of the other CPUs that keeps the
    invariant.  The card, the results of allocation, the bytes of fresh memory
    and the system calls below the user library are parameters.

    ** What is shown

    - Memory: after any history of mappings, forks and stores every address
      space behaves as a private copy; the tables in memory stand for the map
      that was asked for; pages are never handed out twice or freed while in
      use; heap blocks do not overlap, keep their data, and all memory not in
      blocks is on the free lists; faults load the right bytes.
    - Containers: refinement of the abstract data type by every sequence of
      operations.
    - File system: the cache returns what was last written; formatting gives a
      file system that mounts; allocation takes free blocks only; appending,
      looking up and truncating a file act on the list of its blocks; write
      replaces the bytes of the file, and what is written is read back.
    - Threads: a ready thread runs after a bounded number of scheduling
      decisions; the counters and states of processes agree with their threads
      whatever the order of the operations; the death of a child wakes the
      waiting parent.
    - Text: formatted output, numbers and tokens against reference functions.
    - Behaviours that are not what the code means to do are theorems too, with
      a concrete instance each: the overflow of the page array, reads that
      cross a block, a seek that overwrites the superblock, the lookup of
      blocks past the first block of double indirection, two CPUs that run the
      same thread, and others.

    ** Bounds and fuel

    Loops that are not structural take fuel that the theorems show to be
    enough: the length of the queue or list, the number of bytes left to
    transfer, one level per process for the chain of notifications, the number
    of levels of a table.  Where fuel would run out the result is [Hang], which
    a [wp] theorem excludes.  A program that may wait for ever is cut after any
    number of rounds, and its theorems hold for every cut.

    ** Not modelled

    Drivers and boot code (UART, SD host, USB, GPIO and fan, timer, interrupt
    controller, framebuffer and windows, boot.S and the context switch in
    assembly) act on device registers.  The user programs are not modelled.  Directories, paths, links, the inode cache and procfs are
    not modelled beyond the parts named above.  Concurrent accesses to shared
    data outside locks are covered only where a [prog] says so. *)

From stdpp Require Export prelude list gmap.
From Stdlib Require Export ZArith Lia.

#[export] Set Default Goal Selector "!".
#[global] Open Scope Z_scope.

(** ** Outcomes of C code

    A C function of the kernel either returns, ends in [fatal_exception]
    (kernel/traps/traps.c: the calling thread is terminated or the CPU is
    halted, and control never comes back to the caller), performs an access
    the C standard leaves undefined (a load or store outside the object, or of
    an indeterminate value), or spins for ever on a lock its own thread
    holds. *)

Inductive outcome (A : Type) : Type :=
| Ok (a : A)
| Fatal
| Fault
| Hang.

Arguments Ok {A} a.
Arguments Fatal {A}.
Arguments Fault {A}.
Arguments Hang {A}.

#[export] Instance outcome_ret : MRet outcome := fun A a => Ok a.
#[export] Instance outcome_bind : MBind outcome := fun A B f m =>
  match m with
  | Ok a => f a
  | Fatal => Fatal
  | Fault => Fault
  | Hang => Hang
  end.

(** [checked] turns a partial access into an outcome. *)
Definition checked {A} (o : option A) : outcome A :=
  match o with
  | Some a => Ok a
  | None => Fault
  end.

(** ** Machine integers *)

Definition wrap (w x : Z) : Z := x mod 2 ^ w.
Definition to_u8 (x : Z) : Z := wrap 8 x.
Definition to_u16 (x : Z) : Z := wrap 16 x.
Definition to_u32 (x : Z) : Z := wrap 32 x.
Definition to_u64 (x : Z) : Z := wrap 64 x.

(** Conversions to two's complement: [int] and [long]. *)
Definition to_s32 (x : Z) : Z := (x + 2 ^ 31) mod 2 ^ 32 - 2 ^ 31.
Definition to_s64 (x : Z) : Z := (x + 2 ^ 63) mod 2 ^ 64 - 2 ^ 63.

Lemma wrap_small w x : 0 <= x < 2 ^ w -> wrap w x = x.
Proof. apply Z.mod_small. Qed.

Lemma to_u32_small x : 0 <= x < 2 ^ 32 -> to_u32 x = x.
Proof. apply wrap_small. Qed.

Lemma to_s32_id x : - 2 ^ 31 <= x < 2 ^ 31 -> to_s32 x = x.
Proof. intros Hx. unfold to_s32. rewrite Z.mod_small; lia. Qed.

Lemma to_s64_id x : - 2 ^ 63 <= x < 2 ^ 63 -> to_s64 x = x.
Proof. intros Hx. unfold to_s64. rewrite Z.mod_small; lia. Qed.

Lemma wrap_bound w x : 0 <= w -> 0 <= wrap w x < 2 ^ w.
Proof. intros. apply Z.mod_pos_bound. lia. Qed.

(** ** Counted loops

    [for_loop n i body s] is [for (; n iterations; i++) s = body(i, s)]. *)
Fixpoint for_loop {S} (n : nat) (i : Z) (body : Z -> S -> outcome S) (s : S)
    : outcome S :=
  match n with
  | O => Ok s
  | S n' => s' ← body i s; for_loop n' (i + 1) body s'
  end.

(** Rule for [for_loop]: an invariant indexed by the loop counter. *)
Lemma for_loop_ind {S} (P : Z -> S -> Prop) n i body s :
  P i s ->
  (forall j s, i <= j < i + Z.of_nat n -> P j s ->
     exists s', body j s = Ok s' /\ P (j + 1) s') ->
  exists s', for_loop n i body s = Ok s' /\ P (i + Z.of_nat n) s'.
Proof.
  revert i s. induction n as [|n IH]; intros i s HP Hstep; simpl.
  - exists s. by rewrite Z.add_0_r.
  - destruct (Hstep i s) as (s1 & E1 & H1); [lia | done |].
    destruct (IH (i + 1) s1) as (s2 & E2 & H2).
    + done.
    + intros j t Hj. apply Hstep. lia.
    + exists s2. rewrite E1; simpl. split; [done |].
      by replace (i + Z.of_nat (Datatypes.S n)) with (i + 1 + Z.of_nat n) by lia.
Qed.

(** ** Stateful code

    [stM S A] is C code that works on the state [S], returns an [A] and may end
    in one of the outcomes above.  [wp m Q s] says that [m] run in state [s]
    does return, and that its result and final state satisfy [Q]. *)

Definition stM (S A : Type) : Type := S -> outcome (A * S).

#[export] Instance stM_ret {S} : MRet (stM S) := fun A a s => Ok (a, s).
#[export] Instance stM_bind {S} : MBind (stM S) := fun A B f m s =>
  match m s with
  | Ok (a, s') => f a s'
  | Fatal => Fatal
  | Fault => Fault
  | Hang => Hang
  end.

Section state.
Context {S : Type}.

Definition fetch {A} (f : S -> A) : stM S A := fun s => Ok (f s, s).
Definition modify (f : S -> S) : stM S unit := fun s => Ok (tt, f s).
Definition fatal {A} : stM S A := fun _ => Fatal.
Definition fault {A} : stM S A := fun _ => Fault.
Definition hang {A} : stM S A := fun _ => Hang.
Definition when (b : bool) (m : stM S unit) : stM S unit := if b then m else mret tt.

Definition wp {A} (m : stM S A) (Q : A -> S -> Prop) (s : S) : Prop :=
  exists a s', m s = Ok (a, s') /\ Q a s'.

Lemma wp_ret {A} (a : A) (Q : A -> S -> Prop) s : Q a s -> wp (mret a) Q s.
Proof. intros. by exists a, s. Qed.

Lemma wp_bind {A B} (m : stM S A) (f : A -> stM S B) (Q : B -> S -> Prop) s :
  wp m (fun a s' => wp (f a) Q s') s -> wp (m ≫= f) Q s.
Proof.
  intros (a & s' & E & b & s'' & E' & HQ). exists b, s''. unfold mbind, stM_bind. by rewrite E.
Qed.

(** A step made of two. *)
Lemma wp_assoc {A B C} (m : stM S A) (f : A -> stM S B) (g : B -> stM S C) (Q : C -> S -> Prop) s :
  wp ((m ≫= f) ≫= g) Q s -> wp (m ≫= fun a => f a ≫= g) Q s.
Proof. unfold wp, mbind, stM_bind. by destruct (m s) as [[a s']| | |]. Qed.

Lemma wp_mono {A} (m : stM S A) (P Q : A -> S -> Prop) s :
  wp m P s -> (forall a s', P a s' -> Q a s') -> wp m Q s.
Proof. intros (a & s' & E & HP) H. exists a, s'. auto. Qed.

Lemma wp_fetch {A} (f : S -> A) (Q : A -> S -> Prop) s : Q (f s) s -> wp (fetch f) Q s.
Proof. intros. by exists (f s), s. Qed.

Lemma wp_modify (f : S -> S) (Q : unit -> S -> Prop) s : Q tt (f s) -> wp (modify f) Q s.
Proof. intros. by exists tt, (f s). Qed.

(** Code whose first part returns and whose rest does not. *)
Lemma bind_stuck {A B} (m : stM S A) (f : A -> stM S B) (o : outcome (B * S)) s :
  wp m (fun a s' => f a s' = o) s -> (m ≫= f) s = o.
Proof. intros (a & s' & E & Hf). unfold mbind, stM_bind. by rewrite E. Qed.

Lemma bind_ok {A B} (m : stM S A) (f : A -> stM S B) a s s' :
  m s = Ok (a, s') -> (m ≫= f) s = f a s'.
Proof. intros E. unfold mbind, stM_bind. by rewrite E. Qed.

Lemma bind_fault {A B} (m : stM S A) (f : A -> stM S B) s :
  m s = Fault -> (m ≫= f) s = Fault.
Proof. intros E. unfold mbind, stM_bind. by rewrite E. Qed.

Lemma bind_fatal {A B} (m : stM S A) (f : A -> stM S B) s :
  m s = Fatal -> (m ≫= f) s = Fatal.
Proof. intros E. unfold mbind, stM_bind. by rewrite E. Qed.

Lemma bind_hang {A B} (m : stM S A) (f : A -> stM S B) s :
  m s = Hang -> (m ≫= f) s = Hang.
Proof. intros E. unfold mbind, stM_bind. by rewrite E. Qed.

(** Counted loop over stateful code. *)
Fixpoint for_st (n : nat) (i : Z) (body : Z -> stM S unit) : stM S unit :=
  match n with
  | O => mret tt
  | Datatypes.S n => _ ← body i; for_st n (i + 1) body
  end.

Lemma wp_for_st (I : Z -> S -> Prop) n i body (Q : unit -> S -> Prop) s :
  I i s ->
  (forall j s, i <= j < i + Z.of_nat n -> I j s -> wp (body j) (fun _ s' => I (j + 1) s') s) ->
  (forall s, I (i + Z.of_nat n) s -> Q tt s) ->
  wp (for_st n i body) Q s.
Proof.
  revert i s. induction n as [|n IH]; intros i s HI Hstep HQ; simpl.
  - apply wp_ret, HQ. by rewrite Z.add_0_r.
  - apply wp_bind. eapply wp_mono; [apply Hstep; [lia | done]|]. intros ? s1 H1.
    apply IH; [done | intros j t Hj; apply Hstep; clear -Hj; lia |].
    intros t Ht. apply HQ. rewrite Nat2Z.inj_succ, <- Z.add_1_l, Z.add_assoc. exact Ht.
Qed.

(** A loop whose body may return from the function: [true] goes on, [false]
    is the early return. *)
Fixpoint for_while (n : nat) (i : Z) (body : Z -> stM S bool) : stM S bool :=
  match n with
  | O => mret true
  | Datatypes.S n => go ← body i; if (go : bool) then for_while n (i + 1) body else mret false
  end.

(** [I] holds before each iteration, [E] after an early return. *)
Lemma wp_for_while (I : Z -> S -> Prop) (E : S -> Prop) n i body (Q : bool -> S -> Prop) s :
  I i s ->
  (forall j s, i <= j < i + Z.of_nat n -> I j s ->
     wp (body j) (fun go s' => if (go : bool) then I (j + 1) s' else E s') s) ->
  (forall s, I (i + Z.of_nat n) s -> Q true s) ->
  (forall s, E s -> Q false s) ->
  wp (for_while n i body) Q s.
Proof.
  revert i s. induction n as [|n IH]; intros i s HI Hstep HQ HE; simpl.
  - apply wp_ret, HQ. by rewrite Z.add_0_r.
  - apply wp_bind. eapply wp_mono; [apply Hstep; [lia | done]|]. intros go s1 H1.
    destruct go; [|by apply wp_ret, HE].
    apply IH; [done | intros j t Hj; apply Hstep; clear -Hj; lia | | done].
    intros t Ht. apply HQ. rewrite Nat2Z.inj_succ, <- Z.add_1_l, Z.add_assoc. exact Ht.
Qed.

End state.

#[global] Arguments for_while : simpl never.
#[global] Arguments for_st : simpl never.

(** ** The kernel heap as seen by its clients

    Clients only observe whether [kmalloc] returned NULL.  [kmalloc] refuses a
    request of zero bytes (kmalloc.c: [if (size == 0) return NULL]) and never
    satisfies one larger than the heap ([kmem_sbrk] stops at [HeapMemoryEnd]);
    whether any other request succeeds depends on the heap's state, which is
    the argument [grant]. *)

Definition KERNEL_HEAP_SIZE : Z := 0x100000.

Definition kmalloc_ok (grant : Z -> bool) (size : Z) : bool :=
  negb (size =? 0) && (size <=? KERNEL_HEAP_SIZE) && grant size.

Lemma kmalloc_ok_bound grant size :
  kmalloc_ok grant size = true -> size <> 0 /\ size <= KERNEL_HEAP_SIZE.
Proof. unfold kmalloc_ok. intros H. apply andb_true_iff in H as [H _]. lia. Qed.

(** ** Bits *)

Lemma land_ones_mod x w : 0 <= w -> Z.land x (2 ^ w - 1) = x mod 2 ^ w.
Proof. intros. rewrite <- Z.land_ones by done. f_equal. rewrite Z.ones_equiv. lia. Qed.

(** Masking out the low [k] of [w] bits. *)
Lemma land_high_mod x k w :
  0 <= k <= w -> Z.land x (2 ^ w - 2 ^ k) = x mod 2 ^ w - x mod 2 ^ k.
Proof.
  intros Hk. replace (2 ^ w - 2 ^ k) with (Z.shiftl (Z.ones (w - k)) k).
  2: { rewrite Z.shiftl_mul_pow2, Z.ones_equiv by lia.
       replace (2 ^ w) with (2 ^ (w - k) * 2 ^ k) by (rewrite <- Z.pow_add_r by lia; f_equal; lia).
       lia. }
  replace (x mod 2 ^ w - x mod 2 ^ k) with (Z.shiftl ((x mod 2 ^ w) / 2 ^ k) k).
  2: { rewrite Z.shiftl_mul_pow2 by lia.
       pose proof (Z.div_mod (x mod 2 ^ w) (2 ^ k)) as Hd.
       replace ((x mod 2 ^ w) mod 2 ^ k) with (x mod 2 ^ k) in Hd; [lia|].
       replace (2 ^ w) with (2 ^ k * 2 ^ (w - k)) by (rewrite <- Z.pow_add_r by lia; f_equal; lia).
       rewrite Z.rem_mul_r by lia. rewrite (Z.mul_comm (2 ^ k)), Z.mod_add by lia.
       by rewrite Z.mod_mod by lia. }
  apply Z.bits_inj'. intros n Hn. rewrite Z.land_spec.
  destruct (Z.ltb_spec n k).
  - rewrite !Z.shiftl_spec_low by done. by rewrite andb_false_r.
  - rewrite !Z.shiftl_spec_high by lia. rewrite Z.div_pow2_bits by lia.
    replace (n - k + k) with n by lia. destruct (Z.ltb_spec n w).
    + rewrite Z.ones_spec_low by lia. by rewrite andb_true_r, Z.mod_pow2_bits_low by lia.
    + rewrite Z.ones_spec_high by lia. by rewrite andb_false_r, Z.mod_pow2_bits_high by lia.
Qed.

(** Or-ing disjoint bits is adding. *)
Lemma lor_add x y k : 0 <= k -> 0 <= y < 2 ^ k -> x mod 2 ^ k = 0 -> Z.lor x y = x + y.
Proof.
  intros Hk Hy Hx. rewrite <- Z.lxor_lor, <- Z.add_nocarry_lxor; try done.
  all: apply Z.bits_inj'; intros n Hn; rewrite Z.land_spec, Z.bits_0.
  all: destruct (Z.ltb_spec n k).
  all: try (rewrite <- (Z.mod_small y (2 ^ k)) by done; rewrite (Z.mod_pow2_bits_high y) by lia;
            by rewrite andb_false_r).
  all: rewrite <- (Z.mod_pow2_bits_low x k) by lia; by rewrite Hx, Z.bits_0.
Qed.

Lemma land_bit0 x : Z.land x 1 = x mod 2.
Proof. apply (land_ones_mod x 1). lia. Qed.

(** ** Lists *)

Section lists.
Context {A : Type}.
Implicit Types (l : list A).

(** Insertion before position [i]. *)
Definition insert_at l (i : nat) (x : A) : list A := take i l ++ x :: drop i l.

Lemma length_insert_at l i x : (i <= length l)%nat -> length (insert_at l i x) = S (length l).
Proof. intros. unfold insert_at. rewrite length_app, length_take; simpl. rewrite length_drop. lia. Qed.

Lemma lookup_insert_at_lt l i j x : (j < i <= length l)%nat -> insert_at l i x !! j = l !! j.
Proof.
  intros. unfold insert_at. rewrite lookup_app_l by (rewrite length_take; lia).
  by rewrite lookup_take_lt by lia.
Qed.

Lemma lookup_insert_at_eq l i x : (i <= length l)%nat -> insert_at l i x !! i = Some x.
Proof.
  intros. unfold insert_at. rewrite lookup_app_r by (rewrite length_take; lia).
  rewrite length_take. by replace (i - i `min` length l)%nat with 0%nat by lia.
Qed.

Lemma lookup_insert_at_gt l i j x :
  (i <= j)%nat -> (i <= length l)%nat -> insert_at l i x !! S j = l !! j.
Proof.
  intros. unfold insert_at. rewrite lookup_app_r by (rewrite length_take; lia).
  rewrite length_take. replace (S j - i `min` length l)%nat with (S (j - i)) by lia.
  simpl. rewrite lookup_drop. f_equal. lia.
Qed.

End lists.

(** Distinct numbers below a bound. *)
Lemma data_length (T : Z) (bs : list Z) : NoDup bs -> Forall (fun b => 0 <= b < T) bs -> Z.of_nat (length bs) <= Z.max 0 T.
Proof.
  intros Hnd Hin. assert (Hsub : bs ⊆+ seqZ 0 T).
  { apply NoDup_submseteq; [done|]. intros x Hx. apply elem_of_seqZ. rewrite Forall_forall in Hin. specialize (Hin x Hx). lia. }
  apply submseteq_length in Hsub. rewrite length_seqZ in Hsub. lia.
Qed.

(** ** Automation *)

Create HintDb kernel.

(** Case analysis on the boolean tests of the code, turned into
    propositions. *)
Ltac case_bool :=
  match goal with
  | |- context [?a =? ?b] => destruct (Z.eqb_spec a b)
  | |- context [?a <? ?b] => destruct (Z.ltb_spec a b)
  | |- context [?a <=? ?b] => destruct (Z.leb_spec a b)
  | H : context [?a =? ?b] |- _ => destruct (Z.eqb_spec a b)
  | H : context [?a <? ?b] |- _ => destruct (Z.ltb_spec a b)
  | H : context [?a <=? ?b] |- _ => destruct (Z.leb_spec a b)
  end.

(** [for_inv P as pat] runs the next [for_loop] of the goal with the loop
    invariant [P]. *)
Tactic Notation "for_inv" constr(P) "as" simple_intropattern(pat) :=
  match goal with
  | |- context [for_loop ?n ?i ?b ?s] => destruct (for_loop_ind P n i b s) as pat
  end.
