(* ===== verification/Vec.v ===== *)
(** * Growable vectors: kernel/data-structs/vec.c

    The [Vec] of the kernel (ready queues, wait queues, descriptor tables,
    thread tables, memory segments) and the list it stands for.  The element
    type is a parameter, as [ptr_t] is [void *] in the source; a slot of the
    backing array is [None] while its value is indeterminate (fresh [kmalloc]
    memory).  Calls of the element destructor are returned as the list of
    destroyed elements, in call order. *)

From S2P Require Import Prelude.

(** ** Backing arrays *)

Section array.
Context {A : Type}.
Implicit Types (d : list (option A)).

Definition load_slot d (i : Z) : outcome (option A) :=
  if 0 <=? i then checked (d !! Z.to_nat i) else Fault.

Definition load d (i : Z) : outcome A :=
  slot ← load_slot d i; checked slot.

Definition store d (i : Z) (x : option A) : outcome (list (option A)) :=
  if (0 <=? i) && (i <? Z.of_nat (length d))
  then Ok (<[Z.to_nat i := x]> d)
  else Fault.

End array.

(** ** The operations *)

Record Vec (A : Type) := mkVec {
  vdata : list (option A);
  vlen : Z;
  vcap : Z;
  vdtor : bool;   (* ele_dtor_fn != NULL *)
}.
Arguments mkVec {A} _ _ _ _.
Arguments vdata {A} _.
Arguments vlen {A} _.
Arguments vcap {A} _.
Arguments vdtor {A} _.

Section vec.
Context {A : Type}.
Implicit Types (self : Vec A).

Definition set_data self d : Vec A := mkVec d (vlen self) (vcap self) (vdtor self).
Definition set_len self n : Vec A := mkVec (vdata self) n (vcap self) (vdtor self).

Definition vec_new (grant : Z -> bool) (initial_capacity : Z) (dtor : bool)
    : outcome (Vec A) :=
  let bytes := to_u64 (8 * initial_capacity) in
  if kmalloc_ok grant bytes
  then Ok (mkVec (replicate (Z.to_nat (bytes / 8)) None) 0 initial_capacity dtor)
  else Fatal.

Definition vec_is_empty self : bool := vlen self =? 0.

Definition vec_get self (index : Z) : outcome A :=
  if vlen self <=? index then Fatal else load (vdata self) index.

(** [vec_set] returns the vector and the destroyed elements. *)
Definition vec_set self (index : Z) (new_ele : A) : outcome (Vec A * list A) :=
  if vlen self <=? index then Fatal else
  old_data ← load (vdata self) index;
  d ← store (vdata self) index (Some new_ele);
  Ok (set_data self d, if vdtor self then [old_data] else []).

Definition vec_reserve (grant : Z -> bool) self (new_capacity : Z) : outcome (Vec A) :=
  if new_capacity <? vlen self then Fatal else
  let bytes := to_u64 (8 * new_capacity) in
  if kmalloc_ok grant bytes then
    d ← for_loop (Z.to_nat (vlen self)) 0
          (fun i d => slot ← load_slot (vdata self) i; store d i slot)
          (replicate (Z.to_nat (bytes / 8)) None);
    Ok (mkVec d (vlen self) new_capacity (vdtor self))
  else Fatal.

(** The growth both [vec_push_back] and [vec_insert] ask for. *)
Definition grown_capacity self : Z :=
  if vcap self =? 0 then 1 else to_u64 (vcap self * 2).

Definition vec_push_back (grant : Z -> bool) self (new_ele : A) : outcome (Vec A) :=
  self ← (if vcap self <=? vlen self
          then vec_reserve grant self (grown_capacity self)
          else Ok self);
  d ← store (vdata self) (vlen self) (Some new_ele);
  Ok (set_len (set_data self d) (vlen self + 1)).

(** Returns the vector and [*deleted_elem], NULL being [None]; the boolean
    result of the source is whether it is not [None]. *)
Definition vec_pop_back self : outcome (Vec A * option A) :=
  if vec_is_empty self then Ok (self, None) else
  let self := set_len self (vlen self - 1) in
  x ← load (vdata self) (vlen self);
  Ok (self, Some x).

(** The part of [vec_insert] that makes room at [index] by moving the later
    elements up. *)
Definition vec_insert_shift self (index : Z) (new_ele : A) : outcome (Vec A) :=
  temp ← load_slot (vdata self) index;
  d ← store (vdata self) index (Some new_ele);
  '(d, temp) ← for_loop (Z.to_nat (vlen self - (index + 1))) (index + 1)
     (fun i '(d, temp) =>
        temp2 ← load_slot d i;
        d ← store d i temp;
        Ok (d, temp2)) (d, temp);
  d ← store d (vlen self) temp;
  Ok (set_len (set_data self d) (vlen self + 1)).

Definition vec_insert (grant : Z -> bool) self (index : Z) (new_ele : A)
    : outcome (Vec A) :=
  if index =? vlen self then vec_push_back grant self new_ele else
  if vlen self <? index then Fatal else
  self ← (if vlen self =? vcap self
          then vec_reserve grant self (grown_capacity self)
          else Ok self);
  vec_insert_shift self index new_ele.

Definition vec_erase self (index : Z) : outcome (Vec A * list A) :=
  if vlen self <=? index then Fatal else
  dead ← (if vdtor self then x ← load (vdata self) index; Ok [x] else Ok []);
  d ← for_loop (Z.to_nat (vlen self - 1 - index)) index
     (fun i d => slot ← load_slot d (i + 1); store d i slot) (vdata self);
  Ok (set_len (set_data self d) (vlen self - 1), dead).

Definition vec_clear self : outcome (Vec A * list A) :=
  dead ← (if vdtor self
          then for_loop (Z.to_nat (vlen self)) 0
                 (fun i dead => x ← load (vdata self) i; Ok (dead ++ [x])) []
          else Ok []);
  Ok (set_len self 0, dead).

Definition vec_destroy self : outcome (Vec A * list A) :=
  '(self, dead) ← vec_clear self;
  Ok (mkVec [] 0 0 (vdtor self), dead).

(** ** What a vector stands for *)

(** [vrep v l]: [v] holds the elements [l], its array has as many slots as its
    capacity says, and that fits the kernel heap. *)
Record vrep (v : Vec A) (l : list A) : Prop := {
  vrep_data : forall i x, l !! i = Some x -> vdata v !! i = Some (Some x);
  vrep_len : vlen v = Z.of_nat (length l);
  vrep_cap : vcap v = Z.of_nat (length (vdata v));
  vrep_fits : vlen v <= vcap v;
  vrep_bound : 8 * vcap v <= KERNEL_HEAP_SIZE;
}.

(** ** Lemmas on the backing array *)

Lemma load_slot_lookup (d : list (option A)) i s :
  0 <= i -> d !! Z.to_nat i = Some s -> load_slot d i = Ok s.
Proof. intros Hi Hd. unfold load_slot. case_bool; [|lia]. by rewrite Hd. Qed.

Lemma store_ok (d : list (option A)) i x :
  0 <= i < Z.of_nat (length d) -> store d i x = Ok (<[Z.to_nat i := x]> d).
Proof. intros Hi. unfold store. repeat case_bool; done || lia. Qed.

Lemma vrep_load v l i x :
  vrep v l -> 0 <= i -> l !! Z.to_nat i = Some x -> load (vdata v) i = Ok x.
Proof.
  intros Hv Hi Hl. unfold load.
  by rewrite (load_slot_lookup _ _ (Some x)) by eauto using vrep_data.
Qed.

Lemma vrep_index v l i :
  vrep v l -> 0 <= i < vlen v -> exists x, l !! Z.to_nat i = Some x.
Proof.
  intros Hv Hi. apply lookup_lt_is_Some_2. rewrite (vrep_len _ _ Hv) in Hi. lia.
Qed.

(** The copy loop of [vec_reserve]. *)
Lemma vec_reserve_spec grant v l c :
  vrep v l -> vlen v <= c -> 0 <= c < 2 ^ 61 ->
  (kmalloc_ok grant (8 * c) = true ->
   exists v', vec_reserve grant v c = Ok v' /\ vrep v' l /\
     vcap v' = c /\ vlen v' = vlen v /\ vdtor v' = vdtor v) /\
  (kmalloc_ok grant (8 * c) = false -> vec_reserve grant v c = Fatal).
Proof.
  intros Hv Hc Hb. pose proof (vrep_len _ _ Hv) as Hlen.
  unfold vec_reserve, to_u64. case_bool; [lia|].
  rewrite wrap_small by lia. split; intros Hg; rewrite Hg; [|done].
  apply kmalloc_ok_bound in Hg as Hg'.
  replace (8 * c / 8) with c by (rewrite Z.mul_comm, Z.div_mul; lia).
  for_inv (fun i (d : list (option A)) => length d = Z.to_nat c /\
      forall j x, Z.of_nat j < i -> l !! j = Some x -> d !! j = Some (Some x))
    as (d & Ed & Hd & Hl).
  - split; [apply length_replicate | intros; lia].
  - intros j d Hj [Hd Hl].
    destruct (vrep_index v l j) as [x Hx]; [done | lia |]. cbv beta.
    rewrite (load_slot_lookup _ _ (Some x)) by (try lia; by apply (vrep_data _ _ Hv)).
    simpl. rewrite store_ok by lia. eexists; split; [done|].
    rewrite length_insert. split; [done|]. intros k y Hk Hy.
    destruct (decide (k = Z.to_nat j)) as [->|].
    + rewrite list_lookup_insert_eq by lia. congruence.
    + rewrite list_lookup_insert_ne by done. apply Hl; [lia | done].
  - rewrite Ed. simpl. eexists; split; [done|]. split; [|done].
    constructor; simpl; try lia.
    intros i x Hx. apply Hl; [|done]. apply lookup_lt_Some in Hx. lia.
Qed.

(** Growth never goes wrong: either the vector has room for one more element
    afterwards, or the allocation was refused. *)
Lemma vec_grow_spec grant v l :
  vrep v l -> vlen v = vcap v ->
  vec_reserve grant v (grown_capacity v) = Fatal \/
  exists v', vec_reserve grant v (grown_capacity v) = Ok v' /\ vrep v' l /\
    vlen v' = vlen v /\ vlen v' < vcap v' /\ vdtor v' = vdtor v.
Proof.
  intros Hv Heq. pose proof (vrep_len _ _ Hv). pose proof (vrep_bound _ _ Hv) as Hb.
  unfold KERNEL_HEAP_SIZE in Hb.
  assert (vlen v < grown_capacity v < 2 ^ 61) as Hg.
  { unfold grown_capacity, to_u64. case_bool; [lia|]. rewrite wrap_small; lia. }
  destruct (vec_reserve_spec grant v l (grown_capacity v)) as [Ht Hf]; [done | lia | lia |].
  destruct (kmalloc_ok grant (8 * grown_capacity v)); [right | left; auto].
  destruct Ht as (v' & -> & Hv' & Hc & Hl & Hd); [done|].
  exists v'. split_and!; done || lia.
Qed.

(** Storing at the first free slot appends. *)
Lemma vrep_snoc v l x d :
  vrep v l -> vlen v < vcap v -> store (vdata v) (vlen v) (Some x) = Ok d ->
  vrep (set_len (set_data v d) (vlen v + 1)) (l ++ [x]).
Proof.
  intros Hv Hlt Hs. pose proof (vrep_len _ _ Hv). pose proof (vrep_cap _ _ Hv).
  rewrite store_ok in Hs by lia. injection Hs as <-.
  constructor; simpl; rewrite ?length_insert, ?length_app; simpl; try lia.
  2: apply Hv.
  intros i y Hi. destruct (decide (i = Z.to_nat (vlen v))) as [->|Hne].
  - rewrite list_lookup_insert_eq by lia.
    rewrite lookup_app_r in Hi by lia.
    replace (Z.to_nat (vlen v) - length l)%nat with 0%nat in Hi by lia. simpl in Hi. congruence.
  - rewrite list_lookup_insert_ne by done. apply (vrep_data _ _ Hv).
    apply lookup_lt_Some in Hi as Hlt'. rewrite length_app in Hlt'. simpl in Hlt'.
    by rewrite lookup_app_l in Hi by lia.
Qed.

Lemma vec_push_back_spec grant v l x :
  vrep v l ->
  (vec_push_back grant v x = Fatal /\ vlen v = vcap v) \/
  exists v', vec_push_back grant v x = Ok v' /\ vrep v' (l ++ [x]) /\ vdtor v' = vdtor v.
Proof.
  intros Hv. unfold vec_push_back.
  assert (forall u, vrep u l -> vlen u < vcap u -> exists d,
    store (vdata u) (vlen u) (Some x) = Ok d) as Hstore.
  { intros u Hu Hlt. rewrite store_ok; [eauto|].
    pose proof (vrep_len _ _ Hu). pose proof (vrep_cap _ _ Hu). lia. }
  case_bool.
  - pose proof (vrep_fits _ _ Hv).
    destruct (vec_grow_spec grant v l) as [E|(u & E & Hu & Hlu & Hcu & Hdu)];
      [done | lia | left; rewrite E; split; [done | lia] |].
    right. rewrite E. simpl. destruct (Hstore u) as [d Ed]; [done | done |].
    rewrite Ed. simpl. eexists; split; [done|]. split; [by apply vrep_snoc | done].
  - right. simpl. destruct (Hstore v) as [d Ed]; [done | done |].
    rewrite Ed. simpl. eexists; split; [done|]. split; [by apply vrep_snoc | done].
Qed.

Lemma vec_get_spec v l i :
  vrep v l -> 0 <= i ->
  vec_get v i = match l !! Z.to_nat i with Some x => Ok x | None => Fatal end.
Proof.
  intros Hv Hi. pose proof (vrep_len _ _ Hv). unfold vec_get. case_bool.
  - by rewrite lookup_ge_None_2 by lia.
  - destruct (vrep_index v l i) as [x Hx]; [done | lia |].
    rewrite Hx. by eapply vrep_load.
Qed.

Lemma vec_set_spec v l i x :
  vrep v l -> 0 <= i ->
  match l !! Z.to_nat i with
  | Some old => exists v', vec_set v i x = Ok (v', if vdtor v then [old] else []) /\
      vrep v' (<[Z.to_nat i := x]> l) /\ vdtor v' = vdtor v
  | None => vec_set v i x = Fatal
  end.
Proof.
  intros Hv Hi. pose proof (vrep_len _ _ Hv). pose proof (vrep_cap _ _ Hv).
  pose proof (vrep_fits _ _ Hv). unfold vec_set. case_bool.
  - by rewrite lookup_ge_None_2 by lia.
  - destruct (vrep_index v l i) as [old Hx]; [done | lia |].
    rewrite Hx, (vrep_load v l i old) by done. simpl. rewrite store_ok by lia. simpl.
    eexists. split_and!; [done | | done].
    constructor; simpl; rewrite ?length_insert; try lia; [|apply Hv].
    intros j y. rewrite !list_lookup_insert. rewrite !length_insert || idtac.
    intros Hy. repeat case_decide; try (by apply (vrep_data _ _ Hv)); try lia; congruence.
Qed.

Lemma vec_pop_back_spec v l :
  vrep v l ->
  exists v', vec_pop_back v = Ok (v', last l) /\ vrep v' (removelast l) /\ vdtor v' = vdtor v.
Proof.
  intros Hv. pose proof (vrep_len _ _ Hv). unfold vec_pop_back, vec_is_empty.
  destruct l as [|x l _] using rev_ind.
  - case_bool; [|simpl in *; lia]. by exists v.
  - rewrite length_app in *. simpl in *. case_bool; [lia|]. rewrite last_snoc, removelast_last.
    rewrite (vrep_load v (l ++ [x]) _ x); [simpl | done | lia |].
    + eexists. split_and!; [done | | done]. constructor; simpl; try lia; try apply Hv.
      * intros i y Hy. apply (vrep_data _ _ Hv). by apply lookup_app_l_Some.
      * pose proof (vrep_fits _ _ Hv). lia.
    + rewrite lookup_app_r by lia.
      by replace (Z.to_nat (vlen v - 1) - length l)%nat with 0%nat by lia.
Qed.

(** The shifting loop of [vec_insert]: slots below [i] already hold the new
    sequence, [temp] the element displaced last, the others the old one. *)
Definition shift_inv (n : nat) (l : list A) (idx : nat) (x : A) (i : Z)
    (st : list (option A) * option A) : Prop :=
  let '(d, temp) := st in
  length d = n /\
  (forall j y, Z.of_nat j < i -> insert_at l idx x !! j = Some y -> d !! j = Some (Some y)) /\
  (forall j y, i <= Z.of_nat j -> l !! j = Some y -> d !! j = Some (Some y)) /\
  temp = l !! Z.to_nat (i - 1).

Lemma shift_inv_init d l idx x :
  (forall i y, l !! i = Some y -> d !! i = Some (Some y)) ->
  (idx < length l < length d)%nat ->
  shift_inv (length d) l idx x (Z.of_nat idx + 1) (<[idx := Some x]> d, l !! idx).
Proof.
  intros Hd Hlt. split_and!; [by rewrite length_insert | | |f_equal; lia].
  - intros j y Hj Hy. destruct (decide (j = idx)) as [->|].
    + rewrite list_lookup_insert_eq by lia. rewrite lookup_insert_at_eq in Hy by lia. congruence.
    + rewrite list_lookup_insert_ne by done. rewrite lookup_insert_at_lt in Hy by lia. auto.
  - intros j y Hj Hy. rewrite list_lookup_insert_ne by lia. auto.
Qed.

Lemma shift_inv_step n l idx x i d temp :
  (idx < length l < n)%nat -> Z.of_nat idx < i < Z.of_nat (length l) ->
  shift_inv n l idx x i (d, temp) ->
  exists temp2, load_slot d i = Ok temp2 /\
    store d i temp = Ok (<[Z.to_nat i := temp]> d) /\
    shift_inv n l idx x (i + 1) (<[Z.to_nat i := temp]> d, temp2).
Proof.
  intros Hn Hi (Hlen & Hlo & Hhi & Ht).
  destruct (lookup_lt_is_Some_2 l (Z.to_nat i)) as [y Hy]; [lia|].
  destruct (lookup_lt_is_Some_2 l (Z.to_nat (i - 1))) as [z Hz]; [lia|].
  exists (Some y). rewrite Hz in Ht. subst temp.
  split; [apply load_slot_lookup; [lia | apply Hhi; [lia | done]]|].
  split; [apply store_ok; lia|]. split_and!; [by rewrite length_insert | | |].
  - intros j w Hj Hw. destruct (decide (j = Z.to_nat i)) as [->|].
    + rewrite list_lookup_insert_eq by lia.
      replace (Z.to_nat i) with (S (Z.to_nat (i - 1))) in Hw by lia.
      rewrite lookup_insert_at_gt in Hw by lia. congruence.
    + rewrite list_lookup_insert_ne by done. apply Hlo; [lia | done].
  - intros j w Hj Hw. rewrite list_lookup_insert_ne by lia. apply Hhi; [lia | done].
  - rewrite <- Hy. f_equal. lia.
Qed.

(** [vec_insert] in the middle, once there is room. *)
Lemma vec_insert_room v l idx x :
  vrep v l -> vlen v < vcap v -> (idx < length l)%nat ->
  exists v', vec_insert_shift v (Z.of_nat idx) x = Ok v' /\
    vrep v' (insert_at l idx x) /\ vdtor v' = vdtor v.
Proof.
  intros Hv Hlt Hidx. pose proof (vrep_len _ _ Hv) as Hlen. pose proof (vrep_cap _ _ Hv).
  destruct (lookup_lt_is_Some_2 l idx) as [t Ht]; [done|]. unfold vec_insert_shift.
  rewrite (load_slot_lookup _ _ (Some t)); [simpl | lia |].
  2: { rewrite Nat2Z.id. by apply (vrep_data _ _ Hv). }
  rewrite store_ok by lia. simpl. rewrite Nat2Z.id.
  for_inv (shift_inv (length (vdata v)) l idx x) as ([d temp] & E & Hs).
  - rewrite <- Ht. apply shift_inv_init; [apply Hv | lia].
  - intros j [d temp] Hj Hs.
    destruct (shift_inv_step (length (vdata v)) l idx x j d temp) as (t2 & E1 & E2 & Hs'); [lia | lia | done |].
    rewrite E1. simpl. rewrite E2. simpl. eauto.
  - rewrite E. simpl. destruct Hs as (Hd & Hlo & _ & ->). rewrite store_ok by lia. simpl.
    eexists. split_and!; [done | | done].
    constructor; simpl; rewrite ?length_insert, ?length_insert_at by lia; try lia; [|apply Hv].
    intros i y Hi. destruct (decide (i = Z.to_nat (vlen v))) as [->|].
    + rewrite list_lookup_insert_eq by lia. f_equal.
      replace (Z.to_nat (vlen v)) with (S (length l - 1)) in Hi by lia.
      rewrite lookup_insert_at_gt in Hi by lia. rewrite <- Hi. f_equal. lia.
    + rewrite list_lookup_insert_ne by done. apply Hlo; [|done].
      apply lookup_lt_Some in Hi. rewrite length_insert_at in Hi by lia. lia.
Qed.

Lemma vec_insert_spec grant v l i x :
  vrep v l -> 0 <= i ->
  vec_insert grant v i x = Fatal /\ (vlen v < i \/ vlen v = vcap v) \/
  (i <= vlen v /\ exists v', vec_insert grant v i x = Ok v' /\
    vrep v' (insert_at l (Z.to_nat i) x) /\ vdtor v' = vdtor v).
Proof.
  intros Hv Hi. pose proof (vrep_len _ _ Hv). pose proof (vrep_fits _ _ Hv).
  unfold vec_insert. destruct (Z.eqb_spec i (vlen v)).
  { destruct (vec_push_back_spec grant v l x Hv) as [[E Hf]|(v' & E & Hv' & Hd)];
      [left; auto|]. right. split; [lia|]. exists v'. split_and!; [done | | done].
    unfold insert_at. rewrite take_ge, drop_ge by lia. done. }
  destruct (Z.ltb_spec (vlen v) i); [left; auto|].
  assert (forall u, vrep u l -> vlen u < vcap u -> exists v', vec_insert_shift u i x = Ok v' /\
      vrep v' (insert_at l (Z.to_nat i) x) /\ vdtor v' = vdtor u) as Hroom.
  { intros u Hu Hcu.
    destruct (vec_insert_room u l (Z.to_nat i) x) as (v' & E & Hv'); [done | done | lia |].
    rewrite Z2Nat.id in E by done. eauto. }
  destruct (Z.eqb_spec (vlen v) (vcap v)).
  - destruct (vec_grow_spec grant v l) as [E|(u & E & Hu & Hlu & Hcu & Hdu)];
      [done | done | left; rewrite E; auto |].
    right. split; [lia|]. rewrite E, <- Hdu. by apply Hroom.
  - right. split; [lia|]. apply Hroom; [done | lia].
Qed.

(** The closing-up loop of [vec_erase]. *)
Lemma vec_erase_spec v l i :
  vrep v l -> 0 <= i ->
  match l !! Z.to_nat i with
  | Some old => exists v', vec_erase v i = Ok (v', if vdtor v then [old] else []) /\
      vrep v' (delete (Z.to_nat i) l) /\ vdtor v' = vdtor v
  | None => vec_erase v i = Fatal
  end.
Proof.
  intros Hv Hi. pose proof (vrep_len _ _ Hv) as Hlen. pose proof (vrep_cap _ _ Hv) as Hcap.
  pose proof (vrep_fits _ _ Hv) as Hfit. unfold vec_erase. case_bool.
  { by rewrite lookup_ge_None_2 by lia. }
  destruct (vrep_index v l i) as [old Hold]; [done | lia |].
  rewrite Hold, (vrep_load v l i old) by done.
  replace (if vdtor v then _ else Ok []) with (Ok (if vdtor v then [old] else []))
    by (by destruct (vdtor v)). simpl.
  for_inv (fun k (d : list (option A)) => length d = length (vdata v) /\
    (forall j y, Z.of_nat j < k -> delete (Z.to_nat i) l !! j = Some y -> d !! j = Some (Some y)) /\
    (forall j y, k <= Z.of_nat j -> l !! j = Some y -> d !! j = Some (Some y)))
    as (d & E & Hd & Hlo & Hhi).
  - split_and!; [done | | intros; by apply (vrep_data _ _ Hv)].
    intros j y Hj Hy. apply (vrep_data _ _ Hv). by rewrite list_lookup_delete_lt in Hy by lia.
  - intros k d Hk (Hd & Hlo & Hhi).
    destruct (lookup_lt_is_Some_2 l (Z.to_nat (k + 1))) as [y Hy]; [lia|]. cbv beta.
    rewrite (load_slot_lookup _ _ (Some y)) by first [lia | apply Hhi; [lia | done]].
    simpl. rewrite store_ok by lia. eexists; split; [done|].
    split_and!; [by rewrite length_insert | |].
    + intros j z Hj Hz. destruct (decide (j = Z.to_nat k)) as [->|].
      * rewrite list_lookup_insert_eq by lia. rewrite list_lookup_delete_ge in Hz by lia.
        replace (S (Z.to_nat k)) with (Z.to_nat (k + 1)) in Hz by lia. congruence.
      * rewrite list_lookup_insert_ne by done. apply Hlo; [lia | done].
    + intros j z Hj Hz. rewrite list_lookup_insert_ne by lia. apply Hhi; [lia | done].
  - rewrite E. simpl. eexists. split_and!; [done | | done].
    pose proof (length_delete l (Z.to_nat i) (ltac:(eauto))) as Hdel.
    constructor; simpl; try lia; [|pose proof (vrep_bound _ _ Hv); lia].
    intros j y Hy. apply Hlo; [|done]. apply lookup_lt_Some in Hy. lia.
Qed.

Lemma vec_clear_spec v l :
  vrep v l ->
  exists v', vec_clear v = Ok (v', if vdtor v then l else []) /\ vrep v' [] /\ vdtor v' = vdtor v.
Proof.
  intros Hv. pose proof (vrep_len _ _ Hv) as Hlen. unfold vec_clear.
  assert (vrep (set_len v 0) []) as Hv'.
  { pose proof (vrep_fits _ _ Hv). constructor; simpl; try done; [apply Hv | lia | apply Hv]. }
  destruct (vdtor v) eqn:Hdt; [|by exists (set_len v 0)].
  for_inv (fun i dead => dead = take (Z.to_nat i) l) as (dead & E & ->).
  - done.
  - intros j dead Hj ->. destruct (vrep_index v l j) as [x Hx]; [done | lia |]. cbv beta.
    rewrite (vrep_load v l j x) by (done || lia). simpl. eexists; split; [done|].
    replace (Z.to_nat (j + 1)) with (S (Z.to_nat j)) by lia. by rewrite (take_S_r _ _ x).
  - rewrite E. simpl. exists (set_len v 0). split_and!; [|done|done].
    by rewrite take_ge by lia.
Qed.

(** A fresh vector is empty, whatever its initial capacity. *)
Lemma vec_new_spec grant c dtor :
  0 <= c < 2 ^ 61 ->
  vec_new grant c dtor = Fatal \/
  exists v, vec_new grant c dtor = Ok v /\ vrep v [] /\ vdtor v = dtor.
Proof.
  intros Hc. unfold vec_new, to_u64. rewrite wrap_small by lia.
  destruct (kmalloc_ok grant (8 * c)) eqn:Hg; [right | by left].
  apply kmalloc_ok_bound in Hg. eexists. split_and!; [done | | done].
  replace (8 * c / 8) with c by (rewrite Z.mul_comm, Z.div_mul; lia).
  constructor; simpl; rewrite ?length_replicate; done || lia.
Qed.

(** ** Sequences of operations

    [vec_step] runs one client call; [list_step] is what that call means on the
    list of elements.  The observation of a call is the value handed back to
    the caller and the elements passed to the destructor. *)

Inductive vec_op :=
| OpGet (i : N)
| OpSet (i : N) (x : A)
| OpPush (x : A)
| OpPop
| OpInsert (i : N) (x : A)
| OpErase (i : N)
| OpClear.

Definition obs : Type := option A * list A.

Definition vec_step (grant : Z -> bool) (v : Vec A) (op : vec_op) : outcome (Vec A * obs) :=
  match op with
  | OpGet i => x ← vec_get v (Z.of_N i); Ok (v, (Some x, []))
  | OpSet i x => '(v, dead) ← vec_set v (Z.of_N i) x; Ok (v, (None, dead))
  | OpPush x => v ← vec_push_back grant v x; Ok (v, (None, []))
  | OpPop => '(v, r) ← vec_pop_back v; Ok (v, (r, []))
  | OpInsert i x => v ← vec_insert grant v (Z.of_N i) x; Ok (v, (None, []))
  | OpErase i => '(v, dead) ← vec_erase v (Z.of_N i); Ok (v, (None, dead))
  | OpClear => '(v, dead) ← vec_clear v; Ok (v, (None, dead))
  end.

Definition list_step (dtor : bool) (l : list A) (op : vec_op) : outcome (list A * obs) :=
  let dead old := if dtor then [old] else [] in
  match op with
  | OpGet i => match l !! N.to_nat i with
               | Some x => Ok (l, (Some x, [])) | None => Fatal end
  | OpSet i x => match l !! N.to_nat i with
                 | Some old => Ok (<[N.to_nat i := x]> l, (None, dead old)) | None => Fatal end
  | OpPush x => Ok (l ++ [x], (None, []))
  | OpPop => Ok (removelast l, (last l, []))
  | OpInsert i x => if decide (N.to_nat i <= length l)%nat
                    then Ok (insert_at l (N.to_nat i) x, (None, [])) else Fatal
  | OpErase i => match l !! N.to_nat i with
                 | Some old => Ok (delete (N.to_nat i) l, (None, dead old)) | None => Fatal end
  | OpClear => Ok ([], (None, if dtor then l else []))
  end.

(** Runs, collecting observations; [grants] says how the heap answers at each
    call. *)
Fixpoint vec_run (grants : nat -> Z -> bool) (v : Vec A) (ops : list vec_op)
    : list obs * outcome (Vec A) :=
  match ops with
  | [] => ([], Ok v)
  | op :: ops =>
      match vec_step (grants (length ops)) v op with
      | Ok (v, o) => let '(os, r) := vec_run grants v ops in (o :: os, r)
      | Fatal => ([], Fatal)
      | Fault => ([], Fault)
      | Hang => ([], Hang)
      end
  end.

Fixpoint list_run (dtor : bool) (l : list A) (ops : list vec_op)
    : list obs * outcome (list A) :=
  match ops with
  | [] => ([], Ok l)
  | op :: ops =>
      match list_step dtor l op with
      | Ok (l, o) => let '(os, r) := list_run dtor l ops in (o :: os, r)
      | Fatal => ([], Fatal)
      | Fault => ([], Fault)
      | Hang => ([], Hang)
      end
  end.

(** One call: it agrees with the list, or the heap refused to let the vector
    grow and the call is fatal. *)
Lemma vec_step_sim grant v l op :
  vrep v l ->
  vec_step grant v op = Fatal \/
  exists v' l' o, vec_step grant v op = Ok (v', o) /\
    list_step (vdtor v) l op = Ok (l', o) /\ vrep v' l' /\ vdtor v' = vdtor v.
Proof.
  intros Hv. pose proof (vrep_len _ _ Hv).
  assert (forall i, Z.to_nat (Z.of_N i) = N.to_nat i) as Hi by lia.
  destruct op as [i|i x|x| |i x|i|]; unfold vec_step, list_step.
  - rewrite (vec_get_spec v l), Hi by (done || lia).
    destruct (l !! N.to_nat i); [right; simpl; eauto 10 | by left].
  - pose proof (vec_set_spec v l (Z.of_N i) x Hv ltac:(lia)) as Hs. rewrite Hi in Hs.
    destruct (l !! N.to_nat i); [|left; by rewrite Hs].
    right. destruct Hs as (v' & -> & ? & ?). simpl. eauto 10.
  - destruct (vec_push_back_spec grant v l x Hv) as [[-> _]|(v' & -> & ? & ?)];
      [by left | right; simpl; eauto 10].
  - destruct (vec_pop_back_spec v l Hv) as (v' & -> & ? & ?). right; simpl; eauto 10.
  - destruct (vec_insert_spec grant v l (Z.of_N i) x Hv ltac:(lia))
      as [[-> _]|(? & v' & -> & Hv' & ?)]; [by left | right].
    rewrite Hi in Hv'. rewrite decide_True by lia. simpl. eauto 10.
  - pose proof (vec_erase_spec v l (Z.of_N i) Hv ltac:(lia)) as Hs. rewrite Hi in Hs.
    destruct (l !! N.to_nat i); [|left; by rewrite Hs].
    right. destruct Hs as (v' & -> & ? & ?). simpl. eauto 10.
  - destruct (vec_clear_spec v l Hv) as (v' & -> & ? & ?). right; simpl; eauto 10.
Qed.

Lemma vec_run_sim grants ops v l :
  vrep v l ->
  let '(os, r) := vec_run grants v ops in
  let '(os', r') := list_run (vdtor v) l ops in
  os `prefix_of` os' /\
  match r with
  | Ok v' => os = os' /\ exists l', r' = Ok l' /\ vrep v' l'
  | Fatal => True
  | Fault | Hang => False
  end.
Proof.
  revert v l. induction ops as [|op ops IH]; intros v l Hv; simpl; [by eauto|].
  destruct (vec_step_sim (grants (length ops)) v l op Hv)
    as [->|(v' & l' & o & -> & -> & Hv' & Hd)].
  - destruct (match list_step _ _ _ with Ok _ => _ | Fatal => _ | Fault => _ | Hang => _ end).
    split; [apply prefix_nil | done].
  - specialize (IH v' l' Hv'). rewrite Hd in IH.
    destruct (vec_run grants v' ops) as [os r], (list_run (vdtor v) l' ops) as [os' r'].
    destruct IH as [Hp Hr]. split; [by apply prefix_cons|].
    destruct r; [|done..]. destruct Hr as [-> ?]. done.
Qed.

(** Index errors are reported, never turned into stray accesses: on a vector
    holding [l] a call is fatal only for an index outside [l], or when the
    vector is full and the heap refuses more memory. *)
Lemma vec_step_fatal grant v l op :
  vrep v l -> vec_step grant v op = Fatal ->
  list_step (vdtor v) l op = Fatal \/ vlen v = vcap v.
Proof.
  intros Hv Hf. pose proof (vrep_len _ _ Hv).
  assert (forall i, Z.to_nat (Z.of_N i) = N.to_nat i) as Hi by lia.
  destruct op as [i|i x|x| |i x|i|]; unfold vec_step, list_step in *.
  - left. rewrite (vec_get_spec v l), Hi in Hf by (done || lia).
    by destruct (l !! N.to_nat i).
  - left. pose proof (vec_set_spec v l (Z.of_N i) x Hv ltac:(lia)) as Hs. rewrite Hi in Hs.
    destruct (l !! N.to_nat i); [|done]. by destruct Hs as (? & E & _); rewrite E in Hf.
  - right. destruct (vec_push_back_spec grant v l x Hv) as [[_ ?]|(v' & E & _)];
      [done | by rewrite E in Hf].
  - by destruct (vec_pop_back_spec v l Hv) as (v' & E & _); rewrite E in Hf.
  - destruct (vec_insert_spec grant v l (Z.of_N i) x Hv ltac:(lia))
      as [[_ [?|?]]|(_ & v' & E & _)]; [left | by right | by rewrite E in Hf].
    by rewrite decide_False by lia.
  - left. pose proof (vec_erase_spec v l (Z.of_N i) Hv ltac:(lia)) as Hs. rewrite Hi in Hs.
    destruct (l !! N.to_nat i); [|done]. by destruct Hs as (? & E & _); rewrite E in Hf.
  - by destruct (vec_clear_spec v l Hv) as (v' & E & _); rewrite E in Hf.
Qed.

End vec.

Arguments OpGet {A} i.
Arguments OpSet {A} i x.
Arguments OpPush {A} x.
Arguments OpPop {A}.
Arguments OpInsert {A} i x.
Arguments OpErase {A} i.
Arguments OpClear {A}.

(** C21.  Refinement of [vec.c] to lists.  For every initial capacity and every
    sequence of get, set, push, pop, insert, erase and clear calls, a vector
    made by [vec_new] hands back exactly the values, and destroys exactly the
    elements, that the same calls give on a list; it never accesses memory
    outside its array or an indeterminate slot; and if the run completes, the
    vector holds the list.  The only other outcome is [fatal_exception]. *)
Theorem vec_refines_list {A} grant grants c dtor (ops : list (vec_op (A := A))) :
  0 <= c < 2 ^ 61 ->
  match vec_new grant c dtor with
  | Ok v =>
      let '(os, r) := vec_run grants v ops in
      let '(os', r') := list_run dtor [] ops in
      os `prefix_of` os' /\
      match r with
      | Ok v' => os = os' /\ exists l', r' = Ok l' /\ vrep v' l'
      | Fatal => True
      | Fault | Hang => False
      end
  | Fatal => kmalloc_ok grant (8 * c) = false
  | Fault | Hang => False
  end.
Proof.
  intros Hc. destruct (vec_new_spec (A := A) grant c dtor Hc) as [E|(v & -> & Hv & Hd)].
  - rewrite E. revert E. unfold vec_new, to_u64. rewrite wrap_small by lia.
    by destruct (kmalloc_ok grant (8 * c)).
  - rewrite <- Hd. by apply vec_run_sim.
Qed.

Lemma vec_refines_list_witness :
  match vec_new (fun _ => true) 1 true with
  | Ok v => (vec_run (fun _ _ => true) v
      [OpPush 7; OpPush 8; OpInsert 1 9; OpErase 0; OpPop; OpGet 0]).1
      `prefix_of` [(None, []); (None, []); (None, []); (None, [7]); (Some 8, []); (Some 9, [])]
  | _ => False
  end.
Proof.
  pose proof (vec_refines_list (fun _ => true) (fun _ _ => true) 1 true
    [OpPush 7; OpPush 8; OpInsert 1 9; OpErase 0; OpPop; OpGet 0] ltac:(lia)) as H.
  vm_compute in H |- *. apply H.
Defined.

(**  Fatal exits of [vec.c] are exactly the documented ones: a call on a
    well-formed vector ends in [fatal_exception] only when its index is out of
    bounds, or when the vector is full and [kmalloc] refuses the larger array. *)
Theorem vec_fatal_only_when {A} grant v (l : list A) op :
  vrep v l -> vec_step grant v op = Fatal ->
  list_step (vdtor v) l op = Fatal \/ vlen v = vcap v.
Proof. apply vec_step_fatal. Qed.

Lemma vec_fatal_only_when_witness :
  list_step false [5] (OpGet 3) = Fatal \/ 1 = 1.
Proof.
  apply (vec_fatal_only_when (fun _ => false) (mkVec [Some 5] 1 1 false) [5] (OpGet 3)).
  - constructor; simpl; try done. by intros [|[|i]] x Hx; simplify_eq/=.
  - reflexivity.
Defined.
