(* ===== verification/RingBuffer.v ===== *)
(** * Byte ring buffers: kernel/data-structs/ring_buffer.c

    The buffer behind pipes and terminals.  [head] and [tail] are pointers into
    [data]; they are modelled by their offset from [data], NULL being [None].
    The bounded double-ended queue of [deque_step] is the specification. *)

From S2P Require Import Prelude Vec.

Record RingBuffer := mkRing {
  rb_head : option Z;
  rb_tail : option Z;
  rb_data : list (option Z);   (* the kmalloc'ed bytes; [] when data is NULL *)
  rb_capacity : Z;
  rb_size : Z;
}.

Definition create_ring_buffer (grant : Z -> bool) (cap : Z) : RingBuffer :=
  let bytes := to_u64 (8 * cap) in
  mkRing None None
    (if kmalloc_ok grant bytes then replicate (Z.to_nat bytes) None else [])
    cap 0.

(** Dereferencing a [char *] into the buffer. *)
Definition deref (b : RingBuffer) (p : option Z) : outcome Z :=
  off ← checked p; load (rb_data b) off.

Definition assign (b : RingBuffer) (p : option Z) (c : Z) : outcome (list (option Z)) :=
  off ← checked p; store (rb_data b) off (Some c).

(** [p == buf->data + off]. *)
Definition at_offset (p : option Z) (off : Z) : bool :=
  match p with Some o => o =? off | None => false end.

(** Pointer increment and decrement. *)
Definition ptr_add (p : option Z) (n : Z) : option Z := (fun o => o + n) <$> p.

(** Returns the buffer and [Some c] for [true] with [*next = c]. *)
Definition consume_ring_buffer (b : RingBuffer) : outcome (RingBuffer * option Z) :=
  if rb_size b =? 0 then Ok (b, None) else
  next ← deref b (rb_head b);
  let size' := rb_size b - 1 in
  let head' := if at_offset (rb_head b) (rb_capacity b - 1) then Some 0 else ptr_add (rb_head b) 1 in
  if size' =? 0
  then Ok (mkRing None None (rb_data b) (rb_capacity b) size', Some next)
  else Ok (mkRing head' (rb_tail b) (rb_data b) (rb_capacity b) size', Some next).

(** [buf] is [None] for a NULL pointer; returns the buffer and the result. *)
Definition produce_ring_buffer (buf : option RingBuffer) (next : Z)
    : outcome (option RingBuffer * bool) :=
  match buf with
  | None => Ok (None, false)
  | Some b =>
    if rb_size b =? rb_capacity b then Ok (Some b, false) else
    let '(head', tail') :=
      if rb_size b =? 0 then (Some 0, Some 0)
      else if at_offset (rb_tail b) (rb_capacity b - 1) then (rb_head b, Some 0)
      else (rb_head b, ptr_add (rb_tail b) 1) in
    d ← assign b tail' next;
    Ok (Some (mkRing head' tail' d (rb_capacity b) (rb_size b + 1)), true)
  end.

Definition remove_back_ring_buffer (buf : option RingBuffer)
    : outcome (option RingBuffer * bool) :=
  match buf with
  | None => Ok (None, false)
  | Some b =>
    if rb_size b =? 0 then Ok (Some b, false) else
    let size' := rb_size b - 1 in
    let tail' := if at_offset (rb_tail b) 0 then Some (rb_capacity b - 1)
                 else ptr_add (rb_tail b) (-1) in
    if size' =? 0
    then Ok (Some (mkRing None None (rb_data b) (rb_capacity b) size'), true)
    else Ok (Some (mkRing (rb_head b) tail' (rb_data b) (rb_capacity b) size'), true)
  end.

Definition destroy_ring_buffer (b : RingBuffer) : RingBuffer * Z :=
  (mkRing (rb_head b) (rb_tail b) [] (rb_capacity b) (rb_size b), 0).

(** ** Client calls and their meaning *)

Inductive ring_op :=
| Produce (c : Z)
| Consume
| RemoveBack.

(** [Some c] for a consumed byte; for the two other calls only the boolean. *)
Definition ring_step (b : RingBuffer) (op : ring_op) : outcome (RingBuffer * (bool * option Z)) :=
  match op with
  | Produce c =>
      '(b', r) ← produce_ring_buffer (Some b) c;
      b' ← checked b'; Ok (b', (r, None))
  | Consume => '(b', r) ← consume_ring_buffer b; Ok (b', (bool_decide (is_Some r), r))
  | RemoveBack =>
      '(b', r) ← remove_back_ring_buffer (Some b);
      b' ← checked b'; Ok (b', (r, None))
  end.

(** The specification: a queue of at most [cap] bytes, from which the newest
    byte can also be taken back. *)
Definition deque_step (cap : Z) (q : list Z) (op : ring_op) : list Z * (bool * option Z) :=
  match op with
  | Produce c => if Z.of_nat (length q) =? cap then (q, (false, None))
                 else (q ++ [c], (true, None))
  | Consume => match q with [] => ([], (false, None)) | c :: q => (q, (true, Some c)) end
  | RemoveBack => match q with [] => ([], (false, None)) | _ => (removelast q, (true, None)) end
  end.

Fixpoint ring_run (b : RingBuffer) (ops : list ring_op)
    : outcome (RingBuffer * list (bool * option Z)) :=
  match ops with
  | [] => Ok (b, [])
  | op :: ops => '(b, o) ← ring_step b op; '(b, os) ← ring_run b ops; Ok (b, o :: os)
  end.

Fixpoint deque_run (cap : Z) (q : list Z) (ops : list ring_op)
    : list Z * list (bool * option Z) :=
  match ops with
  | [] => (q, [])
  | op :: ops =>
      let '(q, o) := deque_step cap q op in
      let '(q, os) := deque_run cap q ops in (q, o :: os)
  end.

(** ** The representation invariant *)

(** Slot of the [i]-th queued byte when the oldest is at [h]. *)
Definition slot (cap h i : Z) : Z := if h + i <? cap then h + i else h + i - cap.

Record rrep (b : RingBuffer) (q : list Z) : Prop := {
  rrep_cap : 0 < rb_capacity b;
  rrep_room : rb_capacity b <= Z.of_nat (length (rb_data b));
  rrep_size : rb_size b = Z.of_nat (length q);
  rrep_full : rb_size b <= rb_capacity b;
  rrep_empty : q = [] -> rb_head b = None /\ rb_tail b = None;
  rrep_ptrs : q <> [] -> exists h, 0 <= h < rb_capacity b /\
    rb_head b = Some h /\ rb_tail b = Some (slot (rb_capacity b) h (rb_size b - 1)) /\
    forall i c, q !! i = Some c ->
      rb_data b !! Z.to_nat (slot (rb_capacity b) h (Z.of_nat i)) = Some (Some c);
}.

Lemma slot_bound cap h i : 0 <= h < cap -> 0 <= i < cap -> 0 <= slot cap h i < cap.
Proof. unfold slot. case_bool; lia. Qed.

Lemma ring_slot_inj cap h i j :
  0 <= h < cap -> 0 <= i < cap -> 0 <= j < cap -> slot cap h i = slot cap h j -> i = j.
Proof. unfold slot. repeat case_bool; lia. Qed.

Lemma rrep_create grant cap :
  0 < cap < 2 ^ 61 -> kmalloc_ok grant (8 * cap) = true ->
  rrep (create_ring_buffer grant cap) [].
Proof.
  intros Hc Hg. unfold create_ring_buffer, to_u64. rewrite wrap_small, Hg by lia.
  constructor; simpl; rewrite ?length_replicate; done || lia.
Qed.

Lemma deref_queued b q h i c :
  rrep b q -> 0 <= h < rb_capacity b -> q !! i = Some c ->
  rb_data b !! Z.to_nat (slot (rb_capacity b) h (Z.of_nat i)) = Some (Some c) ->
  deref b (Some (slot (rb_capacity b) h (Z.of_nat i))) = Ok c.
Proof.
  intros Hb Hh Hi Hd. apply lookup_lt_Some in Hi.
  pose proof (rrep_full _ _ Hb). pose proof (rrep_size _ _ Hb).
  pose proof (slot_bound (rb_capacity b) h (Z.of_nat i) Hh ltac:(lia)).
  unfold deref, load. simpl. by rewrite (load_slot_lookup _ _ (Some c)) by (done || lia).
Qed.

Lemma at_offset_tail b h i :
  0 <= h < rb_capacity b -> 0 <= i < rb_capacity b - 1 ->
  (if at_offset (Some (slot (rb_capacity b) h i)) (rb_capacity b - 1) then Some 0
   else ptr_add (Some (slot (rb_capacity b) h i)) 1) = Some (slot (rb_capacity b) h (i + 1)).
Proof. intros. unfold at_offset, slot. simpl. repeat case_bool; try lia; f_equal; lia. Qed.

Lemma at_offset_back b h i :
  0 <= h < rb_capacity b -> 0 < i < rb_capacity b ->
  (if at_offset (Some (slot (rb_capacity b) h i)) 0 then Some (rb_capacity b - 1)
   else ptr_add (Some (slot (rb_capacity b) h i)) (-1)) = Some (slot (rb_capacity b) h (i - 1)).
Proof. intros. unfold at_offset, slot. simpl. repeat case_bool; try lia; f_equal; lia. Qed.

(** The queue after [produce]: the new byte lands in a slot no queued byte
    uses. *)
Lemma produce_sim b q c :
  rrep b q -> rb_size b <> rb_capacity b ->
  exists b', produce_ring_buffer (Some b) c = Ok (Some b', true) /\
    rrep b' (q ++ [c]) /\ rb_capacity b' = rb_capacity b.
Proof.
  intros Hb Hne. destruct Hb as [Hcap Hroom Hsize Hfull Hemp Hptr]. unfold produce_ring_buffer.
  destruct (Z.eqb_spec (rb_size b) (rb_capacity b)); [lia|].
  assert (exists h, 0 <= h < rb_capacity b /\
    (if rb_size b =? 0 then (Some 0, Some 0)
      else if at_offset (rb_tail b) (rb_capacity b - 1) then (rb_head b, Some 0)
      else (rb_head b, ptr_add (rb_tail b) 1)) =
    (Some h, Some (slot (rb_capacity b) h (rb_size b))) /\
    forall i x, q !! i = Some x ->
      rb_data b !! Z.to_nat (slot (rb_capacity b) h (Z.of_nat i)) = Some (Some x))
    as (h & Hh & -> & Hq).
  { destruct (Z.eqb_spec (rb_size b) 0) as [E|E].
    - exists 0. assert (q = []) as -> by (apply length_zero_iff_nil; lia).
      rewrite E. unfold slot. case_bool; [|lia]. split_and!; done || lia.
    - destruct Hptr as (h & Hh & -> & -> & Hq); [intros ->; simpl in *; lia|].
      exists h. split_and!; [lia | lia | | done].
      pose proof (at_offset_tail b h (rb_size b - 1) Hh ltac:(lia)) as Ht.
      replace (rb_size b - 1 + 1) with (rb_size b) in Ht by lia. rewrite <- Ht.
      by destruct (at_offset _ _). }
  pose proof (slot_bound (rb_capacity b) h (rb_size b) Hh ltac:(lia)).
  unfold assign. simpl. rewrite store_ok by lia. simpl.
  eexists. split_and!; [done | | done].
  constructor; simpl; rewrite ?length_insert, ?length_app; simpl; try lia.
  { by destruct q. }
  intros _. exists h. split_and!; [lia | lia | done | f_equal; f_equal; lia |].
  intros i x Hi. destruct (decide (i = length q)) as [->|Hnq].
  - rewrite lookup_app_r, Nat.sub_diag in Hi by lia. simpl in Hi. injection Hi as ->.
    rewrite <- Hsize. by rewrite list_lookup_insert_eq by lia.
  - apply lookup_lt_Some in Hi as Hlt. rewrite length_app in Hlt. simpl in Hlt.
    rewrite lookup_app_l in Hi by lia.
    rewrite list_lookup_insert_ne; [by apply Hq|]. intros Heq.
    pose proof (slot_bound (rb_capacity b) h (Z.of_nat i) Hh ltac:(lia)).
    apply Z2Nat.inj in Heq; [|lia..].
    apply ring_slot_inj in Heq; [|lia..]. lia.
Qed.

Lemma consume_sim b c q :
  rrep b (c :: q) ->
  exists b', consume_ring_buffer b = Ok (b', Some c) /\ rrep b' q /\
    rb_capacity b' = rb_capacity b.
Proof.
  intros Hb. pose proof Hb as [Hcap Hroom Hsize Hfull Hemp Hptr]. simpl in Hsize.
  destruct Hptr as (h & Hh & Eh & Et & Hq); [done|].
  unfold consume_ring_buffer. destruct (Z.eqb_spec (rb_size b) 0); [lia|].
  assert (slot (rb_capacity b) h (Z.of_nat 0) = h) as Hs0
    by (unfold slot; case_bool; lia).
  pose proof (deref_queued b (c :: q) h 0 c Hb Hh eq_refl (Hq 0%nat c eq_refl)) as Hd.
  rewrite Hs0 in Hd. rewrite Eh, Hd. simpl.
  destruct (Z.eqb_spec (rb_size b - 1) 0) as [E|E].
  - eexists. split_and!; [done | | done].
    assert (q = []) as -> by (apply length_zero_iff_nil; lia).
    constructor; simpl; done || lia.
  - eexists. split_and!; [done | | done].
    pose proof (at_offset_tail b h 0 Hh ltac:(lia)) as Hh'.
    change (Z.of_nat 0) with 0 in Hs0. rewrite Hs0 in Hh'. simpl in Hh'.
    constructor; simpl; try lia; [intros ->; simpl in *; lia|].
    intros _. exists (slot (rb_capacity b) h 1).
    assert (forall i, 0 <= i < rb_capacity b - 1 ->
      slot (rb_capacity b) (slot (rb_capacity b) h 1) i = slot (rb_capacity b) h (i + 1)) as Hsh
      by (intros i Hi; unfold slot; repeat case_bool; lia).
    split_and!; [apply slot_bound; lia.. | done | |].
    + rewrite Et, Hsh by lia. f_equal; f_equal; lia.
    + intros i x Hi. apply lookup_lt_Some in Hi as Hlt. rewrite Hsh by lia.
      replace (Z.of_nat i + 1) with (Z.of_nat (S i)) by lia. by apply Hq.
Qed.

Lemma remove_back_sim b q :
  rrep b q -> q <> [] ->
  exists b', remove_back_ring_buffer (Some b) = Ok (Some b', true) /\
    rrep b' (removelast q) /\ rb_capacity b' = rb_capacity b.
Proof.
  intros [Hcap Hroom Hsize Hfull Hemp Hptr] Hne.
  destruct (Hptr Hne) as (h & Hh & Eh & Et & Hq).
  destruct q as [|x q _] using rev_ind; [done|]. rewrite removelast_last.
  rewrite length_app in Hsize. simpl in Hsize.
  unfold remove_back_ring_buffer. destruct (Z.eqb_spec (rb_size b) 0); [lia|].
  destruct (Z.eqb_spec (rb_size b - 1) 0) as [E|E].
  - eexists. split_and!; [done | | done].
    assert (q = []) as -> by (apply length_zero_iff_nil; lia).
    constructor; simpl; done || lia.
  - rewrite Et, (at_offset_back b h) by lia. eexists. split_and!; [done | | done].
    constructor; simpl; try lia; [intros ->; simpl in *; lia|].
    intros _. exists h. split_and!; [lia | lia | done | done |].
    intros i y Hi. apply Hq. by apply lookup_app_l_Some.
Qed.

Lemma ring_step_sim b q op :
  rrep b q ->
  exists b', ring_step b op = Ok (b', (deque_step (rb_capacity b) q op).2) /\
    rrep b' (deque_step (rb_capacity b) q op).1 /\ rb_capacity b' = rb_capacity b.
Proof.
  intros Hb. pose proof (rrep_size _ _ Hb) as Hsize.
  destruct op as [c| |]; unfold ring_step, deque_step.
  - rewrite <- Hsize. destruct (Z.eqb_spec (rb_size b) (rb_capacity b)) as [E|E].
    + exists b. unfold produce_ring_buffer. by rewrite E, Z.eqb_refl.
    + destruct (produce_sim b q c Hb E) as (b' & -> & ? & ?). simpl. eauto.
  - destruct q as [|c q].
    + exists b. unfold consume_ring_buffer. simpl in Hsize. by rewrite Hsize.
    + destruct (consume_sim b c q Hb) as (b' & -> & ? & ?). simpl. eauto.
  - destruct q as [|c q].
    + exists b. unfold remove_back_ring_buffer. simpl in Hsize. by rewrite Hsize.
    + destruct (remove_back_sim b (c :: q) Hb ltac:(done)) as (b' & -> & ? & ?). simpl. eauto.
Qed.

Lemma ring_run_sim ops b q :
  rrep b q ->
  exists b', ring_run b ops = Ok (b', (deque_run (rb_capacity b) q ops).2) /\
    rrep b' (deque_run (rb_capacity b) q ops).1.
Proof.
  revert b q. induction ops as [|op ops IH]; intros b q Hb; simpl; [by eauto|].
  destruct (ring_step_sim b q op Hb) as (b1 & -> & Hb1 & Hc).
  destruct (deque_step (rb_capacity b) q op) as [q1 o]. simpl in *.
  destruct (IH b1 q1 Hb1) as (b2 & -> & Hb2). rewrite Hc in *.
  destruct (deque_run (rb_capacity b) q1 ops) as [q2 os]. simpl in *. eauto.
Qed.

(** C20.  Refinement of [ring_buffer.c] to a bounded queue.  A buffer created with
    room for [cap] bytes answers every sequence of [produce], [consume] and
    [remove_back] calls as a queue of capacity [cap] does: bytes come out in
    the order they went in, [produce] is refused exactly when [cap] bytes are
    queued, the other two exactly when none is, and no call touches memory
    outside the allocation. *)
Theorem ring_refines_deque grant cap ops :
  0 < cap < 2 ^ 61 -> kmalloc_ok grant (8 * cap) = true ->
  exists b', ring_run (create_ring_buffer grant cap) ops
             = Ok (b', (deque_run cap [] ops).2) /\
    rrep b' (deque_run cap [] ops).1.
Proof.
  intros Hc Hg. apply (ring_run_sim ops (create_ring_buffer grant cap) []).
  by apply rrep_create.
Qed.

Lemma ring_refines_deque_witness :
  exists b', ring_run (create_ring_buffer (fun _ => true) 2)
      [Produce 65; Produce 66; Produce 67; Consume; Produce 68; RemoveBack; Consume; Consume]
    = Ok (b', [(true, None); (true, None); (false, None); (true, Some 65); (true, None);
               (true, None); (true, Some 66); (false, None)]) /\ rrep b' [].
Proof.
  apply (ring_refines_deque (fun _ => true) 2
    [Produce 65; Produce 66; Produce 67; Consume; Produce 68; RemoveBack; Consume; Consume]);
    [lia | reflexivity].
Defined.

(** [create_ring_buffer] does not check its allocation: when [kmalloc] refuses,
    the first [produce] on the buffer writes through NULL. *)
Lemma ring_unchecked_alloc grant cap c :
  kmalloc_ok grant (to_u64 (8 * cap)) = false -> 0 < cap ->
  produce_ring_buffer (Some (create_ring_buffer grant cap)) c = Fault.
Proof.
  intros Hg Hc. unfold create_ring_buffer. rewrite Hg. unfold produce_ring_buffer. simpl.
  destruct cap; done || lia.
Qed.
