(* ===== verification/HashMap.v ===== *)
(** * Chained hash tables: kernel/data-structs/hashmap.c

    The table behind process groups, page-table metadata and inode caches,
    and the finite map it stands for.  A key is a type tag and a pointer to
    bytes; [kdata] is the memory the pointer refers to ([None] for NULL) and
    may be longer than the key.  Destructor calls on values are returned as the
    list of destroyed values. *)

From S2P Require Import Prelude.

(** ** Keys *)

Inductive hashmap_key_type :=
| HASHMAP_KEY_INT
| HASHMAP_KEY_UINT64
| HASHMAP_KEY_CHAR
| HASHMAP_KEY_STRING
| HASHMAP_KEY_BYTES.

#[export] Instance hashmap_key_type_eq_dec : EqDecision hashmap_key_type.
Proof. solve_decision. Defined.

(** Values of the enumeration. *)
Definition key_type_code (t : hashmap_key_type) : Z :=
  match t with
  | HASHMAP_KEY_INT => 0
  | HASHMAP_KEY_UINT64 => 1
  | HASHMAP_KEY_CHAR => 2
  | HASHMAP_KEY_STRING => 3
  | HASHMAP_KEY_BYTES => 4
  end.

Definition key_type_decode (c : Z) : option hashmap_key_type :=
  match c with
  | 0 => Some HASHMAP_KEY_INT
  | 1 => Some HASHMAP_KEY_UINT64
  | 2 => Some HASHMAP_KEY_CHAR
  | 3 => Some HASHMAP_KEY_STRING
  | 4 => Some HASHMAP_KEY_BYTES
  | _ => None
  end.

#[export] Instance hashmap_key_type_countable : Countable hashmap_key_type.
Proof. refine (inj_countable key_type_code key_type_decode _). by intros []. Defined.

Record hashmap_key := mkKey {
  ktype : hashmap_key_type;
  kdata : option (list Z);
  ksize : Z;
}.

(** [HASHMAP_KEY_FROM_INT] and [HASHMAP_KEY_FROM_UINT64] take the address of a
    variable: its bytes, least significant first. *)
Fixpoint le_bytes (n : nat) (x : Z) : list Z :=
  match n with
  | O => []
  | S n => x mod 256 :: le_bytes n (x / 256)
  end.

Definition key_from_int (x : Z) : hashmap_key :=
  mkKey HASHMAP_KEY_INT (Some (le_bytes 4 (to_u32 x))) 4.

Definition key_from_uint64 (x : Z) : hashmap_key :=
  mkKey HASHMAP_KEY_UINT64 (Some (le_bytes 8 (to_u64 x))) 8.

(** ** Byte routines *)

Definition byte_at (buf : list Z) (i : Z) : outcome Z :=
  if 0 <=? i then checked (buf !! Z.to_nat i) else Fault.

Fixpoint hashmap_strlen (str : list Z) : outcome Z :=
  match str with
  | [] => Fault
  | c :: str => if c =? 0 then Ok 0 else n ← hashmap_strlen str; Ok (n + 1)
  end.

Definition hashmap_memcpy (src : list Z) (size : Z) : outcome (list Z) :=
  for_loop (Z.to_nat size) 0 (fun i dst => c ← byte_at src i; Ok (dst ++ [c])) [].

(** [for] loop with an early [return 0]: [Some false] once a byte differs. *)
Fixpoint memeq_from (n : nat) (i : Z) (lhs rhs : list Z) : outcome bool :=
  match n with
  | O => Ok true
  | S n =>
      l ← byte_at lhs i; r ← byte_at rhs i;
      if l =? r then memeq_from n (i + 1) lhs rhs else Ok false
  end.
Definition hashmap_memeq (lhs rhs : list Z) (size : Z) : outcome bool :=
  memeq_from (Z.to_nat size) 0 lhs rhs.

Definition hashmap_key_size (key : hashmap_key) : outcome Z :=
  match ktype key with
  | HASHMAP_KEY_STRING => buf ← checked (kdata key); n ← hashmap_strlen buf; Ok (n + 1)
  | _ => Ok (ksize key)
  end.

Definition FNV_OFFSET : Z := 1469598103934665603.
Definition FNV_PRIME : Z := 1099511628211.

Definition hash_round (hash c : Z) : Z := to_u64 (Z.lxor hash c * FNV_PRIME).

Definition hashmap_hash_bytes (data : list Z) (size : Z) : outcome Z :=
  for_loop (Z.to_nat size) 0 (fun i hash => c ← byte_at data i; Ok (hash_round hash c))
    FNV_OFFSET.

(** The final mix of [hashmap_hash_key]. *)
Definition hash_mix (hash key_hash : Z) : Z :=
  Z.lxor hash (to_u64 (key_hash + 0x9e3779b97f4a7c15
                       + to_u64 (Z.shiftl hash 6) + Z.shiftr hash 2)).

Definition hashmap_hash_key (key : hashmap_key) : outcome Z :=
  hash ← hashmap_hash_bytes (le_bytes 4 (key_type_code (ktype key))) 4;
  buf ← checked (kdata key);
  size ← hashmap_key_size key;
  key_hash ← hashmap_hash_bytes buf size;
  Ok (hash_mix hash key_hash).

(** ** What keys and tables stand for *)

(** The type and the bytes of a key, when its pointer is valid for them. *)
Definition view : Type := hashmap_key_type * list Z.

Definition key_view (key : hashmap_key) : option view :=
  match kdata key, hashmap_key_size key with
  | Some buf, Ok n =>
      if (0 <=? n) && (n <=? Z.of_nat (length buf))
      then Some (ktype key, take (Z.to_nat n) buf) else None
  | _, _ => None
  end.

Definition hash_view (ck : view) : Z :=
  hash_mix (foldl hash_round FNV_OFFSET (le_bytes 4 (key_type_code ck.1)))
           (foldl hash_round FNV_OFFSET ck.2).

Lemma byte_at_ok buf i c : 0 <= i -> buf !! Z.to_nat i = Some c -> byte_at buf i = Ok c.
Proof. intros Hi Hc. unfold byte_at. case_bool; [|lia]. by rewrite Hc. Qed.

Lemma byte_at_is_ok buf i :
  0 <= i < Z.of_nat (length buf) -> exists c, buf !! Z.to_nat i = Some c /\ byte_at buf i = Ok c.
Proof.
  intros Hi. destruct (lookup_lt_is_Some_2 buf (Z.to_nat i)) as [c Hc]; [lia|].
  exists c. split; [done | apply byte_at_ok; [lia | done]].
Qed.

Lemma hash_bytes_spec buf n :
  0 <= n <= Z.of_nat (length buf) ->
  hashmap_hash_bytes buf n = Ok (foldl hash_round FNV_OFFSET (take (Z.to_nat n) buf)).
Proof.
  intros Hn. unfold hashmap_hash_bytes.
  for_inv (fun i h => h = foldl hash_round FNV_OFFSET (take (Z.to_nat i) buf)) as (h & E & ->).
  - done.
  - intros i h Hi ->. destruct (byte_at_is_ok buf i) as (c & Hc & E); [lia|].
    eexists. cbv beta. rewrite E. split; [done|].
    replace (Z.to_nat (i + 1)) with (S (Z.to_nat i)) by lia.
    by rewrite (take_S_r _ _ c), foldl_app.
  - rewrite E. do 4 f_equal. lia.
Qed.

Lemma memcpy_spec buf n :
  0 <= n <= Z.of_nat (length buf) -> hashmap_memcpy buf n = Ok (take (Z.to_nat n) buf).
Proof.
  intros Hn. unfold hashmap_memcpy.
  for_inv (fun i d => d = take (Z.to_nat i) buf) as (d & E & ->).
  - done.
  - intros i d Hi ->. destruct (byte_at_is_ok buf i) as (c & Hc & E); [lia|].
    eexists. cbv beta. rewrite E. split; [done|].
    replace (Z.to_nat (i + 1)) with (S (Z.to_nat i)) by lia. by rewrite (take_S_r _ _ c).
  - rewrite E. do 2 f_equal. lia.
Qed.

Lemma memeq_from_spec n i lhs rhs :
  0 <= i -> i + Z.of_nat n <= Z.of_nat (length lhs) -> i + Z.of_nat n <= Z.of_nat (length rhs) ->
  memeq_from n i lhs rhs =
  Ok (bool_decide (take n (drop (Z.to_nat i) lhs) = take n (drop (Z.to_nat i) rhs))).
Proof.
  revert i. induction n as [|n IH]; intros i Hi Hl Hr; simpl; [done|].
  destruct (byte_at_is_ok lhs i) as (l & Hl' & ->); [lia|].
  destruct (byte_at_is_ok rhs i) as (r & Hr' & ->); [lia|]. simpl.
  rewrite (drop_S _ _ _ Hl'), (drop_S _ _ _ Hr'). simpl.
  destruct (Z.eqb_spec l r) as [->|Hne].
  - rewrite IH by lia. replace (Z.to_nat (i + 1)) with (S (Z.to_nat i)) by lia.
    f_equal. apply bool_decide_ext. split; congruence.
  - rewrite bool_decide_eq_false_2; [done | congruence].
Qed.

Lemma memeq_spec lhs rhs n :
  0 <= n <= Z.of_nat (length lhs) -> n <= Z.of_nat (length rhs) ->
  hashmap_memeq lhs rhs n =
  Ok (bool_decide (take (Z.to_nat n) lhs = take (Z.to_nat n) rhs)).
Proof. intros. unfold hashmap_memeq. by rewrite memeq_from_spec by lia. Qed.

(** What a valid key gives: its buffer, its size and its hash. *)
Lemma key_view_inv key ck :
  key_view key = Some ck ->
  exists buf n, kdata key = Some buf /\ hashmap_key_size key = Ok n /\
    0 <= n <= Z.of_nat (length buf) /\ ck = (ktype key, take (Z.to_nat n) buf).
Proof.
  unfold key_view. intros H. repeat case_match; simplify_eq.
  eexists _, _. split_and!; done || lia.
Qed.

Lemma hash_key_spec key ck :
  key_view key = Some ck -> hashmap_hash_key key = Ok (hash_view ck).
Proof.
  intros H. destruct (key_view_inv _ _ H) as (buf & n & Hd & Hs & Hn & ->).
  unfold hashmap_hash_key. rewrite hash_bytes_spec by (simpl; lia).
  simpl. rewrite Hd. simpl. rewrite Hs. simpl. by rewrite hash_bytes_spec by lia.
Qed.

(** ** The table *)

Section hashmap.
Context {V : Type}.

Record hashmap_entry := mkEntry {
  ekey_type : hashmap_key_type;
  ekey_size : Z;
  ekey : list Z;
  evalue : V;
}.

Record HashMap := mkMap {
  buckets : option (list (list hashmap_entry));   (* chains, first entry first *)
  bucket_count : Z;
  hsize : Z;
  value_dtor : bool;
}.

Definition hashmap_key_equals (entry : hashmap_entry) (key : hashmap_key) : outcome bool :=
  key_size ← hashmap_key_size key;
  if negb (bool_decide (ekey_type entry = ktype key)) then Ok false else
  if negb (ekey_size entry =? key_size) then Ok false else
  buf ← checked (kdata key);
  hashmap_memeq (ekey entry) buf key_size.

(** Walks a chain; the position found stands for the pair of the entry and its
    predecessor [*prev]. *)
Fixpoint chain_find (i : nat) (chain : list hashmap_entry) (key : hashmap_key)
    : outcome (option (nat * hashmap_entry)) :=
  match chain with
  | [] => Ok None
  | e :: chain =>
      eq ← hashmap_key_equals e key;
      if eq : bool then Ok (Some (i, e)) else chain_find (S i) chain key
  end.

Definition bucket_index (map : HashMap) (key : hashmap_key) : outcome Z :=
  hash ← hashmap_hash_key key; Ok (hash mod bucket_count map).

Definition get_chain (map : HashMap) (b : Z) : outcome (list hashmap_entry) :=
  bs ← checked (buckets map); checked (bs !! Z.to_nat b).

Definition set_chain (map : HashMap) (b : Z) (chain : list hashmap_entry) (size : Z) : HashMap :=
  mkMap ((fun bs => <[Z.to_nat b := chain]> bs) <$> buckets map) (bucket_count map) size
    (value_dtor map).

Definition hashmap_find_entry (map : HashMap) (key : hashmap_key)
    : outcome (option (nat * hashmap_entry)) :=
  if (bucket_count map =? 0) || negb (bool_decide (is_Some (kdata key))) then Ok None else
  b ← bucket_index map key;
  chain ← get_chain map b;
  chain_find 0 chain key.

Definition hashmap_new (grant : Z -> bool) (count : Z) (dtor : bool) : outcome HashMap :=
  let count := if count =? 0 then 16 else count in
  let bytes := to_u64 (8 * count) in
  if negb (kmalloc_ok grant bytes) then Fatal else
  if bytes / 8 <? count then Fault   (* buckets[i] = NULL past the array *)
  else Ok (mkMap (Some (replicate (Z.to_nat count) [])) count 0 dtor).

Definition hashmap_clear (map : HashMap) : HashMap * list V :=
  match buckets map with
  | None => (map, [])
  | Some bs =>
      (mkMap (Some (replicate (length bs) [])) (bucket_count map) 0 (value_dtor map),
       if value_dtor map then evalue <$> concat bs else [])
  end.

Definition hashmap_destroy (map : HashMap) : HashMap * list V :=
  let '(map, dead) := hashmap_clear map in
  (mkMap None 0 (hsize map) (value_dtor map), dead).

(** [grant] answers the allocation of the key copy, [grant'] that of the
    entry ([sizeof(hashmap_entry_t)] is 40). *)
Definition hashmap_put (grant grant' : Z -> bool) (map : HashMap) (key : hashmap_key) (value : V)
    : outcome (HashMap * (bool * list V)) :=
  match buckets map, kdata key with
  | Some _, Some buf =>
      found ← hashmap_find_entry map key;
      b ← bucket_index map key;
      chain ← get_chain map b;
      match found with
      | Some (i, e) =>
          let e' := mkEntry (ekey_type e) (ekey_size e) (ekey e) value in
          Ok (set_chain map b (<[i := e']> chain) (hsize map),
              (true, if value_dtor map then [evalue e] else []))
      | None =>
          key_size ← hashmap_key_size key;
          if negb (kmalloc_ok grant key_size) then Ok (map, (false, [])) else
          key_copy ← hashmap_memcpy buf key_size;
          if negb (kmalloc_ok grant' 40) then Ok (map, (false, [])) else
          let e := mkEntry (ktype key) key_size key_copy value in
          Ok (set_chain map b (e :: chain) (hsize map + 1), (true, []))
      end
  | _, _ => Ok (map, (false, []))
  end.

Definition hashmap_get (map : HashMap) (key : hashmap_key) : outcome (option V) :=
  found ← hashmap_find_entry map key;
  Ok (match found with Some (_, e) => Some (evalue e) | None => None end).

Definition hashmap_contains (map : HashMap) (key : hashmap_key) : outcome bool :=
  found ← hashmap_find_entry map key; Ok (bool_decide (is_Some found)).

(** [want] is whether the caller passed a non-NULL [value] pointer; the value
    is then handed back, otherwise it is destroyed. *)
Definition hashmap_remove (map : HashMap) (key : hashmap_key) (want : bool)
    : outcome (HashMap * (bool * option V * list V)) :=
  found ← hashmap_find_entry map key;
  match found with
  | None => Ok (map, (false, None, []))
  | Some (i, e) =>
      b ← bucket_index map key;
      chain ← get_chain map b;
      Ok (set_chain map b (delete i chain) (hsize map - 1),
          (true, if want then Some (evalue e) else None,
           if want then [] else if value_dtor map then [evalue e] else []))
  end.

(** ** Representation of a finite map *)

Definition entry_view (e : hashmap_entry) : view := (ekey_type e, ekey e).
Definition entry_kv (e : hashmap_entry) : view * V := (entry_view e, evalue e).

(** [hrep map M]: every entry sits in the chain its hash selects, records its
    key's size, and no two entries have the same key; the entries are those
    of [M]. *)
Record hrep (map : HashMap) (M : gmap view V) : Prop := {
  hrep_count : 0 < bucket_count map;
  hrep_buckets : exists bs, buckets map = Some bs /\
    length bs = Z.to_nat (bucket_count map) /\
    (forall i chain e, bs !! i = Some chain -> e ∈ chain ->
       ekey_size e = Z.of_nat (length (ekey e)) /\
       Z.to_nat (hash_view (entry_view e) mod bucket_count map) = i) /\
    NoDup (entry_view <$> concat bs) /\
    M = list_to_map (entry_kv <$> concat bs) /\
    hsize map = Z.of_nat (length (concat bs));
}.

(** Replacing one chain of the table. *)
Lemma concat_replace {B} (bs : list (list B)) i chain :
  bs !! i = Some chain ->
  exists rest, concat bs ≡ₚ chain ++ rest /\
    forall chain', concat (<[i := chain']> bs) ≡ₚ chain' ++ rest.
Proof.
  intros Hi. exists (concat (take i bs) ++ concat (drop (S i) bs)). split.
  - rewrite <- (take_drop_middle _ _ _ Hi) at 1. rewrite concat_app. simpl. solve_Permutation.
  - intros chain'. apply lookup_lt_Some in Hi. rewrite insert_take_drop by done.
    rewrite concat_app. simpl. solve_Permutation.
Qed.

Lemma key_equals_spec e key ck :
  key_view key = Some ck -> ekey_size e = Z.of_nat (length (ekey e)) ->
  hashmap_key_equals e key = Ok (bool_decide (entry_view e = ck)).
Proof.
  intros Hk Hs. destruct (key_view_inv _ _ Hk) as (buf & n & Hd & Hn & Hb & ->).
  unfold hashmap_key_equals, entry_view. rewrite Hn. simpl.
  case_bool_decide as Ht; simpl; [|rewrite bool_decide_eq_false_2; congruence].
  destruct (Z.eqb_spec (ekey_size e) n) as [E|E]; simpl.
  - rewrite Hd. simpl. rewrite memeq_spec by lia.
    rewrite (take_ge (ekey e)) by lia. f_equal. apply bool_decide_ext. split; congruence.
  - rewrite bool_decide_eq_false_2; [done|]. intros [= _ Heq].
    rewrite Hs, Heq, length_take in E. lia.
Qed.

Lemma chain_find_spec chain key ck i :
  key_view key = Some ck ->
  (forall e, e ∈ chain -> ekey_size e = Z.of_nat (length (ekey e))) ->
  match chain_find i chain key with
  | Ok (Some (j, e)) => exists l1 l2, chain = l1 ++ e :: l2 /\ j = (i + length l1)%nat /\
      entry_view e = ck
  | Ok None => forall e, e ∈ chain -> entry_view e <> ck
  | _ => False
  end.
Proof.
  intros Hk. revert i. induction chain as [|e chain IH]; intros i Hs; simpl.
  { by intros e He%elem_of_nil. }
  rewrite (key_equals_spec e key ck) by (try done; apply Hs; by left). simpl.
  case_bool_decide as He.
  - exists [], chain. split_and!; [done | simpl; lia | done].
  - specialize (IH (S i) ltac:(intros f Hf; apply Hs; by right)). destruct (chain_find (S i) chain key) as [[[j f]|]| | |];
      [| |done..].
    + destruct IH as (l1 & l2 & -> & -> & ?). exists (e :: l1), l2.
      split_and!; [done | simpl; lia | done].
    + by intros f [->|Hf]%elem_of_cons; [|apply IH].
Qed.

(** A lookup inspects the chain of the key, and that is enough. *)
Lemma find_entry_spec map M key ck :
  hrep map M -> key_view key = Some ck ->
  exists bs b chain rest, buckets map = Some bs /\
    b = hash_view ck mod bucket_count map /\
    bucket_index map key = Ok b /\ get_chain map b = Ok chain /\
    bs !! Z.to_nat b = Some chain /\ concat bs ≡ₚ chain ++ rest /\
    (forall chain', concat (<[Z.to_nat b := chain']> bs) ≡ₚ chain' ++ rest) /\
    match hashmap_find_entry map key with
    | Ok (Some (j, e)) => exists l1 l2, chain = l1 ++ e :: l2 /\ j = length l1 /\
        entry_view e = ck /\ M !! ck = Some (evalue e)
    | Ok None => M !! ck = None /\ ck ∉ entry_view <$> concat bs
    | _ => False
    end.
Proof.
  intros [Hc (bs & Hbs & Hlen & Hplace & Hnd & -> & Hsz)] Hk.
  destruct (key_view_inv _ _ Hk) as (buf & n & Hd & _ & _ & _).
  pose proof (Z.mod_pos_bound (hash_view ck) (bucket_count map) Hc) as Hb.
  set (b := hash_view ck mod bucket_count map) in *.
  destruct (lookup_lt_is_Some_2 bs (Z.to_nat b)) as [chain Hch]; [lia|].
  destruct (concat_replace bs _ _ Hch) as (rest & Hperm & Hrepl).
  assert (bucket_index map key = Ok b) as Hbi
    by (unfold bucket_index; by rewrite (hash_key_spec _ _ Hk)).
  assert (get_chain map b = Ok chain) as Hgc
    by (unfold get_chain; rewrite Hbs; simpl; by rewrite Hch).
  exists bs, b, chain, rest. split_and!; try done.
  unfold hashmap_find_entry. rewrite Hd. destruct (Z.eqb_spec (bucket_count map) 0); [lia|].
  rewrite bool_decide_eq_true_2 by done. simpl. rewrite Hbi. simpl. rewrite Hgc. simpl.
  pose proof (chain_find_spec chain key ck 0 Hk
    ltac:(intros e He; by eapply Hplace)) as Hf.
  destruct (chain_find 0 chain key) as [[[j e]|]| | |]; try done.
  - destruct Hf as (l1 & l2 & -> & -> & Hv). exists l1, l2. split_and!; try done.
    apply elem_of_list_to_map.
    + by rewrite <- list_fmap_compose.
    + apply list_elem_of_fmap. exists e. split; [by rewrite <- Hv|].
      rewrite Hperm. apply elem_of_app. left. apply elem_of_app. right. by left.
  - assert (ck ∉ entry_view <$> concat bs) as Hnin.
    { intros (e & -> & He)%list_elem_of_fmap.
      apply list_elem_of_In, in_concat in He as (ch & Hin & He).
      apply list_elem_of_In, list_elem_of_lookup in Hin as [i Hi].
      apply list_elem_of_In in He. destruct (Hplace i ch e Hi He) as [_ <-].
      fold b in Hi. rewrite Hch in Hi. injection Hi as <-. by eapply Hf. }
    split; [|done]. apply not_elem_of_list_to_map. by rewrite <- list_fmap_compose.
Qed.

(** Installing a new chain for [ck]: the other entries [rest] stay. *)
Lemma hrep_set_chain map M bs b chain chain' rest ck sz :
  hrep map M -> buckets map = Some bs -> b = hash_view ck mod bucket_count map ->
  bs !! Z.to_nat b = Some chain ->
  (forall c, concat (<[Z.to_nat b := c]> bs) ≡ₚ c ++ rest) ->
  (forall e, e ∈ chain' -> e ∈ chain \/
     (entry_view e = ck /\ ekey_size e = Z.of_nat (length (ekey e)))) ->
  NoDup (entry_view <$> chain' ++ rest) ->
  sz = Z.of_nat (length (chain' ++ rest)) ->
  hrep (set_chain map b chain' sz) (list_to_map (entry_kv <$> chain' ++ rest)).
Proof.
  intros [Hc (bs' & Hbs & Hlen & Hplace & Hnd & -> & Hsz)] Hbs' Hb Hch Hrepl Hsub Hnd' Hsz'.
  rewrite Hbs in Hbs'. injection Hbs' as ->.
  pose proof (Z.mod_pos_bound (hash_view ck) (bucket_count map) Hc).
  constructor; [done|]. exists (<[Z.to_nat b := chain']> bs). simpl. rewrite Hbs. simpl.
  split_and!; [done | by rewrite length_insert | | | |].
  - intros i ch e Hi He. destruct (decide (i = Z.to_nat b)) as [->|Hne].
    + apply lookup_lt_Some in Hch as Hlt. rewrite list_lookup_insert_eq in Hi by done.
      injection Hi as <-. destruct (Hsub e He) as [Hin|[<- ?]]; [by eapply Hplace|].
      split; [done | by rewrite Hb].
    + rewrite list_lookup_insert_ne in Hi by done. by eapply Hplace.
  - by rewrite (Hrepl chain').
  - apply list_to_map_proper; [by rewrite <- list_fmap_compose|]. by rewrite (Hrepl chain').
  - by rewrite (Hrepl chain').
Qed.

Lemma hashmap_get_spec map M key ck :
  hrep map M -> key_view key = Some ck -> hashmap_get map key = Ok (M !! ck).
Proof.
  intros Hr Hk.
  destruct (find_entry_spec _ _ _ _ Hr Hk) as (bs & b & ch & rest & _ & _ & _ & _ & _ & _ & _ & Hf).
  unfold hashmap_get. destruct (hashmap_find_entry map key) as [[[j e]|]| | |]; try done; simpl.
  - by destruct Hf as (l1 & l2 & _ & _ & _ & ->).
  - by destruct Hf as [-> _].
Qed.

Lemma hashmap_put_spec grant grant' map M key ck v :
  hrep map M -> key_view key = Some ck ->
  exists map', value_dtor map' = value_dtor map /\ bucket_count map' = bucket_count map /\
  match M !! ck with
  | Some old =>
      hashmap_put grant grant' map key v =
        Ok (map', (true, if value_dtor map then [old] else [])) /\ hrep map' (<[ck := v]> M)
  | None =>
      if kmalloc_ok grant (Z.of_nat (length ck.2)) && kmalloc_ok grant' 40
      then hashmap_put grant grant' map key v = Ok (map', (true, [])) /\ hrep map' (<[ck := v]> M)
      else hashmap_put grant grant' map key v = Ok (map, (false, []))
  end.
Proof.
  intros Hr Hk. pose proof Hr as [Hc (bs' & Hbs' & Hlen & Hplace & Hnd & HM & Hsz)].
  destruct (find_entry_spec _ _ _ _ Hr Hk)
    as (bs & b & ch & rest & Hbs & Hb & Hbi & Hgc & Hch & Hperm & Hrepl & Hf).
  rewrite Hbs in Hbs'. injection Hbs' as <-.
  destruct (key_view_inv _ _ Hk) as (buf & n & Hd & Hn & Hln & Hck).
  rewrite Hperm in Hnd. rewrite (Permutation_length Hperm) in Hsz.
  assert (M = list_to_map (entry_kv <$> ch ++ rest)) as HM'.
  { rewrite HM. apply list_to_map_proper; [|by rewrite Hperm].
    rewrite <- list_fmap_compose. by rewrite Hperm. }
  unfold hashmap_put. rewrite Hbs, Hd.
  destruct (hashmap_find_entry map key) as [[[j e]|]| | |]; try done; simpl;
    rewrite Hbi; simpl; rewrite Hgc; simpl.
  - destruct Hf as (l1 & l2 & -> & -> & Hv & ->). eexists; split_and!; [| |reflexivity|]; [done | done |].
    rewrite insert_app_r_alt, Nat.sub_diag by lia. simpl.
    set (e' := mkEntry _ _ _ _).
    replace (<[ck := v]> M) with (list_to_map (M := gmap view V) (entry_kv <$> (l1 ++ e' :: l2) ++ rest)).
    + eapply hrep_set_chain; try done.
      * intros f. rewrite !elem_of_app, !elem_of_cons.
        intros [?|[->|?]]; [tauto | right | tauto].
        split; [done|]. apply (Hplace _ _ e Hch). rewrite elem_of_app, elem_of_cons. tauto.
      * by rewrite !fmap_app, fmap_cons in Hnd |- *.
      * rewrite Hsz, !length_app. done.
    + rewrite HM'. assert (forall w, list_to_map (M := gmap view V)
          (entry_kv <$> (l1 ++ mkEntry (ekey_type e) (ekey_size e) (ekey e) w :: l2) ++ rest) =
        <[ck := w]> (list_to_map (entry_kv <$> (l1 ++ l2) ++ rest))) as Hins.
      { intros w. rewrite <- Hv. change (<[_ := w]> _) with (list_to_map (M := gmap view V)
          (entry_kv <$> mkEntry (ekey_type e) (ekey_size e) (ekey e) w :: (l1 ++ l2) ++ rest)).
        apply list_to_map_proper; [|rewrite <- !Permutation_middle; done].
        rewrite <- list_fmap_compose. by rewrite !fmap_app, fmap_cons in Hnd |- *. }
      destruct e as [t sz k w]. unfold e'. simpl in Hins |- *.
      by rewrite !Hins, insert_insert_eq.
  - destruct Hf as [-> Hnin]. rewrite Hn. simpl.
    assert (Z.of_nat (length ck.2) = n) as ->
      by (rewrite Hck; simpl; rewrite length_take; lia).
    destruct (kmalloc_ok grant n); simpl; [|by exists map].
    rewrite memcpy_spec by lia. simpl. destruct (kmalloc_ok grant' 40); simpl; [|by exists map].
    eexists; split_and!; [| |reflexivity|]; [done | done |].
    set (e := mkEntry _ _ _ _).
    replace (<[ck := v]> M) with (list_to_map (M := gmap view V) (entry_kv <$> (e :: ch) ++ rest))
      by (rewrite HM'; by rewrite Hck).
    eapply hrep_set_chain; try done.
    + intros f [->|Hf]%elem_of_cons; [right|by left]. rewrite Hck. split; [done|].
      simpl. rewrite length_take. lia.
    + simpl. constructor; [|done]. rewrite Hperm in Hnin. by rewrite Hck in Hnin.
    + rewrite Hsz. simpl. lia.
Qed.

Lemma hashmap_remove_spec map M key ck want :
  hrep map M -> key_view key = Some ck ->
  exists map', value_dtor map' = value_dtor map /\ bucket_count map' = bucket_count map /\
    hashmap_remove map key want =
      Ok (map', (bool_decide (is_Some (M !! ck)),
                 if want then M !! ck else None,
                 if want then [] else if value_dtor map
                   then (match M !! ck with Some v => [v] | None => [] end) else [])) /\
    hrep map' (delete ck M).
Proof.
  intros Hr Hk. pose proof Hr as [Hc (bs' & Hbs' & Hlen & Hplace & Hnd & HM & Hsz)].
  destruct (find_entry_spec _ _ _ _ Hr Hk)
    as (bs & b & ch & rest & Hbs & Hb & Hbi & Hgc & Hch & Hperm & Hrepl & Hf).
  rewrite Hbs in Hbs'. injection Hbs' as <-.
  rewrite Hperm in Hnd. rewrite (Permutation_length Hperm) in Hsz.
  unfold hashmap_remove.
  destruct (hashmap_find_entry map key) as [[[j e]|]| | |]; try done; simpl.
  - destruct Hf as (l1 & l2 & -> & -> & Hv & HMck). rewrite Hbi. simpl. rewrite Hgc. simpl.
    rewrite HMck. eexists; split_and!; [| |reflexivity|]; [done | done |].
    rewrite delete_middle.
    assert (NoDup (entry_view <$> (e :: (l1 ++ l2) ++ rest))) as Hnd'.
    { revert Hnd. rewrite !fmap_cons, !fmap_app, fmap_cons.
      rewrite <- Permutation_middle. done. }
    assert (ck ∉ entry_view <$> (l1 ++ l2) ++ rest) as Hck.
    { rewrite fmap_cons, Hv in Hnd'. by apply NoDup_cons in Hnd' as [? _]. }
    replace (delete ck M) with (list_to_map (M := gmap view V) (entry_kv <$> (l1 ++ l2) ++ rest)).
    + eapply hrep_set_chain; try done.
      * intros f. rewrite !elem_of_app, elem_of_cons. tauto.
      * by apply NoDup_cons in Hnd' as [_ ?].
      * rewrite Hsz, !length_app. simpl. lia.
    + rewrite HM. replace (list_to_map (entry_kv <$> concat bs))
        with (list_to_map (M := gmap view V) (entry_kv <$> e :: (l1 ++ l2) ++ rest)).
      * simpl. rewrite Hv. rewrite delete_insert_id; [done|].
        apply not_elem_of_list_to_map. by rewrite <- list_fmap_compose.
      * apply list_to_map_proper; [by rewrite <- list_fmap_compose|].
        rewrite Hperm, <- Permutation_middle. done.
  - destruct Hf as [HMck _]. rewrite HMck. exists map. split_and!; [done | done | |].
    + rewrite bool_decide_eq_false_2 by (intros [? [=]]). by destruct want, (value_dtor map).
    + by rewrite delete_id.
Qed.

Lemma hashmap_clear_spec map M :
  hrep map M ->
  hrep (hashmap_clear map).1 ∅ /\
  (hashmap_clear map).2 ≡ₚ (if value_dtor map then (map_to_list M).*2 else []).
Proof.
  intros [Hc (bs & Hbs & Hlen & Hplace & Hnd & -> & Hsz)].
  unfold hashmap_clear. rewrite Hbs. simpl.
  assert (concat (replicate (length bs) ([] : list hashmap_entry)) = []) as Hnil
    by (clear; induction bs; done).
  split.
  - constructor; [done|]. eexists. simpl. rewrite Hnil, length_replicate.
    split_and!; try done; [|constructor].
    intros i chain e [-> _]%lookup_replicate He. by apply elem_of_nil in He.
  - destruct (value_dtor map); [|done].
    rewrite map_to_list_to_map by (by rewrite <- list_fmap_compose).
    by rewrite <- list_fmap_compose.
Qed.

Lemma hashmap_new_spec grant count dtor :
  0 <= count < 2 ^ 61 ->
  hashmap_new grant count dtor = Fatal \/
  exists map, hashmap_new grant count dtor = Ok map /\ hrep map ∅ /\ value_dtor map = dtor.
Proof.
  intros Hc. unfold hashmap_new, to_u64.
  set (n := if count =? 0 then 16 else count).
  assert (0 < n < 2 ^ 61) as Hn by (unfold n; case_bool; lia).
  rewrite wrap_small by lia.
  destruct (kmalloc_ok grant (8 * n)); [right | by left]. simpl.
  replace (8 * n / 8) with n by (rewrite Z.mul_comm, Z.div_mul; lia).
  rewrite Z.ltb_irrefl. eexists. split_and!; [reflexivity | | done].
  constructor; simpl; [lia|]. eexists. split_and!; [done | by rewrite length_replicate | | | |].
  - intros i chain e [-> _]%lookup_replicate He. by apply elem_of_nil in He.
  - induction (Z.to_nat n); [constructor | done].
  - induction (Z.to_nat n); done.
  - induction (Z.to_nat n); done.
Qed.

(** ** Sequences of operations *)

Inductive map_op :=
| MapPut (key : hashmap_key) (value : V)
| MapGet (key : hashmap_key)
| MapRemove (key : hashmap_key) (want : bool).

Definition op_key (op : map_op) : hashmap_key :=
  match op with MapPut k _ => k | MapGet k => k | MapRemove k _ => k end.

(** Result of a call: the boolean, the value handed back, the values
    destroyed. *)
Definition map_obs : Type := bool * option V * list V.

Definition hashmap_step (grant grant' : Z -> bool) (map : HashMap) (op : map_op)
    : outcome (HashMap * map_obs) :=
  match op with
  | MapPut k v => '(map, (r, dead)) ← hashmap_put grant grant' map k v; Ok (map, (r, None, dead))
  | MapGet k => r ← hashmap_get map k; Ok (map, (bool_decide (is_Some r), r, []))
  | MapRemove k want => hashmap_remove map k want
  end.

(** The same call on a finite map indexed by key contents. *)
Definition gmap_step (grant grant' : Z -> bool) (dtor : bool) (M : gmap view V) (op : map_op)
    (ck : view) : gmap view V * map_obs :=
  match op with
  | MapPut _ v =>
      match M !! ck with
      | Some old => (<[ck := v]> M, (true, None, if dtor then [old] else []))
      | None =>
          if kmalloc_ok grant (Z.of_nat (length ck.2)) && kmalloc_ok grant' 40
          then (<[ck := v]> M, (true, None, [])) else (M, (false, None, []))
      end
  | MapGet _ => (M, (bool_decide (is_Some (M !! ck)), M !! ck, []))
  | MapRemove _ want =>
      (delete ck M,
       (bool_decide (is_Some (M !! ck)), if want then M !! ck else None,
        if want then [] else if dtor
          then (match M !! ck with Some v => [v] | None => [] end) else []))
  end.

Fixpoint hashmap_run (grants : nat -> (Z -> bool) * (Z -> bool)) (map : HashMap)
    (ops : list map_op) : outcome (HashMap * list map_obs) :=
  match ops with
  | [] => Ok (map, [])
  | op :: ops =>
      '(map, o) ← hashmap_step (grants (length ops)).1 (grants (length ops)).2 map op;
      '(map, os) ← hashmap_run grants map ops; Ok (map, o :: os)
  end.

Fixpoint gmap_run (grants : nat -> (Z -> bool) * (Z -> bool)) (dtor : bool) (M : gmap view V)
    (ops : list (map_op * view)) : gmap view V * list map_obs :=
  match ops with
  | [] => (M, [])
  | (op, ck) :: ops =>
      let '(M, o) := gmap_step (grants (length ops)).1 (grants (length ops)).2 dtor M op ck in
      let '(M, os) := gmap_run grants dtor M ops in (M, o :: os)
  end.

Lemma hashmap_step_sim grant grant' map M op ck :
  hrep map M -> key_view (op_key op) = Some ck ->
  exists map', hashmap_step grant grant' map op
      = Ok (map', (gmap_step grant grant' (value_dtor map) M op ck).2) /\
    hrep map' (gmap_step grant grant' (value_dtor map) M op ck).1 /\
    value_dtor map' = value_dtor map.
Proof.
  intros Hr Hk. destruct op as [k v|k|k want]; unfold hashmap_step, gmap_step; simpl in Hk.
  - destruct (hashmap_put_spec grant grant' map M k ck v Hr Hk) as (map' & Hd & _ & H).
    destruct (M !! ck).
    + destruct H as [-> ?]. simpl. eauto.
    + destruct (_ && _); [destruct H as [-> ?] | rewrite H]; simpl; eauto.
  - rewrite (hashmap_get_spec map M k ck Hr Hk). simpl. eauto.
  - destruct (hashmap_remove_spec map M k ck want Hr Hk) as (map' & Hd & _ & -> & ?).
    simpl. eauto.
Qed.

Lemma hashmap_run_sim grants ops cks map M :
  hrep map M -> Forall2 (fun op ck => key_view (op_key op) = Some ck) ops cks ->
  exists map', hashmap_run grants map ops
      = Ok (map', (gmap_run grants (value_dtor map) M (zip ops cks)).2) /\
    hrep map' (gmap_run grants (value_dtor map) M (zip ops cks)).1.
Proof.
  intros Hr Hk. revert map M Hr.
  induction Hk as [|op ck ops cks Hop Hops IH]; intros map M Hr; simpl; [by eauto|].
  replace (length (zip ops cks)) with (length ops)
    by (rewrite length_zip; apply Forall2_length in Hops; lia).
  destruct (hashmap_step_sim (grants (length ops)).1 (grants (length ops)).2 map M op ck Hr Hop)
    as (map1 & -> & Hr1 & Hd).
  destruct (gmap_step _ _ _ _ _ _) as [M1 o]. simpl in *.
  destruct (IH map1 M1 Hr1) as (map2 & -> & Hr2). rewrite Hd in *.
  destruct (gmap_run _ _ _ _) as [M2 os]. simpl in *. eauto.
Qed.

End hashmap.
Arguments hashmap_entry : clear implicits.
Arguments HashMap : clear implicits.
Arguments map_op : clear implicits.

(** Keys made from integers are valid and determine the integer. *)
Lemma le_bytes_inj n x y :
  0 <= x < 256 ^ Z.of_nat n -> 0 <= y < 256 ^ Z.of_nat n ->
  le_bytes n x = le_bytes n y -> x = y.
Proof.
  revert x y. induction n as [|n IH]; intros x y Hx Hy H.
  - simpl in *. lia.
  - simpl in H. injection H as Hm Hd.
    replace (256 ^ Z.of_nat (S n)) with (256 * 256 ^ Z.of_nat n) in *
      by (rewrite Nat2Z.inj_succ, Z.pow_succ_r; lia).
    apply IH in Hd.
    + rewrite (Z.div_mod x 256), (Z.div_mod y 256) by lia. lia.
    + split; [apply Z.div_pos; lia | apply Z.div_lt_upper_bound; lia].
    + split; [apply Z.div_pos; lia | apply Z.div_lt_upper_bound; lia].
Qed.

Lemma key_view_int x :
  key_view (key_from_int x) = Some (HASHMAP_KEY_INT, le_bytes 4 (to_u32 x)).
Proof. done. Qed.

Lemma key_view_uint64 x :
  key_view (key_from_uint64 x) = Some (HASHMAP_KEY_UINT64, le_bytes 8 (to_u64 x)).
Proof. done. Qed.



(**  The keys the kernel builds with [HASHMAP_KEY_FROM_INT] and
    [HASHMAP_KEY_FROM_UINT64] identify the value: two of them select the same
    entry only if they were made from the same [int] (process-group ids) or
    the same [uint64_t] (page-table addresses), and never across the two
    kinds. *)
Theorem hashmap_int_keys_inj x y :
  -(2 ^ 31) <= x < 2 ^ 31 -> -(2 ^ 31) <= y < 2 ^ 31 ->
  forall u v, 0 <= u < 2 ^ 64 -> 0 <= v < 2 ^ 64 ->
  (key_view (key_from_int x) = key_view (key_from_int y) -> x = y) /\
  (key_view (key_from_uint64 u) = key_view (key_from_uint64 v) -> u = v) /\
  key_view (key_from_int x) <> key_view (key_from_uint64 u).
Proof.
  intros Hx Hy u v Hu Hv. rewrite !key_view_int, !key_view_uint64. split_and!.
  - intros H. apply (inj Some), (f_equal snd), (le_bytes_inj 4) in H; [|apply Z.mod_pos_bound; lia..].
    unfold to_u32, wrap in H.
    pose proof (Z.div_mod x (2 ^ 32)). pose proof (Z.div_mod y (2 ^ 32)).
    pose proof (Z.mod_pos_bound x (2 ^ 32)). pose proof (Z.mod_pos_bound y (2 ^ 32)). lia.
  - intros H. apply (inj Some), (f_equal snd), (le_bytes_inj 8) in H; [|apply Z.mod_pos_bound; lia..].
    unfold to_u64 in H. by rewrite !wrap_small in H by lia.
  - done.
Qed.

Lemma hashmap_int_keys_inj_witness :
  key_view (key_from_int (-1)) <> key_view (key_from_uint64 5).
Proof.
  apply (hashmap_int_keys_inj (-1) 7 ltac:(lia) ltac:(lia) 5 9 ltac:(lia) ltac:(lia)).
Defined.
