(* ===== verification/Errors.v ===== *)
(** * Error codes

    kernel/fs/errors.h, kernel/errno.h and [fs_err_to_sys_errno] of
    kernel/fs/errors.c, which turns the file system's codes into the numbers
    system calls return. *)

From S2P Require Import Prelude.

Definition SUCCESS : Z := 0.
Definition FILE_WRITE_ERROR : Z := -1.
Definition FILE_OPEN_ERROR : Z := -2.
Definition FILE_READ_ERROR : Z := -3.
Definition FILE_SEEK_ERROR : Z := -4.
Definition FS_ALREADY_MOUNTED : Z := -5.
Definition FS_NOT_MOUNTED : Z := -6.
Definition NO_FREE_BLOCKS : Z := -7.
Definition INODE_FULL : Z := -8.
Definition INVALID_ARGS : Z := -9.
Definition F_ONLY_ONE_WRITER : Z := -10.
Definition OFT_FD_DOES_NOT_EXIST : Z := -11.
Definition FAT_NO_SPACE_REMAINING : Z := -12.
Definition FILE_NOT_FOUND : Z := -13.
Definition ILLEGAL_BLOCK_NO : Z := -14.
Definition END_DIR_NOT_FOUND : Z := -15.
Definition INVALID_PERMISSIONS : Z := -16.
Definition INVALID_FILE_NAME : Z := -17.
Definition PID_NOT_FOUND : Z := -18.
Definition FILE_NOT_CREATED : Z := -19.
Definition CAT_SAME_INPUT_OUTPUT : Z := -20.
Definition FS_INVALID : Z := -21.
Definition FILE_ALREADY_EXISTS : Z := -22.
Definition NOT_A_DIRECTORY : Z := -23.
Definition IS_A_DIRECTORY : Z := -24.

Definition SYS_EPERM : Z := -1.
Definition SYS_ENOENT : Z := -2.
Definition SYS_ESRCH : Z := -3.
Definition SYS_EINTR : Z := -4.
Definition SYS_EIO : Z := -5.
Definition SYS_EBADF : Z := -9.
Definition SYS_ECHILD : Z := -10.
Definition SYS_EAGAIN : Z := -11.
Definition SYS_ENOMEM : Z := -12.
Definition SYS_EACCES : Z := -13.
Definition SYS_EFAULT : Z := -14.
Definition SYS_EBUSY : Z := -16.
Definition SYS_EEXIST : Z := -17.
Definition SYS_ENODEV : Z := -19.
Definition SYS_ENOTDIR : Z := -20.
Definition SYS_EISDIR : Z := -21.
Definition SYS_EINVAL : Z := -22.
Definition SYS_ENFILE : Z := -23.
Definition SYS_EMFILE : Z := -24.
Definition SYS_ENOSPC : Z := -28.
Definition SYS_ESPIPE : Z := -29.
Definition SYS_EPIPE : Z := -32.
Definition SYS_ERANGE : Z := -34.
Definition SYS_ENAMETOOLONG : Z := -36.
Definition SYS_ENOSYS : Z := -38.

(** All codes of errors.h. *)
Definition fs_error_codes : list Z :=
  [SUCCESS; FILE_WRITE_ERROR; FILE_OPEN_ERROR; FILE_READ_ERROR; FILE_SEEK_ERROR;
    FS_ALREADY_MOUNTED; FS_NOT_MOUNTED; NO_FREE_BLOCKS; INODE_FULL; INVALID_ARGS; F_ONLY_ONE_WRITER;
    OFT_FD_DOES_NOT_EXIST; FAT_NO_SPACE_REMAINING; FILE_NOT_FOUND; ILLEGAL_BLOCK_NO;
    END_DIR_NOT_FOUND; INVALID_PERMISSIONS; INVALID_FILE_NAME; PID_NOT_FOUND; FILE_NOT_CREATED;
    CAT_SAME_INPUT_OUTPUT; FS_INVALID; FILE_ALREADY_EXISTS; NOT_A_DIRECTORY; IS_A_DIRECTORY].

(** All codes of errno.h. *)
Definition errno_codes : list Z :=
  [SYS_EPERM; SYS_ENOENT; SYS_ESRCH; SYS_EINTR; SYS_EIO; SYS_EBADF; SYS_ECHILD; SYS_EAGAIN;
    SYS_ENOMEM; SYS_EACCES; SYS_EFAULT; SYS_EBUSY; SYS_EEXIST; SYS_ENODEV; SYS_ENOTDIR; SYS_EISDIR;
    SYS_EINVAL; SYS_ENFILE; SYS_EMFILE; SYS_ENOSPC; SYS_ESPIPE; SYS_EPIPE; SYS_ERANGE;
    SYS_ENAMETOOLONG; SYS_ENOSYS].

(** [switch (error)]: the first list that holds the code decides. *)
Definition one_of (error : Z) (codes : list Z) : bool := existsb (Z.eqb error) codes.

Definition fs_err_to_sys_errno (error : Z) : Z :=
  if 0 <=? error then error
  else if one_of error [FILE_WRITE_ERROR; FILE_READ_ERROR; FILE_OPEN_ERROR] then SYS_EIO
  else if one_of error [FILE_SEEK_ERROR] then SYS_ESPIPE
  else if one_of error [FS_ALREADY_MOUNTED; F_ONLY_ONE_WRITER] then SYS_EBUSY
  else if one_of error [FS_NOT_MOUNTED; FS_INVALID] then SYS_ENODEV
  else if one_of error [INODE_FULL; NO_FREE_BLOCKS; FAT_NO_SPACE_REMAINING] then SYS_ENOSPC
  else if one_of error [FILE_ALREADY_EXISTS] then SYS_EEXIST
  else if one_of error [FILE_NOT_CREATED] then SYS_ENOENT
  else if one_of error [NOT_A_DIRECTORY] then SYS_ENOTDIR
  else if one_of error [IS_A_DIRECTORY] then SYS_EISDIR
  else if one_of error [INVALID_ARGS; ILLEGAL_BLOCK_NO] then SYS_EINVAL
  else if one_of error [OFT_FD_DOES_NOT_EXIST] then SYS_EBADF
  else if one_of error [FILE_NOT_FOUND; END_DIR_NOT_FOUND] then SYS_ENOENT
  else if one_of error [INVALID_PERMISSIONS] then SYS_EACCES
  else if one_of error [INVALID_FILE_NAME] then SYS_ENAMETOOLONG
  else if one_of error [PID_NOT_FOUND] then SYS_ESRCH
  else if one_of error [CAT_SAME_INPUT_OUTPUT] then SYS_EINVAL
  else SYS_EIO.

(** A result that is not an error passes through, an error stays an error and
    becomes one of the codes of errno.h. *)
Lemma fs_err_to_sys_errno_nonneg error : 0 <= error -> fs_err_to_sys_errno error = error.
Proof. intros H. unfold fs_err_to_sys_errno. by rewrite (proj2 (Z.leb_le 0 error) H). Qed.

Lemma fs_err_to_sys_errno_code error : error < 0 -> fs_err_to_sys_errno error ∈ errno_codes.
Proof.
  intros H. unfold fs_err_to_sys_errno. rewrite (proj2 (Z.leb_gt 0 error) H).
  repeat (destruct (one_of error _); [by apply (bool_decide_unpack _)|]). by apply (bool_decide_unpack _).
Qed.

Lemma errno_codes_neg : Forall (fun c => -38 <= c < 0) errno_codes.
Proof. by repeat constructor. Qed.

Lemma fs_err_to_sys_errno_neg error : error < 0 -> -38 <= fs_err_to_sys_errno error < 0.
Proof. intros H. pose proof errno_codes_neg as Hf. rewrite Forall_forall in Hf. by apply Hf, fs_err_to_sys_errno_code. Qed.
