(* ===== verification/Bytes.v ===== *)
(** * Bytes in memory and on disk

    Little-endian integers and the layout of C structures in byte buffers.
    A structure of the disk format is an instance of [Format], which pairs its
    encoder with its decoder and their round trip. *)

From S2P Require Import Prelude.

(** ** Access to a buffer *)

Section access.
Context {S : Type}.

(** [data[i]]: an index outside the buffer is undefined behaviour. *)
Definition get_byte (data : list Z) (i : Z) : stM S Z :=
  match data !! Z.to_nat i with Some b => mret b | None => fault end.

Lemma wp_get_byte data i b (Q : Z -> S -> Prop) s :
  data !! Z.to_nat i = Some b -> Q b s -> wp (get_byte data i) Q s.
Proof. intros E HQ. unfold get_byte. rewrite E. by apply wp_ret. Qed.

End access.

(** [data[i] = x] *)
Definition put_byte (data : list Z) (i x : Z) : list Z := <[Z.to_nat i := x]> data.

(** [memcpy] of [src] to offset [off] of [data]. *)
Definition splice (data : list Z) (off : nat) (src : list Z) : list Z :=
  take off data ++ src ++ drop (off + length src) data.

Definition slice (data : list Z) (off n : nat) : list Z := take n (drop off data).

Definition is_byte (b : Z) : Prop := 0 <= b < 256.

Lemma length_splice data off src :
  (off + length src <= length data)%nat -> length (splice data off src) = length data.
Proof. intros Hl. unfold splice. rewrite !length_app, length_take, length_drop. lia. Qed.

Lemma slice_splice data off src :
  (off + length src <= length data)%nat -> slice (splice data off src) off (length src) = src.
Proof.
  intros Hl. unfold slice, splice. rewrite drop_app_length' by (rewrite length_take; lia).
  by rewrite take_app_length.
Qed.

Lemma lookup_splice data off src k :
  (off + length src <= length data)%nat ->
  splice data off src !! k =
    if decide (off <= k < off + length src)%nat then src !! (k - off)%nat else data !! k.
Proof.
  intros Hl. unfold splice. case_decide.
  - rewrite lookup_app_r by (rewrite length_take; lia). rewrite length_take, Nat.min_l by lia.
    by rewrite lookup_app_l by lia.
  - destruct (decide (k < off)%nat).
    + rewrite lookup_app_l by (rewrite length_take; lia). by rewrite lookup_take_lt by lia.
    + rewrite lookup_app_r, length_take, Nat.min_l by (rewrite ?length_take; lia).
      rewrite lookup_app_r, lookup_drop by lia. f_equal. lia.
Qed.

Lemma lookup_slice data off n k :
  slice data off n !! k = if decide (k < n)%nat then data !! (off + k)%nat else None.
Proof.
  unfold slice. case_decide; [rewrite lookup_take_lt by lia; by rewrite lookup_drop|].
  apply lookup_take_ge. lia.
Qed.

(** A slice away from the bytes written. *)
Lemma slice_splice_ne data off src o n :
  (off + length src <= length data)%nat -> (o + n <= off \/ off + length src <= o)%nat ->
  slice (splice data off src) o n = slice data o n.
Proof.
  intros Hl Hd. apply list_eq. intros k. rewrite !lookup_slice. case_decide; [|done].
  rewrite lookup_splice by done. by rewrite decide_False by lia.
Qed.

(** ** Little-endian integers *)

Fixpoint le (n : nat) (x : Z) : list Z :=
  match n with O => [] | S n => x mod 256 :: le n (x / 256) end.

Fixpoint unle (bs : list Z) : Z :=
  match bs with [] => 0 | b :: bs => b + 256 * unle bs end.

Lemma length_le n x : length (le n x) = n.
Proof. revert x. induction n; intros x; simpl; auto. Qed.

Lemma le_bytes n x : Forall is_byte (le n x).
Proof.
  revert x. induction n as [|n IH]; intros x; simpl; constructor; [|done].
  unfold is_byte. pose proof (Z.mod_pos_bound x 256). lia.
Qed.

Lemma unle_le n x : unle (le n x) = x mod 2 ^ (8 * Z.of_nat n).
Proof.
  revert x. induction n as [|n IH]; intros x; cbn [le unle]; [by rewrite Z.mod_1_r|].
  rewrite IH. replace (8 * Z.of_nat (S n)) with (8 + 8 * Z.of_nat n) by lia.
  rewrite Z.pow_add_r by lia. change (2 ^ 8) with 256. rewrite Z.rem_mul_r by lia. lia.
Qed.

Lemma unle_le_small n x : 0 <= x < 2 ^ (8 * Z.of_nat n) -> unle (le n x) = x.
Proof. intros Hx. rewrite unle_le. by apply Z.mod_small. Qed.

Lemma le_unle bs : Forall is_byte bs -> le (length bs) (unle bs) = bs.
Proof.
  unfold is_byte. induction 1 as [|b bs Hb _ IH]; [done|]. cbn [length le unle].
  rewrite (Z.mul_comm 256), Z.mod_add, Z.mod_small, Z.div_add, (Z.div_small b) by lia.
  by rewrite Z.add_0_l, IH.
Qed.

Lemma unle_bound bs : Forall is_byte bs -> 0 <= unle bs < 2 ^ (8 * Z.of_nat (length bs)).
Proof.
  unfold is_byte. induction 1 as [|b bs Hb _ IH]; [done|]. cbn [length unle].
  replace (8 * Z.of_nat (S (length bs))) with (8 + 8 * Z.of_nat (length bs)) by lia.
  rewrite Z.pow_add_r by lia. change (2 ^ 8) with 256. lia.
Qed.

(** ** Structures *)

Class Format (A : Type) := {
  fmt_size : nat;
  encode : A -> list Z;
  decode : list Z -> A;
  (** The values whose fields fit their types. *)
  fits : A -> Prop;
  encode_length : forall x, length (encode x) = fmt_size;
  decode_encode : forall x, fits x -> decode (encode x) = x
}.

(** Element [i] of a buffer taken as an array of structures, and its update. *)
Section array.
Context {A : Type} `{Format A}.

Definition get_struct (data : list Z) (i : nat) : A := decode (slice data (i * fmt_size) fmt_size).

Definition put_struct_at (data : list Z) (i : nat) (x : A) : list Z := splice data (i * fmt_size) (encode x).

Lemma get_put_struct data i x :
  ((i + 1) * fmt_size <= length data)%nat -> fits x -> get_struct (put_struct_at data i x) i = x.
Proof.
  intros Hl Hx. unfold get_struct, put_struct_at. pose proof (slice_splice data (i * fmt_size) (encode x)) as E.
  rewrite encode_length in E. rewrite E by lia. by apply decode_encode.
Qed.

Lemma get_put_struct_ne data i j x :
  ((i + 1) * fmt_size <= length data)%nat -> i <> j ->
  get_struct (put_struct_at data i x) j = get_struct data j.
Proof.
  intros Hl Hij. unfold get_struct, put_struct_at. f_equal. apply slice_splice_ne.
  - rewrite encode_length. lia.
  - rewrite encode_length. nia.
Qed.

Lemma length_put_struct data i x :
  ((i + 1) * fmt_size <= length data)%nat -> length (put_struct_at data i x) = length data.
Proof. intros Hl. apply length_splice. rewrite encode_length. lia. Qed.

End array.

(** A 32-bit number, as in an array of block numbers. *)
#[export] Instance u32_format : Format Z.
Proof.
  refine {| fmt_size := 4; encode := le 4; decode := unle; fits x := 0 <= x < 2 ^ 32 |}.
  - apply length_le.
  - intros x Hx. by apply unle_le_small.
Defined.
