(* ===== verification/Dirent.v ===== *)
(** * Directory entries

    [struct fs_dirent] of kernel/fs/dirs.h: a name of at most 31 characters
    padded with zeros, an inode number and reserved bytes. *)

From S2P Require Import Prelude Bytes.

Record fs_dirent := mkDirent { d_name : list Z; d_ino_id : Z }.

(** 32 characters, a 32-bit number, 26 reserved bytes and two of padding. *)
Definition encode_dirent (e : fs_dirent) : list Z := resize 32 0 (d_name e) ++ le 4 (d_ino_id e) ++ replicate 28 0.

(** The name as the string functions see it: up to the first zero. *)
Fixpoint c_string (bs : list Z) : list Z :=
  match bs with [] => [] | b :: bs => if b =? 0 then [] else b :: c_string bs end.

Definition decode_dirent (data : list Z) : fs_dirent :=
  mkDirent (c_string (slice data 0 32)) (unle (slice data 32 4)).

Record dirent_fits (e : fs_dirent) : Prop := {
  df_name : (length (d_name e) < 32)%nat;
  df_chars : Forall (fun b => b <> 0) (d_name e);
  df_ino : 0 <= d_ino_id e < 2 ^ 32
}.

Lemma c_string_app bs n : Forall (fun b => b <> 0) bs -> c_string (bs ++ replicate (S n) 0) = bs.
Proof.
  induction 1 as [|b bs Hb _ IH]; [done|]. cbn [app c_string]. rewrite (proj2 (Z.eqb_neq _ _) Hb). by rewrite IH.
Qed.

Lemma length_encode_dirent e : length (encode_dirent e) = 64%nat.
Proof. unfold encode_dirent. by rewrite !length_app, length_resize, length_le, length_replicate. Qed.

Lemma decode_encode_dirent e : dirent_fits e -> decode_dirent (encode_dirent e) = e.
Proof.
  intros [Hn Hc Hi]. destruct e as [name ino]. unfold decode_dirent, encode_dirent. cbn [d_name d_ino_id] in *.
  f_equal.
  - unfold slice. rewrite drop_0, take_app_length' by (by rewrite length_resize).
    rewrite resize_ge by lia. replace (32 - length name)%nat with (S (31 - length name)) by lia. by apply c_string_app.
  - unfold slice. rewrite drop_app_length' by (by rewrite length_resize). rewrite take_app_length' by (by rewrite length_le).
    by apply unle_le_small.
Qed.

#[export] Instance dirent_format : Format fs_dirent := {|
  fmt_size := 64;
  encode := encode_dirent;
  decode := decode_dirent;
  fits := dirent_fits;
  encode_length := length_encode_dirent;
  decode_encode := decode_encode_dirent
|}.
