(* ===== verification/Services.v ===== *)
(** * Kernel services as their clients use them

    The components above the memory system use the heap, spin locks, vectors
    and hash maps.  They are written against what Vec.v and HashMap.v prove of
    those containers: a [Vec] is the list it represents and a [HashMap] the
    finite map it represents.  Whether an allocation is granted is read from
    the stream [heap_of]; a container operation that may have to allocate reads
    the stream too ([vec_push_choice] and [vec_insert_choice] state the link
    with the concrete containers), so the theorems, which hold for every
    stream, cover every behaviour of the heap. *)

From S2P Require Import Prelude Vec.

(** ** The heap *)

Class HasHeap (S : Type) := {
  heap_of : S -> nat -> bool;
  set_heap : (nat -> bool) -> S -> S;
  heap_of_set : forall h s, heap_of (set_heap h s) = h
}.

Section heap.
Context {S : Type} `{HasHeap S}.

(** The next answer of the heap. *)
Definition granted : stM S bool := fun s =>
  Ok (heap_of s 0%nat, set_heap (fun n => heap_of s (Datatypes.S n)) s).

(** [kmalloc(size) != NULL] *)
Definition kmalloc (size : Z) : stM S bool :=
  b ← granted; mret (kmalloc_ok (fun _ => b) size).

(** ** Vectors as lists *)

Definition list_new {A} : stM S (list A) :=
  b ← granted; if (b : bool) then mret [] else fatal.

Definition list_push {A} (l : list A) (x : A) : stM S (list A) :=
  b ← granted; if (b : bool) then mret (l ++ [x]) else fatal.

Definition list_insert {A} (l : list A) (i : nat) (x : A) : stM S (list A) :=
  b ← granted;
  if (b : bool) && (i <=? length l)%nat then mret (insert_at l i x) else fatal.

(** ** Hash maps as finite maps

    A new key needs two allocations, its copy and the entry. *)

Definition map_put {V} (m : gmap Z V) (k : Z) (v : V) : stM S (option (gmap Z V)) :=
  match m !! k with
  | Some _ => mret (Some (<[k := v]> m))
  | None =>
      b ← granted;
      if negb b then mret None else
      b' ← granted;
      if negb (b' : bool) then mret None else mret (Some (<[k := v]> m))
  end.

(** ** Rules *)

(** A property of the whole state but its heap. *)
Lemma wp_granted (Q : bool -> S -> Prop) s :
  (forall b h, Q b (set_heap h s)) -> wp granted Q s.
Proof. intros HQ. exists (heap_of s 0%nat). eexists. split; [done|]. apply HQ. Qed.

Lemma wp_kmalloc size (Q : bool -> S -> Prop) s :
  (forall b h, Q b (set_heap h s)) -> wp (kmalloc size) Q s.
Proof. intros HQ. apply wp_bind, wp_granted. intros b h. apply wp_ret, HQ. Qed.

(** An allocation from a heap that refuses nothing. *)
Lemma wp_kmalloc_granted size (Q : bool -> S -> Prop) s :
  0 < size <= KERNEL_HEAP_SIZE -> (forall n, heap_of s n = true) ->
  (forall h, (forall n, h n = true) -> Q true (set_heap h s)) -> wp (kmalloc size) Q s.
Proof.
  intros Hs Hh HQ. eexists _, _. split; [reflexivity|]. rewrite Hh. unfold kmalloc_ok.
  destruct (Z.eqb_spec size 0), (Z.leb_spec size KERNEL_HEAP_SIZE); try lia. by apply HQ.
Qed.

(** [hp m Q s]: [m] returns with [Q], or stops in [fatal_exception] because an
    allocation was refused. *)

Definition refusal (s : S) : Prop := exists n, heap_of s n = false.

Definition hp {A} (m : stM S A) (Q : A -> S -> Prop) (s : S) : Prop :=
  match m s with
  | Ok (a, s') => Q a s' /\ (refusal s' -> refusal s)
  | Fatal => refusal s
  | Fault | Hang => False
  end.

Lemma hp_ret {A} (a : A) (Q : A -> S -> Prop) s : Q a s -> hp (mret a) Q s.
Proof. by split. Qed.

Lemma hp_fatal {A} (Q : A -> S -> Prop) s : refusal s -> hp fatal Q s.
Proof. done. Qed.

Lemma hp_bind {A B} (m : stM S A) (f : A -> stM S B) (Q : B -> S -> Prop) s :
  hp m (fun a s' => hp (f a) Q s') s -> hp (m ≫= f) Q s.
Proof.
  unfold hp, mbind, stM_bind. destruct (m s) as [[a s']| | |]; try done.
  destruct (f a s') as [[b s'']| | |]; intros [Hf Hr]; try done; [|auto].
  destruct Hf as [HQ Hr']. auto.
Qed.

Lemma hp_mono {A} (m : stM S A) (P Q : A -> S -> Prop) s :
  hp m P s -> (forall a s', P a s' -> (refusal s' -> refusal s) -> Q a s') -> hp m Q s.
Proof.
  unfold hp. destruct (m s) as [[a s']| | |]; try done. intros [HP Hr] HPQ. split; auto.
Qed.

(** Code that behaves like other code in a state with the same heap. *)
Lemma hp_conv {A} (m m' : stM S A) (Q : A -> S -> Prop) s s' :
  m s = m' s' -> heap_of s' = heap_of s -> hp m' Q s' -> hp m Q s.
Proof.
  intros E Eh. unfold hp, refusal. rewrite E, Eh. done.
Qed.

(** Code that does not touch the heap. *)
Lemma hp_wp {A} (m : stM S A) (Q : A -> S -> Prop) s :
  wp m (fun a s' => Q a s' /\ heap_of s' = heap_of s) s -> hp m Q s.
Proof. intros (a & s' & E & HQ & Eh). unfold hp, refusal. by rewrite E, Eh. Qed.

Lemma hp_fetch {A} (f : S -> A) (Q : A -> S -> Prop) s : Q (f s) s -> hp (fetch f) Q s.
Proof. by split. Qed.

Lemma hp_modify (f : S -> S) (Q : unit -> S -> Prop) s :
  heap_of (f s) = heap_of s -> Q tt (f s) -> hp (modify f) Q s.
Proof. intros Eh HQ. apply hp_wp, wp_modify. done. Qed.

Lemma hp_granted (Q : bool -> S -> Prop) s :
  (forall (b : bool) h, (b = false -> refusal s) ->
     (refusal (set_heap h s) -> refusal s) -> Q b (set_heap h s)) ->
  hp granted Q s.
Proof.
  intros HQ.
  assert (Hr : refusal (set_heap (fun n => heap_of s (Datatypes.S n)) s) -> refusal s).
  { intros [n Hn]. rewrite heap_of_set in Hn. by exists (Datatypes.S n). }
  split; [|done]. apply HQ; [intros E; by exists 0%nat | done].
Qed.

Lemma hp_kmalloc size (Q : bool -> S -> Prop) s :
  0 < size <= KERNEL_HEAP_SIZE ->
  (forall (b : bool) h, (b = false -> refusal s) ->
     (refusal (set_heap h s) -> refusal s) -> Q b (set_heap h s)) ->
  hp (kmalloc size) Q s.
Proof.
  intros Hs HQ. apply hp_bind, hp_granted. intros b h Hb Hr. apply hp_ret.
  replace (kmalloc_ok (fun _ => b) size) with b; [by apply HQ|].
  unfold kmalloc_ok. repeat case_bool; simpl; done || lia.
Qed.

(** A container operation that needs one allocation. *)
Lemma hp_grow {A} (b : bool -> bool) (x : A) (Q : A -> S -> Prop) s :
  b true = true -> b false = false ->
  (forall h, (refusal (set_heap h s) -> refusal s) -> Q x (set_heap h s)) ->
  hp (g ← granted; if b g then mret x else fatal) Q s.
Proof.
  intros Ht Hf HQ. unfold hp, granted, mbind, stM_bind.
  assert (Hr : refusal (set_heap (fun n => heap_of s (Datatypes.S n)) s) -> refusal s).
  { intros [n Hn]. rewrite heap_of_set in Hn. by exists (Datatypes.S n). }
  destruct (heap_of s 0%nat) eqn:E; [rewrite Ht | rewrite Hf; by exists 0%nat].
  split; [by apply HQ | done].
Qed.

End heap.

(** ** The link with the concrete vector *)

Lemma vec_push_choice {A} grant (v : Vec A) l x :
  vrep v l -> exists b : bool,
  if b then exists v', vec_push_back grant v x = Ok v' /\ vrep v' (l ++ [x])
  else vec_push_back grant v x = Fatal.
Proof.
  intros Hv. destruct (vec_push_back_spec grant v l x Hv) as [[E _] | (v' & E & Hv' & _)];
    [by exists false | exists true; eauto].
Qed.

Lemma vec_insert_choice {A} grant (v : Vec A) l (i : nat) x :
  vrep v l -> exists b : bool,
  if b && (i <=? length l)%nat
  then exists v', vec_insert grant v (Z.of_nat i) x = Ok v' /\ vrep v' (insert_at l i x)
  else vec_insert grant v (Z.of_nat i) x = Fatal.
Proof.
  intros Hv. pose proof (vrep_len _ _ Hv).
  destruct (vec_insert_spec grant v l (Z.of_nat i) x Hv) as [[E _] | (Hi & v' & E & Hv' & _)];
    [lia | by exists false | exists true].
  rewrite Nat2Z.id in Hv'. destruct (Nat.leb_spec i (length l)); [simpl; eauto | lia].
Qed.

(** ** Spin locks

    [spin_lock] on a lock that the calling thread already holds never
    returns. *)

Section lock.
Context {S : Type} (held : S -> bool) (set_held : bool -> S -> S).

Definition spin_lock : stM S unit := fun s =>
  if held s then Hang else Ok (tt, set_held true s).

Definition spin_unlock : stM S unit := modify (set_held false).

Lemma wp_spin_lock (Q : unit -> S -> Prop) s :
  held s = false -> Q tt (set_held true s) -> wp spin_lock Q s.
Proof. intros E HQ. exists tt, (set_held true s). unfold spin_lock. by rewrite E. Qed.

End lock.

(** ** Running one component inside a larger state *)

Section lift.
Context {S T : Type} (get : T -> S) (set : S -> T -> T).

Definition lift {A} (m : stM S A) : stM T A := fun t =>
  match m (get t) with
  | Ok (a, s) => Ok (a, set s t)
  | Fatal => Fatal
  | Fault => Fault
  | Hang => Hang
  end.

Lemma wp_lift {A} (m : stM S A) (Q : A -> T -> Prop) t :
  wp m (fun a s => Q a (set s t)) (get t) -> wp (lift m) Q t.
Proof. intros (a & s & E & HQ). exists a, (set s t). unfold lift. by rewrite E. Qed.

End lift.
