(* ===== verification/PageAlloc.v ===== *)
(** * Physical page allocator and page reference counts

    kernel/memory/page_table/page_table.c (allocator, [struct Page] array,
    copy-on-write flags), kernel/memory/page_table/page_table.h and the
    memory layout of linker.ld.

    RAM is a function from kernel virtual addresses to the 64-bit word stored
    there.  The allocator's free list lives in that memory, as in the code: the
    first word of a free page is the [next] pointer.  The array [pages] is
    NULL until [pt_init]; an index outside it is undefined behaviour
    ([Fault]).  Each function runs with [page_allocator_lock] held, so one call
    is one step. *)

From S2P Require Import Prelude.

(** ** Constants *)

Definition PAGE_SIZE : Z := 4096.
Definition PAGE_MASK : Z := PAGE_SIZE - 1.
Definition PA_MASK : Z := 0x0000ffffffffffff.
Definition PTE_ADDR_MASK : Z := 0x0000fffffffff000.
Definition KERNEL_VA_BASE : Z := 0xffff000000000000.
Definition PROC_KERNEL_STACK_TOP : Z := 0x900000.
Definition PTE_FLAG_COW : Z := 1.

Definition RAM_END_PHYS : Z := 0x40000000.
Definition RAM_end : Z := KERNEL_VA_BASE + RAM_END_PHYS.

(** [~m] on 64 bits. *)
Definition not64 (m : Z) : Z := 2 ^ 64 - 1 - m.

Definition align_up (value : Z) : Z := Z.land (to_u64 (value + PAGE_MASK)) (not64 PAGE_MASK).
Definition align_down (value : Z) : Z := Z.land value (not64 PAGE_MASK).

Definition kernel_phys_addr (va : Z) : Z := Z.land va PA_MASK.
Definition kernel_direct_map_va (pa : Z) : Z := Z.lor KERNEL_VA_BASE (Z.land pa PA_MASK).

(** ** State *)

Record Page := mkPage { refcount : Z; flags : Z }.

(** The [vmstat_*] counters. *)
Inductive counter :=
| page_faults | instruction_faults | data_faults | anon_faults | file_faults
| cow_faults | faults_handled | faults_unmapped | faults_invalid
| faults_permission | faults_error | cow_copies | cow_shared_pages
| heap_lazy_allocs | stack_lazy_allocs | tlb_flushes | page_allocs | page_frees.

#[export] Instance counter_eq_dec : EqDecision counter.
Proof. solve_decision. Defined.

Record pt_state := mkPT {
  mem : Z -> Z;
  pages : option (list Page);
  next_free_page : Z;
  free_list : Z;
  curr_mmap_va : Z;
  vmstat : counter -> Z
}.

Definition set_mem (m : Z -> Z) (s : pt_state) : pt_state :=
  mkPT m (pages s) (next_free_page s) (free_list s) (curr_mmap_va s) (vmstat s).
Definition set_pages (p : option (list Page)) (s : pt_state) : pt_state :=
  mkPT (mem s) p (next_free_page s) (free_list s) (curr_mmap_va s) (vmstat s).
Definition set_next_free (n : Z) (s : pt_state) : pt_state :=
  mkPT (mem s) (pages s) n (free_list s) (curr_mmap_va s) (vmstat s).
Definition set_free_list (f : Z) (s : pt_state) : pt_state :=
  mkPT (mem s) (pages s) (next_free_page s) f (curr_mmap_va s) (vmstat s).
Definition set_mmap_va (v : Z) (s : pt_state) : pt_state :=
  mkPT (mem s) (pages s) (next_free_page s) (free_list s) v (vmstat s).
Definition set_stat (c : counter) (v : Z) (s : pt_state) : pt_state :=
  mkPT (mem s) (pages s) (next_free_page s) (free_list s) (curr_mmap_va s)
    (fun c' => if decide (c' = c) then v else vmstat s c').

Definition upd (m : Z -> Z) (a v : Z) : Z -> Z := fun b => if b =? a then v else m b.

Abbreviation M := (stM pt_state).

Definition rd (a : Z) : M Z := fetch (fun s => mem s a).
Definition wr (a v : Z) : M unit := modify (fun s => set_mem (upd (mem s) a v) s).
Definition bump (c : counter) : M unit :=
  modify (fun s => set_stat c (to_u64 (vmstat s c + 1)) s).

(** [pages[pfn]], read and written. *)
Definition page_at (pfn : Z) : M Page := fun s =>
  match pages s with
  | Some l => p ← checked (l !! Z.to_nat pfn); Ok (p, s)
  | None => Fault
  end.

Definition put_page (pfn : Z) (p : Page) : M unit := fun s =>
  match pages s with
  | Some l => if pfn <? Z.of_nat (length l)
              then Ok (tt, set_pages (Some (<[Z.to_nat pfn := p]> l)) s)
              else Fault
  | None => Fault
  end.

(** ** Operations *)

Definition zero_page (page : Z) : M unit := for_st 512 0 (fun i => wr (page + 8 * i) 0).

Definition copy_phys_page (src_pa dst_pa : Z) : M Z :=
  let src := kernel_direct_map_va src_pa in
  let dst := kernel_direct_map_va dst_pa in
  _ ← for_st 512 0 (fun i => w ← rd (src + 8 * i); wr (dst + 8 * i) w);
  mret 1.

Definition pt_init (page_struct_array : option (list Page)) : M unit :=
  modify (set_pages page_struct_array).

Definition phys_pa_to_pfn (phys_pa : Z) : M Z :=
  let pa := kernel_phys_addr phys_pa in
  let pfn := Z.shiftr pa 12 in
  ps ← fetch pages;
  mret (match ps with None => -1 | Some _ => pfn end).

Definition kernel_va_to_pfn (kernel_va : Z) : M Z :=
  if kernel_va =? 0 then mret (-1) else phys_pa_to_pfn (kernel_phys_addr kernel_va).

Section allocator.
(** The linker's [__kernel_page_pool_start]: the end of the kernel image. *)
Variable page_pool_start : Z.

Definition page_allocator_init : M unit :=
  nf ← fetch next_free_page;
  if negb (nf =? 0) then mret tt
  else
    _ ← modify (set_mmap_va (align_up (PROC_KERNEL_STACK_TOP + 1)));
    modify (set_next_free (align_up page_pool_start)).

(** The page [alloc_page] takes: the head of the free list, else the next
    page never handed out, else NULL. *)
Definition take_page : M Z :=
  fl ← fetch free_list;
  nf ← fetch next_free_page;
  if negb (fl =? 0) then
    next ← rd fl;
    _ ← modify (set_free_list next);
    mret fl
  else if to_u64 (nf + PAGE_SIZE) <=? RAM_end then
    _ ← modify (set_next_free (to_u64 (nf + PAGE_SIZE)));
    mret nf
  else mret 0.

(** Resetting the page's [struct Page], when the array exists. *)
Definition reset_page_struct (page count : Z) : M unit :=
  ps ← fetch pages;
  match ps with
  | None => mret tt
  | Some _ =>
      pfn ← phys_pa_to_pfn (kernel_phys_addr page);
      when (0 <=? pfn) (put_page pfn (mkPage count 0))
  end.

Definition alloc_page : M Z :=
  _ ← page_allocator_init;
  page ← take_page;
  _ ← when (negb (page =? 0))
        (_ ← bump page_allocs; _ ← zero_page page; reset_page_struct page 1);
  mret page.

End allocator.

Definition free_page (page : Z) : M unit :=
  if page =? 0 then mret tt
  else
    _ ← bump page_frees;
    _ ← reset_page_struct page 0;
    fl ← fetch free_list;
    _ ← wr page fl;
    modify (set_free_list page).

(** *** Reference counts and copy-on-write flags *)

(** The body [inc_pte_refcount_pa] and [inc_pte_refcount_va] share. *)
Definition inc_refcount (pfn : Z) : M unit :=
  if pfn <? 0 then mret tt
  else
    pg ← page_at pfn;
    put_page pfn (mkPage (to_u16 (refcount pg + 1)) (flags pg)).

Definition inc_pte_refcount_pa (phys_pa : Z) : M unit :=
  pfn ← phys_pa_to_pfn phys_pa; inc_refcount pfn.

Definition inc_pte_refcount_va (kernel_va : Z) : M unit :=
  pfn ← kernel_va_to_pfn kernel_va; inc_refcount pfn.

Definition has_flag (pg : Page) (flag : Z) : bool := negb (Z.land (flags pg) flag =? 0).

(** One shared copy-on-write page fewer. *)
Definition uncount_shared (b : bool) : M unit :=
  shared ← fetch (fun s => vmstat s cow_shared_pages);
  when (b && (0 <? shared)) (modify (set_stat cow_shared_pages (shared - 1))).

(** The body [dec_pte_refcount_pa] and [dec_pte_refcount_va] share; [va] is
    the page freed when the count reaches zero. *)
Definition dec_refcount (pfn va : Z) : M unit :=
  if pfn <? 0 then mret tt
  else
    pg ← page_at pfn;
    if refcount pg =? 0 then fatal
    else
      let was_shared_cow := has_flag pg PTE_FLAG_COW && (1 <? refcount pg) in
      let rc := to_u16 (refcount pg - 1) in
      _ ← put_page pfn (mkPage rc (flags pg));
      _ ← uncount_shared (was_shared_cow && (rc <=? 1));
      when (rc =? 0) (free_page va).

Definition dec_pte_refcount_pa (phys_pa : Z) : M unit :=
  pfn ← phys_pa_to_pfn phys_pa;
  dec_refcount pfn (kernel_direct_map_va (Z.land phys_pa PA_MASK)).

Definition dec_pte_refcount_va (kernel_va : Z) : M unit :=
  pfn ← kernel_va_to_pfn kernel_va;
  dec_refcount pfn kernel_va.

Definition get_pte_refcount_pa (phys_pa : Z) : M Z :=
  pfn ← phys_pa_to_pfn phys_pa;
  if pfn <? 0 then mret 0 else pg ← page_at pfn; mret (refcount pg).

Definition get_pte_refcount_va (kernel_va : Z) : M Z :=
  pfn ← kernel_va_to_pfn kernel_va;
  if pfn <? 0 then mret 0 else pg ← page_at pfn; mret (refcount pg).

Definition pte_set_cow_flag (pa flag : Z) : M unit :=
  pfn ← phys_pa_to_pfn pa;
  if pfn <? 0 then mret tt
  else
    pg ← page_at pfn;
    let was_cow := has_flag pg PTE_FLAG_COW in
    _ ← put_page pfn (mkPage (refcount pg) (Z.lor (flags pg) flag));
    when (negb (Z.land flag PTE_FLAG_COW =? 0) && negb was_cow && (1 <? refcount pg))
      (bump cow_shared_pages).

Definition pte_clear_cow_flag (pa flag : Z) : M unit :=
  pfn ← phys_pa_to_pfn pa;
  if pfn <? 0 then mret tt
  else
    pg ← page_at pfn;
    let was_shared_cow := negb (Z.land flag PTE_FLAG_COW =? 0)
                          && has_flag pg PTE_FLAG_COW && (1 <? refcount pg) in
    _ ← put_page pfn (mkPage (refcount pg) (Z.ldiff (flags pg) flag));
    uncount_shared was_shared_cow.

Definition pte_test_cow_flag (pa flag : Z) : M bool :=
  pfn ← phys_pa_to_pfn pa;
  if pfn <? 0 then mret false else pg ← page_at pfn; mret (has_flag pg flag).

(** ** Address arithmetic *)

Lemma kva_phys va :
  KERNEL_VA_BASE <= va < KERNEL_VA_BASE + 2 ^ 48 -> kernel_phys_addr va = va - KERNEL_VA_BASE.
Proof.
  intros H. unfold kernel_phys_addr. change PA_MASK with (2 ^ 48 - 1). rewrite (land_ones_mod va 48) by lia.
  symmetry. apply (Z.mod_unique_pos _ _ 65535); unfold KERNEL_VA_BASE in *; lia.
Qed.

Lemma phys_kva pa : 0 <= pa < 2 ^ 48 -> kernel_direct_map_va pa = KERNEL_VA_BASE + pa.
Proof.
  intros H. unfold kernel_direct_map_va. change PA_MASK with (2 ^ 48 - 1). rewrite (land_ones_mod pa 48) by lia.
  rewrite Z.mod_small by done. by apply (lor_add _ _ 48).
Qed.

Lemma phys_small pa : 0 <= pa < 2 ^ 48 -> kernel_phys_addr pa = pa.
Proof. intros H. unfold kernel_phys_addr. change PA_MASK with (2 ^ 48 - 1). rewrite (land_ones_mod pa 48) by lia. by apply Z.mod_small. Qed.

Lemma align_down_eq v : 0 <= v < 2 ^ 64 -> align_down v = v - v mod 4096.
Proof.
  intros H. unfold align_down. change (not64 PAGE_MASK) with (2 ^ 64 - 2 ^ 12).
  rewrite land_high_mod by lia. by rewrite (Z.mod_small v (2 ^ 64)).
Qed.

Lemma align_up_eq v :
  0 <= v < 2 ^ 64 - 4096 -> align_up v = v + 4095 - (v + 4095) mod 4096.
Proof.
  intros H. change (align_up v) with (align_down (to_u64 (v + 4095))).
  unfold to_u64. rewrite wrap_small by lia. apply align_down_eq. lia.
Qed.

(** ** Page contents *)

Lemma upd_eq m a v : upd m a v a = v.
Proof. unfold upd. by rewrite Z.eqb_refl. Qed.

Lemma upd_ne m a b v : b <> a -> upd m a v b = m b.
Proof. intros H. unfold upd. by rewrite (proj2 (Z.eqb_neq _ _) H). Qed.

(** [a] is the address of one of the first [n] words of the page at [p]. *)
Definition word_below (p n a : Z) : bool :=
  (p <=? a) && (a <? p + 8 * n) && ((a - p) mod 8 =? 0).

Definition word_of (p a : Z) : bool := word_below p 512 a.

Lemma word_below_succ p n a :
  0 <= n -> word_below p (n + 1) a = word_below p n a || (a =? p + 8 * n).
Proof.
  intros Hn. unfold word_below. destruct (Z.eqb_spec a (p + 8 * n)) as [->|].
  - replace (p + 8 * n - p) with (n * 8) by lia. rewrite Z.mod_mul by lia.
    rewrite orb_true_r. repeat case_bool; lia.
  - rewrite orb_false_r. destruct (Z.eqb_spec ((a - p) mod 8) 0); rewrite ?andb_false_r; [|done].
    pose proof (Z.div_mod (a - p) 8). repeat case_bool; simpl; lia.
Qed.

Lemma word_of_idx p i : 0 <= i < 512 -> word_of p (p + 8 * i) = true.
Proof.
  intros. unfold word_of, word_below. replace (p + 8 * i - p) with (i * 8) by lia.
  rewrite Z.mod_mul by lia. repeat case_bool; lia.
Qed.

Lemma word_of_inv p a : word_of p a = true -> exists i, 0 <= i < 512 /\ a = p + 8 * i.
Proof.
  unfold word_of, word_below. intros H. apply andb_true_iff in H as [H Hm].
  apply andb_true_iff in H as [H1 H2]. exists ((a - p) / 8).
  pose proof (Z.div_mod (a - p) 8). lia.
Qed.

(** Distinct pages have no word in common. *)
Lemma word_of_page p q : p mod 4096 = 0 -> q mod 4096 = 0 -> p <> q -> word_of p q = false.
Proof.
  intros Hp Hq Hne. unfold word_of, word_below.
  pose proof (Z.div_mod p 4096). pose proof (Z.div_mod q 4096). repeat case_bool; simpl; lia.
Qed.

Lemma word_of_other p q i :
  p mod 4096 = 0 -> q mod 4096 = 0 -> p <> q -> 0 <= i < 512 -> word_of p (q + 8 * i) = false.
Proof.
  intros Hp Hq Hne Hi. unfold word_of, word_below.
  pose proof (Z.div_mod p 4096). pose proof (Z.div_mod q 4096). repeat case_bool; simpl; lia.
Qed.

Lemma wp_zero_page p (Q : unit -> pt_state -> Prop) s :
  (forall m', (forall a, m' a = if word_of p a then 0 else mem s a) -> Q tt (set_mem m' s)) ->
  wp (zero_page p) Q s.
Proof.
  intros HQ. unfold zero_page. apply (wp_for_st (fun i s' => exists m', s' = set_mem m' s /\
    forall a, m' a = if word_below p i a then 0 else mem s a)).
  - exists (mem s). split; [by destruct s|]. intros a.
    unfold word_below. by repeat case_bool; simpl; try lia.
  - intros j t Hj (m' & -> & Hm). apply wp_modify. exists (upd m' (p + 8 * j) 0).
    split; [done|]. intros a. rewrite word_below_succ by lia. unfold upd.
    destruct (Z.eqb_spec a (p + 8 * j)); [by rewrite orb_true_r | by rewrite orb_false_r].
  - intros t (m' & -> & Hm). by apply HQ.
Qed.

(** The copy is word for word, when the two pages do not overlap. *)
Lemma wp_copy_phys_page src dst (Q : Z -> pt_state -> Prop) s :
  let sv := kernel_direct_map_va src in let dv := kernel_direct_map_va dst in
  sv mod 4096 = 0 -> dv mod 4096 = 0 -> sv <> dv ->
  (forall m', (forall a, m' a = if word_of dv a then mem s (sv + (a - dv)) else mem s a) ->
     Q 1 (set_mem m' s)) ->
  wp (copy_phys_page src dst) Q s.
Proof.
  intros sv dv Hs Hd Hne HQ. unfold copy_phys_page. fold sv dv. apply wp_bind.
  apply (wp_for_st (fun i s' => exists m', s' = set_mem m' s /\
    forall a, m' a = if word_below dv i a then mem s (sv + (a - dv)) else mem s a)).
  - exists (mem s). split; [by destruct s|]. intros a.
    unfold word_below. by repeat case_bool; simpl; try lia.
  - intros j t Hj (m' & -> & Hm). apply wp_bind, wp_fetch, wp_modify.
    exists (upd m' (dv + 8 * j) (m' (sv + 8 * j))).
    split; [done|]. intros a. rewrite word_below_succ by lia. unfold upd.
    destruct (Z.eqb_spec a (dv + 8 * j)) as [->|]; [|by rewrite orb_false_r].
    rewrite orb_true_r, Hm. replace (dv + 8 * j - dv) with (8 * j) by lia.
    pose proof (word_of_other dv sv j Hd Hs (not_eq_sym Hne) ltac:(lia)) as Ho.
    replace (word_below dv j (sv + 8 * j)) with false; [done|].
    unfold word_of, word_below in Ho. symmetry. unfold word_below.
    repeat case_bool; simpl in *; try done; lia.
  - intros t (m' & -> & Hm). by apply wp_ret, HQ.
Qed.

(** ** The array of page structures *)

Definition pfn_of (page : Z) : nat := Z.to_nat ((page - KERNEL_VA_BASE) / 4096).

(** The array has an entry for every frame of RAM. *)
Definition pages_cover (s : pt_state) : Prop :=
  forall l, pages s = Some l -> RAM_END_PHYS / 4096 <= Z.of_nat (length l).

Definition in_ram (p : Z) : Prop := KERNEL_VA_BASE <= p < RAM_end.

Definition insert_page (p : Z) (pg : Page) (ps : option (list Page)) : option (list Page) :=
  match ps with Some l => Some (<[pfn_of p := pg]> l) | None => None end.

(** The [struct Page] of the page at [p], if the array exists. *)
Definition page_struct (s : pt_state) (p : Z) : option Page :=
  match pages s with Some l => l !! pfn_of p | None => None end.

Lemma in_ram_pfn p :
  in_ram p -> 0 <= (p - KERNEL_VA_BASE) / 4096 < RAM_END_PHYS / 4096.
Proof.
  unfold in_ram, RAM_end. intros H. split; [apply Z.div_pos; lia|].
  apply Z.div_lt_upper_bound; [lia|]. change (4096 * (RAM_END_PHYS / 4096)) with RAM_END_PHYS. lia.
Qed.

Lemma in_ram_kva p : in_ram p -> KERNEL_VA_BASE <= p < KERNEL_VA_BASE + 2 ^ 48.
Proof. unfold in_ram, RAM_end, RAM_END_PHYS. lia. Qed.

Lemma in_ram_nonzero p : in_ram p -> p <> 0.
Proof. unfold in_ram, KERNEL_VA_BASE. lia. Qed.

Lemma in_ram_phys p : in_ram p -> kernel_phys_addr (kernel_phys_addr p) = p - KERNEL_VA_BASE.
Proof.
  intros H. pose proof (in_ram_kva p H). rewrite (kva_phys p) by done. apply phys_small. lia.
Qed.

Lemma direct_phys p : in_ram p -> kernel_direct_map_va (kernel_phys_addr p) = p.
Proof.
  intros H. pose proof (in_ram_kva p H). rewrite kva_phys, phys_kva by lia. lia.
Qed.

Lemma wp_pfn p (Q : Z -> pt_state -> Prop) s :
  in_ram p ->
  Q (match pages s with None => -1 | Some _ => (p - KERNEL_VA_BASE) / 4096 end) s ->
  wp (phys_pa_to_pfn (kernel_phys_addr p)) Q s.
Proof.
  intros H HQ. unfold phys_pa_to_pfn. apply wp_bind, wp_fetch, wp_ret.
  rewrite in_ram_phys by done. by rewrite Z.shiftr_div_pow2 by lia.
Qed.

Lemma wp_put_page p pg (Q : unit -> pt_state -> Prop) s :
  in_ram p -> pages_cover s -> pages s <> None ->
  Q tt (set_pages (insert_page p pg (pages s)) s) ->
  wp (put_page ((p - KERNEL_VA_BASE) / 4096) pg) Q s.
Proof.
  intros Hp Hc Hn HQ. destruct (pages s) as [l|] eqn:E; [|done].
  pose proof (in_ram_pfn p Hp). specialize (Hc l E).
  exists tt, (set_pages (insert_page p pg (pages s)) s). rewrite E. split; [|done].
  unfold put_page. rewrite E. by rewrite (proj2 (Z.ltb_lt _ _)) by lia.
Qed.

Lemma wp_reset_page_struct p n (Q : unit -> pt_state -> Prop) s :
  in_ram p -> pages_cover s ->
  Q tt (set_pages (insert_page p (mkPage n 0) (pages s)) s) ->
  wp (reset_page_struct p n) Q s.
Proof.
  intros Hp Hc HQ. unfold reset_page_struct. apply wp_bind, wp_fetch.
  destruct (pages s) as [l|] eqn:E.
  - apply wp_bind, wp_pfn; [done|]. rewrite E. pose proof (in_ram_pfn p Hp).
    rewrite (proj2 (Z.leb_le _ _)) by lia. apply wp_put_page; [done | done | by rewrite E |].
    by rewrite E.
  - apply wp_ret. simpl in HQ. by destruct s; simpl in *; subst.
Qed.

Lemma pages_cover_insert s s' p pg :
  pages_cover s -> pages s' = insert_page p pg (pages s) -> pages_cover s'.
Proof.
  intros Hc E l El. rewrite E in El. destruct (pages s) as [l0|] eqn:E0; simplify_eq/=.
  rewrite length_insert. by apply Hc.
Qed.

Lemma insert_page_some p pg ps : ps <> None -> insert_page p pg ps <> None.
Proof. by destruct ps. Qed.

Lemma pfn_of_inj p q :
  in_ram p -> in_ram q -> p mod 4096 = 0 -> q mod 4096 = 0 -> pfn_of p = pfn_of q -> p = q.
Proof.
  intros Hp Hq Ap Aq E. pose proof (in_ram_pfn p Hp). pose proof (in_ram_pfn q Hq).
  unfold pfn_of in E. apply Z2Nat.inj in E; [|lia..].
  assert ((p - KERNEL_VA_BASE) mod 4096 = 0) by (by rewrite Zminus_mod, Ap).
  assert ((q - KERNEL_VA_BASE) mod 4096 = 0) by (by rewrite Zminus_mod, Aq).
  pose proof (Z.div_mod (p - KERNEL_VA_BASE) 4096). pose proof (Z.div_mod (q - KERNEL_VA_BASE) 4096).
  lia.
Qed.

Lemma page_struct_insert_ne s s' p q pg :
  in_ram p -> in_ram q -> p mod 4096 = 0 -> q mod 4096 = 0 -> p <> q ->
  pages s' = insert_page p pg (pages s) -> page_struct s' q = page_struct s q.
Proof.
  intros Hp Hq Ap Aq Hne E. unfold page_struct. rewrite E. destruct (pages s) as [l|]; [|done].
  simpl. apply list_lookup_insert_ne. intros Epq. by apply Hne, pfn_of_inj.
Qed.

Lemma page_struct_insert_eq s s' p pg :
  in_ram p -> pages_cover s -> pages s <> None ->
  pages s' = insert_page p pg (pages s) -> page_struct s' p = Some pg.
Proof.
  intros Hp Hc Hn E. unfold page_struct. rewrite E. destruct (pages s) as [l|] eqn:El; [|done].
  simpl. apply list_lookup_insert_eq. specialize (Hc l El). pose proof (in_ram_pfn p Hp).
  unfold pfn_of. lia.
Qed.

(** ** The free list *)

Fixpoint free_chain (m : Z -> Z) (head : Z) (l : list Z) : Prop :=
  match l with
  | [] => head = 0
  | p :: l => head = p /\ p <> 0 /\ free_chain m (m p) l
  end.

Lemma free_chain_ext m m' h l :
  free_chain m h l -> (forall a, a ∈ l -> m' a = m a) -> free_chain m' h l.
Proof.
  revert h. induction l as [|p l IH]; intros h; simpl; [done|].
  intros (-> & Hp & Hl) Hm. split_and!; [done | done |].
  rewrite Hm by apply list_elem_of_here. apply IH; [done|].
  intros a Ha. apply Hm. by apply list_elem_of_further.
Qed.

(** ** The allocator's invariant

    [fl] are the pages on the free list and [used] the pages handed out and
    not yet freed: together they are exactly the pages below the frontier. *)

Section allocator_spec.
Variable page_pool_start : Z.
Hypothesis pool_in_ram : KERNEL_VA_BASE < page_pool_start <= RAM_end.

Definition pool_base : Z := align_up page_pool_start.

Definition frontier (s : pt_state) : Z :=
  if next_free_page s =? 0 then pool_base else next_free_page s.

Record alloc_inv (s : pt_state) (fl : list Z) (used : gset Z) : Prop := {
  ai_frontier : pool_base <= frontier s <= RAM_end;
  ai_aligned : frontier s mod 4096 = 0;
  ai_chain : free_chain (mem s) (free_list s) fl;
  ai_nodup : NoDup fl;
  ai_disjoint : forall p, p ∈ fl -> p ∉ used;
  ai_pool : forall p, p ∈ fl \/ p ∈ used <-> pool_base <= p < frontier s /\ p mod 4096 = 0;
  ai_pages : pages_cover s
}.

Lemma pool_base_bounds : KERNEL_VA_BASE < pool_base <= RAM_end.
Proof.
  unfold pool_base. rewrite align_up_eq by (unfold RAM_end, RAM_END_PHYS, KERNEL_VA_BASE in *; lia).
  pose proof (Z.mod_pos_bound (page_pool_start + 4095) 4096).
  assert (RAM_end mod 4096 = 0) by done.
  pose proof (Z.div_mod (page_pool_start + 4095) 4096). pose proof (Z.div_mod RAM_end 4096).
  lia.
Qed.

Lemma pool_base_aligned : pool_base mod 4096 = 0.
Proof.
  unfold pool_base. rewrite align_up_eq by (unfold RAM_end, RAM_END_PHYS, KERNEL_VA_BASE in *; lia).
  pose proof (Z.div_mod (page_pool_start + 4095) 4096) as H.
  replace (page_pool_start + 4095 - (page_pool_start + 4095) mod 4096)
    with ((page_pool_start + 4095) / 4096 * 4096) by lia.
  apply Z.mod_mul. lia.
Qed.

Lemma inv_in_ram s fl used p :
  alloc_inv s fl used -> p ∈ fl \/ p ∈ used -> in_ram p /\ p mod 4096 = 0.
Proof.
  intros Hi [Hb Hm]%(ai_pool _ _ _ Hi). pose proof (ai_frontier _ _ _ Hi).
  pose proof pool_base_bounds. unfold in_ram. lia.
Qed.

(** Initialisation is idempotent and does not move the frontier. *)
Lemma wp_page_allocator_init s fl used (Q : unit -> pt_state -> Prop) :
  alloc_inv s fl used ->
  (forall s', alloc_inv s' fl used -> frontier s' = next_free_page s' ->
     frontier s' = frontier s -> mem s' = mem s -> pages s' = pages s ->
     free_list s' = free_list s -> Q tt s') ->
  wp (page_allocator_init page_pool_start) Q s.
Proof.
  intros Hi HQ. unfold page_allocator_init. apply wp_bind, wp_fetch.
  destruct (Z.eqb_spec (next_free_page s) 0) as [E|E]; simpl.
  - apply wp_bind, wp_modify, wp_modify.
    assert (Hf : frontier (set_next_free (align_up page_pool_start)
              (set_mmap_va (align_up (PROC_KERNEL_STACK_TOP + 1)) s)) = frontier s).
    { unfold frontier. simpl. rewrite E. simpl. by destruct (align_up page_pool_start =? 0). }
    pose proof pool_base_bounds as Hb.
    apply HQ; [| | done..]; [destruct Hi; constructor; simpl in *; rewrite ?Hf; done|].
    unfold frontier. simpl. destruct (Z.eqb_spec (align_up page_pool_start) 0); [|done].
    unfold pool_base, KERNEL_VA_BASE in Hb. lia.
  - apply wp_ret, HQ; try done. unfold frontier. by rewrite (proj2 (Z.eqb_neq _ _) E).
Qed.

Lemma take_from_list s p fl used :
  alloc_inv s (p :: fl) used ->
  alloc_inv (set_free_list (mem s p) s) fl ({[p]} ∪ used).
Proof.
  intros [Hf Ha Hc Hn Hd Hp Hg]. simpl in Hc. destruct Hc as (_ & _ & Hc).
  apply NoDup_cons in Hn as [Hpf Hn]. constructor; try done.
  - intros q Hq. rewrite elem_of_union, elem_of_singleton. intros [-> | Hu]; [done|].
    apply (Hd q); [by apply list_elem_of_further | done].
  - intros q. change (frontier (set_free_list (mem s p) s)) with (frontier s).
    rewrite <- Hp, elem_of_union, elem_of_singleton, elem_of_cons. tauto.
Qed.

Lemma take_from_frontier s fl used :
  alloc_inv s fl used -> frontier s + 4096 <= RAM_end ->
  alloc_inv (set_next_free (frontier s + 4096) s) fl ({[frontier s]} ∪ used)
  /\ frontier s ∉ used.
Proof.
  intros [Hf Ha Hc Hn Hd Hp Hg] Hr. pose proof pool_base_bounds as Hb.
  assert (frontier (set_next_free (frontier s + 4096) s) = frontier s + 4096) as Hf'.
  { unfold frontier at 1. simpl. destruct (Z.eqb_spec (frontier s + 4096) 0); [|done].
    unfold KERNEL_VA_BASE in *. lia. }
  assert (Hnew : ~ (frontier s ∈ fl \/ frontier s ∈ used)) by (rewrite Hp; lia).
  split; [|tauto]. constructor; rewrite ?Hf'; try done; [lia | by rewrite Zplus_mod, Ha | |].
  - intros q Hq. rewrite elem_of_union, elem_of_singleton. intros [-> | Hu]; [tauto|].
    by apply (Hd q).
  - intros q. rewrite elem_of_union, elem_of_singleton.
    pose proof (Z.div_mod q 4096). pose proof (Z.div_mod (frontier s) 4096). specialize (Hp q).
    split; [intros [Hq | [-> | Hq]]; [| lia |]; [assert (q ∈ fl \/ q ∈ used) as [??]%Hp by tauto..]; lia|].
    intros [Hq Hm]. destruct (Z.eq_dec q (frontier s)) as [->|]; [tauto|].
    assert (q ∈ fl \/ q ∈ used) by (apply Hp; lia). tauto.
Qed.

Lemma wp_take_page s fl used :
  alloc_inv s fl used -> frontier s = next_free_page s ->
  wp take_page (fun p s' => mem s' = mem s /\ pages s' = pages s /\
      ((p = 0 /\ s' = s /\ fl = [] /\ frontier s = RAM_end) \/
       ((p ∉ used) /\ in_ram p /\ p mod 4096 = 0 /\ exists fl', alloc_inv s' fl' ({[p]} ∪ used)))) s.
Proof.
  intros Hi Hf. unfold take_page. do 2 apply wp_bind, wp_fetch.
  pose proof (ai_chain _ _ _ Hi) as Hc. destruct fl as [|p fl]; simpl in Hc.
  - rewrite Hc. simpl. rewrite <- Hf. pose proof (ai_frontier _ _ _ Hi).
    pose proof pool_base_bounds. unfold to_u64, PAGE_SIZE.
    rewrite wrap_small by (unfold RAM_end, RAM_END_PHYS, KERNEL_VA_BASE in *; lia).
    destruct (Z.leb_spec (frontier s + 4096) RAM_end).
    + apply wp_bind, wp_modify, wp_ret. split_and!; [done | done |]. right.
      destruct (take_from_frontier s [] used) as [Hi' Hn]; [done | done |].
      split_and!; [done | unfold in_ram; lia | apply Hi |]. by eexists.
    + apply wp_ret. split_and!; [done | done |]. left. split_and!; [done | done | done |].
      pose proof (ai_aligned _ _ _ Hi). assert (RAM_end mod 4096 = 0) by done.
      pose proof (Z.div_mod (frontier s) 4096). pose proof (Z.div_mod RAM_end 4096). lia.
  - destruct Hc as (E & Hp & Hc). rewrite E, (proj2 (Z.eqb_neq _ _) Hp). simpl.
    apply wp_bind, wp_fetch, wp_bind, wp_modify, wp_ret. split_and!; [done | done |]. right.
    assert (Hin : p ∈ p :: fl) by apply list_elem_of_here.
    destruct (inv_in_ram _ _ _ p Hi) as [??]; [tauto|].
    split_and!; [by apply (ai_disjoint _ _ _ Hi) | done | done |].
    exists fl. by apply take_from_list.
Qed.

(** [s'] is [s] with the page [p] cleared and its count set to one. *)
Definition fresh_page (s s' : pt_state) (p : Z) : Prop :=
  (forall a, mem s' a = if word_of p a then 0 else mem s a) /\
  pages s' = insert_page p (mkPage 1 0) (pages s).

(** Writing into a used page and its page structure keeps the invariant. *)
Lemma alloc_inv_write s s' fl used :
  alloc_inv s fl used ->
  next_free_page s' = next_free_page s -> free_list s' = free_list s ->
  (forall p, p ∈ fl -> mem s' p = mem s p) -> pages_cover s' ->
  alloc_inv s' fl used.
Proof.
  intros [Hf Ha Hc Hn Hd Hp Hg] En El Em Eg.
  assert (Ef : frontier s' = frontier s) by (unfold frontier; by rewrite En).
  constructor; rewrite ?Ef; try done. rewrite El. by eapply free_chain_ext.
Qed.

(** [alloc_page] hands out a page that was not in use, cleared, or reports
    that every page of RAM is in use. *)
Lemma wp_alloc_page s fl used :
  alloc_inv s fl used ->
  wp (alloc_page page_pool_start) (fun p s' =>
      (p = 0 /\ alloc_inv s' fl used /\ mem s' = mem s /\ pages s' = pages s /\
       fl = [] /\ frontier s' = RAM_end /\ frontier s = RAM_end) \/
      (p <> 0 /\ (p ∉ used) /\ in_ram p /\ p mod 4096 = 0 /\ fresh_page s s' p /\
       exists fl', alloc_inv s' fl' ({[p]} ∪ used))) s.
Proof.
  intros Hi. unfold alloc_page. apply wp_bind.
  eapply wp_page_allocator_init; [done|]. intros s1 Hi1 Hf1 Ef Em Eg El.
  apply wp_bind. eapply wp_mono; [by apply (wp_take_page s1 fl used)|].
  intros p s2 (Em2 & Eg2 & [(-> & -> & -> & Hr) | (Hu & Hram & Ha & fl' & Hi2)]).
  - apply wp_bind, wp_ret, wp_ret. left. split_and!; try done. congruence.
  - pose proof (in_ram_nonzero p Hram) as Hp. rewrite (proj2 (Z.eqb_neq _ _) Hp). simpl.
    apply wp_bind, wp_bind, wp_modify, wp_bind, wp_zero_page. intros m' Hm.
    apply wp_reset_page_struct; [done | apply (ai_pages _ _ _ Hi2) |].
    apply wp_ret. right. split_and!; try done.
    + split; simpl; [intros a; rewrite Hm; simpl; by rewrite Em2, Em | by rewrite Eg2, Eg].
    + exists fl'. eapply alloc_inv_write; [apply Hi2 | done | done | |].
      * intros q Hq. simpl. rewrite Hm. simpl. rewrite word_of_page; [done | done | |].
        { by destruct (inv_in_ram _ _ _ q Hi2) as [_ ?]; [by left|]. }
        intros ->. apply (ai_disjoint _ _ _ Hi2 q Hq). rewrite elem_of_union, elem_of_singleton. tauto.
      * by eapply pages_cover_insert; [apply (ai_pages _ _ _ Hi2)|].
Qed.

(** Freeing a page in use puts it back on the list. *)
Lemma wp_free_page s fl used p :
  alloc_inv s fl used -> p ∈ used ->
  wp (free_page p) (fun _ s' => alloc_inv s' (p :: fl) (used ∖ {[p]}) /\
      mem s' = upd (mem s) p (free_list s) /\
      pages s' = insert_page p (mkPage 0 0) (pages s)) s.
Proof.
  intros Hi Hp. destruct (inv_in_ram _ _ _ p Hi) as [Hram Ha]; [by right|].
  unfold free_page. rewrite (proj2 (Z.eqb_neq _ _) (in_ram_nonzero p Hram)).
  apply wp_bind, wp_modify, wp_bind, wp_reset_page_struct; [done | apply (ai_pages _ _ _ Hi) |].
  apply wp_bind, wp_fetch, wp_bind, wp_modify, wp_modify. split_and!; [|done..].
  destruct Hi as [Hf Hal Hc Hn Hd Hpool Hg].
  assert (Hpf : p ∉ fl) by (intros Hin; by apply (Hd p)).
  constructor; simpl; try done.
  - split_and!; [done | by apply in_ram_nonzero |]. rewrite upd_eq.
    eapply free_chain_ext; [done|]. intros a Hin. apply upd_ne. by intros ->.
  - by apply NoDup_cons.
  - intros q. rewrite elem_of_cons, elem_of_difference, elem_of_singleton.
    intros [-> | Hq]; [tauto|]. intros [Hu _]. by apply (Hd q).
  - intros q. change (frontier _) with (frontier s) at 1.
    rewrite <- Hpool, elem_of_cons, elem_of_difference, elem_of_singleton.
    destruct (Z.eq_dec q p) as [->|]; tauto.
  - by eapply pages_cover_insert; [apply Hg|].
Qed.

End allocator_spec.

(** ** Reference counts and flags of a page *)

(** Equal states up to the statistics. *)
Definition core_eq (s s' : pt_state) : Prop :=
  mem s' = mem s /\ pages s' = pages s /\
  next_free_page s' = next_free_page s /\ free_list s' = free_list s.

Lemma core_eq_refl s : core_eq s s.
Proof. by split_and!. Qed.

Lemma core_eq_trans s1 s2 s3 : core_eq s1 s2 -> core_eq s2 s3 -> core_eq s1 s3.
Proof. intros (?&?&?&?) (?&?&?&?). split_and!; congruence. Qed.

Lemma core_set_stat c v s : core_eq s (set_stat c v s).
Proof. by split_and!. Qed.

#[export] Hint Resolve core_eq_refl core_set_stat : kernel.

(** The state after storing [pg] as the structure of the page [d]. *)
Definition with_page (d : Z) (pg : Page) (s : pt_state) : pt_state :=
  set_pages (insert_page d pg (pages s)) s.

Lemma page_struct_core s s' q : core_eq s s' -> page_struct s' q = page_struct s q.
Proof. intros (_ & E & _ & _). unfold page_struct. by rewrite E. Qed.

Lemma pages_cover_core s s' : core_eq s s' -> pages_cover s -> pages_cover s'.
Proof. intros (_ & E & _ & _) H l. rewrite E. apply H. Qed.

Lemma with_page_eq s d pg pg' :
  page_struct s d = Some pg -> page_struct (with_page d pg' s) d = Some pg'.
Proof.
  unfold page_struct, with_page, insert_page. simpl. destruct (pages s) as [l|]; [|done].
  intros H%lookup_lt_Some. by apply list_lookup_insert_eq.
Qed.

Lemma with_page_ne s d q pg :
  in_ram d -> in_ram q -> d mod 4096 = 0 -> q mod 4096 = 0 -> d <> q ->
  page_struct (with_page d pg s) q = page_struct s q.
Proof. intros. by apply (page_struct_insert_ne s (with_page d pg s) d q pg). Qed.

Lemma pages_cover_with s d pg : pages_cover s -> pages_cover (with_page d pg s).
Proof. intros H. by apply (pages_cover_insert s _ d pg). Qed.

#[export] Hint Resolve pages_cover_core pages_cover_with : kernel.

Section page_ops.
Variables (d : Z) (pg : Page) (s : pt_state).
Hypothesis d_in_ram : in_ram d.
Hypothesis d_struct : page_struct s d = Some pg.

Lemma wp_pfn_pa (Q : Z -> pt_state -> Prop) :
  Q ((d - KERNEL_VA_BASE) / 4096) s -> wp (phys_pa_to_pfn (d - KERNEL_VA_BASE)) Q s.
Proof.
  intros HQ. rewrite <- (kva_phys d) by by apply in_ram_kva. apply wp_pfn; [done|].
  unfold page_struct in d_struct. by destruct (pages s).
Qed.

Lemma pfn_nonneg : ((d - KERNEL_VA_BASE) / 4096 <? 0) = false.
Proof. apply Z.ltb_ge. pose proof (in_ram_pfn d d_in_ram). lia. Qed.

Lemma wp_page_at (Q : Page -> pt_state -> Prop) :
  Q pg s -> wp (page_at ((d - KERNEL_VA_BASE) / 4096)) Q s.
Proof.
  intros HQ. exists pg, s. split; [|done]. unfold page_struct, pfn_of in d_struct. unfold page_at.
  destruct (pages s) as [l|]; [|done]. by rewrite d_struct.
Qed.

Lemma wp_put_page_at pg' (Q : unit -> pt_state -> Prop) :
  Q tt (with_page d pg' s) -> wp (put_page ((d - KERNEL_VA_BASE) / 4096) pg') Q s.
Proof.
  intros HQ. exists tt, (with_page d pg' s). split; [|done].
  unfold page_struct, pfn_of in d_struct. unfold put_page, with_page, insert_page, pfn_of.
  destruct (pages s) as [l|]; [|done]. apply lookup_lt_Some in d_struct.
  pose proof (in_ram_pfn d d_in_ram). by rewrite (proj2 (Z.ltb_lt _ _)) by lia.
Qed.

Lemma wp_inc_refcount (Q : unit -> pt_state -> Prop) :
  Q tt (with_page d (mkPage (to_u16 (refcount pg + 1)) (flags pg)) s) ->
  wp (inc_pte_refcount_pa (d - KERNEL_VA_BASE)) Q s.
Proof.
  intros HQ. apply wp_bind, wp_pfn_pa. unfold inc_refcount. rewrite pfn_nonneg.
  by apply wp_bind, wp_page_at, wp_put_page_at.
Qed.

Lemma wp_get_refcount (Q : Z -> pt_state -> Prop) :
  Q (refcount pg) s -> wp (get_pte_refcount_pa (d - KERNEL_VA_BASE)) Q s.
Proof. intros HQ. apply wp_bind, wp_pfn_pa. rewrite pfn_nonneg. by apply wp_bind, wp_page_at, wp_ret. Qed.

Lemma wp_test_flag flag (Q : bool -> pt_state -> Prop) :
  Q (has_flag pg flag) s -> wp (pte_test_cow_flag (d - KERNEL_VA_BASE) flag) Q s.
Proof. intros HQ. apply wp_bind, wp_pfn_pa. rewrite pfn_nonneg. by apply wp_bind, wp_page_at, wp_ret. Qed.

Lemma wp_set_flag (Q : unit -> pt_state -> Prop) :
  (forall s', core_eq (with_page d (mkPage (refcount pg) (Z.lor (flags pg) PTE_FLAG_COW)) s) s' -> Q tt s') ->
  wp (pte_set_cow_flag (d - KERNEL_VA_BASE) PTE_FLAG_COW) Q s.
Proof.
  intros HQ. apply wp_bind, wp_pfn_pa. rewrite pfn_nonneg.
  apply wp_bind, wp_page_at, wp_bind, wp_put_page_at. unfold when.
  destruct (_ && _); [apply wp_modify | apply wp_ret]; apply HQ; auto with kernel.
Qed.

Lemma wp_uncount_shared b s1 (Q : unit -> pt_state -> Prop) :
  (forall s', core_eq s1 s' -> Q tt s') -> wp (uncount_shared b) Q s1.
Proof.
  intros HQ. apply wp_bind, wp_fetch. unfold when.
  destruct (_ && _); [apply wp_modify | apply wp_ret]; apply HQ; auto with kernel.
Qed.

Lemma wp_clear_flag (Q : unit -> pt_state -> Prop) :
  (forall s', core_eq (with_page d (mkPage (refcount pg) (Z.ldiff (flags pg) PTE_FLAG_COW)) s) s' -> Q tt s') ->
  wp (pte_clear_cow_flag (d - KERNEL_VA_BASE) PTE_FLAG_COW) Q s.
Proof.
  intros HQ. apply wp_bind, wp_pfn_pa. rewrite pfn_nonneg.
  by apply wp_bind, wp_page_at, wp_bind, wp_put_page_at, wp_uncount_shared.
Qed.

(** Dropping one of several references. *)
Lemma wp_dec_refcount (Q : unit -> pt_state -> Prop) :
  1 < refcount pg < 65536 ->
  (forall s', core_eq (with_page d (mkPage (refcount pg - 1) (flags pg)) s) s' -> Q tt s') ->
  wp (dec_pte_refcount_pa (d - KERNEL_VA_BASE)) Q s.
Proof.
  intros Hr HQ. apply wp_bind, wp_pfn_pa. unfold dec_refcount. rewrite pfn_nonneg.
  apply wp_bind, wp_page_at. rewrite (proj2 (Z.eqb_neq _ _)) by lia.
  unfold to_u16. rewrite wrap_small by lia.
  apply wp_bind, wp_put_page_at, wp_bind, wp_uncount_shared. intros s' Hs'.
  rewrite (proj2 (Z.eqb_neq _ _)) by lia. by apply wp_ret, HQ.
Qed.

End page_ops.

(** ** Sequences of allocations and frees

    [out] are the pages handed out and not freed, most recent first; [Free k]
    frees the [k]-th of them. *)

Inductive page_op := Alloc | Free (k : nat).

Section runs.
Variable page_pool_start : Z.

Definition page_step (op : page_op) (out : list Z) : M (list Z) :=
  match op with
  | Alloc => p ← alloc_page page_pool_start; mret (if p =? 0 then out else p :: out)
  | Free k => match out !! k with
              | Some p => _ ← free_page p; mret (delete k out)
              | None => mret out
              end
  end.

Fixpoint page_run (ops : list page_op) (out : list Z) : M (list Z) :=
  match ops with
  | [] => mret out
  | op :: ops => out' ← page_step op out; page_run ops out'
  end.

(** The state at boot: nothing allocated yet. *)
Definition boot_state (s : pt_state) : Prop :=
  next_free_page s = 0 /\ free_list s = 0 /\ pages_cover s.

Hypothesis pool_in_ram : KERNEL_VA_BASE < page_pool_start <= RAM_end.

Definition run_inv (out : list Z) (s : pt_state) : Prop :=
  NoDup out /\ exists fl, alloc_inv page_pool_start s fl (list_to_set out).

Lemma boot_run_inv s : boot_state s -> run_inv [] s.
Proof.
  intros (En & El & Hg). split; [constructor|]. exists [].
  pose proof (pool_base_bounds page_pool_start pool_in_ram).
  assert (Ef : frontier page_pool_start s = pool_base page_pool_start)
    by (unfold frontier; by rewrite En).
  constructor; rewrite ?Ef; [lia | by apply pool_base_aligned | done | by apply NoDup_nil |
    by intros ? ?%elem_of_nil | | done].
  intros p. rewrite elem_of_nil, list_to_set_nil, elem_of_empty. lia.
Qed.

Lemma used_delete out k p :
  NoDup out -> out !! k = Some p ->
  (list_to_set out ∖ {[p]} : gset Z) = list_to_set (delete k out).
Proof.
  intros Hn Hk. pose proof (delete_Permutation out k p Hk) as HP. rewrite HP in Hn.
  apply NoDup_cons in Hn as [Hp _]. apply leibniz_equiv. rewrite HP at 1.
  intros q. rewrite elem_of_difference, elem_of_singleton, !elem_of_list_to_set, elem_of_cons.
  split; [tauto|]. intros Hq. split; [by right | by intros ->].
Qed.

Lemma wp_page_step op out s :
  run_inv out s -> wp (page_step op out) run_inv s.
Proof.
  intros [Hn [fl Hi]]. destruct op as [|k]; simpl.
  - apply wp_bind. eapply wp_mono; [by apply wp_alloc_page|].
    intros p s' [(-> & Hi' & _) | (Hp & Hu & _ & _ & _ & fl' & Hi')]; apply wp_ret.
    + by split; [|exists fl].
    + rewrite (proj2 (Z.eqb_neq _ _) Hp). rewrite elem_of_list_to_set in Hu.
      split; [by apply NoDup_cons|]. by exists fl'.
  - destruct (out !! k) as [p|] eqn:Hk; [|by apply wp_ret; split; [|exists fl]].
    apply wp_bind. eapply wp_mono; [eapply wp_free_page; [done | done |]|].
    { by apply elem_of_list_to_set, (list_elem_of_lookup_2 _ k). }
    intros _ s' (Hi' & _). apply wp_ret. rewrite (used_delete _ k) in Hi' by done.
    split; [|by exists (p :: fl)].
    rewrite (delete_Permutation out k p Hk) in Hn. by apply NoDup_cons in Hn as [_ ?].
Qed.

Lemma wp_page_run ops out s : run_inv out s -> wp (page_run ops out) run_inv s.
Proof.
  revert out s. induction ops as [|op ops IH]; intros out s Hi; simpl; [by apply wp_ret|].
  apply wp_bind. eapply wp_mono; [by apply wp_page_step|]. intros out' s' Hi'. by apply IH.
Qed.

(** The pages of the pool. *)
Definition pool_pages : list Z :=
  (fun i => pool_base page_pool_start + 4096 * i) <$>
    seqZ 0 ((RAM_end - pool_base page_pool_start) / 4096).

Lemma elem_of_pool_pages p :
  p ∈ pool_pages <-> pool_base page_pool_start <= p < RAM_end /\ p mod 4096 = 0.
Proof.
  unfold pool_pages. rewrite list_elem_of_fmap.
  pose proof (pool_base_aligned page_pool_start pool_in_ram) as Ha.
  set (b := pool_base page_pool_start) in *. assert (RAM_end mod 4096 = 0) by done.
  pose proof (Z.div_mod b 4096). pose proof (Z.div_mod RAM_end 4096).
  assert (E : (RAM_end - b) / 4096 = RAM_end / 4096 - b / 4096).
  { replace (RAM_end - b) with ((RAM_end / 4096 - b / 4096) * 4096) by lia. by apply Z.div_mul. }
  rewrite E. split.
  - intros (i & -> & Hi%elem_of_seqZ). split; [lia|].
    replace (b + 4096 * i) with ((b / 4096 + i) * 4096) by lia. by apply Z.mod_mul.
  - intros [Hb Hm]. exists (p / 4096 - b / 4096). pose proof (Z.div_mod p 4096).
    split; [lia|]. apply elem_of_seqZ. lia.
Qed.

Lemma pool_pages_nodup : NoDup pool_pages.
Proof. apply NoDup_fmap_2; [|apply NoDup_seqZ]. intros i j. lia. Qed.

(** When nothing is left, every page of the pool is out. *)
Lemma exhausted_all_out out s :
  run_inv out s -> alloc_inv page_pool_start s [] (list_to_set out) ->
  frontier page_pool_start s = RAM_end -> out ≡ₚ pool_pages.
Proof.
  intros [Hn _] Hi Hf. apply NoDup_Permutation; [done | apply pool_pages_nodup|].
  intros p. rewrite elem_of_pool_pages. rewrite <- Hf at 1.
  rewrite <- (ai_pool _ _ _ _ Hi), elem_of_nil, elem_of_list_to_set. tauto.
Qed.

End runs.

(** C6.  After any sequence of allocations and frees from boot, no two pages
    handed out are the same, every one lies in RAM above the kernel image and
    is page aligned, and a further [alloc_page] either returns a page that is
    not in use, with all its words zero, or returns NULL because every page of
    the pool is in use: no page is ever lost. *)
Theorem page_allocator_safe (page_pool_start : Z) (ops : list page_op) (s0 : pt_state) :
  KERNEL_VA_BASE < page_pool_start <= RAM_end ->
  boot_state s0 ->
  exists out s, page_run page_pool_start ops [] s0 = Ok (out, s) /\
    NoDup out /\
    (forall p, p ∈ out -> align_up page_pool_start <= p < RAM_end /\ p mod 4096 = 0) /\
    exists p s', alloc_page page_pool_start s = Ok (p, s') /\
      ((p = 0 /\ out ≡ₚ pool_pages page_pool_start) \/
       (p <> 0 /\ (p ∉ out) /\ forall i, 0 <= i < 512 -> mem s' (p + 8 * i) = 0)).
Proof.
  intros Hpool Hboot.
  destruct (wp_page_run _ Hpool ops [] s0) as (out & s & E & Hinv); [by apply boot_run_inv|].
  exists out, s. pose proof Hinv as [Hn [fl Hi]]. split_and!; [done | done | |].
  - intros p Hp%(elem_of_list_to_set (C := gset Z)).
    assert (p ∈ fl \/ p ∈ (list_to_set out : gset Z)) as [Hb ?]%(ai_pool _ _ _ _ Hi) by by right.
    pose proof (ai_frontier _ _ _ _ Hi). unfold pool_base in *. lia.
  - destruct (wp_alloc_page _ Hpool s fl (list_to_set out) Hi) as (p & s' & E' & Hp).
    exists p, s'. split; [done|].
    destruct Hp as [(-> & Hi' & _ & _ & -> & Hf & _) | (Hp & Hu & _ & _ & [Hm _] & _)]; [left | right].
    + split; [done|]. eapply exhausted_all_out; [done | | done | done]. by split; [|exists []].
    + rewrite elem_of_list_to_set in Hu. split_and!; [done | done |].
      intros i Hr. by rewrite Hm, word_of_idx.
Qed.

Definition pool_example : Z := 0xffff000000200000.
Definition boot_example : pt_state := mkPT (fun _ => 7) None 0 0 0 (fun _ => 0).

Lemma page_allocator_safe_witness :
  exists out s, page_run pool_example [Alloc; Alloc; Free 0; Alloc] [] boot_example = Ok (out, s) /\
    NoDup out /\
    (forall p, p ∈ out -> align_up pool_example <= p < RAM_end /\ p mod 4096 = 0) /\
    exists p s', alloc_page pool_example s = Ok (p, s') /\
      ((p = 0 /\ out ≡ₚ pool_pages pool_example) \/
       (p <> 0 /\ (p ∉ out) /\ forall i, 0 <= i < 512 -> mem s' (p + 8 * i) = 0)).
Proof.
  apply (page_allocator_safe pool_example [Alloc; Alloc; Free 0; Alloc] boot_example).
  - unfold pool_example, RAM_end, RAM_END_PHYS, KERNEL_VA_BASE. lia.
  - split_and!; [reflexivity | reflexivity | intros l Hl; discriminate Hl].
Defined.

(** ** The array [kernel_main] passes to [pt_init]

    [kmalloc(RAM_END_PHYS / PAGE_SIZE)] reserves one byte per frame; a
    [struct Page] has four. *)

Definition sizeof_Page : Z := 4.
Definition kernel_pages_entries : Z := RAM_END_PHYS / PAGE_SIZE / sizeof_Page.

(**  With the array as [kernel_main] allocates it, allocating a page whose
    frame number is not below a quarter of the frames writes outside it: the
    array covers only the first 256 MiB of the 1 GiB the allocator hands out. *)
Theorem pages_array_overflow (page_pool_start : Z) (s : pt_state) (l : list Page) :
  pages s = Some l -> Z.of_nat (length l) = kernel_pages_entries ->
  free_list s = 0 ->
  KERNEL_VA_BASE + 0x10000000 <= next_free_page s -> next_free_page s + PAGE_SIZE <= RAM_end ->
  alloc_page page_pool_start s = Fault.
Proof.
  intros Hpg Hlen Hfl Hlo Hhi.
  assert (Hram : in_ram (next_free_page s)) by (unfold in_ram, PAGE_SIZE in *; lia).
  pose proof (in_ram_nonzero _ Hram) as Hnz.
  unfold alloc_page, page_allocator_init, take_page.
  apply bind_stuck, wp_bind, wp_fetch. rewrite (proj2 (Z.eqb_neq _ _) Hnz). apply wp_ret.
  apply bind_stuck. do 2 apply wp_bind, wp_fetch. rewrite Hfl. unfold to_u64.
  rewrite wrap_small by (unfold in_ram, RAM_end, RAM_END_PHYS, KERNEL_VA_BASE, PAGE_SIZE in *; lia).
  rewrite (proj2 (Z.leb_le _ _) Hhi). apply wp_bind, wp_modify, wp_ret. cbv beta.
  rewrite (proj2 (Z.eqb_neq _ _) Hnz). apply bind_fault.
  apply bind_stuck, wp_modify, bind_stuck, wp_zero_page. intros m _.
  apply bind_stuck, wp_fetch. cbn [pages set_mem set_stat set_next_free]. rewrite Hpg.
  apply bind_stuck, wp_pfn; [done|]. cbn [pages set_mem set_stat set_next_free]. rewrite Hpg.
  assert (65536 <= (next_free_page s - KERNEL_VA_BASE) / 4096)
    by (apply Z.div_le_lower_bound; lia).
  rewrite (proj2 (Z.leb_le _ _)) by lia. unfold when, put_page. cbn [pages set_mem set_stat set_next_free]. rewrite Hpg, Hlen.
  by rewrite (proj2 (Z.ltb_ge _ kernel_pages_entries)) by (change kernel_pages_entries with 65536; lia).
Qed.

Definition pages_example : list Page :=
  replicate (Z.to_nat kernel_pages_entries) (mkPage 0 0).

Lemma pages_array_overflow_witness :
  alloc_page pool_example
    (mkPT (fun _ => 0) (Some pages_example) 0xffff000010000000 0 0 (fun _ => 0)) = Fault.
Proof.
  apply (pages_array_overflow pool_example _ pages_example).
  - reflexivity.
  - unfold pages_example. rewrite length_replicate. apply Z2Nat.id. vm_compute. discriminate.
  - reflexivity.
  - vm_compute. discriminate.
  - vm_compute. discriminate.
Defined.
