(* ===== verification/PageTable.v ===== *)
(** * Translation tables

    The four-level AArch64 tables of kernel/memory/page_table/page_table.c:
    [next_table], [pt_map_page], [pt_map_l1_block], [pt_map_range],
    [pt_map_new_page] and its callers, [pt_get_mapped_page] and the boot-time
    construction of the kernel's tables.

    The theorems relate the tables in memory to the abstract map they stand
    for, from a root and a virtual page number to a leaf descriptor. *)

From S2P Require Import Prelude PageAlloc.

(** ** Descriptors *)

Definition PAGE_TABLE_ENTRIES : Z := 512.
Definition DESC_VALID : Z := Z.shiftl 1 0.
Definition DESC_PAGE : Z := Z.shiftl 1 1.
Definition DESC_BLOCK : Z := Z.shiftl 0 1.
Definition DESC_TABLE : Z := Z.shiftl 1 1.
Definition L1_BLOCK_SIZE : Z := 0x40000000.
Definition BLOCK_ADDR_MASK : Z := 0x0000ffffc0000000.

Definition PTE_ATTRINDX (n : Z) : Z := Z.shiftl (Z.land n 7) 2.
Definition PTE_AP_EL1_RW : Z := Z.shiftl 0 6.
Definition PTE_AP_EL1_RO : Z := Z.shiftl 2 6.
Definition PTE_AP_EL0_RW : Z := Z.shiftl 1 6.
Definition PTE_AP_EL0_RO : Z := Z.shiftl 3 6.
Definition PTE_AP_MASK : Z := Z.shiftl 3 6.
Definition PTE_AP_SHIFT : Z := 6.
Definition PTE_SH_INNER : Z := Z.shiftl 3 8.
Definition PTE_AF : Z := Z.shiftl 1 10.
Definition PTE_PXN : Z := Z.shiftl 1 53.
Definition PTE_UXN : Z := Z.shiftl 1 54.

Definition lors (l : list Z) : Z := fold_right Z.lor 0 l.

Definition ATTR_NORMAL : Z := PTE_ATTRINDX 1.
Definition ATTR_KERNEL_RX : Z := lors [ATTR_NORMAL; PTE_AP_EL1_RO; PTE_SH_INNER; PTE_AF; PTE_UXN].
Definition ATTR_KERNEL_RO : Z := Z.lor ATTR_KERNEL_RX PTE_PXN.
Definition ATTR_KERNEL_RW : Z :=
  lors [ATTR_NORMAL; PTE_AP_EL1_RW; PTE_SH_INNER; PTE_AF; PTE_PXN; PTE_UXN].
Definition ATTR_USER_RX : Z := lors [ATTR_NORMAL; PTE_AP_EL0_RO; PTE_SH_INNER; PTE_AF].
Definition ATTR_USER_RO : Z :=
  lors [ATTR_NORMAL; PTE_AP_EL0_RO; PTE_SH_INNER; PTE_AF; PTE_PXN; PTE_UXN].
Definition ATTR_USER_RW : Z :=
  lors [ATTR_NORMAL; PTE_AP_EL0_RW; PTE_SH_INNER; PTE_AF; PTE_PXN; PTE_UXN].
Definition ATTR_USER_RWX : Z := lors [ATTR_NORMAL; PTE_AP_EL0_RW; PTE_SH_INNER; PTE_AF].
Definition ATTR_DEVICE : Z := lors [PTE_ATTRINDX 0; PTE_AP_EL1_RW; PTE_AF; PTE_PXN; PTE_UXN].

(** The prot bits of mmap.h. *)
Definition MMAP_PROT_READ : Z := 4.
Definition MMAP_PROT_WRITE : Z := 2.
Definition MMAP_PROT_EXEC : Z := 1.

Definition user_segment_attrs (prot : Z) : Z :=
  if negb (Z.land prot MMAP_PROT_EXEC =? 0) && negb (Z.land prot MMAP_PROT_WRITE =? 0)
  then ATTR_USER_RWX
  else if negb (Z.land prot MMAP_PROT_EXEC =? 0) then ATTR_USER_RX
  else if negb (Z.land prot MMAP_PROT_WRITE =? 0) then ATTR_USER_RW
  else ATTR_USER_RO.

Definition desc_valid (d : Z) : bool := negb (Z.land d DESC_VALID =? 0).

Definition table_desc (table : Z) : Z :=
  Z.lor (Z.lor (Z.land table PTE_ADDR_MASK) DESC_VALID) DESC_TABLE.

Definition desc_table (d : Z) : Z := kernel_direct_map_va (Z.land d PTE_ADDR_MASK).

Definition page_desc (pa attrs : Z) : Z :=
  Z.lor (Z.lor (Z.lor (Z.land pa PTE_ADDR_MASK) (Z.land attrs (not64 PTE_ADDR_MASK))) DESC_VALID)
    DESC_PAGE.

Definition table_index (va shift : Z) : Z := Z.land (Z.shiftr va shift) 0x1ff.

(** ** Operations *)

Section tables.
Variable page_pool_start : Z.

Definition next_table (table index : Z) : M Z :=
  e ← rd (table + 8 * index);
  if negb (desc_valid e) then
    next ← alloc_page page_pool_start;
    if next =? 0 then mret 0
    else
      _ ← wr (table + 8 * index) (table_desc next);
      e ← rd (table + 8 * index);
      mret (desc_table e)
  else mret (desc_table e).

Definition pt_map_page (l0 va pa attrs : Z) : M bool :=
  if (l0 =? 0) || negb (Z.land va PAGE_MASK =? 0) || negb (Z.land pa PAGE_MASK =? 0)
  then mret false
  else
    let l0_index := table_index va 39 in
    let l1_index := table_index va 30 in
    let l2_index := table_index va 21 in
    let l3_index := table_index va 12 in
    l1 ← next_table l0 l0_index;
    if l1 =? 0 then mret false else
    l2 ← next_table l1 l1_index;
    if l2 =? 0 then mret false else
    l3 ← next_table l2 l2_index;
    if l3 =? 0 then mret false else
    _ ← wr (l3 + 8 * l3_index) (page_desc pa attrs);
    mret true.

Definition pt_map_l1_block (l0 va pa attrs : Z) : M bool :=
  if (l0 =? 0) || negb (Z.land va (L1_BLOCK_SIZE - 1) =? 0)
     || negb (Z.land pa (L1_BLOCK_SIZE - 1) =? 0)
  then mret false
  else
    let l0_index := table_index va 39 in
    let l1_index := table_index va 30 in
    l1 ← next_table l0 l0_index;
    if l1 =? 0 then mret false else
    e ← rd (l1 + 8 * l1_index);
    if desc_valid e then mret false
    else
      _ ← wr (l1 + 8 * l1_index)
            (Z.lor (Z.lor (Z.lor (Z.land pa BLOCK_ADDR_MASK)
               (Z.land attrs (not64 BLOCK_ADDR_MASK))) DESC_VALID) DESC_BLOCK);
      mret true.

(** The loop of [pt_map_range]; [fuel] bounds the number of pages. *)
Fixpoint map_range_loop (fuel : nat) (l0 va pa stop attrs : Z) : M bool :=
  if negb (va <? stop) then mret true
  else
    match fuel with
    | O => fault
    | S fuel =>
        ok ← pt_map_page l0 va pa attrs;
        if negb ok then mret false
        else map_range_loop fuel l0 (to_u64 (va + PAGE_SIZE)) (to_u64 (pa + PAGE_SIZE)) stop attrs
    end.

Definition pt_map_range (l0 va_start pa_start size attrs : Z) : M bool :=
  if size =? 0 then mret true
  else
    let va := align_down va_start in
    let pa := align_down pa_start in
    let stop := align_up (to_u64 (va_start + size)) in
    map_range_loop (Z.to_nat ((stop - va) / PAGE_SIZE)) l0 va pa stop attrs.

Definition pt_map_new_page (l0 va attrs : Z) : M Z :=
  page ← alloc_page page_pool_start;
  if page =? 0 then mret 0
  else
    ok ← pt_map_page l0 (align_down va) (kernel_phys_addr page) attrs;
    mret (if negb ok then 0 else page).

Definition pt_walk_user_page (l0 va : Z) : M bool :=
  page ← pt_map_new_page l0 va ATTR_USER_RW; mret (negb (page =? 0)).

Definition pt_walk_kernel_page (l0 va : Z) : M bool :=
  page ← pt_map_new_page l0 va ATTR_KERNEL_RW; mret (negb (page =? 0)).

Definition pt_walk (l0 va : Z) : M bool := pt_walk_user_page l0 va.

Definition pt_seed_kernel_page (l0 va : Z) : M Z := pt_map_new_page l0 va ATTR_KERNEL_RW.
Definition pt_seed_user_page (l0 va : Z) : M Z := pt_map_new_page l0 va ATTR_USER_RW.

Definition pt_get_mapped_page (l0 va : Z) : M Z :=
  if l0 =? 0 then mret 0
  else
    let l0_index := table_index va 39 in
    let l1_index := table_index va 30 in
    let l2_index := table_index va 21 in
    let l3_index := table_index va 12 in
    e0 ← rd (l0 + 8 * l0_index);
    if negb (desc_valid e0) then mret 0 else
    let l1 := desc_table e0 in
    e1 ← rd (l1 + 8 * l1_index);
    if negb (desc_valid e1) then mret 0 else
    let l2 := desc_table e1 in
    e2 ← rd (l2 + 8 * l2_index);
    if negb (desc_valid e2) then mret 0 else
    let l3 := desc_table e2 in
    e3 ← rd (l3 + 8 * l3_index);
    if negb (desc_valid e3) then mret 0 else
    let pa := Z.lor (Z.land e3 PTE_ADDR_MASK) (Z.land va PAGE_MASK) in
    mret (kernel_direct_map_va pa).

End tables.

(** ** Descriptor arithmetic *)

Lemma pte_addr_mask x : Z.land x PTE_ADDR_MASK = x mod 2 ^ 48 - x mod 4096.
Proof. change PTE_ADDR_MASK with (2 ^ 48 - 2 ^ 12). by apply land_high_mod. Qed.

Lemma table_index_range va sh : 0 <= sh -> 0 <= table_index va sh < 512.
Proof.
  intros H. unfold table_index. change 0x1ff with (2 ^ 9 - 1).
  rewrite land_ones_mod by lia. apply Z.mod_pos_bound. lia.
Qed.

Lemma desc_valid_mod d : desc_valid d = (d mod 2 =? 1).
Proof.
  unfold desc_valid. change DESC_VALID with 1. rewrite land_bit0.
  pose proof (Z.mod_pos_bound d 2). repeat case_bool; lia.
Qed.

Lemma desc_valid_0 : desc_valid 0 = false.
Proof. done. Qed.

(** The low two bits set above a page-aligned address. *)
Lemma lor_low_bits x : x mod 4096 = 0 -> Z.lor (Z.lor x 1) 2 = x + 3.
Proof.
  intros H. rewrite <- Z.lor_assoc. change (Z.lor 1 2) with 3. by apply (lor_add _ _ 12).
Qed.

Lemma table_desc_eq t : in_ram t -> t mod 4096 = 0 -> table_desc t = t - KERNEL_VA_BASE + 3.
Proof.
  intros Hr Ha. unfold table_desc. rewrite pte_addr_mask, Ha, Z.sub_0_r.
  pose proof (in_ram_kva t Hr) as Hk.
  assert (E : t mod 2 ^ 48 = t - KERNEL_VA_BASE).
  { symmetry. apply (Z.mod_unique_pos _ _ 65535); unfold KERNEL_VA_BASE in *; lia. }
  rewrite E. apply lor_low_bits. rewrite Zminus_mod, Ha. done.
Qed.

Lemma table_desc_bit t : Z.land (table_desc t) DESC_TABLE = DESC_TABLE.
Proof.
  unfold table_desc. apply Z.bits_inj'. intros n _. rewrite Z.land_spec, Z.lor_spec.
  by destruct (Z.testbit DESC_TABLE n); rewrite ?orb_true_r, ?andb_false_r.
Qed.

Lemma table_desc_valid t : in_ram t -> t mod 4096 = 0 -> desc_valid (table_desc t) = true.
Proof.
  intros Hr Ha. rewrite desc_valid_mod, table_desc_eq by done. apply Z.eqb_eq.
  pose proof (Z.div_mod t 4096). unfold KERNEL_VA_BASE.
  symmetry. apply (Z.mod_unique_pos _ _ (t / 4096 * 2048 - 0x7fff800000000000 + 1)); lia.
Qed.

Lemma desc_table_desc t : in_ram t -> t mod 4096 = 0 -> desc_table (table_desc t) = t.
Proof.
  intros Hr Ha. unfold desc_table. rewrite table_desc_eq, pte_addr_mask by done.
  pose proof (in_ram_kva t Hr).
  assert (Hm : (t - KERNEL_VA_BASE) mod 4096 = 0) by (by rewrite Zminus_mod, Ha).
  pose proof (Z.div_mod (t - KERNEL_VA_BASE) 4096) as Hd.
  assert (E1 : (t - KERNEL_VA_BASE + 3) mod 4096 = 3).
  { symmetry. apply (Z.mod_unique_pos _ _ ((t - KERNEL_VA_BASE) / 4096)); lia. }
  rewrite E1, Z.mod_small by (pose proof (Z.div_mod (2 ^ 48) 4096); lia).
  rewrite phys_kva by lia. lia.
Qed.

(** ** The tables as an abstract map

    [entry m t ix] follows the indices [ix] from the table at [t] and returns
    the final descriptor, or 0 when a descriptor on the way is not valid. *)

Fixpoint entry (m : Z -> Z) (t : Z) (ix : list Z) : Z :=
  match ix with
  | [] => 0
  | i :: ix =>
      let e := m (t + 8 * i) in
      if desc_valid e then match ix with [] => e | _ :: _ => entry m (desc_table e) ix end else 0
  end.

Definition indices (va : Z) : list Z :=
  [table_index va 39; table_index va 30; table_index va 21; table_index va 12].

(** The leaf descriptor for [va] in the tables rooted at [l0]; 0 if none. *)
Definition translate (s : pt_state) (l0 va : Z) : Z := entry (mem s) l0 (indices va).

(** What [pt_get_mapped_page] returns for the leaf [pte]. *)
Definition mapped_address (pte va : Z) : Z :=
  if desc_valid pte
  then kernel_direct_map_va (Z.lor (Z.land pte PTE_ADDR_MASK) (Z.land va PAGE_MASK))
  else 0.

Lemma pt_get_mapped_page_eq l0 va s :
  l0 <> 0 -> pt_get_mapped_page l0 va s = Ok (mapped_address (translate s l0 va) va, s).
Proof.
  intros H. unfold pt_get_mapped_page. rewrite (proj2 (Z.eqb_neq _ _) H).
  unfold translate, indices, mapped_address. cbn [entry].
  unfold rd, fetch, mbind, stM_bind, mret, stM_ret.
  destruct (desc_valid (mem s (l0 + _))); cbn [negb]; [|done].
  set (l1 := desc_table _). destruct (desc_valid (mem s (l1 + _))); cbn [negb]; [|done].
  set (l2 := desc_table _). destruct (desc_valid (mem s (l2 + _))); cbn [negb]; [|done].
  set (l3 := desc_table _). destruct (desc_valid (mem s (l3 + _))) eqn:E; cbn [negb]; [|done].
  by rewrite E.
Qed.

(** ** Well-formed tables

    [lab] labels every table page with the root it belongs to and the indices
    that lead to it.  A valid descriptor above the last level points to the
    page labelled with one index more, and no two pages carry the same label. *)

Section table_theory.
Variable page_pool_start : Z.
Hypothesis pool_in_ram : KERNEL_VA_BASE < page_pool_start <= RAM_end.

Record pt_inv (s : pt_state) (lab : gmap Z (Z * list Z)) (fl : list Z) (used : gset Z) : Prop := {
  pi_alloc : alloc_inv page_pool_start s fl used;
  pi_used : forall t r p, lab !! t = Some (r, p) -> t ∈ used /\ (length p <= 3)%nat;
  pi_inj : forall t t' x, lab !! t = Some x -> lab !! t' = Some x -> t = t';
  pi_child : forall t r p i, lab !! t = Some (r, p) -> (length p < 3)%nat -> 0 <= i < 512 ->
    desc_valid (mem s (t + 8 * i)) = true ->
    lab !! desc_table (mem s (t + 8 * i)) = Some (r, p ++ [i]);
  pi_root : forall t r, lab !! t = Some (r, []) -> t = r;
  pi_parent : forall c r p i, lab !! c = Some (r, p ++ [i]) ->
    exists t, lab !! t = Some (r, p) /\ 0 <= i < 512 /\
      desc_valid (mem s (t + 8 * i)) = true /\ desc_table (mem s (t + 8 * i)) = c /\
      Z.land (mem s (t + 8 * i)) DESC_TABLE = DESC_TABLE
}.

Definition is_root (lab : gmap Z (Z * list Z)) (r : Z) : Prop := lab !! r = Some (r, []).

Definition index_ok (i : Z) : Prop := 0 <= i < 512.

Lemma table_page s lab fl used t x :
  pt_inv s lab fl used -> lab !! t = Some x -> in_ram t /\ t mod 4096 = 0.
Proof.
  intros Hi Ht. destruct x as [r p]. destruct (pi_used _ _ _ _ Hi _ _ _ Ht) as [Hu _].
  eapply inv_in_ram; [done | apply Hi | by right].
Qed.

Lemma slot_inj t t' i j :
  t mod 4096 = 0 -> t' mod 4096 = 0 -> index_ok i -> index_ok j ->
  t + 8 * i = t' + 8 * j -> t = t' /\ i = j.
Proof.
  unfold index_ok. intros Ht Ht' Hi Hj E.
  pose proof (Z.div_mod t 4096). pose proof (Z.div_mod t' 4096). lia.
Qed.

(** *** Installing an empty table *)

(** [m'] is [m] with the page [c] cleared and the slot [(t, i)] pointing to it. *)
Definition installed (m m' : Z -> Z) (t i c : Z) : Prop :=
  forall a, m' a = if a =? t + 8 * i then table_desc c else if word_of c a then 0 else m a.

Lemma installed_other m m' t i c t' j :
  installed m m' t i c -> c mod 4096 = 0 -> t mod 4096 = 0 -> t' mod 4096 = 0 ->
  index_ok i -> index_ok j -> t' <> c -> (t', j) <> (t, i) ->
  m' (t' + 8 * j) = m (t' + 8 * j).
Proof.
  intros Hm Hc Ht Ht' Hi Hj Hne Hd. rewrite Hm.
  destruct (Z.eqb_spec (t' + 8 * j) (t + 8 * i)) as [E|].
  - apply slot_inj in E as [-> ->]; try done.
  - by rewrite word_of_other.
Qed.

Lemma installed_fresh m m' t i c j :
  installed m m' t i c -> c mod 4096 = 0 -> t mod 4096 = 0 -> index_ok i -> index_ok j ->
  t <> c -> m' (c + 8 * j) = 0.
Proof.
  intros Hm Hc Ht Hi Hj Hne. rewrite Hm.
  destruct (Z.eqb_spec (c + 8 * j) (t + 8 * i)) as [E|].
  - by apply slot_inj in E as [-> ->].
  - by rewrite word_of_idx.
Qed.

Lemma installed_entry s lab fl used m' t i c r p :
  pt_inv s lab fl used -> installed (mem s) m' t i c ->
  lab !! t = Some (r, p) -> (length p < 3)%nat -> index_ok i ->
  lab !! c = None -> in_ram c -> c mod 4096 = 0 ->
  desc_valid (mem s (t + 8 * i)) = false ->
  forall ix t' r' p', lab !! t' = Some (r', p') -> (length p' + length ix = 4)%nat ->
    Forall index_ok ix -> entry m' t' ix = entry (mem s) t' ix.
Proof.
  intros Hi Hm Ht Hlp Hidx Hc Hcr Hca Hinv.
  destruct (table_page _ _ _ _ _ _ Hi Ht) as [Htr Hta].
  induction ix as [|j ix IH]; intros t' r' p' Ht' Hlen Hix; [done|].
  apply Forall_cons in Hix as [Hj Hix]. destruct (table_page _ _ _ _ _ _ Hi Ht') as [Htr' Hta'].
  assert (t' <> c) by (intros ->; congruence). assert (t <> c) by (intros ->; congruence).
  cbn [entry]. destruct (decide ((t', j) = (t, i))) as [[= -> ->]|Hne].
  - rewrite Hinv. rewrite Hm, Z.eqb_refl, table_desc_valid, desc_table_desc by done.
    simplify_eq. destruct ix as [|j ix]; [simpl in Hlen; lia|]. apply Forall_cons in Hix as [Hj' _].
    cbn [entry]. by rewrite (installed_fresh _ _ _ _ _ j Hm) by done.
  - rewrite (installed_other _ _ _ _ _ t' j Hm) by done.
    destruct (desc_valid (mem s (t' + 8 * j))) eqn:Ev; [|done].
    destruct ix as [|k ix]; [done|]. apply (IH _ r' (p' ++ [j])).
    + apply (pi_child _ _ _ _ Hi); [done | simpl in Hlen; lia | done | done].
    + rewrite length_app. simpl in *. lia.
    + done.
Qed.

Lemma installed_inv s s' lab fl fl' used t i c r p :
  pt_inv s lab fl used -> installed (mem s) (mem s') t i c ->
  alloc_inv page_pool_start s' fl' ({[c]} ∪ used) ->
  lab !! t = Some (r, p) -> (length p < 3)%nat -> index_ok i ->
  c ∉ used -> in_ram c -> c mod 4096 = 0 ->
  desc_valid (mem s (t + 8 * i)) = false ->
  pt_inv s' (<[c := (r, p ++ [i])]> lab) fl' ({[c]} ∪ used).
Proof.
  intros Hi Hm Ha Ht Hlp Hidx Hc Hcr Hca Hinv.
  assert (Hnew : forall t', lab !! t' <> Some (r, p ++ [i])).
  { intros t' (t1 & E1 & _ & Ev & _)%(pi_parent _ _ _ _ Hi).
    rewrite (pi_inj _ _ _ _ Hi _ _ _ E1 Ht) in Ev. congruence. }
  assert (Hlc : lab !! c = None).
  { destruct (lab !! c) as [[r' p']|] eqn:E; [|done].
    by destruct (pi_used _ _ _ _ Hi _ _ _ E). }
  destruct (table_page _ _ _ _ _ _ Hi Ht) as [Htr Hta].
  assert (Hne : t <> c) by (intros ->; congruence).
  assert (Hslot : forall t' x j, lab !! t' = Some x -> index_ok j -> (t', j) <> (t, i) ->
            mem s' (t' + 8 * j) = mem s (t' + 8 * j)).
  { intros t' x j E Hj Hd. destruct (table_page _ _ _ _ _ _ Hi E) as [Htr' Hta'].
    eapply installed_other; try done. intros ->; congruence. }
  constructor; [done | | | | |].
  - intros t' r' p' [[-> [= <- <-]] | [Hn E]]%lookup_insert_Some.
    + rewrite length_app. simpl. split; [|lia]. rewrite elem_of_union, elem_of_singleton. tauto.
    + destruct (pi_used _ _ _ _ Hi _ _ _ E). rewrite elem_of_union. tauto.
  - intros t1 t2 x [[-> <-] | [Hn1 E1]]%lookup_insert_Some [[-> E] | [Hn2 E2]]%lookup_insert_Some;
      [done | by apply Hnew in E2 | subst; by apply Hnew in E1 | by eapply (pi_inj _ _ _ _ Hi)].
  - intros t' r' p' j [[-> [= <- <-]] | [Hn E]]%lookup_insert_Some Hlen Hj Hv.
    + by rewrite (installed_fresh _ _ _ _ _ j Hm) in Hv.
    + destruct (decide ((t', j) = (t, i))) as [[= -> ->]|Hd].
      * rewrite Hm, Z.eqb_refl, desc_table_desc, lookup_insert_eq by done. congruence.
      * rewrite (Hslot _ _ _ E Hj Hd) in Hv |- *.
        pose proof (pi_child _ _ _ _ Hi _ _ _ _ E Hlen Hj Hv) as Hch.
        rewrite lookup_insert_ne; [done|]. intros Ec. congruence.
  - intros t' r' [[-> [= <- E]] | [Hn E]]%lookup_insert_Some; [by destruct p|].
    by apply (pi_root _ _ _ _ Hi).
  - intros c' r' p' j [[-> [= <- E]] | [Hn E]]%lookup_insert_Some.
    + apply app_inj_2 in E as [-> [= ->]]; [|done]. exists t.
      rewrite lookup_insert_ne by done. rewrite Hm, Z.eqb_refl.
      split_and!; [done | apply Hidx | apply Hidx | by apply table_desc_valid |
        by apply desc_table_desc | apply table_desc_bit].
    + destruct (pi_parent _ _ _ _ Hi _ _ _ _ E) as (t' & E' & Hj & Hv & Hd).
      exists t'. rewrite lookup_insert_ne by (intros <-; congruence).
      rewrite (Hslot _ _ _ E' Hj); [done|]. intros [= -> ->]. congruence.
Qed.

(** No page is left. *)
Definition exhausted (s : pt_state) : Prop :=
  free_list s = 0 /\ frontier page_pool_start s = RAM_end.

(** [next_table] returns the table one level down, creating it when needed,
    and changes no translation. *)
Definition preserves (s s' : pt_state) (lab : gmap Z (Z * list Z)) : Prop :=
  forall ix t r p, lab !! t = Some (r, p) -> (length p + length ix = 4)%nat -> Forall index_ok ix ->
    entry (mem s') t ix = entry (mem s) t ix.

Lemma preserves_refl s s' lab : mem s' = mem s -> preserves s s' lab.
Proof. intros E ix t r p _ _ _. by rewrite E. Qed.

Lemma preserves_trans s1 s2 s3 lab lab' :
  preserves s1 s2 lab -> preserves s2 s3 lab' -> lab ⊆ lab' -> preserves s1 s3 lab.
Proof.
  intros H1 H2 Hs ix t r p Ht Hl Hx. rewrite (H2 _ _ r p), (H1 _ _ r p); try done.
  by eapply lookup_weaken.
Qed.

(** Pages in use that are not tables keep their contents and their counts. *)
Definition data_kept (s s' : pt_state) (lab : gmap Z (Z * list Z)) (used : gset Z) : Prop :=
  forall d, d ∈ used -> lab !! d = None ->
    (forall i, index_ok i -> mem s' (d + 8 * i) = mem s (d + 8 * i)) /\
    page_struct s' d = page_struct s d.

Record table_step (s s' : pt_state) (lab lab' : gmap Z (Z * list Z))
    (used used' : gset Z) : Prop := {
  ts_inv : exists fl', pt_inv s' lab' fl' used';
  ts_sub : lab ⊆ lab';
  ts_used : used ⊆ used';
  ts_new : forall t, t ∈ used -> lab' !! t = lab !! t;
  ts_same : preserves s s' lab;
  ts_data : data_kept s s' lab used;
  ts_roots : forall q, is_root lab' q -> is_root lab q;
  ts_pages : pages s <> None -> pages s' <> None
}.

Lemma table_step_trans s1 s2 s3 lab1 lab2 lab3 u1 u2 u3 :
  table_step s1 s2 lab1 lab2 u1 u2 -> table_step s2 s3 lab2 lab3 u2 u3 ->
  table_step s1 s3 lab1 lab3 u1 u3.
Proof.
  intros [_ S1 U1 N1 P1 D1 R1 G1] [I2 S2 U2 N2 P2 D2 R2 G2]. constructor.
  - done.
  - by transitivity lab2.
  - by transitivity u2.
  - intros t Ht. rewrite N2; [by apply N1 | by apply U1].
  - by eapply preserves_trans.
  - intros d Hd Hl. destruct (D1 d Hd Hl) as [M1 C1].
    destruct (D2 d) as [M2 C2]; [by apply U1 | by rewrite N1 |].
    split; [|by rewrite C2]. intros i Hi. by rewrite M2, M1.
  - intros q Hq. by apply R1, R2.
  - intros Hp. by apply G2, G1.
Qed.

(** Memory that agrees on the tables holds the same tables. *)
Lemma tables_agree_on s s' lab fl fl' used used' :
  pt_inv s lab fl used -> alloc_inv page_pool_start s' fl' used' ->
  (forall t x, lab !! t = Some x -> t ∈ used') ->
  (forall t x i, lab !! t = Some x -> index_ok i -> mem s' (t + 8 * i) = mem s (t + 8 * i)) ->
  pt_inv s' lab fl' used' /\ preserves s s' lab.
Proof.
  intros Hi Ha Hu Hmt. split.
  - destruct Hi as [_ I1 I2 I3 I4 I5]. constructor; try done.
    + intros t r p Ht. destruct (I1 _ _ _ Ht). split; [by eapply Hu | done].
    + intros t r p i Ht Hl Hx Hv. rewrite (Hmt _ _ _ Ht Hx) in *. by apply I3.
    + intros c r p i Hc. destruct (I5 _ _ _ _ Hc) as (t & Ht & Hx & Hv & Hd).
      exists t. by rewrite (Hmt _ _ _ Ht Hx).
  - intros ix. induction ix as [|i ix IH]; intros t r p Ht Hl Hx; [done|].
    apply Forall_cons in Hx as [Hx Hxs]. cbn [entry]. rewrite (Hmt _ _ _ Ht Hx).
    destruct (desc_valid (mem s (t + 8 * i))) eqn:Ev; [|done]. destruct ix as [|j ix]; [done|].
    apply (IH _ r (p ++ [i])); [|rewrite length_app; simpl in *; lia | done].
    apply (pi_child _ _ _ _ Hi); [done | simpl in Hl; lia | done | done].
Qed.

(** An allocation alone changes no table and no page in use. *)
Lemma tables_agree s s' lab fl fl' used used' :
  pt_inv s lab fl used -> alloc_inv page_pool_start s' fl' used' -> used ⊆ used' ->
  (forall t x i, lab !! t = Some x -> index_ok i -> mem s' (t + 8 * i) = mem s (t + 8 * i)) ->
  pt_inv s' lab fl' used' /\ preserves s s' lab.
Proof.
  intros Hi Ha Hu. eapply tables_agree_on; [done | done |]. intros t [r p] Ht.
  apply Hu. by destruct (pi_used _ _ _ _ Hi _ _ _ Ht).
Qed.

Lemma alloc_table_step s s' lab fl fl' used used' :
  pt_inv s lab fl used -> alloc_inv page_pool_start s' fl' used' -> used ⊆ used' ->
  (forall t i, t ∈ used -> index_ok i -> mem s' (t + 8 * i) = mem s (t + 8 * i)) ->
  (forall t, t ∈ used -> page_struct s' t = page_struct s t) ->
  (pages s <> None -> pages s' <> None) ->
  table_step s s' lab lab used used'.
Proof.
  intros Hi Ha Hu Hm Hg Hpn.
  destruct (tables_agree s s' lab fl fl' used used' Hi Ha Hu) as [Hi' Hp].
  { intros t [r p] i Ht Hx. apply Hm; [|done]. by destruct (pi_used _ _ _ _ Hi _ _ _ Ht). }
  constructor; [by exists fl' | done | done | done | done | | done | done].
  intros d Hd _. split; [intros i Hx; by apply Hm | by apply Hg].
Qed.

Lemma fresh_used_kept s s' fl used p :
  alloc_inv page_pool_start s fl used -> p ∉ used -> in_ram p -> p mod 4096 = 0 ->
  fresh_page s s' p ->
  (forall t i, t ∈ used -> index_ok i -> mem s' (t + 8 * i) = mem s (t + 8 * i)) /\
  (forall t, t ∈ used -> page_struct s' t = page_struct s t).
Proof.
  intros Ha Hp Hr Hal [Hm Hg]. split; intros t.
  - intros i Ht Hx. destruct (inv_in_ram _ pool_in_ram _ _ _ t Ha) as [_ Hta]; [by right|].
    rewrite Hm, word_of_other; try done. by intros ->.
  - intros Ht. destruct (inv_in_ram _ pool_in_ram _ _ _ t Ha) as [Htr Hta]; [by right|].
    eapply (page_struct_insert_ne s s' p); try done. by intros ->.
Qed.

(** Writing a slot of a page in use does not disturb the allocator. *)
Lemma alloc_inv_slot s fl used t i v :
  alloc_inv page_pool_start s fl used -> t ∈ used -> index_ok i ->
  alloc_inv page_pool_start (set_mem (upd (mem s) (t + 8 * i) v) s) fl used.
Proof.
  intros Ha Ht Hx. eapply alloc_inv_write; [done | done | done | | apply Ha].
  intros q Hq. simpl. apply upd_ne. intros E.
  destruct (inv_in_ram _ pool_in_ram _ _ _ q Ha) as [_ Hqa]; [by left|].
  destruct (inv_in_ram _ pool_in_ram _ _ _ t Ha) as [_ Hta]; [by right|].
  replace q with (q + 8 * 0) in E by lia.
  apply slot_inj in E as [-> _]; [by apply (ai_disjoint _ _ _ _ Ha t) | done | done |
    unfold index_ok; lia | done].
Qed.

Lemma install_step s s1 lab fl fl' used t i c r p :
  pt_inv s lab fl used -> lab !! t = Some (r, p) -> (length p < 3)%nat -> index_ok i ->
  desc_valid (mem s (t + 8 * i)) = false ->
  c ∉ used -> in_ram c -> c mod 4096 = 0 -> fresh_page s s1 c ->
  alloc_inv page_pool_start s1 fl' ({[c]} ∪ used) ->
  table_step s (set_mem (upd (mem s1) (t + 8 * i) (table_desc c)) s1)
    lab (<[c := (r, p ++ [i])]> lab) used ({[c]} ∪ used).
Proof.
  intros Hi Ht Hl Hx Hinv Hcu Hcr Hca Hfr Ha. set (s2 := set_mem _ s1).
  destruct (pi_used _ _ _ _ Hi _ _ _ Ht) as [Htu _].
  destruct (table_page _ _ _ _ _ _ Hi Ht) as [Htr Hta].
  assert (Hm : installed (mem s) (mem s2) t i c).
  { intros a. simpl. unfold upd. by rewrite (proj1 Hfr). }
  assert (Hlc : lab !! c = None).
  { destruct (lab !! c) as [[r' p']|] eqn:E; [|done]. by destruct (pi_used _ _ _ _ Hi _ _ _ E). }
  constructor.
  - exists fl'. eapply installed_inv; try done. apply alloc_inv_slot; [done | by apply union_subseteq_r | done].
  - by apply insert_subseteq.
  - apply union_subseteq_r.
  - intros t' Ht'. apply lookup_insert_ne. by intros ->.
  - intros ix t' r' p' Ht' Hlen Hix. by eapply installed_entry.
  - intros d Hd Hld. destruct (fresh_used_kept s s1 fl used c) as [Hk Hg]; [apply Hi | done..|].
    split; [|by apply Hg]. intros j Hj. simpl. rewrite upd_ne, Hk; [done | done | done |].
    destruct (inv_in_ram _ pool_in_ram _ _ _ d (pi_alloc _ _ _ _ Hi)) as [_ Hda]; [by right|].
    intros E. apply slot_inj in E as [-> _]; try done. congruence.
  - intros q [[_ [= _ E]] | [_ E]]%lookup_insert_Some; [by destruct p | done].
  - simpl. rewrite (proj2 Hfr). by apply insert_page_some.
Qed.

Lemma wp_next_table s lab fl used t i r p :
  pt_inv s lab fl used -> lab !! t = Some (r, p) -> (length p < 3)%nat -> index_ok i ->
  wp (next_table page_pool_start t i) (fun c s' => exists lab' used',
      table_step s s' lab lab' used used' /\
      ((c = 0 /\ exhausted s') \/ (c <> 0 /\ lab' !! c = Some (r, p ++ [i])))) s.
Proof.
  intros Hi Ht Hl Hx. unfold next_table. apply wp_bind, wp_fetch.
  destruct (desc_valid (mem s (t + 8 * i))) eqn:Ev; cbn [negb].
  - apply wp_ret. exists lab, used. split.
    + eapply alloc_table_step; try done. apply Hi.
    + right. pose proof (pi_child _ _ _ _ Hi _ _ _ _ Ht Hl Hx Ev) as Hc.
      destruct (table_page _ _ _ _ _ _ Hi Hc) as [Hr _]. split; [by apply in_ram_nonzero | done].
  - apply wp_bind. eapply wp_mono; [apply (wp_alloc_page _ pool_in_ram s fl used), Hi|].
    intros c s1 [(-> & Ha & Em & Eg & -> & Hf & _) | (Hc0 & Hcu & Hcr & Hca & Hfr & fl' & Ha)]; cbn [negb].
    + apply wp_ret. exists lab, used.
      split; [|left; split; [done | by split; [apply (ai_chain _ _ _ _ Ha)|]]].
      eapply alloc_table_step; try done.
      * by rewrite Em.
      * intros. unfold page_struct. by rewrite Eg.
      * by rewrite Eg.
    + rewrite (proj2 (Z.eqb_neq _ _) Hc0). apply wp_bind, wp_modify, wp_bind, wp_fetch, wp_ret.
      cbn [mem set_mem]. rewrite upd_eq, desc_table_desc by done.
      set (s2 := set_mem (upd (mem s1) (t + 8 * i) (table_desc c)) s1).
      exists (<[c := (r, p ++ [i])]> lab), ({[c]} ∪ used). split.
      * by apply (install_step s s1 lab fl fl' used t i c r p).
      * right. by rewrite lookup_insert_eq.
Qed.

(** *** Writing a leaf *)

(** The tables on the way to a labelled table are valid. *)
Lemma labelled_prefix s lab fl used r p t :
  pt_inv s lab fl used -> lab !! t = Some (r, p) ->
  forall p1 j p2, p = p1 ++ j :: p2 ->
    exists t1, lab !! t1 = Some (r, p1) /\ desc_valid (mem s (t1 + 8 * j)) = true.
Proof.
  intros Hi. revert t. induction p as [|k p IH] using rev_ind; intros t Ht p1 j p2 E.
  { by destruct p1. }
  destruct (pi_parent _ _ _ _ Hi _ _ _ _ Ht) as (t1 & Ht1 & _ & Hv & _).
  destruct p2 as [|x p2 _] using rev_ind.
  - apply app_inj_2 in E as [-> [= ->]]; [|done]. by exists t1.
  - rewrite app_comm_cons, app_assoc in E. apply app_inj_2 in E as [E [= ->]]; [|done].
    by eapply IH.
Qed.

(** Following the indices of a labelled table leads to it. *)
Lemma labelled_entry s lab fl used r p t i ix :
  pt_inv s lab fl used -> lab !! t = Some (r, p) ->
  entry (mem s) r (p ++ i :: ix) = entry (mem s) t (i :: ix).
Proof.
  intros Hi. revert t i ix. induction p as [|j p IH] using rev_ind; intros t i ix Ht.
  - by rewrite (pi_root _ _ _ _ Hi _ _ Ht).
  - destruct (pi_parent _ _ _ _ Hi _ _ _ _ Ht) as (t1 & Ht1 & _ & Hv & Hd & _).
    rewrite <- app_assoc. simpl. rewrite (IH t1) by done. cbn [entry]. by rewrite Hv, Hd.
Qed.

Definition leaf_written (lab : gmap Z (Z * list Z)) (m m' : Z -> Z) (r : Z) (ix : list Z) (v : Z) : Prop :=
  forall ix' r', is_root lab r' -> length ix' = 4%nat -> Forall index_ok ix' ->
    entry m' r' ix' = if decide ((r', ix') = (r, ix)) then v else entry m r' ix'.

Lemma leaf_entry s lab fl used t i r p v :
  pt_inv s lab fl used -> lab !! t = Some (r, p) -> length p = 3%nat -> index_ok i ->
  desc_valid v = true ->
  leaf_written lab (mem s) (upd (mem s) (t + 8 * i) v) r (p ++ [i]) v.
Proof.
  intros Hi Ht Hl Hx Hv. destruct (table_page _ _ _ _ _ _ Hi Ht) as [_ Hta].
  assert (H : forall ix t' r' p', lab !! t' = Some (r', p') -> (length p' + length ix = 4)%nat ->
    Forall index_ok ix -> entry (upd (mem s) (t + 8 * i) v) t' ix =
      if decide ((r', p' ++ ix) = (r, p ++ [i])) then v else entry (mem s) t' ix).
  { induction ix as [|j ix IH]; intros t' r' p' Ht' Hlen Hix.
    { destruct (pi_used _ _ _ _ Hi _ _ _ Ht') as [_ ?]. simpl in Hlen. lia. }
    apply Forall_cons in Hix as [Hj Hix]. destruct (table_page _ _ _ _ _ _ Hi Ht') as [_ Hta'].
    cbn [entry]. destruct ix as [|k ix].
    - destruct (decide ((t', j) = (t, i))) as [[= -> ->]|Hne].
      + rewrite upd_eq, Hv. rewrite Ht in Ht'. injection Ht' as -> ->. by rewrite decide_True.
      + rewrite upd_ne by (intros E; by apply slot_inj in E as [-> ->]).
        rewrite decide_False; [done|]. intros [= -> E]. apply app_inj_2 in E as [-> [= ->]]; [|done].
        by rewrite (pi_inj _ _ _ _ Hi _ _ _ Ht Ht') in Hne.
    - rewrite upd_ne by (intros E; apply slot_inj in E as [-> ->]; simplify_eq; simpl in *; done || lia).
      destruct (desc_valid (mem s (t' + 8 * j))) eqn:Ev.
      + rewrite (IH _ r' (p' ++ [j])), <- app_assoc; [done | | rewrite length_app; simpl in *; lia | done].
        apply (pi_child _ _ _ _ Hi); [done | simpl in Hlen; lia | done | done].
      + rewrite decide_False; [done|]. intros [= -> E].
        destruct (exists_last (l := k :: ix)) as (q & x & Eq); [done|].
        rewrite Eq, app_comm_cons, app_assoc in E. apply app_inj_2 in E as [E _]; [|done].
        destruct (labelled_prefix s lab fl used r p t Hi Ht p' j q) as (t2 & E2 & Ev2); [done|].
        rewrite (pi_inj _ _ _ _ Hi _ _ _ Ht' E2) in Ev. congruence. }
  intros ix' r' Hr Hlen Hix. by apply (H ix' r' r' []).
Qed.

Lemma desc_valid_bit d : desc_valid d = Z.testbit d 0.
Proof.
  rewrite desc_valid_mod. pose proof (Z.bit0_mod d) as E. destruct (Z.testbit d 0); rewrite <- E; done.
Qed.

Lemma page_desc_valid pa attrs : desc_valid (page_desc pa attrs) = true.
Proof. rewrite desc_valid_bit. unfold page_desc. rewrite !Z.lor_spec. by rewrite orb_true_r. Qed.

Lemma indices_ok va : Forall index_ok (indices va).
Proof.
  unfold indices. repeat (apply Forall_cons_2; [apply table_index_range; lia|]). apply Forall_nil_2.
Qed.

(** The effect of a call that maps [va] to the leaf [pte] when [ok] is set,
    and no translation otherwise. *)
Record map_step (s s' : pt_state) (lab lab' : gmap Z (Z * list Z)) (used used' : gset Z)
    (ok : bool) (l0 va pte : Z) : Prop := {
  ms_inv : exists fl', pt_inv s' lab' fl' used';
  ms_sub : lab ⊆ lab';
  ms_used : used ⊆ used';
  ms_new : forall t, t ∈ used -> lab' !! t = lab !! t;
  ms_entry : forall r ix, is_root lab r -> length ix = 4%nat -> Forall index_ok ix ->
    entry (mem s') r ix = if ok && bool_decide ((r, ix) = (l0, indices va))
                          then pte else entry (mem s) r ix;
  ms_data : data_kept s s' lab used;
  ms_roots : forall q, is_root lab' q -> is_root lab q;
  ms_pages : pages s <> None -> pages s' <> None
}.

Lemma table_step_map s s' lab lab' used used' l0 va pte :
  table_step s s' lab lab' used used' -> map_step s s' lab lab' used used' false l0 va pte.
Proof.
  intros [I S U N P D R G]. constructor; try done. intros r ix Hr Hl Hx. simpl.
  by apply (P _ _ r []).
Qed.

Lemma leaf_inv s lab fl used t i r p v :
  pt_inv s lab fl used -> lab !! t = Some (r, p) -> length p = 3%nat -> index_ok i ->
  pt_inv (set_mem (upd (mem s) (t + 8 * i) v) s) lab fl used.
Proof.
  intros Hi Ht Hl Hx. set (s2 := set_mem _ s).
  destruct (table_page _ _ _ _ _ _ Hi Ht) as [Htr Hta].
  destruct (pi_used _ _ _ _ Hi _ _ _ Ht) as [Htu _].
  assert (Hk : forall t' r' p' j, lab !! t' = Some (r', p') -> (length p' < 3)%nat -> 0 <= j < 512 ->
    mem s2 (t' + 8 * j) = mem s (t' + 8 * j)).
  { intros t' r' p' j Ht' Hlt Hj. apply upd_ne. intros E.
    destruct (table_page _ _ _ _ _ _ Hi Ht') as [_ Hta'].
    apply slot_inj in E as [-> _]; try done. simplify_eq. lia. }
  destruct Hi as [I0 I1 I2 I3 I4 I5].
  constructor; try done; [by apply alloc_inv_slot | |].
  - intros t' r' p' j Ht' Hlt Hj Hvd. rewrite (Hk _ _ _ _ Ht' Hlt Hj) in *. by apply I3.
  - intros c r' p' j Hc. destruct (I5 _ _ _ _ Hc) as (t' & Ht' & Hj & Hvd & Hd). exists t'.
    destruct (I1 _ _ _ Hc) as [_ Hlc]. rewrite length_app in Hlc. simpl in Hlc.
    rewrite (Hk _ _ _ _ Ht'); [done | lia | done].
Qed.

Lemma leaf_map_step s s1 lab lab1 used used1 l0 va pte t :
  table_step s s1 lab lab1 used used1 -> is_root lab l0 ->
  lab1 !! t = Some (l0, [table_index va 39; table_index va 30; table_index va 21]) ->
  desc_valid pte = true ->
  map_step s (set_mem (upd (mem s1) (t + 8 * table_index va 12) pte) s1)
    lab lab1 used used1 true l0 va pte.
Proof.
  intros [[fl1 I] S U N P D R G] Hr Ht Hv. set (s2 := set_mem _ s1).
  assert (Hx : index_ok (table_index va 12)) by (apply table_index_range; lia).
  destruct (pi_used _ _ _ _ I _ _ _ Ht) as [Htu _].
  destruct (table_page _ _ _ _ _ _ I Ht) as [Htr Hta].
  constructor; try done.
  - exists fl1. by eapply leaf_inv.
  - intros r ix Hr' Hl4 Hix. simpl mem.
    rewrite (leaf_entry s1 lab1 fl1 used1 t _ l0 _ pte I Ht); [| done | done | done | | done | done];
      [| by eapply lookup_weaken].
    rewrite (P _ _ r []) by done. simpl.
    by case_decide; case_bool_decide.
  - intros d Hd Hl. destruct (D d Hd Hl) as [Dm Dg]. split; [|done].
    intros i Hi'. simpl. rewrite upd_ne; [by apply Dm|]. intros E.
    destruct (inv_in_ram _ pool_in_ram _ _ _ d (pi_alloc _ _ _ _ I)) as [_ Hda]; [by right; apply U|].
    apply slot_inj in E as [-> _]; try done. rewrite (N t Hd) in Ht. congruence.
Qed.

Lemma page_mask_0 v : Z.land v PAGE_MASK = 0 <-> v mod 4096 = 0.
Proof. change PAGE_MASK with (2 ^ 12 - 1). by rewrite land_ones_mod by lia. Qed.

Lemma wp_pt_map_page s lab fl used l0 va pa attrs :
  pt_inv s lab fl used -> is_root lab l0 ->
  wp (pt_map_page page_pool_start l0 va pa attrs) (fun ok s' =>
    (exists lab' used', map_step s s' lab lab' used used' ok l0 va (page_desc pa attrs)) /\
    (ok = true -> pa mod 4096 = 0) /\
    (ok = false -> va mod 4096 <> 0 \/ pa mod 4096 <> 0 \/ exhausted s')) s.
Proof.
  intros Hi Hr. unfold pt_map_page. destruct (table_page _ _ _ _ _ _ Hi Hr) as [Hl0 _].
  apply in_ram_nonzero in Hl0. rewrite (proj2 (Z.eqb_neq _ _) Hl0). cbn [orb].
  assert (Hrefl : table_step s s lab lab used used)
    by (eapply alloc_table_step; [done | apply Hi | done | done | done | done]).
  destruct (Z.eqb_spec (Z.land va PAGE_MASK) 0) as [|Hva]; cbn [negb orb].
  2: { apply wp_ret. rewrite page_mask_0 in Hva. split; [|split; [done | tauto]].
       exists lab, used. by apply table_step_map. }
  destruct (Z.eqb_spec (Z.land pa PAGE_MASK) 0) as [Hal|Hpa]; cbn [negb].
  2: { apply wp_ret. rewrite page_mask_0 in Hpa. split; [|split; [done | tauto]].
       exists lab, used. by apply table_step_map. }
  assert (Hx : forall sh, 0 <= sh -> index_ok (table_index va sh)) by apply table_index_range.
  apply wp_bind. eapply wp_mono; [eapply wp_next_table; [done | done | simpl; lia | apply Hx; lia]|].
  intros l1 s1 (lab1 & u1 & T1 & [[-> Hex] | [N1 E1]]).
  { apply wp_ret. split; [|split; [done | tauto]]. exists lab1, u1. by apply table_step_map. }
  rewrite (proj2 (Z.eqb_neq _ _) N1). destruct (ts_inv _ _ _ _ _ _ T1) as [fl1 Hi1].
  apply wp_bind. eapply wp_mono; [eapply wp_next_table; [done | done | simpl; lia | apply Hx; lia]|].
  intros l2 s2 (lab2 & u2 & T2 & [[-> Hex] | [N2 E2]]);
    pose proof (table_step_trans _ _ _ _ _ _ _ _ _ T1 T2) as T2'.
  { apply wp_ret. split; [|split; [done | tauto]]. exists lab2, u2. by apply table_step_map. }
  rewrite (proj2 (Z.eqb_neq _ _) N2). destruct (ts_inv _ _ _ _ _ _ T2) as [fl2 Hi2].
  apply wp_bind. eapply wp_mono; [eapply wp_next_table; [done | done | simpl; lia | apply Hx; lia]|].
  intros l3 s3 (lab3 & u3 & T3 & [[-> Hex] | [N3 E3]]);
    pose proof (table_step_trans _ _ _ _ _ _ _ _ _ T2' T3) as T3'.
  { apply wp_ret. split; [|split; [done | tauto]]. exists lab3, u3. by apply table_step_map. }
  rewrite (proj2 (Z.eqb_neq _ _) N3). apply wp_bind, wp_modify, wp_ret. 
  split; [|split; [intros _; by apply page_mask_0 | done]].
  exists lab3, u3. by apply leaf_map_step; [| | |apply page_desc_valid].
Qed.

(** *** New address spaces *)

Lemma empty_table m t ix : (forall i, index_ok i -> m (t + 8 * i) = 0) -> Forall index_ok ix -> entry m t ix = 0.
Proof.
  intros Hz Hx. destruct ix as [|i ix]; [done|]. apply Forall_cons in Hx as [Hx _].
  cbn [entry]. by rewrite Hz.
Qed.

Lemma new_root_step s s' lab fl fl' used c :
  pt_inv s lab fl used -> c ∉ used -> in_ram c -> c mod 4096 = 0 -> fresh_page s s' c ->
  alloc_inv page_pool_start s' fl' ({[c]} ∪ used) ->
  pt_inv s' (<[c := (c, [])]> lab) fl' ({[c]} ∪ used) /\ table_step s s' lab lab used ({[c]} ∪ used) /\
  lab !! c = None /\ forall va, translate s' c va = 0.
Proof.
  intros Hi Hcu Hcr Hca Hfr Ha.
  destruct (fresh_used_kept s s' fl used c) as [Hk Hg]; [apply Hi | done..|].
  assert (Hz : forall i, index_ok i -> mem s' (c + 8 * i) = 0).
  { intros i Hx. by rewrite (proj1 Hfr), word_of_idx. }
  assert (Hlc : lab !! c = None).
  { destruct (lab !! c) as [[r' p']|] eqn:E; [|done]. by destruct (pi_used _ _ _ _ Hi _ _ _ E). }
  assert (T : table_step s s' lab lab used ({[c]} ∪ used))
    by (eapply alloc_table_step; [done | done | apply union_subseteq_r | done | done |
        rewrite (proj2 Hfr); by apply insert_page_some]).
  split_and!; [| done | done | intros va; apply empty_table; [done | apply indices_ok]].
  assert (Hroot : forall t p, lab !! t = Some (c, p) -> False).
  { intros t p. revert t. induction p as [|i p IH] using rev_ind; intros t Ht.
    - pose proof (pi_root _ _ _ _ Hi _ _ Ht). subst. congruence.
    - destruct (pi_parent _ _ _ _ Hi _ _ _ _ Ht) as (t1 & Ht1 & _). by eapply IH. }
  destruct (ts_inv _ _ _ _ _ _ T) as [fl0 [_ I1 I2 I3 I4 I5]]. constructor; [done | | | | |].
  - intros t r p [[-> [= <- <-]] | [Hn E]]%lookup_insert_Some; [|by eapply I1].
    split; [by apply elem_of_union_l, elem_of_singleton | simpl; lia].
  - intros t1 t2 x [[-> <-] | [Hn1 E1]]%lookup_insert_Some [[-> E] | [Hn2 E2]]%lookup_insert_Some.
    + done.
    + by apply Hroot in E2.
    + subst. by apply Hroot in E1.
    + by eapply I2.
  - intros t r p i [[-> [= <- <-]] | [Hn E]]%lookup_insert_Some Hlen Hx Hv; [by rewrite Hz in Hv|].
    pose proof (I3 _ _ _ _ E Hlen Hx Hv) as Hch. rewrite lookup_insert_ne; [done|]. congruence.
  - intros t r [[-> [= <-]] | [Hn E]]%lookup_insert_Some; [done | by apply I4].
  - intros t r p i [[-> [= _ E]] | [Hn E]]%lookup_insert_Some; [by destruct p|].
    destruct (I5 _ _ _ _ E) as (t1 & Ht1 & Hrest). exists t1.
    rewrite lookup_insert_ne; [done|]. congruence.
Qed.

(** *** Mapping a new page *)

Lemma map_step_trans s1 s2 s3 lab lab' u1 u2 u3 ok l0 va pte :
  table_step s1 s2 lab lab u1 u2 -> map_step s2 s3 lab lab' u2 u3 ok l0 va pte ->
  map_step s1 s3 lab lab' u1 u3 ok l0 va pte.
Proof.
  intros [_ S1 U1 N1 P1 D1 R1 G1] [I2 S2 U2 N2 P2 D2 R2 G2]. constructor; try done.
  - by transitivity u2.
  - intros t Ht. by rewrite N2; [|apply U1].
  - intros r ix Hr Hl Hx. rewrite P2 by done. by rewrite (P1 _ _ r []).
  - intros d Hd Hl. destruct (D1 d Hd Hl) as [M1 C1].
    destruct (D2 d) as [M2 C2]; [by apply U1 | done |].
    split; [|by rewrite C2]. intros i Hx. by rewrite M2, M1.
  - intros Hp. by apply G2, G1.
Qed.

Lemma align_down_page va : align_down va mod 4096 = 0.
Proof.
  apply page_mask_0. unfold align_down. rewrite <- Z.land_assoc.
  change (Z.land (not64 PAGE_MASK) PAGE_MASK) with 0. apply Z.land_0_r.
Qed.

Lemma phys_aligned p : in_ram p -> p mod 4096 = 0 -> kernel_phys_addr p mod 4096 = 0.
Proof. intros Hr Ha. rewrite kva_phys by by apply in_ram_kva. by rewrite Zminus_mod, Ha. Qed.

Lemma wp_pt_map_new_page_full s lab fl used l0 va attrs :
  pt_inv s lab fl used -> is_root lab l0 ->
  wp (pt_map_new_page page_pool_start l0 va attrs) (fun page s' => exists lab' used',
    map_step s s' lab lab' used used' (negb (page =? 0)) l0 (align_down va)
      (page_desc (kernel_phys_addr page) attrs) /\
    (page <> 0 -> (page ∉ used) /\ page ∈ used' /\ lab' !! page = None /\
       in_ram page /\ page mod 4096 = 0 /\
       (pages s <> None -> page_struct s' page = Some (mkPage 1 0)) /\
       forall i, index_ok i -> mem s' (page + 8 * i) = 0) /\
    (page = 0 -> exhausted s')) s.
Proof.
  intros Hi Hr. unfold pt_map_new_page. apply wp_bind.
  eapply wp_mono; [apply (wp_alloc_page _ pool_in_ram s fl used), Hi|].
  intros c s1 [(-> & Ha & Em & Eg & -> & Hf & _) | (Hc0 & Hcu & Hcr & Hca & Hfr & fl' & Ha)].
  - apply wp_ret. exists lab, used. split_and!; [| done |].
    2: { intros _. split; [|done]. pose proof (ai_chain _ _ _ _ Ha) as Hch. done. }
    apply table_step_map.
    eapply alloc_table_step; try done; [by rewrite Em | | by rewrite Eg]. intros. unfold page_struct. by rewrite Eg.
  - rewrite (proj2 (Z.eqb_neq _ _) Hc0). apply wp_bind.
    destruct (new_root_step s s1 lab fl fl' used c) as (_ & T & Hlc & _); try done.
    destruct (ts_inv _ _ _ _ _ _ T) as [fl1 Hi1].
    eapply wp_mono; [by eapply wp_pt_map_page|]. intros ok s2 [(lab2 & u2 & Hms) [_ Hex]]. apply wp_ret.
    exists lab2, u2. destruct ok; cbn [negb].
    + rewrite (proj2 (Z.eqb_neq _ _) Hc0). split_and!; [by eapply map_step_trans | | done]. intros _.
      assert (Hc : c ∈ ({[c]} ∪ used)) by by apply elem_of_union_l, elem_of_singleton.
      split_and!; [done | by apply (ms_used _ _ _ _ _ _ _ _ _ _ Hms) | | done | done | |].
      * by rewrite (ms_new _ _ _ _ _ _ _ _ _ _ Hms).
      * intros Hpn. destruct (ms_data _ _ _ _ _ _ _ _ _ _ Hms c Hc Hlc) as [_ ->].
        eapply (page_struct_insert_eq s); [done | apply (ai_pages _ _ _ _ (pi_alloc _ _ _ _ Hi)) | done | apply Hfr].
      * intros i Hx. destruct (ms_data _ _ _ _ _ _ _ _ _ _ Hms c Hc Hlc) as [Hm _].
        by rewrite Hm, (proj1 Hfr), word_of_idx.
    + split_and!; [by eapply map_step_trans; [|destruct Hms] | done |]. intros _.
      destruct (Hex eq_refl) as [Hva | [Hpa | ?]]; [by rewrite align_down_page in Hva | by rewrite phys_aligned in Hpa | done].
Qed.

Lemma wp_pt_map_new_page s lab fl used l0 va attrs :
  pt_inv s lab fl used -> is_root lab l0 ->
  wp (pt_map_new_page page_pool_start l0 va attrs) (fun page s' => exists lab' used',
    map_step s s' lab lab' used used' (negb (page =? 0)) l0 (align_down va)
      (page_desc (kernel_phys_addr page) attrs) /\
    (page <> 0 -> (page ∉ used) /\ page ∈ used' /\ lab' !! page = None /\
       in_ram page /\ page mod 4096 = 0 /\
       (pages s <> None -> page_struct s' page = Some (mkPage 1 0)) /\
       forall i, index_ok i -> mem s' (page + 8 * i) = 0)) s.
Proof.
  intros Hi Hr. eapply wp_mono; [by eapply wp_pt_map_new_page_full|].
  intros page s' (lab' & used' & T & Hp & _). by exists lab', used'.
Qed.

(** *** Giving a page back

    A page that is not a table and was not in use at the start is freed: the
    translations and the pages in use at the start are as before. *)

Lemma map_step_free s s1 s2 lab lab1 used used1 fl2 l0 va pte p v :
  map_step s s1 lab lab1 used used1 false l0 va pte ->
  p ∈ used1 -> p ∉ used -> lab1 !! p = None ->
  mem s2 = upd (mem s1) p v -> pages s2 = insert_page p (mkPage 0 0) (pages s1) ->
  alloc_inv page_pool_start s2 fl2 (used1 ∖ {[p]}) ->
  map_step s s2 lab lab1 used (used1 ∖ {[p]}) false l0 va pte.
Proof.
  intros [[fl1 Hi] Hs Hu Hn He Hd Hr Hg] Hp Hpu Hpl Em Eg Ha.
  assert (Hin : forall d, d ∈ used1 -> in_ram d /\ d mod 4096 = 0)
    by (intros d Hd'; eapply inv_in_ram; [done | apply Hi | by right]).
  assert (Hmem : forall d i, d ∈ used1 -> d <> p -> index_ok i -> mem s2 (d + 8 * i) = mem s1 (d + 8 * i)).
  { intros d i Hd' Hne Hx. rewrite Em. apply upd_ne. intros E. destruct (Hin d Hd'), (Hin p Hp).
    replace p with (p + 8 * 0) in E by lia. apply slot_inj in E as [? _]; [done | done | done | done |].
    unfold index_ok. lia. }
  assert (Hlab : forall t x, lab1 !! t = Some x -> t ∈ used1 /\ t <> p).
  { intros t [r q] Ht. split; [by destruct (pi_used _ _ _ _ Hi _ _ _ Ht) | congruence]. }
  destruct (tables_agree_on s1 s2 lab1 fl1 fl2 used1 (used1 ∖ {[p]}) Hi Ha) as [Hi2 Hpres].
  { intros t x Ht. destruct (Hlab t x Ht). rewrite elem_of_difference, elem_of_singleton. tauto. }
  { intros t x i Ht Hx. destruct (Hlab t x Ht). by apply Hmem. }
  constructor; try done; [by exists fl2 | | | |].
  - intros d Hd'. rewrite elem_of_difference, elem_of_singleton. split; [by apply Hu | by intros ->].
  - intros r ix Hroot Hl Hx. rewrite <- He by done. apply (Hpres _ _ r []); [|done | done].
    by apply (lookup_weaken _ _ _ _ Hroot).
  - intros d Hd' Hl. destruct (Hd d Hd' Hl) as [D1 D2]. assert (d <> p) by (by intros ->). split.
    + intros i Hx. rewrite Hmem by (done || by apply Hu). by apply D1.
    + rewrite <- D2. destruct (Hin d (Hu d Hd')), (Hin p Hp).
      by eapply (page_struct_insert_ne s1 s2 p).
  - intros Hpn. rewrite Eg. by apply insert_page_some, Hg.
Qed.

(** Counters do not matter. *)
Lemma map_step_core s s1 s2 lab lab1 used used1 ok l0 va pte :
  map_step s s1 lab lab1 used used1 ok l0 va pte -> core_eq s1 s2 ->
  map_step s s2 lab lab1 used used1 ok l0 va pte.
Proof.
  intros [[fl1 Hi] Hs Hu Hn He Hd Hr Hg] (Em & Eg & En & Ef).
  assert (Ha : alloc_inv page_pool_start s2 fl1 used1).
  { eapply alloc_inv_write; [apply Hi | done | done | by rewrite Em |]. intros l. rewrite Eg.
    apply (ai_pages _ _ _ _ (pi_alloc _ _ _ _ Hi)). }
  destruct (tables_agree s1 s2 lab1 fl1 fl1 used1 used1 Hi Ha) as [Hi2 _]; [done | by rewrite Em |].
  constructor; try done; [by exists fl1 | by rewrite Em | | by rewrite Eg].
  intros d Hd' Hl. unfold page_struct. rewrite Em, Eg. by apply Hd.
Qed.

End table_theory.

(** ** Virtual page numbers *)

Definition vpn (va : Z) : Z := (va / 4096) mod 2 ^ 36.

Lemma table_index_vpn va k :
  0 <= k <= 3 -> table_index va (12 + 9 * k) = (vpn va / 2 ^ (9 * k)) mod 2 ^ 9.
Proof.
  intros Hk. unfold table_index, vpn. change 0x1ff with (2 ^ 9 - 1). rewrite land_ones_mod by lia.
  rewrite Z.shiftr_div_pow2, Z.pow_add_r, <- Z.div_div by (lia || apply Z.pow_pos_nonneg; lia).
  change (2 ^ 12) with 4096. set (x := va / 4096). apply Z.bits_inj'. intros n Hn.
  destruct (Z.ltb_spec n 9).
  - rewrite !Z.mod_pow2_bits_low, !Z.div_pow2_bits by lia. symmetry. apply Z.mod_pow2_bits_low. lia.
  - by rewrite !Z.mod_pow2_bits_high by lia.
Qed.

(** Two addresses take the same path through the tables exactly when they lie
    in the same virtual page. *)
Lemma indices_vpn va va' : indices va = indices va' <-> vpn va = vpn va'.
Proof.
  pose proof (fun v => table_index_vpn v 0 ltac:(lia)) as H0.
  pose proof (fun v => table_index_vpn v 1 ltac:(lia)) as H1.
  pose proof (fun v => table_index_vpn v 2 ltac:(lia)) as H2.
  pose proof (fun v => table_index_vpn v 3 ltac:(lia)) as H3.
  simpl in H0, H1, H2, H3. unfold indices. split.
  - intros E. injection E as E3 E2 E1 E0. rewrite !H0, !H1, !H2, !H3 in *.
    assert (B : forall v, 0 <= vpn v < 2 ^ 36) by (intros v; apply Z.mod_pos_bound; lia).
    pose proof (B va). pose proof (B va'). clear B H0 H1 H2 H3.
    generalize dependent (vpn va). generalize dependent (vpn va'). intros x Hx y E3 E2 E1 E0 Hy.
    change (Z.pow_pos 2 9) with 512 in *. change (Z.pow_pos 2 18) with 262144 in *.
    change (Z.pow_pos 2 27) with 134217728 in *. rewrite Z.div_1_r in *.
    Z.to_euclidean_division_equations. lia.
  - intros E. by rewrite !H0, !H1, !H2, !H3, E.
Qed.

Lemma indices_align_down va : indices (align_down va) = indices va.
Proof.
  apply indices_vpn. unfold vpn, align_down. change (not64 PAGE_MASK) with (2 ^ 64 - 2 ^ 12).
  rewrite land_high_mod by lia. change (2 ^ 12) with 4096. change (2 ^ 64) with (4096 * 2 ^ 52).
  rewrite Z.rem_mul_r by lia. replace (va mod 4096 + 4096 * ((va / 4096) mod 2 ^ 52) - va mod 4096)
    with ((va / 4096) mod 2 ^ 52 * 4096) by lia.
  rewrite Z.div_mul by lia. change (2 ^ 52) with (2 ^ 36 * 2 ^ 16). rewrite Z.rem_mul_r by lia.
  by rewrite (Z.mul_comm (2 ^ 36)), Z.mod_add, Zmod_mod by lia.
Qed.

(** What a leaf made by [pt_map_page] translates to. *)
Lemma mapped_page_desc pa attrs va :
  pa mod 4096 = 0 ->
  mapped_address (page_desc pa attrs) va = KERNEL_VA_BASE + pa mod 2 ^ 48 + va mod 4096.
Proof.
  intros Hpa. unfold mapped_address. rewrite page_desc_valid.
  assert (E : Z.land (page_desc pa attrs) PTE_ADDR_MASK = pa mod 2 ^ 48).
  { unfold page_desc. rewrite !Z.land_lor_distr_l, <- !Z.land_assoc.
    change (Z.land (not64 PTE_ADDR_MASK) PTE_ADDR_MASK) with 0.
    change (Z.land DESC_VALID PTE_ADDR_MASK) with 0. change (Z.land DESC_PAGE PTE_ADDR_MASK) with 0.
    rewrite Z.land_0_r, !Z.lor_0_r, Z.land_diag, pte_addr_mask, Hpa. lia. }
  rewrite E. change PAGE_MASK with (2 ^ 12 - 1). rewrite land_ones_mod by lia.
  assert (Hm : (pa mod 2 ^ 48) mod 2 ^ 12 = 0).
  { change (2 ^ 48) with (2 ^ 12 * 2 ^ 36). rewrite Z.rem_mul_r by lia.
    rewrite (Z.mul_comm (2 ^ 12)), Z.mod_add, Z.mod_mod by lia. done. }
  pose proof (Z.mod_pos_bound pa (2 ^ 48)). pose proof (Z.mod_pos_bound va (2 ^ 12)).
  rewrite (lor_add _ _ 12) by (done || lia). rewrite phys_kva.
  - change 4096 with (2 ^ 12). lia.
  - pose proof (Z.div_mod (pa mod 2 ^ 48) (2 ^ 12)). lia.
Qed.

(** ** Histories of table operations

    Address spaces are created and pages are mapped into them; the log records
    each mapping that succeeded, most recent first, as (root, va, pa). *)

Inductive pt_op :=
| PNew
| PMap (k : nat) (va pa attrs : Z)
| PMapNew (k : nat) (va attrs : Z).

Definition pt_log : Type := list (Z * Z * Z).

Section pt_runs.
Variable page_pool_start : Z.

Definition pt_step (op : pt_op) (st : list Z * pt_log) : M (list Z * pt_log) :=
  let '(roots, log) := st in
  match op with
  | PNew =>
      r ← alloc_page page_pool_start;
      mret (if r =? 0 then (roots, log) else (roots ++ [r], log))
  | PMap k va pa attrs =>
      match roots !! k with
      | None => mret (roots, log)
      | Some r =>
          ok ← pt_map_page page_pool_start r va pa attrs;
          mret (roots, if (ok : bool) then (r, va, pa) :: log else log)
      end
  | PMapNew k va attrs =>
      match roots !! k with
      | None => mret (roots, log)
      | Some r =>
          page ← pt_map_new_page page_pool_start r va attrs;
          mret (roots, if page =? 0 then log
                       else (r, align_down va, kernel_phys_addr page) :: log)
      end
  end.

Fixpoint pt_run (ops : list pt_op) (st : list Z * pt_log) : M (list Z * pt_log) :=
  match ops with
  | [] => mret st
  | op :: ops => st' ← pt_step op st; pt_run ops st'
  end.

(** The physical page the log assigns to [va] in the address space [r]. *)
Fixpoint log_lookup (log : pt_log) (r va : Z) : option Z :=
  match log with
  | [] => None
  | (r', va', pa) :: log =>
      if (r' =? r) && (vpn va' =? vpn va) then Some pa else log_lookup log r va
  end.

(** The kernel address the log assigns to [va]; NULL if none. *)
Definition log_address (log : pt_log) (r va : Z) : Z :=
  match log_lookup log r va with
  | Some pa => KERNEL_VA_BASE + pa mod 2 ^ 48 + va mod 4096
  | None => 0
  end.

Hypothesis pool_in_ram : KERNEL_VA_BASE < page_pool_start <= RAM_end.

Definition log_sim (st : list Z * pt_log) (s : pt_state) : Prop :=
  let '(roots, log) := st in
  exists lab fl used, pt_inv page_pool_start s lab fl used /\
    (forall r, r ∈ roots -> is_root lab r) /\ NoDup roots /\
    (forall r va pa, (r, va, pa) ∈ log -> r ∈ roots) /\
    forall r va, r ∈ roots -> mapped_address (translate s r va) va = log_address log r va.

Lemma log_address_absent log r va :
  (forall va' pa, (r, va', pa) ∉ log) -> log_address log r va = 0.
Proof.
  intros H. unfold log_address. induction log as [|[[r' va'] pa] log IH]; simpl; [done|].
  destruct (Z.eqb_spec r' r) as [->|]; simpl.
  - by destruct (H va' pa); apply list_elem_of_here.
  - apply IH. intros v p Hin. by apply (H v p), list_elem_of_further.
Qed.

(** A successful mapping on both sides. *)
Lemma map_sim roots log s s' lab lab' used used' ok r va pa attrs fl :
  pt_inv page_pool_start s lab fl used ->
  (forall r, r ∈ roots -> is_root lab r) -> NoDup roots ->
  (forall r va pa, (r, va, pa) ∈ log -> r ∈ roots) ->
  (forall r va, r ∈ roots -> mapped_address (translate s r va) va = log_address log r va) ->
  map_step page_pool_start s s' lab lab' used used' ok r va (page_desc pa attrs) ->
  r ∈ roots -> (ok = true -> pa mod 4096 = 0) ->
  log_sim (roots, if ok then (r, va, pa) :: log else log) s'.
Proof.
  intros Hi Hroots Hnd Hlog Htr [[fl' Hi'] S U N T D R G] Hr Hpa. exists lab', fl', used'.
  split_and!; [done | | done | |].
  - intros r1 Hr1%Hroots. by eapply lookup_weaken.
  - intros r1 va1 pa1. destruct ok; [|apply Hlog]. intros [[= -> -> ->] | Hin]%elem_of_cons; [done|].
    by eapply Hlog.
  - intros r1 va1 Hr1. unfold translate.
    rewrite T; [| by apply Hroots | done | apply indices_ok]. destruct ok; simpl; [|by apply Htr].
    unfold log_address. simpl. case_bool_decide as E.
    + apply pair_equal_spec in E as [-> E%indices_vpn]. rewrite Z.eqb_refl, E, Z.eqb_refl. simpl.
      by rewrite mapped_page_desc by by apply Hpa.
    + destruct ((r =? r1) && (vpn va =? vpn va1)) eqn:Eb; [|by apply Htr].
      destruct E. apply andb_true_iff in Eb as [->%Z.eqb_eq Ev%Z.eqb_eq]. f_equal.
      by apply indices_vpn.
Qed.

Lemma boot_log_sim s : boot_state s -> log_sim ([], []) s.
Proof.
  intros Hb. destruct (boot_run_inv _ pool_in_ram s Hb) as [_ [fl Hi]].
  exists ∅, fl, (list_to_set []). split_and!.
  - constructor; [done | by intros *; rewrite ?lookup_empty ..].
  - by intros r ?%elem_of_nil.
  - by apply NoDup_nil.
  - by intros r va pa ?%elem_of_nil.
  - by intros r va ?%elem_of_nil.
Qed.

Lemma new_sim roots log s lab fl used c s' fl' :
  pt_inv page_pool_start s lab fl used ->
  (forall r, r ∈ roots -> is_root lab r) -> NoDup roots ->
  (forall r va pa, (r, va, pa) ∈ log -> r ∈ roots) ->
  (forall r va, r ∈ roots -> mapped_address (translate s r va) va = log_address log r va) ->
  c ∉ used -> in_ram c -> c mod 4096 = 0 -> fresh_page s s' c ->
  alloc_inv page_pool_start s' fl' ({[c]} ∪ used) ->
  log_sim (roots ++ [c], log) s'.
Proof.
  intros Hi Hroots Hnd Hlog Htr Hcu Hcr Hca Hfr Ha.
  destruct (new_root_step _ pool_in_ram s s' lab fl fl' used c) as (Hi' & T & Hlc & Hz); try done.
  assert (Hnew : c ∉ roots) by (intros Hc%Hroots; unfold is_root in Hc; congruence).
  exists (<[c := (c, [])]> lab), fl', ({[c]} ∪ used). split_and!; [done | | | |].
  - intros r [Hr | ->%list_elem_of_singleton]%elem_of_app; unfold is_root.
    + rewrite lookup_insert_ne by (by intros <-). by apply Hroots.
    + apply lookup_insert_eq.
  - apply NoDup_app. split_and!; [done | | apply NoDup_singleton].
    by intros r Hr ->%list_elem_of_singleton.
  - intros r va pa Hin. apply elem_of_app. left. by eapply Hlog.
  - intros r va [Hr | ->%list_elem_of_singleton]%elem_of_app.
    + unfold translate. rewrite (ts_same _ _ _ _ _ _ _ T (indices va) r r []);
        [by apply Htr | by apply Hroots | done | apply indices_ok].
    + rewrite Hz, log_address_absent; [done|]. intros va' pa Hin. by apply Hnew, (Hlog _ _ _ Hin).
Qed.

Lemma wp_pt_step op st s : log_sim st s -> wp (pt_step op st) log_sim s.
Proof.
  destruct st as [roots log]. intros (lab & fl & used & Hi & Hroots & Hnd & Hlog & Htr).
  assert (Hsame : log_sim (roots, log) s) by (exists lab, fl, used; by split_and!).
  destruct op as [|k va pa attrs|k va attrs]; cbn [pt_step].
  - apply wp_bind. eapply wp_mono; [apply (wp_alloc_page _ pool_in_ram s fl used), Hi|].
    intros c s' [(-> & Ha & Em & Eg & -> & _) | (Hc0 & Hcu & Hcr & Hca & Hfr & fl' & Ha)]; apply wp_ret.
    + simpl. destruct (alloc_table_step page_pool_start s s' lab [] [] used used) as [[fl' Hi'] _ _ _ P _ _ _];
        [done | done | done | by rewrite Em | intros; unfold page_struct; by rewrite Eg | by rewrite Eg |].
      exists lab, fl', used. split_and!; try done. intros r va Hr. unfold translate. rewrite Em.
      by apply Htr.
    + rewrite (proj2 (Z.eqb_neq _ _) Hc0). by eapply new_sim.
  - destruct (roots !! k) as [r|] eqn:Hk; [|by apply wp_ret].
    pose proof (list_elem_of_lookup_2 _ _ _ Hk) as Hr. apply wp_bind.
    eapply wp_mono; [eapply (wp_pt_map_page _ pool_in_ram); [done | by apply Hroots]|].
    intros ok s' [(lab' & used' & Hms) [Hal _]]. apply wp_ret. by eapply map_sim.
  - destruct (roots !! k) as [r|] eqn:Hk; [|by apply wp_ret].
    pose proof (list_elem_of_lookup_2 _ _ _ Hk) as Hr. apply wp_bind.
    eapply wp_mono; [eapply (wp_pt_map_new_page _ pool_in_ram); [done | by apply Hroots]|].
    intros page s' (lab' & used' & Hms & Hpg). apply wp_ret.
    replace (if page =? 0 then log else (r, align_down va, kernel_phys_addr page) :: log)
      with (if negb (page =? 0) then (r, align_down va, kernel_phys_addr page) :: log else log)
      by by destruct (page =? 0).
    eapply map_sim; try done. intros Hp%negb_true_iff%Z.eqb_neq.
    destruct (Hpg Hp) as (_ & _ & _ & Hram & Ha & _ & _).
    rewrite kva_phys by by apply in_ram_kva. by rewrite Zminus_mod, Ha.
Qed.

Lemma wp_pt_run ops st s : log_sim st s -> wp (pt_run ops st) log_sim s.
Proof.
  revert st s. induction ops as [|op ops IH]; intros st s Hs; simpl; [by apply wp_ret|].
  apply wp_bind. eapply wp_mono; [by apply wp_pt_step|]. intros st' s' Hs'. by apply IH.
Qed.

End pt_runs.

(** C2.  After any history of address-space creations and page mappings from
    boot, [pt_get_mapped_page] translates every address of every address space
    as the most recent successful mapping of its page in that address space
    says (the physical page plus the offset in the page), and to NULL where no
    mapping was made: mapping a page changes no other translation, in any
    address space, whatever tables have to be created on the way. *)
Theorem page_tables_refine_log (page_pool_start : Z) (ops : list pt_op) (s0 : pt_state) :
  KERNEL_VA_BASE < page_pool_start <= RAM_end ->
  boot_state s0 ->
  exists roots log s, pt_run page_pool_start ops ([], []) s0 = Ok ((roots, log), s) /\
    NoDup roots /\
    forall r va, r ∈ roots -> pt_get_mapped_page r va s = Ok (log_address log r va, s).
Proof.
  intros Hpool Hboot.
  destruct (wp_pt_run _ Hpool ops ([], []) s0) as ([roots log] & s & E & Hs); [by apply boot_log_sim|].
  destruct Hs as (lab & fl & used & Hi & Hroots & Hnd & _ & Htr).
  exists roots, log, s. split_and!; [done | done |]. intros r va Hr.
  rewrite pt_get_mapped_page_eq, Htr; [done | done |].
  destruct (table_page _ Hpool _ _ _ _ r (r, []) Hi) as [Hram _]; [by apply Hroots|].
  by apply in_ram_nonzero.
Qed.

(** Two address spaces, one page mapped in both at the same address, and one
    of the mappings replaced. *)
Definition pt_example : list pt_op :=
  [PNew; PNew; PMap 0 0x400000 0x5000 ATTR_USER_RW; PMap 1 0x400000 0x6000 ATTR_USER_RO;
   PMap 0 0x400000 0x7000 ATTR_USER_RW; PMapNew 1 0x7fffff ATTR_USER_RW].

Lemma page_tables_refine_log_witness :
  exists roots log s, pt_run pool_example pt_example ([], []) boot_example = Ok ((roots, log), s) /\
    NoDup roots /\
    forall r va, r ∈ roots -> pt_get_mapped_page r va s = Ok (log_address log r va, s).
Proof.
  apply (page_tables_refine_log pool_example pt_example boot_example).
  - unfold pool_example, RAM_end, RAM_END_PHYS, KERNEL_VA_BASE. lia.
  - split_and!; [reflexivity | reflexivity | intros l Hl; discriminate Hl].
Defined.
