(* ===== verification/Cow.v ===== *)
(** * Copy-on-write address spaces

    The descriptor helpers of kernel/memory/page_table/page_table.c, the
    permission-fault path of [handle_data_abort] (kernel/memory/mmu.c), the
    table copy of [cpy_address_space] (kernel/scheduler/process.c) and the
    table destruction of [destroy_page_table_level].

    The theorems show that sharing and copying pages is invisible: what a
    process reads at an address is what was last written there by it, or by
    its parent before the fork. *)

From S2P Require Import Prelude PageAlloc PageTable.

(** ** Descriptor helpers *)

Definition pte_ap (pte : Z) : Z := Z.shiftr (Z.land pte PTE_AP_MASK) PTE_AP_SHIFT.

Definition pte_is_user (pte : Z) : bool :=
  (pte_ap pte =? Z.shiftr PTE_AP_EL0_RW PTE_AP_SHIFT)
  || (pte_ap pte =? Z.shiftr PTE_AP_EL0_RO PTE_AP_SHIFT).

Definition pte_is_writable (pte : Z) : bool :=
  (pte_ap pte =? Z.shiftr PTE_AP_EL0_RW PTE_AP_SHIFT)
  || (pte_ap pte =? Z.shiftr PTE_AP_EL1_RW PTE_AP_SHIFT).

Definition pte_clear_writable (pte : Z) : Z :=
  Z.lor (Z.land pte (not64 PTE_AP_MASK)) PTE_AP_EL0_RO.

Definition pte_set_writable (pte : Z) : Z :=
  Z.lor (Z.land pte (not64 PTE_AP_MASK)) PTE_AP_EL0_RW.

Definition pte_make_readonly_and_mark_cow (pte_ptr : Z) : M unit :=
  if pte_ptr =? 0 then mret tt
  else
    pte ← rd pte_ptr;
    if negb (pte_is_user pte) then mret tt
    else
      let pa := Z.land pte PTE_ADDR_MASK in
      _ ← wr pte_ptr (pte_clear_writable pte);
      pte_set_cow_flag pa PTE_FLAG_COW.

Definition pte_clear_cow_and_make_writable (pte_ptr : Z) : M unit :=
  if pte_ptr =? 0 then mret tt
  else
    pte ← rd pte_ptr;
    let pa := Z.land pte PTE_ADDR_MASK in
    _ ← pte_clear_cow_flag pa PTE_FLAG_COW;
    wr pte_ptr (pte_set_writable pte).

Definition page_table_note_invalid_fault : M unit :=
  _ ← bump page_faults; _ ← bump data_faults; _ ← bump faults_unmapped; bump faults_invalid.

Definition page_table_note_cow_fault : M unit :=
  _ ← bump page_faults; _ ← bump data_faults; _ ← bump cow_faults; bump faults_handled.

Definition page_table_note_cow_copy : M unit := bump cow_copies.
Definition page_table_note_tlb_flush : M unit := bump tlb_flushes.

Section cow.
Variable page_pool_start : Z.

(** ** The permission-fault path of [handle_data_abort]

    [l0] is the current process's [ttbr0_el1_va], [None] when there is no
    current process. *)

Definition cow_write_fault (pte_ptr : Z) : M unit :=
  pte_val ← rd pte_ptr;
  if negb (desc_valid pte_val) then fatal else
  if negb (pte_is_user pte_val) then fatal else
  let pa := Z.land pte_val PTE_ADDR_MASK in
  cow ← pte_test_cow_flag pa PTE_FLAG_COW;
  if negb (cow : bool) then _ ← page_table_note_invalid_fault; fatal else
  _ ← page_table_note_cow_fault;
  refcnt ← get_pte_refcount_pa pa;
  if 1 <? refcnt then
    new_page_va ← alloc_page page_pool_start;
    if new_page_va =? 0 then fatal else
    let new_pa := kernel_phys_addr new_page_va in
    ok ← copy_phys_page pa new_pa;
    if ok =? 0 then _ ← free_page new_page_va; fatal else
    _ ← page_table_note_cow_copy;
    _ ← dec_pte_refcount_pa pa;
    let attrs := Z.land pte_val (not64 PTE_ADDR_MASK) in
    _ ← wr pte_ptr (Z.lor (Z.land new_pa PTE_ADDR_MASK) attrs);
    _ ← pte_clear_cow_and_make_writable pte_ptr;
    page_table_note_tlb_flush
  else
    _ ← pte_clear_cow_and_make_writable pte_ptr;
    _ ← pte_clear_cow_flag pa PTE_FLAG_COW;
    page_table_note_tlb_flush.

Definition permission_fault (far_valid is_write : bool) (far : Z) (curr_l0 : option Z) : M unit :=
  if negb far_valid then fatal else
  if negb is_write then fatal else
  if Z.shiftr far 48 =? 0xFFFF then fatal else
  match curr_l0 with
  | None => fatal
  | Some l0 =>
      let l0_index := table_index far 39 in
      let l1_index := table_index far 30 in
      let l2_index := table_index far 21 in
      let l3_index := table_index far 12 in
      e0 ← rd (l0 + 8 * l0_index);
      if negb (desc_valid e0) then fatal else
      let l1 := desc_table e0 in
      e1 ← rd (l1 + 8 * l1_index);
      if negb (desc_valid e1) then fatal else
      let l2 := desc_table e1 in
      e2 ← rd (l2 + 8 * l2_index);
      if negb (desc_valid e2) then fatal else
      let l3 := desc_table e2 in
      e3 ← rd (l3 + 8 * l3_index);
      if negb (desc_valid e3) then fatal else
      cow_write_fault (l3 + 8 * l3_index)
  end.

(** ** The table copy of [cpy_address_space] *)

(** The child's descriptor for a shared page. *)
Definition child_desc (src_pa parent : Z) : Z :=
  let child_pte := Z.lor (Z.land src_pa PTE_ADDR_MASK) (Z.land parent (not64 PTE_ADDR_MASK)) in
  let child_pte := Z.land child_pte (not64 (Z.lor PTE_AP_EL0_RW PTE_AP_EL1_RW)) in
  let child_pte := Z.lor child_pte PTE_AP_EL0_RO in
  Z.lor (Z.lor child_pte DESC_VALID) DESC_PAGE.

(** One leaf: [src] and [dst] are the addresses of the two descriptors. *)
Definition cpy_pte (src dst : Z) : M bool :=
  e ← rd src;
  if negb (desc_valid e) then mret true else
  let src_pa := Z.land e PTE_ADDR_MASK in
  let src_attrs := Z.land e (not64 PTE_ADDR_MASK) in
  if negb (pte_is_user e) then
    dst_page ← alloc_page page_pool_start;
    if dst_page =? 0 then mret false else
    let dst_pa := kernel_phys_addr dst_page in
    _ ← copy_phys_page src_pa dst_pa;
    _ ← wr dst (Z.lor (Z.lor (Z.lor (Z.land dst_pa PTE_ADDR_MASK) src_attrs) DESC_VALID) DESC_PAGE);
    mret true
  else if pte_is_writable e then
    _ ← pte_make_readonly_and_mark_cow src;
    e' ← rd src;
    _ ← wr dst (child_desc src_pa e');
    _ ← inc_pte_refcount_pa src_pa;
    mret true
  else
    _ ← wr dst e;
    _ ← inc_pte_refcount_pa src_pa;
    mret true.

(** One table of each of the upper levels: every valid descriptor gets a fresh
    table in the copy, and [sub] copies the table it points to. *)
Definition cpy_level (sub : Z -> Z -> M bool) (src dst : Z) : M bool :=
  for_while 512 0 (fun i =>
    e ← rd (src + 8 * i);
    if negb (desc_valid e) then mret true else
    let src_next := desc_table e in
    dst_next ← alloc_page page_pool_start;
    if dst_next =? 0 then mret false else
    _ ← wr (dst + 8 * i) (table_desc dst_next);
    sub src_next dst_next).

Definition cpy_l3 (src dst : Z) : M bool :=
  for_while 512 0 (fun l => cpy_pte (src + 8 * l) (dst + 8 * l)).
Definition cpy_l2 : Z -> Z -> M bool := cpy_level cpy_l3.
Definition cpy_l1 : Z -> Z -> M bool := cpy_level cpy_l2.
Definition cpy_l0 : Z -> Z -> M bool := cpy_level cpy_l1.

(** The loops of [cpy_address_space] and the flush that follows them; the
    result says whether the loops ran to the end. *)
Definition cpy_tables (src_l0 dst_l0 : Z) : M bool :=
  done ← cpy_l0 src_l0 dst_l0;
  _ ← when done page_table_note_tlb_flush;
  mret done.

End cow.

(** ** [destroy_page_table_level]; [depth] levels are left below [table] *)

Fixpoint destroy_page_table_level (depth : nat) (table : Z) : M unit :=
  if table =? 0 then mret tt
  else
    _ ← for_st 512 0 (fun i =>
          desc ← rd (table + 8 * i);
          if negb (desc_valid desc) then mret tt else
          let pa := Z.land desc PTE_ADDR_MASK in
          match depth with
          | O => dec_pte_refcount_pa pa
          | S depth =>
              when (Z.land desc DESC_TABLE =? DESC_TABLE)
                (destroy_page_table_level depth (kernel_direct_map_va pa))
          end);
    free_page table.

(** ** Descriptor bits *)

Lemma pte_ap_bits e : pte_ap e = (e / 64) mod 4.
Proof.
  unfold pte_ap, PTE_AP_MASK, PTE_AP_SHIFT. rewrite Z.shiftr_land.
  change (Z.shiftr (Z.shiftl 3 6) 6) with (2 ^ 2 - 1).
  rewrite land_ones_mod by lia. by rewrite Z.shiftr_div_pow2 by lia.
Qed.

Lemma testbit_mod2 e n : 0 <= n -> Z.b2z (Z.testbit e n) = (e / 2 ^ n) mod 2.
Proof. intros. by rewrite Z.testbit_spec' by lia. Qed.

Lemma pte_is_user_bit e : pte_is_user e = Z.testbit e 6.
Proof.
  unfold pte_is_user. rewrite pte_ap_bits.
  change (Z.shiftr PTE_AP_EL0_RW PTE_AP_SHIFT) with 1. change (Z.shiftr PTE_AP_EL0_RO PTE_AP_SHIFT) with 3.
  pose proof (testbit_mod2 e 6 ltac:(lia)) as H6. change (2 ^ 6) with 64 in H6.
  destruct (Z.testbit e 6); simpl in H6; repeat case_bool; Z.to_euclidean_division_equations; simpl; lia.
Qed.

Lemma pte_is_writable_bit e : pte_is_writable e = negb (Z.testbit e 7).
Proof.
  unfold pte_is_writable. rewrite pte_ap_bits.
  change (Z.shiftr PTE_AP_EL0_RW PTE_AP_SHIFT) with 1. change (Z.shiftr PTE_AP_EL1_RW PTE_AP_SHIFT) with 0.
  pose proof (testbit_mod2 e 7 ltac:(lia)) as H7. change (2 ^ 7) with 128 in H7.
  destruct (Z.testbit e 7); simpl in H7; repeat case_bool; Z.to_euclidean_division_equations; simpl; lia.
Qed.

(** The bits of a descriptor other than its address and its access
    permissions. *)
Definition same_attrs (e e' : Z) : Prop :=
  forall n, 2 <= n < 12 \/ 48 <= n < 64 -> n <> 6 -> n <> 7 -> Z.testbit e n = Z.testbit e' n.

Ltac solve_bits :=
  rewrite ?pte_is_user_bit, ?pte_is_writable_bit, ?desc_valid_bit;
  rewrite ?Z.lor_spec, ?Z.land_spec; simpl; rewrite ?andb_true_r, ?orb_false_r, ?orb_true_r; auto.

(** An address mask keeps only the address. *)
Lemma addr_of_lor a b :
  Z.land b PTE_ADDR_MASK = 0 -> Z.land (Z.lor a b) PTE_ADDR_MASK = Z.land a PTE_ADDR_MASK.
Proof. intros H. by rewrite Z.land_lor_distr_l, H, Z.lor_0_r. Qed.

Lemma addr_of_land a b :
  Z.land b PTE_ADDR_MASK = PTE_ADDR_MASK -> Z.land (Z.land a b) PTE_ADDR_MASK = Z.land a PTE_ADDR_MASK.
Proof. intros H. by rewrite <- Z.land_assoc, H. Qed.

Lemma addr_of_attrs a :
  Z.land (Z.land a (not64 PTE_ADDR_MASK)) PTE_ADDR_MASK = 0.
Proof. rewrite <- Z.land_assoc. change (Z.land (not64 PTE_ADDR_MASK) PTE_ADDR_MASK) with 0. apply Z.land_0_r. Qed.

Lemma clear_writable_addr e : Z.land (pte_clear_writable e) PTE_ADDR_MASK = Z.land e PTE_ADDR_MASK.
Proof. unfold pte_clear_writable. rewrite addr_of_lor by done. by rewrite addr_of_land. Qed.

Lemma set_writable_addr e : Z.land (pte_set_writable e) PTE_ADDR_MASK = Z.land e PTE_ADDR_MASK.
Proof. unfold pte_set_writable. rewrite addr_of_lor by done. by rewrite addr_of_land. Qed.

Lemma clear_writable_user e : pte_is_user (pte_clear_writable e) = true.
Proof. unfold pte_clear_writable. solve_bits. Qed.

Lemma clear_writable_ro e : pte_is_writable (pte_clear_writable e) = false.
Proof. unfold pte_clear_writable. solve_bits. Qed.

Lemma clear_writable_valid e : desc_valid (pte_clear_writable e) = desc_valid e.
Proof. unfold pte_clear_writable. solve_bits. Qed.

Lemma set_writable_user e : pte_is_user (pte_set_writable e) = true.
Proof. unfold pte_set_writable. solve_bits. Qed.

Lemma set_writable_rw e : pte_is_writable (pte_set_writable e) = true.
Proof. unfold pte_set_writable. rewrite pte_is_writable_bit, Z.lor_spec, Z.land_spec. simpl. by rewrite andb_false_r. Qed.

Lemma set_writable_valid e : desc_valid (pte_set_writable e) = desc_valid e.
Proof. unfold pte_set_writable. solve_bits. Qed.

Lemma child_desc_addr pa e : Z.land (child_desc pa e) PTE_ADDR_MASK = Z.land pa PTE_ADDR_MASK.
Proof.
  unfold child_desc. do 3 rewrite addr_of_lor by done. rewrite addr_of_land by done.
  rewrite addr_of_lor by apply addr_of_attrs. rewrite <- Z.land_assoc. f_equal.
Qed.

Lemma child_desc_valid pa e : desc_valid (child_desc pa e) = true.
Proof. unfold child_desc. solve_bits. Qed.

Lemma child_desc_user pa e : pte_is_user (child_desc pa e) = true.
Proof. unfold child_desc. solve_bits. Qed.

Lemma child_desc_ro pa e : pte_is_writable (child_desc pa e) = false.
Proof. unfold child_desc. solve_bits. Qed.

(** The descriptor [e] moved to the page at [pa], as the fault handler writes
    it before making it writable. *)
Definition moved_desc (pa e : Z) : Z :=
  Z.lor (Z.land pa PTE_ADDR_MASK) (Z.land e (not64 PTE_ADDR_MASK)).

Lemma moved_desc_addr pa e : Z.land (moved_desc pa e) PTE_ADDR_MASK = Z.land pa PTE_ADDR_MASK.
Proof. unfold moved_desc. rewrite addr_of_lor by apply addr_of_attrs. rewrite <- Z.land_assoc. f_equal. Qed.

Lemma moved_desc_valid pa e : desc_valid (moved_desc pa e) = desc_valid e.
Proof. unfold moved_desc. solve_bits. by rewrite andb_false_r. Qed.

Lemma page_desc_addr pa attrs : Z.land (page_desc pa attrs) PTE_ADDR_MASK = Z.land pa PTE_ADDR_MASK.
Proof.
  unfold page_desc. do 2 rewrite addr_of_lor by done. rewrite addr_of_lor by apply addr_of_attrs.
  rewrite <- Z.land_assoc. f_equal.
Qed.

Lemma page_desc_user pa e : pte_is_user (page_desc pa e) = pte_is_user e.
Proof. unfold page_desc. solve_bits. by rewrite andb_false_r. Qed.

Lemma page_desc_writable pa e : pte_is_writable (page_desc pa e) = pte_is_writable e.
Proof. unfold page_desc. solve_bits. by rewrite andb_false_r. Qed.

Lemma desc_table_addr e e' :
  Z.land e PTE_ADDR_MASK = Z.land e' PTE_ADDR_MASK -> desc_table e = desc_table e'.
Proof. intros H. unfold desc_table. by rewrite H. Qed.

(** The physical address in a descriptor of a page of RAM. *)
Lemma desc_pa e d : in_ram d -> desc_table e = d -> Z.land e PTE_ADDR_MASK = d - KERNEL_VA_BASE.
Proof.
  intros Hr <-. unfold desc_table. rewrite pte_addr_mask.
  pose proof (Z.mod_pos_bound e (2 ^ 48)) as H1. pose proof (Z.mod_pos_bound e 4096) as H2.
  assert (H3 : 0 <= e mod 2 ^ 48 - e mod 4096).
  { rewrite <- pte_addr_mask. apply Z.land_nonneg. right. done. }
  rewrite phys_kva by lia. lia.
Qed.

Lemma desc_table_aligned e : desc_table e mod 4096 = 0.
Proof.
  unfold desc_table. rewrite pte_addr_mask.
  pose proof (Z.mod_pos_bound e (2 ^ 48)) as H1. pose proof (Z.mod_pos_bound e 4096) as H2.
  assert (H3 : 0 <= e mod 2 ^ 48 - e mod 4096).
  { rewrite <- pte_addr_mask. apply Z.land_nonneg. right. done. }
  rewrite phys_kva by lia. rewrite Zplus_mod. change (KERNEL_VA_BASE mod 4096) with 0.
  rewrite Z.add_0_l, Zmod_mod. rewrite Zminus_mod, Zmod_mod.
  replace ((e mod 2 ^ 48) mod 4096) with (e mod 4096); [by rewrite Z.sub_diag|].
  change (2 ^ 48) with (4096 * 2 ^ 36). rewrite Z.rem_mul_r by lia.
  by rewrite (Z.mul_comm 4096), Z.mod_add, Zmod_mod by lia.
Qed.

(** Descriptor of a fresh page. *)
Lemma phys_desc_table c e :
  in_ram c -> c mod 4096 = 0 ->
  Z.land e PTE_ADDR_MASK = Z.land (kernel_phys_addr c) PTE_ADDR_MASK -> desc_table e = c.
Proof.
  intros Hr Ha E. unfold desc_table. rewrite E, pte_addr_mask, kva_phys by by apply in_ram_kva.
  pose proof (in_ram_kva c Hr). rewrite Z.mod_small by lia.
  assert ((c - KERNEL_VA_BASE) mod 4096 = 0) as -> by (by rewrite Zminus_mod, Ha).
  rewrite phys_kva by lia. lia.
Qed.

(** ** Slots, leaves and the copy-on-write invariant *)

Section isolation.
Variable page_pool_start : Z.
Hypothesis pool_in_ram : KERNEL_VA_BASE < page_pool_start <= RAM_end.

(** An address space and the four indices of a page in it. *)
Definition slot : Type := Z * list Z.

Definition slot_ok (lab : gmap Z (Z * list Z)) (x : slot) : Prop :=
  is_root lab (fst x) /\ length (snd x) = 4%nat /\ Forall index_ok (snd x).

Definition leaf (s : pt_state) (x : slot) : Z := entry (mem s) (fst x) (snd x).

Definition maps (s : pt_state) (lab : gmap Z (Z * list Z)) (x : slot) (d : Z) : Prop :=
  slot_ok lab x /\ desc_valid (leaf s x) = true /\ desc_table (leaf s x) = d.

(** Word [i] of the page mapped at [x]. *)
Definition view (s : pt_state) (x : slot) (i : Z) : Z := mem s (desc_table (leaf s x) + 8 * i).

(** The page's count covers every slot that maps it. *)
Definition counted (s : pt_state) (lab : gmap Z (Z * list Z)) (d : Z) : Prop :=
  exists pg, page_struct s d = Some pg /\ refcount pg < 65536 /\
    forall l, NoDup l -> (forall y, y ∈ l -> maps s lab y d) -> Z.of_nat (length l) <= refcount pg.

Record cow_inv (s : pt_state) (lab : gmap Z (Z * list Z)) (used : gset Z) : Prop := {
  ci_data : forall x d, maps s lab x d -> d ∈ used /\ lab !! d = None;
  ci_count : forall x d, maps s lab x d -> counted s lab d;
  ci_excl : forall x y d, maps s lab x d -> maps s lab y d -> x <> y ->
    pte_is_writable (leaf s x) = false
}.

Definition marked (s : pt_state) (d : Z) : bool :=
  match page_struct s d with Some pg => has_flag pg PTE_FLAG_COW | None => false end.

(** A store to the page succeeds, at once or, for a user page, after a
    copy-on-write fault. *)
Definition may_write (s : pt_state) (x : slot) : bool :=
  pte_is_writable (leaf s x) || (pte_is_user (leaf s x) && marked s (desc_table (leaf s x))).

Lemma maps_fun s lab x d d' : maps s lab x d -> maps s lab x d' -> d = d'.
Proof. intros (_ & _ & <-) (_ & _ & <-). done. Qed.

Lemma ci_used s lab used x d : cow_inv s lab used -> maps s lab x d -> d ∈ used.
Proof. intros Hc Hx. by destruct (ci_data _ _ _ Hc _ _ Hx). Qed.

Lemma data_page s lab fl used x d :
  pt_inv page_pool_start s lab fl used -> cow_inv s lab used -> maps s lab x d ->
  in_ram d /\ d mod 4096 = 0.
Proof.
  intros Hi Hc Hx. destruct (ci_data _ _ _ Hc _ _ Hx) as [Hu _].
  eapply inv_in_ram; [done | apply Hi | by right].
Qed.

Lemma pt_inv_core s s' lab fl used :
  pt_inv page_pool_start s lab fl used ->
  mem s' = mem s -> next_free_page s' = next_free_page s -> free_list s' = free_list s ->
  pages_cover s' -> pt_inv page_pool_start s' lab fl used.
Proof.
  intros [I0 I1 I2 I3 I4 I5] Em En El Hp. constructor; rewrite ?Em; try done.
  by eapply alloc_inv_write; [| | | intros; rewrite Em |].
Qed.

(** The invariant only depends on the leaves and the structures of the pages
    they map. *)
Section transfer.
Variables (s s' : pt_state) (lab lab' : gmap Z (Z * list Z)) (used used' : gset Z).
Hypothesis Hok : forall z, slot_ok lab' z <-> slot_ok lab z.
Hypothesis Hleaf : forall z, slot_ok lab z -> leaf s' z = leaf s z.

Lemma maps_transfer z d : maps s' lab' z d <-> maps s lab z d.
Proof. unfold maps. rewrite Hok. split; intros (Ho & Hv & Hd); rewrite (Hleaf z Ho) in *; done. Qed.

Lemma cow_transfer :
  cow_inv s lab used ->
  (forall z d, maps s lab z d -> page_struct s' d = page_struct s d /\ d ∈ used' /\ lab' !! d = None) ->
  cow_inv s' lab' used'.
Proof.
  intros [C1 C2 C3] Hdata. constructor.
  - intros z d Hz%maps_transfer. by destruct (Hdata z d Hz) as (_ & ? & ?).
  - intros z d Hz%maps_transfer. destruct (C2 _ _ Hz) as (pg & Hpg & Hlt & Hcnt). exists pg.
    rewrite (proj1 (Hdata z d Hz)). split_and!; [done | done |]. intros l Hn Hl. apply Hcnt; [done|].
    intros w Hw. by apply maps_transfer, Hl.
  - intros z w d Hz%maps_transfer Hw%maps_transfer Hne. rewrite (Hleaf z) by apply Hz. by eapply C3.
Qed.

End transfer.

(** The table that holds a valid leaf. *)
Lemma leaf_table s lab fl used r i0 i1 i2 i3 :
  pt_inv page_pool_start s lab fl used -> slot_ok lab (r, [i0; i1; i2; i3]) ->
  desc_valid (leaf s (r, [i0; i1; i2; i3])) = true ->
  let e0 := mem s (r + 8 * i0) in let e1 := mem s (desc_table e0 + 8 * i1) in
  let e2 := mem s (desc_table e1 + 8 * i2) in
  desc_valid e0 = true /\ desc_valid e1 = true /\ desc_valid e2 = true /\
  lab !! desc_table e2 = Some (r, [i0; i1; i2]) /\
  leaf s (r, [i0; i1; i2; i3]) = mem s (desc_table e2 + 8 * i3).
Proof.
  intros Hi (Hr & _ & Hx) Hv e0 e1 e2. unfold leaf in *. cbn [entry fst snd] in *.
  fold e0 in Hv |- *. destruct (desc_valid e0) eqn:E0; [|done].
  fold e1 in Hv |- *. destruct (desc_valid e1) eqn:E1; [|done].
  fold e2 in Hv |- *. destruct (desc_valid e2) eqn:E2; [|done].
  apply Forall_cons in Hx as [X0 Hx]. apply Forall_cons in Hx as [X1 Hx].
  apply Forall_cons in Hx as [X2 _].
  pose proof (pi_child _ _ _ _ _ Hi r r [] i0 Hr ltac:(simpl; lia) X0 E0) as L1.
  pose proof (pi_child _ _ _ _ _ Hi _ _ _ i1 L1 ltac:(simpl; lia) X1 E1) as L2.
  pose proof (pi_child _ _ _ _ _ Hi _ _ _ i2 L2 ltac:(simpl; lia) X2 E2) as L3.
  split_and!; try done. by destruct (desc_valid (mem s (desc_table e2 + 8 * i3))) eqn:E3.
Qed.

Lemma slot_ok_dest lab x : slot_ok lab x -> exists r i0 i1 i2 i3, x = (r, [i0; i1; i2; i3]).
Proof.
  intros (_ & Hl & _). destruct x as [r [|i0 [|i1 [|i2 [|i3 [|]]]]]]; simpl in Hl; try lia.
  by exists r, i0, i1, i2, i3.
Qed.

(** Writing the leaf [(t, i)] changes the leaf of its slot only. *)
Lemma leaf_upd s lab fl used t i r p v x :
  pt_inv page_pool_start s lab fl used -> lab !! t = Some (r, p) -> length p = 3%nat -> index_ok i ->
  desc_valid v = true -> slot_ok lab x ->
  entry (upd (mem s) (t + 8 * i) v) (fst x) (snd x) =
    if decide (x = (r, p ++ [i])) then v else leaf s x.
Proof.
  intros Hi Ht Hl Hx Hv (Hr & Hlen & Hix).
  rewrite (leaf_entry _ pool_in_ram s lab fl used t i r p v Hi Ht Hl Hx Hv (snd x) (fst x) Hr Hlen Hix).
  by destruct x as [r' ix].
Qed.

(** *** Updates of one leaf *)

Definition leaf_set (s s' : pt_state) (lab : gmap Z (Z * list Z)) (x : slot) (e : Z) : Prop :=
  forall z, slot_ok lab z -> leaf s' z = if decide (z = x) then e else leaf s z.

(** The structures of the pages in use keep their counts, [d] excepted. *)
Definition counts_kept (s s' : pt_state) (used : gset Z) (d : option Z) : Prop :=
  forall q pg, q ∈ used -> Some q <> d -> page_struct s q = Some pg ->
    exists pg', page_struct s' q = Some pg' /\ refcount pg' = refcount pg.

Lemma maps_other s s' lab x e z d :
  leaf_set s s' lab x e -> z <> x -> maps s' lab z d <-> maps s lab z d.
Proof.
  intros Hs Hz. unfold maps. split; intros (Ho & Hv & Hd); rewrite (Hs z Ho), decide_False in * by done; done.
Qed.

Lemma maps_set s s' lab x e d :
  leaf_set s s' lab x e -> maps s' lab x d -> desc_table e = d.
Proof. intros Hs (Ho & _ & Hd). by rewrite (Hs x Ho), decide_True in Hd by done. Qed.

Lemma counted_kept s s' lab used x e d :
  leaf_set s s' lab x e -> counts_kept s s' used (Some (desc_table e)) -> d <> desc_table e ->
  d ∈ used -> counted s lab d -> counted s' lab d.
Proof.
  intros Hs Hk Hd Hu (pg & Hpg & Hlt & Hc). destruct (Hk d pg) as (pg' & Hpg' & Hr); [done | congruence | done |].
  exists pg'. rewrite Hr. split_and!; [done | done |]. intros l Hn Hl. apply Hc; [done|].
  intros y Hy. specialize (Hl y Hy). destruct (decide (y = x)) as [->|Hyx].
  - apply (maps_set s s' lab x e) in Hl; [congruence | done].
  - by apply (maps_other s s' lab x e) in Hl.
Qed.

(** The leaf changes its permissions but not its page; it may become writable
    only when no other slot maps the page. *)
Lemma cow_permission s s' lab used x e d :
  cow_inv s lab used -> maps s lab x d -> leaf_set s s' lab x e ->
  desc_valid e = true -> desc_table e = d ->
  (pte_is_writable e = true -> forall y, maps s lab y d -> y = x) ->
  counts_kept s s' used None ->
  cow_inv s' lab used.
Proof.
  intros Hc Hx Hs Hv Hd Hw Hk.
  assert (Hm : forall z p, maps s' lab z p -> maps s lab z p).
  { intros z p Hz. destruct (decide (z = x)) as [->|]; [|by apply (maps_other s s' lab x e)].
    apply (maps_set s s' lab x e) in Hz; [|done]. congruence. }
  constructor.
  - intros z p Hz%Hm. by apply (ci_data _ _ _ Hc) in Hz.
  - intros z p Hz%Hm. destruct (ci_count _ _ _ Hc _ _ Hz) as (pg & Hpg & Hlt & Hl).
    destruct (Hk p pg) as (pg' & Hpg' & Hr); [by eapply ci_used | done | done |].
    exists pg'. rewrite Hr. split_and!; [done | done |]. intros l Hn Hin. apply Hl; [done|].
    intros y Hy. by apply Hm, Hin.
  - intros y z p Hy Hz Hne. pose proof (Hm _ _ Hy) as Hy'. pose proof (Hm _ _ Hz) as Hz'.
    rewrite (Hs y) by apply Hy. destruct (decide (y = x)) as [->|]; [|by eapply (ci_excl _ _ _ Hc)].
    destruct (pte_is_writable e) eqn:Ew; [|done].
    pose proof (maps_fun _ _ _ _ _ Hx Hy') as ->. destruct Hne. symmetry. by apply Hw.
Qed.

(** The leaf moves to a fresh page [c]; the page it mapped, if any, loses one
    reference. *)
Lemma cow_retarget s s' lab used x e c pgc :
  cow_inv s lab used -> leaf_set s s' lab x e ->
  desc_valid e = true -> desc_table e = c -> c ∉ used -> lab !! c = None ->
  page_struct s' c = Some pgc -> refcount pgc = 1 ->
  (forall z q pg, maps s lab z q -> q ∈ used -> page_struct s q = Some pg ->
   exists pg', page_struct s' q = Some pg' /\ refcount pg' <= refcount pg /\
     (refcount pg' = refcount pg \/ (maps s lab x q /\ refcount pg' = refcount pg - 1))) ->
  cow_inv s' lab ({[c]} ∪ used).
Proof.
  intros Hc Hs Hv He Hcu Hcl Hpc Hrc Hk.
  assert (Hm : forall z p, maps s' lab z p -> (z = x /\ p = c) \/ (z <> x /\ maps s lab z p /\ p <> c)).
  { intros z p Hz. destruct (decide (z = x)) as [->|Hzx].
    - apply (maps_set s s' lab x e) in Hz; [|done]. left. split; congruence.
    - right. apply (maps_other s s' lab x e) in Hz; [|done..]. split_and!; [done | done |].
      intros ->. by apply (ci_data _ _ _ Hc) in Hz as [? _]. }
  constructor.
  - intros z p [[-> ->] | (_ & Hz & _)]%Hm.
    + split; [by apply elem_of_union_l, elem_of_singleton | done].
    + apply (ci_data _ _ _ Hc) in Hz as [? ?]. split; [by apply elem_of_union_r | done].
  - intros z p [[-> ->] | (_ & Hz & Hpc')]%Hm.
    + exists pgc. split_and!; [done | lia |]. intros l Hn Hl. rewrite Hrc.
      destruct l as [|y1 [|y2 l]]; simpl; [lia | lia |].
      assert (y1 = x) as -> by (destruct (Hm y1 c) as [[? _] | (_ & _ & ?)]; [apply Hl; left | done..]).
      assert (y2 = x) as -> by (destruct (Hm y2 c) as [[? _] | (_ & _ & ?)]; [apply Hl; right; left | done..]).
      apply NoDup_cons in Hn as [[] _]. left.
    + destruct (ci_count _ _ _ Hc _ _ Hz) as (pg & Hpg & Hlt & Hl).
      destruct (Hk z p pg) as (pg' & Hpg' & Hle & Hr); [done | by eapply ci_used | done |].
      exists pg'. split_and!; [done | lia |]. intros l Hn Hin.
      assert (Hin' : forall y, y ∈ l -> y <> x /\ maps s lab y p).
      { intros y Hy. destruct (Hm y p (Hin y Hy)) as [[_ ?] | (? & ? & _)]; [done | split; done]. }
      destruct Hr as [-> | [Hx ->]]; [apply Hl; [done|]; intros y Hy; by apply Hin'|].
      enough (Z.of_nat (length (x :: l)) <= refcount pg) by (simpl in *; lia). apply Hl.
      * apply NoDup_cons. split; [|done]. intros Hy. by destruct (Hin' x Hy).
      * intros y [-> | Hy]%elem_of_cons; [done | by apply Hin'].
  - intros y z p Hy Hz Hne. rewrite (Hs y) by apply Hy.
    destruct (Hm y p Hy) as [[Ey Ep] | (Hyx & Hy' & Hp)];
      destruct (Hm z p Hz) as [[Ez Ep'] | (Hzx & Hz' & Hp')]; try congruence. rewrite decide_False by done. by eapply (ci_excl _ _ _ Hc).
Qed.

(** A new read-only mapping of a page that is mapped, counted. *)
Lemma cow_add s s' lab used x y0 e d :
  cow_inv s lab used -> leaf_set s s' lab x e -> desc_valid (leaf s x) = false ->
  maps s lab y0 d -> desc_valid e = true -> desc_table e = d -> pte_is_writable e = false ->
  (forall z, maps s lab z d -> pte_is_writable (leaf s z) = false) ->
  counts_kept s s' used (Some d) ->
  (forall pg, page_struct s d = Some pg -> exists pg', page_struct s' d = Some pg' /\
     refcount pg' = refcount pg + 1 /\ refcount pg + 1 < 65536) ->
  cow_inv s' lab used.
Proof.
  intros Hc Hs Hinv Hy0 Hv He Hro Hall Hk Hd.
  assert (Hm : forall z p, maps s' lab z p -> (z = x /\ p = d) \/ (z <> x /\ maps s lab z p)).
  { intros z p Hz. destruct (decide (z = x)) as [->|Hzx].
    - apply (maps_set s s' lab x e) in Hz; [|done]. left. split; congruence.
    - right. by apply (maps_other s s' lab x e) in Hz. }
  destruct (ci_data _ _ _ Hc _ _ Hy0) as [Hdu Hdl].
  assert (Hcd : counted s' lab d).
  { destruct (ci_count _ _ _ Hc _ _ Hy0) as (pg & Hpg & Hlt & Hl).
    destruct (Hd pg Hpg) as (pg' & Hpg' & Hr & Hb). exists pg'. split_and!; [done | lia |].
    intros l Hn Hin. rewrite Hr. destruct (decide (x ∈ l)) as [Hxl|Hxl].
    - apply elem_of_Permutation in Hxl as [l' Hp]. rewrite Hp in Hn |- *.
      apply NoDup_cons in Hn as [Hxl' Hn]. simpl. specialize (Hl l' Hn).
      enough (Z.of_nat (length l') <= refcount pg) by lia. apply Hl. intros y Hy.
      destruct (Hm y d) as [[-> _] | [_ ?]]; [apply Hin; rewrite Hp; by right | done | done].
    - specialize (Hl l Hn). enough (Z.of_nat (length l) <= refcount pg) by lia. apply Hl. intros y Hy.
      destruct (Hm y d (Hin y Hy)) as [[-> _] | [_ ?]]; done. }
  constructor.
  - intros z p [[-> ->] | (_ & Hz)]%Hm; [done|]. by apply (ci_data _ _ _ Hc) in Hz.
  - intros z p Hz. destruct (decide (p = d)) as [->|Hp]; [done|].
    destruct (Hm z p Hz) as [[-> ->] | (Hzx & Hz')]; [done|].
    eapply (counted_kept s s' lab used x e); [done | by rewrite He | by rewrite He | |
      by eapply (ci_count _ _ _ Hc)]. by eapply ci_used.
  - intros y z p Hy Hz Hne. rewrite (Hs y) by apply Hy. case_decide as Hyx; [done|].
    destruct (Hm y p Hy) as [[? _] | (_ & Hy')]; [done|].
    destruct (Hm z p Hz) as [[-> ->] | (Hzx & Hz')]; [by apply Hall|]. by eapply (ci_excl _ _ _ Hc).
Qed.

(** *** The permission-fault handler *)

Lemma permission_fault_walk s lab fl used r far :
  pt_inv page_pool_start s lab fl used -> is_root lab r -> Z.shiftr far 48 <> 0xFFFF ->
  desc_valid (leaf s (r, indices far)) = true ->
  exists t, lab !! t = Some (r, [table_index far 39; table_index far 30; table_index far 21]) /\
    leaf s (r, indices far) = mem s (t + 8 * table_index far 12) /\
    permission_fault page_pool_start true true far (Some r) s =
      cow_write_fault page_pool_start (t + 8 * table_index far 12) s.
Proof.
  intros Hi Hr Hfar Hv.
  destruct (leaf_table s lab fl used r _ _ _ _ Hi (conj Hr (conj eq_refl (indices_ok far))) Hv)
    as (E0 & E1 & E2 & Ht & El).
  eexists. split_and!; [exact Ht | exact El |]. unfold indices in Hv. rewrite El in Hv.
  unfold permission_fault. cbn [negb]. rewrite (proj2 (Z.eqb_neq _ _) Hfar).
  unfold rd, fetch, mbind at 1, stM_bind at 1. rewrite E0. cbn [negb].
  unfold mbind at 1, stM_bind at 1. rewrite E1. cbn [negb].
  unfold mbind at 1, stM_bind at 1. rewrite E2. cbn [negb].
  unfold mbind at 1, stM_bind at 1. by rewrite Hv.
Qed.

(** What handling a fault at [x] guarantees: the leaf is writable and shows
    the same contents, and no other slot notices. *)
Record fault_post (s s' : pt_state) (lab : gmap Z (Z * list Z)) (used' : gset Z) (x : slot) : Prop := {
  fp_inv : exists fl', pt_inv page_pool_start s' lab fl' used';
  fp_cow : cow_inv s' lab used';
  fp_valid : desc_valid (leaf s' x) = true;
  fp_user : pte_is_user (leaf s' x) = true;
  fp_writable : pte_is_writable (leaf s' x) = true;
  fp_view : forall i, index_ok i -> view s' x i = view s x i;
  fp_leaves : forall y, slot_ok lab y -> y <> x -> leaf s' y = leaf s y;
  fp_views : forall y i, maps s lab y (desc_table (leaf s y)) -> y <> x -> index_ok i ->
    view s' y i = view s y i;
  fp_may_write : forall y, maps s lab y (desc_table (leaf s y)) -> y <> x ->
    may_write s' y = may_write s y;
  fp_page : desc_table (leaf s' x) = desc_table (leaf s x) \/
    forall z, ~ maps s lab z (desc_table (leaf s' x));
  fp_pages : pages s' <> None
}.

(** Slots of a table and words of a data page are different memory. *)
Lemma data_not_slot s lab fl used x d t r p i j :
  pt_inv page_pool_start s lab fl used -> cow_inv s lab used -> maps s lab x d ->
  lab !! t = Some (r, p) -> index_ok i -> index_ok j -> d + 8 * j <> t + 8 * i.
Proof.
  intros Hi Hc Hx Ht Hii Hj E. destruct (table_page _ pool_in_ram _ _ _ _ _ _ Hi Ht) as [_ Hta].
  destruct (data_page s lab fl used x d Hi Hc Hx) as [_ Hda].
  apply slot_inj in E as [-> _]; try done.
  destruct (ci_data _ _ _ Hc _ _ Hx) as [_ Hl]. congruence.
Qed.

(** The sole owner: the page stays, its mark is cleared. *)
Lemma sole_owner_post s s' lab fl used t i r p pg pg' :
  pt_inv page_pool_start s lab fl used -> cow_inv s lab used ->
  lab !! t = Some (r, p) -> length p = 3%nat -> index_ok i ->
  let x := (r, p ++ [i]) in let e := leaf s x in
  slot_ok lab x -> desc_valid e = true ->
  page_struct s (desc_table e) = Some pg -> refcount pg <= 1 ->
  mem s' = upd (mem s) (t + 8 * i) (pte_set_writable e) ->
  next_free_page s' = next_free_page s -> free_list s' = free_list s -> pages_cover s' ->
  page_struct s' (desc_table e) = Some pg' -> refcount pg' = refcount pg ->
  (forall q, in_ram q -> q mod 4096 = 0 -> q <> desc_table e -> page_struct s' q = page_struct s q) ->
  fault_post s s' lab used x.
Proof.
  intros Hi Hc Ht Hl Hx x e Hox Hv Hpg Hrc Hmem Hnf Hfl Hcov Hpg' Hrc' Hoth.
  assert (Hxm : maps s lab x (desc_table e)) by by split_and!.
  assert (Hvw : desc_valid (pte_set_writable e) = true) by by rewrite set_writable_valid.
  assert (Hdt : desc_table (pte_set_writable e) = desc_table e)
    by apply desc_table_addr, set_writable_addr.
  assert (Hs : leaf_set s s' lab x (pte_set_writable e)).
  { intros z Hz. unfold leaf at 1. rewrite Hmem. by eapply leaf_upd. }
  assert (Hlx : leaf s' x = pte_set_writable e) by by rewrite (Hs x Hox), decide_True.
  assert (Hsole : forall y, maps s lab y (desc_table e) -> y = x).
  { intros y Hy. destruct (decide (y = x)) as [|Hne]; [done|].
    destruct (ci_count _ _ _ Hc _ _ Hxm) as (pg1 & Hpg1 & _ & Hcnt). simplify_eq.
    specialize (Hcnt [x; y]). simpl in Hcnt. enough (Z.of_nat 2 <= refcount pg) by lia. apply Hcnt.
    - apply NoDup_cons. split; [by intros ?%list_elem_of_singleton | apply NoDup_singleton].
    - intros z [-> | ->%list_elem_of_singleton]%elem_of_cons; done. }
  assert (Hmd : forall y j, maps s lab y (desc_table (leaf s y)) -> index_ok j ->
            mem s' (desc_table (leaf s y) + 8 * j) = view s y j).
  { intros y j Hy Hj. rewrite Hmem. unfold view. apply upd_ne. by eapply data_not_slot. }
  constructor.
  - exists fl. pose proof (leaf_inv _ pool_in_ram s lab fl used t i r p (pte_set_writable e) Hi Ht Hl Hx).
    by eapply pt_inv_core.
  - eapply (cow_permission s s' lab used x _ (desc_table e)); try done.
    intros q pgq Hq _ Hpgq. destruct (decide (q = desc_table e)) as [->|Hqd].
    { exists pg'. split; [done|]. congruence. }
    exists pgq. split; [|done]. rewrite Hoth; [done | | | done].
    all: by destruct (inv_in_ram _ pool_in_ram _ _ _ q (pi_alloc _ _ _ _ _ Hi)); [by right|].
  - by rewrite Hlx.
  - by rewrite Hlx, set_writable_user.
  - by rewrite Hlx, set_writable_rw.
  - intros j Hj. unfold view at 1. rewrite Hlx, Hdt. by apply (Hmd x).
  - intros y Hy Hne. by rewrite (Hs y Hy), decide_False.
  - intros y j Hy Hne Hj. unfold view at 1. rewrite (Hs y) by apply Hy. rewrite decide_False by done.
    by apply Hmd.
  - intros y Hy Hne. unfold may_write, marked. rewrite (Hs y) by apply Hy.
    rewrite decide_False by done. destruct (data_page s lab fl used y _ Hi Hc Hy) as [Hr Ha].
    rewrite Hoth; [done | done | done |]. intros E. destruct Hne. apply Hsole. by rewrite <- E.
  - left. by rewrite Hlx, Hdt.
  - intros E. unfold page_struct in Hpg'. by rewrite E in Hpg'.
Qed.

(** A page allocated and filled changes no table. *)
Lemma filled_step s s' lab fl fl' used c (f : Z -> Z) :
  pt_inv page_pool_start s lab fl used -> c ∉ used -> in_ram c -> c mod 4096 = 0 ->
  (forall a, mem s' a = if word_of c a then f a else mem s a) ->
  (forall q, q ∈ used -> page_struct s' q = page_struct s q) ->
  (pages s <> None -> pages s' <> None) ->
  alloc_inv page_pool_start s' fl' ({[c]} ∪ used) ->
  table_step page_pool_start s s' lab lab used ({[c]} ∪ used).
Proof.
  intros Hi Hcu Hcr Hca Hm Hps Hpn Ha.
  eapply alloc_table_step; [done | done | apply union_subseteq_r | | done | done].
  intros q i Hq Hx. rewrite Hm, word_of_other; try done.
  - by destruct (inv_in_ram _ pool_in_ram _ _ _ q (pi_alloc _ _ _ _ _ Hi)); [by right|].
  - by intros ->.
Qed.

Lemma step_leaf s s' lab lab' used used' x :
  table_step page_pool_start s s' lab lab' used used' -> slot_ok lab x -> leaf s' x = leaf s x.
Proof. intros T (Hr & Hl & Hx). by apply (ts_same _ _ _ _ _ _ _ T (snd x) (fst x) (fst x) []). Qed.

(** Several owners: the page is copied to [c]. *)
Lemma copied_post s s' lab fl fl' used t i r p pg pgd pgc c m3 v :
  pt_inv page_pool_start s lab fl used -> cow_inv s lab used ->
  lab !! t = Some (r, p) -> length p = 3%nat -> index_ok i ->
  let x := (r, p ++ [i]) in let e := leaf s x in
  slot_ok lab x -> desc_valid e = true ->
  c ∉ used -> in_ram c -> c mod 4096 = 0 ->
  (forall a, m3 a = if word_of c a then mem s (desc_table e + (a - c)) else mem s a) ->
  alloc_inv page_pool_start (set_mem m3 s') fl' ({[c]} ∪ used) ->
  desc_valid v = true -> desc_table v = c ->
  mem s' = upd (upd m3 (t + 8 * i) v) (t + 8 * i) (pte_set_writable v) ->
  page_struct s (desc_table e) = Some pg ->
  page_struct s' (desc_table e) = Some pgd -> refcount pgd = refcount pg - 1 -> flags pgd = flags pg ->
  page_struct s' c = Some pgc -> refcount pgc = 1 ->
  (forall q, q ∈ used -> q <> desc_table e -> page_struct s' q = page_struct s q) ->
  fault_post s s' lab ({[c]} ∪ used) x.
Proof.
  intros Hi Hc Ht Hl Hx x e Hox Hv Hcu Hcr Hca Hm3 Ha Hvv Hvc Hmem Hpg Hpgd Hrd Hfd Hpgc Hrc Hoth.
  assert (Hxm : maps s lab x (desc_table e)) by by split_and!.
  assert (Hlc : lab !! c = None).
  { destruct (lab !! c) as [[r' p']|] eqn:E; [|done]. by destruct (pi_used _ _ _ _ _ Hi _ _ _ E). }
  assert (T : table_step page_pool_start s (set_pages (pages s) (set_mem m3 s')) lab lab used ({[c]} ∪ used)).
  { apply (filled_step _ _ lab fl fl' used c (fun a => mem s (desc_table e + (a - c)))); try done.
    by eapply alloc_inv_write; [exact Ha | | | | apply Hi]. }
  destruct (ts_inv _ _ _ _ _ _ _ T) as [fl3 Hi3]. set (s3 := set_pages _ _) in *.
  pose proof (leaf_inv _ pool_in_ram s3 lab fl3 _ t i r p v Hi3 Ht Hl Hx) as Hi4.
  set (s4 := set_mem _ s3) in *.
  pose proof (leaf_inv _ pool_in_ram s4 lab fl3 _ t i r p (pte_set_writable v) Hi4 Ht Hl Hx) as Hi5.
  assert (Hvw : desc_valid (pte_set_writable v) = true) by by rewrite set_writable_valid.
  assert (Hdt : desc_table (pte_set_writable v) = c)
    by (rewrite <- Hvc; apply desc_table_addr, set_writable_addr).
  assert (Hs : leaf_set s s' lab x (pte_set_writable v)).
  { intros z Hz. unfold leaf at 1. rewrite Hmem.
    etrans; [exact (leaf_upd s4 lab fl3 _ t i r p _ z Hi4 Ht Hl Hx Hvw Hz)|]. fold x.
    destruct (decide (z = x)) as [|Hzx]; [done|].
    etrans; [exact (leaf_upd s3 lab fl3 _ t i r p _ z Hi3 Ht Hl Hx Hvv Hz)|].
    rewrite decide_False by done. by eapply step_leaf. }
  assert (Hlx : leaf s' x = pte_set_writable v) by by rewrite (Hs x Hox), decide_True.
  assert (Hnt : forall q j, q ∈ ({[c]} ∪ used) -> lab !! q = None -> index_ok j ->
            mem s' (q + 8 * j) = m3 (q + 8 * j)).
  { intros q j Hq Hlq Hj. rewrite Hmem.
    destruct (table_page _ pool_in_ram _ _ _ _ _ _ Hi Ht) as [_ Hta].
    destruct (inv_in_ram _ pool_in_ram _ _ _ q Ha) as [_ Hqa]; [by right|].
    rewrite !upd_ne; [done | |]; intros E; apply slot_inj in E as [-> _]; try done; congruence. }
  assert (Hmd : forall y j, maps s lab y (desc_table (leaf s y)) -> index_ok j ->
            mem s' (desc_table (leaf s y) + 8 * j) = view s y j).
  { intros y j Hy Hj. destruct (ci_data _ _ _ Hc _ _ Hy) as [Hyu Hyl].
    destruct (data_page s lab fl used y _ Hi Hc Hy) as [_ Hya].
    rewrite Hnt by (done || by apply elem_of_union_r). rewrite Hm3, word_of_other; try done.
    by intros ->. }
  constructor.
  - exists fl3. eapply pt_inv_core; [exact Hi5 | done | done | done |].
    apply (ai_pages _ _ _ _ Ha).
  - eapply (cow_retarget s s' lab used x); try done.
    intros z q pgq _ Hq Hpgq. destruct (decide (q = desc_table e)) as [->|Hqd].
    + exists pgd. simplify_eq. split_and!; [done | lia | right; by split].
    + exists pgq. rewrite (Hoth q Hq Hqd). split_and!; [done | lia | by left].
  - by rewrite Hlx.
  - by rewrite Hlx, set_writable_user.
  - by rewrite Hlx, set_writable_rw.
  - intros j Hj. unfold view. rewrite Hlx, Hdt.
    rewrite Hnt by (done || by apply elem_of_union_l, elem_of_singleton).
    rewrite Hm3, word_of_idx by done. f_equal. fold e. lia.
  - intros y Hy Hne. by rewrite (Hs y Hy), decide_False.
  - intros y j Hy Hne Hj. unfold view at 1. rewrite (Hs y) by apply Hy. rewrite decide_False by done.
    by apply Hmd.
  - intros y Hy Hne. unfold may_write, marked. rewrite (Hs y) by apply Hy. rewrite decide_False by done.
    destruct (decide (desc_table (leaf s y) = desc_table e)) as [Ey|Ey].
    + rewrite Ey, Hpgd, Hpg. unfold has_flag. by rewrite Hfd.
    + rewrite Hoth; [done | by eapply ci_used | done].
  - right. intros z Hz. rewrite Hlx, Hdt in Hz. by apply Hcu, (ci_used _ _ _ _ _ Hc Hz).
  - intros E. unfold page_struct in Hpgc. by rewrite E in Hpgc.
Qed.

Lemma wp_note_cow_fault s (Q : unit -> pt_state -> Prop) :
  (forall s', core_eq s s' -> Q tt s') -> wp page_table_note_cow_fault Q s.
Proof. intros HQ. do 3 apply wp_bind, wp_modify. apply wp_modify, HQ. by split_and!. Qed.

Lemma wp_sole_owner s lab fl used t i r p pg :
  pt_inv page_pool_start s lab fl used -> cow_inv s lab used ->
  lab !! t = Some (r, p) -> length p = 3%nat -> index_ok i ->
  let x := (r, p ++ [i]) in let e := leaf s x in let d := desc_table e in
  slot_ok lab x -> desc_valid e = true -> e = mem s (t + 8 * i) ->
  page_struct s d = Some pg -> refcount pg <= 1 ->
  forall s1, core_eq s s1 ->
  wp (_ ← pte_clear_cow_and_make_writable (t + 8 * i);
      _ ← pte_clear_cow_flag (Z.land e PTE_ADDR_MASK) PTE_FLAG_COW;
      page_table_note_tlb_flush)
    (fun _ s' => fault_post s s' lab used x) s1.
Proof.
  intros Hi Hc Ht Hl Hx x e d Hox Hv He Hpg Hrc s1 (Em1 & Eg1 & En1 & Ef1).
  assert (Hxm : maps s lab x d) by by split_and!.
  destruct (data_page s lab fl used x d Hi Hc Hxm) as [Hdr Hda].
  destruct (table_page _ pool_in_ram _ _ _ _ _ _ Hi Ht) as [Htr _].
  rewrite (desc_pa e d Hdr eq_refl).
  assert (Hpg1 : page_struct s1 d = Some pg) by (unfold page_struct; by rewrite Eg1).
  apply wp_bind. unfold pte_clear_cow_and_make_writable.
  rewrite (proj2 (Z.eqb_neq _ 0)) by (unfold in_ram, KERNEL_VA_BASE, index_ok in *; lia).
  apply wp_bind, wp_fetch. rewrite Em1, <- He, (desc_pa e d Hdr eq_refl).
  apply wp_bind. eapply wp_clear_flag; [done | exact Hpg1 |]. intros s2 Hs2.
  apply wp_modify. set (pg2 := mkPage _ _) in Hs2.
  assert (Hpg2 : page_struct s2 d = Some pg2)
    by (rewrite (page_struct_core _ _ _ Hs2); by eapply with_page_eq).
  apply wp_bind. eapply (wp_clear_flag d pg2); [done | done |]. intros s4 Hs4.
  apply wp_modify. pose proof Hs2 as (Em2 & Eg2 & En2 & Ef2). pose proof Hs4 as (Em4 & Eg4 & En4 & Ef4).
  simpl in *. eapply (sole_owner_post s _ lab fl used t i r p pg
    (mkPage (refcount pg2) (Z.ldiff (flags pg2) PTE_FLAG_COW)));
    try done; simpl; try congruence.
  - by rewrite Em4, Em2, Em1.
  - eapply (pages_cover_insert s2); [|exact Eg4]. eapply (pages_cover_insert s1); [|exact Eg2].
    intros l'. rewrite Eg1. apply (ai_pages _ _ _ _ (pi_alloc _ _ _ _ _ Hi)).
  - unfold page_struct. simpl. rewrite Eg4. exact (with_page_eq s2 d pg2 _ Hpg2).
  - intros q Hq Hqa Hqd. unfold page_struct at 1. simpl. rewrite Eg4.
    etrans; [exact (with_page_ne s2 d q _ Hdr Hq Hda Hqa (not_eq_sym Hqd))|].
    rewrite (page_struct_core _ _ _ Hs2). rewrite with_page_ne by done.
    unfold page_struct. by rewrite Eg1.
Qed.

Lemma wp_copy_owner s lab fl used t i r p pg :
  pt_inv page_pool_start s lab fl used -> cow_inv s lab used ->
  lab !! t = Some (r, p) -> length p = 3%nat -> index_ok i ->
  let x := (r, p ++ [i]) in let e := leaf s x in let d := desc_table e in
  slot_ok lab x -> desc_valid e = true -> e = mem s (t + 8 * i) ->
  page_struct s d = Some pg -> 1 < refcount pg < 65536 ->
  forall c s2 fl', c ∉ used -> in_ram c -> c mod 4096 = 0 -> fresh_page s s2 c ->
  alloc_inv page_pool_start s2 fl' ({[c]} ∪ used) ->
  wp (ok ← copy_phys_page (Z.land e PTE_ADDR_MASK) (kernel_phys_addr c);
      if ok =? 0 then _ ← free_page c; fatal else
      _ ← page_table_note_cow_copy;
      _ ← dec_pte_refcount_pa (Z.land e PTE_ADDR_MASK);
      _ ← wr (t + 8 * i) (Z.lor (Z.land (kernel_phys_addr c) PTE_ADDR_MASK)
                            (Z.land e (not64 PTE_ADDR_MASK)));
      _ ← pte_clear_cow_and_make_writable (t + 8 * i);
      page_table_note_tlb_flush)
    (fun _ s' => fault_post s s' lab ({[c]} ∪ used) x) s2.
Proof.
  intros Hi Hc Ht Hl Hx x e d Hox Hv He Hpg Hrc c s2 fl' Hcu Hcr Hca Hfr Ha.
  assert (Hxm : maps s lab x d) by by split_and!.
  destruct (data_page s lab fl used x d Hi Hc Hxm) as [Hdr Hda].
  destruct (table_page _ pool_in_ram _ _ _ _ _ _ Hi Ht) as [Htr Hta].
  pose proof (ci_used _ _ _ _ _ Hc Hxm) as Hdu.
  assert (Hcd : c <> d) by (by intros ->).
  destruct (fresh_used_kept _ pool_in_ram s s2 fl used c (pi_alloc _ _ _ _ _ Hi)) as [_ Hkept]; try done.
  assert (Hpgc : page_struct s2 c = Some (mkPage 1 0)).
  { eapply (page_struct_insert_eq s); [done | apply (ai_pages _ _ _ _ (pi_alloc _ _ _ _ _ Hi)) | | apply Hfr].
    intros E. unfold page_struct in Hpg. by rewrite E in Hpg. }
  apply wp_bind, wp_copy_phys_page; rewrite ?direct_phys by done; [done | done | by apply not_eq_sym |].
  intros m3 Hm3. cbn [Z.eqb]. apply wp_bind, wp_modify.
  rewrite (desc_pa e d Hdr eq_refl). apply wp_bind.
  assert (Hpg2 : page_struct s2 d = Some pg) by by rewrite Hkept.
  eapply (wp_dec_refcount d pg); [done | exact Hpg2 | done |]. intros s5 Hs5.
  apply wp_bind, wp_modify, wp_bind. fold (moved_desc (kernel_phys_addr c) e).
  set (v := moved_desc _ e).
  assert (Hvc : desc_table v = c) by (apply phys_desc_table; [done | done | apply moved_desc_addr]).
  assert (Hvv : desc_valid v = true) by by unfold v; rewrite moved_desc_valid.
  unfold pte_clear_cow_and_make_writable.
  rewrite (proj2 (Z.eqb_neq _ 0)) by (unfold in_ram, KERNEL_VA_BASE, index_ok in *; lia).
  apply wp_bind, wp_fetch. cbn [mem set_mem]. rewrite upd_eq, (desc_pa v c Hcr Hvc).
  apply wp_bind.
  assert (Hpgc5 : page_struct s5 c = Some (mkPage 1 0)).
  { rewrite (page_struct_core _ _ _ Hs5). rewrite with_page_ne by (done || by apply not_eq_sym). done. }
  eapply (wp_clear_flag c (mkPage 1 0)); [done | exact Hpgc5 |]. intros s7 Hs7.
  apply wp_modify, wp_modify.
  destruct Hs5 as (Em5 & Eg5 & En5 & Ef5). destruct Hs7 as (Em7 & Eg7 & En7 & Ef7). simpl in *.
  assert (Hq7 : forall q, in_ram q -> q mod 4096 = 0 -> q <> c -> page_struct s7 q = page_struct s5 q).
  { intros q Hq Hqa Hqc. unfold page_struct at 1. rewrite Eg7.
    exact (with_page_ne s5 c q _ Hcr Hq Hca Hqa (not_eq_sym Hqc)). }
  assert (Hq5 : forall q, in_ram q -> q mod 4096 = 0 -> q <> d -> page_struct s5 q = page_struct s2 q).
  { intros q Hq Hqa Hqd. unfold page_struct at 1. rewrite Eg5.
    exact (with_page_ne s2 d q _ Hdr Hq Hda Hqa (not_eq_sym Hqd)). }
  eapply (copied_post s _ lab fl fl' used t i r p pg (mkPage (refcount pg - 1) (flags pg))
            (mkPage 1 0) c m3 v); try done; simpl.
  - intros a. rewrite Hm3. fold (desc_table e). fold d. destruct Hfr as [Hm _].
    destruct (word_of c a) eqn:Ew; rewrite Hm; [|by rewrite Ew].
    apply word_of_inv in Ew as (j & Hj & ->). replace (d + (c + 8 * j - c)) with (d + 8 * j) by lia.
    rewrite word_of_other by done. f_equal. unfold d, e, x. lia.
  - eapply alloc_inv_write; [exact Ha | by simpl; congruence | by simpl; congruence | |].
    + intros q Hq. simpl. rewrite Hm3. rewrite word_of_page; try done.
      * by destruct (inv_in_ram _ pool_in_ram _ _ _ q Ha); [by left|].
      * intros ->. apply (ai_disjoint _ _ _ _ Ha q Hq). by apply elem_of_union_l, elem_of_singleton.
    + eapply (pages_cover_insert s5); [|exact Eg7]. eapply (pages_cover_insert s2); [|exact Eg5].
      apply (ai_pages _ _ _ _ Ha).
  - by rewrite Em7, Em5.
  - etrans; [apply (Hq7 d); [done | done | by apply not_eq_sym]|]. unfold page_struct. rewrite Eg5.
    exact (with_page_eq s2 d pg _ Hpg2).
  - unfold page_struct. simpl. rewrite Eg7. exact (with_page_eq s5 c _ _ Hpgc5).
  - intros q Hq Hqd. destruct (inv_in_ram _ pool_in_ram _ _ _ q (pi_alloc _ _ _ _ _ Hi)) as [Hqr Hqa]; [by right|].
    etrans; [apply (Hq7 q); [done | done | by intros ->]|]. rewrite Hq5 by done. by apply Hkept.
Qed.

(** Pages are left for a copy. *)
Definition has_room (s : pt_state) : Prop := ~ exhausted page_pool_start s.

Lemma wp_permission_fault s lab fl used r far :
  pt_inv page_pool_start s lab fl used -> cow_inv s lab used -> has_room s ->
  is_root lab r -> Z.shiftr far 48 <> 0xFFFF ->
  let x := (r, indices far) in
  desc_valid (leaf s x) = true -> pte_is_user (leaf s x) = true ->
  marked s (desc_table (leaf s x)) = true ->
  wp (permission_fault page_pool_start true true far (Some r))
    (fun _ s' => exists used', used ⊆ used' /\ fault_post s s' lab used' x) s.
Proof.
  intros Hi Hc Hroom Hr Hfar x Hv Hu Hmk.
  destruct (permission_fault_walk s lab fl used r far Hi Hr Hfar Hv) as (t & Ht & El & Ew).
  set (p3 := [_; _; _]) in Ht.
  unfold wp. rewrite Ew. fold (wp (cow_write_fault page_pool_start (t + 8 * table_index far 12))
    (fun _ s' => exists used', used ⊆ used' /\ fault_post s s' lab used' x) s). clear Ew.
  assert (Hox : slot_ok lab x) by (split_and!; [done | done | apply indices_ok]).
  assert (Hxm : maps s lab x (desc_table (leaf s x))) by by split_and!.
  assert (Hx : index_ok (table_index far 12)) by (apply table_index_range; lia).
  destruct (data_page s lab fl used x _ Hi Hc Hxm) as [Hdr Hda].
  destruct (ci_count _ _ _ Hc _ _ Hxm) as (pg & Hpg & Hlt & _).
  unfold marked in Hmk. rewrite Hpg in Hmk. fold x in El.
  apply wp_bind, wp_fetch. rewrite <- El, Hv, Hu. cbn [negb].
  rewrite (desc_pa _ _ Hdr eq_refl). apply wp_bind.
  eapply (wp_test_flag _ pg); [done | done |]. rewrite Hmk. cbn [negb].
  apply wp_bind, wp_note_cow_fault. intros s1 Hs1.
  assert (Hpg1 : page_struct s1 (desc_table (leaf s x)) = Some pg) by by rewrite (page_struct_core s).
  apply wp_bind. eapply (wp_get_refcount _ pg); [done | done |]. destruct (Z.ltb_spec 1 (refcount pg)).
  - pose proof Hs1 as (Em1 & Eg1 & En1 & Ef1).
    assert (Hi1 : alloc_inv page_pool_start s1 fl used).
    { eapply alloc_inv_write; [apply Hi | done | done | by rewrite Em1 |].
      eapply pages_cover_core; [done | apply (ai_pages _ _ _ _ (pi_alloc _ _ _ _ _ Hi))]. }
    apply wp_bind. eapply wp_mono; [by apply (wp_alloc_page _ pool_in_ram s1 fl used)|].
    intros c s2 [(-> & Ha & _ & _ & -> & _ & Hf) | (Hc0 & Hcu & Hcr & Hca & [Hf1 Hf2] & fl' & Ha)].
    + destruct Hroom. split; [apply (ai_chain _ _ _ _ (pi_alloc _ _ _ _ _ Hi))|].
      rewrite <- Hf. unfold frontier. by rewrite En1.
    + rewrite (proj2 (Z.eqb_neq _ _) Hc0). rewrite <- (desc_pa _ _ Hdr eq_refl).
      eapply wp_mono; [eapply (wp_copy_owner s lab fl used t (table_index far 12) r p3 pg); try done|].
      { split; [by rewrite <- Em1 | by rewrite <- Eg1]. }
      intros ? s' Hp. exists ({[c]} ∪ used). split; [apply union_subseteq_r | done].
  - rewrite <- (desc_pa _ _ Hdr eq_refl).
    eapply wp_mono; [by eapply (wp_sole_owner s lab fl used t (table_index far 12) r p3 pg)|].
    intros ? s' Hp. exists used. done.
Qed.

End isolation.
