(* ===== verification/Fork.v ===== *)
(** * Copying an address space

    The correctness of the table copy of [cpy_address_space]
    (kernel/scheduler/process.c): after it, every page of the parent has the
    same contents in the parent and in the child, no page is writable through
    both, and every page that could be written can still be written, through a
    copy-on-write fault.  The last section states this for whole histories of
    mappings, forks and stores: address spaces behave as private copies. *)

From S2P Require Import Prelude PageAlloc PageTable Cow.

Section fork.
Variable page_pool_start : Z.
Hypothesis pool_in_ram : KERNEL_VA_BASE < page_pool_start <= RAM_end.

(** Within one address space, a page is mapped at one place. *)
Definition once (s : pt_state) (lab : gmap Z (Z * list Z)) : Prop :=
  forall x y d, maps s lab x d -> maps s lab y d -> fst x = fst y -> x = y.

(** ** Copying one leaf *)

(** The effect of copying the leaf at [x] to the slot [y]: [e1] and [e2] are
    the descriptors left at [x] and [y]. *)
Record leaf_copied (s s' : pt_state) (lab : gmap Z (Z * list Z)) (used used' : gset Z)
    (x y : slot) (e1 e2 : Z) : Prop := {
  lc_pt : exists fl, pt_inv page_pool_start s' lab fl used';
  lc_cow : cow_inv s' lab used';
  lc_used : used ⊆ used';
  lc_leaf : forall z, slot_ok lab z -> leaf s' z =
    if decide (z = y) then e2 else if decide (z = x) then e1 else leaf s z;
  lc_parent : desc_valid e1 = true /\ desc_table e1 = desc_table (leaf s x) /\
    pte_is_user e1 = pte_is_user (leaf s x);
  lc_child : desc_valid e2 = true /\ pte_is_user e2 = pte_is_user (leaf s x) /\
    (pte_is_user e2 = true -> desc_table e2 = desc_table (leaf s x)) /\
    (pte_is_user e2 = false -> desc_table e2 ∉ used);
  lc_child_view : forall i, index_ok i -> view s' y i = view s x i;
  lc_child_write : may_write s' y = may_write s x;
  lc_mem : forall q i, q ∈ used -> lab !! q = None -> index_ok i -> mem s' (q + 8 * i) = mem s (q + 8 * i);
  lc_tables : forall t rt q i, lab !! t = Some (rt, q) -> (length q < 3)%nat -> index_ok i ->
    mem s' (t + 8 * i) = mem s (t + 8 * i);
  lc_write : forall z d, maps s lab z d -> z <> y -> may_write s' z = may_write s z;
  lc_pages : pages s' <> None;
  lc_refs : forall q pg, q ∈ used' -> page_struct s' q = Some pg -> q <> desc_table e2 ->
    q ∈ used /\ exists pg0, page_struct s q = Some pg0 /\ refcount pg = refcount pg0
}.

(** The leaf of a labelled last-level table. *)
Lemma table_leaf s lab fl used t r p i :
  pt_inv page_pool_start s lab fl used -> lab !! t = Some (r, p) ->
  leaf s (r, p ++ [i]) = if desc_valid (mem s (t + 8 * i)) then mem s (t + 8 * i) else 0.
Proof. intros Hi Ht. unfold leaf. simpl. by rewrite (labelled_entry page_pool_start s lab fl used r p t i []). Qed.

Section leaf.
Variables (s : pt_state) (lab : gmap Z (Z * list Z)) (fl : list Z) (used : gset Z).
Variables (tr tc r c l : Z) (p : list Z).
Hypothesis Hi : pt_inv page_pool_start s lab fl used.
Hypothesis Hc : cow_inv s lab used.
Hypothesis Hr : is_root lab r.
Hypothesis Hcr : is_root lab c.
Hypothesis Hrc : r <> c.
Hypothesis Htr : lab !! tr = Some (r, p).
Hypothesis Htc : lab !! tc = Some (c, p).
Hypothesis Hl : length p = 3%nat.
Hypothesis Hp : Forall index_ok p.
Hypothesis Hx : index_ok l.
Hypothesis Hold : desc_valid (leaf s (c, p ++ [l])) = false.

Let x : slot := (r, p ++ [l]).
Let y : slot := (c, p ++ [l]).
Let e : Z := mem s (tr + 8 * l).
Let d : Z := desc_table e.
Hypothesis Hv : desc_valid e = true.

Lemma copy_x_ok : slot_ok lab x.
Proof.
  split_and!; [done | simpl; rewrite length_app, Hl; done |].
  apply Forall_app. split; [done | by apply Forall_singleton].
Qed.

Lemma copy_y_ok : slot_ok lab y.
Proof.
  split_and!; [done | simpl; rewrite length_app, Hl; done |].
  apply Forall_app. split; [done | by apply Forall_singleton].
Qed.

Lemma copy_leaf : leaf s x = e.
Proof. unfold x. rewrite (table_leaf s lab fl used tr) by done. fold e. by rewrite Hv. Qed.

Lemma copy_maps : maps s lab x d.
Proof. split_and!; [apply copy_x_ok | by rewrite copy_leaf | by rewrite copy_leaf]. Qed.

Lemma copy_ne : y <> x.
Proof. unfold x, y. intros [=]. congruence. Qed.

Lemma copy_data : in_ram d /\ d mod 4096 = 0 /\ d ∈ used /\ lab !! d = None.
Proof.
  destruct (data_page _ pool_in_ram s lab fl used x d Hi Hc copy_maps).
  destruct (ci_data _ _ _ Hc _ _ copy_maps). done.
Qed.

(** A slot address is not NULL. *)
Lemma copy_slot_nonzero : (tr + 8 * l =? 0) = false.
Proof.
  destruct (table_page _ pool_in_ram _ _ _ _ _ _ Hi Htr) as [H _].
  apply Z.eqb_neq. unfold in_ram, KERNEL_VA_BASE, index_ok in *. lia.
Qed.

(** The parent's descriptor is kept or rewritten. *)
Definition src_written (m : Z -> Z) (e1 : Z) : Prop :=
  (m = mem s /\ e1 = e) \/ m = upd (mem s) (tr + 8 * l) e1.

Lemma src_pt_inv m e1 : src_written m e1 -> pt_inv page_pool_start (set_mem m s) lab fl used.
Proof.
  intros [[-> _] | ->]; [by destruct s|]. by eapply leaf_inv.
Qed.

Lemma src_leaf m e1 z :
  src_written m e1 -> desc_valid e1 = true -> slot_ok lab z ->
  leaf (set_mem m s) z = if decide (z = x) then e1 else leaf s z.
Proof.
  intros [[-> ->] | ->] H1 Hz.
  - destruct (decide (z = x)) as [->|]; [apply copy_leaf | done].
  - exact (leaf_upd _ pool_in_ram s lab fl used tr l r p e1 z Hi Htr Hl Hx H1 Hz).
Qed.

Lemma table_not_data t rp q i :
  lab !! t = Some rp -> q ∈ used -> lab !! q = None -> index_ok i -> q + 8 * i <> t + 8 * l.
Proof.
  intros Ht Hq Hql Hii E.
  destruct (inv_in_ram _ pool_in_ram _ _ _ q (pi_alloc _ _ _ _ _ Hi)) as [_ Hqa]; [by right|].
  destruct (table_page _ pool_in_ram _ _ _ _ _ _ Hi Ht) as [_ Hta].
  apply slot_inj in E as [-> _]; try done; congruence.
Qed.

(** Upper-level tables are not touched by writing a leaf. *)
Lemma table_not_leaf t t' rt q rt' q' i :
  lab !! t = Some (rt, q) -> (length q < 3)%nat -> lab !! t' = Some (rt', q') -> length q' = 3%nat ->
  index_ok i -> t + 8 * i <> t' + 8 * l.
Proof.
  intros Ht Hq Ht' Hq' Hii E. destruct (table_page _ pool_in_ram _ _ _ _ _ _ Hi Ht) as [_ Hta].
  destruct (table_page _ pool_in_ram _ _ _ _ _ _ Hi Ht') as [_ Hta'].
  apply slot_inj in E as [-> _]; try done. simplify_eq. lia.
Qed.

Lemma src_tables m e1 t rt q i :
  src_written m e1 -> lab !! t = Some (rt, q) -> (length q < 3)%nat -> index_ok i ->
  m (t + 8 * i) = mem s (t + 8 * i).
Proof. intros [[-> _] | ->] Ht Hq Hii; [done|]. apply upd_ne. by eapply table_not_leaf. Qed.

Lemma src_mem m e1 q i :
  src_written m e1 -> q ∈ used -> lab !! q = None -> index_ok i -> m (q + 8 * i) = mem s (q + 8 * i).
Proof. intros [[-> _] | ->] Hq Hql Hii; [done|]. apply upd_ne. by eapply table_not_data. Qed.

(** The child's slot is set on top of that. *)
Section share.
Variables (m : Z -> Z) (e1 e2 : Z) (s' : pt_state) (pg pg' : Page).
Hypothesis Hsrc : src_written m e1.
Hypothesis Huser : pte_is_user e = true.
Hypothesis He1 : desc_valid e1 = true /\ desc_table e1 = d /\ pte_is_user e1 = true /\
  pte_is_writable e1 = false.
Hypothesis He2 : desc_valid e2 = true /\ desc_table e2 = d /\ pte_is_user e2 = true /\
  pte_is_writable e2 = false.
Hypothesis Hmem : mem s' = upd m (tc + 8 * l) e2.
Hypothesis Hnext : next_free_page s' = next_free_page s.
Hypothesis Hfree : free_list s' = free_list s.
Hypothesis Hcover : pages_cover s'.
Hypothesis Hpg : page_struct s d = Some pg.
Hypothesis Hpg' : page_struct s' d = Some pg'.
Hypothesis Hcount : refcount pg' = refcount pg + 1 /\ refcount pg + 1 < 65536.
Hypothesis Hmark : has_flag pg' PTE_FLAG_COW = pte_is_writable e || has_flag pg PTE_FLAG_COW.
Hypothesis Hother : forall q, in_ram q -> q mod 4096 = 0 -> q <> d -> page_struct s' q = page_struct s q.

Lemma share_leaf z : slot_ok lab z -> leaf s' z =
  if decide (z = y) then e2 else if decide (z = x) then e1 else leaf s z.
Proof.
  intros Hz. unfold leaf at 1. rewrite Hmem.
  etrans; [exact (leaf_upd _ pool_in_ram _ lab fl used tc l c p e2 z (src_pt_inv m e1 Hsrc) Htc Hl Hx
                    (proj1 He2) Hz)|].
  fold y. destruct (decide (z = y)); [done|]. by apply (src_leaf m e1); [|apply He1|].
Qed.

Lemma share_cow : cow_inv s' lab used.
Proof.
  destruct He1 as (V1 & D1 & U1 & W1), He2 as (V2 & D2 & U2 & W2).
  assert (Hs1 : leaf_set s (set_mem m s) lab x e1) by (intros z Hz; by apply src_leaf).
  assert (Hc1 : cow_inv (set_mem m s) lab used).
  { eapply (cow_permission s (set_mem m s) lab used x e1 d); try done; [apply copy_maps | congruence |].
    intros q pgq _ _ Hq. by exists pgq. }
  assert (Hx1 : maps (set_mem m s) lab x d).
  { split_and!; [apply copy_x_ok | |]; rewrite (Hs1 x copy_x_ok), decide_True; done. }
  assert (Hy1 : leaf (set_mem m s) y = leaf s y).
  { rewrite (Hs1 y copy_y_ok), decide_False; [done | apply copy_ne]. }
  eapply (cow_add (set_mem m s) s' lab used y x e2 d); try done.
  - intros z Hz. rewrite share_leaf by done. destruct (decide (z = y)); [done|]. by rewrite (Hs1 z Hz).
  - by rewrite Hy1.
  - intros z Hz. destruct (decide (z = x)) as [->|Hzx].
    + by rewrite (Hs1 x copy_x_ok), decide_True.
    + by eapply (ci_excl _ _ _ Hc1 z x d).
  - intros q pgq Hq Hqd Hpq. exists pgq. split; [|done]. rewrite Hother; [done | | | congruence].
    all: by destruct (inv_in_ram _ pool_in_ram _ _ _ q (pi_alloc _ _ _ _ _ Hi)); [by right|].
  - intros pg1 Hpg1. exists pg'. split; [done|]. assert (pg1 = pg) as -> by (unfold page_struct in *; simpl in *; congruence).
    done.
Qed.

Lemma share_may_write z d' : maps s lab z d' -> z <> y -> may_write s' z = may_write s z.
Proof.
  destruct He1 as (V1 & D1 & U1 & W1). intros Hz Hzy. pose proof Hz as (Hzo & _ & Hzd).
  unfold may_write. rewrite (share_leaf z Hzo), decide_False by done.
  destruct (decide (z = x)) as [->|Hzx].
  - rewrite copy_leaf, W1, U1, D1, Huser. unfold marked. fold d. by rewrite Hpg', Hpg, Hmark.
  - destruct (decide (desc_table (leaf s z) = d)) as [Ed|Ed].
    + assert (Hw : pte_is_writable (leaf s x) = false).
      { eapply (ci_excl _ _ _ Hc x z d); [apply copy_maps | by rewrite <- Ed, Hzd | by apply not_eq_sym]. }
      rewrite copy_leaf in Hw. unfold marked. rewrite Ed, Hpg', Hpg, Hmark, Hw. done.
    + destruct (data_page _ pool_in_ram s lab fl used z d' Hi Hc Hz) as [Hzr Hza].
      unfold marked. rewrite Hother; [done | by rewrite Hzd | by rewrite Hzd | done].
Qed.

Lemma share_copied : leaf_copied s s' lab used used x y e1 e2.
Proof.
  destruct He1 as (V1 & D1 & U1 & W1). destruct He2 as (V2 & D2 & U2 & W2).
  destruct copy_data as (Hdr & Hda & Hdu & Hdl).
  assert (Hkeep : forall q i, q ∈ used -> lab !! q = None -> index_ok i ->
            mem s' (q + 8 * i) = mem s (q + 8 * i)).
  { intros q i Hq Hql Hii. rewrite Hmem, upd_ne by by eapply table_not_data. by eapply src_mem. }
  constructor.
  - exists fl. pose proof (leaf_inv _ pool_in_ram _ lab fl used tc l c p e2 (src_pt_inv m e1 Hsrc) Htc Hl Hx).
    by eapply pt_inv_core.
  - apply share_cow.
  - done.
  - apply share_leaf.
  - rewrite copy_leaf. split_and!; [done | done | congruence].
  - rewrite copy_leaf. split_and!; [done | congruence | done | congruence].
  - intros i Hii. unfold view. rewrite (share_leaf y copy_y_ok), decide_True, copy_leaf, D2 by done.
    by apply Hkeep.
  - unfold may_write. rewrite (share_leaf y copy_y_ok), decide_True, copy_leaf, U2, W2, D2, Huser by done.
    unfold marked. fold d. by rewrite Hpg', Hpg, Hmark.
  - done.
  - intros t rt q i Ht Hq Hii. rewrite Hmem, upd_ne by by eapply table_not_leaf. by eapply src_tables.
  - apply share_may_write.
  - intros E. unfold page_struct in Hpg'. by rewrite E in Hpg'.
  - intros q pgq Hq Hpgq Hne. split; [done|]. exists pgq. split; [|done].
    destruct (inv_in_ram _ pool_in_ram _ _ _ q (pi_alloc _ _ _ _ _ Hi)) as [Hqr Hqa]; [by right|].
    rewrite <- Hother; [done | done | done | congruence].
Qed.

End share.

(** A kernel page is copied to the fresh page [k]. *)
Lemma kernel_copied s1 fl' k m3 e2 s' :
  pte_is_user e = false ->
  k ∉ used -> in_ram k -> k mod 4096 = 0 -> fresh_page s s1 k ->
  alloc_inv page_pool_start s1 fl' ({[k]} ∪ used) ->
  (forall a, m3 a = if word_of k a then mem s1 (d + (a - k)) else mem s1 a) ->
  s' = set_mem (upd m3 (tc + 8 * l) e2) s1 ->
  desc_valid e2 = true -> desc_table e2 = k -> pte_is_user e2 = false ->
  pte_is_writable e2 = pte_is_writable e -> pages s <> None ->
  leaf_copied s s' lab used ({[k]} ∪ used) x y e e2.
Proof.
  intros Hu Hku Hkr Hka Hfr Ha Hm3 -> V2 D2 U2 W2 Hpn.
  destruct copy_data as (Hdr & Hda & Hdu & Hdl).
  assert (Hkl : lab !! k = None).
  { destruct (lab !! k) as [[r' p']|] eqn:E; [|done]. by destruct (pi_used _ _ _ _ _ Hi _ _ _ E). }
  destruct (fresh_used_kept _ pool_in_ram s s1 fl used k (pi_alloc _ _ _ _ _ Hi)) as [Hkm Hkp]; try done.
  assert (Hm3' : forall a, m3 a = if word_of k a then mem s1 (d + (a - k)) else mem s a).
  { intros a. rewrite Hm3. destruct (word_of k a) eqn:E; [done|]. by rewrite (proj1 Hfr), E. }
  assert (T : table_step page_pool_start s (set_mem m3 s1) lab lab used ({[k]} ∪ used)).
  { eapply (filled_step _ pool_in_ram _ _ lab fl fl' used k (fun a => mem s1 (d + (a - k)))); try done.
    { simpl. rewrite (proj2 Hfr). by apply insert_page_some. }
    eapply alloc_inv_write; [exact Ha | done | done | | apply (ai_pages _ _ _ _ Ha)].
    intros q Hq. simpl. rewrite Hm3, word_of_page; try done.
    - by destruct (inv_in_ram _ pool_in_ram _ _ _ q Ha); [by left|].
    - intros ->. apply (ai_disjoint _ _ _ _ Ha q Hq). by apply elem_of_union_l, elem_of_singleton. }
  destruct (ts_inv _ _ _ _ _ _ _ T) as [fl3 Hi3]. set (s3 := set_mem m3 s1) in *.
  assert (Hlf : forall z, slot_ok lab z -> leaf (set_mem (upd m3 (tc + 8 * l) e2) s1) z =
            if decide (z = y) then e2 else leaf s z).
  { intros z Hz. etrans; [exact (leaf_upd _ pool_in_ram s3 lab fl3 _ tc l c p e2 z Hi3 Htc Hl Hx V2 Hz)|].
    fold y. destruct (decide (z = y)); [done|]. by eapply step_leaf. }
  assert (Hkeep : forall q i, q ∈ used -> lab !! q = None -> index_ok i ->
            upd m3 (tc + 8 * l) e2 (q + 8 * i) = mem s (q + 8 * i)).
  { intros q i Hq Hql Hii. rewrite upd_ne by by eapply table_not_data.
    destruct (inv_in_ram _ pool_in_ram _ _ _ q (pi_alloc _ _ _ _ _ Hi)) as [_ Hqa]; [by right|].
    rewrite Hm3', word_of_other; try done. by intros ->. }
  assert (Hkpg : page_struct s1 k = Some (mkPage 1 0)).
  { eapply (page_struct_insert_eq s); [done | apply (ai_pages _ _ _ _ (pi_alloc _ _ _ _ _ Hi)) | done | apply Hfr]. }
  constructor.
  - exists fl3. exact (leaf_inv _ pool_in_ram s3 lab fl3 _ tc l c p e2 Hi3 Htc Hl Hx).
  - eapply (cow_retarget s _ lab used y e2 k (mkPage 1 0)); try done.
    intros z q pgq _ Hq Hpgq. exists pgq. split_and!; [|lia | by left]. unfold page_struct in *. simpl.
    by rewrite <- Hpgq, <- (Hkp q Hq).
  - apply union_subseteq_r.
  - intros z Hz. rewrite Hlf by done. destruct (decide (z = y)); [done|].
    destruct (decide (z = x)) as [->|]; [apply copy_leaf | done].
  - by rewrite copy_leaf.
  - rewrite copy_leaf, Hu. split_and!; [done | done | congruence | by rewrite D2].
  - intros i Hii. unfold view. rewrite (Hlf y copy_y_ok), decide_True, D2, copy_leaf by done. simpl.
    destruct (table_page _ pool_in_ram _ _ _ _ _ _ Hi Htc) as [_ Hta].
    rewrite upd_ne by (intros E; apply slot_inj in E as [-> _]; try done; congruence).
    rewrite Hm3, word_of_idx by done. replace (d + (k + 8 * i - k)) with (d + 8 * i) by lia.
    by apply Hkm.
  - unfold may_write. rewrite (Hlf y copy_y_ok), decide_True, copy_leaf, U2, W2, Hu by done. done.
  - done.
  - intros t rt q i Ht Hq Hii. simpl. rewrite upd_ne by by eapply table_not_leaf.
    destruct (table_page _ pool_in_ram _ _ _ _ _ _ Hi Ht) as [_ Hta].
    rewrite Hm3', word_of_other; try done. intros ->. congruence.
  - intros z d' Hz Hzy. pose proof Hz as (Hzo & _ & Hzd). unfold may_write.
    rewrite (Hlf z Hzo), decide_False by done. unfold marked. rewrite Hzd.
    pose proof (Hkp d' (ci_used _ _ _ _ _ Hc Hz)) as E. unfold page_struct in *. simpl. by rewrite E.
  - simpl. rewrite (proj2 Hfr). by apply insert_page_some.
  - intros q pgq [->%elem_of_singleton | Hq]%elem_of_union Hpgq Hne; [congruence|].
    split; [done|]. exists pgq. split; [|done]. rewrite <- (Hkp q Hq). done.
Qed.

Hypothesis Href : forall pg, page_struct s d = Some pg -> pte_is_user e = true -> refcount pg + 1 < 65536.

Lemma copy_struct : exists pg, page_struct s d = Some pg /\ 1 <= refcount pg /\ pages s <> None.
Proof.
  destruct (ci_count _ _ _ Hc _ _ copy_maps) as (pg & Hpg & _ & Hcnt). exists pg. split_and!; [done | |].
  - apply (Hcnt [x]); [apply NoDup_singleton|]. intros z ->%list_elem_of_singleton. apply copy_maps.
  - intros E. unfold page_struct in Hpg. by rewrite E in Hpg.
Qed.

Lemma wp_cpy_pte_shared pg :
  page_struct s d = Some pg -> refcount pg + 1 < 65536 -> 1 <= refcount pg ->
  pte_is_user e = true -> pte_is_writable e = false ->
  wp (_ ← wr (tc + 8 * l) e; _ ← inc_pte_refcount_pa (Z.land e PTE_ADDR_MASK); mret true)
    (fun go s' => go = true /\ exists e1 e2, leaf_copied s s' lab used used x y e1 e2) s.
Proof.
  intros Hpg Hlt Hge Hu Hw. destruct copy_data as (Hdr & Hda & Hdu & Hdl).
  apply wp_bind, wp_modify, wp_bind. rewrite (desc_pa e d Hdr eq_refl).
  eapply (wp_inc_refcount d pg); [done | done |]. apply wp_ret. split; [done|]. exists e, e.
  eapply (share_copied (mem s) e e _ pg (mkPage (to_u16 (refcount pg + 1)) (flags pg))); try done.
  - by left.
  - eapply pages_cover_insert; [apply (ai_pages _ _ _ _ (pi_alloc _ _ _ _ _ Hi)) | done].
  - exact (with_page_eq s d pg _ Hpg).
  - simpl. unfold to_u16. rewrite wrap_small; lia.
  - by rewrite Hw.
  - intros q Hq Hqa Hqd. exact (with_page_ne s d q _ Hdr Hq Hda Hqa (not_eq_sym Hqd)).
Qed.

Lemma has_flag_set n f : has_flag (mkPage n (Z.lor f PTE_FLAG_COW)) PTE_FLAG_COW = true.
Proof.
  unfold has_flag, PTE_FLAG_COW. simpl flags. rewrite Z.land_lor_distr_l, Z.land_diag.
  apply negb_true_iff, Z.eqb_neq. intros [_ H]%Z.lor_eq_0_iff. done.
Qed.

Lemma wp_cpy_pte_marked pg :
  page_struct s d = Some pg -> refcount pg + 1 < 65536 -> 1 <= refcount pg ->
  pte_is_user e = true -> pte_is_writable e = true ->
  wp (_ ← pte_make_readonly_and_mark_cow (tr + 8 * l);
      e' ← rd (tr + 8 * l);
      _ ← wr (tc + 8 * l) (child_desc (Z.land e PTE_ADDR_MASK) e');
      _ ← inc_pte_refcount_pa (Z.land e PTE_ADDR_MASK);
      mret true)
    (fun go s' => go = true /\ exists e1 e2, leaf_copied s s' lab used used x y e1 e2) s.
Proof.
  intros Hpg Hlt Hge Hu Hw. destruct copy_data as (Hdr & Hda & Hdu & Hdl).
  apply wp_bind. unfold pte_make_readonly_and_mark_cow. rewrite copy_slot_nonzero.
  apply wp_bind, wp_fetch. fold e. rewrite Hu. cbn [negb]. rewrite (desc_pa e d Hdr eq_refl).
  apply wp_bind, wp_modify. eapply (wp_set_flag d pg); [done | done |]. intros s2 Hs2.
  set (pg2 := mkPage _ _) in Hs2.
  assert (Hpg2 : page_struct s2 d = Some pg2)
    by (rewrite (page_struct_core _ _ _ Hs2); exact (with_page_eq s d pg _ Hpg)).
  destruct Hs2 as (Em & Eg & En & Ef). simpl in *.
  apply wp_bind, wp_fetch. rewrite Em, upd_eq. apply wp_bind, wp_modify, wp_bind.
  eapply (wp_inc_refcount d pg2); [done | done |]. apply wp_ret. split; [done|].
  exists (pte_clear_writable e), (child_desc (d - KERNEL_VA_BASE) (pte_clear_writable e)).
  eapply (share_copied (upd (mem s) (tr + 8 * l) (pte_clear_writable e)) _ _ _ pg
            (mkPage (to_u16 (refcount pg2 + 1)) (flags pg2))); try done.
  - by right.
  - rewrite clear_writable_valid, clear_writable_user, clear_writable_ro.
    split_and!; [done | apply desc_table_addr, clear_writable_addr | done | done].
  - rewrite child_desc_valid, child_desc_user, child_desc_ro. split_and!; [done | | done | done].
    apply desc_table_addr. rewrite child_desc_addr, <- (desc_pa e d Hdr eq_refl), <- Z.land_assoc. done.
  - simpl. by rewrite Em.
  - eapply (pages_cover_insert s2); [|done]. eapply (pages_cover_insert s); [|exact Eg].
    apply (ai_pages _ _ _ _ (pi_alloc _ _ _ _ _ Hi)).
  - exact (with_page_eq s2 d pg2 _ Hpg2).
  - simpl. unfold to_u16. rewrite wrap_small; lia.
  - rewrite Hw. apply has_flag_set.
  - intros q Hq Hqa Hqd. etrans; [exact (with_page_ne s2 d q _ Hdr Hq Hda Hqa (not_eq_sym Hqd))|].
    unfold page_struct at 1. rewrite Eg. exact (with_page_ne s d q _ Hdr Hq Hda Hqa (not_eq_sym Hqd)).
Qed.

Lemma wp_cpy_pte :
  wp (cpy_pte page_pool_start (tr + 8 * l) (tc + 8 * l)) (fun go s' =>
    if (go : bool) then exists used' e1 e2, leaf_copied s s' lab used used' x y e1 e2
    else table_step page_pool_start s s' lab lab used used /\ mem s' = mem s /\ exhausted page_pool_start s') s.
Proof.
  destruct copy_struct as (pg & Hpg & Hge & Hpn). destruct copy_data as (Hdr & Hda & Hdu & Hdl).
  apply wp_bind, wp_fetch. fold e. rewrite Hv. cbn [negb]. destruct (pte_is_user e) eqn:Hu; cbn [negb].
  - specialize (Href pg Hpg eq_refl). destruct (pte_is_writable e) eqn:Hw.
    + eapply wp_mono; [by apply (wp_cpy_pte_marked pg)|]. intros go s' (-> & e1 & e2 & H). by exists used, e1, e2.
    + eapply wp_mono; [by apply (wp_cpy_pte_shared pg)|]. intros go s' (-> & e1 & e2 & H). by exists used, e1, e2.
  - apply wp_bind. eapply wp_mono; [apply (wp_alloc_page _ pool_in_ram s fl used), Hi|].
    intros k s1 [(-> & Ha & Em & Eg & -> & Hf & _) | (Hk0 & Hku & Hkr & Hka & Hfr & fl' & Ha)].
    + apply wp_ret. split_and!; [|done | split; [exact (ai_chain _ _ _ _ Ha) | done]]. eapply alloc_table_step; [done | done | done | by rewrite Em | | by rewrite Eg].
      intros. unfold page_struct. by rewrite Eg.
    + rewrite (proj2 (Z.eqb_neq _ _) Hk0). apply wp_bind.
      apply wp_copy_phys_page; rewrite ?direct_phys by done; [done | done | by intros <- |].
      intros m3 Hm3. apply wp_bind, wp_modify, wp_ret.
      fold (page_desc (kernel_phys_addr k) e). exists ({[k]} ∪ used), e, (page_desc (kernel_phys_addr k) e).
      eapply (kernel_copied s1 fl' k m3); try done.
      * apply page_desc_valid.
      * apply phys_desc_table; [done | done | apply page_desc_addr].
      * by rewrite page_desc_user.
      * by rewrite page_desc_writable.
Qed.

End leaf.

(** ** The loops *)

Section loops.
Variables (s0 : pt_state) (lab0 : gmap Z (Z * list Z)) (r c : Z).
Hypothesis Hroot_r : is_root lab0 r.
Hypothesis Hroot_c : is_root lab0 c.
Hypothesis Hrc : r <> c.

Definition ix_ok (ix : list Z) : Prop := length ix = 4%nat /\ Forall index_ok ix.

(** The child's page at [y] in [s] is a copy of the parent's at [x] in [s0]. *)
Definition child_of (s : pt_state) (y x : slot) : Prop :=
  desc_valid (leaf s y) = desc_valid (leaf s0 x) /\
  (desc_valid (leaf s0 x) = true ->
     pte_is_user (leaf s y) = pte_is_user (leaf s0 x) /\
     may_write s y = may_write s0 x /\
     forall i, index_ok i -> view s y i = view s0 x i).

(** The state of the copy: the pages in [D] are done. *)
Record fork_inv (D : list Z -> Prop) (s : pt_state) (lab : gmap Z (Z * list Z)) (used : gset Z) : Prop := {
  fi_pt : exists fl, pt_inv page_pool_start s lab fl used;
  fi_cow : cow_inv s lab used;
  fi_once : once s lab;
  fi_link : forall ix ix' d, maps s lab (c, ix) d -> maps s lab (r, ix') d -> ix = ix';
  fi_roots : forall q, is_root lab q <-> is_root lab0 q;
  fi_others : forall x, slot_ok lab0 x -> fst x <> r -> fst x <> c -> leaf s x = leaf s0 x;
  fi_parent : forall ix, ix_ok ix ->
    desc_valid (leaf s (r, ix)) = desc_valid (leaf s0 (r, ix)) /\
    desc_table (leaf s (r, ix)) = desc_table (leaf s0 (r, ix)) /\
    pte_is_user (leaf s (r, ix)) = pte_is_user (leaf s0 (r, ix));
  fi_todo : forall ix, ix_ok ix -> ~ D ix -> desc_valid (leaf s (c, ix)) = false;
  fi_keep : forall x d, maps s0 lab0 x d -> fst x <> c -> may_write s x = may_write s0 x /\
    forall i, index_ok i -> view s x i = view s0 x i;
  fi_child : forall ix, ix_ok ix -> D ix -> child_of s (c, ix) (r, ix);
  fi_ref : forall x d pg, maps s lab x d -> page_struct s d = Some pg ->
    (forall ix, ~ maps s lab (c, ix) d) -> refcount pg < 65535;
  fi_pages : pages s <> None
}.

Lemma fi_slot D s lab used x : fork_inv D s lab used -> slot_ok lab x <-> slot_ok lab0 x.
Proof. intros HF. unfold slot_ok. by rewrite (fi_roots _ _ _ _ HF). Qed.

Lemma fork_inv_equiv D D' s lab used :
  fork_inv D s lab used -> (forall ix, ix_ok ix -> D ix <-> D' ix) -> fork_inv D' s lab used.
Proof.
  intros [] HD. constructor; try done.
  - intros ix Hix Hn. apply fi_todo0; [done|]. by rewrite (HD ix Hix).
  - intros ix Hix Hn. apply fi_child0; [done|]. by rewrite (HD ix Hix).
Qed.

(** Pages the parent does not have are done at once. *)
Lemma fork_skip D A s lab used :
  fork_inv D s lab used -> (forall ix, ix_ok ix -> A ix -> desc_valid (leaf s (r, ix)) = false) ->
  (forall ix, ix_ok ix -> A ix -> ~ D ix) ->
  fork_inv (fun ix => D ix \/ A ix) s lab used.
Proof.
  intros HF HA HAD. pose proof HF as []. constructor; try done.
  - intros ix Hix Hn. apply fi_todo0; [done | tauto].
  - intros ix Hix [Hd | Ha]; [by apply fi_child0|]. destruct (fi_parent0 ix Hix) as [Hv _].
    rewrite (HA ix Hix Ha) in Hv. split; [|congruence]. rewrite <- Hv. apply fi_todo0; [done | by apply HAD].
Qed.

(** *** One more leaf *)

Section leaf_step.
Variables (D : list Z -> Prop) (s s' : pt_state) (lab : gmap Z (Z * list Z)) (used used' : gset Z).
Variables (ix0 : list Z) (e1 e2 : Z).
Let x : slot := (r, ix0).
Let y : slot := (c, ix0).
Hypothesis HF : fork_inv D s lab used.
Hypothesis HL : leaf_copied s s' lab used used' x y e1 e2.
Hypothesis Hix0 : ix_ok ix0.
Hypothesis Hnew : ~ D ix0.
Hypothesis Hvalid : desc_valid (leaf s x) = true.

Lemma step_y_ne : y <> x.
Proof. unfold x, y. congruence. Qed.

Lemma step_x_ok : slot_ok lab x.
Proof. apply (fi_slot _ _ _ _ _ HF). by split. Qed.

Lemma step_y_ok : slot_ok lab y.
Proof. apply (fi_slot _ _ _ _ _ HF). by split. Qed.

Lemma step_x_maps : maps s lab x (desc_table (leaf s x)).
Proof. split_and!; [apply step_x_ok | done | done]. Qed.

(** The new state maps [y] to the page of [e2] and the other slots as before. *)
Lemma step_maps z d : maps s' lab z d -> (z = y /\ d = desc_table e2) \/ (z <> y /\ maps s lab z d).
Proof.
  intros (Ho & Hv & Hd). rewrite (lc_leaf _ _ _ _ _ _ _ _ _ HL z Ho) in Hv, Hd.
  destruct (decide (z = y)) as [->|Hzy]; [by left|]. right. split; [done|].
  destruct (decide (z = x)) as [->|]; [|by split_and!].
  destruct (lc_parent _ _ _ _ _ _ _ _ _ HL) as (_ & Hp & _). rewrite <- Hd, Hp. apply step_x_maps.
Qed.

Lemma step_maps_back z d : maps s lab z d -> z <> y -> maps s' lab z d.
Proof.
  intros (Ho & Hv & Hd) Hzy. unfold maps. rewrite (lc_leaf _ _ _ _ _ _ _ _ _ HL z Ho), decide_False by done.
  destruct (decide (z = x)) as [->|]; [|by split_and!].
  destruct (lc_parent _ _ _ _ _ _ _ _ _ HL) as (Hp1 & Hp & _). split_and!; [done | done | congruence].
Qed.

Lemma step_old_y : desc_valid (leaf s y) = false.
Proof. by apply (fi_todo _ _ _ _ HF). Qed.

Lemma step_y_maps : maps s' lab y (desc_table e2).
Proof.
  unfold maps. rewrite (lc_leaf _ _ _ _ _ _ _ _ _ HL y step_y_ok), decide_True by done.
  split_and!; [apply step_y_ok | apply (lc_child _ _ _ _ _ _ _ _ _ HL) | done].
Qed.

(** In [s], the page given to the child is the parent's or nobody's. *)
Lemma step_page z : maps s lab z (desc_table e2) ->
  desc_table e2 = desc_table (leaf s x).
Proof.
  intros Hz. destruct (lc_child _ _ _ _ _ _ _ _ _ HL) as (_ & _ & Hu & Hn).
  destruct (pte_is_user e2); [by apply Hu|]. destruct Hn; [done|]. by eapply ci_used; [apply HF|].
Qed.

Lemma step_child_page ix : ~ maps s lab (c, ix) (desc_table e2).
Proof.
  intros Hm. pose proof Hm as Hm'. rewrite (step_page _ Hm) in Hm'.
  pose proof (fi_link _ _ _ _ HF _ _ _ Hm' step_x_maps) as ->.
  destruct Hm as (_ & Hv & _). fold y in Hv. by rewrite step_old_y in Hv.
Qed.

Lemma step_once : once s' lab.
Proof.
  intros z w d Hz Hw E.
  destruct (step_maps z d Hz) as [[Ez Ed] | [Hzy Hz']], (step_maps w d Hw) as [[Ew Ed'] | [Hwy Hw']].
  - congruence.
  - destruct w as [rw ixw]. subst z d. simpl in E. subst rw. by destruct (step_child_page ixw).
  - destruct z as [rz ixz]. subst w d. simpl in E. subst rz. by destruct (step_child_page ixz).
  - by eapply (fi_once _ _ _ _ HF).
Qed.

Lemma step_link ix ix' d : maps s' lab (c, ix) d -> maps s' lab (r, ix') d -> ix = ix'.
Proof.
  intros Hz Hw. destruct (step_maps _ d Hw) as [[Ew _] | [_ Hw']]; [unfold y in Ew; congruence|].
  destruct (step_maps _ d Hz) as [[Ez Ed] | [_ Hz']]; [|by eapply (fi_link _ _ _ _ HF)].
  subst d. pose proof Hw' as Hx. rewrite (step_page _ Hw') in Hx.
  pose proof (fi_once _ _ _ _ HF _ _ _ Hx step_x_maps eq_refl). unfold x, y in *. congruence.
Qed.

Lemma step_view z d i :
  maps s lab z d -> z <> y -> index_ok i -> view s' z i = view s z i.
Proof.
  intros Hz Hzy Hii. pose proof (step_maps_back _ _ Hz Hzy) as (_ & _ & E').
  pose proof Hz as (_ & _ & E). unfold view. rewrite E', E.
  destruct (ci_data _ _ _ (fi_cow _ _ _ _ HF) _ _ Hz) as [Hu Hl]. by apply (lc_mem _ _ _ _ _ _ _ _ _ HL).
Qed.

(** A page of the parent in [s0], in the current state. *)
Lemma fi_maps z d : maps s0 lab0 z d -> fst z <> c -> maps s lab z d.
Proof.
  intros (Ho & Hv & Hd) Hzc. pose proof (proj2 (fi_slot _ _ _ _ _ HF) Ho) as Ho'.
  destruct z as [rz ix]. simpl in Hzc. destruct (decide (rz = r)) as [->|Hzr].
  - destruct (fi_parent _ _ _ _ HF ix) as (P1 & P2 & P3); [by destruct Ho as (_ & ? & ?); split|].
    unfold maps. by rewrite P1, P2.
  - unfold maps. by rewrite (fi_others _ _ _ _ HF).
Qed.

Lemma fork_step_leaf : fork_inv (fun ix => D ix \/ ix = ix0) s' lab used'.
Proof.
  destruct (lc_parent _ _ _ _ _ _ _ _ _ HL) as (V1 & T1 & U1).
  destruct (lc_child _ _ _ _ _ _ _ _ _ HL) as (V2 & U2 & S2 & N2).
  assert (Hleaf : forall z, slot_ok lab0 z -> leaf s' z =
            if decide (z = y) then e2 else if decide (z = x) then e1 else leaf s z).
  { intros z Hz. apply (lc_leaf _ _ _ _ _ _ _ _ _ HL). by apply (fi_slot _ _ _ _ _ HF). }
  constructor; [apply HL | apply HL | apply step_once | apply step_link | apply HF | | | | | | | apply HL].
  - intros z Hz Hzr Hzc. rewrite Hleaf, !decide_False by (done || by intros ->). by apply HF.
  - intros ix Hix. rewrite Hleaf by by split. rewrite decide_False by (unfold y; congruence).
    case_decide as E; [|by apply HF]. rewrite V1, T1, U1.
    unfold x in E. injection E as ->. fold x. rewrite <- Hvalid. by apply (fi_parent _ _ _ _ HF).
  - intros ix Hix Hn. rewrite Hleaf by by split.
    rewrite decide_False by (unfold y; intros [= ->]; tauto).
    rewrite decide_False by (unfold x; congruence). apply HF; [done | tauto].
  - intros z d Hz Hzc. destruct (fi_keep _ _ _ _ HF z d Hz Hzc) as [Hw Hview].
    pose proof (fi_maps z d Hz Hzc) as Hz'. assert (z <> y) by (intros ->; by apply Hzc).
    split; [rewrite <- Hw; by eapply (lc_write _ _ _ _ _ _ _ _ _ HL)|].
    intros i Hii. rewrite <- Hview by done. by eapply step_view.
  - intros ix Hix [Hd | ->].
    + destruct (fi_child _ _ _ _ HF ix Hix Hd) as [Hv Hrest].
      assert (Hne : (c, ix) <> y) by (unfold y; congruence).
      unfold child_of. rewrite Hleaf by by split. rewrite decide_False by done.
      rewrite decide_False by (unfold x; congruence). split; [done|]. intros Hvx.
      destruct (Hrest Hvx) as (Hu & Hw & Hview).
      assert (Hm : maps s lab (c, ix) (desc_table (leaf s (c, ix)))).
      { split_and!; [apply (fi_slot _ _ _ _ _ HF); by split | congruence | done]. }
      split_and!; [done | rewrite <- Hw; by eapply (lc_write _ _ _ _ _ _ _ _ _ HL) |].
      intros i Hii. rewrite <- Hview by done. by eapply step_view.
    + fold x y. unfold child_of. rewrite (Hleaf y) by (apply (fi_slot _ _ _ _ _ HF), step_y_ok).
      rewrite decide_True by done. destruct (fi_parent _ _ _ _ HF ix0 Hix0) as (P1 & P2 & P3).
      fold x in P1, P2, P3. rewrite V2, <- P1, Hvalid. split; [done|]. intros _.
      assert (Hx0 : maps s0 lab0 x (desc_table (leaf s0 x))).
      { split_and!; [apply (fi_slot _ _ _ _ _ HF), step_x_ok | congruence | done]. }
      destruct (fi_keep _ _ _ _ HF x _ Hx0) as [Hw Hview]; [done|].
      split_and!; [congruence | rewrite <- Hw; apply HL |]. intros i Hii. rewrite <- Hview by done.
      by apply (lc_child_view _ _ _ _ _ _ _ _ _ HL).
  - intros z d pg Hz Hpg Hnone. destruct (step_maps z d Hz) as [[-> ->] | [Hzy Hz']].
    { by destruct (Hnone ix0); apply step_y_maps. }
    destruct (lc_refs _ _ _ _ _ _ _ _ _ HL d pg) as (Hdu & pg0 & Hpg0 & Hrf);
      [by eapply ci_used; [apply HL|] | done | intros ->; by destruct (Hnone ix0); apply step_y_maps |].
    rewrite Hrf. eapply (fi_ref _ _ _ _ HF z d); [done | done |]. intros ix Hm.
    apply (Hnone ix), step_maps_back; [done|]. intros E. unfold y in E. injection E as ->.
    destruct Hm as (_ & Hv & _). pose proof step_old_y as Ho. unfold y in Ho. congruence.
Qed.

End leaf_step.

(** *** New tables *)

Lemma fork_step_table D s s' lab lab' used used' :
  fork_inv D s lab used -> table_step page_pool_start s s' lab lab' used used' ->
  (forall q, is_root lab' q <-> is_root lab q) ->
  fork_inv D s' lab' used'.
Proof.
  intros HF T Hroots.
  assert (Hok : forall z, slot_ok lab' z <-> slot_ok lab z) by (intros z; unfold slot_ok; by rewrite Hroots).
  assert (Hleaf : forall z, slot_ok lab z -> leaf s' z = leaf s z) by (intros z Hz; by eapply step_leaf).
  assert (Hm : forall z d, maps s' lab' z d <-> maps s lab z d) by (intros; by apply maps_transfer).
  assert (Hdata : forall z d, maps s lab z d -> page_struct s' d = page_struct s d /\
            forall i, index_ok i -> mem s' (d + 8 * i) = mem s (d + 8 * i)).
  { intros z d Hz. destruct (ci_data _ _ _ (fi_cow _ _ _ _ HF) _ _ Hz) as [Hu Hl].
    destruct (ts_data _ _ _ _ _ _ _ T d Hu Hl). done. }
  assert (Hok0 : forall z, slot_ok lab0 z -> slot_ok lab z) by (intros z; apply (fi_slot _ _ _ _ _ HF)).
  assert (Hview : forall z d i, maps s lab z d -> index_ok i -> view s' z i = view s z i).
  { intros z d i Hz Hii. pose proof Hz as (Ho & _ & Hd). unfold view. rewrite (Hleaf z Ho), Hd.
    by apply (Hdata z). }
  assert (Hmw : forall z d, maps s lab z d -> may_write s' z = may_write s z).
  { intros z d Hz. pose proof Hz as (Ho & _ & Hd). unfold may_write, marked. rewrite (Hleaf z Ho), Hd.
    by rewrite (proj1 (Hdata z d Hz)). }
  constructor.
  - apply (ts_inv _ _ _ _ _ _ _ T).
  - eapply cow_transfer; [done | done | apply HF |]. intros z d Hz.
    destruct (ci_data _ _ _ (fi_cow _ _ _ _ HF) _ _ Hz) as [Hu Hl].
    split_and!; [apply (Hdata z d Hz) | by apply (ts_used _ _ _ _ _ _ _ T) |].
    by rewrite (ts_new _ _ _ _ _ _ _ T).
  - intros z w d Hz%Hm Hw%Hm. by eapply (fi_once _ _ _ _ HF).
  - intros ix ix' d Hz%Hm Hw%Hm. by eapply (fi_link _ _ _ _ HF).
  - intros q. rewrite Hroots. apply HF.
  - intros z Hz Hzr Hzc. rewrite (Hleaf z) by by apply Hok0. by apply HF.
  - intros ix Hix. rewrite Hleaf by (apply Hok0; by split). by apply HF.
  - intros ix Hix Hn. rewrite Hleaf by (apply Hok0; by split). by apply HF.
  - intros z d Hz Hzc. destruct (fi_keep _ _ _ _ HF z d Hz Hzc) as [Hw Hv].
    pose proof (fi_maps D s lab used HF z d Hz Hzc) as Hz'. rewrite (Hmw z d Hz'). split; [done|].
    intros i Hii. rewrite (Hview z d) by done. by apply Hv.
  - intros ix Hix Hd. destruct (fi_child _ _ _ _ HF ix Hix Hd) as [Hv Hrest].
    unfold child_of. rewrite Hleaf by (apply Hok0; by split). split; [done|]. intros Hvx.
    assert (Hz : maps s lab (c, ix) (desc_table (leaf s (c, ix)))).
    { split_and!; [apply Hok0; by split | congruence | done]. }
    destruct (Hrest Hvx) as (Hu & Hw & Hvw). rewrite (Hmw _ _ Hz). split_and!; [done | done |].
    intros i Hii. rewrite (Hview _ _ _ Hz Hii). by apply Hvw.
  - intros z d pg Hz%Hm Hpg Hnone. rewrite (proj1 (Hdata z d Hz)) in Hpg.
    eapply (fi_ref _ _ _ _ HF); [done | done |]. intros ix Hx%Hm. by apply (Hnone ix).
  - apply (ts_pages _ _ _ _ _ _ _ T), HF.
Qed.

(** *** The nested loops *)

(** Tables less than [n] levels deep are unchanged. *)
Definition tables_kept (n : nat) (s s' : pt_state) (lab : gmap Z (Z * list Z)) : Prop :=
  forall t rt q i, lab !! t = Some (rt, q) -> (length q < n)%nat -> index_ok i ->
    mem s' (t + 8 * i) = mem s (t + 8 * i).

(** The pages done after [i] iterations at the table with indices [p]. *)
Definition done_upto (D : list Z -> Prop) (p : list Z) (i : Z) (ix : list Z) : Prop :=
  D ix \/ exists j, 0 <= j < i /\ p ++ [j] `prefix_of` ix.

Lemma prefix_last_inj (p ix : list Z) i j : p ++ [i] `prefix_of` ix -> p ++ [j] `prefix_of` ix -> i = j.
Proof.
  intros [k ->] [k' E]. rewrite <- !app_assoc in E. simpl in E.
  apply app_inv_head in E. by injection E.
Qed.

Lemma prefix_next (p ix : list Z) :
  p `prefix_of` ix -> (length p < length ix)%nat -> Forall index_ok ix ->
  exists j, index_ok j /\ p ++ [j] `prefix_of` ix.
Proof.
  intros [[|j k] ->] Hl Hx; [rewrite app_nil_r in Hl; lia|]. exists j. split.
  - apply Forall_app in Hx as [_ Hx]. by apply Forall_cons in Hx as [? _].
  - exists k. by rewrite <- app_assoc.
Qed.

Lemma prefix_shorter (p ix : list Z) i : p ++ [i] `prefix_of` ix -> p `prefix_of` ix.
Proof. intros H. etrans; [|exact H]. by exists [i]. Qed.

(** All iterations together cover the pages below [p]. *)
Lemma done_all D p ix :
  ix_ok ix -> (length p < 4)%nat -> done_upto D p 512 ix <-> D ix \/ p `prefix_of` ix.
Proof.
  intros [Hl Hx] Hp. split.
  - intros [Hd | (j & _ & Hj)]; [by left|]. right. by eapply prefix_shorter.
  - intros [Hd | Hpx]; [by left|]. destruct (prefix_next p ix Hpx) as (j & Hj & Hjx); [lia | done |].
    right. by exists j.
Qed.

Lemma done_succ D p i ix :
  0 <= i -> done_upto D p (i + 1) ix <-> done_upto D p i ix \/ p ++ [i] `prefix_of` ix.
Proof.
  intros Hi. unfold done_upto. split.
  - intros [Hd | (j & Hj & Hjx)]; [tauto|]. destruct (Z.eq_dec j i) as [->|]; [tauto|].
    left. right. exists j. split; [lia | done].
  - intros [[Hd | (j & Hj & Hjx)] | Hix]; [tauto | |]; right; [exists j | exists i]; (split; [lia | done]).
Qed.

Lemma not_done D p i ix :
  (forall ix, ix_ok ix -> p `prefix_of` ix -> ~ D ix) -> ix_ok ix -> p ++ [i] `prefix_of` ix ->
  ~ done_upto D p i ix.
Proof.
  intros HD Hix Hp [Hd | (j & Hj & Hjx)].
  - apply (HD ix); [done | by eapply prefix_shorter | done].
  - pose proof (prefix_last_inj _ _ _ _ Hp Hjx). lia.
Qed.

Definition copy_spec (n : nat) (sub : Z -> Z -> M bool) : Prop :=
  forall D s lab used p tr tc,
    length p = n -> Forall index_ok p -> fork_inv D s lab used ->
    lab !! tr = Some (r, p) -> lab !! tc = Some (c, p) ->
    (forall ix, ix_ok ix -> p `prefix_of` ix -> ~ D ix) ->
    (forall i, index_ok i -> desc_valid (mem s (tc + 8 * i)) = false) ->
    wp (sub tr tc) (fun go s' => exists D' lab' used', fork_inv D' s' lab' used' /\ lab ⊆ lab' /\
      tables_kept n s s' lab /\ (go = false -> exhausted page_pool_start s') /\
      (go = true -> forall ix, ix_ok ix -> D' ix <-> D ix \/ p `prefix_of` ix)) s.

Lemma prefix_full (p ix : list Z) l :
  length p = 3%nat -> ix_ok ix -> p ++ [l] `prefix_of` ix <-> ix = p ++ [l].
Proof.
  intros Hp [Hl _]. split; [|by intros ->]. intros [k ->].
  rewrite !length_app in Hl. simpl in Hl. destruct k; [by rewrite app_nil_r | simpl in Hl; lia].
Qed.

Lemma copy_spec_l3 : copy_spec 3 (cpy_l3 page_pool_start).
Proof.
  intros D s lab used p tr tc Hlp Hp HF Htr Htc Hfresh _. unfold cpy_l3.
  apply (wp_for_while
    (fun l s' => exists used', fork_inv (done_upto D p l) s' lab used' /\ tables_kept 3 s s' lab)
    (fun s' => exists D' used', fork_inv D' s' lab used' /\ tables_kept 3 s s' lab /\ exhausted page_pool_start s')).
  - exists used. split; [|done]. eapply fork_inv_equiv; [done|]. intros ix _. unfold done_upto.
    split; [by left|]. intros [|(j & Hj & _)]; [done | lia].
  - intros l s1 Hl (u1 & F1 & K1). pose proof F1 as [[fl1 Hi1] Hc1 _ _ _ _ _ _ _ _ _ _].
    assert (Hx : index_ok l) by done.
    assert (Hok : ix_ok (p ++ [l])).
    { split; [rewrite length_app, Hlp; done|]. apply Forall_app. by rewrite Forall_singleton. }
    assert (Hnd : ~ done_upto D p l (p ++ [l])) by by apply not_done.
    assert (Hr : is_root lab r) by by apply (fi_roots _ _ _ _ F1).
    assert (Hc : is_root lab c) by by apply (fi_roots _ _ _ _ F1).
    pose proof (table_leaf s1 lab fl1 u1 tr r p l Hi1 Htr) as Hlf.
    assert (Hext : forall ix, ix_ok ix ->
      (done_upto D p l ix \/ ix = p ++ [l]) <-> done_upto D p (l + 1) ix).
    { intros ix Hix. by rewrite done_succ, (prefix_full p ix l Hlp Hix) by lia. }
    destruct (desc_valid (mem s1 (tr + 8 * l))) eqn:Ev.
    + eapply wp_mono; [eapply (wp_cpy_pte s1 lab fl1 u1 tr tc r c l p); try done; [by apply (fi_todo _ _ _ _ F1)|]|].
      { intros pg Hpg _. enough (refcount pg < 65535) by lia.
        eapply (fi_ref _ _ _ _ F1 (r, p ++ [l])); [by eapply copy_maps | done |]. intros ix Hm.
        pose proof (fi_link _ _ _ _ F1 _ _ _ Hm (copy_maps s1 lab fl1 u1 tr r l p Hi1 Hr Htr Hlp Hp Hx Ev)).
        subst ix. destruct Hm as (_ & Hv & _). by rewrite (fi_todo _ _ _ _ F1) in Hv. }
      intros go s2 Hgo. destruct go.
      * destruct Hgo as (u2 & e1 & e2 & HL). exists u2. split.
        { eapply fork_inv_equiv; [eapply fork_step_leaf; try done; by rewrite Hlf | done]. }
        intros t rt q i Ht Hq Hii. rewrite (lc_tables _ _ _ _ _ _ _ _ _ HL t rt q) by done. by eapply K1.
      * destruct Hgo as (T & Em & Hex). exists (done_upto D p l), u1.
        split_and!; [by eapply fork_step_table | | done]. intros t rt q i Ht Hq Hii. rewrite Em. by eapply K1.
    + unfold cpy_pte. apply wp_bind, wp_fetch. rewrite Ev. apply wp_ret. exists u1. split; [|done].
      eapply fork_inv_equiv; [eapply (fork_skip _ (fun ix => ix = p ++ [l])); [done | |] | done].
      * intros ix _ ->. by rewrite Hlf.
      * by intros ix _ ->.
  - intros s' (u' & F' & K'). exists (done_upto D p 512), lab, u'. split_and!; [done | done | done | done |].
    intros _ ix Hix. apply done_all; [done | lia].
  - intros s' (D' & u' & F' & K' & Hex). exists D', lab, u'. by split_and!.
Qed.

Lemma labelled_invalid s lab fl used t rt p i ix :
  pt_inv page_pool_start s lab fl used -> lab !! t = Some (rt, p) ->
  desc_valid (mem s (t + 8 * i)) = false -> p ++ [i] `prefix_of` ix -> desc_valid (leaf s (rt, ix)) = false.
Proof.
  intros Hi Ht Hv [k ->]. unfold leaf. simpl. rewrite <- app_assoc. simpl.
  rewrite (labelled_entry page_pool_start s lab fl used rt p t i k Hi Ht). cbn [entry]. by rewrite Hv.
Qed.

Lemma insert_roots (lab : gmap Z (Z * list Z)) k q p i :
  lab !! k = None -> is_root (<[k := (c, p ++ [i])]> lab) q <-> is_root lab q.
Proof.
  intros Hk. unfold is_root. destruct (decide (k = q)) as [->|Hne].
  - rewrite lookup_insert_eq, Hk. split; [|done]. intros [= _ E]. by destruct p.
  - by rewrite lookup_insert_ne.
Qed.

(** The body of the loop at an upper level, at a valid descriptor: a fresh
    table [k] is installed and the table below is copied. *)
Lemma wp_cpy_level_body n sub D s lab used p tr tc i :
  (n < 3)%nat -> copy_spec (S n) sub -> length p = n -> Forall index_ok p -> index_ok i ->
  fork_inv D s lab used -> lab !! tr = Some (r, p) -> lab !! tc = Some (c, p) ->
  (forall ix, ix_ok ix -> p ++ [i] `prefix_of` ix -> ~ D ix) ->
  desc_valid (mem s (tc + 8 * i)) = false -> desc_valid (mem s (tr + 8 * i)) = true ->
  wp (dst_next ← alloc_page page_pool_start;
      if dst_next =? 0 then mret false else
      _ ← wr (tc + 8 * i) (table_desc dst_next);
      sub (desc_table (mem s (tr + 8 * i))) dst_next)
    (fun go s' => exists D' lab' used', fork_inv D' s' lab' used' /\ lab ⊆ lab' /\ tables_kept n s s' lab /\
      (forall j, index_ok j -> j <> i -> mem s' (tc + 8 * j) = mem s (tc + 8 * j)) /\ (go = false -> exhausted page_pool_start s') /\
      (go = true -> forall ix, ix_ok ix -> D' ix <-> D ix \/ p ++ [i] `prefix_of` ix)) s.
Proof.
  intros Hn Hsub Hlp Hp Hx HF Htr Htc Hnd Hinv Hval. pose proof HF as [[fl Hi] Hc _ _ _ _ _ _ _ _ _ _].
  apply wp_bind. eapply wp_mono; [apply (wp_alloc_page _ pool_in_ram s fl used), Hi|].
  intros k s1 [(-> & Ha & Em & Eg & -> & Hf & _) | (Hk0 & Hku & Hkr & Hka & Hfr & fl' & Ha)].
  - apply wp_ret. exists D, lab, used. split_and!; [| done | | | intros _; split; [exact (ai_chain _ _ _ _ Ha) | done] | done].
    + eapply fork_step_table; [done | | done]. eapply alloc_table_step; [done | done | done | by rewrite Em | | by rewrite Eg].
      intros. unfold page_struct. by rewrite Eg.
    + intros t rt q j _ _ _. by rewrite Em.
    + intros j _ _. by rewrite Em.
  - rewrite (proj2 (Z.eqb_neq _ _) Hk0). apply wp_bind, wp_modify.
    set (s2 := set_mem _ s1).
    assert (Hlk : lab !! k = None).
    { destruct (lab !! k) as [[r' p']|] eqn:E; [|done]. by destruct (pi_used _ _ _ _ _ Hi _ _ _ E). }
    assert (T : table_step page_pool_start s s2 lab (<[k := (c, p ++ [i])]> lab) used ({[k]} ∪ used)).
    { eapply install_step; try done. lia. }
    assert (Hins : installed (mem s) (mem s2) tc i k).
    { intros a. simpl. unfold upd. by rewrite (proj1 Hfr). }
    destruct (table_page _ pool_in_ram _ _ _ _ _ _ Hi Htc) as [_ Htca].
    assert (Hktc : tc <> k) by (intros ->; congruence).
    eapply wp_mono.
    { apply (Hsub D s2 (<[k := (c, p ++ [i])]> lab) ({[k]} ∪ used) (p ++ [i])); try done.
      - rewrite length_app. simpl. lia.
      - apply Forall_app. by rewrite Forall_singleton.
      - eapply fork_step_table; [done | done |]. intros q. by apply insert_roots.
      - rewrite lookup_insert_ne; [apply (pi_child _ _ _ _ _ Hi); [done | lia | done | done]|].
        intros E. pose proof (pi_child _ _ _ _ _ Hi _ _ _ _ Htr ltac:(lia) Hx Hval). congruence.
      - apply lookup_insert_eq.
      - intros j Hj. by rewrite (installed_fresh _ _ _ _ _ j Hins). }
    intros go s3 (D' & lab' & used' & F' & S' & K' & X' & G').
    assert (Hs23 : forall t rt q j, lab !! t = Some (rt, q) -> (length q < S n)%nat -> index_ok j ->
              (t, j) <> (tc, i) -> mem s3 (t + 8 * j) = mem s (t + 8 * j)).
    { intros t rt q j Ht Hq Hj Hne. destruct (table_page _ pool_in_ram _ _ _ _ _ _ Hi Ht) as [_ Hta].
      assert (Htk : t <> k) by (intros ->; congruence).
      rewrite (K' t rt q) by (done || by rewrite lookup_insert_ne by done).
      by apply (installed_other _ _ _ _ _ t j Hins). }
    exists D', lab', used'. split_and!; [done | | | | done | done].
    + etrans; [by apply (insert_subseteq lab k (c, p ++ [i]))|done].
    + intros t rt q j Ht Hq Hj. eapply Hs23; [done | lia | done |]. intros [= -> ->]. simplify_eq. lia.
    + intros j Hj Hne. eapply Hs23; [done | lia | done |]. congruence.
Qed.

Lemma copy_spec_level n sub :
  (n < 3)%nat -> copy_spec (S n) sub -> copy_spec n (cpy_level page_pool_start sub).
Proof.
  intros Hn Hsub D s lab used p tr tc Hlp Hp HF Htr Htc Hfresh Hempty. unfold cpy_level.
  apply (wp_for_while
    (fun i s' => exists lab' used', fork_inv (done_upto D p i) s' lab' used' /\ lab ⊆ lab' /\
       tables_kept n s s' lab /\
       forall j, i <= j < 512 -> desc_valid (mem s' (tc + 8 * j)) = false)
    (fun s' => exists D' lab' used', fork_inv D' s' lab' used' /\ lab ⊆ lab' /\ tables_kept n s s' lab /\ exhausted page_pool_start s')).
  - exists lab, used. split_and!; [| done | done | done].
    eapply fork_inv_equiv; [done|]. intros ix _. unfold done_upto.
    split; [by left|]. intros [|(j & Hj & _)]; [done | lia].
  - intros i s1 Hir (lab1 & u1 & F1 & S1 & K1 & E1). assert (Hx : index_ok i) by done.
    pose proof (lookup_weaken _ _ _ _ Htr S1) as Htr1. pose proof (lookup_weaken _ _ _ _ Htc S1) as Htc1.
    pose proof F1 as [[fl1 Hi1] _ _ _ _ _ _ _ _ _ _ _].
    assert (Hnd : forall ix, ix_ok ix -> p ++ [i] `prefix_of` ix -> ~ done_upto D p i ix)
      by (intros ix Hix Hpx; by apply not_done).
    apply wp_bind, wp_fetch. destruct (desc_valid (mem s1 (tr + 8 * i))) eqn:Ev; cbn [negb].
    + eapply wp_mono; [eapply (wp_cpy_level_body n sub _ s1 lab1 u1 p tr tc i); try done; apply E1; lia|].
      intros go s2 (D2 & lab2 & u2 & F2 & S2 & K2 & T2 & X2 & G2).
      assert (HS : lab ⊆ lab2) by by transitivity lab1.
      assert (HK : tables_kept n s s2 lab).
      { intros t rt q j Ht Hq Hj. rewrite (K2 t rt q) by (done || by eapply lookup_weaken). by eapply K1. }
      destruct go; [|exists D2, lab2, u2; by split_and!; auto].
      exists lab2, u2. split_and!; [| done | done |].
      * eapply fork_inv_equiv; [done|]. intros ix Hix. rewrite done_succ by lia. by apply G2.
      * intros j Hj. rewrite T2; [apply E1; lia | unfold index_ok; lia | lia].
    + apply wp_ret. exists lab1, u1. split_and!; [| done | done | intros j Hj; apply E1; lia].
      eapply fork_inv_equiv; [eapply (fork_skip _ (fun ix => p ++ [i] `prefix_of` ix)); [done | | done]|].
      * intros ix _ Hpx. by eapply labelled_invalid.
      * intros ix Hix. by rewrite done_succ by lia.
  - intros s' (lab' & u' & F' & S' & K' & _). exists (done_upto D p 512), lab', u'. split_and!; try done.
    intros _ ix Hix. apply done_all; [done | lia].
  - intros s' (D' & lab' & u' & F' & S' & K' & Hex). exists D', lab', u'. by split_and!.
Qed.

Lemma copy_spec_l0 : copy_spec 0 (cpy_l0 page_pool_start).
Proof.
  apply copy_spec_level; [lia|]. apply copy_spec_level; [lia|]. apply copy_spec_level; [lia|].
  apply copy_spec_l3.
Qed.

End loops.
End fork.
