(* ===== verification/Destroy.v ===== *)
(** * Destroying an address space

    The correctness of [destroy_page_table_level]
    (kernel/memory/page_table/page_table.c), which runs when a process ends or
    is given a new image: every table of the address space is freed, every page
    it maps loses one reference and is freed with the last one, and no page,
    count or flag that another address space relies on is touched.

    The tables keep their descriptors while they are walked, so the counts lag
    behind the tables; [L] and [G] below say which leaves are still to be
    dropped and which tables are gone. *)

From S2P Require Import Prelude PageAlloc PageTable Cow Fork.

Lemma minus_in (p q : Z) (X : gset Z) : q ∈ X ∖ {[p]} -> q ∈ X /\ q <> p.
Proof. by rewrite elem_of_difference, elem_of_singleton. Qed.

Lemma minus_all (p : Z) (X Y : gset Z) l :
  (forall q, q ∈ Y -> q ∈ X \/ q ∈ l) -> forall q, q ∈ Y -> q ∈ X ∖ {[p]} \/ q ∈ p :: l.
Proof.
  intros H q [Hq|Hq]%H; [|right; by apply list_elem_of_further]. destruct (decide (q = p)) as [->|]; [right; apply list_elem_of_here|].
  left. rewrite elem_of_difference, elem_of_singleton. done.
Qed.

(** Dropping the last reference frees the page. *)
Lemma wp_dec_refcount_last pool fl used d pg s (Q : unit -> pt_state -> Prop) :
  KERNEL_VA_BASE < pool <= RAM_end ->
  alloc_inv pool s fl used -> d ∈ used -> page_struct s d = Some pg -> refcount pg = 1 ->
  (forall s' v, alloc_inv pool s' (d :: fl) (used ∖ {[d]}) -> mem s' = PageAlloc.upd (mem s) d v ->
     pages s' = insert_page d (mkPage 0 0) (pages s) -> Q tt s') ->
  wp (dec_pte_refcount_pa (d - KERNEL_VA_BASE)) Q s.
Proof.
  intros Hpool Ha Hd Hpg Hr HQ. destruct (inv_in_ram _ Hpool _ _ _ d Ha) as [Hram _]; [by right|].
  pose proof (in_ram_kva d Hram) as Hk.
  eapply wp_bind, wp_pfn_pa; [done | done |]. unfold dec_refcount. rewrite pfn_nonneg by done.
  eapply wp_bind, wp_page_at; [done|]. rewrite Hr. cbn [Z.eqb].
  eapply wp_bind, wp_put_page_at; [done | done |]. change (to_u16 (1 - 1)) with 0.
  eapply wp_bind, wp_uncount_shared. intros s1 (Em & Eg & En & Ef). cbn [when Z.eqb].
  change PA_MASK with (2 ^ 48 - 1). rewrite land_ones_mod, Z.mod_small by lia.
  rewrite phys_kva, Zplus_minus by lia.
  eapply wp_mono; [eapply (wp_free_page _ Hpool s1 fl used); [|done]|].
  - eapply alloc_inv_write; [exact Ha | done | done | by rewrite Em |]. intros l. rewrite Eg.
    by apply pages_cover_with, Ha.
  - intros [] s2 (Ha2 & Em2 & Eg2). rewrite Em in Em2. rewrite Eg in Eg2. eapply HQ; [done | done |].
    rewrite Eg2. unfold with_page, insert_page. simpl. destruct (pages s); [|done]. simpl. by rewrite list_insert_insert_eq.
Qed.

Section destroy.
Variable page_pool_start : Z.
Hypothesis pool_in_ram : KERNEL_VA_BASE < page_pool_start <= RAM_end.
Variables (s0 : pt_state) (lab : gmap Z (Z * list Z)) (fl0 : list Z) (used0 : gset Z) (r : Z).
Hypothesis Hi0 : pt_inv page_pool_start s0 lab fl0 used0.
Hypothesis Hc0 : cow_inv s0 lab used0.
Hypothesis Ho0 : once s0 lab.

(** The reference of the leaf [x] still counts. *)
Definition counts (L : list Z -> Prop) (x : slot) : Prop := fst x <> r \/ L (snd x).

Definition words_kept (s : pt_state) (p : Z) : Prop :=
  forall i, index_ok i -> mem s (p + 8 * i) = mem s0 (p + 8 * i).

Record shared (L : list Z -> Prop) (s : pt_state) (used : gset Z) (d : Z) : Prop := {
  sh_used : d ∈ used;
  sh_words : words_kept s d;
  sh_marked : marked s d = marked s0 d;
  sh_count : exists pg, page_struct s d = Some pg /\ refcount pg < 65536 /\
    forall l, NoDup l -> (forall y, y ∈ l -> maps s0 lab y d /\ counts L y) -> Z.of_nat (length l) <= refcount pg
}.

Record going (L : list Z -> Prop) (G : Z -> Prop) (s : pt_state) (used : gset Z) : Prop := {
  go_alloc : exists fl, alloc_inv page_pool_start s fl used /\ forall q, q ∈ used0 -> q ∈ used \/ q ∈ fl;
  go_sub : used ⊆ used0;
  go_table : forall t x, lab !! t = Some x -> ~ G t -> t ∈ used /\ words_kept s t;
  go_gone : forall t x, lab !! t = Some x -> G t -> t ∉ used;
  go_data : forall x d, maps s0 lab x d -> counts L x -> shared L s used d;
  go_live : forall ix d, maps s0 lab (r, ix) d -> L ix -> page_struct s d = page_struct s0 d;
  go_freed : forall ix d pg, maps s0 lab (r, ix) d -> ~ L ix -> page_struct s0 d = Some pg -> refcount pg = 1 -> d ∉ used;
  go_other : forall d, d ∈ used0 -> lab !! d = None -> (forall ix, ~ maps s0 lab (r, ix) d) ->
    d ∈ used /\ words_kept s d /\ page_struct s d = page_struct s0 d;
  go_pages : pages s <> None
}.

Lemma mapped_page x d : maps s0 lab x d -> d ∈ used0 /\ lab !! d = None.
Proof. apply (ci_data _ _ _ Hc0). Qed.

Lemma going_start : pages s0 <> None -> going (fun _ => True) (fun _ => False) s0 used0.
Proof.
  intros Hp. constructor; try done.
  - exists fl0. split; [apply Hi0 | by left].
  - intros t [q p] Ht _. split; [by destruct (pi_used _ _ _ _ _ Hi0 _ _ _ Ht) | done].
  - intros x d Hx _. destruct (mapped_page x d Hx). destruct (ci_count _ _ _ Hc0 _ _ Hx) as (pg & E & Hlt & Hn).
    constructor; try done. exists pg. split_and!; [done | done |]. intros l Hl Hin. apply Hn; [done|]. intros y Hy. by apply Hin.
Qed.

Lemma going_ext L G L' G' s used :
  going L G s used ->
  (forall ix d, maps s0 lab (r, ix) d -> L ix <-> L' ix) -> (forall t x, lab !! t = Some x -> G t <-> G' t) ->
  going L' G' s used.
Proof.
  intros [A S T N D V F O P] HL HG.
  assert (Hcount : forall x d, maps s0 lab x d -> counts L' x <-> counts L x).
  { intros [q ix] d Hx. unfold counts. simpl. destruct (decide (q = r)) as [->|]; [|tauto].
    pose proof (HL ix d Hx). tauto. }
  constructor; try done.
  - intros t x Ht Hn. apply (T t x Ht). by rewrite (HG t x Ht).
  - intros t x Ht Hn. apply (N t x Ht). by rewrite (HG t x Ht).
  - intros x d Hx Hcx. rewrite (Hcount x d Hx) in Hcx. destruct (D x d Hx Hcx) as [D1 D2 D3 (pg & E & Hlt & Hn)].
    constructor; try done. exists pg. split_and!; [done | done |]. intros l Hl Hin. apply Hn; [done|].
    intros y Hy. destruct (Hin y Hy) as [Hm Hcy]. by rewrite <- (Hcount y d Hm).
  - intros ix d Hx HL'. apply (V ix d Hx). by rewrite (HL ix d Hx).
  - intros ix d pg Hx HL'. apply (F ix d pg Hx). by rewrite (HL ix d Hx).
Qed.

(** A step that touches one page [p] only. *)
Lemma going_step L G s used L' G' s' used' p :
  going L G s used ->
  (exists fl, alloc_inv page_pool_start s' fl used' /\ forall q, q ∈ used0 -> q ∈ used' \/ q ∈ fl) -> pages s' <> None -> used' ⊆ used ->
  (forall q, q ∈ used -> q <> p -> q ∈ used' /\ page_struct s' q = page_struct s q /\
     forall i, index_ok i -> mem s' (q + 8 * i) = mem s (q + 8 * i)) ->
  (forall ix, L' ix -> L ix) ->
  (forall t x, lab !! t = Some x -> ~ G' t -> t <> p /\ ~ G t) ->
  (forall t x, lab !! t = Some x -> G' t -> t ∉ used') ->
  (forall x, maps s0 lab x p -> counts L' x -> shared L' s' used' p) ->
  (forall ix, maps s0 lab (r, ix) p -> ~ L' ix) ->
  (forall ix d pg, maps s0 lab (r, ix) d -> ~ L' ix -> page_struct s0 d = Some pg -> refcount pg = 1 -> d ∉ used') ->
  (lab !! p = None -> exists ix, maps s0 lab (r, ix) p) ->
  going L' G' s' used'.
Proof.
  intros [A S T N D V F O P] A' P' S' K HL HT HN HD HV HF HO.
  assert (Hcount : forall x, counts L' x -> counts L x) by (intros x [?|?]; [by left | right; auto]).
  constructor; try done.
  - by etransitivity.
  - intros t x Ht Hg. destruct (HT t x Ht Hg) as [Hne Hg']. destruct (T t x Ht Hg') as [Hu Hw].
    destruct (K t Hu Hne) as (Hu' & _ & Hm). split; [done|]. intros i Hi. by rewrite Hm, Hw.
  - intros x d Hx Hcx. destruct (decide (d = p)) as [->|Hne]; [by apply (HD x)|].
    destruct (D x d Hx (Hcount x Hcx)) as [D1 D2 D3 (pg & E & Hlt & Hn)].
    destruct (K d D1 Hne) as (Hu' & Hs & Hm). constructor; [done | intros i Hi; by rewrite Hm, D2 | |].
    + rewrite <- D3. unfold marked. by rewrite Hs.
    + exists pg. rewrite Hs. split_and!; [done | done |]. intros l Hl Hin. apply Hn; [done|].
      intros y Hy. destruct (Hin y Hy). auto.
  - intros ix d Hx HL'. destruct (decide (d = p)) as [->|Hne]; [by destruct (HV ix Hx)|].
    destruct (D _ d Hx) as [D1 _ _ _]; [by right; apply HL|].
    destruct (K d D1 Hne) as (_ & -> & _). by apply (V ix d Hx), HL.
  - intros d Hd Hl Hn. destruct (O d Hd Hl Hn) as (Hu & Hw & Hs).
    assert (Hne : d <> p) by (intros ->; destruct (HO Hl) as [ix Hx]; by apply (Hn ix)).
    destruct (K d Hu Hne) as (Hu' & Hs' & Hm). split_and!; [done | | congruence].
    intros i Hi. by rewrite Hm, Hw.
Qed.

Lemma freed_page_kept s s' fl used p v pg :
  alloc_inv page_pool_start s fl used -> p ∈ used ->
  mem s' = PageAlloc.upd (mem s) p v -> pages s' = insert_page p pg (pages s) ->
  forall q, q ∈ used -> q <> p -> q ∈ used ∖ {[p]} /\ page_struct s' q = page_struct s q /\
    forall i, index_ok i -> mem s' (q + 8 * i) = mem s (q + 8 * i).
Proof.
  intros Ha Hp Em Eg q Hq Hne.
  destruct (inv_in_ram _ pool_in_ram _ _ _ q Ha) as [Hqr Hqa]; [by right|].
  destruct (inv_in_ram _ pool_in_ram _ _ _ p Ha) as [Hpr Hpa]; [by right|]. split_and!.
  - rewrite elem_of_difference, elem_of_singleton. done.
  - by eapply (page_struct_insert_ne s s' p).
  - intros i Hi. rewrite Em. apply upd_ne. intros E. replace p with (p + 8 * 0) in E by lia.
    apply slot_inj in E as [? _]; [done | done | done | done | unfold index_ok; lia].
Qed.

(** A leaf loses its reference. *)
Lemma wp_drop_leaf L G s used ix d :
  going L G s used -> maps s0 lab (r, ix) d -> L ix ->
  wp (dec_pte_refcount_pa (d - KERNEL_VA_BASE)) (fun _ s' => exists used', going (fun j => L j /\ j <> ix) G s' used') s.
Proof.
  intros Hg Hx HL. destruct (go_alloc _ _ _ _ Hg) as (fl & Ha & Hall).
  destruct (go_data _ _ _ _ Hg _ _ Hx (or_intror HL)) as [Hu Hw Hm (pg & Hpg & Hlt & Hn)].
  destruct (inv_in_ram _ pool_in_ram _ _ _ d Ha) as [Hr Hal]; [by right|].
  destruct (mapped_page _ _ Hx) as [_ Hl].
  assert (Hone : 1 <= refcount pg).
  { apply (Hn [(r, ix)]); [apply NoDup_singleton|]. intros y ->%list_elem_of_singleton. split; [done | by right]. }
  assert (Honly : forall j, maps s0 lab (r, j) d -> j = ix).
  { intros j Hj. by injection (Ho0 _ _ _ Hj Hx eq_refl). }
  assert (Hns : forall t x, lab !! t = Some x -> t <> d) by (intros t x Ht ->; congruence).
  assert (Hrest : forall l, NoDup l -> (forall y, y ∈ l -> maps s0 lab y d /\ counts (fun j => L j /\ j <> ix) y) ->
            Z.of_nat (length l) <= refcount pg - 1).
  { intros l Hnd Hin. enough (Z.of_nat (length (((r, ix) : slot) :: l)) <= refcount pg) by (cbn [length] in *; lia). apply Hn.
    - apply NoDup_cons. split; [|done]. intros [_ [Hy | [_ Hy]]]%Hin; by apply Hy.
    - intros y [->|Hy]%elem_of_cons; [split; [done | by right]|]. destruct (Hin y Hy) as [Hy1 [Hy2 | [Hy2 _]]]; (split; [done|]); [by left | by right]. }
  destruct (decide (refcount pg = 1)) as [E1|E1].
  - eapply (wp_dec_refcount_last _ fl used d pg); try done. intros s' v Ha' Em Eg. exists (used ∖ {[d]}).
    eapply (going_step L G s used _ _ s' _ d Hg); try done.
    + exists (d :: fl). split; [done | by apply minus_all].
    + rewrite Eg. by apply insert_page_some, (go_pages _ _ _ _ Hg).
    + by intros q [? _]%elem_of_difference.
    + by eapply freed_page_kept.
    + tauto.
    + intros t x Ht Hgt. split; [by eapply Hns | done].
    + intros t x Ht Hgt Hin. apply (go_gone _ _ _ _ Hg t x Ht Hgt). by apply minus_in in Hin as [? _].
    + intros x Hxd Hcx. specialize (Hrest [x] (NoDup_singleton x)).
      enough (Z.of_nat (length [x]) <= refcount pg - 1) by (cbn [length] in *; lia). apply Hrest. by intros y ->%list_elem_of_singleton.
    + intros j Hj. rewrite (Honly j Hj). tauto.
    + intros j q pq Hj HL' Hpq Hq Hin. destruct (decide (j = ix)) as [->|Hne].
      * rewrite (maps_fun _ _ _ _ _ Hj Hx) in Hin. by apply minus_in in Hin as [_ ?].
      * apply (go_freed _ _ _ _ Hg j q pq); [done | tauto | done | done | by apply minus_in in Hin as [? _]].
    + intros _. by exists ix.
  - eapply (wp_dec_refcount d pg s); [done | done | lia |]. intros s' (Em & Eg & En & Ef). exists used.
    eapply (going_step L G s used _ _ s' _ d Hg); try done.
    + exists fl. split; [|done]. eapply alloc_inv_write; [exact Ha | done | done | by rewrite Em |]. intros l. rewrite Eg.
      by apply pages_cover_with, Ha.
    + rewrite Eg. by apply insert_page_some, (go_pages _ _ _ _ Hg).
    + intros q Hq Hne. destruct (inv_in_ram _ pool_in_ram _ _ _ q Ha) as [Hqr Hqa]; [by right|].
      split_and!; [done | | by rewrite Em].
      eapply (page_struct_insert_ne s s' d); [done | done | done | done | by intros -> | exact Eg].
    + tauto.
    + intros t x Ht Hgt. split; [by eapply Hns | done].
    + by apply (go_gone _ _ _ _ Hg).
    + intros x Hxd Hcx. pose proof (with_page_eq s d pg (mkPage (refcount pg - 1) (flags pg)) Hpg) as Hs'.
      assert (Es : page_struct s' d = Some (mkPage (refcount pg - 1) (flags pg)))
        by (rewrite <- Hs'; by apply page_struct_core).
      constructor; [done | by intros i Hi; rewrite Em; apply Hw | |].
      * rewrite <- Hm. unfold marked. by rewrite Es, Hpg.
      * eexists. split; [exact Es|]. simpl. split; [lia | done].
    + intros j Hj. rewrite (Honly j Hj). tauto.
    + intros j q pq Hj HL' Hpq Hq Hin. destruct (decide (j = ix)) as [->|Hne].
      * rewrite (maps_fun _ _ _ _ _ Hj Hx) in Hpq. rewrite <- (go_live _ _ _ _ Hg ix d Hx HL) in Hpq. congruence.
      * apply (go_freed _ _ _ _ Hg j q pq); [done | tauto | done | done | done].
    + intros _. by exists ix.
Qed.

(** A table is freed. *)
Lemma wp_free_table L G s used t x :
  going L G s used -> lab !! t = Some x -> ~ G t ->
  wp (free_page t) (fun _ s' => exists used', going L (fun t' => G t' \/ t' = t) s' used') s.
Proof.
  intros Hg Ht Hgt. destruct (go_alloc _ _ _ _ Hg) as (fl & Ha & Hall). destruct (go_table _ _ _ _ Hg t x Ht Hgt) as [Hu _].
  eapply wp_mono; [by apply (wp_free_page _ pool_in_ram s fl used t)|]. intros [] s' (Ha' & Em & Eg).
  assert (Hno : forall y, ~ maps s0 lab y t) by (intros y Hy; destruct (mapped_page _ _ Hy); congruence).
  exists (used ∖ {[t]}). eapply (going_step L G s used _ _ s' _ t Hg); try done.
  - exists (t :: fl). split; [done | by apply minus_all].
  - rewrite Eg. by apply insert_page_some, (go_pages _ _ _ _ Hg).
  - by intros q [? _]%elem_of_difference.
  - by eapply freed_page_kept.
  - intros t' y Ht' Hn. split; [intros ->; tauto | tauto].
  - intros t' y Ht' [Hgt' | ->] Hin; apply minus_in in Hin as [Hin Hne]; [|done]. by apply (go_gone _ _ _ _ Hg t' y Ht' Hgt').
  - intros y Hy. by destruct (Hno y).
  - intros ix Hy. by destruct (Hno (r, ix)).
  - intros ix d pg Hx HL Hpg Hr Hin. apply (go_freed _ _ _ _ Hg ix d pg Hx HL Hpg Hr). by apply minus_in in Hin as [? _].
  - congruence.
Qed.

(** *** Walking the tables *)

Lemma label_indices t q p : lab !! t = Some (q, p) -> Forall index_ok p.
Proof.
  revert t. induction p as [|i p IH] using rev_ind; intros t Ht; [apply Forall_nil_2|].
  destruct (pi_parent _ _ _ _ _ Hi0 _ _ _ _ Ht) as (t1 & Ht1 & Hi & _). apply Forall_app. split; [by eapply IH|].
  by apply Forall_singleton.
Qed.

(** The leaves and the tables under the first [i] entries of the table at [p]. *)
Definition under (p : list Z) (i : Z) (ix : list Z) : Prop := exists j q, 0 <= j < i /\ ix = p ++ j :: q.

Definition left_of (L : list Z -> Prop) (p : list Z) (i : Z) (ix : list Z) : Prop := L ix /\ ~ under p i ix.
Definition gone_of (G : Z -> Prop) (p : list Z) (i : Z) (t : Z) : Prop :=
  G t \/ exists x, lab !! t = Some (r, x) /\ under p i x.

Lemma under_next p i ix : under p (i + 1) ix <-> under p i ix \/ exists q, 0 <= i /\ ix = p ++ i :: q.
Proof.
  split.
  - intros (j & q & Hj & ->). destruct (decide (j = i)) as [->|].
    + right. exists q. split; [lia | done].
    + left. exists j, q. split; [lia | done].
  - intros [(j & q & Hj & ->) | (q & Hi & ->)]; [exists j, q | exists i, q]; (split; [lia | done]).
Qed.

Lemma under_self p i q : ~ under p i (p ++ i :: q).
Proof. intros (j & q' & Hj & E). apply app_inv_head in E. injection E as ->. lia. Qed.

Section level.
Variables (L : list Z -> Prop) (G : Z -> Prop) (t : Z) (p : list Z).
Hypothesis Ht : lab !! t = Some (r, p).
Hypothesis HL : forall q, L (p ++ q).
Hypothesis HG : forall t' q, lab !! t' = Some (r, p ++ q) -> ~ G t'.

Lemma level_in_place i s used : going (left_of L p i) (gone_of G p i) s used -> t ∈ used /\ words_kept s t.
Proof.
  intros Hg. apply (go_table _ _ _ _ Hg t _ Ht). intros [Hgt | (x & Hx & j & q & _ & ->)].
  - by apply (HG t []); [rewrite app_nil_r|].
  - rewrite Ht in Hx. injection Hx as E. rewrite <- (app_nil_r p) in E at 1. by apply app_inv_head in E.
Qed.

(** An entry that is not valid has nothing below it. *)
Lemma level_skip i s used :
  index_ok i -> desc_valid (mem s0 (t + 8 * i)) = false ->
  going (left_of L p i) (gone_of G p i) s used -> going (left_of L p (i + 1)) (gone_of G p (i + 1)) s used.
Proof.
  intros Hi Hv Hg. eapply going_ext; [exact Hg | |].
  - intros ix d (_ & Hvl & _). unfold left_of. rewrite under_next. split; [|tauto]. intros [? Hn]. split; [done|].
    intros [?|(q & _ & ->)]; [tauto|]. unfold leaf in Hvl. simpl in Hvl.
    rewrite (labelled_entry _ s0 lab fl0 used0 r p t i q Hi0 Ht) in Hvl. cbn [entry] in Hvl. rewrite Hv in Hvl. done.
  - intros t' x Ht'. unfold gone_of. split; [intros [?|(y & Hy & Hu)]; [by left | right; exists y; rewrite under_next; tauto]|].
    intros [?|(y & Hy & Hu)]; [by left|]. apply under_next in Hu as [?|(q & _ & ->)]; [right; by exists y|].
    destruct (labelled_prefix _ _ _ _ _ _ _ _ Hi0 Hy p i q eq_refl) as (t1 & Ht1 & Hv1).
    rewrite (pi_inj _ _ _ _ _ Hi0 _ _ _ Ht1 Ht) in Hv1. congruence.
Qed.

Lemma level_drop i s used :
  length p = 3%nat -> index_ok i -> desc_valid (mem s0 (t + 8 * i)) = true -> is_root lab r ->
  going (left_of L p i) (gone_of G p i) s used ->
  wp (dec_pte_refcount_pa (Z.land (mem s0 (t + 8 * i)) PTE_ADDR_MASK))
    (fun _ s' => exists used', going (left_of L p (i + 1)) (gone_of G p (i + 1)) s' used') s.
Proof.
  intros Hp Hi Hv Hr Hg.
  assert (Hm : maps s0 lab (r, p ++ [i]) (desc_table (mem s0 (t + 8 * i)))).
  { unfold maps. rewrite (table_leaf _ s0 lab fl0 used0 t r p i Hi0 Ht), Hv. split_and!; [| done | done].
    split_and!; [done | simpl; rewrite length_app; simpl; lia |]. apply Forall_app. split; [by eapply label_indices | by apply Forall_singleton]. }
  destruct (data_page _ pool_in_ram s0 lab fl0 used0 _ _ Hi0 Hc0 Hm) as [Hd _].
  rewrite (desc_pa _ _ Hd eq_refl). eapply wp_mono; [eapply (wp_drop_leaf _ _ _ _ _ _ Hg Hm)|].
  - split; [apply HL | apply under_self].
  - intros [] s' (used' & Hg'). exists used'. eapply going_ext; [exact Hg' | |].
    + intros ix d ((_ & Hl & _) & _). simpl in Hl. unfold left_of. rewrite under_next. split.
      * intros [[? Hn] Hne]. split; [done|]. intros [?|(q & _ & ->)]; [tauto|].
        rewrite length_app in Hl. destruct q; [done | simpl in Hl; lia].
      * intros [? Hn]. split; [tauto|]. intros ->. apply Hn. right. exists []. split; [by destruct Hi | done].
    + intros t' x Ht'. unfold gone_of. split; (intros [?|(y & Hy & Hu)]; [by left|]; right; exists y; split; [done|]).
      * rewrite under_next. by left.
      * apply under_next in Hu as [?|(q & _ & ->)]; [done|].
        destruct (pi_used _ _ _ _ _ Hi0 _ _ _ Hy) as [_ Hlen]. rewrite length_app in Hlen. simpl in Hlen. lia.
Qed.

(** What the tables below the entry [i] leave behind. *)
Lemma level_below i s used :
  index_ok i ->
  going (fun ix => left_of L p i ix /\ ~ (p ++ [i]) `prefix_of` ix)
    (fun t' => gone_of G p i t' \/ exists q, lab !! t' = Some (r, (p ++ [i]) ++ q)) s used ->
  going (left_of L p (i + 1)) (gone_of G p (i + 1)) s used.
Proof.
  intros Hi Hg. eapply going_ext; [exact Hg | |].
  - intros ix d _. unfold left_of. rewrite under_next. split.
    + intros [[? Hn] Hne]. split; [done|]. intros [?|(q & _ & ->)]; [tauto|].
      apply Hne. exists q. by rewrite <- app_assoc.
    + intros [? Hn]. split; [tauto|]. intros [q ->]. apply Hn. right. exists q. rewrite <- app_assoc. split; [by destruct Hi | done].
  - intros t' x _. unfold gone_of. split.
    + intros [[?|(y & Hy & Hu)]|[q Hq]]; [by left | right; exists y; rewrite under_next; tauto|].
      right. eexists. split; [exact Hq|]. rewrite under_next. right. exists q. rewrite <- app_assoc. split; [by destruct Hi | done].
    + intros [?|(y & Hy & Hu)]; [tauto|]. apply under_next in Hu as [?|(q & _ & ->)]; [left; right; by exists y|].
      right. exists q. by rewrite <- app_assoc.
Qed.

(** The loop over the entries and the release of the table itself. *)
Lemma level_done s used :
  going (fun ix => L ix /\ ~ p `prefix_of` ix) (fun t' => G t' \/ exists q, lab !! t' = Some (r, p ++ q)) s used
  <-> going (left_of L p 512) (fun t' => gone_of G p 512 t' \/ t' = t) s used.
Proof.
  assert (A : forall ix d, maps s0 lab (r, ix) d -> under p 512 ix <-> p `prefix_of` ix).
  { intros ix d ((_ & Hl & Hx) & _). simpl in Hl, Hx. destruct (pi_used _ _ _ _ _ Hi0 _ _ _ Ht) as [_ Hp]. split.
    - intros (j & q & _ & ->). by exists (j :: q).
    - intros [q ->]. destruct q as [|j q]; [rewrite length_app in Hl; simpl in Hl; lia|].
      apply Forall_app in Hx as [_ [Hj _]%Forall_cons]. exists j, q. by split. }
  assert (B : forall t' x, lab !! t' = Some x ->
    G t' \/ (exists q, lab !! t' = Some (r, p ++ q)) <-> gone_of G p 512 t' \/ t' = t).
  { intros t' x Ht'. unfold gone_of. split.
    - intros [?|[q Hq]]; [tauto|]. destruct q as [|j q].
      + rewrite app_nil_r in Hq. right. by eapply (pi_inj _ _ _ _ _ Hi0).
      + left. right. eexists. split; [exact Hq|]. apply label_indices, Forall_app in Hq as [_ [Hj _]%Forall_cons]. exists j, q. by split.
    - intros [[?|(y & Hy & j & q & _ & ->)]| ->]; [tauto | right; by exists (j :: q) | right; exists []; by rewrite app_nil_r]. }
  split; intros Hg; (eapply going_ext; [exact Hg | |]); try (intros; by (rewrite <- B || rewrite B); eauto).
  all: intros ix d Hm; unfold left_of; rewrite (A ix d Hm); done.
Qed.

Lemma wp_level body s used :
  going L G s used ->
  (forall i s used, index_ok i -> mem s (t + 8 * i) = mem s0 (t + 8 * i) ->
     going (left_of L p i) (gone_of G p i) s used ->
     wp (body i) (fun _ s' => exists used', going (left_of L p (i + 1)) (gone_of G p (i + 1)) s' used') s) ->
  wp (_ ← for_st 512 0 body; free_page t) (fun _ s' => exists used',
    going (fun ix => L ix /\ ~ p `prefix_of` ix) (fun t' => G t' \/ exists q, lab !! t' = Some (r, p ++ q)) s' used') s.
Proof.
  intros Hg Hb. apply wp_bind, (wp_for_st (fun i s => exists used, going (left_of L p i) (gone_of G p i) s used)).
  - exists used. eapply going_ext; [exact Hg | intros ix d _ | intros t' x _]; unfold left_of, gone_of, under; split.
    + intros ?. split; [done|]. intros (j & q & Hj & _). lia.
    + tauto.
    + tauto.
    + intros [?|(y & _ & j & q & Hj & _)]; [done | lia].
  - intros i s1 Hi (u1 & Hg1). apply (Hb i s1 u1); [done | | done]. by apply (level_in_place i s1 u1).
  - intros s1 (u1 & Hg1). destruct (level_in_place _ _ _ Hg1) as [Hu _].
    eapply wp_mono; [eapply (wp_free_table _ _ s1 u1 t _ Hg1 Ht)|].
    + intros Hn. by apply (go_gone _ _ _ _ Hg1 t _ Ht Hn).
    + intros [] s2 (u2 & Hg2). exists u2. by apply level_done.
Qed.

End level.

Lemma wp_destroy_level depth : forall t p L G s used,
  is_root lab r -> lab !! t = Some (r, p) -> (length p + depth = 3)%nat -> going L G s used ->
  (forall q, L (p ++ q)) -> (forall t' q, lab !! t' = Some (r, p ++ q) -> ~ G t') ->
  wp (destroy_page_table_level depth t) (fun _ s' => exists used',
    going (fun ix => L ix /\ ~ p `prefix_of` ix) (fun t' => G t' \/ exists q, lab !! t' = Some (r, p ++ q)) s' used') s.
Proof.
  induction depth as [|depth IH]; intros t p L G s used Hr Ht Hlen Hg HL HG;
    destruct (table_page _ pool_in_ram _ _ _ _ _ _ Hi0 Ht) as [Htr _]; cbn [destroy_page_table_level];
    rewrite (proj2 (Z.eqb_neq _ _) (in_ram_nonzero t Htr));
    (eapply wp_level; [done | done | exact Hg |]); intros i s1 u1 Hi Em Hg1; apply wp_bind, wp_fetch; rewrite Em;
    (destruct (desc_valid (mem s0 (t + 8 * i))) eqn:Hv; cbn [negb];
      [|apply wp_ret; exists u1; by eapply level_skip]).
  - apply (level_drop L G t p Ht HL i s1 u1); [lia | done..].
  - pose proof (pi_child _ _ _ _ _ Hi0 _ _ _ _ Ht ltac:(lia) Hi Hv) as Hch.
    destruct (pi_parent _ _ _ _ _ Hi0 _ _ _ _ Hch) as (t1 & Ht1 & _ & _ & _ & Hbit).
    rewrite (pi_inj _ _ _ _ _ Hi0 _ _ _ Ht1 Ht) in Hbit. rewrite Hbit. cbn [when Z.eqb DESC_TABLE Z.shiftl].
    eapply wp_mono; [apply (IH _ (p ++ [i]) (left_of L p i) (gone_of G p i) s1 u1 Hr Hch); [rewrite length_app; simpl; lia | exact Hg1 | |]|].
    + intros q. rewrite <- app_assoc. split; [apply HL | apply under_self].
    + intros t' q Ht'. rewrite <- app_assoc in Ht'. intros [Hgt|(y & Hy & Hu)]; [by apply (HG t' _ Ht')|].
      rewrite Ht' in Hy. injection Hy as <-. by apply under_self in Hu.
    + intros [] s2 (u2 & Hg2). exists u2. by apply level_below.
Qed.

(** *** The address spaces that are left *)

Definition survivors : gmap Z (Z * list Z) := filter (fun x => x.2.1 <> r) lab.

Lemma survivors_lookup t q p : survivors !! t = Some (q, p) <-> lab !! t = Some (q, p) /\ q <> r.
Proof. unfold survivors. by rewrite map_lookup_filter_Some. Qed.

Lemma survivors_slot z : slot_ok survivors z <-> slot_ok lab z /\ fst z <> r.
Proof.
  unfold slot_ok, is_root. rewrite survivors_lookup.
  split; [intros ([? ?] & ? & ?) | intros ((? & ? & ?) & ?)]; by split_and!.
Qed.

Lemma survivors_inv : pt_inv page_pool_start s0 survivors fl0 used0.
Proof.
  destruct Hi0 as [I0 I1 I2 I3 I4 I5]. constructor; [done | | | | |].
  - intros t q p [Ht _]%survivors_lookup. by eapply I1.
  - intros t t' [q p] [Ht _]%survivors_lookup [Ht' _]%survivors_lookup. by eapply I2.
  - intros t q p i [Ht Hq]%survivors_lookup Hl Hx Hv. apply survivors_lookup. auto.
  - intros t q [Ht _]%survivors_lookup. by apply I4.
  - intros c q p i [Hc Hq]%survivors_lookup. destruct (I5 _ _ _ _ Hc) as (t & Ht & Hrest). exists t.
    by rewrite survivors_lookup.
Qed.

(** What is left of the state [s0] when the address space [r] is gone. *)
Record destroyed (s' : pt_state) (used' : gset Z) : Prop := {
  de_inv : exists fl, pt_inv page_pool_start s' survivors fl used' /\ forall q, q ∈ used0 -> q ∈ used' \/ q ∈ fl;
  de_cow : cow_inv s' survivors used';
  de_once : once s' survivors;
  de_leaf : forall z, slot_ok survivors z -> leaf s' z = leaf s0 z;
  de_page : forall z d, maps s0 survivors z d -> marked s' d = marked s0 d /\ words_kept s' d;
  de_sub : used' ⊆ used0;
  de_tables : forall t p, lab !! t = Some (r, p) -> t ∉ used';
  de_private : forall ix d pg, maps s0 lab (r, ix) d -> page_struct s0 d = Some pg -> refcount pg = 1 -> d ∉ used';
  de_other : forall d, d ∈ used0 -> lab !! d = None -> (forall ix, ~ maps s0 lab (r, ix) d) ->
    d ∈ used' /\ words_kept s' d /\ page_struct s' d = page_struct s0 d;
  de_words : forall t x, survivors !! t = Some x -> words_kept s' t;
  de_pages : pages s' <> None
}.

Lemma wp_destroy : 
  is_root lab r -> pages s0 <> None ->
  wp (destroy_page_table_level 3 r) (fun _ s' => exists used', destroyed s' used') s0.
Proof.
  intros Hr Hp. eapply wp_mono; [apply (wp_destroy_level 3 r [] (fun _ => True) (fun _ => False) s0 used0); [done | done | done | by apply going_start | done | intros t q _ []]|].
  intros [] s' (used' & [(fl & Ha & Hall) S T N D V F O P]). exists used'.
  destruct (tables_agree_on _ s0 s' survivors fl0 fl used0 used' survivors_inv Ha) as [Hinv Hsame].
  { intros t [q p] [Ht Hq]%survivors_lookup. apply (T t _ Ht). intros [[]|[q' E]]. congruence. }
  { intros t [q p] i [Ht Hq]%survivors_lookup Hi. apply (T t _ Ht); [|done]. intros [[]|[q' E]]. congruence. }
  assert (Hleaf : forall z, slot_ok survivors z -> leaf s' z = leaf s0 z).
  { intros z (Hz & Hl & Hx). apply (Hsame _ _ (fst z) []); [done | done | done]. }
  assert (Hmaps : forall z d, maps s' survivors z d <-> maps s0 lab z d /\ fst z <> r).
  { intros z d. unfold maps. split.
    - intros (Hz & Hv & Hd). rewrite Hleaf in Hv, Hd by done. apply survivors_slot in Hz. tauto.
    - intros ((Hz & Hv & Hd) & Hne). assert (Hz' : slot_ok survivors z) by by apply survivors_slot. by rewrite Hleaf. }
  assert (Hshared : forall z d, maps s0 lab z d -> fst z <> r -> shared (fun ix => True /\ ~ [] `prefix_of` ix) s' used' d)
    by (intros z d Hz Hne; apply (D z d Hz); by left).
  constructor; try done.
  - by exists fl.
  - constructor.
    + intros z d [Hz Hne]%Hmaps. split; [by apply (Hshared z d)|]. destruct (mapped_page _ _ Hz) as [_ Hl].
      destruct (survivors !! d) as [[q p]|] eqn:E; [|done]. apply survivors_lookup in E as [E _]. congruence.
    + intros z d [Hz Hne]%Hmaps. destruct (sh_count _ _ _ _ (Hshared z d Hz Hne)) as (pg & E & Hlt & Hn).
      exists pg. split_and!; [done | done |]. intros l Hl Hin. apply Hn; [done|].
      intros y [Hy Hyr]%Hin%Hmaps. split; [done | by left].
    + intros x y d [Hx Hxr]%Hmaps [Hy Hyr]%Hmaps Hne. rewrite Hleaf by (apply survivors_slot; split; [apply Hx | done]).
      by apply (ci_excl _ _ _ Hc0 x y d).
  - intros x y d [Hx Hxr]%Hmaps [Hy Hyr]%Hmaps. by apply (Ho0 x y d).
  - intros z d (Hz & Hv & Hd). apply survivors_slot in Hz as [Hz Hne].
    destruct (Hshared z d) as [_ Hw Hm _]; [by split_and! | done | done].
  - intros t p Ht. apply (N t _ Ht). right. by exists p.
  - intros ix d pg Hx. apply (F ix d pg Hx). intros [_ Hn]. apply Hn. by exists ix.
  - intros t [q p] [Ht Hq]%survivors_lookup i Hi. apply (T t _ Ht); [|done]. intros [[]|[q' E]]. congruence.
Qed.

End destroy.
