(* ===== verification/AddressSpace.v ===== *)
(** * Address spaces as private copies

    The contract of the virtual-memory code towards processes, stated over
    histories of the operations of PageTable.v, Cow.v and Fork.v: creating an
    address space, mapping a zeroed page on demand ([pt_map_new_page], called
    by the fault handlers), copying an address space ([cpy_address_space],
    called by fork), destroying one ([destroy_page_table], called when a process
    ends) and storing a word, which takes a permission fault when the page is
    shared copy-on-write.

    The abstract specification knows nothing of sharing: an address space is
    a partial function from pages to their words, a fork copies it, a store
    changes one word of one address space. *)

From S2P Require Import Prelude PageAlloc PageTable Cow Fork Destroy.

(** ** Abstract address spaces *)

Record apage := mkAPage { ap_write : bool; ap_words : Z -> Z }.

(** Pages are named by their four table indices. *)
Definition space : Type := list Z -> option apage.

Definition empty_space : space := fun _ => None.

Definition set_space (sp : space) (ix : list Z) (pg : apage) : space :=
  fun ix' => if decide (ix' = ix) then Some pg else sp ix'.

Definition store_space (sp : space) (ix : list Z) (i v : Z) : space :=
  match sp ix with
  | Some pg => set_space sp ix (mkAPage (ap_write pg) (upd (ap_words pg) i v))
  | None => sp
  end.

(** What happened, most recent first; [k] is the number of the address space. *)
Inductive vm_event :=
| ENew
| EMap (k : nat) (va : Z) (writable : bool)
| EFork (k : nat)
| EStore (k : nat) (va i v : Z)
| EDestroy (k : nat).

Definition apply_event (ev : vm_event) (sps : list space) : list space :=
  match ev with
  | ENew => sps ++ [empty_space]
  | EMap k va w => alter (fun sp => set_space sp (indices va) (mkAPage w (fun _ => 0))) k sps
  | EFork k => match sps !! k with Some sp => sps ++ [sp] | None => sps end
  | EStore k va i v => alter (fun sp => store_space sp (indices va) i v) k sps
  | EDestroy k => delete k sps
  end.

Definition spaces_of (log : list vm_event) : list space := fold_right apply_event [] log.

(** The word an address space holds at [va]. *)
Definition space_load (sp : space) (va : Z) : option Z :=
  match sp (indices va) with
  | Some pg => Some (ap_words pg ((va mod 4096) / 8))
  | None => None
  end.

(** The page at [va] is mapped and may be written. *)
Definition space_writable (sp : space) (va : Z) : bool :=
  match sp (indices va) with Some pg => ap_write pg | None => false end.

(** ** The operations *)

Section driver.
Variable page_pool_start : Z.

(** The processor's store of word [i] of the page at [va]: at once when the
    leaf is writable, else after the permission fault is handled. *)
Definition user_store (r va i v : Z) : M unit :=
  e ← fetch (fun s => leaf s (r, indices va));
  if pte_is_writable e then wr (desc_table e + 8 * i) v
  else
    _ ← permission_fault page_pool_start true true va (Some r);
    e' ← fetch (fun s => leaf s (r, indices va));
    wr (desc_table e' + 8 * i) v.

(** A load of the word at [va] through the tables. *)
Definition user_load (r va : Z) : M (option Z) :=
  a ← pt_get_mapped_page r va;
  if a =? 0 then mret None else w ← rd a; mret (Some w).

(** A page is left for a copy. *)
Definition room (s : pt_state) : bool :=
  negb (free_list s =? 0) || negb (frontier page_pool_start s =? RAM_end).

(** No count is at its 16-bit limit. *)
Definition counts_low (s : pt_state) : bool :=
  match pages s with
  | Some l => forallb (fun pg => refcount pg <? 65535) l
  | None => true
  end.

(** Stores the processor and the fault handler let through. *)
Definition store_allowed (s : pt_state) (r va i : Z) : bool :=
  desc_valid (leaf s (r, indices va)) && may_write s (r, indices va) &&
  (0 <=? i) && (i <? 512) && negb (Z.shiftr va 48 =? 0xFFFF) && room s.

Inductive vm_op :=
| VNew
| VMap (k : nat) (va attrs : Z)
| VFork (k : nat)
| VStore (k : nat) (va i v : Z)
| VDestroy (k : nat).

Definition vm_step (op : vm_op) (st : list Z * list vm_event) : M (list Z * list vm_event) :=
  let '(roots, log) := st in
  match op with
  | VNew =>
      r ← alloc_page page_pool_start;
      mret (if r =? 0 then (roots, log) else (roots ++ [r], ENew :: log))
  | VMap k va attrs =>
      match roots !! k with
      | None => mret (roots, log)
      | Some r =>
          page ← pt_map_new_page page_pool_start r va attrs;
          mret (roots, if page =? 0 then log else EMap k va (pte_is_writable attrs) :: log)
      end
  | VFork k =>
      low ← fetch counts_low;
      match roots !! k with
      | None => mret (roots, log)
      | Some r =>
          if negb low then mret (roots, log) else
          c ← alloc_page page_pool_start;
          if c =? 0 then mret (roots, log) else
          complete ← cpy_tables page_pool_start r c;
          mret (if (complete : bool) then (roots ++ [c], EFork k :: log) else (roots, log))
      end
  | VStore k va i v =>
      match roots !! k with
      | None => mret (roots, log)
      | Some r =>
          ok ← fetch (fun s => store_allowed s r va i);
          if negb ok then mret (roots, log) else
          _ ← user_store r va i v;
          mret (roots, EStore k va i v :: log)
      end
  | VDestroy k =>
      match roots !! k with
      | None => mret (roots, log)
      | Some r => _ ← destroy_page_table_level 3 r; mret (delete k roots, EDestroy k :: log)
      end
  end.

Fixpoint vm_run (ops : list vm_op) (st : list Z * list vm_event) : M (list Z * list vm_event) :=
  match ops with
  | [] => mret st
  | op :: ops => st' ← vm_step op st; vm_run ops st'
  end.

End driver.

(** ** Refinement *)

Section refinement.
Variable page_pool_start : Z.
Hypothesis pool_in_ram : KERNEL_VA_BASE < page_pool_start <= RAM_end.

(** The tables rooted at [r] represent the address space [sp]. *)
Definition space_rel (s : pt_state) (r : Z) (sp : space) : Prop :=
  forall ix, ix_ok ix ->
    match sp ix with
    | None => desc_valid (leaf s (r, ix)) = false
    | Some pg => desc_valid (leaf s (r, ix)) = true /\ may_write s (r, ix) = ap_write pg /\
        forall i, index_ok i -> view s (r, ix) i = ap_words pg i
    end.

Record vm_ok (s : pt_state) (lab : gmap Z (Z * list Z)) (used : gset Z) : Prop := {
  vo_pt : exists fl, pt_inv page_pool_start s lab fl used;
  vo_cow : cow_inv s lab used;
  vo_once : once s lab;
  vo_pages : pages s <> None
}.

Definition vm_sim (st : list Z * list vm_event) (s : pt_state) : Prop :=
  let '(roots, log) := st in
  exists lab used, vm_ok s lab used /\ NoDup roots /\
    length roots = length (spaces_of log) /\
    (forall r, r ∈ roots -> is_root lab r) /\
    forall k r sp, roots !! k = Some r -> spaces_of log !! k = Some sp -> space_rel s r sp.

(** Nothing changes for the address space [r]. *)
Lemma space_rel_keep s s' r sp :
  (forall ix, ix_ok ix -> leaf s' (r, ix) = leaf s (r, ix)) ->
  (forall ix, ix_ok ix -> desc_valid (leaf s (r, ix)) = true ->
     may_write s' (r, ix) = may_write s (r, ix) /\
     forall i, index_ok i -> view s' (r, ix) i = view s (r, ix) i) ->
  space_rel s r sp -> space_rel s' r sp.
Proof.
  intros Hl Hv HR ix Hix. specialize (HR ix Hix). rewrite (Hl ix Hix).
  destruct (sp ix) as [pg|]; [|done]. destruct HR as (Hd & Hw & Hview).
  destruct (Hv ix Hix Hd) as [Hw' Hview']. split_and!; [done | congruence |].
  intros i Hi. rewrite Hview' by done. by apply Hview.
Qed.

(** *** Steps that change no leaf *)

Section table_step.
Variables (s s' : pt_state) (lab lab' : gmap Z (Z * list Z)) (used used' : gset Z).
Hypothesis Hok : vm_ok s lab used.
Hypothesis Hpt : exists fl, pt_inv page_pool_start s' lab' fl used'.
Hypothesis Hslot : forall z, slot_ok lab' z <-> slot_ok lab z.
Hypothesis Hleaf : forall z, slot_ok lab z -> leaf s' z = leaf s z.
Hypothesis Hused : used ⊆ used'.
Hypothesis Hlab : forall t, t ∈ used -> lab' !! t = lab !! t.
Hypothesis Hdata : data_kept s s' lab used.
Hypothesis Hpages : pages s' <> None.

Lemma step_data z d : maps s lab z d ->
  page_struct s' d = page_struct s d /\ forall i, index_ok i -> mem s' (d + 8 * i) = mem s (d + 8 * i).
Proof.
  intros Hz. destruct (ci_data _ _ _ (vo_cow _ _ _ Hok) _ _ Hz) as [Hu Hl].
  destruct (Hdata d Hu Hl). done.
Qed.

Lemma step_vm_ok : vm_ok s' lab' used'.
Proof.
  destruct Hok as [_ Hc Ho _]. constructor; [done | | | done].
  - eapply cow_transfer; [done | done | done |]. intros z d Hz.
    destruct (ci_data _ _ _ Hc _ _ Hz) as [Hu Hl].
    split_and!; [apply (step_data z d Hz) | by apply Hused | by rewrite Hlab].
  - intros x y d Hx Hy. apply (maps_transfer s s' lab lab' Hslot Hleaf) in Hx.
    apply (maps_transfer s s' lab lab' Hslot Hleaf) in Hy. by eapply Ho.
Qed.

Lemma step_space_rel r sp : is_root lab r -> space_rel s r sp -> space_rel s' r sp.
Proof.
  intros Hr. apply space_rel_keep.
  - intros ix Hix. apply Hleaf. by split.
  - intros ix Hix Hv. assert (Hz : maps s lab (r, ix) (desc_table (leaf s (r, ix)))) by (split_and!; [by split|done..]).
    destruct (step_data _ _ Hz) as [Hp Hm]. split.
    + unfold may_write, marked. rewrite (Hleaf (r, ix)) by by split. by rewrite Hp.
    + intros i Hi. unfold view. rewrite (Hleaf (r, ix)) by by split. by apply Hm.
Qed.

End table_step.

Lemma table_step_slots s s' lab lab' used used' :
  table_step page_pool_start s s' lab lab' used used' -> forall z, slot_ok lab' z <-> slot_ok lab z.
Proof.
  intros T z. unfold slot_ok. split; intros (Hr & Hl); split; try done.
  - by apply (ts_roots _ _ _ _ _ _ _ T).
  - eapply lookup_weaken; [done | apply (ts_sub _ _ _ _ _ _ _ T)].
Qed.

Lemma vm_ok_table_step s s' lab lab' used used' :
  vm_ok s lab used -> table_step page_pool_start s s' lab lab' used used' ->
  vm_ok s' lab' used' /\ forall r sp, is_root lab r -> space_rel s r sp -> space_rel s' r sp.
Proof.
  intros Hok T. pose proof (ts_pages _ _ _ _ _ _ _ T (vo_pages _ _ _ Hok)) as Hp.
  pose proof (table_step_slots _ _ _ _ _ _ T) as Hs.
  assert (Hl : forall z, slot_ok lab z -> leaf s' z = leaf s z) by (intros z Hz; by eapply step_leaf).
  split; [|intros r sp; by eapply (step_space_rel s s' lab used Hok); [|apply T]].
  eapply (step_vm_ok s s' lab lab' used used' Hok); try done; apply T.
Qed.

Lemma sim_table_step roots log s s' lab used used' :
  vm_ok s lab used -> NoDup roots -> length roots = length (spaces_of log) ->
  (forall r, r ∈ roots -> is_root lab r) ->
  (forall k r sp, roots !! k = Some r -> spaces_of log !! k = Some sp -> space_rel s r sp) ->
  table_step page_pool_start s s' lab lab used used' ->
  vm_sim (roots, log) s'.
Proof.
  intros Hok Hnd Hlen Hroots HR T. destruct (vm_ok_table_step _ _ _ _ _ _ Hok T) as [Hok' HR'].
  exists lab, used'. split_and!; try done. intros k r sp Hk Hsp.
  apply HR'; [|by eapply HR]. by apply Hroots, (list_elem_of_lookup_2 _ k).
Qed.

(** *** A new address space *)

Lemma cow_relabel s lab lab' used :
  cow_inv s lab used -> (forall z d, maps s lab' z d <-> maps s lab z d) ->
  (forall z d, maps s lab z d -> lab' !! d = None) -> cow_inv s lab' used.
Proof.
  intros [C1 C2 C3] Hm Hl. constructor.
  - intros z d Hz%Hm. split; [by apply (C1 z d) | by eapply Hl].
  - intros z d Hz%Hm. destruct (C2 _ _ Hz) as (pg & Hpg & Hlt & Hcnt). exists pg.
    split_and!; [done | done |]. intros l Hn Hin. apply Hcnt; [done|]. intros y Hy. by apply Hm, Hin.
  - intros x y d Hx%Hm Hy%Hm. by eapply C3.
Qed.

Lemma new_root_vm s s' lab used c fl' :
  vm_ok s lab used -> c ∉ used -> in_ram c -> c mod 4096 = 0 -> fresh_page s s' c ->
  alloc_inv page_pool_start s' fl' ({[c]} ∪ used) ->
  let lab' := <[c := (c, [])]> lab in
  vm_ok s' lab' ({[c]} ∪ used) /\ lab !! c = None /\
  (forall i, index_ok i -> mem s' (c + 8 * i) = 0) /\
  (forall z, slot_ok lab z -> leaf s' z = leaf s z) /\
  (forall r sp, is_root lab r -> space_rel s r sp -> space_rel s' r sp).
Proof.
  intros Hok Hcu Hcr Hca Hfr Ha lab'. destruct (vo_pt _ _ _ Hok) as [fl Hi].
  destruct (new_root_step _ pool_in_ram s s' lab fl fl' used c) as (Hi' & T & Hlc & _); try done.
  assert (Hz : forall i, index_ok i -> mem s' (c + 8 * i) = 0).
  { intros i Hx. by rewrite (proj1 Hfr), word_of_idx. }
  assert (Hp : pages s' <> None) by (rewrite (proj2 Hfr); by apply insert_page_some, (vo_pages _ _ _ Hok)).
  destruct (vm_ok_table_step _ _ _ _ _ _ Hok T) as [Hok' HR].
  assert (Hm : forall z d, maps s' lab' z d <-> maps s' lab z d).
  { intros [rz ix] d. unfold maps, slot_ok, is_root, lab'. simpl.
    destruct (decide (rz = c)) as [->|Hne]; [|by rewrite lookup_insert_ne].
    rewrite lookup_insert_eq, Hlc. split; [|by intros ((? & _) & _)].
    intros ((_ & _ & Hx) & Hv & _). unfold leaf in Hv. simpl in Hv. by rewrite empty_table in Hv. }
  split_and!; [| done | done | intros z Hzo; by eapply step_leaf | done].
  destruct Hok' as [_ Hc' Ho' _]. constructor; [by exists fl' | | | done].
  - eapply cow_relabel; [done | done |]. intros z d Hzd. unfold lab'.
    assert (Hzs : maps s lab z d).
    { eapply (maps_transfer s s' lab lab); [done | intros; by eapply step_leaf | done]. }
    destruct (ci_data _ _ _ (vo_cow _ _ _ Hok) _ _ Hzs) as [Hdu Hdl].
    rewrite lookup_insert_ne; [done|]. by intros ->.
  - intros x y d Hx%Hm Hy%Hm. by eapply Ho'.
Qed.

Lemma sim_new roots log s s' lab used c fl' :
  vm_ok s lab used -> NoDup roots -> length roots = length (spaces_of log) ->
  (forall r, r ∈ roots -> is_root lab r) ->
  (forall k r sp, roots !! k = Some r -> spaces_of log !! k = Some sp -> space_rel s r sp) ->
  c ∉ used -> in_ram c -> c mod 4096 = 0 -> fresh_page s s' c ->
  alloc_inv page_pool_start s' fl' ({[c]} ∪ used) ->
  vm_sim (roots ++ [c], ENew :: log) s'.
Proof.
  intros Hok Hnd Hlen Hroots HR Hcu Hcr Hca Hfr Ha.
  destruct (new_root_vm s s' lab used c fl') as (Hok' & Hlc & Hz & _ & HR'); try done.
  assert (Hnew : c ∉ roots) by (intros Hc%Hroots; unfold is_root in Hc; congruence).
  exists (<[c := (c, [])]> lab), ({[c]} ∪ used). split_and!; [done | | | |].
  - apply NoDup_app. split_and!; [done | by intros r Hr ->%list_elem_of_singleton | apply NoDup_singleton].
  - simpl. rewrite !length_app. simpl. lia.
  - intros r [Hr | ->%list_elem_of_singleton]%elem_of_app; unfold is_root.
    + rewrite lookup_insert_ne by (by intros <-). by apply Hroots.
    + apply lookup_insert_eq.
  - intros k r sp. cbn [spaces_of fold_right apply_event]. fold (spaces_of log). intros Hk Hsp.
    apply lookup_app_Some in Hk as [Hk | [Hge Hk]].
    + rewrite lookup_app_l in Hsp by (apply lookup_lt_Some in Hk; lia).
      apply HR'; [|by eapply HR]. by apply Hroots, (list_elem_of_lookup_2 _ k).
    + rewrite lookup_app_r in Hsp by lia. rewrite Hlen in Hk.
      destruct (k - length (spaces_of log))%nat; [|done]. simplify_eq/=.
      intros ix [Hl4 Hix]. unfold leaf. simpl. by rewrite empty_table.
Qed.

(** *** Mapping a page *)

Lemma map_slots s s' lab lab' used used' ok l0 va pte :
  map_step page_pool_start s s' lab lab' used used' ok l0 va pte ->
  forall z, slot_ok lab' z <-> slot_ok lab z.
Proof.
  intros T z. unfold slot_ok. split; intros (Hr & Hl); split; try done.
  - by apply (ms_roots _ _ _ _ _ _ _ _ _ _ _ T).
  - eapply lookup_weaken; [done | apply (ms_sub _ _ _ _ _ _ _ _ _ _ _ T)].
Qed.

(** The vm invariant after a page was mapped at [x]. *)
Lemma map_vm s s' lab lab' used used' r va attrs page :
  vm_ok s lab used -> is_root lab r ->
  map_step page_pool_start s s' lab lab' used used' true r va (page_desc (kernel_phys_addr page) attrs) ->
  page ∉ used -> page ∈ used' -> lab' !! page = None -> in_ram page -> page mod 4096 = 0 ->
  page_struct s' page = Some (mkPage 1 0) -> pages s' <> None ->
  let x := (r, indices va) in
  vm_ok s' lab' used' /\ leaf s' x = page_desc (kernel_phys_addr page) attrs /\
  (forall z, slot_ok lab z -> z <> x -> leaf s' z = leaf s z).
Proof.
  intros Hok Hr T Hpu Hpu' Hpl Hpr Hpa Hps Hpn x. set (e := page_desc _ attrs).
  pose proof (map_slots _ _ _ _ _ _ _ _ _ _ T) as Hs.
  assert (Hx : slot_ok lab x) by (split_and!; [done | done | apply indices_ok]).
  assert (Hset : leaf_set s s' lab' x e).
  { intros z Hz. apply Hs in Hz. pose proof Hz as (H1 & H2 & H3). unfold leaf at 1.
    rewrite (ms_entry _ _ _ _ _ _ _ _ _ _ _ T (fst z) (snd z) H1 H2 H3). simpl.
    rewrite <- surjective_pairing. fold x e. case_bool_decide; case_decide; done. }
  assert (Hct : desc_table e = page) by (apply phys_desc_table; [done | done | apply page_desc_addr]).
  assert (Hc0 : cow_inv s lab' used).
  { eapply cow_relabel; [apply Hok | |].
    - intros z d. unfold maps. by rewrite Hs.
    - intros z d Hz. destruct (ci_data _ _ _ (vo_cow _ _ _ Hok) _ _ Hz) as [Hu Hl].
      by rewrite (ms_new _ _ _ _ _ _ _ _ _ _ _ T). }
  split_and!.
  - constructor; [apply (ms_inv _ _ _ _ _ _ _ _ _ _ _ T) | | | done].
    + assert (Hc1 : cow_inv s' lab' ({[page]} ∪ used)).
      { eapply (cow_retarget s s' lab' used x e page); try done; [apply page_desc_valid|].
        intros z q pg Hz Hq Hpg. destruct (ci_data _ _ _ Hc0 _ _ Hz) as [_ Hlq].
        rewrite (ms_new _ _ _ _ _ _ _ _ _ _ _ T) in Hlq by done.
        destruct (ms_data _ _ _ _ _ _ _ _ _ _ _ T q Hq Hlq) as [_ E].
        exists pg. rewrite E. split_and!; [done | lia | by left]. }
      destruct Hc1 as [C1 C2 C3]. constructor; [|done|done]. intros z d Hz.
      destruct (C1 z d Hz) as [[->%elem_of_singleton | Hu]%elem_of_union Hl]; [done|].
      split; [by apply (ms_used _ _ _ _ _ _ _ _ _ _ _ T) | done].
    + intros z w d Hz Hw Hzw. destruct (decide (z = x)) as [->|Hzx], (decide (w = x)) as [->|Hwx]; [done | | |].
      * apply (maps_set s s' lab' x e) in Hz; [|done]. apply (maps_other s s' lab' x e) in Hw; [|done..].
        destruct Hpu. rewrite <- Hct, Hz. by eapply ci_used.
      * apply (maps_set s s' lab' x e) in Hw; [|done]. apply (maps_other s s' lab' x e) in Hz; [|done..].
        destruct Hpu. rewrite <- Hct, Hw. by eapply ci_used.
      * apply (maps_other s s' lab' x e) in Hw; [|done..]. apply (maps_other s s' lab' x e) in Hz; [|done..].
        eapply (vo_once _ _ _ Hok); [| |exact Hzw]; unfold maps in *; rewrite <- Hs; done.
  - rewrite (Hset x) by by apply Hs. by rewrite decide_True.
  - intros z Hz Hne. rewrite (Hset z) by by apply Hs. by rewrite decide_False.
Qed.

(** Slots whose leaf and page are kept look the same. *)
Lemma kept_slot s s' lab used z d :
  vm_ok s lab used -> data_kept s s' lab used -> maps s lab z d -> leaf s' z = leaf s z ->
  may_write s' z = may_write s z /\ forall i, index_ok i -> view s' z i = view s z i.
Proof.
  intros Hok Hd Hz Hl. destruct (ci_data _ _ _ (vo_cow _ _ _ Hok) _ _ Hz) as [Hu Hlb].
  destruct (Hd d Hu Hlb) as [Hm Hp]. pose proof Hz as (_ & _ & Ed).
  unfold may_write, marked, view. rewrite Hl, Ed. split; [by rewrite Hp | done].
Qed.

(** Changing the address space number [k] and no other. *)
Lemma sim_alter roots log s s' lab lab' used used' k r f ev :
  vm_ok s' lab' used' -> NoDup roots -> length roots = length (spaces_of log) ->
  (forall q, q ∈ roots -> is_root lab q) -> lab ⊆ lab' ->
  (forall j q sp, roots !! j = Some q -> spaces_of log !! j = Some sp -> space_rel s q sp) ->
  roots !! k = Some r ->
  (forall sps, apply_event ev sps = alter f k sps) ->
  (forall q sp, is_root lab q -> q <> r -> space_rel s q sp -> space_rel s' q sp) ->
  (forall sp, space_rel s r sp -> space_rel s' r (f sp)) ->
  vm_ok s lab used ->
  vm_sim (roots, ev :: log) s'.
Proof.
  intros Hok' Hnd Hlen Hroots Hsub HR Hk Hev Hother Hself Hok. exists lab', used'. split_and!; [done | done | | |].
  - simpl. rewrite Hev, length_alter. done.
  - intros q Hq%Hroots. by eapply lookup_weaken.
  - intros j q sp Hj Hsp. simpl in Hsp. rewrite Hev in Hsp. destruct (decide (j = k)) as [->|Hjk].
    + rewrite Hj in Hk. injection Hk as ->. rewrite list_lookup_alter_eq in Hsp.
      destruct (spaces_of log !! k) as [sp0|] eqn:E; [|done]. simpl in Hsp. injection Hsp as <-.
      by eapply Hself, HR.
    + rewrite list_lookup_alter_ne in Hsp by done. apply Hother; [| |by eapply HR].
      * by apply Hroots, (list_elem_of_lookup_2 _ j).
      * intros ->. apply Hjk. by eapply NoDup_lookup.
Qed.

(** A new page in the address space [r]. *)
Lemma map_space s s' lab lab' used used' r va attrs page :
  vm_ok s lab used -> is_root lab r ->
  map_step page_pool_start s s' lab lab' used used' true r (align_down va)
    (page_desc (kernel_phys_addr page) attrs) ->
  page ∉ used -> page ∈ used' -> lab' !! page = None -> in_ram page -> page mod 4096 = 0 ->
  page_struct s' page = Some (mkPage 1 0) -> pages s' <> None ->
  (forall i, index_ok i -> mem s' (page + 8 * i) = 0) ->
  vm_ok s' lab' used' /\
  (forall q sp, is_root lab q -> q <> r -> space_rel s q sp -> space_rel s' q sp) /\
  (forall sp, space_rel s r sp ->
     space_rel s' r (set_space sp (indices va) (mkAPage (pte_is_writable attrs) (fun _ => 0)))) /\
  leaf s' (r, indices va) = page_desc (kernel_phys_addr page) attrs /\
  (forall ix, ix_ok ix -> ix <> indices va -> leaf s' (r, ix) = leaf s (r, ix)).
Proof.
  intros Hok Hr T Hpu Hpu' Hpl Hpr Hpa Hps Hpn Hz.
  destruct (map_vm s s' lab lab' used used' r (align_down va) attrs page) as (Hok' & Hlx & Hlo); try done.
  rewrite indices_align_down in *. set (x := (r, indices va)) in *.
  assert (Hct : desc_table (leaf s' x) = page)
    by (rewrite Hlx; apply phys_desc_table; [done | done | apply page_desc_addr]).
  assert (Hkeep : forall q ix, is_root lab q -> ix_ok ix -> (q, ix) <> x -> desc_valid (leaf s (q, ix)) = true ->
            may_write s' (q, ix) = may_write s (q, ix) /\ forall i, index_ok i -> view s' (q, ix) i = view s (q, ix) i).
  { intros q ix Hq Hix Hne Hv. eapply (kept_slot s s' lab used); [done | apply T | |].
    - split_and!; [by split | done | done].
    - apply Hlo; [by split | done]. }
  split_and!; [done | | | done |].
  - intros q sp Hq Hqr. apply space_rel_keep.
    + intros ix Hix. apply Hlo; [by split | unfold x; congruence].
    + intros ix Hix Hv. apply Hkeep; [done | done | unfold x; congruence | done].
  - intros sp HS ix Hix. unfold set_space. case_decide as E.
    + subst ix. fold x. rewrite Hlx. rewrite page_desc_valid. split_and!; [done | |].
      * unfold may_write. rewrite Hct, Hlx, page_desc_writable. unfold marked. rewrite Hps. simpl.
        by rewrite andb_false_r, orb_false_r.
      * intros i Hi. unfold view. rewrite Hct. by apply Hz.
    + assert (Hne : (r, ix) <> x) by (unfold x; congruence). specialize (HS ix Hix).
      rewrite Hlo; [| by split | done]. destruct (sp ix) as [pg|]; [|done].
      destruct HS as (Hv & Hw & Hvw). destruct (Hkeep r ix Hr Hix Hne Hv) as [Hw' Hvw'].
      split_and!; [done | congruence |]. intros i Hi. rewrite Hvw' by done. by apply Hvw.
  - intros ix Hix Hne. apply Hlo; [by split | unfold x; congruence].
Qed.

Lemma sim_map roots log s s' lab lab' used used' k r va attrs page :
  vm_ok s lab used -> NoDup roots -> length roots = length (spaces_of log) ->
  (forall q, q ∈ roots -> is_root lab q) ->
  (forall j q sp, roots !! j = Some q -> spaces_of log !! j = Some sp -> space_rel s q sp) ->
  roots !! k = Some r ->
  map_step page_pool_start s s' lab lab' used used' true r (align_down va)
    (page_desc (kernel_phys_addr page) attrs) ->
  page ∉ used -> page ∈ used' -> lab' !! page = None -> in_ram page -> page mod 4096 = 0 ->
  page_struct s' page = Some (mkPage 1 0) -> pages s' <> None ->
  (forall i, index_ok i -> mem s' (page + 8 * i) = 0) ->
  vm_sim (roots, EMap k va (pte_is_writable attrs) :: log) s'.
Proof.
  intros Hok Hnd Hlen Hroots HR Hk T Hpu Hpu' Hpl Hpr Hpa Hps Hpn Hz.
  assert (Hr : is_root lab r) by by apply Hroots, (list_elem_of_lookup_2 _ k).
  destruct (map_space s s' lab lab' used used' r va attrs page) as (Hok' & Hother & Hself & _); try done.
  eapply (sim_alter roots log s s' lab lab' used used' k r); try done. apply T.
Qed.

Lemma sim_map_failed roots log s s' lab lab' used used' r va pte :
  vm_ok s lab used -> NoDup roots -> length roots = length (spaces_of log) ->
  (forall q, q ∈ roots -> is_root lab q) ->
  (forall j q sp, roots !! j = Some q -> spaces_of log !! j = Some sp -> space_rel s q sp) ->
  map_step page_pool_start s s' lab lab' used used' false r va pte ->
  vm_sim (roots, log) s'.
Proof.
  intros Hok Hnd Hlen Hroots HR T. pose proof (map_slots _ _ _ _ _ _ _ _ _ _ T) as Hs.
  assert (Hl : forall z, slot_ok lab z -> leaf s' z = leaf s z).
  { intros z (H1 & H2 & H3). exact (ms_entry _ _ _ _ _ _ _ _ _ _ _ T (fst z) (snd z) H1 H2 H3). }
  exists lab', used'. split_and!; [| done | done | |].
  - eapply (step_vm_ok s s' lab lab' used used' Hok); try done; apply T. apply Hok.
  - intros q Hq%Hroots. eapply lookup_weaken; [done | apply T].
  - intros j q sp Hj Hsp. eapply (step_space_rel s s' lab used Hok); [done | apply T | | by eapply HR].
    by apply Hroots, (list_elem_of_lookup_2 _ j).
Qed.

(** *** Fork *)

Lemma fork_start s lab used r c :
  vm_ok s lab used -> is_root lab r -> is_root lab c -> r <> c ->
  (forall i, index_ok i -> mem s (c + 8 * i) = 0) ->
  (forall x d pg, maps s lab x d -> page_struct s d = Some pg -> refcount pg < 65535) ->
  fork_inv page_pool_start s lab r c (fun _ => False) s lab used.
Proof.
  intros [Hpt Hc Ho Hp] Hr Hcr Hne Hz Hlow.
  assert (Hempty : forall ix, ix_ok ix -> leaf s (c, ix) = 0)
    by (intros ix [Hl Hx]; unfold leaf; simpl; by rewrite empty_table).
  assert (Hnone : forall ix d, ~ maps s lab (c, ix) d).
  { intros ix d ((_ & Hok) & Hv & _). by rewrite Hempty in Hv. }
  constructor; try done.
  - intros ix ix' d Hm. by apply Hnone in Hm.
  - intros ix Hix _. by rewrite Hempty.
  - intros x d pg Hx Hpg _. by eapply Hlow.
Qed.

Lemma fork_vm D s0 lab0 r c s lab used :
  fork_inv page_pool_start s0 lab0 r c D s lab used -> vm_ok s lab used.
Proof. intros HF. constructor; apply HF. Qed.

(** What the copy means for the address spaces that existed before. *)
Lemma fork_space_rel D s0 lab0 r c s lab used q sp :
  fork_inv page_pool_start s0 lab0 r c D s lab used -> is_root lab0 q -> q <> c ->
  space_rel s0 q sp -> space_rel s q sp.
Proof.
  intros HF Hq Hqc HS ix Hix. specialize (HS ix Hix).
  assert (Hv : desc_valid (leaf s (q, ix)) = desc_valid (leaf s0 (q, ix))).
  { destruct (decide (q = r)) as [->|Hqr]; [by apply (fi_parent _ _ _ _ _ _ _ _ _ HF)|].
    by rewrite (fi_others _ _ _ _ _ _ _ _ _ HF) by (done || by split). }
  rewrite Hv. destruct (sp ix) as [pg|]; [|done]. destruct HS as (Hd & Hw & Hview).
  destruct (fi_keep _ _ _ _ _ _ _ _ _ HF (q, ix) (desc_table (leaf s0 (q, ix)))) as [Hw' Hview'];
    [split_and!; [by split | done | done] | done |].
  split_and!; [done | congruence |]. intros i Hi. rewrite Hview' by done. by apply Hview.
Qed.

Lemma fork_child_rel s0 lab0 r c s lab used sp :
  fork_inv page_pool_start s0 lab0 r c (fun _ => True) s lab used ->
  space_rel s0 r sp -> space_rel s c sp.
Proof.
  intros HF HS ix Hix. specialize (HS ix Hix).
  destruct (fi_child _ _ _ _ _ _ _ _ _ HF ix Hix I) as [Hv Hrest]. rewrite Hv.
  destruct (sp ix) as [pg|]; [|done]. destruct HS as (Hd & Hw & Hview).
  destruct (Hrest Hd) as (_ & Hw' & Hview'). split_and!; [done | congruence |].
  intros i Hi. rewrite Hview' by done. by apply Hview.
Qed.

Lemma wp_cpy_tables s0 lab0 used0 r c :
  fork_inv page_pool_start s0 lab0 r c (fun _ => False) s0 lab0 used0 ->
  is_root lab0 r -> is_root lab0 c -> r <> c ->
  (forall i, index_ok i -> mem s0 (c + 8 * i) = 0) ->
  wp (cpy_tables page_pool_start r c) (fun complete s => exists D lab used,
    fork_inv page_pool_start s0 lab0 r c D s lab used /\ lab0 ⊆ lab /\ (complete = false -> exhausted page_pool_start s) /\
    (complete = true -> forall ix, ix_ok ix -> D ix)) s0.
Proof.
  intros HF Hr Hc Hrc Hz. unfold cpy_tables. apply wp_bind.
  eapply wp_mono.
  { apply (copy_spec_l0 _ pool_in_ram s0 lab0 r c Hr Hc Hrc (fun _ => False) s0 lab0 used0 []); try done.
    - by intros ix _ _ [].
    - intros i Hi. by rewrite Hz. }
  intros go s1 (D & lab & used & F & S & _ & X & G). apply wp_bind.
  assert (Hend : forall s2, core_eq s1 s2 -> fork_inv page_pool_start s0 lab0 r c D s2 lab used).
  { intros s2 (Em & Eg & En & Ef). eapply fork_step_table; [done | done | done | | done].
    destruct (fi_pt _ _ _ _ _ _ _ _ _ F) as [fl Hi].
    eapply (alloc_table_step _ s1 s2 lab fl fl used used);
      [done | | done | by rewrite Em | | by rewrite Eg].
    - eapply alloc_inv_write; [apply Hi | done | done | by rewrite Em |]. intros l. rewrite Eg.
      apply (ai_pages _ _ _ _ (pi_alloc _ _ _ _ _ Hi)).
    - intros t _. unfold page_struct. by rewrite Eg. }
  destruct go; [apply wp_modify | apply wp_ret]; apply wp_ret; exists D, lab, used.
  - split_and!; [by apply Hend | done | done|]. intros _ ix Hix. apply G; [done | done |]. right. apply prefix_nil.
  - split_and!; [by apply Hend | done | intros _; by apply X | done].
Qed.

Lemma sim_fork roots log s0 s lab0 lab used r c k D :
  fork_inv page_pool_start s0 lab0 r c D s lab used -> (forall ix, ix_ok ix -> D ix) ->
  lab0 ⊆ lab -> NoDup roots -> c ∉ roots -> length roots = length (spaces_of log) ->
  (forall q, q ∈ roots -> is_root lab0 q) -> is_root lab0 c ->
  (forall j q sp, roots !! j = Some q -> spaces_of log !! j = Some sp -> space_rel s0 q sp) ->
  roots !! k = Some r ->
  vm_sim (roots ++ [c], EFork k :: log) s.
Proof.
  intros HF HD Hsub Hnd Hc Hlen Hroots Hcr HR Hk.
  assert (HF' : fork_inv page_pool_start s0 lab0 r c (fun _ => True) s lab used).
  { eapply fork_inv_equiv; [done|]. intros ix Hix. split; [done | intros _; by apply HD]. }
  assert (exists sp, spaces_of log !! k = Some sp) as [sp Hsp].
  { apply lookup_lt_is_Some. rewrite <- Hlen. by eapply lookup_lt_Some. }
  exists lab, used. simpl. rewrite Hsp. split_and!.
  - by eapply fork_vm.
  - apply NoDup_app. split_and!; [done | by intros q Hq ->%list_elem_of_singleton | apply NoDup_singleton].
  - rewrite !length_app. simpl. lia.
  - intros q [Hq%Hroots | ->%list_elem_of_singleton]%elem_of_app; by eapply lookup_weaken.
  - intros j q spj Hj Hspj. apply lookup_app_Some in Hj as [Hj | [Hge Hj]].
    + rewrite lookup_app_l in Hspj by (apply lookup_lt_Some in Hj; lia).
      pose proof (list_elem_of_lookup_2 _ _ _ Hj) as Hq.
      eapply fork_space_rel; [done | by apply Hroots | by intros -> | by eapply HR].
    + rewrite lookup_app_r in Hspj by lia. rewrite Hlen in Hj.
      destruct (j - length (spaces_of log))%nat; [|done]. simplify_eq/=.
      eapply fork_child_rel; [done | by eapply HR].
Qed.

(** *** Stores *)

(** Rewriting the page of a writable leaf. *)
Lemma page_write_vm s lab used x d m :
  vm_ok s lab used -> maps s lab x d -> pte_is_writable (leaf s x) = true ->
  (forall a, word_of d a = false -> m a = mem s a) ->
  let s' := set_mem m s in
  vm_ok s' lab used /\ (forall z, slot_ok lab z -> leaf s' z = leaf s z) /\
  (forall z d', maps s lab z d' -> may_write s' z = may_write s z) /\
  (forall z d' j, maps s lab z d' -> index_ok j ->
     view s' z j = if decide (z = x) then m (d + 8 * j) else view s z j).
Proof.
  intros Hok Hx Hw Hm s'. destruct (vo_pt _ _ _ Hok) as [fl Hpt]. pose proof (vo_cow _ _ _ Hok) as Hc.
  destruct (ci_data _ _ _ Hc _ _ Hx) as [Hdu Hdl].
  assert (Ha : forall q, q ∈ fl \/ q ∈ used -> q mod 4096 = 0)
    by (intros q Hq; by eapply (inv_in_ram _ pool_in_ram); [apply Hpt|]).
  assert (Hda : d mod 4096 = 0) by (apply Ha; by right).
  destruct (tables_agree page_pool_start s s' lab fl fl used used Hpt) as [Hpt' Hpres].
  { eapply alloc_inv_write; [apply Hpt | done | done | | apply Hpt]. intros q Hq. apply Hm.
    apply word_of_page; [done | apply Ha; by left |]. intros <-. by apply (ai_disjoint _ _ _ _ (pi_alloc _ _ _ _ _ Hpt) d). }
  { done. }
  { intros t y j Ht Hj. destruct (table_page _ pool_in_ram _ _ _ _ _ _ Hpt Ht) as [_ Hta].
    apply Hm, word_of_other; [done | done | congruence | done]. }
  assert (Hleaf : forall z, slot_ok lab z -> leaf s' z = leaf s z).
  { intros [r ix] (Hr & Hl & Hix). by apply (Hpres ix r r []). }
  split_and!; [| done | |].
  - constructor; [by exists fl | | | apply Hok].
    + eapply cow_transfer; [done | done | done |]. intros z d' Hz.
      destruct (ci_data _ _ _ Hc _ _ Hz). done.
    + intros z w d' Hz Hw'. apply (maps_transfer s s' lab lab) in Hz; [|done | done].
      apply (maps_transfer s s' lab lab) in Hw'; [|done | done]. by eapply (vo_once _ _ _ Hok).
  - intros z d' Hz. unfold may_write. rewrite (Hleaf z) by apply Hz. done.
  - intros z d' j Hz Hj. unfold view at 1. rewrite (Hleaf z) by apply Hz. pose proof Hz as (_ & _ & Ed).
    destruct (decide (z = x)) as [->|Hne]; [by destruct Hx as (_ & _ & <-)|].
    unfold view. rewrite Ed. apply Hm, word_of_other; [done | apply Ha; right; by eapply ci_used | | done].
    intros <-. pose proof (ci_excl _ _ _ Hc x z d Hx Hz (not_eq_sym Hne)). congruence.
Qed.

(** Storing a word into it. *)
Lemma store_vm s lab used x d i v :
  vm_ok s lab used -> maps s lab x d -> pte_is_writable (leaf s x) = true -> index_ok i ->
  let s' := set_mem (upd (mem s) (d + 8 * i) v) s in
  vm_ok s' lab used /\ (forall z, slot_ok lab z -> leaf s' z = leaf s z) /\
  (forall z d', maps s lab z d' -> may_write s' z = may_write s z) /\
  (forall z d' j, maps s lab z d' -> index_ok j ->
     view s' z j = if decide (z = x) then upd (view s x) i v j else view s z j).
Proof.
  intros Hok Hx Hw Hi s'.
  destruct (page_write_vm s lab used x d (upd (mem s) (d + 8 * i) v) Hok Hx Hw) as (H1 & H2 & H3 & H4).
  { intros a Ha. apply upd_ne. intros ->. by rewrite word_of_idx in Ha. }
  split_and!; [done | done | done |]. intros z d' j Hz Hj. unfold s'. rewrite (H4 z d' j Hz Hj).
  case_decide; [|done]. unfold upd, view. destruct Hx as (_ & _ & <-).
  destruct (Z.eqb_spec j i) as [->|]; [by rewrite Z.eqb_refl|]. by rewrite (proj2 (Z.eqb_neq _ _)) by lia.
Qed.

Lemma store_space_rel s s' lab used r va i v sp pg :
  vm_ok s lab used -> is_root lab r -> index_ok i ->
  sp (indices va) = Some pg ->
  (forall ix, ix_ok ix -> desc_valid (leaf s' (r, ix)) = desc_valid (leaf s (r, ix))) ->
  (forall ix, ix_ok ix -> desc_valid (leaf s (r, ix)) = true -> may_write s' (r, ix) = may_write s (r, ix)) ->
  (forall ix j, ix_ok ix -> desc_valid (leaf s (r, ix)) = true -> index_ok j ->
     view s' (r, ix) j = if decide (ix = indices va) then upd (view s (r, ix)) i v j else view s (r, ix) j) ->
  space_rel s r sp -> space_rel s' r (store_space sp (indices va) i v).
Proof.
  intros Hok Hr Hi Hpg Hv Hw Hview HS ix Hix. unfold store_space. rewrite Hpg. unfold set_space.
  specialize (HS ix Hix). rewrite (Hv ix Hix). case_decide as E.
  - subst ix. rewrite Hpg in HS. destruct HS as (H1 & H2 & H3). split_and!; [done | by rewrite Hw |].
    intros j Hj. rewrite Hview by done. rewrite decide_True by done. simpl. unfold upd.
    destruct (j =? i); [done|]. by apply H3.
  - destruct (sp ix) as [pg'|]; [|done]. destruct HS as (H1 & H2 & H3). split_and!; [done | by rewrite Hw |].
    intros j Hj. rewrite Hview by done. rewrite decide_False by done. by apply H3.
Qed.

(** The effect of [user_store]: one word of one address space changes. *)
Record stored (s s' : pt_state) (lab : gmap Z (Z * list Z)) (used' : gset Z) (x : slot) (i v : Z) : Prop := {
  st_ok : vm_ok s' lab used';
  st_valid : forall z, slot_ok lab z -> desc_valid (leaf s' z) = desc_valid (leaf s z);
  st_write : forall z d, maps s lab z d -> may_write s' z = may_write s z;
  st_view : forall z d j, maps s lab z d -> index_ok j ->
    view s' z j = if decide (z = x) then upd (view s x) i v j else view s z j
}.

Lemma fault_vm s s' lab used used' x :
  vm_ok s lab used -> slot_ok lab x -> desc_valid (leaf s x) = true ->
  fault_post page_pool_start s s' lab used' x -> vm_ok s' lab used'.
Proof.
  intros Hok Hx Hv [F1 F2 F3 _ _ _ F7 _ _ F10 F11]. constructor; [done | done | | done].
  assert (Hback : forall z d, maps s' lab z d -> z <> x -> maps s lab z d).
  { intros z d (Ho & Hvz & Hd) Hne. rewrite F7 in Hvz, Hd by done. by split_and!. }
  assert (Hself : forall z d, maps s' lab x d -> maps s lab z d -> fst x = fst z -> x = z).
  { intros z d (_ & _ & <-) Hz Hxz. destruct F10 as [E | Hn]; [|by apply Hn in Hz].
    rewrite E in Hz. eapply (vo_once _ _ _ Hok); [|done|done]. by split_and!. }
  intros z w d Hz Hw Hzw. destruct (decide (z = x)) as [->|Hzx], (decide (w = x)) as [->|Hwx]; [done | | |].
  - eapply Hself; [done | by apply Hback | done].
  - symmetry. eapply Hself; [done | by apply Hback | done].
  - eapply (vo_once _ _ _ Hok); [by apply Hback | by apply Hback | done].
Qed.

Lemma wp_user_store s lab used r va i v :
  vm_ok s lab used -> is_root lab r -> store_allowed page_pool_start s r va i = true ->
  wp (user_store page_pool_start r va i v)
    (fun _ s' => exists used', stored s s' lab used' (r, indices va) i v) s.
Proof.
  intros Hok Hr Hal. unfold store_allowed in Hal. rewrite !andb_true_iff in Hal.
  destruct Hal as [[[[[Hv Hmw] Hi0] Hi1] Hfar] Hroom]. set (x := (r, indices va)) in *.
  assert (Hi : index_ok i) by (unfold index_ok; lia).
  assert (Hox : slot_ok lab x) by (split_and!; [done | done | apply indices_ok]).
  assert (Hx : maps s lab x (desc_table (leaf s x))) by by split_and!.
  apply wp_bind, wp_fetch. fold x. destruct (pte_is_writable (leaf s x)) eqn:Hw.
  - apply wp_modify. exists used.
    destruct (store_vm s lab used x _ i v Hok Hx Hw Hi) as (H1 & H2 & H3 & H4).
    constructor; [done | intros z Hz; by rewrite H2 | done | done].
  - unfold may_write in Hmw. rewrite Hw in Hmw. simpl in Hmw. apply andb_true_iff in Hmw as [Hu Hmk].
    destruct (vo_pt _ _ _ Hok) as [fl Hpt]. apply wp_bind.
    eapply wp_mono; [eapply (wp_permission_fault _ pool_in_ram s lab fl used r va Hpt (vo_cow _ _ _ Hok)); try done|].
    { intros [Hfl Hfr]. unfold room in Hroom. rewrite Hfl, Hfr, Z.eqb_refl in Hroom. done. }
    { intros E. by rewrite E in Hfar. }
    intros ? s1 (used1 & _ & FP). apply wp_bind, wp_fetch, wp_modify. fold x. fold x in FP.
    pose proof FP as [F1 F2 F3 F4 F5 F6 F7 F8 F9 _ _].
    assert (Hval : forall z, slot_ok lab z -> desc_valid (leaf s1 z) = desc_valid (leaf s z)).
    { intros z Hz. destruct (decide (z = x)) as [->|]; [|by rewrite F7].
      transitivity true; [exact F3 | symmetry; exact Hv]. }
    assert (Hmap : forall z d, maps s lab z d -> maps s1 lab z (desc_table (leaf s1 z))).
    { intros z d (Ho & Hvz & _). split_and!; [done | by rewrite Hval | done]. }
    assert (Hok1 : vm_ok s1 lab used1) by by eapply fault_vm.
    destruct (store_vm s1 lab used1 x (desc_table (leaf s1 x)) i v Hok1) as (H1 & H2 & H3 & H4);
      [by apply (Hmap x _ Hx) | done | done |].
    exists used1. constructor; [done | intros z Hz; rewrite H2 by done; by apply Hval | |].
    + intros z d Hz. rewrite (H3 z _ (Hmap z d Hz)). destruct (decide (z = x)) as [->|Hne].
      * unfold may_write. by rewrite F5, Hw, Hu, Hmk.
      * apply F9; [|done]. destruct Hz as (? & ? & <-). by split_and!.
    + intros z d j Hz Hj. rewrite (H4 z _ j (Hmap z d Hz) Hj). destruct (decide (z = x)) as [->|Hne].
      * unfold upd. destruct (j =? i); [done|]. by apply F6.
      * apply F8; [|done | done]. destruct Hz as (? & ? & <-). by split_and!.
Qed.

Lemma sim_store roots log s s' lab used used' k r va i v :
  vm_ok s lab used -> NoDup roots -> length roots = length (spaces_of log) ->
  (forall q, q ∈ roots -> is_root lab q) ->
  (forall j q sp, roots !! j = Some q -> spaces_of log !! j = Some sp -> space_rel s q sp) ->
  roots !! k = Some r -> index_ok i -> desc_valid (leaf s (r, indices va)) = true ->
  stored s s' lab used' (r, indices va) i v ->
  vm_sim (roots, EStore k va i v :: log) s'.
Proof.
  intros Hok Hnd Hlen Hroots HR Hk Hi Hv [S1 S2 S3 S4].
  assert (Hm : forall q ix, is_root lab q -> ix_ok ix -> desc_valid (leaf s (q, ix)) = true ->
            maps s lab (q, ix) (desc_table (leaf s (q, ix)))) by (intros; by split_and!; [split|..]).
  eapply (sim_alter roots log s s' lab lab used used' k r); try done.
  - intros q sp Hq Hqr HS ix Hix. specialize (HS ix Hix). rewrite S2 by by split.
    destruct (sp ix) as [pg|]; [|done]. destruct HS as (H1 & H2 & H3).
    split_and!; [done | by rewrite (S3 _ _ (Hm q ix Hq Hix H1)) |].
    intros j Hj. rewrite (S4 _ _ j (Hm q ix Hq Hix H1) Hj), decide_False by congruence. by apply H3.
  - assert (Hr : is_root lab r) by by apply Hroots, (list_elem_of_lookup_2 _ k).
    intros sp HS. pose proof (HS (indices va) (conj eq_refl (indices_ok va))) as Hsp.
    destruct (sp (indices va)) as [pg|] eqn:E; [|congruence].
    eapply (store_space_rel s s' lab used r va i v sp pg); try done.
    + intros ix Hix. apply S2. by split.
    + intros ix Hix Hvx. by eapply S3, Hm.
    + intros ix j Hix Hvx Hj. rewrite (S4 _ _ j (Hm r ix Hr Hix Hvx) Hj).
      case_decide as E1; case_decide as E2; congruence.
Qed.

Lemma counts_low_struct s d pg :
  counts_low s = true -> page_struct s d = Some pg -> refcount pg < 65535.
Proof.
  unfold counts_low, page_struct. destruct (pages s) as [l|]; [|done]. intros Hl Hd.
  apply list_elem_of_lookup_2, list_elem_of_In in Hd. rewrite forallb_forall in Hl.
  specialize (Hl pg Hd). lia.
Qed.

Lemma wp_vm_fork roots log k r s :
  vm_sim (roots, log) s -> roots !! k = Some r -> counts_low s = true ->
  wp (c ← alloc_page page_pool_start;
      if c =? 0 then mret (roots, log) else
      complete ← cpy_tables page_pool_start r c;
      mret (if (complete : bool) then (roots ++ [c], EFork k :: log) else (roots, log))) vm_sim s.
Proof.
  intros (lab & used & Hok & Hnd & Hlen & Hroots & HR) Hk Hlow. destruct (vo_pt _ _ _ Hok) as [fl Hi].
  apply wp_bind. eapply wp_mono; [apply (wp_alloc_page _ pool_in_ram s fl used), Hi|].
  intros c s1 [(-> & Ha & Em & Eg & _) | (Hc0 & Hcu & Hcr & Hca & Hfr & fl' & Ha)].
  { apply wp_ret. eapply sim_table_step; try done.
    eapply alloc_table_step; [done | done | done | by rewrite Em | | by rewrite Eg].
    intros. unfold page_struct. by rewrite Eg. }
  rewrite (proj2 (Z.eqb_neq _ _) Hc0).
  destruct (new_root_vm s s1 lab used c fl') as (Hok1 & Hlc & Hz & Hleaf & HR1); try done.
  set (lab1 := <[c := (c, [])]> lab) in *.
  assert (Hr : is_root lab r) by by apply Hroots, (list_elem_of_lookup_2 _ k).
  assert (Hnr : forall q, is_root lab q -> q <> c) by (intros q Hq ->; unfold is_root in Hq; congruence).
  assert (Hsub : lab ⊆ lab1) by by apply insert_subseteq.
  assert (Hr1 : is_root lab1 r) by by eapply lookup_weaken.
  assert (Hc1 : is_root lab1 c) by apply lookup_insert_eq.
  destruct (fresh_used_kept _ pool_in_ram s s1 fl used c (pi_alloc _ _ _ _ _ Hi)) as [_ Hkp]; try done.
  apply wp_bind. eapply wp_mono; [eapply (wp_cpy_tables s1 lab1 ({[c]} ∪ used) r c); try done; [|by apply Hnr]|].
  { apply fork_start; try done; [by apply Hnr|]. intros [q ix] d pg Hm Hpg.
    destruct (decide (q = c)) as [->|Hqc].
    { destruct Hm as ((_ & _ & Hx) & Hv & _). unfold leaf in Hv. simpl in Hv. by rewrite empty_table in Hv. }
    assert (Hms : maps s lab (q, ix) d).
    { destruct Hm as ((Hq & Hx) & Hv & Hd). unfold is_root, lab1 in Hq. simpl in Hq.
      rewrite lookup_insert_ne in Hq by done. rewrite Hleaf in Hv, Hd by done. by split_and!. }
    eapply counts_low_struct; [exact Hlow|]. rewrite <- (Hkp d); [done|]. by eapply ci_used; [apply Hok|]. }
  intros complete s2 (D & lab2 & used2 & F & S & _ & G). apply wp_ret.
  assert (Hroots1 : forall q, q ∈ roots -> is_root lab1 q)
    by (intros q Hq%Hroots; by eapply lookup_weaken).
  assert (HR1' : forall j q sp, roots !! j = Some q -> spaces_of log !! j = Some sp -> space_rel s1 q sp).
  { intros j q sp Hj Hsp. apply HR1; [|by eapply HR]. by apply Hroots, (list_elem_of_lookup_2 _ j). }
  assert (Hcn : c ∉ roots) by (intros Hc%Hroots; by apply Hnr in Hc).
  destruct complete.
  - eapply (sim_fork roots log s1 s2 lab1 lab2 used2 r c k D); try done. by apply G.
  - exists lab2, used2. split_and!; [by eapply fork_vm | done | done | |].
    + intros q Hq%Hroots1. by eapply lookup_weaken.
    + intros j q sp Hj Hsp. pose proof (list_elem_of_lookup_2 _ _ _ Hj) as Hq.
      eapply fork_space_rel; [done | by apply Hroots1 | by intros -> | by eapply HR1'].
Qed.

Lemma delete_lookup {A} (l : list A) k j x :
  delete k l !! j = Some x -> exists j', j' <> k /\ l !! j' = Some x /\ j' = (if decide (j < k)%nat then j else S j).
Proof.
  intros Hj. destruct (decide (j < k)%nat).
  - rewrite list_lookup_delete_lt in Hj by done. exists j. split_and!; [lia | done | done].
  - rewrite list_lookup_delete_ge in Hj by lia. exists (S j). split_and!; [lia | done | done].
Qed.

Lemma delete_nodup {A} (l : list A) k x :
  NoDup l -> l !! k = Some x -> NoDup (delete k l) /\ (x ∉ delete k l) /\ length (delete k l) = (length l - 1)%nat.
Proof.
  intros Hn Hk. rewrite length_delete by by eexists. rewrite delete_take_drop.
  rewrite <- (take_drop_middle l k x Hk) in Hn. apply NoDup_app in Hn as (N1 & N2 & [N3 N4]%NoDup_cons).
  split_and!; [| | lia].
  - apply NoDup_app. split_and!; [done | | done]. intros y Hy Hd. apply (N2 y Hy). by apply list_elem_of_further.
  - intros [Hx|Hx]%elem_of_app; [|done]. apply (N2 x Hx), list_elem_of_here.
Qed.

(** Destroying the address space [r] leaves the others as they are. *)
Lemma wp_destroy_vm s lab used r :
  vm_ok s lab used -> is_root lab r ->
  wp (destroy_page_table_level 3 r) (fun _ s' => exists used',
    vm_ok s' (survivors lab r) used' /\
    forall q sp, is_root lab q -> q <> r -> space_rel s q sp -> space_rel s' q sp) s.
Proof.
  intros [[fl Hi] Hc Ho Hp] Hr. eapply wp_mono; [by eapply (wp_destroy _ pool_in_ram s lab fl used r)|].
  intros [] s' (used' & D). exists used'. split.
  { constructor; try apply D. by destruct (de_inv _ _ _ _ _ _ _ D) as (fl' & ? & _); exists fl'. }
  intros q sp Hq Hqr Hrel.
  assert (Hs : forall ix, ix_ok ix -> slot_ok (survivors lab r) (q, ix)) by (intros ix Hx; apply survivors_slot; split; [by split | done]).
  eapply space_rel_keep; [| |exact Hrel].
  - intros ix Hx. by apply (de_leaf _ _ _ _ _ _ _ D), Hs.
  - intros ix Hx Hv. destruct (de_page _ _ _ _ _ _ _ D (q, ix) (desc_table (leaf s (q, ix)))) as [Hm Hw];
      [split_and!; [by apply Hs | done | done]|].
    unfold may_write, view. rewrite (de_leaf _ _ _ _ _ _ _ D) by by apply Hs. rewrite Hm. split; [done|]. by apply Hw.
Qed.

Lemma wp_vm_destroy roots log k r s :
  vm_sim (roots, log) s -> roots !! k = Some r ->
  wp (_ ← destroy_page_table_level 3 r; mret (delete k roots, EDestroy k :: log)) vm_sim s.
Proof.
  intros (lab & used & Hok & Hnd & Hlen & Hroots & HR) Hk.
  assert (Hr : is_root lab r) by by apply Hroots, (list_elem_of_lookup_2 _ k).
  apply wp_bind. eapply wp_mono; [by apply (wp_destroy_vm s lab used r)|].
  intros [] s' (used' & Hok' & HR'). apply wp_ret. destruct (delete_nodup roots k r Hnd Hk) as (Hnd' & Hrn & Hl').
  pose proof (lookup_lt_Some _ _ _ Hk) as Hlt.
  exists (survivors lab r), used'. split_and!; [done | done | | |].
  - cbn [spaces_of fold_right apply_event]. fold (spaces_of log). rewrite Hl', length_delete; [lia|].
    apply lookup_lt_is_Some_2. lia.
  - intros q Hq. apply survivors_lookup. split; [|by intros ->].
    apply list_elem_of_lookup in Hq as [j Hj]. apply delete_lookup in Hj as (j' & _ & Hj' & _).
    by apply Hroots, (list_elem_of_lookup_2 _ j').
  - cbn [spaces_of fold_right apply_event]. fold (spaces_of log). intros j q sp Hj Hsp.
    assert (Hqr : q <> r) by (intros ->; by apply Hrn, (list_elem_of_lookup_2 _ j)).
    apply delete_lookup in Hj as (j1 & _ & Hj & E1). apply delete_lookup in Hsp as (j2 & _ & Hsp & E2).
    rewrite <- E2 in E1. subst j1. apply HR'; [by apply Hroots, (list_elem_of_lookup_2 _ j2) | done | by eapply HR].
Qed.

Lemma wp_vm_step op st s : vm_sim st s -> wp (vm_step page_pool_start op st) vm_sim s.
Proof.
  destruct st as [roots log]. intros Hsim. pose proof Hsim as (lab & used & Hok & Hnd & Hlen & Hroots & HR).
  destruct (vo_pt _ _ _ Hok) as [fl Hi].
  destruct op as [|k va attrs|k|k va i v|k]; cbn [vm_step].
  - apply wp_bind. eapply wp_mono; [apply (wp_alloc_page _ pool_in_ram s fl used), Hi|].
    intros c s1 [(-> & Ha & Em & Eg & _) | (Hc0 & Hcu & Hcr & Hca & Hfr & fl' & Ha)]; apply wp_ret.
    + eapply sim_table_step; try done.
      eapply alloc_table_step; [done | done | done | by rewrite Em | | by rewrite Eg].
      intros. unfold page_struct. by rewrite Eg.
    + rewrite (proj2 (Z.eqb_neq _ _) Hc0). by eapply sim_new.
  - destruct (roots !! k) as [r|] eqn:Hk; [|by apply wp_ret].
    assert (Hr : is_root lab r) by by apply Hroots, (list_elem_of_lookup_2 _ k).
    apply wp_bind. eapply wp_mono; [by eapply (wp_pt_map_new_page _ pool_in_ram)|].
    intros page s1 (lab1 & used1 & T & Hpg). apply wp_ret. destruct (Z.eqb_spec page 0) as [->|Hp]; cbn [negb] in T.
    + by eapply sim_map_failed.
    + destruct (Hpg Hp) as (P1 & P2 & P3 & P4 & P5 & P6 & P7).
      eapply sim_map; try done; [apply P6, Hok | apply T, Hok].
  - apply wp_bind, wp_fetch. destruct (roots !! k) as [r|] eqn:Hk; [|by apply wp_ret].
    destruct (counts_low s) eqn:Hlow; cbn [negb]; [|by apply wp_ret]. by apply wp_vm_fork.
  - destruct (roots !! k) as [r|] eqn:Hk; [|by apply wp_ret].
    assert (Hr : is_root lab r) by by apply Hroots, (list_elem_of_lookup_2 _ k).
    apply wp_bind, wp_fetch. destruct (store_allowed page_pool_start s r va i) eqn:Hal; cbn [negb]; [|by apply wp_ret].
    apply wp_bind. eapply wp_mono; [by eapply wp_user_store|]. intros ? s1 (used1 & Hst). apply wp_ret.
    unfold store_allowed in Hal. rewrite !andb_true_iff in Hal. destruct Hal as [[[[[Hv _] Hi0] Hi1] _] _].
    eapply sim_store; try done. unfold index_ok. lia.
  - destruct (roots !! k) as [r|] eqn:Hk; [by apply wp_vm_destroy | by apply wp_ret].
Qed.

Lemma wp_vm_run ops st s : vm_sim st s -> wp (vm_run page_pool_start ops st) vm_sim s.
Proof.
  revert st s. induction ops as [|op ops IH]; intros st s Hs; simpl; [by apply wp_ret|].
  apply wp_bind. eapply wp_mono; [by apply wp_vm_step|]. intros st' s' Hs'. by apply IH.
Qed.

Lemma vm_empty s fl used : alloc_inv page_pool_start s fl used -> pages s <> None -> vm_ok s ∅ used.
Proof.
  intros Ha Hp.
  assert (Hno : forall z d, ~ maps s ∅ z d).
  { intros z d ((Hr & _) & _). unfold is_root in Hr. by rewrite lookup_empty in Hr. }
  constructor; [| | | done].
  - exists fl. constructor; [done | by intros *; rewrite ?lookup_empty ..].
  - constructor; [by intros z d ?%Hno.. | by intros x y d ?%Hno].
  - by intros x y d ?%Hno.
Qed.

Lemma vm_start s fl used :
  alloc_inv page_pool_start s fl used -> pages s <> None -> vm_sim ([], []) s.
Proof.
  intros Ha Hp. exists ∅, used. split_and!; [by eapply vm_empty | by apply NoDup_nil | done | by intros r ?%elem_of_nil | done].
Qed.

Lemma mapped_address_leaf e va :
  in_ram (desc_table e) -> desc_valid e = true ->
  mapped_address e va = desc_table e + va mod 4096.
Proof.
  intros Hr Hv. unfold mapped_address. rewrite Hv, (desc_pa e _ Hr eq_refl).
  change PAGE_MASK with (2 ^ 12 - 1). rewrite land_ones_mod by lia. change 4096 with (2 ^ 12).
  pose proof (Z.mod_pos_bound va (2 ^ 12)). pose proof (in_ram_kva _ Hr).
  assert ((desc_table e - KERNEL_VA_BASE) mod 2 ^ 12 = 0)
    by (rewrite Zminus_mod; change (2 ^ 12) with 4096; by rewrite desc_table_aligned).
  rewrite (lor_add _ _ 12) by (done || lia). rewrite phys_kva; [lia|].
  unfold in_ram, RAM_end, RAM_END_PHYS in Hr. lia.
Qed.

(** A load through the tables sees the abstract address space. *)
Lemma user_load_eq s lab used r sp va :
  vm_ok s lab used -> is_root lab r -> space_rel s r sp -> va mod 8 = 0 ->
  user_load r va s = Ok (space_load sp va, s).
Proof.
  intros Hok Hr HS Hva. destruct (vo_pt _ _ _ Hok) as [fl Hi].
  destruct (table_page _ pool_in_ram _ _ _ _ _ _ Hi Hr) as [Hrr _].
  pose proof (HS (indices va) (conj eq_refl (indices_ok va))) as Hsp.
  unfold user_load, mbind, stM_bind. rewrite pt_get_mapped_page_eq by by apply in_ram_nonzero.
  change (translate s r va) with (leaf s (r, indices va)). unfold space_load.
  destruct (sp (indices va)) as [pg|].
  - destruct Hsp as (Hv & _ & Hview).
    assert (Hm : maps s lab (r, indices va) (desc_table (leaf s (r, indices va))))
      by (split_and!; [split_and!; [done | done | apply indices_ok] | done | done]).
    destruct (data_page _ pool_in_ram s lab fl used _ _ Hi (vo_cow _ _ _ Hok) Hm) as [Hdr Hda].
    rewrite mapped_address_leaf by done. pose proof (Z.mod_pos_bound va 4096).
    rewrite (proj2 (Z.eqb_neq _ _)) by (unfold in_ram, KERNEL_VA_BASE in Hdr; lia).
    unfold rd, fetch, mret, stM_ret. do 2 f_equal. rewrite <- Hview.
    + unfold view. do 2 f_equal. Z.to_euclidean_division_equations. lia.
    + unfold index_ok. Z.to_euclidean_division_equations. lia.
  - unfold mapped_address. by rewrite Hsp.
Qed.

Lemma store_allowed_eq s r sp va i :
  space_rel s r sp ->
  store_allowed page_pool_start s r va i = space_writable sp va && (0 <=? i) && (i <? 512)
    && negb (Z.shiftr va 48 =? 0xFFFF) && room page_pool_start s.
Proof.
  intros HS. pose proof (HS (indices va) (conj eq_refl (indices_ok va))) as Hsp.
  unfold store_allowed, space_writable. destruct (sp (indices va)) as [pg|].
  - destruct Hsp as (Hv & Hw & _). by rewrite Hv, Hw.
  - by rewrite Hsp.
Qed.

Definition boot_run (boot_ops : list page_op) (l : list Page) (ops : list vm_op) : M (list Z * list vm_event) :=
  _ ← page_run page_pool_start boot_ops []; _ ← pt_init (Some l); vm_run page_pool_start ops ([], []).

Lemma wp_boot_run boot_ops l ops s0 :
  boot_state s0 -> RAM_END_PHYS / 4096 <= Z.of_nat (length l) -> wp (boot_run boot_ops l ops) vm_sim s0.
Proof.
  intros Hboot Hl. apply wp_bind. eapply wp_mono; [apply (wp_page_run _ pool_in_ram); by apply boot_run_inv|].
  intros out s1 [_ [fl Ha]]. apply wp_bind, wp_modify, wp_vm_run.
  eapply vm_start; [|done]. eapply alloc_inv_write; [exact Ha | done | done | done |].
  intros l' [= <-]. done.
Qed.

End refinement.


Definition vm_example : list vm_op :=
  [VNew; VMap 0 0x400000 ATTR_USER_RW; VStore 0 0x400000 3 77; VFork 0; VStore 1 0x400000 3 88;
   VStore 0 0x400000 4 99; VDestroy 0; VStore 0 0x400000 5 11; VNew].

(** One structure per frame of RAM. *)
Definition all_pages : list Page := replicate (Z.to_nat (RAM_END_PHYS / 4096)) (mkPage 0 0).



