(* ===== verification/VmRegion.v ===== *)
(** * Memory regions of the address spaces

    kernel/memory/page_table/page_table.c: the table of [page_table_t]
    structures, their [mem_segment_t] vectors, [mmap] and [munmap], under
    [page_table_metadata_lock].

    [page_table_structs] is the finite map its hash map represents, [None]
    while [bucket_count] is still zero; a [segments] vector is the list it
    represents.  The file system is reached through the interface [FileOps]. *)

From stdpp Require Import sorting.
From S2P Require Import Prelude Errors Vec Services PageAlloc PageTable.

(** ** The file system as the memory system calls it *)

Class FileOps (F : Type) := {
  (** [get_oft_entry_by_fd]: the inode and its [i_size], or an error. *)
  fo_oft_entry : Z -> stM F (option (Z * Z));
  fo_remove_ref : Z -> stM F unit;
  fo_file_size : Z -> stM F Z;
  fo_bytes_per_block : stM F Z;
  fo_ith_block : Z -> Z -> stM F Z;
  (** [read_block]: the error code and the block read into the buffer. *)
  fo_read_block : Z -> stM F (Z * list Z)
}.

(** ** State *)

Record mem_segment := mkSeg {
  seg_start : Z;
  seg_length : Z;
  seg_ino : Z;
  seg_file_offset : Z;
  seg_file_size : Z;
  seg_prot : Z;
  seg_map_flags : Z
}.

Record vm_state (F : Type) := mkVM {
  vm_pt : pt_state;
  vm_structs : option (gmap Z (list mem_segment));
  vm_lock : bool;
  vm_heap : nat -> bool;
  vm_fs : F
}.
Arguments mkVM {F} _ _ _ _ _.
Arguments vm_pt {F} _.
Arguments vm_structs {F} _.
Arguments vm_lock {F} _.
Arguments vm_heap {F} _.
Arguments vm_fs {F} _.

Definition MAP_PRIVATE : Z := 1.
Definition MAP_SHARED : Z := 2.
Definition MAP_ANONYMOUS : Z := 4.
Definition MAP_FIXED : Z := 8.
Definition mmap_flags : list Z := [MAP_PRIVATE; MAP_SHARED; MAP_ANONYMOUS; MAP_FIXED].
Definition INVALID_INO : Z := 0.

(** [sizeof(page_table_t)] and [sizeof(mem_segment_t)]. *)
Definition sizeof_page_table : Z := 40.
Definition sizeof_mem_segment : Z := 48.

Section region.
Context {F : Type}.
Implicit Types (s : vm_state F) (segs : list mem_segment) (table : Z).

Definition set_pt (p : pt_state) s : vm_state F :=
  mkVM p (vm_structs s) (vm_lock s) (vm_heap s) (vm_fs s).
Definition set_structs (m : option (gmap Z (list mem_segment))) s : vm_state F :=
  mkVM (vm_pt s) m (vm_lock s) (vm_heap s) (vm_fs s).
Definition set_lock (b : bool) s : vm_state F :=
  mkVM (vm_pt s) (vm_structs s) b (vm_heap s) (vm_fs s).
Definition set_fs (f : F) s : vm_state F :=
  mkVM (vm_pt s) (vm_structs s) (vm_lock s) (vm_heap s) f.

#[export] Program Instance vm_has_heap : HasHeap (vm_state F) := {|
  heap_of := vm_heap;
  set_heap h s := mkVM (vm_pt s) (vm_structs s) (vm_lock s) h (vm_fs s)
|}.
Next Obligation. done. Qed.

Abbreviation VM := (stM (vm_state F)).

Definition in_pt {A} (m : M A) : VM A := lift vm_pt set_pt m.
Definition in_fs {A} (m : stM F A) : VM A := lift vm_fs set_fs m.

Definition lock_metadata : VM unit := spin_lock vm_lock set_lock.
Definition unlock_metadata : VM unit := spin_unlock set_lock.

(** ** The table of structures *)

Definition page_table_structs_init_locked : VM unit :=
  m ← fetch vm_structs;
  match m with
  | Some _ => mret tt
  | None =>
      b ← granted;
      if (b : bool) then modify (set_structs (Some ∅)) else fatal
  end.

(** The map, once it is initialised. *)
Definition structs : VM (gmap Z (list mem_segment)) :=
  m ← fetch vm_structs;
  match m with Some m => mret m | None => fault end.

Definition get_page_table_struct_locked table : VM (option (list mem_segment)) :=
  _ ← page_table_structs_init_locked;
  m ← structs;
  mret (m !! table).

(** [page_table->segments = segs] through a pointer into the map. *)
Definition put_segments table segs : VM unit :=
  m ← structs;
  modify (set_structs (Some (<[table := segs]> m))).

(** [hashmap_put]; [false] when an allocation is refused. *)
Definition put_struct table segs : VM bool :=
  m ← structs;
  r ← map_put m table segs;
  match r with
  | Some m' => _ ← modify (set_structs (Some m')); mret true
  | None => mret false
  end.

Definition add_page_table_struct table : VM Z :=
  if table =? 0 then mret 0
  else
    _ ← lock_metadata;
    _ ← page_table_structs_init_locked;
    o ← get_page_table_struct_locked table;
    match o with
    | Some _ => _ ← unlock_metadata; mret 1
    | None =>
        ok ← kmalloc sizeof_page_table;
        if negb (ok : bool) then _ ← unlock_metadata; mret 0 else
        segs ← list_new;
        put ← put_struct table segs;
        _ ← unlock_metadata;
        mret (if (put : bool) then 1 else 0)
    end.

Definition free_page_table_struct table : VM unit :=
  _ ← lock_metadata;
  m ← fetch vm_structs;
  match m with
  | None => unlock_metadata
  | Some m =>
      _ ← when (negb (table =? 0)) (modify (set_structs (Some (delete table m))));
      unlock_metadata
  end.

(** The copying loop of [copy_page_table_struct]: [src_segment] is read
    through the pointer [src], which dangles if the source was removed. *)
Fixpoint copy_segments (n : nat) (i : nat) (src_table dst_table : Z) : VM Z :=
  match n with
  | O => mret SUCCESS
  | S n =>
      m ← structs;
      match (if src_table =? dst_table then None else m !! src_table) with
      | None => fault
      | Some src =>
          match src !! i with
          | None => fatal
          | Some src_segment =>
              ok ← kmalloc sizeof_mem_segment;
              if negb (ok : bool) then mret INVALID_ARGS else
              match m !! dst_table with
              | None => fault
              | Some dst =>
                  dst ← list_push dst src_segment;
                  _ ← put_segments dst_table dst;
                  copy_segments n (S i) src_table dst_table
              end
          end
      end
  end.

Definition copy_page_table_struct (src_table dst_table : Z) : VM Z :=
  _ ← lock_metadata;
  o ← get_page_table_struct_locked src_table;
  match o with
  | None => _ ← unlock_metadata; mret INVALID_ARGS
  | Some src =>
      m ← structs;
      _ ← when (negb (dst_table =? 0)) (modify (set_structs (Some (delete dst_table m))));
      ok ← kmalloc sizeof_page_table;
      if negb (ok : bool) then _ ← unlock_metadata; mret INVALID_ARGS else
      segs ← list_new;
      put ← put_struct dst_table segs;
      if negb (put : bool) then _ ← unlock_metadata; mret INVALID_ARGS else
      r ← copy_segments (length src) 0 src_table dst_table;
      _ ← unlock_metadata;
      mret r
  end.

(** ** [add_vm_region] *)

(** Where the scan over the segments ends. *)
Inductive place := InsertAt (i : nat) | Overlap | Append.

Definition seg_end (seg : mem_segment) : Z := to_u64 (seg_start seg + seg_length seg).

Fixpoint region_place segs (i : nat) (start : Z) : place :=
  match segs with
  | [] => Append
  | seg :: segs =>
      if start <? seg_start seg then InsertAt i
      else if start <=? seg_end seg then Overlap
      else region_place segs (S i) start
  end.

(** The structure of [table], made if there is none; [None] when that fails. *)
Definition get_or_make_struct table : VM (option (list mem_segment)) :=
  o ← get_page_table_struct_locked table;
  match o with
  | Some segs => mret (Some segs)
  | None =>
      ok ← kmalloc sizeof_page_table;
      if negb (ok : bool) then mret None else
      segs ← list_new;
      put ← put_struct table segs;
      mret (if (put : bool) then Some segs else None)
  end.

Definition add_vm_region table (ino_id file_offset file_size start length prot map_flags : Z) : VM Z :=
  _ ← lock_metadata;
  o ← get_or_make_struct table;
  match o with
  | None => _ ← unlock_metadata; mret INVALID_ARGS
  | Some segs =>
      ok ← kmalloc sizeof_mem_segment;
      if negb (ok : bool) then _ ← unlock_metadata; mret INVALID_ARGS else
      let segment := mkSeg start length ino_id file_offset file_size prot map_flags in
      match region_place segs 0 start with
      | Overlap => mret INVALID_ARGS
      | InsertAt i =>
          segs ← list_insert segs i segment;
          _ ← put_segments table segs;
          _ ← unlock_metadata;
          mret SUCCESS
      | Append =>
          segs ← list_push segs segment;
          _ ← put_segments table segs;
          _ ← unlock_metadata;
          mret SUCCESS
      end
  end.

(** ** [mmap] and [munmap]

    [curr] is [get_curr_process()->ttbr0_el1_va], [None] when there is no
    current process. *)

Section mapping.
Context `{FileOps F}.

(** The inode and the file size a mapping is backed by; [None] is [return NULL]. *)
Definition mmap_backing (flags fd offset length : Z) : VM (option (Z * Z)) :=
  if Z.land flags MAP_ANONYMOUS =? 0 then
    e ← in_fs (fo_oft_entry fd);
    match e with
    | None => mret None
    | Some (ino_id, i_size) =>
        let file_size := to_u64 i_size in
        if file_size <? offset then
          _ ← in_fs (fo_remove_ref ino_id); mret None
        else mret (Some (ino_id, Z.min length (file_size - offset)))
    end
  else if negb (fd =? -1) || negb (offset =? 0) then mret None
  else mret (Some (INVALID_INO, 0)).

Definition mmap (curr : option Z) (addr length prot flags fd offset : Z) : VM Z :=
  if negb (addr =? 0) && (Z.land flags MAP_FIXED =? 0) then mret 0 else
  if length =? 0 then mret 0 else
  let length := align_up length in
  if negb (Z.land offset (PAGE_SIZE - 1) =? 0) then mret 0 else
  if (Z.lor (Z.lor MMAP_PROT_READ MMAP_PROT_WRITE) MMAP_PROT_EXEC <? prot) || (prot <? 0)
  then mret 0 else
  if negb (Z.land flags MAP_PRIVATE =? 0) && negb (Z.land flags MAP_SHARED =? 0) then mret 0 else
  if Z.land flags (Z.lor MAP_PRIVATE MAP_SHARED) =? 0 then mret 0 else
  b ← mmap_backing flags fd offset length;
  match b with
  | None => mret 0
  | Some (ino_id, file_size) =>
      va ← fetch (fun s => curr_mmap_va (vm_pt s));
      addr' ← (if addr =? 0
               then _ ← modify (fun s => set_pt (set_mmap_va (align_up (to_u64 (va + length))) (vm_pt s)) s);
                    mret va
               else mret addr);
      match curr with
      | None => fault
      | Some table =>
          err ← add_vm_region table ino_id offset file_size addr' length prot (to_u32 flags);
          mret (if err =? 0 then addr' else 0)
      end
  end.

(** The loop of [munmap]; every iteration erases a segment or moves on, so
    [fuel] iterations suffice for [fuel] segments. *)
Fixpoint munmap_loop (fuel : nat) (i : nat) (table rem_start length : Z) : VM unit :=
  m ← structs;
  match m !! table with
  | None => fault
  | Some segs =>
      match segs !! i, fuel with
      | None, _ => mret tt
      | Some _, O => fault
      | Some seg, S fuel =>
          let rem_end := to_u64 (rem_start + length) in
          if (rem_start <=? seg_start seg) && (seg_end seg <=? rem_end) then
            _ ← put_segments table (delete i segs);
            munmap_loop fuel i table rem_start length
          else if (rem_start <=? seg_start seg) && (seg_start seg <? rem_end) then
            let d := rem_start - seg_start seg in
            _ ← put_segments table (<[i := mkSeg rem_start (to_u64 (seg_length seg - d)) (seg_ino seg)
                  (to_u64 (seg_file_offset seg + d)) (seg_file_size seg) (seg_prot seg) (seg_map_flags seg)]> segs);
            munmap_loop fuel (S i) table rem_start length
          else if (seg_end seg <=? rem_end) && (rem_start <? seg_end seg) then
            _ ← put_segments table (<[i := mkSeg (seg_start seg)
                  (to_u64 (seg_length seg - (seg_end seg - rem_start))) (seg_ino seg)
                  (seg_file_offset seg) (seg_file_size seg) (seg_prot seg) (seg_map_flags seg)]> segs);
            munmap_loop fuel (S i) table rem_start length
          else if (seg_start seg <? rem_start) && (rem_end <? seg_end seg) then
            _ ← add_vm_region table (seg_ino seg)
                  (to_u64 (seg_file_offset seg + (rem_end - seg_start seg)))
                  (to_u64 (seg_file_size seg - length)) rem_end
                  (to_u64 (seg_length seg - length)) (seg_prot seg) (seg_map_flags seg);
            m ← structs;
            match (m !! table) ≫= (fun segs => segs !! i) with
            | None => fault
            | Some seg' =>
                _ ← put_segments table (<[i := mkSeg (seg_start seg')
                      (to_u64 (seg_length seg' - (seg_end seg - rem_start))) (seg_ino seg')
                      (seg_file_offset seg') (seg_file_size seg') (seg_prot seg') (seg_map_flags seg')]>
                      (default [] (m !! table)));
                munmap_loop fuel (S i) table rem_start length
            end
          else munmap_loop fuel (S i) table rem_start length
      end
  end.

Definition munmap (curr : option Z) (addr length : Z) : VM Z :=
  match curr with
  | None => fault
  | Some table =>
      _ ← lock_metadata;
      o ← get_page_table_struct_locked table;
      match o with
      | None => _ ← unlock_metadata; mret (-1)
      | Some segs =>
          _ ← munmap_loop (List.length segs) 0 table addr length;
          _ ← unlock_metadata;
          mret 0
      end
  end.

End mapping.
End region.

(** ** Theory *)

Section region_theory.
Context {F : Type}.
Implicit Types (s : vm_state F) (segs : list mem_segment) (table : Z).

(** The structures, none before the first use. *)
Definition smap s : gmap Z (list mem_segment) := default ∅ (vm_structs s).

Definition segments s table : list mem_segment := default [] (smap s !! table).

(** The state with the structures [m] and the lock [l]. *)
Definition with_structs s (m : gmap Z (list mem_segment)) (l : bool) s' : Prop :=
  exists h, s' = mkVM (vm_pt s) (Some m) l h (vm_fs s).

Lemma hp_lock (Q : unit -> vm_state F -> Prop) s :
  vm_lock s = false -> Q tt (set_lock true s) -> hp lock_metadata Q s.
Proof. intros Hl HQ. apply hp_wp, wp_spin_lock; [done|]. done. Qed.

Lemma hp_unlock (Q : unit -> vm_state F -> Prop) s :
  Q tt (set_lock false s) -> hp unlock_metadata Q s.
Proof. intros HQ. by apply hp_modify. Qed.

Lemma hp_structs m (Q : gmap Z (list mem_segment) -> vm_state F -> Prop) s :
  vm_structs s = Some m -> Q m s -> hp structs Q s.
Proof. intros E HQ. apply hp_bind, hp_fetch. rewrite E. by apply hp_ret. Qed.

Lemma hp_init s :
  hp page_table_structs_init_locked (fun _ => with_structs s (smap s) (vm_lock s)) s.
Proof.
  unfold page_table_structs_init_locked. apply hp_bind, hp_fetch.
  destruct (vm_structs s) as [m|] eqn:E.
  - apply hp_ret. exists (vm_heap s). unfold smap. rewrite E. by destruct s; simpl in *; subst.
  - unfold smap. rewrite E. cbn [default].
    unfold hp, granted, mbind, stM_bind. simpl.
    destruct (vm_heap s 0%nat) eqn:Eg; simpl; [|by exists 0%nat].
    split; [by eexists|]. intros [n Hn]. by exists (S n).
Qed.

Lemma hp_get_struct s table :
  hp (get_page_table_struct_locked table) (fun o s' =>
    o = smap s !! table /\ with_structs s (smap s) (vm_lock s) s') s.
Proof.
  apply hp_bind. eapply hp_mono; [apply hp_init|]. intros ? s1 [h ->] _.
  apply hp_bind. apply (hp_structs (smap s)); [done|]. apply hp_ret. split; [done|]. by exists h.
Qed.

Lemma hp_put_segments m table segs (Q : unit -> vm_state F -> Prop) s :
  vm_structs s = Some m -> Q tt (set_structs (Some (<[table := segs]> m)) s) ->
  hp (put_segments table segs) Q s.
Proof. intros E HQ. apply hp_bind, (hp_structs m); [done|]. by apply hp_modify. Qed.

Lemma hp_put_struct s m table segs :
  vm_structs s = Some m ->
  hp (put_struct table segs) (fun (ok : bool) s' =>
    if ok then with_structs s (<[table := segs]> m) (vm_lock s) s'
    else refusal s /\ with_structs s m (vm_lock s) s') s.
Proof.
  intros E. unfold put_struct. apply hp_bind, (hp_structs m); [done|]. unfold map_put.
  apply hp_bind. destruct (m !! table).
  - apply hp_ret, hp_bind, hp_modify; [done|]. apply hp_ret. by eexists.
  - apply hp_bind, hp_granted. intros [] h Hb Hr; cbn [negb].
    + apply hp_bind, hp_granted. intros [] h' Hb' Hr'; cbn [negb]; apply hp_ret.
      * apply hp_bind, hp_modify; [done|]. apply hp_ret. by eexists.
      * apply hp_ret. split; [auto|]. exists h'. simpl. by rewrite E.
    + apply hp_ret, hp_ret. split; [auto|]. exists h. simpl. by rewrite E.
Qed.

(** *** Adding a region *)

(** Sorted insertion, after the segments that start at the same address. *)
Fixpoint insert_region segs (seg : mem_segment) : list mem_segment :=
  match segs with
  | [] => [seg]
  | a :: l => if seg_start seg <? seg_start a then seg :: a :: l else a :: insert_region l seg
  end.

Lemma region_place_bound segs k start i :
  region_place segs k start = InsertAt i -> (k <= i < k + length segs)%nat.
Proof.
  revert k. induction segs as [|seg segs IH]; intros k; simpl; [done|].
  repeat case_bool; intros E; simplify_eq; [lia|]. apply IH in E. lia.
Qed.

(** What the scan and the insertion make of the list. *)
Lemma region_place_insert segs k seg :
  match region_place segs k (seg_start seg) with
  | InsertAt i => insert_at segs (i - k) seg = insert_region segs seg
  | Append => segs ++ [seg] = insert_region segs seg
  | Overlap => True
  end.
Proof.
  revert k. induction segs as [|a segs IH]; intros k; simpl; [done|].
  case_bool; [by rewrite Nat.sub_diag|]. case_bool; [done|]. specialize (IH (S k)).
  destruct (region_place segs (S k) (seg_start seg)) as [i| |] eqn:E; [|done | by rewrite IH].
  apply region_place_bound in E. replace (i - k)%nat with (S (i - S k)) by lia.
  rewrite <- IH. done.
Qed.

(** A fresh structure is empty, so nothing can overlap there. *)
Lemma hp_get_or_make s table :
  hp (get_or_make_struct table) (fun o s' =>
    match o with
    | Some segs => segs = segments s table /\ exists m, m !! table = Some segs /\
        (forall t, t <> table -> m !! t = smap s !! t) /\ with_structs s m (vm_lock s) s'
    | None => refusal s /\ smap s !! table = None /\ with_structs s (smap s) (vm_lock s) s'
    end) s.
Proof.
  unfold get_or_make_struct. apply hp_bind. eapply hp_mono; [apply hp_get_struct|].
  intros o s1 [-> [h ->]] Hr. unfold segments.
  destruct (smap s !! table) as [segs|] eqn:E.
  { apply hp_ret. split; [done|]. exists (smap s). split_and!; [done | done |]. by exists h. }
  apply hp_bind, hp_kmalloc; [done|]. intros [] h1 Hb Hr1; cbn [negb].
  - apply hp_bind, (hp_grow (fun b => b)); [done | done |]. intros h2 Hr2.
    apply hp_bind. eapply hp_mono; [by apply hp_put_struct|].
    intros [] s2 Hs _; apply hp_ret.
    + destruct Hs as [h3 ->]. split; [done|]. exists (<[table := []]> (smap s)).
      rewrite lookup_insert_eq. split_and!; [done | | by eexists].
      intros t Ht. by rewrite lookup_insert_ne.
    + destruct Hs as [Hf [h3 ->]]. split_and!; [|done | by eexists].
      by apply Hr, Hr1, Hr2.
  - apply hp_ret. split_and!; [by apply Hr, Hb | done | by eexists].
Qed.

(** What a call of [add_vm_region] leaves behind. *)
Inductive add_result s table (seg : mem_segment) (r : Z) (m' : gmap Z (list mem_segment)) (l : bool) : Prop :=
| add_refused : r = INVALID_ARGS -> l = false -> refusal s ->
    default [] (m' !! table) = segments s table -> add_result s table seg r m' l
| add_overlap : r = INVALID_ARGS -> l = true -> 
    region_place (segments s table) 0 (seg_start seg) = Overlap ->
    m' !! table = Some (segments s table) -> add_result s table seg r m' l
| add_done : r = SUCCESS -> l = false ->
    region_place (segments s table) 0 (seg_start seg) <> Overlap ->
    m' !! table = Some (insert_region (segments s table) seg) -> add_result s table seg r m' l.

Lemma hp_add_vm_region s table ino off fsz start len prot mf :
  vm_lock s = false ->
  hp (add_vm_region table ino off fsz start len prot mf) (fun r s' => exists m' l,
    with_structs s m' l s' /\ (forall t, t <> table -> m' !! t = smap s !! t) /\
    add_result s table (mkSeg start len ino off fsz prot mf) r m' l) s.
Proof.
  intros Hl. unfold add_vm_region. set (seg := mkSeg _ _ _ _ _ _ _).
  apply hp_bind, hp_lock; [done|]. apply hp_bind.
  eapply hp_mono; [apply hp_get_or_make|]. intros [segs|] s1 Hs Hr.
  2: { destruct Hs as (Hf & E & [h ->]). apply hp_bind, hp_unlock, hp_ret.
       exists (smap s), false. split_and!; [by eexists | done |]. by apply add_refused. }
  destruct Hs as (-> & m & E & Ht & [h ->]). change (segments (set_lock true s) table) with (segments s table) in *.
  apply hp_bind, hp_kmalloc; [done|]. intros [] h1 Hb Hr1; cbn [negb].
  2: { apply hp_bind, hp_unlock, hp_ret. exists m, false. split_and!; [by eexists | done |].
       apply add_refused; [done | done | by apply Hr, Hb | by rewrite E]. }
  destruct (region_place (segments s table) 0 start) as [i| |] eqn:Ep;
    change start with (seg_start seg) in Ep.
  - apply hp_bind, (hp_grow (fun b => b && (i <=? length (segments s table))%nat)); [|done|].
    { apply region_place_bound in Ep. apply Nat.leb_le. lia. }
    intros h2 _. apply hp_bind. apply (hp_put_segments m); [done|].
    apply hp_bind, hp_unlock, hp_ret. eexists _, false. split_and!; [by eexists | |].
    + intros t Hn. by rewrite lookup_insert_ne, Ht.
    + apply add_done; [done | done | by rewrite Ep |]. rewrite lookup_insert_eq.
      pose proof (region_place_insert (segments s table) 0 seg) as Hi. rewrite Ep in Hi.
      by rewrite <- Hi, ?Nat.sub_0_r.
  - apply hp_ret. exists m, true. split_and!; [by eexists | done |]. by apply add_overlap.
  - apply hp_bind, (hp_grow (fun b => b)); [done | done |].
    intros h2 _. apply hp_bind. apply (hp_put_segments m); [done|].
    apply hp_bind, hp_unlock, hp_ret. eexists _, false. split_and!; [by eexists | |].
    + intros t Hn. by rewrite lookup_insert_ne, Ht.
    + apply add_done; [done | done | by rewrite Ep |]. rewrite lookup_insert_eq.
      pose proof (region_place_insert (segments s table) 0 seg) as Hi. rewrite Ep in Hi.
      by rewrite <- Hi, ?Nat.sub_0_r.
Qed.

(** A call made while the lock is held never comes back. *)
Lemma lock_held_hangs {A} (f : unit -> stM (vm_state F) A) s :
  vm_lock s = true -> (lock_metadata ≫= f) s = Hang.
Proof. intros Hl. unfold lock_metadata, spin_lock, mbind, stM_bind. by rewrite Hl. Qed.

(** *** Order of the segments *)

Definition seg_le (a b : mem_segment) : Prop := seg_start a <= seg_start b.

Definition sorted segs : Prop := StronglySorted seg_le segs.

Lemma insert_region_perm segs seg : insert_region segs seg ≡ₚ seg :: segs.
Proof.
  induction segs as [|a segs IH]; simpl; [done|]. case_bool; [done|]. rewrite IH. apply Permutation_swap.
Qed.

Lemma elem_of_insert_region segs seg x : x ∈ insert_region segs seg <-> x = seg \/ x ∈ segs.
Proof.
  induction segs as [|a segs IH]; simpl; [by rewrite list_elem_of_singleton, elem_of_nil; tauto|].
  case_bool; rewrite !elem_of_cons, ?IH; tauto.
Qed.

Lemma sorted_insert segs seg : sorted segs -> sorted (insert_region segs seg).
Proof.
  intros Hs. induction Hs as [|a segs Hs IH Ha]; simpl; [by repeat constructor|].
  destruct (Z.ltb_spec (seg_start seg) (seg_start a)).
  - constructor; [by constructor|]. constructor; [unfold seg_le; lia|].
    eapply Forall_impl; [done|]. unfold seg_le. simpl. intros x Hx. lia.
  - constructor; [done|]. apply Forall_forall. intros x Hx.
    apply elem_of_insert_region in Hx as [->|Hx]; [done|]. by eapply Forall_forall in Ha.
Qed.

(** When the scan stops: the new region starts inside an old one, or right at
    its end. *)
Lemma region_place_overlap segs k start :
  sorted segs ->
  region_place segs k start = Overlap <->
  exists g, g ∈ segs /\ seg_start g <= start <= seg_end g.
Proof.
  intros Hs. revert k. induction Hs as [|a segs Hs IH Ha]; intros k; simpl.
  { split; [done|]. intros (g & Hg & _). by apply elem_of_nil in Hg. }
  destruct (Z.ltb_spec start (seg_start a)).
  - split; [done|]. intros (g & [->|Hg]%elem_of_cons & Hle); [lia|].
    eapply Forall_forall in Ha; [|done]. unfold seg_le in Ha. lia.
  - destruct (Z.leb_spec start (seg_end a)).
    + split; [|done]. intros _. exists a. split; [apply list_elem_of_here | done].
    + rewrite IH. split; intros (g & Hg & Hle); exists g; (split; [|done]).
      * by apply list_elem_of_further.
      * apply elem_of_cons in Hg as [->|Hg]; [lia | done].
Qed.

(** *** Removing a range *)

Section trim.
Variables (rem_start len : Z).
Let rem_end := to_u64 (rem_start + len).

(** The range covers the beginning of the segment and not its end. *)
Definition cuts_head (seg : mem_segment) : bool :=
  (rem_start <=? seg_start seg) && (seg_start seg <? rem_end) && (rem_end <? seg_end seg).

(** The range lies inside the segment, with something left on both sides. *)
Definition splits (seg : mem_segment) : bool :=
  (seg_start seg <? rem_start) && (rem_end <? seg_end seg).

(** What [munmap] leaves of a segment it does not split. *)
Definition trim (seg : mem_segment) : option mem_segment :=
  let d := rem_start - seg_start seg in
  if (rem_start <=? seg_start seg) && (seg_end seg <=? rem_end) then None
  else if (rem_start <=? seg_start seg) && (seg_start seg <? rem_end) then
    Some (mkSeg rem_start (to_u64 (seg_length seg - d)) (seg_ino seg)
            (to_u64 (seg_file_offset seg + d)) (seg_file_size seg) (seg_prot seg) (seg_map_flags seg))
  else if (seg_end seg <=? rem_end) && (rem_start <? seg_end seg) then
    Some (mkSeg (seg_start seg) (to_u64 (seg_length seg - (seg_end seg - rem_start))) (seg_ino seg)
            (seg_file_offset seg) (seg_file_size seg) (seg_prot seg) (seg_map_flags seg))
  else Some seg.

Lemma wp_put_segments m table segs (Q : unit -> vm_state F -> Prop) s :
  vm_structs s = Some m -> Q tt (set_structs (Some (<[table := segs]> m)) s) ->
  wp (put_segments table segs) Q s.
Proof. intros E HQ. apply wp_bind, wp_bind, wp_fetch. rewrite E. by apply wp_ret, wp_modify. Qed.

(** The loop on the segments [todo], with [pre] behind it: it returns unless
    one of them is split, in which case it calls [add_vm_region] with the lock
    held. *)
Definition loop_result (pre todo : list mem_segment) m table s : outcome (unit * vm_state F) :=
  if existsb splits todo then Hang
  else Ok (tt, set_structs (Some (<[table := pre ++ omap trim todo]> m)) s).

Lemma munmap_loop_eq todo pre fuel m table s :
  vm_lock s = true -> vm_structs s = Some m -> m !! table = Some (pre ++ todo) ->
  (length todo <= fuel)%nat ->
  munmap_loop fuel (length pre) table rem_start len s = loop_result pre todo m table s.
Proof.
  revert pre todo m s. induction fuel as [|fuel IH]; intros pre todo m s Hl E Et Hf.
  all: cbn [munmap_loop]; apply (bind_stuck _ _ _ _); apply wp_bind, wp_fetch; rewrite E; apply wp_ret.
  all: rewrite Et.
  - destruct todo; [|simpl in Hf; lia]. rewrite app_nil_r in *. rewrite lookup_ge_None_2 by lia.
    unfold loop_result. simpl. rewrite app_nil_r, insert_id by done. by destruct s; simpl in *; subst.
  - destruct todo as [|seg todo].
    { rewrite app_nil_r in *. rewrite lookup_ge_None_2 by lia.
      unfold loop_result. simpl. rewrite app_nil_r, insert_id by done. by destruct s; simpl in *; subst. }
    assert (Hput : forall x pre' j, x = pre' ++ todo -> j = length pre' ->
      (_ ← put_segments table x; munmap_loop fuel j table rem_start len) s
        = loop_result pre' todo m table s).
    { intros x pre' j -> ->. apply bind_stuck, (wp_put_segments m); [done|].
      rewrite (IH pre' todo (<[table := pre' ++ todo]> m)); [|done | done | by rewrite lookup_insert_eq | simpl in Hf; lia].
      unfold loop_result. destruct (existsb splits todo); [done|]. by rewrite insert_insert_eq. }
    assert (Hins : forall x, <[length pre := x]> (pre ++ seg :: todo) = (pre ++ [x]) ++ todo).
    { intros x. by rewrite insert_app_r_alt, Nat.sub_diag, <- app_assoc by lia. }
    assert (Hone : forall x, pre ++ x :: omap trim todo = (pre ++ [x]) ++ omap trim todo)
      by (intros x; by rewrite <- app_assoc).
    rewrite list_lookup_middle by done. fold rem_end.
    unfold loop_result, splits. cbn [existsb omap list_omap]. unfold trim. fold rem_end.
    destruct ((rem_start <=? seg_start seg) && (seg_end seg <=? rem_end)) eqn:C1.
    { replace ((seg_start seg <? rem_start) && _) with false by (repeat case_bool; done || lia).
      apply Hput; [|done]. by rewrite delete_middle. }
    destruct ((rem_start <=? seg_start seg) && (seg_start seg <? rem_end)) eqn:C2.
    { replace ((seg_start seg <? rem_start) && _) with false by (repeat case_bool; done || lia).
      rewrite Hone. by apply Hput; [apply Hins | rewrite length_app; simpl; lia]. }
    destruct ((seg_end seg <=? rem_end) && (rem_start <? seg_end seg)) eqn:C3.
    { replace ((seg_start seg <? rem_start) && _) with false by (repeat case_bool; done || lia).
      rewrite Hone. by apply Hput; [apply Hins | rewrite length_app; simpl; lia]. }
    destruct ((seg_start seg <? rem_start) && (rem_end <? seg_end seg)) eqn:C4.
    { apply bind_hang. by apply lock_held_hangs. }
    rewrite Hone. replace (S (length pre)) with (length (pre ++ [seg])) by (rewrite length_app; simpl; lia).
    apply IH; [done | done | by rewrite <- app_assoc | simpl in Hf; lia].
Qed.

End trim.

(** A segment whose end does not wrap around. *)
Definition well_sized (seg : mem_segment) : Prop :=
  0 <= seg_start seg /\ 0 <= seg_length seg /\ seg_start seg + seg_length seg < 2 ^ 64.

Definition covers (seg : mem_segment) (va : Z) : Prop :=
  seg_start seg <= va < seg_start seg + seg_length seg.

Definition covered segs (va : Z) : Prop := exists seg, seg ∈ segs /\ covers seg va.

Lemma well_sized_end seg : well_sized seg -> seg_end seg = seg_start seg + seg_length seg.
Proof. intros (? & ? & ?). unfold seg_end, to_u64. apply wrap_small. lia. Qed.

Lemma covered_trim addr len segs va :
  (forall seg, seg ∈ segs -> covers seg va ->
     exists seg', trim addr len seg = Some seg' /\ covers seg' va) ->
  covered segs va -> covered (omap (trim addr len) segs) va.
Proof.
  intros H (seg & Hin & Hc). destruct (H seg Hin Hc) as (seg' & E & Hc').
  exists seg'. split; [|done]. apply list_elem_of_omap. by exists seg.
Qed.

(** A range that is not a proper beginning of the segment nor strictly inside
    it: the segment keeps exactly the addresses outside the range. *)
Lemma trim_covers addr len seg va :
  well_sized seg -> 0 <= addr -> 0 <= len -> addr + len < 2 ^ 64 ->
  cuts_head addr len seg = false -> splits addr len seg = false ->
  (exists seg', trim addr len seg = Some seg' /\ covers seg' va) <->
  covers seg va /\ ~ addr <= va < addr + len.
Proof.
  intros Hw Ha Hlen Hb. pose proof (well_sized_end seg Hw) as He. destruct Hw as (? & ? & ?).
  unfold cuts_head, splits, trim, covers. rewrite He.
  replace (to_u64 (addr + len)) with (addr + len) by (symmetry; apply wrap_small; lia).
  repeat case_bool; cbn [andb]; try done; intros _ _.
  all: split; [intros (seg' & [= <-] & Hv); simpl in *|intros [Hv Hn]].
  all: try (exfalso; lia); try (split; [done | lia]); try (eexists; split; [done | done]).
  all: try (eexists; split; [done|]; simpl).
  all: unfold to_u64 in *; rewrite ?wrap_small in * by lia; lia.
Qed.

Lemma munmap_covered addr len segs va :
  Forall well_sized segs -> 0 <= addr -> 0 <= len -> addr + len < 2 ^ 64 ->
  existsb (cuts_head addr len) segs = false -> existsb (splits addr len) segs = false ->
  covered (omap (trim addr len) segs) va <-> covered segs va /\ ~ addr <= va < addr + len.
Proof.
  intros Hw Ha Hn Hb Hch Hsp.
  assert (H : forall seg, seg ∈ segs ->
    (exists seg', trim addr len seg = Some seg' /\ covers seg' va) <->
    covers seg va /\ ~ addr <= va < addr + len).
  { intros seg Hin. apply trim_covers; try done; [by eapply Forall_forall in Hw | |].
    - apply not_true_iff_false. intros E. apply not_true_iff_false in Hch. apply Hch.
      apply existsb_exists. exists seg. by rewrite <- list_elem_of_In.
    - apply not_true_iff_false. intros E. apply not_true_iff_false in Hsp. apply Hsp.
      apply existsb_exists. exists seg. by rewrite <- list_elem_of_In. }
  split.
  - intros (g' & (g & Hg & Eg)%list_elem_of_omap & Hc).
    destruct (proj1 (H g Hg)) as [Hc' Hout]; [by exists g'|]. split; [by exists g | done].
  - intros [(g & Hg & Hc) Hout]. destruct (proj2 (H g Hg)) as (g' & E & Hc'); [done|].
    exists g'. split; [|done]. apply list_elem_of_omap. by exists g.
Qed.

(** A range that covers only the beginning of a segment: everything stays. *)
Lemma trim_head_kept addr len seg va :
  well_sized seg -> 0 <= addr -> cuts_head addr len seg = true ->
  covers seg va -> exists seg', trim addr len seg = Some seg' /\ covers seg' va.
Proof.
  intros Hw Ha. pose proof (well_sized_end seg Hw) as He. destruct Hw as (? & ? & ?).
  unfold cuts_head, trim, covers. rewrite He. repeat case_bool; cbn [andb]; try done; try lia.
  intros _ Hv. eexists. split; [done|]. simpl.
  unfold to_u64 in *. rewrite wrap_small by lia. lia.
Qed.

Lemma sorted_trim addr len segs : sorted segs -> sorted (omap (trim addr len) segs).
Proof.
  assert (Hlow : forall g g', trim addr len g = Some g' ->
    (seg_start g' = seg_start g /\ ~ (addr <= seg_start g < to_u64 (addr + len))) \/
    (seg_start g' = addr /\ addr <= seg_start g < to_u64 (addr + len)) \/ 
    (seg_start g' = seg_start g /\ seg_start g < addr)).
  { intros g g'. unfold trim. repeat case_bool; cbn [andb]; intros [= <-]; simpl; lia. }
  intros Hs. induction Hs as [|a segs Hs IH Ha]; simpl; [constructor|].
  destruct (trim addr len a) as [a'|] eqn:E; [|done]. constructor; [done|].
  apply Forall_forall. intros g' (g & Hg & Eg)%list_elem_of_omap.
  eapply Forall_forall in Ha; [|done]. apply Hlow in E. apply Hlow in Eg. unfold seg_le in *. lia.
Qed.

Lemma munmap_eq s m table segs addr len :
  vm_lock s = false -> vm_structs s = Some m -> m !! table = Some segs ->
  munmap (Some table) addr len s =
  if existsb (splits addr len) segs then Hang
  else Ok (0, set_structs (Some (<[table := omap (trim addr len) segs]> m)) s).
Proof.
  intros Hl E Et. unfold munmap. apply bind_stuck, wp_spin_lock; [done|].
  apply bind_stuck. apply wp_bind, wp_bind, wp_fetch. cbn [vm_structs set_lock]. rewrite E.
  apply wp_ret, wp_bind, wp_bind, wp_fetch. cbn [vm_structs set_lock]. rewrite E.
  apply wp_ret, wp_ret. rewrite Et. unfold mbind at 1, stM_bind.
  pose proof (munmap_loop_eq addr len segs [] (length segs) m table (set_lock true s)) as Hloop.
  cbn [length] in Hloop. rewrite Hloop by done. unfold loop_result.
  destruct (existsb (splits addr len) segs); [done|]. 
  unfold unlock_metadata, spin_unlock, modify, mbind, stM_bind, mret, stM_ret. cbn.
  unfold set_structs, set_lock. cbn. by rewrite Hl.
Qed.

(** *** Copying the regions of an address space *)

Lemma hp_copy_segments segs src dst n i m s :
  src <> dst -> vm_structs s = Some m -> m !! src = Some segs -> m !! dst = Some (take i segs) ->
  (i + n = length segs)%nat ->
  hp (copy_segments n i src dst) (fun r s' => exists k,
    with_structs s (<[dst := take k segs]> m) (vm_lock s) s' /\
    ((r = SUCCESS /\ k = length segs) \/ (r = INVALID_ARGS /\ refusal s))) s.
Proof.
  intros Hne. revert i m s. induction n as [|n IH]; intros i m s E Es Ed Hn; cbn [copy_segments].
  { apply hp_ret. exists i. split; [|left; split; [done | lia]]. exists (vm_heap s).
    rewrite insert_id by done. by destruct s; simpl in *; subst. }
  apply hp_bind, (hp_structs m); [done|]. rewrite (proj2 (Z.eqb_neq _ _) Hne), Es.
  destruct (lookup_lt_is_Some_2 segs i) as [g Hg]; [lia|]. rewrite Hg.
  apply hp_bind, hp_kmalloc; [done|]. intros [] h Hb Hr; cbn [negb].
  2: { apply hp_ret. exists i. split; [|right; auto]. exists h. simpl. rewrite E, insert_id by done. done. }
  rewrite Ed. apply hp_bind, (hp_grow (fun b => b)); [done | done |]. intros h2 Hr2.
  apply hp_bind, (hp_put_segments m); [done|]. rewrite <- (take_S_r _ _ g Hg).
  eapply hp_mono; [apply (IH (S i) (<[dst := take (S i) segs]> m)); [done | | by rewrite lookup_insert_eq | lia]|].
  { by rewrite lookup_insert_ne. }
  intros r s' (k & [h3 ->] & Hres) Hr3. exists k. split.
  - exists h3. by rewrite insert_insert_eq.
  - destruct Hres as [?|[-> Hf]]; [by left | right; split; [done|]].
    by apply Hr, Hr2.
Qed.

Lemma hp_copy_page_table_struct s src dst :
  vm_lock s = false -> src <> dst ->
  hp (copy_page_table_struct src dst) (fun r s' => exists m',
    with_structs s m' false s' /\ (forall t, t <> dst -> m' !! t = smap s !! t) /\
    ((r = SUCCESS /\ exists segs, smap s !! src = Some segs /\ m' !! dst = Some segs) \/
     (r = INVALID_ARGS /\ (smap s !! src = None \/ refusal s) /\
      (default [] (m' !! dst) = segments s dst \/ default [] (m' !! dst) `prefix_of` segments s src)))) s.
Proof.
  intros Hl Hne. unfold copy_page_table_struct. apply hp_bind, hp_lock; [done|].
  apply hp_bind. eapply hp_mono; [apply hp_get_struct|]. intros o s1 [-> [h ->]] Hr.
  change (smap (set_lock true s)) with (smap s). destruct (smap s !! src) as [segs|] eqn:E.
  2: { apply hp_bind, hp_unlock, hp_ret. exists (smap s). split_and!; [by eexists | done | right; split_and!; auto]. }
  apply hp_bind, (hp_structs (smap s)); [done|].
  set (m1 := if dst =? 0 then smap s else delete dst (smap s)).
  assert (Hm1 : forall t, t <> dst -> m1 !! t = smap s !! t).
  { intros t Ht. unfold m1. case_bool; [done|]. by rewrite lookup_delete_ne. }
  assert (Hd1 : default [] (m1 !! dst) = segments s dst \/ default [] (m1 !! dst) `prefix_of` segments s src).
  { unfold m1. case_bool; [by left | right]. rewrite lookup_delete_eq. apply prefix_nil. }
  apply hp_bind. apply (hp_mono _ (fun _ => with_structs s m1 true)).
  { unfold when, m1. destruct (Z.eqb_spec dst 0); cbn [negb]; [apply hp_ret; by eexists|].
    apply hp_modify; [done|]. by eexists. }
  intros ? s2 [h2 ->] Hr2. apply hp_bind, hp_kmalloc; [done|]. intros [] h3 Hb Hr3; cbn [negb].
  2: { apply hp_bind, hp_unlock, hp_ret. exists m1. split_and!; [by eexists | done |].
       right. split_and!; [done | right; by apply Hr, Hr2, Hb | done]. }
  apply hp_bind, (hp_grow (fun b => b)); [done | done |]. intros h4 Hr4.
  apply hp_bind. eapply hp_mono; [by apply hp_put_struct|]. intros [] s5 Hs5 Hr5; cbn [negb].
  2: { destruct Hs5 as [Hf [h5 ->]]. apply hp_bind, hp_unlock, hp_ret.
       exists m1. split_and!; [by eexists | done |].
       right. split_and!; [done | right; by apply Hr, Hr2, Hr3, Hr4 | done]. }
  destruct Hs5 as [h5 ->]. apply hp_bind.
  eapply hp_mono; [apply (hp_copy_segments segs src dst _ _ (<[dst := []]> m1)); [done | done | | |]|].
  { by rewrite lookup_insert_ne, Hm1. }
  { by rewrite lookup_insert_eq. }
  { done. }
  intros r s6 (k & [h6 ->] & Hres) Hr6. apply hp_bind, hp_unlock, hp_ret. rewrite insert_insert_eq.
  exists (<[dst := take k segs]> m1). split_and!; [by eexists | |].
  { intros t Ht. by rewrite lookup_insert_ne, Hm1. }
  rewrite lookup_insert_eq. destruct Hres as [[-> ->] | [-> Hf]]; [left | right].
  - split; [done|]. exists segs. by rewrite take_ge.
  - split_and!; [done | right; by apply Hr, Hr2, Hr3, Hr4, Hr5 | right].
    unfold segments. rewrite E. apply prefix_take.
Qed.

(** *** [mmap] of anonymous memory *)

Definition PROT_MAX : Z := Z.lor (Z.lor MMAP_PROT_READ MMAP_PROT_WRITE) MMAP_PROT_EXEC.

(** Valid arguments of [mmap(NULL, len, prot, MAP_PRIVATE | MAP_ANONYMOUS, -1, 0)]. *)
Lemma mmap_anonymous `{FileOps F} s table len prot :
  0 < len -> 0 <= prot <= PROT_MAX ->
  mmap (Some table) 0 len prot (Z.lor MAP_PRIVATE MAP_ANONYMOUS) (-1) 0 s =
  (let va := curr_mmap_va (vm_pt s) in
   err ← add_vm_region table INVALID_INO 0 0 va (align_up len) prot (Z.lor MAP_PRIVATE MAP_ANONYMOUS);
   mret (if err =? 0 then va else 0))
  (set_pt (set_mmap_va (align_up (to_u64 (curr_mmap_va (vm_pt s) + align_up len))) (vm_pt s)) s).
Proof.
  intros Hl Hp. unfold mmap. rewrite Z.eqb_refl. cbn [negb andb].
  rewrite (proj2 (Z.eqb_neq len 0)) by lia. change (Z.land 0 (PAGE_SIZE - 1) =? 0) with true. cbn [negb].
  fold PROT_MAX. rewrite (proj2 (Z.ltb_ge PROT_MAX prot)) by lia. rewrite (proj2 (Z.ltb_ge prot 0)) by lia.
  cbn [orb]. done.
Qed.

(** A region that was just mapped ends where the next one is to start. *)
Definition next_is_reached s table : Prop :=
  exists g, g ∈ segments s table /\
    seg_start g <= curr_mmap_va (vm_pt s) <= seg_end g.

Lemma mmap_reaches_next `{FileOps F} s s1 table len prot va :
  vm_lock s = false -> sorted (segments s table) ->
  curr_mmap_va (vm_pt s) mod 4096 = 0 -> 0 <= curr_mmap_va (vm_pt s) < 2 ^ 48 ->
  0 < len < 2 ^ 48 -> 0 <= prot <= PROT_MAX ->
  mmap (Some table) 0 len prot (Z.lor MAP_PRIVATE MAP_ANONYMOUS) (-1) 0 s = Ok (va, s1) -> va <> 0 ->
  vm_lock s1 = false /\ sorted (segments s1 table) /\ next_is_reached s1 table /\
  (refusal s1 -> refusal s).
Proof.
  intros Hl Hs Hal Hva Hlen Hp E Hne. rewrite mmap_anonymous in E by (done || lia).
  set (cur := curr_mmap_va (vm_pt s)) in *.
  set (s0 := set_pt _ s) in E.
  pose proof (hp_add_vm_region s0 table INVALID_INO 0 0 cur (align_up len) prot
    (Z.lor MAP_PRIVATE MAP_ANONYMOUS) Hl) as Ha.
  unfold hp in Ha. unfold mbind, stM_bind in E.
  destruct (add_vm_region _ _ _ _ _ _ _ _ s0) as [[r s2]| | |]; try done.
  injection E as Ev <-. destruct Ha as [(m' & l & [h ->] & Ht & Hres) Hr].
  destruct Hres as [-> _ _ _ | -> _ _ _ | -> -> _ Em]; [done | done |].
  split_and!; [done | | | by intros Hf; apply Hr in Hf].
  - unfold segments, smap. simpl. rewrite Em. by apply sorted_insert.
  - eexists. split.
    + unfold segments, smap. simpl. rewrite Em. apply elem_of_insert_region. by left.
    + cbn [seg_start vm_pt]. unfold s0, seg_end. simpl. unfold to_u64.
      assert (Hup : align_up len = len + 4095 - (len + 4095) mod 4096) by (apply align_up_eq; lia).
      pose proof (Z.mod_pos_bound (len + 4095) 4096).
      assert (Hm : (cur + align_up len) mod 4096 = 0).
      { pose proof (Z.div_mod cur 4096). pose proof (Z.div_mod (len + 4095) 4096).
        replace (cur + align_up len) with ((cur / 4096 + (len + 4095) / 4096) * 4096) by lia.
        apply Z.mod_mul. lia. }
      rewrite wrap_small by lia. rewrite align_up_eq by lia.
      assert ((cur + align_up len + 4095) mod 4096 = 4095) as ->.
      { rewrite Zplus_mod, Hm. done. }
      lia.
Qed.

(** Then the next [mmap(NULL, ...)] fails and keeps the lock. *)
Lemma mmap_reached_fails `{FileOps F} s table len prot :
  vm_lock s = false -> ~ refusal s -> sorted (segments s table) -> next_is_reached s table ->
  0 < len -> 0 <= prot <= PROT_MAX ->
  exists s', mmap (Some table) 0 len prot (Z.lor MAP_PRIVATE MAP_ANONYMOUS) (-1) 0 s = Ok (0, s') /\
    vm_lock s' = true.
Proof.
  intros Hl Hnr Hs Hnext Hlen Hp. rewrite mmap_anonymous by done.
  set (cur := curr_mmap_va (vm_pt s)) in *. set (s0 := set_pt _ s).
  pose proof (hp_add_vm_region s0 table INVALID_INO 0 0 cur (align_up len) prot
    (Z.lor MAP_PRIVATE MAP_ANONYMOUS) Hl) as Ha.
  unfold hp in Ha. unfold mbind, stM_bind.
  destruct (add_vm_region _ _ _ _ _ _ _ _ s0) as [[r s2]| | |]; try done.
  destruct Ha as [(m' & l & [h ->] & Ht & Hres) Hr].
  destruct Hres as [_ _ Hf _ | -> -> _ _ | _ _ Hno _]; [done | by eexists |].
  exfalso. by apply Hno, region_place_overlap.
Qed.

(** *** Sequences of region operations *)

Definition all_sorted s : Prop := forall t, sorted (segments s t).

Lemma all_sorted_with s m l s' :
  with_structs s m l s' -> (forall t, sorted (default [] (m !! t))) -> all_sorted s'.
Proof. intros [h ->] Hm t. apply Hm. Qed.

Lemma all_sorted_ext s s' : all_sorted s -> vm_structs s' = vm_structs s -> all_sorted s'.
Proof. unfold all_sorted, segments, smap. by intros H ->. Qed.

Lemma sorted_nil : sorted [].
Proof. constructor. Qed.

(** [m'] differs from the structures of [s] at [table] only. *)
Lemma all_sorted_step s table m m' l s' :
  all_sorted s -> with_structs s m' l s' -> (forall t, t <> table -> m' !! t = m !! t) ->
  m = smap s -> sorted (default [] (m' !! table)) -> all_sorted s'.
Proof.
  intros Hs Hw Ht -> Hn. eapply all_sorted_with; [done|]. intros t.
  destruct (decide (t = table)) as [->|]; [done|]. rewrite Ht by done. apply Hs.
Qed.

Lemma hp_add_page_table_struct s table :
  vm_lock s = false -> all_sorted s ->
  hp (add_page_table_struct table) (fun _ s' => all_sorted s') s.
Proof.
  intros Hl Hs. unfold add_page_table_struct. case_bool; [by apply hp_ret|].
  apply hp_bind, hp_lock; [done|]. apply hp_bind. eapply hp_mono; [apply hp_init|].
  intros ? s1 [h ->] _. apply hp_bind. eapply hp_mono; [apply hp_get_struct|].
  intros o s2 [-> [h2 ->]] _. change (smap (mkVM _ _ _ _ _)) with (smap s).
  destruct (smap s !! table) as [segs|] eqn:E.
  { apply hp_bind, hp_unlock, hp_ret. apply Hs. }
  apply hp_bind, hp_kmalloc; [done|]. intros [] h3 _ _; cbn [negb].
  2: { apply hp_bind, hp_unlock, hp_ret. apply Hs. }
  apply hp_bind, (hp_grow (fun b => b)); [done | done |]. intros h4 _.
  apply hp_bind. eapply hp_mono; [by apply hp_put_struct|]. intros [] s5 Hs5 _.
  - destruct Hs5 as [h5 ->]. apply hp_bind, hp_unlock, hp_ret.
    eapply (all_sorted_step s table (smap s)); [done | by eexists | | done |].
    + intros t Ht. by apply lookup_insert_ne.
    + rewrite lookup_insert_eq. apply sorted_nil.
  - destruct Hs5 as [_ [h5 ->]]. apply hp_bind, hp_unlock, hp_ret. apply Hs.
Qed.

Lemma hp_free_page_table_struct s table :
  vm_lock s = false -> all_sorted s ->
  hp (free_page_table_struct table) (fun _ s' => all_sorted s') s.
Proof.
  intros Hl Hs. unfold free_page_table_struct. apply hp_bind, hp_lock; [done|].
  apply hp_bind, hp_fetch. cbn [vm_structs set_lock]. destruct (vm_structs s) as [m|] eqn:E.
  2: { apply hp_unlock. by apply (all_sorted_ext s). }
  apply hp_bind, (hp_mono _ (fun _ => all_sorted)).
  2: { intros ? s1 H1 _. apply hp_unlock. by apply (all_sorted_ext s1). }
  unfold when. destruct (table =? 0); cbn [negb]; [apply hp_ret; by apply (all_sorted_ext s)|].
  apply hp_modify; [done|]. 
  apply (all_sorted_step s table m (delete table m) true); [done | by eexists | | unfold smap; by rewrite E |].
  - intros t Ht. by apply lookup_delete_ne.
  - rewrite lookup_delete_eq. apply sorted_nil.
Qed.

(** [mmap] either returns NULL without touching the regions, or is a call of
    [add_vm_region]. *)
Definition same_regions s s' : Prop :=
  vm_structs s' = vm_structs s /\ vm_lock s' = vm_lock s /\ vm_heap s' = vm_heap s.

Class FileOpsReturn `{FileOps F} : Prop := {
  oft_entry_returns : forall fd f, exists r f', fo_oft_entry fd f = Ok (r, f');
  remove_ref_returns : forall ino f, exists f', fo_remove_ref ino f = Ok (tt, f')
}.

Lemma mmap_backing_returns `{FileOpsReturn} s flags fd off len :
  exists b s', mmap_backing flags fd off len s = Ok (b, s') /\ same_regions s s'.
Proof.
  unfold mmap_backing. destruct (Z.land flags MAP_ANONYMOUS =? 0).
  2: { destruct (_ || _); by eexists _, _. }
  destruct (oft_entry_returns fd (vm_fs s)) as (r & f' & Eo).
  unfold in_fs, lift, mbind, stM_bind. rewrite Eo.
  destruct r as [[ino isz]|]; [|by eexists _, _].
  destruct (to_u64 isz <? off); [|by eexists _, _].
  destruct (remove_ref_returns ino f') as (f2 & Er). cbn [vm_fs set_fs]. rewrite Er. by eexists _, _.
Qed.

Lemma mmap_cases `{FileOpsReturn} s table addr len prot flags fd off :
  exists s', same_regions s s' /\
    (mmap (Some table) addr len prot flags fd off s = Ok (0, s') \/
     exists ino fsz va l, mmap (Some table) addr len prot flags fd off s =
       (err ← add_vm_region table ino off fsz va l prot (to_u32 flags);
        mret (if err =? 0 then va else 0)) s').
Proof.
  unfold mmap.
  do 6 (match goal with |- context [if ?b then mret 0 else _] => destruct b end;
        [by exists s; split; [|left]|]).
  destruct (mmap_backing_returns s flags fd off (align_up len)) as ([[ino fsz]|] & s1 & Eb & Hs1);
    rewrite (bind_ok _ _ _ _ _ Eb); [|by exists s1; split; [|left]].
  destruct (addr =? 0).
  - eexists. split; [|right; by eexists ino, fsz, _, _]. done.
  - exists s1. split; [done|]. right. by exists ino, fsz, addr, (align_up len).
Qed.

(** One call of the component's interface. *)
Inductive region_op :=
| RRegister (table : Z)
| RFree (table : Z)
| RCopy (src dst : Z)
| RMap (table addr len prot flags fd off : Z)
| RUnmap (table addr len : Z).

Definition region_step `{FileOps F} (op : region_op) : stM (vm_state F) unit :=
  match op with
  | RRegister t => _ ← add_page_table_struct t; mret tt
  | RFree t => free_page_table_struct t
  | RCopy src dst => _ ← copy_page_table_struct src dst; mret tt
  | RMap t addr len prot flags fd off => _ ← mmap (Some t) addr len prot flags fd off; mret tt
  | RUnmap t addr len => _ ← munmap (Some t) addr len; mret tt
  end.

Fixpoint region_run `{FileOps F} (ops : list region_op) : stM (vm_state F) unit :=
  match ops with
  | [] => mret tt
  | op :: ops => _ ← region_step op; region_run ops
  end.

(** Address spaces are copied to other address spaces. *)
Definition copies_apart (op : region_op) : bool :=
  match op with RCopy src dst => negb (src =? dst) | _ => true end.

(** Why a call does not come back: the lock is held already, or [munmap] is to
    split a segment. *)
Definition hang_cause s (op : region_op) : Prop :=
  vm_lock s = true \/
  match op with RUnmap t a l => existsb (splits a l) (segments s t) = true | _ => False end.

Definition step_ok s (op : region_op) (o : outcome (unit * vm_state F)) : Prop :=
  match o with
  | Ok (_, s') => all_sorted s' /\ (refusal s' -> refusal s)
  | Fatal => refusal s
  | Fault => False
  | Hang => hang_cause s op
  end.

Lemma hp_step_ok s op (m : stM (vm_state F) unit) :
  hp m (fun _ => all_sorted) s -> step_ok s op (m s).
Proof. unfold hp, step_ok. by destruct (m s) as [[[] s']| | |]. Qed.

Lemma hp_drop {A} (m : stM (vm_state F) A) (Q : vm_state F -> Prop) s :
  hp m (fun _ => Q) s -> hp (m ≫= fun _ => mret tt) (fun _ => Q) s.
Proof. intros Hm. apply hp_bind. eapply hp_mono; [done|]. intros a s' HQ _. by apply hp_ret. Qed.

Lemma hp_add_sorted s table ino off fsz start len prot mf :
  vm_lock s = false -> all_sorted s ->
  hp (add_vm_region table ino off fsz start len prot mf) (fun _ => all_sorted) s.
Proof.
  intros Hl Hs. eapply hp_mono; [by apply hp_add_vm_region|].
  intros r s' (m' & l & Hw & Ht & Hres) _. eapply all_sorted_step; [done | done | done | done |].
  destruct Hres as [_ _ _ -> | _ _ _ -> | _ _ _ ->]; [apply Hs | apply Hs | simpl].
  by apply sorted_insert, Hs.
Qed.

(** The calls with the lock free. *)
Lemma hp_mmap_sorted `{FileOpsReturn} s t addr len prot flags fd off :
  vm_lock s = false -> all_sorted s ->
  hp (mmap (Some t) addr len prot flags fd off) (fun _ => all_sorted) s.
Proof.
  intros Hl Hs.
  destruct (mmap_cases s t addr len prot flags fd off) as (s' & (E1 & E2 & E3) & [E | (ino & fsz & va & l & E)]).
  - apply (hp_conv _ (mret 0) _ _ s'); [done | done |]. apply hp_ret. by apply (all_sorted_ext s).
  - eapply hp_conv; [done | done |]. apply hp_bind.
    eapply hp_mono; [apply hp_add_sorted; [congruence | by apply (all_sorted_ext s)]|].
    intros. by apply hp_ret.
Qed.

Lemma region_step_unmap `{FileOps F} s t a n :
  vm_lock s = false -> all_sorted s ->
  step_ok s (RUnmap t a n) (region_step (RUnmap t a n) s).
Proof.
  intros Hl Hs. cbn [region_step]. destruct (smap s !! t) as [segs|] eqn:Et.
  - unfold smap in Et. destruct (vm_structs s) as [m|] eqn:Em; [|done]. simpl in Et.
    unfold mbind, stM_bind. rewrite (munmap_eq s m t segs) by done.
    destruct (existsb (splits a n) segs) eqn:Ex.
    + right. unfold segments, smap. by rewrite Em; simpl; rewrite Et.
    + split; [|done]. 
      apply (all_sorted_step s t m (<[t := omap (trim a n) segs]> m) (vm_lock s)); [done | by exists (vm_heap s) | | unfold smap; by rewrite Em |].
      { intros u Hu. by apply lookup_insert_ne. }
      rewrite lookup_insert_eq. apply sorted_trim.
      pose proof (Hs t) as Ht. unfold segments, smap in Ht. rewrite Em in Ht. simpl in Ht. by rewrite Et in Ht.
  - apply hp_step_ok, hp_drop. unfold munmap. apply hp_bind, hp_lock; [done|].
    apply hp_bind. eapply hp_mono; [apply hp_get_struct|]. intros o s1 [-> [h ->]] _.
    change (smap (set_lock true s)) with (smap s). rewrite Et. apply hp_bind, hp_unlock, hp_ret. apply Hs.
Qed.

Lemma region_step_free `{FileOpsReturn} s op :
  vm_lock s = false -> all_sorted s -> copies_apart op = true ->
  step_ok s op (region_step op s).
Proof.
  intros Hl Hs Hc. destruct op as [t|t|src dst|t a n p fl fd off|t a n]; cbn [region_step].
  - by apply hp_step_ok, hp_drop, hp_add_page_table_struct.
  - by apply hp_step_ok, hp_free_page_table_struct.
  - apply hp_step_ok, hp_drop. simpl in Hc. case_bool; [done|].
    eapply hp_mono; [by apply hp_copy_page_table_struct|]. intros r s' (m' & Hw & Ht & Hres) _.
    eapply all_sorted_step; [done | done | done | done |].
    destruct Hres as [(_ & segs & E & ->) | (_ & _ & [-> | [k E]])]; simpl; [|apply Hs|].
    + pose proof (Hs src) as Hsrc. unfold segments in Hsrc. by rewrite E in Hsrc.
    + pose proof (Hs src) as Hsrc. rewrite E in Hsrc. by apply StronglySorted_app in Hsrc as (_ & ? & _).
  - by apply hp_step_ok, hp_drop, hp_mmap_sorted.
  - by apply region_step_unmap.
Qed.

Lemma region_step_held `{FileOpsReturn} s op :
  vm_lock s = true -> all_sorted s -> step_ok s op (region_step op s).
Proof.
  intros Hl Hs.
  assert (Hhang : forall A (f : unit -> stM (vm_state F) A) (g : A -> stM (vm_state F) unit),
    step_ok s op (((lock_metadata ≫= f) ≫= g) s)).
  { intros A f g. rewrite (bind_hang (lock_metadata ≫= f)); [by left | by apply lock_held_hangs]. }
  destruct op as [t|t|src dst|t a n p fl fd off|t a n]; cbn [region_step]; try apply Hhang.
  - unfold add_page_table_struct. destruct (t =? 0); [done | apply Hhang].
  - unfold free_page_table_struct. rewrite lock_held_hangs by done. by left.
  - destruct (mmap_cases s t a n p fl fd off) as (s' & (E1 & E2 & E3) & [E | (ino & fsz & va & l & E)]).
    + rewrite (bind_ok _ _ _ _ _ E). split; [by apply (all_sorted_ext s)|].
      unfold refusal. simpl. by rewrite E3.
    + rewrite bind_hang; [by left|]. rewrite E. apply bind_hang, lock_held_hangs. congruence.
Qed.

Lemma region_step_ok `{FileOpsReturn} s op :
  all_sorted s -> copies_apart op = true -> step_ok s op (region_step op s).
Proof.
  intros Hs Hc. destruct (vm_lock s) eqn:Hl; [by apply region_step_held | by apply region_step_free].
Qed.

Definition run_ok `{FileOps F} s (ops : list region_op) (o : outcome (unit * vm_state F)) : Prop :=
  match o with
  | Ok (_, s') => all_sorted s'
  | Fatal => refusal s
  | Fault => False
  | Hang => exists before op after s1, ops = before ++ op :: after /\
      region_run before s = Ok (tt, s1) /\ hang_cause s1 op
  end.

Lemma region_run_ok `{FileOpsReturn} ops s :
  all_sorted s -> forallb copies_apart ops = true -> run_ok s ops (region_run ops s).
Proof.
  revert s. induction ops as [|op ops IH]; intros s Hs Hc; [done|].
  cbn [forallb] in Hc. apply andb_true_iff in Hc as [Hop Hc].
  pose proof (region_step_ok s op Hs Hop) as Hstep. cbn [region_run].
  unfold step_ok in Hstep. unfold mbind, stM_bind. destruct (region_step op s) as [[[] s1]| | |] eqn:E; [|done | done |].
  - destruct Hstep as [Hs1 Hr]. specialize (IH s1 Hs1 Hc). unfold run_ok in *.
    destruct (region_run ops s1) as [[[] s2]| | |]; [done | auto | done |].
    destruct IH as (before & op' & after & s3 & -> & Er & Hcause).
    exists (op :: before), op', after, s3. split_and!; [done | | done].
    cbn [region_run]. by rewrite (bind_ok _ _ _ _ _ E).
  - exists [], op, ops, s. by split_and!.
Qed.

End region_theory.

(** ** Properties *)

(** A file system with no open files, and the state of the kernel before the
    first address space is registered. *)
Definition no_files : FileOps unit := {|
  fo_oft_entry _ := mret None;
  fo_remove_ref _ := mret tt;
  fo_file_size _ := mret INVALID_ARGS;
  fo_bytes_per_block := mret 512;
  fo_ith_block _ _ := mret 0;
  fo_read_block _ := mret (FILE_READ_ERROR, [])
|}.

Lemma no_files_return : @FileOpsReturn unit no_files.
Proof. constructor; [by intros fd f; exists None, f | intros ino f; by exists f]. Qed.

Definition region_boot : vm_state unit :=
  mkVM (set_mmap_va 0x901000 boot_example) None false (fun _ => true) tt.

(** C25. Whatever sequence of [add_page_table_struct], [free_page_table_struct],
    [copy_page_table_struct], [mmap] and [munmap] calls the kernel makes, with
    any arguments and any answers of the heap, the segments of every address
    space stay sorted by start address, no call reads a structure that does
    not exist, and the kernel is stopped only because an allocation was
    refused.  A call hangs only if the metadata lock was already held when it
    was made or it is a [munmap] strictly inside a segment. *)
Theorem vm_regions_invariant {F} `{FileOpsReturn F} (ops : list region_op) (s : vm_state F) :
  all_sorted s -> forallb copies_apart ops = true ->
  match region_run ops s with
  | Ok (_, s') => all_sorted s'
  | Fatal => refusal s
  | Fault => False
  | Hang => exists before op after s1, ops = before ++ op :: after /\
      region_run before s = Ok (tt, s1) /\ hang_cause s1 op
  end.
Proof. apply region_run_ok. Qed.

Definition region_ops_example : list region_op :=
  [RRegister 0x5000; RMap 0x5000 0 0x3000 6 5 (-1) 0; RMap 0x5000 0x10000 0x2000 6 13 (-1) 0;
   RCopy 0x5000 0x6000; RUnmap 0x6000 0x11000 0x1000; RFree 0x5000].

Lemma vm_regions_invariant_witness :
  match @region_run unit no_files region_ops_example region_boot with
  | Ok (_, s') => all_sorted s' /\
      (fun g => (seg_start g, seg_length g)) <$> segments s' 0x6000 = [(0x10000, 0x1000); (0x901000, 0x3000)]
  | _ => False
  end.
Proof.
  pose proof (@vm_regions_invariant unit no_files no_files_return region_ops_example region_boot) as H.
  assert (Hs : all_sorted region_boot) by (intros t; apply sorted_nil).
  specialize (H Hs eq_refl).
  assert (E : match @region_run unit no_files region_ops_example region_boot with
              | Ok (_, s') => (fun g => (seg_start g, seg_length g)) <$> segments s' 0x6000
                              = [(0x10000, 0x1000); (0x901000, 0x3000)]
              | _ => False
              end) by (vm_compute; reflexivity).
  revert H E. destruct (region_run _ _) as [[u s']| | |]; intros H E; [by split | done..].
Defined.

(** C26. [munmap] of a range, in the cases it supports: if the range neither
    covers just the beginning of a segment nor lies strictly inside one, the
    call returns 0 with the lock free, the addresses that remain mapped in that
    address space are exactly those outside the range, the segments stay
    sorted, and no other address space changes. *)
Theorem munmap_removes_range {F} (s : vm_state F) m table segs addr len :
  vm_lock s = false -> vm_structs s = Some m -> m !! table = Some segs ->
  sorted segs -> Forall well_sized segs -> 0 <= addr -> 0 <= len -> addr + len < 2 ^ 64 ->
  existsb (cuts_head addr len) segs = false -> existsb (splits addr len) segs = false ->
  exists s', munmap (Some table) addr len s = Ok (0, s') /\ vm_lock s' = false /\
    (forall va, covered (segments s' table) va <-> covered segs va /\ ~ addr <= va < addr + len) /\
    sorted (segments s' table) /\
    (forall t, t <> table -> segments s' t = segments s t).
Proof.
  intros Hl Em Et Hs Hw Ha Hn Hb Hch Hsp. rewrite (munmap_eq s m table segs) by done. rewrite Hsp.
  eexists. split; [done|].
  assert (Hseg : forall t, segments (set_structs (Some (<[table := omap (trim addr len) segs]> m)) s) t
    = if decide (t = table) then omap (trim addr len) segs else segments s t).
  { intros t. unfold segments, smap. simpl. rewrite Em. simpl. case_decide; subst;
      [by rewrite lookup_insert_eq | by rewrite lookup_insert_ne]. }
  split_and!; [done | | rewrite Hseg, decide_True by done; by apply sorted_trim |
    intros t Ht; by rewrite Hseg, decide_False].
  intros va. rewrite Hseg, decide_True by done. apply munmap_covered; done.
Qed.

(** An address space with two regions. *)
Definition seg_a : mem_segment := mkSeg 0x10000 0x4000 0 0 0 6 5.
Definition seg_b : mem_segment := mkSeg 0x20000 0x2000 0 0 0 6 5.
Definition two_regions : vm_state unit :=
  mkVM boot_example (Some {[ 0x5000 := [seg_a; seg_b] ]}) false (fun _ => true) tt.

Lemma two_regions_sorted : sorted [seg_a; seg_b].
Proof. repeat constructor. done. Qed.

Lemma two_regions_sized : Forall well_sized [seg_a; seg_b].
Proof. repeat apply Forall_cons_2; [..|done]; unfold well_sized; simpl; lia. Qed.

Lemma munmap_removes_range_witness :
  exists s', munmap (Some 0x5000) 0x12000 0x10000 two_regions = Ok (0, s') /\
    ~ covered (segments s' 0x5000) 0x13000 /\ covered (segments s' 0x5000) 0x11000.
Proof.
  destruct (munmap_removes_range two_regions {[ 0x5000 := [seg_a; seg_b] ]} 0x5000
    [seg_a; seg_b] 0x12000 0x10000) as (s' & E & _ & Hc & _); try (done || reflexivity).
  - apply two_regions_sorted.
  - apply two_regions_sized.
  - exists s'. split; [exact E|]. rewrite !Hc. split; [lia|]. split; [|lia].
    exists seg_a. split; [apply list_elem_of_here | by vm_compute].
Defined.

(** The two cases [munmap] gets wrong.  A range that covers the beginning
    of a segment and not its end removes nothing of that segment: the call
    returns 0 and every address of the segment is still mapped.  A range
    strictly inside a segment never returns: [munmap] calls [add_vm_region],
    which takes the lock [munmap] already holds. *)
Theorem munmap_head_and_middle {F} (s : vm_state F) m table segs addr len :
  vm_lock s = false -> vm_structs s = Some m -> m !! table = Some segs ->
  Forall well_sized segs -> 0 <= addr ->
  (forall seg va, seg ∈ segs -> cuts_head addr len seg = true -> covers seg va ->
     existsb (splits addr len) segs = false ->
     exists s', munmap (Some table) addr len s = Ok (0, s') /\ covered (segments s' table) va) /\
  (existsb (splits addr len) segs = true -> munmap (Some table) addr len s = Hang).
Proof.
  intros Hl Em Et Hw Ha. rewrite (munmap_eq s m table segs) by done. split; [|by intros ->].
  intros seg va Hin Hc Hv ->. eexists. split; [done|].
  destruct (trim_head_kept addr len seg va) as (g & Eg & Hg); try done; [by eapply Forall_forall in Hw|].
  exists g. split; [|done]. unfold segments, smap. simpl. rewrite lookup_insert_eq.
  apply list_elem_of_omap. by exists seg.
Qed.

Lemma munmap_head_and_middle_witness :
  (exists s', munmap (Some 0x5000) 0x10000 0x1000 two_regions = Ok (0, s') /\
     covered (segments s' 0x5000) 0x10000) /\
  munmap (Some 0x5000) 0x11000 0x1000 two_regions = Hang.
Proof.
  split.
  - apply (proj1 (munmap_head_and_middle two_regions {[ 0x5000 := [seg_a; seg_b] ]} 0x5000
      [seg_a; seg_b] 0x10000 0x1000 eq_refl eq_refl eq_refl two_regions_sized ltac:(lia)) seg_a);
      [apply list_elem_of_here | reflexivity | by vm_compute | reflexivity].
  - apply (proj2 (munmap_head_and_middle two_regions {[ 0x5000 := [seg_a; seg_b] ]} 0x5000
      [seg_a; seg_b] 0x11000 0x1000 eq_refl eq_refl eq_refl two_regions_sized ltac:(lia))).
    reflexivity.
Defined.

(** [fork] copies the regions: when [copy_page_table_struct] succeeds the
    child has exactly the segments of its parent; it fails only if the parent
    has no structure or an allocation is refused; and in every case the lock is
    free afterwards and no address space but the child's has changed. *)
Theorem copy_regions_correct {F} (s : vm_state F) src dst :
  vm_lock s = false -> src <> dst ->
  match copy_page_table_struct src dst s with
  | Ok (r, s') =>
      vm_lock s' = false /\ (forall t, t <> dst -> segments s' t = segments s t) /\
      ((r = SUCCESS /\ segments s' dst = segments s src) \/
       (r = INVALID_ARGS /\ (smap s !! src = None \/ refusal s)))
  | Fatal => refusal s
  | Fault | Hang => False
  end.
Proof.
  intros Hl Hne. pose proof (hp_copy_page_table_struct s src dst Hl Hne) as H. unfold hp in H.
  destruct (copy_page_table_struct src dst s) as [[r s']| | |]; [|done..].
  destruct H as [(m' & [h ->] & Ht & Hres) _]. unfold segments.
  change (smap (mkVM _ (Some m') _ _ _)) with m'. split_and!; [done | |].
  - intros t Htd. by rewrite Ht.
  - destruct Hres as [(-> & segs & -> & ->) | (-> & Hf & _)]; [by left | by right].
Qed.

Lemma copy_regions_correct_witness :
  match copy_page_table_struct 0x5000 0x6000 two_regions with
  | Ok (r, s') => r = SUCCESS /\ segments s' 0x6000 = [seg_a; seg_b]
  | _ => False
  end.
Proof.
  pose proof (copy_regions_correct two_regions 0x5000 0x6000 eq_refl ltac:(lia)) as H. revert H.
  destruct (copy_page_table_struct 0x5000 0x6000 two_regions) as [[r s']| | |] eqn:E; [|intros [n Hn]; done | done | done].
  intros (_ & _ & [[-> ->] | (_ & [Hn | [n Hn]])]); done.
Defined.



(** [mmap] hands out consecutive addresses and [add_vm_region] refuses a
    region that starts where another ends, so of two successive
    [mmap(NULL, ...)] calls in a process the second always returns NULL, and it
    leaves the metadata lock held: the third call hangs. *)
Theorem mmap_back_to_back {F} `{FileOps F} (s s1 : vm_state F) table len len' len'' prot prot' prot'' va :
  vm_lock s = false -> (forall n, vm_heap s n = true) -> sorted (segments s table) ->
  curr_mmap_va (vm_pt s) mod 4096 = 0 -> 0 <= curr_mmap_va (vm_pt s) < 2 ^ 48 ->
  0 < len < 2 ^ 48 -> 0 < len' -> 0 < len'' -> 0 <= prot <= PROT_MAX -> 0 <= prot' <= PROT_MAX ->
  0 <= prot'' <= PROT_MAX ->
  let anon n p := mmap (Some table) 0 n p (Z.lor MAP_PRIVATE MAP_ANONYMOUS) (-1) 0 in
  anon len prot s = Ok (va, s1) -> va <> 0 ->
  exists s2, anon len' prot' s1 = Ok (0, s2) /\ anon len'' prot'' s2 = Hang.
Proof.
  intros Hl Hh Hs Hal Hva Hlen Hlen' Hlen'' Hp Hp' Hp'' anon E1 Hne.
  destruct (mmap_reaches_next s s1 table len prot va) as (Hl1 & Hs1 & Hn1 & Hr1); [done..|].
  destruct (mmap_reached_fails s1 table len' prot') as (s2 & E2 & Hl2); [done | | done..|].
  { intros [n Hn]%Hr1. simpl in Hn. by rewrite Hh in Hn. }
  exists s2. split; [done|]. unfold anon. rewrite mmap_anonymous by done.
  by apply bind_hang, lock_held_hangs.
Qed.

Lemma mmap_back_to_back_witness :
  let anon n p := @mmap unit no_files (Some 0x5000) 0 n p (Z.lor MAP_PRIVATE MAP_ANONYMOUS) (-1) 0 in
  exists s1 s2, anon 4096 6 region_boot = Ok (0x901000, s1) /\
    anon 4096 6 s1 = Ok (0, s2) /\ anon 1 4 s2 = Hang.
Proof.
  intros anon. destruct (anon 4096 6 region_boot) as [[va s1]| | |] eqn:E; [|discriminate E..].
  assert (va = 0x901000) as -> by (injection E; intros _ <-; reflexivity).
  destruct (@mmap_back_to_back unit no_files region_boot s1 0x5000 4096 4096 1 6 6 4 0x901000) as (s2 & E2 & E3);
    try (done || lia); [apply sorted_nil|].
  by exists s1, s2.
Defined.
