(* ===== verification/DemandPaging.v ===== *)
(** * Demand paging

    kernel/memory/page_table/page_table.c: [read_segment_page] and
    [load_segment_page_for_fault]; kernel/memory/mmu.c: the instruction and
    data abort handlers.

    File contents are bytes and memory is made of 64-bit words, so a byte
    store replaces one byte of the little-endian word that holds it. *)

From S2P Require Import Prelude Errors Services PageAlloc PageTable Cow VmRegion.

(** ** Bytes in words *)

(** Byte [k] of the word [w]. *)
Definition word_byte (w k : Z) : Z := (w / 2 ^ (8 * k)) mod 256.

Definition set_word_byte (w k b : Z) : Z := w + (b - word_byte w k) * 2 ^ (8 * k).

Definition mem_byte (m : Z -> Z) (a : Z) : Z := word_byte (m (a - a mod 8)) (a mod 8).

Definition wr_byte (a b : Z) : M unit :=
  w ← rd (a - a mod 8);
  wr (a - a mod 8) (set_word_byte w (a mod 8) b).

(** [copy_bytes(dst, src + src_off, size)]; the source is a heap buffer. *)
Definition copy_bytes (dst : Z) (src : list Z) (src_off : Z) (size : Z) : M unit :=
  for_st (Z.to_nat size) 0 (fun i =>
    match src !! Z.to_nat (src_off + i) with
    | Some b => wr_byte (dst + i) b
    | None => fault
    end).

Definition min_u64 (a b : Z) : Z := if a <? b then a else b.
Definition max_u64 (a b : Z) : Z := if b <? a then a else b.

Definition PAGE_FAULT_NOT_HANDLED : Z := 0.
Definition PAGE_FAULT_HANDLED : Z := 1.
Definition PAGE_FAULT_PERMISSION : Z := -1.
Definition PAGE_FAULT_ERROR : Z := -2.
Definition page_fault_results : list Z := [PAGE_FAULT_NOT_HANDLED; PAGE_FAULT_HANDLED; PAGE_FAULT_PERMISSION; PAGE_FAULT_ERROR].

Section paging.
Variable page_pool_start : Z.
Context {F : Type} `{FileOps F}.

Abbreviation VM := (stM (vm_state F)).

(** ** [read_segment_page] *)

(** The reading loop; every iteration reads at least one byte, so
    [bytes_to_read] iterations suffice. *)
Fixpoint read_blocks (fuel : nat) (ino_id page page_offset file_offset bytes_to_read block_size : Z)
    : VM Z :=
  if negb (0 <? bytes_to_read) then mret SUCCESS
  else
    match fuel with
    | O => fault
    | S fuel =>
        let file_block_index := to_u32 (file_offset / block_size) in
        let block_offset := file_offset mod block_size in
        block_no ← in_fs (fo_ith_block ino_id file_block_index);
        if block_no =? 0 then mret FILE_READ_ERROR else
        '(err, block_data) ← in_fs (fo_read_block block_no);
        if negb (err =? SUCCESS) then mret err else
        let bytes_from_block := min_u64 bytes_to_read (block_size - block_offset) in
        _ ← in_pt (copy_bytes (page + page_offset) block_data block_offset bytes_from_block);
        read_blocks fuel ino_id page (page_offset + bytes_from_block)
          (file_offset + bytes_from_block) (bytes_to_read - bytes_from_block) block_size
    end.

(** The part of [read_segment_page] that reads the file. *)
Definition read_file_part (segment : mem_segment) (page_va page copy_start file_copy_end : Z) : VM Z :=
  let segment_file_offset := to_u64 (seg_file_offset segment + copy_start - seg_start segment) in
  inode_file_size ← in_fs (fo_file_size (seg_ino segment));
  if inode_file_size <? 0 then mret inode_file_size else
  if inode_file_size <=? segment_file_offset then mret SUCCESS else
  let bytes_to_read := min_u64 (file_copy_end - copy_start) (inode_file_size - segment_file_offset) in
  let page_offset := copy_start - page_va in
  block_size ← in_fs fo_bytes_per_block;
  ok ← kmalloc block_size;
  if negb (ok : bool) then mret INVALID_ARGS else
  read_blocks (Z.to_nat bytes_to_read) (seg_ino segment) page page_offset segment_file_offset
    bytes_to_read block_size.

Definition read_segment_page (segment : mem_segment) (page_va page : Z) : VM Z :=
  let copy_start := max_u64 page_va (seg_start segment) in
  let copy_end := min_u64 (to_u64 (page_va + PAGE_SIZE)) (seg_end segment) in
  if copy_end <=? copy_start then mret INVALID_ARGS else
  let file_copy_end := min_u64 copy_end (to_u64 (seg_start segment + seg_file_size segment)) in
  if file_copy_end <=? copy_start then mret SUCCESS else
  if seg_ino segment =? INVALID_INO then _ ← in_pt (zero_page page); mret SUCCESS else
  read_file_part segment page_va page copy_start file_copy_end.

(** ** [load_segment_page_for_fault] *)

Definition holds (fault_va : Z) (seg : mem_segment) : bool :=
  (seg_start seg <=? fault_va) && (fault_va <? seg_end seg).

Definition stat (c : counter) : VM unit := in_pt (bump c).

Definition fault_error : VM Z :=
  _ ← lock_metadata; _ ← stat faults_error; _ ← unlock_metadata; mret PAGE_FAULT_ERROR.

(** The part after the segment is found, with the lock released. *)
Definition load_page (table fault_va : Z) (segment : mem_segment) : VM Z :=
  let page_va := Z.land fault_va (not64 PAGE_MASK) in
  page ← in_pt (alloc_page page_pool_start);
  if page =? 0 then fault_error else
  err ← read_segment_page segment page_va page;
  if negb (err =? SUCCESS) then _ ← in_pt (free_page page); fault_error else
  _ ← lock_metadata;
  let pa := kernel_phys_addr page in
  ok ← in_pt (pt_map_page page_pool_start table page_va pa (user_segment_attrs (seg_prot segment)));
  if negb (ok : bool) then
    _ ← unlock_metadata; _ ← in_pt (free_page page); fault_error
  else
    _ ← stat file_faults; _ ← stat faults_handled; _ ← unlock_metadata;
    mret PAGE_FAULT_HANDLED.

Definition load_segment_page_for_fault (table fault_va access_type : Z) : VM Z :=
  _ ← lock_metadata;
  _ ← stat page_faults;
  _ ← (if access_type =? MMAP_PROT_EXEC then stat instruction_faults else stat data_faults);
  o ← get_page_table_struct_locked table;
  match o with
  | None =>
      _ ← stat faults_unmapped; _ ← stat faults_invalid; _ ← unlock_metadata;
      mret PAGE_FAULT_NOT_HANDLED
  | Some segs =>
      match list_find (fun seg => holds fault_va seg = true) segs with
      | Some (_, segment) =>
          if Z.land (seg_prot segment) access_type =? 0 then
            _ ← stat faults_permission; _ ← unlock_metadata; mret PAGE_FAULT_PERMISSION
          else
            _ ← unlock_metadata;
            load_page table fault_va segment
      | None =>
          _ ← stat faults_unmapped; _ ← stat faults_invalid; _ ← unlock_metadata;
          mret PAGE_FAULT_NOT_HANDLED
      end
  end.

(** ** Abort handlers

    [curr] is [get_curr_process()->ttbr0_el1_va], [None] when there is no
    current process; [ttbr1] is the physical address of the kernel's table. *)

Definition KERNEL_HEAP_START : Z := 0xffff800000000000.
Definition USER_HEAP_START : Z := 0x400000.
Definition USER_HEAP_SIZE : Z := 16384.
Definition USER_STACK_SIZE : Z := 8192.
Definition USER_STACK_TOP : Z := 0x800000.
Definition PROC_KERNEL_STACK_SIZE : Z := 8192.

Definition ADDRESS_SIZE_FAULT : Z := 0x00.
Definition TRANSLATION_FAULT : Z := 0x04.
Definition ACCESS_FLAG_FAULT : Z := 0x08.
Definition PERMISSION_FAULT : Z := 0x0c.
Definition ESR_WNR : Z := Z.shiftl 1 6.
Definition ESR_FNV : Z := Z.shiftl 1 10.
Definition ESR_EC_SHIFT : Z := 26.
Definition ESR_EC_MASK : Z := 0x3f.
Definition ESR_EC_DABT_LOWER : Z := 0x24.

Definition is_in_range (va start size : Z) : bool :=
  (start <=? va) && (va <? to_u64 (start + size)).

Definition invalidate_all_stage1_tlbs : VM unit := in_pt page_table_note_tlb_flush.

Definition page_table_note_anon_fault (heap_fault stack_fault : bool) : VM unit :=
  _ ← stat page_faults; _ ← stat data_faults; _ ← stat anon_faults; _ ← stat faults_handled;
  _ ← when heap_fault (stat heap_lazy_allocs);
  when stack_fault (stat stack_lazy_allocs).

Definition handle_instruction_abort (curr : option Z) (fsc far : Z) : VM unit :=
  if fsc <? ADDRESS_SIZE_FAULT + 4 then fatal
  else if fsc <? TRANSLATION_FAULT + 4 then
    match curr with
    | None => fatal
    | Some l0 =>
        fault_status ← load_segment_page_for_fault l0 far MMAP_PROT_EXEC;
        if fault_status =? PAGE_FAULT_HANDLED then invalidate_all_stage1_tlbs else fatal
    end
  else fatal.

(** A translation fault: which range the address is in decides who maps it. *)
Definition translation_fault (ttbr1 : Z) (curr : option Z) (far : Z)
    (is_write far_valid from_lower_el : bool) : VM unit :=
  if negb far_valid then fatal else
  mapped ← (if Z.shiftr far 48 =? 0xFFFF then
      if negb (is_in_range far KERNEL_HEAP_START KERNEL_HEAP_SIZE) then fatal
      else in_pt (pt_walk_kernel_page page_pool_start (kernel_direct_map_va ttbr1) far)
    else
      match curr with
      | None => fatal
      | Some l0 =>
          let heap_fault := is_in_range far USER_HEAP_START USER_HEAP_SIZE in
          let stack_fault := is_in_range far (USER_STACK_TOP - USER_STACK_SIZE) USER_STACK_SIZE in
          if heap_fault || stack_fault then
            mapped ← in_pt (pt_walk_user_page page_pool_start l0 far);
            _ ← when mapped (page_table_note_anon_fault heap_fault stack_fault);
            mret mapped
          else if negb from_lower_el
               && is_in_range far (PROC_KERNEL_STACK_TOP - PROC_KERNEL_STACK_SIZE) PROC_KERNEL_STACK_SIZE
          then in_pt (pt_walk_kernel_page page_pool_start l0 far)
          else
            fault_status ← load_segment_page_for_fault l0 far
              (if is_write then MMAP_PROT_WRITE else MMAP_PROT_READ);
            if fault_status =? PAGE_FAULT_HANDLED then mret true else fatal
      end);
  if negb (mapped : bool) then fatal else invalidate_all_stage1_tlbs.

Definition handle_data_abort (ttbr1 : Z) (curr : option Z) (fsc far esr : Z) : VM unit :=
  let is_write := negb (Z.land esr ESR_WNR =? 0) in
  let far_valid := Z.land esr ESR_FNV =? 0 in
  let ec := Z.land (Z.shiftr esr ESR_EC_SHIFT) ESR_EC_MASK in
  let from_lower_el := ec =? ESR_EC_DABT_LOWER in
  if fsc <? ADDRESS_SIZE_FAULT + 4 then fatal
  else if fsc <? TRANSLATION_FAULT + 4 then
    translation_fault ttbr1 curr far is_write far_valid from_lower_el
  else if fsc <? ACCESS_FLAG_FAULT + 4 then fatal
  else if fsc <? PERMISSION_FAULT + 4 then
    in_pt (permission_fault page_pool_start far_valid is_write far curr)
  else fatal.

End paging.

(** ** Theory: bytes *)

Lemma word_byte_set_eq w k b : 0 <= k -> 0 <= b < 256 -> word_byte (set_word_byte w k b) k = b.
Proof.
  intros Hk Hb. unfold word_byte, set_word_byte. rewrite Z.div_add by lia. fold (word_byte w k).
  unfold word_byte. set (q := w / 2 ^ (8 * k)). pose proof (Z.div_mod q 256).
  replace (q + (b - q mod 256)) with (b + q / 256 * 256) by lia.
  rewrite Z.mod_add by lia. by apply Z.mod_small.
Qed.

Lemma word_byte_set_ne w k j b :
  0 <= k -> 0 <= j -> j <> k -> 0 <= b < 256 ->
  word_byte (set_word_byte w k b) j = word_byte w j.
Proof.
  intros Hk Hj Hne Hb. unfold set_word_byte, word_byte at 1 3. destruct (Z.lt_ge_cases j k).
  - replace (2 ^ (8 * k)) with (2 ^ (8 * (k - j - 1)) * 256 * 2 ^ (8 * j)).
    2: { change 256 with (2 ^ 8). rewrite <- !Z.pow_add_r by lia. f_equal. lia. }
    rewrite !Z.mul_assoc, Z.div_add by lia. apply Z.mod_add. lia.
  - set (P := 2 ^ (8 * k)). assert (0 < P) by (apply Z.pow_pos_nonneg; lia).
    replace (2 ^ (8 * j)) with (P * 256 * 2 ^ (8 * (j - k - 1))).
    2: { change 256 with (2 ^ 8). unfold P. rewrite <- !Z.pow_add_r by lia. f_equal. lia. }
    assert (0 < 2 ^ (8 * (j - k - 1))) by (apply Z.pow_pos_nonneg; lia).
    rewrite <- !Z.div_div by lia. do 2 f_equal. rewrite Z.div_add by lia. unfold word_byte. fold P.
    set (q := w / P). pose proof (Z.div_mod q 256). pose proof (Z.mod_pos_bound q 256).
    replace (q + (b - q mod 256)) with (b + q / 256 * 256) by lia.
    rewrite Z.div_add by lia. rewrite Z.div_small by lia. lia.
Qed.

Lemma mem_byte_upd m a a' b :
  0 <= b < 256 ->
  mem_byte (upd m (a - a mod 8) (set_word_byte (m (a - a mod 8)) (a mod 8) b)) a'
  = if a' =? a then b else mem_byte m a'.
Proof.
  intros Hb. unfold mem_byte, upd. pose proof (Z.mod_pos_bound a 8). pose proof (Z.mod_pos_bound a' 8).
  pose proof (Z.div_mod a 8). pose proof (Z.div_mod a' 8).
  destruct (Z.eqb_spec a' a) as [->|Hne].
  - rewrite Z.eqb_refl. apply word_byte_set_eq; lia.
  - case_bool; [|done]. rewrite <- e. apply word_byte_set_ne; lia.
Qed.

(** The word and the byte of it that offset [o] of a page falls on. *)
Lemma byte_of_page p o :
  p mod 4096 = 0 -> 0 <= o < 4096 ->
  p + o - (p + o) mod 8 = p + 8 * (o / 8) /\ index_ok (o / 8) /\ (p + o) mod 8 = o mod 8.
Proof.
  intros Hp Ho. pose proof (Z.div_mod p 4096). pose proof (Z.div_mod o 8).
  pose proof (Z.mod_pos_bound o 8).
  assert (E : (p + o) mod 8 = o mod 8).
  { symmetry. apply (Z.mod_unique_pos _ _ (p / 4096 * 512 + o / 8)); lia. }
  rewrite E. unfold index_ok. lia.
Qed.

Lemma mem_byte_zero m p o :
  p mod 4096 = 0 -> 0 <= o < 4096 -> (forall i, index_ok i -> m (p + 8 * i) = 0) ->
  mem_byte m (p + o) = 0.
Proof.
  intros Hp Ho Hm. unfold mem_byte. destruct (byte_of_page p o Hp Ho) as (-> & Hi & _).
  rewrite Hm by done. unfold word_byte. rewrite Z.div_0_l; [done|].
  pose proof (Z.mod_pos_bound (p + o) 8). apply Z.pow_nonzero; lia.
Qed.

(** Words outside the page [p] are the same. *)
Definition outside_kept (p : Z) (m m' : Z -> Z) : Prop :=
  forall a, word_of p a = false -> m' a = m a.

(** [m'] is [m] with [f i] written at byte [p + off + i] for [i < n]. *)
Definition bytes_written (m m' : Z -> Z) (p off n : Z) (f : Z -> Z) : Prop :=
  outside_kept p m m' /\
  forall o, 0 <= o < 4096 ->
    mem_byte m' (p + o) = if (off <=? o) && (o <? off + n) then f (o - off) else mem_byte m (p + o).

Lemma bytes_written_nil m p off n f : n <= 0 -> bytes_written m m p off n f.
Proof. intros Hn. split; [done|]. intros o Ho. repeat case_bool; simpl; done || lia. Qed.

Lemma bytes_written_trans m1 m2 m3 p off n n' f f' g :
  0 <= n -> 0 <= n' ->
  bytes_written m1 m2 p off n f -> bytes_written m2 m3 p (off + n) n' f' ->
  (forall i, 0 <= i < n -> g i = f i) -> (forall i, 0 <= i < n' -> g (n + i) = f' i) ->
  bytes_written m1 m3 p off (n + n') g.
Proof.
  intros Hn Hn' [O1 B1] [O2 B2] G1 G2. split; [intros a Ha; by rewrite O2, O1|].
  intros o Ho. rewrite B2, B1 by done. repeat case_bool; simpl; try lia; try done.
  all: first [ symmetry; apply G1; lia
             | replace (o - off) with (n + (o - (off + n))) by lia; symmetry; apply G2; lia ].
Qed.

Lemma byte_word_in_page p o : p mod 4096 = 0 -> 0 <= o < 4096 ->
  word_of p (p + o - (p + o) mod 8) = true.
Proof.
  intros Hp Ho. destruct (byte_of_page p o Hp Ho) as (-> & Hi & _). by apply word_of_idx.
Qed.

Lemma wp_copy_bytes p off src src_off n (Q : unit -> pt_state -> Prop) s :
  p mod 4096 = 0 -> 0 <= off -> 0 <= n -> off + n <= 4096 -> 0 <= src_off ->
  src_off + n <= Z.of_nat (length src) -> Forall (fun b => 0 <= b < 256) src ->
  (forall m', bytes_written (mem s) m' p off n (fun i => default 0 (src !! Z.to_nat (src_off + i))) ->
     Q tt (set_mem m' s)) ->
  wp (copy_bytes (p + off) src src_off n) Q s.
Proof.
  intros Hp Hoff Hn Hpg Hso Hlen Hb HQ. unfold copy_bytes.
  apply (wp_for_st (fun i s' => exists m', s' = set_mem m' s /\
    bytes_written (mem s) m' p off i (fun i => default 0 (src !! Z.to_nat (src_off + i))))).
  - exists (mem s). split; [by destruct s | by apply bytes_written_nil].
  - intros j t Hj (m' & -> & Hm).
    destruct (lookup_lt_is_Some_2 src (Z.to_nat (src_off + j))) as [b Eb]; [lia|]. rewrite Eb.
    apply wp_bind, wp_fetch, wp_modify. eexists. split; [done|]. cbn [mem set_mem].
    eapply (bytes_written_trans _ m' _ p off j 1); [lia | lia | done | | done |].
    + split.
      * intros a Ha. apply upd_ne. intros ->.
        by rewrite <- Z.add_assoc, byte_word_in_page in Ha by (done || lia).
      * intros o Ho. rewrite mem_byte_upd by by eapply (Forall_lookup_1 _ _ _ _ Hb Eb).
        instantiate (1 := fun _ => b). repeat case_bool; simpl; done || lia.
    + intros i Hi. replace i with 0 by lia. by rewrite Z.add_0_r, Eb.
  - intros t (m' & -> & Hm). apply HQ. rewrite Z2Nat.id, Z.add_0_l in Hm by done. done.
Qed.

(** ** What paging relies on from the file system

    The files as they are on disk: sizes, block numbers and block contents.
    The calls paging makes do not change them. *)

Record file_view := mkView {
  fv_size : Z -> Z;
  fv_block_size : Z;
  fv_map : Z -> Z -> Z;
  fv_block : Z -> list Z
}.

Definition view_ok (v : file_view) : Prop :=
  0 < fv_block_size v /\ (forall ino, fv_size v ino < 2 ^ 31) /\
  forall b, Z.of_nat (length (fv_block v b)) = fv_block_size v /\
            Forall (fun x => 0 <= x < 256) (fv_block v b).

Class FileLaws (F : Type) `{FileOps F} := {
  view : F -> file_view;
  view_wf : forall f, view_ok (view f);
  file_size_law : forall ino f,
    wp (fo_file_size ino) (fun r f' => r = fv_size (view f) ino /\ view f' = view f) f;
  block_size_law : forall f,
    wp fo_bytes_per_block (fun r f' => r = fv_block_size (view f) /\ view f' = view f) f;
  ith_block_law : forall ino i f,
    wp (fo_ith_block ino i) (fun r f' => r = fv_map (view f) ino i /\ view f' = view f) f;
  read_block_law : forall b f,
    wp (fo_read_block b) (fun r f' => view f' = view f /\
      (fst r = SUCCESS -> snd r = fv_block (view f) b)) f
}.

(** Byte [off] of the file [ino]. *)
Definition file_byte (v : file_view) (ino off : Z) : Z :=
  default 0 (fv_block v (fv_map v ino (off / fv_block_size v)) !! Z.to_nat (off mod fv_block_size v)).

(** What a mapping promises at the address [va]. *)
Definition segment_byte (v : file_view) (seg : mem_segment) (va : Z) : Z :=
  let off := seg_file_offset seg + (va - seg_start seg) in
  if (seg_start seg <=? va) && (va <? seg_start seg + Z.min (seg_length seg) (seg_file_size seg))
     && negb (seg_ino seg =? INVALID_INO) && (off <? fv_size v (seg_ino seg))
  then file_byte v (seg_ino seg) off else 0.

Section paging_theory.
Context {F : Type} `{FileLaws F}.
Implicit Types (s : vm_state F).

(** [s'] is [s] up to the page [p], the heap and caches of the file system. *)
Definition page_only s (p : Z) s' (m' : Z -> Z) : Prop :=
  vm_pt s' = set_mem m' (vm_pt s) /\ vm_structs s' = vm_structs s /\ vm_lock s' = vm_lock s /\
  view (vm_fs s') = view (vm_fs s) /\ outside_kept p (mem (vm_pt s)) m'.

Lemma page_only_refl s p : page_only s p s (mem (vm_pt s)).
Proof. split_and!; try done. by destruct (vm_pt s). Qed.

Lemma page_only_fs s p f :
  view f = view (vm_fs s) -> page_only s p (set_fs f s) (mem (vm_pt s)).
Proof. intros Hv. split_and!; try done. simpl. by destruct (vm_pt s). Qed.

Lemma page_only_trans s1 s2 s3 p m m' :
  page_only s1 p s2 m -> page_only s2 p s3 m' -> page_only s1 p s3 m'.
Proof.
  intros (E1 & S1 & L1 & V1 & O1) (E2 & S2 & L2 & V2 & O2). split_and!; try congruence.
  - by rewrite E2, E1.
  - intros a Ha. rewrite O2, E1 by done. simpl. by apply O1.
Qed.

(** The bytes of a block from [foff] on are those of the file. *)
Lemma block_bytes v ino foff i :
  0 < fv_block_size v -> 0 <= i -> foff mod fv_block_size v + i < fv_block_size v ->
  default 0 (fv_block v (fv_map v ino (foff / fv_block_size v)) !! Z.to_nat (foff mod fv_block_size v + i))
  = file_byte v ino (foff + i).
Proof.
  set (bs := fv_block_size v). intros Hbs Hi Hlt. unfold file_byte. fold bs.
  pose proof (Z.div_mod foff bs ltac:(lia)). pose proof (Z.mod_pos_bound foff bs Hbs).
  rewrite <- (Z.div_unique_pos (foff + i) bs (foff / bs) (foff mod bs + i)) by lia.
  by rewrite <- (Z.mod_unique_pos (foff + i) bs (foff / bs) (foff mod bs + i)) by lia.
Qed.

Lemma wp_read_blocks v p ino fuel : forall poff foff n s,
  view (vm_fs s) = v ->
  p mod 4096 = 0 -> 0 <= poff -> 0 <= n -> poff + n <= 4096 -> 0 <= foff -> foff + n <= 2 ^ 31 ->
  n <= Z.of_nat fuel ->
  wp (read_blocks fuel ino p poff foff n (fv_block_size v)) (fun r s' => exists m',
    page_only s p s' m' /\
    (r = SUCCESS -> bytes_written (mem (vm_pt s)) m' p poff n (fun i => file_byte v ino (foff + i)))) s.
Proof.
  set (bs := fv_block_size v).
  induction fuel as [|fuel IH]; intros poff foff n s Hv Hp Hpo Hn Hpg Hfo Hb Hf; cbn [read_blocks].
  { rewrite (proj2 (Z.ltb_ge 0 n)) by lia. apply wp_ret. exists (mem (vm_pt s)).
    split; [apply page_only_refl|]. intros _. apply bytes_written_nil. lia. }
  destruct (Z.ltb_spec 0 n) as [Hpos|]; cbn [negb].
  2: { apply wp_ret. exists (mem (vm_pt s)).
       split; [apply page_only_refl|]. intros _. apply bytes_written_nil. lia. }
  pose proof (view_wf (vm_fs s)) as (Hbs & _ & Hblk). rewrite Hv in Hbs, Hblk. fold bs in Hbs, Hblk.
  pose proof (Z.div_mod foff bs ltac:(lia)) as Hdm. pose proof (Z.mod_pos_bound foff bs Hbs) as Hmb.
  assert (Hidx : to_u32 (foff / bs) = foff / bs).
  { apply wrap_small. split; [apply Z.div_pos; lia|]. apply Z.div_lt_upper_bound; nia. }
  rewrite Hidx. apply wp_bind, wp_lift. eapply wp_mono; [apply ith_block_law|].
  intros b f1 [-> Hv1]. rewrite Hv in Hv1 |- *.
  case_bool. { apply wp_ret. exists (mem (vm_pt s)). split; [apply page_only_fs; congruence | done]. }
  apply wp_bind, wp_lift. eapply wp_mono; [apply read_block_law|].
  cbn [vm_fs set_fs]. intros [err data] f2 [Hv2 Hdata]. rewrite Hv1 in Hv2, Hdata.
  destruct (Z.eqb_spec err SUCCESS) as [->|]; cbn [negb].
  2: { apply wp_ret. exists (mem (vm_pt s)). split; [|done]. apply (page_only_fs s p f2). congruence. }
  simpl in Hdata. rewrite Hdata by done. clear Hdata data.
  set (k := min_u64 n (bs - foff mod bs)).
  assert (Hk : 0 < k <= n /\ k <= bs - foff mod bs) by (unfold k, min_u64; case_bool; lia).
  destruct (Hblk (fv_map v ino (foff / bs))) as [Hlen Hbytes].
  apply wp_bind, wp_lift, wp_copy_bytes; [done | lia | lia | lia | lia | lia | done |].
  cbn [vm_pt set_fs]. intros m1 Hm1. set (s1 := set_pt _ _).
  eapply wp_mono; [apply (IH (poff + k) (foff + k) (n - k) s1); try done; lia|].
  intros r s' (m' & Hpo' & Hw). exists m'. split.
  - eapply page_only_trans; [|exact Hpo']. split_and!; try done; [simpl; congruence | apply Hm1].
  - intros Hr. specialize (Hw Hr). replace n with (k + (n - k)) by lia.
    eapply bytes_written_trans; [lia | lia | exact Hm1 | exact Hw | |]; intros i Hi; cbv beta.
    + symmetry. apply (block_bytes v ino foff i); fold bs; lia.
    + f_equal. lia.
Qed.

(** A segment as the kernel makes them: below 2^48, with file offsets that do
    not wrap around. *)
Definition user_segment (seg : mem_segment) : Prop :=
  0 <= seg_start seg /\ 0 <= seg_length seg /\ seg_start seg + seg_length seg <= 2 ^ 48 /\
  0 <= seg_file_size seg < 2 ^ 48 /\ 0 <= seg_file_offset seg < 2 ^ 48.

Definition page_zero (m : Z -> Z) (p : Z) : Prop := forall i, index_ok i -> m (p + 8 * i) = 0.

(** The page at [p] holds what the segment promises for the page at [page_va]. *)
Definition page_holds (m : Z -> Z) (p : Z) v seg page_va : Prop :=
  forall o, 0 <= o < 4096 -> mem_byte m (p + o) = segment_byte v seg (page_va + o).

(** Addresses without file contents are zero. *)
Lemma zero_page_holds m p v seg page_va :
  p mod 4096 = 0 -> page_zero m p ->
  (forall o, 0 <= o < 4096 -> segment_byte v seg (page_va + o) = 0) ->
  page_holds m p v seg page_va.
Proof. intros Hp Hz Hs o Ho. rewrite Hs by done. by apply mem_byte_zero. Qed.

(** Nothing was read and nothing had to be. *)
Lemma nothing_read s s' p v seg page_va (r : Z) :
  p mod 4096 = 0 -> page_zero (mem (vm_pt s)) p -> page_only s p s' (mem (vm_pt s)) ->
  (forall o, 0 <= o < 4096 -> segment_byte v seg (page_va + o) = 0) ->
  exists m', page_only s p s' m' /\ (r = SUCCESS -> page_holds m' p v seg page_va).
Proof.
  intros Hp Hz Hs' Hb. exists (mem (vm_pt s)). split; [done|]. intros _. by apply zero_page_holds.
Qed.

Lemma wp_read_file_part seg page_va p cs fe s :
  let v := view (vm_fs s) in
  user_segment seg -> 0 <= page_va <= 2 ^ 48 -> p mod 4096 = 0 -> page_zero (mem (vm_pt s)) p ->
  seg_ino seg <> INVALID_INO -> cs = Z.max page_va (seg_start seg) ->
  fe = Z.min (Z.min (page_va + 4096) (seg_start seg + seg_length seg)) (seg_start seg + seg_file_size seg) ->
  cs < fe ->
  wp (read_file_part seg page_va p cs fe) (fun r s' => exists m',
    page_only s p s' m' /\ (r = SUCCESS -> page_holds m' p v seg page_va)) s.
Proof.
  intros v Hseg Hva Hp Hz Ei -> -> Hlt. unfold user_segment in Hseg.
  set (cs := Z.max _ _) in *. set (fe := Z.min _ _) in *. unfold read_file_part.
  set (foff := seg_file_offset seg + cs - seg_start seg). unfold to_u64. rewrite (wrap_small 64 foff) by lia.
  apply wp_bind, wp_lift. eapply wp_mono; [apply file_size_law|]. intros fsz f1 [-> Hv1]. fold v in Hv1 |- *.
  set (fsz := fv_size v (seg_ino seg)).
  destruct (Z.ltb_spec fsz 0).
  { apply wp_ret, nothing_read; [done | done | by apply page_only_fs|]. intros o Ho. unfold segment_byte. fold fsz.
    repeat case_bool; cbn [andb negb]; try done; lia. }
  destruct (Z.leb_spec fsz foff).
  { apply wp_ret, nothing_read; [done | done | by apply page_only_fs|]. intros o Ho. unfold segment_byte. fold fsz.
    repeat case_bool; cbn [andb negb]; try done; lia. }
  apply wp_bind, wp_lift. eapply wp_mono; [apply block_size_law|]. cbn [vm_fs set_fs].
  intros bs f2 [-> Hv2]. rewrite Hv1 in Hv2 |- *. apply wp_bind, wp_kmalloc. intros [] h; cbn [negb].
  2: { apply wp_ret. exists (mem (vm_pt s)). split; [|done]. by apply (page_only_fs s p f2). }
  pose proof (view_wf (vm_fs s)) as (_ & Hsz & _). fold v in Hsz. specialize (Hsz (seg_ino seg)). fold fsz in Hsz.
  unfold min_u64. replace (if fe - cs <? fsz - foff then fe - cs else fsz - foff)
    with (Z.min (fe - cs) (fsz - foff)) by (case_bool; lia).
  set (n := Z.min (fe - cs) (fsz - foff)).
  eapply wp_mono; [apply (wp_read_blocks v p (seg_ino seg) (Z.to_nat n) (cs - page_va) foff n)|]; try lia; [done.. |].
  intros r s' (m' & Hpo & Hw). exists m'. split.
  - eapply page_only_trans; [|exact Hpo]. by apply (page_only_fs s p f2).
  - intros Hr o Ho. destruct (Hw Hr) as [_ Hb]. rewrite Hb by done. cbn [vm_pt].
    rewrite (mem_byte_zero (mem (vm_pt s))) by done.
    unfold segment_byte. fold fsz. rewrite (proj2 (Z.eqb_neq _ _) Ei). cbn [negb].
    repeat case_bool; cbn [andb]; try done; try lia.
    f_equal. lia.
Qed.

Lemma wp_read_segment_page seg page_va p s :
  let v := view (vm_fs s) in
  user_segment seg -> 0 <= page_va <= 2 ^ 48 -> p mod 4096 = 0 -> page_zero (mem (vm_pt s)) p ->
  Z.max page_va (seg_start seg) < Z.min (page_va + 4096) (seg_start seg + seg_length seg) ->
  wp (read_segment_page seg page_va p) (fun r s' => exists m',
    page_only s p s' m' /\ (r = SUCCESS -> page_holds m' p v seg page_va)) s.
Proof.
  intros v Hseg Hva Hp Hz Hne. pose proof Hseg as Hseg'. unfold user_segment in Hseg'.
  unfold read_segment_page, seg_end, to_u64. change PAGE_SIZE with 4096. rewrite !wrap_small by lia.
  assert (Hmax : forall a b, max_u64 a b = Z.max a b) by (intros a b; unfold max_u64; case_bool; lia).
  assert (Hmin : forall a b, min_u64 a b = Z.min a b) by (intros a b; unfold min_u64; case_bool; lia).
  rewrite Hmax, !Hmin.
  set (cs := Z.max _ _) in *. set (ce := Z.min (page_va + 4096) _) in *. set (fe := Z.min ce _).
  rewrite (proj2 (Z.leb_gt ce cs)) by lia. destruct (Z.leb_spec fe cs).
  { apply wp_ret, nothing_read; [done | done | apply page_only_refl|]. intros o Ho. unfold segment_byte.
    repeat case_bool; cbn [andb]; try done; lia. }
  destruct (Z.eqb_spec (seg_ino seg) INVALID_INO) as [Ei|Ei]; [|by apply wp_read_file_part].
  apply wp_bind, wp_lift, wp_zero_page. intros m' Hm. apply wp_ret. exists m'. split.
  - split_and!; try done. intros a Ha. by rewrite Hm, Ha.
  - intros _. apply zero_page_holds; [done | intros i Hi; by rewrite Hm, word_of_idx |].
    intros o Ho. unfold segment_byte. rewrite Ei. by rewrite andb_false_r.
Qed.

(** *** Loading a page *)

Variable page_pool_start : Z.
Hypothesis pool_in_ram : KERNEL_VA_BASE < page_pool_start <= RAM_end.

(** Nothing but counters changed. *)
Definition quiet s s' : Prop :=
  core_eq (vm_pt s) (vm_pt s') /\ vm_structs s' = vm_structs s /\ vm_lock s' = vm_lock s /\
  view (vm_fs s') = view (vm_fs s).

Lemma wp_stat c (Q : unit -> vm_state F -> Prop) s :
  (forall s', quiet s s' -> Q tt s') -> wp (stat c) Q s.
Proof. intros HQ. apply wp_lift, wp_modify, HQ. by split_and!. Qed.

Lemma wp_fault_error s :
  vm_lock s = false -> wp fault_error (fun r s' => r = PAGE_FAULT_ERROR /\ quiet s s') s.
Proof.
  intros Hl. apply wp_bind, wp_spin_lock; [done|]. apply wp_bind, wp_stat.
  intros s' ((E1 & E2 & E3 & E4) & E5 & E6 & E7). apply wp_bind, wp_modify, wp_ret.
  split; [done|]. unfold quiet, core_eq. split_and!; simpl in *; congruence.
Qed.

(** The outcome of a page load: the page is mapped and holds what the segment
    promises, or no translation has changed. *)
Record loaded s s' (lab : gmap Z (Z * list Z)) (used : gset Z) (table page_va : Z)
    (seg : mem_segment) (r : Z) : Prop := {
  ld_structs : vm_structs s' = vm_structs s;
  ld_lock : vm_lock s' = false;
  ld_view : view (vm_fs s') = view (vm_fs s);
  ld_result : r = PAGE_FAULT_HANDLED \/ r = PAGE_FAULT_ERROR;
  ld_step : exists lab' used' page,
    map_step page_pool_start (vm_pt s) (vm_pt s') lab lab' used used' (r =? PAGE_FAULT_HANDLED)
      table page_va (page_desc (kernel_phys_addr page) (user_segment_attrs (seg_prot seg))) /\
    (r = PAGE_FAULT_HANDLED ->
       (page ∉ used) /\ in_ram page /\ page mod 4096 = 0 /\
       page_holds (mem (vm_pt s')) page (view (vm_fs s)) seg page_va)
}.

(** The fresh page, filled. *)
Lemma page_filled_step ps ps1 lab fl fl' used p m' :
  pt_inv page_pool_start ps lab fl used -> p ∉ used -> in_ram p -> p mod 4096 = 0 ->
  fresh_page ps ps1 p -> alloc_inv page_pool_start ps1 fl' ({[p]} ∪ used) ->
  outside_kept p (mem ps1) m' ->
  table_step page_pool_start ps (set_mem m' ps1) lab lab used ({[p]} ∪ used) /\ lab !! p = None.
Proof.
  intros Hi Hpu Hpr Hpa Hfr Ha Hout.
  destruct (new_root_step _ pool_in_ram ps ps1 lab fl fl' used p) as (_ & _ & Hlp & _); try done.
  destruct (fresh_used_kept _ pool_in_ram ps ps1 fl used p) as [Hk Hg]; [apply Hi | done..|].
  assert (Hin : forall q, q ∈ fl' \/ q ∈ {[p]} ∪ used -> in_ram q /\ q mod 4096 = 0)
    by (intros q Hq; by eapply inv_in_ram).
  split; [|done]. apply (alloc_table_step _ ps _ lab fl fl' used); [done | | apply union_subseteq_r | | done |].
  - eapply alloc_inv_write; [exact Ha | done | done | | apply (ai_pages _ _ _ _ Ha)].
    intros q Hq. simpl. destruct (Hin q ltac:(by left)) as [_ Hqa]. apply Hout, word_of_page; [done | done |].
    intros <-. apply (ai_disjoint _ _ _ _ Ha p Hq). rewrite elem_of_union, elem_of_singleton. tauto.
  - intros t i Ht Hx. simpl. rewrite Hout; [by apply Hk|].
    destruct (Hin t) as [_ Hta]; [rewrite elem_of_union; tauto|].
    apply word_of_other; [done | done | by intros -> | done].
  - simpl. rewrite (proj2 Hfr). apply insert_page_some.
Qed.

Lemma page_holds_ext m m' p v seg va :
  p mod 4096 = 0 -> (forall i, index_ok i -> m' (p + 8 * i) = m (p + 8 * i)) ->
  page_holds m p v seg va -> page_holds m' p v seg va.
Proof.
  intros Hp Hm Hh o Ho. rewrite <- Hh by done. unfold mem_byte.
  destruct (byte_of_page p o Hp Ho) as (-> & Hi & ->). by rewrite Hm.
Qed.

(** A load that fails, after the counters are updated. *)
Lemma loaded_error s s1 s' lab lab' used used' table va pte seg :
  map_step page_pool_start (vm_pt s) (vm_pt s1) lab lab' used used' false table va pte ->
  vm_structs s1 = vm_structs s -> vm_lock s1 = false -> view (vm_fs s1) = view (vm_fs s) ->
  quiet s1 s' -> loaded s s' lab used table va seg PAGE_FAULT_ERROR.
Proof.
  intros T Es El Ev (Hc & Es' & El' & Ev'). constructor; [congruence | congruence | congruence | by right |].
  exists lab', used', 0. split; [|done]. eapply map_step_core; [|done]. by destruct T.
Qed.

(** The address range of the faulting page meets the segment. *)
Lemma fault_page_range fault_va seg :
  user_segment seg -> holds fault_va seg = true ->
  let va := align_down fault_va in
  0 <= va <= 2 ^ 48 /\ Z.max va (seg_start seg) < Z.min (va + 4096) (seg_start seg + seg_length seg).
Proof.
  intros Hs Hh va. unfold user_segment, holds in Hs, Hh.
  rewrite well_sized_end in Hh by (unfold well_sized; lia).
  apply andb_true_iff in Hh as [H1%Z.leb_le H2%Z.ltb_lt].
  unfold va. rewrite align_down_eq by lia. pose proof (Z.mod_pos_bound fault_va 4096).
  pose proof (Z.mod_le fault_va 4096). lia.
Qed.

(** After the page is filled: it is mapped, or given back. *)
Lemma wp_map_loaded s s2 lab used table va seg p :
  let pte := page_desc (kernel_phys_addr p) (user_segment_attrs (seg_prot seg)) in
  table_step page_pool_start (vm_pt s) (vm_pt s2) lab lab used ({[p]} ∪ used) ->
  is_root lab table -> (p ∉ used) -> in_ram p -> p mod 4096 = 0 -> lab !! p = None ->
  vm_structs s2 = vm_structs s -> vm_lock s2 = false -> view (vm_fs s2) = view (vm_fs s) ->
  page_holds (mem (vm_pt s2)) p (view (vm_fs s)) seg va ->
  wp (_ ← lock_metadata;
      ok ← in_pt (pt_map_page page_pool_start table va (kernel_phys_addr p) (user_segment_attrs (seg_prot seg)));
      if negb (ok : bool) then _ ← unlock_metadata; _ ← in_pt (free_page p); fault_error
      else _ ← stat file_faults; _ ← stat faults_handled; _ ← unlock_metadata; mret PAGE_FAULT_HANDLED)
     (fun r s' => loaded s s' lab used table va seg r) s2.
Proof.
  intros pte T Hr Hpu Hpr Hpa Hlp Es El Ev Hdata. apply wp_bind, wp_spin_lock; [done|].
  destruct (ts_inv _ _ _ _ _ _ _ T) as [fl2 Hi2].
  assert (Hp : p ∈ ({[p]} ∪ used)) by by apply elem_of_union_l, elem_of_singleton.
  apply wp_bind, wp_lift. eapply wp_mono; [by eapply (wp_pt_map_page _ pool_in_ram)|].
  intros ok ps3 [(lab3 & u3 & Hms) _]. cbn [vm_pt set_lock] in Hms.
  pose proof (map_step_trans _ _ _ _ _ _ _ _ _ _ _ _ _ T Hms) as T3.
  destruct ok; cbn [negb].
  - apply wp_bind, wp_stat. intros s4 (C4 & S4 & L4 & V4).
    apply wp_bind, wp_stat. intros s5 (C5 & S5 & L5 & V5). apply wp_bind, wp_modify, wp_ret.
    simpl in *. constructor; simpl; [congruence | done | congruence | by left |].
    pose proof (core_eq_trans _ _ _ C4 C5) as C.
    exists lab3, u3, p. split; [by eapply map_step_core|]. intros _. split_and!; [done | done | done |].
    eapply page_holds_ext; [done | | exact Hdata]. intros i Hx. rewrite (proj1 C). simpl.
    by apply (ms_data _ _ _ _ _ _ _ _ _ _ _ Hms p Hp Hlp).
  - apply wp_bind, wp_modify. apply wp_bind, wp_lift.
    destruct (ms_inv _ _ _ _ _ _ _ _ _ _ _ Hms) as [fl3 Hi3].
    assert (Hp3 : p ∈ u3) by by apply (ms_used _ _ _ _ _ _ _ _ _ _ _ Hms).
    eapply wp_mono; [apply (wp_free_page _ pool_in_ram _ fl3 u3 p); [apply Hi3 | done]|].
    intros ? ps4 (Ha4 & Em4 & Eg4). eapply wp_mono; [by apply wp_fault_error|].
    intros r s' [-> Hq]. eapply loaded_error; [| | | |exact Hq]; [|done..].
    eapply (map_step_free _ pool_in_ram); [exact T3 | done | done | | done | done | done].
    by rewrite (ms_new _ _ _ _ _ _ _ _ _ _ _ Hms).
Qed.

Lemma wp_load_page s lab fl used table fault_va seg :
  pt_inv page_pool_start (vm_pt s) lab fl used -> is_root lab table -> vm_lock s = false ->
  user_segment seg -> holds fault_va seg = true ->
  wp (load_page page_pool_start table fault_va seg)
     (fun r s' => loaded s s' lab used table (align_down fault_va) seg r) s.
Proof.
  intros Hi Hr Hl Hseg Hh. destruct (fault_page_range _ _ Hseg Hh) as (Hva & Hne).
  unfold load_page. fold (align_down fault_va). set (va := align_down fault_va) in *.
  apply wp_bind, wp_lift. eapply wp_mono; [apply (wp_alloc_page _ pool_in_ram _ fl used), Hi|].
  intros p ps1 [(-> & Ha & Em & Eg & -> & Hf & _) | (Hp0 & Hpu & Hpr & Hpa & Hfr & fl' & Ha)].
  - rewrite Z.eqb_refl. eapply wp_mono; [by apply wp_fault_error|].
    intros r s' [-> Hq]. eapply loaded_error; [| | | |exact Hq]; [|done..].
    apply table_step_map. cbn [vm_pt set_pt].
    eapply alloc_table_step; [done | done | done | by rewrite Em | | by rewrite Eg].
    intros t _. unfold page_struct. by rewrite Eg.
  - rewrite (proj2 (Z.eqb_neq _ _) Hp0). apply wp_bind.
    eapply wp_mono; [apply wp_read_segment_page; try done|].
    { intros i Hx. simpl. by rewrite (proj1 Hfr), word_of_idx. }
    intros err s2 (m' & (Ep & Es & El & Ev & Hout) & Hdata). simpl in Ep, Es, El, Ev, Hout.
    destruct (page_filled_step (vm_pt s) ps1 lab fl fl' used p m') as [T Hlp]; try done.
    rewrite <- Ep in T. destruct (Z.eqb_spec err SUCCESS) as [->|]; cbn [negb].
    + apply wp_map_loaded; try done; [congruence|]. rewrite Ep. by apply Hdata.
    + destruct (ts_inv _ _ _ _ _ _ _ T) as [fl2 Hi2]. apply wp_bind, wp_lift.
      assert (Hp : p ∈ ({[p]} ∪ used)) by by apply elem_of_union_l, elem_of_singleton.
      eapply wp_mono; [apply (wp_free_page _ pool_in_ram _ fl2 ({[p]} ∪ used) p); [apply Hi2 | done]|].
      intros ? ps4 (Ha4 & Em4 & Eg4). eapply wp_mono; [apply wp_fault_error; simpl; congruence|].
      intros r s' [-> Hq]. eapply loaded_error; [| | | |exact Hq]; [|simpl; congruence..].
      eapply (map_step_free _ pool_in_ram); [by apply table_step_map | done..].
Unshelve. all: exact 0.
Qed.

(** *** The fault itself *)

Lemma quiet_trans s1 s2 s3 : quiet s1 s2 -> quiet s2 s3 -> quiet s1 s3.
Proof.
  intros (C1 & S1 & L1 & V1) (C2 & S2 & L2 & V2).
  split; [by eapply core_eq_trans|]. split_and!; congruence.
Qed.

(** Counters and the lock do not matter for a load. *)
Lemma pt_inv_core_of ps ps' lab fl used :
  pt_inv page_pool_start ps lab fl used -> core_eq ps ps' -> pt_inv page_pool_start ps' lab fl used.
Proof.
  intros Hi (Em & Eg & En & Ef).
  assert (Ha : alloc_inv page_pool_start ps' fl used).
  { eapply alloc_inv_write; [apply Hi | done | done | by rewrite Em |]. intros l. rewrite Eg.
    apply (ai_pages _ _ _ _ (pi_alloc _ _ _ _ _ Hi)). }
  by destruct (tables_agree _ ps ps' lab fl fl used used Hi Ha) as [Hi2 _]; [done | by rewrite Em |].
Qed.

Lemma map_step_start ps ps0 ps' lab lab' used used' ok l0 va pte :
  core_eq ps ps0 -> map_step page_pool_start ps0 ps' lab lab' used used' ok l0 va pte ->
  map_step page_pool_start ps ps' lab lab' used used' ok l0 va pte.
Proof.
  intros (Em & Eg & _) [I S U N E D R G]. constructor; try done.
  - by rewrite <- Em.
  - intros d Hd Hl. destruct (D d Hd Hl) as [D1 D2]. unfold page_struct in *. by rewrite <- Em, <- Eg.
  - by rewrite <- Eg.
Qed.

Lemma wp_load_segment_page s m segs lab fl used table fault_va access :
  pt_inv page_pool_start (vm_pt s) lab fl used -> is_root lab table -> vm_lock s = false ->
  vm_structs s = Some m -> m !! table = Some segs -> Forall user_segment segs ->
  wp (load_segment_page_for_fault page_pool_start table fault_va access) (fun r s' =>
    match list_find (fun seg => holds fault_va seg = true) segs with
    | None => r = PAGE_FAULT_NOT_HANDLED /\ quiet s s'
    | Some (_, seg) =>
        if Z.land (seg_prot seg) access =? 0 then r = PAGE_FAULT_PERMISSION /\ quiet s s'
        else loaded s s' lab used table (align_down fault_va) seg r
    end) s.
Proof.
  intros Hi Hr Hl Em Et Hus. unfold load_segment_page_for_fault.
  apply wp_bind, wp_spin_lock; [done|]. apply wp_bind, wp_stat. intros s1 Q1. apply wp_bind.
  assert (Hstat : forall c, wp (stat c) (fun _ s2 => quiet s1 s2) s1) by (intros c; by apply wp_stat).
  eapply (wp_mono _ (fun _ s2 => quiet s1 s2)); [by case_bool|].
  intros ? s2 Q2. pose proof (quiet_trans _ _ _ Q1 Q2) as (C & S & L & V). clear Q1 Q2 Hstat. simpl in S, L, V.
  apply wp_bind. apply wp_bind, wp_bind, wp_fetch. rewrite S, Em. apply wp_ret.
  apply wp_bind, wp_bind, wp_fetch. rewrite S, Em. apply wp_ret, wp_ret. rewrite Et.
  assert (Hend : forall s3, quiet s2 s3 -> quiet s (set_lock false s3)).
  { intros s3 (C3 & S3 & L3 & V3). split_and!; simpl; try congruence. by eapply core_eq_trans. }
  destruct (list_find _ segs) as [[i seg]|] eqn:Ef.
  - apply list_find_Some in Ef as (Hlk & Hh & _). 
    destruct (Z.land (seg_prot seg) access =? 0).
    + apply wp_bind, wp_stat. intros s3 Q3. apply wp_bind, wp_modify, wp_ret. split; [done | by apply Hend].
    + apply wp_bind, wp_modify. eapply wp_mono.
      { apply (wp_load_page (set_lock false s2) lab fl used); [by eapply pt_inv_core_of | done | done | | done].
        by eapply (Forall_lookup_1 _ _ _ _ Hus Hlk). }
      intros r s' [L1 L2 L3 L4 (lab' & used' & page & T & Hpg)]. simpl in *.
      constructor; try congruence. exists lab', used', page. rewrite <- V.
      split; [by eapply map_step_start | done].
  - apply wp_bind, wp_stat. intros s3 Q3. apply wp_bind, wp_stat. intros s4 Q4.
    apply wp_bind, wp_modify, wp_ret. split; [done|]. apply Hend. by eapply quiet_trans.
Qed.

(** *** Translation faults *)

(** The attributes a fault at the user-half address [far] is to be mapped with;
    [None] when the access is an error. *)
Definition fault_map (segs : list mem_segment) (far : Z) (is_write from_lower_el : bool) : option Z :=
  if is_in_range far USER_HEAP_START USER_HEAP_SIZE
       || is_in_range far (USER_STACK_TOP - USER_STACK_SIZE) USER_STACK_SIZE
  then Some ATTR_USER_RW
  else if negb from_lower_el
       && is_in_range far (PROC_KERNEL_STACK_TOP - PROC_KERNEL_STACK_SIZE) PROC_KERNEL_STACK_SIZE
  then Some ATTR_KERNEL_RW
  else
    match list_find (fun seg => holds far seg = true) segs with
    | Some (_, seg) =>
        if Z.land (seg_prot seg) (if is_write then MMAP_PROT_WRITE else MMAP_PROT_READ) =? 0
        then None else Some (user_segment_attrs (seg_prot seg))
    | None => None
    end.

(** A fresh page is mapped at [far] in the table [root] with [attrs], and
    nothing else. *)
Definition fresh_mapping s s' (lab : gmap Z (Z * list Z)) (used : gset Z) (far root attrs : Z) : Prop :=
  vm_lock s' = false /\ vm_structs s' = vm_structs s /\
  exists lab' used' page, (page ∉ used) /\ in_ram page /\
    map_step page_pool_start (vm_pt s) (vm_pt s') lab lab' used used' true root (align_down far)
      (page_desc (kernel_phys_addr page) attrs).

Definition ok_or_fatal {A} (o : outcome (A * vm_state F)) (Q : A -> vm_state F -> Prop) : Prop :=
  match o with
  | Ok (a, s') => Q a s'
  | Fatal => True
  | Fault | Hang => False
  end.

Lemma ok_or_fatal_bind {A B} (m : stM (vm_state F) A) (f : A -> stM (vm_state F) B) P Q s :
  ok_or_fatal (m s) P -> (forall a s', P a s' -> ok_or_fatal (f a s') Q) -> ok_or_fatal ((m ≫= f) s) Q.
Proof.
  intros Hm Hf. unfold mbind, stM_bind. destruct (m s) as [[a s']| | |]; try done. by apply Hf.
Qed.

Lemma ok_or_fatal_wp {A} (m : stM (vm_state F) A) P s : wp m P s -> ok_or_fatal (m s) P.
Proof. intros (a & s' & E & HP). by rewrite E. Qed.

Lemma fresh_mapping_quiet s s1 s2 lab used far root attrs :
  fresh_mapping s s1 lab used far root attrs -> quiet s1 s2 -> fresh_mapping s s2 lab used far root attrs.
Proof.
  intros (L & S & lab' & used' & page & Hu & Hr & T) (C & S' & L' & _).
  split_and!; [congruence | congruence |]. exists lab', used', page. split_and!; [done | done |].
  by eapply map_step_core.
Qed.

Lemma fresh_page_walk s lab fl used root far attrs :
  pt_inv page_pool_start (vm_pt s) lab fl used -> is_root lab root -> vm_lock s = false ->
  wp (in_pt (page ← pt_map_new_page page_pool_start root far attrs; mret (negb (page =? 0))))
    (fun ok s' => vm_lock s' = false /\ (ok = true -> fresh_mapping s s' lab used far root attrs)) s.
Proof.
  intros Hi Hr Hl. apply wp_lift, wp_bind.
  eapply wp_mono; [by apply (wp_pt_map_new_page _ pool_in_ram _ lab fl used)|].
  intros page ps (lab' & used' & T & Hpg). apply wp_ret. split; [done|]. intros Hok.
  rewrite Hok in T. apply negb_true_iff, Z.eqb_neq in Hok. destruct (Hpg Hok) as (Hu & _ & _ & Hram & _).
  split_and!; [done | done |]. by exists lab', used', page.
Qed.

Lemma wp_note_anon h st s : wp (page_table_note_anon_fault h st) (fun _ s' => quiet s s') s.
Proof.
  assert (Hstat : forall c s1, quiet s s1 -> wp (stat c) (fun _ s2 => quiet s s2) s1).
  { intros c s1 Q1. apply wp_stat. intros s2 Q2. by eapply quiet_trans. }
  assert (Hwhen : forall b c s1, quiet s s1 -> wp (when b (stat c)) (fun _ s2 => quiet s s2) s1)
    by (intros [] c s1 Q1; [by apply Hstat | by apply wp_ret]).
  unfold page_table_note_anon_fault.
  do 4 (apply wp_bind; eapply wp_mono; [apply Hstat; try done; split; done|]; intros ? ? ?).
  apply wp_bind. eapply wp_mono; [by apply Hwhen|]. intros ? s6 Q6. by apply Hwhen.
Qed.

Lemma translation_fault_ok s m segs lab fl used ttbr1 l0 far is_write far_valid from_lower_el :
  Z.shiftr far 48 <> 0xFFFF ->
  pt_inv page_pool_start (vm_pt s) lab fl used -> is_root lab l0 ->
  vm_lock s = false -> vm_structs s = Some m -> m !! l0 = Some segs -> Forall user_segment segs ->
  ok_or_fatal (translation_fault page_pool_start ttbr1 (Some l0) far is_write far_valid from_lower_el s)
    (fun _ s' => exists attrs,
       fault_map segs far is_write from_lower_el = Some attrs /\
       fresh_mapping s s' lab used far l0 attrs).
Proof.
  intros Hfar Hi Hr Hl Em Et Hus. unfold translation_fault. destruct far_valid; cbn [negb]; [|done].
  eapply (ok_or_fatal_bind _ _ (fun mapped s' => mapped = true -> exists attrs,
    fault_map segs far is_write from_lower_el = Some attrs /\
    fresh_mapping s s' lab used far l0 attrs)).
  2: { intros [] s1 H1; cbn [negb]; [|done]. destruct (H1 eq_refl) as (attrs & E & Hf).
       apply ok_or_fatal_wp, wp_stat. intros s2 Q2. exists attrs.
       split; [done | by eapply fresh_mapping_quiet]. }
  unfold fault_map. rewrite (proj2 (Z.eqb_neq _ _) Hfar).
  destruct (_ || _).
  { eapply ok_or_fatal_bind; [apply ok_or_fatal_wp; by apply (fresh_page_walk s lab fl used l0 far)|].
    intros ok s1 [_ Hf]. destruct ok; cbn [when]; [|done].
    apply ok_or_fatal_wp, wp_bind. eapply wp_mono; [apply wp_note_anon|].
    intros ? s2 Q2. apply wp_ret. intros _. eexists. split; [done|].
    eapply fresh_mapping_quiet; [by apply Hf | done]. }
  destruct (_ && _).
  { apply ok_or_fatal_wp. eapply wp_mono; [by apply (fresh_page_walk s lab fl used l0 far)|].
    intros ok s1 [_ Hf] Hok. by eauto. }
  eapply ok_or_fatal_bind; [apply ok_or_fatal_wp; by eapply (wp_load_segment_page s m segs lab fl used l0 far)|].
  intros r s1 Hres. cbv beta in Hres. destruct (list_find _ segs) as [[i seg]|]; [|by destruct Hres as [-> _]].
  destruct (Z.land _ _ =? 0); [by destruct Hres as [-> _]|].
  destruct Hres as [Es El _ [-> | ->] (lab' & used' & page & T & Hpg)]; [|done].
  intros _. eexists. split; [done|]. destruct (Hpg eq_refl) as (Hu & Hram & _).
  split_and!; [done | done |]. by exists lab', used', page.
Qed.

End paging_theory.

(** ** Properties *)

(** The translations of every address space but for the page of [va] in the
    one at [table]. *)
Definition others_kept (lab : gmap Z (Z * list Z)) (ps ps' : pt_state) (table va : Z) : Prop :=
  forall q va', is_root lab q -> (q, vpn va') <> (table, vpn va) -> translate ps' q va' = translate ps q va'.

Lemma map_step_others pps ps ps' lab lab' used used' ok table va pte :
  map_step pps ps ps' lab lab' used used' ok table (align_down va) pte -> others_kept lab ps ps' table va.
Proof.
  intros T q va' Hq Hne. unfold translate.
  rewrite (ms_entry _ _ _ _ _ _ _ _ _ _ _ T) by (done || apply indices_ok).
  rewrite bool_decide_false; [by rewrite andb_false_r|]. rewrite indices_align_down.
  intros E. apply Hne. apply pair_eq in E as [-> E]. by rewrite (proj1 (indices_vpn va' va) E).
Qed.


(** A file system with one file, inode 1: the six bytes 11..16 in two blocks of
    four. *)
Definition one_file_view : file_view := {|
  fv_size ino := if ino =? 1 then 6 else -9;
  fv_block_size := 4;
  fv_map ino i := if ino =? 1 then 10 + i else 0;
  fv_block b := if b =? 10 then [11; 12; 13; 14] else if b =? 11 then [15; 16; 0; 0] else [0; 0; 0; 0]
|}.

Definition one_file : FileOps unit := {|
  fo_oft_entry fd := mret (if fd =? 3 then Some (1, 6) else None);
  fo_remove_ref _ := mret tt;
  fo_file_size ino := mret (fv_size one_file_view ino);
  fo_bytes_per_block := mret (fv_block_size one_file_view);
  fo_ith_block ino i := mret (fv_map one_file_view ino i);
  fo_read_block b := mret (SUCCESS, fv_block one_file_view b)
|}.

#[local] Existing Instance one_file.

Lemma one_file_view_ok : view_ok one_file_view.
Proof.
  split; [done|]. split; [intros ino; simpl; case_bool; lia|].
  intros b. simpl. repeat case_bool; (split; [done | repeat constructor; lia]).
Qed.

#[local] Instance one_file_laws : FileLaws unit.
Proof.
  refine {| view _ := one_file_view; view_wf _ := one_file_view_ok |}.
  all: intros; by apply wp_ret.
Defined.

(** The file mapped from its second byte on at 0x10000, read-only. *)
Definition seg_file : mem_segment := mkSeg 0x10000 0x1000 1 1 0x1000 4 1.

Definition paging_example (root : Z) (ps : pt_state) : vm_state unit :=
  mkVM ps (Some {[ root := [seg_file] ]}) false (fun _ => true) tt.

Lemma pool_example_ok : KERNEL_VA_BASE < pool_example <= RAM_end.
Proof. done. Qed.

(** The address space made by the first [alloc_page] after boot. *)
Lemma first_root :
  exists root ps fl, alloc_page pool_example boot_example = Ok (root, ps) /\
    pt_inv pool_example ps {[ root := (root, []) ]} fl ({[ root ]} ∪ ∅).
Proof.
  destruct (boot_run_inv pool_example pool_example_ok boot_example) as [_ [fl Hi]]; [done|].
  assert (Hi0 : pt_inv pool_example boot_example ∅ fl ∅)
    by (constructor; [done | by intros *; rewrite ?lookup_empty ..]).
  destruct (wp_alloc_page pool_example pool_example_ok boot_example fl ∅) as (p & ps & E & Hp); [done|].
  destruct Hp as [(_ & _ & _ & _ & _ & _ & Hf) | (Hp0 & Hpu & Hpr & Hpa & Hfr & fl' & Ha)]; [done|].
  destruct (new_root_step _ pool_example_ok boot_example ps ∅ fl fl' ∅ p) as (Hi' & _); try done.
  exists p, ps, fl'. done.
Qed.



