(* ===== verification/BlockCache.v ===== *)
(** * The block cache

    kernel/fs/caches/lru_cache.c, [read_block] and [write_block] of
    kernel/fs/disk.c and kernel/disk/block.c.

    The cache is a doubly linked list of heap nodes with [head], [tail] and
    [size]; the nodes live in a map from their addresses, NULL is 0 and an
    access to an address that is not (or no longer) a node is undefined
    behaviour.  The SD-card driver below [block_read] and [block_write] is
    reached through the interface [BlockDevice]. *)

From S2P Require Import Prelude Errors Services.

(** ** The block device *)

Class BlockDevice (D : Type) := {
  (** [count] sectors read into the buffer, [None] on an error. *)
  sdhci_block_read : Z -> Z -> stM D (option (list Z));
  (** [count] sectors written; [false] on an error. *)
  sdhci_block_write : Z -> Z -> list Z -> stM D bool;
  (** The number of sectors and their size, once the card is initialised. *)
  sdhci_block_get_info : D -> option (Z * Z)
}.

(** ** State *)

Record node := mkNode {
  n_data : list Z;
  n_dirty : bool;
  n_block : Z;
  n_next : Z;
  n_prev : Z
}.

Record lru_cache := mkCache {
  nodes : gmap Z node;
  head : Z;
  tail : Z;
  size : Z;
  cache_hits : Z;
  cache_misses : Z;
  cache_evictions : Z;
  next_addr : Z   (* addresses the heap has not handed out yet start here *)
}.

(** The static variables of disk.c that describe the file system's place on
    the device. *)
Record fs_layout := mkLayout {
  bytes_per_block : Z;
  num_table_blocks : Z;
  fs_base_block : Z;
  fs_block_count : Z;
  total_fs_blocks : Z;
  block_bitmap_start : Z;
  block_bitmap_blocks : Z;
  inode_bitmap_start : Z;
  inode_bitmap_blocks : Z;
  inode_table_start : Z;
  data_start_block : Z
}.

Record fs_state (D : Type) := mkFS {
  lay : fs_layout;
  cache : lru_cache;
  block_device_lock : bool;
  fs_block_cache_lock : bool;
  fs_bitmap_lock : bool;
  fs_heap : nat -> bool;
  dev : D
}.
Arguments mkFS {D} _ _ _ _ _ _ _.
Arguments lay {D} _.
Arguments cache {D} _.
Arguments block_device_lock {D} _.
Arguments fs_block_cache_lock {D} _.
Arguments fs_bitmap_lock {D} _.
Arguments fs_heap {D} _.
Arguments dev {D} _.

Definition MAX_SIZE : Z := 12.

(** [sizeof(struct node_st)] *)
Definition sizeof_node : Z := 32.

Section cache.
Context {D : Type} `{BlockDevice D}.
Implicit Types (s : fs_state D) (c : lru_cache).

Abbreviation FS := (stM (fs_state D)).

Definition set_cache c s : fs_state D :=
  mkFS (lay s) c (block_device_lock s) (fs_block_cache_lock s) (fs_bitmap_lock s) (fs_heap s) (dev s).
Definition set_device_lock b s : fs_state D :=
  mkFS (lay s) (cache s) b (fs_block_cache_lock s) (fs_bitmap_lock s) (fs_heap s) (dev s).
Definition set_cache_lock b s : fs_state D :=
  mkFS (lay s) (cache s) (block_device_lock s) b (fs_bitmap_lock s) (fs_heap s) (dev s).
Definition set_bitmap_lock b s : fs_state D :=
  mkFS (lay s) (cache s) (block_device_lock s) (fs_block_cache_lock s) b (fs_heap s) (dev s).
Definition set_dev d s : fs_state D :=
  mkFS (lay s) (cache s) (block_device_lock s) (fs_block_cache_lock s) (fs_bitmap_lock s) (fs_heap s) d.

#[export] Program Instance fs_has_heap : HasHeap (fs_state D) := {|
  heap_of := fs_heap;
  set_heap h s := mkFS (lay s) (cache s) (block_device_lock s) (fs_block_cache_lock s)
                    (fs_bitmap_lock s) h (dev s)
|}.
Next Obligation. done. Qed.

(** ** kernel/disk/block.c *)

Definition block_read (lba count : Z) : FS (option (list Z)) :=
  _ ← spin_lock block_device_lock set_device_lock;
  r ← lift dev set_dev (sdhci_block_read lba count);
  _ ← spin_unlock set_device_lock;
  mret r.

Definition block_write (lba count : Z) (data : list Z) : FS bool :=
  _ ← spin_lock block_device_lock set_device_lock;
  r ← lift dev set_dev (sdhci_block_write lba count data);
  _ ← spin_unlock set_device_lock;
  mret r.

Definition block_get_count : FS Z :=
  fetch (fun s => match sdhci_block_get_info (dev s) with Some (sector_count, _) => sector_count | None => 0 end).

Definition block_get_size : FS Z :=
  fetch (fun s => match sdhci_block_get_info (dev s) with Some (_, sector_size) => sector_size | None => 0 end).

(** ** Fields of a node *)

Definition get_node (a : Z) : FS node := fun s =>
  match nodes (cache s) !! a with
  | Some nd => Ok (nd, s)
  | None => Fault
  end.

Definition set_nodes (m : gmap Z node) c : lru_cache :=
  mkCache m (head c) (tail c) (size c) (cache_hits c) (cache_misses c) (cache_evictions c) (next_addr c).
Definition set_head (a : Z) c : lru_cache :=
  mkCache (nodes c) a (tail c) (size c) (cache_hits c) (cache_misses c) (cache_evictions c) (next_addr c).
Definition set_tail (a : Z) c : lru_cache :=
  mkCache (nodes c) (head c) a (size c) (cache_hits c) (cache_misses c) (cache_evictions c) (next_addr c).
Definition set_size (n : Z) c : lru_cache :=
  mkCache (nodes c) (head c) (tail c) n (cache_hits c) (cache_misses c) (cache_evictions c) (next_addr c).
Definition hit c : lru_cache :=
  mkCache (nodes c) (head c) (tail c) (size c) (to_u32 (cache_hits c + 1)) (cache_misses c)
    (cache_evictions c) (next_addr c).
Definition miss c : lru_cache :=
  mkCache (nodes c) (head c) (tail c) (size c) (cache_hits c) (to_u32 (cache_misses c + 1))
    (cache_evictions c) (next_addr c).
Definition evict c : lru_cache :=
  mkCache (nodes c) (head c) (tail c) (size c) (cache_hits c) (cache_misses c)
    (to_u32 (cache_evictions c + 1)) (next_addr c).

Definition on_cache (f : lru_cache -> lru_cache) : FS unit := modify (fun s => set_cache (f (cache s)) s).

Definition put_node (a : Z) (nd : node) : FS unit :=
  _ ← get_node a; on_cache (fun c => set_nodes (<[a := nd]> (nodes c)) c).

Definition set_next (a b : Z) : FS unit :=
  nd ← get_node a; put_node a (mkNode (n_data nd) (n_dirty nd) (n_block nd) b (n_prev nd)).
Definition set_prev (a b : Z) : FS unit :=
  nd ← get_node a; put_node a (mkNode (n_data nd) (n_dirty nd) (n_block nd) (n_next nd) b).

(** [kmalloc] of a node initialised to [nd], and [kfree] of one. *)
Definition new_node (nd : node) : FS Z := fun s =>
  let c := cache s in
  Ok (next_addr c,
      set_cache (mkCache (<[next_addr c := nd]> (nodes c)) (head c) (tail c) (size c)
        (cache_hits c) (cache_misses c) (cache_evictions c) (next_addr c + 1)) s).

Definition free_node (a : Z) : FS unit :=
  _ ← get_node a; on_cache (fun c => set_nodes (delete a (nodes c)) c).

(** ** lru_cache.c *)

(** The disk block of a file-system block, [None] when there is none. *)
Definition map_fs_block_to_disk_block (num : Z) : FS (option Z) :=
  l ← fetch lay;
  mret (if (fs_block_count l =? 0) || (fs_block_count l <=? num) then None
        else Some (to_u64 (fs_base_block l + num))).

(** The data read, or the error code. *)
Definition read_block_data (num : Z) : FS (Z + list Z) :=
  o ← map_fs_block_to_disk_block num;
  match o with
  | None => mret (inl FILE_READ_ERROR)
  | Some disk_block =>
      r ← block_read disk_block 1;
      mret (match r with Some data => inr data | None => inl FILE_READ_ERROR end)
  end.

Definition write_block_data (data : list Z) (num : Z) : FS Z :=
  o ← map_fs_block_to_disk_block num;
  match o with
  | None => mret FILE_WRITE_ERROR
  | Some disk_block =>
      ok ← block_write disk_block 1 data;
      mret (if (ok : bool) then SUCCESS else FILE_WRITE_ERROR)
  end.

Definition lru_cache_remove_node (a : Z) : FS unit :=
  nd ← get_node a;
  h ← fetch (fun s => head (cache s));
  _ ← when (a =? h) (on_cache (set_head (n_next nd)));
  t ← fetch (fun s => tail (cache s));
  _ ← when (a =? t) (on_cache (set_tail (n_prev nd)));
  _ ← when (negb (n_next nd =? 0)) (set_prev (n_next nd) (n_prev nd));
  _ ← when (negb (n_prev nd =? 0)) (set_next (n_prev nd) (n_next nd));
  _ ← set_next a 0;
  _ ← set_prev a 0;
  on_cache (fun c => set_size (size c - 1) c).

(** The scan of [lru_cache_get_block]: [n] nodes from [curr] on. *)
Fixpoint scan_blocks (n : nat) (curr block_num : Z) : FS Z :=
  match n with
  | O => mret 0
  | S n =>
      nd ← get_node curr;
      if n_block nd =? block_num then mret curr else scan_blocks n (n_next nd) block_num
  end.

Definition lru_cache_get_block (block_num : Z) : FS Z :=
  c ← fetch cache;
  scan_blocks (Z.to_nat (size c)) (head c) block_num.

Definition lru_cache_remove_back : FS Z :=
  to_remove ← fetch (fun s => tail (cache s));
  _ ← lru_cache_remove_node to_remove;
  _ ← on_cache evict;
  nd ← get_node to_remove;
  err ← (if n_dirty nd then write_block_data (n_data nd) (n_block nd) else mret SUCCESS);
  _ ← free_node to_remove;
  mret err.

(** The node becomes the head of the list. *)
Definition push_front (a : Z) : FS unit :=
  h ← fetch (fun s => head (cache s));
  _ ← set_next a h;
  _ ← set_prev a 0;
  _ ← (if h =? 0 then on_cache (set_tail a) else set_prev h a);
  _ ← on_cache (set_head a);
  on_cache (fun c => set_size (size c + 1) c).

(** The last steps [lru_cache_add_to_front] and [lru_cache_update_data] share. *)
Definition push_and_trim (a : Z) : FS Z :=
  _ ← push_front a;
  n ← fetch (fun s => size (cache s));
  if MAX_SIZE <? n then lru_cache_remove_back else mret SUCCESS.

(** Returns the error code and, on success, the node.  The source does not
    test the results of its two [kmalloc] calls. *)
Definition lru_cache_add_to_front (block_num : Z) : FS (Z * Z) :=
  a ← lru_cache_get_block block_num;
  if negb (a =? 0) then
    _ ← on_cache hit;
    _ ← lru_cache_remove_node a;
    err ← push_and_trim a;
    mret (err, a)
  else
    _ ← on_cache miss;
    l ← fetch lay;
    ok ← kmalloc sizeof_node;
    if negb (ok : bool) then fault else
    ok' ← kmalloc (bytes_per_block l);
    if negb (ok' : bool) then fault else
    r ← read_block_data block_num;
    match r with
    | inl err => mret (err, 0)
    | inr data =>
        if Z.of_nat (length data) =? bytes_per_block l then
          a ← new_node (mkNode data false block_num 0 0);
          err ← push_and_trim a;
          mret (err, a)
        else fault
    end.

(** [memcpy] of a block out of a buffer. *)
Definition block_of (data : list Z) : FS (list Z) :=
  l ← fetch lay;
  if bytes_per_block l <=? Z.of_nat (length data)
  then mret (take (Z.to_nat (bytes_per_block l)) data) else fault.

Definition lru_cache_update_data (data : list Z) (block_num : Z) : FS Z :=
  l ← fetch lay;
  a ← lru_cache_get_block block_num;
  a' ← (if negb (a =? 0) then
          _ ← on_cache hit; _ ← lru_cache_remove_node a; mret a
        else
          _ ← on_cache miss;
          ok ← kmalloc sizeof_node;
          if negb (ok : bool) then mret 0 else
          ok' ← kmalloc (bytes_per_block l);
          if negb (ok' : bool) then mret 0 else
          new_node (mkNode [] false block_num 0 0));
  if a' =? 0 then mret FILE_WRITE_ERROR else
  d ← block_of data;
  nd ← get_node a';
  _ ← put_node a' (mkNode d (n_dirty nd) (n_block nd) (n_next nd) (n_prev nd));
  err_code ← write_block_data d block_num;
  if negb (err_code =? SUCCESS) then _ ← free_node a'; mret err_code else
  nd ← get_node a';
  _ ← put_node a' (mkNode (n_data nd) false (n_block nd) (n_next nd) (n_prev nd));
  push_and_trim a'.

(** The loop of [lru_cache_empty]; one node goes per iteration. *)
Fixpoint empty_loop (fuel : nat) : FS Z :=
  t ← fetch (fun s => tail (cache s));
  if t =? 0 then mret SUCCESS
  else
    match fuel with
    | O => fault
    | S fuel =>
        err_code ← lru_cache_remove_back;
        if negb (err_code =? 0) then mret err_code else empty_loop fuel
    end.

Definition lru_cache_empty : FS Z :=
  n ← fetch (fun s => size (cache s));
  empty_loop (Z.to_nat n).

(** [lru_cache_get_stats]: used blocks, hits, misses, evictions and dirty
    blocks; the capacity is [MAX_SIZE]. *)
Fixpoint count_dirty (fuel : nat) (curr dirty : Z) : FS Z :=
  if curr =? 0 then mret dirty
  else
    match fuel with
    | O => fault
    | S fuel =>
        nd ← get_node curr;
        count_dirty fuel (n_next nd) (if n_dirty nd then to_u32 (dirty + 1) else dirty)
    end.

Definition lru_cache_get_stats : FS (Z * Z * Z * Z * Z * Z) :=
  c ← fetch cache;
  dirty ← count_dirty (Z.to_nat (size c)) (head c) 0;
  mret (MAX_SIZE, to_u32 (size c), cache_hits c, cache_misses c, cache_evictions c, dirty).

(** ** [read_block] and [write_block] of disk.c *)

(** The error code and the data copied to the caller's buffer. *)
Definition read_block (num : Z) : FS (Z * list Z) :=
  _ ← spin_lock fs_block_cache_lock set_cache_lock;
  '(err_code, a) ← lru_cache_add_to_front num;
  if negb (err_code =? 0) then
    _ ← spin_unlock set_cache_lock; mret (err_code, [])
  else
    nd ← get_node a;
    d ← block_of (n_data nd);
    _ ← spin_unlock set_cache_lock;
    mret (SUCCESS, d).

Definition write_block (data : list Z) (num : Z) : FS Z :=
  _ ← spin_lock fs_block_cache_lock set_cache_lock;
  err ← lru_cache_update_data data num;
  _ ← spin_unlock set_cache_lock;
  mret err.

End cache.

(** ** The linked list

    [crep c l]: the nodes of the cache, in list order, are those at the
    addresses [l]. *)

Definition prev_of (l : list Z) (i : nat) : Z :=
  match i with O => 0 | S j => default 0 (l !! j) end.

Record crep (c : lru_cache) (l : list Z) : Prop := {
  cr_nodup : NoDup l;
  cr_fresh : forall a, is_Some (nodes c !! a) -> 0 < a < next_addr c;
  cr_next_addr : 0 < next_addr c;
  cr_node : forall i a, l !! i = Some a -> exists nd, nodes c !! a = Some nd /\
    n_next nd = default 0 (l !! S i) /\ n_prev nd = prev_of l i;
  cr_head : head c = default 0 (l !! 0%nat);
  cr_tail : tail c = default 0 (last l);
  cr_size : size c = Z.of_nat (length l)
}.

(** What a node carries, links apart. *)
Definition payload (nd : node) : Z * list Z * bool := (n_block nd, n_data nd, n_dirty nd).
Definition payload_at (c : lru_cache) (a : Z) : option (Z * list Z * bool) := payload <$> nodes c !! a.

(** [c'] is [c] with other links. *)
Definition relinked (c c' : lru_cache) : Prop :=
  (forall a, payload_at c' a = payload_at c a) /\ next_addr c' = next_addr c.

Lemma relinked_refl c : relinked c c.
Proof. done. Qed.

Lemma relinked_trans c1 c2 c3 : relinked c1 c2 -> relinked c2 c3 -> relinked c1 c3.
Proof. intros [H1 E1] [H2 E2]. split; [intros a; by rewrite H2, H1 | congruence]. Qed.

Lemma crep_nonzero c l i a : crep c l -> l !! i = Some a -> a <> 0.
Proof.
  intros Hc Hl. destruct (cr_node _ _ Hc i a Hl) as (nd & E & _).
  pose proof (cr_fresh _ _ Hc a ltac:(by eexists)). lia.
Qed.

Lemma lookup_delete_list {A} (l : list A) i j :
  delete i l !! j = if decide (j < i)%nat then l !! j else l !! S j.
Proof.
  case_decide; [by rewrite list_lookup_delete_lt | rewrite list_lookup_delete_ge; done || lia].
Qed.

Section links.
Context {D : Type}.
Implicit Types (s : fs_state D) (c : lru_cache).

Lemma wp_get_node a nd (Q : node -> fs_state D -> Prop) s :
  nodes (cache s) !! a = Some nd -> Q nd s -> wp (get_node a) Q s.
Proof. intros E HQ. exists nd, s. unfold get_node. by rewrite E. Qed.

Lemma wp_on_cache f (Q : unit -> fs_state D -> Prop) s :
  Q tt (set_cache (f (cache s)) s) -> wp (on_cache f) Q s.
Proof. intros HQ. by apply (wp_modify (fun s => set_cache (f (cache s)) s)). Qed.

Lemma wp_put_node a nd nd0 (Q : unit -> fs_state D -> Prop) s :
  nodes (cache s) !! a = Some nd0 ->
  Q tt (set_cache (set_nodes (<[a := nd]> (nodes (cache s))) (cache s)) s) ->
  wp (put_node a nd) Q s.
Proof. intros E HQ. by apply wp_bind, (wp_get_node _ nd0), wp_on_cache. Qed.

Lemma put_alter (m : gmap Z node) a nd (f : node -> node) :
  m !! a = Some nd -> <[a := f nd]> m = alter f a m.
Proof.
  intros E. apply map_eq. intros b. destruct (decide (b = a)) as [->|].
  - by rewrite lookup_insert_eq, lookup_alter_eq, E.
  - by rewrite lookup_insert_ne, lookup_alter_ne.
Qed.

Definition with_next (b : Z) (nd : node) : node := mkNode (n_data nd) (n_dirty nd) (n_block nd) b (n_prev nd).
Definition with_prev (b : Z) (nd : node) : node := mkNode (n_data nd) (n_dirty nd) (n_block nd) (n_next nd) b.

Lemma wp_set_next a b (Q : unit -> fs_state D -> Prop) s :
  is_Some (nodes (cache s) !! a) ->
  Q tt (set_cache (set_nodes (alter (with_next b) a (nodes (cache s))) (cache s)) s) ->
  wp (set_next a b) Q s.
Proof.
  intros [nd E] HQ. apply wp_bind, (wp_get_node _ nd); [done|]. apply (wp_put_node _ _ nd); [done|].
  fold (with_next b nd). by rewrite put_alter.
Qed.

Lemma wp_set_prev a b (Q : unit -> fs_state D -> Prop) s :
  is_Some (nodes (cache s) !! a) ->
  Q tt (set_cache (set_nodes (alter (with_prev b) a (nodes (cache s))) (cache s)) s) ->
  wp (set_prev a b) Q s.
Proof.
  intros [nd E] HQ. apply wp_bind, (wp_get_node _ nd); [done|]. apply (wp_put_node _ _ nd); [done|].
  fold (with_prev b nd). by rewrite put_alter.
Qed.

(** The nodes after [lru_cache_remove_node] of the node [nd] at [a]. *)
Definition unlink (m : gmap Z node) (a : Z) (nd : node) : gmap Z node :=
  let m1 := if n_next nd =? 0 then m else alter (with_prev (n_prev nd)) (n_next nd) m in
  let m2 := if n_prev nd =? 0 then m1 else alter (with_next (n_next nd)) (n_prev nd) m1 in
  alter (with_prev 0) a (alter (with_next 0) a m2).

Lemma wp_remove_node a nd (Q : unit -> fs_state D -> Prop) s :
  let c := cache s in
  nodes c !! a = Some nd ->
  (n_next nd <> 0 -> is_Some (nodes c !! n_next nd)) ->
  (n_prev nd <> 0 -> is_Some (nodes c !! n_prev nd)) ->
  Q tt (set_cache (mkCache (unlink (nodes c) a nd) (if a =? head c then n_next nd else head c)
          (if a =? tail c then n_prev nd else tail c) (size c - 1)
          (cache_hits c) (cache_misses c) (cache_evictions c) (next_addr c)) s) ->
  wp (lru_cache_remove_node a) Q s.
Proof.
  intros c E Hn Hp HQ. unfold lru_cache_remove_node.
  apply wp_bind, (wp_get_node _ nd); [done|]. apply wp_bind, wp_fetch. apply wp_bind.
  apply (wp_mono _ (fun _ s' => s' = set_cache (set_head (if a =? head c then n_next nd else head c) c) s)).
  { destruct (a =? head (cache s)) eqn:Eh; simpl.
    - apply wp_on_cache. unfold c. by rewrite Eh.
    - apply wp_ret. unfold c. rewrite Eh. by destruct s as [? [] ? ? ? ? ?]. }
  intros ? s1 ->. apply wp_bind, wp_fetch. apply wp_bind. cbn [cache set_cache tail set_head].
  apply (wp_mono _ (fun _ s' => s' = set_cache (set_tail (if a =? tail c then n_prev nd else tail c)
    (set_head (if a =? head c then n_next nd else head c) c)) s)).
  { destruct (a =? tail c) eqn:Et; simpl.
    - by apply wp_on_cache.
    - apply wp_ret. by destruct s as [? [] ? ? ? ? ?]. }
  intros ? s2 ->. 
  set (c2 := set_tail _ _). apply wp_bind.
  set (m1 := if n_next nd =? 0 then nodes c else alter (with_prev (n_prev nd)) (n_next nd) (nodes c)).
  apply (wp_mono _ (fun _ s' => s' = set_cache (set_nodes m1 c2) s)).
  { unfold m1. destruct (Z.eqb_spec (n_next nd) 0); cbn [negb when]; [by apply wp_ret|].
    apply wp_set_prev; [by apply Hn | done]. }
  intros ? s3 ->. apply wp_bind.
  assert (H1 : forall b, is_Some (nodes c !! b) -> is_Some (m1 !! b)).
  { intros b Hb. unfold m1. case_bool; [done|]. by apply lookup_alter_is_Some. }
  set (m2 := if n_prev nd =? 0 then m1 else alter (with_next (n_next nd)) (n_prev nd) m1).
  apply (wp_mono _ (fun _ s' => s' = set_cache (set_nodes m2 c2) s)).
  { unfold m2. destruct (Z.eqb_spec (n_prev nd) 0); cbn [negb when]; [by apply wp_ret|].
    apply wp_set_next; [by apply H1, Hp | done]. }
  intros ? s4 ->.
  assert (H2 : is_Some (m2 !! a)).
  { unfold m2. case_bool; [by apply H1|]. apply lookup_alter_is_Some. by apply H1. }
  apply wp_bind, wp_set_next; [done|]. apply wp_bind, wp_set_prev; [by apply lookup_alter_is_Some|].
  apply wp_on_cache. exact HQ.
Qed.

Lemma lookup_alter_if (f : node -> node) (k b : Z) (m : gmap Z node) :
  alter f k m !! b = (if b =? k then f else id) <$> m !! b.
Proof.
  destruct (Z.eqb_spec b k) as [->|]; [apply lookup_alter_eq|].
  rewrite lookup_alter_ne by done. by destruct (m !! b).
Qed.

Lemma unlink_lookup m a nd b :
  b <> 0 ->
  unlink m a nd !! b = (fun x => mkNode (n_data x) (n_dirty x) (n_block x)
    (if b =? a then 0 else if b =? n_prev nd then n_next nd else n_next x)
    (if b =? a then 0 else if b =? n_next nd then n_prev nd else n_prev x)) <$> m !! b.
Proof.
  intros Hb. unfold unlink.
  assert (Hid : forall k (f : node -> node) (m' : gmap Z node),
    (if k =? 0 then m' else alter f k m') !! b = (if b =? k then f else id) <$> m' !! b).
  { intros k f m'. destruct (Z.eqb_spec k 0) as [->|]; [|apply lookup_alter_if].
    rewrite (proj2 (Z.eqb_neq b 0)) by done. by destruct (m' !! b). }
  rewrite !lookup_alter_if, !Hid. destruct (m !! b) as [x|]; [|done]. simpl. f_equal.
  destruct (b =? a), (b =? n_prev nd), (b =? n_next nd); by destruct x.
Qed.

Lemma unlink_none m a nd b : m !! b = None -> unlink m a nd !! b = None.
Proof.
  intros E. unfold unlink. do 2 (apply lookup_alter_None).
  case_bool; [|apply lookup_alter_None]; (case_bool; [|apply lookup_alter_None]); done.
Qed.

(** Positions around the one taken out. *)
Lemma unlink_next (l : list Z) i j b :
  NoDup l -> b <> 0 ->
  let k := if decide (j < i)%nat then j else S j in
  l !! k = Some b ->
  (if b =? prev_of l i then default 0 (l !! S i) else default 0 (l !! S k)) = default 0 (delete i l !! S j).
Proof.
  intros Hnd Hb k Hk. rewrite lookup_delete_list. unfold k in *.
  destruct (Z.eqb_spec b (prev_of l i)) as [Hp|Hp].
  - destruct i as [|i]; [done|]. simpl in Hp. destruct (l !! i) as [y|] eqn:Ey; [|done]. simpl in Hp. subst y.
    assert (k = i) as Ek by (eapply NoDup_lookup; done). unfold k in Ek.
    repeat case_decide; try lia. do 2 f_equal. lia.
  - repeat case_decide; try done; try lia. exfalso. apply Hp.
    replace i with (S j) by lia. simpl. by rewrite Hk.
Qed.

Lemma unlink_prev (l : list Z) i j b :
  NoDup l -> b <> 0 ->
  let k := if decide (j < i)%nat then j else S j in
  l !! k = Some b ->
  (if b =? default 0 (l !! S i) then prev_of l i else prev_of l k) = prev_of (delete i l) j.
Proof.
  intros Hnd Hb k Hk.
  assert (Hd : forall j', prev_of (delete i l) (S j') = default 0 (if decide (j' < i)%nat then l !! j' else l !! S j'))
    by (intros j'; simpl; by rewrite lookup_delete_list).
  destruct (Z.eqb_spec b (default 0 (l !! S i))) as [Hp|Hp].
  - destruct (l !! S i) as [y|] eqn:Ey; [|done]. simpl in Hp. subst y.
    assert (k = S i) as Ek by (eapply NoDup_lookup; done). unfold k in Ek. case_decide; [lia|].
    injection Ek as ->. destruct i as [|i]; [done|]. rewrite Hd, decide_True by lia. done.
  - unfold k in *. destruct j as [|j].
    + case_decide; [done|]. assert (i = 0%nat) as -> by lia. by rewrite Hk in Hp.
    + rewrite Hd. repeat case_decide; try done; try lia. exfalso. apply Hp.
      replace (S i) with (S (S j)) by lia. by rewrite Hk.
Qed.

(** Taking the node at position [i] out of the list. *)
Lemma crep_unlink c l i a nd hi mi ev :
  crep c l -> l !! i = Some a -> nodes c !! a = Some nd ->
  let c' := mkCache (unlink (nodes c) a nd) (if a =? head c then n_next nd else head c)
          (if a =? tail c then n_prev nd else tail c) (size c - 1) hi mi ev (next_addr c) in
  crep c' (delete i l) /\ relinked c c'.
Proof.
  intros Hc Hi E c'. pose proof (fun b x (H : nodes c !! b = Some x) =>
    cr_fresh _ _ Hc b (ex_intro _ x H)) as Hdom.
  destruct (cr_node _ _ Hc i a Hi) as (nd0 & E0 & Hnx & Hpv). assert (nd0 = nd) as -> by congruence.
  pose proof (cr_nodup _ _ Hc) as Hnd. split.
  2: { split; [|done]. intros b. unfold payload_at, c'. simpl. destruct (nodes c !! b) as [x|] eqn:Eb.
       - rewrite unlink_lookup by (pose proof (Hdom b x Eb); lia). by rewrite Eb.
       - by rewrite unlink_none. }
  assert (Hinj : forall j k b, l !! j = Some b -> l !! k = Some b -> j = k)
    by (intros j k b; by apply NoDup_lookup).
  constructor.
  - eapply sublist_NoDup; [done | apply sublist_delete].
  - intros b Hb. unfold c' in *. simpl in *. apply (cr_fresh _ _ Hc).
    destruct (nodes c !! b) eqn:Eb; [by eexists|]. rewrite unlink_none in Hb by done. by destruct Hb.
  - exact (cr_next_addr _ _ Hc).
  - intros j b Hb. rewrite lookup_delete_list in Hb.
    set (k := if decide (j < i)%nat then j else S j).
    assert (Hk : l !! k = Some b) by (unfold k; by case_decide).
    destruct (cr_node _ _ Hc k b Hk) as (x & Ex & Enx & Epv).
    pose proof (Hdom b x Ex). eexists. unfold c'. cbn [nodes]. rewrite unlink_lookup, Ex by lia.
    split; [done|]. cbn [n_next n_prev].
    assert (Hba : b <> a). { intros ->. pose proof (Hinj k i a Hk Hi). unfold k in *. case_decide; lia. }
    rewrite (proj2 (Z.eqb_neq b a)) by done. rewrite Hnx, Hpv, Enx, Epv. split.
    + apply unlink_next; [done | lia | exact Hk].
    + apply unlink_prev; [done | lia | exact Hk].
  - unfold c'. simpl. rewrite (cr_head _ _ Hc), Hnx, lookup_delete_list.
    destruct (l !! 0%nat) as [h|] eqn:Eh; [|by destruct l].
    simpl. destruct (Z.eqb_spec a h) as [->|Hne].
    + by rewrite (Hinj i 0%nat h Hi Eh).
    + rewrite decide_True; [done|]. destruct i; [congruence | lia].
  - unfold c'. simpl. rewrite (cr_tail _ _ Hc), Hpv, !last_lookup, length_delete, lookup_delete_list by eauto.
    pose proof (lookup_lt_Some _ _ _ Hi). destruct (lookup_lt_is_Some_2 l (pred (length l))) as [t Et]; [lia|].
    rewrite Et. simpl. destruct (Z.eqb_spec a t) as [->|Hne].
    + pose proof (Hinj i _ t Hi Et) as Ei. destruct i as [|i].
      * replace (length l) with 1%nat by lia. simpl. by rewrite lookup_ge_None_2 by lia.
      * rewrite decide_True by lia. replace (pred _) with i by lia. done.
    + assert (i <> pred (length l)) by congruence. rewrite decide_False by lia.
      replace (S _) with (pred (length l)) by lia. by rewrite Et.
  - unfold c'. simpl. rewrite (cr_size _ _ Hc), length_delete by eauto. apply lookup_lt_Some in Hi. lia.
Qed.

(** The cache's counters, which the links do not touch. *)
Definition same_stats (c c' : lru_cache) : Prop :=
  cache_hits c' = cache_hits c /\ cache_misses c' = cache_misses c /\ cache_evictions c' = cache_evictions c.

Lemma wp_remove_at i a l (Q : unit -> fs_state D -> Prop) s :
  crep (cache s) l -> l !! i = Some a ->
  (forall c', crep c' (delete i l) -> relinked (cache s) c' -> same_stats (cache s) c' ->
     Q tt (set_cache c' s)) ->
  wp (lru_cache_remove_node a) Q s.
Proof.
  intros Hc Hi HQ. destruct (cr_node _ _ Hc i a Hi) as (nd & E & Hnx & Hpv).
  apply (wp_remove_node _ nd); [done | | |].
  - rewrite Hnx. destruct (l !! S i) as [b|] eqn:Eb; [|done]. intros _.
    destruct (cr_node _ _ Hc _ b Eb) as (x & Ex & _). by exists x.
  - rewrite Hpv. destruct i as [|i]; [done|]. simpl. destruct (l !! i) as [b|] eqn:Eb; [|done]. intros _.
    destruct (cr_node _ _ Hc _ b Eb) as (x & Ex & _). by exists x.
  - destruct (crep_unlink (cache s) l i a nd (cache_hits (cache s)) (cache_misses (cache s))
      (cache_evictions (cache s)) Hc Hi E) as [Hc' Hr]. by apply HQ.
Qed.

(** The nodes after [push_front a] on a list with the head [h]. *)
Definition linked_front (m : gmap Z node) (a h : Z) : gmap Z node :=
  let m1 := alter (with_prev 0) a (alter (with_next h) a m) in
  if h =? 0 then m1 else alter (with_prev a) h m1.

Lemma linked_front_lookup m a h b :
  a <> h -> b <> 0 ->
  linked_front m a h !! b = (fun x => mkNode (n_data x) (n_dirty x) (n_block x)
    (if b =? a then h else n_next x)
    (if b =? a then 0 else if b =? h then a else n_prev x)) <$> m !! b.
Proof.
  intros Hah Hb. unfold linked_front.
  destruct (Z.eqb_spec h 0) as [->|]; rewrite !lookup_alter_if; destruct (m !! b) as [x|]; try done;
    simpl; f_equal.
  - rewrite (proj2 (Z.eqb_neq b 0)) by done. destruct (b =? a); by destruct x.
  - destruct (Z.eqb_spec b a) as [->|]; [rewrite (proj2 (Z.eqb_neq a h)) by done; by destruct x|].
    destruct (b =? h); by destruct x.
Qed.

Lemma linked_front_none m a h b : m !! b = None -> linked_front m a h !! b = None.
Proof.
  intros E. unfold linked_front. case_bool; [|apply lookup_alter_None]; by do 2 apply lookup_alter_None.
Qed.

Lemma crep_front c l a :
  crep c l -> a ∉ l -> is_Some (nodes c !! a) ->
  let c' := mkCache (linked_front (nodes c) a (head c)) a (if head c =? 0 then a else tail c) (size c + 1)
              (cache_hits c) (cache_misses c) (cache_evictions c) (next_addr c) in
  crep c' (a :: l) /\ relinked c c'.
Proof.
  intros Hc Ha [nd E] c'.
  assert (Hh : a <> head c).
  { rewrite (cr_head _ _ Hc). destruct l; simpl; [|set_solver].
    pose proof (cr_fresh _ _ Hc a (ex_intro _ nd E)). lia. }
  assert (Hlk : forall b x, nodes c !! b = Some x -> nodes c' !! b = Some (mkNode (n_data x) (n_dirty x) (n_block x)
    (if b =? a then head c else n_next x) (if b =? a then 0 else if b =? head c then a else n_prev x))).
  { intros b x Eb. unfold c'. cbn [nodes]. pose proof (cr_fresh _ _ Hc b (ex_intro _ x Eb)).
    rewrite linked_front_lookup, Eb by (done || lia). done. }
  split.
  2: { split; [|done]. intros b. unfold payload_at. destruct (nodes c !! b) as [x|] eqn:Eb.
       - by rewrite (Hlk _ _ Eb).
       - unfold c'. simpl. by rewrite linked_front_none. }
  constructor.
  - by constructor; [|apply Hc].
  - intros b Hb. apply (cr_fresh _ _ Hc). destruct (nodes c !! b) eqn:Eb; [by eexists|].
    unfold c' in Hb. simpl in Hb. rewrite linked_front_none in Hb by done. by destruct Hb.
  - exact (cr_next_addr _ _ Hc).
  - intros [|j] b Hb; simpl in Hb.
    + injection Hb as <-. eexists. split; [by apply Hlk|]. cbn [n_next n_prev].
      rewrite Z.eqb_refl, (cr_head _ _ Hc). done.
    + destruct (cr_node _ _ Hc j b Hb) as (x & Ex & Hn & Hp). eexists. split; [by apply Hlk|].
      cbn [n_next n_prev]. assert (b <> a) by (intros ->; by apply list_elem_of_lookup_2 in Hb).
      rewrite (proj2 (Z.eqb_neq b a)) by done. split; [by rewrite Hn|].
      rewrite (cr_head _ _ Hc), Hp. destruct (Z.eqb_spec b (default 0 (l !! 0%nat))) as [Eq|Hne].
      * assert (j = 0%nat) as ->; [|done]. destruct (l !! 0%nat) as [h|] eqn:Eh.
        -- simpl in Eq. subst b. eapply NoDup_lookup; [apply Hc | done | done].
        -- by destruct l.
      * destruct j; [by rewrite Hb in Hne | done].
  - done.
  - unfold c'. simpl. rewrite (cr_head _ _ Hc), (cr_tail _ _ Hc). destruct l as [|h l]; [done|].
    pose proof (crep_nonzero _ _ 0 h Hc eq_refl) as Hne. change (default 0 ((h :: l) !! 0%nat)) with h.
    rewrite (proj2 (Z.eqb_neq _ _) Hne). by rewrite last_cons_cons.
  - unfold c'. simpl. rewrite (cr_size _ _ Hc). lia.
Qed.

Lemma wp_push_front a l (Q : unit -> fs_state D -> Prop) s :
  crep (cache s) l -> a ∉ l -> is_Some (nodes (cache s) !! a) ->
  (forall c', crep c' (a :: l) -> relinked (cache s) c' -> same_stats (cache s) c' -> Q tt (set_cache c' s)) ->
  wp (push_front a) Q s.
Proof.
  intros Hc Ha Hin HQ. unfold push_front. apply wp_bind, wp_fetch.
  apply wp_bind, wp_set_next; [done|]. apply wp_bind, wp_set_prev; [by apply lookup_alter_is_Some|].
  set (m1 := alter _ a _). apply wp_bind. cbn [cache set_cache set_nodes] in *.
  set (h := head (cache s)) in *.
  apply (wp_mono _ (fun _ s' => s' = set_cache (set_tail (if h =? 0 then a else tail (cache s))
    (set_nodes (linked_front (nodes (cache s)) a h) (cache s))) s)).
  { unfold linked_front. fold m1. destruct (Z.eqb_spec h 0) as [|Hh].
    - by apply wp_on_cache.
    - apply wp_set_prev.
      + cbn. do 2 apply lookup_alter_is_Some. unfold h in *. rewrite (cr_head _ _ Hc) in Hh |- *.
        destruct (l !! 0%nat) as [b|] eqn:Eb; [|done]. destruct (cr_node _ _ Hc _ b Eb) as (x & Ex & _). by exists x.
      + by destruct s as [? [] ? ? ? ? ?]. }
  intros ? s1 ->. apply wp_bind, wp_on_cache, wp_on_cache.
  destruct (crep_front _ l a Hc Ha Hin) as [Hc' Hr]. by apply HQ.
Qed.

End links.

(** ** The device the file system lives on

    [contents d lba] is what the card holds in the sector [lba]. *)

Definition sector (size : Z) (data : list Z) (k : Z) : list Z :=
  take (Z.to_nat size) (drop (Z.to_nat (k * size)) data).

Class DeviceLaws (D : Type) `{BlockDevice D} := {
  sector_size : Z;
  contents : D -> Z -> list Z;
  contents_length : forall d lba, Z.of_nat (length (contents d lba)) = sector_size;
  info_size : forall d n size, sdhci_block_get_info d = Some (n, size) -> size = sector_size;
  (** The sectors that cannot always be read or written. *)
  bad_sector : Z -> Prop;
  (** A read does not change the card and gives the sectors, unless one of them
      is bad. *)
  read_law : forall d lba count, 0 < count ->
    wp (sdhci_block_read lba count) (fun r d' =>
      (forall n, contents d' n = contents d n) /\ sdhci_block_get_info d' = sdhci_block_get_info d /\
      match r with
      | Some data => Z.of_nat (length data) = count * sector_size /\
          forall k, 0 <= k < count -> sector sector_size data k = contents d (lba + k)
      | None => exists k, 0 <= k < count /\ bad_sector (lba + k)
      end) d;
  (** A write changes no other sector, failed or not. *)
  write_law : forall d lba count data, 0 < count ->
    Z.of_nat (length data) = count * sector_size ->
    wp (sdhci_block_write lba count data) (fun ok d' =>
      (forall n, n < lba \/ lba + count <= n -> contents d' n = contents d n) /\
      sdhci_block_get_info d' = sdhci_block_get_info d /\
      (if ok then forall k, 0 <= k < count -> contents d' (lba + k) = sector sector_size data k
       else exists k, 0 <= k < count /\ bad_sector (lba + k))) d
}.

Section coherence.
Context {D : Type} `{DeviceLaws D}.
Implicit Types (s : fs_state D) (l L : list Z).

(** The bytes of a block of the file system. *)
Definition fs_block s (n : Z) : list Z := contents (dev s) (fs_base_block (lay s) + n).

(** The disk blocks of the file system do not wrap around. *)
Definition layout_ok (l : fs_layout) : Prop :=
  bytes_per_block l = sector_size /\ 0 < bytes_per_block l <= KERNEL_HEAP_SIZE /\
  0 <= fs_base_block l /\ 0 <= fs_block_count l /\ fs_base_block l + fs_block_count l <= 2 ^ 64.

(** The blocks whose reading or writing may fail. *)
Definition bad_block (l : fs_layout) (n : Z) : Prop :=
  fs_block_count l <= n \/ bad_sector (fs_base_block l + n).

(** Some block of the file system lies on a bad sector. *)
Definition flaky (l : fs_layout) : Prop :=
  exists n, 0 <= n < fs_block_count l /\ bad_sector (fs_base_block l + n).

Lemma bad_flaky (l : fs_layout) n : bad_block l n -> 0 <= n < fs_block_count l -> flaky l.
Proof. intros [?|?] Hn; [lia | by exists n]. Qed.

(** What the node at [a] holds when it caches the block [n]. *)
Definition caches s (a n : Z) : Prop :=
  payload_at (cache s) a = Some (n, fs_block s n, false) /\ 0 <= n < fs_block_count (lay s).

(** The list [l] of nodes caches the blocks [L], and nothing stands in the
    way of using the device and the heap. *)
Record listing s l L : Prop := {
  ls_rep : crep (cache s) l;
  ls_caches : Forall2 (caches s) l L;
  ls_nodup : NoDup L;
  ls_layout : layout_ok (lay s);
  ls_device : block_device_lock s = false;
  ls_heap : forall n, fs_heap s n = true
}.

(** The cache holds the blocks [L], the most recently used one first. *)
Definition cached s L : Prop :=
  (exists l, listing s l L) /\ (length L <= Z.to_nat MAX_SIZE)%nat /\ fs_block_cache_lock s = false.

(** The list of a least-recently-used cache after a use of [n]. *)
Definition forget (n : Z) L : list Z := filter (fun m => m <> n) L.
Definition touch (n : Z) L : list Z := take (Z.to_nat MAX_SIZE) (n :: forget n L).

(** *** Frame lemmas *)

Lemma crep_agree c c' l :
  crep c l -> (forall b, b ∈ l -> nodes c' !! b = nodes c !! b) ->
  (forall b, is_Some (nodes c' !! b) -> 0 < b < next_addr c') -> 0 < next_addr c' ->
  head c' = head c -> tail c' = tail c -> size c' = size c -> crep c' l.
Proof.
  intros [Hnd _ _ Hn Hh Ht Hs] Hag Hfr Hna Eh Et Es. constructor; try done; try congruence.
  intros i a Hi. destruct (Hn i a Hi) as (nd & E & ?). exists nd. split; [|done].
  rewrite Hag; [done | by eapply list_elem_of_lookup_2].
Qed.

Lemma caches_agree s s' l L :
  (forall a, a ∈ l -> payload_at (cache s') a = payload_at (cache s) a) ->
  (forall n, n ∈ L -> fs_block s' n = fs_block s n) -> lay s' = lay s ->
  Forall2 (caches s) l L -> Forall2 (caches s') l L.
Proof.
  intros Hp Hb El Hf. apply Forall2_same_length_lookup. split; [by eapply Forall2_length|].
  intros i a n Ha Hn. destruct (Forall2_lookup_lr _ _ _ i a n Hf Ha Hn) as [Ep Hr].
  split; [|by rewrite El]. rewrite Hp, Hb by (by eapply list_elem_of_lookup_2). done.
Qed.

(** What a step on the cache leaves alone. *)
Definition cache_step s s' : Prop := exists c', s' = set_cache c' s.

Lemma listing_step s c' l L l' L' :
  listing s l L -> crep c' l' -> NoDup L' -> Forall2 (caches s) l' L' ->
  (forall a, a ∈ l' -> payload_at c' a = payload_at (cache s) a) ->
  listing (set_cache c' s) l' L'.
Proof.
  intros [Hc Hf Hnd Hl Hd Hh] Hc' Hnd' Hf' Hp. constructor; try done.
  by apply (caches_agree s).
Qed.

(** *** Finding a block *)

Lemma wp_scan k j l L n (Q : Z -> fs_state D -> Prop) s :
  crep (cache s) l -> Forall2 (caches s) l L -> (k + j = length l)%nat ->
  (n ∉ drop j L -> Q 0 s) ->
  (forall i a, l !! i = Some a -> L !! i = Some n -> Q a s) ->
  wp (scan_blocks k (default 0 (l !! j)) n) Q s.
Proof.
  intros Hc Hf Hkj Hno Hyes. pose proof (Forall2_length _ _ _ Hf) as Hlen. revert j Hkj Hno.
  induction k as [|k IH]; intros j Hkj Hno.
  - apply wp_ret, Hno. rewrite drop_ge by lia. apply not_elem_of_nil.
  - destruct (lookup_lt_is_Some_2 l j) as [a Ha]; [lia|]. destruct (lookup_lt_is_Some_2 L j) as [m Hm]; [lia|].
    destruct (cr_node _ _ Hc j a Ha) as (nd & E & Hnx & _).
    destruct (Forall2_lookup_lr _ _ _ j a m Hf Ha Hm) as [Ep _].
    assert (Em : n_block nd = m) by (unfold payload_at in Ep; rewrite E in Ep; by injection Ep).
    rewrite Ha. simpl. apply wp_bind, (wp_get_node _ nd); [done|].
    destruct (Z.eqb_spec (n_block nd) n) as [En|Hne].
    + apply wp_ret, (Hyes j); congruence.
    + rewrite Hnx. apply IH; [lia|]. intros Hn. apply Hno.
      rewrite (drop_S L m j) by done. apply not_elem_of_cons. split; [congruence | done].
Qed.

Lemma wp_get_block n l L (Q : Z -> fs_state D -> Prop) s :
  crep (cache s) l -> Forall2 (caches s) l L ->
  (n ∉ L -> Q 0 s) -> (forall i a, l !! i = Some a -> L !! i = Some n -> Q a s) ->
  wp (lru_cache_get_block n) Q s.
Proof.
  intros Hc Hf Hno Hyes. apply wp_bind, wp_fetch. rewrite (cr_size _ _ Hc), (cr_head _ _ Hc), Nat2Z.id.
  apply (wp_scan _ 0 l L); done || lia.
Qed.

(** *** The list of blocks *)

Lemma forget_not_in n L : n ∉ L -> forget n L = L.
Proof.
  intros Hn. unfold forget. induction L as [|m L IH]; [done|]. apply not_elem_of_cons in Hn as [Hm HL].
  rewrite filter_cons_True by done. by rewrite IH.
Qed.

Lemma forget_at n L i : NoDup L -> L !! i = Some n -> forget n L = delete i L.
Proof.
  unfold forget. intros Hnd. revert i. induction Hnd as [|m L Hm Hnd IH]; [done|]. intros [|i] Hi.
  - injection Hi as ->. rewrite filter_cons_False by (intros Hne; by apply Hne). by apply forget_not_in.
  - rewrite filter_cons_True; [simpl; f_equal; by apply IH|].
    intros ->. apply Hm. by eapply (list_elem_of_lookup_2 L i).
Qed.

Lemma forget_elem n m L : m ∈ forget n L <-> m <> n /\ m ∈ L.
Proof. unfold forget. by rewrite list_elem_of_filter. Qed.

Lemma forget_length n L : (length (forget n L) <= length L)%nat.
Proof. apply length_filter. Qed.

Lemma forget_nodup n L : NoDup L -> NoDup (forget n L).
Proof. apply NoDup_filter. Qed.

Lemma delete_Forall2 {A B} (R : A -> B -> Prop) xs ys i :
  Forall2 R xs ys -> Forall2 R (delete i xs) (delete i ys).
Proof. intros Hf. revert i. induction Hf; intros [|i]; simpl; try constructor; auto. Qed.

(** *** Evicting and inserting *)

Lemma crep_free c l a : crep c l -> a ∉ l -> crep (set_nodes (delete a (nodes c)) c) l.
Proof.
  intros Hc Ha. apply (crep_agree c); try done.
  - intros b Hb. apply lookup_delete_ne. set_solver.
  - intros b [x Hx]. cbn in Hx. apply lookup_delete_Some in Hx as [_ Hx]. apply (cr_fresh _ _ Hc). by exists x.
  - exact (cr_next_addr _ _ Hc).
Qed.

Lemma crep_evict c l : crep c l -> crep (evict c) l.
Proof. intros Hc. apply (crep_agree c); try done; [exact (cr_fresh _ _ Hc) | exact (cr_next_addr _ _ Hc)]. Qed.

Lemma wp_remove_back l a L n (Q : Z -> fs_state D -> Prop) s :
  listing s (l ++ [a]) (L ++ [n]) ->
  (forall c', listing (set_cache c' s) l L ->
     (forall b, b ∈ l -> payload_at c' b = payload_at (cache s) b) -> Q SUCCESS (set_cache c' s)) ->
  wp lru_cache_remove_back Q s.
Proof.
  intros Hl HQ. pose proof (ls_rep _ _ _ Hl) as Hc. pose proof (ls_caches _ _ _ Hl) as Hf.
  apply Forall2_app_inv in Hf as [Hf [[Ha Hn] _]%Forall2_cons]; [|apply Forall2_length in Hf; rewrite !length_app in Hf; simpl in Hf; lia].
  assert (Ht : tail (cache s) = a) by (rewrite (cr_tail _ _ Hc), last_snoc; done).
  apply wp_bind, wp_fetch. rewrite Ht. apply wp_bind.
  apply (wp_remove_at (length l) a (l ++ [a])); [done | by rewrite list_lookup_middle|].
  rewrite (delete_middle l [] a), app_nil_r. intros c1 Hc1 [Hp1 _] _.
  apply wp_bind, wp_on_cache.
  destruct (nodes c1 !! a) as [nd|] eqn:End.
  2: { specialize (Hp1 a). unfold payload_at in Hp1, Ha. by rewrite End, Ha in Hp1. }
  assert (Hd : n_dirty nd = false).
  { specialize (Hp1 a). unfold payload_at in Hp1, Ha. rewrite End, Ha in Hp1. by injection Hp1. }
  apply wp_bind, (wp_get_node _ nd); [done|]. rewrite Hd. apply wp_bind, wp_ret.
  apply wp_bind, wp_bind, (wp_get_node _ nd); [done|]. apply wp_on_cache, wp_ret.
  assert (Hal : a ∉ l). { pose proof (cr_nodup _ _ Hc) as Hnd. apply NoDup_app in Hnd as (_ & Hnd & _).
    intros Hin. by apply (Hnd a Hin), list_elem_of_here. }
  cbn [cache set_cache]. set (c' := set_nodes _ _).
  assert (Hp' : forall b, b ∈ l -> payload_at c' b = payload_at (cache s) b).
  { intros b Hb. rewrite <- Hp1. unfold payload_at, c'. cbn. by rewrite lookup_delete_ne by (by intros ->). }
  apply HQ; [|done]. eapply listing_step; [done | | | done | done].
  - apply crep_free; [by apply crep_evict | done].
  - pose proof (ls_nodup _ _ _ Hl) as Hnd. by apply NoDup_app in Hnd as [? _].
Qed.

(** A node that caches a block not in the list goes to the front. *)
Lemma wp_push_and_trim a n l L (Q : Z -> fs_state D -> Prop) s :
  listing s l L -> a ∉ l -> n ∉ L -> caches s a n -> (length L <= Z.to_nat MAX_SIZE)%nat ->
  (forall c' l', listing (set_cache c' s) (a :: l') (take (Z.to_nat MAX_SIZE) (n :: L)) ->
     caches (set_cache c' s) a n -> Q SUCCESS (set_cache c' s)) ->
  wp (push_and_trim a) Q s.
Proof.
  intros Hl Ha Hn Hca Hlen HQ. pose proof (ls_rep _ _ _ Hl) as Hc. pose proof (ls_caches _ _ _ Hl) as Hf.
  assert (Hlen' : length l = length L) by (by eapply Forall2_length).
  apply wp_bind, (wp_push_front a l); [done | done | |].
  { destruct Hca as [Hp _]. unfold payload_at in Hp. destruct (nodes (cache s) !! a); [by eexists | done]. }
  intros c1 Hc1 [Hp1 _] _.
  assert (Hl1 : listing (set_cache c1 s) (a :: l) (n :: L)).
  { eapply listing_step; [done | done | | by constructor | intros; apply Hp1].
    constructor; [done | apply Hl]. }
  apply wp_bind, wp_fetch. cbn [cache set_cache]. rewrite (cr_size _ _ Hc1). unfold MAX_SIZE in *.
  destruct (Z.ltb_spec 12 (Z.of_nat (length (a :: l)))) as [Hlt|Hge].
  - simpl length in Hlt. destruct (exists_last (l := l)) as (l0 & a0 & ->); [intros ->; simpl in *; lia|].
    destruct (exists_last (l := L)) as (L0 & n0 & ->); [intros ->; simpl in *; lia|]. rewrite length_app in Hlt, Hlen'. simpl in *.
    rewrite length_app in Hlen, Hlen'. simpl in *.
    apply (wp_remove_back (a :: l0) a0 (n :: L0) n0); [exact Hl1|]. intros c2 Hl2 Hp2.
    apply (HQ c2 l0).
    + rewrite (take_app_length' L0) by lia. exact Hl2.
    + pose proof (ls_caches _ _ _ Hl2) as Hf2. by apply Forall2_cons in Hf2 as [??].
  - apply wp_ret. apply (HQ c1 l).
    + rewrite take_ge by (simpl in *; lia). exact Hl1.
    + pose proof (ls_caches _ _ _ Hl1) as Hf1. by apply Forall2_cons in Hf1 as [??].
Qed.

(** *** The device *)

Lemma listing_frame s s' l L :
  listing s l L -> cache s' = cache s -> lay s' = lay s -> block_device_lock s' = false ->
  (forall n, fs_heap s' n = true) -> (forall n, n ∈ L -> fs_block s' n = fs_block s n) -> listing s' l L.
Proof.
  intros [Hc Hf Hnd Hl Hd Hh] Ec El Ed Eh Eb. constructor; try done; try congruence.
  apply (caches_agree s); [by rewrite Ec | done | done | done].
Qed.

Lemma listing_bound s l L n : listing s l L -> n ∈ L -> 0 <= n < fs_block_count (lay s).
Proof.
  intros Hl [i Hi]%list_elem_of_lookup. pose proof (ls_caches _ _ _ Hl) as Hf.
  destruct (Forall2_lookup_r _ _ _ _ _ Hf Hi) as (a & _ & _ & Hb). done.
Qed.

Lemma disk_block s n :
  layout_ok (lay s) -> 0 <= n < fs_block_count (lay s) ->
  to_u64 (fs_base_block (lay s) + n) = fs_base_block (lay s) + n.
Proof. intros (_ & _ & ? & ? & ?) ?. apply wrap_small. lia. Qed.

Lemma sector_all size data : Z.of_nat (length data) = size -> sector size data 0 = data.
Proof. intros Hl. unfold sector. rewrite Z.mul_0_l, drop_0, take_ge; [done | lia]. Qed.

(** The device's description does not change. *)
Definition same_info s s' : Prop := sdhci_block_get_info (dev s') = sdhci_block_get_info (dev s).

Lemma wp_block_read lba (Q : option (list Z) -> fs_state D -> Prop) s :
  block_device_lock s = false ->
  (forall r d', (forall n, contents d' n = contents (dev s) n) -> same_info s (set_dev d' s) ->
     match r with Some data => data = contents (dev s) lba | None => bad_sector lba end -> Q r (set_dev d' s)) ->
  wp (block_read lba 1) Q s.
Proof.
  intros Hd HQ. apply wp_bind, wp_spin_lock; [done|]. apply wp_bind, wp_lift.
  eapply wp_mono; [by apply read_law|]. intros r d' (Hn & Hi & Hr). apply wp_bind, wp_modify, wp_ret.
  assert (Hr' : match r with Some data => data = contents (dev s) lba | None => bad_sector lba end).
  { destruct r as [data|]; [|destruct Hr as (k & Hk & Hb); by replace lba with (lba + k) by lia]. destruct Hr as [Hl Hk]. specialize (Hk 0 ltac:(lia)).
    rewrite sector_all, Z.add_0_r in Hk by lia. done. }
  specialize (HQ r d' Hn Hi Hr'). destruct s; simpl in *. by subst.
Qed.

Lemma wp_block_writes lba count data (Q : bool -> fs_state D -> Prop) s :
  block_device_lock s = false -> 0 < count -> Z.of_nat (length data) = count * sector_size ->
  (forall (ok : bool) d', (forall n, n < lba \/ lba + count <= n -> contents d' n = contents (dev s) n) ->
     same_info s (set_dev d' s) ->
     (if ok then forall k, 0 <= k < count -> contents d' (lba + k) = sector sector_size data k
      else exists k, 0 <= k < count /\ bad_sector (lba + k)) ->
     Q ok (set_dev d' s)) ->
  wp (block_write lba count data) Q s.
Proof.
  intros Hd Hc Hlen HQ. apply wp_bind, wp_spin_lock; [done|]. apply wp_bind, wp_lift.
  eapply wp_mono; [by apply write_law|]. intros ok d' (Hn & Hi & Hr). apply wp_bind, wp_modify, wp_ret.
  specialize (HQ ok d' Hn Hi Hr). destruct s; simpl in *. by subst.
Qed.

Lemma wp_block_write lba data (Q : bool -> fs_state D -> Prop) s :
  block_device_lock s = false -> Z.of_nat (length data) = sector_size ->
  (forall (ok : bool) d', (forall n, n <> lba -> contents d' n = contents (dev s) n) -> same_info s (set_dev d' s) ->
     (if ok then contents d' lba = data else bad_sector lba) -> Q ok (set_dev d' s)) ->
  wp (block_write lba 1 data) Q s.
Proof.
  intros Hd Hlen HQ. apply wp_block_writes; [done | done | lia|]. intros ok d' Hn Hi Hr.
  apply HQ; [intros n Hne; apply Hn; lia | done|]. destruct ok.
  - specialize (Hr 0 ltac:(lia)). by rewrite Z.add_0_r, sector_all in Hr.
  - destruct Hr as (k & Hk & Hb). by replace lba with (lba + k) by lia.
Qed.

Lemma wp_read_block_data n (Q : Z + list Z -> fs_state D -> Prop) s :
  layout_ok (lay s) -> block_device_lock s = false -> 0 <= n ->
  (forall d', (forall m, contents d' m = contents (dev s) m) ->
     same_info s (set_dev d' s) -> (bad_block (lay s) n -> Q (inl FILE_READ_ERROR) (set_dev d' s)) /\
     (n < fs_block_count (lay s) -> Q (inr (fs_block s n)) (set_dev d' s))) ->
  wp (read_block_data n) Q s.
Proof.
  intros Hl Hd Hn HQ. apply wp_bind, wp_bind, wp_fetch, wp_ret.
  assert (Hs : bad_block (lay s) n -> Q (inl FILE_READ_ERROR) s)
    by (intros Hb; destruct (HQ (dev s)) as [Hq _]; [done | done | destruct s; by apply Hq]).
  destruct (Z.eqb_spec (fs_block_count (lay s)) 0); [apply wp_ret, Hs; left; lia|].
  destruct (Z.leb_spec (fs_block_count (lay s)) n); [apply wp_ret, Hs; by left|]. cbn [orb].
  apply wp_bind, wp_block_read; [done|]. intros r d' Hc Hi Hr. destruct (HQ d' Hc Hi) as [He Hok]. apply wp_ret.
  rewrite disk_block in Hr by (done || lia). destruct r as [data|]; [|apply He; by right]. subst data. apply Hok. lia.
Qed.

Lemma wp_write_block_data data n (Q : Z -> fs_state D -> Prop) s :
  layout_ok (lay s) -> block_device_lock s = false -> 0 <= n ->
  Z.of_nat (length data) = sector_size ->
  (forall d', (forall m, m <> fs_base_block (lay s) + n -> contents d' m = contents (dev s) m) ->
     same_info s (set_dev d' s) -> (bad_block (lay s) n -> Q FILE_WRITE_ERROR (set_dev d' s)) /\
     (n < fs_block_count (lay s) -> fs_block (set_dev d' s) n = data -> Q SUCCESS (set_dev d' s))) ->
  wp (write_block_data data n) Q s.
Proof.
  intros Hl Hd Hn Hlen HQ. apply wp_bind, wp_bind, wp_fetch, wp_ret.
  assert (Hs : bad_block (lay s) n -> Q FILE_WRITE_ERROR s)
    by (intros Hb; destruct (HQ (dev s)) as [Hq _]; [done | done | destruct s; by apply Hq]).
  destruct (Z.eqb_spec (fs_block_count (lay s)) 0); [apply wp_ret, Hs; left; lia|].
  destruct (Z.leb_spec (fs_block_count (lay s)) n); [apply wp_ret, Hs; by left|]. cbn [orb].
  rewrite disk_block by (done || lia).
  apply wp_bind, wp_block_write; [done | done|]. intros ok d' Hc Hi Hr. destruct (HQ d' Hc Hi) as [He Hok]. apply wp_ret.
  destruct ok; [apply Hok; [lia | done] | apply He; by right].
Qed.

(** *** Reading and writing through the cache *)

(** What the block cache never changes. *)
Definition frame s s' : Prop :=
  lay s' = lay s /\ fs_block_cache_lock s' = fs_block_cache_lock s /\ fs_bitmap_lock s' = fs_bitmap_lock s /\
  same_info s s'.

(** [s'] differs from [s] in the heap and in the contents of block [n] at most. *)
Definition others_same n s s' : Prop :=
  forall m, m <> fs_base_block (lay s) + n -> contents (dev s') m = contents (dev s) m.

Lemma others_same_block n s s' m :
  others_same n s s' -> lay s' = lay s -> m <> n -> fs_block s' m = fs_block s m.
Proof. intros Ho El Hm. unfold fs_block. rewrite El. apply Ho. lia. Qed.

(** A fresh node. *)
Lemma wp_new_node nd l L (Q : Z -> fs_state D -> Prop) s :
  listing s l L ->
  (forall c' a, listing (set_cache c' s) l L -> a ∉ l -> a <> 0 -> nodes c' !! a = Some nd ->
     Q a (set_cache c' s)) ->
  wp (new_node nd) Q s.
Proof.
  intros Hl HQ. pose proof (ls_rep _ _ _ Hl) as Hc. pose proof (cr_next_addr _ _ Hc).
  assert (Hnew : next_addr (cache s) ∉ l).
  { intros [i Hi]%list_elem_of_lookup. destruct (cr_node _ _ Hc i _ Hi) as (x & Ex & _).
    pose proof (cr_fresh _ _ Hc _ (ex_intro _ x Ex)). lia. }
  eexists _, _. split; [reflexivity|]. apply HQ; [|done | lia | apply lookup_insert_eq].
  assert (Hne : forall b, b ∈ l -> next_addr (cache s) <> b) by (by intros b Hb <-).
  eapply listing_step; [done | | apply Hl | apply Hl |].
  - apply (crep_agree (cache s)); try done; simpl.
    + intros b Hb. by rewrite lookup_insert_ne by auto.
    + intros b [x Hx]. apply lookup_insert_Some in Hx as [[<- _]|[_ Hx]]; [lia|].
      pose proof (cr_fresh _ _ Hc b (ex_intro _ x Hx)). lia.
    + lia.
  - intros b Hb. unfold payload_at. simpl. by rewrite lookup_insert_ne by auto.
Qed.

(** A change of a node that is not in the list. *)
Lemma listing_put s l L a nd :
  listing s l L -> a ∉ l -> is_Some (nodes (cache s) !! a) ->
  listing (set_cache (set_nodes (<[a := nd]> (nodes (cache s))) (cache s)) s) l L.
Proof.
  intros Hl Ha Hin. pose proof (ls_rep _ _ _ Hl) as Hc.
  assert (Hne : forall b, b ∈ l -> a <> b) by (by intros b Hb <-).
  eapply listing_step; [done | | apply Hl | apply Hl |].
  - apply (crep_agree (cache s)); try done; simpl.
    + intros b Hb. by rewrite lookup_insert_ne by auto.
    + intros b [x Hx]. apply (cr_fresh _ _ Hc). apply lookup_insert_Some in Hx as [[<- _]|[_ Hx]]; [done|by exists x].
    + exact (cr_next_addr _ _ Hc).
  - intros b Hb. unfold payload_at. simpl. by rewrite lookup_insert_ne by auto.
Qed.

(** The counters. *)
Lemma listing_count s f l L :
  (forall c, exists h m e,
     f c = mkCache (nodes c) (head c) (tail c) (size c) h m e (next_addr c)) ->
  listing s l L -> listing (set_cache (f (cache s)) s) l L.
Proof.
  intros Hf Hl. destruct (Hf (cache s)) as (h & m & e & ->). pose proof (ls_rep _ _ _ Hl) as Hc.
  eapply listing_step; [exact Hl | | apply Hl | apply Hl | done]. apply (crep_agree (cache s)); try done.
  - exact (cr_fresh _ _ Hc).
  - exact (cr_next_addr _ _ Hc).
Qed.

(** Taking the node of a cached block out of the list. *)
Lemma wp_take_out i a n l L (Q : unit -> fs_state D -> Prop) s :
  listing s l L -> l !! i = Some a -> L !! i = Some n ->
  (forall c' l', listing (set_cache c' s) l' (forget n L) -> a ∉ l' -> caches (set_cache c' s) a n ->
     Q tt (set_cache c' s)) ->
  wp (lru_cache_remove_node a) Q s.
Proof.
  intros Hl Ha Hn HQ. pose proof (ls_rep _ _ _ Hl) as Hc.
  apply (wp_remove_at i a l); [done | done|]. intros c' Hc' [Hp _] _.
  apply (HQ c' (delete i l)).
  - rewrite (forget_at _ _ i) by (done || apply (ls_nodup _ _ _ Hl)).
    eapply listing_step; [exact Hl | done | | by apply delete_Forall2, Hl | intros; apply Hp].
    eapply sublist_NoDup; [apply (ls_nodup _ _ _ Hl) | apply sublist_delete].
  - intros [j Hj]%list_elem_of_lookup. rewrite lookup_delete_list in Hj.
    pose proof (cr_nodup _ _ Hc) as Hnd.
    case_decide; pose proof (NoDup_lookup _ _ _ _ Hnd Ha Hj); lia.
  - pose proof (Forall2_lookup_lr _ _ _ i a n (ls_caches _ _ _ Hl) Ha Hn) as [Hpa Hb].
    split; [|done]. by rewrite <- Hp in Hpa.
Qed.

(** The outcomes of a use of the block [n] of a cache that lists [L]. *)
Definition read_post n L s (r : Z * Z) s' : Prop :=
  frame s s' /\ (forall m, contents (dev s') m = contents (dev s) m) /\
  ((fst r = SUCCESS /\ caches s' (snd r) n /\ exists l', listing s' l' (touch n L)) \/
   (fst r = FILE_READ_ERROR /\ (n ∉ L) /\ bad_block (lay s) n /\ exists l', listing s' l' L)).

Lemma wp_add_to_front n l L s :
  listing s l L -> (length L <= Z.to_nat MAX_SIZE)%nat -> 0 <= n ->
  wp (lru_cache_add_to_front n) (read_post n L s) s.
Proof.
  intros Hl Hlen Hn. unfold lru_cache_add_to_front.
  apply wp_bind, (wp_get_block n l L); [apply Hl | apply Hl | |].
  - intros HnL. cbn [negb Z.eqb]. apply wp_bind, wp_on_cache.
    assert (Hl1 : listing (set_cache (miss (cache s)) s) l L) by (apply (listing_count _ miss); [eauto | done]).
    set (s1 := set_cache _ s) in *. apply wp_bind, wp_fetch.
    destruct (ls_layout _ _ _ Hl1) as (Hbpb & Hbp & _).
    apply wp_bind, wp_kmalloc_granted; [done | apply Hl1|]. intros h1 Hh1. cbn [negb].
    apply wp_bind, wp_kmalloc_granted; [exact Hbp | done|]. intros h2 Hh2. cbn [negb].
    set (s2 := set_heap h2 _).
    assert (Hl2 : listing s2 l L) by (apply (listing_frame s1); done || apply Hl1).
    apply wp_bind, wp_read_block_data; [apply Hl2 | apply Hl2 | done|]. intros d' Hd' Hi'.
    assert (Hl3 : listing (set_dev d' s2) l L).
    { apply (listing_frame s2); try done; [apply Hl2 | intros m _; unfold fs_block; apply Hd']. }
    split.
    + intros Hbad. apply wp_ret. split; [done|]. split; [done|]. right. eauto.
    + intros Hnc. replace (bytes_per_block (lay s1)) with (Z.of_nat (length (fs_block s2 n)))
        by (unfold fs_block; rewrite contents_length; done).
      rewrite Z.eqb_refl. apply wp_bind, (wp_new_node _ l L); [done|]. intros c' a Hl4 Ha Ha0 Hnd.
      apply wp_bind, (wp_push_and_trim a n l L); [done | done | done | | done |].
      { split; [|done]. unfold payload_at. cbn [cache set_cache]. rewrite Hnd. simpl. unfold payload. simpl.
        do 3 f_equal. symmetry. apply Hd'. }
      intros c2 l' Hl5 Hca. apply wp_ret. split; [done|]. split; [done|]. left. split; [done|]. split; [done|].
      exists (a :: l'). unfold touch. by rewrite forget_not_in.
  - intros i a Ha HnL.
    pose proof (crep_nonzero _ _ i a (ls_rep _ _ _ Hl) Ha) as Ha0. rewrite (proj2 (Z.eqb_neq _ _) Ha0). cbn [negb].
    apply wp_bind, wp_on_cache.
    assert (Hl1 : listing (set_cache (hit (cache s)) s) l L) by (apply (listing_count _ hit); [eauto | done]).
    apply wp_bind, (wp_take_out i a n l L); [done | done | done|]. intros c' l' Hl2 Ha' Hca.
    apply wp_bind, (wp_push_and_trim a n l' (forget n L)); [done | done | | done | |].
    { by intros [? _]%forget_elem. }
    { pose proof (forget_length n L). lia. }
    intros c2 l2 Hl3 Hca2. apply wp_ret. split; [done|]. split; [done|]. left. eauto.
Qed.

(** The first half of [lru_cache_update_data] ends with a node for the block
    that is not in the list. *)
Definition detached n L s (a : Z) s1 : Prop :=
  frame s s1 /\ dev s1 = dev s /\ a <> 0 /\
  exists l1 nd, listing s1 l1 (forget n L) /\ (a ∉ l1) /\ nodes (cache s1) !! a = Some nd /\ n_block nd = n.

Definition write_post n data L s (err : Z) s' : Prop :=
  frame s s' /\ others_same n s s' /\
  ((err = SUCCESS /\ n < fs_block_count (lay s) /\
      fs_block s' n = take (Z.to_nat (bytes_per_block (lay s))) data /\ exists l', listing s' l' (touch n L)) \/
   (err = FILE_WRITE_ERROR /\ bad_block (lay s) n /\ exists l', listing s' l' (forget n L))).

(** The second half: the data goes to the node and to the device, and the
    node to the front of the list. *)
Lemma wp_store n data L a s s1 :
  detached n L s a s1 -> (length L <= Z.to_nat MAX_SIZE)%nat -> 0 <= n ->
  bytes_per_block (lay s) <= Z.of_nat (length data) ->
  wp (d ← block_of data;
      nd ← get_node a;
      _ ← put_node a (mkNode d (n_dirty nd) (n_block nd) (n_next nd) (n_prev nd));
      err_code ← write_block_data d n;
      if negb (err_code =? SUCCESS) then _ ← free_node a; mret err_code else
      nd ← get_node a;
      _ ← put_node a (mkNode (n_data nd) false (n_block nd) (n_next nd) (n_prev nd));
      push_and_trim a) (write_post n data L s) s1.
Proof.
  intros ((El & Ef1 & Ef2 & Ef3) & Ed & Ha0 & l1 & nd & Hl1 & Ha & Hnd & Hb) Hlen Hn Hdata.
  apply wp_bind, wp_bind, wp_fetch. rewrite El, (proj2 (Z.leb_le _ _) Hdata). apply wp_ret.
  set (d := take _ data). apply wp_bind, (wp_get_node _ nd); [done|].
  apply wp_bind, (wp_put_node _ _ nd); [done|]. rewrite Hb.
  set (nd2 := mkNode d _ _ _ _). pose proof (listing_put _ _ _ a nd2 Hl1 Ha (ex_intro _ nd Hnd)) as Hl2.
  set (s2 := set_cache _ s1) in *.
  assert (Hnd2 : nodes (cache s2) !! a = Some nd2) by apply lookup_insert_eq.
  destruct (ls_layout _ _ _ Hl2) as (Hbpb & Hbp & _). change (lay s2) with (lay s1) in *. rewrite El in Hbpb, Hbp.
  assert (Hd : Z.of_nat (length d) = sector_size) by (unfold d; rewrite length_take; lia).
  apply wp_bind, wp_write_block_data; [apply Hl2 | apply Hl2 | done | done|]. intros d' Hd' Hi'.
  assert (Ho : others_same n s (set_dev d' s2)).
  { intros m Hm. cbn [dev set_dev]. rewrite Hd'; [cbn; by rewrite Ed | cbn; by rewrite El]. }
  assert (Hfr : forall c', frame s (set_cache c' (set_dev d' s2))).
  { intros c'. split_and!; [exact El | exact Ef1 | exact Ef2 |]. unfold same_info in *. cbn in *. congruence. }
  assert (Hl3 : listing (set_dev d' s2) l1 (forget n L)).
  { apply (listing_frame s2); try done; [apply Hl2 | apply Hl2|].
    intros m [Hm _]%forget_elem. unfold fs_block. apply Hd'. cbn. lia. }
  split.
  - intros Hbad. cbn [negb Z.eqb FILE_WRITE_ERROR SUCCESS]. apply wp_bind, wp_bind, (wp_get_node _ nd2); [done|].
    apply wp_on_cache, wp_ret. split; [apply Hfr|]. split; [done|]. right. split; [done|].
    split; [by rewrite <- El|]. exists l1.
    eapply listing_step; [exact Hl3 | apply crep_free; [apply Hl3 | done] | apply (ls_nodup _ _ _ Hl3) | apply Hl3|].
    intros b Hbl. unfold payload_at. cbn. rewrite lookup_delete_ne; [done | by intros ->].
  - intros Hnc Hfb. cbn [negb Z.eqb SUCCESS]. apply wp_bind, (wp_get_node _ nd2); [done|].
    apply wp_bind, (wp_put_node _ _ nd2); [done|].
    set (nd3 := mkNode _ false _ _ _). pose proof (listing_put _ _ _ a nd3 Hl3 Ha (ex_intro _ nd2 Hnd2)) as Hl4.
    apply (wp_push_and_trim a n l1 (forget n L)); [done | done | | | |].
    + by intros [? _]%forget_elem.
    + split; [|done]. unfold payload_at. cbn [cache set_cache set_nodes nodes]. rewrite lookup_insert_eq.
      simpl. unfold payload. simpl. do 3 f_equal. symmetry. exact Hfb.
    + pose proof (forget_length n L). lia.
    + intros c' l' Hl5 _. split; [apply Hfr|]. split; [done|]. left. split; [done|]. split; [by rewrite <- El|].
      split; [exact Hfb | by exists (a :: l')].
Qed.

Lemma wp_update_data n data l L s :
  listing s l L -> (length L <= Z.to_nat MAX_SIZE)%nat -> 0 <= n ->
  bytes_per_block (lay s) <= Z.of_nat (length data) ->
  wp (lru_cache_update_data data n) (write_post n data L s) s.
Proof.
  intros Hl Hlen Hn Hdata. unfold lru_cache_update_data. apply wp_bind, wp_fetch.
  apply wp_bind, (wp_get_block n l L); [apply Hl | apply Hl | |].
  - intros HnL. cbn [negb Z.eqb]. apply wp_bind. apply (wp_mono _ (detached n L s)).
    + apply wp_bind, wp_on_cache.
      assert (Hl1 : listing (set_cache (miss (cache s)) s) l L) by (apply (listing_count _ miss); [eauto | done]).
      destruct (ls_layout _ _ _ Hl1) as (_ & Hbp & _).
      apply wp_bind, wp_kmalloc_granted; [done | apply Hl1|]. intros h1 Hh1. cbn [negb].
      apply wp_bind, wp_kmalloc_granted; [exact Hbp | done|]. intros h2 Hh2. cbn [negb].
      apply (wp_new_node _ l L).
      { apply (listing_frame (set_cache (miss (cache s)) s)); done || apply Hl1. }
      intros c' a Hl2 Ha Ha0 Hnd. split; [done|]. split; [done|]. split; [done|].
      exists l. eexists. rewrite forget_not_in by done. eauto.
    + intros a s1 Hdet. pose proof Hdet as (_ & _ & Ha0 & _). rewrite (proj2 (Z.eqb_neq _ _) Ha0).
      by apply wp_store.
  - intros i a Ha HnL. pose proof (crep_nonzero _ _ i a (ls_rep _ _ _ Hl) Ha) as Ha0.
    rewrite (proj2 (Z.eqb_neq _ _) Ha0). cbn [negb]. apply wp_bind. apply (wp_mono _ (detached n L s)).
    + apply wp_bind, wp_on_cache.
      assert (Hl1 : listing (set_cache (hit (cache s)) s) l L) by (apply (listing_count _ hit); [eauto | done]).
      apply wp_bind, (wp_take_out i a n l L); [done | done | done|]. intros c' l' Hl2 Ha' [Hp _]. apply wp_ret.
      split; [done|]. split; [done|]. split; [done|]. exists l'.
      unfold payload_at in Hp. destruct (nodes (cache (set_cache c' _)) !! a) as [nd|]; [|done].
      exists nd. injection Hp as ? _ _. eauto.
    + intros a' s1 Hdet. pose proof Hdet as (_ & _ & Ha0' & _). rewrite (proj2 (Z.eqb_neq _ _) Ha0').
      by apply wp_store.
Qed.

(** *** The block layer *)

Lemma read_block_spec n L s :
  cached s L -> 0 <= n ->
  wp (read_block n) (fun r s' =>
    frame s s' /\ (forall m, contents (dev s') m = contents (dev s) m) /\
    ((r = (SUCCESS, fs_block s n) /\ n < fs_block_count (lay s) /\ cached s' (touch n L)) \/
     (r = (FILE_READ_ERROR, []) /\ (n ∉ L) /\ bad_block (lay s) n /\ cached s' L))) s.
Proof.
  intros ([l Hl] & Hlen & Hlk) Hn. apply wp_bind, wp_spin_lock; [done|].
  assert (Hl1 : listing (set_cache_lock true s) l L) by (apply (listing_frame s); done || apply Hl).
  apply wp_bind. eapply wp_mono; [by apply (wp_add_to_front n l L)|].
  intros [err a] s' ((El & Ec & Eb & Ei) & Hd & [(Ee & [Hp Hb] & l' & Hl')|(Ee & HnL & Hbad & l' & Hl')]); simpl in Ee; subst err.
  - cbn [negb Z.eqb SUCCESS]. unfold payload_at in Hp. cbn [snd] in Hp. destruct (nodes (cache s') !! a) as [nd|] eqn:End; [|done].
    injection Hp as Hpb Hpd _. apply wp_bind, (wp_get_node _ nd); [done|]. apply wp_bind, wp_bind, wp_fetch.
    destruct (ls_layout _ _ _ Hl') as (Hbpb & _).
    assert (Hln : Z.of_nat (length (n_data nd)) = bytes_per_block (lay s')).
    { rewrite Hpd, Hbpb. unfold fs_block. apply contents_length. }
    rewrite Hln, Z.leb_refl, <- Hln, Nat2Z.id, firstn_all, Hpd.
    apply wp_ret. apply wp_bind, wp_modify, wp_ret.
    split; [by repeat split|]. split; [done|]. left. rewrite El in *. split_and!.
    + unfold fs_block. rewrite El, Hd. done.
    + apply Hb.
    + split; [exists l'; apply (listing_frame s'); done || apply Hl'|]. split; [|done].
      unfold touch. rewrite length_take. lia.
  - cbn [negb Z.eqb FILE_READ_ERROR]. apply wp_bind, wp_modify, wp_ret.
    split; [by repeat split|]. split; [done|]. right. split; [done|]. split; [done|]. split; [done|].
    split; [exists l'; apply (listing_frame s'); done || apply Hl' | done].
Qed.

Lemma write_block_spec n data L s :
  cached s L -> 0 <= n -> bytes_per_block (lay s) <= Z.of_nat (length data) ->
  wp (write_block data n) (fun err s' =>
    frame s s' /\ others_same n s s' /\
    ((err = SUCCESS /\ n < fs_block_count (lay s) /\
      fs_block s' n = take (Z.to_nat (bytes_per_block (lay s))) data /\ cached s' (touch n L)) \/
     (err = FILE_WRITE_ERROR /\ bad_block (lay s) n /\ cached s' (forget n L)))) s.
Proof.
  intros ([l Hl] & Hlen & Hlk) Hn Hdata. apply wp_bind, wp_spin_lock; [done|].
  assert (Hl1 : listing (set_cache_lock true s) l L) by (apply (listing_frame s); done || apply Hl).
  apply wp_bind. eapply wp_mono; [by apply (wp_update_data n data l L)|].
  intros err s' ((El & Ec & Eb & Ei) & Ho & Hr). apply wp_bind, wp_modify, wp_ret.
  split; [by repeat split|]. split; [done|].
  destruct Hr as [(-> & Hc & Hb & l' & Hl')|(-> & Hbad & l' & Hl')]; [left|right].
  - split; [done|]. split; [done|]. split; [done|]. split; [exists l'; apply (listing_frame s'); done || apply Hl'|].
    split; [unfold touch; rewrite length_take; lia | done].
  - split; [done|]. split; [done|]. split; [exists l'; apply (listing_frame s'); done || apply Hl'|].
    split; [pose proof (forget_length n L); lia | done].
Qed.

(** Emptying the cache: nothing is dirty, so nothing is written. *)
Lemma wp_empty fuel l L s :
  listing s l L -> (length L <= fuel)%nat ->
  wp (empty_loop fuel) (fun err s' => err = SUCCESS /\ exists c', s' = set_cache c' s /\ listing s' [] []) s.
Proof.
  revert l L s. induction fuel as [|fuel IH]; intros l L s Hl Hlen;
    pose proof (Forall2_length _ _ _ (ls_caches _ _ _ Hl)) as Hll.
  - destruct L, l; simpl in *; try lia. apply wp_bind, wp_fetch.
    rewrite (cr_tail _ _ (ls_rep _ _ _ Hl)). apply wp_ret. split; [done|].
    exists (cache s). split; [by destruct s | done].
  - apply wp_bind, wp_fetch. rewrite (cr_tail _ _ (ls_rep _ _ _ Hl)).
    destruct (decide (l = [])) as [->|Hne].
    + destruct L; [|done]. apply wp_ret. split; [done|]. exists (cache s). split; [by destruct s | done].
    + destruct (exists_last Hne) as (l0 & a & ->). rewrite length_app in Hll. simpl in Hll.
      destruct (exists_last (l := L)) as (L0 & n & ->); [intros ->; simpl in *; lia|]. rewrite length_app in Hlen.
      simpl in Hlen. rewrite last_snoc. simpl.
      assert (a <> 0) as Ha.
      { apply (crep_nonzero _ _ (length l0) a (ls_rep _ _ _ Hl)). by rewrite list_lookup_middle. }
      rewrite (proj2 (Z.eqb_neq _ _) Ha). apply wp_bind, (wp_remove_back l0 a L0 n); [done|].
      intros c' Hl' _. cbn [negb Z.eqb SUCCESS].
      eapply wp_mono; [apply (IH l0 L0); [done | lia]|].
      intros err s' (-> & c2 & -> & Hl2). split; [done|]. by exists c2.
Qed.

Lemma lru_cache_empty_spec L s :
  cached s L ->
  wp lru_cache_empty (fun err s' => err = SUCCESS /\ cached s' [] /\ lay s' = lay s /\ dev s' = dev s) s.
Proof.
  intros ([l Hl] & Hlen & Hlk). apply wp_bind, wp_fetch.
  rewrite (cr_size _ _ (ls_rep _ _ _ Hl)), Nat2Z.id, (Forall2_length _ _ _ (ls_caches _ _ _ Hl)).
  eapply wp_mono; [by apply (wp_empty _ l L)|]. intros err s' (-> & c' & -> & Hl'). split; [done|].
  split; [|done]. split; [by exists []|]. split; [simpl; lia | done].
Qed.

(** *** Runs

    A client's calls, and what it sees of them. *)

Inductive block_op :=
| ReadBlock (n : Z)
| WriteBlock (n : Z) (data : list Z)
| FlushBlocks.

Inductive block_event :=
| DidRead (n : Z) (err : Z) (data : list Z)
| DidWrite (n : Z) (data : list Z) (err : Z)
| DidFlush (err : Z).

Definition run_block_op (o : block_op) : stM (fs_state D) block_event :=
  match o with
  | ReadBlock n => '(err, data) ← read_block n; mret (DidRead n err data)
  | WriteBlock n data => err ← write_block data n; mret (DidWrite n data err)
  | FlushBlocks => err ← lru_cache_empty; mret (DidFlush err)
  end.

Fixpoint run_block_ops (os : list block_op) : stM (fs_state D) (list block_event) :=
  match os with
  | [] => mret []
  | o :: os => e ← run_block_op o; es ← run_block_ops os; mret (e :: es)
  end.

Definition op_of (e : block_event) : block_op :=
  match e with
  | DidRead n _ _ => ReadBlock n
  | DidWrite n data _ => WriteBlock n data
  | DidFlush _ => FlushBlocks
  end.

(** The list of a least-recently-used cache after an event. *)
Definition lru_step L (e : block_event) : list Z :=
  match e with
  | DidRead n err _ => if err =? SUCCESS then touch n L else L
  | DidWrite n _ err => if err =? SUCCESS then touch n L else forget n L
  | DidFlush _ => []
  end.

(** The abstract disk: what a client knows a block to hold.  After a failed
    write it knows nothing about that block until it has read it. *)
Definition known := Z -> option (list Z).

Definition learn (n : Z) (o : option (list Z)) (k : known) : known := fun m => if m =? n then o else k m.

Definition know_step (l : fs_layout) (k : known) (e : block_event) : known :=
  match e with
  | DidRead n err data => if err =? SUCCESS then learn n (Some data) k else k
  | DidWrite n data err => learn n (if err =? SUCCESS then Some (take (Z.to_nat (bytes_per_block l)) data) else None) k
  | DidFlush _ => k
  end.

(** Reads return what is known, and fail only for blocks that are not cached
    and cannot be read; writes fail only for blocks that cannot be written. *)
Definition event_ok (l : fs_layout) (k : known) L (e : block_event) : Prop :=
  match e with
  | DidRead n err data =>
      (err = SUCCESS /\ forall d, k n = Some d -> data = d) \/ (err = FILE_READ_ERROR /\ (n ∉ L) /\ bad_block l n)
  | DidWrite n _ err => err = SUCCESS \/ (err = FILE_WRITE_ERROR /\ bad_block l n)
  | DidFlush err => err = SUCCESS
  end.

Fixpoint events_ok (l : fs_layout) (k : known) L (es : list block_event) : Prop :=
  match es with
  | [] => True
  | e :: es => event_ok l k L e /\ events_ok l (know_step l k e) (lru_step L e) es
  end.

Definition op_ok (bpb : Z) (o : block_op) : Prop :=
  match o with
  | ReadBlock n => 0 <= n
  | WriteBlock n data => 0 <= n /\ bpb <= Z.of_nat (length data)
  | FlushBlocks => True
  end.

(** What is known is on the device. *)
Definition knows s (k : known) : Prop := forall n d, k n = Some d -> fs_block s n = d.

Lemma block_op_ok o L k s :
  cached s L -> knows s k -> op_ok (bytes_per_block (lay s)) o ->
  wp (run_block_op o) (fun e s' =>
    op_of e = o /\ lay s' = lay s /\ event_ok (lay s) k L e /\ cached s' (lru_step L e) /\
    knows s' (know_step (lay s) k e)) s.
Proof.
  intros Hc Hk Ho. destruct o as [n|n data|]; simpl in Ho |- *.
  - apply wp_bind. eapply wp_mono; [by apply (read_block_spec n L)|].
    intros [err data] s' ((El & _) & Hd & [(E & Hn & Hc')|(E & Hn & Hbad & Hc')]); apply pair_eq in E as [-> ->];
      apply wp_ret; simpl; split_and!; try done.
    + left. split; [done|]. intros d Hkn. by apply Hk.
    + intros m d. unfold learn. destruct (Z.eqb_spec m n) as [->|].
      * intros [= <-]. unfold fs_block. by rewrite El, Hd.
      * intros Hm. unfold fs_block. rewrite El, Hd. by apply Hk.
    + by right.
    + intros m d Hm. unfold fs_block. rewrite El, Hd. by apply Hk.
  - destruct Ho as [Hn Hdata]. apply wp_bind. eapply wp_mono; [by apply (write_block_spec n data L)|].
    intros err s' ((El & _) & Hoth & Hr). apply wp_ret. simpl.
    assert (Hkn : forall m d, m <> n -> k m = Some d -> fs_block s' m = d).
    { intros m d Hm Hmd. rewrite (others_same_block n s s' m) by done. by apply Hk. }
    destruct Hr as [(-> & _ & Hb & Hc')|(-> & Hbad & Hc')]; split_and!; try done; simpl; auto;
      intros m d; unfold learn; destruct (Z.eqb_spec m n) as [->|]; eauto; [|done].
    intros [= <-]. done.
  - apply wp_bind. eapply wp_mono; [by apply (lru_cache_empty_spec L)|].
    intros err s' (-> & Hc' & El & Ed). apply wp_ret. split_and!; try done.
    intros m d Hm. unfold fs_block. rewrite El, Ed. by apply Hk.
Qed.

Lemma block_run_ok os L k s :
  cached s L -> knows s k -> Forall (op_ok (bytes_per_block (lay s))) os ->
  wp (run_block_ops os) (fun es s' =>
    map op_of es = os /\ events_ok (lay s) k L es /\
    cached s' (fold_left lru_step es L) /\
    knows s' (fold_left (know_step (lay s)) es k)) s.
Proof.
  intros Hc Hk Ho. revert L k s Hc Hk Ho.
  induction os as [|o os IH]; intros L k s Hc Hk Ho; [by apply wp_ret|]. apply Forall_cons in Ho as [Ho Hos].
  apply wp_bind. eapply wp_mono; [by apply (block_op_ok o L k)|].
  intros e s1 (<- & El & He & Hc1 & Hk1). apply wp_bind. rewrite <- El in Hos, He, Hk1 |- *.
  eapply wp_mono; [by apply (IH (lru_step L e) (know_step (lay s1) k e))|].
  intros es s2 (<- & Hes & Hc2 & Hk2). by apply wp_ret.
Qed.

End coherence.

(** ** A device in memory *)

Abbreviation ram := (gmap Z (list Z)).

Definition ram_sector (d : ram) (lba : Z) : list Z := resize 512 0 (default [] (d !! lba)).

Fixpoint ram_read (count : nat) (d : ram) (lba : Z) : list Z :=
  match count with O => [] | S count => ram_sector d lba ++ ram_read count d (lba + 1) end.

Fixpoint ram_write (count : nat) (d : ram) (lba : Z) (data : list Z) : ram :=
  match count with
  | O => d
  | S count => ram_write count (<[lba := take 512 data]> d) (lba + 1) (drop 512 data)
  end.

#[export] Instance ram_device : BlockDevice ram := {|
  sdhci_block_read lba count := fun d => Ok (Some (ram_read (Z.to_nat count) d lba), d);
  sdhci_block_write lba count data := fun d => Ok (true, ram_write (Z.to_nat count) d lba data);
  sdhci_block_get_info _ := Some (200, 512)
|}.

Lemma ram_sector_length d lba : length (ram_sector d lba) = 512%nat.
Proof. apply length_resize. Qed.

Lemma ram_read_length count d lba : length (ram_read count d lba) = (count * 512)%nat.
Proof.
  revert lba. induction count as [|count IH]; intros lba; simpl; [done|].
  rewrite length_app, ram_sector_length, IH. lia.
Qed.

Lemma sector_step data k : 0 < k -> sector 512 data k = sector 512 (drop 512 data) (k - 1).
Proof. intros Hk. unfold sector. rewrite drop_drop. do 2 f_equal. lia. Qed.

Lemma ram_read_sector count d lba k :
  0 <= k < Z.of_nat count -> sector 512 (ram_read count d lba) k = ram_sector d (lba + k).
Proof.
  revert lba k. induction count as [|count IH]; intros lba k Hk; [lia|].
  cbn [ram_read]. destruct (decide (k = 0)) as [->|].
  - unfold sector. rewrite Z.mul_0_l, drop_0, take_app_length' by (by rewrite ram_sector_length). by rewrite Z.add_0_r.
  - rewrite sector_step by lia. rewrite drop_app_length' by (by rewrite ram_sector_length).
    rewrite IH by lia. f_equal. lia.
Qed.

Lemma ram_write_other count d lba data n :
  n < lba \/ lba + Z.of_nat count <= n -> ram_sector (ram_write count d lba data) n = ram_sector d n.
Proof.
  revert d lba data. induction count as [|count IH]; intros d lba data Hn; [done|].
  cbn [ram_write]. rewrite IH by lia. unfold ram_sector. by rewrite lookup_insert_ne by lia.
Qed.

Lemma ram_write_sector count d lba data k :
  length data = (count * 512)%nat -> 0 <= k < Z.of_nat count ->
  ram_sector (ram_write count d lba data) (lba + k) = sector 512 data k.
Proof.
  revert d lba data k. induction count as [|count IH]; intros d lba data k Hlen Hk; [lia|].
  cbn [ram_write]. destruct (decide (k = 0)) as [->|].
  - rewrite ram_write_other by lia. unfold ram_sector. rewrite Z.add_0_r, lookup_insert_eq. simpl.
    unfold sector. rewrite Z.mul_0_l, drop_0. apply resize_all_alt. rewrite length_take. lia.
  - rewrite sector_step by lia. replace (lba + k) with (lba + 1 + (k - 1)) by lia.
    apply IH; [rewrite length_drop|]; lia.
Qed.

#[export] Instance ram_laws : DeviceLaws ram.
Proof.
  refine {| sector_size := 512; contents := ram_sector; bad_sector _ := False |}.
  - intros d lba. by rewrite ram_sector_length.
  - intros d n size [= <- <-]. done.
  - intros d lba count Hc. eexists _, _. split; [reflexivity|]. split; [done|]. split; [done|].
    split; [rewrite ram_read_length; lia|]. intros k Hk. apply ram_read_sector. lia.
  - intros d lba count data Hc Hlen. eexists _, _. split; [reflexivity|]. split_and!; [|done|].
    + intros n Hn. apply ram_write_other. lia.
    + intros k Hk. apply ram_write_sector; lia.
Defined.

(** A file system of 64 blocks at sector 100, with an empty cache. *)
Definition ram_fs : fs_state ram :=
  mkFS (mkLayout 512 2 100 64 64 1 1 2 1 3 8) (mkCache ∅ 0 0 0 0 0 0 1) false false false (fun _ => true) ∅.

Lemma ram_fs_cached : cached ram_fs [].
Proof.
  split; [|split; [simpl; lia | done]]. exists []. constructor; try done.
  - constructor; try done; [constructor|]. by intros a [x Hx].
  - constructor.
Qed.

(** ** Properties *)

(** C24. The block cache is coherent and replaces the least recently used
    block.  For every sequence of [read_block], [write_block] and
    [lru_cache_empty] calls on a device that obeys the laws of [DeviceLaws]:
    all of them return, no lock is left held; a successful read gives the data
    of the last successful write to that block, or what the device held at the
    start, whatever happened in between to other blocks; a read fails only for
    a block that is not cached and lies on a bad sector or outside the file
    system, a write only for the latter reasons; and the cache holds, in order of use, the
    (at most 12) most recently used blocks. *)
Theorem block_cache_coherent {D} `{DeviceLaws D} (os : list block_op) (L : list Z) (k : known) (s : fs_state D) :
  cached s L -> knows s k -> Forall (op_ok (bytes_per_block (lay s))) os ->
  wp (run_block_ops os) (fun es s' =>
    map op_of es = os /\ events_ok (lay s) k L es /\
    cached s' (fold_left lru_step es L) /\
    knows s' (fold_left (know_step (lay s)) es k)) s.
Proof. apply block_run_ok. Qed.

Lemma block_cache_coherent_witness :
  let os := [WriteBlock 5 (replicate 512 7); ReadBlock 5; FlushBlocks; ReadBlock 5; ReadBlock 64] in
  cached ram_fs [] /\
  wp (run_block_ops os) (fun es s' =>
    map op_of es = os /\ events_ok (lay ram_fs) (fun _ => None) [] es /\
    cached s' (fold_left lru_step es []) /\ knows s' (fold_left (know_step (lay ram_fs)) es (fun _ => None))) ram_fs.
Proof.
  intros os. split; [exact ram_fs_cached|].
  apply (block_cache_coherent os [] (fun _ => None) ram_fs); [exact ram_fs_cached | done |].
  unfold os. repeat constructor; simpl; lia.
Defined.

(** [lru_cache_add_to_front] uses the results of its [kmalloc] calls
    without a test: reading a block that is not cached when the heap has
    nothing left to give is undefined behaviour, with the cache lock held. *)
Theorem read_block_unchecked_alloc {D} `{DeviceLaws D} (n : Z) (L : list Z) (s : fs_state D) h :
  cached s L -> n ∉ L -> h 0%nat = false -> read_block n (set_heap h s) = Fault.
Proof.
  intros ([l Hl] & _ & Hlk) Hn Hh. unfold read_block.
  erewrite bind_ok by (unfold spin_lock; simpl; rewrite Hlk; reflexivity).
  apply bind_fault. unfold lru_cache_add_to_front. set (s1 := set_cache_lock true _).
  destruct (wp_get_block n l L (fun a s' => a = 0 /\ s' = s1) s1) as (a & s' & E & -> & ->); [apply Hl | | done | |].
  - apply (caches_agree s); try done. apply Hl.
  - intros i a _ HL. by apply list_elem_of_lookup_2 in HL.
  - rewrite (bind_ok _ _ _ _ _ E). cbn [negb Z.eqb]. unfold mbind, stM_bind, on_cache, modify, fetch, kmalloc, granted.
    simpl. rewrite Hh. done.
Qed.

Lemma read_block_unchecked_alloc_witness :
  read_block 3 (set_heap (fun _ => false) ram_fs) = Fault.
Proof.
  apply (read_block_unchecked_alloc 3 [] ram_fs); [exact ram_fs_cached | apply not_elem_of_nil | done].
Defined.
