(* ===== verification/Bitmap.v ===== *)
(** * Allocation bitmaps

    The bitmap routines of kernel/fs/disk.c, over [read_block] and
    [write_block] of BlockCache.v.  Bit [i] of a bitmap that starts at block
    [start] is bit [7 - i mod 8] of byte [i / 8] of the bitmap's bytes. *)

From S2P Require Import Prelude Errors Bytes Services BlockCache.

Section bitmap.
Context {D : Type} `{BlockDevice D}.
Implicit Types (s : fs_state D).

Abbreviation FS := (stM (fs_state D)).

Definition bits_per_block (l : fs_layout) : Z := to_u32 (to_u32 (bytes_per_block l) * 8).

(** [(unsigned char)(1u << (7u - index))] *)
Definition bit_mask (index : Z) : Z := to_u8 (Z.shiftl 1 (7 - index)).

Definition set_bit_in_bitmap_range (bitmap_start bitmap_blocks valid_bits bit_idx : Z) (set_bit : bool) : FS Z :=
  if (bitmap_blocks =? 0) || (valid_bits <=? bit_idx) then mret INVALID_ARGS else
  l ← fetch lay;
  let bits_per_block := bits_per_block l in
  if bits_per_block =? 0 then fault else
  let bitmap_block_idx := bit_idx / bits_per_block in
  if bitmap_blocks <=? bitmap_block_idx then mret INVALID_ARGS else
  _ ← spin_lock fs_bitmap_lock set_bitmap_lock;
  ok ← kmalloc (bytes_per_block l);
  if negb (ok : bool) then _ ← spin_unlock set_bitmap_lock; mret FILE_READ_ERROR else
  '(err, data) ← read_block (to_u32 (bitmap_start + bitmap_block_idx));
  if negb (err =? SUCCESS) then _ ← spin_unlock set_bitmap_lock; mret err else
  let bit_in_block := bit_idx mod bits_per_block in
  let mask := bit_mask (bit_in_block mod 8) in
  b ← get_byte data (bit_in_block / 8);
  let b' := if set_bit then Z.lor b mask else Z.land b (to_u8 (Z.lnot mask)) in
  err ← write_block (put_byte data (bit_in_block / 8) b') (to_u32 (bitmap_start + bitmap_block_idx));
  _ ← spin_unlock set_bitmap_lock;
  mret err.

(** The inner loop over the bits of a byte: [n] bits from [index] on. *)
Fixpoint scan_byte (n : nat) (index byte index_byte valid_bits_in_block : Z) : option Z :=
  match n with
  | O => None
  | S n =>
      if valid_bits_in_block <=? index_byte * 8 + index then None
      else if Z.land byte (bit_mask index) =? 0 then Some index
      else scan_byte n (index + 1) byte index_byte valid_bits_in_block
  end.

(** The loop over the bytes of a block: the byte and the bit found. *)
Fixpoint scan_bytes (n : nat) (index_byte : Z) (bitmap : list Z) (valid_bits_in_block : Z) : FS (option (Z * Z)) :=
  match n with
  | O => mret None
  | S n =>
      byte ← get_byte bitmap index_byte;
      if byte =? 0xFF then scan_bytes n (index_byte + 1) bitmap valid_bits_in_block
      else
        match scan_byte 8 0 byte index_byte valid_bits_in_block with
        | Some index => mret (Some (index_byte, index))
        | None => scan_bytes n (index_byte + 1) bitmap valid_bits_in_block
        end
  end.

(** The loop over the blocks; the lock is released on every way out. *)
Fixpoint scan_bitmap (n : nat) (bitmap_block_idx bits_per_block bitmap_start valid_bits : Z)
    (update_taken : bool) : FS (Z * option Z) :=
  match n with
  | O => _ ← spin_unlock set_bitmap_lock; mret (NO_FREE_BLOCKS, None)
  | S n =>
      '(err_read, bitmap) ← read_block (to_u32 (bitmap_start + bitmap_block_idx));
      if negb (err_read =? SUCCESS) then _ ← spin_unlock set_bitmap_lock; mret (err_read, None) else
      let first_bit := to_u32 (bitmap_block_idx * bits_per_block) in
      let valid_bits_in_block := if first_bit <? valid_bits then valid_bits - first_bit else 0 in
      let valid_bits_in_block :=
        if bits_per_block <? valid_bits_in_block then bits_per_block else valid_bits_in_block in
      let valid_bytes := to_u32 (valid_bits_in_block + 7) / 8 in
      found ← scan_bytes (Z.to_nat valid_bytes) 0 bitmap valid_bits_in_block;
      match found with
      | None => scan_bitmap n (bitmap_block_idx + 1) bits_per_block bitmap_start valid_bits update_taken
      | Some (index_byte, index) =>
          let free_block := to_u32 (first_bit + (index_byte * 8 + index)) in
          if update_taken then
            byte ← get_byte bitmap index_byte;
            err_code ← write_block (put_byte bitmap index_byte (Z.lor byte (bit_mask index)))
                         (to_u32 (bitmap_start + bitmap_block_idx));
            _ ← spin_unlock set_bitmap_lock;
            mret (if negb (err_code =? SUCCESS) then (err_code, None) else (SUCCESS, Some free_block))
          else
            _ ← spin_unlock set_bitmap_lock;
            mret (SUCCESS, Some free_block)
      end
  end.

(** The error code and [*free_block], when it is set.  [has_out] is
    [free_block != NULL]. *)
Definition find_free_from_bitmap_range (has_out : bool) (bitmap_start bitmap_blocks valid_bits : Z)
    (update_taken : bool) : FS (Z * option Z) :=
  if negb has_out || (bitmap_blocks =? 0) || (valid_bits =? 0) then mret (INVALID_ARGS, None) else
  l ← fetch lay;
  _ ← spin_lock fs_bitmap_lock set_bitmap_lock;
  ok ← kmalloc (bytes_per_block l);
  if negb (ok : bool) then _ ← spin_unlock set_bitmap_lock; mret (FILE_READ_ERROR, None) else
  scan_bitmap (Z.to_nat bitmap_blocks) 0 (bits_per_block l) bitmap_start valid_bits update_taken.

Definition find_free_from_bitmap (has_out : bool) (block_with_bitmap : Z) (update_taken : bool) : FS (Z * option Z) :=
  l ← fetch lay;
  find_free_from_bitmap_range has_out block_with_bitmap 1 (bits_per_block l) update_taken.

(** [toggle_in_bitmap_data] *)
Definition toggle_in_bitmap_data (data : list Z) (idx : Z) : FS (list Z) :=
  b ← get_byte data (idx / 8);
  mret (put_byte data (idx / 8) (to_u8 (Z.lxor b (Z.shiftl 1 (7 - idx mod 8))))).

End bitmap.

(** ** Bits *)

Definition data_bit (data : list Z) (i : Z) : bool :=
  Z.testbit (default 0 (data !! Z.to_nat (i / 8))) (7 - i mod 8).

Lemma bit_mask_pow index : 0 <= index < 8 -> bit_mask index = 2 ^ (7 - index).
Proof.
  intros Hi. unfold bit_mask, to_u8. rewrite Z.shiftl_1_l. apply wrap_small.
  split; [lia|]. apply Z.pow_lt_mono_r; lia.
Qed.

Lemma land_mask_zero b k : 0 <= k -> (Z.land b (2 ^ k) =? 0) = negb (Z.testbit b k).
Proof.
  intros Hk. destruct (Z.testbit b k) eqn:E; simpl.
  - apply Z.eqb_neq. intros H0. apply (f_equal (fun x => Z.testbit x k)) in H0.
    by rewrite Z.land_spec, E, Z.pow2_bits_true, Z.bits_0 in H0.
  - apply Z.eqb_eq, Z.bits_inj'. intros n Hn. rewrite Z.land_spec, Z.bits_0.
    destruct (decide (n = k)) as [->|]; [by rewrite E|]. by rewrite Z.pow2_bits_false, andb_false_r.
Qed.

Lemma ff_bits j : 0 <= j < 8 -> Z.testbit 0xFF (7 - j) = true.
Proof. intros Hj. change 255 with (Z.ones 8). apply Z.ones_spec_low. lia. Qed.

Lemma lor_mask_bit b k j : 0 <= k < 8 -> 0 <= j < 8 ->
  Z.testbit (Z.lor b (bit_mask k)) (7 - j) = Z.testbit b (7 - j) || (j =? k).
Proof.
  intros Hk Hj. rewrite bit_mask_pow, Z.lor_spec by lia. f_equal.
  destruct (Z.eqb_spec j k) as [->|]; [apply Z.pow2_bits_true | apply Z.pow2_bits_false]; lia.
Qed.

Lemma clear_mask_bit b k j : 0 <= k < 8 -> 0 <= j < 8 ->
  Z.testbit (Z.land b (to_u8 (Z.lnot (bit_mask k)))) (7 - j) = Z.testbit b (7 - j) && negb (j =? k).
Proof.
  intros Hk Hj. rewrite bit_mask_pow, Z.land_spec by lia. f_equal. unfold to_u8, wrap.
  rewrite Z.mod_pow2_bits_low, Z.lnot_spec by lia. f_equal.
  destruct (Z.eqb_spec j k) as [->|]; [apply Z.pow2_bits_true | apply Z.pow2_bits_false]; lia.
Qed.

(** Writing the byte of bit [i] so that only bit [i] changes. *)
Lemma put_byte_bit data i (f : bool -> bool) b' j :
  0 <= i -> 0 <= j -> (Z.to_nat (i / 8) < length data)%nat ->
  (forall k, 0 <= k < 8 ->
     Z.testbit b' (7 - k) = if k =? i mod 8 then f (Z.testbit (default 0 (data !! Z.to_nat (i / 8))) (7 - k))
                            else Z.testbit (default 0 (data !! Z.to_nat (i / 8))) (7 - k)) ->
  data_bit (put_byte data (i / 8) b') j = if j =? i then f (data_bit data i) else data_bit data j.
Proof.
  intros Hi Hj Hlen Hb. pose proof (Z.mod_pos_bound j 8 ltac:(lia)). pose proof (Z.mod_pos_bound i 8 ltac:(lia)).
  unfold data_bit, put_byte. destruct (decide (i / 8 = j / 8)) as [E|Hne].
  - rewrite <- E, list_lookup_insert_eq by done. simpl. rewrite Hb by lia.
    pose proof (Z.div_mod i 8 ltac:(lia)). pose proof (Z.div_mod j 8 ltac:(lia)).
    destruct (Z.eqb_spec (j mod 8) (i mod 8)) as [Em|], (Z.eqb_spec j i) as [->|]; done || lia.
  - pose proof (Z.div_pos i 8 ltac:(lia) ltac:(lia)). pose proof (Z.div_pos j 8 ltac:(lia) ltac:(lia)).
    rewrite list_lookup_insert_ne by lia. destruct (Z.eqb_spec j i) as [->|]; done.
Qed.

Lemma set_data_bit data i j :
  0 <= i -> 0 <= j -> (Z.to_nat (i / 8) < length data)%nat ->
  data_bit (put_byte data (i / 8) (Z.lor (default 0 (data !! Z.to_nat (i / 8))) (bit_mask (i mod 8)))) j
  = data_bit data j || (j =? i).
Proof.
  intros Hi Hj Hlen. pose proof (Z.mod_pos_bound i 8 ltac:(lia)).
  rewrite (put_byte_bit data i (fun _ => true)); [| done | done | done |].
  - destruct (Z.eqb_spec j i) as [->|]; [by rewrite orb_true_r | by rewrite orb_false_r].
  - intros k Hk. rewrite lor_mask_bit by lia. destruct (k =? i mod 8); [by rewrite orb_true_r | by rewrite orb_false_r].
Qed.

Lemma clear_data_bit data i j :
  0 <= i -> 0 <= j -> (Z.to_nat (i / 8) < length data)%nat ->
  data_bit (put_byte data (i / 8)
    (Z.land (default 0 (data !! Z.to_nat (i / 8))) (to_u8 (Z.lnot (bit_mask (i mod 8)))))) j
  = data_bit data j && negb (j =? i).
Proof.
  intros Hi Hj Hlen. pose proof (Z.mod_pos_bound i 8 ltac:(lia)).
  rewrite (put_byte_bit data i (fun _ => false)); [| done | done | done |].
  - destruct (Z.eqb_spec j i) as [->|]; simpl; [by rewrite andb_false_r | by rewrite andb_true_r].
  - intros k Hk. rewrite clear_mask_bit by lia.
    destruct (k =? i mod 8); simpl; [by rewrite andb_false_r | by rewrite andb_true_r].
Qed.

(** ** The scans *)

Lemma scan_byte_spec n index byte ib valid :
  0 <= index -> index + Z.of_nat n = 8 ->
  match scan_byte n index byte ib valid with
  | Some k => index <= k < 8 /\ ib * 8 + k < valid /\ Z.testbit byte (7 - k) = false /\
      forall j, index <= j < k -> Z.testbit byte (7 - j) = true
  | None => forall j, index <= j < 8 -> ib * 8 + j < valid -> Z.testbit byte (7 - j) = true
  end.
Proof.
  revert index. induction n as [|n IH]; intros index Hi Hn; simpl; [lia|].
  destruct (Z.leb_spec valid (ib * 8 + index)); [lia|].
  rewrite bit_mask_pow, land_mask_zero by lia. destruct (Z.testbit byte (7 - index)) eqn:E; simpl.
  - specialize (IH (index + 1) ltac:(lia) ltac:(lia)). destruct (scan_byte n _ byte ib valid) as [k|].
    + destruct IH as (H1 & H2 & H3 & H4). split_and!; try lia; try done. intros j Hj.
      destruct (decide (j = index)) as [->|]; [done | apply H4; lia].
    + intros j Hj Hv. destruct (decide (j = index)) as [->|]; [done | apply IH; lia].
  - split_and!; try lia; try done.
Qed.

Section theory.
Context {D : Type} `{DeviceLaws D}.
Implicit Types (s : fs_state D).

Lemma data_bit_byte data i k :
  0 <= k < 8 -> data_bit data (i * 8 + k) = Z.testbit (default 0 (data !! Z.to_nat i)) (7 - k).
Proof.
  intros Hk. unfold data_bit. rewrite Z.div_add_l, Z.div_small, Z.add_0_r by lia.
  by rewrite Z.add_comm, Z.mod_add, Z.mod_small by lia.
Qed.

Lemma wp_scan_bytes n ib data valid (Q : option (Z * Z) -> fs_state D -> Prop) s :
  0 <= ib -> ib + Z.of_nat n <= Z.of_nat (length data) ->
  (forall i k, ib <= i < ib + Z.of_nat n -> 0 <= k < 8 -> i * 8 + k < valid ->
     data_bit data (i * 8 + k) = false ->
     (forall j, ib * 8 <= j < i * 8 + k -> data_bit data j = true) -> Q (Some (i, k)) s) ->
  ((forall j, ib * 8 <= j < valid -> j < (ib + Z.of_nat n) * 8 -> data_bit data j = true) -> Q None s) ->
  wp (scan_bytes n ib data valid) Q s.
Proof.
  revert ib. induction n as [|n IH]; intros ib Hib Hlen Hyes Hno; cbn [scan_bytes]; [apply wp_ret, Hno; lia|].
  destruct (lookup_lt_is_Some_2 data (Z.to_nat ib)) as [b Eb]; [lia|].
  apply wp_bind, (wp_get_byte _ _ b); [done|].
  assert (Hbit : forall j, ib * 8 <= j < ib * 8 + 8 -> data_bit data j = Z.testbit b (7 - (j - ib * 8))).
  { intros j Hj. replace j with (ib * 8 + (j - ib * 8)) at 1 by lia. rewrite data_bit_byte by lia. by rewrite Eb. }
  assert (Hskip : (forall j, ib * 8 <= j < ib * 8 + 8 -> j < valid -> data_bit data j = true) ->
    wp (scan_bytes n (ib + 1) data valid) Q s).
  { intros Hall. apply IH; [lia | lia | |].
    - intros i k Hi Hk Hv Hf Hlow. apply Hyes; try done; [lia|]. intros j Hj.
      destruct (decide (j < ib * 8 + 8)); [apply Hall; lia | apply Hlow; lia].
    - intros Hhigh. apply Hno. intros j Hj Hj'.
      destruct (decide (j < ib * 8 + 8)); [apply Hall; lia | apply Hhigh; lia]. }
  destruct (Z.eqb_spec b 0xFF) as [->|_].
  - apply Hskip. intros j Hj _. rewrite Hbit by done. apply ff_bits. lia.
  - pose proof (scan_byte_spec 8 0 b ib valid ltac:(lia) ltac:(lia)) as Hs.
    destruct (scan_byte 8 0 b ib valid) as [k|].
    + destruct Hs as (Hk & Hv & Hf & Hlow). apply wp_ret, Hyes; [lia | done | done | |].
      * rewrite Hbit by lia. by replace (ib * 8 + k - ib * 8) with k by lia.
      * intros j Hj. rewrite Hbit by lia. apply Hlow. lia.
    + apply Hskip. intros j Hj Hv. rewrite Hbit by lia. apply Hs; lia.
Qed.

(** ** Bitmaps on the device *)

(** The bits of the bitmap that starts at block [start]. *)
Definition bitmap_bit s (start i : Z) : bool :=
  let bits := bits_per_block (lay s) in data_bit (fs_block s (start + i / bits)) (i mod bits).

(** No operation of the file system is going on. *)
Definition ready s : Prop := (exists L, cached s L) /\ fs_bitmap_lock s = false.

(** The bitmap lies in the file system and its bits can be numbered in 32 bits. *)
Record bitmap_ok s (start blocks : Z) : Prop := {
  bm_start : 0 <= start;
  bm_blocks : 0 < blocks;
  bm_region : start + blocks <= fs_block_count (lay s);
  bm_width : fs_block_count (lay s) <= 2 ^ 32;
  bm_bits : blocks * bits_per_block (lay s) <= 2 ^ 32
}.

Definition unchanged s s' : Prop := forall m, contents (dev s') m = contents (dev s) m.

Lemma unchanged_block s s' n : unchanged s s' -> lay s' = lay s -> fs_block s' n = fs_block s n.
Proof. intros Hu El. unfold fs_block. by rewrite El, Hu. Qed.

Lemma unchanged_bit s s' start i : unchanged s s' -> lay s' = lay s -> bitmap_bit s' start i = bitmap_bit s start i.
Proof. intros Hu El. unfold bitmap_bit. rewrite El. by rewrite (unchanged_block s s'). Qed.

Lemma unchanged_trans s1 s2 s3 : unchanged s1 s2 -> unchanged s2 s3 -> unchanged s1 s3.
Proof. intros H1 H2 m. by rewrite H2, H1. Qed.

Lemma bits_per_block_eq l : layout_ok l -> bits_per_block l = 8 * bytes_per_block l /\ 0 < bytes_per_block l.
Proof.
  intros (_ & Hb & _). unfold KERNEL_HEAP_SIZE in Hb. unfold bits_per_block, to_u32.
  rewrite (wrap_small 32 (bytes_per_block l)), wrap_small by lia. lia.
Qed.

Lemma cached_layout s L : cached s L -> layout_ok (lay s).
Proof. intros [[l Hl] _]. apply Hl. Qed.

Lemma cached_heap s L : cached s L -> forall n, fs_heap s n = true.
Proof. intros [[l Hl] _]. apply Hl. Qed.

Lemma block_length s n : layout_ok (lay s) -> Z.of_nat (length (fs_block s n)) = bytes_per_block (lay s).
Proof. intros [Hb _]. unfold fs_block. by rewrite contents_length, Hb. Qed.

(** A block of the bitmap with bit [i] of the bitmap replaced. *)
Definition flips s s' (start i : Z) (f : bool -> bool) : Prop :=
  (forall n, n <> start + i / bits_per_block (lay s) -> fs_block s' n = fs_block s n) /\
  forall j, 0 <= j -> bitmap_bit s' start j = if j =? i then f (bitmap_bit s start i) else bitmap_bit s start j.

(** Locking and allocating keep the cache as it is. *)
Lemma cached_locked s L b h :
  cached s L -> (forall n, h n = true) -> cached (set_heap h (set_bitmap_lock b s)) L.
Proof.
  intros ([l Hl] & Hlen & Hlk) Hh. split; [exists l | done]. apply (listing_frame s); done || apply Hl.
Qed.

Lemma cached_lock s L b : cached s L -> cached (set_bitmap_lock b s) L.
Proof.
  intros ([l Hl] & Hlen & Hlk). split; [exists l | done]. apply (listing_frame s); done || apply Hl.
Qed.

(** Writing one byte of the block of bit [i], under the bitmap lock. *)
Lemma wp_write_bit s start i (f : bool -> bool) b' L (Q : Z -> fs_state D -> Prop) :
  cached s L -> layout_ok (lay s) -> 0 <= start -> 0 <= i ->
  let k := i mod bits_per_block (lay s) in
  let data := fs_block s (start + i / bits_per_block (lay s)) in
  (forall j, 0 <= j < 8 ->
     Z.testbit b' (7 - j) = if j =? k mod 8 then f (Z.testbit (default 0 (data !! Z.to_nat (k / 8))) (7 - j))
                            else Z.testbit (default 0 (data !! Z.to_nat (k / 8))) (7 - j)) ->
  (forall s', lay s' = lay s -> fs_bitmap_lock s' = fs_bitmap_lock s -> (exists L', cached s' L') ->
     (flips s s' start i f -> Q SUCCESS s') /\
     (others_same (start + i / bits_per_block (lay s)) s s' ->
      bad_block (lay s) (start + i / bits_per_block (lay s)) -> Q FILE_WRITE_ERROR s')) ->
  wp (write_block (put_byte data (k / 8) b') (start + i / bits_per_block (lay s))) Q s.
Proof.
  intros Hc Hl Hs Hi k data Hb HQ. set (n := start + i / bits_per_block (lay s)) in *.
  destruct (bits_per_block_eq _ Hl) as [Hbits Hpos].
  assert (Hn : 0 <= n) by (unfold n; pose proof (Z.div_pos i (bits_per_block (lay s)) ltac:(lia) ltac:(lia)); lia).
  pose proof (Z.mod_pos_bound i (bits_per_block (lay s)) ltac:(lia)) as Hk. fold k in Hk.
  pose proof (block_length s n Hl) as Hlen. fold data in Hlen.
  assert (Hput : length (put_byte data (k / 8) b') = length data) by apply length_insert.
  eapply wp_mono; [apply (write_block_spec n _ L); [done | done | lia]|].
  intros err s' ((El & _ & Eb & Ei) & Ho & [(-> & _ & Hf & Hc')|(-> & Hbad & Hc')]);
    destruct (HQ s' El Eb (ex_intro _ _ Hc')) as [Hok Her]; [|by apply Her].
  apply Hok. split; [intros m Hm; by apply (others_same_block n)|]. intros j Hj. unfold bitmap_bit. rewrite El.
  destruct (decide (start + j / bits_per_block (lay s) = n)) as [E|Hne].
  - rewrite E, Hf, <- Hlen, Nat2Z.id, take_ge by lia. fold k data.
    pose proof (Z.mod_pos_bound j (bits_per_block (lay s)) ltac:(lia)).
    assert (k / 8 < bytes_per_block (lay s)) by (apply Z.div_lt_upper_bound; lia).
    pose proof (Z.div_pos k 8 ltac:(lia) ltac:(lia)).
    rewrite (put_byte_bit data k f) by (done || lia). fold n.
    assert (j / bits_per_block (lay s) = i / bits_per_block (lay s)) as Ed by (unfold n in E; lia).
    pose proof (Z.div_mod i (bits_per_block (lay s)) ltac:(lia)) as Edi. fold k in Edi.
    pose proof (Z.div_mod j (bits_per_block (lay s)) ltac:(lia)). unfold data.
    destruct (Z.eqb_spec (j mod bits_per_block (lay s)) k), (Z.eqb_spec j i); try done; nia || subst; done.
  - rewrite (others_same_block n s s') by done. destruct (Z.eqb_spec j i) as [->|]; done.
Qed.

(** ** Setting and clearing a bit *)

(** The outcomes of [set_bit_in_bitmap_range] on valid arguments. *)
Definition set_bit_post s (start i : Z) (b : bool) (err : Z) s' : Prop :=
  ready s' /\ lay s' = lay s /\
  ((err = SUCCESS /\ flips s s' start i (fun _ => b)) \/
   (err = FILE_READ_ERROR /\ flaky (lay s) /\ unchanged s s') \/
   (err = FILE_WRITE_ERROR /\ flaky (lay s) /\ others_same (start + i / bits_per_block (lay s)) s s')).

Lemma flips_unchanged s1 s2 s3 start i f :
  unchanged s1 s2 -> lay s2 = lay s1 -> flips s2 s3 start i f -> flips s1 s3 start i f.
Proof.
  intros Hu El [Hb Hj]. split.
  - intros n Hn. rewrite El in Hb. rewrite Hb by done. by apply unchanged_block.
  - intros j Hj0. rewrite Hj by done. by rewrite !(unchanged_bit s1 s2).
Qed.

Lemma ready_unlock s : (exists L, cached s L) -> ready (set_bitmap_lock false s).
Proof. intros [L HL]. split; [exists L; by apply cached_lock | done]. Qed.

Lemma wp_set_bit s start blocks valid i b :
  ready s -> bitmap_ok s start blocks -> 0 <= i < valid -> i < blocks * bits_per_block (lay s) ->
  wp (set_bit_in_bitmap_range start blocks valid i b) (set_bit_post s start i b) s.
Proof.
  intros [[L Hc] Hlk] Hbm Hi Hib. pose proof (cached_layout _ _ Hc) as Hl.
  destruct (bits_per_block_eq _ Hl) as [Hbits Hpos]. destruct Hbm as [Hs Hbl Hr Hw _].
  assert (Hid : 0 <= i / bits_per_block (lay s) < blocks)
    by (split; [apply Z.div_pos | apply Z.div_lt_upper_bound]; lia).
  unfold set_bit_in_bitmap_range.
  destruct (Z.eqb_spec blocks 0); [lia|]. destruct (Z.leb_spec valid i); [lia|]. cbn [orb].
  apply wp_bind, wp_fetch. destruct (Z.eqb_spec (bits_per_block (lay s)) 0); [lia|].
  destruct (Z.leb_spec blocks (i / bits_per_block (lay s))); [lia|].
  apply wp_bind, wp_spin_lock; [done|]. destruct Hl as (Hl1 & Hl2 & Hl3).
  apply wp_bind, wp_kmalloc_granted; [done | exact (cached_heap _ _ Hc)|]. intros h Hh. cbn [negb].
  set (s1 := set_heap h _). assert (Hc1 : cached s1 L) by (by apply cached_locked).
  change (lay s) with (lay s1) in *. change (fs_block_count (lay s1)) with (fs_block_count (lay s)) in *.
  set (blk := start + i / bits_per_block (lay s1)). unfold to_u32. rewrite (wrap_small 32 blk) by (unfold blk; lia).
  apply wp_bind. eapply wp_mono; [apply (read_block_spec blk L); [done | unfold blk; lia]|].
  intros [err data] s2 ((El & _ & Eb & Ei) & Hu & [(E & _ & Hc2)|(E & _ & Hbad & Hc2)]); apply pair_eq in E as [-> ->].
  2: { cbn [negb Z.eqb FILE_READ_ERROR SUCCESS]. apply wp_bind, wp_modify, wp_ret.
       split; [by apply ready_unlock; eauto|]. split; [done|]. right. left. split_and!; [done | | done].
       apply (bad_flaky _ _ Hbad). unfold blk. change (lay s1) with (lay s) in *. lia. }
  cbn [negb Z.eqb SUCCESS]. pose proof (cached_layout _ _ Hc2) as Hl'.
  set (k := i mod bits_per_block (lay s1)) in *.
  pose proof (Z.mod_pos_bound i (bits_per_block (lay s1)) ltac:(lia)) as Hk. fold k in Hk.
  assert (Hk8 : 0 <= k / 8 < bytes_per_block (lay s1)).
  { split; [apply Z.div_pos | apply Z.div_lt_upper_bound]; lia. }
  pose proof (block_length s1 blk (conj Hl1 (conj Hl2 Hl3))) as Hlen.
  destruct (lookup_lt_is_Some_2 (fs_block s1 blk) (Z.to_nat (k / 8))) as [byte Hbyte]; [lia|].
  apply wp_bind, (wp_get_byte _ _ byte); [done|]. apply wp_bind.
  assert (E2 : fs_block s1 blk = fs_block s2 (start + i / bits_per_block (lay s2))).
  { rewrite El. symmetry. by apply unchanged_block. }
  rewrite E2 in Hbyte |- *.
  unfold blk, k. rewrite <- El. apply (wp_write_bit s2 start i (fun _ => b) _ _ _ Hc2 Hl'); [done | lia | |].
  - rewrite El in Hbyte |- *. fold k. rewrite Hbyte. simpl. intros j Hj.
    pose proof (Z.mod_pos_bound k 8 ltac:(lia)).
    destruct b; [rewrite lor_mask_bit by lia | rewrite clear_mask_bit by lia]; destruct (j =? k mod 8); simpl;
      by rewrite ?orb_true_r, ?orb_false_r, ?andb_true_r, ?andb_false_r.
  - intros s3 El3 Eb3 Hc3. split; intros Hw3; [|intros Hbad]; apply wp_bind, wp_modify, wp_ret;
      (split; [by apply ready_unlock|]; split; [etrans; [exact El3 | exact El]|]).
    + left. split; [done|]. by apply (flips_unchanged s s2).
    + right. right. split; [done|]. rewrite El in Hbad. split; [apply (bad_flaky _ _ Hbad); change (lay s1) with (lay s) in *; lia|]. intros m Hm. rewrite Hw3; [apply Hu|]. by rewrite El.
Qed.

(** ** Finding a free bit *)

(** The outcomes of [find_free_from_bitmap_range] on valid arguments. *)
Definition find_free_post s (start blocks valid : Z) (update : bool) (r : Z * option Z) s' : Prop :=
  ready s' /\ lay s' = lay s /\
  match r with
  | (err, Some i) =>
      err = SUCCESS /\ 0 <= i < valid /\ i < blocks * bits_per_block (lay s) /\
      bitmap_bit s start i = false /\ (forall j, 0 <= j < i -> bitmap_bit s start j = true) /\
      (if update then flips s s' start i (fun _ => true) else unchanged s s')
  | (err, None) =>
      (err = NO_FREE_BLOCKS /\ unchanged s s' /\
       forall j, 0 <= j < valid -> j < blocks * bits_per_block (lay s) -> bitmap_bit s start j = true) \/
      (err = FILE_READ_ERROR /\ flaky (lay s) /\ unchanged s s') \/
      (err = FILE_WRITE_ERROR /\ flaky (lay s) /\ update = true /\
       exists n, start <= n < start + blocks /\ others_same n s s')
  end.

(** What the loop has established when it comes to the block [idx]. *)
Record scanning s0 (start valid idx : Z) s : Prop := {
  sc_cached : exists L, cached s L;
  sc_lay : lay s = lay s0;
  sc_same : unchanged s0 s;
  sc_taken : forall j, 0 <= j < valid -> j < idx * bits_per_block (lay s0) -> bitmap_bit s0 start j = true
}.

(** Bit [k] of block [idx]. *)
Lemma bitmap_bit_at s start idx k :
  0 <= k < bits_per_block (lay s) ->
  bitmap_bit s start (idx * bits_per_block (lay s) + k) = data_bit (fs_block s (start + idx)) k.
Proof.
  intros Hk. unfold bitmap_bit. rewrite Z.div_add_l, Z.div_small, Z.add_0_r by lia.
  by rewrite (Z.add_comm (idx * _) k), Z.mod_add, Z.mod_small by lia.
Qed.

(** The number of valid bits of block [idx]. *)
Lemma valid_in_block bits valid idx :
  0 < bits -> 0 <= idx -> 0 < valid ->
  let v0 := if idx * bits <? valid then valid - idx * bits else 0 in
  let v := if bits <? v0 then bits else v0 in
  0 <= v <= bits /\ forall k, 0 <= k < bits -> (k < v <-> idx * bits + k < valid).
Proof. intros Hb Hi Hv v0 v. unfold v, v0. repeat case_bool; split; nia. Qed.

(** A free bit has been found at byte [ib], bit [k] of block [idx]. *)
Lemma wp_take_bit s0 s start blocks valid idx ib k update data :
  scanning s0 start valid idx s -> bitmap_ok s0 start blocks -> layout_ok (lay s0) ->
  0 <= idx < blocks -> 0 <= ib < bytes_per_block (lay s0) -> 0 <= k < 8 ->
  data = fs_block s0 (start + idx) ->
  let i := idx * bits_per_block (lay s0) + (ib * 8 + k) in
  i < valid -> bitmap_bit s0 start i = false ->
  (forall j, 0 <= j < i -> bitmap_bit s0 start j = true) ->
  wp (if (update : bool) then
        byte ← get_byte data ib;
        err_code ← write_block (put_byte data ib (Z.lor byte (bit_mask k))) (start + idx);
        _ ← spin_unlock set_bitmap_lock;
        mret (if negb (err_code =? SUCCESS) then (err_code, None) else (SUCCESS, Some i))
      else
        _ ← spin_unlock set_bitmap_lock;
        mret (SUCCESS, Some i)) (find_free_post s0 start blocks valid update) s.
Proof.
  intros [[L Hc] El Hu _] Hbm Hl Hidx Hib Hk -> i Hi Hfree Hlow.
  destruct (bits_per_block_eq _ Hl) as [Hbits Hpos]. pose proof (bm_start _ _ _ Hbm).
  set (q := ib * 8 + k) in *. assert (Hq : 0 <= q < bits_per_block (lay s0)) by (unfold q; lia).
  assert (Hi0 : 0 <= i < blocks * bits_per_block (lay s0)) by (unfold i; nia).
  destruct update.
  2: { apply wp_bind, wp_modify, wp_ret. split; [by apply ready_unlock; eauto|]. split; [done|].
       split_and!; try done; lia. }
  pose proof (block_length s0 (start + idx) Hl) as Hlen.
  destruct (lookup_lt_is_Some_2 (fs_block s0 (start + idx)) (Z.to_nat ib)) as [byte Hbyte]; [lia|].
  apply wp_bind, (wp_get_byte _ _ byte); [done|]. apply wp_bind.
  assert (Ei : i / bits_per_block (lay s) = idx) by (rewrite El; unfold i; rewrite Z.div_add_l, Z.div_small; lia).
  assert (Em : i mod bits_per_block (lay s) = q)
    by (rewrite El; unfold i; rewrite Z.add_comm, Z.mod_add, Z.mod_small; lia).
  assert (Eq8 : q / 8 = ib) by (unfold q; rewrite Z.div_add_l, Z.div_small; lia).
  assert (Eqm : q mod 8 = k) by (unfold q; rewrite Z.add_comm, Z.mod_add, Z.mod_small; lia).
  pose proof (wp_write_bit s start i (fun _ => true) (Z.lor byte (bit_mask k)) L) as Hw.
  cbv zeta in Hw. rewrite Ei, Em, Eq8, Eqm, (unchanged_block s0 s) in Hw by done.
  rewrite El in Hw. apply Hw; [done | done | done | lia | |].
  - intros j Hj. rewrite Hbyte. simpl. rewrite lor_mask_bit by lia.
    destruct (j =? k); [by rewrite orb_true_r | by rewrite orb_false_r].
  - intros s3 El3 Eb3 Hc3. pose proof (bm_region _ _ _ Hbm).
    split; intros Hw3; [|intros Hbad]; apply wp_bind, wp_modify, wp_ret; cbn [negb Z.eqb SUCCESS FILE_WRITE_ERROR];
      (split; [by apply ready_unlock|]; split; [exact El3|]).
    + split_and!; done || lia || by apply (flips_unchanged s0 s).
    + right. right. split; [done|]. split; [apply (bad_flaky _ _ Hbad); lia|]. split; [done|]. exists (start + idx). split; [lia|].
      intros m Hm. rewrite Hw3; [apply Hu | by rewrite El].
Qed.

Lemma wp_scan_bitmap s0 n idx start blocks valid update s :
  scanning s0 start valid idx s -> bitmap_ok s0 start blocks -> layout_ok (lay s0) ->
  0 < valid < 2 ^ 32 -> 0 <= idx -> idx + Z.of_nat n = blocks ->
  wp (scan_bitmap n idx (bits_per_block (lay s0)) start valid update)
    (find_free_post s0 start blocks valid update) s.
Proof.
  intros Hsc Hbm Hl Hv. revert idx s Hsc. induction n as [|n IH]; intros idx s Hsc Hidx Hn; cbn [scan_bitmap].
  { destruct Hsc as [Hc El Hu Ht]. apply wp_bind, wp_modify, wp_ret.
    split; [by apply ready_unlock|]. split; [done|]. left. split; [done|]. split; [done|].
    intros j Hj Hj'. apply Ht; [done|]. by replace idx with blocks by lia. }
  destruct Hsc as [[L Hc] El Hu Ht]. destruct (bits_per_block_eq _ Hl) as [Hbits Hpos].
  pose proof Hbm as [Hst Hbl Hr Hw Hbb]. rewrite (to_u32_small (start + idx)) by lia.
  apply wp_bind. eapply wp_mono; [apply (read_block_spec (start + idx) L); [done | lia]|].
  intros [err data] s2 ((El2 & _ & Eb2 & Ei2) & Hu2 & [(E & _ & Hc2)|(E & _ & Hbad & Hc2)]); apply pair_eq in E as [-> ->].
  2: { cbn [negb Z.eqb FILE_READ_ERROR SUCCESS]. apply wp_bind, wp_modify, wp_ret.
       split; [by apply ready_unlock; eauto|]. split; [by etrans|]. right. left. split; [done|].
       split; [rewrite El in Hbad; apply (bad_flaky _ _ Hbad); lia|].
       by apply (unchanged_trans s0 s). }
  cbn [negb Z.eqb SUCCESS]. set (bits := bits_per_block (lay s0)) in *.
  assert (Hfb : 0 <= idx * bits < 2 ^ 32) by nia.
  assert (Hsm : bits <= 2 ^ 23) by (pose proof Hl as (_ & Hl2 & _); unfold KERNEL_HEAP_SIZE in Hl2; lia).
  rewrite !(to_u32_small (idx * bits)) by done.
  destruct (valid_in_block bits valid idx) as [Hvb Hvk]; [lia | done | lia|].
  set (v := if bits <? _ then _ else _) in *. rewrite (to_u32_small (v + 7)) by lia.
  rewrite (unchanged_block s0 s) by done. set (data := fs_block s0 (start + idx)).
  pose proof (block_length s0 (start + idx) Hl) as Hlen. fold data in Hlen.
  assert (Hvb8 : 0 <= (v + 7) / 8 <= bytes_per_block (lay s0)).
  { split; [apply Z.div_pos; lia|]. apply Z.lt_succ_r, Z.div_lt_upper_bound; lia. }
  assert (Hsc2 : scanning s0 start valid idx s2).
  { constructor; [eauto | congruence | by apply (unchanged_trans s0 s) | done]. }
  assert (Hbit : forall k, 0 <= k < bits -> bitmap_bit s0 start (idx * bits + k) = data_bit data k)
    by (intros; by apply bitmap_bit_at).
  apply wp_bind, wp_scan_bytes; [lia | lia | |].
  - intros ib k Hib Hk Hv8 Hfree Hlow. rewrite to_u32_small by nia.
    apply (wp_take_bit s0 s2 start blocks); try done; [lia | lia | | |].
    + apply Hvk; lia.
    + rewrite Hbit by lia. done.
    + intros j Hj. destruct (decide (j < idx * bits)); [apply Ht; [|done]; pose proof (proj1 (Hvk (ib * 8 + k) ltac:(lia)) Hv8); lia|].
      replace j with (idx * bits + (j - idx * bits)) by lia. rewrite Hbit by lia. apply Hlow. lia.
  - intros Hall. apply IH; [|lia | lia]. destruct Hsc2 as [Hc3 El3 Hu3 _]. constructor; try done.
    intros j Hj Hj'. fold bits in Hj'. destruct (decide (j < idx * bits)); [by apply Ht|].
    replace j with (idx * bits + (j - idx * bits)) by lia. rewrite Hbit by lia. apply Hall.
    + split; [lia|]. apply Hvk; lia.
    + assert (Hj8 : j - idx * bits < v) by (apply Hvk; lia). pose proof (Z.div_mod (v + 7) 8 ltac:(lia)).
      pose proof (Z.mod_pos_bound (v + 7) 8 ltac:(lia)). lia.
Qed.

Lemma wp_find_free s start blocks valid update :
  ready s -> bitmap_ok s start blocks -> 0 < valid < 2 ^ 32 ->
  wp (find_free_from_bitmap_range true start blocks valid update) (find_free_post s start blocks valid update) s.
Proof.
  intros [[L Hc] Hlk] Hbm Hv. pose proof (cached_layout _ _ Hc) as Hl. unfold find_free_from_bitmap_range.
  pose proof (bm_blocks _ _ _ Hbm) as Hb. destruct (Z.eqb_spec blocks 0); [lia|].
  destruct (Z.eqb_spec valid 0); [lia|]. cbn [negb orb].
  apply wp_bind, wp_fetch. apply wp_bind, wp_spin_lock; [done|].
  apply wp_bind, wp_kmalloc_granted; [by destruct Hl as (_ & ? & _) | exact (cached_heap _ _ Hc)|].
  intros h Hh. cbn [negb]. apply (wp_scan_bitmap s); [|done | done | done | lia | lia].
  constructor; [exists L; by apply cached_locked | done | done | lia].
Qed.

End theory.

(** ** Properties *)

(** The state of BlockCache.v's example, which is not in use. *)
Lemma ram_fs_ready : ready ram_fs.
Proof. split; [exists []; exact ram_fs_cached | done]. Qed.

Lemma ram_bitmap_ok : bitmap_ok ram_fs 1 1.
Proof. constructor; vm_compute; done. Qed.

(** [find_free_from_bitmap_range] is a first-fit allocator.  When it
    reports a bit, the bit is in range and was clear, every lower bit was set
    and, if [update_taken], exactly that bit of the bitmap has been set and no
    other block of the file system has changed; it reports [NO_FREE_BLOCKS]
    only if every valid bit was set; it fails only on a card with a bad sector in
    the file system, a failed read then changes nothing, a failed write at most
    one block of the bitmap.  Both locks are released on every
    way out. *)
Theorem bitmap_find_free_correct {D} `{DeviceLaws D} (s : fs_state D) start blocks valid update :
  ready s -> bitmap_ok s start blocks -> 0 < valid < 2 ^ 32 ->
  wp (find_free_from_bitmap_range true start blocks valid update) (find_free_post s start blocks valid update) s.
Proof. apply wp_find_free. Qed.

Lemma bitmap_find_free_correct_witness :
  wp (find_free_from_bitmap_range true 1 1 64 true) (find_free_post ram_fs 1 1 64 true) ram_fs.
Proof.
  apply (bitmap_find_free_correct ram_fs 1 1 64 true); [exact ram_fs_ready | exact ram_bitmap_ok | lia].
Defined.

(** [set_bit_in_bitmap_range] sets or clears exactly the bit it is given;
    it fails only on a card with a bad sector in the file system, and then at
    most that bit's block has changed. *)
Theorem bitmap_set_bit_correct {D} `{DeviceLaws D} (s : fs_state D) start blocks valid i b :
  ready s -> bitmap_ok s start blocks -> 0 <= i < valid -> i < blocks * bits_per_block (lay s) ->
  wp (set_bit_in_bitmap_range start blocks valid i b) (set_bit_post s start i b) s.
Proof. apply wp_set_bit. Qed.

Lemma bitmap_set_bit_correct_witness :
  wp (set_bit_in_bitmap_range 1 1 64 13 true) (set_bit_post ram_fs 1 13 true) ram_fs.
Proof.
  apply (bitmap_set_bit_correct ram_fs 1 1 64 13 true);
    [exact ram_fs_ready | exact ram_bitmap_ok | lia | vm_compute; reflexivity].
Defined.

