(* ===== verification/Layout.v ===== *)
(** * The place and the layout of the file system

    kernel/fs/disk.c: where on the card the file system lies (the part of the
    card after the boot partition, found in the MBR or the GPT), how its region
    is divided into superblock, bitmaps, inode table and data, and the checks
    [mount] makes of a superblock; [mount_inode] of kernel/fs/inodes.c. *)

From S2P Require Import Prelude Errors Bytes Services BlockCache.

Definition UINT32_MAX : Z := 0xFFFFFFFF.
Definition UINT64_MAX : Z := 0xFFFFFFFFFFFFFFFF.
Definition FS_MOUNT_BLOCK_BUFFER_SIZE : Z := 4096.
Definition ROOT_INO : Z := 1.
Definition FS_SIGNATURE_SIZE : Z := 11.
(** "OSisCOOLv2" with its terminator. *)
Definition FS_SIGNATURE : list Z := [79; 83; 105; 115; 67; 79; 79; 76; 118; 50; 0].

(** [sizeof(struct inode_st)] *)
Definition sizeof_inode : Z := 112.

Record superblock_st := mkSuper {
  sb_signature : list Z;
  sb_bytes_per_block : Z;
  sb_total_blocks : Z;
  sb_block_bitmap_start : Z;
  sb_block_bitmap_blocks : Z;
  sb_inode_bitmap_start : Z;
  sb_inode_bitmap_blocks : Z;
  sb_inode_table_start : Z;
  sb_inode_table_blocks : Z;
  sb_data_start_block : Z;
  sb_root_inode_id : Z
}.

(** Eleven characters, a byte of padding and ten 32-bit numbers. *)
Definition encode_superblock (sb : superblock_st) : list Z :=
  resize 11 0 (sb_signature sb) ++ [0] ++ le 4 (sb_bytes_per_block sb) ++ le 4 (sb_total_blocks sb) ++
  le 4 (sb_block_bitmap_start sb) ++ le 4 (sb_block_bitmap_blocks sb) ++ le 4 (sb_inode_bitmap_start sb) ++
  le 4 (sb_inode_bitmap_blocks sb) ++ le 4 (sb_inode_table_start sb) ++ le 4 (sb_inode_table_blocks sb) ++
  le 4 (sb_data_start_block sb) ++ le 4 (sb_root_inode_id sb).

Definition decode_superblock (data : list Z) : superblock_st :=
  let u32 i := unle (slice data (12 + 4 * i) 4) in
  mkSuper (slice data 0 11) (u32 0%nat) (u32 1%nat) (u32 2%nat) (u32 3%nat) (u32 4%nat) (u32 5%nat)
    (u32 6%nat) (u32 7%nat) (u32 8%nat) (u32 9%nat).

Section layout.
Context {D : Type} `{BlockDevice D}.
(** Whether the kernel is built for QEMU ([PLATFORM_QEMU]). *)
Context (platform_qemu : bool).
Implicit Types (s : fs_state D).

Abbreviation FS := (stM (fs_state D)).

Definition set_lay (l : fs_layout) s : fs_state D :=
  mkFS l (cache s) (block_device_lock s) (fs_block_cache_lock s) (fs_bitmap_lock s) (fs_heap s) (dev s).

(** ** Reading structures of the card *)

Definition read_le32 (bytes : list Z) (off : Z) : FS Z :=
  b0 ← get_byte bytes off;
  b1 ← get_byte bytes (off + 1);
  b2 ← get_byte bytes (off + 2);
  b3 ← get_byte bytes (off + 3);
  mret (Z.lor (Z.lor (Z.lor b0 (Z.shiftl b1 8)) (Z.shiftl b2 16)) (Z.shiftl b3 24)).

Definition read_le64 (bytes : list Z) (off : Z) : FS Z :=
  lo ← read_le32 bytes off;
  hi ← read_le32 bytes (off + 4);
  mret (Z.lor lo (Z.shiftl hi 32)).

(** [lhs] from offset [off] on against the constant [rhs]. *)
Fixpoint bytes_equal (lhs : list Z) (off : Z) (rhs : list Z) : FS bool :=
  match rhs with
  | [] => mret true
  | r :: rhs =>
      b ← get_byte lhs off;
      if negb (b =? r) then mret false else bytes_equal lhs (off + 1) rhs
  end.

Definition signature_matches (superblock : superblock_st) : bool :=
  forallb (fun i => default (-1) (sb_signature superblock !! i) =? default 0 (FS_SIGNATURE !! i)) (seq 0 11).

Definition range_is_valid (start count total : Z) : bool :=
  negb (count =? 0) && (start <? total) && (count <=? total - start).

Definition mbr_type_is_boot_partition (type : Z) : bool :=
  (type =? 0x01) || (type =? 0x04) || (type =? 0x06) || (type =? 0x0B) || (type =? 0x0C) ||
  (type =? 0x0E) || (type =? 0xEF).

(** ** The region of the card *)

Definition fs_set_block_region (base_block block_count : Z) : FS Z :=
  if block_count =? 0 then mret INVALID_ARGS else
  if to_u64 (base_block + block_count) <? base_block then mret INVALID_ARGS else
  l ← fetch lay;
  _ ← modify (set_lay (mkLayout (bytes_per_block l) (num_table_blocks l) base_block block_count
        (total_fs_blocks l) (block_bitmap_start l) (block_bitmap_blocks l) (inode_bitmap_start l)
        (inode_bitmap_blocks l) (inode_table_start l) (data_start_block l)));
  mret SUCCESS.

Definition set_fs_region_after_partition (partition_start partition_blocks device_blocks : Z) : FS Z :=
  let fs_base := to_u64 (partition_start + partition_blocks) in
  if (partition_blocks =? 0) || (fs_base <=? partition_start) || (device_blocks =? 0) || (device_blocks <=? fs_base)
  then mret INVALID_ARGS
  else fs_set_block_region fs_base (device_blocks - fs_base).

Definition gpt_guid_is_unused (data : list Z) (off : Z) : FS bool := bytes_equal data off (replicate 16 0).

Definition efi_system_guid : list Z :=
  [0x28; 0x73; 0x2A; 0xC1; 0x1F; 0xF8; 0xD2; 0x11; 0xBA; 0x4B; 0x00; 0xA0; 0xC9; 0x3E; 0xC9; 0x3B].

Definition microsoft_basic_guid : list Z :=
  [0xA2; 0xA0; 0xD0; 0xEB; 0xE5; 0xB9; 0x33; 0x44; 0x87; 0xC0; 0x68; 0xB6; 0xB7; 0x26; 0x99; 0xC7].

Definition gpt_guid_rank (data : list Z) (off : Z) : FS Z :=
  efi ← bytes_equal data off efi_system_guid;
  if (efi : bool) then mret 3 else
  ms ← bytes_equal data off microsoft_basic_guid;
  if (ms : bool) then mret 2 else
  unused ← gpt_guid_is_unused data off;
  if negb unused then mret 1 else mret 0.

(** The best partition found so far. *)
Record gpt_best := mkBest { best_rank : Z; best_start : Z; best_blocks : Z }.

(** The loop over the partition entries; [data] is what the buffer holds, the
    block [loaded_block].  [inl] is an error. *)
Fixpoint gpt_entries (n : nat) (i entries_lba entries_per_block entry_size device_blocks loaded_block : Z)
    (data : list Z) (best : gpt_best) : FS (Z + gpt_best) :=
  match n with
  | O => mret (inr best)
  | S n =>
      let entry_block := to_u64 (entries_lba + i / entries_per_block) in
      if device_blocks <=? entry_block then mret (inr best) else
      r ← (if negb (entry_block =? loaded_block) then block_read entry_block 1 else mret (Some data));
      match r with
      | None => mret (inl FILE_READ_ERROR)
      | Some data =>
          let entry := i mod entries_per_block * entry_size in
          rank ← gpt_guid_rank data entry;
          best' ← (if rank =? 0 then mret best else
            first_lba ← read_le64 data (entry + 32);
            last_lba ← read_le64 data (entry + 40);
            if (last_lba <? first_lba) || (device_blocks <=? last_lba) then mret best else
            if (best_rank best <? rank) || ((rank =? best_rank best) && (first_lba <? best_start best))
            then mret (mkBest rank first_lba (last_lba - first_lba + 1)) else mret best);
          gpt_entries n (i + 1) entries_lba entries_per_block entry_size device_blocks entry_block data best'
      end
  end.

(** "EFI PART" *)
Definition gpt_signature : list Z := [69; 70; 73; 32; 80; 65; 82; 84].

Definition configure_gpt_fs_region (device_blocks block_size : Z) : FS Z :=
  if (block_size =? 0) || (FS_MOUNT_BLOCK_BUFFER_SIZE <? block_size) then mret INVALID_ARGS else
  r ← block_read 1 1;
  match r with
  | None => mret FILE_READ_ERROR
  | Some data =>
      sig ← bytes_equal data 0 gpt_signature;
      if negb sig then mret INVALID_ARGS else
      entries_lba ← read_le64 data 72;
      entry_count ← read_le32 data 80;
      entry_size ← read_le32 data 84;
      if (entries_lba =? 0) || (entry_count =? 0) || (entry_size <? 128) || (block_size <? entry_size) ||
         negb (block_size mod entry_size =? 0)
      then mret INVALID_ARGS else
      let entries_per_block := block_size / entry_size in
      r ← gpt_entries (Z.to_nat entry_count) 0 entries_lba entries_per_block entry_size device_blocks
            UINT64_MAX data (mkBest 0 0 0);
      match r with
      | inl err => mret err
      | inr best =>
          if best_rank best =? 0 then mret INVALID_ARGS
          else set_fs_region_after_partition (best_start best) (best_blocks best) device_blocks
      end
  end.

(** The loop over the four partitions of the MBR; [fallback] is the first one
    in use. *)
Fixpoint mbr_partitions (n : nat) (i : Z) (mbr : list Z) (device_blocks block_size : Z)
    (fallback : option (Z * Z)) : FS Z :=
  match n with
  | O =>
      match fallback with
      | Some (start, blocks) => set_fs_region_after_partition start blocks device_blocks
      | None => mret INVALID_ARGS
      end
  | S n =>
      let partition := 446 + i * 16 in
      type ← get_byte mbr (partition + 4);
      partition_start ← read_le32 mbr (partition + 8);
      partition_blocks ← read_le32 mbr (partition + 12);
      if partition_blocks =? 0 then mbr_partitions n (i + 1) mbr device_blocks block_size fallback else
      if type =? 0xEE then configure_gpt_fs_region device_blocks block_size else
      let fallback := match fallback with Some p => Some p | None => Some (partition_start, partition_blocks) end in
      if mbr_type_is_boot_partition type
      then set_fs_region_after_partition partition_start partition_blocks device_blocks
      else mbr_partitions n (i + 1) mbr device_blocks block_size fallback
  end.

Definition configure_default_fs_region : FS Z :=
  device_blocks ← block_get_count;
  block_size ← block_get_size;
  if (device_blocks =? 0) || (block_size =? 0) || (FS_MOUNT_BLOCK_BUFFER_SIZE <? block_size)
  then mret INVALID_ARGS else
  if platform_qemu then fs_set_block_region 0 device_blocks else
  r ← block_read 0 1;
  match r with
  | None => mret FILE_READ_ERROR
  | Some mbr =>
      b0 ← get_byte mbr 510;
      b1 ← get_byte mbr 511;
      if negb (b0 =? 0x55) || negb (b1 =? 0xAA) then mret INVALID_ARGS
      else mbr_partitions 4 0 mbr device_blocks block_size None
  end.

(** ** The superblock *)

Definition validate_superblock (superblock : superblock_st) : FS Z :=
  size ← block_get_size;
  count ← fetch (fun s => fs_block_count (lay s));
  let total := sb_total_blocks superblock in
  mret (
    if negb (signature_matches superblock) then FS_INVALID
    else if negb (sb_bytes_per_block superblock =? size) || (total =? 0) || negb (total =? count) ||
            negb (sb_root_inode_id superblock =? ROOT_INO) then FS_INVALID
    else if negb (sb_block_bitmap_start superblock =? 1) ||
            negb (range_is_valid (sb_block_bitmap_start superblock) (sb_block_bitmap_blocks superblock) total) ||
            negb (range_is_valid (sb_inode_bitmap_start superblock) (sb_inode_bitmap_blocks superblock) total) ||
            negb (range_is_valid (sb_inode_table_start superblock) (sb_inode_table_blocks superblock) total) ||
            (sb_inode_bitmap_start superblock <?
               to_u32 (sb_block_bitmap_start superblock + sb_block_bitmap_blocks superblock)) ||
            (sb_inode_table_start superblock <?
               to_u32 (sb_inode_bitmap_start superblock + sb_inode_bitmap_blocks superblock)) ||
            (sb_data_start_block superblock <?
               to_u32 (sb_inode_table_start superblock + sb_inode_table_blocks superblock)) ||
            (total <=? sb_data_start_block superblock) then FS_INVALID
    else SUCCESS).

Definition fs_set_layout (bytes_per_block_value total_blocks new_block_bitmap_start new_block_bitmap_blocks
    new_inode_bitmap_start new_inode_bitmap_blocks new_inode_table_start inode_table_blocks
    new_data_start_block : Z) : FS Z :=
  if (bytes_per_block_value =? 0) || (total_blocks =? 0) || (new_block_bitmap_blocks =? 0) ||
     (new_inode_bitmap_blocks =? 0) || (inode_table_blocks =? 0) || (total_blocks <=? new_data_start_block)
  then mret INVALID_ARGS else
  l ← fetch lay;
  _ ← modify (set_lay (mkLayout (to_s32 bytes_per_block_value) (to_s32 inode_table_blocks) (fs_base_block l)
        (fs_block_count l) total_blocks new_block_bitmap_start new_block_bitmap_blocks new_inode_bitmap_start
        new_inode_bitmap_blocks new_inode_table_start new_data_start_block));
  mret SUCCESS.

(** [mount_inode]; its two pointers are those of the static variables
    [fs_set_layout] has just set. *)
Definition mount_inode (superblock : superblock_st) : FS Z :=
  fs_set_layout (sb_bytes_per_block superblock) (sb_total_blocks superblock) (sb_block_bitmap_start superblock)
    (sb_block_bitmap_blocks superblock) (sb_inode_bitmap_start superblock) (sb_inode_bitmap_blocks superblock)
    (sb_inode_table_start superblock) (sb_inode_table_blocks superblock) (sb_data_start_block superblock).

(** The first half of [mkfs], up to the call of [mkfs_inode]. *)
Definition block_size_of_config (block_size_config : Z) : option Z :=
  if block_size_config =? 0 then Some 256
  else if block_size_config =? 1 then Some 512
  else if block_size_config =? 2 then Some 1024
  else if block_size_config =? 3 then Some 2048
  else if block_size_config =? 4 then Some 4096
  else None.

Definition mkfs_layout (inode_table_blocks new_bytes_per_block usable_blocks : Z) : FS Z :=
  let total_blocks := to_u32 usable_blocks in
  let bits_per_block := to_u32 (to_u32 new_bytes_per_block * 8) in
  let new_block_bitmap_blocks := to_u32 (total_blocks + bits_per_block - 1) / bits_per_block in
  let inodes_per_block := to_u32 (new_bytes_per_block / sizeof_inode) in
  let inode_count := to_u64 (to_u32 inode_table_blocks * inodes_per_block) in
  if (inode_count =? 0) || (UINT32_MAX <? inode_count) then mret INVALID_ARGS else
  let new_inode_bitmap_blocks := to_u32 (to_u32 inode_count + bits_per_block - 1) / bits_per_block in
  let new_block_bitmap_start := 1 in
  let new_inode_bitmap_start := to_u32 (new_block_bitmap_start + new_block_bitmap_blocks) in
  let new_inode_table_start := to_u32 (new_inode_bitmap_start + new_inode_bitmap_blocks) in
  let new_data_start_block := to_u32 (new_inode_table_start + to_u32 inode_table_blocks) in
  if total_blocks <=? new_data_start_block then mret INVALID_ARGS else
  fs_set_layout (to_u32 new_bytes_per_block) total_blocks new_block_bitmap_start new_block_bitmap_blocks
    new_inode_bitmap_start new_inode_bitmap_blocks new_inode_table_start (to_u32 inode_table_blocks)
    new_data_start_block.

End layout.

(** ** The superblock on disk *)

Lemma superblock_size sb : length (encode_superblock sb) = 52%nat.
Proof. unfold encode_superblock. by rewrite !length_app, !length_le, length_resize. Qed.

Record superblock_fits (sb : superblock_st) : Prop := {
  sf_signature : length (sb_signature sb) = 11%nat;
  sf_fields : Forall (fun x => 0 <= x < 2 ^ 32)
    [sb_bytes_per_block sb; sb_total_blocks sb; sb_block_bitmap_start sb; sb_block_bitmap_blocks sb;
     sb_inode_bitmap_start sb; sb_inode_bitmap_blocks sb; sb_inode_table_start sb; sb_inode_table_blocks sb;
     sb_data_start_block sb; sb_root_inode_id sb]
}.

Lemma decode_encode_superblock sb : superblock_fits sb -> decode_superblock (encode_superblock sb) = sb.
Proof.
  intros [Hs Hf]. destruct sb as [sig f0 f1 f2 f3 f4 f5 f6 f7 f8 f9]. simpl in *.
  repeat (apply Forall_cons in Hf as [? Hf]).
  unfold decode_superblock, encode_superblock. simpl sb_signature.
  rewrite resize_all_alt by done.
  do 11 (destruct sig as [|? sig]; [done|]). destruct sig; [|done].
  unfold slice. cbn [drop take app Nat.add Nat.mul sb_bytes_per_block sb_total_blocks sb_block_bitmap_start
    sb_block_bitmap_blocks sb_inode_bitmap_start sb_inode_bitmap_blocks sb_inode_table_start
    sb_inode_table_blocks sb_data_start_block sb_root_inode_id le].
  f_equal.
  all: try (match goal with |- unle _ = ?x => change (unle (le 4 x) = x); by apply unle_le_small end).
Qed.

#[export] Instance superblock_format : Format superblock_st := {|
  fmt_size := 52;
  encode := encode_superblock;
  decode := decode_superblock;
  fits := superblock_fits;
  encode_length := superblock_size;
  decode_encode := decode_encode_superblock
|}.

(** ** The regions of a layout

    The superblock, the two bitmaps, the inode table and the data blocks
    follow each other, none overlaps the next and all lie in the file system. *)

Record regions_ok (l : fs_layout) : Prop := {
  rg_bitmap : block_bitmap_start l = 1;
  rg_bitmap_blocks : 0 < block_bitmap_blocks l;
  rg_inode_bitmap : block_bitmap_start l + block_bitmap_blocks l <= inode_bitmap_start l;
  rg_inode_bitmap_blocks : 0 < inode_bitmap_blocks l;
  rg_table : inode_bitmap_start l + inode_bitmap_blocks l <= inode_table_start l;
  rg_table_blocks : 0 < to_u32 (num_table_blocks l);
  rg_data : inode_table_start l + to_u32 (num_table_blocks l) <= data_start_block l;
  rg_total : data_start_block l < total_fs_blocks l;
  rg_count : total_fs_blocks l = fs_block_count l;
  rg_width : total_fs_blocks l < 2 ^ 32
}.

(** The superblock that describes a layout, as [mkfs_inode] fills it in. *)
Definition superblock_of (l : fs_layout) (inode_table_blocks bytes_per_block : Z) : superblock_st :=
  mkSuper FS_SIGNATURE (to_u32 bytes_per_block) (total_fs_blocks l) (block_bitmap_start l) (block_bitmap_blocks l)
    (inode_bitmap_start l) (inode_bitmap_blocks l) (inode_table_start l) (to_u32 inode_table_blocks)
    (data_start_block l) ROOT_INO.

Lemma to_u32_s32 x : 0 <= x < 2 ^ 32 -> to_u32 (to_s32 x) = x.
Proof.
  intros Hx. unfold to_u32, to_s32, wrap. rewrite Zminus_mod_idemp_l.
  replace (x + 2 ^ 31 - 2 ^ 31) with x by lia. apply Z.mod_small. lia.
Qed.

Lemma range_is_valid_spec start count total :
  range_is_valid start count total = true <-> count <> 0 /\ start < total /\ start + count <= total.
Proof.
  unfold range_is_valid. rewrite !andb_true_iff, negb_true_iff, Z.eqb_neq, Z.ltb_lt, Z.leb_le. lia.
Qed.

Section regions.
Context {D : Type} `{BlockDevice D}.
Implicit Types (s : fs_state D).

Lemma wp_fs_set_layout bpb total bbs bbb ibs ibb its itb ds (Q : Z -> fs_state D -> Prop) s :
  (bpb = 0 \/ total = 0 \/ bbb = 0 \/ ibb = 0 \/ itb = 0 \/ total <= ds -> Q INVALID_ARGS s) ->
  (ds < total -> bpb <> 0 -> bbb <> 0 -> ibb <> 0 -> itb <> 0 ->
   Q SUCCESS (set_lay (mkLayout (to_s32 bpb) (to_s32 itb) (fs_base_block (lay s)) (fs_block_count (lay s))
     total bbs bbb ibs ibb its ds) s)) ->
  wp (fs_set_layout bpb total bbs bbb ibs ibb its itb ds) Q s.
Proof.
  intros Hbad Hok. unfold fs_set_layout.
  destruct (Z.eqb_spec bpb 0); [apply wp_ret, Hbad; tauto|].
  destruct (Z.eqb_spec total 0); [apply wp_ret, Hbad; tauto|].
  destruct (Z.eqb_spec bbb 0); [apply wp_ret, Hbad; tauto|].
  destruct (Z.eqb_spec ibb 0); [apply wp_ret, Hbad; tauto|].
  destruct (Z.eqb_spec itb 0); [apply wp_ret, Hbad; tauto|].
  destruct (Z.leb_spec total ds); [apply wp_ret, Hbad; tauto|]. cbn [orb].
  apply wp_bind, wp_fetch. apply wp_bind, (wp_modify (set_lay _)), wp_ret. by apply Hok.
Qed.

(** A superblock that passes the checks gives a sound layout. *)
Lemma validated_layout sb s :
  superblock_fits sb ->
  wp (err ← validate_superblock sb; if err =? SUCCESS then mount_inode sb else mret err)
    (fun err s' => (err = SUCCESS /\ regions_ok (lay s') /\
        bytes_per_block (lay s') = to_s32 (sb_bytes_per_block sb)) \/ (err = FS_INVALID /\ s' = s) \/
        (err = INVALID_ARGS /\ sb_bytes_per_block sb = 0)) s.
Proof.
  intros [_ Hf]. destruct sb as [sig bpb total bbs bbb ibs ibb its itb ds root]. simpl in Hf.
  repeat (apply Forall_cons in Hf as [? Hf]). clear Hf.
  apply wp_bind, wp_bind, wp_fetch. apply wp_bind, wp_fetch. apply wp_ret.
  cbn [sb_bytes_per_block sb_total_blocks sb_block_bitmap_start
    sb_block_bitmap_blocks sb_inode_bitmap_start sb_inode_bitmap_blocks sb_inode_table_start
    sb_inode_table_blocks sb_data_start_block sb_root_inode_id].
  match goal with |- wp (if ?x =? SUCCESS then _ else _) _ _ => set (err := x) end.
  assert (Herr : err = SUCCESS \/ err = FS_INVALID) by (unfold err; repeat case_match; auto).
  destruct Herr as [Ee|Ee]; rewrite Ee; cbn [Z.eqb SUCCESS FS_INVALID]; [|apply wp_ret; auto].
  unfold err in Ee. destruct (negb (signature_matches _)); [done|].
  destruct (_ || _ || _ || _) eqn:E1 in Ee; [done|].
  destruct (_ || _ || _ || _ || _ || _ || _ || _) eqn:E2 in Ee; [done|]. clear Ee err.
  rewrite !orb_false_iff, !negb_false_iff, !Z.eqb_eq, ?Z.eqb_neq in E1.
  rewrite !orb_false_iff, !negb_false_iff, !range_is_valid_spec, !Z.ltb_ge, Z.leb_gt, Z.eqb_eq in E2.
  destruct E1 as (((-> & ?) & Ec) & ->). destruct E2 as (((((((-> & Hb) & Hi) & Ht) & H1') & H2') & H3') & H4').
  unfold to_u32 in H1', H2', H3'. rewrite !wrap_small in H1', H2', H3' by lia.
  apply wp_fs_set_layout; simpl.
  - intros [?|?]; [auto | lia].
  - intros. left. split; [done|]. split; [|done]. constructor; simpl; rewrite ?to_u32_s32; lia.
Qed.

(** The layout [mkfs] chooses is sound, and its bitmaps have a bit for every
    block and every inode. *)
Lemma mkfs_layout_spec itb bpb usable s :
  0 < itb < 2 ^ 31 -> bpb ∈ [256; 512; 1024; 2048; 4096] -> usable = fs_block_count (lay s) -> 0 <= usable < 2 ^ 32 ->
  wp (mkfs_layout itb bpb usable) (fun err s' =>
    (err = INVALID_ARGS /\ s' = s) \/
    (err = SUCCESS /\ regions_ok (lay s') /\ s' = set_lay (lay s') s /\
     fs_base_block (lay s') = fs_base_block (lay s) /\
     bytes_per_block (lay s') = bpb /\ num_table_blocks (lay s') = itb /\
     total_fs_blocks (lay s') <= block_bitmap_blocks (lay s') * (8 * bpb) /\
     itb * (bpb / sizeof_inode) <= inode_bitmap_blocks (lay s') * (8 * bpb))) s.
Proof.
  intros Hi Hb Hu Hr. unfold mkfs_layout.
  assert (Hbp : 256 <= bpb <= 4096) by (set_unfold in Hb; lia).
  rewrite !(to_u32_small usable), !(to_u32_small bpb), !(to_u32_small itb) by lia.
  assert (Hn : 2 <= bpb / sizeof_inode <= 36).
  { unfold sizeof_inode. split; [apply Z.div_le_lower_bound | apply Z.lt_succ_r, Z.div_lt_upper_bound]; lia. }
  rewrite !(to_u32_small (bpb / _)), !(to_u32_small (bpb * 8)) by lia. set (ipb := bpb / sizeof_inode) in *.
  unfold to_u64. rewrite !(wrap_small 64 (itb * ipb)) by nia. unfold UINT32_MAX.
  destruct (Z.eqb_spec (itb * ipb) 0); [nia|]. destruct (Z.ltb_spec 4294967295 (itb * ipb)); [apply wp_ret; auto|].
  cbn [orb]. rewrite !(to_u32_small (itb * ipb)) by nia.
  assert (Hup : forall x, 0 <= x < 2 ^ 32 -> let q := to_u32 (x + bpb * 8 - 1) / (bpb * 8) in
    q = 0 \/ (x <= q * (8 * bpb) /\ 0 < q /\ q < 2 ^ 22)).
  { intros x Hx q. unfold q. destruct (decide (x + bpb * 8 - 1 < 2 ^ 32)).
    - rewrite to_u32_small by lia. destruct (decide (x = 0)) as [->|].
      + left. apply Z.div_small. lia.
      + right. pose proof (Z.div_mod (x + bpb * 8 - 1) (bpb * 8) ltac:(lia)).
        pose proof (Z.mod_pos_bound (x + bpb * 8 - 1) (bpb * 8) ltac:(lia)).
        assert ((x + bpb * 8 - 1) / (bpb * 8) < 2 ^ 22) by (apply Z.div_lt_upper_bound; lia). nia.
    - left. unfold to_u32, wrap.
      replace (x + bpb * 8 - 1) with ((x + bpb * 8 - 1 - 2 ^ 32) + 1 * 2 ^ 32) by lia.
      rewrite Z.mod_add, Z.mod_small by lia. apply Z.div_small. lia. }
  pose proof (Hup usable ltac:(lia)) as Hbb. pose proof (Hup (itb * ipb) ltac:(lia)) as Hib.
  cbv zeta in Hbb, Hib.
  set (bb := to_u32 (usable + bpb * 8 - 1) / (bpb * 8)) in *. set (ib := to_u32 (itb * ipb + bpb * 8 - 1) / (bpb * 8)) in *.
  assert (0 <= bb < 2 ^ 22) by lia. assert (0 <= ib < 2 ^ 22) by lia.
  rewrite !(to_u32_small (1 + bb)), !(to_u32_small (1 + bb + ib)), !(to_u32_small (1 + bb + ib + itb)) by lia.
  destruct (Z.leb_spec usable (1 + bb + ib + itb)); [apply wp_ret; auto|].
  apply wp_fs_set_layout; [auto|]. intros. right. split; [done|]. cbn [lay set_lay].
  assert (Es : to_s32 bpb = bpb /\ to_s32 itb = itb) by (unfold to_s32; rewrite !Z.mod_small; lia).
  destruct Es as [Es1 Es2]. rewrite Es1, Es2.
  split; [constructor; simpl; rewrite ?to_u32_small; lia|]. simpl. split_and!; done || lia.
Qed.

End regions.

(** ** Finding the region *)

Definition u32_at (data : list Z) (off : Z) : Z := unle (slice data (Z.to_nat off) 4).
Definition u64_at (data : list Z) (off : Z) : Z := unle (slice data (Z.to_nat off) 8).

Lemma slice_S data off n b :
  data !! off = Some b -> slice data off (S n) = b :: slice data (S off) n.
Proof. intros Hb. unfold slice. by rewrite (drop_S _ _ _ Hb). Qed.

Lemma slice_app data off n k : slice data off (n + k) = slice data off n ++ slice data (off + n) k.
Proof. unfold slice. rewrite <- drop_drop. rewrite <- take_take_drop. done. Qed.

Lemma unle_app bs cs : unle (bs ++ cs) = unle bs + 2 ^ (8 * Z.of_nat (length bs)) * unle cs.
Proof.
  induction bs as [|b bs IH]; simpl; [lia|]. rewrite IH.
  replace (8 * Z.of_nat (S (length bs))) with (8 + 8 * Z.of_nat (length bs)) by lia.
  rewrite Z.pow_add_r by lia. change (2 ^ 8) with 256. lia.
Qed.

Lemma lor_shift x y k : 0 <= k -> 0 <= x < 2 ^ k -> Z.lor x (Z.shiftl y k) = x + 2 ^ k * y.
Proof.
  intros Hk Hx. rewrite Z.lor_comm, Z.shiftl_mul_pow2, (lor_add _ _ k) by (done || apply Z.mod_mul; lia). lia.
Qed.

Section region.
Context {D : Type} `{DeviceLaws D}.
Implicit Types (s : fs_state D).

Lemma byte_at data (i : Z) :
  Forall is_byte data -> 0 <= i < Z.of_nat (length data) -> exists b, data !! Z.to_nat i = Some b /\ is_byte b.
Proof.
  intros Hb Hi. destruct (lookup_lt_is_Some_2 data (Z.to_nat i)) as [b E]; [lia|].
  exists b. split; [done|]. by eapply Forall_lookup_1.
Qed.

Lemma wp_read_le32 data off (Q : Z -> fs_state D -> Prop) s :
  Forall is_byte data -> 0 <= off -> off + 4 <= Z.of_nat (length data) ->
  Q (u32_at data off) s -> wp (read_le32 data off) Q s.
Proof.
  intros Hb Ho Hl HQ. unfold is_byte in *.
  destruct (byte_at data off) as (b0 & E0 & H0'); [done | lia|].
  destruct (byte_at data (off + 1)) as (b1 & E1 & H1'); [done | lia|].
  destruct (byte_at data (off + 2)) as (b2 & E2 & H2'); [done | lia|].
  destruct (byte_at data (off + 3)) as (b3 & E3 & H3'); [done | lia|]. unfold is_byte in *.
  apply wp_bind, (wp_get_byte _ _ b0); [done|]. apply wp_bind, (wp_get_byte _ _ b1); [done|].
  apply wp_bind, (wp_get_byte _ _ b2); [done|]. apply wp_bind, (wp_get_byte _ _ b3); [done|]. apply wp_ret.
  replace (Z.lor _ _) with (u32_at data off); [done|]. unfold u32_at.
  rewrite (slice_S _ _ _ b0), (slice_S _ _ _ b1), (slice_S _ _ _ b2), (slice_S _ _ _ b3) by (rewrite <- ?E0, <- ?E1, <- ?E2, <- ?E3; f_equal; lia).
  rewrite (lor_shift b0), (lor_shift _ b2), (lor_shift _ b3) by lia. change (slice data _ 0) with (@nil Z). simpl. lia.
Qed.

Lemma u32_bound data off : Forall is_byte data -> 0 <= u32_at data off < 2 ^ 32.
Proof.
  intros Hb. unfold u32_at. set (bs := slice _ _ _).
  assert (Forall is_byte bs) as Hbs by (unfold bs, slice; by apply Forall_take, Forall_drop).
  pose proof (unle_bound bs Hbs) as Hu. assert (length bs <= 4)%nat by (unfold bs, slice; rewrite length_take; lia).
  assert (2 ^ (8 * Z.of_nat (length bs)) <= 2 ^ 32) by (apply Z.pow_le_mono_r; lia). lia.
Qed.

Lemma wp_read_le64 data off (Q : Z -> fs_state D -> Prop) s :
  Forall is_byte data -> 0 <= off -> off + 8 <= Z.of_nat (length data) ->
  Q (u64_at data off) s -> wp (read_le64 data off) Q s.
Proof.
  intros Hb Ho Hl HQ. apply wp_bind, wp_read_le32; [done | lia | lia|].
  apply wp_bind, wp_read_le32; [done | lia | lia|]. apply wp_ret.
  rewrite lor_shift by (try apply u32_bound; done).
  replace (_ + _) with (u64_at data off); [done|]. unfold u64_at, u32_at.
  change 8%nat with (4 + 4)%nat. rewrite slice_app, unle_app.
  replace (length (slice data (Z.to_nat off) 4)) with 4%nat
    by (unfold slice; rewrite length_take, length_drop; lia).
  replace (Z.to_nat (off + 4)) with (Z.to_nat off + 4)%nat by lia. lia.
Qed.

Lemma u64_bound data off : Forall is_byte data -> 0 <= u64_at data off < 2 ^ 64.
Proof.
  intros Hb. unfold u64_at. set (bs := slice _ _ _).
  assert (Forall is_byte bs) as Hbs by (unfold bs, slice; by apply Forall_take, Forall_drop).
  pose proof (unle_bound bs Hbs) as Hu. assert (length bs <= 8)%nat by (unfold bs, slice; rewrite length_take; lia).
  assert (2 ^ (8 * Z.of_nat (length bs)) <= 2 ^ 64) by (apply Z.pow_le_mono_r; lia). lia.
Qed.

Lemma wp_bytes_equal data off rhs (Q : bool -> fs_state D -> Prop) s :
  0 <= off -> off + Z.of_nat (length rhs) <= Z.of_nat (length data) ->
  (forall b, Q b s) -> wp (bytes_equal data off rhs) Q s.
Proof.
  intros Ho Hl HQ. revert off Ho Hl. induction rhs as [|r rhs IH]; intros off Ho Hl; simpl in *; [by apply wp_ret|].
  destruct (lookup_lt_is_Some_2 data (Z.to_nat off)) as [b E]; [lia|].
  apply wp_bind, (wp_get_byte _ _ b); [done|]. destruct (b =? r); simpl; [apply IH; lia | by apply wp_ret].
Qed.

Lemma wp_gpt_guid_rank data off (Q : Z -> fs_state D -> Prop) s :
  0 <= off -> off + 16 <= Z.of_nat (length data) ->
  (forall r, 0 <= r <= 3 -> Q r s) -> wp (gpt_guid_rank data off) Q s.
Proof.
  intros Ho Hl HQ. apply wp_bind, wp_bytes_equal; [done | done|]. intros [|]; [apply wp_ret, HQ; lia|].
  apply wp_bind, wp_bytes_equal; [done | done|]. intros [|]; [apply wp_ret, HQ; lia|].
  apply wp_bind, wp_bytes_equal; [done | done|]. intros [|]; apply wp_ret, HQ; lia.
Qed.

(** The partitions the MBR and the GPT of a card list, as first block and
    number of blocks. *)
Definition gpt_entry_block (d : D) (i : Z) : list Z :=
  let header := contents d 1 in
  contents d (to_u64 (u64_at header 72 + i / (sector_size / u32_at header 84))).

Definition gpt_entry_off (d : D) (i : Z) : Z :=
  let header := contents d 1 in
  i mod (sector_size / u32_at header 84) * u32_at header 84.

Inductive listed (d : D) : Z -> Z -> Prop :=
| listed_mbr i :
    0 <= i < 4 -> u32_at (contents d 0) (446 + i * 16 + 12) <> 0 ->
    listed d (u32_at (contents d 0) (446 + i * 16 + 8)) (u32_at (contents d 0) (446 + i * 16 + 12))
| listed_gpt i :
    let first_lba := u64_at (gpt_entry_block d i) (gpt_entry_off d i + 32) in
    let last_lba := u64_at (gpt_entry_block d i) (gpt_entry_off d i + 40) in
    0 <= i < u32_at (contents d 1) 80 -> first_lba <= last_lba ->
    listed d first_lba (last_lba - first_lba + 1).

(** A card whose sectors hold an MBR and which is not being used. *)
Record card_ok s : Prop := {
  co_bytes : forall n, Forall is_byte (contents (dev s) n);
  co_size : 512 <= sector_size <= FS_MOUNT_BLOCK_BUFFER_SIZE;
  co_lock : block_device_lock s = false
}.

Lemma contents_length_nat (d : D) n : length (contents d n) = Z.to_nat sector_size.
Proof. pose proof (contents_length d n). lia. Qed.

(** Only the device has been touched, and only read. *)
Definition only_read s s' : Prop :=
  s' = set_dev (dev s') s /\ (forall n, contents (dev s') n = contents (dev s) n) /\ same_info s s'.

Lemma only_read_refl s : only_read s s.
Proof. split; [by destruct s | done]. Qed.

Lemma only_read_dev s s1 d' :
  only_read s s1 -> (forall n, contents d' n = contents (dev s1) n) -> same_info s1 (set_dev d' s1) ->
  only_read s (set_dev d' s1).
Proof.
  intros (E & Hc & Hi) Hn Hi'. split_and!.
  - rewrite E. done.
  - intros n. simpl. by rewrite Hn, Hc.
  - unfold same_info in *. simpl in *. congruence.
Qed.

(** What a configuration of the region may do. *)
Definition set_region (base count : Z) (l : fs_layout) : fs_layout :=
  mkLayout (bytes_per_block l) (num_table_blocks l) base count (total_fs_blocks l) (block_bitmap_start l)
    (block_bitmap_blocks l) (inode_bitmap_start l) (inode_bitmap_blocks l) (inode_table_start l) (data_start_block l).

Definition region_post s (device_blocks : Z) (err : Z) s' : Prop :=
  ((err = INVALID_ARGS \/ (err = FILE_READ_ERROR /\ exists n, bad_sector n)) /\ only_read s s') \/
  (err = SUCCESS /\ exists s1 start n, only_read s s1 /\ listed (dev s) start n /\
     0 < n /\ start + n < device_blocks /\
     s' = set_lay (set_region (start + n) (device_blocks - (start + n)) (lay s)) s1).

Lemma wp_region_after start n device_blocks s s1 :
  only_read s s1 -> listed (dev s) start n -> 0 <= start < 2 ^ 64 -> 0 <= n < 2 ^ 64 -> 0 <= device_blocks < 2 ^ 64 ->
  wp (set_fs_region_after_partition start n device_blocks) (region_post s device_blocks) s1.
Proof.
  intros Hor Hli Hs Hn Hd. unfold set_fs_region_after_partition.
  assert (Hbad : wp (mret INVALID_ARGS) (region_post s device_blocks) s1) by (apply wp_ret; left; auto).
  destruct (Z.eqb_spec n 0); [done|]. destruct (Z.leb_spec (to_u64 (start + n)) start) as [|Hlt]; [done|].
  destruct (Z.eqb_spec device_blocks 0); [done|].
  destruct (Z.leb_spec device_blocks (to_u64 (start + n))) as [|Hlt2]; [done|]. cbn [orb].
  assert (E : to_u64 (start + n) = start + n).
  { apply wrap_small. split; [lia|]. destruct (decide (start + n < 2 ^ 64)); [done|].
    exfalso. unfold to_u64, wrap in Hlt. replace (start + n) with (start + n - 2 ^ 64 + 1 * 2 ^ 64) in Hlt by lia.
    rewrite Z.mod_add, Z.mod_small in Hlt; lia. }
  rewrite E in *. unfold fs_set_block_region. destruct (Z.eqb_spec (device_blocks - (start + n)) 0); [lia|].
  unfold to_u64. rewrite wrap_small by lia.
  destruct (Z.ltb_spec (start + n + (device_blocks - (start + n))) (start + n)); [lia|].
  apply wp_bind, wp_fetch. apply wp_bind, (wp_modify (set_lay _)), wp_ret. right. split; [done|].
  exists s1, start, n. split_and!; try done; [lia|]. destruct Hor as (-> & _). done.
Qed.

(** The best entry so far is an entry of the table. *)
Definition best_ok s (best : gpt_best) : Prop :=
  best_rank best = 0 \/
  (listed (dev s) (best_start best) (best_blocks best) /\ 0 <= best_start best < 2 ^ 64 /\
   0 <= best_blocks best < 2 ^ 64).

Lemma wp_gpt_entries s n i device_blocks loaded data best s1 :
  card_ok s -> only_read s s1 -> best_ok s best -> 0 < device_blocks < 2 ^ 64 -> 0 <= i ->
  let header := contents (dev s) 1 in
  i + Z.of_nat n <= u32_at header 80 -> 128 <= u32_at header 84 <= sector_size ->
  (loaded = UINT64_MAX \/ data = contents (dev s) loaded) ->
  wp (gpt_entries n i (u64_at header 72) (sector_size / u32_at header 84) (u32_at header 84) device_blocks loaded
        data best)
    (fun r s' => only_read s s' /\ ((r = inl FILE_READ_ERROR /\ exists k, bad_sector k) \/ exists best', r = inr best' /\ best_ok s best')) s1.
Proof.
  intros Hok Hor Hbest Hdev Hi header Hcount Hsize Hload. revert i loaded data best s1 Hor Hbest Hi Hcount Hload.
  induction n as [|n IH]; intros i loaded data best s1 Hor Hbest Hi Hcount Hload; cbn [gpt_entries];
    [apply wp_ret; eauto|].
  set (eb := to_u64 _). destruct (Z.leb_spec device_blocks eb); [apply wp_ret; eauto|].
  assert (Heb : 0 <= eb) by (apply wrap_bound; lia).
  destruct Hok as [Hby Hsz Hlk]. apply wp_bind.
  apply (wp_mono _ (fun r s2 => only_read s s2 /\ ((r = None /\ exists k, bad_sector k) \/ r = Some (contents (dev s) eb)))).
  { destruct (Z.eqb_spec eb loaded) as [->|]; simpl.
    - apply wp_ret. split; [done|]. right. destruct Hload as [->| ->]; [unfold UINT64_MAX in *; lia | done].
    - apply wp_block_read; [by destruct Hor as (-> & _)|]. intros r d' Hn' Hi' Hr. split; [by apply only_read_dev|].
      destruct r; [|by left; eauto]. right. f_equal. rewrite Hr. apply Hor. }
  intros r s2 (Hor2 & [(-> & Hk)| ->]); [apply wp_ret; auto|].
  set (blk := contents (dev s) eb). set (off := i mod _ * _).
  assert (Hper : 0 < sector_size / u32_at header 84) by (apply Z.div_str_pos; lia).
  assert (Hoff : 0 <= off /\ off + 128 <= sector_size).
  { unfold off. pose proof (Z.mod_pos_bound i (sector_size / u32_at header 84) Hper).
    pose proof (Z.mul_div_le sector_size (u32_at header 84) ltac:(lia)). nia. }
  assert (Hbl : Z.of_nat (length blk) = sector_size) by apply contents_length.
  assert (Hbb : Forall is_byte blk) by apply Hby.
  apply wp_bind, wp_gpt_guid_rank; [lia | lia|]. intros rank Hrank. apply wp_bind.
  apply (wp_mono _ (fun best' s3 => s3 = s2 /\ best_ok s best')).
  { destruct (rank =? 0); [by apply wp_ret|].
    apply wp_bind, wp_read_le64; [done | lia | lia|]. apply wp_bind, wp_read_le64; [done | lia | lia|].
    pose proof (u64_bound blk (off + 32) Hbb). pose proof (u64_bound blk (off + 40) Hbb).
    destruct (Z.ltb_spec (u64_at blk (off + 40)) (u64_at blk (off + 32))); [by apply wp_ret|].
    destruct (Z.leb_spec device_blocks (u64_at blk (off + 40))); [by apply wp_ret|]. cbn [orb].
    destruct (_ || _); apply wp_ret; [|done]. split; [done|]. right. simpl. split; [|lia].
    apply (listed_gpt (dev s) i); [unfold header in *; lia | done]. }
  intros best' s3 [-> Hb']. apply IH; [done | done | lia | lia | by right].
Qed.

Lemma wp_configure_gpt s device_blocks s1 :
  card_ok s -> only_read s s1 -> 0 < device_blocks < 2 ^ 64 ->
  wp (configure_gpt_fs_region device_blocks sector_size) (region_post s device_blocks) s1.
Proof.
  intros Hok Hor Hdev. unfold configure_gpt_fs_region. pose proof Hok as [Hby Hsz Hlk].
  assert (Hbad : forall s2, only_read s s2 -> wp (mret INVALID_ARGS) (region_post s device_blocks) s2)
    by (intros; apply wp_ret; left; auto).
  destruct (Z.eqb_spec sector_size 0); [auto|]. destruct (Z.ltb_spec FS_MOUNT_BLOCK_BUFFER_SIZE sector_size); [auto|].
  cbn [orb]. apply wp_bind, wp_block_read; [by destruct Hor as (-> & _)|]. intros r d' Hn' Hi' Hr.
  assert (Hor2 : only_read s (set_dev d' s1)) by (by apply only_read_dev).
  destruct r as [data|]; [|apply wp_ret; left; eauto].
  assert (data = contents (dev s) 1) as -> by (rewrite Hr; apply Hor). clear Hr.
  set (h := contents (dev s) 1). assert (Hl : Z.of_nat (length h) = sector_size) by apply contents_length.
  apply wp_bind, wp_bytes_equal; [lia | simpl; lia|]. intros [|]; cbn [negb]; [|auto].
  apply wp_bind, wp_read_le64; [apply Hby | lia | lia|]. apply wp_bind, wp_read_le32; [apply Hby | lia | lia|].
  apply wp_bind, wp_read_le32; [apply Hby | lia | lia|].
  destruct (Z.eqb_spec (u64_at h 72) 0); [auto|]. destruct (Z.eqb_spec (u32_at h 80) 0); [auto|].
  destruct (Z.ltb_spec (u32_at h 84) 128); [auto|]. destruct (Z.ltb_spec sector_size (u32_at h 84)); [auto|]. cbn [orb].
  destruct (negb _); [auto|]. pose proof (u32_bound h 80 (Hby 1)).
  apply wp_bind. eapply wp_mono; [apply (wp_gpt_entries s); [done | done | by left | done | done | | done | by left]|].
  { fold h. lia. }
  intros r s3 (Hor3 & [(-> & Hk)|(best & -> & Hbest)]); [apply wp_ret; left; auto|].
  destruct (Z.eqb_spec (best_rank best) 0); [auto|]. destruct Hbest as [?|(Hb1 & Hb2 & Hb3)]; [done|].
  apply wp_region_after; done || lia.
Qed.

Lemma wp_mbr_partitions s n i device_blocks fallback s1 :
  card_ok s -> only_read s s1 -> 0 < device_blocks < 2 ^ 64 -> 0 <= i -> i + Z.of_nat n = 4 ->
  (forall st k, fallback = Some (st, k) -> listed (dev s) st k /\ 0 <= st < 2 ^ 32 /\ 0 <= k < 2 ^ 32) ->
  wp (mbr_partitions n i (contents (dev s) 0) device_blocks sector_size fallback) (region_post s device_blocks) s1.
Proof.
  intros Hok Hor Hdev. revert i fallback. pose proof Hok as [Hby Hsz Hlk]. set (mbr := contents (dev s) 0).
  assert (Hl : Z.of_nat (length mbr) = sector_size) by apply contents_length.
  induction n as [|n IH]; intros i fallback Hi Hn Hf; cbn [mbr_partitions].
  { destruct fallback as [[st k]|]; [|apply wp_ret; left; auto]. destruct (Hf st k eq_refl) as (? & ? & ?).
    apply wp_region_after; done || lia. }
  destruct (byte_at mbr (446 + i * 16 + 4)) as (ty & Ety & _); [apply Hby | lia|].
  apply wp_bind, (wp_get_byte _ _ ty); [done|]. apply wp_bind, wp_read_le32; [apply Hby | lia | lia|].
  apply wp_bind, wp_read_le32; [apply Hby | lia | lia|].
  set (st := u32_at mbr (446 + i * 16 + 8)). set (k := u32_at mbr (446 + i * 16 + 12)).
  destruct (Z.eqb_spec k 0); [apply IH; [lia | lia | done]|].
  destruct (ty =? 0xEE); [by apply wp_configure_gpt|].
  assert (Hli : listed (dev s) st k /\ 0 <= st < 2 ^ 32 /\ 0 <= k < 2 ^ 32).
  { split; [by apply listed_mbr; [lia|] | split; apply u32_bound, Hby]. }
  destruct (mbr_type_is_boot_partition ty).
  - destruct Hli as (? & ? & ?). apply wp_region_after; done || lia.
  - apply IH; [lia | lia|]. intros st' k'. destruct fallback as [p|]; [by apply Hf|]. by intros [= <- <-].
Qed.

Lemma wp_configure_default (qemu : bool) device_blocks s :
  card_ok s -> 0 < device_blocks < 2 ^ 64 ->
  sdhci_block_get_info (dev s) = Some (device_blocks, sector_size) ->
  wp (configure_default_fs_region qemu) (fun err s' =>
    if qemu then err = SUCCESS /\ s' = set_lay (set_region 0 device_blocks (lay s)) s
    else region_post s device_blocks err s') s.
Proof.
  intros Hok Hdev Hinfo. pose proof Hok as [Hby Hsz Hlk]. unfold configure_default_fs_region.
  apply wp_bind, wp_fetch. apply wp_bind, wp_fetch. rewrite Hinfo.
  destruct (Z.eqb_spec device_blocks 0); [lia|]. destruct (Z.eqb_spec sector_size 0); [lia|].
  destruct (Z.ltb_spec FS_MOUNT_BLOCK_BUFFER_SIZE sector_size); [lia|]. cbn [orb]. destruct qemu.
  { unfold fs_set_block_region. destruct (Z.eqb_spec device_blocks 0); [lia|]. unfold to_u64.
    rewrite wrap_small by lia. destruct (Z.ltb_spec (0 + device_blocks) 0); [lia|].
    apply wp_bind, wp_fetch. by apply wp_bind, (wp_modify (set_lay _)), wp_ret. }
  apply wp_bind, wp_block_read; [done|]. intros r d' Hn' Hi' Hr.
  assert (Hor : only_read s (set_dev d' s)) by (apply only_read_dev; [apply only_read_refl | done | done]).
  destruct r as [mbr|]; [|apply wp_ret; left; eauto]. subst mbr.
  assert (Hl : Z.of_nat (length (contents (dev s) 0)) = sector_size) by apply contents_length.
  destruct (byte_at (contents (dev s) 0) 510) as (b0 & E0 & _); [apply Hby | lia|].
  destruct (byte_at (contents (dev s) 0) 511) as (b1 & E1 & _); [apply Hby | lia|].
  apply wp_bind, (wp_get_byte _ _ b0); [done|]. apply wp_bind, (wp_get_byte _ _ b1); [done|].
  destruct (_ || _); [apply wp_ret; left; auto|]. apply wp_mbr_partitions; done || lia.
Qed.

End region.

(** ** Properties *)

(** A card with one FAT partition of 50 blocks at block 8. *)
Definition ram_card : fs_state ram :=
  let entry := [0; 0; 0; 0; 0x0C; 0; 0; 0; 8; 0; 0; 0; 50; 0; 0; 0] in
  let mbr := replicate 446 0 ++ entry ++ replicate 48 0 ++ [0x55; 0xAA] in
  mkFS (mkLayout 0 0 0 0 0 1 1 2 1 3 4) (mkCache ∅ 0 0 0 0 0 0 1) false false false (fun _ => true) {[0 := mbr]}.

Lemma ram_card_ok : card_ok ram_card.
Proof.
  constructor; [|vm_compute; done | done]. intros n. simpl. unfold ram_sector.
  destruct (decide (n = 0)) as [->|].
  - rewrite lookup_singleton_eq. simpl default. apply Forall_forall. intros b Hb.
    assert (Hall : forallb (fun b => (0 <=? b) && (b <? 256)) (resize 512 0
      (replicate 446 0 ++ [0; 0; 0; 0; 0x0C; 0; 0; 0; 8; 0; 0; 0; 50; 0; 0; 0] ++ replicate 48 0 ++ [0x55; 0xAA]))
      = true) by (vm_compute; reflexivity).
    rewrite forallb_forall in Hall. apply list_elem_of_In in Hb. specialize (Hall b Hb). unfold is_byte. lia.
  - rewrite lookup_singleton_ne by done. simpl default. rewrite resize_nil.
    apply Forall_replicate. unfold is_byte. lia.
Qed.

(** [configure_default_fs_region] puts the file system behind a partition
    of the card.  When it succeeds, the region starts right after the last
    block of a partition that the MBR or the GPT of the card lists, is not
    empty and ends at the end of the card (on QEMU it is the whole card); when
    it fails, because of a bad sector or of a table it cannot use, nothing has
    changed.  Nothing is written, and no malformed table
    makes it read outside its buffers. *)
Theorem fs_region_after_partition {D} `{DeviceLaws D} (qemu : bool) device_blocks (s : fs_state D) :
  card_ok s -> 0 < device_blocks < 2 ^ 64 ->
  sdhci_block_get_info (dev s) = Some (device_blocks, sector_size) ->
  wp (configure_default_fs_region qemu) (fun err s' =>
    if qemu then err = SUCCESS /\ s' = set_lay (set_region 0 device_blocks (lay s)) s
    else region_post s device_blocks err s') s.
Proof. apply wp_configure_default. Qed.

Lemma fs_region_after_partition_witness :
  wp (configure_default_fs_region false) (region_post ram_card 200) ram_card.
Proof.
  apply (fs_region_after_partition false 200 ram_card); [exact ram_card_ok | lia | reflexivity].
Defined.

(** C31. A superblock that [validate_superblock] accepts and [mount_inode] takes
    over gives a sound layout: superblock, block bitmap, inode bitmap, inode
    table and data follow each other without overlap inside the file system. *)
Theorem mounted_layout_sound {D} `{BlockDevice D} (sb : superblock_st) (s : fs_state D) :
  superblock_fits sb ->
  wp (err ← validate_superblock sb; if err =? SUCCESS then mount_inode sb else mret err)
    (fun err s' => (err = SUCCESS /\ regions_ok (lay s') /\
        bytes_per_block (lay s') = to_s32 (sb_bytes_per_block sb)) \/ (err = FS_INVALID /\ s' = s) \/
        (err = INVALID_ARGS /\ sb_bytes_per_block sb = 0)) s.
Proof. apply validated_layout. Qed.

Definition ram_super : superblock_st := superblock_of (mkLayout 512 2 100 64 64 1 1 2 1 3 8) 2 512.

Lemma mounted_layout_sound_witness :
  superblock_fits ram_super /\
  wp (err ← validate_superblock ram_super; if err =? SUCCESS then mount_inode ram_super else mret err)
    (fun err s' => (err = SUCCESS /\ regions_ok (lay s') /\ bytes_per_block (lay s') = 512) \/
       (err = FS_INVALID /\ s' = ram_fs) \/ (err = INVALID_ARGS /\ 512 = 0)) ram_fs.
Proof.
  assert (Hf : superblock_fits ram_super) by (constructor; [done | repeat constructor; vm_compute; done]).
  split; [exact Hf | exact (mounted_layout_sound ram_super ram_fs Hf)].
Defined.

(** The layout [mkfs] computes is sound too, whatever the size of the card
    and of the inode table: the 32-bit arithmetic never makes regions overlap,
    and the bitmaps have a bit for every block and for every inode. *)
Theorem mkfs_layout_sound {D} `{BlockDevice D} itb bpb usable (s : fs_state D) :
  0 < itb < 2 ^ 31 -> bpb ∈ [256; 512; 1024; 2048; 4096] -> usable = fs_block_count (lay s) -> 0 <= usable < 2 ^ 32 ->
  wp (mkfs_layout itb bpb usable) (fun err s' =>
    (err = INVALID_ARGS /\ s' = s) \/
    (err = SUCCESS /\ regions_ok (lay s') /\ s' = set_lay (lay s') s /\
     fs_base_block (lay s') = fs_base_block (lay s) /\
     bytes_per_block (lay s') = bpb /\ num_table_blocks (lay s') = itb /\
     total_fs_blocks (lay s') <= block_bitmap_blocks (lay s') * (8 * bpb) /\
     itb * (bpb / sizeof_inode) <= inode_bitmap_blocks (lay s') * (8 * bpb))) s.
Proof. apply mkfs_layout_spec. Qed.

Lemma mkfs_layout_sound_witness :
  exists s' : fs_state ram, mkfs_layout 2 512 64 ram_fs = Ok (SUCCESS, s') /\ regions_ok (lay s').
Proof.
  destruct (mkfs_layout_sound 2 512 64 ram_fs) as (err & s' & E & [(-> & _)|(-> & Hr & _)]);
    [lia | set_solver | reflexivity | lia | discriminate E | by exists s'].
Defined.
