(* ===== verification/Inode.v ===== *)
(** * Inodes on disk

    kernel/fs/inodes.h and the parts of kernel/fs/inodes.c that read and write
    the inode table and the two bitmaps: the format of an inode,
    [get_inode_raw], [write_inode], [add_new_file_inode], [find_free_block],
    [find_free_inode] and the allocation bits. *)

From S2P Require Import Prelude Errors Bytes Services BlockCache Bitmap Layout.

(** ** Formats *)

Definition DIRECTORY_TYPE : Z := 0.
Definition FILE_TYPE : Z := 1.
Definition SUPERBLOCK_BLOCK : Z := 0.

(** [attributes_t]; [i_rdev] is the pair of major and minor, [fops] and
    [i_ptr] (the union of the pipe, directory and process pointers) are
    addresses. *)
Record attributes_t := mkAttr {
  i_links_count : Z;
  i_type : Z;
  i_perm : Z;
  i_size : Z;
  i_blocks : Z;
  i_mtime : Z;
  i_rdev : Z * Z;
  i_fops : Z;
  i_ptr : Z
}.

Record inode_st := mkInode {
  metadata : attributes_t;
  blocks : list Z
}.

Definition null_attr : attributes_t := mkAttr 0 0 0 0 0 0 (0, 0) 0 0.

(** [memset(&node, 0, sizeof(node))] *)
Definition null_inode : inode_st := mkInode null_attr (replicate 15 0).

Fixpoint encode_array (bs : list Z) : list Z :=
  match bs with [] => [] | b :: bs => le 4 b ++ encode_array bs end.

Fixpoint decode_array (n : nat) (data : list Z) : list Z :=
  match n with O => [] | S n => unle (take 4 data) :: decode_array n (drop 4 data) end.

(** The AArch64 layout: 48 bytes of attributes with two gaps of four bytes,
    fifteen block numbers, four bytes of padding. *)
Definition encode_inode (node : inode_st) : list Z :=
  let m := metadata node in
  le 2 (i_links_count m) ++ le 1 (i_type m) ++ le 1 (i_perm m) ++ le 4 (i_size m) ++ le 4 (i_blocks m) ++
  le 4 0 ++ le 8 (i_mtime m) ++ le 2 (fst (i_rdev m)) ++ le 2 (snd (i_rdev m)) ++ le 4 0 ++
  le 8 (i_fops m) ++ le 8 (i_ptr m) ++ encode_array (resize 15 0 (blocks node)) ++ le 4 0.

Definition decode_inode (data : list Z) : inode_st :=
  let at_ off n := unle (slice data off n) in
  mkInode (mkAttr (at_ 0 2)%nat (at_ 2 1)%nat (at_ 3 1)%nat (at_ 4 4)%nat (at_ 8 4)%nat (at_ 16 8)%nat
             (at_ 24 2, at_ 26 2)%nat (at_ 32 8)%nat (at_ 40 8)%nat)
    (decode_array 15 (drop 48 data)).

Record inode_fits (node : inode_st) : Prop := {
  if_links : 0 <= i_links_count (metadata node) < 2 ^ 16;
  if_type : 0 <= i_type (metadata node) < 2 ^ 8;
  if_perm : 0 <= i_perm (metadata node) < 2 ^ 8;
  if_size : 0 <= i_size (metadata node) < 2 ^ 32;
  if_blocks : 0 <= i_blocks (metadata node) < 2 ^ 32;
  if_mtime : 0 <= i_mtime (metadata node) < 2 ^ 64;
  if_major : 0 <= fst (i_rdev (metadata node)) < 2 ^ 16;
  if_minor : 0 <= snd (i_rdev (metadata node)) < 2 ^ 16;
  if_fops : 0 <= i_fops (metadata node) < 2 ^ 64;
  if_ptr : 0 <= i_ptr (metadata node) < 2 ^ 64;
  if_length : length (blocks node) = 15%nat;
  if_entries : Forall (fun b => 0 <= b < 2 ^ 32) (blocks node)
}.

Lemma length_encode_array bs : length (encode_array bs) = (4 * length bs)%nat.
Proof. induction bs as [|b bs IH]; simpl; [done|]. rewrite IH. lia. Qed.

Lemma decode_encode_array bs rest :
  Forall (fun b => 0 <= b < 2 ^ 32) bs -> decode_array (length bs) (encode_array bs ++ rest) = bs.
Proof.
  induction 1 as [|b bs Hb _ IH]; [done|]. cbn [length decode_array encode_array].
  rewrite <- app_assoc, take_app_length', drop_app_length' by (by rewrite length_le).
  by rewrite unle_le_small, IH.
Qed.

Lemma length_encode_inode node : length (encode_inode node) = 112%nat.
Proof.
  unfold encode_inode. by rewrite !length_app, !length_le, length_encode_array, length_resize.
Qed.

Lemma decode_encode_inode node : inode_fits node -> decode_inode (encode_inode node) = node.
Proof.
  intros [H1 H2 H3 H4 H5 H6 H7 H8 H9 H10 H11 H12].
  destruct node as [[links ty perm sz nb mt [mj mn] fops ptr] bl]. cbn [metadata blocks i_links_count i_type
    i_perm i_size i_blocks i_mtime i_rdev i_fops i_ptr fst snd] in *.
  unfold decode_inode, encode_inode. cbn [metadata blocks i_links_count i_type
    i_perm i_size i_blocks i_mtime i_rdev i_fops i_ptr fst snd].
  rewrite resize_all_alt by done.
  set (arr := encode_array bl). f_equal.
  - f_equal; try (unfold slice; cbn [drop take app le]; 
      match goal with |- unle ?l = ?x => change l with (le (length l) x); by apply unle_le_small end).
    f_equal; (unfold slice; cbn [drop take app le];
      match goal with |- unle ?l = ?x => change l with (le (length l) x); by apply unle_le_small end).
  - cbn [drop app le]. unfold arr. rewrite <- H11. by apply decode_encode_array.
Qed.

#[export] Instance inode_format : Format inode_st := {|
  fmt_size := 112;
  encode := encode_inode;
  decode := decode_inode;
  fits := inode_fits;
  encode_length := length_encode_inode;
  decode_encode := decode_encode_inode
|}.

(** ** Operations *)

Section table.
Context {D : Type} `{BlockDevice D}.
(** The addresses of the default operation tables. *)
Context (default_fops default_dir_fops : Z).
Implicit Types (s : fs_state D).

Abbreviation FS := (stM (fs_state D)).

Definition with_metadata (m : attributes_t) (node : inode_st) : inode_st := mkInode m (blocks node).

Definition with_fops (fops : Z) (m : attributes_t) : attributes_t :=
  mkAttr (i_links_count m) (i_type m) (i_perm m) (i_size m) (i_blocks m) (i_mtime m) (i_rdev m) fops (i_ptr m).

Definition normalize_default_inode_fops (node : inode_st) : inode_st :=
  if i_type (metadata node) =? DIRECTORY_TYPE then with_metadata (with_fops default_dir_fops (metadata node)) node
  else if i_type (metadata node) =? FILE_TYPE then with_metadata (with_fops default_fops (metadata node)) node
  else node.

(** [INODES_PER_BLOCK] *)
Definition INODES_PER_BLOCK (l : fs_layout) : Z := bytes_per_block l / sizeof_inode.

Definition get_inode_capacity (l : fs_layout) : Z :=
  to_u32 (to_u32 (num_table_blocks l) * to_u32 (INODES_PER_BLOCK l)).

Definition set_block_allocated (block_num : Z) (allocated : bool) : FS Z :=
  l ← fetch lay;
  set_bit_in_bitmap_range (block_bitmap_start l) (block_bitmap_blocks l) (total_fs_blocks l) block_num allocated.

Definition set_inode_allocated (inode_id : Z) (allocated : bool) : FS Z :=
  if inode_id =? 0 then mret INVALID_ARGS else
  l ← fetch lay;
  set_bit_in_bitmap_range (inode_bitmap_start l) (inode_bitmap_blocks l) (get_inode_capacity l)
    (inode_id - 1) allocated.

(** The block of the inode table and the position in it of an inode. *)
Definition inode_place (l : fs_layout) (id : Z) : Z * Z :=
  (to_u32 (to_u32 (id - 1) / INODES_PER_BLOCK l + inode_table_start l), to_u32 (id - 1) mod INODES_PER_BLOCK l).

(** [kmalloc] of a block whose result is not tested, followed by [read_block]
    into it. *)
Definition read_into_new (num : Z) : FS (Z * list Z) :=
  l ← fetch lay;
  ok ← kmalloc (bytes_per_block l);
  '(err, data) ← read_block num;
  if (err =? SUCCESS) && negb ok then fault else mret (err, data).

Definition get_inode_raw (id : Z) : FS (Z * inode_st) :=
  l ← fetch lay;
  if INODES_PER_BLOCK l =? 0 then fault else
  let '(block_with_inode, inode_num_in_block) := inode_place l id in
  '(err, data) ← read_into_new block_with_inode;
  if negb (err =? 0) then mret (err, null_inode) else
  mret (SUCCESS, normalize_default_inode_fops (get_struct data (Z.to_nat inode_num_in_block))).

Definition write_inode (node : inode_st) (id : Z) : FS Z :=
  l ← fetch lay;
  if INODES_PER_BLOCK l =? 0 then fault else
  let '(block_with_inode, inode_num_in_block) := inode_place l id in
  '(err, data) ← read_into_new block_with_inode;
  if negb (err =? 0) then mret err else
  write_block (put_struct_at data (Z.to_nat inode_num_in_block) node) block_with_inode.

(** The error code and, on success, the block. *)
Definition find_free_block (update_taken : bool) : FS (Z * Z) :=
  l ← fetch lay;
  '(err_code, free_block_u) ← find_free_from_bitmap_range true (block_bitmap_start l) (block_bitmap_blocks l)
     (total_fs_blocks l) update_taken;
  if negb (err_code =? SUCCESS) then mret (err_code, 0) else mret (SUCCESS, default 0 free_block_u).

Definition find_free_inode (update_taken : bool) : FS (Z * Z) :=
  l ← fetch lay;
  '(err_code, free_block_u) ← find_free_from_bitmap_range true (inode_bitmap_start l) (inode_bitmap_blocks l)
     (get_inode_capacity l) update_taken;
  if negb (err_code =? SUCCESS) then mret (err_code, 0) else mret (SUCCESS, to_u32 (default 0 free_block_u + 1)).

(** The new inode; [now] is [timer_get_ticks()]. *)
Definition new_file_inode (file_type perm now fops : Z) : inode_st :=
  mkInode (mkAttr 0 (to_u8 file_type) perm 0 0 now (0, 0) fops 0) (replicate 15 0).

Definition add_new_file_inode (now file_type perm fops : Z) : FS (Z * Z) :=
  '(err_code, inode_num) ← find_free_inode true;
  if negb (err_code =? SUCCESS) then mret (err_code, 0) else
  l ← fetch lay;
  if INODES_PER_BLOCK l =? 0 then fault else
  let '(block_with_inode, inode_idx_in_block) := inode_place l inode_num in
  '(err_code, data) ← read_into_new block_with_inode;
  if negb (err_code =? SUCCESS) then mret (err_code, inode_num) else
  err_code ← write_block (put_struct_at data (Z.to_nat inode_idx_in_block)
    (new_file_inode file_type perm now fops)) block_with_inode;
  mret (err_code, inode_num).

End table.

(** ** Rules for the block layer

    For clients that do not care what the cache holds. *)

Section rules.
Context {D : Type} `{DeviceLaws D}.
Implicit Types (s : fs_state D).

(** A step that changes no block. *)
Definition kept s s' : Prop := ready s' /\ lay s' = lay s /\ unchanged s s'.

(** A step that changes at most the block [n]. *)
Definition kept_but (n : Z) s s' : Prop :=
  ready s' /\ lay s' = lay s /\ forall m, m <> n -> fs_block s' m = fs_block s m.

Lemma kept_refl s : ready s -> kept s s.
Proof. done. Qed.

Lemma kept_block s s' n : kept s s' -> fs_block s' n = fs_block s n.
Proof. intros (_ & El & Hu). by apply unchanged_block. Qed.

Lemma kept_kept_but n s s' : kept s s' -> kept_but n s s'.
Proof. intros Hk. pose proof Hk as (? & ? & _). split_and!; try done. intros m _. by apply kept_block. Qed.

Lemma kept_trans s1 s2 s3 : kept s1 s2 -> kept s2 s3 -> kept s1 s3.
Proof. intros (_ & E1 & U1) (R & E2 & U2). split_and!; [done | congruence | by eapply unchanged_trans]. Qed.

Lemma kept_but_trans n s1 s2 s3 : kept_but n s1 s2 -> kept_but n s2 s3 -> kept_but n s1 s3.
Proof.
  intros (_ & E1 & U1) (R & E2 & U2). split_and!; [done | congruence |]. intros m Hm. by rewrite U2, U1.
Qed.

Lemma ready_layout s : ready s -> layout_ok (lay s).
Proof. intros [[L HL] _]. by eapply cached_layout. Qed.

Lemma wp_read_ready n s :
  ready s -> 0 <= n ->
  wp (read_block n) (fun r s' => kept s s' /\
    ((r = (SUCCESS, fs_block s n) /\ n < fs_block_count (lay s)) \/
     (r = (FILE_READ_ERROR, []) /\ bad_block (lay s) n))) s.
Proof.
  intros [[L HL] Hb] Hn. eapply wp_mono; [by apply (read_block_spec n L)|].
  intros r s' ((El & _ & Eb & _) & Hu & [(-> & Hc & HL')|(-> & _ & Hbad & HL')]).
  - split; [|auto]. split_and!; try done. split; [eauto | congruence].
  - split; [|auto]. split_and!; try done. split; [eauto | congruence].
Qed.

Lemma wp_write_ready n data s :
  ready s -> 0 <= n -> bytes_per_block (lay s) <= Z.of_nat (length data) ->
  wp (write_block data n) (fun err s' => kept_but n s s' /\
    ((err = SUCCESS /\ n < fs_block_count (lay s) /\
      fs_block s' n = take (Z.to_nat (bytes_per_block (lay s))) data) \/
     (err = FILE_WRITE_ERROR /\ bad_block (lay s) n))) s.
Proof.
  intros [[L HL] Hb] Hn Hd. eapply wp_mono; [by apply (write_block_spec n data L)|].
  intros err s' ((El & _ & Eb & _) & Ho & Hr).
  assert (Hr' : (exists L', cached s' L') /\ fs_bitmap_lock s' = false).
  { split; [destruct Hr as [(_ & _ & _ & ?)|(_ & _ & ?)]; eauto | congruence]. }
  split; [|destruct Hr as [(-> & ? & ? & _)|(-> & ? & _)]; auto].
  split_and!; try done. intros m Hm. by apply (others_same_block n).
Qed.

Lemma kept_heap s h : ready s -> (forall n, h n = true) -> kept s (set_heap h s).
Proof.
  intros [[L ([l Hl] & Hlen & Hlk)] Hb] Hh. split_and!; try done. split; [|done]. exists L.
  split; [exists l; apply (listing_frame s); done || apply Hl | done].
Qed.

(** [kmalloc] of a block. *)
Lemma wp_kmalloc_block s (Q : bool -> fs_state D -> Prop) :
  ready s -> (forall s', kept s s' -> Q true s') -> wp (kmalloc (bytes_per_block (lay s))) Q s.
Proof.
  intros Hr HQ. pose proof (ready_layout _ Hr) as (_ & Hb & _). destruct Hr as [[L HL] Hlk].
  apply wp_kmalloc_granted; [done | exact (cached_heap _ _ HL)|].
  intros h Hh. apply HQ, kept_heap; [|done]. split; eauto.
Qed.

Lemma wp_read_into_new n s :
  ready s -> 0 <= n ->
  wp (read_into_new n) (fun r s' => kept s s' /\
    ((r = (SUCCESS, fs_block s n) /\ n < fs_block_count (lay s)) \/
     (r = (FILE_READ_ERROR, []) /\ bad_block (lay s) n))) s.
Proof.
  intros Hr Hn. apply wp_bind, wp_fetch. apply wp_bind, wp_kmalloc_block; [done|]. intros s1 Hk1.
  pose proof Hk1 as (Hr1 & El1 & _). apply wp_bind. eapply wp_mono; [by apply wp_read_ready|].
  intros [err data] s2 (Hk2 & Hc).
  assert (E : (err, data) = (SUCCESS, fs_block s n) /\ n < fs_block_count (lay s) \/
    (err, data) = (FILE_READ_ERROR, []) /\ bad_block (lay s) n).
  { destruct Hc as [(E & Hlt)|(E & Hb)]; [left | right; by rewrite <- El1]. rewrite El1 in Hlt. split; [|done].
    rewrite E. by rewrite (kept_block s s1). }
  rewrite andb_false_r. apply wp_ret. split; [by eapply kept_trans | done].
Qed.

(** ** The inode table *)

(** A mounted file system that no operation is using. *)
Record fs_ok s : Prop := {
  ok_ready : ready s;
  ok_regions : regions_ok (lay s);
  ok_inode : sizeof_inode <= bytes_per_block (lay s);
  ok_block_bits : block_bitmap_blocks (lay s) * bits_per_block (lay s) <= 2 ^ 32;
  ok_inode_bits : inode_bitmap_blocks (lay s) * bits_per_block (lay s) <= 2 ^ 32;
  ok_inodes : to_u32 (num_table_blocks (lay s)) * INODES_PER_BLOCK (lay s) < 2 ^ 32
}.

Lemma fs_ok_lay s s' : fs_ok s -> ready s' -> lay s' = lay s -> fs_ok s'.
Proof. intros [? ? ? ? ? ?] Hr El. constructor; rewrite ?El; done. Qed.

Lemma block_bitmap_ok s : fs_ok s -> bitmap_ok s (block_bitmap_start (lay s)) (block_bitmap_blocks (lay s)).
Proof. intros [_ [] _ ? _ _]. constructor; lia. Qed.

Lemma inode_bitmap_ok s : fs_ok s -> bitmap_ok s (inode_bitmap_start (lay s)) (inode_bitmap_blocks (lay s)).
Proof. intros [_ [] _ _ ? _]. constructor; lia. Qed.

Lemma inode_capacity_eq s :
  fs_ok s -> get_inode_capacity (lay s) = to_u32 (num_table_blocks (lay s)) * INODES_PER_BLOCK (lay s) /\
    0 < INODES_PER_BLOCK (lay s).
Proof.
  intros Hok. destruct (ok_regions _ Hok). pose proof (ok_inode _ Hok). pose proof (ok_inodes _ Hok).
  assert (0 < INODES_PER_BLOCK (lay s)) by (apply Z.div_str_pos; unfold sizeof_inode in *; lia).
  split; [|done]. unfold get_inode_capacity. rewrite (to_u32_small (INODES_PER_BLOCK _)) by nia.
  apply to_u32_small. nia.
Qed.

(** The inode [id] as the table holds it. *)
Definition inode_at s (id : Z) : inode_st :=
  let '(b, i) := inode_place (lay s) id in get_struct (fs_block s b) (Z.to_nat i).

(** The inode numbers of the file system. *)
Definition inode_id s (id : Z) : Prop := 1 <= id <= get_inode_capacity (lay s).

Lemma inode_place_ok s id :
  fs_ok s -> inode_id s id ->
  exists b i, inode_place (lay s) id = (b, i) /\
    b = inode_table_start (lay s) + (id - 1) / INODES_PER_BLOCK (lay s) /\
    i = (id - 1) mod INODES_PER_BLOCK (lay s) /\ 0 <= i < INODES_PER_BLOCK (lay s) /\
    inode_table_start (lay s) <= b < data_start_block (lay s) /\
    (i + 1) * sizeof_inode <= bytes_per_block (lay s).
Proof.
  intros Hok [Hlo Hhi]. destruct (inode_capacity_eq s Hok) as [Ecap Hpos]. destruct (ok_regions _ Hok).
  set (ipb := INODES_PER_BLOCK (lay s)) in *. eexists _, _. split; [reflexivity|]. fold ipb.
  pose proof (ok_inodes _ Hok) as Hoi. fold ipb in Hoi. rewrite (to_u32_small (id - 1)) by lia.
  pose proof (Z.mod_pos_bound (id - 1) ipb Hpos).
  assert (0 <= (id - 1) / ipb < to_u32 (num_table_blocks (lay s)))
    by (split; [apply Z.div_pos; lia | apply Z.div_lt_upper_bound; lia]).
  rewrite to_u32_small by lia. split; [lia|]. split; [done|]. split; [done|]. split; [lia|].
  assert (ipb * sizeof_inode <= bytes_per_block (lay s)).
  { unfold ipb, INODES_PER_BLOCK. rewrite Z.mul_comm. by apply Z.mul_div_le. }
  unfold sizeof_inode in *. nia.
Qed.

Lemma inode_place_inj s id id' :
  fs_ok s -> inode_id s id -> inode_id s id' -> inode_place (lay s) id = inode_place (lay s) id' -> id = id'.
Proof.
  intros Hok Hi Hi' E. destruct (inode_place_ok s id Hok Hi) as (b & i & E1 & Eb & Ei & _).
  destruct (inode_place_ok s id' Hok Hi') as (b' & i' & E2 & Eb' & Ei' & _).
  destruct (inode_capacity_eq s Hok) as [_ Hpos].
  rewrite E1, E2 in E. apply pair_eq in E as [-> ->].
  pose proof (Z.div_mod (id - 1) (INODES_PER_BLOCK (lay s)) ltac:(lia)).
  pose proof (Z.div_mod (id' - 1) (INODES_PER_BLOCK (lay s)) ltac:(lia)). nia.
Qed.

(** A step that stays inside the inode table. *)
Definition table_only s s' : Prop :=
  fs_ok s' /\ lay s' = lay s /\
  forall m, m < inode_table_start (lay s) \/ data_start_block (lay s) <= m -> fs_block s' m = fs_block s m.

(** ... and there changes at most the inode [id]. *)
Definition inodes_but (id : Z) s s' : Prop :=
  forall id', inode_id s id' -> id' <> id -> inode_at s' id' = inode_at s id'.

Lemma kept_inode s s' id : kept s s' -> inode_at s' id = inode_at s id.
Proof.
  intros Hk. pose proof Hk as (_ & El & _). unfold inode_at. rewrite El.
  destruct (inode_place (lay s) id). by rewrite (kept_block s s').
Qed.

Lemma wp_get_inode_raw fops dir_fops id s :
  fs_ok s -> inode_id s id ->
  wp (get_inode_raw fops dir_fops id) (fun r s' => kept s s' /\
    (r = (SUCCESS, normalize_default_inode_fops fops dir_fops (inode_at s id)) \/
     (r = (FILE_READ_ERROR, null_inode) /\ flaky (lay s)))) s.
Proof.
  intros Hok Hid. destruct (inode_capacity_eq s Hok) as [_ Hpos].
  destruct (inode_place_ok s id Hok Hid) as (b & i & E & _ & _ & Hi & Hb & Hf). destruct (ok_regions _ Hok).
  apply wp_bind, wp_fetch. destruct (Z.eqb_spec (INODES_PER_BLOCK (lay s)) 0); [lia|].
  unfold inode_at. rewrite E. apply wp_bind. eapply wp_mono; [apply wp_read_into_new; [apply Hok | lia]|].
  intros [err data] s1 (Hk & [(Er & _)|(Er & Hbad)]); apply pair_eq in Er as [-> ->];
    cbn [negb Z.eqb SUCCESS FILE_READ_ERROR]; apply wp_ret; [auto|].
  split; [done|]. right. split; [done|]. apply (bad_flaky _ _ Hbad). lia.
Qed.

(** The block of an inode with that inode replaced, on the device. *)
Lemma stored_inode s s1 id b i node :
  fs_ok s -> inode_id s id -> inode_place (lay s) id = (b, i) ->
  fits node -> lay s1 = lay s -> (forall m, m <> b -> fs_block s1 m = fs_block s m) ->
  fs_block s1 b = put_struct_at (fs_block s b) (Z.to_nat i) node ->
  inode_at s1 id = node /\ inodes_but id s s1.
Proof.
  intros Hok Hid E Hfit El Hoth Hb. destruct (inode_place_ok s id Hok Hid) as (b0 & i0 & E0 & _ & _ & Hi & _ & Hf).
  rewrite E in E0. apply pair_eq in E0 as [<- <-].
  pose proof (block_length s b (ready_layout _ (ok_ready _ Hok))) as Hlen.
  assert (Hfm : ((Z.to_nat i + 1) * fmt_size <= length (fs_block s b))%nat).
  { unfold fmt_size. simpl. unfold sizeof_inode in Hf. lia. }
  split.
  - unfold inode_at. rewrite El, E, Hb. by apply get_put_struct.
  - intros id' Hid' Hne. unfold inode_at. rewrite El.
    destruct (inode_place_ok s id' Hok Hid') as (b' & i' & E' & _ & _ & Hi' & _). rewrite E'.
    destruct (decide (b' = b)) as [->|]; [|by rewrite Hoth].
    rewrite Hb. apply get_put_struct_ne; [done|]. intros Eii.
    apply Hne. apply (inode_place_inj s); [done | done | done|]. rewrite E, E'. f_equal. lia.
Qed.

Lemma wp_store_inode s s1 id b i node :
  fs_ok s -> kept s s1 -> inode_id s id -> inode_place (lay s) id = (b, i) -> inode_fits node ->
  wp (write_block (put_struct_at (fs_block s b) (Z.to_nat i) node) b) (fun err s' => table_only s s' /\
    ((err = SUCCESS /\ inode_at s' id = node /\ inodes_but id s s') \/ (err = FILE_WRITE_ERROR /\ flaky (lay s)))) s1.
Proof.
  intros Hok Hk Hid E Hfit. destruct (inode_place_ok s id Hok Hid) as (b0 & i0 & E0 & _ & _ & Hi & Hb & Hf).
  rewrite E in E0. apply pair_eq in E0 as [<- <-]. destruct (ok_regions _ Hok).
  pose proof (block_length s b (ready_layout _ (ok_ready _ Hok))) as Hlen.
  pose proof Hk as (Hr1 & El1 & _).
  assert (Hl : length (put_struct_at (fs_block s b) (Z.to_nat i) node) = length (fs_block s b)).
  { apply (length_put_struct (A := inode_st)). unfold fmt_size. simpl. unfold sizeof_inode in Hf. lia. }
  eapply wp_mono; [apply wp_write_ready; [done | lia | rewrite El1; lia]|].
  intros err s2 ((Hr2 & El2 & Ho2) & Hw). rewrite El1 in *.
  assert (Ho : forall m, m <> b -> fs_block s2 m = fs_block s m).
  { intros m Hm. rewrite Ho2 by done. by apply kept_block. }
  split.
  - split_and!; [by apply (fs_ok_lay s) | done | intros m Hm; apply Ho; lia].
  - destruct Hw as [(-> & _ & Hw)|(-> & Hbad)]; [left | right; split; [done | apply (bad_flaky _ _ Hbad); lia]]. split; [done|].
    apply (stored_inode s s2 id b i); try done. rewrite Hw. apply take_ge. lia.
Qed.

Lemma wp_write_inode id node s :
  fs_ok s -> inode_id s id -> inode_fits node ->
  wp (write_inode node id) (fun err s' => table_only s s' /\
    ((err = SUCCESS /\ inode_at s' id = node /\ inodes_but id s s') \/
     (err = FILE_READ_ERROR /\ flaky (lay s) /\ kept s s') \/ (err = FILE_WRITE_ERROR /\ flaky (lay s)))) s.
Proof.
  intros Hok Hid Hfit. destruct (inode_capacity_eq s Hok) as [_ Hpos].
  destruct (inode_place_ok s id Hok Hid) as (b & i & E & _ & _ & Hi & Hb & Hf). destruct (ok_regions _ Hok).
  apply wp_bind, wp_fetch. destruct (Z.eqb_spec (INODES_PER_BLOCK (lay s)) 0); [lia|]. rewrite E.
  apply wp_bind. eapply wp_mono; [apply wp_read_into_new; [apply Hok | lia]|].
  intros [err data] s1 (Hk & [(Er & _)|(Er & Hbad)]); apply pair_eq in Er as [-> ->]; cbn [negb Z.eqb SUCCESS FILE_READ_ERROR].
  - eapply wp_mono; [by apply (wp_store_inode s s1 id)|]. intros e s' (Ht & [?|?]); auto.
  - apply wp_ret. pose proof Hk as (Hr1 & El1 & _).
    assert (Hfl : flaky (lay s)) by (apply (bad_flaky _ _ Hbad); lia). split; [|auto].
    split_and!; [by apply (fs_ok_lay s) | done | intros m _; by apply kept_block].
Qed.

(** ** Free blocks and inodes *)

(** The allocation bits of blocks and of inodes. *)
Definition block_bit s (n : Z) : bool := bitmap_bit s (block_bitmap_start (lay s)) n.
Definition inode_bit s (id : Z) : bool := bitmap_bit s (inode_bitmap_start (lay s)) (id - 1).

(** A step that stays inside a region of blocks. *)
Definition region_only (start blocks : Z) s s' : Prop :=
  fs_ok s' /\ lay s' = lay s /\
  forall m, m < start \/ start + blocks <= m -> fs_block s' m = fs_block s m.

Lemma kept_region start blocks s s' : fs_ok s -> kept s s' -> region_only start blocks s s'.
Proof.
  intros Hok Hk. pose proof Hk as (Hr & El & _).
  split_and!; [by apply (fs_ok_lay s) | done | intros m _; by apply kept_block].
Qed.

(** Setting the first clear bit of a bitmap. *)
Definition took_first (start : Z) (i : Z) s s' : Prop :=
  bitmap_bit s start i = false /\ (forall j, 0 <= j < i -> bitmap_bit s start j = true) /\
  forall j, 0 <= j -> bitmap_bit s' start j = bitmap_bit s start j || (j =? i).

Lemma wp_take_free start blocks valid s :
  fs_ok s -> bitmap_ok s start blocks -> 0 < valid < 2 ^ 32 ->
  wp (find_free_from_bitmap_range true start blocks valid true) (fun r s' => region_only start blocks s s' /\
    match r with
    | (err, Some i) => err = SUCCESS /\ 0 <= i < valid /\ i < blocks * bits_per_block (lay s) /\ took_first start i s s'
    | (err, None) =>
        (err = NO_FREE_BLOCKS /\ kept s s' /\
         forall j, 0 <= j < valid -> j < blocks * bits_per_block (lay s) -> bitmap_bit s start j = true) \/
        (err = FILE_READ_ERROR /\ kept s s' /\ flaky (lay s)) \/ (err = FILE_WRITE_ERROR /\ flaky (lay s))
    end) s.
Proof.
  intros Hok Hbm Hv. eapply wp_mono; [apply wp_find_free; [apply Hok | done | done]|].
  intros [err [i|]] s' (Hr & El & Hp); pose proof (fs_ok_lay s s' Hok Hr El) as Hok'.
  - destruct Hp as (-> & Hi & Hib & Hf & Hlow & [Ho Hbit]). split.
    + split_and!; [done | done|]. intros m Hm. apply Ho.
      pose proof (bits_per_block_eq _ (ready_layout _ (ok_ready _ Hok))).
      assert (0 <= i / bits_per_block (lay s) < blocks); [|lia].
      split; [apply Z.div_pos | apply Z.div_lt_upper_bound]; lia.
    + unfold took_first. split_and!; try done; try lia. intros j Hj. rewrite Hbit by done.
      destruct (Z.eqb_spec j i) as [->|]; [by rewrite orb_true_r | by rewrite orb_false_r].
  - assert (Hk : unchanged s s' -> kept s s') by done.
    destruct Hp as [(-> & Hu & Hall)|[(-> & Hfl & Hu)|(-> & Hfl & _ & n & Hn & Ho)]]; split;
      try (by apply kept_region; auto); try (by left; auto); try (by right; auto).
    split_and!; [done | done|]. intros m Hm. apply (others_same_block n); [done | done | lia].
Qed.

(** Every block, every inode is taken. *)
Definition blocks_full s : Prop :=
  forall n, 0 <= n < total_fs_blocks (lay s) -> n < block_bitmap_blocks (lay s) * bits_per_block (lay s) ->
    block_bit s n = true.
Definition inodes_full s : Prop :=
  forall id, 1 <= id <= get_inode_capacity (lay s) -> id <= inode_bitmap_blocks (lay s) * bits_per_block (lay s) ->
    inode_bit s id = true.

(** *** Blocks *)

Lemma wp_alloc_block s :
  fs_ok s ->
  wp (find_free_block true) (fun r s' =>
    region_only (block_bitmap_start (lay s)) (block_bitmap_blocks (lay s)) s s' /\
    ((fst r = SUCCESS /\ 0 <= snd r < total_fs_blocks (lay s) /\ block_bit s (snd r) = false /\
      (forall j, 0 <= j < snd r -> block_bit s j = true) /\
      forall j, 0 <= j -> block_bit s' j = block_bit s j || (j =? snd r)) \/
     (fst r = NO_FREE_BLOCKS /\ kept s s' /\ blocks_full s) \/ (fst r = FILE_READ_ERROR /\ kept s s' /\ flaky (lay s)) \/
     (fst r = FILE_WRITE_ERROR /\ flaky (lay s)))) s.
Proof.
  intros Hok. pose proof (ok_regions _ Hok) as [].
  apply wp_bind, wp_fetch. apply wp_bind. eapply wp_mono; [apply wp_take_free; [done | by apply block_bitmap_ok | lia]|].
  intros [err [i|]] s' (Hro & Hp).
  - destruct Hp as (-> & Hi & _ & Hf & Hlow & Hb). apply wp_ret. split; [done|]. left. simpl.
    pose proof Hro as (_ & El & _). split_and!; try done; try lia. intros j Hj. unfold block_bit. rewrite El. by apply Hb.
  - assert (Hne : err <> SUCCESS) by (destruct Hp as [(-> & _)|[(-> & _)|(-> & _)]]; done).
    rewrite (proj2 (Z.eqb_neq _ _) Hne). apply wp_ret. split; [done|]. right. simpl.
    destruct Hp as [(-> & Hk & Hfull)|[(-> & Hk)|(-> & Hk)]]; auto.
Qed.

(** Bits outside a region that has changed. *)
Lemma region_bit start blocks s s' bstart i :
  region_only start blocks s s' ->
  bstart + i / bits_per_block (lay s) < start \/ start + blocks <= bstart + i / bits_per_block (lay s) ->
  bitmap_bit s' bstart i = bitmap_bit s bstart i.
Proof. intros (_ & El & Ho) Hd. unfold bitmap_bit. rewrite El, Ho by done. done. Qed.

(** *** Inodes *)

Lemma inode_capacity_pos s : fs_ok s -> 0 < get_inode_capacity (lay s) < 2 ^ 32.
Proof.
  intros Hok. destruct (inode_capacity_eq s Hok) as [E Hpos]. destruct (ok_regions _ Hok). pose proof (ok_inodes _ Hok). nia.
Qed.

Lemma wp_alloc_inode s :
  fs_ok s ->
  wp (find_free_inode true) (fun r s' =>
    region_only (inode_bitmap_start (lay s)) (inode_bitmap_blocks (lay s)) s s' /\
    ((fst r = SUCCESS /\ inode_id s (snd r) /\ inode_bit s (snd r) = false /\
      (forall id, 1 <= id < snd r -> inode_bit s id = true) /\
      forall id, 1 <= id -> inode_bit s' id = inode_bit s id || (id =? snd r)) \/
     (fst r = NO_FREE_BLOCKS /\ kept s s' /\ inodes_full s) \/ (fst r = FILE_READ_ERROR /\ kept s s' /\ flaky (lay s)) \/
     (fst r = FILE_WRITE_ERROR /\ flaky (lay s)))) s.
Proof.
  intros Hok. pose proof (inode_capacity_pos s Hok) as Hcap.
  apply wp_bind, wp_fetch. apply wp_bind. eapply wp_mono; [apply wp_take_free; [done | by apply inode_bitmap_ok | done]|].
  intros [err [i|]] s' (Hro & Hp).
  - destruct Hp as (-> & Hi & _ & Hf & Hlow & Hb). apply wp_ret. split; [done|]. left. simpl.
    rewrite to_u32_small by lia. pose proof Hro as (_ & El & _). unfold inode_bit, inode_id. rewrite El.
    replace (i + 1 - 1) with i by lia. split_and!; try done; try lia.
    + intros id Hid. apply Hlow. lia.
    + intros id Hid. rewrite Hb by lia. f_equal. destruct (Z.eqb_spec (id - 1) i), (Z.eqb_spec id (i + 1)); done || lia.
  - assert (Hne : err <> SUCCESS) by (destruct Hp as [(-> & _)|[(-> & _)|(-> & _)]]; done).
    rewrite (proj2 (Z.eqb_neq _ _) Hne). apply wp_ret. split; [done|]. right. simpl.
    destruct Hp as [(-> & Hk & Hfull)|[(-> & Hk)|(-> & Hk)]]; auto.
    left. split_and!; [done | done|]. intros id Hid Hid'. apply Hfull; lia.
Qed.

Lemma region_inode s s' id :
  fs_ok s -> inode_id s id ->
  region_only (inode_bitmap_start (lay s)) (inode_bitmap_blocks (lay s)) s s' -> inode_at s' id = inode_at s id.
Proof.
  intros Hok Hid (_ & El & Ho). destruct (inode_place_ok s id Hok Hid) as (b & i & E & _ & _ & _ & Hb & _).
  unfold inode_at. rewrite El, E, Ho; [done|]. destruct (ok_regions _ Hok). lia.
Qed.

Lemma table_inode_bit s s' id :
  fs_ok s -> table_only s s' -> 1 <= id <= inode_bitmap_blocks (lay s) * bits_per_block (lay s) ->
  inode_bit s' id = inode_bit s id.
Proof.
  intros Hok (_ & El & Ho) Hid. unfold inode_bit, bitmap_bit. rewrite El, Ho; [done|]. left.
  destruct (ok_regions _ Hok). pose proof (bits_per_block_eq _ (ready_layout _ (ok_ready _ Hok))).
  assert ((id - 1) / bits_per_block (lay s) < inode_bitmap_blocks (lay s)); [apply Z.div_lt_upper_bound|]; lia.
Qed.

(** The outcomes of [add_new_file_inode]. *)
Definition add_inode_post (node : inode_st) s (r : Z * Z) s' : Prop :=
  fs_ok s' /\ lay s' = lay s /\
  (forall m, m < inode_bitmap_start (lay s) \/ data_start_block (lay s) <= m -> fs_block s' m = fs_block s m) /\
  ((fst r = SUCCESS /\ inode_id s (snd r) /\ inode_bit s (snd r) = false /\
    (forall id, 1 <= id < snd r -> inode_bit s id = true) /\
    (forall id, 1 <= id <= inode_bitmap_blocks (lay s) * bits_per_block (lay s) ->
       inode_bit s' id = inode_bit s id || (id =? snd r)) /\
    inode_at s' (snd r) = node /\ inodes_but (snd r) s s') \/
   (fst r = NO_FREE_BLOCKS /\ kept s s' /\ inodes_full s) \/
   ((fst r = FILE_READ_ERROR \/ fst r = FILE_WRITE_ERROR) /\ flaky (lay s))).

Lemma wp_add_new_file_inode now ty perm fops s :
  fs_ok s -> 0 <= perm < 2 ^ 8 -> 0 <= now < 2 ^ 64 -> 0 <= fops < 2 ^ 64 ->
  wp (add_new_file_inode now ty perm fops) (add_inode_post (new_file_inode ty perm now fops) s) s.
Proof.
  intros Hok Hperm Hnow Hfops. set (node := new_file_inode ty perm now fops).
  assert (Hfit : inode_fits node).
  { constructor; simpl; try lia; try done; [by apply (wrap_bound 8) |]. by repeat constructor. }
  pose proof (ok_regions _ Hok) as []. apply wp_bind. eapply wp_mono; [by apply wp_alloc_inode|].
  intros [err id] s1 (Hro & Hp). pose proof Hro as (Hok1 & El1 & Ho1). simpl in Hp.
  assert (Hout : forall m, m < inode_bitmap_start (lay s) \/ data_start_block (lay s) <= m ->
    fs_block s1 m = fs_block s m) by (intros m Hm; apply Ho1; lia).
  destruct Hp as [(-> & Hid & Hf & Hlow & Hb)|Hp].
  2: { assert (Hne : err <> SUCCESS) by (destruct Hp as [(-> & _)|[(-> & _)|(-> & _)]]; done).
       rewrite (proj2 (Z.eqb_neq _ _) Hne). apply wp_ret. split_and!; try done. right. simpl.
       destruct Hp as [(-> & Hk)|[(-> & _ & Hk)|(-> & Hk)]]; auto. }
  cbn [negb Z.eqb SUCCESS]. apply wp_bind, wp_fetch. rewrite El1. destruct (inode_capacity_eq s Hok) as [_ Hpos].
  destruct (Z.eqb_spec (INODES_PER_BLOCK (lay s)) 0); [lia|].
  destruct (inode_place_ok s id Hok Hid) as (b & i & E & _ & _ & Hi & Hbr & _). rewrite E.
  apply wp_bind. eapply wp_mono; [apply wp_read_into_new; [apply Hok1 | lia]|].
  intros [err data] s2 (Hk2 & [(Er & _)|(Er & Hbad)]); apply pair_eq in Er as [-> ->]; cbn [negb Z.eqb SUCCESS FILE_READ_ERROR].
  2: { apply wp_ret. pose proof Hk2 as (Hr2 & El2 & _). rewrite El1 in Hbad.
       assert (Hfl : flaky (lay s)) by (apply (bad_flaky _ _ Hbad); lia).
       split_and!; [by apply (fs_ok_lay s1) | congruence | | auto].
       intros m Hm. rewrite (kept_block s1 s2) by done. by apply Hout. }
  assert (Hid1 : inode_id s1 id) by (unfold inode_id; by rewrite El1).
  apply wp_bind. eapply wp_mono; [apply (wp_store_inode s1 s2 id); [done | done | done | by rewrite El1 | done]|].
  intros err s3 (Ht & Hw). apply wp_ret. pose proof Ht as (Hok3 & El3 & Ho3).
  split_and!; [done | congruence | intros m Hm; rewrite Ho3 by (rewrite El1; lia); by apply Hout|].
  destruct Hw as [(-> & Hat & Hbut)|(-> & Hfl)]; [left | rewrite El1 in Hfl; by auto]. simpl. split_and!; try done.
  - intros id' Hid'. rewrite (table_inode_bit s1 s3) by (done || by rewrite El1). apply Hb. lia.
  - intros id' Hid' Hne. rewrite Hbut; [by apply region_inode | unfold inode_id; by rewrite El1 | done].
Qed.

End rules.

(** ** Properties *)

(** A mounted file system in memory. *)
Lemma ram_fs_ok : fs_ok ram_fs.
Proof.
  constructor; [exact ram_fs_ready | constructor; vm_compute; done | ..]; vm_compute; done.
Qed.

(** C30. The inode table is an array of inodes: after a successful
    [write_inode] of an inode, [get_inode_raw] of the same number gives back
    what was written (with the default operation table filled in for files and
    directories) if the card can be read, every other inode is as it was, and
    no block outside the table has changed; a failed write changes no block
    outside the table either, and nothing fails unless a sector of the file
    system is bad. *)
Theorem inode_write_read {D} `{DeviceLaws D} fops dir_fops id node (s : fs_state D) :
  fs_ok s -> inode_id s id -> inode_fits node ->
  wp (err ← write_inode node id;
      if err =? SUCCESS then '(e, n) ← get_inode_raw fops dir_fops id; mret (err, e, n)
      else mret (err, SUCCESS, null_inode))
    (fun '(err, e, n) s' => table_only s s' /\
      (err = SUCCESS -> inodes_but id s s' /\
         (e = SUCCESS -> n = normalize_default_inode_fops fops dir_fops node) /\
         (e = SUCCESS \/ (e = FILE_READ_ERROR /\ flaky (lay s)))) /\
      (err <> SUCCESS -> flaky (lay s))) s.
Proof.
  intros Hok Hid Hfit. apply wp_bind. eapply wp_mono; [by apply (wp_write_inode id node)|].
  intros err s1 (Ht & Hw). destruct (Z.eqb_spec err SUCCESS) as [->|Hne].
  2: { apply wp_ret. split_and!; [done..|]. intros _. by destruct Hw as [(-> & _)|[(_ & ? & _)|(_ & ?)]]. }
  destruct Hw as [(_ & Hat & Hbut)|[(Hbad & _)|(Hbad & _)]]; [|done | done].
  pose proof Ht as (Hok1 & El1 & Ho1). assert (Hid1 : inode_id s1 id) by (unfold inode_id; by rewrite El1).
  apply wp_bind. eapply wp_mono; [by apply wp_get_inode_raw|]. intros [e n] s2 (Hk & Hr).
  pose proof Hk as (Hr2 & El2 & _). apply wp_ret. split_and!; [| |done].
  - split_and!; [by apply (fs_ok_lay s1) | congruence |]. intros m Hm. rewrite (kept_block s1 s2) by done. by apply Ho1.
  - intros _. split; [|rewrite Hat in Hr; destruct Hr as [E|(E & Hfl)]; apply pair_eq in E as [-> ->]; (split; [done|]);
      [by left | right; by rewrite <- El1]].
    intros id' Hid' Hne. rewrite (kept_inode s1 s2) by done. by apply Hbut.
Qed.

Lemma inode_write_read_witness :
  let node := new_file_inode FILE_TYPE 7 12 0 in
  wp (err ← write_inode node 3;
      if err =? SUCCESS then '(e, n) ← get_inode_raw 5 6 3; mret (err, e, n)
      else mret (err, SUCCESS, null_inode))
    (fun '(err, e, n) s' => table_only ram_fs s' /\
      (err = SUCCESS -> inodes_but 3 ram_fs s' /\
         (e = SUCCESS -> n = normalize_default_inode_fops 5 6 node) /\
         (e = SUCCESS \/ (e = FILE_READ_ERROR /\ flaky (lay ram_fs)))) /\
      (err <> SUCCESS -> flaky (lay ram_fs))) ram_fs.
Proof.
  intros node. apply (inode_write_read 5 6 3 node ram_fs); [exact ram_fs_ok | vm_compute; done |].
  constructor; simpl; try lia; done || by apply (wrap_bound 8) || by repeat constructor.
Defined.

(** [add_new_file_inode] hands out the lowest free inode number: on success
    the number was free and is now taken, the table holds the new inode there,
    and no other inode, allocation bit or block outside the inode bitmap and
    the table has changed; when no inode is free, which is the only reason for
    [NO_FREE_BLOCKS], nothing has changed; it fails otherwise only on a card
    with a bad sector in the file system. *)
Theorem add_new_inode_correct {D} `{DeviceLaws D} now ty perm fops (s : fs_state D) :
  fs_ok s -> 0 <= perm < 2 ^ 8 -> 0 <= now < 2 ^ 64 -> 0 <= fops < 2 ^ 64 ->
  wp (add_new_file_inode now ty perm fops) (add_inode_post (new_file_inode ty perm now fops) s) s.
Proof. apply wp_add_new_file_inode. Qed.

Lemma add_new_inode_correct_witness :
  wp (add_new_file_inode 12 FILE_TYPE 7 0) (add_inode_post (new_file_inode FILE_TYPE 7 12 0) ram_fs) ram_fs.
Proof. apply (add_new_inode_correct 12 FILE_TYPE 7 0 ram_fs); [exact ram_fs_ok | lia | lia | lia]. Defined.

(** Inodes and superblocks survive the trip to their byte representation
    and back. *)
Theorem disk_formats_roundtrip :
  (forall node, inode_fits node -> decode_inode (encode_inode node) = node) /\
  (forall sb, superblock_fits sb -> decode_superblock (encode_superblock sb) = sb).
Proof. split; [exact decode_encode_inode | exact decode_encode_superblock]. Qed.
