(* ===== verification/Mkfs.v ===== *)
(** * Formatting a card

    [mkfs] of kernel/fs/disk.c and [mkfs_inode] of kernel/fs/inodes.c with the
    routines that write the bitmaps. *)

From S2P Require Import Prelude Errors Bytes Services BlockCache Bitmap Layout Inode Dirent.

Definition MKFS_FILL_CHUNK_BLOCKS : Z := 32.

Section mkfs.
Context {D : Type} `{BlockDevice D}.
(** Whether the kernel is built for QEMU, and [timer_get_ticks()]. *)
Context (platform_qemu : bool) (now : Z).
Implicit Types (s : fs_state D).

Abbreviation FS := (stM (fs_state D)).

Definition set_bitmap_bit_in_memory (data : list Z) (bit_idx : Z) : FS (list Z) :=
  b ← get_byte data (bit_idx / 8);
  mret (put_byte data (bit_idx / 8) (Z.lor b (bit_mask (bit_idx mod 8)))).

(** The loop of [write_filled_blocks]: at most 32 blocks a time, straight to
    the device. *)
Fixpoint fill_loop (fuel : nat) (data : list Z) (bytes_per_block current remaining : Z) : FS Z :=
  if remaining =? 0 then mret SUCCESS
  else
    match fuel with
    | O => fault
    | S fuel =>
        let chunk := if remaining <? MKFS_FILL_CHUNK_BLOCKS then remaining else MKFS_FILL_CHUNK_BLOCKS in
        base ← fetch (fun s => fs_base_block (lay s));
        ok ← block_write (to_u64 (base + current)) chunk (take (Z.to_nat (chunk * bytes_per_block)) data);
        if negb (ok : bool) then mret FILE_WRITE_ERROR
        else fill_loop fuel data bytes_per_block (to_u32 (current + chunk)) (remaining - chunk)
    end.

Definition write_filled_blocks (start_block block_count value bytes_per_block : Z) : FS Z :=
  if block_count =? 0 then mret SUCCESS else
  size ← block_get_size;
  if negb (to_u32 bytes_per_block =? size) then mret INVALID_ARGS else
  let bytes := to_u32 (to_u32 bytes_per_block * MKFS_FILL_CHUNK_BLOCKS) in
  ok ← kmalloc bytes;
  if negb (ok : bool) then mret FILE_WRITE_ERROR else
  fill_loop (Z.to_nat block_count) (replicate (Z.to_nat bytes) value) bytes_per_block start_block block_count.

(** [while (block + run < bitmap_blocks && p(block + run)) run++] *)
Fixpoint run_length (fuel : nat) (p : Z -> bool) (block run bitmap_blocks : Z) : Z :=
  match fuel with
  | O => run
  | S fuel =>
      if (block + run <? bitmap_blocks) && p (block + run)
      then run_length fuel p block (run + 1) bitmap_blocks else run
  end.

(** The loop over the bits of a block that sets those that satisfy [p]. *)
Fixpoint set_bits (n : nat) (bit : Z) (p : Z -> bool) (data : list Z) : FS (list Z) :=
  match n with
  | O => mret data
  | S n =>
      data ← (if p bit then set_bitmap_bit_in_memory data bit else mret data);
      set_bits n (bit + 1) p data
  end.

(** Whether all bits of a block of the bitmap stand for used blocks (or for
    none), and whether all stand for free ones. *)
Definition all_used (bits_per_block used_blocks total_blocks block : Z) : bool :=
  (block * bits_per_block + bits_per_block <=? used_blocks) || (total_blocks <=? block * bits_per_block).

Definition all_free (bits_per_block used_blocks total_blocks block : Z) : bool :=
  (used_blocks <=? block * bits_per_block) && (block * bits_per_block + bits_per_block <=? total_blocks).

Fixpoint block_bitmap_loop (fuel : nat) (bytes_per_block bits_per_block used_blocks total_blocks bitmap_start
    bitmap_blocks block : Z) : FS Z :=
  if bitmap_blocks <=? block then mret SUCCESS
  else
    match fuel with
    | O => fault
    | S fuel =>
        let continue block :=
          block_bitmap_loop fuel bytes_per_block bits_per_block used_blocks total_blocks bitmap_start
            bitmap_blocks block in
        let fill p value :=
          let run := run_length (Z.to_nat bitmap_blocks) p block 1 bitmap_blocks in
          err ← write_filled_blocks (to_u32 (bitmap_start + block)) run value bytes_per_block;
          if negb (err =? SUCCESS) then mret err else continue (block + run) in
        if all_used bits_per_block used_blocks total_blocks block
        then fill (all_used bits_per_block used_blocks total_blocks) 0xFF
        else if all_free bits_per_block used_blocks total_blocks block
        then fill (all_free bits_per_block used_blocks total_blocks) 0x00
        else
          let first_bit := block * bits_per_block in
          data ← set_bits (Z.to_nat bits_per_block) 0
            (fun bit => (first_bit + bit <? used_blocks) || (total_blocks <=? first_bit + bit))
            (replicate (Z.to_nat bytes_per_block) 0);
          err ← write_block data (to_u32 (bitmap_start + block));
          if negb (err =? SUCCESS) then mret err else continue (block + 1)
    end.

Definition write_block_bitmap (bytes_per_block : Z) : FS Z :=
  ok ← kmalloc bytes_per_block;
  if negb (ok : bool) then mret FILE_WRITE_ERROR else
  l ← fetch lay;
  block_bitmap_loop (Z.to_nat (block_bitmap_blocks l)) bytes_per_block (to_u32 (to_u32 bytes_per_block * 8))
    (data_start_block l + 1) (total_fs_blocks l) (block_bitmap_start l) (block_bitmap_blocks l) 0.

Fixpoint inode_bitmap_loop (n : nat) (bytes_per_block bits_per_block inode_count bitmap_start block : Z) : FS Z :=
  match n with
  | O => mret SUCCESS
  | S n =>
      let first_bit := to_u32 (block * bits_per_block) in
      data ← set_bits (Z.to_nat bits_per_block) 0
        (fun bit => (to_u32 (first_bit + bit) =? 0) || (inode_count <=? to_u32 (first_bit + bit)))
        (replicate (Z.to_nat bytes_per_block) 0);
      err ← write_block data (to_u32 (bitmap_start + block));
      if negb (err =? SUCCESS) then mret err
      else inode_bitmap_loop n bytes_per_block bits_per_block inode_count bitmap_start (block + 1)
  end.

Definition write_inode_bitmap (bytes_per_block : Z) : FS Z :=
  ok ← kmalloc bytes_per_block;
  if negb (ok : bool) then mret FILE_WRITE_ERROR else
  l ← fetch lay;
  inode_bitmap_loop (Z.to_nat (inode_bitmap_blocks l)) bytes_per_block (to_u32 (to_u32 bytes_per_block * 8))
    (get_inode_capacity l) (inode_bitmap_start l) 0.

(** The inode of the root directory. *)
Definition root_node (l : fs_layout) : inode_st :=
  mkInode (mkAttr 2 DIRECTORY_TYPE 7 0 1 now (0, 0) 0 0) (data_start_block l :: replicate 14 0).

(** The inode table: the root inode first, zeros in the other blocks. *)
Definition write_inode_table (l : fs_layout) (inode_table_blocks bytes_per_block : Z) : FS Z :=
  ok ← kmalloc bytes_per_block;
  if negb (ok : bool) then mret FILE_WRITE_ERROR else
  err ← write_block (put_struct_at (replicate (Z.to_nat bytes_per_block) 0) 0 (root_node l)) (inode_table_start l);
  if negb (err =? SUCCESS) then mret err else
  if 1 <? inode_table_blocks
  then write_filled_blocks (to_u32 (inode_table_start l + 1)) (to_u32 (to_u32 inode_table_blocks - 1)) 0x00
         bytes_per_block
  else mret SUCCESS.

(** The entries of the root directory. *)
Definition write_root_dir (l : fs_layout) (bytes_per_block : Z) : FS Z :=
  ok ← kmalloc bytes_per_block;
  if negb (ok : bool) then mret FILE_WRITE_ERROR else
  write_block (put_struct_at (put_struct_at (replicate (Z.to_nat bytes_per_block) 0) 0 (mkDirent [46] 1)) 1
                 (mkDirent [46; 46] 1)) (data_start_block l).

Definition mkfs_inode (inode_table_blocks bytes_per_block : Z) : FS Z :=
  let zeros := replicate (Z.to_nat bytes_per_block) 0 in
  ok ← kmalloc bytes_per_block;
  if negb (ok : bool) then mret FILE_WRITE_ERROR else
  l ← fetch lay;
  let super := superblock_of l inode_table_blocks bytes_per_block in
  err ← write_block zeros SUPERBLOCK_BLOCK;
  if negb (err =? SUCCESS) then mret err else
  err ← write_block_bitmap bytes_per_block;
  if negb (err =? SUCCESS) then mret err else
  err ← write_inode_bitmap bytes_per_block;
  if negb (err =? SUCCESS) then mret err else
  err ← write_inode_table l inode_table_blocks bytes_per_block;
  if negb (err =? SUCCESS) then mret err else
  err ← write_root_dir l bytes_per_block;
  if negb (err =? SUCCESS) then mret err else
  write_block (put_struct_at zeros 0 super) SUPERBLOCK_BLOCK.

(** [seed_user_bins_for_mkfs] copies the programs built into the kernel image
    into the new file system. *)
Definition mkfs (seed_user_bins_for_mkfs : FS Z) (inode_table_blocks block_size_config : Z) : FS Z :=
  if inode_table_blocks <=? 0 then mret INVALID_ARGS else
  match block_size_of_config block_size_config with
  | None => mret INVALID_ARGS
  | Some new_bytes_per_block =>
      size ← block_get_size;
      if negb (to_u32 new_bytes_per_block =? size) then mret INVALID_ARGS else
      err ← configure_default_fs_region platform_qemu;
      if negb (err =? SUCCESS) then mret err else
      usable_blocks ← fetch (fun s => fs_block_count (lay s));
      if UINT32_MAX <? usable_blocks then mret INVALID_ARGS else
      err ← lru_cache_empty;
      if negb (err =? SUCCESS) then mret err else
      err ← mkfs_layout inode_table_blocks new_bytes_per_block usable_blocks;
      if negb (err =? SUCCESS) then mret err else
      err ← mkfs_inode inode_table_blocks new_bytes_per_block;
      if negb (err =? SUCCESS) then mret err else
      err ← seed_user_bins_for_mkfs;
      if negb (err =? SUCCESS) then mret err else
      lru_cache_empty
  end.

End mkfs.

(** ** Bits in memory *)

Lemma run_length_spec fuel p block run n :
  block + run <= n ->
  let r := run_length fuel p block run n in
  run <= r /\ block + r <= n /\ forall j, run <= j < r -> p (block + j) = true.
Proof.
  revert run. induction fuel as [|fuel IH]; intros run Hn; cbn [run_length]; cbv zeta.
  { split_and!; [lia | lia | intros; lia]. }
  destruct (Z.ltb_spec (block + run) n); simpl; [|split_and!; [lia | lia | intros; lia]].
  destruct (p (block + run)) eqn:E; [|split_and!; [lia | lia | intros; lia]].
  destruct (IH (run + 1) ltac:(lia)) as (H1 & H2 & H3). split_and!; [lia | lia|].
  intros j Hj. destruct (decide (j = run)) as [->|]; [done | apply H3; lia].
Qed.

Lemma replicate_bit (n : nat) v j : 0 <= j < 8 * Z.of_nat n -> data_bit (replicate n v) j = Z.testbit v (7 - j mod 8).
Proof.
  intros Hj. unfold data_bit. pose proof (Z.mod_pos_bound j 8 ltac:(lia)).
  rewrite lookup_replicate_2; [done|]. assert (j / 8 < Z.of_nat n) by (apply Z.div_lt_upper_bound; lia).
  pose proof (Z.div_pos j 8 ltac:(lia) ltac:(lia)). lia.
Qed.

Lemma wp_set_bits {D} n bit p data (Q : list Z -> fs_state D -> Prop) s :
  0 <= bit -> bit + Z.of_nat n <= 8 * Z.of_nat (length data) ->
  (forall data', length data' = length data ->
     (forall j, 0 <= j -> data_bit data' j = data_bit data j || ((bit <=? j) && (j <? bit + Z.of_nat n) && p j)) ->
     Q data' s) ->
  wp (set_bits n bit p data) Q s.
Proof.
  revert bit data. induction n as [|n IH]; intros bit data Hb Hl HQ; cbn [set_bits].
  - apply wp_ret, HQ; [done|]. intros j Hj.
    destruct (Z.leb_spec bit j), (Z.ltb_spec j (bit + Z.of_nat 0)); try lia; by rewrite orb_false_r.
  - assert (Hb8 : 0 <= bit / 8 < Z.of_nat (length data))
      by (split; [apply Z.div_pos | apply Z.div_lt_upper_bound]; lia).
    apply wp_bind. apply (wp_mono _ (fun d s' => s' = s /\ length d = length data /\
      forall j, 0 <= j -> data_bit d j = data_bit data j || ((j =? bit) && p bit))).
    { destruct (p bit).
      - destruct (lookup_lt_is_Some_2 data (Z.to_nat (bit / 8))) as [b E]; [lia|].
        apply wp_bind, (wp_get_byte _ _ b); [done|]. apply wp_ret. split; [done|].
        split; [apply length_insert|]. intros j Hj. rewrite andb_true_r.
        pose proof (set_data_bit data bit j Hb Hj ltac:(lia)) as Hs. rewrite E in Hs. exact Hs.
      - apply wp_ret. split_and!; try done. intros j Hj. by rewrite andb_false_r, orb_false_r. }
    intros d s' (-> & Hd & Hbit). apply IH; [lia | lia|]. intros data' Hd' Hbit'. apply HQ; [lia|].
    intros j Hj. rewrite Hbit', Hbit by done. rewrite <- orb_assoc. f_equal.
    destruct (Z.eqb_spec j bit) as [->|].
    + destruct (Z.leb_spec (bit + 1) bit), (Z.leb_spec bit bit), (Z.ltb_spec bit (bit + Z.of_nat (S n))); try lia.
      simpl. by rewrite orb_false_r.
    + simpl. f_equal. destruct (Z.leb_spec (bit + 1) j), (Z.leb_spec bit j), (Z.ltb_spec j (bit + 1 + Z.of_nat n)),
        (Z.ltb_spec j (bit + Z.of_nat (S n))); done || lia.
Qed.

(** ** Writing below and beside the cache *)

Section theory.
Context {D : Type} `{DeviceLaws D}.
Implicit Types (s : fs_state D) (P : Z -> Prop).

(** Nothing is going on, the card is known, and only blocks in [P] are cached. *)
Record mk_ok P s : Prop := {
  mk_cached : exists L, cached s L /\ Forall P L;
  mk_lock : fs_bitmap_lock s = false;
  mk_info : exists n, sdhci_block_get_info (dev s) = Some (n, sector_size)
}.

(** Only blocks from [lo] to before [hi] of the file system have changed. *)
Definition within (lo hi : Z) s s' : Prop :=
  lay s' = lay s /\
  forall m, m < fs_base_block (lay s) + lo \/ fs_base_block (lay s) + hi <= m ->
    contents (dev s') m = contents (dev s) m.

Lemma within_trans lo hi s1 s2 s3 : within lo hi s1 s2 -> within lo hi s2 s3 -> within lo hi s1 s3.
Proof. intros [E1 H1] [E2 H2]. split; [congruence|]. intros m Hm. rewrite E1 in H2. by rewrite H2, H1. Qed.

Lemma within_mono lo hi lo' hi' s s' : lo' <= lo -> hi <= hi' -> within lo hi s s' -> within lo' hi' s s'.
Proof. intros Hl Hh [E Ho]. split; [done|]. intros m Hm. apply Ho. lia. Qed.

Lemma within_block lo hi s s' n : within lo hi s s' -> n < lo \/ hi <= n -> fs_block s' n = fs_block s n.
Proof. intros [E Ho] Hn. unfold fs_block. rewrite E. apply Ho. lia. Qed.

Lemma mk_ok_mono P P' s : (forall n, P n -> P' n) -> mk_ok P s -> mk_ok P' s.
Proof.
  intros Hp [(L & HL & HP) Hb Hi]. constructor; try done. exists L. split; [done|].
  eapply Forall_impl; [done|]. exact Hp.
Qed.

Lemma mk_ready P s : mk_ok P s -> ready s.
Proof. intros [(L & HL & _) Hb _]. split; eauto. Qed.

(** A write has failed, on a card with a bad sector in the file system. *)
Definition write_failed (l : fs_layout) (err : Z) : Prop := err = FILE_WRITE_ERROR /\ flaky l.

Lemma wp_write_mk n data P s :
  mk_ok P s -> 0 <= n -> bytes_per_block (lay s) <= Z.of_nat (length data) ->
  wp (write_block data n) (fun err s' => mk_ok (fun m => P m \/ m = n) s' /\ within n (n + 1) s s' /\
    ((err = SUCCESS /\ fs_block s' n = take (Z.to_nat (bytes_per_block (lay s))) data) \/
     (err = FILE_WRITE_ERROR /\ bad_block (lay s) n))) s.
Proof.
  intros [(L & HL & HP) Hb Hi] Hn Hd. eapply wp_mono; [by apply (write_block_spec n data L)|].
  intros err s' ((El & _ & Eb & Ei) & Ho & Hr).
  assert (Hw : within n (n + 1) s s') by (split; [done|]; intros m Hm; apply Ho; lia).
  assert (Hfg : Forall (fun m => P m \/ m = n) (forget n L)).
  { apply Forall_forall. intros m [_ Hm]%forget_elem. left. by apply (proj1 (Forall_forall _ _) HP). }
  assert (Hinfo : exists k, sdhci_block_get_info (dev s') = Some (k, sector_size)).
  { destruct Hi as [k Hk]. exists k. by rewrite Ei. }
  destruct Hr as [(-> & _ & Hf & Hc)|(-> & Hbad & Hc)].
  - split; [|split; auto]. constructor; [|congruence | done]. exists (touch n L). split; [done|].
    unfold touch. apply Forall_take. constructor; [by right | done].
  - split; [|split; auto]. constructor; [|congruence | done]. eauto.
Qed.

Lemma mk_heap P s h : mk_ok P s -> (forall n, h n = true) -> mk_ok P (set_heap h s).
Proof.
  intros [(L & HL & HP) Hb Hi] Hh. constructor; try done. exists L. split; [|done].
  pose proof (cached_locked s L (fs_bitmap_lock s) h HL Hh) as HL'. by destruct s.
Qed.

Lemma wp_kmalloc_mk bytes P s (Q : bool -> fs_state D -> Prop) :
  mk_ok P s -> 0 < bytes <= KERNEL_HEAP_SIZE ->
  (forall s', mk_ok P s' -> within 0 0 s s' -> Q true s') -> wp (kmalloc bytes) Q s.
Proof.
  intros Hok Hb HQ. pose proof Hok as [(L & HL & HP) _ _].
  apply wp_kmalloc_granted; [done | exact (cached_heap _ _ HL)|].
  intros h Hh. apply HQ; [by apply mk_heap | done].
Qed.

(** A write straight to blocks that are not cached. *)
Lemma mk_dev P s lo hi d' :
  mk_ok P s -> (forall n, lo <= n < hi -> ~ P n) -> same_info s (set_dev d' s) ->
  (forall m, m < fs_base_block (lay s) + lo \/ fs_base_block (lay s) + hi <= m -> contents d' m = contents (dev s) m) ->
  mk_ok P (set_dev d' s).
Proof.
  intros [(L & ([l Hl] & Hlen & Hlk) & HP) Hb Hi] Hout Hinfo Hd.
  constructor; [|done | destruct Hi as [k Hk]; exists k; by rewrite Hinfo].
  exists L. split; [|done]. split; [|done]. exists l. apply (listing_frame s); try done; try apply Hl.
  intros n Hn. unfold fs_block. simpl. apply Hd. pose proof (proj1 (Forall_forall _ _) HP n Hn) as HPn.
  destruct (decide (lo <= n < hi)) as [Hr|]; [by destruct (Hout n Hr) | lia].
Qed.

Lemma sector_replicate size (count : Z) v k :
  0 <= k < count -> 0 <= size ->
  sector size (replicate (Z.to_nat (count * size)) v) k = replicate (Z.to_nat size) v.
Proof.
  intros Hk Hs. unfold sector. rewrite drop_replicate, take_replicate. f_equal. nia.
Qed.

Lemma wp_fill_loop fuel value current remaining P s :
  let bpb := bytes_per_block (lay s) in
  mk_ok P s -> (forall n, current <= n < current + remaining -> ~ P n) ->
  0 <= current -> 0 <= remaining <= Z.of_nat fuel -> current + remaining <= fs_block_count (lay s) < 2 ^ 32 ->
  wp (fill_loop fuel (replicate (Z.to_nat (bpb * 32)) value) bpb current remaining) (fun err s' =>
    mk_ok P s' /\ within current (current + remaining) s s' /\
    (write_failed (lay s) err \/ (err = SUCCESS /\ forall n, current <= n < current + remaining ->
       fs_block s' n = replicate (Z.to_nat bpb) value))) s.
Proof.
  revert current remaining s. induction fuel as [|fuel IH]; intros current remaining s bpb Hok Hout Hc Hr Hcnt;
    cbn [fill_loop]; destruct (Z.eqb_spec remaining 0) as [->|Hne]; try lia;
    try (apply wp_ret; split_and!; [done | done | right; split; [done | lia]]).
  set (chunk := if _ <? _ then _ else _). assert (Hch : 0 < chunk <= 32 /\ chunk <= remaining)
    by (unfold chunk, MKFS_FILL_CHUNK_BLOCKS; destruct (Z.ltb_spec remaining 32); lia).
  apply wp_bind, wp_fetch. pose proof (mk_ready _ _ Hok) as Hrd. pose proof (ready_layout _ Hrd) as (Ebp & Hbp & Hbase & _ & Hend).
  fold bpb in Ebp, Hbp. unfold to_u64. rewrite wrap_small by lia. rewrite take_replicate, Nat.min_l by nia.
  apply wp_bind, wp_block_writes; [|lia | rewrite length_replicate; lia|].
  { destruct Hok as [(L & ([l Hl] & _) & _) _ _]. apply Hl. }
  intros ok d' Ho Hi Hw.
  assert (Hok1 : mk_ok P (set_dev d' s)).
  { apply (mk_dev P s current (current + chunk)); [done | intros n Hn; apply Hout; lia | done|].
    intros m Hm. apply Ho. lia. }
  assert (Hw1 : within current (current + chunk) s (set_dev d' s)).
  { split; [done|]. intros m Hm. simpl. apply Ho. lia. }
  destruct ok; cbn [negb].
  2: { apply wp_ret. split_and!; [done | eapply within_mono; [..|done]; lia | left; split; [done|]].
       destruct Hw as (k & Hk & Hbad). exists (current + k). split; [lia | by rewrite Z.add_assoc]. }
  rewrite to_u32_small by lia.
  eapply wp_mono; [apply (IH (current + chunk) (remaining - chunk) (set_dev d' s)); try done; [|lia | lia | simpl; lia]|].
  { intros n Hn. apply Hout. lia. }
  intros err s' (Hok' & Hw' & Hp). split; [done|]. split.
  { eapply within_trans; (eapply within_mono; [..|done]; lia). }
  destruct Hp as [?|(-> & Hf)]; [by left|]. right. split; [done|]. intros n Hn.
  destruct (decide (current + chunk <= n)); [apply Hf; lia|].
  rewrite (within_block _ _ _ _ n Hw') by lia. unfold fs_block. cbn [dev set_dev lay].
  replace (fs_base_block (lay s) + n) with (fs_base_block (lay s) + current + (n - current)) by lia.
  rewrite Hw by (done || lia). rewrite <- Ebp. by rewrite sector_replicate by lia.
Qed.

Lemma wp_write_filled start count value P s :
  let bpb := bytes_per_block (lay s) in
  mk_ok P s -> (forall n, start <= n < start + count -> ~ P n) -> bpb <= 4096 ->
  0 <= start -> 0 <= count -> start + count <= fs_block_count (lay s) < 2 ^ 32 ->
  wp (write_filled_blocks start count value bpb) (fun err s' =>
    mk_ok P s' /\ within start (start + count) s s' /\
    (write_failed (lay s) err \/ (err = SUCCESS /\ forall n, start <= n < start + count ->
       fs_block s' n = replicate (Z.to_nat bpb) value))) s.
Proof.
  intros bpb Hok Hout Hb Hs Hc Hcnt. unfold write_filled_blocks.
  destruct (Z.eqb_spec count 0) as [->|].
  { apply wp_ret. split_and!; [done | done | right; split; [done | lia]]. }
  apply wp_bind, wp_fetch. destruct (mk_info _ _ Hok) as [k Hk]. rewrite Hk.
  pose proof (ready_layout _ (mk_ready _ _ Hok)) as (Ebp & Hbp & _). fold bpb in Ebp, Hbp.
  rewrite !(to_u32_small bpb) by lia. rewrite Ebp, Z.eqb_refl. cbn [negb]. rewrite <- Ebp.
  unfold MKFS_FILL_CHUNK_BLOCKS. rewrite !to_u32_small by lia.
  apply wp_bind. eapply (wp_kmalloc_mk _ P); [done | unfold KERNEL_HEAP_SIZE; lia|]. intros s1 Hok1 Hw1. cbn [negb].
  pose proof Hw1 as [El1 Hc1]. unfold bpb. rewrite <- El1.
  eapply wp_mono; [apply (wp_fill_loop _ _ _ _ P); [done | done | done | lia | by rewrite El1]|].
  intros err s' (Hok' & Hw' & Hp). split; [done|]. split; [|by rewrite El1 in Hp |- *].
  split; [destruct Hw'; congruence|]. intros m Hm. rewrite (proj2 Hw') by (rewrite El1; done). apply Hc1. lia.
Qed.

(** ** The bitmaps *)

(** The first [k] blocks of the bitmap at [start] hold the bits [ref]. *)
Definition bits_done (ref : Z -> bool) (start k : Z) s : Prop :=
  forall i, 0 <= i < k * bits_per_block (lay s) -> bitmap_bit s start i = ref i.

Lemma bits_done_more ref start k k' s s' :
  0 < bits_per_block (lay s) -> k <= k' -> bits_done ref start k s -> within (start + k) (start + k') s s' ->
  (forall j b, k <= j < k' -> 0 <= b < bits_per_block (lay s) ->
     data_bit (fs_block s' (start + j)) b = ref (j * bits_per_block (lay s) + b)) ->
  bits_done ref start k' s'.
Proof.
  intros Hpos Hk Hd Hw Hn i Hi. pose proof Hw as [El _]. rewrite El in Hi.
  set (bits := bits_per_block (lay s)) in *. set (j := i / bits). set (b := i mod bits).
  pose proof (Z.div_mod i bits ltac:(lia)) as Ei. pose proof (Z.mod_pos_bound i bits ltac:(lia)) as Hb.
  fold j b in Ei, Hb. assert (0 <= j < k') by (split; [apply Z.div_pos | apply Z.div_lt_upper_bound]; lia).
  assert (E : bitmap_bit s' start i = data_bit (fs_block s' (start + j)) b).
  { unfold bitmap_bit. rewrite El. done. }
  rewrite E. destruct (decide (j < k)).
  - rewrite (within_block _ _ _ _ _ Hw) by lia. rewrite <- (Hd i); [done|]. fold bits. nia.
  - rewrite Hn by lia. f_equal. lia.
Qed.

(** Every bit of a bitmap as [mkfs] leaves it: set for the blocks in use and
    for the bits past the end. *)
Definition used_bit (used total i : Z) : bool := (i <? used) || (total <=? i).

Lemma all_used_bits bits used total j b :
  0 <= b < bits -> all_used bits used total j = true -> used_bit used total (j * bits + b) = true.
Proof. unfold all_used, used_bit. intros Hb Hu. repeat case_bool; simpl in *; done || lia. Qed.

Lemma all_free_bits bits used total j b :
  0 <= b < bits -> all_free bits used total j = true -> used_bit used total (j * bits + b) = false.
Proof. unfold all_free, used_bit. intros Hb Hu. repeat case_bool; simpl in *; done || lia. Qed.

(** A run of blocks filled with [value]. *)
Lemma wp_fill_run ref p value start block blocks P s (Q : Z -> fs_state D -> Prop) :
  let bits := bits_per_block (lay s) in
  mk_ok P s -> (forall n, start + block <= n < start + blocks -> ~ P n) -> bytes_per_block (lay s) <= 4096 ->
  0 <= start -> 0 <= block < blocks -> start + blocks <= fs_block_count (lay s) < 2 ^ 32 ->
  bits_done ref start block s -> p block = true ->
  (forall j b, p j = true -> 0 <= b < bits -> ref (j * bits + b) = Z.testbit value (7 - b mod 8)) ->
  let run := run_length (Z.to_nat blocks) p block 1 blocks in
  (forall err s', mk_ok P s' -> within (start + block) (start + (block + run)) s s' -> 1 <= run -> block + run <= blocks ->
     write_failed (lay s) err \/ (err = SUCCESS /\ bits_done ref start (block + run) s') -> Q err s') ->
  wp (write_filled_blocks (to_u32 (start + block)) run value (bytes_per_block (lay s))) Q s.
Proof.
  intros bits Hok Hout Hb Hs Hbl Hcnt Hd Hp Hval run HQ.
  destruct (run_length_spec (Z.to_nat blocks) p block 1 blocks ltac:(lia)) as (Hr1 & Hr2 & Hrp). fold run in Hr1, Hr2, Hrp.
  rewrite to_u32_small by lia.
  pose proof (bits_per_block_eq _ (ready_layout _ (mk_ready _ _ Hok))) as [Hbits Hpos]. fold bits in Hbits.
  eapply wp_mono; [apply (wp_write_filled _ _ _ P); [done | intros n Hn; apply Hout; lia | done | lia | lia | lia]|].
  intros err s' (Hok' & Hw & Hf). replace (start + block + run) with (start + (block + run)) in Hw by lia.
  apply HQ; try done. destruct Hf as [?|(-> & Hf)]; [by left|]. right. split; [done|].
  apply (bits_done_more ref start block (block + run) s); [fold bits; lia | lia | done | done|].
  intros j b Hj Hb'. fold bits in Hb' |- *. rewrite Hf by lia. rewrite replicate_bit by lia. symmetry. apply Hval; [|done].
  destruct (decide (j = block)) as [->|]; [done|]. replace j with (block + (j - block)) by lia. apply Hrp. lia.
Qed.

Lemma wp_block_bitmap_loop used total start blocks fuel block P s :
  let bits := bits_per_block (lay s) in
  mk_ok P s -> (forall n, start + block <= n < start + blocks -> ~ P n) -> bytes_per_block (lay s) <= 4096 ->
  0 <= start -> 0 <= block <= blocks -> blocks - block <= Z.of_nat fuel ->
  start + blocks <= fs_block_count (lay s) < 2 ^ 32 -> bits_done (used_bit used total) start block s ->
  wp (block_bitmap_loop fuel (bytes_per_block (lay s)) bits used total start blocks block) (fun err s' =>
    mk_ok (fun n => P n \/ start <= n < start + blocks) s' /\ within (start + block) (start + blocks) s s' /\
    (write_failed (lay s) err \/ (err = SUCCESS /\ bits_done (used_bit used total) start blocks s'))) s.
Proof.
  revert block P s. induction fuel as [|fuel IH]; intros block P s bits Hok Hout Hb Hs Hbl Hfuel Hcnt Hd;
    cbn [block_bitmap_loop]; destruct (Z.leb_spec blocks block) as [Hge|Hlt]; try lia.
  1, 2: apply wp_ret; split_and!; [by eapply mk_ok_mono; [|done]; auto | done |];
    right; split; [done|]; by replace blocks with block by lia.
  pose proof (bits_per_block_eq _ (ready_layout _ (mk_ready _ _ Hok))) as [Hbits Hpos]. fold bits in Hbits.
  assert (Hnext : forall run err s', mk_ok (fun n => P n \/ n = start + block) s' ->
    within (start + block) (start + (block + run)) s s' -> 1 <= run -> block + run <= blocks ->
    write_failed (lay s) err \/ (err = SUCCESS /\ bits_done (used_bit used total) start (block + run) s') ->
    wp (if negb (err =? SUCCESS) then mret err
        else block_bitmap_loop fuel (bytes_per_block (lay s)) bits used total start blocks (block + run))
      (fun err s' => mk_ok (fun n => P n \/ start <= n < start + blocks) s' /\
         within (start + block) (start + blocks) s s' /\
         (write_failed (lay s) err \/ (err = SUCCESS /\ bits_done (used_bit used total) start blocks s'))) s').
  { intros run err s' Hok' Hw Hr Hr' He.
    assert (Hmk : mk_ok (fun n => P n \/ start <= n < start + blocks) s').
    { eapply mk_ok_mono; [|exact Hok']. intros n [?| ->]; [auto | right; lia]. }
    destruct He as [[-> Hfl]|(-> & Hd')]; cbn [negb Z.eqb SUCCESS FILE_WRITE_ERROR].
    { apply wp_ret. split_and!; [done | eapply within_mono; [..|done]; lia | by left]. }
    pose proof Hw as [El _]. unfold bits. rewrite <- El.
    eapply wp_mono; [apply (IH (block + run) (fun n => P n \/ n = start + block));
      [done | | by rewrite El | done | lia | lia | by rewrite El | done]|].
    { intros n Hn [HP| ->]; [|lia]. apply (Hout n); [lia | done]. }
    intros e s2 (Hok2 & Hw2 & He2). split_and!; [| |by rewrite El in He2 |- *].
    - eapply mk_ok_mono; [|exact Hok2]. intros n [[?| ->]|?]; [auto | right; lia | auto].
    - eapply within_trans; (eapply within_mono; [..|done]; lia). }
  destruct (all_used bits used total block) eqn:Eu; [|destruct (all_free bits used total block) eqn:Ef].
  - apply wp_bind, (wp_fill_run (used_bit used total) _ _ _ _ _ P); try done; [lia | |].
    { intros j b Hj Hb'. rewrite all_used_bits by done. symmetry. apply ff_bits. apply Z.mod_pos_bound. lia. }
    intros err s' Hok' Hw Hr Hr' He. apply Hnext; try done. by eapply mk_ok_mono; [|exact Hok']; auto.
  - apply wp_bind, (wp_fill_run (used_bit used total) _ _ _ _ _ P); try done; [lia | |].
    { intros j b Hj Hb'. rewrite all_free_bits by done. symmetry. apply Z.bits_0. }
    intros err s' Hok' Hw Hr Hr' He. apply Hnext; try done. by eapply mk_ok_mono; [|exact Hok']; auto.
  - rewrite to_u32_small by lia. apply wp_bind, wp_set_bits; [lia | rewrite length_replicate; lia|].
    intros data Hlen Hbit. rewrite length_replicate in Hlen. apply wp_bind.
    eapply wp_mono; [apply (wp_write_mk (start + block) data P); [done | lia | lia]|].
    intros err s' (Hok' & Hw & He). apply (Hnext 1); try done; [|lia|].
    { by replace (start + (block + 1)) with (start + block + 1) by lia. }
    destruct He as [(-> & Hf)|(-> & Hbad)]; [right | left; split; [done | apply (bad_flaky _ _ Hbad); lia]]. split; [done|].
    apply (bits_done_more _ start block (block + 1) s); [fold bits; lia | lia | done | |].
    { by replace (start + (block + 1)) with (start + block + 1) by lia. }
    intros j b Hj Hb'. assert (j = block) as -> by lia. fold bits in Hb' |- *.
    rewrite Hf, take_ge, Hbit, replicate_bit, Z.bits_0 by lia.
    destruct (Z.leb_spec 0 b), (Z.ltb_spec b (0 + Z.of_nat (Z.to_nat bits))); try lia. done.
Qed.

Lemma wp_write_block_bitmap s :
  let l := lay s in
  regions_ok l -> mk_ok (fun n => n < block_bitmap_start l) s -> bytes_per_block l <= 4096 ->
  wp (write_block_bitmap (bytes_per_block l)) (fun err s' =>
    mk_ok (fun n => n < inode_bitmap_start l) s' /\ within (block_bitmap_start l) (inode_bitmap_start l) s s' /\
    (write_failed (lay s) err \/ (err = SUCCESS /\
       bits_done (used_bit (data_start_block l + 1) (total_fs_blocks l)) (block_bitmap_start l) (block_bitmap_blocks l) s'))) s.
Proof.
  intros l Hreg Hok Hb. destruct Hreg. pose proof (ready_layout _ (mk_ready _ _ Hok)) as (_ & Hbp & _). fold l in Hbp.
  assert (Ebits : to_u32 (to_u32 (bytes_per_block l) * 8) = bits_per_block l) by done. unfold write_block_bitmap. rewrite Ebits.
  apply wp_bind. eapply wp_kmalloc_mk; [exact Hok | done|]. intros s1 Hok1 Hw1. cbn [negb].
  apply wp_bind, wp_fetch. pose proof Hw1 as [El1 Hc1]. rewrite El1. fold l.
  assert (Hz : forall i, 0 <= i < 0 * bits_per_block (lay s1) -> bitmap_bit s1 (block_bitmap_start l) i =
    used_bit (data_start_block l + 1) (total_fs_blocks l) i) by (intros; lia).
  unfold l. rewrite <- El1. unfold l in *. rewrite <- El1 in *.
  eapply wp_mono; [apply (wp_block_bitmap_loop _ _ _ _ _ 0 (fun n => n < block_bitmap_start (lay s1)));
    [done | intros; lia | done | lia | lia | lia | lia | exact Hz]|].
  intros err s' (Hok' & Hw & He). split_and!; [eapply mk_ok_mono; [|exact Hok']; simpl; intros; lia | |done].
  destruct Hw as [El' Hc']. split; [congruence|]. intros m Hm. rewrite <- El1 in Hm. rewrite Hc' by lia. apply Hc1. lia.
Qed.

(** The bits of the inode bitmap: inode 1, the root, is taken. *)
Definition inode_used (count i : Z) : bool := (i =? 0) || (count <=? i).

Lemma wp_inode_bitmap_loop count start blocks n block s :
  let bits := bits_per_block (lay s) in
  mk_ok (fun m => m < start + block) s -> 0 <= start -> 0 <= block -> block + Z.of_nat n = blocks ->
  start + blocks <= fs_block_count (lay s) < 2 ^ 32 -> blocks * bits <= 2 ^ 32 ->
  bits_done (inode_used count) start block s ->
  wp (inode_bitmap_loop n (bytes_per_block (lay s)) bits count start block) (fun err s' =>
    mk_ok (fun m => m < start + blocks) s' /\ within (start + block) (start + blocks) s s' /\
    (write_failed (lay s) err \/ (err = SUCCESS /\ bits_done (inode_used count) start blocks s'))) s.
Proof.
  revert block s. induction n as [|n IH]; intros block s bits Hok Hs Hb Hn Hcnt Hbb Hd; cbn [inode_bitmap_loop].
  { replace blocks with block by lia. apply wp_ret. split_and!; try done. by right. }
  pose proof (bits_per_block_eq _ (ready_layout _ (mk_ready _ _ Hok))) as [Hbits Hpos]. fold bits in Hbits.
  apply wp_bind, wp_set_bits; [lia | rewrite length_replicate; lia|].
  intros data Hlen Hbit. rewrite length_replicate in Hlen. rewrite to_u32_small by lia. apply wp_bind.
  eapply wp_mono; [eapply (wp_write_mk (start + block) data); [exact Hok | lia | lia]|].
  intros err s1 (Hok1 & Hw & He).
  replace (start + block + 1) with (start + (block + 1)) in Hw by lia. pose proof Hw as [El _].
  assert (Hok1' : mk_ok (fun m => m < start + (block + 1)) s1)
    by (eapply mk_ok_mono; [|exact Hok1]; simpl; intros; lia).
  destruct He as [(-> & Hf)|(-> & Hbad)]; cbn [negb Z.eqb SUCCESS FILE_WRITE_ERROR].
  2: { apply wp_ret. split_and!; [eapply mk_ok_mono; [|exact Hok1']; simpl; intros; lia | eapply within_mono; [..|done]; lia|].
       left. split; [done | apply (bad_flaky _ _ Hbad); lia]. }
  unfold bits. rewrite <- El. eapply wp_mono; [apply IH; try done; try lia; rewrite ?El; try done|].
  { apply (bits_done_more _ start block (block + 1) s); [fold bits; lia | lia | done | done|].
    intros j b Hj Hb'. assert (j = block) as -> by lia. fold bits in Hb' |- *.
    rewrite Hf, take_ge, Hbit, replicate_bit, Z.bits_0 by lia.
    destruct (Z.leb_spec 0 b), (Z.ltb_spec b (0 + Z.of_nat (Z.to_nat bits))); try lia. simpl. unfold inode_used.
    rewrite (to_u32_small (block * bits)), to_u32_small by nia. done. }
  intros e s2 (Hok2 & Hw2 & He2). split_and!; [done | |by rewrite El in He2 |- *]. eapply within_trans; (eapply within_mono; [..|done]; lia).
Qed.

Lemma wp_write_inode_bitmap s :
  let l := lay s in
  regions_ok l -> mk_ok (fun n => n < inode_bitmap_start l) s ->
  inode_bitmap_blocks l * bits_per_block l <= 2 ^ 32 ->
  wp (write_inode_bitmap (bytes_per_block l)) (fun err s' =>
    mk_ok (fun n => n < inode_table_start l) s' /\ within (inode_bitmap_start l) (inode_table_start l) s s' /\
    (write_failed (lay s) err \/ (err = SUCCESS /\
       bits_done (inode_used (get_inode_capacity l)) (inode_bitmap_start l) (inode_bitmap_blocks l) s'))) s.
Proof.
  intros l Hreg Hok Hb. destruct Hreg. pose proof (ready_layout _ (mk_ready _ _ Hok)) as (_ & Hbp & _). fold l in Hbp.
  assert (Ebits : to_u32 (to_u32 (bytes_per_block l) * 8) = bits_per_block l) by done. unfold write_inode_bitmap. rewrite Ebits.
  apply wp_bind. eapply wp_kmalloc_mk; [exact Hok | done|]. intros s1 Hok1 Hw1. cbn [negb].
  apply wp_bind, wp_fetch. pose proof Hw1 as [El1 Hc1]. rewrite El1. unfold l in *. rewrite <- El1 in *.
  eapply wp_mono; [apply (wp_inode_bitmap_loop _ _ (inode_bitmap_blocks (lay s1)) _ 0); [by rewrite Z.add_0_r | lia | lia | lia | lia | done |]|].
  { intros i Hi. lia. }
  intros err s' (Hok' & Hw & He). split_and!; [eapply mk_ok_mono; [|exact Hok']; simpl; intros; lia | |done].
  destruct Hw as [El' Hc']. split; [congruence|]. intros m Hm. rewrite <- El1 in Hm. rewrite Hc' by lia. apply Hc1. lia.
Qed.

(** ** The whole format *)

(** A call whose error is returned at once. *)
Lemma wp_checked (m k : stM (fs_state D) Z) (Q : Z -> fs_state D -> Prop) s :
  wp m (fun err s' => (err = FILE_WRITE_ERROR /\ Q FILE_WRITE_ERROR s') \/ (err = SUCCESS /\ wp k Q s')) s ->
  wp (err ← m; if negb (err =? SUCCESS) then mret err else k) Q s.
Proof.
  intros Hm. apply wp_bind. eapply wp_mono; [exact Hm|]. intros err s' [(-> & HQ)|(-> & HQ)]; [by apply wp_ret | done].
Qed.

Lemma bits_done_within ref start k lo hi s s' :
  bits_done ref start k s -> within lo hi s s' -> start + k <= lo \/ hi <= start ->
  0 < bits_per_block (lay s) -> bits_done ref start k s'.
Proof.
  intros Hd Hw Hdis Hpos i Hi. pose proof Hw as [El _]. rewrite El in Hi. rewrite <- Hd by done.
  unfold bitmap_bit. rewrite El. f_equal. apply (within_block lo hi); [done|].
  assert (0 <= i / bits_per_block (lay s) < k) by (split; [apply Z.div_pos | apply Z.div_lt_upper_bound]; lia). lia.
Qed.

(** What a freshly formatted file system holds. *)
Record formatted (now : Z) s : Prop := {
  fm_super : fs_block s 0 = put_struct_at (replicate (Z.to_nat (bytes_per_block (lay s))) 0) 0
    (superblock_of (lay s) (num_table_blocks (lay s)) (bytes_per_block (lay s)));
  fm_blocks : bits_done (used_bit (data_start_block (lay s) + 1) (total_fs_blocks (lay s)))
    (block_bitmap_start (lay s)) (block_bitmap_blocks (lay s)) s;
  fm_inodes : bits_done (inode_used (get_inode_capacity (lay s)))
    (inode_bitmap_start (lay s)) (inode_bitmap_blocks (lay s)) s;
  fm_root : fs_block s (inode_table_start (lay s)) =
    put_struct_at (replicate (Z.to_nat (bytes_per_block (lay s))) 0) 0 (root_node now (lay s));
  fm_table : forall n, inode_table_start (lay s) < n < inode_table_start (lay s) + num_table_blocks (lay s) ->
    fs_block s n = replicate (Z.to_nat (bytes_per_block (lay s))) 0;
  fm_dir : fs_block s (data_start_block (lay s)) =
    put_struct_at (put_struct_at (replicate (Z.to_nat (bytes_per_block (lay s))) 0) 0 (mkDirent [46] 1)) 1
      (mkDirent [46; 46] 1)
}.

Definition format_post (now : Z) s (err : Z) s' : Prop :=
  mk_ok (fun n => n < data_start_block (lay s) + 1) s' /\ within 0 (data_start_block (lay s) + 1) s s' /\
  (write_failed (lay s) err \/ (err = SUCCESS /\ formatted now s')).

(** A block of zeros with a structure in it has the size of a block. *)
Lemma length_zeros_put {A} `{Format A} bpb (x : A) :
  Z.of_nat fmt_size <= bpb -> Z.of_nat (length (put_struct_at (replicate (Z.to_nat bpb) 0) 0 x)) = bpb.
Proof. intros Hb. rewrite length_put_struct; rewrite length_replicate; lia. Qed.

(** The steps of [mkfs_inode] that come before the next: what has been cached
    lies below [hi], and only metadata has changed. *)
Record formatting s (hi : Z) s' : Prop := {
  fg_ok : mk_ok (fun n => n < hi) s';
  fg_within : within 0 (data_start_block (lay s) + 1) s s'
}.

Lemma formatting_next s hi hi' lo s1 s2 P :
  formatting s hi s1 -> 0 <= lo -> hi <= hi' <= data_start_block (lay s) + 1 ->
  mk_ok P s2 -> (forall n, P n -> n < hi') -> within lo hi' s1 s2 -> formatting s hi' s2.
Proof.
  intros [H1 W1] Hlo Hhi H2 HP W2. constructor; [by eapply mk_ok_mono|].
  eapply within_trans; [exact W1 | eapply within_mono; [..|exact W2]; lia].
Qed.

Lemma formatting_failed now s hi s' :
  formatting s hi s' -> hi <= data_start_block (lay s) + 1 -> flaky (lay s) -> format_post now s FILE_WRITE_ERROR s'.
Proof.
  intros [H1 W1] Hhi Hfl. split_and!; [eapply mk_ok_mono; [|exact H1]; simpl; intros; lia | done | by left].
Qed.

Lemma wp_write_inode_table now s s1 :
  let l := lay s in
  regions_ok l -> 256 <= bytes_per_block l <= 4096 -> 0 < num_table_blocks l < 2 ^ 31 ->
  formatting s (inode_table_start l) s1 ->
  wp (write_inode_table now l (num_table_blocks l) (bytes_per_block l)) (fun err s' =>
    formatting s (data_start_block l) s' /\ within (inode_table_start l) (data_start_block l) s1 s' /\
    (write_failed l err \/ (err = SUCCESS /\
       fs_block s' (inode_table_start l) = put_struct_at (replicate (Z.to_nat (bytes_per_block l)) 0) 0 (root_node now l) /\
       forall n, inode_table_start l < n < inode_table_start l + num_table_blocks l ->
         fs_block s' n = replicate (Z.to_nat (bytes_per_block l)) 0))) s1.
Proof.
  intros l Hreg Hb Hn Hf. pose proof Hreg as []. set (bpb := bytes_per_block l) in *. set (itb := num_table_blocks l) in *.
  assert (Etb : to_u32 itb = itb) by (apply to_u32_small; lia). rewrite Etb in *.
  pose proof Hf as [Hok1 Hw1]. pose proof Hw1 as [El1 _]. fold l in El1.
  apply wp_bind. eapply wp_kmalloc_mk; [exact Hok1 | unfold KERNEL_HEAP_SIZE; lia|]. intros s2 Hok2 Hw2. cbn [negb].
  pose proof Hw2 as [El2 _]. rewrite El1 in El2.
  assert (Hlen : Z.of_nat (length (put_struct_at (replicate (Z.to_nat bpb) 0) 0 (root_node now l))) = bpb)
    by (apply length_zeros_put; simpl fmt_size; lia).
  apply wp_checked. eapply wp_mono; [eapply wp_write_mk; [exact Hok2 | lia | rewrite El2; fold bpb; lia]|].
  intros err s3 (Hok3 & Hw3 & He). pose proof Hw3 as [El3 _]. rewrite El2 in El3.
  assert (Hw13 : within (inode_table_start l) (inode_table_start l + 1) s1 s3).
  { eapply within_trans; [|exact Hw3]. destruct Hw2 as [E W]. split; [done|]. intros m Hm. apply W. lia. }
  assert (Hf3 : formatting s (inode_table_start l + 1) s3).
  { eapply (formatting_next s _ _ (inode_table_start l)); [exact Hf | lia | fold l; lia | exact Hok3 | | exact Hw13].
    simpl. intros n [?| ->]; lia. }
  assert (Hf4 : formatting s (data_start_block l) s3).
  { destruct Hf3 as [? ?]. constructor; [eapply mk_ok_mono; [|done]; simpl; intros; lia | done]. }
  destruct He as [(-> & Hroot)|(-> & Hbad)]; [right|left]; (split; [done|]).
  2: { split_and!; [done | eapply within_mono; [..|exact Hw13]; lia | left]. rewrite El2 in Hbad.
       split; [done | apply (bad_flaky _ _ Hbad); lia]. }
  rewrite El2 in Hroot. fold bpb in Hroot. rewrite take_ge in Hroot by lia.
  destruct (Z.ltb_spec 1 itb).
  2: { apply wp_ret. split_and!; [done | eapply within_mono; [..|exact Hw13]; lia|]. right. split_and!; [done | done | lia]. }
  rewrite ?Etb, (to_u32_small (inode_table_start l + 1)), (to_u32_small (itb - 1)) by lia.
  assert (Eb : bpb = bytes_per_block (lay s3)) by (by rewrite El3). rewrite Eb.
  destruct Hf3 as [Hok3' _].
  eapply wp_mono; [eapply wp_write_filled; [exact Hok3' | simpl; intros; lia | rewrite El3; fold bpb; lia | lia | lia | rewrite El3; lia]|].
  rewrite <- Eb. intros err s4 (Hok4 & Hw4 & He). replace (_ + 1 + (itb - 1)) with (inode_table_start l + itb) in * by lia.
  split_and!.
  - eapply (formatting_next s _ _ (inode_table_start l + 1)); [exact Hf4 | lia | fold l; lia | exact Hok4 | simpl; intros; lia|].
    eapply within_mono; [..|exact Hw4]; lia.
  - eapply within_trans; [eapply within_mono; [..|exact Hw13]; lia | eapply within_mono; [..|exact Hw4]; lia].
  - destruct He as [Hfl|(-> & Hfill)]; [left; by rewrite El3 in Hfl|]. right. split_and!; [done | |intros n Hn'; apply Hfill; lia].
    rewrite (within_block _ _ _ _ _ Hw4) by lia. done.
Qed.

Lemma wp_write_root_dir s s1 :
  let l := lay s in
  regions_ok l -> 256 <= bytes_per_block l <= 4096 -> formatting s (data_start_block l) s1 ->
  wp (write_root_dir l (bytes_per_block l)) (fun err s' =>
    formatting s (data_start_block l + 1) s' /\ within (data_start_block l) (data_start_block l + 1) s1 s' /\
    (write_failed l err \/ (err = SUCCESS /\ fs_block s' (data_start_block l) =
       put_struct_at (put_struct_at (replicate (Z.to_nat (bytes_per_block l)) 0) 0 (mkDirent [46] 1)) 1
         (mkDirent [46; 46] 1)))) s1.
Proof.
  intros l Hreg Hb Hf. pose proof Hreg as []. set (bpb := bytes_per_block l) in *.
  pose proof Hf as [Hok1 Hw1]. pose proof Hw1 as [El1 _]. fold l in El1.
  apply wp_bind. eapply wp_kmalloc_mk; [exact Hok1 | unfold KERNEL_HEAP_SIZE; lia|]. intros s2 Hok2 Hw2. cbn [negb].
  pose proof Hw2 as [El2 _]. rewrite El1 in El2.
  assert (Hlen : Z.of_nat (length (put_struct_at (replicate (Z.to_nat bpb) 0) 0 (mkDirent [46] 1))) = bpb)
    by (apply length_zeros_put; simpl fmt_size; lia).
  assert (Hlen2 : Z.of_nat (length (put_struct_at (put_struct_at (replicate (Z.to_nat bpb) 0) 0 (mkDirent [46] 1)) 1
    (mkDirent [46; 46] 1))) = bpb) by (rewrite length_put_struct; [done | simpl fmt_size; lia]).
  eapply wp_mono; [eapply wp_write_mk; [exact Hok2 | lia | rewrite El2; fold bpb; lia]|].
  intros err s3 (Hok3 & Hw3 & He). rewrite El2 in He. fold bpb in He.
  assert (Hw13 : within (data_start_block l) (data_start_block l + 1) s1 s3).
  { eapply within_trans; [|exact Hw3]. destruct Hw2 as [E W]. split; [done|]. intros m Hm. apply W. lia. }
  split_and!; [|done|].
  - eapply (formatting_next s _ _ (data_start_block l)); [exact Hf | lia | fold l; lia | exact Hok3 | | exact Hw13].
    simpl. intros n [?| ->]; lia.
  - destruct He as [(-> & Hd)|(-> & Hbad)]; [right | left; split; [done|]; apply (bad_flaky _ _ Hbad); lia].
    rewrite take_ge in Hd by lia. done.
Qed.

Lemma wp_format_block_bitmap s s1 :
  let l := lay s in
  regions_ok l -> bytes_per_block l <= 4096 -> formatting s 1 s1 ->
  wp (write_block_bitmap (bytes_per_block l)) (fun err s' =>
    formatting s (inode_bitmap_start l) s' /\ within 1 (inode_bitmap_start l) s1 s' /\
    (write_failed l err \/ (err = SUCCESS /\
       bits_done (used_bit (data_start_block l + 1) (total_fs_blocks l)) (block_bitmap_start l) (block_bitmap_blocks l) s'))) s1.
Proof.
  intros l Hreg Hb Hf. pose proof Hreg as []. pose proof Hf as [Hok1 [El1 _]]. fold l in El1. rewrite <- El1 in *.
  eapply wp_mono; [apply wp_write_block_bitmap; [done | eapply mk_ok_mono; [|exact Hok1]; simpl; intros; lia | done]|].
  intros err s2 (Hok2 & Hw2 & He). rewrite rg_bitmap in Hw2. split_and!; [|done|done].
  eapply (formatting_next s _ _ 1); [exact Hf | lia | fold l; rewrite <- El1; lia | exact Hok2 | done | exact Hw2].
Qed.

Lemma wp_format_inode_bitmap s s1 :
  let l := lay s in
  regions_ok l -> inode_bitmap_blocks l * bits_per_block l <= 2 ^ 32 -> formatting s (inode_bitmap_start l) s1 ->
  wp (write_inode_bitmap (bytes_per_block l)) (fun err s' =>
    formatting s (inode_table_start l) s' /\ within (inode_bitmap_start l) (inode_table_start l) s1 s' /\
    (write_failed l err \/ (err = SUCCESS /\
       bits_done (inode_used (get_inode_capacity l)) (inode_bitmap_start l) (inode_bitmap_blocks l) s'))) s1.
Proof.
  intros l Hreg Hb Hf. pose proof Hreg as []. pose proof Hf as [Hok1 [El1 _]]. fold l in El1. rewrite <- El1 in *.
  eapply wp_mono; [apply wp_write_inode_bitmap; done|].
  intros err s2 (Hok2 & Hw2 & He). split_and!; [|done|done].
  eapply (formatting_next s _ _ (inode_bitmap_start (lay s1)));
    [exact Hf | lia | fold l; rewrite <- El1; lia | exact Hok2 | done | exact Hw2].
Qed.

Lemma wp_format_empty_super s :
  let l := lay s in
  regions_ok l -> mk_ok (fun _ => False) s -> 0 < bytes_per_block l ->
  wp (write_block (replicate (Z.to_nat (bytes_per_block l)) 0) SUPERBLOCK_BLOCK) (fun err s' =>
    formatting s 1 s' /\ (write_failed l err \/ err = SUCCESS)) s.
Proof.
  intros l Hreg Hok Hb. destruct Hreg.
  eapply wp_mono; [eapply wp_write_mk; [exact Hok | unfold SUPERBLOCK_BLOCK; lia | rewrite length_replicate; fold l; lia]|].
  unfold SUPERBLOCK_BLOCK. intros err s2 (Hok2 & Hw2 & He).
  split; [|destruct He as [[? _]|(-> & Hbad)]; [by right | left; split; [done | apply (bad_flaky _ _ Hbad); fold l; lia]]].
  constructor; [eapply mk_ok_mono; [|exact Hok2]; simpl; intros ? [[]| ->]; lia|].
  eapply within_mono; [..|exact Hw2]; fold l; lia.
Qed.

(** The last write: the superblock makes the file system a formatted one. *)
Lemma wp_format_super now s s1 :
  let l := lay s in
  regions_ok l -> 256 <= bytes_per_block l -> 0 < bits_per_block l -> formatting s (data_start_block l + 1) s1 ->
  bits_done (used_bit (data_start_block l + 1) (total_fs_blocks l)) (block_bitmap_start l) (block_bitmap_blocks l) s1 ->
  bits_done (inode_used (get_inode_capacity l)) (inode_bitmap_start l) (inode_bitmap_blocks l) s1 ->
  fs_block s1 (inode_table_start l) = put_struct_at (replicate (Z.to_nat (bytes_per_block l)) 0) 0 (root_node now l) ->
  (forall n, inode_table_start l < n < inode_table_start l + num_table_blocks l ->
    fs_block s1 n = replicate (Z.to_nat (bytes_per_block l)) 0) ->
  fs_block s1 (data_start_block l) =
    put_struct_at (put_struct_at (replicate (Z.to_nat (bytes_per_block l)) 0) 0 (mkDirent [46] 1)) 1 (mkDirent [46; 46] 1) ->
  wp (write_block (put_struct_at (replicate (Z.to_nat (bytes_per_block l)) 0) 0
        (superblock_of l (num_table_blocks l) (bytes_per_block l))) SUPERBLOCK_BLOCK) (format_post now s) s1.
Proof.
  intros l Hreg Hb Hpos Hf Hbl Hin Hroot Htab Hdir. destruct Hreg. pose proof Hf as [Hok1 [El1 Hc1]]. fold l in El1.
  set (sb := put_struct_at _ _ _).
  assert (Hlen : Z.of_nat (length sb) = bytes_per_block l) by (apply length_zeros_put; simpl fmt_size; lia).
  eapply wp_mono; [eapply wp_write_mk; [exact Hok1 | unfold SUPERBLOCK_BLOCK; lia | rewrite El1; lia]|].
  unfold SUPERBLOCK_BLOCK. intros err s2 (Hok2 & Hw2 & He). pose proof Hw2 as [El2 _]. rewrite El1 in El2.
  unfold format_post. fold l.
  split_and!.
  - eapply mk_ok_mono; [|exact Hok2]. simpl. intros ? [?| ->]; lia.
  - eapply within_trans; [apply Hf | eapply within_mono; [..|exact Hw2]; lia].
  - destruct He as [(-> & Hs)|(-> & Hbad)];
      [right; split; [done|] | left; split; [done|]; rewrite El1 in Hbad; apply (bad_flaky _ _ Hbad); lia].
    rewrite El1, take_ge in Hs by lia.
    assert (Hsame : forall n, 0 < n -> fs_block s2 n = fs_block s1 n)
      by (intros; apply (within_block _ _ _ _ _ Hw2); lia).
    assert (Hnum : 0 < inode_table_start l) by lia.
    constructor; rewrite El2; [exact Hs | | | | |].
    + eapply bits_done_within; [exact Hbl | exact Hw2 | lia | by rewrite El1].
    + eapply bits_done_within; [exact Hin | exact Hw2 | lia | by rewrite El1].
    + by rewrite Hsame.
    + intros n Hn. rewrite Hsame by lia. by apply Htab.
    + by rewrite Hsame by lia.
Qed.


Lemma wp_mkfs_inode now s :
  let l := lay s in
  regions_ok l -> mk_ok (fun _ => False) s -> 256 <= bytes_per_block l <= 4096 ->
  0 < num_table_blocks l < 2 ^ 31 -> inode_bitmap_blocks l * bits_per_block l <= 2 ^ 32 ->
  wp (mkfs_inode now (num_table_blocks l) (bytes_per_block l)) (format_post now s) s.
Proof.
  intros l Hreg Hok0 Hb Hn Hib. pose proof Hreg as []. pose proof (ready_layout _ (mk_ready _ _ Hok0)) as (_ & Hbp & Hbits).
  fold l in Hbp, Hbits.
  assert (Hpos : 0 < bits_per_block l) by (unfold bits_per_block; rewrite !to_u32_small; rewrite ?to_u32_small; lia).
  apply wp_bind. eapply wp_kmalloc_mk; [exact Hok0 | unfold KERNEL_HEAP_SIZE; lia|]. intros s1 Hok1 Hw1. cbn [negb].
  pose proof Hw1 as [El1 Hc1]. apply wp_bind, wp_fetch. rewrite El1. fold l.
  assert (Hback : forall err s', format_post now s1 err s' -> format_post now s err s').
  { intros err s'. unfold format_post. rewrite El1. intros (? & W & ?). split_and!; [done | | done].
    eapply within_trans; [eapply within_mono; [..|exact Hw1]; fold l; lia | exact W]. }
  eapply wp_mono; [|exact Hback]. unfold l in *. rewrite <- El1 in *. clear l Hback El1 Hw1 Hc1 Hok0 s.
  set (l := lay s1) in *.
  apply wp_checked. eapply wp_mono; [apply wp_format_empty_super; [done | done | fold l; lia]|].
  intros err s2 (Hf2 & [[-> Hfl]| ->]); [left|right]; (split; [done|]). 1: eapply formatting_failed; [exact Hf2 | fold l; lia | done].
  apply wp_checked. eapply wp_mono; [apply wp_format_block_bitmap; [done | fold l; lia | exact Hf2]|]. fold l.
  intros err s3 (Hf3 & Hw3 & [[-> Hfl]|(-> & Hbl3)]); [left|right]; (split; [done|]). 1: eapply formatting_failed; [exact Hf3 | fold l; lia | done].
  apply wp_checked. eapply wp_mono; [apply wp_format_inode_bitmap; [done | fold l; lia | exact Hf3]|]. fold l.
  intros err s4 (Hf4 & Hw4 & [[-> Hfl]|(-> & Hin4)]); [left|right]; (split; [done|]). 1: eapply formatting_failed; [exact Hf4 | fold l; lia | done].
  apply wp_checked. eapply wp_mono; [apply wp_write_inode_table; [done | fold l; lia | fold l; lia | exact Hf4]|]. fold l.
  intros err s5 (Hf5 & Hw5 & [[-> Hfl]|(-> & Hroot5 & Htab5)]); [left|right]; (split; [done|]). 1: eapply formatting_failed; [exact Hf5 | fold l; lia | done].
  apply wp_checked. eapply wp_mono; [apply wp_write_root_dir; [done | fold l; lia | exact Hf5]|]. fold l.
  intros err s6 (Hf6 & Hw6 & [[-> Hfl]|(-> & Hdir6)]); [left|right]; (split; [done|]). 1: eapply formatting_failed; [exact Hf6 | fold l; lia | done].
  assert (Hl : lay s3 = l /\ lay s4 = l /\ lay s5 = l)
    by (destruct Hf3 as [_ [? _]], Hf4 as [_ [? _]], Hf5 as [_ [? _]]; done). destruct Hl as (El3 & El4 & El5).
  assert (Etb : to_u32 (num_table_blocks l) = num_table_blocks l) by (apply to_u32_small; lia).
  apply wp_format_super; fold l; [done | lia | done | done | | | | | done].
  - eapply bits_done_within; [|exact Hw6|lia|by rewrite El5]. eapply bits_done_within; [|exact Hw5|lia|by rewrite El4].
    eapply bits_done_within; [exact Hbl3 | exact Hw4 | lia | by rewrite El3].
  - eapply bits_done_within; [|exact Hw6|lia|by rewrite El5]. eapply bits_done_within; [exact Hin4|exact Hw5|lia|by rewrite El4].
  - by rewrite (within_block _ _ _ _ _ Hw6) by lia.
  - intros n Hn'. rewrite (within_block _ _ _ _ _ Hw6) by lia. by apply Htab5.
Qed.

(** ** Mounting what was formatted *)

Lemma superblock_of_fits l :
  regions_ok l -> 256 <= bytes_per_block l <= 4096 -> 0 < num_table_blocks l < 2 ^ 31 ->
  superblock_fits (superblock_of l (num_table_blocks l) (bytes_per_block l)).
Proof.
  intros [] Hb Hn. assert (E : to_u32 (num_table_blocks l) = num_table_blocks l) by (apply to_u32_small; lia).
  constructor; [done|]. simpl. rewrite E, (to_u32_small (bytes_per_block l)) by lia.
  repeat (apply Forall_cons; split; [unfold ROOT_INO; lia|]). constructor.
Qed.

(** The superblock of a sound layout passes the checks, and mounting it puts the
    layout back, whatever layout was in force. *)
Lemma wp_mount_formatted l n (s0 : fs_state D) :
  regions_ok l -> 256 <= bytes_per_block l <= 4096 -> 0 < num_table_blocks l < 2 ^ 31 ->
  sdhci_block_get_info (dev s0) = Some (n, bytes_per_block l) ->
  fs_base_block (lay s0) = fs_base_block l -> fs_block_count (lay s0) = fs_block_count l ->
  let sb := superblock_of l (num_table_blocks l) (bytes_per_block l) in
  wp (err ← validate_superblock sb; if err =? SUCCESS then mount_inode sb else mret err)
    (fun err s' => err = SUCCESS /\ s' = set_lay l s0) s0.
Proof.
  intros [] Hb Hn Hi Ebase Ecnt. assert (En : to_u32 (num_table_blocks l) = num_table_blocks l) by (apply to_u32_small; lia).
  apply wp_bind. unfold validate_superblock. apply wp_bind, wp_fetch. apply wp_bind, wp_fetch. apply wp_ret.
  rewrite Hi, Ecnt. cbn [sb_bytes_per_block sb_total_blocks sb_block_bitmap_start superblock_of
    sb_block_bitmap_blocks sb_inode_bitmap_start sb_inode_bitmap_blocks sb_inode_table_start
    sb_inode_table_blocks sb_data_start_block sb_root_inode_id].
  rewrite En, (to_u32_small (bytes_per_block l)) by lia.
  rewrite (to_u32_small (block_bitmap_start l + _)), (to_u32_small (inode_bitmap_start l + _)),
    (to_u32_small (inode_table_start l + _)) by lia.
  rewrite rg_count, !Z.eqb_refl, rg_bitmap, !(proj2 (range_is_valid_spec _ _ _)), !(proj2 (Z.ltb_ge _ _)),
    (proj2 (Z.leb_gt _ _)), (proj2 (Z.eqb_neq (fs_block_count l) 0)) by lia.
  replace (signature_matches _) with true by reflexivity. cbn [negb orb Z.eqb SUCCESS].
  apply wp_fs_set_layout; [simpl; rewrite En, to_u32_small; lia|]. intros _ _ _ _ _. split; [done|]. f_equal.
  simpl. rewrite Ebase, Ecnt, En, (to_u32_small (bytes_per_block l)) by lia.
  unfold to_s32. rewrite !Z.mod_small by lia. destruct l; simpl in *; f_equal; lia.
Qed.

End theory.

(** ** Properties *)

Lemma ram_fs_mk : mk_ok (fun _ => False) ram_fs.
Proof.
  constructor; [exists []; split; [exact ram_fs_cached | constructor] | done|]. eexists. reflexivity.
Qed.

Lemma ram_fs_regions : regions_ok (lay ram_fs).
Proof. constructor; vm_compute; done. Qed.

(** C28. Formatting: on success the card holds a file system described by its
    superblock, in which the bit of a block is set exactly when the block lies
    below the first free data block or past the last block (whichever way the
    bitmap was written: in runs of full blocks, in runs of empty blocks or bit
    by bit), the bit of an inode exactly for the root and the numbers past the
    capacity, the table holds the root inode and zeros, and the root directory
    holds its two entries; it fails only if a sector of the file system is bad,
    and whether or not it succeeds, nothing past the root
    directory's block and nothing outside the region changes. *)
Theorem mkfs_inode_correct {D} `{DeviceLaws D} now (s : fs_state D) :
  let l := lay s in
  regions_ok l -> mk_ok (fun _ => False) s -> 256 <= bytes_per_block l <= 4096 ->
  0 < num_table_blocks l < 2 ^ 31 -> inode_bitmap_blocks l * bits_per_block l <= 2 ^ 32 ->
  wp (mkfs_inode now (num_table_blocks l) (bytes_per_block l)) (format_post now s) s.
Proof. apply wp_mkfs_inode. Qed.

Lemma mkfs_inode_correct_witness :
  regions_ok (lay ram_fs) /\ wp (mkfs_inode 7 2 512) (format_post 7 ram_fs) ram_fs.
Proof.
  split; [exact ram_fs_regions|].
  apply (mkfs_inode_correct 7 ram_fs); [exact ram_fs_regions | exact ram_fs_mk | vm_compute; done..].
Defined.


(** The card formatted. *)
Lemma ram_formatted :
  exists s, mkfs_inode 7 2 512 ram_fs = Ok (SUCCESS, s) /\ lay s = lay ram_fs /\ formatted 7 s.
Proof.
  destruct (wp_mkfs_inode 7 ram_fs) as (err & s & E & _ & [El _] & He);
    [exact ram_fs_regions | exact ram_fs_mk | vm_compute; done.. |].
  destruct He as [(_ & n & _ & [])|[-> Hf]]. exists s. split_and!; [exact E | exact El | exact Hf].
Qed.

