(* ===== verification/FileMap.v ===== *)
(** * The block map of a file

    The parts of kernel/fs/inodes.c that find and append the blocks of a file:
    twelve direct blocks (fifteen while the file has no more than fifteen), then one single, one double and one triple indirect block. *)

From S2P Require Import Prelude Errors Bytes Services BlockCache Bitmap Layout Inode Mkfs.

Section filemap.
Context {D : Type} `{BlockDevice D}.
(** Byte [k] of memory that [kmalloc] hands out in a state. *)
Context (junk : fs_state D -> Z -> Z).
Implicit Types (s : fs_state D).

Abbreviation FS := (stM (fs_state D)).

(** [sizeof(block_no_t)] is 4; the macros are computed in [size_t]. *)
Definition BLOCKS_IN_SINGLE_PTR (l : fs_layout) : Z := to_u64 (bytes_per_block l) / 4.
Definition BLOCKS_IN_DOUBLE_PTR (l : fs_layout) : Z := to_u64 (BLOCKS_IN_SINGLE_PTR l * BLOCKS_IN_SINGLE_PTR l).
Definition BLOCKS_IN_TRIPLE_PTR (l : fs_layout) : Z := to_u64 (BLOCKS_IN_DOUBLE_PTR l * BLOCKS_IN_SINGLE_PTR l).

(** ** Buffers

    A buffer of a block from [kmalloc], whose result is never tested: [None]
    is the NULL pointer. *)

Definition buffer := option (list Z).

Definition new_block : FS buffer :=
  l ← fetch lay;
  ok ← kmalloc (bytes_per_block l);
  fetch (fun s => if (ok : bool) then Some (map (junk s) (seqZ 0 (bytes_per_block l))) else None).

Definition read_to (buf : buffer) (num : Z) : FS (Z * buffer) :=
  '(err, data) ← read_block num;
  if negb (err =? SUCCESS) then mret (err, buf) else
  match buf with None => fault | Some _ => mret (SUCCESS, Some data) end.

Definition write_from (buf : buffer) (num : Z) : FS Z :=
  match buf with None => fault | Some data => write_block data num end.

(** [ptr_data[i]] of a buffer taken as an array of block numbers. *)
Definition get_entry (buf : buffer) (i : Z) : FS Z :=
  match buf with
  | Some data => if (0 <=? i) && (4 * i + 4 <=? Z.of_nat (length data)) then mret (get_struct data (Z.to_nat i)) else fault
  | None => fault
  end.

Definition put_entry (buf : buffer) (i v : Z) : FS buffer :=
  match buf with
  | Some data =>
      if (0 <=? i) && (4 * i + 4 <=? Z.of_nat (length data)) then mret (Some (put_struct_at data (Z.to_nat i) v)) else fault
  | None => fault
  end.

(** [inode->blocks[i]] *)
Definition block_at (node : inode_st) (i : Z) : FS Z :=
  match blocks node !! Z.to_nat i with Some b => mret b | None => fault end.

Definition set_block_at (i v : Z) (node : inode_st) : inode_st :=
  mkInode (metadata node) (<[Z.to_nat i := v]> (blocks node)).

Definition with_i_blocks (n : Z) (node : inode_st) : inode_st :=
  let m := metadata node in
  mkInode (mkAttr (i_links_count m) (i_type m) (i_perm m) (i_size m) n (i_mtime m) (i_rdev m) (i_fops m) (i_ptr m))
    (blocks node).

Definition with_i_size (n : Z) (node : inode_st) : inode_st :=
  let m := metadata node in
  mkInode (mkAttr (i_links_count m) (i_type m) (i_perm m) n (i_blocks m) (i_mtime m) (i_rdev m) (i_fops m) (i_ptr m))
    (blocks node).

Definition nblocks (node : inode_st) : Z := i_blocks (metadata node).

(** ** Looking up a block *)

(** The error of [read_block] is ignored: the buffer is then as it came. *)
Definition get_block_num_from_disk_ptr (ptr_block_num desired_block_idx : Z) : FS Z :=
  data ← new_block;
  '(_, data) ← read_to data ptr_block_num;
  get_entry data desired_block_idx.

Definition get_block_num_from_inode (node : inode_st) (block_num : Z) : FS Z :=
  l ← fetch lay;
  let single := BLOCKS_IN_SINGLE_PTR l in
  let double := BLOCKS_IN_DOUBLE_PTR l in
  let triple := BLOCKS_IN_TRIPLE_PTR l in
  if nblocks node <=? block_num then mret 0
  else if (block_num <? 12) || (nblocks node <=? 15) then block_at node block_num
  else if block_num <? to_u64 (12 + single) then
    ptr ← block_at node 12;
    get_block_num_from_disk_ptr ptr (to_u32 (block_num - 12))
  else if block_num <? to_u64 (12 + single + double) then
    let double_ptr_with_block := to_u32 (block_num - single - 12) in
    let ptr_with_block := to_u32 (double_ptr_with_block mod double) in
    let double_ptr_with_block := to_u32 (double_ptr_with_block / double) in
    ptr ← block_at node 13;
    single_ptr_block ← get_block_num_from_disk_ptr ptr double_ptr_with_block;
    get_block_num_from_disk_ptr single_ptr_block ptr_with_block
  else
    let triple_ptr_with_block := to_u32 (block_num - double - single - 12) in
    let double_ptr_with_block := to_u32 (triple_ptr_with_block mod triple) in
    let triple_ptr_with_block := to_u32 (triple_ptr_with_block / triple) in
    let ptr_with_block := to_u32 (double_ptr_with_block mod double) in
    let double_ptr_with_block := to_u32 (double_ptr_with_block / double) in
    ptr ← block_at node 14;
    double_ptr_block ← get_block_num_from_disk_ptr ptr triple_ptr_with_block;
    ptr_block ← get_block_num_from_disk_ptr double_ptr_block double_ptr_with_block;
    get_block_num_from_disk_ptr ptr_block ptr_with_block.

(** ** Appending a block *)

(** The single indirect block takes the number of the new block; with the
    sixteenth block it comes into being and takes over blocks 12 to 14. *)
Definition allocate_single (block_was_alloc : Z) (node : inode_st) : FS (Z * inode_st) :=
  ptr_data ← new_block;
  '(err, ptr_data, node) ←
    (if nblocks node =? 15 then
       '(err, ptr_block) ← find_free_block true;
       if negb (err =? SUCCESS) then mret (err, ptr_data, node) else
       b ← block_at node 12;
       ptr_data ← put_entry ptr_data 0 b;
       b ← block_at node 13;
       ptr_data ← put_entry ptr_data 1 b;
       b ← block_at node 14;
       ptr_data ← put_entry ptr_data 2 b;
       mret (SUCCESS, ptr_data, set_block_at 12 ptr_block node)
     else
       b ← block_at node 12;
       '(err, ptr_data) ← read_to ptr_data b;
       mret (err, ptr_data, node));
  if negb (err =? SUCCESS) then mret (err, node) else
  ptr_data ← put_entry ptr_data (to_u32 (nblocks node - 12)) block_was_alloc;
  b ← block_at node 12;
  err ← write_from ptr_data b;
  mret (err, node).

(** Entry [idx] of the indirect block [inode->blocks[k]] becomes [child]; with
    entry 0 the indirect block comes into being. *)
Definition link_root (k idx child : Z) (node : inode_st) : FS (Z * inode_st) :=
  ptr_data ← new_block;
  '(err, ptr_data, node) ←
    (if idx =? 0 then
       '(err, b) ← find_free_block true;
       if negb (err =? SUCCESS) then mret (err, ptr_data, node) else mret (SUCCESS, ptr_data, set_block_at k b node)
     else
       b ← block_at node k;
       '(err, ptr_data) ← read_to ptr_data b;
       mret (err, ptr_data, node));
  if negb (err =? SUCCESS) then mret (err, node) else
  ptr_data ← put_entry ptr_data idx child;
  b ← block_at node k;
  err ← write_from ptr_data b;
  mret (err, node).

(** The single indirect block of the double one that takes the new block, with
    its contents in [ptr_data]: a new block with its first entry, an old one
    with the others. *)
Definition double_new_single (ptr_data : buffer) (single_ptr_idx_in_double_ptr : Z) (node : inode_st) :
    FS (Z * buffer * Z * inode_st) :=
  '(err, single_ptr_block) ← find_free_block true;
  if negb (err =? SUCCESS) then mret (err, ptr_data, 0, node) else
  '(err, node) ← link_root 13 single_ptr_idx_in_double_ptr single_ptr_block node;
  mret (err, ptr_data, single_ptr_block, node).

Definition double_old_single (ptr_data : buffer) (single_ptr_idx_in_double_ptr : Z) (node : inode_st) :
    FS (Z * buffer * Z * inode_st) :=
  double_ptr_data ← new_block;
  b ← block_at node 13;
  '(err, double_ptr_data) ← read_to double_ptr_data b;
  if negb (err =? SUCCESS) then mret (err, ptr_data, 0, node) else
  single_ptr_block ← get_entry double_ptr_data single_ptr_idx_in_double_ptr;
  '(err, ptr_data) ← read_to ptr_data single_ptr_block;
  mret (err, ptr_data, single_ptr_block, node).

Definition allocate_double (block_was_alloc : Z) (node : inode_st) : FS (Z * inode_st) :=
  l ← fetch lay;
  let single := BLOCKS_IN_SINGLE_PTR l in
  let num_in_double_ptr := to_u32 (nblocks node - 12 - single) in
  let index_in_single_ptr := to_u32 (num_in_double_ptr mod single) in
  let single_ptr_idx_in_double_ptr := to_u32 (num_in_double_ptr / single) in
  ptr_data ← new_block;
  '(err, ptr_data, single_ptr_block, node) ←
    (if index_in_single_ptr =? 0 then double_new_single ptr_data single_ptr_idx_in_double_ptr node
     else double_old_single ptr_data single_ptr_idx_in_double_ptr node);
  if negb (err =? SUCCESS) then mret (err, node) else
  ptr_data ← put_entry ptr_data index_in_single_ptr block_was_alloc;
  err ← write_from ptr_data single_ptr_block;
  mret (err, node).

(** The double indirect block of the triple one that takes a new single one. *)
Definition triple_double (double_ptr_data : buffer) (single_ptr_idx_in_double_ptr double_ptr_idx_in_triple_ptr : Z)
    (node : inode_st) : FS (Z * buffer * Z * inode_st) :=
  if single_ptr_idx_in_double_ptr =? 0 then
    '(err, double_ptr_block) ← find_free_block true;
    if negb (err =? SUCCESS) then mret (err, double_ptr_data, 0, node) else
    '(err, node) ← link_root 14 double_ptr_idx_in_triple_ptr double_ptr_block node;
    mret (err, double_ptr_data, double_ptr_block, node)
  else
    triple_ptr_data ← new_block;
    b ← block_at node 14;
    '(err, triple_ptr_data) ← read_to triple_ptr_data b;
    if negb (err =? SUCCESS) then mret (err, double_ptr_data, 0, node) else
    double_ptr_block ← get_entry triple_ptr_data double_ptr_idx_in_triple_ptr;
    '(err, double_ptr_data) ← read_to double_ptr_data double_ptr_block;
    mret (err, double_ptr_data, double_ptr_block, node).

(** After a failed write of the double indirect block [ptr_data] is freed, and
    then used and freed again. *)
Definition triple_new_single (ptr_data : buffer) (single_ptr_idx_in_double_ptr double_ptr_idx_in_triple_ptr : Z)
    (node : inode_st) : FS (Z * buffer * Z * inode_st) :=
  '(err, single_ptr_block) ← find_free_block true;
  if negb (err =? SUCCESS) then mret (err, ptr_data, 0, node) else
  double_ptr_data ← new_block;
  '(err, double_ptr_data, double_ptr_block, node) ←
    triple_double double_ptr_data single_ptr_idx_in_double_ptr double_ptr_idx_in_triple_ptr node;
  if negb (err =? SUCCESS) then mret (err, ptr_data, 0, node) else
  double_ptr_data ← put_entry double_ptr_data single_ptr_idx_in_double_ptr single_ptr_block;
  err ← write_from double_ptr_data double_ptr_block;
  if negb (err =? SUCCESS) then fault else mret (SUCCESS, ptr_data, single_ptr_block, node).

Definition triple_old_single (ptr_data : buffer) (single_ptr_idx_in_double_ptr double_ptr_idx_in_triple_ptr : Z)
    (node : inode_st) : FS (Z * buffer * Z * inode_st) :=
  triple_ptr_data ← new_block;
  b ← block_at node 14;
  '(err, triple_ptr_data) ← read_to triple_ptr_data b;
  if negb (err =? SUCCESS) then mret (err, ptr_data, 0, node) else
  double_ptr_block ← get_entry triple_ptr_data double_ptr_idx_in_triple_ptr;
  double_ptr_data ← new_block;
  '(err, double_ptr_data) ← read_to double_ptr_data double_ptr_block;
  if negb (err =? SUCCESS) then mret (err, ptr_data, 0, node) else
  single_ptr_block ← get_entry double_ptr_data single_ptr_idx_in_double_ptr;
  '(err, ptr_data) ← read_to ptr_data single_ptr_block;
  mret (err, ptr_data, single_ptr_block, node).

Definition allocate_triple (block_was_alloc : Z) (node : inode_st) : FS (Z * inode_st) :=
  l ← fetch lay;
  let single := BLOCKS_IN_SINGLE_PTR l in
  let double := BLOCKS_IN_DOUBLE_PTR l in
  let num_in_triple_ptr := to_u32 (nblocks node - 12 - single - double) in
  let index_in_double_ptr := to_u32 (num_in_triple_ptr mod double) in
  let double_ptr_idx_in_triple_ptr := to_u32 (num_in_triple_ptr / double) in
  let index_in_single_pointer := to_u32 (index_in_double_ptr mod single) in
  let single_ptr_idx_in_double_ptr := to_u32 (index_in_double_ptr / single) in
  ptr_data ← new_block;
  '(err, ptr_data, single_ptr_block, node) ←
    (if index_in_single_pointer =? 0
     then triple_new_single ptr_data single_ptr_idx_in_double_ptr double_ptr_idx_in_triple_ptr node
     else triple_old_single ptr_data single_ptr_idx_in_double_ptr double_ptr_idx_in_triple_ptr node);
  if negb (err =? SUCCESS) then mret (err, node) else
  ptr_data ← put_entry ptr_data index_in_single_pointer block_was_alloc;
  err ← write_from ptr_data single_ptr_block;
  mret (err, node).

(** The error, the number stored in [*returned_block_num], if any, and the
    inode. *)
Definition allocate_block_for_file_inode (node : inode_st) : FS (Z * option Z * inode_st) :=
  l ← fetch lay;
  let single := BLOCKS_IN_SINGLE_PTR l in
  let double := BLOCKS_IN_DOUBLE_PTR l in
  let triple := BLOCKS_IN_TRIPLE_PTR l in
  if nblocks node =? to_u64 (12 + single + double + triple) then mret (INODE_FULL, None, node) else
  '(err_code, block_was_alloc) ← find_free_block true;
  if negb (err_code =? SUCCESS) then mret (err_code, None, node) else
  '(err_code, node) ←
    (if nblocks node <? 15 then mret (SUCCESS, set_block_at (nblocks node) block_was_alloc node)
     else if nblocks node <? to_u64 (12 + single) then allocate_single block_was_alloc node
     else if nblocks node <? to_u64 (12 + single + double) then allocate_double block_was_alloc node
     else allocate_triple block_was_alloc node);
  if negb (err_code =? SUCCESS) then mret (err_code, None, node) else
  mret (SUCCESS, Some block_was_alloc, with_i_blocks (to_u32 (nblocks node + 1)) node).

End filemap.

(** ** Trees of indirect blocks

    [rd] gives the bytes of a block; an indirect block holds [N] numbers.  A
    tree of depth [d] with [n] leaves hangs off the block [b]; the leaves of a
    tree of depth 0 are the block itself. *)

Section tree.
Context (N : Z) (HN : 1 < N).
Implicit Types (rd : Z -> list Z) (d : nat) (b i n : Z).

Definition entry rd b i : Z := get_struct (rd b) (Z.to_nat i).

Fixpoint walk rd d b i : Z :=
  match d with
  | O => b
  | S d => walk rd d (entry rd b (i / N ^ Z.of_nat d)) (i mod N ^ Z.of_nat d)
  end.

(** The indirect blocks of a tree with the number of their entries in use. *)
Fixpoint uses rd d b n : list (Z * Z) :=
  match d with
  | O => []
  | S d =>
      if n <=? 0 then [] else
      let size := N ^ Z.of_nat d in
      (b, (n + size - 1) / size) ::
      mjoin (map (fun k => uses rd d (entry rd b k) size) (seqZ 0 (n / size))) ++
      uses rd d (entry rd b (n / size)) (n mod size)
  end.

Definition ptrs rd d b n : list Z := map fst (uses rd d b n).

(** The indirect blocks that leaf [n] needs and the leaves below it do not. *)
Fixpoint added rd d b n : list Z :=
  match d with
  | O => []
  | S d =>
      (if n =? 0 then [b] else []) ++ added rd d (entry rd b (n / N ^ Z.of_nat d)) (n mod N ^ Z.of_nat d)
  end.

(** [rd'] has the entries of [rd] that are in use. *)
Definition agree rd rd' (us : list (Z * Z)) : Prop :=
  forall p c j, (p, c) ∈ us -> 0 <= j < c -> entry rd' p j = entry rd p j.

Lemma pow_pos d : 0 < N ^ Z.of_nat d.
Proof. apply Z.pow_pos_nonneg; lia. Qed.

Lemma pow_succ d : N ^ Z.of_nat (S d) = N * N ^ Z.of_nat d.
Proof. rewrite Nat2Z.inj_succ, Z.pow_succ_r; lia. Qed.

Lemma uses_none rd d b n : n <= 0 -> uses rd d b n = [].
Proof. intros Hn. destruct d; simpl; [done|]. by destruct (Z.leb_spec n 0); [|lia]. Qed.

(** The division of the leaves among the children. *)
Lemma split_leaf size i n :
  0 < size -> 0 <= i < n ->
  0 <= i / size < (n + size - 1) / size /\ 0 <= i mod size < size /\
  (i / size < n / size \/ (i / size = n / size /\ i mod size < n mod size)).
Proof.
  intros Hs Hi. pose proof (Z.div_mod i size ltac:(lia)) as Ei. pose proof (Z.mod_pos_bound i size Hs) as Hr.
  pose proof (Z.div_mod n size ltac:(lia)) as En. pose proof (Z.mod_pos_bound n size Hs) as Hr'.
  pose proof (Z.div_pos i size ltac:(lia) Hs).
  pose proof (Z.div_mod (n + size - 1) size ltac:(lia)). pose proof (Z.mod_pos_bound (n + size - 1) size Hs).
  split_and!; try lia; [nia|]. assert (i / size <= n / size) by (apply Z.div_le_mono; lia).
  destruct (decide (i / size < n / size)); [by left | right]. split; [lia|]. assert (i / size = n / size) as E by lia.
  rewrite E in Ei. lia.
Qed.

Lemma agree_sub rd rd' us us' : agree rd rd' us -> us' ⊆ us -> agree rd rd' us'.
Proof. intros Ha Hs p c j Hp. apply Ha, Hs, Hp. Qed.

Lemma div_ceil size n : 0 < size -> 0 < n -> n / size <= (n + size - 1) / size /\ (0 < n mod size -> n / size < (n + size - 1) / size).
Proof.
  intros Hs Hn. pose proof (Z.div_mod n size ltac:(lia)). pose proof (Z.mod_pos_bound n size Hs).
  pose proof (Z.div_mod (n + size - 1) size ltac:(lia)). pose proof (Z.mod_pos_bound (n + size - 1) size Hs). nia.
Qed.

Lemma tree_frame rd rd' d b n :
  0 <= n -> agree rd rd' (uses rd d b n) ->
  uses rd' d b n = uses rd d b n /\ forall i, 0 <= i < n -> walk rd' d b i = walk rd d b i.
Proof.
  revert b n. induction d as [|d IH]; intros b n Hn Ha; [done|]. simpl uses in *.
  destruct (Z.leb_spec n 0); [split; [done | lia]|]. pose proof (pow_pos d) as Hs.
  set (size := N ^ Z.of_nat d) in *. destruct (div_ceil size n Hs ltac:(lia)) as [Hq1 Hq2].
  pose proof (Z.mod_pos_bound n size Hs) as Hr. pose proof (Z.div_pos n size ltac:(lia) Hs) as Hq.
  assert (Hb : forall k, 0 <= k < (n + size - 1) / size -> entry rd' b k = entry rd b k)
    by (intros k Hk; apply (Ha b ((n + size - 1) / size)); [by left | done]).
  assert (Hfull : forall k, 0 <= k < n / size -> agree rd rd' (uses rd d (entry rd b k) size)).
  { intros k Hk. eapply agree_sub; [exact Ha|]. intros x Hx. right. apply elem_of_app. left.
    apply list_elem_of_join. eexists. split; [exact Hx|]. apply list_elem_of_fmap. exists k. split; [done|]. apply elem_of_seqZ. lia. }
  assert (Hlast : agree rd rd' (uses rd d (entry rd b (n / size)) (n mod size))).
  { eapply agree_sub; [exact Ha|]. intros x Hx. right. apply elem_of_app. by right. }
  split.
  - f_equal. f_equal.
    + f_equal. apply list_fmap_ext. intros i k Hik. apply list_elem_of_lookup_2, elem_of_seqZ in Hik.
      rewrite Hb by lia. apply IH; [lia | apply Hfull; lia].
    + destruct (decide (0 < n mod size)); [|by rewrite !uses_none by lia]. rewrite Hb by lia. by apply IH; [lia|].
  - intros i Hi. cbn [walk]. fold size. destruct (split_leaf size i n Hs Hi) as (Hk & Him & Hc).
    rewrite Hb by done. destruct Hc as [Hc|[E Hc]].
    + apply IH with (n := size); [lia | apply Hfull; lia | done].
    + rewrite E. apply IH with (n := n mod size); [lia | done | lia].
Qed.

Lemma uses_full rd d b (q : Z) :
  0 <= q -> mjoin (map (fun k => uses rd d (entry rd b k) (N ^ Z.of_nat d)) (seqZ 0 (q + 1))) =
  mjoin (map (fun k => uses rd d (entry rd b k) (N ^ Z.of_nat d)) (seqZ 0 q)) ++ uses rd d (entry rd b q) (N ^ Z.of_nat d).
Proof.
  intros Hq. rewrite seqZ_app, map_app, join_app, (seqZ_cons _ 1), (seqZ_nil _ (Z.pred 1)) by lia. simpl.
  by rewrite app_nil_r.
Qed.

(** One leaf more. *)
Lemma ptrs_succ rd d b n :
  0 <= n < N ^ Z.of_nat d -> ptrs rd d b (n + 1) = ptrs rd d b n ++ added rd d b n.
Proof.
  unfold ptrs. revert b n. induction d as [|d IH]; intros b n Hn; [done|]. cbn [uses added].
  pose proof (pow_pos d) as Hs. rewrite pow_succ in Hn. set (size := N ^ Z.of_nat d) in *.
  destruct (Z.leb_spec (n + 1) 0); [lia|].
  pose proof (Z.div_mod n size ltac:(lia)) as En. pose proof (Z.mod_pos_bound n size Hs) as Hr.
  pose proof (Z.div_pos n size ltac:(lia) Hs) as Hq. set (q := n / size) in *. set (r := n mod size) in *.
  assert (Hall : mjoin (map (fun k => uses rd d (entry rd b k) size) (seqZ 0 ((n + 1) / size))) ++
      uses rd d (entry rd b ((n + 1) / size)) ((n + 1) mod size) =
    mjoin (map (fun k => uses rd d (entry rd b k) size) (seqZ 0 q)) ++ uses rd d (entry rd b q) (r + 1)).
  { destruct (decide (r + 1 = size)) as [E|].
    - assert ((n + 1) / size = q + 1 /\ (n + 1) mod size = 0) as [-> ->].
      { replace (n + 1) with ((q + 1) * size) by lia. by rewrite Z.div_mul, Z.mod_mul by lia. }
      unfold size. rewrite uses_full by done. rewrite (uses_none _ _ _ 0), app_nil_r by lia. by rewrite E.
    - assert ((n + 1) / size = q /\ (n + 1) mod size = r + 1) as [-> ->]; [|done].
      replace (n + 1) with (q * size + (r + 1)) by lia.
      split; [rewrite Z.div_add_l, Z.div_small by lia; lia|].
      by rewrite (Z.add_comm (q * size)), Z.mod_add, Z.mod_small by lia. }
  rewrite Hall. cbn [map fst]. rewrite map_app, IH by lia.
  destruct (Z.leb_spec n 0), (Z.eqb_spec n 0) as [En0|]; try lia.
  - assert (q = 0 /\ r = 0) as [-> ->] by (unfold q, r; by rewrite En0, Z.div_0_l, Z.mod_0_l by lia).
    by rewrite (uses_none _ _ _ 0) by lia.
  - cbn [map app fst]. by rewrite map_app, app_assoc.
Qed.

(** Trees by depth. *)
Lemma walk_1 rd b i : walk rd 1 b i = entry rd b i.
Proof. cbn [walk]. by rewrite Z.pow_0_r, Z.div_1_r. Qed.

Lemma walk_2 rd b i : walk rd 2 b i = entry rd (entry rd b (i / N)) (i mod N).
Proof. change (walk rd 2 b i) with (walk rd 1 (entry rd b (i / N ^ 1)) (i mod N ^ 1)). by rewrite walk_1, Z.pow_1_r. Qed.

Lemma walk_3 rd b i : walk rd 3 b i = walk rd 2 (entry rd b (i / N ^ 2)) (i mod N ^ 2).
Proof. done. Qed.

Lemma added_1 rd b t : added rd 1 b t = if t =? 0 then [b] else [].
Proof. cbn [added]. apply app_nil_r. Qed.

Lemma added_2 rd b t : added rd 2 b t = (if t =? 0 then [b] else []) ++ added rd 1 (entry rd b (t / N)) (t mod N).
Proof. change (added rd 2 b t) with ((if t =? 0 then [b] else []) ++ added rd 1 (entry rd b (t / N ^ 1)) (t mod N ^ 1)). by rewrite Z.pow_1_r. Qed.

Lemma added_3 rd b t : added rd 3 b t = (if t =? 0 then [b] else []) ++ added rd 2 (entry rd b (t / N ^ 2)) (t mod N ^ 2).
Proof. done. Qed.

Lemma ptrs_1 rd b t : 0 < t -> ptrs rd 1 b t = [b].
Proof.
  intros Ht. unfold ptrs. cbn [uses]. destruct (Z.leb_spec t 0); [lia|]. cbn [map fst]. rewrite app_nil_r. f_equal.
  by induction (seqZ 0 (t / N ^ Z.of_nat 0)).
Qed.

(** The root and the last child in use. *)
Lemma uses_root rd d b t :
  0 < t -> t mod N ^ Z.of_nat d = 0 -> (b, t / N ^ Z.of_nat d) ∈ uses rd (S d) b t.
Proof.
  intros Ht Hm. cbn [uses]. destruct (Z.leb_spec t 0); [lia|]. pose proof (pow_pos d) as Hs.
  set (size := N ^ Z.of_nat d) in *. replace ((t + size - 1) / size) with (t / size); [by left|].
  pose proof (Z.div_mod t size ltac:(lia)) as Et. replace (t + size - 1) with (t / size * size + (size - 1)) by lia.
  rewrite Z.div_add_l, (Z.div_small (size - 1)) by lia. lia.
Qed.

Lemma uses_root_in rd d b t : 0 < t -> b ∈ ptrs rd (S d) b t.
Proof. intros Ht. unfold ptrs. cbn [uses]. destruct (Z.leb_spec t 0); [lia|]. by left. Qed.

Lemma uses_child rd d b t :
  0 < t mod N ^ Z.of_nat d -> 0 < t ->
  uses rd d (entry rd b (t / N ^ Z.of_nat d)) (t mod N ^ Z.of_nat d) ⊆ uses rd (S d) b t.
Proof. intros Hr Ht. cbn [uses]. destruct (Z.leb_spec t 0); [lia|]. intros x Hx. right. apply elem_of_app. by right. Qed.

Lemma ptrs_child rd d b t :
  0 < t mod N ^ Z.of_nat d -> 0 < t ->
  ptrs rd d (entry rd b (t / N ^ Z.of_nat d)) (t mod N ^ Z.of_nat d) ⊆ ptrs rd (S d) b t.
Proof. intros Hr Ht x (y & -> & Hy)%list_elem_of_fmap. apply list_elem_of_fmap. exists y. split; [done|]. by apply uses_child. Qed.

(** Writing past the entries in use of one indirect block. *)
Lemma agree_write rd rd' us w c :
  NoDup (map fst us) -> (w, c) ∈ us -> (forall p, p ∈ map fst us -> p <> w -> rd' p = rd p) ->
  (forall j, 0 <= j < c -> entry rd' w j = entry rd w j) -> agree rd rd' us.
Proof.
  intros Hnd Hw Ho He p c' j Hp Hj. destruct (decide (p = w)) as [->|Hne].
  - apply He. replace c with c'; [done|]. apply list_elem_of_lookup in Hp as [i Hi], Hw as [k Hk].
    assert (i = k) as ->; [|congruence].
    eapply (NoDup_lookup (map fst us)); [done | rewrite list_lookup_fmap, Hi | rewrite list_lookup_fmap, Hk]; done.
  - unfold entry. rewrite Ho; [done | | done]. apply list_elem_of_fmap. by exists (p, c').
Qed.

Lemma walk_succ rd d b n : 0 <= n -> map (walk rd d b) (seqZ 0 (n + 1)) = map (walk rd d b) (seqZ 0 n) ++ [walk rd d b n].
Proof. intros Hn. by rewrite seqZ_app, map_app, (seqZ_cons _ 1), (seqZ_nil _ (Z.pred 1)) by lia. Qed.

(** The child on the path to a leaf in use is one of the indirect blocks. *)
Lemma child_used rd d b n i :
  0 <= i < n -> entry rd b (i / N ^ Z.of_nat (S d)) ∈ ptrs rd (S (S d)) b n.
Proof.
  intros Hi. set (size := N ^ Z.of_nat (S d)). assert (Hs : 0 < size) by (apply Z.pow_pos_nonneg; lia).
  assert (Hchild : forall c m, 0 < m -> exists k, (c, k) ∈ uses rd (S d) c m).
  { intros c m Hm. cbn [uses]. rewrite (proj2 (Z.leb_gt m 0)) by lia. eexists. by left. }
  assert (Hle : i / size <= n / size) by (apply Z.div_le_mono; lia).
  pose proof (Z.div_pos i size ltac:(lia) Hs) as Hq.
  assert (Hin : exists k, (entry rd b (i / size), k) ∈ uses rd (S (S d)) b n).
  { change (uses rd (S (S d)) b n) with (if n <=? 0 then [] else (b, (n + size - 1) / size) ::
      mjoin (map (fun k => uses rd (S d) (entry rd b k) size) (seqZ 0 (n / size))) ++
      uses rd (S d) (entry rd b (n / size)) (n mod size)).
    rewrite (proj2 (Z.leb_gt n 0)) by lia. destruct (decide (i / size < n / size)) as [Hlt|Hge].
    - destruct (Hchild (entry rd b (i / size)) size Hs) as [k Hk]. exists k. right. apply elem_of_app. left.
      apply list_elem_of_join. eexists. split; [exact Hk|]. apply list_elem_of_fmap. exists (i / size). split; [done|].
      apply elem_of_seqZ. lia.
    - assert (E : i / size = n / size) by lia. rewrite E.
      destruct (Hchild (entry rd b (n / size)) (n mod size)) as [k Hk].
      { pose proof (Z.div_mod i size). pose proof (Z.div_mod n size). pose proof (Z.mod_pos_bound i size Hs). nia. }
      exists k. right. apply elem_of_app. by right. }
  destruct Hin as [k Hk]. apply list_elem_of_fmap. by exists (entry rd b (i / size), k).
Qed.

End tree.

(** ** Changes to the file system

    [growing s F W s']: on the way from [s] to [s'] the blocks [F], all free in
    [s], were allocated, and blocks outside the block bitmap changed only if
    they are in [W]. *)

Section rules.
Context {D : Type} `{DeviceLaws D}.
Context (junk : fs_state D -> Z -> Z).
Implicit Types (s : fs_state D) (F W : list Z).

Definition outside_bitmap s (m : Z) : Prop :=
  m < block_bitmap_start (lay s) \/ block_bitmap_start (lay s) + block_bitmap_blocks (lay s) <= m.

(** The bitmap has a bit for every block, and the blocks of the metadata are
    not free. *)
Definition covered (l : fs_layout) : Prop := total_fs_blocks l <= block_bitmap_blocks l * bits_per_block l.
Definition meta_used s : Prop := forall j, 0 <= j < data_start_block (lay s) -> block_bit s j = true.

Definition in_data s (m : Z) : Prop := data_start_block (lay s) <= m < total_fs_blocks (lay s).

Record growing s F W s' : Prop := {
  gr_ok : fs_ok s';
  gr_lay : lay s' = lay s;
  gr_bits : forall j, 0 <= j < total_fs_blocks (lay s) -> block_bit s' j = block_bit s j || bool_decide (j ∈ F);
  gr_nodup : NoDup F;
  gr_free : Forall (fun j => in_data s j /\ block_bit s j = false) F;
  gr_blocks : forall m, outside_bitmap s m -> m ∉ W -> fs_block s' m = fs_block s m
}.

Lemma growing_refl s : fs_ok s -> growing s [] [] s.
Proof.
  intros Hok. constructor; try done; [|apply NoDup_nil_2].
  intros j _. rewrite bool_decide_eq_false_2 by apply not_elem_of_nil. by rewrite orb_false_r.
Qed.

Lemma data_outside s m : fs_ok s -> in_data s m -> outside_bitmap s m.
Proof. intros Hok [? _]. destruct (ok_regions _ Hok). right. lia. Qed.

Lemma in_data_range s m : fs_ok s -> in_data s m -> 0 <= m < fs_block_count (lay s).
Proof. intros Hok [? ?]. destruct (ok_regions _ Hok). lia. Qed.

(** A step that changes nothing. *)
Lemma growing_kept s F W s1 s2 : growing s F W s1 -> kept s1 s2 -> growing s F W s2.
Proof.
  intros [Hok El Hb Hn Hf Hbl] Hk. pose proof Hk as (Hr2 & El2 & Hu). constructor; try done.
  - by apply (fs_ok_lay s1).
  - congruence.
  - intros j Hj. rewrite <- Hb by done. unfold block_bit. rewrite El2. by apply unchanged_bit.
  - intros m Hm HW. rewrite (kept_block s1 s2) by done. by apply Hbl.
Qed.

(** What is left when a bitmap block could not be written. *)
Record lost s W s' : Prop := {
  lo_ok : fs_ok s';
  lo_lay : lay s' = lay s;
  lo_blocks : forall m, outside_bitmap s m -> m ∉ W -> fs_block s' m = fs_block s m
}.

Lemma growing_lost s F W s' : growing s F W s' -> lost s W s'.
Proof. intros []. by constructor. Qed.

Lemma lost_mono s W W' s' : lost s W s' -> W ⊆ W' -> lost s W' s'.
Proof. intros [? ? Hb] HW. constructor; try done. intros m Hm Hn. apply Hb; [done|]. by intros ?%HW. Qed.

(** The outcome of an allocation. *)
Definition alloc_post s F W s1 (r : Z * Z) s' : Prop :=
  (fst r = SUCCESS /\ growing s (snd r :: F) W s' /\ (forall m, outside_bitmap s m -> fs_block s' m = fs_block s1 m)) \/
  (fst r = NO_FREE_BLOCKS /\ growing s F W s' /\ blocks_full s') \/
  (fst r = FILE_READ_ERROR /\ flaky (lay s) /\ growing s F W s') \/
  (fst r = FILE_WRITE_ERROR /\ flaky (lay s) /\ lost s W s').

Lemma wp_grow_alloc s F W s1 :
  meta_used s -> growing s F W s1 -> wp (find_free_block true) (alloc_post s F W s1) s1.
Proof.
  intros Hmeta Hg. pose proof Hg as [Hok1 El1 Hb1 Hn1 Hf1 Hbl1].
  eapply wp_mono; [by apply wp_alloc_block|]. intros [err b] s' ((Hok' & El' & Ho) & Hp). simpl in Hp. rewrite El1 in *.
  destruct Hp as [(-> & Hr & Hfree & _ & Hbits)|[(-> & Hk & Hfull)|[(-> & Hk & Hfl)|(-> & Hfl)]]].
  - left. simpl. assert (Hfree' : block_bit s b = false /\ b ∉ F).
    { rewrite Hb1 in Hfree by lia. apply orb_false_iff in Hfree as [? Hd]. split; [done|]. by apply bool_decide_eq_false in Hd. }
    destruct Hfree' as [Hs HF]. assert (Hdata : in_data s b).
    { split; [|lia]. destruct (decide (data_start_block (lay s) <= b)); [done|]. rewrite Hmeta in Hs by lia. done. }
    split_and!; [done | | intros m Hm; by apply Ho].
    constructor; try done; [|by constructor|by constructor | intros m Hm HW; rewrite Ho by done; by apply Hbl1].
    intros j Hj. rewrite Hbits, Hb1 by (done || lia). rewrite <- orb_assoc. f_equal.
    destruct (Z.eqb_spec j b) as [->|Hne]; [rewrite (bool_decide_eq_true_2 (b ∈ b :: F)) by (by left); by rewrite orb_true_r|].
    rewrite orb_false_r. apply bool_decide_ext. rewrite elem_of_cons. split; [by right | by intros [?|?]].
  - right. left. split_and!; [done | by apply (growing_kept _ _ _ s1)|]. pose proof Hk as (_ & El2 & Hu).
    intros n Hn Hn'. rewrite El', <- El1 in Hn, Hn'. rewrite <- (Hfull n Hn Hn'). unfold block_bit.
    rewrite El2. by apply unchanged_bit.
  - right. right. left. split_and!; [done | done | by apply (growing_kept _ _ _ s1)].
  - right. right. right. split_and!; [done | done|]. constructor; try done.
    intros m Hm HW. rewrite Ho by done. by apply Hbl1.
Qed.

Lemma growing_perm s F F' W s' : growing s F W s' -> F ≡ₚ F' -> growing s F' W s'.
Proof.
  intros [? ? Hb Hn Hf ?] HF. constructor; try done; [|by rewrite <- HF|by rewrite <- HF].
  intros j Hj. rewrite Hb by done. f_equal. apply bool_decide_ext. by rewrite HF.
Qed.

Lemma growing_length s F W s' m : growing s F W s' -> Z.of_nat (length (fs_block s' m)) = bytes_per_block (lay s).
Proof. intros [Hok El _ _ _ _]. rewrite <- El. apply block_length, ready_layout, Hok. Qed.

Lemma wp_new_block s F W s1 (Q : buffer -> fs_state D -> Prop) :
  growing s F W s1 ->
  (forall data s2, growing s F W s2 -> (forall m, fs_block s2 m = fs_block s1 m) ->
     Z.of_nat (length data) = bytes_per_block (lay s) -> Q (Some data) s2) ->
  wp (new_block junk) Q s1.
Proof.
  intros Hg HQ. pose proof Hg as [Hok El _ _ _ _]. pose proof (ready_layout _ (ok_ready _ Hok)) as (_ & Hb & _).
  apply wp_bind, wp_fetch. apply wp_bind, wp_kmalloc_block; [apply Hok|]. intros s2 Hk. apply wp_fetch. apply HQ.
  - by apply (growing_kept _ _ _ s1).
  - intros m. by apply kept_block.
  - rewrite length_map, length_seqZ, El in *. lia.
Qed.

Lemma wp_read_to s F W s1 b data (Q : Z * buffer -> fs_state D -> Prop) :
  growing s F W s1 -> in_data s b ->
  (forall s2, growing s F W s2 -> (forall m, fs_block s2 m = fs_block s1 m) -> Q (SUCCESS, Some (fs_block s1 b)) s2) ->
  (forall s2, growing s F W s2 -> flaky (lay s) -> Q (FILE_READ_ERROR, Some data) s2) ->
  wp (read_to (Some data) b) Q s1.
Proof.
  intros Hg Hb Hok Hbad. pose proof Hg as [Hok1 El _ _ _ _].
  assert (Hr : 0 <= b < fs_block_count (lay s)).
  { rewrite <- El. apply (in_data_range s1); [done|]. unfold in_data. by rewrite El. }
  apply wp_bind. eapply wp_mono; [apply wp_read_ready; [apply Hok1 | lia]|].
  intros [err d] s2 (Hk & Hc). pose proof (growing_kept _ _ _ _ _ Hg Hk) as Hg2.
  destruct Hc as [(E & _)|(E & Hbb)]; apply pair_eq in E as [-> ->]; cbn [negb Z.eqb SUCCESS FILE_READ_ERROR]; apply wp_ret.
  - apply Hok; [done|]. intros m. by apply kept_block.
  - apply Hbad; [done|]. rewrite El in Hbb. by apply (bad_flaky _ _ Hbb).
Qed.

Lemma wp_write_from s F W s1 b data (Q : Z -> fs_state D -> Prop) :
  covered (lay s) -> growing s F W s1 -> in_data s b -> Z.of_nat (length data) = bytes_per_block (lay s) ->
  (forall s2, growing s F (b :: W) s2 -> (forall m, m <> b -> fs_block s2 m = fs_block s1 m) ->
     fs_block s2 b = data -> Q SUCCESS s2) ->
  (forall s2, growing s F (b :: W) s2 -> flaky (lay s) -> Q FILE_WRITE_ERROR s2) ->
  wp (write_from (Some data) b) Q s1.
Proof.
  intros Hcov Hg Hb Hlen Hok Hbad. pose proof Hg as [Hok1 El Hbits Hn Hf Hbl].
  assert (Hb1 : in_data s1 b) by (unfold in_data; by rewrite El).
  pose proof (in_data_range s1 b Hok1 Hb1) as Hr. pose proof (data_outside s1 b Hok1 Hb1) as Hout.
  unfold write_from. eapply wp_mono; [apply wp_write_ready; [apply Hok1 | lia | rewrite El; lia]|].
  intros err s2 ((Hr2 & El2 & Ho2) & Hc).
  assert (Hg2 : growing s F (b :: W) s2).
  { constructor; try done; [by apply (fs_ok_lay s1) | congruence | |].
    - intros j Hj. rewrite <- Hbits by done. unfold block_bit, bitmap_bit. rewrite El2. f_equal. apply Ho2.
      destruct (ok_regions _ Hok1). pose proof (bits_per_block_eq _ (ready_layout _ (ok_ready _ Hok1))).
      pose proof (Z.div_pos j (bits_per_block (lay s1)) ltac:(lia) ltac:(lia)). unfold covered in Hcov. rewrite <- El in *.
      assert (j / bits_per_block (lay s1) < block_bitmap_blocks (lay s1)) by (apply Z.div_lt_upper_bound; lia).
      destruct Hout; lia.
    - intros m Hm HW. apply not_elem_of_cons in HW as [??]. rewrite Ho2 by done. by apply Hbl. }
  destruct Hc as [(-> & _ & Hw)|(-> & Hbb)].
  - apply Hok; [done | done|]. rewrite Hw, El. apply take_ge. lia.
  - apply Hbad; [done|]. rewrite El in Hbb. apply (bad_flaky _ _ Hbb). by rewrite <- El.
Qed.

(** *** Buffers *)

(** The number of entries of an indirect block. *)
Abbreviation np s := (BLOCKS_IN_SINGLE_PTR (lay s)).

Lemma nptr_eq s : fs_ok s -> BLOCKS_IN_SINGLE_PTR (lay s) = bytes_per_block (lay s) / 4 /\
  28 <= BLOCKS_IN_SINGLE_PTR (lay s) <= 2 ^ 18 /\ 4 * BLOCKS_IN_SINGLE_PTR (lay s) <= bytes_per_block (lay s).
Proof.
  intros Hok. pose proof (ready_layout _ (ok_ready _ Hok)) as (_ & Hb & _). pose proof (ok_inode _ Hok) as Hi.
  unfold KERNEL_HEAP_SIZE in Hb. unfold sizeof_inode in Hi.
  assert (E : BLOCKS_IN_SINGLE_PTR (lay s) = bytes_per_block (lay s) / 4).
  { unfold BLOCKS_IN_SINGLE_PTR, to_u64. by rewrite wrap_small by lia. }
  rewrite E. pose proof (Z.div_mod (bytes_per_block (lay s)) 4 ltac:(lia)).
  pose proof (Z.mod_pos_bound (bytes_per_block (lay s)) 4 ltac:(lia)). split_and!; try done; lia.
Qed.

Lemma double_eq s : fs_ok s -> BLOCKS_IN_DOUBLE_PTR (lay s) = BLOCKS_IN_SINGLE_PTR (lay s) ^ 2.
Proof. intros Hok. destruct (nptr_eq s Hok) as (_ & ? & _). unfold BLOCKS_IN_DOUBLE_PTR, to_u64. rewrite wrap_small; nia. Qed.

Lemma triple_eq s : fs_ok s -> BLOCKS_IN_TRIPLE_PTR (lay s) = BLOCKS_IN_SINGLE_PTR (lay s) ^ 3.
Proof.
  intros Hok. unfold BLOCKS_IN_TRIPLE_PTR, to_u64. rewrite (double_eq s Hok). destruct (nptr_eq s Hok) as (_ & ? & _).
  set (N := BLOCKS_IN_SINGLE_PTR (lay s)) in *. replace (N ^ 2 * N) with (N ^ 3) by lia.
  assert (N ^ 3 <= (2 ^ 18) ^ 3) by (apply Z.pow_le_mono_l; lia). rewrite wrap_small; lia.
Qed.

Section entries.
Context s (Hok : fs_ok s).

Lemma entry_fits (data : list Z) i :
  0 <= i < np s -> Z.of_nat (length data) = bytes_per_block (lay s) ->
  (0 <=? i) && (4 * i + 4 <=? Z.of_nat (length data)) = true /\ ((Z.to_nat i + 1) * fmt_size (A := Z) <= length data)%nat.
Proof. intros Hi Hl. destruct (nptr_eq s Hok) as (_ & _ & ?). simpl fmt_size. lia. Qed.

Lemma wp_put_entry data i v (Q : buffer -> fs_state D -> Prop) s1 :
  0 <= i < np s -> Z.of_nat (length data) = bytes_per_block (lay s) ->
  (Z.of_nat (length (put_struct_at data (Z.to_nat i) v)) = bytes_per_block (lay s) ->
   Q (Some (put_struct_at data (Z.to_nat i) v)) s1) -> wp (put_entry (Some data) i v) Q s1.
Proof.
  intros Hi Hl HQ. destruct (entry_fits data i Hi Hl) as [E Hf]. unfold put_entry. rewrite E. apply wp_ret, HQ.
  rewrite length_put_struct by done. done.
Qed.

Lemma wp_get_entry data i (Q : Z -> fs_state D -> Prop) s1 :
  0 <= i < np s -> Z.of_nat (length data) = bytes_per_block (lay s) ->
  Q (get_struct data (Z.to_nat i)) s1 -> wp (get_entry (Some data) i) Q s1.
Proof. intros Hi Hl HQ. destruct (entry_fits data i Hi Hl) as [E Hf]. unfold get_entry. rewrite E. by apply wp_ret. Qed.

(** An entry written and read back. *)
Lemma entry_put (rd : Z -> list Z) b data i v j :
  rd b = put_struct_at data (Z.to_nat i) v -> Z.of_nat (length data) = bytes_per_block (lay s) ->
  0 <= i < np s -> 0 <= v < 2 ^ 32 -> 0 <= j < np s ->
  entry rd b j = if decide (j = i) then v else get_struct data (Z.to_nat j).
Proof.
  intros Hb Hl Hi Hv Hj. destruct (entry_fits data i Hi Hl) as [_ Hf]. unfold entry. rewrite Hb. case_decide as Hji.
  - subst j. by apply get_put_struct.
  - apply get_put_struct_ne; [done | lia].
Qed.

End entries.

(** *** The inode's own entries *)

Definition slot (node : inode_st) (k : Z) : Z := default 0 (blocks node !! Z.to_nat k).

Lemma wp_block_at node k (Q : Z -> fs_state D -> Prop) s1 :
  length (blocks node) = 15%nat -> 0 <= k < 15 -> Q (slot node k) s1 -> wp (block_at node k) Q s1.
Proof.
  intros Hl Hk HQ. unfold block_at, slot in *.
  destruct (lookup_lt_is_Some_2 (blocks node) (Z.to_nat k)) as [b Eb]; [lia|]. rewrite Eb in *. by apply wp_ret.
Qed.

Lemma set_block_same node k :
  length (blocks node) = 15%nat -> 0 <= k < 15 -> set_block_at k (slot node k) node = node.
Proof.
  intros Hl Hk. unfold set_block_at, slot. destruct (lookup_lt_is_Some_2 (blocks node) (Z.to_nat k)) as [b Eb]; [lia|].
  rewrite Eb. simpl. rewrite list_insert_id by done. by destruct node.
Qed.

Lemma slot_set_eq node k v : length (blocks node) = 15%nat -> 0 <= k < 15 -> slot (set_block_at k v node) k = v.
Proof. intros Hl Hk. unfold slot, set_block_at. simpl. by rewrite list_lookup_insert_eq by lia. Qed.

Lemma slot_set_ne node k j v : 0 <= k -> 0 <= j -> j <> k -> slot (set_block_at k v node) j = slot node j.
Proof. intros Hk Hj Hne. unfold slot, set_block_at. simpl. by rewrite list_lookup_insert_ne by lia. Qed.

Lemma length_set_block node k v : length (blocks (set_block_at k v node)) = length (blocks node).
Proof. apply length_insert. Qed.

(** *** Growing a tree *)

(** The blocks [W] may be written: they are in [B] or were free. *)
Definition writable s (B W : list Z) : Prop := Forall (fun m => m ∈ B \/ block_bit s m = false) W.

(** An allocation that failed: there was no block left, or a sector is bad. *)
Definition alloc_failed s (B : list Z) (err : Z) s' : Prop :=
  (exists W, lost s W s' /\ writable s B W) /\
  ((err = NO_FREE_BLOCKS /\ blocks_full s') \/
   ((err = FILE_READ_ERROR \/ err = FILE_WRITE_ERROR) /\ flaky (lay s))).

Lemma failed_alloc s F W B r s1 s' :
  alloc_post s F W s1 r s' -> writable s B W -> fst r <> SUCCESS -> alloc_failed s B (fst r) s'.
Proof.
  intros Hp HW Hne. destruct Hp as [(? & _)|[(-> & Hg & Hf)|[(-> & Hfl & Hg)|(-> & Hfl & Hl)]]]; [done|..];
    (split; [exists W; split; [first [done | by eapply growing_lost] | done] | auto]).
Qed.

Lemma failed_io s F W B err s' :
  growing s F W s' -> writable s B W -> flaky (lay s) -> err = FILE_READ_ERROR \/ err = FILE_WRITE_ERROR ->
  alloc_failed s B err s'.
Proof. intros Hg HW Hfl He. split; [exists W; split; [by eapply growing_lost | done] | auto]. Qed.

(** What [link_root] has done: the root [b'] of the tree holds [child] in entry
    [idx]; it is a new block if [idx] is 0. *)
Record linked s F W s1 (node : inode_st) (k idx child b' : Z) s2 : Prop := {
  lk_new : (idx = 0 /\ growing s (b' :: F) (b' :: W) s2) \/ (idx <> 0 /\ b' = slot node k /\ growing s F (b' :: W) s2);
  lk_data : in_data s b';
  lk_others : forall m, outside_bitmap s m -> m <> b' -> fs_block s2 m = fs_block s1 m;
  lk_child : entry (fs_block s2) b' idx = child;
  lk_entries : idx <> 0 -> forall j, 0 <= j < np s -> j <> idx -> entry (fs_block s2) b' j = entry (fs_block s1) b' j
}.

Lemma wp_link_root s F W s1 k idx child node B (Q : Z * inode_st -> fs_state D -> Prop) :
  fs_ok s -> covered (lay s) -> meta_used s -> growing s F W s1 -> writable s B W ->
  length (blocks node) = 15%nat -> 0 <= k < 15 -> 0 <= idx < np s -> 0 <= child < 2 ^ 32 ->
  (idx <> 0 -> in_data s (slot node k) /\ slot node k ∈ B) ->
  (forall b' s2, linked s F W s1 node k idx child b' s2 -> Q (SUCCESS, set_block_at k b' node) s2) ->
  (forall err node' s2, err <> SUCCESS -> alloc_failed s B err s2 -> Q (err, node') s2) ->
  wp (link_root junk k idx child node) Q s1.
Proof.
  intros Hok Hcov Hmeta Hg HW Hlen Hk Hidx Hchild Hslot HQ Hbad. unfold link_root. apply wp_bind.
  eapply wp_new_block; [exact Hg|]. intros data s2 Hg2 Hs2 Hdata.
  assert (Hwrite : forall node' b' data' F' s3, (idx = 0 /\ F' = b' :: F \/ idx <> 0 /\ b' = slot node k /\ F' = F /\ data' = fs_block s1 b') ->
    node' = set_block_at k b' node -> in_data s b' -> (b' ∈ B \/ block_bit s b' = false) ->
    growing s F' W s3 -> (forall m, outside_bitmap s m -> fs_block s3 m = fs_block s1 m) ->
    Z.of_nat (length data') = bytes_per_block (lay s) ->
    wp (ptr_data ← put_entry (Some data') idx child; b ← block_at node' k; err ← write_from ptr_data b; mret (err, node')) Q s3).
  { intros node' b' data' F' s3 Hb' -> Hin HB Hg3 Hs3 Hd'. apply wp_bind, (wp_put_entry s); [done | done | done|]. intros Hpl.
    apply wp_bind, wp_block_at; [by rewrite length_set_block | done|]. rewrite slot_set_eq by done.
    apply wp_bind. eapply (wp_write_from s F' W); [done | exact Hg3 | done | done | |].
    - intros s4 Hg4 Ho4 Hb4. apply wp_ret, HQ.
      assert (He : forall j, 0 <= j < np s -> entry (fs_block s4) b' j = if decide (j = idx) then child else get_struct data' (Z.to_nat j))
        by (intros; by eapply (entry_put s)).
      constructor; [| done | intros m Hm Hne; by rewrite Ho4, Hs3 | by rewrite He, decide_True|].
      + destruct Hb' as [(? & ->)|(? & ? & -> & _)]; auto.
      + intros Hne j Hj Hji. rewrite He, decide_False by done. destruct Hb' as [(? & _)|(_ & _ & _ & ->)]; done.
    - intros s4 Hg4 Hfl. apply wp_ret, Hbad; [done|]. eapply failed_io; [exact Hg4 | | done | auto]. by constructor. }
  assert (Hout : forall m, outside_bitmap s m -> fs_block s2 m = fs_block s1 m) by (intros; apply Hs2).
  destruct (Z.eqb_spec idx 0) as [E0|Hne].
  - apply wp_bind, wp_bind. eapply wp_mono; [by eapply wp_grow_alloc|]. intros [err b'] s3 Hp.
    destruct (Z.eqb_spec err SUCCESS) as [->|Hne]; cbn [negb]; apply wp_ret; cbn [negb Z.eqb SUCCESS].
    + destruct Hp as [(_ & Hg3 & Hs3)|[(? & _)|[(? & _)|(? & _)]]]; [|done..]. simpl in Hg3.
      pose proof (gr_free _ _ _ _ Hg3) as Hfr. apply Forall_cons in Hfr as [[Hin Hfree] _].
      apply (Hwrite _ b' data (b' :: F)); auto. intros m Hm. rewrite Hs3 by done. by apply Hout.
    + rewrite (proj2 (Z.eqb_neq _ _) Hne). cbn [negb]. apply wp_ret, Hbad; [done|].
      eapply (failed_alloc _ _ _ _ (err, b')); [exact Hp | done | done].
  - destruct (Hslot Hne) as [Hin HB]. apply wp_bind, wp_bind, wp_block_at; [done | done|]. apply wp_bind.
    eapply wp_read_to; [exact Hg2 | done | |].
    + intros s3 Hg3 Hs3. apply wp_ret. cbn [negb Z.eqb SUCCESS].
      apply (Hwrite _ (slot node k) _ F); [right; split_and!; try done; apply Hout, (data_outside s); done | by rewrite set_block_same | done | auto | done | |].
      * intros m Hm. rewrite Hs3. by apply Hout.
      * by eapply growing_length.
    + intros s3 Hg3 Hfl. apply wp_ret. cbn [negb Z.eqb SUCCESS FILE_READ_ERROR]. apply wp_ret, Hbad; [done|].
      eapply failed_io; [exact Hg3 | done | done | auto].
Qed.

(** The tree of depth [d] under [b] with [t] leaves has got the leaf [new]; its
    root is [b']. *)
Record tree_grown s (d : nat) (b t new b' : Z) s' : Prop := {
  tg_root : t <> 0 -> b' = b;
  tg_agree : agree (fs_block s) (fs_block s') (uses (np s) (fs_block s) d b t);
  tg_walk : walk (np s) (fs_block s') d b' t = new;
  tg_growing : exists W, growing s (added (np s) (fs_block s') d b' t ++ [new]) W s' /\
    W ⊆ ptrs (np s) (fs_block s) d b t ++ added (np s) (fs_block s') d b' t
}.

(** A tree whose indirect blocks are distinct blocks in use. *)
Record tree_ok s (d : nat) (b t : Z) : Prop := {
  tr_nodup : NoDup (ptrs (np s) (fs_block s) d b t);
  tr_used : Forall (fun p => in_data s p /\ block_bit s p = true) (ptrs (np s) (fs_block s) d b t)
}.

Lemma tree_in s d b t p : tree_ok s d b t -> p ∈ ptrs (np s) (fs_block s) d b t -> in_data s p /\ block_bit s p = true.
Proof. intros [_ Hu] Hp. by apply (proj1 (Forall_forall _ _) Hu). Qed.

Lemma tree_child s d b t :
  fs_ok s -> tree_ok s (S d) b t -> 0 < t -> 0 < t mod np s ^ Z.of_nat d ->
  tree_ok s d (entry (fs_block s) b (t / np s ^ Z.of_nat d)) (t mod np s ^ Z.of_nat d).
Proof.
  intros Hok [Hnd Hu] Ht Hr. destruct (nptr_eq s Hok) as (_ & HN & _). constructor.
  - unfold ptrs in *. cbn [uses] in Hnd. destruct (Z.leb_spec t 0); [lia|]. cbn [map] in Hnd.
    apply NoDup_cons in Hnd as [_ Hnd]. rewrite map_app in Hnd. by apply NoDup_app in Hnd as (_ & _ & ?).
  - apply Forall_forall. intros p Hp. apply (proj1 (Forall_forall _ _) Hu). apply (ptrs_child (np s)); done || lia.
Qed.

(** A block just allocated is none of those in use. *)
Lemma fresh_ne s F W s' p b : growing s F W s' -> p ∈ F -> block_bit s b = true -> p <> b.
Proof.
  intros Hg Hp Hb ->. destruct (proj1 (Forall_forall _ _) (gr_free _ _ _ _ Hg) b Hp) as [_ Hf]. congruence.
Qed.

Lemma in_data_u32 s p : fs_ok s -> in_data s p -> 0 <= p < 2 ^ 32.
Proof. intros Hok [? ?]. destruct (ok_regions _ Hok). lia. Qed.

Lemma fresh_in s F W s' p : growing s F W s' -> p ∈ F -> in_data s p /\ block_bit s p = false.
Proof. intros Hg Hp. by apply (proj1 (Forall_forall _ _) (gr_free _ _ _ _ Hg) p Hp). Qed.

(** Reading an indirect block that is in use and has not been written. *)
Lemma wp_read_ptr s F s1 b data (Q : Z * buffer -> fs_state D -> Prop) :
  fs_ok s -> growing s F [] s1 -> in_data s b ->
  (forall s2, growing s F [] s2 -> Q (SUCCESS, Some (fs_block s b)) s2) ->
  (forall s2, growing s F [] s2 -> flaky (lay s) -> Q (FILE_READ_ERROR, Some data) s2) ->
  wp (read_to (Some data) b) Q s1.
Proof.
  intros Hok Hg Hb Hs Hf. eapply wp_read_to; [exact Hg | done | | done]. intros s2 Hg2 _.
  rewrite (gr_blocks _ _ _ _ Hg) by (by apply data_outside || apply not_elem_of_nil). by apply Hs.
Qed.

Section grow.
Context s (Hok : fs_ok s) (Hcov : covered (lay s)) (Hmeta : meta_used s) (B : list Z).

(** The step all cases end with: the new block goes into entry [i] of the
    lowest indirect block [p]. *)
Lemma wp_put_leaf F W s1 p data i new node (Q : Z * inode_st -> fs_state D -> Prop) :
  growing s F W s1 -> writable s B W -> in_data s p -> (p ∈ B \/ block_bit s p = false) ->
  0 <= i < np s -> 0 <= new < 2 ^ 32 -> Z.of_nat (length data) = bytes_per_block (lay s) ->
  (forall s2, growing s F (p :: W) s2 -> (forall m, m <> p -> fs_block s2 m = fs_block s1 m) ->
     (forall j, 0 <= j < np s -> entry (fs_block s2) p j = if decide (j = i) then new else get_struct data (Z.to_nat j)) ->
     Q (SUCCESS, node) s2) ->
  (forall err s2, err <> SUCCESS -> alloc_failed s B err s2 -> Q (err, node) s2) ->
  wp (ptr_data ← put_entry (Some data) i new; err ← write_from ptr_data p; mret (err, node)) Q s1.
Proof.
  intros Hg HW Hp HB Hi Hnew Hd HQ Hbad. apply wp_bind, (wp_put_entry s); [done | done | done|]. intros Hpl.
  apply wp_bind. eapply (wp_write_from s F W); [done | exact Hg | done | done | |].
  - intros s2 Hg2 Ho Hb. apply wp_ret, HQ; [done | done|]. intros j Hj. by eapply (entry_put s).
  - intros s2 Hg2 Hfl. apply wp_ret, Hbad; [done|]. eapply failed_io; [exact Hg2 | by constructor | done | auto].
Qed.

(** The blocks in use are not among those written, if only new blocks and [b]
    were. *)
Lemma used_untouched F W s' B' m :
  growing s F W s' -> W ⊆ B' ++ F -> in_data s m -> block_bit s m = true -> m ∉ B' -> fs_block s' m = fs_block s m.
Proof.
  intros Hg HW Hm Hu HB'. apply (gr_blocks _ _ _ _ Hg); [by apply data_outside|]. intros [?|Hf]%HW%elem_of_app; [done|].
  by eapply (fresh_ne _ _ _ _ m m).
Qed.

(** A new entry in the lowest indirect block. *)
Lemma grown_leaf p r new s' :
  growing s [new] [p] s' -> tree_ok s 1 p r -> 0 < r < np s ->
  (forall j, 0 <= j < np s -> entry (fs_block s') p j = if decide (j = r) then new else entry (fs_block s) p j) ->
  tree_grown s 1 p r new p s'.
Proof.
  intros Hg Htr Hr He. destruct (nptr_eq s Hok) as (_ & HN & _).
  assert (E1 : added (np s) (fs_block s') 1 p r = []) by (rewrite added_1, (proj2 (Z.eqb_neq r 0)) by lia; done).
  constructor; [done | | by rewrite walk_1, He, decide_True by lia | rewrite E1; exists [p]; split; [done|]].
  - eapply agree_write; [apply Htr | apply (uses_root (np s) ltac:(lia) _ 0%nat); [lia | apply Z.mod_1_r] | |].
    + intros m Hm Hne. destruct (tree_in _ _ _ _ _ Htr Hm). eapply (used_untouched [new] [p] _ [p]); try done.
      * intros x Hx. apply elem_of_app. by left.
      * by apply not_elem_of_cons; split; [|apply not_elem_of_nil].
    + rewrite Z.pow_0_r, Z.div_1_r. intros j Hj. by rewrite He, decide_False by lia.
  - intros m [->|[]%not_elem_of_nil]%elem_of_cons. rewrite app_nil_r. apply uses_root_in. lia.
Qed.

(** The last child of a tree has grown. *)
Lemma grown_old_child d b t new c' s' :
  let r := t mod np s ^ Z.of_nat d in let c := entry (fs_block s) b (t / np s ^ Z.of_nat d) in
  tree_ok s (S d) b t -> 0 < t -> 0 < r -> tree_grown s d c r new c' s' -> tree_grown s (S d) b t new b s'.
Proof.
  intros r c Htr Ht Hr [Hroot Hag Hwalk (W & Hg & HW)]. destruct (nptr_eq s Hok) as (_ & HN & _).
  assert (c' = c) as -> by (apply Hroot; lia).
  pose proof (tr_nodup _ _ _ _ Htr) as Hnd. unfold ptrs in Hnd.
  assert (Hsub : uses (np s) (fs_block s) d c r ⊆ uses (np s) (fs_block s) (S d) b t) by (apply (uses_child (np s)); done || lia).
  assert (Hother : forall m, m ∈ ptrs (np s) (fs_block s) (S d) b t -> m ∉ ptrs (np s) (fs_block s) d c r ->
    fs_block s' m = fs_block s m).
  { intros m Hm Hn. destruct (tree_in _ _ _ _ _ Htr Hm).
    eapply (used_untouched _ W _ (ptrs (np s) (fs_block s) d c r)); [exact Hg | | done | done | done].
    intros x [?|?]%HW%elem_of_app; apply elem_of_app; [by left | right; apply elem_of_app; by left]. }
  assert (Hb : fs_block s' b = fs_block s b).
  { apply Hother; [apply uses_root_in; lia|]. cbn [uses] in Hnd. destruct (Z.leb_spec t 0); [lia|]. cbn [map fst] in Hnd.
    apply NoDup_cons in Hnd as [Hnd _]. intros Hin. apply Hnd. rewrite map_app. apply elem_of_app. by right. }
  assert (Ec : entry (fs_block s') b (t / np s ^ Z.of_nat d) = c) by (unfold entry; by rewrite Hb).
  assert (Ea : added (np s) (fs_block s') (S d) b t = added (np s) (fs_block s') d c r).
  { cbn [added]. rewrite (proj2 (Z.eqb_neq t 0)), Ec by lia. done. }
  constructor; [done | | cbn [walk]; by rewrite Ec | rewrite Ea; exists W; split; [done|]].
  - intros p k j Hp Hj. destruct (decide ((p, k) ∈ uses (np s) (fs_block s) d c r)) as [Hin|Hout]; [by apply (Hag p k)|].
    unfold entry. rewrite Hother; [done | apply list_elem_of_fmap; by exists (p, k)|].
    intros ([p' k'] & -> & Hin)%list_elem_of_fmap. apply Hout. simpl in *. apply Hsub in Hin as Hin'.
    apply list_elem_of_lookup in Hp as [i1 Hi1], Hin' as [i2 Hi2].
    assert (i1 = i2) as ->; [|congruence].
    eapply NoDup_lookup; [exact Hnd | rewrite list_lookup_fmap, Hi1 | rewrite list_lookup_fmap, Hi2]; done.
  - intros m [Hm|?]%HW%elem_of_app; apply elem_of_app; [left | by right]. apply list_elem_of_fmap in Hm as (x & -> & Hx).
    apply list_elem_of_fmap. exists x. split; [done | by apply Hsub].
Qed.

(** The root of a tree has got a new child. *)
Lemma grown_new_child d b t new b' c F W s' :
  let q := t / np s ^ Z.of_nat d in
  t mod np s ^ Z.of_nat d = 0 -> 0 <= t < np s ^ Z.of_nat (S d) -> tree_ok s (S d) b t ->
  (t <> 0 -> b' = b) -> entry (fs_block s') b' q = c ->
  (t <> 0 -> forall j, 0 <= j < q -> entry (fs_block s') b j = entry (fs_block s) b j) ->
  walk (np s) (fs_block s') d c 0 = new ->
  growing s F W s' -> F ≡ₚ (if t =? 0 then [b'] else []) ++ added (np s) (fs_block s') d c 0 ++ [new] ->
  W ⊆ b' :: added (np s) (fs_block s') d c 0 ->
  tree_grown s (S d) b t new b' s'.
Proof.
  intros q Hr Ht Htr Hroot Hc He Hwalk Hg HF HW. destruct (nptr_eq s Hok) as (_ & HN & _).
  assert (Ea : added (np s) (fs_block s') (S d) b' t = (if t =? 0 then [b'] else []) ++ added (np s) (fs_block s') d c 0).
  { cbn [added]. fold q. by rewrite Hr, Hc. }
  constructor; [done | | cbn [walk]; fold q; by rewrite Hr, Hc|].
  - destruct (decide (t = 0)) as [->|Ht0]; [rewrite uses_none by lia; intros ? ? ? []%not_elem_of_nil|].
    rewrite (Hroot Ht0) in *.
    eapply (agree_write _ _ _ b q); [apply Htr | apply (uses_root (np s)); done || lia | | by apply He].
    intros m Hm Hne. destruct (tree_in _ _ _ _ m Htr Hm) as [Hmd Hmu].
    eapply (used_untouched F W _ [b]); [exact Hg | | done | done | by apply not_elem_of_cons; split; [|apply not_elem_of_nil]].
    intros x [->|Hx]%HW%elem_of_cons; [by left | right]. rewrite HF. apply elem_of_app. right. apply elem_of_app. by left.
  - exists W. rewrite Ea, <- app_assoc. split; [by eapply growing_perm|].
    intros m [->|Hm]%HW%elem_of_cons; rewrite !elem_of_app; [|by right; right].
    destruct (Z.eqb_spec t 0); [by right; left; left|]. left. rewrite Hroot by done. apply uses_root_in. lia.
Qed.

(** The single indirect block, once it exists. *)
Lemma wp_allocate_single new node s1 (Q : Z * inode_st -> fs_state D -> Prop) :
  let t := nblocks node - 12 in let b := slot node 12 in
  growing s [new] [] s1 -> length (blocks node) = 15%nat -> 3 < t < np s -> tree_ok s 1 b t ->
  ptrs (np s) (fs_block s) 1 b t ⊆ B ->
  (forall s2, tree_grown s 1 b t new b s2 -> Q (SUCCESS, node) s2) ->
  (forall err node' s2, err <> SUCCESS -> alloc_failed s B err s2 -> Q (err, node') s2) ->
  wp (allocate_single junk new node) Q s1.
Proof.
  intros t b Hg Hlen Ht Htr HB HQ Hbad. destruct (nptr_eq s Hok) as (_ & HN & _).
  assert (Hb : b ∈ ptrs (np s) (fs_block s) 1 b t) by (apply uses_root_in; lia).
  destruct (tree_in _ _ _ _ _ Htr Hb) as [Hbd Hbu].
  destruct (fresh_in _ _ _ _ new Hg ltac:(by left)) as [Hnd Hnf].
  unfold allocate_single. apply wp_bind. eapply wp_new_block; [exact Hg|]. intros data s2 Hg2 _ Hdata.
  rewrite (proj2 (Z.eqb_neq (nblocks node) 15)) by lia. apply wp_bind, wp_bind, wp_block_at; [done | done|]. fold b.
  apply wp_bind. eapply wp_read_ptr; [done | exact Hg2 | done | |].
  2: { intros s3 Hg3 Hfl. apply wp_ret, wp_ret, Hbad; [done|]. eapply failed_io; [exact Hg3 | constructor | done | auto]. }
  intros s3 Hg3. apply wp_ret. cbn [negb Z.eqb SUCCESS]. rewrite to_u32_small by lia. fold t.
  apply wp_bind, (wp_put_entry s); [done | lia | eapply growing_length, growing_refl, Hok|]. intros Hpl.
  apply wp_bind, wp_block_at; [done | done|]. fold b. apply wp_bind.
  eapply (wp_write_from s [new] []); [done | exact Hg3 | done | done | |].
  2: { intros s4 Hg4 Hfl. apply wp_ret, Hbad; [done|]. eapply failed_io; [exact Hg4 | constructor; [by auto | constructor] | done | auto]. }
  intros s4 Hg4 Ho Hb4. apply wp_ret, HQ.
  assert (He : forall j, 0 <= j < np s -> entry (fs_block s4) b j = if decide (j = t) then new else entry (fs_block s) b j).
  { intros j Hj. eapply (entry_put s); [done | exact Hb4 | | lia | by apply (in_data_u32 s) | done].
    by eapply growing_length, growing_refl. }
  apply grown_leaf; [done | done | lia | done].
Qed.

(** The sixteenth block: the single indirect block comes into being. *)
Lemma wp_allocate_sixteenth new node s1 (Q : Z * inode_st -> fs_state D -> Prop) :
  growing s [new] [] s1 -> length (blocks node) = 15%nat -> nblocks node = 15 ->
  (forall k, 12 <= k < 15 -> 0 <= slot node k < 2 ^ 32) ->
  (forall p s2, growing s [p; new] [p] s2 ->
     (forall j, 0 <= j < 3 -> entry (fs_block s2) p j = slot node (12 + j)) -> entry (fs_block s2) p 3 = new ->
     Q (SUCCESS, set_block_at 12 p node) s2) ->
  (forall err node' s2, err <> SUCCESS -> alloc_failed s B err s2 -> Q (err, node') s2) ->
  wp (allocate_single junk new node) Q s1.
Proof.
  intros Hg Hlen Hn Hslots HQ Hbad. destruct (nptr_eq s Hok) as (_ & HN & _).
  destruct (fresh_in _ _ _ _ new Hg ltac:(by left)) as [Hnd Hnf].
  unfold allocate_single. apply wp_bind. eapply wp_new_block; [exact Hg|]. intros data s2 Hg2 _ Hdata.
  rewrite Hn. cbn [Z.eqb Pos.eqb]. apply wp_bind, wp_bind. eapply wp_mono; [by eapply wp_grow_alloc|]. intros [err p] s3 Hp.
  destruct (Z.eqb_spec err SUCCESS) as [->|Hne].
  2: { apply wp_ret. rewrite (proj2 (Z.eqb_neq _ _) Hne). apply wp_ret, Hbad; [done|].
       eapply (failed_alloc _ _ _ _ (err, p)); [exact Hp | constructor | done]. }
  destruct Hp as [(_ & Hg3 & _)|[(? & _)|[(? & _)|(? & _)]]]; [|done..]. simpl in Hg3.
  destruct (fresh_in _ _ _ _ p Hg3 ltac:(by left)) as [Hpd Hpf]. cbn [negb].
  apply wp_bind, wp_block_at; [done | lia|]. apply wp_bind, (wp_put_entry s); [done | lia | done|]. intros Hl0.
  apply wp_bind, wp_block_at; [done | lia|]. apply wp_bind, (wp_put_entry s); [done | lia | done|]. intros Hl1.
  apply wp_bind, wp_block_at; [done | lia|]. apply wp_bind, (wp_put_entry s); [done | lia | done|]. intros Hl2.
  apply wp_ret. cbn [negb Z.eqb SUCCESS].
  change (nblocks (set_block_at 12 p node)) with (nblocks node). rewrite Hn, to_u32_small by lia.
  apply wp_bind, (wp_put_entry s); [done | lia | done|]. intros Hl3.
  apply wp_bind, wp_block_at; [by rewrite length_set_block | lia|]. rewrite slot_set_eq by (done || lia).
  apply wp_bind. eapply (wp_write_from s [p; new] []); [done | exact Hg3 | done | done | |].
  2: { intros s4 Hg4 Hfl. apply wp_ret, Hbad; [done|]. eapply failed_io; [exact Hg4 | constructor; [by auto | constructor] | done | auto]. }
  intros s4 Hg4 _ Hp4. apply wp_ret, HQ; [done | |].
  - intros j Hj. unfold entry. rewrite Hp4.
    destruct (entry_fits s Hok _ (15 - 12) ltac:(lia) Hl2) as [_ Hf2]. destruct (entry_fits s Hok _ 2 ltac:(lia) Hl1) as [_ Hf1].
    destruct (entry_fits s Hok _ 1 ltac:(lia) Hl0) as [_ Hf0]. destruct (entry_fits s Hok _ 0 ltac:(lia) Hdata) as [_ Hf].
    rewrite get_put_struct_ne by (done || lia).
    assert (j = 0 \/ j = 1 \/ j = 2) as [-> |[-> | ->]] by lia;
      rewrite ?get_put_struct_ne by (done || lia); (rewrite get_put_struct; [done | done | refine (Hslots _ _); lia]).
  - unfold entry. rewrite Hp4. apply get_put_struct; [by apply (entry_fits s Hok); [lia|] | by apply (in_data_u32 s)].
Qed.

(** The blocks allocated by the end of [link_root]. *)
Lemma linked_growing c F0 s1 node k idx b' s2 :
  linked s (c :: F0) [] s1 node k idx c b' s2 ->
  (idx <> 0 -> slot node k ∈ B /\ block_bit s (slot node k) = true) ->
  exists F, growing s F [b'] s2 /\ F ≡ₚ (if idx =? 0 then [b'] else []) ++ c :: F0 /\ (b' ∉ c :: F0) /\
    (b' ∈ B \/ block_bit s b' = false).
Proof.
  intros [Hnew _ _ _ _] Hs. destruct Hnew as [(-> & Hg)|(Hne & -> & Hg)].
  - exists (b' :: c :: F0). pose proof (gr_nodup _ _ _ _ Hg) as [? _]%NoDup_cons. split_and!; try done.
    right. by apply (fresh_in _ _ _ _ b' Hg ltac:(by left)).
  - destruct (Hs Hne) as [? Hu]. exists (c :: F0). rewrite (proj2 (Z.eqb_neq idx 0) Hne). split_and!; [done | done | | auto].
    intros Hin. by eapply (fresh_ne _ _ _ _ (slot node k) (slot node k)).
Qed.

(** What [link_root] leaves to be proved about a tree whose root has got the
    child [c], once the blocks below [c] are written. *)
Lemma grown_linked d b t new b' c F0 s1 s2 s' node k F (W : list Z) :
  let q := t / np s ^ Z.of_nat d in
  t mod np s ^ Z.of_nat d = 0 -> 0 <= t < np s ^ Z.of_nat (S d) -> tree_ok s (S d) b t -> slot node k = b ->
  growing s (c :: F0) [] s1 -> linked s (c :: F0) [] s1 node k q c b' s2 ->
  growing s F (W ++ [b']) s' -> F ≡ₚ (if q =? 0 then [b'] else []) ++ c :: F0 ->
  fs_block s' b' = fs_block s2 b' -> walk (np s) (fs_block s') d c 0 = new ->
  c :: F0 ≡ₚ added (np s) (fs_block s') d c 0 ++ [new] -> W ⊆ added (np s) (fs_block s') d c 0 ->
  tree_grown s (S d) b t new b' s'.
Proof.
  intros q Hr Ht Htr Hslot Hg1 Hlk Hgr HF Hb Hwalk HF0 HW. destruct (nptr_eq s Hok) as (_ & HN & _).
  pose proof (pow_pos (np s) ltac:(lia) d) as Hs. pose proof (Z.div_mod t (np s ^ Z.of_nat d) ltac:(lia)) as Et. fold q in Et.
  assert (Hq0 : q = 0 <-> t = 0) by nia. destruct Hlk as [Hnew Hbd Hoth Hch Hent].
  apply (grown_new_child d b t new b' c F (W ++ [b'])); try done; try (unfold entry; by rewrite Hb).
  - intros Ht0. destruct Hnew as [(? & _)|(_ & -> & _)]; [lia | done].
  - intros Ht0 j Hj. destruct Hnew as [(? & _)|(Hne & Eb & _)]; [lia|]. rewrite Hslot in Eb. subst b'.
    unfold entry. rewrite Hb. change (entry (fs_block s2) b j = entry (fs_block s) b j).
    assert (q < np s) by (apply Z.div_lt_upper_bound; [lia|]; rewrite pow_succ in Ht by lia; lia).
    rewrite Hent by (done || lia). unfold entry. f_equal.
    apply (gr_blocks _ _ _ _ Hg1); [by apply data_outside | apply not_elem_of_nil].
  - rewrite HF, HF0. destruct (Z.eqb_spec q 0), (Z.eqb_spec t 0); done || lia.
  - intros m [?%HW|[->|[]%not_elem_of_nil]%elem_of_cons]%elem_of_app; [by right | by left].
Qed.

(** What finding the single indirect block has to give: writing the new block
    into its entry [r] makes the tree grow. *)
Definition single_found (d : nat) (b t r new : Z) (node : inode_st) (k : Z) (Q : Z * buffer * Z * inode_st -> fs_state D -> Prop) : Prop :=
  (forall F W data p b' s1, growing s F W s1 -> writable s B W -> in_data s p -> (p ∈ B \/ block_bit s p = false) ->
     Z.of_nat (length data) = bytes_per_block (lay s) ->
     (forall s2, growing s F (p :: W) s2 -> (forall m, m <> p -> fs_block s2 m = fs_block s1 m) ->
       (forall j, 0 <= j < np s -> entry (fs_block s2) p j = if decide (j = r) then new else get_struct data (Z.to_nat j)) ->
       tree_grown s d b t new b' s2) ->
     Q (SUCCESS, Some data, p, set_block_at k b' node) s1) /\
  (forall err buf p node' s1, err <> SUCCESS -> alloc_failed s B err s1 -> Q (err, buf, p, node') s1).

Lemma single_failed_io d b t r new node k Q F W err buf p node' s1 :
  single_found d b t r new node k Q -> growing s F W s1 -> writable s B W -> flaky (lay s) ->
  err = FILE_READ_ERROR \/ err = FILE_WRITE_ERROR -> Q (err, buf, p, node') s1.
Proof.
  intros [_ Hbad] Hg HW Hfl He. apply Hbad; [by destruct He as [-> | ->]|]. by eapply failed_io.
Qed.

(** The indirect blocks on the way to a single one that is in use. *)
Lemma wp_tree_child F s1 d b t data (Q : Z * buffer -> fs_state D -> Prop) :
  growing s F [] s1 -> tree_ok s (S d) b t -> 0 < t ->
  (forall s2, growing s F [] s2 -> Q (SUCCESS, Some (fs_block s b)) s2) ->
  (forall s2, growing s F [] s2 -> flaky (lay s) -> Q (FILE_READ_ERROR, Some data) s2) ->
  wp (read_to (Some data) b) Q s1.
Proof.
  intros Hg Htr Ht HQ Hbad. eapply wp_read_ptr; [done | exact Hg | | done | done].
  apply (tree_in _ _ _ _ _ Htr). by apply uses_root_in.
Qed.

Lemma wp_entry_of b i (Q : Z -> fs_state D -> Prop) s1 :
  0 <= i < np s -> Q (entry (fs_block s) b i) s1 -> wp (get_entry (Some (fs_block s b)) i) Q s1.
Proof. intros Hi HQ. apply (wp_get_entry s); [done | done | by eapply growing_length, growing_refl | done]. Qed.

Lemma wp_double_old_single t new data node s1 Q :
  let b := slot node 13 in let r := t mod np s in let q := t / np s in
  growing s [new] [] s1 -> length (blocks node) = 15%nat -> 0 < t < np s ^ 2 -> tree_ok s 2 b t ->
  ptrs (np s) (fs_block s) 2 b t ⊆ B -> 0 < r -> single_found 2 b t r new node 13 Q ->
  wp (double_old_single junk (Some data) q node) Q s1.
Proof.
  intros b r q Hg Hlen Ht Htr HB Hr HQ. destruct (nptr_eq s Hok) as (_ & HN & _).
  assert (t mod np s ^ Z.of_nat 1 = r /\ t / np s ^ Z.of_nat 1 = q) as [E1 E2] by (change (Z.of_nat 1) with 1; by rewrite Z.pow_1_r).
  assert (Hq : 0 <= q < np s) by (split; [apply Z.div_pos | apply Z.div_lt_upper_bound]; lia).
  assert (Hrn : r < np s) by (apply Z.mod_pos_bound; lia).
  set (p := entry (fs_block s) b q). pose proof (tree_child s 1 b t Hok Htr ltac:(lia)) as Htp. rewrite E1, E2 in Htp.
  specialize (Htp Hr). fold p in Htp. pose proof (uses_root_in (np s) (fs_block s) 0 p r Hr) as Hp.
  destruct (tree_in _ _ _ _ _ Htp Hp) as [Hpd Hpu].
  assert (HpB : p ∈ B).
  { apply HB. pose proof (ptrs_child (np s) (fs_block s) 1 b t) as Hc. rewrite E1, E2 in Hc. apply Hc; done || lia. }
  apply wp_bind. eapply wp_new_block; [exact Hg|]. intros dd s2 Hg2 _ Hdd.
  apply wp_bind, wp_block_at; [done | lia|]. fold b. apply wp_bind. eapply (wp_tree_child [new] s2 1 b t); [done | done | lia | |].
  2: { intros s3 Hg3 Hfl. apply wp_ret. eapply single_failed_io; [done | exact Hg3 | constructor | done | auto]. }
  intros s3 Hg3. cbn [negb Z.eqb SUCCESS]. apply wp_bind, wp_entry_of; [done|]. fold p.
  apply wp_bind. eapply (wp_tree_child [new] s3 0 p r); [done | done | lia | |].
  2: { intros s4 Hg4 Hfl. apply wp_ret. eapply single_failed_io; [done | exact Hg4 | constructor | done | auto]. }
  intros s4 Hg4. apply wp_ret. rewrite <- (set_block_same node 13) by (done || lia).
  apply (proj1 HQ [new] []); [done | constructor | done | auto | by eapply growing_length, growing_refl|].
  intros s5 Hg5 _ He5. apply (grown_old_child 1 b t new p); rewrite ?E1, ?E2; [done | lia | lia|].
  apply grown_leaf; [done | done | lia | done].
Qed.

Lemma wp_double_new_single t new data node s1 Q :
  let b := slot node 13 in let q := t / np s in
  growing s [new] [] s1 -> length (blocks node) = 15%nat -> 0 <= t < np s ^ 2 -> tree_ok s 2 b t ->
  ptrs (np s) (fs_block s) 2 b t ⊆ B -> t mod np s = 0 -> Z.of_nat (length data) = bytes_per_block (lay s) ->
  single_found 2 b t 0 new node 13 Q ->
  wp (double_new_single junk (Some data) q node) Q s1.
Proof.
  intros b q Hg Hlen Ht Htr HB Hr Hdata HQ. destruct (nptr_eq s Hok) as (_ & HN & _).
  assert (t mod np s ^ Z.of_nat 1 = 0 /\ t / np s ^ Z.of_nat 1 = q) as [E1 E2] by (change (Z.of_nat 1) with 1; by rewrite Z.pow_1_r).
  assert (Hq : 0 <= q < np s) by (split; [apply Z.div_pos | apply Z.div_lt_upper_bound]; lia).
  pose proof (Z.div_mod t (np s) ltac:(lia)) as Et. fold q in Et.
  assert (Hroot : q <> 0 -> in_data s b /\ b ∈ B /\ block_bit s b = true).
  { intros Hq0. assert (Hb : b ∈ ptrs (np s) (fs_block s) 2 b t) by (apply uses_root_in; nia).
    destruct (tree_in _ _ _ _ _ Htr Hb). auto. }
  apply wp_bind. eapply wp_mono; [by eapply wp_grow_alloc|]. intros [err p] s3 Hp.
  destruct (Z.eqb_spec err SUCCESS) as [->|Hne].
  2: { apply wp_ret, (proj2 HQ); [done|]. eapply (failed_alloc _ _ _ _ (err, p)); [exact Hp | constructor | done]. }
  destruct Hp as [(_ & Hg3 & Hs3)|[(? & _)|[(? & _)|(? & _)]]]; [|done..]. simpl in Hg3.
  destruct (fresh_in _ _ _ _ p Hg3 ltac:(by left)) as [Hpd Hpf]. cbn [negb]. apply wp_bind.
  eapply (wp_link_root s [p; new] [] s3 13 q p node B); try done; [constructor | by apply (in_data_u32 s) | intros; destruct Hroot as (? & ? & _); done | |].
  2: { intros err node' s4 Hne Hf. by apply wp_ret, (proj2 HQ). }
  intros b' s4 Hlk. apply wp_ret.
  destruct (linked_growing _ _ _ _ _ _ _ _ Hlk) as (F & Hg4 & HF & [Hbp _]%not_elem_of_cons & HbB);
    [intros; destruct Hroot as (_ & ? & ?); done|].
  apply (proj1 HQ F [b']); [done | by constructor | done | auto | done|]. intros s5 Hg5 Ho5 He5.
  assert (Ea : added (np s) (fs_block s5) 1 p 0 = [p]) by (by rewrite added_1).
  apply (grown_linked 1 b t new b' p [new] s3 s4 s5 node 13 F [p]); rewrite ?E1, ?E2, ?Ea; try done.
  - by apply Ho5.
  - rewrite walk_1, He5, decide_True by lia. done.
Qed.

(** The double indirect block. *)
Lemma wp_allocate_double new node s1 (Q : Z * inode_st -> fs_state D -> Prop) :
  let t := nblocks node - 12 - np s in let b := slot node 13 in
  growing s [new] [] s1 -> length (blocks node) = 15%nat -> nblocks node < 2 ^ 32 -> 0 <= t < np s ^ 2 -> tree_ok s 2 b t ->
  ptrs (np s) (fs_block s) 2 b t ⊆ B ->
  (forall b' s2, tree_grown s 2 b t new b' s2 -> Q (SUCCESS, set_block_at 13 b' node) s2) ->
  (forall err node' s2, err <> SUCCESS -> alloc_failed s B err s2 -> Q (err, node') s2) ->
  wp (allocate_double junk new node) Q s1.
Proof.
  intros t b Hg Hlen Hn32 Ht Htr HB HQ Hbad. destruct (nptr_eq s Hok) as (_ & HN & _).
  destruct (fresh_in _ _ _ _ new Hg ltac:(by left)) as [Hnd Hnf]. pose proof (in_data_u32 s new Hok Hnd) as Hnew.
  pose proof Hg as [_ El1 _ _ _ _]. unfold allocate_double. apply wp_bind, wp_fetch. rewrite El1.
  assert (Hr : 0 <= t mod np s < np s) by (apply Z.mod_pos_bound; lia).
  assert (Hq : 0 <= t / np s < np s) by (split; [apply Z.div_pos | apply Z.div_lt_upper_bound]; lia).
  rewrite (to_u32_small (nblocks node - 12 - np s)) by lia. fold t. rewrite !(to_u32_small (t mod _)), !(to_u32_small (t / _)) by lia.
  apply wp_bind. eapply wp_new_block; [exact Hg|]. intros data s2 Hg2 _ Hdata. apply wp_bind.
  assert (Hfound : single_found 2 b t (t mod np s) new node 13 (fun '(err, ptr_data, single_ptr_block, node) => wp
    (if negb (err =? SUCCESS) then mret (err, node) else
     ptr_data ← put_entry ptr_data (t mod np s) new;
     err ← write_from ptr_data single_ptr_block;
     mret (err, node)) Q)).
  { split.
    - intros F W dat p b' s3 Hg3 HW Hp HpB Hl Hgrown. cbn [negb Z.eqb SUCCESS]. eapply (wp_put_leaf F W); try done; auto.
    - intros err buf p node' s3 Hne Hf. rewrite (proj2 (Z.eqb_neq _ _) Hne). by apply wp_ret, Hbad. }
  destruct (Z.eqb_spec (t mod np s) 0) as [Er|Hr0].
  - rewrite Er in Hfound |- *. by apply (wp_double_new_single t new).
  - assert (t <> 0) by (intros E; rewrite E, Z.mod_0_l in Hr0; lia).
    apply (wp_double_old_single t new); [done | done | lia | done | done | lia | exact Hfound].
Qed.

(** *** The triple indirect block *)

Section triple.
Context (node : inode_st) (t new : Z).
Let b := slot node 14.
Let i := t mod np s ^ 2.
Let q3 := t / np s ^ 2.
Let q2 := i / np s.
Context (Hlen : length (blocks node) = 15%nat) (Ht : 0 <= t < np s ^ 3) (Htr : tree_ok s 3 b t).
Context (HB : ptrs (np s) (fs_block s) 3 b t ⊆ B).

Lemma triple_indices :
  0 <= i < np s ^ 2 /\ 0 <= q3 < np s /\ 0 <= q2 < np s /\ 0 <= i mod np s < np s /\
  t = np s ^ 2 * q3 + i /\ i = np s * q2 + i mod np s /\ i mod np s ^ Z.of_nat 1 = i mod np s /\ i / np s ^ Z.of_nat 1 = q2.
Proof.
  destruct (nptr_eq s Hok) as (_ & HN & _). change (Z.of_nat 1) with 1. rewrite Z.pow_1_r.
  assert (HN2 : 0 < np s ^ 2) by nia. pose proof (Z.mod_pos_bound t (np s ^ 2) HN2) as Hi. fold i in Hi.
  pose proof (Z.mod_pos_bound i (np s) ltac:(lia)). pose proof (Z.div_pos t (np s ^ 2) ltac:(lia) HN2).
  pose proof (Z.div_pos i (np s) ltac:(lia) ltac:(lia)). pose proof (Z.div_mod t (np s ^ 2) ltac:(lia)).
  pose proof (Z.div_mod i (np s) ltac:(lia)).
  assert (t / np s ^ 2 < np s) by (apply Z.div_lt_upper_bound; lia).
  assert (i / np s < np s) by (apply Z.div_lt_upper_bound; lia).
  split_and!; done || lia.
Qed.

(** The double indirect block in use, and the single one. *)
Let dbl := entry (fs_block s) b q3.

Lemma triple_dbl : 0 < i -> tree_ok s 2 dbl i /\ dbl ∈ B /\ in_data s dbl /\ block_bit s dbl = true.
Proof.
  intros Hi. destruct triple_indices as (_ & ? & _). destruct (nptr_eq s Hok) as (_ & HN & _).
  assert (0 < t) by (destruct (decide (t = 0)) as [E|]; [unfold i in Hi; rewrite E, Z.mod_0_l in Hi; nia | lia]).
  pose proof (tree_child s 2 b t Hok Htr ltac:(done) Hi) as Hc. split; [exact Hc|].
  pose proof (uses_root_in (np s) (fs_block s) 1 dbl i Hi) as Hin. split; [|by apply (tree_in _ _ _ _ _ Hc)].
  apply HB. by apply (ptrs_child (np s) (fs_block s) 2 b t).
Qed.

Lemma wp_triple_old_single data s1 Q :
  let r := i mod np s in
  growing s [new] [] s1 -> 0 < r -> single_found 3 b t r new node 14 Q ->
  wp (triple_old_single junk (Some data) q2 q3 node) Q s1.
Proof.
  intros r Hg Hr HQ. destruct (nptr_eq s Hok) as (_ & HN & _).
  destruct triple_indices as (Hi & Hq3 & Hq2 & Hrn & Et & Ei & E1 & E2). fold r in Hrn, Ei, E1.
  destruct triple_dbl as (Htd & HdB & Hdd & Hdu); [nia|].
  set (p := entry (fs_block s) dbl q2). pose proof (tree_child s 1 dbl i Hok Htd ltac:(nia)) as Htp. rewrite E1, E2 in Htp.
  specialize (Htp Hr). fold p in Htp. pose proof (uses_root_in (np s) (fs_block s) 0 p r Hr) as Hp.
  destruct (tree_in _ _ _ _ _ Htp Hp) as [Hpd Hpu].
  assert (HpB : p ∈ B).
  { apply HB, (ptrs_child (np s) (fs_block s) 2 b t); [change (0 < i); nia | nia|]. fold dbl.
    pose proof (ptrs_child (np s) (fs_block s) 1 dbl i) as Hc. rewrite E1, E2 in Hc. apply Hc; done || nia. }
  apply wp_bind. eapply wp_new_block; [exact Hg|]. intros td s2 Hg2 _ _.
  apply wp_bind, wp_block_at; [done | lia|]. fold b. apply wp_bind. eapply (wp_tree_child [new] s2 2 b t); [done | done | nia | |].
  2: { intros s3 Hg3 Hfl. apply wp_ret. eapply single_failed_io; [done | exact Hg3 | constructor | done | auto]. }
  intros s3 Hg3. cbn [negb Z.eqb SUCCESS]. apply wp_bind, wp_entry_of; [done|]. fold dbl.
  apply wp_bind. eapply wp_new_block; [exact Hg3|]. intros dd s4 Hg4 _ _.
  apply wp_bind. eapply (wp_tree_child [new] s4 1 dbl i); [done | done | nia | |].
  2: { intros s5 Hg5 Hfl. apply wp_ret. eapply single_failed_io; [done | exact Hg5 | constructor | done | auto]. }
  intros s5 Hg5. cbn [negb Z.eqb SUCCESS]. apply wp_bind, wp_entry_of; [done|]. fold p.
  apply wp_bind. eapply (wp_tree_child [new] s5 0 p r); [done | done | lia | |].
  2: { intros s6 Hg6 Hfl. apply wp_ret. eapply single_failed_io; [done | exact Hg6 | constructor | done | auto]. }
  intros s6 Hg6. apply wp_ret. rewrite <- (set_block_same node 14) by (done || lia).
  apply (proj1 HQ [new] []); [done | constructor | done | auto | by eapply growing_length, growing_refl|].
  intros s7 Hg7 _ He7. apply (grown_old_child 2 b t new dbl); [done | nia | change (0 < i); nia|].
  apply (grown_old_child 1 dbl i new p); rewrite ?E1, ?E2; [done | nia | done|].
  apply grown_leaf; [done | done | lia | done].
Qed.

(** What finding the double indirect block for a new single one [p] has to
    give. *)
Definition double_found (p : Z) (Q : Z * buffer * Z * inode_st -> fs_state D -> Prop) : Prop :=
  (forall F W data c b' s1, growing s F W s1 -> p ∈ F -> writable s B W -> in_data s c -> c <> p ->
     (c ∈ B \/ block_bit s c = false) -> Z.of_nat (length data) = bytes_per_block (lay s) ->
     (forall s2, growing s F (p :: c :: W) s2 -> (forall m, m <> p -> m <> c -> fs_block s2 m = fs_block s1 m) ->
       (forall j, 0 <= j < np s -> entry (fs_block s2) c j = if decide (j = q2) then p else get_struct data (Z.to_nat j)) ->
       entry (fs_block s2) p 0 = new -> tree_grown s 3 b t new b' s2) ->
     Q (SUCCESS, Some data, c, set_block_at 14 b' node) s1) /\
  (forall err buf c node' s1, err <> SUCCESS -> alloc_failed s B err s1 -> Q (err, buf, c, node') s1).

(** Where the new single one is the first entry of a new double one. *)
Lemma wp_triple_new_double p data s1 Q :
  growing s [p; new] [] s1 -> i = 0 -> Z.of_nat (length data) = bytes_per_block (lay s) -> double_found p Q ->
  wp (triple_double junk (Some data) q2 q3 node) Q s1.
Proof.
  intros Hg Hi0 Hdata HQ. destruct (nptr_eq s Hok) as (_ & HN & _).
  destruct triple_indices as (Hi & Hq3 & Hq2 & Hrn & Et & Ei & E1 & E2).
  assert (Eq2 : q2 = 0) by (unfold q2; by rewrite Hi0, Z.div_0_l by lia).
  assert (Hroot : q3 <> 0 -> in_data s b /\ b ∈ B /\ block_bit s b = true).
  { intros Hq0. assert (Hb : b ∈ ptrs (np s) (fs_block s) 3 b t) by (apply uses_root_in; nia).
    destruct (tree_in _ _ _ _ _ Htr Hb). auto. }
  unfold triple_double. rewrite Eq2. cbn [Z.eqb].
  apply wp_bind. eapply wp_mono; [by eapply wp_grow_alloc|]. intros [err c] s3 Hp.
  destruct (Z.eqb_spec err SUCCESS) as [->|Hne].
  2: { apply wp_ret, (proj2 HQ); [done|]. eapply (failed_alloc _ _ _ _ (err, c)); [exact Hp | constructor | done]. }
  destruct Hp as [(_ & Hg3 & _)|[(? & _)|[(? & _)|(? & _)]]]; [|done..]. simpl in Hg3.
  destruct (fresh_in _ _ _ _ c Hg3 ltac:(by left)) as [Hcd Hcf]. cbn [negb]. apply wp_bind.
  pose proof (gr_nodup _ _ _ _ Hg3) as [[Hcp _]%not_elem_of_cons _]%NoDup_cons.
  eapply (wp_link_root s [c; p; new] [] s3 14 q3 c node B); try done;
    [constructor | by apply (in_data_u32 s) | intros; destruct Hroot as (? & ? & _); done | |].
  2: { intros err node' s4 Hne Hf. by apply wp_ret, (proj2 HQ). }
  intros b' s4 Hlk. apply wp_ret.
  destruct (linked_growing _ _ _ _ _ _ _ _ Hlk) as (F & Hg4 & HF & [Hbc [Hbp _]%not_elem_of_cons]%not_elem_of_cons & HbB);
    [intros; destruct Hroot as (_ & ? & ?); done|].
  apply (proj1 HQ F [b']); [done | rewrite HF; apply elem_of_app; right; by right; left | by constructor | done | done | auto | done|].
  intros s5 Hg5 Ho5 He5 Hp5. rewrite Eq2 in He5.
  assert (Ec : entry (fs_block s5) c 0 = p) by (rewrite He5, decide_True by lia; done).
  assert (Ea : added (np s) (fs_block s5) 2 c 0 = [c; p]).
  { rewrite added_2, added_1, Z.div_0_l, Z.mod_0_l, Ec by lia. done. }
  apply (grown_linked 2 b t new b' c [p; new] s3 s4 s5 node 14 F [p; c]); rewrite ?Ea; try done.
  - by apply Ho5.
  - rewrite walk_2, Z.div_0_l, Z.mod_0_l, Ec by lia. done.
  - intros m. rewrite !elem_of_cons. tauto.
Qed.

(** Where it is a later entry of a double one in use. *)
Lemma wp_triple_old_double p data s1 Q :
  growing s [p; new] [] s1 -> i mod np s = 0 -> i <> 0 -> double_found p Q ->
  wp (triple_double junk (Some data) q2 q3 node) Q s1.
Proof.
  intros Hg Hr Hi0 HQ. destruct (nptr_eq s Hok) as (_ & HN & _).
  destruct triple_indices as (Hi & Hq3 & Hq2 & Hrn & Et & Ei & E1 & E2). rewrite Hr in E1.
  destruct triple_dbl as (Htd & HdB & Hdd & Hdu); [lia|]. assert (Hq0 : q2 <> 0) by nia.
  assert (Hbad : forall F buf c node' s2, growing s F [] s2 -> flaky (lay s) -> Q (FILE_READ_ERROR, buf, c, node') s2).
  { intros F buf c node' s2 Hg2 Hfl. apply (proj2 HQ); [done|]. eapply failed_io; [exact Hg2 | constructor | done | auto]. }
  unfold triple_double. rewrite (proj2 (Z.eqb_neq _ _) Hq0).
  apply wp_bind. eapply wp_new_block; [exact Hg|]. intros td s2 Hg2 _ _.
  apply wp_bind, wp_block_at; [done | lia|]. fold b. apply wp_bind.
  eapply (wp_tree_child [p; new] s2 2 b t); [done | done | nia | | intros; apply wp_ret; by eapply Hbad].
  intros s3 Hg3. cbn [negb Z.eqb SUCCESS]. apply wp_bind, wp_entry_of; [done|]. fold dbl.
  apply wp_bind. eapply (wp_tree_child [p; new] s3 1 dbl i); [done | done | lia | | intros; apply wp_ret; by eapply Hbad].
  intros s4 Hg4. apply wp_ret. rewrite <- (set_block_same node 14) by (done || lia).
  apply (proj1 HQ [p; new] []);
    [done | by left | constructor | done | | auto | by eapply growing_length, growing_refl|].
  { intros E. symmetry in E. revert E. eapply fresh_ne; [exact Hg4 | by left | done]. }
  intros s5 Hg5 Ho5 He5 Hp5. apply (grown_old_child 2 b t new dbl); [done | nia | change (0 < i); lia|].
  assert (Ea : added (np s) (fs_block s5) 1 p 0 = [p]) by (by rewrite added_1).
  change (tree_grown s 2 dbl i new dbl s5).
  apply (grown_new_child 1 dbl i new dbl p [p; new] [p; dbl]); rewrite ?E1, ?E2, ?Ea; try done.
  - rewrite He5, decide_True by lia. done.
  - intros _ j Hj. rewrite He5, decide_False by lia. done.
  - by rewrite (proj2 (Z.eqb_neq i 0)).
  - intros m. rewrite !elem_of_cons. tauto.
Qed.

Lemma wp_triple_new_single data s1 Q :
  ~ flaky (lay s) -> growing s [new] [] s1 -> i mod np s = 0 -> Z.of_nat (length data) = bytes_per_block (lay s) ->
  single_found 3 b t 0 new node 14 Q -> wp (triple_new_single junk (Some data) q2 q3 node) Q s1.
Proof.
  intros Hfl Hg Hr Hdata HQ. destruct (nptr_eq s Hok) as (_ & HN & _).
  destruct triple_indices as (Hi & Hq3 & Hq2 & _).
  apply wp_bind. eapply wp_mono; [by eapply wp_grow_alloc|]. intros [err p] s2 Hp.
  destruct (Z.eqb_spec err SUCCESS) as [->|Hne].
  2: { apply wp_ret, (proj2 HQ); [done|]. eapply (failed_alloc _ _ _ _ (err, p)); [exact Hp | constructor | done]. }
  destruct Hp as [(_ & Hg2 & _)|[(? & _)|[(? & _)|(? & _)]]]; [|done..]. simpl in Hg2.
  destruct (fresh_in _ _ _ _ p Hg2 ltac:(by left)) as [Hpd Hpf]. cbn [negb].
  apply wp_bind. eapply wp_new_block; [exact Hg2|]. intros dd s3 Hg3 _ Hdd. apply wp_bind.
  assert (Hfound : double_found p (fun '(err, double_ptr_data, double_ptr_block, node) => wp
    (if negb (err =? SUCCESS) then mret (err, Some data, 0, node) else
     double_ptr_data ← put_entry double_ptr_data q2 p;
     err ← write_from double_ptr_data double_ptr_block;
     if negb (err =? SUCCESS) then fault else mret (SUCCESS, Some data, p, node)) Q)).
  { split.
    - intros F W dat c b' s4 Hg4 HpF HW Hc Hcp HcB Hl Hgrown. cbn [negb Z.eqb SUCCESS].
      apply wp_bind, (wp_put_entry s); [done | done | done|]. intros Hpl.
      apply wp_bind. eapply (wp_write_from s F W); [done | exact Hg4 | done | done | | done].
      intros s5 Hg5 Ho5 Hb5. cbn [negb Z.eqb SUCCESS]. apply wp_ret.
      apply (proj1 HQ F (c :: W)); [done | by constructor | done | auto | done|]. intros s6 Hg6 Ho6 He6. apply Hgrown.
      + done.
      + intros m Hmp Hmc. by rewrite Ho6, Ho5.
      + intros j Hj. replace (entry (fs_block s6) c j) with (entry (fs_block s5) c j) by (unfold entry; by rewrite Ho6).
        eapply (entry_put s); [done | exact Hb5 | done | done | by apply (in_data_u32 s) | done].
      + rewrite He6, decide_True by lia. done.
    - intros err buf c node' s4 Hne Hf. rewrite (proj2 (Z.eqb_neq _ _) Hne). by apply wp_ret, (proj2 HQ). }
  destruct (decide (i = 0)); [by apply (wp_triple_new_double p) | by apply (wp_triple_old_double p)].
Qed.

Lemma wp_allocate_triple s1 (Q : Z * inode_st -> fs_state D -> Prop) :
  ~ flaky (lay s) -> growing s [new] [] s1 -> nblocks node < 2 ^ 32 -> t = nblocks node - 12 - np s - np s ^ 2 ->
  (forall b' s2, tree_grown s 3 b t new b' s2 -> Q (SUCCESS, set_block_at 14 b' node) s2) ->
  (forall err node' s2, err <> SUCCESS -> alloc_failed s B err s2 -> Q (err, node') s2) ->
  wp (allocate_triple junk new node) Q s1.
Proof.
  intros Hfl Hg Hn32 Et HQ Hbad. destruct (nptr_eq s Hok) as (_ & HN & _).
  destruct triple_indices as (Hi & Hq3 & Hq2 & Hrn & Et3 & Ei & _).
  destruct (fresh_in _ _ _ _ new Hg ltac:(by left)) as [Hnd Hnf]. pose proof (in_data_u32 s new Hok Hnd) as Hnew.
  pose proof Hg as [_ El1 _ _ _ _]. unfold allocate_triple. apply wp_bind, wp_fetch. rewrite El1, (double_eq s Hok).
  rewrite (to_u32_small (nblocks node - 12 - np s - np s ^ 2)), <- Et by nia.
  rewrite (to_u32_small (t mod _)), (to_u32_small (t / _)) by (fold i q3; nia). fold i q3.
  rewrite (to_u32_small (i mod _)), (to_u32_small (i / _)) by (fold q2; nia). fold q2.
  apply wp_bind. eapply wp_new_block; [exact Hg|]. intros data s2 Hg2 _ Hdata. apply wp_bind.
  assert (Hfound : single_found 3 b t (i mod np s) new node 14 (fun '(err, ptr_data, single_ptr_block, node) => wp
    (if negb (err =? SUCCESS) then mret (err, node) else
     ptr_data ← put_entry ptr_data (i mod np s) new;
     err ← write_from ptr_data single_ptr_block;
     mret (err, node)) Q)).
  { split.
    - intros F W dat p b' s3 Hg3 HW Hp HpB Hl Hgrown. cbn [negb Z.eqb SUCCESS]. eapply (wp_put_leaf F W); try done; auto.
    - intros err buf p node' s3 Hne Hf. rewrite (proj2 (Z.eqb_neq _ _) Hne). by apply wp_ret, Hbad. }
  destruct (Z.eqb_spec (i mod np s) 0) as [Er|Hr0].
  - rewrite Er in Hfound |- *. by apply wp_triple_new_single.
  - apply wp_triple_old_single; [done | lia | exact Hfound].
Qed.

End triple.

End grow.

(** ** Files

    The blocks of a file in order, and its indirect blocks. *)

(** The first block of the tree of depth [d], which hangs off
    [inode->blocks[11 + d]]. *)
Definition tree_base (N : Z) (d : nat) : Z := match d with 1%nat => 12 | 2%nat => 12 + N | _ => 12 + N + N ^ 2 end.
Definition tree_root (node : inode_st) (d : nat) : Z := slot node (11 + Z.of_nat d).

Definition file_block s (node : inode_st) (i : Z) : Z :=
  let N := np s in
  let leaf d := walk N (fs_block s) d (tree_root node d) (i - tree_base N d) in
  if (i <? 12) || (nblocks node <=? 15) then slot node i
  else if i <? tree_base N 2 then leaf 1%nat
  else if i <? tree_base N 3 then leaf 2%nat
  else leaf 3%nat.

Definition file_blocks s (node : inode_st) : list Z := map (file_block s node) (seqZ 0 (nblocks node)).

(** The number of leaves of the tree of depth [d]. *)
Definition tree_count (N n : Z) (d : nat) : Z := Z.min (N ^ Z.of_nat d) (n - tree_base N d).

Definition tree_ptrs s (node : inode_st) (d : nat) : list Z :=
  ptrs (np s) (fs_block s) d (tree_root node d) (tree_count (np s) (nblocks node) d).

Definition file_ptrs s (node : inode_st) : list Z :=
  if nblocks node <=? 15 then [] else tree_ptrs s node 1 ++ tree_ptrs s node 2 ++ tree_ptrs s node 3.

Record file_ok s (node : inode_st) : Prop := {
  fo_length : length (blocks node) = 15%nat;
  fo_count : 0 <= nblocks node < 2 ^ 32;
  fo_max : nblocks node <= 12 + np s + np s ^ 2 + np s ^ 3;
  fo_nodup : NoDup (file_ptrs s node ++ file_blocks s node);
  fo_used : Forall (fun b => in_data s b /\ block_bit s b = true) (file_ptrs s node ++ file_blocks s node)
}.

(** [node'] is [node] with the block [new] at its end. *)
Record appended s (node : inode_st) (new : Z) s' (node' : inode_st) : Prop := {
  ap_ok : file_ok s' node';
  ap_attr : metadata node' = metadata (with_i_blocks (nblocks node + 1) node);
  ap_blocks : file_blocks s' node' = file_blocks s node ++ [new];
  ap_free : in_data s new /\ block_bit s new = false;
  ap_fs : fs_ok s' /\ lay s' = lay s;
  ap_bits : forall j, 0 <= j < total_fs_blocks (lay s) ->
    block_bit s' j = block_bit s j || bool_decide (j = new \/ j ∈ file_ptrs s' node');
  ap_others : forall m, outside_bitmap s m -> m ∉ file_ptrs s' node' -> fs_block s' m = fs_block s m
}.

Lemma tree_leaf s node d i :
  fs_ok s -> (1 <= d <= 3)%nat -> 15 < nblocks node ->
  0 <= i - tree_base (np s) d < np s ^ Z.of_nat d ->
  file_block s node i = walk (np s) (fs_block s) d (tree_root node d) (i - tree_base (np s) d).
Proof.
  intros Hok Hd Hn Hi. destruct (nptr_eq s Hok) as (_ & HN & _). unfold file_block.
  rewrite (proj2 (Z.leb_gt (nblocks node) 15)), orb_false_r by lia.
  assert (d = 1 \/ d = 2 \/ d = 3)%nat as [-> |[-> | ->]] by lia; cbn [tree_base] in *;
    change (Z.of_nat 1) with 1 in *; change (Z.of_nat 2) with 2 in *; change (Z.of_nat 3) with 3 in *;
    repeat match goal with |- context [?x <? ?y] => destruct (Z.ltb_spec x y); try nia end; done.
Qed.

Lemma leaf_tree s i :
  fs_ok s -> 12 <= i < 12 + np s + np s ^ 2 + np s ^ 3 ->
  exists d, (1 <= d <= 3)%nat /\ 0 <= i - tree_base (np s) d < np s ^ Z.of_nat d.
Proof.
  intros Hok Hi. destruct (nptr_eq s Hok) as (_ & HN & _).
  destruct (decide (i < 12 + np s)); [exists 1%nat; cbn [tree_base]; change (Z.of_nat 1) with 1; rewrite Z.pow_1_r; lia|].
  destruct (decide (i < 12 + np s + np s ^ 2)); [exists 2%nat | exists 3%nat]; cbn [tree_base];
    [change (Z.of_nat 2) with 2 | change (Z.of_nat 3) with 3]; lia.
Qed.

(** The file has grown, by whatever way. *)
Lemma file_appended s node new s' node' A W :
  file_ok s node -> growing s (A ++ [new]) W s' -> length (blocks node') = 15%nat ->
  metadata node' = metadata (with_i_blocks (nblocks node + 1) node) ->
  nblocks node + 1 < 2 ^ 32 -> nblocks node < 12 + np s + np s ^ 2 + np s ^ 3 ->
  file_ptrs s' node' ≡ₚ file_ptrs s node ++ A -> file_blocks s' node' = file_blocks s node ++ [new] ->
  W ⊆ file_ptrs s' node' -> appended s node new s' node'.
Proof.
  intros Hf Hg Hlen Hm Hn32 Hmax Hp Hb HW. destruct Hf as [_ Hc _ Hnd Hu]. pose proof Hg as [Hok' El Hbits Hnd' Hfr Hbl].
  assert (En : nblocks node' = nblocks node + 1) by (unfold nblocks; rewrite Hm; done).
  assert (Hperm : file_ptrs s' node' ++ file_blocks s' node' ≡ₚ (file_ptrs s node ++ file_blocks s node) ++ (A ++ [new])).
  { rewrite Hp, Hb. solve_Permutation. }
  assert (Hold : forall j, j ∈ file_ptrs s node -> block_bit s j = true /\ in_data s j).
  { intros j Hj. rewrite Forall_forall in Hu. destruct (Hu j); [apply elem_of_app; by left | done]. }
  constructor; try done.
  - constructor; [done | lia | rewrite El; lia | |].
    + rewrite Hperm. apply NoDup_app. split_and!; [done | | done]. intros j Hj Hj'.
      rewrite Forall_forall in Hu, Hfr. destruct (Hu j Hj) as [_ Ht], (Hfr j Hj') as [_ Hff]. congruence.
    + rewrite Hperm. unfold in_data. rewrite El. apply Forall_app. split.
      * eapply Forall_impl; [exact Hu|]. intros j [Hj Hj']. split; [done|]. destruct (ok_regions _ Hok'). rewrite El in *.
        unfold in_data in Hj. rewrite Hbits, Hj' by lia. done.
      * apply Forall_forall. intros j Hj. rewrite Forall_forall in Hfr. destruct (Hfr j Hj) as [Hjd _]. split; [done|].
        destruct (ok_regions _ Hok'). rewrite El in *. unfold in_data in Hjd.
        rewrite Hbits, bool_decide_eq_true_2, orb_true_r by (done || lia). done.
  - by apply (fresh_in _ _ _ _ new Hg), elem_of_app; right; left.
  - intros j Hj. rewrite Hbits by done. destruct (block_bit s j) eqn:Ej; [done|]. simpl. apply bool_decide_ext.
    rewrite Hp, !elem_of_app, elem_of_cons, elem_of_nil. split; [tauto|]. intros [?|[Hin|?]]; [auto | | auto].
    destruct (Hold j Hin). congruence.
  - intros m Hout Hn. apply Hbl; [done|]. by intros ?%HW.
Qed.

(** A tree none of whose indirect blocks has changed. *)
Lemma tree_same s s' (d : nat) b n :
  lay s' = lay s -> 0 <= n -> (forall p, p ∈ ptrs (np s) (fs_block s) d b n -> fs_block s' p = fs_block s p) ->
  fs_ok s -> ptrs (np s') (fs_block s') d b n = ptrs (np s) (fs_block s) d b n /\
  forall i, 0 <= i < n -> walk (np s') (fs_block s') d b i = walk (np s) (fs_block s) d b i.
Proof.
  intros El Hn Hp Hok. destruct (nptr_eq s Hok) as (_ & HN & _). rewrite El.
  destruct (tree_frame (np s) ltac:(lia) (fs_block s) (fs_block s') d b n) as [Hu Hw]; [done | |].
  - intros p c j Hin _. unfold entry. rewrite Hp; [done|]. apply list_elem_of_fmap. by exists (p, c).
  - split; [unfold ptrs; by rewrite Hu | done].
Qed.

Lemma file_blocks_succ s node n : 0 <= n -> nblocks node = n + 1 ->
  file_blocks s node = map (file_block s node) (seqZ 0 n) ++ [file_block s node n].
Proof. intros Hn En. unfold file_blocks. by rewrite En, seqZ_app, map_app, (seqZ_cons _ 1), (seqZ_nil _ (Z.pred 1)) by lia. Qed.

Lemma file_blocks_grown s node s' node' new :
  0 <= nblocks node -> nblocks node' = nblocks node + 1 ->
  (forall i, 0 <= i < nblocks node -> file_block s' node' i = file_block s node i) ->
  file_block s' node' (nblocks node) = new -> file_blocks s' node' = file_blocks s node ++ [new].
Proof.
  intros Hn En Hi Hnew. rewrite (file_blocks_succ s' node' (nblocks node)) by done. rewrite Hnew. f_equal.
  apply list_fmap_ext. intros k i Hk. apply Hi. apply list_elem_of_lookup_2, elem_of_seqZ in Hk. lia.
Qed.

(** The direct blocks. *)
Lemma append_direct s node new s' :
  fs_ok s -> file_ok s node -> nblocks node < 15 -> growing s [new] [] s' ->
  appended s node new s' (with_i_blocks (nblocks node + 1) (set_block_at (nblocks node) new node)).
Proof.
  intros Hok Hf Hn Hg. pose proof Hf as [Hlen Hc _ _ _]. destruct (nptr_eq s Hok) as (_ & HN & _).
  set (node' := with_i_blocks _ _). assert (En : nblocks node' = nblocks node + 1) by done.
  apply (file_appended s node new s' node' [] []); try done.
  - rewrite <- Hlen. apply length_insert.
  - lia.
  - nia.
  - unfold file_ptrs. rewrite En, (proj2 (Z.leb_le (nblocks node + 1) 15)), (proj2 (Z.leb_le (nblocks node) 15)) by lia. done.
  - assert (Hi : forall s0 node0 i, nblocks node0 <= 15 -> file_block s0 node0 i = slot node0 i).
    { intros s0 node0 i Hi. unfold file_block. by rewrite (proj2 (Z.leb_le _ 15) Hi), orb_true_r. }
    apply file_blocks_grown; [lia | done | |].
    + intros i Hi'. rewrite !Hi by lia. apply slot_set_ne; lia.
    + rewrite Hi by lia. apply slot_set_eq; [done | lia].
  - intros m []%not_elem_of_nil.
Qed.

(** The sixteenth block. *)
Lemma append_sixteenth s node new p s' :
  fs_ok s -> file_ok s node -> nblocks node = 15 -> growing s [p; new] [p] s' ->
  (forall j, 0 <= j < 3 -> entry (fs_block s') p j = slot node (12 + j)) -> entry (fs_block s') p 3 = new ->
  appended s node new s' (with_i_blocks (nblocks node + 1) (set_block_at 12 p node)).
Proof.
  intros Hok Hf Hn Hg He Hnew. pose proof Hf as [Hlen Hc _ _ _]. destruct (nptr_eq s Hok) as (_ & HN & _).
  pose proof Hg as [Hok' El _ _ _ _]. set (node' := with_i_blocks _ _).
  assert (En : nblocks node' = 16) by (change (nblocks node + 1 = 16); lia).
  assert (Er : tree_root node' 1 = p) by (apply slot_set_eq; [done | lia]).
  assert (Hpt : file_ptrs s' node' = [p]).
  { unfold file_ptrs. rewrite En. cbn [Z.leb Z.compare Pos.compare Pos.compare_cont]. unfold tree_ptrs, tree_count. rewrite El, En.
    cbn [tree_base]. change (Z.of_nat 1) with 1. rewrite Er, Z.pow_1_r, Z.min_r, ptrs_1 by lia. unfold ptrs.
    rewrite !uses_none by nia. done. }
  apply (file_appended s node new s' node' [p] [p]); try done;
    [rewrite <- Hlen; apply length_insert | lia | nia | | | by rewrite Hpt].
  - rewrite Hpt. unfold file_ptrs. by rewrite Hn.
  - assert (Hleaf : forall i, 12 <= i < 16 -> file_block s' node' i = entry (fs_block s') p (i - 12)).
    { intros i Hi. rewrite (tree_leaf s' node' 1); [|done | lia | lia|]; cbn [tree_base]; rewrite El; change (Z.of_nat 1) with 1;
        rewrite ?Z.pow_1_r; [by rewrite walk_1, Er | lia]. }
    apply file_blocks_grown; [lia | by rewrite En, Hn | |rewrite Hn, Hleaf by lia; done].
    intros i Hi. assert (Eo : file_block s node i = slot node i) by (unfold file_block; rewrite Hn, orb_true_r; done). rewrite Eo.
    destruct (decide (i < 12)).
    + unfold file_block. rewrite (proj2 (Z.ltb_lt i 12)) by done. simpl. apply slot_set_ne; lia.
    + rewrite Hleaf, He by lia. f_equal. lia.
Qed.

(** The trees. *)
Section append_tree.
Context s (node : inode_st) (d : nat) (new b' : Z) s' (W : list Z).
Context (Hok : fs_ok s) (Hf : file_ok s node) (Hn : 15 < nblocks node) (Hd : (1 <= d <= 3)%nat).
Let t := nblocks node - tree_base (np s) d.
Context (Ht : 0 <= t < np s ^ Z.of_nat d).
Let A := added (np s) (fs_block s') d b' t.
Context (Hroot : t <> 0 -> b' = tree_root node d).
Context (Hagree : agree (fs_block s) (fs_block s') (uses (np s) (fs_block s) d (tree_root node d) t)).
Context (Hwalk : walk (np s) (fs_block s') d b' t = new).
Context (Hg : growing s (A ++ [new]) W s').
Context (HW : W ⊆ ptrs (np s) (fs_block s) d (tree_root node d) t ++ A).
Let node' := with_i_blocks (nblocks node + 1) (set_block_at (11 + Z.of_nat d) b' node).

Lemma count_here : tree_count (np s) (nblocks node) d = t /\ tree_count (np s) (nblocks node + 1) d = t + 1.
Proof. unfold tree_count, t in *. lia. Qed.

Lemma count_other d' :
  (1 <= d' <= 3)%nat -> d' <> d ->
  tree_count (np s) (nblocks node + 1) d' = tree_count (np s) (nblocks node) d' \/
  (tree_count (np s) (nblocks node + 1) d' <= 0 /\ tree_count (np s) (nblocks node) d' <= 0).
Proof.
  intros Hd' Hne. destruct (nptr_eq s Hok) as (_ & HN & _). unfold tree_count, t in *.
  assert (d = 1 \/ d = 2 \/ d = 3)%nat as [E |[E | E]] by lia; rewrite E in *;
    assert (d' = 1 \/ d' = 2 \/ d' = 3)%nat as [-> |[-> | ->]] by lia; try done; cbn [tree_base] in *;
    change (Z.of_nat 1) with 1 in *; change (Z.of_nat 2) with 2 in *; change (Z.of_nat 3) with 3 in *; rewrite ?Z.pow_1_r in *;
    (left; nia) || (right; nia).
Qed.

Lemma root_same d' : (1 <= d' <= 3)%nat -> d' <> d -> tree_root node' d' = tree_root node d'.
Proof. intros Hd' Hne. apply slot_set_ne; lia. Qed.

Lemma root_here : tree_root node' d = b'.
Proof. apply slot_set_eq; [apply Hf | lia]. Qed.

(** Indirect blocks of the other trees have not been written. *)
Lemma other_untouched d' p :
  (1 <= d' <= 3)%nat -> d' <> d -> p ∈ tree_ptrs s node d' -> fs_block s' p = fs_block s p.
Proof.
  intros Hd' Hne Hp. pose proof Hf as [_ _ _ Hnd Hu].
  assert (Efp : file_ptrs s node = tree_ptrs s node 1 ++ tree_ptrs s node 2 ++ tree_ptrs s node 3).
  { unfold file_ptrs. by rewrite (proj2 (Z.leb_gt (nblocks node) 15)) by lia. }
  apply NoDup_app in Hnd as (Hnd & _ & _). apply Forall_app in Hu as [Hu _]. rewrite Efp in Hnd, Hu.
  assert (Hpu : in_data s p /\ block_bit s p = true).
  { apply (proj1 (Forall_forall _ _) Hu). rewrite !elem_of_app. assert (d' = 1 \/ d' = 2 \/ d' = 3)%nat as [-> |[-> | ->]] by lia; auto. }
  destruct Hpu as [Hpd Hpb]. eapply (used_untouched s Hok _ W _ (tree_ptrs s node d)); [exact Hg | | done | done |].
  - intros x [Hx|Hx]%HW%elem_of_app; apply elem_of_app; [left | right; apply elem_of_app; by left].
    unfold tree_ptrs. by rewrite (proj1 count_here).
  - intros Hp'. apply NoDup_app in Hnd as (_ & H1 & Hnd). apply NoDup_app in Hnd as (_ & H2 & _).
    assert (d = 1 \/ d = 2 \/ d = 3)%nat as [E |[E | E]] by lia; rewrite E in *;
      assert (d' = 1 \/ d' = 2 \/ d' = 3)%nat as [E' |[E' | E']] by lia; rewrite E' in *; try done;
      first [ by apply (H1 p); [|apply elem_of_app; auto] | by apply (H2 p) ].
Qed.

Lemma other_same d' :
  (1 <= d' <= 3)%nat -> d' <> d -> tree_ptrs s' node' d' = tree_ptrs s node d' /\
  forall i, 0 <= i < tree_count (np s) (nblocks node) d' ->
    walk (np s') (fs_block s') d' (tree_root node' d') i = walk (np s) (fs_block s) d' (tree_root node d') i.
Proof.
  intros Hd' Hne. pose proof (gr_lay _ _ _ _ Hg) as El. unfold tree_ptrs at 1. rewrite root_same by done.
  change (nblocks node') with (nblocks node + 1). rewrite El.
  destruct (decide (0 < tree_count (np s) (nblocks node) d')).
  - destruct (count_other d' Hd' Hne) as [->|?]; [|lia].
    destruct (tree_same s s' d' (tree_root node d') (tree_count (np s) (nblocks node) d')) as [Hp Hw];
      [done | lia | intros p Hp; by apply (other_untouched d') | done|].
    rewrite El in Hp, Hw. done.
  - split; [|lia]. unfold tree_ptrs, ptrs. destruct (count_other d' Hd' Hne); by rewrite !uses_none by lia.
Qed.

Lemma here_same :
  tree_ptrs s' node' d = tree_ptrs s node d ++ A /\
  forall i, 0 <= i < t -> walk (np s') (fs_block s') d (tree_root node' d) i = walk (np s) (fs_block s) d (tree_root node d) i.
Proof.
  pose proof (gr_lay _ _ _ _ Hg) as El. destruct (nptr_eq s Hok) as (_ & HN & _). destruct count_here as [E0 E1].
  unfold tree_ptrs. rewrite root_here, El. change (nblocks node') with (nblocks node + 1). rewrite E0, E1.
  rewrite (ptrs_succ (np s)) by (done || lia). fold A.
  destruct (decide (t = 0)) as [Et|Ht0]; [split; [unfold ptrs; by rewrite !uses_none by lia | lia]|]. rewrite (Hroot Ht0).
  destruct (tree_frame (np s) ltac:(lia) (fs_block s) (fs_block s') d (tree_root node d) t) as [Hu Hw]; [lia | done|].
  split; [unfold ptrs; by rewrite Hu | done].
Qed.

Lemma append_tree : nblocks node + 1 < 2 ^ 32 -> nblocks node < 12 + np s + np s ^ 2 + np s ^ 3 -> appended s node new s' node'.
Proof.
  intros Hn32 Hmax. pose proof (gr_lay _ _ _ _ Hg) as El. pose proof (gr_ok _ _ _ _ Hg) as Hok'.
  destruct here_same as [Hp Hw]. destruct (nptr_eq s Hok) as (_ & HN & _).
  assert (Hpt : file_ptrs s' node' ≡ₚ file_ptrs s node ++ A).
  { unfold file_ptrs. change (nblocks node') with (nblocks node + 1).
    rewrite !(proj2 (Z.leb_gt _ 15)) by lia.
    assert (d = 1 \/ d = 2 \/ d = 3)%nat as [E |[E | E]] by lia; rewrite E in Hp;
      rewrite Hp, ?(proj1 (other_same 1 ltac:(lia) ltac:(lia))), ?(proj1 (other_same 2 ltac:(lia) ltac:(lia))),
        ?(proj1 (other_same 3 ltac:(lia) ltac:(lia))); solve_Permutation. }
  apply (file_appended s node new s' node' A W); try done.
  - rewrite <- (fo_length _ _ Hf). apply length_insert.
  - apply file_blocks_grown; [lia | done | |].
    + intros i Hi. destruct (decide (i < 12)).
      { unfold file_block. rewrite (proj2 (Z.ltb_lt i 12)) by done. simpl. apply slot_set_ne; lia. }
      destruct (leaf_tree s i Hok) as (d' & Hd' & Hi'); [lia|].
      rewrite (tree_leaf s' node' d'), (tree_leaf s node d'); rewrite ?El; try done; [|change (15 < nblocks node + 1); lia].
      destruct (decide (d' = d)) as [->|Hne]; [rewrite El in Hw; apply Hw; unfold t; lia|].
      pose proof (proj2 (other_same d' Hd' Hne)) as Hw'. rewrite El in Hw'. apply Hw'. unfold tree_count. lia.
    + rewrite (tree_leaf s' node' d); rewrite ?El; fold t; [by rewrite root_here | done | done | change (15 < nblocks node + 1); lia | done].
  - intros m Hm%HW. rewrite Hpt. apply elem_of_app in Hm as [Hm|Hm]; apply elem_of_app; [left | by right].
    assert (Hm' : m ∈ tree_ptrs s node d) by (unfold tree_ptrs; by rewrite (proj1 count_here)).
    unfold file_ptrs. rewrite (proj2 (Z.leb_gt _ 15)) by lia. rewrite !elem_of_app.
    assert (d = 1 \/ d = 2 \/ d = 3)%nat as [E |[E | E]] by lia; rewrite E in *; auto.
Qed.

End append_tree.

(** *** The whole operation *)

(** A file cannot have so many blocks that the 32-bit count wraps. *)
Lemma count_room s node new W s' :
  fs_ok s -> file_ok s node -> growing s [new] W s' -> nblocks node + 1 < 2 ^ 32.
Proof.
  intros Hok Hf Hg. pose proof Hf as [_ Hc _ Hnd Hu]. apply NoDup_app in Hnd as (_ & _ & Hnd). apply Forall_app in Hu as [_ Hu].
  destruct (fresh_in _ _ _ _ new Hg ltac:(by left)) as [Hd Hfr]. destruct (ok_regions _ Hok).
  pose proof (data_length (total_fs_blocks (lay s)) (new :: file_blocks s node)) as Hl.
  assert (Z.of_nat (length (file_blocks s node)) = nblocks node).
  { unfold file_blocks. rewrite length_map, length_seqZ. lia. }
  simpl length in Hl. assert (Hlim : Z.of_nat (S (length (file_blocks s node))) <= Z.max 0 (total_fs_blocks (lay s))); [|lia].
  unfold in_data in Hd. apply Hl; [apply NoDup_cons; split; [|done] | constructor; [lia|]].
  - intros Hin. rewrite Forall_forall in Hu. destruct (Hu new Hin). congruence.
  - eapply Forall_impl; [exact Hu|]. unfold in_data. intros b [? _]. lia.
Qed.

Lemma tree_of_file s node d :
  file_ok s node -> 15 < nblocks node -> (1 <= d <= 3)%nat ->
  let t := nblocks node - tree_base (np s) d in t <= np s ^ Z.of_nat d ->
  tree_ok s d (tree_root node d) t /\ ptrs (np s) (fs_block s) d (tree_root node d) t ⊆ file_ptrs s node.
Proof.
  intros [_ _ _ Hnd Hu] Hn Hd t Ht. apply NoDup_app in Hnd as (Hnd & _ & _). apply Forall_app in Hu as [Hu _].
  assert (Et : tree_ptrs s node d = ptrs (np s) (fs_block s) d (tree_root node d) t).
  { unfold tree_ptrs, tree_count. by rewrite Z.min_r. }
  assert (Hsub : tree_ptrs s node d `sublist_of` file_ptrs s node).
  { unfold file_ptrs. rewrite (proj2 (Z.leb_gt _ 15)) by lia.
    assert (d = 1 \/ d = 2 \/ d = 3)%nat as [-> |[-> | ->]] by lia.
    - apply sublist_inserts_r. reflexivity.
    - apply sublist_inserts_l, sublist_inserts_r. reflexivity.
    - apply sublist_inserts_l, sublist_inserts_l. reflexivity. }
  rewrite Et in Hsub. assert (Hin : ptrs (np s) (fs_block s) d (tree_root node d) t ⊆ file_ptrs s node).
  { intros x Hx. eapply elem_of_submseteq; [exact Hx|]. by apply sublist_submseteq. }
  split; [constructor | done].
  - by eapply sublist_NoDup.
  - rewrite Forall_forall in *. auto.
Qed.

Lemma append_grown s node d new b' s' :
  fs_ok s -> file_ok s node -> 15 < nblocks node -> (1 <= d <= 3)%nat -> nblocks node + 1 < 2 ^ 32 ->
  nblocks node < 12 + np s + np s ^ 2 + np s ^ 3 ->
  0 <= nblocks node - tree_base (np s) d < np s ^ Z.of_nat d ->
  tree_grown s d (tree_root node d) (nblocks node - tree_base (np s) d) new b' s' ->
  appended s node new s' (with_i_blocks (nblocks node + 1) (set_block_at (11 + Z.of_nat d) b' node)).
Proof. intros Hok Hf Hn Hd Hn32 Hmax Ht [Hr Ha Hw (W & Hg & HW)]. by eapply append_tree. Qed.

Definition max_blocks s : Z := 12 + np s + np s ^ 2 + np s ^ 3.

Definition allocate_block_post s (node : inode_st) (r : Z * option Z * inode_st) s' : Prop :=
  match r with
  | (err, Some new, node') => err = SUCCESS /\ appended s node new s' node'
  | (err, None, node') => err <> SUCCESS /\
      ((err = INODE_FULL /\ nblocks node = max_blocks s /\ node' = node /\ s' = s) \/
       (nblocks node < max_blocks s /\ alloc_failed s (file_ptrs s node) err s'))
  end.

Definition placed s (node : inode_st) (new : Z) (r : Z * inode_st) s' : Prop :=
  if fst r =? SUCCESS
  then nblocks (snd r) = nblocks node /\ appended s node new s' (with_i_blocks (nblocks node + 1) (snd r))
  else alloc_failed s (file_ptrs s node) (fst r) s'.

Lemma placed_failed s node new err node' s' :
  err <> SUCCESS -> alloc_failed s (file_ptrs s node) err s' -> placed s node new (err, node') s'.
Proof. intros Hne Hf. unfold placed. simpl. by rewrite (proj2 (Z.eqb_neq _ _) Hne). Qed.

(** Blocks 15 to [12 + N - 1], under the single indirect block. *)
Lemma wp_place_single s node new s1 :
  fs_ok s -> covered (lay s) -> meta_used s -> file_ok s node -> growing s [new] [] s1 -> nblocks node + 1 < 2 ^ 32 ->
  15 <= nblocks node < 12 + np s -> wp (allocate_single junk new node) (placed s node new) s1.
Proof.
  intros Hok Hcov Hmeta Hf Hg Hn32 Hn. pose proof Hf as [Hlen _ _ _ Hu]. destruct (nptr_eq s Hok) as (_ & HN & _).
  destruct (decide (nblocks node = 15)) as [E15|Hn15].
  - eapply wp_allocate_sixteenth; try done; [| |intros; by apply placed_failed].
    + intros k Hk. rewrite Forall_forall in Hu. apply (in_data_u32 s); [done|]. apply Hu, elem_of_app. right.
      apply list_elem_of_fmap. exists k. split; [|apply elem_of_seqZ; lia]. unfold file_block.
      by rewrite (proj2 (Z.leb_le _ 15)), orb_true_r by lia.
    + intros p s2 Hg2 He Hnew. split; [done|]. by apply append_sixteenth.
  - destruct (tree_of_file s node 1 Hf ltac:(lia) ltac:(lia)) as [Htr HB]; [cbn [tree_base]; change (Z.of_nat 1) with 1; lia|].
    eapply wp_allocate_single; try done; [lia | |intros; by apply placed_failed]. intros s2 Htg. split; [done|].
    pose proof (append_grown s node 1 new (slot node 12) s2 Hok Hf) as Ha. change (11 + Z.of_nat 1) with 12 in Ha.
    rewrite (set_block_same node 12) in Ha by (done || lia). simpl snd.
    apply Ha; try done; try nia. cbn [tree_base]. change (Z.of_nat 1) with 1. lia.
Qed.

Lemma wp_place_double s node new s1 :
  fs_ok s -> covered (lay s) -> meta_used s -> file_ok s node -> growing s [new] [] s1 -> nblocks node + 1 < 2 ^ 32 ->
  12 + np s <= nblocks node < 12 + np s + np s ^ 2 -> wp (allocate_double junk new node) (placed s node new) s1.
Proof.
  intros Hok Hcov Hmeta Hf Hg Hn32 Hn. pose proof Hf as [Hlen _ _ _ Hu]. destruct (nptr_eq s Hok) as (_ & HN & _).
  destruct (tree_of_file s node 2 Hf ltac:(lia) ltac:(lia)) as [Htr HB]; [cbn [tree_base]; change (Z.of_nat 2) with 2; lia|].
  cbn [tree_base] in *. replace (nblocks node - (12 + np s)) with (nblocks node - 12 - np s) in * by lia.
  eapply wp_allocate_double; try done; [lia | lia | |intros; by apply placed_failed]. intros b' s2 Htg. split; [done|].
  eapply (append_grown s node 2); try done; try nia; cbn [tree_base]; [change (Z.of_nat 2) with 2; lia|].
  by replace (nblocks node - (12 + np s)) with (nblocks node - 12 - np s) by lia.
Qed.

Lemma wp_place_triple s node new s1 :
  fs_ok s -> covered (lay s) -> meta_used s -> file_ok s node -> growing s [new] [] s1 -> nblocks node + 1 < 2 ^ 32 ->
  12 + np s + np s ^ 2 <= nblocks node < max_blocks s -> ~ flaky (lay s) ->
  wp (allocate_triple junk new node) (placed s node new) s1.
Proof.
  intros Hok Hcov Hmeta Hf Hg Hn32 Hn Hfl. pose proof Hf as [Hlen _ _ _ Hu]. destruct (nptr_eq s Hok) as (_ & HN & _).
  unfold max_blocks in Hn.
  destruct (tree_of_file s node 3 Hf ltac:(lia) ltac:(lia)) as [Htr HB]; [cbn [tree_base]; change (Z.of_nat 3) with 3; lia|].
  eapply wp_allocate_triple; try done; [cbn [tree_base]; lia | lia | cbn [tree_base]; lia | |intros; by apply placed_failed].
  intros b' s2 Htg. split; [done|].
  eapply (append_grown s node 3); try done; try lia. cbn [tree_base]. change (Z.of_nat 3) with 3. lia.
Qed.

Lemma wp_allocate_block_for_file_inode s node :
  fs_ok s -> covered (lay s) -> meta_used s -> file_ok s node -> (nblocks node < 12 + np s + np s ^ 2 \/ ~ flaky (lay s)) ->
  wp (allocate_block_for_file_inode junk node) (allocate_block_post s node) s.
Proof.
  intros Hok Hcov Hmeta Hf Hfl. pose proof Hf as [Hlen Hc Hmax _ Hu]. destruct (nptr_eq s Hok) as (_ & HN & _).
  assert (HN3 : np s ^ 3 <= (2 ^ 18) ^ 3) by (apply Z.pow_le_mono_l; lia).
  assert (HN2 : np s ^ 2 <= (2 ^ 18) ^ 2) by (apply Z.pow_le_mono_l; lia).
  unfold allocate_block_for_file_inode. apply wp_bind, wp_fetch. rewrite (double_eq s Hok), (triple_eq s Hok).
  unfold to_u64. rewrite !wrap_small by lia.
  destruct (Z.eqb_spec (nblocks node) (12 + np s + np s ^ 2 + np s ^ 3)) as [E|Hroom]; [apply wp_ret; simpl; by split; [|left]|].
  assert (Hmx : nblocks node < max_blocks s) by (unfold max_blocks; lia).
  apply wp_bind. eapply wp_mono; [apply (wp_grow_alloc s [] [] s Hmeta), growing_refl; done|]. intros [err new] s1 Hp.
  destruct (Z.eqb_spec err SUCCESS) as [->|Hne].
  2: { apply wp_ret. split; [done|]. right. split; [done|]. by eapply (failed_alloc _ _ _ _ (err, new)); [exact Hp | constructor |]. }
  destruct Hp as [(_ & Hg & _)|[(? & _)|[(? & _)|(? & _)]]]; [|done..]. simpl in Hg. cbn [negb Z.eqb].
  pose proof (count_room _ _ _ _ _ Hok Hf Hg) as Hn32. apply wp_bind. eapply wp_mono; [instantiate (1 := placed s node new)|].
  - destruct (Z.ltb_spec (nblocks node) 15); [apply wp_ret; split; [done|]; by apply append_direct|].
    destruct (Z.ltb_spec (nblocks node) (12 + np s)); [by apply wp_place_single|].
    destruct (Z.ltb_spec (nblocks node) (12 + np s + np s ^ 2)); [by apply wp_place_double|].
    apply wp_place_triple; try done. destruct Hfl; [lia | done].
  - intros [e node'] s2 Hpl. unfold placed in Hpl. simpl in Hpl. destruct (Z.eqb_spec e SUCCESS) as [->|Hne].
    + destruct Hpl as [En Ha]. apply wp_ret. split; [done|]. by rewrite En, to_u32_small by lia.
    + apply wp_ret. split; [done|]. by right.
Qed.

(** *** Looking a block up *)

(** Looking an entry up is loading the block and then indexing it. *)
Lemma lookup_loads s s1 b i :
  fs_ok s -> ~ flaky (lay s) -> kept s s1 -> 0 <= b < fs_block_count (lay s) ->
  exists s2, kept s s2 /\ get_block_num_from_disk_ptr junk b i s1 = get_entry (Some (fs_block s b)) i s2.
Proof.
  intros Hok Hfl Hk Hr. pose proof Hk as (Hr1 & El & _).
  assert (Hload : wp (new_block junk) (fun data s2 => wp (read_to data b) (fun r s3 => snd r = Some (fs_block s b) /\ kept s s3) s2) s1).
  { unfold new_block. apply wp_bind, wp_fetch. apply wp_bind, wp_kmalloc_block; [done|]. intros s2 Hk2. apply wp_fetch, wp_bind.
    pose proof (kept_trans _ _ _ Hk Hk2) as Hk2'. pose proof Hk2' as (Hr2 & El2 & _).
    eapply wp_mono; [apply wp_read_ready; [done | lia]|].
    intros [err d] s3 (Hk3 & [(E & _)|(E & Hbad)]); apply pair_eq in E as [-> ->].
    - apply wp_ret. rewrite (kept_block s s2) by done. split; [done|]. by eapply kept_trans.
    - destruct Hfl. rewrite El2 in Hbad. by apply (bad_flaky _ b). }
  destruct Hload as (data & s2 & E1 & [err d] & s3 & E2 & Ed & Hk3). exists s3. split; [done|].
  unfold get_block_num_from_disk_ptr, mbind, stM_bind. rewrite E1, E2. simpl in Ed. by rewrite Ed.
Qed.

Lemma wp_lookup s s1 b i (Q : Z -> fs_state D -> Prop) :
  fs_ok s -> ~ flaky (lay s) -> kept s s1 -> 0 <= b < fs_block_count (lay s) -> 0 <= i < np s ->
  (forall s2, kept s s2 -> Q (entry (fs_block s) b i) s2) ->
  wp (get_block_num_from_disk_ptr junk b i) Q s1.
Proof.
  intros Hok Hfl Hk Hr Hi HQ. destruct (lookup_loads s s1 b i Hok Hfl Hk Hr) as (s2 & Hk2 & E).
  destruct (wp_get_entry s Hok (fs_block s b) i Q s2) as (r & s3 & E' & HQ'); [done | by eapply growing_length, growing_refl | by apply HQ |].
  exists r, s3. by rewrite E.
Qed.

(** The code finds the blocks of the first leaf block of the double tree. *)
Lemma wp_get_block_num_from_inode s node i :
  fs_ok s -> file_ok s node -> ~ flaky (lay s) -> 0 <= i < nblocks node -> i < 12 + 2 * np s ->
  wp (get_block_num_from_inode junk node i) (fun b s' => b = file_block s node i /\ kept s s') s.
Proof.
  intros Hok Hf Hfl Hi Hlim. pose proof Hf as [Hlen Hc _ _ Hu]. destruct (nptr_eq s Hok) as (_ & HN & _).
  pose proof (kept_refl s (ok_ready _ Hok)) as Hk0. apply Forall_app in Hu as [Hu _].
  assert (HN2 : np s ^ 2 <= (2 ^ 18) ^ 2) by (apply Z.pow_le_mono_l; lia).
  unfold get_block_num_from_inode. apply wp_bind, wp_fetch. rewrite (double_eq s Hok). unfold to_u64. rewrite !wrap_small by lia.
  rewrite (proj2 (Z.leb_gt (nblocks node) i)) by lia.
  destruct (_ || _) eqn:Hsmall.
  { apply wp_block_at; [done | |by unfold file_block; rewrite Hsmall].
    apply orb_true_iff in Hsmall as [?%Z.ltb_lt|?%Z.leb_le]; lia. }
  apply orb_false_iff in Hsmall as [H12%Z.ltb_ge H15%Z.leb_gt].
  assert (Hin : forall d p, (1 <= d <= 3)%nat -> p ∈ tree_ptrs s node d -> 0 <= p < fs_block_count (lay s)).
  { intros d p Hd Hp. rewrite Forall_forall in Hu. apply (in_data_range s); [done|]. apply Hu. unfold file_ptrs. rewrite (proj2 (Z.leb_gt _ 15)) by lia.
    rewrite !elem_of_app. assert (d = 1 \/ d = 2 \/ d = 3)%nat as [-> |[-> | ->]] by lia; auto. }
  destruct (Z.ltb_spec i (12 + np s)) as [H1|H1].
  - apply wp_bind, wp_block_at; [done | lia|]. rewrite to_u32_small by lia.
    apply (wp_lookup s); try done; [|lia|].
    + apply (Hin 1%nat); [lia|]. apply uses_root_in. unfold tree_count. cbn [tree_base]. change (Z.of_nat 1) with 1. lia.
    + intros s2 Hk. split; [|done]. rewrite (tree_leaf s node 1) by (done || cbn [tree_base]; change (Z.of_nat 1) with 1; lia). by rewrite walk_1.
  - assert (Hi2 : i < 12 + np s + np s ^ 2) by nia. rewrite (proj2 (Z.ltb_lt _ _) Hi2).
    rewrite (to_u32_small (i - np s - 12)) by lia. rewrite (Z.mod_small (i - np s - 12)), (Z.div_small (i - np s - 12)) by nia.
    rewrite !to_u32_small by lia. apply wp_bind, wp_block_at; [done | lia|]. apply wp_bind.
    assert (Hcnt : 0 <= i - (12 + np s) < tree_count (np s) (nblocks node) 2).
    { unfold tree_count. cbn [tree_base]. change (Z.of_nat 2) with 2. nia. }
    apply (wp_lookup s); try done; [apply (Hin 2%nat); [lia|]; apply uses_root_in; lia | lia|]. intros s2 Hk2.
    apply (wp_lookup s); try done; [|lia|].
    + apply (Hin 2%nat); [lia|]. pose proof (child_used (np s) ltac:(lia) (fs_block s) 0 (tree_root node 2) _ _ Hcnt) as Hch.
      change (Z.of_nat 1) with 1 in Hch. by rewrite Z.pow_1_r, Z.div_small in Hch by lia.
    + intros s3 Hk3. split; [|done]. rewrite (tree_leaf s node 2) by (done || cbn [tree_base]; change (Z.of_nat 2) with 2; nia).
      cbn [tree_base]. rewrite walk_2, Z.div_small, Z.mod_small by lia. f_equal; lia.
Qed.

(** Past that leaf block the index is not reduced, and the code reads past the
    end of the indirect block it has loaded. *)
Lemma get_block_num_overrun s node i :
  fs_ok s -> ~ flaky (lay s) -> length (blocks node) = 15%nat -> nblocks node < 2 ^ 32 ->
  let first := entry (fs_block s) (slot node 13) 0 in
  0 <= slot node 13 < fs_block_count (lay s) -> 0 <= first < fs_block_count (lay s) ->
  12 + 2 * np s <= i < nblocks node -> i < 12 + np s + np s ^ 2 ->
  get_block_num_from_inode junk node i s = Fault.
Proof.
  intros Hok Hfl Hlen Hn32 first Hr Hf Hi Hlim. destruct (nptr_eq s Hok) as (Enp & HN & _).
  pose proof (kept_refl s (ok_ready _ Hok)) as Hk0.
  assert (HN2 : np s ^ 2 <= (2 ^ 18) ^ 2) by (apply Z.pow_le_mono_l; lia).
  unfold get_block_num_from_inode. apply bind_stuck, wp_fetch. rewrite (double_eq s Hok). unfold to_u64. rewrite !wrap_small by lia.
  rewrite (proj2 (Z.leb_gt (nblocks node) i)), (proj2 (Z.ltb_ge i 12)), (proj2 (Z.leb_gt (nblocks node) 15)) by lia.
  rewrite (proj2 (Z.ltb_ge i (12 + np s))), (proj2 (Z.ltb_lt _ _) Hlim) by lia. cbn [orb].
  rewrite (to_u32_small (i - np s - 12)) by lia. rewrite (Z.mod_small (i - np s - 12)), (Z.div_small (i - np s - 12)) by lia.
  rewrite !to_u32_small by lia. apply bind_stuck, wp_block_at; [done | lia|].
  apply bind_stuck, (wp_lookup s); try done; [lia|]. intros s2 Hk2. fold first.
  destruct (lookup_loads s s2 first (i - np s - 12)) as (s3 & _ & ->); try done. unfold get_entry.
  rewrite (growing_length s [] [] s first) by (by apply growing_refl || done).
  pose proof (Z.div_mod (bytes_per_block (lay s)) 4 ltac:(lia)). pose proof (Z.mod_pos_bound (bytes_per_block (lay s)) 4 ltac:(lia)).
  rewrite (proj2 (Z.leb_gt (4 * _ + 4) _)), andb_false_r by lia. done.
Qed.

(** *** The root directory of a formatted card *)

Lemma formatted_root now s :
  fs_ok s -> covered (lay s) -> formatted now s -> meta_used s /\ file_ok s (root_node now (lay s)).
Proof.
  intros Hok Hcov Hfm. pose proof (fm_blocks _ _ Hfm) as Hb. pose proof (ok_regions _ Hok) as []. unfold covered in Hcov.
  assert (Hbit : forall j, 0 <= j <= data_start_block (lay s) -> block_bit s j = true).
  { intros j Hj. unfold block_bit. rewrite Hb by lia. unfold used_bit. by rewrite (proj2 (Z.ltb_lt _ _)) by lia. }
  split; [intros j Hj; apply Hbit; lia|]. destruct (nptr_eq s Hok) as (_ & HN & _).
  assert (Eb : file_blocks s (root_node now (lay s)) = [data_start_block (lay s)]) by done.
  constructor; [done | done | | |].
  - change (1 <= 12 + np s + np s ^ 2 + np s ^ 3). nia.
  - rewrite Eb. apply NoDup_singleton.
  - rewrite Eb. repeat constructor; [lia | lia | apply Hbit; lia].
Qed.

End rules.

(** The card formatted: its root directory is a file of one block. *)
Lemma ram_root :
  exists s : fs_state ram, lay s = lay ram_fs /\ fs_ok s /\ meta_used s /\ file_ok s (root_node 7 (lay s)).
Proof.
  destruct (wp_mkfs_inode 7 ram_fs) as (err & s & _ & Hmk & [El _] & He);
    [exact ram_fs_regions | exact ram_fs_mk | vm_compute; done.. |].
  destruct He as [(_ & n & _ & [])|[-> Hf]]. exists s.
  assert (Hok : fs_ok s).
  { apply (fs_ok_lay ram_fs); [exact ram_fs_ok | | exact El]. destruct Hmk as [(L & HL & _) Hl _]. split; [by exists L | exact Hl]. }
  split; [exact El|]. split; [exact Hok|]. apply formatted_root; [exact Hok | | exact Hf]. rewrite El. vm_compute. done.
Qed.

Lemma ram_not_flaky l : ~ flaky (D := ram) l.
Proof. intros (n & _ & []). Qed.

(** ** Properties *)

(** C32. Appending a block to a file, for every size of the file: on success a
    free data block is now the last block of the file, the file is well formed
    (its blocks and its indirect blocks are distinct blocks in use) and has the
    blocks it had, in order, followed by the new one; exactly that block and the
    indirect blocks of the file have been marked used, and no block outside the
    bitmap changes except indirect blocks of the file.  It fails only if the
    file has the maximal size, no block is free or a sector is bad, and then
    nothing but indirect blocks of the file and free blocks has been written. *)
Theorem file_append_correct {D} `{DeviceLaws D} junk (s : fs_state D) node :
  fs_ok s -> covered (lay s) -> meta_used s -> file_ok s node ->
  (nblocks node < 12 + BLOCKS_IN_SINGLE_PTR (lay s) + BLOCKS_IN_SINGLE_PTR (lay s) ^ 2 \/ ~ flaky (lay s)) ->
  wp (allocate_block_for_file_inode junk node) (allocate_block_post s node) s.
Proof. apply wp_allocate_block_for_file_inode. Qed.

Lemma file_append_correct_witness :
  exists s : fs_state ram, wp (allocate_block_for_file_inode (fun _ _ => 0) (root_node 7 (lay s))) (allocate_block_post s (root_node 7 (lay s))) s.
Proof.
  destruct ram_root as (s & El & Hok & Hm & Hf). exists s.
  apply (file_append_correct (fun _ _ => 0) s (root_node 7 (lay s))); [exact Hok | rewrite El; vm_compute; done | exact Hm | exact Hf |].
  right. apply ram_not_flaky.
Defined.

(** Looking up a block of a well-formed file gives its block number, and 0
    past the end, without changing the card, for the direct blocks, the single
    indirect block and the first block of pointers of the double indirect
    block. *)
Theorem file_lookup_correct {D} `{DeviceLaws D} junk (s : fs_state D) node i :
  fs_ok s -> file_ok s node -> ~ flaky (lay s) -> 0 <= i -> i < 12 + 2 * BLOCKS_IN_SINGLE_PTR (lay s) ->
  wp (get_block_num_from_inode junk node i)
    (fun b s' => b = default 0 (file_blocks s node !! Z.to_nat i) /\ kept s s') s.
Proof.
  intros Hok Hf Hfl Hi Hlim. pose proof (fo_count _ _ Hf). destruct (decide (i < nblocks node)).
  - eapply wp_mono; [by apply wp_get_block_num_from_inode|]. intros b s' [-> Hk]. split; [|done]. unfold file_blocks.
    rewrite list_lookup_fmap, lookup_seqZ_lt by lia. simpl. f_equal. lia.
  - unfold get_block_num_from_inode. apply wp_bind, wp_fetch. rewrite (proj2 (Z.leb_le (nblocks node) i)) by lia. apply wp_ret.
    split; [|apply kept_refl, Hok]. rewrite lookup_ge_None_2; [done|]. unfold file_blocks. rewrite length_map, length_seqZ. lia.
Qed.

Lemma file_lookup_correct_witness :
  exists s : fs_state ram, wp (get_block_num_from_inode (fun _ _ => 0) (root_node 7 (lay s)) 0) (fun b s' => b = 8 /\ kept s s') s.
Proof.
  destruct ram_root as (s & El & Hok & Hm & Hf). exists s.
  pose proof (file_lookup_correct (fun _ _ => 0) s (root_node 7 (lay s)) 0 Hok Hf (ram_not_flaky _)) as Hw.
  rewrite El in *. apply Hw; vm_compute; done.
Defined.

(** Past the first block of pointers of the double indirect block the
    lookup does not find the block of the file: it takes the index modulo the
    square of the number of pointers in a block, where the code that appends
    blocks takes it modulo that number, and reads past the end of the block of
    pointers it has loaded. *)
Theorem file_lookup_overrun {D} `{DeviceLaws D} junk (s : fs_state D) node i :
  let N := BLOCKS_IN_SINGLE_PTR (lay s) in
  fs_ok s -> ~ flaky (lay s) -> length (blocks node) = 15%nat -> nblocks node < 2 ^ 32 ->
  let first := entry (fs_block s) (slot node 13) 0 in
  0 <= slot node 13 < fs_block_count (lay s) -> 0 <= first < fs_block_count (lay s) ->
  12 + 2 * N <= i < nblocks node -> i < 12 + N + N ^ 2 ->
  get_block_num_from_inode junk node i s = Fault.
Proof. apply get_block_num_overrun. Qed.

Lemma file_lookup_overrun_witness :
  let node := mkInode (mkAttr 1 FILE_TYPE 7 0 300 0 (0, 0) 0 0) (replicate 13 0 ++ [9; 0]) in
  get_block_num_from_inode (D := ram) (fun _ _ => 0) node 290 ram_fs = Fault.
Proof.
  intros node. apply (file_lookup_overrun (fun _ _ => 0) ram_fs node 290);
    [exact ram_fs_ok | apply ram_not_flaky | vm_compute; done..].
Defined.
