(* ===== verification/FileFree.v ===== *)
(** * Freeing the blocks of a file

    The parts of kernel/fs/inodes.c that give back the blocks of a file, all of
    them ([clear_blocks_of_inode]) or the last one ([remove_last_block_inode]),
    with the indirect blocks that are no longer needed. *)

From S2P Require Import Prelude Errors Bytes Services BlockCache Bitmap Layout Inode Mkfs FileMap.

Section filefree.
Context {D : Type} `{BlockDevice D}.
Context (junk : fs_state D -> Z -> Z).
Implicit Types (s : fs_state D).

Abbreviation FS := (stM (fs_state D)).

(** ** Freeing blocks

    [total_removed] is passed along; [-1] means that all blocks are gone. *)

Fixpoint free_single_loop (n : nat) (i : Z) (single_ptr_data : buffer) (node : inode_st) (total_removed : Z) : FS (Z * Z) :=
  match n with
  | O => mret (SUCCESS, total_removed)
  | S n =>
      b ← get_entry single_ptr_data i;
      err_code ← set_block_allocated b false;
      if negb (err_code =? SUCCESS) then mret (err_code, total_removed) else
      let total_removed := total_removed + 1 in
      if to_u32 total_removed =? nblocks node then mret (-1, total_removed)
      else free_single_loop n (i + 1) single_ptr_data node total_removed
  end.

Definition free_from_single_ptr (single_block : Z) (node : inode_st) (total_removed : Z) : FS (Z * Z) :=
  err_code ← set_block_allocated single_block false;
  if negb (err_code =? SUCCESS) then mret (err_code, total_removed) else
  single_ptr_data ← new_block junk;
  '(err_code, single_ptr_data) ← read_to single_ptr_data single_block;
  if negb (err_code =? SUCCESS) then mret (err_code, total_removed) else
  l ← fetch lay;
  free_single_loop (Z.to_nat (BLOCKS_IN_SINGLE_PTR l)) 0 single_ptr_data node total_removed.

(** The loop of [free_from_double_ptr] and of [free_from_triple_ptr]. *)
Fixpoint free_children (free_child : Z -> inode_st -> Z -> FS (Z * Z)) (n : nat) (i : Z) (ptr_data : buffer)
    (node : inode_st) (total_removed : Z) : FS (Z * Z) :=
  match n with
  | O => mret (SUCCESS, total_removed)
  | S n =>
      b ← get_entry ptr_data i;
      '(ret_val, total_removed) ← free_child b node total_removed;
      if negb (ret_val =? SUCCESS) then mret (ret_val, total_removed)
      else free_children free_child n (i + 1) ptr_data node total_removed
  end.

Definition free_from_double_ptr (double_block : Z) (node : inode_st) (total_removed : Z) : FS (Z * Z) :=
  err_code ← set_block_allocated double_block false;
  if negb (err_code =? SUCCESS) then mret (err_code, total_removed) else
  double_ptr_data ← new_block junk;
  '(err_code, double_ptr_data) ← read_to double_ptr_data double_block;
  if negb (err_code =? SUCCESS) then mret (err_code, total_removed) else
  l ← fetch lay;
  free_children free_from_single_ptr (Z.to_nat (BLOCKS_IN_SINGLE_PTR l)) 0 double_ptr_data node total_removed.

Definition free_from_triple_ptr (triple_block : Z) (node : inode_st) (total_removed : Z) : FS (Z * Z) :=
  err_code ← set_block_allocated triple_block false;
  if negb (err_code =? SUCCESS) then mret (err_code, total_removed) else
  triple_ptr_data ← new_block junk;
  '(err_code, triple_ptr_data) ← read_to triple_ptr_data triple_block;
  if negb (err_code =? SUCCESS) then mret (err_code, total_removed) else
  l ← fetch lay;
  free_children free_from_double_ptr (Z.to_nat (BLOCKS_IN_SINGLE_PTR l)) 0 triple_ptr_data node total_removed.

Fixpoint clamp_loop (fuel : nat) (node : inode_st) (keep_blocks : Z) : FS Z :=
  if keep_blocks <=? 0 then mret keep_blocks
  else
    match fuel with
    | O => fault
    | S fuel =>
        b ← block_at node (keep_blocks - 1);
        if b =? 0 then clamp_loop fuel node (keep_blocks - 1) else mret keep_blocks
    end.

Definition clamp_kept_blocks (node : inode_st) (keep_blocks : Z) : FS Z :=
  let total_blocks := to_s32 (nblocks node) in
  let keep_blocks := if total_blocks <? keep_blocks then total_blocks else keep_blocks in
  clamp_loop (Z.to_nat keep_blocks) node keep_blocks.

(** What every successful way out of [clear_blocks_of_inode] does. *)
Definition cleared (node : inode_st) (skip_first : Z) : FS (Z * inode_st) :=
  keep ← clamp_kept_blocks node skip_first;
  mret (SUCCESS, with_i_size 0 (with_i_blocks (to_u32 keep) node)).

(** The loop over the direct blocks; [None] when some blocks are left. *)
Fixpoint clear_direct (n : nat) (i : Z) (node : inode_st) (total_removed : Z) : FS (option Z * Z) :=
  match n with
  | O => mret (None, total_removed)
  | S n =>
      b ← block_at node i;
      err_code ← set_block_allocated b false;
      if negb (err_code =? SUCCESS) then mret (Some err_code, total_removed) else
      let total_removed := total_removed + 1 in
      if total_removed =? to_s32 (nblocks node) then mret (Some SUCCESS, total_removed)
      else clear_direct n (i + 1) node total_removed
  end.

(** The blocks behind the indirect blocks. *)
Definition clear_trees (node : inode_st) (skip_first total_removed : Z) : FS (Z * inode_st) :=
  b ← block_at node 12;
  '(ret_val, total_removed) ← free_from_single_ptr b node total_removed;
  if ret_val =? -1 then cleared node skip_first
  else if negb (ret_val =? SUCCESS) then mret (ret_val, node) else
  b ← block_at node 13;
  '(ret_val, total_removed) ← free_from_double_ptr b node total_removed;
  if ret_val =? -1 then cleared node skip_first
  else if negb (ret_val =? SUCCESS) then mret (ret_val, node) else
  b ← block_at node 14;
  '(ret_val, total_removed) ← free_from_triple_ptr b node total_removed;
  if ret_val =? -1 then cleared node skip_first
  else if negb (ret_val =? SUCCESS) then mret (ret_val, node)
  else cleared node skip_first.

Definition clear_blocks_of_inode (node : inode_st) (skip_first : Z) : FS (Z * inode_st) :=
  let total_removed := skip_first in
  let total_blocks := to_s32 (nblocks node) in
  if total_blocks <=? total_removed then cleared node skip_first else
  let direct_blocks := if total_blocks <? 16 then total_blocks else 12 in
  '(done, total_removed) ← clear_direct (Z.to_nat (direct_blocks - skip_first)) skip_first node total_removed;
  match done with
  | Some err_code => if err_code =? SUCCESS then cleared node skip_first else mret (err_code, node)
  | None => clear_trees node skip_first total_removed
  end.

(** ** Removing the last block *)

Definition remove_direct (block_idx : Z) (node : inode_st) : FS (Z * inode_st) :=
  block_to_remove ← block_at node block_idx;
  if block_to_remove =? 0 then mret (ILLEGAL_BLOCK_NO, node) else
  err ← set_block_allocated block_to_remove false;
  if negb (err =? SUCCESS) then mret (err, node) else
  mret (SUCCESS, set_block_at block_idx 0 node).

(** With the sixteenth block the single indirect block goes, and blocks 12 to
    14 return to the inode. *)
Definition remove_sixteenth (block_idx : Z) (node : inode_st) : FS (Z * inode_st) :=
  single_ptr ← block_at node 12;
  single_ptr_data ← new_block junk;
  '(err, single_ptr_data) ← read_to single_ptr_data single_ptr;
  if negb (err =? SUCCESS) then mret (err, node) else
  block_to_remove ← get_entry single_ptr_data (to_u32 (block_idx - 12));
  if block_to_remove =? 0 then mret (ILLEGAL_BLOCK_NO, node) else
  err ← set_block_allocated block_to_remove false;
  if negb (err =? SUCCESS) then mret (err, node) else
  b ← get_entry single_ptr_data 0;
  let node := set_block_at 12 b node in
  b ← get_entry single_ptr_data 1;
  let node := set_block_at 13 b node in
  b ← get_entry single_ptr_data 2;
  let node := set_block_at 14 b node in
  err ← set_block_allocated single_ptr false;
  mret (err, node).

Definition remove_single (block_idx : Z) (node : inode_st) : FS (Z * inode_st) :=
  single_ptr ← block_at node 12;
  single_ptr_data ← new_block junk;
  '(err, single_ptr_data) ← read_to single_ptr_data single_ptr;
  if negb (err =? SUCCESS) then mret (err, node) else
  let index_in_single_ptr := to_u32 (block_idx - 12) in
  block_to_remove ← get_entry single_ptr_data index_in_single_ptr;
  if block_to_remove =? 0 then mret (ILLEGAL_BLOCK_NO, node) else
  err ← set_block_allocated block_to_remove false;
  if negb (err =? SUCCESS) then mret (err, node) else
  single_ptr_data ← put_entry single_ptr_data index_in_single_ptr 0;
  err ← write_from single_ptr_data single_ptr;
  mret (err, node).

Definition remove_double (block_idx : Z) (node : inode_st) : FS (Z * inode_st) :=
  l ← fetch lay;
  let single := BLOCKS_IN_SINGLE_PTR l in
  let num_in_double_ptr := to_u32 (block_idx - 12 - single) in
  let index_in_single_ptr := to_u32 (num_in_double_ptr mod single) in
  let single_ptr_idx_in_double_ptr := to_u32 (num_in_double_ptr / single) in
  double_ptr ← block_at node 13;
  double_ptr_data ← new_block junk;
  '(err, double_ptr_data) ← read_to double_ptr_data double_ptr;
  if negb (err =? SUCCESS) then mret (err, node) else
  single_ptr ← get_entry double_ptr_data single_ptr_idx_in_double_ptr;
  single_ptr_data ← new_block junk;
  '(err, single_ptr_data) ← read_to single_ptr_data single_ptr;
  if negb (err =? SUCCESS) then mret (err, node) else
  block_to_remove ← get_entry single_ptr_data index_in_single_ptr;
  if block_to_remove =? 0 then mret (ILLEGAL_BLOCK_NO, node) else
  err ← set_block_allocated block_to_remove false;
  if negb (err =? SUCCESS) then mret (err, node) else
  if index_in_single_ptr =? 0 then
    err ← set_block_allocated single_ptr false;
    if negb (err =? SUCCESS) then mret (err, node) else
    double_ptr_data ← put_entry double_ptr_data single_ptr_idx_in_double_ptr 0;
    if single_ptr_idx_in_double_ptr =? 0 then
      err ← set_block_allocated double_ptr false;
      mret (err, if err =? SUCCESS then set_block_at 13 0 node else node)
    else
      err ← write_from double_ptr_data double_ptr;
      mret (err, node)
  else
    single_ptr_data ← put_entry single_ptr_data index_in_single_ptr 0;
    err ← write_from single_ptr_data single_ptr;
    mret (err, node).

Definition remove_triple (block_idx : Z) (node : inode_st) : FS (Z * inode_st) :=
  l ← fetch lay;
  let single := BLOCKS_IN_SINGLE_PTR l in
  let double := BLOCKS_IN_DOUBLE_PTR l in
  let num_in_triple_ptr := to_u32 (block_idx - 12 - single - double) in
  let index_in_double_ptr := to_u32 (num_in_triple_ptr mod double) in
  let double_ptr_idx_in_triple_ptr := to_u32 (num_in_triple_ptr / double) in
  let index_in_single_ptr := to_u32 (index_in_double_ptr mod single) in
  let single_ptr_idx_in_double_ptr := to_u32 (index_in_double_ptr / single) in
  triple_ptr ← block_at node 14;
  triple_ptr_data ← new_block junk;
  '(err, triple_ptr_data) ← read_to triple_ptr_data triple_ptr;
  if negb (err =? SUCCESS) then mret (err, node) else
  double_ptr ← get_entry triple_ptr_data double_ptr_idx_in_triple_ptr;
  double_ptr_data ← new_block junk;
  '(err, double_ptr_data) ← read_to double_ptr_data double_ptr;
  if negb (err =? SUCCESS) then mret (err, node) else
  single_ptr ← get_entry double_ptr_data single_ptr_idx_in_double_ptr;
  single_ptr_data ← new_block junk;
  '(err, single_ptr_data) ← read_to single_ptr_data single_ptr;
  if negb (err =? SUCCESS) then mret (err, node) else
  block_to_remove ← get_entry single_ptr_data index_in_single_ptr;
  if block_to_remove =? 0 then mret (ILLEGAL_BLOCK_NO, node) else
  err ← set_block_allocated block_to_remove false;
  if negb (err =? SUCCESS) then mret (err, node) else
  if index_in_single_ptr =? 0 then
    err ← set_block_allocated single_ptr false;
    if negb (err =? SUCCESS) then mret (err, node) else
    double_ptr_data ← put_entry double_ptr_data single_ptr_idx_in_double_ptr 0;
    if single_ptr_idx_in_double_ptr =? 0 then
      err ← set_block_allocated double_ptr false;
      if negb (err =? SUCCESS) then mret (err, node) else
      triple_ptr_data ← put_entry triple_ptr_data double_ptr_idx_in_triple_ptr 0;
      if double_ptr_idx_in_triple_ptr =? 0 then
        err ← set_block_allocated triple_ptr false;
        mret (err, if err =? SUCCESS then set_block_at 14 0 node else node)
      else
        err ← write_from triple_ptr_data triple_ptr;
        mret (err, node)
    else
      err ← write_from double_ptr_data double_ptr;
      mret (err, node)
  else
    single_ptr_data ← put_entry single_ptr_data index_in_single_ptr 0;
    err ← write_from single_ptr_data single_ptr;
    mret (err, node).

(** The body of [remove_last_block_inode] between the locking and the label
    [done]. *)
Definition remove_last_block (node : inode_st) : FS (Z * inode_st) :=
  l ← fetch lay;
  let single := BLOCKS_IN_SINGLE_PTR l in
  let double := BLOCKS_IN_DOUBLE_PTR l in
  let old_blocks := nblocks node in
  if old_blocks =? 0 then mret (ILLEGAL_BLOCK_NO, node) else
  let block_idx := to_u32 (old_blocks - 1) in
  '(err, node) ←
    (if old_blocks <=? 15 then remove_direct block_idx node
     else if old_blocks =? 16 then remove_sixteenth block_idx node
     else if block_idx <? to_u64 (12 + single) then remove_single block_idx node
     else if block_idx <? to_u64 (12 + single + double) then remove_double block_idx node
     else remove_triple block_idx node);
  if negb (err =? SUCCESS) then mret (err, node) else
  mret (SUCCESS, with_i_blocks (to_u32 (old_blocks - 1)) node).

End filefree.

(** ** The blocks of a tree

    [nodes rd d b n]: the blocks of a tree of depth [d] with root [b] and [n]
    leaves in the order in which the code frees them, a tree of depth 0 being a
    block of data. *)

Section nodes.
Context (N : Z) (HN : 0 < N).
Implicit Types (rd : Z -> list Z) (d : nat) (b i n : Z).

Fixpoint nodes rd d b n : list Z :=
  if n <=? 0 then [] else
  match d with
  | O => [b]
  | S d => b :: mjoin (map (fun k => nodes rd d (entry rd b k) (Z.min (N ^ Z.of_nat d) (n - k * N ^ Z.of_nat d))) (seqZ 0 N))
  end.

Lemma nodes_none rd d b n : n <= 0 -> nodes rd d b n = [].
Proof. intros Hn. destruct d; cbn [nodes]; by rewrite (proj2 (Z.leb_le n 0) Hn). Qed.

Lemma elem_of_children (f : Z -> list Z) i n x : x ∈ mjoin (map f (seqZ i n)) <-> exists k, i <= k < i + n /\ x ∈ f k.
Proof.
  rewrite list_elem_of_join. split.
  - intros (l & Hx & Hl). apply list_elem_of_fmap in Hl as (k & -> & Hk). exists k. split; [by apply elem_of_seqZ | done].
  - intros (k & Hk & Hx). exists (f k). split; [done|]. apply list_elem_of_fmap. exists k. split; [done|]. by apply elem_of_seqZ.
Qed.

Lemma elem_of_map {A B} (f : A -> B) l x : x ∈ map f l <-> exists y, x = f y /\ y ∈ l.
Proof. apply list_elem_of_fmap. Qed.

Lemma elem_of_ptrs rd d b n x :
  0 < n -> let size := N ^ Z.of_nat d in
  x ∈ ptrs N rd (S d) b n <->
  x = b \/ (exists k, 0 <= k < n / size /\ x ∈ ptrs N rd d (entry rd b k) size) \/ x ∈ ptrs N rd d (entry rd b (n / size)) (n mod size).
Proof.
  intros Hn size. unfold ptrs. cbn [uses]. rewrite (proj2 (Z.leb_gt n 0)) by lia. fold size. cbn [map fst].
  rewrite elem_of_cons, map_app, elem_of_app, !elem_of_map. setoid_rewrite list_elem_of_join. setoid_rewrite elem_of_map.
  setoid_rewrite elem_of_seqZ. split.
  - intros [?|[(y & -> & l & Hy & k & -> & Hk)|?]]; [auto | right; left; exists k; eauto | auto].
  - intros [?|[(k & Hk & y & -> & Hy)|?]]; [auto | right; left; exists y; eauto 6 | auto].
Qed.

(** The leaves of child [k] are the leaves from [k * size] on. *)
Lemma child_leaf rd d b k i :
  let size := N ^ Z.of_nat d in 0 <= i < size -> walk N rd (S d) b (k * size + i) = walk N rd d (entry rd b k) i.
Proof.
  intros size Hi. cbn [walk]. fold size. rewrite (Z.add_comm (k * size)), Z.div_add, Z.mod_add by lia.
  by rewrite Z.div_small, Z.mod_small by lia.
Qed.

(** They are the indirect blocks and the leaves. *)
Lemma elem_of_nodes rd d b n x :
  n <= N ^ Z.of_nat d -> x ∈ nodes rd d b n <-> x ∈ ptrs N rd d b n \/ exists i, 0 <= i < n /\ x = walk N rd d b i.
Proof.
  revert b n. induction d as [|d IH]; intros b n Hn.
  { cbn [nodes]. change (ptrs N rd 0 b n) with (@nil Z). cbn [walk]. rewrite Z.pow_0_r in Hn. destruct (Z.leb_spec n 0).
    - split; [by intros ?%not_elem_of_nil|]. intros [?%not_elem_of_nil|(i & ? & _)]; [done | lia].
    - rewrite list_elem_of_singleton. split; [intros ->; right; exists 0; split; [lia | done]|].
      by intros [?%not_elem_of_nil|(i & _ & ->)]. }
  destruct (decide (n <= 0)) as [Hn0|Hn0].
  { rewrite nodes_none by done. unfold ptrs. rewrite uses_none by done.
    split; [by intros ?%not_elem_of_nil|]. intros [?%not_elem_of_nil|(i & ? & _)]; [done | lia]. }
  rewrite elem_of_ptrs by lia. pose proof (child_leaf rd d b) as Hleaf. cbn [nodes]. rewrite (proj2 (Z.leb_gt n 0)) by lia.
  set (size := N ^ Z.of_nat d) in *. assert (Hs : 0 < size) by (apply Z.pow_pos_nonneg; lia).
  rewrite elem_of_cons, elem_of_children. setoid_rewrite IH; [|lia].
  rewrite Nat2Z.inj_succ, Z.pow_succ_r in Hn by lia. fold size in Hn.
  pose proof (Z.div_mod n size ltac:(lia)) as Edm. pose proof (Z.mod_pos_bound n size Hs) as Hmod.
  pose proof (Z.div_pos n size ltac:(lia) Hs) as Hq. split.
  - intros [?|(k & Hk & [Hp|(i & Hi & ->)])]; [auto | left; right |right; exists (k * size + i); split; [lia | by rewrite Hleaf by lia]].
    destruct (decide (k < n / size)); [left; exists k; split; [lia|]; by rewrite Z.min_l in Hp by nia|].
    destruct (decide (k = n / size)) as [->|]; [right; by replace (n mod size) with (Z.min size (n - n / size * size)) by lia|].
    unfold ptrs in Hp. rewrite uses_none in Hp by nia. by apply not_elem_of_nil in Hp.
  - intros [[?|[(k & Hk & Hp)|Hp]]|(i & Hi & ->)]; [auto | right..].
    + exists k. split; [nia|]. left. by rewrite Z.min_l by nia.
    + destruct (decide (n mod size = 0)) as [E0|]; [unfold ptrs in Hp; rewrite uses_none in Hp by lia; by apply not_elem_of_nil in Hp|].
      exists (n / size). split; [nia|]. left. by replace (Z.min size (n - n / size * size)) with (n mod size) by lia.
    + pose proof (Z.div_mod i size ltac:(lia)). pose proof (Z.mod_pos_bound i size Hs). pose proof (Z.div_pos i size ltac:(lia) Hs).
      exists (i / size). split; [nia|]. right. exists (i mod size). split; [lia|]. rewrite <- Hleaf by done. f_equal. lia.
Qed.

End nodes.

(** ** Freeing

    [freed s F s']: [s'] is [s] with the blocks of [F] marked free. *)

Section rules.
Context {D : Type} `{DeviceLaws D}.
Context (junk : fs_state D -> Z -> Z).
Implicit Types (s : fs_state D) (F : list Z).

(** The number of entries of an indirect block. *)
Abbreviation np s := (BLOCKS_IN_SINGLE_PTR (lay s)).

Record freed s F s' : Prop := {
  fr_ok : fs_ok s';
  fr_lay : lay s' = lay s;
  fr_bits : forall j, 0 <= j < total_fs_blocks (lay s) -> block_bit s' j = block_bit s j && negb (bool_decide (j ∈ F));
  fr_blocks : forall m, outside_bitmap s m -> fs_block s' m = fs_block s m
}.

Lemma freed_refl s : fs_ok s -> freed s [] s.
Proof.
  intros Hok. constructor; try done. intros j _. rewrite bool_decide_eq_false_2 by apply not_elem_of_nil. by rewrite andb_true_r.
Qed.

Lemma freed_ext s F F' s' : (forall x, x ∈ F <-> x ∈ F') -> freed s F s' -> freed s F' s'.
Proof. intros He [Hok El Hb Hbl]. constructor; try done. intros j Hj. rewrite Hb by done. do 2 f_equal. by apply bool_decide_ext. Qed.

Lemma freed_kept s F s1 s2 : freed s F s1 -> kept s1 s2 -> freed s F s2.
Proof.
  intros [Hok El Hb Hbl] Hk. pose proof Hk as (Hr & El2 & _). constructor; [by eapply fs_ok_lay | congruence | |].
  - intros j Hj. rewrite <- Hb by done. unfold block_bit, bitmap_bit. rewrite El2. by rewrite (kept_block s1).
  - intros m Hm. rewrite (kept_block s1) by done. by apply Hbl.
Qed.

Section free.
Context s (Hok : fs_ok s) (Hcov : covered (lay s)) (Hfl : ~ flaky (lay s)).

Lemma wp_free_one F s1 b (Q : Z -> fs_state D -> Prop) :
  freed s F s1 -> in_data s b -> (forall s2, freed s (F ++ [b]) s2 -> Q SUCCESS s2) -> wp (set_block_allocated b false) Q s1.
Proof.
  intros Hf Hb HQ. pose proof Hf as [Hok1 El Hbits Hbl]. pose proof (ok_regions _ Hok) as []. destruct Hb as [Hb1 Hb2].
  unfold covered in Hcov. apply wp_bind, wp_fetch. eapply wp_mono; [apply wp_set_bit|].
  - apply Hok1.
  - by apply block_bitmap_ok.
  - rewrite El. lia.
  - rewrite El. lia.
  - intros err s2 (Hr2 & El2 & [(-> & Hflip)|[(_ & Hfl' & _)|(_ & Hfl' & _)]]); [|by rewrite El in Hfl'..].
    apply HQ. destruct Hflip as [Hblk Hj]. rewrite El in *. constructor; [by eapply fs_ok_lay; [exact Hok1 | |congruence] | congruence | |].
    + intros j Hjr. unfold block_bit at 1. rewrite El2, Hj by lia. destruct (Z.eqb_spec j b) as [->|Hne].
      * rewrite bool_decide_eq_true_2, andb_false_r by (apply elem_of_app; right; by left). done.
      * rewrite <- El. fold (block_bit s1 j). rewrite Hbits by done. do 2 f_equal. apply bool_decide_ext.
        rewrite elem_of_app, list_elem_of_singleton. tauto.
    + intros m Hm. rewrite Hblk; [by apply Hbl|]. intros ->. unfold outside_bitmap in Hm.
      assert (0 <= b / bits_per_block (lay s) < block_bitmap_blocks (lay s)); [|lia].
      destruct (bits_per_block_eq _ (ready_layout _ (ok_ready _ Hok))) as [_ Hpos].
      split; [apply Z.div_pos | apply Z.div_lt_upper_bound]; lia.
Qed.

(** Reading a block while blocks are being freed. *)
Lemma wp_read_freed F s1 b (Q : Z * buffer -> fs_state D -> Prop) :
  freed s F s1 -> in_data s b -> (forall s2, freed s F s2 -> Q (SUCCESS, Some (fs_block s b)) s2) ->
  wp (new_block junk) (fun data s2 => wp (read_to data b) Q s2) s1.
Proof.
  intros Hf Hb HQ. pose proof (in_data_range s b Hok Hb) as Hr. pose proof Hf as [Hok1 El _ Hbl].
  unfold new_block. apply wp_bind, wp_fetch. apply wp_bind, wp_kmalloc_block; [apply Hok1|].
  intros s2 Hk2. apply wp_fetch, wp_bind. pose proof Hk2 as (Hr2 & El2 & _).
  eapply wp_mono; [apply wp_read_ready; [done | lia]|].
  intros [err d] s3 (Hk3 & [(E & _)|(E & Hbad)]); apply pair_eq in E as [-> ->].
  - apply wp_ret. rewrite (kept_block s1 s2), Hbl by (done || by apply data_outside). apply HQ.
    eapply freed_kept; [exact Hf|]. by eapply kept_trans.
  - destruct Hfl. rewrite El2, El in Hbad. by apply (bad_flaky _ b).
Qed.

Context (node : inode_st) (Hn : nblocks node < 2 ^ 31).
Let rd := fs_block s.

(** What freeing a tree of depth [d] does: the blocks left are [nblocks node -
    removed], and the tree has no more than [N ^ d] of them. *)
Definition free_post (d : nat) (b removed : Z) F (r : Z * Z) s2 : Prop :=
  let left := nblocks node - removed in
  freed s (F ++ nodes (np s) rd d b (Z.min (np s ^ Z.of_nat d) left)) s2 /\
  r = if left <=? np s ^ Z.of_nat d then (-1, nblocks node) else (SUCCESS, removed + np s ^ Z.of_nat d).

Definition frees (d : nat) (free : Z -> inode_st -> Z -> stM (fs_state D) (Z * Z)) : Prop :=
  forall b removed F s1, freed s F s1 -> 0 <= removed < nblocks node ->
    (forall x, x ∈ nodes (np s) rd d b (Z.min (np s ^ Z.of_nat d) (nblocks node - removed)) -> in_data s x) ->
    wp (free b node removed) (free_post d b removed F) s1.

(** The body of the loop of [free_from_single_ptr]. *)
Definition free_leaf (b : Z) (node : inode_st) (total_removed : Z) : stM (fs_state D) (Z * Z) :=
  err_code ← set_block_allocated b false;
  if negb (err_code =? SUCCESS) then mret (err_code, total_removed) else
  mret (if to_u32 (total_removed + 1) =? nblocks node then -1 else SUCCESS, total_removed + 1).

Lemma free_single_children n i data t s1 :
  free_single_loop n i data node t s1 = free_children free_leaf n i data node t s1.
Proof.
  revert i t s1. induction n as [|n IH]; intros i t s1; [done|]. cbn [free_single_loop free_children].
  unfold mbind, stM_bind. destruct (get_entry data i s1) as [[b s2]| | |]; try done. unfold free_leaf at 1, mbind, stM_bind.
  destruct (set_block_allocated b false s2) as [[err s3]| | |]; try done. unfold mret, stM_ret.
  destruct (Z.eqb_spec err SUCCESS) as [->|Hne]; cbn [negb]; [|by rewrite (proj2 (Z.eqb_neq _ _) Hne)].
  destruct (_ =? nblocks node); cbn [negb Z.eqb SUCCESS]; [done | apply IH].
Qed.

Lemma free_leaf_frees : frees 0 free_leaf.
Proof.
  intros b removed F s1 Hf Hr Hin. unfold free_leaf. apply wp_bind. unfold free_post in *. rewrite Z.pow_0_r in *.
  rewrite Z.min_l in * by lia. cbn [nodes Z.leb Z.compare] in *. eapply wp_free_one; [exact Hf | apply Hin; by left|]. intros s2 Hf2.
  apply wp_ret. split; [done|]. rewrite to_u32_small by lia.
  destruct (Z.eqb_spec (removed + 1) (nblocks node)), (Z.leb_spec (nblocks node - removed) 1); try lia; f_equal; lia.
Qed.

(** One level up: the children of an indirect block in turn. *)
Section level.
Context (d : nat) (free_child : Z -> inode_st -> Z -> stM (fs_state D) (Z * Z)) (Hchild : frees d free_child).
Let size := np s ^ Z.of_nat d.

Definition child_nodes (b left k : Z) : list Z := nodes (np s) rd d (entry rd b k) (Z.min size (left - k * size)).

Lemma wp_free_children b removed (k : nat) i F s1 :
  let left := nblocks node - removed in
  Z.of_nat k = np s - i -> 0 <= i -> 0 <= removed -> i * size < left -> freed s F s1 -> 0 < size ->
  (forall j x, i <= j < np s -> x ∈ child_nodes b left j -> in_data s x) ->
  wp (free_children free_child k i (Some (rd b)) node (removed + i * size))
    (fun r s2 => freed s (F ++ mjoin (map (child_nodes b left) (seqZ i (np s - i)))) s2 /\
       r = if left <=? np s * size then (-1, nblocks node) else (SUCCESS, removed + np s * size)) s1.
Proof.
  intros left. revert i F s1. induction k as [|k IH]; intros i F s1 Hk Hi Hr Hleft Hf Hs Hin.
  { assert (i = np s) as -> by lia. apply wp_ret. rewrite Z.sub_diag, seqZ_nil, app_nil_r by lia.
    split; [done|]. by rewrite (proj2 (Z.leb_gt left _)) by lia. }
  cbn [free_children]. apply wp_bind, (wp_get_entry s); [done | lia | by eapply growing_length, growing_refl|].
  fold (entry rd b i). apply wp_bind.
  assert (Hmin : Z.min (np s ^ Z.of_nat d) (nblocks node - (removed + i * size)) = Z.min size (left - i * size)) by (unfold left; fold size; lia).
  eapply wp_mono; [apply Hchild; [exact Hf | unfold left in Hleft; nia|]|].
  - rewrite Hmin. intros x Hx. apply (Hin i); [lia | done].
  - intros [ret removed'] s2 (Hf2 & E). fold size in E. replace (nblocks node - (removed + i * size)) with (left - i * size) in E by lia.
    rewrite Hmin in Hf2. fold (child_nodes b left i) in Hf2.
    destruct (Z.leb_spec (left - i * size) size) as [Hlast|Hmore]; apply pair_eq in E as [-> ->]; cbn [negb Z.eqb SUCCESS].
    + apply wp_ret. rewrite (proj2 (Z.leb_le left _)) by nia. split; [|done]. eapply freed_ext; [|exact Hf2].
      intros x. rewrite !elem_of_app, elem_of_children. split.
      * intros [?|Hx]; [auto | right; exists i; split; [lia | done]].
      * intros [?|(j & Hj & Hx)]; [auto|]. right. destruct (decide (j = i)) as [->|]; [done|].
        unfold child_nodes in Hx. rewrite nodes_none in Hx by nia. by apply not_elem_of_nil in Hx.
    + replace (removed + i * size + size) with (removed + (i + 1) * size) by lia.
      eapply wp_mono; [apply (IH (i + 1)); try done; try lia; intros j x Hj; apply Hin; lia|].
      intros r s3 (Hf3 & ->). split; [|done]. eapply freed_ext; [|exact Hf3]. intros x.
      rewrite (seqZ_cons i) by lia. cbn [map mjoin]. rewrite !elem_of_app.
      replace (Z.pred (np s - i)) with (np s - (i + 1)) by lia. rewrite Z.add_1_r. simpl. rewrite elem_of_app. tauto.
Qed.

(** The bodies of [free_from_single_ptr], [free_from_double_ptr] and
    [free_from_triple_ptr]. *)
Lemma free_level_frees (free : Z -> inode_st -> Z -> stM (fs_state D) (Z * Z)) :
  (forall b removed s1, free b node removed s1 = (
     err_code ← set_block_allocated b false;
     if negb (err_code =? SUCCESS) then mret (err_code, removed) else
     data ← new_block junk;
     '(err_code, data) ← read_to data b;
     if negb (err_code =? SUCCESS) then mret (err_code, removed) else
     l ← fetch lay;
     free_children free_child (Z.to_nat (BLOCKS_IN_SINGLE_PTR l)) 0 data node removed) s1) ->
  frees (S d) free.
Proof.
  intros Efree b removed F s1 Hf Hr Hin. destruct (nptr_eq s Hok) as (_ & HN & _). set (left := nblocks node - removed) in *.
  assert (Hs : 0 < size) by (apply Z.pow_pos_nonneg; lia).
  assert (Ep : np s ^ Z.of_nat (S d) = np s * size) by (rewrite Nat2Z.inj_succ, Z.pow_succ_r by lia; done).
  assert (En : nodes (np s) rd (S d) b (Z.min (np s ^ Z.of_nat (S d)) left) = b :: mjoin (map (child_nodes b left) (seqZ 0 (np s)))).
  { cbn [nodes]. rewrite (proj2 (Z.leb_gt _ 0)) by nia. f_equal. f_equal. apply list_fmap_ext. intros k' k Hk.
    apply list_elem_of_lookup_2, elem_of_seqZ in Hk. unfold child_nodes. f_equal. fold size. rewrite Ep. nia. }
  unfold wp. rewrite Efree. match goal with |- exists a s', ?m s1 = _ /\ _ => change (wp m (free_post (S d) b removed F) s1) end.
  apply wp_bind. unfold free_post. fold left. rewrite En in *. eapply wp_free_one; [exact Hf | apply Hin; by left|]. intros s2 Hf2.
  cbn [negb Z.eqb SUCCESS]. apply wp_bind. eapply wp_mono; [apply (wp_read_freed (F ++ [b]) s2 b
    (fun r s3 => r = (SUCCESS, Some (rd b)) /\ freed s (F ++ [b]) s3)); [exact Hf2 | apply Hin; by left | done]|].
  intros data s3 Hload. apply wp_bind. eapply wp_mono; [exact Hload|]. intros r s4 (-> & Hf4). cbn [negb Z.eqb SUCCESS].
  apply wp_bind, wp_fetch. rewrite (fr_lay _ _ _ Hf4). replace removed with (removed + 0 * size) at 1 by lia.
  eapply wp_mono; [apply (wp_free_children b removed); try done; try lia; fold left|].
  - intros j x Hj Hx. apply Hin. right. apply elem_of_children. exists j. split; [lia | done].
  - intros r s5 (Hf5 & ->). rewrite Ep. split; [|done]. eapply freed_ext; [|exact Hf5]. intros x.
    rewrite Z.sub_0_r, !elem_of_app, !elem_of_cons, elem_of_nil. tauto.
Qed.

End level.

Lemma free_single_frees : frees 1 (free_from_single_ptr junk).
Proof.
  apply (free_level_frees 0 free_leaf free_leaf_frees). intros b removed s1. unfold free_from_single_ptr, mbind, stM_bind.
  destruct (set_block_allocated b false s1) as [[err s2]| | |]; try done. destruct (negb _); [done|].
  destruct (new_block junk s2) as [[data s3]| | |]; try done. destruct (read_to data b s3) as [[[e d] s4]| | |]; try done.
  destruct (negb _); [done|]. apply free_single_children.
Qed.

Lemma free_double_frees : frees 2 (free_from_double_ptr junk).
Proof. by apply (free_level_frees 1 _ free_single_frees). Qed.

Lemma free_triple_frees : frees 3 (free_from_triple_ptr junk).
Proof. by apply (free_level_frees 2 _ free_double_frees). Qed.

(** The direct blocks. *)
Lemma wp_clear_direct (m : nat) i F s1 :
  length (blocks node) = 15%nat -> 0 <= i -> i + Z.of_nat m <= Z.min 15 (nblocks node) -> freed s F s1 ->
  (forall j, i <= j < i + Z.of_nat m -> in_data s (slot node j)) ->
  wp (clear_direct m i node i) (fun r s2 =>
    freed s (F ++ map (slot node) (seqZ i (Z.of_nat m))) s2 /\
    r = if (0 <? Z.of_nat m) && (i + Z.of_nat m =? nblocks node) then (Some SUCCESS, nblocks node) else (None, i + Z.of_nat m)) s1.
Proof.
  intros Hlen. revert i F s1. induction m as [|m IH]; intros i F s1 Hi Hm Hf Hin.
  { apply wp_ret. rewrite seqZ_nil, app_nil_r by lia. split; [done|]. simpl. f_equal. lia. }
  cbn [clear_direct]. apply wp_bind, wp_block_at; [done | lia|]. apply wp_bind.
  eapply wp_free_one; [exact Hf | apply Hin; lia|]. intros s2 Hf2. cbn [negb Z.eqb SUCCESS].
  assert (Hsigned : to_s32 (nblocks node) = nblocks node) by (unfold to_s32; rewrite Z.mod_small; lia). rewrite Hsigned.
  rewrite (seqZ_cons i) by lia. replace (Z.pred (Z.of_nat (S m))) with (Z.of_nat m) by lia. cbn [map]. rewrite <- Z.add_1_r.
  destruct (Z.eqb_spec (i + 1) (nblocks node)) as [E|Hne].
  - assert (m = 0%nat) as -> by lia. apply wp_ret. split; [done|].
    change (i + Z.of_nat 1) with (i + 1). by rewrite E, Z.eqb_refl.
  - eapply wp_mono; [apply IH; [lia | lia | exact Hf2 | intros j Hj; apply Hin; lia]|]. intros r s3 (Hf3 & ->). split.
    + by rewrite <- app_assoc in Hf3.
    + replace (i + 1 + Z.of_nat m) with (i + Z.of_nat (S m)) by lia. rewrite (proj2 (Z.ltb_lt 0 (Z.of_nat (S m)))) by lia. simpl.
      destruct (Z.ltb_spec 0 (Z.of_nat m)); [done|]. simpl. by rewrite (proj2 (Z.eqb_neq _ _)) by lia.
Qed.

(** The number of blocks kept is the number asked for: the pointers to the
    blocks that stay are not zero. *)
Lemma wp_cleared k s1 (Q : Z * inode_st -> fs_state D -> Prop) :
  length (blocks node) = 15%nat -> 0 <= k -> 0 <= nblocks node -> Z.min k (nblocks node) <= 15 ->
  (forall j, 0 <= j < Z.min k (nblocks node) -> slot node j <> 0) ->
  Q (SUCCESS, with_i_size 0 (with_i_blocks (Z.min k (nblocks node)) node)) s1 -> wp (cleared node k) Q s1.
Proof.
  intros Hlen Hk Hn0 Hmax Hnz HQ. unfold cleared, clamp_kept_blocks.
  assert (Hsigned : to_s32 (nblocks node) = nblocks node) by (unfold to_s32; rewrite Z.mod_small; lia). rewrite Hsigned.
  replace (if nblocks node <? k then nblocks node else k) with (Z.min k (nblocks node)) by (destruct (Z.ltb_spec (nblocks node) k); lia).
  apply wp_bind. assert (Hcl : wp (clamp_loop (Z.to_nat (Z.min k (nblocks node))) node (Z.min k (nblocks node)))
    (fun r s2 => r = Z.min k (nblocks node) /\ s2 = s1) s1).
  { destruct (Z.to_nat _) as [|f] eqn:Ef; cbn [clamp_loop]; destruct (Z.leb_spec (Z.min k (nblocks node)) 0); try lia;
      [by apply wp_ret|].
    apply wp_bind, wp_block_at; [done | lia|]. rewrite (proj2 (Z.eqb_neq (slot node _) 0)) by (apply Hnz; lia). by apply wp_ret. }
  eapply wp_mono; [exact Hcl|]. intros r s2 [-> ->]. apply wp_ret. by rewrite to_u32_small by lia.
Qed.

End free.

(** All blocks of a file past the direct ones, tree by tree. *)
Definition tree_nodes s (node : inode_st) (d : nat) : list Z :=
  nodes (np s) (fs_block s) d (tree_root node d) (tree_count (np s) (nblocks node) d).

Lemma elem_of_tree_nodes s node d x :
  fs_ok s -> 15 < nblocks node -> (1 <= d <= 3)%nat ->
  x ∈ tree_nodes s node d <-> x ∈ tree_ptrs s node d \/
    exists i, 0 <= i - tree_base (np s) d < np s ^ Z.of_nat d /\ i < nblocks node /\ x = file_block s node i.
Proof.
  intros Hok Hn Hd. destruct (nptr_eq s Hok) as (_ & HN & _). unfold tree_nodes. rewrite elem_of_nodes by (unfold tree_count; lia).
  fold (tree_ptrs s node d). apply or_iff_compat_l. unfold tree_count. split.
  - intros (i & Hi & ->). exists (tree_base (np s) d + i). split_and!; [lia.. |]. rewrite (tree_leaf s node d) by (done || lia).
    f_equal. lia.
  - intros (i & Hi & Hin & ->). exists (i - tree_base (np s) d). split; [lia|]. by rewrite (tree_leaf s node d) by (done || lia).
Qed.

Lemma elem_of_file_nodes s node x :
  fs_ok s -> 15 < nblocks node <= 12 + np s + np s ^ 2 + np s ^ 3 ->
  x ∈ tree_nodes s node 1 ++ tree_nodes s node 2 ++ tree_nodes s node 3 <->
  x ∈ file_ptrs s node \/ exists i, 12 <= i < nblocks node /\ x = file_block s node i.
Proof.
  intros Hok Hn. destruct (nptr_eq s Hok) as (_ & HN & _). unfold file_ptrs. rewrite (proj2 (Z.leb_gt _ 15)) by lia.
  rewrite !elem_of_app, !elem_of_tree_nodes by (done || lia). split.
  - assert (Hb : forall d i, (1 <= d <= 3)%nat -> 0 <= i - tree_base (np s) d -> 12 <= i).
    { intros [|[|[|[|]]]] i Hd Hi; try lia; cbn [tree_base] in Hi; nia. }
    intros [[?|(i & Hi & Hin & ->)]|[[?|(i & Hi & Hin & ->)]|[?|(i & Hi & Hin & ->)]]]; auto; right; exists i; (split; [|done]);
      (split; [|done]); [apply (Hb 1%nat) | apply (Hb 2%nat) | apply (Hb 3%nat)]; lia.
  - intros [[?|[?|?]]|(i & Hi & ->)]; auto. destruct (leaf_tree s i Hok) as (d & Hd & Hid); [lia|].
    assert (d = 1 \/ d = 2 \/ d = 3)%nat as [-> |[-> | ->]] by lia; [left | right; left | right; right]; right; exists i; split_and!; done || lia.
Qed.

(** *** Truncating *)

Definition truncated s (node : inode_st) (k : Z) s' (node' : inode_st) : Prop :=
  freed s (file_ptrs s node ++ drop (Z.to_nat k) (file_blocks s node)) s' /\
  node' = with_i_size 0 (with_i_blocks (Z.min k (nblocks node)) node).

Lemma elem_of_tail s node k x :
  0 <= k -> x ∈ drop (Z.to_nat k) (file_blocks s node) <-> exists i, k <= i < nblocks node /\ x = file_block s node i.
Proof.
  intros Hk. unfold file_blocks. rewrite <- fmap_drop. destruct (decide (k <= nblocks node)).
  - replace (nblocks node) with (k + (nblocks node - k)) at 1 by lia. rewrite seqZ_app by lia.
    rewrite drop_app_length' by (rewrite length_seqZ; lia). rewrite list_elem_of_fmap. setoid_rewrite elem_of_seqZ.
    split; intros (i & ? & ?); exists i; (split; [lia || done|]); done || lia.
  - rewrite drop_ge by (rewrite length_seqZ; lia). split; [by intros ?%not_elem_of_nil | intros (i & ? & _); lia].
Qed.

Section clear.
Context s (Hok : fs_ok s) (Hcov : covered (lay s)) (Hfl : ~ flaky (lay s)).
Context (node : inode_st) (Hf : file_ok s node) (Hn : nblocks node < 2 ^ 31) (k : Z) (Hk : 0 <= k <= 12).

Lemma block_in_data i : 0 <= i < nblocks node -> in_data s (file_block s node i).
Proof.
  intros Hi. pose proof (fo_used _ _ Hf) as Hu. rewrite Forall_forall in Hu. apply Hu, elem_of_app. right.
  apply list_elem_of_fmap. exists i. split; [done|]. by apply elem_of_seqZ.
Qed.

Lemma ptr_in_data p : p ∈ file_ptrs s node -> in_data s p.
Proof. intros Hp. pose proof (fo_used _ _ Hf) as Hu. rewrite Forall_forall in Hu. apply Hu, elem_of_app. by left. Qed.

Lemma direct_block i : i < 12 \/ nblocks node <= 15 -> file_block s node i = slot node i.
Proof. intros Hi. unfold file_block. destruct (Z.ltb_spec i 12); [done|]. destruct (Z.leb_spec (nblocks node) 15); [done | lia]. Qed.

Lemma wp_cleared_file F s1 :
  freed s F s1 -> (forall x, x ∈ F <-> x ∈ file_ptrs s node ++ drop (Z.to_nat k) (file_blocks s node)) ->
  wp (cleared node k) (fun r s' => fst r = SUCCESS /\ truncated s node k s' (snd r)) s1.
Proof.
  intros Hfr HF. pose proof (fo_count _ _ Hf). apply wp_cleared; [done | apply Hf | lia | lia | lia | |].
  - intros j Hj. rewrite <- direct_block by lia. destruct (block_in_data j) as [Hd _]; [lia|]. destruct (ok_regions _ Hok). lia.
  - split; [done|]. split; [by eapply freed_ext|done].
Qed.

(** One tree; [removed] is the number of the blocks before it. *)
Lemma wp_clear_tree d free F s1 :
  frees s node d free -> (1 <= d <= 3)%nat -> 15 < nblocks node -> freed s F s1 -> tree_base (np s) d < nblocks node ->
  wp (free (tree_root node d) node (tree_base (np s) d)) (fun r s2 => freed s (F ++ tree_nodes s node d) s2 /\
    r = if nblocks node <=? tree_base (np s) d + np s ^ Z.of_nat d then (-1, nblocks node)
        else (SUCCESS, tree_base (np s) d + np s ^ Z.of_nat d)) s1.
Proof.
  intros Hfree Hd H15 Hfr Hb. destruct (nptr_eq s Hok) as (_ & HN & _).
  assert (0 <= tree_base (np s) d) by (destruct d as [|[|[|[|]]]]; cbn [tree_base]; nia).
  eapply wp_mono; [apply Hfree; [exact Hfr | lia|]|].
  - intros x Hx. apply (elem_of_tree_nodes s node d x) in Hx as [Hp|(i & ? & ? & ->)]; [..|done | done | done].
    + apply ptr_in_data. unfold file_ptrs. rewrite (proj2 (Z.leb_gt _ 15)), !elem_of_app by lia.
      assert (d = 1 \/ d = 2 \/ d = 3)%nat as [-> |[-> | ->]] by lia; auto.
    + apply block_in_data. lia.
  - intros r s2 (Hf2 & ->). split; [done|].
    destruct (Z.leb_spec (nblocks node - tree_base (np s) d) (np s ^ Z.of_nat d)), (Z.leb_spec (nblocks node) (tree_base (np s) d + np s ^ Z.of_nat d)); done || lia.
Qed.

(** The trees that the file does not reach are empty. *)
Lemma tree_nodes_none d : nblocks node <= tree_base (np s) d -> tree_nodes s node d = [].
Proof. intros Hd. unfold tree_nodes, tree_count. apply nodes_none. lia. Qed.

Lemma wp_clear_trees s1 :
  15 < nblocks node -> freed s (map (slot node) (seqZ k (12 - k))) s1 ->
  wp (clear_trees junk node k 12) (fun r s' => fst r = SUCCESS /\ truncated s node k s' (snd r)) s1.
Proof.
  intros H15 Hf0. pose proof Hf as [Hlen Hc Hmax _ _]. destruct (nptr_eq s Hok) as (_ & HN & _).
  set (direct := map _ _) in *. unfold clear_trees.
  assert (Hdone : forall F s2, freed s F s2 -> F = direct ++ tree_nodes s node 1 ++ tree_nodes s node 2 ++ tree_nodes s node 3 ->
            wp (cleared node k) (fun r s' => fst r = SUCCESS /\ truncated s node k s' (snd r)) s2).
  { intros F s2 Hf2 ->. eapply wp_cleared_file; [exact Hf2|]. intros x.
    rewrite (elem_of_app direct), elem_of_file_nodes, (elem_of_app (file_ptrs s node)), elem_of_tail by (done || lia).
    unfold direct. rewrite elem_of_map. setoid_rewrite elem_of_seqZ. split.
    - intros [(i & -> & Hi)|[?|(i & Hi & ->)]]; [right; exists i; rewrite direct_block by lia; split; [lia | done] | auto|].
      right. exists i. split; [lia | done].
    - intros [?|(i & Hi & ->)]; [auto|]. destruct (decide (i < 12)); [left; exists i; rewrite direct_block by lia; split; [done | lia]|].
      right. right. exists i. split; [lia | done]. }
  apply wp_bind, wp_block_at; [done | lia|]. apply wp_bind.
  eapply wp_mono; [apply (wp_clear_tree 1); [by apply free_single_frees | lia | done | exact Hf0 | cbn [tree_base]; lia]|].
  intros r s2 (Hf2 & ->). cbn [tree_base]. change (Z.of_nat 1) with 1. rewrite Z.pow_1_r.
  destruct (Z.leb_spec (nblocks node) (12 + np s)); cbn [Z.eqb SUCCESS Pos.eqb negb].
  { eapply Hdone; [exact Hf2|]. rewrite (tree_nodes_none 2), (tree_nodes_none 3) by (cbn [tree_base]; nia). by rewrite app_nil_r. }
  apply wp_bind, wp_block_at; [done | lia|]. apply wp_bind.
  eapply wp_mono; [apply (wp_clear_tree 2); [by apply free_double_frees | lia | done | exact Hf2 | cbn [tree_base]; lia]|].
  intros r s3 (Hf3 & ->). cbn [tree_base]. change (Z.of_nat 2) with 2.
  destruct (Z.leb_spec (nblocks node) (12 + np s + np s ^ 2)); cbn [Z.eqb SUCCESS Pos.eqb negb].
  { eapply Hdone; [exact Hf3|]. rewrite (tree_nodes_none 3) by (cbn [tree_base]; lia). by rewrite app_nil_r, <- app_assoc. }
  apply wp_bind, wp_block_at; [done | lia|]. apply wp_bind.
  eapply wp_mono; [apply (wp_clear_tree 3); [by apply free_triple_frees | lia | done | exact Hf3 | cbn [tree_base]; lia]|].
  intros r s4 (Hf4 & ->). cbn [tree_base]. change (Z.of_nat 3) with 3. rewrite (proj2 (Z.leb_le (nblocks node) _)) by lia.
  cbn [Z.eqb Pos.eqb]. eapply Hdone; [exact Hf4|]. by rewrite <- !app_assoc.
Qed.

Lemma wp_clear_blocks_of_inode :
  wp (clear_blocks_of_inode junk node k) (fun r s' => fst r = SUCCESS /\ truncated s node k s' (snd r)) s.
Proof.
  pose proof Hf as [Hlen Hc Hmax _ _]. destruct (nptr_eq s Hok) as (_ & HN & _). unfold clear_blocks_of_inode.
  assert (Hsigned : to_s32 (nblocks node) = nblocks node) by (unfold to_s32; rewrite Z.mod_small; lia). rewrite Hsigned.
  destruct (Z.leb_spec (nblocks node) k).
  { apply (wp_cleared_file []); [by apply freed_refl|]. intros x. rewrite elem_of_app, elem_of_tail by lia. unfold file_ptrs.
    rewrite (proj2 (Z.leb_le _ 15)) by lia. split; [by intros ?%not_elem_of_nil|]. intros [?%not_elem_of_nil|(i & ? & _)]; [done | lia]. }
  set (direct := if nblocks node <? 16 then nblocks node else 12).
  assert (Hdir : k <= direct <= Z.min 15 (nblocks node) /\ (nblocks node < 16 /\ direct = nblocks node \/ 16 <= nblocks node /\ direct = 12)).
  { unfold direct. destruct (Z.ltb_spec (nblocks node) 16); lia. }
  destruct Hdir as [Hd1 Hd2]. apply wp_bind. eapply wp_mono; [apply (wp_clear_direct s Hok Hcov Hfl node Hn _ _ []); try done; try lia|].
  - by apply freed_refl.
  - intros j Hj. rewrite <- direct_block by lia. apply block_in_data. lia.
  - intros r s1 (Hf1 & ->). rewrite Z2Nat.id in * by lia. replace (k + (direct - k)) with direct by lia. simpl in Hf1.
    assert (HD : forall x, x ∈ map (slot node) (seqZ k (direct - k)) <-> exists i, k <= i < direct /\ x = file_block s node i).
    { intros x. rewrite elem_of_map. setoid_rewrite elem_of_seqZ. split; intros (i & ? & ?); exists i.
      - rewrite direct_block by lia. split; [lia | done].
      - rewrite <- direct_block by lia. split; [done | lia]. }
    destruct Hd2 as [[H16 Ed]|[H16 Ed]].
    + rewrite (proj2 (Z.ltb_lt 0 _)), (proj2 (Z.eqb_eq direct _)) by lia. cbn [andb Z.eqb SUCCESS].
      eapply wp_cleared_file; [exact Hf1|]. intros x. rewrite HD, Ed, elem_of_app, elem_of_tail by lia. unfold file_ptrs.
      rewrite (proj2 (Z.leb_le _ 15)) by lia. split; [auto|]. by intros [?%not_elem_of_nil|?].
    + rewrite (proj2 (Z.eqb_neq direct _)), andb_false_r, Ed by lia. apply wp_clear_trees; [lia | by rewrite <- Ed].
Qed.
(** What is left is a file with the blocks that were kept. *)
Lemma truncated_ok s' node' :
  truncated s node k s' node' ->
  file_ok s' node' /\ file_blocks s' node' = take (Z.to_nat k) (file_blocks s node) /\ i_size (metadata node') = 0.
Proof.
  intros [Hfr ->]. pose proof Hf as [Hlen Hc Hmax Hnd Hu]. pose proof Hfr as [Hok' El Hb Hbl]. set (node' := with_i_size _ _).
  assert (En : nblocks node' = Z.min k (nblocks node)) by done.
  assert (Ep : file_ptrs s' node' = []) by (unfold file_ptrs; by rewrite (proj2 (Z.leb_le _ 15)) by lia).
  assert (Eb : file_blocks s' node' = take (Z.to_nat k) (file_blocks s node)).
  { unfold file_blocks. rewrite <- fmap_take, En. replace (take (Z.to_nat k) (seqZ 0 (nblocks node))) with (seqZ 0 (Z.min k (nblocks node))).
    - apply list_fmap_ext. intros j i Hi. apply list_elem_of_lookup_2, elem_of_seqZ in Hi. rewrite direct_block by lia.
      unfold file_block. by rewrite (proj2 (Z.leb_le (nblocks node') 15)), orb_true_r by lia.
    - destruct (decide (k <= nblocks node)).
      + replace (nblocks node) with (k + (nblocks node - k)) at 2 by lia. rewrite seqZ_app by lia.
        rewrite take_app_length' by (rewrite length_seqZ; lia). by rewrite Z.min_l by lia.
      + rewrite take_ge by (rewrite length_seqZ; lia). by rewrite Z.min_r by lia. }
  split; [|done]. apply NoDup_app in Hnd as (_ & Hpb & Hnd). rewrite <- (take_drop (Z.to_nat k) (file_blocks s node)) in Hnd.
  apply NoDup_app in Hnd as (Hnd & Hdis & _). apply Forall_app in Hu as [_ Hu]. destruct (nptr_eq s Hok) as (_ & HN & _).
  constructor; [done | lia | rewrite El; nia | by rewrite Ep, Eb |].
  rewrite Ep, Eb. apply Forall_forall. intros x Hx. assert (Hx' : x ∈ file_blocks s node) by (rewrite <- (take_drop (Z.to_nat k) (file_blocks s node)); apply elem_of_app; by left).
  rewrite Forall_forall in Hu. destruct (Hu x Hx') as [Hd Ht]. unfold in_data in *. rewrite El. split; [done|].
  destruct (ok_regions _ Hok). rewrite Hb, Ht, bool_decide_eq_false_2 by (done || lia || (rewrite elem_of_app; intros [Hp|Hp];
    [by apply (Hpb x) | by apply (Hdis x)])). done.
Qed.

End clear.
End rules.

(** ** Properties *)

(** C33. Truncating a file of any size to its first [k] blocks (the kernel uses 0
    when it deletes a file and 1 when it empties one) frees exactly the other
    blocks of the file and all its indirect blocks, changes nothing outside the
    block bitmap, and leaves a well-formed file of the blocks kept, of size 0. *)
Theorem file_truncate_correct {D} `{DeviceLaws D} junk (s : fs_state D) node k :
  fs_ok s -> covered (lay s) -> ~ flaky (lay s) -> file_ok s node -> nblocks node < 2 ^ 31 -> 0 <= k <= 12 ->
  wp (clear_blocks_of_inode junk node k) (fun r s' =>
    let node' := snd r in
    fst r = SUCCESS /\
    freed s (file_ptrs s node ++ drop (Z.to_nat k) (file_blocks s node)) s' /\
    file_ok s' node' /\ file_blocks s' node' = take (Z.to_nat k) (file_blocks s node) /\
    i_size (metadata node') = 0) s.
Proof.
  intros Hok Hcov Hfl Hf Hn Hk. eapply wp_mono; [by apply wp_clear_blocks_of_inode|]. intros [err node'] s' [-> Ht].
  split; [done|]. split; [apply Ht|]. by eapply truncated_ok.
Qed.

Lemma file_truncate_correct_witness :
  exists s : fs_state ram, wp (clear_blocks_of_inode (fun _ _ => 0) (root_node 7 (lay s)) 0)
    (fun r s' => fst r = SUCCESS /\ freed s [8] s') s.
Proof.
  destruct ram_root as (s & El & Hok & Hm & Hf). exists s.
  eapply wp_mono; [apply (file_truncate_correct (fun _ _ => 0) s (root_node 7 (lay s)) 0);
    [exact Hok | rewrite El; vm_compute; done | apply ram_not_flaky | exact Hf | vm_compute; done | lia]|].
  intros r s' (Hs & Hfr & _). split; [exact Hs|]. rewrite El in Hfr. exact Hfr.
Defined.
