(* ===== verification/FileIO.v ===== *)
(** * Reading and writing files

    The file operations of kernel/fs/kapi.c for ordinary files
    ([default_open], [default_read], [default_write], [k_lseek], [k_read],
    [k_write]), the wrappers of kernel/fs/disk.c they use and the look-ups of
    kernel/fs/oft.c.

    A pointer to an open-file entry is its index in [open_file_table], a pointer
    to a cached inode the number of the inode.  The bytes of a file are those of
    its blocks in order. *)

From S2P Require Import Prelude Errors Bytes Services BlockCache Bitmap Layout Inode FileMap FileFree.

Definition O_RDONLY : Z := 1.
Definition O_WRONLY : Z := 2.
Definition O_TRUNC : Z := 4.
Definition O_CREAT : Z := 8.
Definition O_APPEND : Z := 16.
Definition open_flags : list Z := [O_TRUNC; O_CREAT; O_APPEND; O_RDONLY; O_WRONLY].
Definition F_SEEK_SET : Z := 0.
Definition F_SEEK_CUR : Z := 1.
Definition F_SEEK_END : Z := 2.
Definition seek_origins : list Z := [F_SEEK_SET; F_SEEK_CUR; F_SEEK_END].

(** [mode & flag] as a condition *)
Definition has_mode (mode flag : Z) : bool := negb (Z.land mode flag =? 0).

Record oft_entry := mkEntry {
  e_mode : Z;
  e_cursor : Z;
  e_ref_count : Z;
  e_ino_id : Z;
  e_lock : bool
}.

Definition set_e_mode (v : Z) (e : oft_entry) : oft_entry := mkEntry v (e_cursor e) (e_ref_count e) (e_ino_id e) (e_lock e).
Definition set_e_cursor (v : Z) (e : oft_entry) : oft_entry := mkEntry (e_mode e) v (e_ref_count e) (e_ino_id e) (e_lock e).
Definition set_e_ref_count (v : Z) (e : oft_entry) : oft_entry := mkEntry (e_mode e) (e_cursor e) v (e_ino_id e) (e_lock e).
Definition set_e_lock (v : bool) (e : oft_entry) : oft_entry := mkEntry (e_mode e) (e_cursor e) (e_ref_count e) (e_ino_id e) v.

Record cached_inode := mkCached {
  ci_inode : inode_st;
  ci_dirty : bool;
  ci_lock : bool
}.

Record io_state (D : Type) := mkIO {
  io_fs : fs_state D;
  io_oft : list (option oft_entry);
  io_oft_lock : bool;
  io_inodes : gmap Z cached_inode;
  io_mounted : bool
}.

Arguments mkIO {D} _ _ _ _ _.
Arguments io_fs {D} _.
Arguments io_oft {D} _.
Arguments io_oft_lock {D} _.
Arguments io_inodes {D} _.
Arguments io_mounted {D} _.

Section io.
Context {D : Type} `{BlockDevice D}.
(** Byte [k] of memory that [kmalloc] hands out in a state. *)
Context (junk : fs_state D -> Z -> Z).
Implicit Types (s : io_state D).

Abbreviation IO := (stM (io_state D)).

Definition set_io_fs (f : fs_state D) s : io_state D := mkIO f (io_oft s) (io_oft_lock s) (io_inodes s) (io_mounted s).
Definition set_io_oft (t : list (option oft_entry)) s : io_state D := mkIO (io_fs s) t (io_oft_lock s) (io_inodes s) (io_mounted s).
Definition set_io_oft_lock (b : bool) s : io_state D := mkIO (io_fs s) (io_oft s) b (io_inodes s) (io_mounted s).
Definition set_io_inodes (m : gmap Z cached_inode) s : io_state D := mkIO (io_fs s) (io_oft s) (io_oft_lock s) m (io_mounted s).

Definition fs {A} (m : stM (fs_state D) A) : IO A := lift io_fs set_io_fs m.

(** ** Entries and cached inodes *)

(** [*entry] *)
Definition get_oft (fd : Z) : IO oft_entry := fun s =>
  match io_oft s !! Z.to_nat fd with Some (Some e) => if 0 <=? fd then Ok (e, s) else Fault | _ => Fault end.

Definition upd_oft (fd : Z) (f : oft_entry -> oft_entry) : IO unit :=
  e ← get_oft fd;
  modify (fun s => set_io_oft (<[Z.to_nat fd := Some (f e)]> (io_oft s)) s).

Definition entry_lock (fd : Z) : IO unit :=
  e ← get_oft fd;
  if e_lock e then hang else upd_oft fd (set_e_lock true).

Definition entry_unlock (fd : Z) : IO unit := upd_oft fd (set_e_lock false).

Definition cached_at (ino : Z) : IO cached_inode := fun s =>
  match io_inodes s !! ino with Some c => Ok (c, s) | None => Fault end.

(** [*entry->inode] *)
Definition get_inode (fd : Z) : IO cached_inode := e ← get_oft fd; cached_at (e_ino_id e).

Definition put_inode (fd : Z) (c : cached_inode) : IO unit :=
  e ← get_oft fd;
  modify (fun s => set_io_inodes (<[e_ino_id e := c]> (io_inodes s)) s).

Definition cached_inode_lock (fd : Z) : IO unit :=
  c ← get_inode fd;
  if ci_lock c then hang else put_inode fd (mkCached (ci_inode c) (ci_dirty c) true).

Definition cached_inode_unlock (fd : Z) : IO unit :=
  c ← get_inode fd;
  put_inode fd (mkCached (ci_inode c) (ci_dirty c) false).

(** [entry->inode->dirty = 1; entry->inode->inode = node] *)
Definition store_inode (fd : Z) (node : inode_st) : IO unit :=
  c ← get_inode fd;
  put_inode fd (mkCached node true (ci_lock c)).

Definition oft_lock : IO unit := spin_lock io_oft_lock set_io_oft_lock.
Definition oft_unlock : IO unit := spin_unlock set_io_oft_lock.

Definition get_oft_entry_by_fd (fd : Z) : IO (Z * option Z) :=
  _ ← oft_lock;
  t ← fetch io_oft;
  if (fd <? 0) || (Z.of_nat (length t) <=? fd) then _ ← oft_unlock; mret (OFT_FD_DOES_NOT_EXIST, None) else
  match t !! Z.to_nat fd with
  | Some None => _ ← oft_unlock; mret (OFT_FD_DOES_NOT_EXIST, None)
  | Some (Some _) => _ ← oft_unlock; mret (SUCCESS, Some fd)
  | None => fatal
  end.

Definition oft_add_reference (fd : Z) : IO Z :=
  _ ← oft_lock;
  t ← fetch io_oft;
  if (fd <? 0) || (Z.of_nat (length t) <=? fd) then _ ← oft_unlock; mret OFT_FD_DOES_NOT_EXIST else
  match t !! Z.to_nat fd with
  | Some None => _ ← oft_unlock; mret OFT_FD_DOES_NOT_EXIST
  | Some (Some e) =>
      _ ← upd_oft fd (set_e_ref_count (to_u16 (e_ref_count e + 1)));
      _ ← oft_unlock;
      mret SUCCESS
  | None => fatal
  end.

(** ** Wrappers of disk.c *)

Definition get_bytes_per_block : IO Z := fetch (fun s => bytes_per_block (lay (io_fs s))).

Definition get_file_size (fd : Z) : IO Z :=
  _ ← cached_inode_lock fd;
  c ← get_inode fd;
  let size := to_s32 (i_size (metadata (ci_inode c))) in
  _ ← cached_inode_unlock fd;
  mret size.

Definition get_ith_block_of_file (fd block_num : Z) : IO Z :=
  _ ← cached_inode_lock fd;
  c ← get_inode fd;
  _ ← cached_inode_unlock fd;
  fs (get_block_num_from_inode junk (ci_inode c) block_num).

Definition allocate_new_block_for_file (fd : Z) : IO (Z * option Z) :=
  _ ← cached_inode_lock fd;
  c ← get_inode fd;
  '(err, new, node) ← fs (allocate_block_for_file_inode junk (ci_inode c));
  _ ← store_inode fd node;
  _ ← cached_inode_unlock fd;
  mret (err, new).

Definition clear_blocks_of_file (fd : Z) : IO Z :=
  _ ← cached_inode_lock fd;
  c ← get_inode fd;
  '(err, node) ← fs (clear_blocks_of_inode junk (ci_inode c) 1);
  _ ← store_inode fd node;
  _ ← cached_inode_unlock fd;
  mret err.

Definition update_file_size (fd new_size : Z) : IO Z :=
  _ ← cached_inode_lock fd;
  c ← get_inode fd;
  _ ← store_inode fd (with_i_size (to_u32 new_size) (ci_inode c));
  _ ← cached_inode_unlock fd;
  mret SUCCESS.

(** ** [default_read] *)

(** [for (i = 0; i < len; i++) buf[i] = src[off + i]] *)
Definition copy_to (buf src : list Z) (off len : Z) : IO (list Z) :=
  if len <=? 0 then mret buf
  else if (off + len <=? Z.of_nat (length src)) && (len <=? Z.of_nat (length buf))
  then mret (splice buf 0 (slice src (Z.to_nat off) (Z.to_nat len)))
  else fault.

Definition in_block (data : buffer) : IO (list Z) := match data with Some d => mret d | None => fault end.

(** The body of [while (n)]; a turn that reads nothing is repeated for ever. *)
Fixpoint read_loop (fuel : nat) (fd size n curr_block_index curr_block_no remainder_offset bytes_to_read : Z) (start : bool)
    (tot_bytes_read : Z) (data : buffer) (buf : list Z) {struct fuel} : IO (Z * list Z) :=
  match fuel with
  | O => hang
  | S fuel =>
      b ← get_bytes_per_block;
      '(error, data, buf) ←
        (if bytes_to_read <? b then '(e, d) ← fs (read_to data curr_block_no); mret (e, d, buf)
         else
           '(e, d) ← fs (read_block curr_block_no);
           if negb (e =? SUCCESS) then mret (e, data, buf) else
           buf ← copy_to buf d 0 b;
           mret (e, data, buf));
      if negb (error =? SUCCESS) then _ ← entry_unlock fd; mret (error, buf) else
      buf ← (if bytes_to_read <? b then
               d ← in_block data;
               copy_to buf d (if start then remainder_offset else 0) bytes_to_read
             else mret buf);
      e ← get_oft fd;
      let cursor := to_u32 (e_cursor e + bytes_to_read) in
      _ ← upd_oft fd (set_e_cursor cursor);
      let n := to_u64 (n - bytes_to_read) in
      let tot_bytes_read := to_s32 (tot_bytes_read + bytes_to_read) in
      if (n =? 0) || (to_u32 size <=? cursor) then _ ← entry_unlock fd; mret (tot_bytes_read, buf) else
      let curr_block_index := to_u32 (curr_block_index + 1) in
      curr_block_no ← get_ith_block_of_file fd curr_block_index;
      let bytes_to_read := Z.min (to_s32 (size - to_s32 cursor)) (Z.min (to_s32 n) b) in
      read_loop fuel fd size n curr_block_index curr_block_no remainder_offset bytes_to_read false tot_bytes_read data buf
  end.

(** The result and the caller's buffer. *)
Definition default_read (fd : Z) (buf : list Z) (n : Z) : IO (Z * list Z) :=
  size ← get_file_size fd;
  _ ← entry_lock fd;
  e ← get_oft fd;
  let cursor := e_cursor e in
  if to_u32 size <=? cursor then _ ← entry_unlock fd; mret (0, buf) else
  b ← get_bytes_per_block;
  let curr_block_index := cursor / b in
  curr_block_no ← get_ith_block_of_file fd curr_block_index;
  let remainder_offset := cursor mod b in
  let bytes_to_read := Z.min (to_s32 (size - to_s32 cursor)) (Z.min (to_s32 n) (b - remainder_offset)) in
  data ← fs (new_block junk);
  if n =? 0 then _ ← entry_unlock fd; mret (SUCCESS, buf) else
  read_loop (S (Z.to_nat n)) fd size n curr_block_index curr_block_no remainder_offset bytes_to_read true 0 data buf.

(** ** [default_write] *)

(** [for (i = 0; i < len; i++) data[off + i] = buf[i]] *)
Definition copy_from (data buf : list Z) (off len : Z) : IO (list Z) :=
  if len <=? 0 then mret data
  else if (off + len <=? Z.of_nat (length data)) && (len <=? Z.of_nat (length buf))
  then mret (splice data (Z.to_nat off) (take (Z.to_nat len) buf))
  else fault.

Fixpoint write_loop (fuel : nat) (fd size n curr_block_index curr_block_no remainder_offset bytes_to_write : Z) (start : bool)
    (tot_bytes_written offset : Z) (data : buffer) (buf : list Z) {struct fuel} : IO Z :=
  match fuel with
  | O => hang
  | S fuel =>
      if curr_block_no =? 0 then _ ← entry_unlock fd; mret FAT_NO_SPACE_REMAINING else
      b ← get_bytes_per_block;
      '(err, data, to_write) ←
        (if bytes_to_write <? b then
           '(err, data) ← fs (read_to data curr_block_no);
           if negb (err =? SUCCESS) then mret (err, data, []) else
           d ← in_block data;
           d ← copy_from d buf (if start then remainder_offset else 0) bytes_to_write;
           mret (SUCCESS, Some d, d)
         else mret (SUCCESS, data, buf));
      if negb (err =? SUCCESS) then _ ← entry_unlock fd; mret err else
      err ← fs (write_block to_write curr_block_no);
      if negb (err =? 0) then _ ← entry_unlock fd; mret err else
      let offset := to_u32 (offset + bytes_to_write) in
      _ ← upd_oft fd (set_e_cursor offset);
      '(res, size) ← (if to_u32 size <? offset then
                        let size := to_s32 offset in
                        res ← update_file_size fd size;
                        mret (res, size)
                      else mret (SUCCESS, size));
      if negb (res =? SUCCESS) then _ ← entry_unlock fd; mret res else
      let n := to_u64 (n - bytes_to_write) in
      let tot_bytes_written := to_s32 (tot_bytes_written + bytes_to_write) in
      if n =? 0 then _ ← entry_unlock fd; mret tot_bytes_written else
      let curr_block_index := to_u32 (curr_block_index + 1) in
      curr_block_no ← get_ith_block_of_file fd curr_block_index;
      '(alloc_err, curr_block_no) ←
        (if curr_block_no =? 0 then
           '(e, new) ← allocate_new_block_for_file fd;
           mret (e, default curr_block_no new)
         else mret (SUCCESS, curr_block_no));
      if negb (alloc_err =? SUCCESS) then _ ← entry_unlock fd; mret alloc_err else
      let buf := drop (Z.to_nat (if start then bytes_to_write else b)) buf in
      let bytes_to_write := Z.min (to_s32 n) b in
      write_loop fuel fd size n curr_block_index curr_block_no remainder_offset bytes_to_write false tot_bytes_written offset data buf
  end.

Definition default_write (fd : Z) (buf : list Z) (n : Z) : IO Z :=
  size ← get_file_size fd;
  _ ← entry_lock fd;
  e ← get_oft fd;
  let offset := if has_mode (e_mode e) O_APPEND then to_u32 size else e_cursor e in
  b ← get_bytes_per_block;
  let curr_block_index := offset / b in
  curr_block_no ← get_ith_block_of_file fd curr_block_index;
  '(err, curr_block_no) ←
    (if curr_block_no =? 0 then
       '(e, new) ← allocate_new_block_for_file fd;
       mret (e, default curr_block_no new)
     else mret (SUCCESS, curr_block_no));
  if negb (err =? SUCCESS) then _ ← entry_unlock fd; mret err else
  let remainder_offset := offset mod b in
  let bytes_to_write := Z.min (to_s32 n) (b - remainder_offset) in
  data ← fs (new_block junk);
  if n =? 0 then _ ← entry_unlock fd; mret SUCCESS else
  write_loop (S (Z.to_nat n)) fd size n curr_block_index curr_block_no remainder_offset bytes_to_write true 0 offset data buf.

(** ** [k_lseek] *)

(** The blocks of the hole past the end of the file. *)
Fixpoint fill_hole (fuel : nat) (fd offset : Z) (data : buffer) {struct fuel} : IO Z :=
  if offset <=? 0 then mret SUCCESS else
  match fuel with
  | O => hang
  | S fuel =>
      '(alloc_err, new) ← allocate_new_block_for_file fd;
      match alloc_err =? SUCCESS, new with
      | true, Some curr_block =>
          _ ← fs (write_from data curr_block);
          b ← get_bytes_per_block;
          fill_hole fuel fd (offset - b) data
      | _, _ => mret alloc_err
      end
  end.

Definition k_lseek (fd offset whence : Z) : IO Z :=
  if offset <? 0 then mret FILE_SEEK_ERROR else
  mounted ← fetch io_mounted;
  if negb mounted then mret FS_NOT_MOUNTED else
  '(err, _) ← get_oft_entry_by_fd fd;
  if err =? OFT_FD_DOES_NOT_EXIST then mret OFT_FD_DOES_NOT_EXIST else
  _ ← entry_lock fd;
  file_size ← get_file_size fd;
  e ← get_oft fd;
  let cursor :=
    if whence =? F_SEEK_SET then Some offset
    else if whence =? F_SEEK_CUR then Some (to_u32 (e_cursor e + offset))
    else if whence =? F_SEEK_END then Some (to_u32 (file_size + offset))
    else None in
  match cursor with
  | None => _ ← entry_unlock fd; mret INVALID_ARGS
  | Some cursor =>
      _ ← upd_oft fd (set_e_cursor cursor);
      b ← get_bytes_per_block;
      let dif_until_new_block := Z.rem file_size b in
      let offset := to_s32 (cursor - file_size) in
      let curr_block_index := to_u32 (Z.quot (file_size + b - 1) b) in
      curr_block ← get_ith_block_of_file fd curr_block_index;
      '(error, offset) ←
        (if (0 <? offset) && negb (dif_until_new_block =? 0) then
           data ← fs (new_block junk);
           '(error, data) ← fs (read_to data curr_block);
           if negb (error =? SUCCESS) then mret (error, offset) else
           d ← in_block data;
           let end_ := Z.min b (offset + file_size) in
           d ← copy_from d (replicate (Z.to_nat end_) 0) file_size (end_ - file_size);
           error ← fs (write_block d curr_block);
           mret (error, offset - dif_until_new_block)
         else mret (SUCCESS, offset));
      if negb (error =? SUCCESS) then _ ← entry_unlock fd; mret error else
      data ← fs (new_block junk);
      d ← in_block data;
      err ← fill_hole (S (Z.to_nat offset)) fd offset (Some (replicate (length d) 0));
      if negb (err =? SUCCESS) then _ ← entry_unlock fd; mret err else
      _ ← (if to_u32 file_size <? cursor then update_file_size fd cursor else mret SUCCESS);
      _ ← entry_unlock fd;
      mret (to_s32 cursor)
  end.

(** ** [default_open], [k_read] and [k_write] *)

Definition default_open (fd : Z) : IO Z :=
  e ← get_oft fd;
  if has_mode (e_mode e) O_TRUNC then
    err ← clear_blocks_of_file fd;
    if negb (err =? SUCCESS) then mret err else
    _ ← upd_oft fd (set_e_mode (Z.ldiff (e_mode e) O_TRUNC));
    mret SUCCESS
  else mret SUCCESS.

(** The operations of an inode are a parameter: those of ordinary files are
    above, the others belong to the drivers. *)
Record file_operations := mkFops {
  fop_read : option (Z -> list Z -> Z -> IO (Z * list Z));
  fop_write : option (Z -> list Z -> Z -> IO Z)
}.

Definition default_ops : file_operations := mkFops (Some default_read) (Some default_write).

Context (fops : Z -> option file_operations).

Definition k_read (fd : Z) (buf : list Z) (n : Z) : IO (Z * list Z) :=
  mounted ← fetch io_mounted;
  if negb mounted then mret (FS_NOT_MOUNTED, buf) else
  e ← get_oft fd;
  if negb (has_mode (e_mode e) O_RDONLY) then mret (INVALID_PERMISSIONS, buf) else
  c ← get_inode fd;
  let m := metadata (ci_inode c) in
  match f ← fops (i_fops m); fop_read f with
  | Some read => read fd buf n
  | None => if i_type m =? DIRECTORY_TYPE then mret (IS_A_DIRECTORY, buf) else mret (0, buf)
  end.

Definition k_write (fd : Z) (buf : list Z) (n : Z) : IO Z :=
  mounted ← fetch io_mounted;
  if negb mounted then mret FS_NOT_MOUNTED else
  e ← get_oft fd;
  if negb (has_mode (e_mode e) O_WRONLY) then mret INVALID_PERMISSIONS else
  c ← get_inode fd;
  let m := metadata (ci_inode c) in
  match f ← fops (i_fops m); fop_write f with
  | Some write => write fd buf n
  | None => if i_type m =? DIRECTORY_TYPE then mret IS_A_DIRECTORY else mret 0
  end.

End io.

(** ** The bytes of a file *)

Section bytes.
Context {D : Type} `{DeviceLaws D}.
Implicit Types (f : fs_state D) (node : inode_st).

#[local] Abbreviation np s := (BLOCKS_IN_SINGLE_PTR (lay s)).

Definition file_bytes f node : list Z := mjoin (map (fs_block f) (file_blocks f node)).

(** Lists of blocks of [b] bytes. *)
Lemma join_cons (l : list Z) ls : mjoin (l :: ls) = l ++ mjoin ls.
Proof. done. Qed.

Lemma length_join (b : nat) (ls : list (list Z)) : Forall (fun l => length l = b) ls -> length (mjoin ls) = (length ls * b)%nat.
Proof. induction 1 as [|l ls Hl _ IH]; [done|]. rewrite join_cons, length_app, IH, Hl. simpl. lia. Qed.

Lemma length_slice (l : list Z) o n : (o + n <= length l)%nat -> length (slice l o n) = n.
Proof. intros Hl. unfold slice. rewrite length_take, length_drop. lia. Qed.

Lemma slice_join (b i o n : nat) (ls : list (list Z)) l :
  Forall (fun l => length l = b) ls -> ls !! i = Some l -> (o + n <= b)%nat -> slice (mjoin ls) (i * b + o) n = slice l o n.
Proof.
  intros Hf. revert i. induction Hf as [|l0 ls Hl0 Hf IH]; intros i Hi Hn; [done|]. destruct i as [|i]; simpl in Hi.
  - injection Hi as ->. apply list_eq. intros k. rewrite !lookup_slice. case_decide; [|done]. rewrite join_cons. by rewrite lookup_app_l by lia.
  - rewrite join_cons. replace (S i * b + o)%nat with (length l0 + (i * b + o))%nat by lia. rewrite <- (IH i) by done.
    apply list_eq. intros k. rewrite !lookup_slice. case_decide; [|done]. rewrite lookup_app_r by lia. f_equal. lia.
Qed.

(** Writing within one block. *)
Lemma splice_join (b i o : nat) (ls : list (list Z)) l src :
  Forall (fun l => length l = b) ls -> ls !! i = Some l -> (o + length src <= b)%nat ->
  mjoin (<[i := splice l o src]> ls) = splice (mjoin ls) (i * b + o) src.
Proof.
  intros Hf. revert i. induction Hf as [|l0 ls Hl0 Hf IH]; intros i Hi Hn; [done|]. destruct i as [|i]; simpl in Hi.
  - injection Hi as ->. change (<[0%nat := splice l o src]> (l :: ls)) with (splice l o src :: ls). rewrite !join_cons. unfold splice. rewrite take_app_le, drop_app_le by lia. by rewrite <- !app_assoc.
  - change (<[S i := splice l o src]> (l0 :: ls)) with (l0 :: <[i := splice l o src]> ls). rewrite !join_cons, IH by done. unfold splice. replace (S i * b + o)%nat with (length l0 + (i * b + o))%nat by lia.
    rewrite take_app_add, <- app_assoc. f_equal. f_equal. f_equal.
    replace (length l0 + (i * b + o) + length src)%nat with (length l0 + (i * b + o + length src))%nat by lia. by rewrite drop_app_add.
Qed.

Lemma blocks_length f node : fs_ok f -> Forall (fun l => length l = Z.to_nat (bytes_per_block (lay f))) (map (fs_block f) (file_blocks f node)).
Proof.
  intros Hok. apply Forall_fmap, Forall_true. intros n. simpl. rewrite <- (block_length f n) by apply ready_layout, Hok. by rewrite Nat2Z.id.
Qed.

Lemma length_file_blocks f node : length (file_blocks f node) = Z.to_nat (nblocks node).
Proof. unfold file_blocks. by rewrite length_map, length_seqZ. Qed.

Lemma length_file_bytes f node : fs_ok f -> length (file_bytes f node) = (Z.to_nat (nblocks node) * Z.to_nat (bytes_per_block (lay f)))%nat.
Proof. intros Hok. unfold file_bytes. rewrite (length_join _ _ (blocks_length f node Hok)). by rewrite length_map, length_file_blocks. Qed.

Lemma length_file_bytes_Z f node : fs_ok f -> 0 <= nblocks node -> Z.of_nat (length (file_bytes f node)) = nblocks node * bytes_per_block (lay f).
Proof.
  intros Hok Hn. rewrite length_file_bytes by done. pose proof (bits_per_block_eq _ (ready_layout _ (ok_ready _ Hok))).
  rewrite Nat2Z.inj_mul, !Z2Nat.id by lia. done.
Qed.

Lemma file_block_lookup f node i : 0 <= i < nblocks node -> file_blocks f node !! Z.to_nat i = Some (file_block f node i).
Proof. intros Hi. unfold file_blocks. rewrite list_lookup_fmap, lookup_seqZ_lt by lia. simpl. do 2 f_equal. lia. Qed.

(** A piece of one block of the file. *)
Lemma file_bytes_slice f node i o n :
  fs_ok f -> 0 <= i < nblocks node -> 0 <= o -> 0 <= n -> o + n <= bytes_per_block (lay f) ->
  slice (fs_block f (file_block f node i)) (Z.to_nat o) (Z.to_nat n) =
  slice (file_bytes f node) (Z.to_nat (i * bytes_per_block (lay f) + o)) (Z.to_nat n).
Proof.
  intros Hok Hi Ho Hn Hb. symmetry. set (b := bytes_per_block (lay f)) in *.
  replace (Z.to_nat (i * b + o)) with (Z.to_nat i * Z.to_nat b + Z.to_nat o)%nat by nia.
  apply slice_join; [apply blocks_length, Hok | | lia]. by rewrite list_lookup_fmap, file_block_lookup.
Qed.

(** *** Steps that do not touch the indirect blocks of a file *)

Lemma file_same f f' node :
  fs_ok f -> fs_ok f' -> lay f' = lay f -> file_ok f node ->
  (forall j, 0 <= j < total_fs_blocks (lay f) -> block_bit f' j = block_bit f j) ->
  (forall p, p ∈ file_ptrs f node -> fs_block f' p = fs_block f p) ->
  file_ptrs f' node = file_ptrs f node /\ file_blocks f' node = file_blocks f node /\ file_ok f' node.
Proof.
  intros Hok Hok' El Hf Hbits Hp. pose proof Hf as [Hlen Hc Hmax Hnd Hu].
  destruct (nptr_eq f Hok) as (_ & HN & _).
  assert (Htree : forall d, (1 <= d <= 3)%nat -> 15 < nblocks node ->
            tree_ptrs f' node d = tree_ptrs f node d /\
            forall i, 0 <= i < tree_count (np f) (nblocks node) d ->
              walk (np f') (fs_block f') d (tree_root node d) i = walk (np f) (fs_block f) d (tree_root node d) i).
  { intros d Hd Hn. unfold tree_ptrs. rewrite El.
    destruct (decide (0 <= tree_count (np f) (nblocks node) d)) as [Hpos|Hpos].
    - destruct (tree_same f f' d (tree_root node d) (tree_count (np f) (nblocks node) d) El Hpos) as [Hpt Hw]; [|done|].
      + intros p Hin. apply Hp. unfold file_ptrs. rewrite (proj2 (Z.leb_gt _ 15)) by lia. rewrite !elem_of_app.
        assert (d = 1 \/ d = 2 \/ d = 3)%nat as [-> |[-> | ->]] by lia; auto.
      + rewrite El in Hpt. rewrite El in Hw. done.
    - unfold ptrs. rewrite !uses_none by lia. split; [done | lia]. }
  assert (Eb : forall i, 0 <= i < nblocks node -> file_block f' node i = file_block f node i).
  { intros i Hi. unfold file_block. destruct (Z.leb_spec (nblocks node) 15) as [Hn|Hn]; [by rewrite !orb_true_r|]. rewrite !orb_false_r, El.
    destruct (Z.ltb_spec i 12); [done|].
    destruct (Z.ltb_spec i (tree_base (np f) 2)); [|destruct (Z.ltb_spec i (tree_base (np f) 3))]; cbn [tree_base] in *.
    - destruct (Htree 1%nat ltac:(lia) Hn) as [_ Hw]. rewrite El in Hw. apply Hw. unfold tree_count. cbn [tree_base]. change (Z.of_nat 1) with 1. lia.
    - destruct (Htree 2%nat ltac:(lia) Hn) as [_ Hw]. rewrite El in Hw. apply Hw. unfold tree_count. cbn [tree_base]. change (Z.of_nat 2) with 2. lia.
    - destruct (Htree 3%nat ltac:(lia) Hn) as [_ Hw]. rewrite El in Hw. apply Hw. unfold tree_count. cbn [tree_base]. change (Z.of_nat 3) with 3. lia. }
  assert (Ep : file_ptrs f' node = file_ptrs f node).
  { unfold file_ptrs. destruct (Z.leb_spec (nblocks node) 15) as [Hn|Hn]; [done|].
    destruct (Htree 1%nat ltac:(lia) Hn) as [-> _], (Htree 2%nat ltac:(lia) Hn) as [-> _], (Htree 3%nat ltac:(lia) Hn) as [-> _]. done. }
  assert (Efb : file_blocks f' node = file_blocks f node).
  { unfold file_blocks. apply list_fmap_ext. intros k i Hk. apply list_elem_of_lookup_2, elem_of_seqZ in Hk. apply Eb. lia. }
  split; [done|]. split; [done|]. constructor; [done | done | by rewrite El | by rewrite Ep, Efb|]. rewrite Ep, Efb.
  eapply Forall_impl; [exact Hu|]. intros j [Hj Hjb]. unfold in_data in *. rewrite El. split; [done|]. rewrite Hbits; [done|].
  destruct (ok_regions _ Hok). lia.
Qed.

Lemma file_kept f f' node : fs_ok f -> kept f f' -> file_ok f node ->
  fs_ok f' /\ lay f' = lay f /\ file_ok f' node /\ file_ptrs f' node = file_ptrs f node /\ file_blocks f' node = file_blocks f node /\ file_bytes f' node = file_bytes f node.
Proof.
  intros Hok Hk Hf. pose proof Hk as (Hr & El & Hu). assert (Hok' : fs_ok f') by (by apply (fs_ok_lay f)).
  destruct (file_same f f' node) as (Ep & Eb & Hf'); try done.
  - intros j _. unfold block_bit. rewrite El. by apply unchanged_bit.
  - intros p _. by apply kept_block.
  - do 5 (split; [done|]). unfold file_bytes. rewrite Eb. f_equal. apply list_fmap_ext. intros k b _. by apply kept_block.
Qed.
End bytes.

(** ** Files that the lookup of blocks reaches *)

Section files.
Context {D : Type} `{DeviceLaws D}.
Context {junk : fs_state D -> Z -> Z}.
Implicit Types (f : fs_state D) (node : inode_st).

(** A file whose bytes the lookup of blocks reaches. *)
Record sized f node : Prop := {
  sz_fs : fs_ok f;
  sz_file : file_ok f node;
  sz_card : ~ flaky (lay f);
  sz_int : 0 <= i_size (metadata node) < 2 ^ 31;
  sz_blocks : i_size (metadata node) <= nblocks node * bytes_per_block (lay f);
  sz_limit : i_size (metadata node) <= (12 + 2 * BLOCKS_IN_SINGLE_PTR (lay f)) * bytes_per_block (lay f)
}.

Definition contents_of f node : list Z := take (Z.to_nat (i_size (metadata node))) (file_bytes f node).

Lemma sized_bpb f node : sized f node -> 0 < bytes_per_block (lay f) < 2 ^ 31.
Proof.
  intros Hs. pose proof (ready_layout _ (ok_ready _ (sz_fs _ _ Hs))) as Hl. pose proof (bits_per_block_eq _ Hl).
  destruct Hl as (_ & Hb & _). unfold KERNEL_HEAP_SIZE in Hb. lia.
Qed.

Lemma sized_kept f f' node : sized f node -> kept f f' -> sized f' node /\ file_bytes f' node = file_bytes f node /\
  (forall i, 0 <= i < nblocks node -> file_block f' node i = file_block f node i).
Proof.
  intros [Hok Hf Hfl Hi Hb Hl] Hk. destruct (file_kept f f' node Hok Hk Hf) as (Hok' & El & Hf' & _ & Eb & Ebs).
  split; [constructor; rewrite ?El; done|]. split; [done|]. intros i Hi'.
  pose proof (file_block_lookup f' node i Hi') as E1. rewrite Eb, file_block_lookup in E1 by done. congruence.
Qed.

(** What a read leaves in the buffer: every piece of the file, a block at a
    time, is put at the start of the buffer. *)
Fixpoint overlay (fuel : nat) (b : Z) (bytes : list Z) (cur n : Z) (buf : list Z) : list Z :=
  match fuel with
  | O => buf
  | S fuel =>
      if n <=? 0 then buf else
      let k := Z.min n (b - cur mod b) in
      overlay fuel b bytes (cur + k) (n - k) (splice buf 0 (slice bytes (Z.to_nat cur) (Z.to_nat k)))
  end.

Lemma wp_read_file_block f node i (Q : Z * list Z -> fs_state D -> Prop) :
  sized f node -> 0 <= i < nblocks node ->
  (forall f', kept f f' -> Q (SUCCESS, fs_block f (file_block f node i)) f') -> wp (read_block (file_block f node i)) Q f.
Proof.
  intros Hs Hi HQ. pose proof Hs as [Hok Hf Hfl _ _ _].
  assert (Hd : in_data f (file_block f node i)).
  { pose proof (fo_used _ _ Hf) as Hu. apply Forall_app in Hu as [_ Hu]. rewrite Forall_lookup in Hu.
    by apply (Hu (Z.to_nat i)), file_block_lookup. }
  pose proof (in_data_range _ _ Hok Hd) as Hr. eapply wp_mono; [apply wp_read_ready; [apply Hok | lia]|].
  intros r f' [Hk [[-> _]|[_ Hb]]]; [by apply HQ|]. destruct Hfl. by apply (bad_flaky _ _ Hb).
Qed.

Lemma wp_lookup_block f node i (Q : Z -> fs_state D -> Prop) :
  sized f node -> 0 <= i < nblocks node -> i < 12 + 2 * BLOCKS_IN_SINGLE_PTR (lay f) ->
  (forall f', kept f f' -> Q (file_block f node i) f') -> wp (get_block_num_from_inode junk node i) Q f.
Proof.
  intros [Hok Hf Hfl _ _ _] Hi Hl HQ. eapply wp_mono; [by apply wp_get_block_num_from_inode|]. intros b f' [-> Hk]. by apply HQ.
Qed.

Lemma wp_lookup_any f node i :
  fs_ok f -> file_ok f node -> ~ flaky (lay f) -> 0 <= i -> i < 12 + 2 * BLOCKS_IN_SINGLE_PTR (lay f) ->
  wp (get_block_num_from_inode junk node i) (fun no f' => kept f f' /\ (nblocks node <= i -> no = 0)) f.
Proof.
  intros Hok Hf Hfl Hi Hl. destruct (decide (i < nblocks node)).
  - eapply wp_mono; [by apply wp_get_block_num_from_inode|]. intros b f' [-> Hk]. split; [done | lia].
  - unfold get_block_num_from_inode. apply wp_bind, wp_fetch. rewrite (proj2 (Z.leb_le (nblocks node) i)) by lia. apply wp_ret.
    split; [apply kept_refl, Hok | done].
Qed.

Lemma index_bounds b x n m : 0 < b -> 0 <= x < n -> n <= m * b -> 0 <= x / b < m.
Proof. intros. split; [apply Z.div_pos; lia | apply Z.div_lt_upper_bound; lia]. Qed.

Lemma overlay_done fuel b bytes cur n buf : n <= 0 -> overlay fuel b bytes cur n buf = buf.
Proof. intros Hn. destruct fuel; [done|]. cbn [overlay]. by rewrite (proj2 (Z.leb_le n 0)). Qed.

Lemma mod_sum b cur k : 0 < b -> cur mod b + k = b -> (cur + k) mod b = 0 /\ (cur + k) / b = cur / b + 1.
Proof.
  intros Hb E. pose proof (Z.div_mod cur b ltac:(lia)) as Hd. replace (cur + k) with ((cur / b + 1) * b) by lia.
  by rewrite Z.mod_mul, Z.div_mul by lia.
Qed.

Lemma wp_fresh_block f (Q : buffer -> fs_state D -> Prop) :
  fs_ok f -> (forall data f', kept f f' -> Z.of_nat (length data) = bytes_per_block (lay f) -> Q (Some data) f') -> wp (new_block junk) Q f.
Proof.
  intros Hok HQ. pose proof (ready_layout _ (ok_ready _ Hok)) as (_ & Hb & _). pose proof (bits_per_block_eq _ (ready_layout _ (ok_ready _ Hok))).
  apply wp_bind, wp_fetch. apply wp_bind, wp_kmalloc_block; [apply Hok|]. intros f' Hk. apply wp_fetch. apply HQ; [done|].
  rewrite length_map, length_seqZ. lia.
Qed.

(** The number of bytes a read of [n] bytes at [cur] gives. *)
Definition read_count node (cur n : Z) : Z := Z.max 0 (Z.min n (i_size (metadata node) - cur)).

Record writing f node : Prop := {
  wr_sized : sized f node;
  wr_covered : covered (lay f);
  wr_meta : meta_used f
}.

Lemma writing_kept f f' node : writing f node -> kept f f' -> writing f' node /\ contents_of f' node = contents_of f node.
Proof.
  intros [Hs Hcov Hm] Hk. destruct (sized_kept f f' node Hs Hk) as (Hs' & Eb & _). pose proof Hk as (_ & El & Hu).
  split; [|unfold contents_of; by rewrite Eb]. constructor; [done | by rewrite El|]. intros j Hj. rewrite El in Hj.
  rewrite <- (Hm j Hj). unfold block_bit. rewrite El. by apply unchanged_bit.
Qed.

Lemma file_block_data f node i : file_ok f node -> 0 <= i < nblocks node -> in_data f (file_block f node i) /\ file_block f node i ∉ file_ptrs f node.
Proof.
  intros Hf Hi. pose proof (file_block_lookup f node i Hi) as Hl. split.
  - pose proof (fo_used _ _ Hf) as Hu. apply Forall_app in Hu as [_ Hu]. rewrite Forall_lookup in Hu. by apply (Hu (Z.to_nat i)).
  - pose proof (fo_nodup _ _ Hf) as Hn. apply NoDup_app in Hn as (_ & Hn & _). intros Hp. apply (Hn _ Hp). by eapply list_elem_of_lookup_2.
Qed.

(** A data block does not hold bits of the bitmap. *)
Lemma data_bits f f' n j : fs_ok f -> covered (lay f) -> in_data f n -> kept_but n f f' ->
  0 <= j < total_fs_blocks (lay f) -> block_bit f' j = block_bit f j.
Proof.
  intros Hok Hcov Hd (_ & El & Ho) Hj. unfold block_bit, bitmap_bit. rewrite El. f_equal. apply Ho.
  destruct (ok_regions _ Hok). pose proof (bits_per_block_eq _ (ready_layout _ (ok_ready _ Hok))).
  pose proof (Z.div_pos j (bits_per_block (lay f)) ltac:(lia) ltac:(lia)). unfold covered in Hcov.
  assert (j / bits_per_block (lay f) < block_bitmap_blocks (lay f)) by (apply Z.div_lt_upper_bound; lia).
  destruct (data_outside f n Hok Hd); lia.
Qed.

(** Writing [src] into the block [i] of a file, at [o]. *)
Lemma wp_write_file_block f node i o src data (Q : Z -> fs_state D -> Prop) :
  writing f node -> 0 <= i < nblocks node -> (Z.to_nat o + length src <= Z.to_nat (bytes_per_block (lay f)))%nat -> 0 <= o ->
  bytes_per_block (lay f) <= Z.of_nat (length data) ->
  take (Z.to_nat (bytes_per_block (lay f))) data = splice (fs_block f (file_block f node i)) (Z.to_nat o) src ->
  (forall f', writing f' node -> lay f' = lay f -> file_blocks f' node = file_blocks f node ->
     file_bytes f' node = splice (file_bytes f node) (Z.to_nat (i * bytes_per_block (lay f) + o)) src -> Q SUCCESS f') ->
  wp (write_block data (file_block f node i)) Q f.
Proof.
  intros [Hs Hcov Hm] Hi Hsrc Ho Hlen Hdata HQ. pose proof Hs as [Hok Hf Hfl Hint Hsz Hlim]. set (n := file_block f node i) in *.
  destruct (file_block_data f node i Hf Hi) as [Hd Hp]. fold n in Hd, Hp. pose proof (in_data_range _ _ Hok Hd) as Hr.
  eapply wp_mono; [apply wp_write_ready; [apply Hok | lia | done]|]. intros err f' [Hk [(-> & _ & Hw)|(_ & Hbad)]];
    [|destruct Hfl; by apply (bad_flaky _ _ Hbad)].
  pose proof Hk as (Hr' & El & Hother). assert (Hok' : fs_ok f') by (by apply (fs_ok_lay f)).
  destruct (file_same f f' node) as (_ & Eb & Hf'); try done.
  { intros j Hj. by apply (data_bits f f' n). }
  { intros p Hin. apply Hother. congruence. }
  apply HQ; [|done|done|].
  - constructor; [constructor; rewrite ?El; done | by rewrite El|]. intros j Hj. rewrite El in Hj. rewrite <- (Hm j Hj).
    destruct (ok_regions _ Hok). apply (data_bits f f' n); try done. lia.
  - pose proof (file_block_lookup f node i Hi) as Hl. fold n in Hl. unfold file_bytes. rewrite Eb.
    assert (Emap : map (fs_block f') (file_blocks f node) =
                   <[Z.to_nat i := splice (fs_block f n) (Z.to_nat o) src]> (map (fs_block f) (file_blocks f node))).
    { apply list_eq. intros k. rewrite list_lookup_fmap. destruct (decide (k = Z.to_nat i)) as [->|Hne].
      - rewrite Hl, list_lookup_insert_eq; [simpl; by rewrite Hw, Hdata|]. rewrite length_map, length_file_blocks. lia.
      - rewrite list_lookup_insert_ne, list_lookup_fmap by congruence. destruct (file_blocks f node !! k) as [m|] eqn:Hm'; [|done]. simpl.
        f_equal. apply Hother. intros ->. apply Hne. pose proof (fo_nodup _ _ Hf) as Hn. apply NoDup_app in Hn as (_ & _ & Hn).
        by eapply NoDup_lookup. }
    rewrite Emap. set (b := bytes_per_block (lay f)) in *. pose proof (sized_bpb _ _ Hs) as Hb. fold b in Hb.
    rewrite (splice_join (Z.to_nat b) (Z.to_nat i) (Z.to_nat o) _ (fs_block f n) src); [f_equal; nia | by apply blocks_length | | lia].
    rewrite list_lookup_fmap, Hl. done.
Qed.

Lemma appended_bytes f node new f' node' :
  writing f node -> appended f node new f' node' -> i_size (metadata node') = i_size (metadata node) /\ nblocks node' = nblocks node + 1 ->
  writing f' node' /\ file_bytes f' node' = file_bytes f node ++ fs_block f' new /\ file_block f' node' (nblocks node) = new.
Proof.
  intros [Hs Hcov Hm] [Hf' Hattr Hb Hfree [Hok' El] Hbits Hother] [Esz Enb]. pose proof Hs as [Hok Hf Hfl Hint Hsz Hlim].
  pose proof (sized_bpb _ _ Hs) as Hbp. pose proof (fo_count _ _ Hf). split_and!.
  - constructor; [constructor; rewrite ?El, ?Esz, ?Enb; try done; nia | by rewrite El|].
    intros j Hj. rewrite El in Hj. destruct (ok_regions _ Hok). rewrite Hbits by lia. by rewrite (Hm j Hj).
  - unfold file_bytes. rewrite Hb, map_app, join_app. f_equal; [|apply app_nil_r]. f_equal. apply list_fmap_ext. intros k m Hk.
    pose proof (list_elem_of_lookup_2 _ _ _ Hk) as Hin. pose proof (fo_used _ _ Hf) as Hu. apply Forall_app in Hu as [_ Hu].
    rewrite Forall_forall in Hu. apply Hother; [by apply data_outside; [|apply Hu]|].
    pose proof (fo_nodup _ _ Hf') as Hn. apply NoDup_app in Hn as (_ & Hn & _). intros Hp. apply (Hn _ Hp). rewrite Hb. apply elem_of_app. by left.
  - pose proof (file_block_lookup f' node' (nblocks node) ltac:(lia)) as Hl. rewrite Hb, lookup_app_r in Hl by (rewrite length_file_blocks; lia).
    rewrite length_file_blocks, Nat.sub_diag in Hl. by injection Hl.
Qed.

Lemma metadata_appended node node' :
  metadata node' = metadata (with_i_blocks (nblocks node + 1) node) ->
  i_size (metadata node') = i_size (metadata node) /\ nblocks node' = nblocks node + 1 /\ i_fops (metadata node') = i_fops (metadata node).
Proof. intros E. unfold nblocks in *. rewrite E. done. Qed.

(** Lemmas on [splice], which extends the list when it writes past the end. *)
Lemma splice_splice_next (l x y : list Z) o : (o <= length l)%nat -> splice (splice l o x) (o + length x) y = splice l o (x ++ y).
Proof.
  intros Ho. unfold splice. rewrite length_app. rewrite (app_assoc _ x), take_app_length' by (rewrite length_app, length_take; lia).
  rewrite <- !app_assoc. do 3 f_equal. rewrite app_assoc, drop_app_ge by (rewrite length_app, length_take; lia). rewrite drop_drop. f_equal.
  rewrite length_app, length_take. lia.
Qed.

Lemma take_splice (l x : list Z) o n : (o <= n)%nat -> (o + length x <= length l)%nat -> (n <= length l)%nat ->
  take (Nat.max n (o + length x)) (splice l o x) = splice (take n l) o x.
Proof.
  intros Ho Hx Hn. apply list_eq. intros k. unfold splice. rewrite take_take, Nat.min_l by lia.
  destruct (decide (k < o)%nat) as [Hk|Hk].
  { rewrite lookup_take_lt by lia. rewrite !lookup_app_l; [done|rewrite length_take; lia..]. }
  destruct (decide (k < Nat.max n (o + length x))%nat) as [Hm|Hm].
  - rewrite lookup_take_lt by lia. rewrite !(lookup_app_r (take o l)) by (rewrite length_take; lia). rewrite length_take, Nat.min_l by lia.
    destruct (decide (k < o + length x)%nat); [rewrite !lookup_app_l by lia; done|].
    rewrite !(lookup_app_r x), !lookup_drop, lookup_take_lt by lia. f_equal. 
  - rewrite lookup_take_ge by lia. symmetry. apply lookup_ge_None_2. rewrite !length_app, length_drop, !length_take. lia.
Qed.

Lemma slice_splice_ext (l x : list Z) o : (o <= length l)%nat -> slice (splice l o x) o (length x) = x.
Proof. intros Ho. unfold slice, splice. rewrite drop_app_length' by (rewrite length_take; lia). apply take_app_length. Qed.

Lemma splice_all (l x : list Z) : length x = length l -> splice l 0 x = x.
Proof. intros E. unfold splice. rewrite take_0, drop_ge by lia. apply app_nil_r. Qed.

Lemma take_split (l : list Z) k n : (k <= n)%nat -> take n l = take k l ++ take (n - k) (drop k l).
Proof. intros Hk. rewrite take_drop_commute, <- (take_drop k (take n l)), take_take, Nat.min_l by lia. do 2 f_equal. f_equal. lia. Qed.

(** The size of the file after a write that ends at [off]. *)
Definition grown node (off : Z) : inode_st :=
  if i_size (metadata node) <? off then with_i_size (to_u32 off) node else node.

Lemma writing_grown f node off : writing f node -> 0 <= off < 2 ^ 31 -> off <= nblocks node * bytes_per_block (lay f) ->
  off <= (12 + 2 * BLOCKS_IN_SINGLE_PTR (lay f)) * bytes_per_block (lay f) ->
  writing f (grown node off) /\ i_size (metadata (grown node off)) = Z.max (i_size (metadata node)) off.
Proof.
  intros Hw Ho Hn Hl. unfold grown. destruct (Z.ltb_spec (i_size (metadata node)) off); [|split; [done | lia]].
  rewrite (to_u32_small off) by lia. pose proof Hw as [[Hok [? ? ? ? ?] Hfl Hint Hsz Hlim] Hcov Hm]. split; [|simpl; lia].
  constructor; [|done|done]. constructor; done.
Qed.

Lemma grown_bytes f node off : file_bytes f (grown node off) = file_bytes f node.
Proof. unfold grown. by destruct (_ <? _). Qed.

Lemma grown_fops node off : i_fops (metadata (grown node off)) = i_fops (metadata node).
Proof. unfold grown. by destruct (_ <? _). Qed.

Lemma grown_nblocks node off : nblocks (grown node off) = nblocks node.
Proof. unfold grown. by destruct (_ <? _). Qed.

(** A piece written at [cur], the size of the file being adjusted. *)
Lemma contents_written f f' node cur src :
  writing f node -> lay f' = lay f -> (Z.to_nat cur <= Z.to_nat (i_size (metadata node)))%nat -> 0 <= cur ->
  cur + Z.of_nat (length src) <= nblocks node * bytes_per_block (lay f) -> cur + Z.of_nat (length src) < 2 ^ 31 ->
  file_bytes f' node = splice (file_bytes f node) (Z.to_nat cur) src ->
  i_size (metadata (grown node (cur + Z.of_nat (length src)))) = Z.max (i_size (metadata node)) (cur + Z.of_nat (length src)) ->
  contents_of f' (grown node (cur + Z.of_nat (length src))) = splice (contents_of f node) (Z.to_nat cur) src.
Proof.
  intros [[Hok Hf _ Hint Hsz _] _ _] El Hc Hc0 Hn Ho Eb Esz. pose proof (length_file_bytes_Z f node Hok (proj1 (fo_count _ _ Hf))) as Hl.
  unfold contents_of. rewrite grown_bytes, Esz, Eb. rewrite <- take_splice; [f_equal; lia | lia..].
Qed.
End files.

(** ** An open file *)

Section open_file.
Context {D : Type} `{DeviceLaws D}.
Context (junk : fs_state D -> Z -> Z).
(** The entry [fd] of the table refers to the inode [ino], which is cached. *)
Context (s0 : io_state D) (fd mode refs ino : Z).
Context (Hfd : 0 <= fd < Z.of_nat (length (io_oft s0))).
Implicit Types (f : fs_state D) (node : inode_st) (c : cached_inode).

(** The states that differ from [s0] at the entry, its inode and the disk. *)
Definition st f (cursor : Z) (lk : bool) c : io_state D :=
  mkIO f (<[Z.to_nat fd := Some (mkEntry mode cursor refs ino lk)]> (io_oft s0)) (io_oft_lock s0)
    (<[ino := c]> (io_inodes s0)) (io_mounted s0).

Lemma wp_get_oft (Q : oft_entry -> io_state D -> Prop) f cur lk c :
  Q (mkEntry mode cur refs ino lk) (st f cur lk c) -> wp (get_oft fd) Q (st f cur lk c).
Proof.
  intros HQ. eexists _, _. split; [|exact HQ]. unfold get_oft. simpl.
  rewrite list_lookup_insert_eq by lia. by rewrite (proj2 (Z.leb_le _ _)) by lia.
Qed.

Lemma wp_upd_oft g (Q : unit -> io_state D -> Prop) f cur lk c cur' lk' :
  g (mkEntry mode cur refs ino lk) = mkEntry mode cur' refs ino lk' ->
  Q tt (st f cur' lk' c) -> wp (upd_oft fd g) Q (st f cur lk c).
Proof.
  intros Hg HQ. apply wp_bind, wp_get_oft, wp_modify. rewrite Hg. unfold set_io_oft, st in *. simpl. by rewrite list_insert_insert_eq.
Qed.

Lemma wp_entry_lock (Q : unit -> io_state D -> Prop) f cur c : Q tt (st f cur true c) -> wp (entry_lock fd) Q (st f cur false c).
Proof. intros HQ. apply wp_bind, wp_get_oft. by eapply wp_upd_oft. Qed.

Lemma wp_entry_unlock (Q : unit -> io_state D -> Prop) f cur lk c : Q tt (st f cur false c) -> wp (entry_unlock fd) Q (st f cur lk c).
Proof. intros HQ. by eapply wp_upd_oft. Qed.

Lemma wp_get_inode (Q : cached_inode -> io_state D -> Prop) f cur lk c : Q c (st f cur lk c) -> wp (get_inode fd) Q (st f cur lk c).
Proof. intros HQ. apply wp_bind, wp_get_oft. eexists _, _. split; [|exact HQ]. unfold cached_at. simpl. by rewrite lookup_insert_eq. Qed.

Lemma wp_put_inode c' (Q : unit -> io_state D -> Prop) f cur lk c : Q tt (st f cur lk c') -> wp (put_inode fd c') Q (st f cur lk c).
Proof. intros HQ. apply wp_bind, wp_get_oft, wp_modify. unfold set_io_inodes, st in *. simpl. by rewrite insert_insert_eq. Qed.

Lemma wp_inode_lock (Q : unit -> io_state D -> Prop) f cur lk node d :
  Q tt (st f cur lk (mkCached node d true)) -> wp (cached_inode_lock fd) Q (st f cur lk (mkCached node d false)).
Proof. intros HQ. apply wp_bind, wp_get_inode. by apply wp_put_inode. Qed.

Lemma wp_inode_unlock (Q : unit -> io_state D -> Prop) f cur lk node d l :
  Q tt (st f cur lk (mkCached node d false)) -> wp (cached_inode_unlock fd) Q (st f cur lk (mkCached node d l)).
Proof. intros HQ. apply wp_bind, wp_get_inode. by apply wp_put_inode. Qed.

Lemma wp_store_node node' (Q : unit -> io_state D -> Prop) f cur lk node d l :
  Q tt (st f cur lk (mkCached node' true l)) -> wp (store_inode fd node') Q (st f cur lk (mkCached node d l)).
Proof. intros HQ. apply wp_bind, wp_get_inode. by apply wp_put_inode. Qed.

Lemma wp_fs {A} (m : stM (fs_state D) A) (Q : A -> io_state D -> Prop) f cur lk c :
  wp m (fun a f' => Q a (st f' cur lk c)) f -> wp (fs m) Q (st f cur lk c).
Proof. intros Hm. apply wp_lift. exact Hm. Qed.

Lemma wp_bpb (Q : Z -> io_state D -> Prop) f cur lk c :
  Q (bytes_per_block (lay f)) (st f cur lk c) -> wp get_bytes_per_block Q (st f cur lk c).
Proof. intros HQ. by apply wp_fetch. Qed.

(** *** The wrappers of disk.c *)

Lemma wp_get_file_size (Q : Z -> io_state D -> Prop) f cur lk node d :
  Q (to_s32 (i_size (metadata node))) (st f cur lk (mkCached node d false)) ->
  wp (get_file_size fd) Q (st f cur lk (mkCached node d false)).
Proof. intros HQ. apply wp_bind, wp_inode_lock, wp_bind, wp_get_inode, wp_bind, wp_inode_unlock. by apply wp_ret. Qed.

Lemma wp_get_ith i (Q : Z -> io_state D -> Prop) f cur lk node d :
  wp (get_block_num_from_inode junk node i) (fun b f' => Q b (st f' cur lk (mkCached node d false))) f ->
  wp (get_ith_block_of_file junk fd i) Q (st f cur lk (mkCached node d false)).
Proof. intros HQ. apply wp_bind, wp_inode_lock, wp_bind, wp_get_inode, wp_bind, wp_inode_unlock. by apply wp_fs. Qed.

Lemma wp_alloc_file (Q : Z * option Z -> io_state D -> Prop) f cur lk node d :
  wp (allocate_block_for_file_inode junk node)
    (fun '(err, new, node') f' => Q (err, new) (st f' cur lk (mkCached node' true false))) f ->
  wp (allocate_new_block_for_file junk fd) Q (st f cur lk (mkCached node d false)).
Proof.
  intros HQ. apply wp_bind, wp_inode_lock, wp_bind, wp_get_inode, wp_bind, wp_fs. eapply wp_mono; [exact HQ|].
  intros [[err new] node'] f' Hq. apply wp_bind, wp_store_node, wp_bind, wp_inode_unlock. by apply wp_ret.
Qed.

Lemma wp_update_file_size v (Q : Z -> io_state D -> Prop) f cur lk node d :
  Q SUCCESS (st f cur lk (mkCached (with_i_size (to_u32 v) node) true false)) ->
  wp (update_file_size fd v) Q (st f cur lk (mkCached node d false)).
Proof. intros HQ. apply wp_bind, wp_inode_lock, wp_bind, wp_get_inode, wp_bind, wp_store_node, wp_bind, wp_inode_unlock. by apply wp_ret. Qed.

(** *** Reading *)

Lemma wp_copy_to buf src off len (Q : list Z -> io_state D -> Prop) s :
  0 < len -> off + len <= Z.of_nat (length src) -> len <= Z.of_nat (length buf) ->
  Q (splice buf 0 (slice src (Z.to_nat off) (Z.to_nat len))) s -> wp (copy_to buf src off len) Q s.
Proof.
  intros Hl Hs Hb HQ. unfold copy_to. rewrite (proj2 (Z.leb_gt len 0)) by lia.
  rewrite (proj2 (Z.leb_le (off + len) _)), (proj2 (Z.leb_le len _)) by lia. by apply wp_ret.
Qed.

(** One turn of the loop: the piece of the file in the current block. *)
Lemma wp_read_turn f node cur k rem (start : bool) data0 buf lk d (Q : Z * buffer * list Z -> io_state D -> Prop) :
  let b := bytes_per_block (lay f) in
  sized f node -> 0 <= cur < i_size (metadata node) -> 0 < k -> cur mod b + k <= b -> k <= Z.of_nat (length buf) ->
  (if start then rem else 0) = cur mod b ->
  (forall f' data' buf', kept f f' -> (k < b -> data' = Some (fs_block f (file_block f node (cur / b))) /\ buf' = buf) ->
     (b <= k -> data' = Some data0 /\ buf' = splice buf 0 (slice (file_bytes f node) (Z.to_nat cur) (Z.to_nat k))) ->
     Q (SUCCESS, data', buf') (st f' cur lk (mkCached node d false))) ->
  wp (if k <? b then '(e, d) ← fs (read_to (Some data0) (file_block f node (cur / b))); mret (e, d, buf)
      else '(e, d) ← fs (read_block (file_block f node (cur / b)));
           if negb (e =? SUCCESS) then mret (e, Some data0, buf) else
           buf ← copy_to buf d 0 b; mret (e, Some data0, buf)) Q (st f cur lk (mkCached node d false)).
Proof.
  intros b Hs Hc Hk Hm Hlen Hst HQ. pose proof (sized_bpb _ _ Hs) as Hb. fold b in Hb.
  pose proof (index_bounds b cur _ _ ltac:(lia) Hc (sz_blocks _ _ Hs)) as Hi. destruct (Z.ltb_spec k b) as [Hlt|Hge].
  - apply wp_bind, wp_fs. apply wp_bind, (wp_read_file_block f node (cur / b)); [done | done|]. intros f' Hkept.
    cbn [negb Z.eqb SUCCESS]. apply wp_ret, wp_ret. apply HQ; [done | done | lia].
  - pose proof (Z.mod_pos_bound cur b ltac:(lia)). apply wp_bind, wp_fs, (wp_read_file_block f node (cur / b)); [done | done|].
    intros f' Hkept. pose proof (block_length f (file_block f node (cur / b)) (ready_layout _ (ok_ready _ (sz_fs _ _ Hs)))) as Hbl.
    cbn [negb Z.eqb SUCCESS]. fold b in Hbl. apply wp_bind, wp_copy_to; [lia | lia | lia|]. apply wp_ret. apply HQ; [done | lia|]. intros _.
    split; [done|]. assert (k = b) as -> by lia. rewrite (file_bytes_slice f node (cur / b) 0 b) by (first [apply Hs | done | lia]).
    do 3 f_equal. fold b. pose proof (Z.div_mod cur b ltac:(lia)). lia.
Qed.

Lemma wp_read_loop fuel : forall f node cur n k tot rem (start : bool) data0 buf d,
  let b := bytes_per_block (lay f) in let size := i_size (metadata node) in
  sized f node -> 0 <= cur < size -> 0 < n -> (Z.to_nat n <= fuel)%nat -> n <= Z.of_nat (length buf) -> 0 <= tot -> tot + n < 2 ^ 31 ->
  k = Z.min (size - cur) (Z.min n (b - cur mod b)) -> (if start then rem else 0) = cur mod b ->
  wp (read_loop junk fuel fd size n (cur / b) (file_block f node (cur / b)) rem k start tot (Some data0) buf)
    (fun '(r, buf') s' => exists f', s' = st f' (cur + Z.min n (size - cur)) false (mkCached node d false) /\ kept f f' /\
       r = tot + Z.min n (size - cur) /\ buf' = overlay fuel b (file_bytes f node) cur (Z.min n (size - cur)) buf)
    (st f cur true (mkCached node d false)).
Proof.
  induction fuel as [|fuel IH]; intros f node cur n k tot rem start data0 buf d b size Hs Hc Hn Hfuel Hlen Ht Htn Ek Hst; [lia|].
  pose proof (sized_bpb _ _ Hs) as Hb. pose proof (sz_int _ _ Hs) as Hint. fold b size in Hb, Hint.
  pose proof (Z.mod_pos_bound cur b ltac:(lia)) as Hmod. pose proof (index_bounds b cur _ _ ltac:(lia) Hc (sz_blocks _ _ Hs)) as Hi.
  pose proof (Z.div_mod cur b ltac:(lia)) as Hdiv. assert (Hk : 0 < k) by lia. assert (Hkb : cur mod b + k <= b) by lia.
  cbn [read_loop]. apply wp_bind, wp_bpb. apply wp_bind, (wp_read_turn f node cur k rem start); try done; [lia|].
  intros f1 data1 buf1 Hk1 Hpart Hfull. cbn [negb Z.eqb SUCCESS]. fold b in Hpart, Hfull |- *.
  pose proof (block_length f (file_block f node (cur / b)) (ready_layout _ (ok_ready _ (sz_fs _ _ Hs)))) as Hbl. fold b in Hbl.
  destruct (sized_kept f f1 node Hs Hk1) as (Hs1 & Ebytes & Eblock). pose proof Hk1 as (_ & El & _).
  set (piece := slice (file_bytes f node) (Z.to_nat cur) (Z.to_nat k)).
  assert (Hpl : length piece = Z.to_nat k).
  { unfold piece. rewrite length_slice; [done|]. rewrite (length_file_bytes f node) by apply Hs. fold b. nia. }
  apply wp_bind. eapply (wp_mono _ (fun buf2 s' => buf2 = splice buf 0 piece /\ s' = st f1 cur true (mkCached node d false))).
  { destruct (Z.ltb_spec k b) as [Hlt|Hge].
    - destruct (Hpart Hlt) as [-> ->]. apply wp_bind, wp_ret. rewrite Hst. apply wp_copy_to; [lia | lia | lia|]. split; [|done].
      unfold piece. rewrite (file_bytes_slice f node (cur / b) (cur mod b) k) by (first [apply Hs | done | lia]). do 3 f_equal. lia.
    - destruct (Hfull Hge) as [-> ->]. by apply wp_ret. }
  intros buf2 s2 [-> ->]. assert (Hd1 : exists d1, data1 = Some d1).
  { destruct (Z.lt_ge_cases k b) as [Hlt|Hge]; [destruct (Hpart Hlt) as [-> _] | destruct (Hfull Hge) as [-> _]]; eauto. }
  destruct Hd1 as [d1 ->]. apply wp_bind, wp_get_oft. cbn [e_cursor]. rewrite (to_u32_small (cur + k)) by lia.
  apply wp_bind. eapply wp_upd_oft; [done|]. unfold to_u64. rewrite (wrap_small 64 (n - k)) by lia.
  rewrite (to_s32_id (tot + k)), (to_u32_small size) by lia.
  assert (Hov : overlay (S fuel) b (file_bytes f node) cur (Z.min n (size - cur)) buf =
                overlay fuel b (file_bytes f node) (cur + k) (Z.min n (size - cur) - k) (splice buf 0 piece)).
  { cbn [overlay]. rewrite (proj2 (Z.leb_gt _ 0)) by lia. replace (Z.min (Z.min n (size - cur)) (b - cur mod b)) with k by lia. done. }
  destruct (_ || _) eqn:Hend.
  - apply wp_bind, wp_entry_unlock, wp_ret. exists f1. assert (Ek2 : k = Z.min n (size - cur)).
    { apply orb_true_iff in Hend as [E|E]; [apply Z.eqb_eq in E; lia | apply Z.leb_le in E; lia]. }
    rewrite Hov, overlay_done, <- Ek2 by lia. done.
  - apply orb_false_iff in Hend as [E1 E2]. apply Z.eqb_neq in E1. apply Z.leb_gt in E2.
    destruct (mod_sum b cur k) as [Em Ed]; [lia | lia|]. assert (Hc2 : 0 <= cur + k < size) by lia.
    pose proof (index_bounds b (cur + k) _ _ ltac:(lia) Hc2 (sz_blocks _ _ Hs)) as Hi2.
    pose proof (index_bounds b (cur + k) _ _ ltac:(lia) Hc2 (sz_limit _ _ Hs)) as Hi3.
    pose proof (fo_count _ _ (sz_file _ _ Hs)). rewrite <- Ed, (to_u32_small ((cur + k) / b)) by lia.
    apply wp_bind, wp_get_ith, (wp_lookup_block f1); [done | done | rewrite El; lia |]. intros f2 Hk2.
    destruct (sized_kept f1 f2 node Hs1 Hk2) as (Hs2 & Ebytes2 & Eblock2). pose proof Hk2 as (_ & El2 & _).
    rewrite (to_s32_id (cur + k)), (to_s32_id (n - k)), (to_s32_id (size - (cur + k))) by lia.
    rewrite <- (Eblock2 ((cur + k) / b)) by lia. pose proof (IH f2 node (cur + k) (n - k)) as IH'.
    rewrite El2, El, Ebytes2, Ebytes in IH'. fold b size in IH'.
    eapply wp_mono; [apply IH'; try done; try lia|].
    + rewrite length_splice by (rewrite Hpl; lia). lia.
    + intros [r buf'] s' (f3 & -> & Hk3 & -> & ->). exists f3.
      assert (Emin : k + Z.min (n - k) (size - (cur + k)) = Z.min n (size - cur)) by lia.
      split; [f_equal; lia|]. split; [by eapply kept_trans; [|exact Hk3]; eapply kept_trans|]. split; [lia|].
      rewrite Hov. f_equal. lia.
Qed.

Definition read_post f node d (cur n : Z) (buf : list Z) (r : Z * list Z) (s' : io_state D) : Prop :=
  exists f', kept f f' /\ s' = st f' (cur + read_count node cur n) false (mkCached node d false) /\
  r = (read_count node cur n, overlay (S (Z.to_nat n)) (bytes_per_block (lay f)) (file_bytes f node) cur (read_count node cur n) buf).

Lemma wp_default_read f node d cur n buf :
  sized f node -> 0 <= cur < 2 ^ 32 -> 0 <= n < 2 ^ 31 -> n <= Z.of_nat (length buf) ->
  wp (default_read junk fd buf n) (read_post f node d cur n buf) (st f cur false (mkCached node d false)).
Proof.
  intros Hs Hc Hn Hlen. pose proof (sz_int _ _ Hs) as Hint. pose proof (sized_bpb _ _ Hs) as Hb. unfold read_post, read_count.
  apply wp_bind, wp_get_file_size. rewrite to_s32_id by lia. set (size := i_size (metadata node)) in *. set (b := bytes_per_block (lay f)) in *.
  apply wp_bind, wp_entry_lock. apply wp_bind, wp_get_oft. cbn [e_cursor]. rewrite to_u32_small by lia.
  destruct (Z.leb_spec size cur) as [Hge|Hlt].
  { apply wp_bind, wp_entry_unlock, wp_ret. exists f. rewrite Z.max_l, overlay_done, Z.add_0_r by lia.
    split; [apply kept_refl, (sz_fs _ _ Hs) | done]. }
  apply wp_bind, wp_bpb. fold b. pose proof (index_bounds b cur size _ ltac:(lia) ltac:(lia) (sz_blocks _ _ Hs)) as Hi.
  pose proof (index_bounds b cur size _ ltac:(lia) ltac:(lia) (sz_limit _ _ Hs)) as Hl.
  apply wp_bind, wp_get_ith, (wp_lookup_block f); [done | done | lia|]. intros f1 Hk1.
  destruct (sized_kept f f1 node Hs Hk1) as (Hs1 & Ebytes & Eblock). pose proof Hk1 as (_ & El & _).
  apply wp_bind, wp_fs, wp_fresh_block; [apply Hs1|]. intros data f2 Hk2 _.
  destruct (sized_kept f1 f2 node Hs1 Hk2) as (Hs2 & Ebytes2 & Eblock2). pose proof Hk2 as (_ & El2 & _).
  assert (Hk : kept f f2) by (by eapply kept_trans).
  destruct (Z.eqb_spec n 0) as [->|Hne].
  { apply wp_bind, wp_entry_unlock, wp_ret. exists f2. rewrite Z.max_l, overlay_done, Z.add_0_r by lia. done. }
  rewrite (to_s32_id n), (to_s32_id cur), (to_s32_id (size - cur)) by lia. rewrite <- Eblock, <- Eblock2 by lia.
  pose proof (wp_read_loop (S (Z.to_nat n)) f2 node cur n (Z.min (size - cur) (Z.min n (b - cur mod b))) 0 (cur mod b) true data buf d) as Hw.
  cbn zeta in Hw. rewrite El2, El, Ebytes2, Ebytes in Hw. fold b size in Hw.
  eapply wp_mono; [apply Hw; done || lia|]. intros [r buf'] s' (f3 & -> & Hk3 & -> & ->). exists f3.
  split; [by eapply kept_trans|]. rewrite Z.max_r by lia. done.
Qed.

(** *** Writing *)

(** The block [i] of the file, appended to it if the file ends there. *)
Lemma wp_next_block f node cur lk d i (Q : Z * Z -> io_state D -> Prop) :
  writing f node -> 0 <= i <= nblocks node -> i < 12 + 2 * BLOCKS_IN_SINGLE_PTR (lay f) ->
  (forall f' node' d', writing f' node' -> lay f' = lay f -> i < nblocks node' -> i_size (metadata node') = i_size (metadata node) ->
     i_fops (metadata node') = i_fops (metadata node) ->
     contents_of f' node' = contents_of f node -> Q (SUCCESS, file_block f' node' i) (st f' cur lk (mkCached node' d' false))) ->
  (forall f' node' no, Q (NO_FREE_BLOCKS, no) (st f' cur lk (mkCached node' true false))) ->
  wp (get_ith_block_of_file junk fd i)
    (fun no => wp (if no =? 0 then '(e, new) ← allocate_new_block_for_file junk fd; mret (e, default no new) else mret (SUCCESS, no)) Q)
    (st f cur lk (mkCached node d false)).
Proof.
  intros Hw Hi Hlim HQ Hfull. pose proof Hw as [Hs Hcov Hm]. pose proof Hs as [Hok Hf Hfl Hint Hsz _].
  destruct (nptr_eq f Hok) as (_ & HN & _). pose proof (sized_bpb _ _ Hs) as Hb.
  destruct (decide (i < nblocks node)) as [Hin|Hout].
  - apply wp_get_ith, (wp_lookup_block f); [done | lia | lia|]. intros f1 Hk1.
    destruct (file_block_data f node i Hf ltac:(lia)) as [[Hd _] _]. destruct (ok_regions _ Hok).
    rewrite (proj2 (Z.eqb_neq _ 0)) by lia. apply wp_ret. destruct (sized_kept f f1 node Hs Hk1) as (_ & _ & Eb). rewrite <- Eb by lia.
    destruct (writing_kept f f1 node Hw Hk1) as [Hw1 Ec]. apply HQ; try done. by destruct Hk1 as (_ & ? & _).
  - assert (i = nblocks node) as -> by lia. apply wp_get_ith. unfold get_block_num_from_inode. apply wp_bind, wp_fetch.
    rewrite (proj2 (Z.leb_le (nblocks node) _)) by lia. apply wp_ret. cbn [Z.eqb].
    apply wp_bind, wp_alloc_file. eapply wp_mono; [apply wp_allocate_block_for_file_inode; try done; by right|].
    intros [[err [new|]] node'] f'; cbn [allocate_block_post].
    + intros [-> Hap]. apply wp_ret. destruct (metadata_appended node node' (ap_attr _ _ _ _ _ Hap)) as (Esz & Enb & Eops).
      destruct (appended_bytes f node new f' node' Hw Hap (conj Esz Enb)) as (Hw' & Ebytes & Elast). simpl. rewrite <- Elast.
      apply HQ; [done | apply Hap | lia | done | done|]. unfold contents_of. rewrite Esz, Ebytes. apply take_app_le.
      rewrite length_file_bytes by done. nia.
    + intros [Hne [(-> & Emax & _)|(_ & _ & [[-> _]|[_ Hfl']])]]; [|by apply wp_ret, Hfull | done].
      unfold max_blocks in Emax. nia.
Qed.

Lemma wp_write_turn f node cur k rem (start : bool) data0 buf cur0 lk d (Q : Z * buffer * list Z -> io_state D -> Prop) :
  let b := bytes_per_block (lay f) in let blk := file_block f node (cur / b) in
  writing f node -> 0 <= cur -> cur / b < nblocks node -> 0 < k -> cur mod b + k <= b -> k <= Z.of_nat (length buf) ->
  (if start then rem else 0) = cur mod b ->
  (forall f' data' to_write, kept f f' -> b <= Z.of_nat (length to_write) ->
     take (Z.to_nat b) to_write = splice (fs_block f blk) (Z.to_nat (cur mod b)) (take (Z.to_nat k) buf) ->
     Q (SUCCESS, Some data', to_write) (st f' cur0 lk (mkCached node d false))) ->
  wp (if k <? b then
        '(err, data) ← fs (read_to (Some data0) blk);
        if negb (err =? SUCCESS) then mret (err, data, []) else
        d ← in_block data;
        d ← copy_from d buf (if start then rem else 0) k;
        mret (SUCCESS, Some d, d)
      else mret (SUCCESS, Some data0, buf)) Q (st f cur0 lk (mkCached node d false)).
Proof.
  intros b blk Hw Hc Hi Hk Hm Hlen Hst HQ. pose proof (wr_sized _ _ Hw) as Hs. pose proof (sized_bpb _ _ Hs) as Hb. fold b in Hb.
  pose proof (Z.mod_pos_bound cur b ltac:(lia)) as Hmod. pose proof (Z.div_pos cur b ltac:(lia) ltac:(lia)) as Hdiv.
  pose proof (block_length f blk (ready_layout _ (ok_ready _ (sz_fs _ _ Hs)))) as Hbl. fold b in Hbl.
  destruct (Z.ltb_spec k b) as [Hlt|Hge].
  - apply wp_bind, wp_fs. apply wp_bind, (wp_read_file_block f node (cur / b)); [done | done|]. intros f' Hkept.
    cbn [negb Z.eqb SUCCESS]. apply wp_ret. cbn [negb Z.eqb SUCCESS]. apply wp_bind, wp_ret. rewrite Hst.
    unfold copy_from. rewrite (proj2 (Z.leb_gt k 0)) by lia. fold blk. rewrite (proj2 (Z.leb_le (cur mod b + k) _)), (proj2 (Z.leb_le k _)) by lia.
    apply wp_bind, wp_ret, wp_ret. assert (Hlen' : length (splice (fs_block f blk) (Z.to_nat (cur mod b)) (take (Z.to_nat k) buf)) = Z.to_nat b).
    { rewrite length_splice; [lia|]. rewrite length_take. lia. }
    apply HQ; [done | lia|]. apply take_ge. lia.
  - apply wp_ret. apply HQ; [apply kept_refl, (sz_fs _ _ Hs) | lia|]. assert (k = b) as -> by lia. replace (cur mod b) with 0 by lia.
    rewrite splice_all; [done|]. rewrite length_take. lia.
Qed.

Definition write_post f node (cur n : Z) (buf : list Z) (tot r : Z) (s' : io_state D) : Prop :=
  (r = tot + n /\ exists f' node' d', s' = st f' (cur + n) false (mkCached node' d' false) /\ writing f' node' /\
     lay f' = lay f /\ i_fops (metadata node') = i_fops (metadata node) /\
     contents_of f' node' = splice (contents_of f node) (Z.to_nat cur) (take (Z.to_nat n) buf)) \/
  (r = NO_FREE_BLOCKS /\ exists f' cur' node' d', s' = st f' cur' false (mkCached node' d' false)).

Lemma wp_write_loop fuel : forall f node cur n k tot rem (start : bool) data0 buf d,
  let b := bytes_per_block (lay f) in let size := i_size (metadata node) in
  writing f node -> 0 <= cur <= size -> cur / b < nblocks node -> 0 < n -> (Z.to_nat n <= fuel)%nat -> n <= Z.of_nat (length buf) ->
  0 <= tot -> tot + n < 2 ^ 31 -> cur + n < 2 ^ 31 -> cur + n <= (12 + 2 * BLOCKS_IN_SINGLE_PTR (lay f)) * b ->
  k = Z.min n (b - cur mod b) -> (if start then rem else 0) = cur mod b -> forall cur0,
  wp (write_loop junk fuel fd size n (cur / b) (file_block f node (cur / b)) rem k start tot cur (Some data0) buf)
    (write_post f node cur n buf tot) (st f cur0 true (mkCached node d false)).
Proof.
  induction fuel as [|fuel IH]; intros f node cur n k tot rem start data0 buf d b size Hw Hc Hi Hn Hfuel Hlen Ht Htn Hcn Hlim Ek Hst cur0; [lia|].
  pose proof (wr_sized _ _ Hw) as Hs. pose proof (sized_bpb _ _ Hs) as Hb. pose proof (sz_int _ _ Hs) as Hint. fold b size in Hb, Hint.
  pose proof (Z.mod_pos_bound cur b ltac:(lia)) as Hmod. pose proof (Z.div_pos cur b ltac:(lia) ltac:(lia)) as Hpos.
  pose proof (Z.div_mod cur b ltac:(lia)) as Hdiv. assert (Hk : 0 < k) by lia. assert (Hkb : cur mod b + k <= b) by lia.
  destruct (file_block_data f node (cur / b) (sz_file _ _ Hs) ltac:(lia)) as [[Hd _] _]. pose proof (ok_regions _ (sz_fs _ _ Hs)) as Hreg.
  cbn [write_loop]. rewrite (proj2 (Z.eqb_neq _ 0)) by (destruct Hreg; lia). apply wp_bind, wp_bpb.
  apply wp_bind, (wp_write_turn f node cur k rem start); try done; [lia..|].
  intros f1 data1 to_write Hk1 Htl Htake. cbn [negb Z.eqb SUCCESS]. fold b in Htl, Htake.
  destruct (writing_kept f f1 node Hw Hk1) as [Hw1 Ec1]. destruct (sized_kept f f1 node Hs Hk1) as (Hs1 & Ebytes & Eblock). pose proof Hk1 as (_ & El1 & _).
  set (piece := take (Z.to_nat k) buf) in *. assert (Hpl : length piece = Z.to_nat k) by (unfold piece; rewrite length_take; lia).
  apply wp_bind, wp_fs. rewrite <- (Eblock (cur / b)) by lia.
  apply (wp_write_file_block f1 node (cur / b) (cur mod b) piece to_write); rewrite ?El1; fold b; try done; try lia.
  { rewrite Htake. f_equal. rewrite Eblock by lia. symmetry. by apply kept_block. }
  intros f2 Hw2 El2 _ Ebytes2. fold b in Ebytes2. cbn [negb Z.eqb SUCCESS].
  replace (cur / b * b + cur mod b) with cur in Ebytes2 by lia. rewrite Ebytes in Ebytes2.
  rewrite (to_u32_small (cur + k)), (to_u32_small size), (to_s32_id (cur + k)) by lia.
  apply wp_bind. eapply wp_upd_oft; [done|].
  destruct (writing_grown f2 node (cur + k)) as [Hw3 Esz]; [done | lia | rewrite El2; fold b; nia | rewrite El2; fold b; lia|]. fold size in Esz.
  assert (Ec : contents_of f2 (grown node (cur + k)) = splice (contents_of f node) (Z.to_nat cur) piece).
  { pose proof (contents_written f f2 node cur piece Hw El2) as Hcw. rewrite Hpl, Z2Nat.id in Hcw by lia.
    apply Hcw; try done; try lia. fold b. nia. }
  apply wp_bind. eapply (wp_mono _ (fun r s' => r = (SUCCESS, i_size (metadata (grown node (cur + k)))) /\
                           exists d', s' = st f2 (cur + k) true (mkCached (grown node (cur + k)) d' false))).
  { rewrite Esz. unfold grown. fold size. destruct (Z.ltb_spec size (cur + k)).
    - apply wp_bind, wp_update_file_size, wp_ret. split; [f_equal; lia | by eexists].
    - apply wp_ret. split; [f_equal; lia | by eexists]. }
  intros r s' [-> [d' ->]]. cbn [negb Z.eqb SUCCESS].
  unfold to_u64. rewrite (wrap_small 64 (n - k)), (to_s32_id (tot + k)) by lia. destruct (Z.eqb_spec (n - k) 0) as [En|Hne].
  - apply wp_bind, wp_entry_unlock, wp_ret. left. assert (k = n) as -> by lia. split; [done|]. exists f2, (grown node (cur + n)), d'.
    split_and!; try done. apply grown_fops.
  - destruct (mod_sum b cur k) as [Em Ed]; [lia | lia|]. rewrite <- Ed. pose proof (fo_count _ _ (sz_file _ _ Hs)) as Hcount.
    assert (Hc2 : 0 <= cur + k < cur + n) by lia. pose proof (index_bounds b _ _ _ ltac:(lia) Hc2 Hlim) as Hi2.
    rewrite (to_u32_small ((cur + k) / b)) by lia. apply wp_bind. eapply wp_mono; [|intros no s' Hno; apply wp_bind; exact Hno].
    apply wp_next_block; [exact Hw3 | rewrite grown_nblocks; lia | rewrite El2; lia|..].
    + intros f4 node4 d4 Hw4 El4 Hi4 Esz4 Eops4 Ec4. cbn [negb Z.eqb SUCCESS]. rewrite El2 in El4. rewrite (to_s32_id (n - k)) by lia.
      assert (Edrop : drop (Z.to_nat (if start then k else b)) buf = drop (Z.to_nat k) buf) by (destruct start; do 2 f_equal; lia).
      rewrite Edrop. pose proof (IH f4 node4 (cur + k) (n - k)) as IH'. rewrite Esz4, Esz, El4 in IH'. fold b in IH'. rewrite Esz.
      eapply wp_mono; [apply IH'; try done; try lia; rewrite ?length_drop, ?Em; lia|].
      intros r s' [(-> & f5 & node5 & d5 & -> & Hw5 & El5 & Eops5 & Ec5)|Hr]; [left|by right].
      split; [lia|]. exists f5, node5, d5. split; [f_equal; lia|]. split; [done|]. split; [congruence|]. split; [by rewrite Eops5, Eops4, grown_fops|]. rewrite Ec5, Ec4, Ec.
      replace (Z.to_nat (cur + k)) with (Z.to_nat cur + length piece)%nat by lia. rewrite splice_splice_next.
      * unfold piece. rewrite Z2Nat.inj_sub by lia. by rewrite <- take_split by lia.
      * unfold contents_of. rewrite length_take. pose proof (length_file_bytes_Z f node (sz_fs _ _ Hs) (proj1 Hcount)).
        pose proof (sz_blocks _ _ Hs) as Hsb. fold size in Hsb |- *. lia.
    + intros f' node' no. cbn [negb Z.eqb SUCCESS]. change (NO_FREE_BLOCKS =? 0) with false. cbn [negb].
      apply wp_bind, wp_entry_unlock, wp_ret. right. split; [done|]. by eexists _, _, _, _.
Qed.

(** Where a write starts. *)
Definition write_offset node (cur : Z) : Z := if has_mode mode O_APPEND then i_size (metadata node) else cur.

Lemma wp_default_write f node d cur n buf :
  let off := write_offset node cur in
  writing f node -> 0 <= off <= i_size (metadata node) -> 0 < n -> n <= Z.of_nat (length buf) -> off + n < 2 ^ 31 ->
  off + n <= (12 + 2 * BLOCKS_IN_SINGLE_PTR (lay f)) * bytes_per_block (lay f) ->
  wp (default_write junk fd buf n) (write_post f node off n buf 0) (st f cur false (mkCached node d false)).
Proof.
  intros off Hw Ho Hn Hlen Hsum Hlim. pose proof (wr_sized _ _ Hw) as Hs. pose proof (sz_int _ _ Hs) as Hint. pose proof (sized_bpb _ _ Hs) as Hb.
  apply wp_bind, wp_get_file_size. rewrite to_s32_id by lia. set (size := i_size (metadata node)) in *. set (b := bytes_per_block (lay f)) in *.
  apply wp_bind, wp_entry_lock. apply wp_bind, wp_get_oft. cbn [e_cursor e_mode]. rewrite to_u32_small by lia.
  change (if has_mode mode O_APPEND then size else cur) with off. apply wp_bind, wp_bpb. fold b.
  assert (Hi : 0 <= off / b <= nblocks node).
  { split; [apply Z.div_pos; lia|]. apply Z.lt_succ_r, Z.div_lt_upper_bound; [lia|]. pose proof (sz_blocks _ _ Hs) as Hsb. fold b size in Hsb. nia. }
  pose proof (index_bounds b off _ _ ltac:(lia) (conj (proj1 Ho) (Z.lt_add_pos_r _ _ Hn)) Hlim) as Hl.
  apply wp_bind. eapply wp_mono; [|intros no s' Hno; apply wp_bind; exact Hno]. apply wp_next_block; [done | done | lia|..].
  - intros f1 node1 d1 Hw1 El Hi1 Esz Eops Ec. cbn [negb Z.eqb SUCCESS]. fold size in Esz.
    apply wp_bind, wp_fs, wp_fresh_block; [apply Hw1|]. intros data f2 Hk2 _.
    destruct (writing_kept f1 f2 node1 Hw1 Hk2) as [Hw2 Ec2]. pose proof Hk2 as (_ & El2 & _).
    destruct (sized_kept f1 f2 node1 (wr_sized _ _ Hw1) Hk2) as (_ & _ & Eb). rewrite <- Eb by lia.
    rewrite (proj2 (Z.eqb_neq n 0)), (to_s32_id n) by lia.
    pose proof (wp_write_loop (S (Z.to_nat n)) f2 node1 off n (Z.min n (b - off mod b)) 0 (off mod b) true data buf d1) as Hloop.
    cbn zeta in Hloop. rewrite Esz, El2, El in Hloop. fold b in Hloop.
    eapply wp_mono; [apply Hloop; done || lia|]. unfold write_post. rewrite Ec2, Ec, Eops, El2, El. done.
  - intros f' node' no. change (NO_FREE_BLOCKS =? SUCCESS) with false. cbn [negb].
    apply wp_bind, wp_entry_unlock, wp_ret. right. split; [done|]. by eexists _, _, _, _.
Qed.

(** *** The system calls *)

Context (fops : Z -> option (file_operations (D := D))).
Context (Hmounted : io_mounted s0 = true) (Hunlocked : io_oft_lock s0 = false).

Lemma wp_k_read f node d cur n buf :
  sized f node -> fops (i_fops (metadata node)) = Some (default_ops junk) -> has_mode mode O_RDONLY = true ->
  0 <= cur < 2 ^ 32 -> 0 <= n < 2 ^ 31 -> n <= Z.of_nat (length buf) ->
  wp (k_read fops fd buf n) (read_post f node d cur n buf) (st f cur false (mkCached node d false)).
Proof.
  intros Hs Hops Hmode Hc Hn Hlen. apply wp_bind, wp_fetch. simpl. rewrite Hmounted. cbn [negb].
  apply wp_bind, wp_get_oft. cbn [e_mode]. rewrite Hmode. cbn [negb]. apply wp_bind, wp_get_inode. cbn [ci_inode]. rewrite Hops. simpl.
  by apply wp_default_read.
Qed.

Lemma wp_k_write f node d cur n buf :
  let off := write_offset node cur in
  writing f node -> fops (i_fops (metadata node)) = Some (default_ops junk) -> has_mode mode O_WRONLY = true ->
  0 <= off <= i_size (metadata node) -> 0 < n -> n <= Z.of_nat (length buf) -> off + n < 2 ^ 31 ->
  off + n <= (12 + 2 * BLOCKS_IN_SINGLE_PTR (lay f)) * bytes_per_block (lay f) ->
  wp (k_write fops fd buf n) (write_post f node off n buf 0) (st f cur false (mkCached node d false)).
Proof.
  intros off Hw Hops Hmode Ho Hn Hlen Hsum Hlim. apply wp_bind, wp_fetch. simpl. rewrite Hmounted. cbn [negb].
  apply wp_bind, wp_get_oft. cbn [e_mode]. rewrite Hmode. cbn [negb]. apply wp_bind, wp_get_inode. cbn [ci_inode]. rewrite Hops. simpl.
  by apply wp_default_write.
Qed.

Lemma wp_by_fd f cur lk c (Q : Z * option Z -> io_state D -> Prop) :
  Q (SUCCESS, Some fd) (st f cur lk c) -> wp (get_oft_entry_by_fd fd) Q (st f cur lk c).
Proof.
  intros HQ. apply wp_bind, wp_spin_lock; [done|]. apply wp_bind, wp_fetch. simpl. rewrite length_insert.
  rewrite (proj2 (Z.ltb_ge fd 0)), (proj2 (Z.leb_gt _ fd)) by lia. simpl. rewrite list_lookup_insert_eq by lia.
  apply wp_bind, wp_modify, wp_ret. unfold st in *. destruct s0. simpl in *. subst. exact HQ.
Qed.

Lemma wp_fill_nothing fuel offset data (Q : Z -> io_state D -> Prop) s : offset <= 0 -> Q SUCCESS s -> wp (fill_hole junk fuel fd offset data) Q s.
Proof. intros Ho HQ. destruct fuel; cbn [fill_hole]; rewrite (proj2 (Z.leb_le offset 0)) by lia; by apply wp_ret. Qed.

Lemma wp_seek_back f node d cur off :
  writing f node -> 0 <= off <= i_size (metadata node) ->
  i_size (metadata node) <= (11 + 2 * BLOCKS_IN_SINGLE_PTR (lay f)) * bytes_per_block (lay f) ->
  wp (k_lseek junk fd off F_SEEK_SET) (fun r s' => r = off /\ exists f', kept f f' /\ s' = st f' off false (mkCached node d false))
    (st f cur false (mkCached node d false)).
Proof.
  intros Hw Ho Hlim. pose proof (wr_sized _ _ Hw) as Hs. pose proof (sz_int _ _ Hs) as Hint. pose proof (sized_bpb _ _ Hs) as Hb.
  unfold k_lseek. rewrite (proj2 (Z.ltb_ge off 0)) by lia. apply wp_bind, wp_fetch. cbn [io_mounted st]. rewrite Hmounted. cbn [negb].
  apply wp_bind, wp_by_fd. change (SUCCESS =? OFT_FD_DOES_NOT_EXIST) with false. cbn match.
  apply wp_bind, wp_entry_lock. apply wp_bind, wp_get_file_size. rewrite (to_s32_id (i_size (metadata node))) by lia. apply wp_bind, wp_get_oft.
  change (F_SEEK_SET =? F_SEEK_SET) with true. cbn match. apply wp_bind. eapply wp_upd_oft; [done|]. apply wp_bind, wp_bpb.
  set (size := i_size (metadata node)) in *. set (b := bytes_per_block (lay f)) in *.
  cbv zeta. rewrite (to_s32_id (off - size)), (proj2 (Z.ltb_ge 0 (off - size))) by lia. cbn [andb].
  rewrite Z.quot_div_nonneg by lia. assert (Hq : 0 <= (size + b - 1) / b < 12 + 2 * BLOCKS_IN_SINGLE_PTR (lay f)).
  { split; [apply Z.div_pos; lia | apply Z.div_lt_upper_bound; lia]. }
  destruct (nptr_eq f (sz_fs _ _ Hs)) as (_ & HN & _). rewrite (to_u32_small ((size + b - 1) / b)) by lia.
  apply wp_bind, wp_get_ith. eapply wp_mono; [apply wp_lookup_any; [apply Hs.. | lia | lia]|]. intros no f1 [Hk1 _].
  apply wp_bind, wp_ret. cbn [negb Z.eqb SUCCESS]. destruct (writing_kept f f1 node Hw Hk1) as [Hw1 _].
  apply wp_bind, wp_fs, wp_fresh_block; [apply Hw1|]. intros data f2 Hk2 _. apply wp_bind, wp_ret.
  apply wp_bind, wp_fill_nothing; [lia|]. cbn [negb Z.eqb SUCCESS]. rewrite (to_u32_small size), (proj2 (Z.ltb_ge size off)) by lia.
  apply wp_bind, wp_ret. apply wp_bind, wp_entry_unlock, wp_ret. split; [by apply to_s32_id; lia|]. exists f2. split; [by eapply kept_trans | done].
Qed.

(** A seek past the end of a file of one block that is not full. *)
Lemma wp_seek_hole f node d cur off :
  let size := i_size (metadata node) in let b := bytes_per_block (lay f) in
  sized f node -> nblocks node = 1 -> 0 < size < b -> size < off <= 2 * size -> off < 2 ^ 31 ->
  wp (k_lseek junk fd off F_SEEK_SET)
    (fun r s' => r = off /\ exists f', kept_but 0 f f' /\
       fs_block f' 0 = splice (fs_block f 0) (Z.to_nat size) (replicate (Z.to_nat (Z.min b off - size)) 0) /\
       s' = st f' off false (mkCached (with_i_size off node) true false))
    (st f cur false (mkCached node d false)).
Proof.
  intros size b Hs Hnb Hsz Ho Hoff. pose proof Hs as [Hok Hf Hfl Hint _ _]. fold size in Hint.
  unfold k_lseek. rewrite (proj2 (Z.ltb_ge off 0)) by lia. apply wp_bind, wp_fetch. cbn [io_mounted st]. rewrite Hmounted. cbn [negb].
  apply wp_bind, wp_by_fd. change (SUCCESS =? OFT_FD_DOES_NOT_EXIST) with false. cbn match.
  apply wp_bind, wp_entry_lock. apply wp_bind, wp_get_file_size. rewrite (to_s32_id (i_size (metadata node))) by lia. apply wp_bind, wp_get_oft.
  change (F_SEEK_SET =? F_SEEK_SET) with true. cbn match. apply wp_bind. eapply wp_upd_oft; [done|]. apply wp_bind, wp_bpb.
  fold size b. cbv zeta. rewrite (to_s32_id (off - size)), (proj2 (Z.ltb_lt 0 (off - size))) by lia.
  rewrite Z.quot_div_nonneg, Z.rem_mod_nonneg, Z.mod_small by lia. assert (Eq : (size + b - 1) / b = 1).
  { symmetry. apply (Z.div_unique_pos _ _ 1 (size - 1)); lia. }
  rewrite Eq, (to_u32_small 1), (proj2 (Z.eqb_neq size 0)) by lia. cbn [andb negb].
  destruct (nptr_eq f Hok) as (_ & HN & _). apply wp_bind, wp_get_ith. eapply wp_mono; [apply wp_lookup_any; [done.. | lia | lia]|].
  intros no f1 [Hk1 Hno]. rewrite (Hno ltac:(lia)). pose proof Hk1 as (Hr1 & El1 & _). pose proof (fs_ok_lay f f1 Hok Hr1 El1) as Hok1.
  apply wp_bind. apply wp_bind, wp_fs, wp_fresh_block; [done|]. intros data f2 Hk2 _. pose proof Hk2 as (Hr2 & El2 & _).
  assert (Hcnt : 0 < fs_block_count (lay f2)) by (rewrite El2, El1; destruct (ok_regions _ Hok); lia).
  assert (Hgood : ~ bad_block (lay f2) 0).
  { intros Hbad. apply Hfl. rewrite <- El1, <- El2. apply (bad_flaky _ _ Hbad). lia. }
  apply wp_bind, wp_fs. apply wp_bind. eapply wp_mono; [apply wp_read_ready; [done | lia]|]. intros r f3 [Hk3 [[-> _]|[_ Hbad]]]; [|done].
  cbn [negb Z.eqb SUCCESS]. apply wp_ret. cbn [negb Z.eqb SUCCESS]. apply wp_bind, wp_ret. pose proof Hk3 as (Hr3 & El3 & _).
  assert (E0 : fs_block f2 0 = fs_block f 0) by (rewrite (kept_block f1 f2), (kept_block f f1); done). rewrite E0.
  pose proof (block_length f 0 (ready_layout _ (ok_ready _ Hok))) as Hbl. fold b in Hbl. replace (off - size + size) with off by lia.
  unfold copy_from. rewrite (proj2 (Z.leb_gt _ 0)), length_replicate by lia.
  rewrite (proj2 (Z.leb_le (size + _) _)), (proj2 (Z.leb_le (Z.min b off - size) _)) by lia. cbn [andb]. rewrite take_replicate, Nat.min_l by lia.
  apply wp_bind, wp_ret. set (sb := splice _ _ _).
  assert (Hsb : length sb = Z.to_nat b) by (unfold sb; rewrite length_splice; [lia | rewrite length_replicate; lia]).
  apply wp_bind, wp_fs. eapply wp_mono; [apply wp_write_ready; [done | lia | rewrite El3, El2, El1; fold b; lia]|].
  intros err f4 [Hk4 [(-> & _ & Hw)|[_ Hbad]]]; [|rewrite El3 in Hbad; done]. apply wp_ret. cbn [negb Z.eqb SUCCESS].
  pose proof Hk4 as (Hr4 & El4 & _). rewrite El3, El2, El1 in El4, Hw. fold b in Hw. rewrite take_ge in Hw by lia.
  apply wp_bind, wp_fs, wp_fresh_block; [by apply (fs_ok_lay f)|]. intros data' f5 Hk5 _. apply wp_bind, wp_ret.
  apply wp_bind, wp_fill_nothing; [lia|]. cbn [negb Z.eqb SUCCESS]. rewrite (to_u32_small size), (proj2 (Z.ltb_lt size off)) by lia.
  apply wp_bind, wp_update_file_size. rewrite (to_u32_small off) by lia. apply wp_bind, wp_entry_unlock, wp_ret.
  split; [by apply to_s32_id; lia|]. exists f5. split_and!; [|by rewrite (kept_block f4 f5)|done].
  apply (kept_but_trans 0 f f4 f5); [|by apply kept_kept_but]. apply (kept_but_trans 0 f f3 f4); [|done].
  apply kept_kept_but. eapply kept_trans; [|exact Hk3]. by eapply kept_trans.
Qed.
End open_file.

Section results.
Context {D : Type} `{DeviceLaws D}.
Implicit Types (f : fs_state D) (node : inode_st).

Lemma contents_slice f node cur n :
  0 <= cur -> 0 <= n -> cur + n <= i_size (metadata node) ->
  slice (contents_of f node) (Z.to_nat cur) (Z.to_nat n) = slice (file_bytes f node) (Z.to_nat cur) (Z.to_nat n).
Proof.
  intros Hc Hn Hs. apply list_eq. intros k. unfold contents_of. rewrite !lookup_slice. case_decide; [|done]. apply lookup_take_lt. lia.
Qed.

Lemma length_contents f node : sized f node -> length (contents_of f node) = Z.to_nat (i_size (metadata node)).
Proof.
  intros [Hok Hf _ Hint Hsz _]. unfold contents_of. rewrite length_take. pose proof (length_file_bytes_Z f node Hok (proj1 (fo_count _ _ Hf))). lia.
Qed.

(** Two pieces put at the start of a buffer. *)
Lemma overlaid (buf p q : list Z) : (length p <= length buf)%nat -> (length q <= length buf)%nat ->
  take (length q) (splice (splice buf 0 p) 0 q) = q /\
  drop (Nat.max (length p) (length q)) (splice (splice buf 0 p) 0 q) = drop (Nat.max (length p) (length q)) buf.
Proof.
  intros Hp Hq. unfold splice. cbn [Nat.add]. rewrite !take_0. cbn [app]. split; [by rewrite take_app_length|].
  apply list_eq. intros i. rewrite !lookup_drop. rewrite lookup_app_r by lia. rewrite lookup_drop, lookup_app_r by lia.
  rewrite lookup_drop. f_equal. lia.
Qed.

(** A read within one block. *)
Lemma overlay_one fuel f node cur n buf :
  let b := bytes_per_block (lay f) in let k := read_count node cur n in
  0 <= cur -> cur mod b + k <= b ->
  overlay (S fuel) b (file_bytes f node) cur k buf = splice buf 0 (slice (contents_of f node) (Z.to_nat cur) (Z.to_nat k)).
Proof.
  intros b k Hc Hm. cbn [overlay]. destruct (Z.leb_spec k 0) as [Hk|Hk].
  - replace (Z.to_nat k) with 0%nat by lia. unfold slice, splice. by rewrite !take_0.
  - rewrite Z.min_l by lia. rewrite overlay_done by lia. rewrite contents_slice; [done | lia | lia | unfold k, read_count in *; lia].
Qed.

(** A read that crosses one boundary between blocks. *)
Lemma overlay_two fuel f node cur n buf :
  let b := bytes_per_block (lay f) in let k := read_count node cur n in let k1 := b - cur mod b in
  0 < b -> 0 <= cur -> k1 < k <= k1 + b ->
  overlay (S (S fuel)) b (file_bytes f node) cur k buf =
    splice (splice buf 0 (slice (contents_of f node) (Z.to_nat cur) (Z.to_nat k1))) 0
      (slice (contents_of f node) (Z.to_nat (cur + k1)) (Z.to_nat (k - k1))).
Proof.
  intros b k k1 Hb Hc Hk. pose proof (Z.mod_pos_bound cur b Hb). cbn [overlay]. rewrite (proj2 (Z.leb_gt k 0)) by lia.
  fold k1. rewrite (Z.min_r k k1) by lia. rewrite (proj2 (Z.leb_gt (k - k1) 0)) by lia. destruct (mod_sum b cur k1 Hb ltac:(lia)) as [-> _].
  rewrite Z.sub_0_r, (Z.min_l (k - k1)), overlay_done by lia. unfold k, read_count in *. rewrite !contents_slice by lia. done.
Qed.
End results.

(** ** Example states *)

(** A file system in memory whose first 16 blocks are in use, and a file of two
    blocks there. *)
Definition ram_disk : fs_state ram :=
  mkFS (lay ram_fs) (cache ram_fs) false false false (fun _ => true) {[101 := [255; 255]]}.

Definition ram_inode (size blocks : Z) : inode_st := mkInode (mkAttr 1 FILE_TYPE 7 size blocks 7 (0, 0) 0 0) ([8; 9] ++ replicate 13 0).

Definition ram_entry (cursor : Z) : oft_entry := mkEntry (O_RDONLY + O_WRONLY) cursor 1 2 false.

Definition ram_io (size blocks cursor : Z) : io_state ram :=
  mkIO ram_disk [Some (ram_entry cursor)] false {[2 := mkCached (ram_inode size blocks) false false]} true.

Lemma ram_disk_ok : fs_ok ram_disk.
Proof.
  constructor; [|constructor; vm_compute; done | vm_compute; done..].
  split; [|done]. exists []. split; [|split; [simpl; lia | done]]. exists []. constructor; try done; [|constructor].
  constructor; try done; [constructor|]. by intros a [x Hx].
Qed.

Lemma ram_writing size blocks :
  (blocks = 1 \/ blocks = 2) -> 0 <= size <= 512 * blocks -> writing ram_disk (ram_inode size blocks).
Proof.
  intros Hb Hs. constructor; [|vm_compute; done|].
  - constructor; [exact ram_disk_ok | | apply ram_not_flaky | simpl; lia | unfold nblocks; simpl; lia | vm_compute BLOCKS_IN_SINGLE_PTR; simpl; lia].
    constructor; [done | unfold nblocks; simpl; lia | |..].
    + vm_compute BLOCKS_IN_SINGLE_PTR. unfold nblocks. simpl. lia.
    + destruct Hb as [-> | ->]; apply (bool_decide_unpack _); vm_compute; done.
    + destruct Hb as [-> | ->]; unfold in_data; apply (bool_decide_unpack _); vm_compute; done.
  - intros j Hj. cbn in Hj. assert (j = 0 \/ j = 1 \/ j = 2 \/ j = 3 \/ j = 4 \/ j = 5 \/ j = 6 \/ j = 7) as Hj' by lia.
    repeat (destruct Hj' as [-> |Hj']; [vm_compute; done|]). subst. vm_compute. done.
Qed.

(** ** Properties *)

(** The entry [fd] is [e], which refers to the cached inode [node]; no lock is held. *)
Record opened {D} (s : io_state D) (fd : Z) (e : oft_entry) (node : inode_st) (dirty : bool) : Prop := {
  op_fd : 0 <= fd;
  op_entry : io_oft s !! Z.to_nat fd = Some (Some e);
  op_inode : io_inodes s !! e_ino_id e = Some (mkCached node dirty false);
  op_lock : e_lock e = false;
  op_table : io_oft_lock s = false;
  op_mounted : io_mounted s = true
}.

(** [write] of [n] bytes, [lseek] back to [off], [read] of [n] bytes. *)
Definition write_seek_read {D} `{BlockDevice D} junk fops (fd : Z) (buf : list Z) (n off : Z) (buf2 : list Z) : stM (io_state D) (Z * Z * list Z) :=
  r ← k_write fops fd buf n;
  if negb (r =? n) then mret (r, 0, buf2) else
  _ ← k_lseek junk fd off F_SEEK_SET;
  '(r2, buf2) ← k_read fops fd buf2 n;
  mret (r, r2, buf2).

(** The state [s] with another disk, cursor of [fd] and inode. *)
Definition after {D} (s : io_state D) (fd : Z) (e : oft_entry) (f : fs_state D) (cursor : Z) (c : cached_inode) : io_state D :=
  st s fd (e_mode e) (e_ref_count e) (e_ino_id e) f cursor false c.

Lemma opened_st {D} (s : io_state D) fd e node d : opened s fd e node d ->
  s = after s fd e (io_fs s) (e_cursor e) (mkCached node d false) /\ 0 <= fd < Z.of_nat (length (io_oft s)).
Proof.
  intros [Hfd He Hi Hl Ht Hm]. split; [|apply lookup_lt_Some in He; lia]. unfold after, st. destruct s, e. simpl in *. subst.
  by rewrite list_insert_id, insert_id.
Qed.

Lemma wp_read_opened {D} `{DeviceLaws D} junk fops (s : io_state D) fd e node d n buf :
  opened s fd e node d -> sized (io_fs s) node -> fops (i_fops (metadata node)) = Some (default_ops junk) ->
  has_mode (e_mode e) O_RDONLY = true -> 0 <= e_cursor e < 2 ^ 32 -> 0 <= n < 2 ^ 31 -> n <= Z.of_nat (length buf) ->
  wp (k_read fops fd buf n)
    (read_post s fd (e_mode e) (e_ref_count e) (e_ino_id e) (io_fs s) node d (e_cursor e) n buf) s.
Proof.
  intros Hop Hs Hf Hm Hc Hn Hl. destruct (opened_st s fd e node d Hop) as [Es Hfd].
  pose proof (wp_k_read junk s fd (e_mode e) (e_ref_count e) (e_ino_id e) Hfd fops (op_mounted _ _ _ _ _ Hop)
                (io_fs s) node d (e_cursor e) n buf Hs Hf Hm Hc Hn Hl) as Hw.
  fold (after s fd e (io_fs s) (e_cursor e) (mkCached node d false)) in Hw. by rewrite <- Es in Hw.
Qed.

Lemma wp_write_opened {D} `{DeviceLaws D} junk fops (s : io_state D) fd e node d n buf :
  let off := write_offset (e_mode e) node (e_cursor e) in
  opened s fd e node d -> writing (io_fs s) node -> fops (i_fops (metadata node)) = Some (default_ops junk) ->
  has_mode (e_mode e) O_WRONLY = true -> 0 <= off <= i_size (metadata node) -> 0 < n -> n <= Z.of_nat (length buf) ->
  off + n < 2 ^ 31 -> off + n <= (12 + 2 * BLOCKS_IN_SINGLE_PTR (lay (io_fs s))) * bytes_per_block (lay (io_fs s)) ->
  wp (k_write fops fd buf n)
    (write_post s fd (e_mode e) (e_ref_count e) (e_ino_id e) (io_fs s) node off n buf 0) s.
Proof.
  intros off Hop Hs Hf Hm Hc Hn Hl H1 H2. destruct (opened_st s fd e node d Hop) as [Es Hfd].
  pose proof (wp_k_write junk s fd (e_mode e) (e_ref_count e) (e_ino_id e) Hfd fops (op_mounted _ _ _ _ _ Hop)
                (io_fs s) node d (e_cursor e) n buf Hs Hf Hm Hc Hn Hl H1 H2) as Hw.
  fold (after s fd e (io_fs s) (e_cursor e) (mkCached node d false)) in Hw. by rewrite <- Es in Hw.
Qed.

Lemma after_opened {D} (s : io_state D) fd e node d f cur node' d' : opened s fd e node d ->
  opened (after s fd e f cur (mkCached node' d' false)) fd (mkEntry (e_mode e) cur (e_ref_count e) (e_ino_id e) false) node' d'.
Proof.
  intros [Hfd He Hi Hl Ht Hm]. constructor; try done; simpl; [|apply lookup_insert_eq].
  apply list_lookup_insert_eq. by eapply lookup_lt_Some.
Qed.

Lemma after_after {D} (s : io_state D) fd e f cur c f' cur' c' :
  after (after s fd e f cur c) fd (mkEntry (e_mode e) cur (e_ref_count e) (e_ino_id e) false) f' cur' c' = after s fd e f' cur' c'.
Proof. unfold after, st. simpl. by rewrite list_insert_insert_eq, insert_insert_eq. Qed.



(** A [read] that crosses a boundary between two blocks does not give the
    bytes of the file: the call returns the number of bytes asked for, but the
    part in the second block has been copied over the start of the buffer, so
    the buffer begins with the bytes of the second block and its end is not
    written. *)
Theorem file_read_spanning {D} `{DeviceLaws D} junk fops (s : io_state D) fd e node d n buf :
  opened s fd e node d -> sized (io_fs s) node -> fops (i_fops (metadata node)) = Some (default_ops junk) ->
  has_mode (e_mode e) O_RDONLY = true -> 0 <= e_cursor e < 2 ^ 32 -> 0 <= n < 2 ^ 31 -> n <= Z.of_nat (length buf) ->
  let b := bytes_per_block (lay (io_fs s)) in let k := read_count node (e_cursor e) n in let k1 := b - e_cursor e mod b in
  k1 < k <= k1 + b ->
  wp (k_read fops fd buf n)
    (fun '(r, buf') _ => r = k /\
       take (Z.to_nat (k - k1)) buf' = slice (contents_of (io_fs s) node) (Z.to_nat (e_cursor e + k1)) (Z.to_nat (k - k1)) /\
       drop (Z.to_nat (Z.max k1 (k - k1))) buf' = drop (Z.to_nat (Z.max k1 (k - k1))) buf) s.
Proof.
  intros Hop Hs Hf Hm Hc Hn Hl b k k1 Hk. eapply wp_mono; [by apply (wp_read_opened junk fops s fd e node d)|].
  intros [r buf'] s' (f' & Hk' & -> & [-> ->]%pair_eq). split; [done|]. pose proof (sized_bpb _ _ Hs) as Hb. fold b in Hb.
  pose proof (Z.mod_pos_bound (e_cursor e) b ltac:(lia)) as Hmod. assert (Hn2 : 2 <= n) by (unfold k, read_count in Hk; lia).
  replace (Z.to_nat n) with (S (Z.to_nat (n - 1))) by lia. pose proof (overlay_two (Z.to_nat (n - 1)) (io_fs s) node (e_cursor e) n buf ltac:(fold b; lia) ltac:(lia) Hk) as Ho. fold b k k1 in Ho. fold b k. rewrite Ho. clear Ho.
  pose proof (length_contents _ _ Hs) as Hlc. assert (Hsum : e_cursor e + k <= i_size (metadata node)) by (unfold k, read_count in *; lia).
  assert (Hkn : k <= n) by (unfold k, read_count; lia).
  destruct (overlaid buf (slice (contents_of (io_fs s) node) (Z.to_nat (e_cursor e)) (Z.to_nat k1))
              (slice (contents_of (io_fs s) node) (Z.to_nat (e_cursor e + k1)) (Z.to_nat (k - k1)))) as [Ht Hd];
    rewrite ?length_slice in * by lia; [lia | lia|]. split; [done|].
  replace (Z.to_nat (Z.max k1 (k - k1))) with (Nat.max (Z.to_nat k1) (Z.to_nat (k - k1))) by lia. done.
Qed.

Lemma file_read_spanning_witness :
  let s := ram_io 700 2 500 in let k := read_count (ram_inode 700 2) 500 50 in
  wp (k_read (fun _ => Some (default_ops (fun _ _ => 0))) 0 (replicate 50 1) 50)
    (fun '(r, buf') _ => r = k /\
       take 38 buf' = slice (contents_of (io_fs s) (ram_inode 700 2)) 512 38 /\ drop 38 buf' = drop 38 (replicate 50 1)) s.
Proof.
  intros s k. apply (file_read_spanning (fun _ _ => 0) (fun _ => Some (default_ops (fun _ _ => 0))) s 0 (ram_entry 500) (ram_inode 700 2) false 50);
    [by constructor | apply ram_writing; lia | done | done | simpl; lia | lia | simpl; lia | vm_compute; done].
Defined.





(** [lseek] past the end of a file whose last block is not full destroys the
    superblock: the block it fills with zeros is the one after the last block of
    the file, for which the lookup gives 0.  For a file of one block and a seek
    of at most twice its size, the bytes of block 0 from the size of the file to
    the new position (or the end of the block) are now zero, no block has been
    added to the file and its size is the new position. *)
Theorem lseek_zeroes_superblock {D} `{DeviceLaws D} junk (s : io_state D) fd e node d off :
  let size := i_size (metadata node) in let f := io_fs s in let b := bytes_per_block (lay f) in
  opened s fd e node d -> sized f node -> nblocks node = 1 -> 0 < size < b -> size < off <= 2 * size -> off < 2 ^ 31 ->
  wp (k_lseek junk fd off F_SEEK_SET)
    (fun r s' => r = off /\ exists f', kept_but 0 f f' /\
       fs_block f' 0 = splice (fs_block f 0) (Z.to_nat size) (replicate (Z.to_nat (Z.min b off - size)) 0) /\
       s' = after s fd e f' off (mkCached (with_i_size off node) true false)) s.
Proof.
  intros size f b Hop Hs Hnb Hsz Ho Hoff. destruct (opened_st s fd e node d Hop) as [Es Hfd].
  pose proof (wp_seek_hole junk s fd (e_mode e) (e_ref_count e) (e_ino_id e) Hfd (op_mounted _ _ _ _ _ Hop) (op_table _ _ _ _ _ Hop)
                f node d (e_cursor e) off Hs Hnb Hsz Ho Hoff) as Hw.
  fold (after s fd e f (e_cursor e) (mkCached node d false)) in Hw. unfold f in Hw at 4. by rewrite <- Es in Hw.
Qed.

Lemma lseek_zeroes_superblock_witness :
  let s := ram_io 20 1 0 in
  wp (k_lseek (fun _ _ => 0) 0 40 F_SEEK_SET)
    (fun r s' => r = 40 /\ exists f', kept_but 0 (io_fs s) f' /\
       fs_block f' 0 = splice (fs_block (io_fs s) 0) 20 (replicate 20 0) /\
       s' = after s 0 (ram_entry 0) f' 40 (mkCached (with_i_size 40 (ram_inode 20 1)) true false)) s.
Proof.
  intros s. apply (lseek_zeroes_superblock (fun _ _ => 0) s 0 (ram_entry 0) (ram_inode 20 1) false 40);
    [by constructor | apply ram_writing; lia | done | simpl; lia | simpl; lia | lia].
Defined.
