(* ===== verification/Kmalloc.v ===== *)
(** * The kernel heap

    kernel/memory/kmalloc.c: an allocator with boundary tags and six segregated
    free lists.  A block is a header word, a payload and a footer word; header
    and footer hold the size of the block and, in bit 0, whether it is in use.
    A free block holds the links of its free list in the first two words of its
    payload. *)

From S2P Require Import Prelude Services PageAlloc DemandPaging.

(** ** State

    [hmem] holds the 64-bit words of memory, at addresses that are multiples of
    8; the other fields are the static variables of kmalloc.c. *)

Record kheap := mkHeap {
  hmem : Z -> Z;
  HeapMemoryBrk : Z;
  HeapMemory : Z;
  HeapMemoryEnd : Z;
  heap_ptr : Z;
  seg_lists_ptr : Z;
  kmalloc_lock : bool
}.

Definition set_hmem (m : Z -> Z) (s : kheap) : kheap :=
  mkHeap m (HeapMemoryBrk s) (HeapMemory s) (HeapMemoryEnd s) (heap_ptr s) (seg_lists_ptr s) (kmalloc_lock s).
Definition set_brk (a : Z) (s : kheap) : kheap :=
  mkHeap (hmem s) a (HeapMemory s) (HeapMemoryEnd s) (heap_ptr s) (seg_lists_ptr s) (kmalloc_lock s).
Definition set_heap_ptr (a : Z) (s : kheap) : kheap :=
  mkHeap (hmem s) (HeapMemoryBrk s) (HeapMemory s) (HeapMemoryEnd s) a (seg_lists_ptr s) (kmalloc_lock s).
Definition set_seg_lists_ptr (a : Z) (s : kheap) : kheap :=
  mkHeap (hmem s) (HeapMemoryBrk s) (HeapMemory s) (HeapMemoryEnd s) (heap_ptr s) a (kmalloc_lock s).
Definition set_kmalloc_lock (b : bool) (s : kheap) : kheap :=
  mkHeap (hmem s) (HeapMemoryBrk s) (HeapMemory s) (HeapMemoryEnd s) (heap_ptr s) (seg_lists_ptr s) b.

Abbreviation KM := (stM kheap).

(** *** Memory

    An access outside the part of the heap in use, or to a word that is not
    aligned, is a fault. *)

Definition word_ok (s : kheap) (a : Z) : bool :=
  (a mod 8 =? 0) && (HeapMemory s <=? a) && (a + 8 <=? HeapMemoryBrk s).

Definition load_word (a : Z) : KM Z := fun s => if word_ok s a then Ok (hmem s a, s) else Fault.

Definition store_word (a v : Z) : KM unit := fun s =>
  if word_ok s a then Ok (tt, set_hmem (upd (hmem s) a v) s) else Fault.

Definition load_byte (a : Z) : KM Z :=
  w ← load_word (a - a mod 8); mret (word_byte w (a mod 8)).

Definition store_byte (a b : Z) : KM unit :=
  w ← load_word (a - a mod 8); store_word (a - a mod 8) (set_word_byte w (a mod 8) b).

Definition kmalloc_memset (ptr value num : Z) : KM unit :=
  for_st (Z.to_nat num) 0 (fun i => store_byte (ptr + i) (to_u8 value)).

Definition kmalloc_memcpy (dst src num : Z) : KM unit :=
  for_st (Z.to_nat num) 0 (fun i => b ← load_byte (src + i); store_byte (dst + i) b).

(** *** The break *)


(** [None] stands for the pointer [-1]. *)
Definition kmem_sbrk (incr : Z) : KM (option Z) :=
  prevBrk ← fetch HeapMemoryBrk;
  hend ← fetch HeapMemoryEnd;
  if (prevBrk =? 0) || (hend =? 0) || (incr <? 0) then mret None else
  let nextBrk := to_u64 (prevBrk + incr) in
  if hend <? nextBrk then mret None else
  _ ← modify (set_brk nextBrk);
  mret (Some prevBrk).

(** ** The allocator *)

Definition kmem_heap_lo : KM Z := fetch HeapMemory.

Definition kmem_heap_hi : KM Z := fetch (fun s => HeapMemoryBrk s - 1).

Definition ALIGNMENT : Z := 16.
Definition WS : Z := 8.
Definition DWS : Z := 16.
Definition PAGE_SIZE : Z := 4096.

Definition align (x : Z) : Z := to_u64 (ALIGNMENT * (to_u64 (x + ALIGNMENT - 1) / ALIGNMENT)).

(** [word & ~0xF] *)
Definition size_of (word : Z) : Z := Z.land word (2 ^ 64 - 16).

(** The head of the free list for blocks of a size, as an offset into
    [Seg_Lists]. *)
Definition list_of (size : Z) : Z :=
  if size <=? 32 then 0
  else if size <=? 64 then 8
  else if size <=? 96 then 16
  else if size <=? 192 then 24
  else if size <=? 512 then 32
  else 40.

Definition sizeof_Seg_Lists : Z := 48.

(** The fields of [free_block]. *)
Definition load_header (b : Z) : KM Z := load_word b.
Definition load_prev (b : Z) : KM Z := load_word (b + 8).
Definition load_next (b : Z) : KM Z := load_word (b + 16).
Definition store_prev (b v : Z) : KM unit := store_word (b + 8) v.
Definition store_next (b v : Z) : KM unit := store_word (b + 16) v.

Definition insert_free (ptr : Z) : KM unit :=
  let block := ptr - WS in
  h ← load_word (ptr - WS);
  let size := size_of h in
  seg ← fetch seg_lists_ptr;
  let list := seg + list_of size in
  old_head ← load_word list;
  _ ← store_next block old_head;
  _ ← store_prev block 0;
  _ ← when (negb (old_head =? 0)) (store_prev old_head block);
  store_word list block.

(** A free list from [fp] on; a list that is longer than the heap goes round in
    a circle. *)
Fixpoint scan_list (fuel : nat) (fp need : Z) : KM Z :=
  if fp =? 0 then mret 0 else
  match fuel with
  | O => hang
  | S fuel =>
      h ← load_header fp;
      if need <=? size_of h then mret (fp + WS) else
      next ← load_next fp;
      scan_list fuel next need
  end.

Definition scan (fp need : Z) : KM Z :=
  n ← fetch (fun s => HeapMemoryBrk s - HeapMemory s);
  scan_list (Z.to_nat n) fp need.

(** The lists for blocks of three and of four double words: only the head is
    looked at. *)
Definition first_fit (fp need : Z) : KM Z :=
  h ← load_header fp;
  mret (if need <=? size_of h then fp + WS else 0).

(** The test [size <= bound && seg_lists_ptr->list != NULL]: the head of the
    list, or 0. *)
Definition candidate (size bound off : Z) : KM Z :=
  if size <=? bound then seg ← fetch seg_lists_ptr; load_word (seg + off) else mret 0.

(** Every recursive call is made with a size above the bound of the list just
    searched, so that six levels are enough. *)
Fixpoint get_free_list (level : nat) (size : Z) : KM Z :=
  match level with
  | O => hang
  | S level =>
      let need := align (to_u64 (size + DWS)) in
      fp ← candidate size 16 0;
      if negb (fp =? 0) then r ← scan fp need; if negb (r =? 0) then mret r else get_free_list level 17 else
      fp ← candidate size 48 8;
      if negb (fp =? 0) then r ← first_fit fp need; if negb (r =? 0) then mret r else get_free_list level 49 else
      fp ← candidate size 80 16;
      if negb (fp =? 0) then r ← first_fit fp need; if negb (r =? 0) then mret r else get_free_list level 81 else
      fp ← candidate size 176 24;
      if negb (fp =? 0) then r ← scan fp need; if negb (r =? 0) then mret r else get_free_list level 177 else
      fp ← candidate size 496 32;
      if negb (fp =? 0) then r ← scan fp need; if negb (r =? 0) then mret r else get_free_list level 497 else
      seg ← fetch seg_lists_ptr;
      fp ← load_word (seg + 40);
      scan fp need
  end.

(** Taking a block out of the free list with its head at [list]. *)
Definition unlink (block list : Z) : KM unit :=
  prev ← load_prev block;
  next ← load_next block;
  _ ← (if negb (prev =? 0) then store_next prev next else store_word list next);
  next ← load_next block;
  when (negb (next =? 0)) (prev ← load_prev block; store_prev next prev).

Definition remove_free (ptr size : Z) : KM unit :=
  seg ← fetch seg_lists_ptr;
  unlink (ptr - WS) (seg + list_of size).

(** Joining a free block with the block before it and the block after it. *)
Definition coalesce_prev (ptr size : Z) : KM (Z * Z) :=
  f ← load_word (ptr - DWS);
  if Z.land f 1 =? 0 then
    let prev_size := size_of f in
    _ ← remove_free (ptr - prev_size) prev_size;
    _ ← store_word (ptr - prev_size - WS) (to_u64 (prev_size + size));
    _ ← store_word (ptr + size - DWS) (to_u64 (prev_size + size));
    mret (ptr - prev_size, to_u64 (prev_size + size))
  else mret (ptr, size).

Definition coalesce_next (ptr size : Z) : KM unit :=
  n ← load_word (ptr + size - WS);
  when (Z.land n 1 =? 0) (
    let next_size := size_of n in
    _ ← remove_free (ptr + size) next_size;
    _ ← store_word (ptr - WS) (to_u64 (size + next_size));
    store_word (ptr + size + next_size - DWS) (to_u64 (size + next_size))).

Definition coalesce (ptr : Z) : KM Z :=
  h ← load_word (ptr - WS);
  '(ptr, size) ← coalesce_prev ptr (size_of h);
  _ ← coalesce_next ptr size;
  mret ptr.

Definition initialize_free (ptr size : Z) : KM unit :=
  _ ← store_word ptr size;
  _ ← store_word (ptr + size - WS) size;
  ptr ← coalesce (ptr + WS);
  insert_free ptr.

(** NULL is 0. *)
Definition extend_heap (size : Z) : KM Z :=
  let size := align size in
  old_brk ← kmem_sbrk (to_s64 size);
  match old_brk with
  | None => mret 0
  | Some old_brk =>
      let header_ptr := old_brk - WS in
      _ ← store_word (header_ptr + size) 1;
      _ ← initialize_free header_ptr size;
      mret (header_ptr + WS)
  end.

Definition kmm_init : KM bool :=
  seg ← kmem_sbrk sizeof_Seg_Lists;
  match seg with
  | None => _ ← modify (set_seg_lists_ptr (2 ^ 64 - 1)); mret false
  | Some seg =>
      _ ← modify (set_seg_lists_ptr seg);
      _ ← kmalloc_memset seg 0 sizeof_Seg_Lists;
      hp ← kmem_sbrk (3 * WS);
      match hp with
      | None => _ ← modify (set_heap_ptr (2 ^ 64 - 1)); mret false
      | Some hp =>
          _ ← modify (set_heap_ptr hp);
          _ ← store_word hp (Z.lor DWS 1);
          _ ← store_word (hp + WS) (Z.lor DWS 1);
          _ ← store_word (hp + 2 * WS) 1;
          p ← extend_heap PAGE_SIZE;
          mret (negb (p =? 0))
      end
  end.

Definition kmem_init (start hend : Z) : KM unit :=
  _ ← modify (fun s => mkHeap (hmem s) start start hend 0 0 (kmalloc_lock s));
  ok ← kmm_init;
  if (ok : bool) then mret tt else hang.

Definition get_allocation (size : Z) : KM Z :=
  ptr ← get_free_list 6 size;
  if ptr =? 0 then mret 0 else
  let block := ptr - WS in
  h ← load_header block;
  let block_size := size_of h in
  seg ← fetch seg_lists_ptr;
  let free_list := seg + list_of block_size in
  _ ← unlink block free_list;
  let aligned_size := align (to_u64 (size + DWS)) in
  _ ← (if 32 <=? to_u64 (block_size - aligned_size) then
         _ ← store_word block (Z.lor aligned_size 1);
         _ ← store_word (block + aligned_size - WS) (Z.lor aligned_size 1);
         initialize_free (block + aligned_size) (to_u64 (block_size - aligned_size))
       else
         _ ← store_word block (Z.lor block_size 1);
         store_word (block + block_size - WS) (Z.lor block_size 1));
  mret ptr.

Definition lock : KM unit := spin_lock kmalloc_lock set_kmalloc_lock.
Definition unlock : KM unit := spin_unlock set_kmalloc_lock.

Definition kmalloc (size : Z) : KM Z :=
  if size =? 0 then mret 0 else
  _ ← lock;
  ptr ← get_allocation size;
  if negb (ptr =? 0) then _ ← unlock; mret ptr else
  let aligned_size := align (to_u64 (size + DWS)) in
  let extend_size := if PAGE_SIZE <? aligned_size then aligned_size else PAGE_SIZE in
  ptr ← extend_heap extend_size;
  if ptr =? 0 then _ ← unlock; mret 0 else
  ptr ← get_allocation size;
  _ ← unlock;
  mret ptr.

Definition kfree (ptr : Z) : KM unit :=
  if ptr =? 0 then mret tt else
  _ ← lock;
  let header_ptr := ptr - WS in
  h ← load_word header_ptr;
  _ ← initialize_free header_ptr (size_of h);
  unlock.

(** [Some p]: the block could be kept or enlarged; [None]: it has to move. *)
Definition realloc_in_place (oldptr oldsize needed : Z) : KM (option Z) :=
  if needed <=? oldsize then mret (Some oldptr) else
  let next_hdr := oldptr - WS + oldsize in
  next_val ← load_word next_hdr;
  let next_size := size_of next_val in
  if (Z.land next_val 1 =? 0) && (needed <=? to_u64 (oldsize + next_size)) then
    _ ← remove_free (next_hdr + WS) next_size;
    _ ← store_word (oldptr - WS) (Z.lor (to_u64 (oldsize + next_size)) 1);
    _ ← store_word (oldptr - WS + oldsize + next_size - WS) (Z.lor (to_u64 (oldsize + next_size)) 1);
    mret (Some oldptr)
  else mret None.

Definition krealloc (oldptr size : Z) : KM Z :=
  if oldptr =? 0 then kmalloc size else
  if size =? 0 then _ ← kfree oldptr; mret 0 else
  _ ← lock;
  h ← load_word (oldptr - WS);
  let oldsize := size_of h in
  r ← realloc_in_place oldptr oldsize (align (to_u64 (size + DWS)));
  _ ← unlock;
  match r with
  | Some p => mret p
  | None =>
      newptr ← kmalloc size;
      if newptr =? 0 then mret 0 else
      let copySize := to_u64 (oldsize - DWS) in
      let copySize := if size <? copySize then size else copySize in
      _ ← kmalloc_memcpy newptr oldptr copySize;
      _ ← kfree oldptr;
      mret newptr
  end.

Definition kcalloc (nmemb size : Z) : KM Z :=
  let size := to_u64 (size * nmemb) in
  ptr ← kmalloc size;
  _ ← when (negb (ptr =? 0)) (kmalloc_memset ptr 0 size);
  mret ptr.


(** ** The blocks of the heap

    The heap is tiled by blocks, the prologue first; [bs] lists their sizes and
    whether they are in use.  [at_block B bs a z u]: the tiling from [B] on has
    a block of size [z] at the address [a]. *)

Definition total (bs : list (Z * bool)) : Z := foldr Z.add 0 (map fst bs).

Definition at_block (B : Z) (bs : list (Z * bool)) (a z : Z) (u : bool) : Prop :=
  exists pre post, bs = pre ++ (z, u) :: post /\ a = B + total pre.

Definition block_size_ok (b : Z * bool) : Prop := 32 <= fst b /\ fst b mod 16 = 0.

Definition tag (z : Z) (u : bool) : Z := z + if u then 1 else 0.

Section tiling.
Implicit Types (bs pre mid post : list (Z * bool)).

Lemma total_app bs bs' : total (bs ++ bs') = total bs + total bs'.
Proof. unfold total. induction bs as [|b bs IH]; simpl; lia. Qed.

Lemma total_cons b bs : total (b :: bs) = fst b + total bs.
Proof. done. Qed.

Lemma total_one z u : total [(z, u)] = z.
Proof. unfold total. simpl. lia. Qed.

Definition positive bs : Prop := Forall (fun b => 16 <= fst b) bs.

Lemma total_nonneg bs : positive bs -> 0 <= total bs.
Proof. induction 1 as [|b bs Hb _ IH]; [done|]. rewrite total_cons. lia. Qed.

Lemma at_block_in B bs a z u : positive bs -> at_block B bs a z u -> B <= a /\ a + z <= B + total bs /\ 16 <= z.
Proof.
  intros Hp (pre & post & -> & ->). apply Forall_app in Hp as [Hpre Hz]. apply Forall_cons in Hz as [Hz Hpost].
  apply total_nonneg in Hpre, Hpost. rewrite total_app, total_cons. simpl in *. lia.
Qed.

(** Two blocks are the same or do not overlap. *)
Lemma at_block_cmp B bs a z u a' z' u' :
  positive bs -> at_block B bs a z u -> at_block B bs a' z' u' ->
  (a = a' /\ z = z' /\ u = u') \/ a + z <= a' \/ a' + z' <= a.
Proof.
  intros Hp (pre & post & -> & ->) (pre' & post' & E & ->).
  assert (Hlt : forall p q x y, positive (p ++ x :: q) -> forall r t, p ++ x :: q = r ++ y :: t ->
            (exists k, r = p ++ x :: k) -> B + total p + fst x <= B + total r).
  { intros p q x y Hpos r t Eq [k ->]. rewrite Eq in Hpos. apply Forall_app in Hpos as [Hpos _].
    apply Forall_app in Hpos as [_ Hpos]. apply Forall_cons in Hpos as [_ Hpos]. apply total_nonneg in Hpos.
    rewrite total_app, total_cons. lia. }
  destruct (app_eq_inv _ _ _ _ E) as [(k & E1 & E2)|(k & E1 & E2)].
  - destruct k as [|y k]; simpl in *.
    + rewrite app_nil_r in E1. subst pre'. apply (inj2 cons) in E2 as [E2 _]. apply pair_eq in E2 as [-> ->]. auto.
    + apply (inj2 cons) in E2 as [<- E2]. right. right. apply (Hlt pre' post' (z', u') (z, u)) with (t := post); [by rewrite <- E | done|].
      by exists k.
  - destruct k as [|y k]; simpl in *.
    + rewrite app_nil_r in E1. subst pre'. apply (inj2 cons) in E2 as [E2 _]. apply pair_eq in E2 as [-> ->]. auto.
    + apply (inj2 cons) in E2 as [<- E2]. right. left. apply (Hlt pre post (z, u) (z', u')) with (t := post'); [done | done|].
      by exists k.
Qed.

(** The blocks of a tiling with a part replaced. *)
Lemma at_block_app B bs bs' a z u : at_block B (bs ++ bs') a z u <-> at_block B bs a z u \/ at_block (B + total bs) bs' a z u.
Proof.
  split.
  - intros (pre & post & E & ->). destruct (app_eq_inv _ _ _ _ E) as [(k & E1 & E2)|(k & E1 & E2)].
    + destruct k as [|y k]; simpl in *.
      * right. exists [], post. rewrite app_nil_r in E1. subst. split; [done|]. change (total []) with 0. lia.
      * apply (inj2 cons) in E2 as [<- E2]. left. by exists pre, k.
    + right. exists k, post. subst. split; [done|]. rewrite total_app. lia.
  - intros [(pre & post & -> & ->)|(pre & post & -> & ->)].
    + exists pre, (post ++ bs'). by rewrite <- app_assoc.
    + exists (bs ++ pre), post. rewrite app_assoc, total_app. split; [done | lia].
Qed.

Lemma at_block_cons B b bs a z u : at_block B (b :: bs) a z u <-> (a = B /\ b = (z, u)) \/ at_block (B + fst b) bs a z u.
Proof.
  change (b :: bs) with ([b] ++ bs). rewrite at_block_app. change (total [b]) with (fst b + 0). rewrite Z.add_0_r.
  apply or_iff_compat_r. split.
  - intros ([|x pre] & post & E & ->); simpl in E; [|by destruct pre].
    apply (inj2 cons) in E as [-> _]. change (total []) with 0. split; [lia | done].
  - intros [-> ->]. exists [], []. change (total []) with 0. split; [done | lia].
Qed.

Lemma at_block_nil B a z u : ~ at_block B [] a z u.
Proof. intros (pre & post & E & _). by destruct pre. Qed.

End tiling.

(** ** The free lists *)

(** [chain m p l]: the blocks of [l] are linked in this order, the first one to
    [p] on the left, the last one to NULL on the right. *)
Fixpoint chain (m : Z -> Z) (p : Z) (l : list Z) : Prop :=
  match l with
  | [] => True
  | a :: l => m (a + 8) = p /\ m (a + 16) = hd 0 l /\ chain m a l
  end.

Lemma chain_frame m m' p l :
  (forall a, a ∈ l -> m' (a + 8) = m (a + 8) /\ m' (a + 16) = m (a + 16)) -> chain m p l -> chain m' p l.
Proof.
  revert p. induction l as [|a l IH]; intros p Hm; [done|]. intros (H1 & H2 & H3). destruct (Hm a ltac:(by left)) as [E1 E2].
  split_and!; [congruence | congruence|]. apply IH; [|done]. intros b Hb. apply Hm. by right.
Qed.

(** The neighbours of a block in the middle. *)
Lemma chain_mid m p l1 a l2 :
  chain m p (l1 ++ a :: l2) -> m (a + 8) = default p (last l1) /\ m (a + 16) = hd 0 l2.
Proof.
  revert p. induction l1 as [|b l1 IH]; intros p; [by intros (? & ? & _)|]. intros (_ & _ & H). destruct (IH _ H) as [E1 E2].
  split; [|done]. rewrite E1, last_cons. by destruct (last l1).
Qed.

(** Taking a block out. *)
Lemma chain_unlink m m' p l1 a l2 :
  NoDup (l1 ++ a :: l2) -> chain m p (l1 ++ a :: l2) ->
  (forall b, b ∈ l1 ++ l2 -> m' (b + 8) = (if decide (Some b = head l2) then default p (last l1) else m (b + 8)) /\
    m' (b + 16) = if decide (Some b = last l1) then hd 0 l2 else m (b + 16)) ->
  chain m' p (l1 ++ l2).
Proof.
  revert p. induction l1 as [|c l1 IH]; intros p Hnd Hc Hm.
  - simpl in *. destruct Hc as (_ & _ & Hc). apply NoDup_cons in Hnd as [_ Hnd]. destruct l2 as [|b l2]; [done|].
    simpl in Hc. destruct Hc as (_ & H2 & Hc). destruct (Hm b ltac:(by left)) as [E1 E2]. simpl in E1.
    rewrite decide_True in E1 by done. split_and!; [done | by rewrite E2|]. eapply chain_frame; [|exact Hc].
    intros x Hx. destruct (Hm x ltac:(by right)) as [Ex1 Ex2]. rewrite decide_False in Ex1; [done|].
    intros [= ->]. by apply NoDup_cons in Hnd as [? _].
  - cbn [app] in *. destruct Hc as (H1 & H2 & Hc). apply NoDup_cons in Hnd as [Hcn Hnd].
    destruct (Hm c ltac:(by left)) as [E1 E2].
    assert (Hnh : Some c <> head l2).
    { intros Eh. apply Hcn. destruct l2 as [|b l2]; [done|]. injection Eh as ->. apply elem_of_app. right. right. by left. }
    rewrite decide_False in E1 by done. cbn [chain]. split_and!; [congruence | |].
    + rewrite E2. destruct l1 as [|d l1]; simpl.
      * by rewrite decide_True by done.
      * rewrite decide_False; [by rewrite H2|]. intros El. apply Hcn. apply elem_of_app. left.
        rewrite last_cons in El. destruct (last l1) as [x|] eqn:Ex; injection El as ->; [right; by apply last_Some_elem_of | by left].
    + apply IH; [done | done|]. intros b Hb. destruct (Hm b ltac:(by right)) as [Eb1 Eb2].
      assert (Hbc : b <> c) by (intros ->; apply Hcn; apply elem_of_app in Hb as [?|?]; apply elem_of_app; [by left | right; by right]).
      rewrite last_cons in Eb1, Eb2. rewrite Eb1, Eb2. destruct (last l1) as [x|] eqn:El; [done|]. split; [done|].
      by rewrite !decide_False by congruence.
Qed.

(** A new block in front. *)
Lemma chain_push m m' p q l :
  NoDup l -> chain m p l ->
  (forall b, b ∈ l -> m' (b + 8) = (if decide (Some b = head l) then q else m (b + 8)) /\ m' (b + 16) = m (b + 16)) ->
  chain m' q l.
Proof.
  intros Hnd Hc Hm. destruct l as [|a l]; [done|]. destruct Hc as (_ & H2 & Hc). apply NoDup_cons in Hnd as [Ha _].
  destruct (Hm a ltac:(by left)) as [E1 E2]. rewrite decide_True in E1 by done. split_and!; [done | congruence|].
  eapply chain_frame; [|exact Hc]. intros b Hb. destruct (Hm b ltac:(by right)) as [Eb1 Eb2]. split; [|done].
  rewrite Eb1, decide_False; [done|]. by intros [= ->].
Qed.

(** ** The invariant

    [L] gives the free lists by their offset in [Seg_Lists]; the blocks of [X]
    are free but in no list. *)

Definition base (s : kheap) : Z := HeapMemory s + sizeof_Seg_Lists.
Definition offsets : list Z := [0; 8; 16; 24; 32; 40].

Record heap_inv (s : kheap) (bs : list (Z * bool)) (L : Z -> list Z) (X : list Z) : Prop := {
  hi_start : 0 < HeapMemory s /\ HeapMemory s mod 8 = 0;
  hi_seg : seg_lists_ptr s = HeapMemory s;
  hi_brk : HeapMemoryBrk s = base s + total bs + 8;
  hi_end : HeapMemoryBrk s <= HeapMemoryEnd s < 2 ^ 64;
  hi_sizes : exists bs', bs = (16, true) :: bs' /\ Forall block_size_ok bs';
  hi_tags : forall a z u, at_block (base s) bs a z u -> hmem s a = tag z u /\ hmem s (a + z - 8) = tag z u;
  hi_epilogue : hmem s (base s + total bs) = 1;
  hi_lists : forall o, o ∈ offsets -> hmem s (HeapMemory s + o) = hd 0 (L o) /\ chain (hmem s) 0 (L o);
  hi_nodup : forall o, NoDup (L o);
  hi_members : forall o a, a ∈ L o <-> (a ∉ X) /\ exists z, at_block (base s) bs a z false /\ list_of z = o
}.

(** A step that changes only memory, and no payload in use. *)
Definition payload_kept (s : kheap) (bs : list (Z * bool)) (s' : kheap) : Prop :=
  s' = set_hmem (hmem s') s /\
  forall a z w, at_block (base s) bs a z true -> a + 8 <= w < a + z - 8 -> hmem s' w = hmem s w.

Lemma offset_in o : o = 0 \/ o = 8 \/ o = 16 \/ o = 24 \/ o = 32 \/ o = 40 -> o ∈ offsets.
Proof. intros Ho. unfold offsets. rewrite !elem_of_cons. tauto. Qed.

Lemma list_of_offset z : list_of z ∈ offsets.
Proof. apply offset_in. unfold list_of. repeat case_bool; auto 7. Qed.

Lemma offset_range o : o ∈ offsets -> 0 <= o <= 40 /\ o mod 8 = 0.
Proof. unfold offsets. rewrite !elem_of_cons, elem_of_nil. intros [->|[->|[->|[->|[->|[->|[]]]]]]]; done. Qed.

Lemma wp_load_word a (Q : Z -> kheap -> Prop) s : word_ok s a = true -> Q (hmem s a) s -> wp (load_word a) Q s.
Proof. intros Hw HQ. exists (hmem s a), s. unfold load_word. by rewrite Hw. Qed.

Lemma wp_store_word a v (Q : unit -> kheap -> Prop) s :
  word_ok s a = true -> Q tt (set_hmem (upd (hmem s) a v) s) -> wp (store_word a v) Q s.
Proof. intros Hw HQ. exists tt, (set_hmem (upd (hmem s) a v) s). unfold store_word. by rewrite Hw. Qed.

(** No two free blocks touch. *)
Fixpoint sep (bs : list (Z * bool)) : Prop :=
  match bs with
  | b1 :: bs' => match bs' with b2 :: _ => snd b1 || snd b2 = true | [] => True end /\ sep bs'
  | [] => True
  end.

Lemma sep_app l1 l2 : sep (l1 ++ l2) -> sep l1 /\ sep l2.
Proof.
  induction l1 as [|b l1 IH]; [done|]. cbn [app sep]. intros [H1 H2]. destruct (IH H2) as [H3 H4]. split; [|done]. split; [|done].
  by destruct l1.
Qed.

Lemma sep_join l1 b l2 :
  sep l1 -> sep l2 -> (forall x, last l1 = Some x -> snd x || snd b = true) -> (forall x, head l2 = Some x -> snd b || snd x = true) ->
  sep (l1 ++ b :: l2).
Proof.
  intros H1 H2 Hl Hh. induction l1 as [|x l1 IH]; cbn [app sep].
  - split; [|done]. destruct l2; [done | by apply Hh].
  - destruct H1 as [Hx H1]. split.
    + destruct l1 as [|y l1]; [by apply Hl | done].
    + apply IH; [done|]. intros y Hy. apply Hl. rewrite last_cons, Hy. done.
Qed.

Lemma sep_last l z x : sep (l ++ [(z, false)]) -> last l = Some x -> snd x = true.
Proof.
  induction l as [|y l IH]; [done|]. intros Hs. destruct l as [|y' l].
  - intros [= <-]. simpl in Hs. destruct Hs as [Hs _]. by rewrite orb_false_r in Hs.
  - rewrite last_cons_cons. apply IH. by apply (sep_app [y]) in Hs as [_ ?].
Qed.

(** The blocks in use of two tilings are the same. *)
Definition same_used (B : Z) (bs bs' : list (Z * bool)) : Prop :=
  forall a z, at_block B bs a z true <-> at_block B bs' a z true.

Lemma same_used_free B pre mid mid' post :
  total mid = total mid' -> Forall (fun b => snd b = false) mid -> Forall (fun b => snd b = false) mid' ->
  same_used B (pre ++ mid ++ post) (pre ++ mid' ++ post).
Proof.
  intros Et Hm Hm' a z.
  assert (Hno : forall B m, Forall (fun b => snd b = false) m -> ~ at_block B m a z true).
  { intros B' m Hf (p & q & -> & _). apply Forall_app in Hf as [_ Hf]. by apply Forall_cons in Hf as [? _]. }
  rewrite !at_block_app, Et. pose proof (Hno (B + total pre) mid Hm). pose proof (Hno (B + total pre) mid' Hm'). tauto.
Qed.

Section inv.
Context {s : kheap} {bs : list (Z * bool)} {L : Z -> list Z} {X : list Z} (Hi : heap_inv s bs L X).

Lemma inv_positive : positive bs.
Proof.
  destruct (hi_sizes _ _ _ _ Hi) as (bs' & -> & Hf). constructor; [done|]. eapply Forall_impl; [exact Hf|].
  intros b [? _]. lia.
Qed.

Lemma total_mod pre : Forall (fun b => fst b mod 16 = 0) pre -> total pre mod 16 = 0.
Proof.
  induction 1 as [|b pre Hb _ IH]; [done|]. rewrite total_cons, Z.add_mod, Hb, IH by lia. done.
Qed.

Lemma inv_mod : Forall (fun b => fst b mod 16 = 0) bs.
Proof.
  destruct (hi_sizes _ _ _ _ Hi) as (bs' & -> & Hf). constructor; [done|]. eapply Forall_impl; [exact Hf|]. by intros b [_ ?].
Qed.

(** A free block holds its four words; the prologue is in use. *)
Lemma block_facts a z u :
  at_block (base s) bs a z u -> base s <= a /\ a + z <= base s + total bs /\ a mod 8 = 0 /\ z mod 16 = 0 /\ 16 <= z /\
  (u = false -> 32 <= z) /\ (a <> base s -> 32 <= z) /\ z < 2 ^ 64.
Proof.
  intros Hb. destruct (at_block_in _ _ _ _ _ inv_positive Hb) as (H1 & H2 & H3). pose proof inv_mod as Hm.
  destruct (hi_start _ _ _ _ Hi) as [Hs Hs8]. pose proof (hi_brk _ _ _ _ Hi). pose proof (hi_end _ _ _ _ Hi). unfold base, sizeof_Seg_Lists in *.
  assert (Hz : z mod 16 = 0 /\ a mod 8 = 0).
  { destruct Hb as (pre & post & -> & ->). apply Forall_app in Hm as [Hpre Hm]. apply Forall_cons in Hm as [Hz _]. split; [done|].
    apply total_mod in Hpre. apply Z.mod_divide in Hpre as [k ->]; [|done]. apply Z.mod_divide in Hs8 as [j Hj]; [|done].
    apply Z.mod_divide; [done|]. exists (j + 6 + 2 * k). lia. }
  destruct (hi_sizes _ _ _ _ Hi) as (bs' & E & Hf). rewrite E in Hb. apply at_block_cons in Hb as [[Ha Eb]|Hb].
  - injection Eb as <- <-. split_and!; try done; lia.
  - destruct Hb as (pre & post & -> & ->). apply Forall_app in Hf as [Hpre Hf]. apply Forall_cons in Hf as [[Hf _] _]. simpl in *.
    split_and!; try done; try lia.
Qed.

Lemma block_word a z u i : at_block (base s) bs a z u -> 0 <= i <= z - 8 -> i mod 8 = 0 -> word_ok s (a + i) = true.
Proof.
  intros Hb Hr H8. destruct (block_facts a z u Hb) as (H1 & H2 & H3 & _). pose proof (hi_brk _ _ _ _ Hi). unfold word_ok, base, sizeof_Seg_Lists in *.
  rewrite (proj2 (Z.eqb_eq _ _)) by (rewrite Z.add_mod, H3, H8 by done; done).
  by rewrite (proj2 (Z.leb_le _ _)), (proj2 (Z.leb_le _ _)) by lia.
Qed.

Lemma epilogue_word : word_ok s (base s + total bs) = true.
Proof.
  pose proof (hi_brk _ _ _ _ Hi). pose proof (total_nonneg _ inv_positive). pose proof (total_mod _ inv_mod) as Ht.
  destruct (hi_start _ _ _ _ Hi) as [_ Hs8]. unfold word_ok, base, sizeof_Seg_Lists in *.
  rewrite (proj2 (Z.eqb_eq _ _)); [by rewrite (proj2 (Z.leb_le _ _)), (proj2 (Z.leb_le _ _)) by lia|].
  apply Z.mod_divide in Ht as [k ->]; [|done]. apply Z.mod_divide in Hs8 as [j ->]; [|done].
  replace (j * 8 + 48 + k * 16) with ((j + 6 + 2 * k) * 8) by lia. by rewrite Z.mod_mul.
Qed.

Lemma seg_word o : o ∈ offsets -> word_ok s (HeapMemory s + o) = true.
Proof.
  intros Ho. destruct (offset_range o Ho) as [? H8]. destruct (hi_start _ _ _ _ Hi) as [_ Hs8]. pose proof (hi_brk _ _ _ _ Hi).
  pose proof (total_nonneg _ inv_positive). unfold word_ok, base, sizeof_Seg_Lists in *.
  rewrite (proj2 (Z.eqb_eq _ _)) by (rewrite Z.add_mod, H8, Hs8 by done; done).
  by rewrite (proj2 (Z.leb_le _ _)), (proj2 (Z.leb_le _ _)) by lia.
Qed.

(** Words of blocks are told apart by the block and the offset. *)
Lemma words_inj a z u a' z' u' i j :
  at_block (base s) bs a z u -> at_block (base s) bs a' z' u' -> 0 <= i <= z - 8 -> 0 <= j <= z' - 8 ->
  a + i = a' + j -> a = a' /\ i = j.
Proof.
  intros Hb Hb' Hir Hjr E. destruct (at_block_cmp _ _ _ _ _ _ _ _ inv_positive Hb Hb') as [(-> & _)|Hd]; lia.
Qed.

Lemma block_unique a z u z' u' : at_block (base s) bs a z u -> at_block (base s) bs a z' u' -> z = z' /\ u = u'.
Proof.
  intros Hb Hb'. destruct (at_block_cmp _ _ _ _ _ _ _ _ inv_positive Hb Hb') as [(_ & -> & ->)|Hd]; [done|].
  destruct (block_facts a z u Hb) as (_ & _ & _ & _ & ? & _). destruct (block_facts a z' u' Hb') as (_ & _ & _ & _ & ? & _). lia.
Qed.

Lemma listed_block o a : a ∈ L o -> exists z, at_block (base s) bs a z false /\ list_of z = o /\ a ∉ X.
Proof. intros (Hx & z & Hb & E)%(hi_members _ _ _ _ Hi). eauto. Qed.

(** A step that writes only links of free lists. *)
Definition links_only (m' : Z -> Z) : Prop := forall w, m' w <> hmem s w ->
  (exists b z, at_block (base s) bs b z false /\ (w = b + 8 \/ w = b + 16)) \/ w < base s.

Lemma inv_links m' L' X' :
  links_only m' ->
  (forall o, o ∈ offsets -> m' (HeapMemory s + o) = hd 0 (L' o) /\ chain m' 0 (L' o)) -> (forall o, NoDup (L' o)) ->
  (forall o a, a ∈ L' o <-> (a ∉ X') /\ exists z, at_block (base s) bs a z false /\ list_of z = o) ->
  heap_inv (set_hmem m' s) bs L' X' /\ payload_kept s bs (set_hmem m' s).
Proof.
  intros Hm Hl Hnd Hmem.
  assert (Hw : forall a z u i, at_block (base s) bs a z u -> 0 <= i <= z - 8 -> (u = false -> i <> 8 /\ i <> 16) -> m' (a + i) = hmem s (a + i)).
  { intros a z u i Hb Hr Hne. destruct (decide (m' (a + i) = hmem s (a + i))) as [|Hd]; [done|].
    destruct (block_facts a z u Hb) as (Ha & _). destruct (Hm _ Hd) as [(b & zb & Hbb & Hw)|Hw]; [|lia].
    destruct (block_facts b zb false Hbb) as (_ & _ & _ & _ & _ & Hz & _). specialize (Hz eq_refl).
    assert (a = b) as <- by (destruct Hw as [E|E]; apply (words_inj a z u b zb false _ _ Hb Hbb) in E; tauto || lia).
    destruct (at_block_cmp _ _ _ _ _ _ _ _ inv_positive Hb Hbb) as [(_ & <- & ->)|?]; [|lia]. specialize (Hne eq_refl). lia. }
  split.
  - pose proof Hi as [H1 H2 H3 H4 H5 H6 H7 H8 H9 H10]. constructor; try done.
    + intros a z u Hb. change (base (set_hmem m' s)) with (base s) in Hb. cbn [hmem set_hmem].
      destruct (block_facts a z u Hb) as (_ & _ & _ & _ & Hz16 & Hz32 & _).
      pose proof (Hw a z u 0 Hb ltac:(lia) ltac:(lia)) as E1. rewrite Z.add_0_r in E1. rewrite E1.
      pose proof (Hw a z u (z - 8) Hb ltac:(lia) ltac:(intros E; specialize (Hz32 E); lia)) as E2.
      replace (a + (z - 8)) with (a + z - 8) in E2 by lia. rewrite E2. by apply H6.
    + cbn [hmem set_hmem]. change (base (set_hmem m' s)) with (base s).
      destruct (decide (m' (base s + total bs) = hmem s (base s + total bs))) as [->|Hd]; [done|].
      pose proof (total_nonneg _ inv_positive). destruct (Hm _ Hd) as [(b & z & Hb & Hw')|?]; [|lia].
      destruct (block_facts b z false Hb) as (_ & ? & _ & _ & _ & ? & _). lia.
  - split; [done|]. intros a z w Hb Hr. cbn [hmem set_hmem]. replace w with (a + (w - a)) by lia. by apply (Hw a z true); [|lia|].
Qed.

Lemma listed_spec o a : a ∈ L o -> exists z, at_block (base s) bs a z false /\ 32 <= z /\ 0 < a /\ base s <= a /\ list_of z = o.
Proof.
  intros (z & Hb & E & _)%listed_block. destruct (block_facts a z false Hb) as (H1 & _ & _ & _ & _ & H2 & _).
  destruct (hi_start _ _ _ _ Hi). unfold base, sizeof_Seg_Lists in *. exists z. split_and!; auto; lia.
Qed.

(** The words of two blocks on the lists. *)
Lemma link_inj o o' a a' i j :
  a ∈ L o -> a' ∈ L o' -> (i = 8 \/ i = 16) -> (j = 8 \/ j = 16) -> a + i = a' + j -> a = a' /\ i = j.
Proof.
  intros (z & Hb & Hz & _)%listed_spec (z' & Hb' & Hz' & _)%listed_spec Hir Hjr. eapply words_inj; [done | done | lia | lia].
Qed.

Lemma lists_disjoint o o' a : a ∈ L o -> a ∈ L o' -> o = o'.
Proof.
  intros (z & Hb & _ & _ & _ & <-)%listed_spec (z' & Hb' & _ & _ & _ & <-)%listed_spec.
  by destruct (block_unique _ _ _ _ _ Hb Hb') as [-> _].
Qed.

Section unlink.
Context (a z : Z) (l1 l2 : list Z) (Hb : at_block (base s) bs a z false).
Let o := list_of z.
Context (El : L o = l1 ++ a :: l2).

Lemma rest_listed b : b ∈ l1 ++ l2 <-> b ∈ L o /\ b <> a.
Proof.
  pose proof (hi_nodup _ _ _ _ Hi o) as Hnd. rewrite El in *. apply NoDup_app in Hnd as (_ & H1 & H2). apply NoDup_cons in H2 as [H2 _].
  rewrite !elem_of_app, elem_of_cons. split; [|tauto]. intros [Hb'|Hb']; (split; [tauto|]); intros ->; [|done]. apply (H1 a); [done | by left].
Qed.

Lemma last_listed p : last l1 = Some p -> p ∈ L o /\ p <> a.
Proof. intros Hp. apply rest_listed, elem_of_app. left. by apply last_Some_elem_of. Qed.

Lemma head_listed n : head l2 = Some n -> n ∈ L o /\ n <> a.
Proof. intros Hn. apply rest_listed, elem_of_app. right. destruct l2; [done|]. injection Hn as ->. by left. Qed.

(** The link that leads to the block. *)
Definition link_to : Z := match last l1 with Some p => p + 16 | None => HeapMemory s + o end.

Lemma link_to_listed o' b i : b ∈ L o' -> i = 8 \/ i = 16 -> b + i = link_to <-> i = 16 /\ Some b = last l1.
Proof.
  intros Hl Hir. unfold link_to. destruct (last l1) as [p|] eqn:Ep.
  - destruct (last_listed p Ep) as [Hp _]. split.
    + intros E. destruct (link_inj o' o b p i 16) as [-> ->]; auto.
    + intros [-> E]. by injection E as ->.
  - destruct (listed_spec o' b Hl) as (_ & _ & _ & _ & Hbase & _). destruct (offset_range o (list_of_offset z)).
    unfold base, sizeof_Seg_Lists in *. split; [lia | by intros [_ ?]].
Qed.

Lemma unlinked m' :
  (forall w, m' w = if decide (w = link_to) then hd 0 l2 else
     if decide (Some w = (n ← head l2; Some (n + 8))) then default 0 (last l1) else hmem s w) ->
  heap_inv (set_hmem m' s) bs (fun o' => if decide (o' = o) then l1 ++ l2 else L o') (a :: X) /\ payload_kept s bs (set_hmem m' s).
Proof.
  intros Hm. pose proof (hi_nodup _ _ _ _ Hi o) as Hnd. rewrite El in Hnd.
  assert (Hseg : forall o', o' ∈ offsets -> m' (HeapMemory s + o') = if decide (o' = o /\ last l1 = None) then hd 0 l2 else hmem s (HeapMemory s + o')).
  { intros o' Ho'. destruct (offset_range o' Ho'). rewrite Hm. rewrite (decide_False (P := Some _ = _)).
    2: { destruct (head l2) as [n|] eqn:En; [|done]. destruct (head_listed n En) as [Hn _].
         destruct (listed_spec o n Hn) as (_ & _ & _ & _ & ? & _). unfold base, sizeof_Seg_Lists in *. intros [= E]. lia. }
    apply decide_ext. unfold link_to. destruct (last l1) as [p|] eqn:Ep.
    - destruct (last_listed p Ep) as [Hp _]. destruct (listed_spec o p Hp) as (_ & _ & _ & _ & ? & _).
      unfold base, sizeof_Seg_Lists in *. split; [lia | by intros [_ ?]].
    - split; [intros; split; [lia | done] | lia]. }
  assert (Hlnk : forall o' b, b ∈ L o' -> m' (b + 8) = (if decide (Some b = head l2) then default 0 (last l1) else hmem s (b + 8)) /\
            m' (b + 16) = if decide (Some b = last l1) then hd 0 l2 else hmem s (b + 16)).
  { intros o' b Hl. rewrite !Hm. rewrite (decide_False (P := b + 8 = _)) by (rewrite (link_to_listed o' b 8 Hl); [by intros [] | auto]).
    rewrite (decide_ext (b + 16 = link_to) (Some b = last l1)) by (rewrite (link_to_listed o' b 16 Hl); [tauto | auto]).
    destruct (head l2) as [n|] eqn:En; simpl; [|done]. destruct (head_listed n En) as [Hn _]. split.
    - apply decide_ext. split; [intros [= ?]; f_equal; lia | by intros [= ->]].
    - destruct (decide (Some b = last l1)); [done|]. rewrite decide_False; [done|]. intros [= E].
      destruct (link_inj o' o b n 16 8); auto. done. }
  apply inv_links.
  - intros w Hw. rewrite Hm in Hw. destruct (decide (w = link_to)) as [->|Hwl].
    + unfold link_to in *. destruct (last l1) as [p|] eqn:Ep.
      * destruct (last_listed p Ep) as [Hp _]. destruct (listed_spec o p Hp) as (zp & Hbp & _). left. eauto.
      * right. destruct (offset_range o (list_of_offset z)). unfold base, sizeof_Seg_Lists. lia.
    + destruct (head l2) as [n|] eqn:En; simpl in Hw; [|done]. destruct (decide _) as [[= ->]|]; [|done].
      destruct (head_listed n En) as [Hn _]. destruct (listed_spec o n Hn) as (zn & Hbn & _). left. eauto.
  - intros o' Ho'. destruct (hi_lists _ _ _ _ Hi o' Ho') as [Hh Hc]. rewrite Hseg by done. destruct (decide (o' = o)) as [->|Hne].
    + split.
      * destruct (decide (o = o /\ last l1 = None)) as [[_ Ep]|Hn].
        -- apply last_None in Ep. by rewrite Ep.
        -- rewrite Hh, El. destruct l1; [by destruct Hn | done].
      * rewrite El in Hc. eapply chain_unlink; [exact Hnd | exact Hc|]. intros b Hb'%rest_listed. apply (Hlnk o), Hb'.
    + rewrite decide_False by (by intros [? _]). split; [done|]. eapply chain_frame; [|exact Hc]. intros b Hb'.
      destruct (Hlnk o' b Hb') as [-> ->]. rewrite !decide_False; [done | |].
      * intros E. symmetry in E. apply Hne. apply (lists_disjoint o' o b Hb'). by apply last_listed.
      * intros E. symmetry in E. apply Hne. apply (lists_disjoint o' o b Hb'). by apply head_listed.
  - intros o'. destruct (decide (o' = o)); [|apply Hi]. apply NoDup_app in Hnd as (H1 & H2 & H3). apply NoDup_cons in H3 as [_ H3].
    apply NoDup_app. split_and!; [done | | done]. intros x Hx Hx'. apply (H2 x Hx). by right.
  - intros o' b. rewrite not_elem_of_cons. destruct (decide (o' = o)) as [->|Hne].
    + rewrite rest_listed, (hi_members _ _ _ _ Hi). tauto.
    + rewrite (hi_members _ _ _ _ Hi). split; [|tauto]. intros [Hn Hz]. split; [|done]. split; [|done]. intros ->.
      destruct Hz as (z' & Hz' & <-). apply Hne. unfold o. f_equal. by destruct (block_unique _ _ _ _ _ Hb Hz').
Qed.

End unlink.

Lemma wp_unlink a z (Q : unit -> kheap -> Prop) :
  at_block (base s) bs a z false -> (a ∉ X) ->
  (forall s' L', heap_inv s' bs L' (a :: X) -> payload_kept s bs s' -> Q tt s') ->
  wp (unlink a (seg_lists_ptr s + list_of z)) Q s.
Proof.
  intros Hb HX HQ. rewrite (hi_seg _ _ _ _ Hi). assert (Ha : a ∈ L (list_of z)) by (apply (hi_members _ _ _ _ Hi); eauto).
  destruct (block_facts a z false Hb) as (Hab & _ & _ & _ & _ & Hz & _). specialize (Hz eq_refl).
  destruct (hi_lists _ _ _ _ Hi _ (list_of_offset z)) as [_ Hch].
  destruct (list_elem_of_split (L (list_of z)) a Ha) as (l1 & l2 & El). rewrite El in Hch.
  destruct (chain_mid _ _ _ _ _ Hch) as [Hprev Hnext]. set (lk := link_to z l1).
  assert (Hne : a + 8 <> lk /\ a + 16 <> lk).
  { unfold lk. rewrite !(link_to_listed a z l1 l2 El _ a) by (exact Ha || auto).
    split; [by intros [? _]|]. intros [_ E]. symmetry in E. by destruct (last_listed a z l1 l2 El a E). }
  assert (Hnz : forall o b, b ∈ L o -> b <> 0) by (intros o b (_ & _ & _ & ? & _)%listed_spec; lia).
  assert (Hlk : word_ok s lk = true).
  { unfold lk, link_to. destruct (last l1) as [p|] eqn:Ep; [|apply seg_word, list_of_offset].
    destruct (last_listed a z l1 l2 El p Ep) as [Hp _]. destruct (listed_spec _ p Hp) as (zp & Hbp & ? & _).
    by apply (block_word p zp false); [| lia|]. }
  set (m1 := upd (hmem s) lk (hd 0 l2)).
  apply wp_bind, wp_load_word; [by apply (block_word a z false); [|lia|]|].
  apply wp_bind, wp_load_word; [by apply (block_word a z false); [|lia|]|]. rewrite Hprev, Hnext.
  assert (Hstore : forall Q' : unit -> kheap -> Prop, Q' tt (set_hmem m1 s) -> wp (if negb (default 0 (last l1) =? 0)
            then store_next (default 0 (last l1)) (hd 0 l2) else store_word (HeapMemory s + list_of z) (hd 0 l2)) Q' s).
  { intros Q' HQ'. unfold m1, lk, link_to in *. destruct (last l1) as [p|] eqn:Ep; simpl.
    - destruct (last_listed a z l1 l2 El p Ep) as [Hp _]. rewrite (proj2 (Z.eqb_neq p 0)) by eauto. by apply wp_store_word.
    - by apply wp_store_word. }
  apply wp_bind, Hstore. apply wp_bind, wp_load_word; [by apply (block_word a z false); [|lia|]|].
  cbn [hmem set_hmem]. unfold m1 at 1 2. rewrite upd_ne, Hnext by apply Hne.
  destruct (head l2) as [n|] eqn:En.
  - assert (hd 0 l2 = n) as -> by (destruct l2; [done | by injection En]). destruct (head_listed a z l1 l2 El n En) as [Hn Hna].
    rewrite (proj2 (Z.eqb_neq n 0)) by eauto. cbn [negb when]. destruct (listed_spec _ n Hn) as (zn & Hbn & ? & _).
    apply wp_bind, wp_load_word; [by apply (block_word a z false); [|lia|]|]. cbn [hmem set_hmem]. unfold m1 at 1. rewrite upd_ne, Hprev by apply Hne.
    apply wp_store_word; [by apply (block_word n zn false); [|lia|]|]. cbn [hmem set_hmem].
    destruct (unlinked a z l1 l2 Hb El (upd m1 (n + 8) (default 0 (last l1)))) as [Hi' Hk']; [|by eapply HQ].
    intros w. rewrite En. simpl. unfold m1, upd.
    assert (n + 8 <> lk) by (unfold lk; rewrite (link_to_listed a z l1 l2 El _ n) by (exact Hn || auto); by intros [? _]).
    destruct (Z.eqb_spec w (n + 8)) as [E1|E1], (Z.eqb_spec w lk) as [E2|E2]; fold lk; repeat case_decide; done || congruence.
  - assert (hd 0 l2 = 0) as E0 by (by destruct l2). rewrite E0. cbn [negb when Z.eqb]. apply wp_ret.
    destruct (unlinked a z l1 l2 Hb El m1) as [Hi' Hk']; [|by eapply HQ].
    intros w. rewrite En. simpl. unfold m1, upd. fold lk. destruct (Z.eqb_spec w lk), (decide (w = lk)); done.
Qed.

Lemma inserted a z m' :
  X = [a] -> at_block (base s) bs a z false ->
  let o := list_of z in
  (forall w, m' w = if decide (w = HeapMemory s + o) then a else
     if decide (Some w = (h ← head (L o); Some (h + 8))) then a else
     if decide (w = a + 8) then 0 else if decide (w = a + 16) then hd 0 (L o) else hmem s w) ->
  heap_inv (set_hmem m' s) bs (fun o' => if decide (o' = o) then a :: L o else L o') [] /\ payload_kept s bs (set_hmem m' s).
Proof.
  intros EX Hb o Hm. destruct (block_facts a z false Hb) as (Hab & _ & _ & _ & _ & Hz & _). specialize (Hz eq_refl).
  assert (Hout : forall o', a ∉ L o') by (intros o' (_ & _ & _ & Hx)%listed_block; rewrite EX in Hx; by apply Hx; left).
  assert (Hah : forall o' b i j, b ∈ L o' -> (i = 8 \/ i = 16) -> (j = 8 \/ j = 16) -> b + i <> a + j).
  { intros o' b i j Hl Hir Hjr E. destruct (listed_spec o' b Hl) as (zb & Hbb & ? & _).
    destruct (words_inj b zb false a z false i j) as [-> _]; try done; try lia. by apply (Hout o'). }
  destruct (offset_range o (list_of_offset z)) as [Hor _].
  assert (Hhd : forall h, head (L o) = Some h -> h ∈ L o) by (intros h Hh; destruct (L o); [done | injection Hh as ->; by left]).
  assert (Hseg : forall o', o' ∈ offsets -> m' (HeapMemory s + o') = if decide (o' = o) then a else hmem s (HeapMemory s + o')).
  { intros o' Ho'. destruct (offset_range o' Ho') as [Ho'r _]. unfold base, sizeof_Seg_Lists in *. rewrite Hm.
    rewrite (decide_ext (HeapMemory s + o' = HeapMemory s + o) (o' = o)) by lia. case_decide; [done|].
    rewrite !(decide_False (P := HeapMemory s + o' = _)) by lia. rewrite decide_False; [done|].
    destruct (head (L o)) as [h|] eqn:Eh; simpl; [|done]. destruct (listed_spec o h (Hhd h eq_refl)) as (_ & _ & _ & _ & Hbh & _).
    unfold base, sizeof_Seg_Lists in *. intros [= E]. lia. }
  assert (Hlnk : forall o' b, b ∈ L o' -> m' (b + 8) = (if decide (Some b = head (L o)) then a else hmem s (b + 8)) /\ m' (b + 16) = hmem s (b + 16)).
  { intros o' b Hl. destruct (listed_spec o' b Hl) as (_ & _ & _ & _ & Hbb & _). unfold base, sizeof_Seg_Lists in *. rewrite !Hm.
    rewrite !(decide_False (P := _ = HeapMemory s + o)) by lia.
    rewrite !(decide_False (P := _ = a + 8)), !(decide_False (P := _ = a + 16)) by (eapply Hah; eauto).
    destruct (head (L o)) as [h|] eqn:Eh; simpl; [|done]. split.
    - apply decide_ext. split; [intros [= ?]; f_equal; lia | by intros [= ->]].
    - rewrite decide_False; [done|]. intros [= E]. destruct (link_inj o' o b h 16 8); auto. done. }
  apply inv_links.
  - intros w Hw. rewrite Hm in Hw. destruct (decide (w = HeapMemory s + o)) as [->|Hwl]; [right; unfold base, sizeof_Seg_Lists; lia|]. left.
    destruct (head (L o)) as [h|] eqn:Eh; simpl in Hw.
    + destruct (decide (Some w = Some (h + 8))) as [[= ->]|_]; [destruct (listed_spec o h (Hhd h eq_refl)) as (zh & Hbh & _); eauto|].
      repeat case_decide; subst; eauto; done.
    + repeat case_decide; subst; eauto; done.
  - intros o' Ho'. destruct (hi_lists _ _ _ _ Hi o' Ho') as [Hh Hc]. rewrite Hseg by done. destruct (decide (o' = o)) as [->|Hne].
    + split; [done|]. simpl. assert (E : m' (a + 8) = 0 /\ m' (a + 16) = hd 0 (L o)).
      { rewrite !Hm. unfold base, sizeof_Seg_Lists in *. rewrite !(decide_False (P := _ = HeapMemory s + o)) by lia.
        rewrite !(decide_False (P := Some _ = _)).
        - rewrite (decide_True (P := a + 8 = a + 8)), (decide_False (P := a + 16 = a + 8)), (decide_True (P := a + 16 = a + 16)) by lia. done.
        - destruct (head (L o)) as [h|] eqn:Eh; simpl; [|done]. intros [= E]. by apply (Hah o h 8 16 (Hhd h eq_refl)); auto.
        - destruct (head (L o)) as [h|] eqn:Eh; simpl; [|done]. intros [= E]. by apply (Hah o h 8 8 (Hhd h eq_refl)); auto. }
      destruct E as [-> ->]. split_and!; [done | done|]. eapply chain_push; [apply Hi | exact Hc|]. intros b Hb'. by apply (Hlnk o).
    + split; [done|]. eapply chain_frame; [|exact Hc]. intros b Hb'. destruct (Hlnk o' b Hb') as [-> ->].
      rewrite decide_False; [done|]. intros E. symmetry in E. apply Hne, (lists_disjoint o' o b Hb'). by apply Hhd.
  - intros o'. destruct (decide (o' = o)); [|apply Hi]. apply NoDup_cons. split; [apply Hout | apply Hi].
  - intros o' b. destruct (decide (o' = o)) as [->|Hne].
    + rewrite elem_of_cons, (hi_members _ _ _ _ Hi), EX, not_elem_of_cons. split.
      * intros [->|[_ ?]]; split; [apply not_elem_of_nil | by exists z | apply not_elem_of_nil | done].
      * intros [_ Hzz]. destruct (decide (b = a)); [by left | right]. split; [split; [done | apply not_elem_of_nil] | done].
    + rewrite (hi_members _ _ _ _ Hi), EX, not_elem_of_cons. split; [intros [_ ?]; split; [apply not_elem_of_nil | done]|].
      intros [_ (z' & Hz' & <-)]. split; [|eauto]. split; [|apply not_elem_of_nil]. intros ->. apply Hne. unfold o. f_equal.
      by destruct (block_unique _ _ _ _ _ Hb Hz').
Qed.

Lemma size_of_tag z u : 0 <= z < 2 ^ 64 -> z mod 16 = 0 -> size_of (tag z u) = z.
Proof.
  intros Hz H16. unfold size_of. change (2 ^ 64 - 16) with (2 ^ 64 - 2 ^ 4). rewrite land_high_mod by lia. unfold tag.
  apply Z.mod_divide in H16 as [k ->]; [|done]. destruct u.
  - rewrite (Z.mod_small (k * 16 + 1)) by lia. rewrite Z.add_comm, Z.mod_add by lia. change (1 mod 2 ^ 4) with 1. lia.
  - rewrite Z.add_0_r, Z.mod_small by lia. change (2 ^ 4) with 16. rewrite Z.mod_mul by lia. lia.
Qed.

Lemma tag_bit z u : z mod 16 = 0 -> Z.land (tag z u) 1 = if u then 1 else 0.
Proof.
  intros H16. rewrite land_bit0. apply Z.mod_divide in H16 as [k ->]; [|done]. unfold tag.
  replace (k * 16 + (if u then 1 else 0)) with ((if u then 1 else 0) + (8 * k) * 2) by lia. rewrite Z.mod_add by lia. by destruct u.
Qed.

(** The header of a block. *)
Lemma wp_load_tag a z u (Q : Z -> kheap -> Prop) :
  at_block (base s) bs a z u -> Q (tag z u) s -> wp (load_word a) Q s.
Proof.
  intros Hb HQ. destruct (block_facts a z u Hb) as (_ & _ & _ & _ & ? & _). apply wp_load_word.
  - rewrite <- (Z.add_0_r a). by apply (block_word a z u); [|lia|].
  - by rewrite (proj1 (hi_tags _ _ _ _ Hi _ _ _ Hb)).
Qed.

Lemma wp_insert_free a z (Q : unit -> kheap -> Prop) :
  X = [a] -> at_block (base s) bs a z false ->
  (forall s' L', heap_inv s' bs L' [] -> payload_kept s bs s' -> Q tt s') -> wp (insert_free (a + 8)) Q s.
Proof.
  intros EX Hb HQ. destruct (block_facts a z false Hb) as (Hab & _ & _ & H16 & _ & Hz & _ & H64). specialize (Hz eq_refl).
  pose proof (list_of_offset z) as Ho. destruct (hi_lists _ _ _ _ Hi _ Ho) as [Hhd _].
  unfold insert_free. replace (a + 8 - WS) with a by (unfold WS; lia).
  apply wp_bind, (wp_load_tag a z false); [done|]. rewrite size_of_tag by (done || lia). apply wp_bind, wp_fetch. rewrite (hi_seg _ _ _ _ Hi).
  apply wp_bind, wp_load_word; [by apply seg_word|]. rewrite Hhd.
  apply wp_bind, wp_store_word; [by apply (block_word a z false); [|lia|]|].
  apply wp_bind, wp_store_word; [by apply (block_word a z false); [|lia|]|]. cbn [hmem set_hmem].
  assert (Hdone : forall m', (forall w, m' w = if decide (w = HeapMemory s + list_of z) then a else
     if decide (Some w = (h ← head (L (list_of z)); Some (h + 8))) then a else
     if decide (w = a + 8) then 0 else if decide (w = a + 16) then hd 0 (L (list_of z)) else hmem s w) -> Q tt (set_hmem m' s)).
  { intros m' Hm. destruct (inserted a z m' EX Hb Hm) as [Hi' Hk]. by eapply HQ. }
  apply wp_bind. destruct (head (L (list_of z))) as [h|] eqn:Eh.
  - assert (Hl : h ∈ L (list_of z)) by (destruct (L (list_of z)); [done | injection Eh as ->; by left]).
    assert (hd 0 (L (list_of z)) = h) as Ehd by (destruct (L (list_of z)); [done | by injection Eh]). rewrite Ehd in *.
    destruct (listed_spec _ h Hl) as (zh & Hbh & ? & ? & _). rewrite (proj2 (Z.eqb_neq h 0)) by lia. cbn [negb when].
    apply wp_store_word; [by apply (block_word h zh false); [|lia|]|]. apply wp_store_word; [by apply seg_word|]. cbn [hmem set_hmem].
    apply Hdone. intros w. simpl. unfold upd. repeat case_bool; repeat case_decide; done || congruence || lia.
  - assert (hd 0 (L (list_of z)) = 0) as Ehd by (by destruct (L (list_of z))). rewrite Ehd in *. cbn [negb when Z.eqb]. apply wp_ret.
    apply wp_store_word; [by apply seg_word|]. cbn [hmem set_hmem].
    apply Hdone. intros w. simpl. unfold upd. repeat case_bool; repeat case_decide; done || congruence || lia.
Qed.

(** A part of the heap is divided into other blocks: its memory may change, its
    free blocks are in no list before and after. *)
Lemma inv_replace pre mid mid' post m' X' :
  let a0 := base s + total pre in
  bs = pre ++ mid ++ post -> pre <> [] -> Forall block_size_ok mid' -> total mid' = total mid ->
  (forall w, w < a0 \/ a0 + total mid <= w -> m' w = hmem s w) ->
  (forall a z u, at_block a0 mid' a z u -> m' a = tag z u /\ m' (a + z - 8) = tag z u) ->
  (forall a z, at_block a0 mid a z false -> a ∈ X) -> (forall a z, at_block a0 mid' a z false -> a ∈ X') ->
  (forall x, x < a0 \/ a0 + total mid <= x -> x ∈ X <-> x ∈ X') ->
  heap_inv (set_hmem m' s) (pre ++ mid' ++ post) L X'.
Proof.
  intros a0 Ebs Hpre Hsz Et Hout Htags Hfree Hfree' HX. pose proof Hi as [H1 H2 H3 H4 H5 H6 H7 H8 H9 H10].
  assert (Hpos : 0 <= total pre /\ 0 <= total mid /\ 0 <= total post).
  { pose proof inv_positive as Hp. rewrite Ebs in Hp. apply Forall_app in Hp as [Hp1 Hp]. apply Forall_app in Hp as [Hp2 Hp3].
    split_and!; by apply total_nonneg. }
  assert (Hold : forall a z u, at_block (base s) pre a z u \/ at_block (a0 + total mid) post a z u ->
            at_block (base s) bs a z u /\ (a + z <= a0 \/ a0 + total mid <= a)).
  { intros a z u Hb. pose proof inv_positive as Hp. rewrite Ebs in *. rewrite !at_block_app. fold a0.
    apply Forall_app in Hp as [Hp1 Hp]. apply Forall_app in Hp as [_ Hp3].
    destruct Hb as [Hb|Hb]; [destruct (at_block_in _ _ _ _ _ Hp1 Hb) | destruct (at_block_in _ _ _ _ _ Hp3 Hb)]; (split; [tauto | unfold a0; lia]). }
  assert (Hcase : forall a z u, at_block (base s) (pre ++ mid' ++ post) a z u <->
            (at_block (base s) pre a z u \/ at_block (a0 + total mid) post a z u) \/ at_block a0 mid' a z u).
  { intros a z u. rewrite !at_block_app, Et. fold a0. tauto. }
  assert (Hcase0 : forall a z u, at_block (base s) bs a z u <->
            (at_block (base s) pre a z u \/ at_block (a0 + total mid) post a z u) \/ at_block a0 mid a z u).
  { intros a z u. rewrite Ebs, !at_block_app. fold a0. tauto. }
  assert (Hin : forall a z u, at_block a0 mid' a z u -> a0 <= a /\ a + z <= a0 + total mid).
  { intros a z u Hb. assert (Hp : positive mid') by (eapply Forall_impl; [exact Hsz|]; intros b [? _]; lia).
    destruct (at_block_in _ _ _ _ _ Hp Hb) as (? & ? & _). lia. }
  constructor; cbn [hmem set_hmem HeapMemory HeapMemoryBrk HeapMemoryEnd seg_lists_ptr]; try done.
  - rewrite H3, Ebs, !total_app, Et. done.
  - destruct H5 as (bs' & E & Hf). destruct pre as [|p pre]; [done|]. rewrite Ebs in E. injection E as -> <-.
    exists (pre ++ mid' ++ post). split; [done|]. apply Forall_app in Hf as [Hf1 Hf]. apply Forall_app in Hf as [_ Hf2].
    apply Forall_app. split; [done|]. by apply Forall_app.
  - intros a z u. change (base (set_hmem m' s)) with (base s). rewrite Hcase. intros [Hb|Hb]; [|by apply Htags].
    destruct (Hold a z u Hb) as [Hb' Hr]. destruct (block_facts a z u Hb') as (_ & _ & _ & _ & ? & _). rewrite !Hout by lia. by apply H6.
  - change (base (set_hmem m' s)) with (base s). rewrite Ebs, !total_app in H7. rewrite !total_app, Et, Hout by (unfold a0; lia). done.
  - intros o Ho. destruct (offset_range o Ho) as [? _]. destruct (H8 o Ho) as [Hh Hc].
    split; [rewrite Hout; [done | unfold a0, base, sizeof_Seg_Lists; lia]|]. eapply chain_frame; [|exact Hc]. intros b Hb.
    destruct (listed_spec o b Hb) as (z & Hbb & Hz & _). destruct (listed_block o b Hb) as (_ & _ & _ & HbX).
    apply Hcase0 in Hbb as Hbb'. destruct Hbb' as [Hbb'|Hbb']; [|by apply Hfree in Hbb']. destruct (Hold b z false Hbb') as [_ Hr].
    by rewrite !Hout by lia.
  - intros o a. change (base (set_hmem m' s)) with (base s). rewrite H10. split.
    + intros (HnX & z & Hb & Ez). apply Hcase0 in Hb as [Hb|Hb]; [|by apply Hfree in Hb]. destruct (Hold a z false Hb) as [Hb' Hr].
      destruct (block_facts a z false Hb') as (_ & _ & _ & _ & ? & _). split; [by rewrite <- HX by lia|]. exists z. rewrite Hcase. auto.
    + intros (HnX & z & Hb & Ez). apply Hcase in Hb as [Hb|Hb]; [|by apply Hfree' in Hb]. destruct (Hold a z false Hb) as [Hb' Hr].
      destruct (block_facts a z false Hb') as (_ & _ & _ & _ & ? & _). split; [by rewrite HX by lia|]. eauto.
Qed.

Lemma merged pre z1 z2 post :
  let a1 := base s + total pre in
  bs = pre ++ [(z1, false); (z2, false)] ++ post -> pre <> [] -> (forall x, x ∈ X <-> x = a1 \/ x = a1 + z1) ->
  let s' := set_hmem (upd (upd (hmem s) a1 (z1 + z2)) (a1 + z1 + z2 - 8) (z1 + z2)) s in
  heap_inv s' (pre ++ [(z1 + z2, false)] ++ post) L [a1] /\ payload_kept s bs s'.
Proof.
  intros a1 Ebs Hpre HX s'.
  assert (Hb1 : at_block (base s) bs a1 z1 false) by (rewrite Ebs; by exists pre, ((z2, false) :: post)).
  assert (Hb2 : at_block (base s) bs (a1 + z1) z2 false).
  { rewrite Ebs, at_block_app. right. apply at_block_cons. right. apply at_block_cons. left. by split. }
  destruct (block_facts _ _ _ Hb1) as (_ & _ & _ & Hm1 & _ & Hz1 & _). destruct (block_facts _ _ _ Hb2) as (_ & _ & _ & Hm2 & _ & Hz2 & _).
  specialize (Hz1 eq_refl). specialize (Hz2 eq_refl).
  assert (Emid : total [(z1, false); (z2, false)] = z1 + z2) by (unfold total; simpl; lia).
  assert (Hout : forall w, w < a1 \/ a1 + (z1 + z2) <= w -> upd (upd (hmem s) a1 (z1 + z2)) (a1 + z1 + z2 - 8) (z1 + z2) w = hmem s w).
  { intros w Hw. by rewrite !upd_ne by lia. }
  split.
  - apply (inv_replace pre [(z1, false); (z2, false)]); try done; fold a1; rewrite ?Emid; try done.
    + constructor; [split; simpl; [lia | by rewrite Z.add_mod, Hm1, Hm2]|constructor].
    + unfold total; simpl; lia.
    + intros a z u [[-> E]|[]%at_block_nil]%at_block_cons. injection E as <- <-. unfold tag. rewrite Z.add_0_r, Z.add_assoc, upd_eq.
      rewrite upd_ne, upd_eq by lia. done.
    + intros a z [[-> E]|[[-> E]|[]%at_block_nil]%at_block_cons]%at_block_cons; apply HX; simpl; auto.
    + intros a z [[-> E]|[]%at_block_nil]%at_block_cons. by left.
    + intros x Hx. rewrite HX, list_elem_of_singleton. lia.
  - split; [done|]. intros a z w Hb Hw. cbn [hmem set_hmem s'].
    destruct (at_block_cmp _ _ _ _ _ _ _ _ inv_positive Hb Hb1) as [(_ & _ & ?)|?]; [done|].
    destruct (at_block_cmp _ _ _ _ _ _ _ _ inv_positive Hb Hb2) as [(_ & _ & ?)|?]; [done|].
    destruct (block_facts _ _ _ Hb) as (_ & _ & _ & _ & ? & _). rewrite !upd_ne by lia. done.
Qed.

End inv.

Lemma payload_trans s1 bs1 s2 bs2 s3 :
  (forall a z, at_block (base s1) bs1 a z true -> at_block (base s1) bs2 a z true) ->
  payload_kept s1 bs1 s2 -> payload_kept s2 bs2 s3 -> payload_kept s1 bs1 s3.
Proof.
  intros Hu [E1 H1] [E2 H2]. split; [by rewrite E2, E1|]. intros a z w Hb Hw. rewrite (H2 a z w), (H1 a z w); [done..| |done].
  rewrite E1. by apply Hu.
Qed.

Lemma payload_refl s bs : payload_kept s bs s.
Proof. split; [by destruct s | done]. Qed.

Lemma payload_base s bs s' : payload_kept s bs s' -> base s' = base s /\ seg_lists_ptr s' = seg_lists_ptr s.
Proof. intros [-> _]. done. Qed.

Lemma wp_remove_free s bs L X a z (Q : unit -> kheap -> Prop) :
  heap_inv s bs L X -> at_block (base s) bs a z false -> (a ∉ X) ->
  (forall s' L', heap_inv s' bs L' (a :: X) -> payload_kept s bs s' -> Q tt s') -> wp (remove_free (a + 8) z) Q s.
Proof.
  intros Hi Hb HX HQ. unfold remove_free. apply wp_bind, wp_fetch. replace (a + 8 - WS) with a by (unfold WS; lia).
  by eapply (wp_unlink Hi a z).
Qed.

Lemma to_u64_size s bs L X pre mid post :
  heap_inv s bs L X -> bs = pre ++ mid ++ post -> to_u64 (total mid) = total mid.
Proof.
  intros Hi ->. pose proof (inv_positive Hi) as Hp. apply Forall_app in Hp as [Hp1 Hp]. apply Forall_app in Hp as [Hp2 Hp3].
  apply total_nonneg in Hp1, Hp2, Hp3. pose proof (hi_brk _ _ _ _ Hi) as Hb. pose proof (hi_end _ _ _ _ Hi). rewrite !total_app in Hb.
  destruct (hi_start _ _ _ _ Hi). unfold base, sizeof_Seg_Lists in *. unfold to_u64. apply wrap_small. lia.
Qed.

Lemma wp_coalesce_prev s L pre z post (Q : Z * Z -> kheap -> Prop) :
  let bs := pre ++ [(z, false)] ++ post in let a := base s + total pre in
  heap_inv s bs L [a] -> pre <> [] ->
  (forall s' L' pre1 z1, heap_inv s' (pre1 ++ [(z1, false)] ++ post) L' [base s + total pre1] -> pre1 <> [] -> z <= z1 ->
     payload_kept s bs s' -> same_used (base s) bs (pre1 ++ [(z1, false)] ++ post) ->
     (sep pre -> sep pre1) -> (sep pre -> forall x, last pre1 = Some x -> snd x = true) ->
     Q (base s + total pre1 + 8, z1) s') ->
  wp (coalesce_prev (a + 8) z) Q s.
Proof.
  intros bs a Hi Hpre HQ. destruct (exists_last Hpre) as (pre1 & [zp up] & Epre).
  assert (Ea : a = base s + total pre1 + zp) by (unfold a; rewrite Epre, total_app; unfold total at 2; simpl; lia).
  assert (Hbs : bs = pre1 ++ [(zp, up)] ++ [(z, false)] ++ post) by (unfold bs; rewrite Epre; by rewrite <- app_assoc).
  assert (Hb : at_block (base s) bs (a - zp) zp up).
  { rewrite Hbs. exists pre1, ([(z, false)] ++ post). split; [done | lia]. }
  destruct (block_facts Hi _ _ _ Hb) as (_ & _ & _ & H16 & Hz & Hz32 & Hbase & H64). destruct (hi_tags _ _ _ _ Hi _ _ _ Hb) as [_ Hft].
  replace (a - zp + zp - 8) with (a + 8 - DWS) in Hft by (unfold DWS; lia).
  unfold coalesce_prev. apply wp_bind, wp_load_word.
  { replace (a + 8 - DWS) with (a - zp + (zp - 8)) by (unfold DWS; lia). apply (block_word Hi (a - zp) zp up); [done | lia|].
    apply Z.mod_divide in H16 as [k ->]; [|done]. replace (k * 16 - 8) with ((2 * k - 1) * 8) by lia. by rewrite Z.mod_mul. }
  rewrite Hft, tag_bit, size_of_tag by (done || lia). destruct up; cbn [Z.eqb].
  - apply wp_ret. apply (HQ s L pre z); [done | done | lia | apply payload_refl | done | done|].
    intros _ x Hx. rewrite Epre, last_snoc in Hx. by injection Hx as <-.
  - specialize (Hz32 eq_refl). assert (Hne : a - zp <> a) by lia.
    replace (a + 8 - zp) with (a - zp + 8) by lia. apply wp_bind. eapply (wp_remove_free _ _ _ _ _ _ _ Hi Hb); [rewrite list_elem_of_singleton; done|].
    intros s1 L1 Hi1 Hk1. pose proof (payload_base _ _ _ Hk1) as [Eb Es].
    assert (Hp1 : pre1 <> []).
    { intros ->. destruct (hi_sizes _ _ _ _ Hi) as (bs' & E & _). rewrite Hbs in E. simpl in E. congruence. }
    destruct (merged Hi1 pre1 zp z post) as [Hi2 Hk2].
    { by rewrite Hbs. }
    { done. }
    { intros x. rewrite elem_of_cons, list_elem_of_singleton, Eb. lia. }
    pose proof (to_u64_size _ _ _ _ pre1 [(zp, false); (z, false)] post Hi Hbs) as E64.
    replace (total [(zp, false); (z, false)]) with (zp + z) in E64 by (unfold total; simpl; lia). rewrite E64.
    assert (Hb' : at_block (base s1) bs a z false).
    { rewrite Eb. exists pre, post. done. }
    assert (Hb1 : at_block (base s1) bs (a - zp) zp false) by (by rewrite Eb).
    destruct (block_facts Hi1 _ _ _ Hb') as (_ & _ & _ & Hzm & _ & Hzz & _). specialize (Hzz eq_refl).
    apply wp_bind, wp_store_word. { replace (a - zp + 8 - WS) with (a - zp + 0) by (unfold WS; lia). by apply (block_word Hi1 _ _ _ 0 Hb1); [lia|]. }
    apply wp_bind, wp_store_word. { replace (a + 8 + z - DWS) with (a + (z - 8)) by (unfold DWS; lia). apply (block_word Hi1 _ _ _ (z - 8) Hb'); [lia|].
      apply Z.mod_divide in Hzm as [k ->]; [|done]. replace (k * 16 - 8) with ((2 * k - 1) * 8) by lia. by rewrite Z.mod_mul. }
    apply wp_ret. replace (a - zp + 8) with (base s + total pre1 + 8) by lia. rewrite Eb in Hi2, Hk2.
    replace (base s + total pre1 + zp + z - 8) with (a + 8 + z - DWS) in Hi2, Hk2 by (unfold DWS; lia).
    replace (base s + total pre1 + 8 - WS) with (base s + total pre1) by (unfold WS; lia). cbn [hmem set_hmem] in *.
    apply (HQ _ L1 pre1 (zp + z) Hi2); try done; try lia.
    + eapply payload_trans; [|exact Hk1 | exact Hk2]. done.
    + rewrite Hbs. change ([(zp, false)] ++ [(z, false)] ++ post) with ([(zp, false); (z, false)] ++ post).
      apply same_used_free; [unfold total; simpl; lia | repeat constructor | repeat constructor].
    + rewrite Epre. intros [? _]%sep_app. done.
    + rewrite Epre. intros Hs x Hx. by eapply sep_last.
Qed.

Lemma wp_coalesce_next s L pre z post (Q : unit -> kheap -> Prop) :
  let bs := pre ++ [(z, false)] ++ post in let a := base s + total pre in
  heap_inv s bs L [a] -> pre <> [] ->
  (forall s' L' z1 post1, heap_inv s' (pre ++ [(z1, false)] ++ post1) L' [a] -> z <= z1 ->
     payload_kept s bs s' -> same_used (base s) bs (pre ++ [(z1, false)] ++ post1) ->
     (sep post -> sep post1) -> (sep post -> forall x, head post1 = Some x -> snd x = true) ->
     Q tt s') ->
  wp (coalesce_next (a + 8) z) Q s.
Proof.
  intros bs a Hi Hpre HQ. assert (Hb : at_block (base s) bs a z false) by (by exists pre, post).
  destruct (block_facts Hi _ _ _ Hb) as (_ & _ & H8 & H16 & _ & Hz & _). specialize (Hz eq_refl).
  unfold coalesce_next. replace (a + 8 + z - WS) with (a + z) by (unfold WS; lia). destruct post as [|[zn un] post1].
  { assert (Eend : a + z = base s + total bs) by (unfold a, bs; rewrite !total_app; unfold total at 3 4; simpl; lia).
    apply wp_bind, wp_load_word.
    - rewrite Eend. apply (epilogue_word Hi).
    - rewrite Eend, (hi_epilogue _ _ _ _ Hi). cbn [Z.land Z.eqb Pos.land when]. apply wp_ret.
      by apply (HQ s L z []); [done | lia | apply payload_refl | done | |]. }
  assert (Hbs : bs = pre ++ [(z, false); (zn, un)] ++ post1) by done.
  assert (Hbn : at_block (base s) bs (a + z) zn un).
  { rewrite Hbs, at_block_app. right. apply at_block_cons. right. apply at_block_cons. left. by split. }
  destruct (block_facts Hi _ _ _ Hbn) as (_ & _ & _ & Hn16 & _ & Hzn & _ & H64).
  apply wp_bind, (wp_load_tag Hi _ _ _ _ Hbn). rewrite tag_bit, size_of_tag by (done || (destruct (block_facts Hi _ _ _ Hbn); lia)).
  destruct un; cbn [Z.eqb when].
  { apply wp_ret. apply (HQ s L z ((zn, true) :: post1)); [done | lia | apply payload_refl | done | done|].
    intros _ x [= <-]. done. }
  specialize (Hzn eq_refl). replace (a + 8 + z) with (a + z + 8) by lia. apply wp_bind.
  eapply (wp_remove_free _ _ _ _ _ _ _ Hi Hbn); [rewrite list_elem_of_singleton; lia|]. intros s1 L1 Hi1 Hk1.
  pose proof (payload_base _ _ _ Hk1) as [Eb Es].
  destruct (merged Hi1 pre z zn post1) as [Hi2 Hk2]; [done | done | intros x; rewrite elem_of_cons, list_elem_of_singleton, Eb; unfold a; lia|].
  pose proof (to_u64_size _ _ _ _ pre [(z, false); (zn, false)] post1 Hi Hbs) as E64.
  replace (total [(z, false); (zn, false)]) with (z + zn) in E64 by (unfold total; simpl; lia). rewrite E64.
  rewrite <- Eb in Hb, Hbn.
  apply wp_bind, wp_store_word. { replace (a + 8 - WS) with (a + 0) by (unfold WS; lia). by apply (block_word Hi1 _ _ _ 0 Hb); [lia|]. }
  apply wp_store_word.
  { replace (a + z + 8 + zn - DWS) with (a + z + (zn - 8)) by (unfold DWS; lia). apply (block_word Hi1 _ _ _ (zn - 8) Hbn); [lia|].
    apply Z.mod_divide in Hn16 as [k ->]; [|done]. replace (k * 16 - 8) with ((2 * k - 1) * 8) by lia. by rewrite Z.mod_mul. }
  rewrite Eb in Hi2, Hk2. fold a in Hi2, Hk2. replace (a + z + zn - 8) with (a + z + 8 + zn - DWS) in Hi2, Hk2 by (unfold DWS; lia).
  replace (a + 8 - WS) with a by (unfold WS; lia). cbn [hmem set_hmem] in *.
  apply (HQ _ L1 (z + zn) post1 Hi2); [lia | | | |].
  - eapply payload_trans; [|exact Hk1 | exact Hk2]. done.
  - rewrite Hbs. apply same_used_free; [unfold total; simpl; lia | repeat constructor | repeat constructor].
  - by intros [_ ?].
  - intros [Hs _] x Hx. destruct post1 as [|y post1]; [done|]. by injection Hx as <-.
Qed.

(** Joining a free block with its neighbours and putting it on its list. *)
Lemma wp_coalesce_insert s L pre z post (Q : unit -> kheap -> Prop) :
  let bs := pre ++ [(z, false)] ++ post in let a := base s + total pre in
  heap_inv s bs L [a] -> pre <> [] -> sep pre -> sep post ->
  (forall s' L' pre1 z1 post1, heap_inv s' (pre1 ++ [(z1, false)] ++ post1) L' [] -> z <= z1 ->
     payload_kept s bs s' -> same_used (base s) bs (pre1 ++ [(z1, false)] ++ post1) ->
     sep (pre1 ++ [(z1, false)] ++ post1) -> Q tt s') ->
  wp (ptr ← coalesce (a + 8); insert_free ptr) Q s.
Proof.
  intros bs a Hi Hpre Hs1 Hs2 HQ. assert (Hb : at_block (base s) bs a z false) by (by exists pre, post).
  destruct (block_facts Hi _ _ _ Hb) as (_ & _ & _ & H16 & _ & Hz & _ & H64). specialize (Hz eq_refl).
  apply wp_bind. unfold coalesce. replace (a + 8 - WS) with a by (unfold WS; lia). apply wp_bind, (wp_load_tag Hi _ _ _ _ Hb).
  rewrite size_of_tag by (done || lia). apply wp_bind.
  apply (wp_coalesce_prev s L pre z post _ Hi Hpre). intros s1 L1 pre1 z1 Hi1 Hp1 Hz1 Hk1 Hu1 Hsp1 Hlast1.
  pose proof (payload_base _ _ _ Hk1) as [Eb1 _]. rewrite <- Eb1 in *. apply wp_bind.
  apply (wp_coalesce_next s1 L1 pre1 z1 post _ Hi1 Hp1). intros s2 L2 z2 post2 Hi2 Hz2 Hk2 Hu2 Hsp2 Hhead2.
  pose proof (payload_base _ _ _ Hk2) as [Eb2 _]. apply wp_ret. rewrite <- Eb2.
  eapply (wp_insert_free Hi2 (base s2 + total pre1) z2); [by rewrite Eb2 | by exists pre1, post2|].
  intros s3 L3 Hi3 Hk3. apply (HQ s3 L3 pre1 z2 post2 Hi3); [lia | | |].
  - eapply payload_trans; [|exact Hk1|]; [|eapply payload_trans; [|exact Hk2 | exact Hk3]].
    + intros a' z'. rewrite <- Eb1. apply (proj1 (Hu1 a' z')).
    + intros a' z'. apply (proj1 (Hu2 a' z')).
  - intros a' z'. etransitivity; [apply Hu1 | apply Hu2].
  - apply sep_join; [auto | auto | |].
    + intros x Hx. rewrite (Hlast1 Hs1 x Hx). done.
    + intros x Hx. by rewrite (Hhead2 Hs2 x Hx).
Qed.

(** ** Searching the free lists *)

Lemma align_spec x : 0 <= x -> x + 15 < 2 ^ 64 -> x <= align x < x + 16 /\ align x mod 16 = 0.
Proof.
  intros Hx Hb. unfold align, ALIGNMENT, to_u64. rewrite (wrap_small 64 (x + 16 - 1)) by lia.
  pose proof (Z.div_mod (x + 16 - 1) 16 ltac:(lia)). pose proof (Z.mod_pos_bound (x + 16 - 1) 16 ltac:(lia)).
  rewrite wrap_small by lia. split; [lia|]. by rewrite Z.mul_comm, Z.mod_mul.
Qed.

Lemma align_mono x y : 0 <= x <= y -> y + 15 < 2 ^ 64 -> align x <= align y.
Proof.
  intros Hx Hb. unfold align, ALIGNMENT, to_u64. rewrite !(wrap_small 64 (_ + 16 - 1)) by lia.
  pose proof (Z.div_mod (x + 16 - 1) 16 ltac:(lia)). pose proof (Z.mod_pos_bound (x + 16 - 1) 16 ltac:(lia)).
  pose proof (Z.div_mod (y + 16 - 1) 16 ltac:(lia)). pose proof (Z.mod_pos_bound (y + 16 - 1) 16 ltac:(lia)).
  rewrite !wrap_small by lia. lia.
Qed.

(** The size of the block for a request. *)
Definition need (size : Z) : Z := align (to_u64 (size + DWS)).

Lemma need_spec size : 0 <= size -> size + 31 < 2 ^ 64 -> size + 16 <= need size < size + 32 /\ need size mod 16 = 0.
Proof.
  intros Hs Hb. unfold need, DWS, to_u64. rewrite wrap_small by lia. destruct (align_spec (size + 16)) as [? ?]; [lia | lia|]. split; [lia | done].
Qed.

Lemma need_mono x y : 0 <= x <= y -> y + 31 < 2 ^ 64 -> need x <= need y.
Proof. intros Hx Hb. unfold need, DWS, to_u64. rewrite !wrap_small by lia. apply align_mono; lia. Qed.

Section search.
Context {s : kheap} {bs : list (Z * bool)} {L : Z -> list Z} {X : list Z} (Hi : heap_inv s bs L X).

(** A result of the search: NULL or the payload of a free block. *)
Definition found (n r : Z) : Prop := r = 0 \/ exists a z, r = a + 8 /\ at_block (base s) bs a z false /\ (a ∉ X) /\ n <= z.

Lemma listed_length o : Z.of_nat (length (L o)) <= HeapMemoryBrk s - HeapMemory s.
Proof.
  pose proof (data_length (HeapMemoryBrk s - HeapMemory s) (map (fun a => a - HeapMemory s) (L o))) as Hl. rewrite length_map in Hl.
  pose proof (hi_brk _ _ _ _ Hi). pose proof (total_nonneg _ (inv_positive Hi)). unfold base, sizeof_Seg_Lists in *.
  enough (Z.of_nat (length (L o)) <= Z.max 0 (HeapMemoryBrk s - HeapMemory s)) by lia. apply Hl.
  - apply NoDup_fmap; [intros x y E; lia | apply Hi].
  - apply Forall_fmap, Forall_forall. intros a (z & Hb & ? & ? & ? & _)%(listed_spec Hi). destruct (block_facts Hi _ _ _ Hb) as (_ & ? & _).
    unfold base, sizeof_Seg_Lists in *. simpl. lia.
Qed.

(** A list is searched to its end. *)
Lemma wp_scan_list o l0 l fuel n (Q : Z -> kheap -> Prop) :
  o ∈ offsets -> L o = l0 ++ l -> (length l <= fuel)%nat ->
  (forall r, found n r -> (r = 0 -> forall a z, a ∈ l -> at_block (base s) bs a z false -> z < n) -> Q r s) ->
  wp (scan_list fuel (hd 0 l) n) Q s.
Proof.
  intros Ho. revert l0 fuel. induction l as [|a l IH]; intros l0 fuel El Hfuel HQ.
  { destruct fuel; apply wp_ret, HQ; (by left) || (intros _ a z Ha; by apply not_elem_of_nil in Ha). }
  assert (Ha : a ∈ L o) by (rewrite El; apply elem_of_app; right; by left).
  destruct (listed_block Hi o a Ha) as (z & Hb & _ & HaX). destruct (listed_spec Hi o a Ha) as (_ & _ & _ & Hpos & _).
  destruct (block_facts Hi _ _ _ Hb) as (_ & _ & _ & H16 & _ & Hz & _ & H64). specialize (Hz eq_refl).
  destruct fuel as [|fuel]; [simpl in Hfuel; lia|]. cbn [scan_list hd]. rewrite (proj2 (Z.eqb_neq a 0)) by lia.
  apply wp_bind, (wp_load_tag Hi _ _ _ _ Hb). rewrite size_of_tag by (done || lia). destruct (Z.leb_spec n z).
  - apply wp_ret, HQ; [|unfold WS; lia]. right. eauto 6.
  - destruct (hi_lists _ _ _ _ Hi o Ho) as [_ Hc]. rewrite El in Hc. apply chain_mid in Hc as [_ Hnext].
    apply wp_bind, wp_load_word; [by apply (block_word Hi _ _ _ _ Hb); [lia|]|]. rewrite Hnext.
    apply (IH (l0 ++ [a])); [by rewrite <- app_assoc | simpl in Hfuel; lia|]. intros r Hr H0. apply HQ; [done|].
    intros E a' z' Ha' Hb'. apply elem_of_cons in Ha' as [->|Ha']; [|by eapply H0]. by destruct (block_unique Hi _ _ _ _ _ Hb Hb') as [-> _].
Qed.

Lemma wp_scan_free o n (Q : Z -> kheap -> Prop) :
  o ∈ offsets -> (forall r, found n r -> (r = 0 -> forall a z, a ∈ L o -> at_block (base s) bs a z false -> z < n) -> Q r s) ->
  wp (scan (hd 0 (L o)) n) Q s.
Proof.
  intros Ho HQ. apply wp_bind, wp_fetch. pose proof (listed_length o). apply (wp_scan_list o [] (L o)); [done | done | lia | done].
Qed.

Lemma wp_first_fit o n (Q : Z -> kheap -> Prop) :
  hd 0 (L o) <> 0 -> (forall r, found n r -> Q r s) -> wp (first_fit (hd 0 (L o)) n) Q s.
Proof.
  intros Hne HQ. destruct (L o) as [|a l] eqn:El; [done|]. cbn [hd] in *. assert (Ha : a ∈ L o) by (rewrite El; by left).
  destruct (listed_block Hi o a Ha) as (z & Hb & _ & HaX). destruct (block_facts Hi _ _ _ Hb) as (_ & _ & _ & H16 & ? & _ & _ & H64).
  apply wp_bind, (wp_load_tag Hi _ _ _ _ Hb). rewrite size_of_tag by (done || lia). apply wp_ret, HQ.
  destruct (Z.leb_spec n z); [right; eauto 6 | by left].
Qed.

Lemma wp_candidate size bound o (Q : Z -> kheap -> Prop) :
  o ∈ offsets -> Q (if size <=? bound then hd 0 (L o) else 0) s -> wp (candidate size bound o) Q s.
Proof.
  intros Ho HQ. unfold candidate. destruct (size <=? bound); [|by apply wp_ret]. apply wp_bind, wp_fetch. rewrite (hi_seg _ _ _ _ Hi).
  apply wp_load_word; [by apply (seg_word Hi)|]. by rewrite (proj1 (hi_lists _ _ _ _ Hi o Ho)).
Qed.

Lemma found_mono n n' r : n <= n' -> found n' r -> found n r.
Proof. intros Hn [?|(a & z & ? & ? & ? & ?)]; [by left | right]. exists a, z. split_and!; try done. lia. Qed.

(** The number of lists left to search for a size. *)
Definition rank (size : Z) : nat :=
  if size <=? 16 then 6 else if size <=? 48 then 5 else if size <=? 80 then 4 else if size <=? 176 then 3
  else if size <=? 496 then 2 else 1.

(** NULL is returned only if no block of the last list fits. *)
Definition no_large (size r : Z) : Prop :=
  r = 0 -> forall a z, a ∈ L 40 -> at_block (base s) bs a z false -> z < need (Z.max size 497).

(** One list that has blocks: they are searched, and then the lists of larger
    blocks. *)
Lemma wp_search_next level size next (search : KM Z) (Q : Z -> kheap -> Prop) :
  0 < size < next -> next <= 497 ->
  (forall Q' : Z -> kheap -> Prop, (forall r, found (need size) r -> Q' r s) -> wp search Q' s) ->
  (forall Q' : Z -> kheap -> Prop, (forall r, found (need next) r -> no_large next r -> Q' r s) -> wp (get_free_list level next) Q' s) ->
  (forall r, found (need size) r -> no_large size r -> Q r s) ->
  wp (r ← search; if negb (r =? 0) then mret r else get_free_list level next) Q s.
Proof.
  intros Hs Hn Hsearch Hrest HQ. apply wp_bind, Hsearch. intros r Hr. destruct (Z.eqb_spec r 0) as [->|Hne]; cbn [negb].
  - apply Hrest. intros r' Hr' Hno. apply HQ.
    + eapply found_mono; [|exact Hr']. apply need_mono; lia.
    + unfold no_large in *. by replace (Z.max size 497) with (Z.max next 497) by lia.
  - apply wp_ret, HQ; [done|]. by intros ->.
Qed.

Lemma wp_search_list level size bound o (search : Z -> Z -> KM Z) (rest : KM Z) (Q : Z -> kheap -> Prop) :
  o ∈ offsets -> 0 < size -> bound < 497 ->
  (forall Q' : Z -> kheap -> Prop, hd 0 (L o) <> 0 -> (forall r, found (need size) r -> Q' r s) -> wp (search (hd 0 (L o)) (need size)) Q' s) ->
  (size <= bound -> forall Q' : Z -> kheap -> Prop, (forall r, found (need (bound + 1)) r -> no_large (bound + 1) r -> Q' r s) ->
     wp (get_free_list level (bound + 1)) Q' s) ->
  (forall r, found (need size) r -> no_large size r -> Q r s) -> wp rest Q s ->
  wp (fp ← candidate size bound o;
      if negb (fp =? 0) then r ← search fp (need size); if negb (r =? 0) then mret r else get_free_list level (bound + 1) else rest) Q s.
Proof.
  intros Ho Hs Hb Hsearch Hnext HQ Hrest. apply wp_bind, wp_candidate; [done|].
  destruct (Z.leb_spec size bound); [|done]. destruct (Z.eqb_spec (hd 0 (L o)) 0) as [->|Hne]; [done|]. cbn [negb].
  apply (wp_search_next level size (bound + 1)); [lia | lia | by intros; apply Hsearch | by apply Hnext | done].
Qed.

Lemma wp_get_free_list level size (Q : Z -> kheap -> Prop) :
  0 < size -> size + 31 < 2 ^ 64 -> (rank size <= level)%nat ->
  (forall r, found (need size) r -> no_large size r -> Q r s) -> wp (get_free_list level size) Q s.
Proof.
  revert size Q. induction level as [|level IH]; intros size Q Hs Hb Hrank HQ.
  { unfold rank in Hrank. repeat case_bool; lia. }
  cbn [get_free_list]. fold (need size).
  assert (Hnext : forall next, (rank next < rank size)%nat -> 0 < next <= 497 ->
            forall Q' : Z -> kheap -> Prop, (forall r, found (need next) r -> no_large next r -> Q' r s) -> wp (get_free_list level next) Q' s).
  { intros next Hr Hle Q' HQ'. apply IH; [lia | lia | lia | done]. }
  assert (Hscan : forall o (Q' : Z -> kheap -> Prop), o ∈ offsets -> hd 0 (L o) <> 0 -> (forall r, found (need size) r -> Q' r s) ->
            wp (scan (hd 0 (L o)) (need size)) Q' s).
  { intros o Q' Ho _ HQ'. apply wp_scan_free; [done|]. intros r Hr _. by apply HQ'. }
  assert (Hrk : forall next, next = 17 \/ next = 49 \/ next = 81 \/ next = 177 \/ next = 497 -> size <= next - 1 -> (rank next < rank size)%nat).
  { intros next [->|[->|[->|[->| ->]]]] Hle; unfold rank; simpl; repeat case_bool; lia. }
  apply (wp_search_list level size 16 0 scan); [apply offset_in; lia | done | lia | intros; apply Hscan; [apply offset_in; lia | done | done] | intros; apply Hnext; [apply Hrk; lia | lia | done] | done|].
  apply (wp_search_list level size 48 8 first_fit); [apply offset_in; lia | done | lia | intros; by apply wp_first_fit | intros; apply Hnext; [apply Hrk; lia | lia | done] | done|].
  apply (wp_search_list level size 80 16 first_fit); [apply offset_in; lia | done | lia | intros; by apply wp_first_fit | intros; apply Hnext; [apply Hrk; lia | lia | done] | done|].
  apply (wp_search_list level size 176 24 scan); [apply offset_in; lia | done | lia | intros; apply Hscan; [apply offset_in; lia | done | done] | intros; apply Hnext; [apply Hrk; lia | lia | done] | done|].
  apply (wp_search_list level size 496 32 scan); [apply offset_in; lia | done | lia | intros; apply Hscan; [apply offset_in; lia | done | done] | intros; apply Hnext; [apply Hrk; lia | lia | done] | done|].
  apply wp_bind, wp_fetch. rewrite (hi_seg _ _ _ _ Hi). assert (H40 : 40 ∈ offsets) by (apply offset_in; lia).
  apply wp_bind, wp_load_word; [by apply (seg_word Hi)|]. rewrite (proj1 (hi_lists _ _ _ _ Hi 40 H40)).
  apply wp_scan_free; [done|]. intros r Hr H0. apply HQ; [done|]. intros E a z Ha Hba. specialize (H0 E a z Ha Hba).
  pose proof (need_mono size (Z.max size 497)). lia.
Qed.

End search.

(** ** Allocating *)

Lemma tag_used z : z mod 16 = 0 -> Z.lor z 1 = tag z true.
Proof.
  intros H16. unfold tag. apply (lor_add z 1 1); [lia | lia|]. apply Z.mod_divide in H16 as [k ->]; [|done].
  replace (k * 16) with ((8 * k) * 2 ^ 1) by lia. by rewrite Z.mod_mul.
Qed.

(** Two words written: the header and the footer of a block. *)
Definition tagged (m : Z -> Z) (a z : Z) (u : bool) : Z -> Z := upd (upd m a (tag z u)) (a + z - 8) (tag z u).

Lemma tagged_here m a z u : 16 <= z -> tagged m a z u a = tag z u /\ tagged m a z u (a + z - 8) = tag z u.
Proof. intros Hz. unfold tagged. rewrite upd_eq. destruct (decide (a = a + z - 8)); [lia|]. by rewrite upd_ne, upd_eq by lia. Qed.

Lemma tagged_out m a z u w : 16 <= z -> w < a \/ a + z <= w -> tagged m a z u w = m w.
Proof. intros Hz Hw. unfold tagged. by rewrite !upd_ne by lia. Qed.

Lemma wp_tags {A} a z u v (k : KM A) (Q : A -> kheap -> Prop) s :
  word_ok s a = true -> word_ok s (a + z - 8) = true -> v = tag z u -> wp k Q (set_hmem (tagged (hmem s) a z u) s) ->
  wp (_ ← store_word a v; _ ← store_word (a + z - WS) v; k) Q s.
Proof. intros H1 H2 -> HQ. by apply wp_bind, wp_store_word, wp_bind, wp_store_word. Qed.

Lemma wp_tags_last a z u v (Q : unit -> kheap -> Prop) s :
  word_ok s a = true -> word_ok s (a + z - 8) = true -> v = tag z u -> Q tt (set_hmem (tagged (hmem s) a z u) s) ->
  wp (_ ← store_word a v; store_word (a + z - WS) v) Q s.
Proof. intros H1 H2 -> HQ. by apply wp_bind, wp_store_word, wp_store_word. Qed.

Section allocate.
Context {s : kheap} {L : Z -> list Z} (pre : list (Z * bool)) (z : Z) (post : list (Z * bool)).
Let bs := pre ++ [(z, false)] ++ post.
Let a := base s + total pre.
Context (Hi : heap_inv s bs L [a]) (Hpre : pre <> []).

Lemma mid_block : at_block (base s) bs a z false /\ 32 <= z /\ z mod 16 = 0.
Proof.
  assert (Hb : at_block (base s) bs a z false) by (by exists pre, post). destruct (block_facts Hi _ _ _ Hb) as (_ & _ & _ & ? & _ & Hz & _). auto.
Qed.

(** Payloads in use lie outside a free block. *)
Lemma payload_mid m' :
  (forall w, w < a \/ a + z <= w -> m' w = hmem s w) -> payload_kept s bs (set_hmem m' s).
Proof.
  intros Hm. destruct mid_block as (Hb & Hz & _). split; [done|]. intros b zb w Hbb Hw. cbn [hmem set_hmem]. apply Hm.
  destruct (at_block_cmp _ _ _ _ _ _ _ _ (inv_positive Hi) Hbb Hb) as [(_ & _ & ?)|?]; [done | lia].
Qed.

(** The whole block is taken. *)
Lemma taken_whole :
  let s' := set_hmem (tagged (hmem s) a z true) s in
  heap_inv s' (pre ++ [(z, true)] ++ post) L [] /\ payload_kept s bs s'.
Proof.
  destruct mid_block as (Hb & Hz & H16). assert (Et : total [(z, false)] = z) by (unfold total; simpl; lia). split.
  - apply (inv_replace Hi pre [(z, false)]); try done; fold a; rewrite ?Et.
    + by repeat constructor.
    + intros w Hw. apply tagged_out; lia.
    + intros b zb u [[-> E]|[]%at_block_nil]%at_block_cons. injection E as <- <-. apply tagged_here. lia.
    + intros b zb [[-> _]|[]%at_block_nil]%at_block_cons. by left.
    + by intros b zb [[-> E]|[]%at_block_nil]%at_block_cons.
    + intros x Hx. rewrite list_elem_of_singleton, elem_of_nil. lia.
  - apply payload_mid. intros w Hw. apply tagged_out; lia.
Qed.

(** The block is split and its rest marked free. *)
Lemma taken_split n :
  32 <= n -> n mod 16 = 0 -> 32 <= z - n ->
  let s' := set_hmem (tagged (tagged (hmem s) a n true) (a + n) (z - n) false) s in
  heap_inv s' ((pre ++ [(n, true)]) ++ [(z - n, false)] ++ post) L [a + n] /\ payload_kept s bs s'.
Proof.
  intros Hn Hn16 Hr. destruct mid_block as (Hb & Hz & H16). assert (Et : total [(z, false)] = z) by (unfold total; simpl; lia).
  assert (Hout : forall w, w < a \/ a + z <= w -> tagged (tagged (hmem s) a n true) (a + n) (z - n) false w = hmem s w).
  { intros w Hw. by rewrite !tagged_out by lia. }
  split; [|by apply payload_mid]. rewrite <- app_assoc.
  apply (inv_replace Hi pre [(z, false)] [(n, true); (z - n, false)]); try done; fold a; rewrite ?Et; try done.
  - constructor; [done|]. constructor; [|constructor]. split; [done|]. simpl.
    apply Z.mod_divide in Hn16 as [i ->]; [|done]. apply Z.mod_divide in H16 as [j ->]; [|done]. rewrite <- Z.mul_sub_distr_r. by rewrite Z.mod_mul.
  - unfold total; simpl. lia.
  - intros b zb u [[-> E]|[[-> E]|[]%at_block_nil]%at_block_cons]%at_block_cons; injection E as <- <-; simpl.
    + rewrite !(tagged_out _ (a + n)) by lia. apply tagged_here. lia.
    + apply tagged_here. lia.
  - intros b zb [[-> _]|[]%at_block_nil]%at_block_cons. by left.
  - intros b zb [[-> E]|[[-> E]|[]%at_block_nil]%at_block_cons]%at_block_cons; [done|]. simpl. by left.
  - intros x Hx. rewrite !list_elem_of_singleton. lia.
Qed.

Lemma mid_word i : 0 <= i <= z - 8 -> i mod 8 = 0 -> word_ok s (a + i) = true.
Proof. intros Hir Him. destruct mid_block as (Hb & _). by apply (block_word Hi _ z false). Qed.

(** The blocks in use after one of them has been carved out of the free one. *)
Lemma used_whole b zb :
  at_block (base s) (pre ++ [(z, true)] ++ post) b zb true <-> at_block (base s) bs b zb true \/ (b = a /\ zb = z).
Proof.
  unfold bs. cbn [app]. rewrite !at_block_app, !at_block_cons. cbn [fst]. fold a.
  assert (E : (z, true) = (zb, true) <-> zb = z) by (split; [by intros [= ->] | by intros ->]).
  assert (E' : (z, false) <> (zb, true)) by congruence. tauto.
Qed.

Lemma used_split n b zb :
  at_block (base s) ((pre ++ [(n, true)]) ++ [(z - n, false)] ++ post) b zb true <-> at_block (base s) bs b zb true \/ (b = a /\ zb = n).
Proof.
  unfold bs. rewrite <- app_assoc. cbn [app]. rewrite !at_block_app, !at_block_cons. cbn [fst]. fold a.
  assert (E : (n, true) = (zb, true) <-> zb = n) by (split; [by intros [= ->] | by intros ->]).
  assert (E' : (z, false) <> (zb, true)) by congruence. assert (E'' : (z - n, false) <> (zb, true)) by congruence.
  replace (a + n + (z - n)) with (a + z) by lia. tauto.
Qed.

(** What taking [n] bytes of the free block leaves. *)
Definition took (n : Z) (s' : kheap) : Prop :=
  exists bs' L' z', heap_inv s' bs' L' [] /\ sep bs' /\ n <= z' /\ at_block (base s) bs' a z' true /\
    (forall b zb, at_block (base s) bs' b zb true <-> at_block (base s) bs b zb true \/ (b = a /\ zb = z')) /\ payload_kept s bs s'.

Lemma wp_take_block n :
  sep bs -> 32 <= n <= z -> n mod 16 = 0 -> z < 2 ^ 64 ->
  wp (if 32 <=? to_u64 (z - n) then
        _ ← store_word a (Z.lor n 1);
        _ ← store_word (a + n - WS) (Z.lor n 1);
        initialize_free (a + n) (to_u64 (z - n))
      else
        _ ← store_word a (Z.lor z 1);
        store_word (a + z - WS) (Z.lor z 1)) (fun _ s' => took n s') s.
Proof.
  intros Hsep Hn Hn16 H64. destruct mid_block as (Hb & Hz & H16). unfold to_u64. rewrite wrap_small by lia.
  assert (Hm8 : forall x, x mod 16 = 0 -> x mod 8 = 0 /\ (x - 8) mod 8 = 0).
  { intros x Hx. apply Z.mod_divide in Hx as [k ->]; [|done]. split; [replace (k * 16) with ((2 * k) * 8) by lia|
      replace (k * 16 - 8) with ((2 * k - 1) * 8) by lia]; by rewrite Z.mod_mul. }
  destruct (Hm8 n Hn16) as [Hn8 Hn8']. destruct (Hm8 z H16) as [Hz8 Hz8'].
  apply sep_app in Hsep as [Hs1 Hs2]. apply (sep_app [(z, false)]) in Hs2 as [_ Hs2].
  destruct (Z.leb_spec 32 (z - n)).
  - apply wp_tags with (u := true); [rewrite <- (Z.add_0_r a); by apply mid_word; [lia|] | | by apply tag_used|].
    { replace (a + n - 8) with (a + (n - 8)) by lia. by apply mid_word; [lia|]. }
    unfold initialize_free. apply wp_tags with (u := false); [by apply mid_word; [lia|] | | unfold tag; lia|].
    { replace (a + n + (z - n) - 8) with (a + (z - 8)) by lia. by apply mid_word; [lia|]. }
    cbn [hmem set_hmem]. destruct (taken_split n) as [Hi' Hk]; [lia | done | lia|]. set (s1 := set_hmem _ _) in *.
    change (set_hmem (tagged (tagged (hmem s) a n true) (a + n) (z - n) false) (set_hmem (tagged (hmem s) a n true) s)) with s1.
    assert (Ea : a + n = base s1 + total (pre ++ [(n, true)])) by (rewrite total_app; unfold a, total at 3; simpl; change (base s1) with (base s); lia).
    rewrite Ea in Hi' |- *. eapply (wp_coalesce_insert s1 L (pre ++ [(n, true)]) (z - n) post); [exact Hi' | by destruct pre | | done|].
    { apply sep_join; [done | done | intros; by rewrite orb_true_r | done]. }
    intros s2 L2 pre2 z2 post2 Hi2 _ Hk2 Hu2 Hsep2. change (base s1) with (base s) in *.
    exists (pre2 ++ [(z2, false)] ++ post2), L2, n. split_and!; [done | done | lia | | |].
    + apply Hu2, used_split. auto.
    + intros b zb. rewrite <- (Hu2 b zb). apply used_split.
    + eapply payload_trans; [|exact Hk | exact Hk2]. intros b zb Hbb. apply used_split. auto.
  - apply wp_tags_last with (u := true); [rewrite <- (Z.add_0_r a); by apply mid_word; [lia|] | | by apply tag_used|].
    { replace (a + z - 8) with (a + (z - 8)) by lia. by apply mid_word; [lia|]. }
    destruct taken_whole as [Hi' Hk]. exists (pre ++ [(z, true)] ++ post), L, z. split_and!; [done | | lia | | apply used_whole | done].
    + apply sep_join; [done | done | intros; by rewrite orb_true_r | done].
    + apply used_whole. auto.
Qed.

End allocate.

(** [s'] is [s] with the payload [p] of at least [size] bytes newly in use. *)
Definition allocated (s : kheap) (bs : list (Z * bool)) (size p : Z) (s' : kheap) : Prop :=
  exists bs' L' z, heap_inv s' bs' L' [] /\ sep bs' /\ size + 16 <= z /\ base s < p - 8 /\ at_block (base s) bs' (p - 8) z true /\
    (forall b zb, at_block (base s) bs' b zb true <-> at_block (base s) bs b zb true \/ (b = p - 8 /\ zb = z)) /\
    (forall zb, ~ at_block (base s) bs (p - 8) zb true).

Lemma wp_get_allocation s bs L size (Q : Z -> kheap -> Prop) :
  heap_inv s bs L [] -> sep bs -> 0 < size -> size + 31 < 2 ^ 64 ->
  (no_large (s := s) (bs := bs) (L := L) size 0 -> Q 0 s) ->
  (forall p s', p <> 0 -> allocated s bs size p s' -> payload_kept s bs s' -> Q p s') ->
  wp (get_allocation size) Q s.
Proof.
  intros Hi Hsep Hs Hb Hnone HQ. unfold get_allocation. apply wp_bind, (wp_get_free_list Hi); [done | done | unfold rank; repeat case_bool; lia|].
  intros r [->|(a & z & -> & Hblk & _ & Hn)] Hno; [by apply wp_ret, Hnone|].
  destruct (need_spec size) as [Hneed Hn16]; [lia | lia|]. fold (need size).
  assert (Hn32 : 32 <= need size) by (pose proof (Z.div_mod (need size) 16); lia).
  destruct (block_facts Hi _ _ _ Hblk) as (Hbase & _ & _ & H16 & _ & Hz & _ & H64). specialize (Hz eq_refl).
  destruct (hi_start _ _ _ _ Hi) as [Hpos _]. rewrite (proj2 (Z.eqb_neq (a + 8) 0)) by (unfold base, sizeof_Seg_Lists in *; lia).
  replace (a + 8 - WS) with a by (unfold WS; lia). apply wp_bind, (wp_load_tag Hi _ _ _ _ Hblk). rewrite size_of_tag by (done || lia).
  apply wp_bind, wp_fetch, wp_bind, (wp_unlink Hi a z); [done | apply not_elem_of_nil|]. intros s1 L1 Hi1 Hk1.
  pose proof (payload_base _ _ _ Hk1) as [Eb _]. pose proof Hblk as (pre & post & Ebs & Ea).
  change ((z, false) :: post) with ([(z, false)] ++ post) in Ebs.
  assert (Hpre : pre <> []).
  { intros ->. destruct (hi_sizes _ _ _ _ Hi) as (bs' & E & _). rewrite Ebs in E. simpl in E. congruence. }
  assert (Hlow : base s < a).
  { rewrite Ea. pose proof (inv_positive Hi) as Hp. rewrite Ebs in Hp. apply Forall_app in Hp as [Hp _]. destruct pre as [|b pre]; [done|].
    apply Forall_cons in Hp as [Hb1 Hp]. apply total_nonneg in Hp. rewrite total_cons. simpl in Hb1. lia. }
  assert (Hfree : forall zb, ~ at_block (base s) bs a zb true) by (intros zb Hbb; by destruct (block_unique Hi _ _ _ _ _ Hblk Hbb)).
  rewrite <- Eb in Ea. rewrite Ea, Ebs in Hi1. apply wp_bind. rewrite Ea.
  eapply wp_mono; [apply (wp_take_block pre z post Hi1 Hpre (need size)); [by rewrite <- Ebs | lia | done | done]|].
  intros _ s2 (bs2 & L2 & z2 & Hi2 & Hsep2 & Hz2 & Hb2 & Hu2 & Hk2). rewrite <- Ea, Eb, <- Ebs in *. apply wp_ret. apply HQ.
  - unfold base, sizeof_Seg_Lists in *. lia.
  - exists bs2, L2, z2. replace (a + 8 - 8) with a by lia. split_and!; try done. lia.
  - eapply payload_trans; [|exact Hk1 | exact Hk2]. done.
Qed.

(** ** Extending the heap *)

Lemma align_same n : 0 <= n -> n + 15 < 2 ^ 64 -> n mod 16 = 0 -> align n = n.
Proof.
  intros Hn Hb H16. destruct (align_spec n Hn Hb) as [Ha Ha16]. pose proof (Z.div_mod n 16). pose proof (Z.div_mod (align n) 16). lia.
Qed.

Section extend.
Context {s : kheap} {bs : list (Z * bool)} {L : Z -> list Z} (Hi : heap_inv s bs L []).
Context (n : Z) (Hn : 32 <= n) (Hn16 : n mod 16 = 0) (Hroom : HeapMemoryBrk s + n <= HeapMemoryEnd s).
Let e := base s + total bs.

(** The break moved, the new epilogue and the new block. *)
Definition extended : kheap :=
  set_hmem (tagged (upd (hmem s) (e + n) 1) e n false) (set_brk (HeapMemoryBrk s + n) s).

Lemma extended_below w : w < e -> hmem extended w = hmem s w.
Proof. intros Hw. cbn [hmem set_hmem extended]. rewrite tagged_out by lia. by rewrite upd_ne by lia. Qed.

Lemma extended_inv : heap_inv extended (bs ++ [(n, false)]) L [e].
Proof.
  pose proof Hi as [H1 H2 H3 H4 H5 H6 H7 H8 H9 H10]. pose proof (total_nonneg _ (inv_positive Hi)) as Ht.
  assert (En : total (bs ++ [(n, false)]) = total bs + n) by (rewrite total_app; unfold total at 2; simpl; lia).
  assert (Hat : forall a z u, at_block (base s) (bs ++ [(n, false)]) a z u <-> at_block (base s) bs a z u \/ (a = e /\ z = n /\ u = false)).
  { intros a z u. rewrite at_block_app, at_block_cons. fold e. pose proof (at_block_nil (e + fst (n, false)) a z u).
    assert ((n, false) = (z, u) <-> z = n /\ u = false) by (split; [by intros [= -> ->] | by intros [-> ->]]). tauto. }
  constructor; cbn [HeapMemory HeapMemoryBrk HeapMemoryEnd seg_lists_ptr extended set_hmem set_brk]; try done.
  - change (base extended) with (base s). lia.
  - lia.
  - destruct H5 as (bs' & -> & Hf). exists (bs' ++ [(n, false)]). split; [done|]. apply Forall_app. split; [done|]. by repeat constructor.
  - intros a z u. change (base extended) with (base s). rewrite Hat. intros [Hb|(-> & -> & ->)].
    + destruct (block_facts Hi _ _ _ Hb) as (_ & ? & _ & _ & ? & _). rewrite !extended_below by (unfold e; lia). by apply H6.
    + apply tagged_here. lia.
  - change (base extended) with (base s). rewrite En. cbn [hmem extended set_hmem]. replace (base s + (total bs + n)) with (e + n) by (unfold e; lia).
    rewrite tagged_out, upd_eq by lia. done.
  - intros o Ho. destruct (H8 o Ho) as [Hh Hc]. destruct (offset_range o Ho). 
    split; [rewrite extended_below; [done | unfold e, base, sizeof_Seg_Lists; lia]|]. eapply chain_frame; [|exact Hc].
    intros b (z & Hb & ? & _)%(listed_spec Hi). destruct (block_facts Hi _ _ _ Hb) as (_ & ? & _). by rewrite !extended_below by (unfold e; lia).
  - intros o a. change (base extended) with (base s). rewrite H10, list_elem_of_singleton. setoid_rewrite Hat. split.
    + intros (_ & z & Hb & Ez). split; [|eauto]. intros ->. destruct (block_facts Hi _ _ _ Hb) as (_ & ? & _ & _ & ? & _). unfold e in *. lia.
    + intros (Hne & z & [Hb|(-> & _)] & Ez); [split; [apply not_elem_of_nil | eauto] | done].
Qed.

End extend.

(** What an operation of the heap leaves as it was: where the heap lies, and the
    payloads in use. *)
Record heap_kept (s : kheap) (bs : list (Z * bool)) (s' : kheap) : Prop := {
  hk_start : HeapMemory s' = HeapMemory s;
  hk_end : HeapMemoryEnd s' = HeapMemoryEnd s;
  hk_brk : HeapMemoryBrk s <= HeapMemoryBrk s';
  hk_lock : kmalloc_lock s' = kmalloc_lock s;
  hk_words : forall a z w, at_block (base s) bs a z true -> a + 8 <= w < a + z - 8 -> hmem s' w = hmem s w
}.

Lemma payload_heap_kept s bs s' : payload_kept s bs s' -> heap_kept s bs s'.
Proof. intros [E Hw]. constructor; try done; by rewrite E. Qed.

Lemma heap_kept_trans s1 bs1 s2 bs2 s3 :
  (forall a z, at_block (base s1) bs1 a z true -> at_block (base s1) bs2 a z true) ->
  heap_kept s1 bs1 s2 -> heap_kept s2 bs2 s3 -> heap_kept s1 bs1 s3.
Proof.
  intros Hu [A1 B1 C1 D1 E1] [A2 B2 C2 D2 E2]. constructor; try congruence; try lia.
  intros a z w Hb Hw. rewrite (E2 a z w), (E1 a z w); try done. unfold base. rewrite A1. by apply Hu.
Qed.

Lemma wp_extend_heap s bs L n (Q : Z -> kheap -> Prop) :
  heap_inv s bs L [] -> sep bs -> 32 <= n -> n mod 16 = 0 -> HeapMemoryEnd s + n + 15 < 2 ^ 64 ->
  (HeapMemoryEnd s < HeapMemoryBrk s + n -> Q 0 s) ->
  (forall p s' bs' L' a z, p <> 0 -> heap_inv s' bs' L' [] -> sep bs' -> at_block (base s) bs' a z false -> n <= z ->
     same_used (base s) bs bs' -> heap_kept s bs s' -> Q p s') ->
  wp (extend_heap n) Q s.
Proof.
  intros Hi Hsep Hn Hn16 Hend Hnone HQ. destruct (hi_end _ _ _ _ Hi) as [Hbe _]. destruct (hi_start _ _ _ _ Hi) as [Hpos _].
  pose proof (hi_brk _ _ _ _ Hi) as Hbrk. pose proof (total_nonneg _ (inv_positive Hi)) as Ht.
  unfold base, sizeof_Seg_Lists in Hbrk. unfold extend_heap. rewrite align_same by (done || lia). apply wp_bind. unfold kmem_sbrk.
  apply wp_bind, wp_fetch, wp_bind, wp_fetch. rewrite (proj2 (Z.eqb_neq (HeapMemoryBrk s) 0)), (proj2 (Z.eqb_neq (HeapMemoryEnd s) 0)) by lia.
  cbn [orb]. destruct (Z.ltb_spec (to_s64 n) 0) as [Hneg|Hneg].
  { apply wp_ret, wp_ret, Hnone. unfold to_s64 in Hneg. destruct (decide (n < 2 ^ 63)); [rewrite Z.mod_small in Hneg; lia | lia]. }
  assert (Hs64 : to_s64 n = n).
  { unfold to_s64 in *. destruct (decide (n < 2 ^ 63)); [rewrite Z.mod_small; lia|].
    replace (n + 2 ^ 63) with (n - 2 ^ 63 + 1 * 2 ^ 64) in Hneg by lia. rewrite Z.mod_add, Z.mod_small in Hneg; lia. }
  rewrite Hs64. unfold to_u64. rewrite wrap_small by lia. destruct (Z.ltb_spec (HeapMemoryEnd s) (HeapMemoryBrk s + n)) as [Hfull|Hroom]; [by apply wp_ret, wp_ret, Hnone|].
  apply wp_bind, wp_modify, wp_ret. pose proof (extended_inv Hi n Hn Hn16 Hroom) as Hi1.
  assert (Eh : HeapMemoryBrk s - WS = base s + total bs) by (unfold WS, base, sizeof_Seg_Lists; lia). rewrite Eh.
  assert (Hb : at_block (base (extended (s := s) (bs := bs) n)) (bs ++ [(n, false)]) (base s + total bs) n false) by (by exists bs, []).
  assert (Hw : forall i, 0 <= i <= n - 8 -> i mod 8 = 0 -> word_ok (set_brk (HeapMemoryBrk s + n) s) (base s + total bs + i) = true).
  { intros i Hir Him. by apply (block_word Hi1 _ _ _ i Hb). }
  apply wp_bind, wp_store_word.
  { pose proof (epilogue_word Hi1) as He. rewrite total_app in He. change (base (extended n)) with (base s) in He.
    by rewrite total_one, Z.add_assoc in He. }
  assert (H8 : (n - 8) mod 8 = 0).
  { apply Z.mod_divide in Hn16 as [k ->]; [|done]. replace (k * 16 - 8) with ((2 * k - 1) * 8) by lia. by rewrite Z.mod_mul. }
  apply wp_bind. unfold initialize_free. apply wp_tags with (u := false); [rewrite <- (Z.add_0_r (base s + total bs)); by apply Hw; [lia|] | | unfold tag; lia|].
  { replace (base s + total bs + n - 8) with (base s + total bs + (n - 8)) by lia. by apply Hw; [lia|]. }
  match goal with |- wp _ _ ?x => change x with (extended (s := s) (bs := bs) n) end.
  assert (Hbs : bs <> []) by (destruct (hi_sizes _ _ _ _ Hi) as (bs' & -> & _); done).
  eapply (wp_coalesce_insert (extended n) L bs n []); [exact Hi1 | done | done | done|].
  intros s2 L2 pre2 z2 post2 Hi2 Hz2 Hk2 Hu2 Hsep2. change (base (extended n)) with (base s) in *. apply wp_ret.
  eapply (HQ _ s2 (pre2 ++ [(z2, false)] ++ post2) L2 (base s + total pre2) z2); try done.
  - unfold base, sizeof_Seg_Lists, WS. lia.
  - by exists pre2, post2.
  - intros a z. rewrite <- (Hu2 a z). cbn [app]. rewrite at_block_app, at_block_cons. pose proof (at_block_nil (base s + total bs + fst (n, false)) a z true).
    assert ((n, false) <> (z, true)) by congruence. tauto.
  - destruct Hk2 as [E2 Hw2]. constructor; try (by rewrite E2); [rewrite E2; simpl; lia|]. intros a z w Hba Hwa.
    destruct (block_facts Hi _ _ _ Hba) as (_ & ? & _). rewrite (Hw2 a z w), extended_below by (done || lia || (apply at_block_app; by left)). done.
Qed.

(** ** The operations *)

Definition heap_ok (s : kheap) (bs : list (Z * bool)) : Prop :=
  (exists L, heap_inv s bs L []) /\ sep bs /\ kmalloc_lock s = false.

Lemma inv_lock s bs L X b : heap_inv s bs L X -> heap_inv (set_kmalloc_lock b s) bs L X.
Proof. intros [H1 H2 H3 H4 H5 H6 H7 H8 H9 H10]. by constructor. Qed.

Lemma wp_locked s (Q : unit -> kheap -> Prop) :
  kmalloc_lock s = false -> Q tt (set_kmalloc_lock true s) -> wp lock Q s.
Proof. intros Hl HQ. by apply wp_spin_lock. Qed.

Lemma relock s : kmalloc_lock s = false -> set_kmalloc_lock false (set_kmalloc_lock true s) = s.
Proof. intros E. destruct s. simpl in *. by subst. Qed.

Lemma allocated_from s bs s1 bs1 size p s' :
  base s1 = base s -> same_used (base s) bs bs1 -> allocated s1 bs1 size p s' -> allocated s bs size p s'.
Proof.
  intros Eb Hu (bs' & L' & z & Hi & Hs & Hz & Hp & Hb & Hbs & Hfree). rewrite Eb in *. exists bs', L', z. split_and!; try done.
  - intros b zb. rewrite (Hu b zb). apply Hbs.
  - intros zb Hbb. by eapply Hfree, Hu.
Qed.

(** What [kmalloc] returns: NULL when the heap cannot grow, a new payload
    otherwise. *)
Definition kmalloc_post (s : kheap) (bs : list (Z * bool)) (size p : Z) (s' : kheap) : Prop :=
  (p = 0 /\ s' = s /\ HeapMemoryEnd s < HeapMemoryBrk s + Z.max (need size) PAGE_SIZE) \/
  (p <> 0 /\ allocated s bs size p s' /\ heap_kept s bs s').

Lemma wp_heap_alloc s bs size (Q : Z -> kheap -> Prop) :
  heap_ok s bs -> 0 < size -> HeapMemoryEnd s + size + 2 * PAGE_SIZE < 2 ^ 64 ->
  (forall p s', kmalloc_post s bs size p s' -> Q p s') -> wp (kmalloc size) Q s.
Proof.
  intros ([L Hi] & Hsep & Hl) Hs Hb HQ. unfold kmalloc. unfold PAGE_SIZE in Hb. rewrite (proj2 (Z.eqb_neq size 0)) by lia.
  pose proof (hi_brk _ _ _ _ Hi) as Hbrk. destruct (hi_end _ _ _ _ Hi) as [Hbe _]. destruct (hi_start _ _ _ _ Hi) as [Hpos _].
  pose proof (total_nonneg _ (inv_positive Hi)) as Ht. unfold base, sizeof_Seg_Lists in Hbrk.
  destruct (need_spec size) as [Hneed Hn16]; [lia | lia|].
  apply wp_bind, wp_locked; [done|]. set (s0 := set_kmalloc_lock true s). pose proof (inv_lock _ _ _ _ true Hi) as Hi0. fold s0 in Hi0.
  assert (Hdone : forall p s1, p <> 0 -> allocated s0 bs size p s1 -> heap_kept s0 bs s1 -> Q p (set_kmalloc_lock false s1)).
  { intros p s1 Hp (bs' & L' & z & Hi' & Hal) Hk. apply HQ. right. split; [done|]. split.
    - exists bs', L', z. split; [by apply inv_lock | done].
    - destruct Hk as [A B C _ E]. by constructor. }
  apply wp_bind, (wp_get_allocation s0 bs L); [done | done | done | lia | |].
  2: { intros p s1 Hp Hal Hk. rewrite (proj2 (Z.eqb_neq p 0)) by done. cbn [negb]. apply wp_bind, wp_modify, wp_ret. apply Hdone; [done | done|].
       by apply payload_heap_kept. }
  intros _. cbn [negb Z.eqb]. fold (need size).
  set (n := if PAGE_SIZE <? need size then need size else PAGE_SIZE).
  assert (Hn : n = Z.max (need size) PAGE_SIZE /\ n mod 16 = 0) by (unfold n, PAGE_SIZE; destruct (Z.ltb_spec 4096 (need size)); split; done || lia).
  destruct Hn as [En Hnm]. assert (Hnb : 4096 <= n /\ need size <= n < size + 32 + 4096) by (unfold PAGE_SIZE in *; lia).
  apply wp_bind, (wp_extend_heap s0 bs L); [done | done | lia | done | change (HeapMemoryEnd s0) with (HeapMemoryEnd s); lia | |].
  { intros Hfull. cbn [Z.eqb]. apply wp_bind, wp_modify, wp_ret. apply HQ. left. unfold s0. rewrite relock by done.
    change (HeapMemoryEnd s0) with (HeapMemoryEnd s) in Hfull. change (HeapMemoryBrk s0) with (HeapMemoryBrk s) in Hfull. split_and!; [done | done | lia]. }
  intros p s1 bs1 L1 a z Hp Hi1 Hsep1 Hba Hz Hu1 Hk1. rewrite (proj2 (Z.eqb_neq p 0)) by done.
  assert (Eb : base s1 = base s0) by (unfold base; by rewrite (hk_start _ _ _ Hk1)).
  apply wp_bind, (wp_get_allocation s1 bs1 L1); [done | done | done | lia | |].
  - intros Hno. exfalso. rewrite <- Eb in Hba.
    assert (Ha : a ∈ L1 40) by (apply (hi_members _ _ _ _ Hi1); split; [apply not_elem_of_nil|]; exists z; split; [done|];
      unfold list_of; repeat case_bool; done || lia).
    specialize (Hno eq_refl a z Ha Hba). destruct (need_spec 497) as [? _]; [lia | lia|].
    destruct (Z.max_spec size 497) as [[_ E]|[_ E]]; rewrite E in Hno; lia.
  - intros p' s2 Hp' Hal Hk2. apply wp_bind, wp_modify, wp_ret. apply Hdone; [done | |].
    + by eapply allocated_from.
    + eapply heap_kept_trans; [|exact Hk1 | by apply payload_heap_kept]. intros b zb. apply (proj1 (Hu1 b zb)).
Qed.

(** *** Freeing *)

Definition freed_block (s : kheap) (bs : list (Z * bool)) (p : Z) (s' : kheap) : Prop :=
  exists bs', heap_ok s' bs' /\
    (forall b zb, at_block (base s) bs' b zb true <-> at_block (base s) bs b zb true /\ b <> p - 8).

Lemma wp_kfree s bs p z (Q : unit -> kheap -> Prop) :
  heap_ok s bs -> at_block (base s) bs (p - 8) z true -> base s < p - 8 ->
  (forall s', freed_block s bs p s' ->
     (forall a za w, at_block (base s) bs a za true -> a <> p - 8 -> a + 8 <= w < a + za - 8 -> hmem s' w = hmem s w) ->
     s' = set_hmem (hmem s') s -> Q tt s') ->
  wp (kfree p) Q s.
Proof.
  intros ([L Hi] & Hsep & Hl) Hb Hlow HQ. destruct (block_facts Hi _ _ _ Hb) as (Hbase & Htop & H8 & H16 & Hz16 & _ & Hz & H64).
  specialize (Hz ltac:(lia)). destruct (hi_start _ _ _ _ Hi) as [Hpos _]. unfold kfree.
  rewrite (proj2 (Z.eqb_neq p 0)) by (unfold base, sizeof_Seg_Lists in *; lia).
  apply wp_bind, wp_locked; [done|]. set (s0 := set_kmalloc_lock true s). pose proof (inv_lock _ _ _ _ true Hi) as Hi0. fold s0 in Hi0.
  replace (p - WS) with (p - 8) by done. apply wp_bind, (wp_load_tag Hi0 _ z true); [done|]. rewrite size_of_tag by (done || lia).
  pose proof Hb as (pre & post & Ebs & Ea).
  assert (Hpre : pre <> []) by (intros ->; change (total []) with 0 in Ea; lia).
  assert (Hw : forall i, 0 <= i <= z - 8 -> i mod 8 = 0 -> word_ok s0 (p - 8 + i) = true) by (intros i ? ?; by apply (block_word Hi0 _ z true)).
  apply wp_bind. unfold initialize_free. apply wp_tags with (u := false); [rewrite <- (Z.add_0_r (p - 8)); by apply Hw; [lia|] | | unfold tag; lia|].
  { replace (p - 8 + z - 8) with (p - 8 + (z - 8)) by lia. apply Hw; [lia|]. apply Z.mod_divide in H16 as [k ->]; [|done].
    replace (k * 16 - 8) with ((2 * k - 1) * 8) by lia. by rewrite Z.mod_mul. }
  set (s1 := set_hmem _ s0). assert (Hi1 : heap_inv s1 (pre ++ [(z, false)] ++ post) L [base s1 + total pre]).
  { change (base s1) with (base s). rewrite <- Ea.
    apply (inv_replace Hi0 pre [(z, true)] [(z, false)] post); try done; change (base s0) with (base s); rewrite <- ?Ea, ?total_one; try done.
    - by repeat constructor.
    - intros w Hwr. apply tagged_out; lia.
    - intros b zb u [[-> E]|[]%at_block_nil]%at_block_cons. injection E as <- <-. apply tagged_here. lia.
    - by intros b zb [[-> E]|[]%at_block_nil]%at_block_cons.
    - intros b zb [[-> E]|[]%at_block_nil]%at_block_cons. by left.
    - intros x Hx. rewrite list_elem_of_singleton, elem_of_nil. lia. }
  rewrite Ebs in Hsep. apply sep_app in Hsep as [Hs1 Hs2]. apply (sep_app [(z, true)]) in Hs2 as [_ Hs2].
  rewrite Ea. eapply (wp_coalesce_insert s1 L pre z post); [exact Hi1 | done | done | done|].
  intros s2 L2 pre2 z2 post2 Hi2 _ [E2 Hw2] Hu2 Hsep2. change (base s1) with (base s) in *. apply wp_modify.
  assert (Hused : forall b zb, at_block (base s) (pre ++ [(z, false)] ++ post) b zb true <-> at_block (base s) bs b zb true /\ b <> p - 8).
  { intros b zb. rewrite Ebs. cbn [app]. rewrite !at_block_app, !at_block_cons. cbn [fst]. rewrite <- Ea.
    assert ((z, false) <> (zb, true)) by congruence. pose proof (inv_positive Hi) as Hp. rewrite Ebs in Hp.
    apply Forall_app in Hp as [Hp1 Hp]. apply Forall_cons in Hp as [_ Hp2]. split.
    - intros [Hbb|[[_ ?]|Hbb]]; [|done|].
      + destruct (at_block_in _ _ _ _ _ Hp1 Hbb) as (_ & ? & ?). split; [auto | lia].
      + destruct (at_block_in _ _ _ _ _ Hp2 Hbb) as (? & _ & ?). split; [auto | lia].
    - intros [[?|[[? _]|?]] ?]; auto. done. }
  apply HQ.
  - exists (pre2 ++ [(z2, false)] ++ post2). split; [split_and!; [exists L2; by apply inv_lock | done | done]|].
    intros b zb. rewrite <- (Hu2 b zb). apply Hused.
  - intros a za w Hba Hne Hwr. cbn [hmem set_kmalloc_lock]. rewrite (Hw2 a za w); [|by apply Hused | done]. cbn [hmem s1 set_hmem].
    apply tagged_out; [lia|]. destruct (at_block_cmp _ _ _ _ _ _ _ _ (inv_positive Hi) Hba Hb) as [(? & _)|?]; [done | lia].
  - rewrite E2. unfold s1, s0, set_hmem, set_kmalloc_lock. simpl. by rewrite Hl.
Qed.

(** *** Writing payloads *)

(** Memory that changes only inside payloads in use keeps the heap in order. *)
Lemma inv_payload s bs L X m' :
  heap_inv s bs L X ->
  (forall w, m' w <> hmem s w -> exists a z, at_block (base s) bs a z true /\ a + 8 <= w /\ w + 8 <= a + z - 8) ->
  heap_inv (set_hmem m' s) bs L X.
Proof.
  intros Hi Hm. pose proof Hi as [H1 H2 H3 H4 H5 H6 H7 H8 H9 H10].
  assert (Hsame : forall w, (forall a z, at_block (base s) bs a z true -> w < a + 8 \/ a + z - 8 < w + 8) -> m' w = hmem s w).
  { intros w Hw. destruct (decide (m' w = hmem s w)) as [|Hne]; [done|]. destruct (Hm w Hne) as (a & z & Hb & ? & ?). specialize (Hw a z Hb). lia. }
  assert (Hblk : forall a z u i, at_block (base s) bs a z u -> 0 <= i <= z - 8 -> (u = true -> i = 0 \/ i = z - 8) -> m' (a + i) = hmem s (a + i)).
  { intros a z u i Hb Hr Hu. apply Hsame. intros a' z' Hb'. destruct (at_block_cmp _ _ _ _ _ _ _ _ (inv_positive Hi) Hb Hb') as [(-> & -> & ->)|?]; [|lia].
    specialize (Hu eq_refl). lia. }
  constructor; try done.
  - intros a z u Hb. change (base (set_hmem m' s)) with (base s) in Hb. cbn [hmem set_hmem]. destruct (block_facts Hi _ _ _ Hb) as (_ & _ & _ & _ & ? & _).
    pose proof (Hblk a z u 0 Hb ltac:(lia) ltac:(auto)) as E1. pose proof (Hblk a z u (z - 8) Hb ltac:(lia) ltac:(auto)) as E2.
    rewrite Z.add_0_r in E1. replace (a + (z - 8)) with (a + z - 8) in E2 by lia. rewrite E1, E2. by apply H6.
  - cbn [hmem set_hmem]. change (base (set_hmem m' s)) with (base s). rewrite Hsame; [done|]. intros a z Hb.
    destruct (block_facts Hi _ _ _ Hb) as (_ & ? & _). lia.
  - intros o Ho. destruct (H8 o Ho) as [Hh Hc]. destruct (offset_range o Ho). cbn [hmem set_hmem HeapMemory]. split.
    + rewrite Hsame; [done|]. intros a z Hb. destruct (block_facts Hi _ _ _ Hb) as (Hlo & _). unfold base, sizeof_Seg_Lists in Hlo. lia.
    + eapply chain_frame; [|exact Hc]. intros b (z & Hb & ? & _)%(listed_spec Hi). by rewrite !(Hblk b z false) by (done || lia).
Qed.

Lemma wp_store_byte s a b (Q : unit -> kheap -> Prop) :
  word_ok s (a - a mod 8) = true ->
  Q tt (set_hmem (upd (hmem s) (a - a mod 8) (set_word_byte (hmem s (a - a mod 8)) (a mod 8) b)) s) -> wp (store_byte a b) Q s.
Proof. intros Hw HQ. apply wp_bind, wp_load_word; [done|]. by apply wp_store_word. Qed.

(** The bytes [dst], ... become the bytes [f 0], ..., [f (n - 1)]. *)
Definition bytes_set (m : Z -> Z) (dst n : Z) (f : Z -> Z) (m' : Z -> Z) : Prop :=
  (forall w, (w mod 8 <> 0 \/ w < dst \/ dst + n <= w) -> m' w = m w) /\
  (forall i, 0 <= i < n -> mem_byte m' (dst + i) = f i) /\
  (forall a, a < dst \/ dst + n <= a -> mem_byte m' a = mem_byte m a).

Lemma bytes_set_step m dst n f m' :
  0 <= n -> dst mod 8 = 0 -> 0 <= f n < 256 -> bytes_set m dst n f m' ->
  let a := dst + n in
  bytes_set m dst (n + 1) f (upd m' (a - a mod 8) (set_word_byte (m' (a - a mod 8)) (a mod 8) (f n))).
Proof.
  intros Hn H8 Hf (Hw & Hin & Hout) a. pose proof (Z.mod_pos_bound a 8 ltac:(lia)).
  assert (Hal : dst <= a - a mod 8 <= a).
  { unfold a in *. apply Z.mod_divide in H8 as [k ->]; [|done]. rewrite Z.add_comm, Z.mod_add by lia. pose proof (Z.mod_le n 8 Hn ltac:(lia)). pose proof (Z.mod_pos_bound n 8 ltac:(lia)). lia. }
  split_and!.
  - intros w Hwr. rewrite upd_ne; [apply Hw; lia|]. intros ->. destruct Hwr as [Hwr|Hwr]; [|unfold a in *; lia]. apply Hwr.
    rewrite Zminus_mod, Z.mod_mod, Z.sub_diag by lia. done.
  - intros i Hi. rewrite mem_byte_upd by done. unfold a. destruct (Z.eqb_spec (dst + i) (dst + n)); [f_equal; lia | apply Hin; lia].
  - intros b Hb. rewrite mem_byte_upd by done. unfold a. destruct (Z.eqb_spec b (dst + n)); [lia | apply Hout; lia].
Qed.

Lemma word_byte_range w k : 0 <= word_byte w k < 256.
Proof. unfold word_byte. apply Z.mod_pos_bound. lia. Qed.

Section copy.
Context (s : kheap) (dst n : Z) (Hn : 0 <= n) (H8 : dst mod 8 = 0).
Context (Hok : forall i, 0 <= i < n -> word_ok s (dst + i - (dst + i) mod 8) = true).

Lemma wp_memset v (Q : unit -> kheap -> Prop) :
  (forall m', bytes_set (hmem s) dst n (fun _ => to_u8 v) m' -> Q tt (set_hmem m' s)) -> wp (kmalloc_memset dst v n) Q s.
Proof.
  intros HQ. unfold kmalloc_memset.
  apply (wp_for_st (fun i s' => exists m', s' = set_hmem m' s /\ bytes_set (hmem s) dst i (fun _ => to_u8 v) m')).
  - exists (hmem s). split; [by destruct s|]. split_and!; [done | lia | done].
  - intros i s1 Hi (m1 & -> & Hm1). apply wp_store_byte; [apply (Hok i); lia|]. eexists. split; [reflexivity|]. cbn [hmem set_hmem].
    apply (bytes_set_step (hmem s) dst i (fun _ => to_u8 v)); [lia | done | apply wrap_bound; lia | done].
  - intros s1 (m1 & -> & Hm1). apply HQ. by rewrite Z.add_0_l, Z2Nat.id in Hm1 by lia.
Qed.

(** [memcpy] between areas that do not overlap. *)
Lemma wp_memcpy src (Q : unit -> kheap -> Prop) :
  (forall i, 0 <= i < n -> word_ok s (src + i - (src + i) mod 8) = true) -> src + n <= dst \/ dst + n <= src ->
  (forall m', bytes_set (hmem s) dst n (fun i => mem_byte (hmem s) (src + i)) m' -> Q tt (set_hmem m' s)) ->
  wp (kmalloc_memcpy dst src n) Q s.
Proof.
  intros Hsrc Hdis HQ. unfold kmalloc_memcpy.
  apply (wp_for_st (fun i s' => exists m', s' = set_hmem m' s /\ bytes_set (hmem s) dst i (fun j => mem_byte (hmem s) (src + j)) m')).
  - exists (hmem s). split; [by destruct s|]. split_and!; [done | lia | done].
  - intros i s1 Hi (m1 & -> & Hm1). apply wp_bind, wp_bind, wp_load_word; [apply (Hsrc i); lia|]. apply wp_ret.
    cbn [hmem set_hmem]. fold (mem_byte m1 (src + i)). destruct Hm1 as (Hw & Hin & Hout). rewrite (Hout (src + i)) by lia.
    apply wp_store_byte; [apply (Hok i); lia|]. eexists. split; [reflexivity|]. cbn [hmem set_hmem].
    apply (bytes_set_step (hmem s) dst i (fun j => mem_byte (hmem s) (src + j))); [lia | done | apply word_byte_range | done].
  - intros s1 (m1 & -> & Hm1). apply HQ. by rewrite Z.add_0_l, Z2Nat.id in Hm1 by lia.
Qed.

End copy.

(** ** The heap as its clients see it

    [M] maps the payloads in use to their sizes in bytes. *)

Definition live (s : kheap) (bs : list (Z * bool)) (p c : Z) : Prop :=
  at_block (base s) bs (p - 8) (c + 16) true /\ base s < p - 8.

Definition heap_state (s : kheap) (M : gmap Z Z) : Prop :=
  exists bs, heap_ok s bs /\ forall p c, M !! p = Some c <-> live s bs p c.

(** The payloads of [M] have not changed. *)
Record contents_kept (s : kheap) (M : gmap Z Z) (s' : kheap) : Prop := {
  ck_start : HeapMemory s' = HeapMemory s;
  ck_end : HeapMemoryEnd s' = HeapMemoryEnd s;
  ck_words : forall p c w, M !! p = Some c -> p <= w < p + c -> hmem s' w = hmem s w
}.

Lemma contents_refl s M : contents_kept s M s.
Proof. done. Qed.

Lemma contents_trans s1 M1 s2 M2 s3 : M1 ⊆ M2 -> contents_kept s1 M1 s2 -> contents_kept s2 M2 s3 -> contents_kept s1 M1 s3.
Proof.
  intros Hsub [A1 B1 C1] [A2 B2 C2]. constructor; try congruence. intros p c w Hp Hw.
  rewrite (C2 p c w), (C1 p c w); try done. by eapply lookup_weaken.
Qed.

(** Payloads in use are words of the heap, do not overlap and are set apart by
    their tags. *)
Lemma state_facts s M p c :
  heap_state s M -> M !! p = Some c ->
  HeapMemory s < p /\ p + c < HeapMemoryBrk s <= HeapMemoryEnd s /\ p mod 8 = 0 /\ 16 <= c /\ c mod 16 = 0.
Proof.
  intros (bs & ([L Hi] & _) & HM) Hp. apply HM in Hp as [Hb Hlow]. destruct (block_facts Hi _ _ _ Hb) as (H1 & H2 & H3 & H4 & H5 & _ & Hz & _).
  pose proof (hi_brk _ _ _ _ Hi). pose proof (hi_end _ _ _ _ Hi). unfold base, sizeof_Seg_Lists in *. specialize (Hz ltac:(lia)).
  split_and!; try lia.
  - apply Z.mod_divide in H3 as [k Hk]; [|done]. apply Z.mod_divide; [done|]. exists (k + 1). lia.
  - apply Z.mod_divide in H4 as [k Hk]; [|done]. apply Z.mod_divide; [done|]. exists (k - 1). lia.
Qed.

Lemma state_disjoint s M p c q d :
  heap_state s M -> M !! p = Some c -> M !! q = Some d -> p <> q -> p + c + 16 <= q \/ q + d + 16 <= p.
Proof.
  intros (bs & ([L Hi] & _) & HM) [Hp _]%HM [Hq _]%HM Hne.
  destruct (at_block_cmp _ _ _ _ _ _ _ _ (inv_positive Hi) Hp Hq) as [(? & _)|?]; lia.
Qed.

Lemma state_word s M p c i : heap_state s M -> M !! p = Some c -> 0 <= i <= c - 8 -> i mod 8 = 0 -> word_ok s (p + i) = true.
Proof.
  intros (bs & ([L Hi] & _) & HM) [Hb _]%HM Hir Him. replace (p + i) with (p - 8 + (i + 8)) by lia.
  apply (block_word Hi _ _ _ (i + 8) Hb); [lia|]. replace (i + 8) with (i + 1 * 8) by lia. by rewrite Z.mod_add.
Qed.

(** Writing words of a payload. *)
Lemma state_write s M p c m' :
  heap_state s M -> M !! p = Some c -> (forall w, w < p \/ p + c < w + 8 -> m' w = hmem s w) ->
  heap_state (set_hmem m' s) M /\ contents_kept s (delete p M) (set_hmem m' s).
Proof.
  intros Hst Hp Hm. pose proof Hst as (bs & ([L Hi] & Hsep & Hl) & HM). split.
  - exists bs. split; [|done]. split_and!; [|done | done]. exists L. apply inv_payload; [done|]. intros w Hw.
    destruct (proj1 (HM _ _) Hp) as [Hb _]. exists (p - 8), (c + 16). split; [done|].
    destruct (decide (w < p \/ p + c < w + 8)) as [Hd|]; [by rewrite Hm in Hw|]. lia.
  - constructor; [done | done|]. intros q d w [Hne Hq]%lookup_delete_Some Hw. cbn [hmem set_hmem]. apply Hm.
    destruct (state_disjoint s M p c q d); try done; lia.
Qed.

(** *** [kmalloc] and [kfree] *)

Lemma state_kmalloc s M size (Q : Z -> kheap -> Prop) :
  heap_state s M -> 0 < size -> HeapMemoryEnd s + size + 2 * PAGE_SIZE < 2 ^ 64 ->
  (HeapMemoryEnd s < HeapMemoryBrk s + Z.max (need size) PAGE_SIZE -> Q 0 s) ->
  (forall p c s', p <> 0 -> size <= c -> M !! p = None -> heap_state s' (<[p := c]> M) -> contents_kept s M s' -> Q p s') ->
  wp (kmalloc size) Q s.
Proof.
  intros (bs & Hok & HM) Hs Hb Hnone HQ. eapply wp_heap_alloc; [exact Hok | done | done|].
  intros p s' [(-> & -> & Hfull)|(Hp & (bs' & L' & z & Hi' & Hsep' & Hz & Hlow & Hblk & Hused & Hnew) & [Hst Hend _ Hlk Hwords])]; [by apply Hnone|].
  assert (Eb : base s' = base s) by (unfold base; by rewrite Hst). destruct Hok as (_ & _ & Hl0).
  apply (HQ p (z - 16)); [done | lia | | |].
  - destruct (M !! p) as [c|] eqn:E; [|done]. apply HM in E as [E _]. by destruct (Hnew (c + 16)).
  - exists bs'. split; [split_and!; [by exists L' | done | congruence]|]. intros q d. unfold live. rewrite Eb, (Hused (q - 8) (d + 16)).
    destruct (decide (q = p)) as [->|Hne].
    + rewrite lookup_insert_eq. split; [intros [= <-]; split; [right; lia | done]|].
      intros [[Hbb|[_ ?]] _]; [by destruct (Hnew (d + 16)) | f_equal; lia].
    + rewrite lookup_insert_ne, HM by done. unfold live. split; [tauto|]. intros [[?|[? _]] ?]; [tauto | lia].
  - constructor; [done | done|]. intros q d w Hq Hw. apply HM in Hq as [Hbb _]. apply (Hwords _ _ w Hbb). lia.
Qed.

Lemma state_kfree s M p c (Q : unit -> kheap -> Prop) :
  heap_state s M -> M !! p = Some c ->
  (forall s', heap_state s' (delete p M) -> contents_kept s (delete p M) s' -> Q tt s') -> wp (kfree p) Q s.
Proof.
  intros (bs & Hok & HM) Hp HQ. destruct (proj1 (HM _ _) Hp) as [Hblk Hlow].
  eapply wp_kfree; [exact Hok | exact Hblk | done|]. intros s' (bs' & Hok' & Hused) Hwords Es. rewrite Es in Hok' |- *.
  apply HQ.
  - exists bs'. split; [done|]. intros q d. rewrite lookup_delete_Some, HM. unfold live. change (base (set_hmem (hmem s') s)) with (base s).
    rewrite (Hused (q - 8) (d + 16)). assert (q - 8 <> p - 8 <-> p <> q) by lia. tauto.
  - constructor; [done | done|]. intros q d w [Hne Hq]%lookup_delete_Some Hw. apply HM in Hq as [Hbb _].
    cbn [hmem set_hmem]. apply (Hwords _ _ w Hbb); lia.
Qed.

(** *** [krealloc] *)

(** A used block that takes in the free block behind it. *)
Lemma grown_block s bs L pre z zn post :
  let a := base s + total pre in
  heap_inv s bs L [a + z] -> bs = pre ++ [(z, true); (zn, false)] ++ post -> pre <> [] ->
  let s' := set_hmem (tagged (hmem s) a (z + zn) true) s in
  heap_inv s' (pre ++ [(z + zn, true)] ++ post) L [] /\ payload_kept s bs s' /\
  (forall b zb, at_block (base s) (pre ++ [(z + zn, true)] ++ post) b zb true <->
     (at_block (base s) bs b zb true /\ b <> a) \/ (b = a /\ zb = z + zn)).
Proof.
  intros a Hi Ebs Hpre s'.
  assert (Hb1 : at_block (base s) bs a z true) by (rewrite Ebs; by exists pre, ((zn, false) :: post)).
  assert (Hb2 : at_block (base s) bs (a + z) zn false).
  { rewrite Ebs, at_block_app. right. apply at_block_cons. right. apply at_block_cons. left. by split. }
  destruct (block_facts Hi _ _ _ Hb1) as (_ & _ & _ & Hm1 & Hz1 & _). destruct (block_facts Hi _ _ _ Hb2) as (_ & _ & _ & Hm2 & _ & Hz2 & _).
  specialize (Hz2 eq_refl). assert (Et : total [(z, true); (zn, false)] = z + zn) by (unfold total; simpl; lia).
  split_and!.
  - apply (inv_replace Hi pre [(z, true); (zn, false)]); try done; fold a; rewrite ?Et, ?total_one; try done.
    + constructor; [split; simpl; [lia | by rewrite Z.add_mod, Hm1, Hm2]|constructor].
    + intros w Hw. apply tagged_out; lia.
    + intros b zb u [[-> E]|[]%at_block_nil]%at_block_cons. injection E as <- <-. apply tagged_here. lia.
    + intros b zb [[-> E]|[[-> E]|[]%at_block_nil]%at_block_cons]%at_block_cons; [done|]. simpl. by left.
    + by intros b zb [[-> E]|[]%at_block_nil]%at_block_cons.
    + intros x Hx. rewrite list_elem_of_singleton, elem_of_nil. lia.
  - split; [done|]. intros b zb w Hb Hw. cbn [hmem set_hmem s']. unfold tagged.
    destruct (at_block_cmp _ _ _ _ _ _ _ _ (inv_positive Hi) Hb Hb1) as [(-> & -> & _)|?]; [by rewrite !upd_ne by lia|].
    destruct (at_block_cmp _ _ _ _ _ _ _ _ (inv_positive Hi) Hb Hb2) as [(_ & _ & ?)|?]; [done|]. by rewrite !upd_ne by lia.
  - intros b zb. rewrite Ebs. cbn [app]. rewrite !at_block_app, !at_block_cons. cbn [fst]. fold a.
    replace (a + z + zn) with (a + (z + zn)) by lia. assert ((zn, false) <> (zb, true)) by congruence.
    assert ((z + zn, true) = (zb, true) <-> zb = z + zn) by (split; [by intros [= ->] | by intros ->]).
    pose proof (inv_positive Hi) as Hp. rewrite Ebs in Hp. apply Forall_app in Hp as [Hp1 Hp]. apply Forall_cons in Hp as [_ Hp].
    apply Forall_cons in Hp as [_ Hp2].
    assert (at_block (base s) pre b zb true -> b <> a) by (intros Hbb; destruct (at_block_in _ _ _ _ _ Hp1 Hbb) as (_ & ? & ?); lia).
    assert (at_block (a + (z + zn)) post b zb true -> b <> a) by (intros Hbb; destruct (at_block_in _ _ _ _ _ Hp2 Hbb) as (? & _ & ?); lia).
    assert (b = a + z -> b <> a) by lia. tauto.
Qed.

Lemma wp_realloc_in_place s bs L p z needed (Q : option Z -> kheap -> Prop) :
  heap_inv s bs L [] -> sep bs -> at_block (base s) bs (p - 8) z true -> base s < p - 8 ->
  (z < needed -> Q None s) -> (needed <= z -> Q (Some p) s) ->
  (forall s' bs' L' z', heap_inv s' bs' L' [] -> sep bs' -> needed <= z' -> payload_kept s bs s' ->
     (forall b zb, at_block (base s) bs' b zb true <-> (at_block (base s) bs b zb true /\ b <> p - 8) \/ (b = p - 8 /\ zb = z')) ->
     Q (Some p) s') ->
  wp (realloc_in_place p z needed) Q s.
Proof.
  intros Hi Hsep Hb Hlow Hnone Hsame HQ. unfold realloc_in_place. destruct (Z.leb_spec needed z); [by apply wp_ret, Hsame|].
  destruct (block_facts Hi _ _ _ Hb) as (_ & _ & H8 & H16 & Hz16 & _ & Hz32 & _). specialize (Hz32 ltac:(lia)).
  replace (p - WS + z) with (p - 8 + z) by done. pose proof Hb as (pre & post & Ebs & Ea).
  assert (Hpre : pre <> []) by (intros ->; change (total []) with 0 in Ea; lia).
  destruct post as [|[zn un] post].
  { assert (Eend : p - 8 + z = base s + total bs) by (rewrite Ebs, total_app, total_one; lia).
    rewrite Eend. apply wp_bind, wp_load_word; [apply (epilogue_word Hi)|]. rewrite (hi_epilogue _ _ _ _ Hi).
    cbn [Z.land Pos.land Z.eqb andb]. apply wp_ret. by apply Hnone. }
  assert (Hbn : at_block (base s) bs (p - 8 + z) zn un).
  { rewrite Ebs, Ea, at_block_app. right. apply at_block_cons. right. apply at_block_cons. left. by split. }
  destruct (block_facts Hi _ _ _ Hbn) as (_ & _ & _ & Hn16 & Hzn16 & Hzn & _ & H64).
  apply wp_bind, (wp_load_tag Hi _ _ _ _ Hbn). rewrite tag_bit, size_of_tag by (done || lia).
  destruct un; cbn [Z.eqb andb]; [by apply wp_ret, Hnone|].
  pose proof (to_u64_size _ _ _ _ pre [(z, true); (zn, false)] post Hi Ebs) as E64.
  replace (total [(z, true); (zn, false)]) with (z + zn) in E64 by (unfold total; simpl; lia). rewrite E64.
  destruct (Z.leb_spec needed (z + zn)); [|by apply wp_ret, Hnone]. specialize (Hzn eq_refl).
  apply wp_bind. replace (p - 8 + z + WS) with (p - 8 + z + 8) by done.
  eapply (wp_remove_free _ _ _ _ _ _ _ Hi Hbn); [apply not_elem_of_nil|]. intros s1 L1 Hi1 Hk1.
  pose proof (payload_base _ _ _ Hk1) as [Eb _]. rewrite Ea, <- Eb in Hi1.
  destruct (grown_block s1 bs L1 pre z zn post Hi1 Ebs Hpre) as (Hi2 & Hk2 & Hu2). rewrite Eb, <- Ea in *.
  change (p - WS) with (p - 8). replace (p - 8 + z + zn - WS) with (p - 8 + (z + zn) - WS) by lia.
  apply (wp_tags (p - 8) (z + zn) true).
  - rewrite <- (Z.add_0_r (p - 8)). apply (block_word Hi1 _ z true); [by rewrite Eb | lia | done].
  - replace (p - 8 + (z + zn) - 8) with (p - 8 + z + (zn - 8)) by lia. apply (block_word Hi1 _ zn false); [by rewrite Eb | lia|].
    apply Z.mod_divide in Hn16 as [k ->]; [|done]. replace (k * 16 - 8) with ((2 * k - 1) * 8) by lia. by rewrite Z.mod_mul.
  - apply tag_used. by rewrite Z.add_mod, H16, Hn16.
  - apply wp_ret. eapply (HQ _ _ L1 (z + zn)); [exact Hi2 | | done | | done].
    + rewrite Ebs in Hsep. apply sep_app in Hsep as [Hs1 Hs2]. apply (sep_app [(z, true); (zn, false)]) in Hs2 as [_ Hs2].
      apply sep_join; [done | done | intros; by rewrite orb_true_r | done].
    + eapply payload_trans; [|exact Hk1 | exact Hk2]. done.
Qed.

(** The first [n] bytes at [q] are those that were at [p]. *)
Definition same_bytes (s : kheap) (p n : Z) (s' : kheap) (q : Z) : Prop :=
  forall i, 0 <= i < n -> mem_byte (hmem s') (q + i) = mem_byte (hmem s) (p + i).

Lemma same_words s s' p n :
  p mod 8 = 0 -> (forall w, p <= w < p + n -> hmem s' w = hmem s w) -> same_bytes s p n s' p.
Proof.
  intros H8 Hw i Hi. unfold mem_byte. rewrite Hw; [done|]. pose proof (Z.mod_pos_bound (p + i) 8 ltac:(lia)).
  apply Z.mod_divide in H8 as [k ->]; [|done]. rewrite (Z.add_comm (k * 8) i), Z.mod_add by lia. pose proof (Z.mod_le i 8 ltac:(lia) ltac:(lia)). pose proof (Z.mod_pos_bound i 8 ltac:(lia)). lia.
Qed.

(** The bytes of a payload can be accessed. *)
Lemma state_byte s M p c i : heap_state s M -> M !! p = Some c -> 0 <= i < c -> word_ok s (p + i - (p + i) mod 8) = true.
Proof.
  intros Hst Hp Hi. destruct (state_facts _ _ _ _ Hst Hp) as (_ & _ & H8 & _ & H16).
  replace (p + i - (p + i) mod 8) with (p + (i - i mod 8)).
  - pose proof (Z.div_mod i 8 ltac:(lia)). pose proof (Z.mod_pos_bound i 8 ltac:(lia)). pose proof (Z.div_mod c 16 ltac:(lia)).
    apply (state_word s M p c); [done | done | lia|]. replace (i - i mod 8) with (i / 8 * 8) by lia. by rewrite Z.mod_mul.
  - apply Z.mod_divide in H8 as [k ->]; [|done]. rewrite (Z.add_comm (k * 8) i), Z.mod_add by lia. lia.
Qed.

(** Moving a payload to a larger one. *)
Lemma state_move s M p c size (Q : Z -> kheap -> Prop) :
  heap_state s M -> M !! p = Some c -> 0 < size -> HeapMemoryEnd s + size + 2 * PAGE_SIZE < 2 ^ 64 ->
  (HeapMemoryEnd s < HeapMemoryBrk s + Z.max (need size) PAGE_SIZE -> Q 0 s) ->
  (forall r d s', r <> 0 -> size <= d -> M !! r = None -> heap_state s' (<[r := d]> (delete p M)) ->
     contents_kept s (delete p M) s' -> same_bytes s p (Z.min c size) s' r -> Q r s') ->
  wp (newptr ← kmalloc size;
      if newptr =? 0 then mret 0 else
      let copySize := if size <? c then size else c in
      _ ← kmalloc_memcpy newptr p copySize;
      _ ← kfree p;
      mret newptr) Q s.
Proof.
  intros Hst Hp Hs Hb Hnone HQ. destruct (state_facts _ _ _ _ Hst Hp) as (_ & _ & Hp8 & Hc & _).
  apply wp_bind, (state_kmalloc s M); [done | done | done | intros; by apply wp_ret, Hnone|].
  intros r d s1 Hr Hd Hnew Hst1 Hk1. rewrite (proj2 (Z.eqb_neq r 0)) by done.
  replace (if size <? c then size else c) with (Z.min c size) by (destruct (Z.ltb_spec size c); lia). set (n := Z.min c size).
  assert (Hr1 : <[r := d]> M !! r = Some d) by apply lookup_insert_eq.
  assert (Hne : r <> p) by (intros ->; congruence).
  assert (Hp1 : <[r := d]> M !! p = Some c) by (by rewrite lookup_insert_ne by done).
  destruct (state_facts _ _ _ _ Hst1 Hr1) as (_ & _ & Hr8 & _ & Hd16).
  pose proof (state_disjoint _ _ _ _ _ _ Hst1 Hr1 Hp1 Hne) as Hdis.
  apply wp_bind, (wp_memcpy s1 r n); [unfold n; lia | done | | | unfold n; lia|].
  { intros i Hi. apply (state_byte s1 _ r d i Hst1 Hr1). unfold n in Hi. lia. }
  { intros i Hi. apply (state_byte s1 _ p c i Hst1 Hp1). unfold n in Hi. lia. }
  intros m' (Hw & Hin & _). destruct (state_write s1 _ r d m' Hst1 Hr1) as [Hst2 Hk2].
  { intros w Hwr. apply Hw. destruct (decide (w mod 8 = 0)) as [E8|]; [|auto]. right. destruct Hwr as [?|?]; [auto | right].
    apply Z.mod_divide in E8 as [k ->]; [|done]. apply Z.mod_divide in Hr8 as [j ->]; [|done]. apply Z.mod_divide in Hd16 as [l ->]; [|done]. unfold n. lia. }
  apply wp_bind, (state_kfree _ (<[r := d]> M) p c); [done | done|]. intros s3 Hst3 Hk3. apply wp_ret. rewrite delete_insert_ne in Hst3, Hk3 by done.
  apply (HQ r d s3 Hr Hd Hnew Hst3).
  - assert (Hkp : contents_kept s (delete p M) s1) by (destruct Hk1 as [A B C]; constructor; try done; intros q e w [_ Hq]%lookup_delete_Some; by apply C).
    eapply contents_trans; [|exact Hkp|]; [reflexivity|].
    assert (Hk2' : contents_kept s1 (delete p M) (set_hmem m' s1)).
    { destruct Hk2 as [A B C]. constructor; try done. intros q e w [Hq Hqe]%lookup_delete_Some. apply C. apply lookup_delete_Some.
      split; [intros ->; congruence|]. rewrite lookup_insert_ne; [done|]. intros ->. congruence. }
    eapply contents_trans; [|exact Hk2' | exact Hk3]. apply insert_subseteq. rewrite lookup_delete_ne by done. done.
  - intros i Hi. rewrite (same_words (set_hmem m' s1) s3 r d Hr8) by ((intros w Hwr; apply (ck_words _ _ _ Hk3 r d); [apply lookup_insert_eq | done]) || (unfold n in *; lia)).
    cbn [hmem set_hmem]. rewrite Hin by done. apply (same_words s s1 p c Hp8); [|lia]. intros w Hwr. by apply (ck_words _ _ _ Hk1 p c).
Qed.

Lemma state_krealloc s M p c size (Q : Z -> kheap -> Prop) :
  heap_state s M -> M !! p = Some c -> 0 < size -> HeapMemoryEnd s + size + 2 * PAGE_SIZE < 2 ^ 64 ->
  (HeapMemoryEnd s < HeapMemoryBrk s + Z.max (need size) PAGE_SIZE -> Q 0 s) ->
  (forall r d s', r <> 0 -> size <= d -> (r = p \/ M !! r = None) -> heap_state s' (<[r := d]> (delete p M)) ->
     contents_kept s (delete p M) s' -> same_bytes s p (Z.min c size) s' r -> Q r s') ->
  wp (krealloc p size) Q s.
Proof.
  intros Hst Hp Hs Hb Hnone HQ. destruct (state_facts _ _ _ _ Hst Hp) as (Hlo & Hhi & Hp8 & Hc & Hc16).
  pose proof Hst as (bs & ([L Hi] & Hsep & Hl) & HM). destruct (proj1 (HM _ _) Hp) as [Hblk Hlow].
  destruct (hi_start _ _ _ _ Hi) as [Hpos _]. destruct (hi_end _ _ _ _ Hi) as [_ Hend]. unfold PAGE_SIZE in Hb.
  destruct (need_spec size) as [Hneed _]; [lia | lia|]. unfold krealloc. rewrite (proj2 (Z.eqb_neq p 0)), (proj2 (Z.eqb_neq size 0)) by lia.
  apply wp_bind, wp_locked; [done|]. set (s0 := set_kmalloc_lock true s). pose proof (inv_lock _ _ _ _ true Hi) as Hi0. fold s0 in Hi0.
  change (p - WS) with (p - 8). apply wp_bind, (wp_load_tag Hi0 _ _ _ _ Hblk). rewrite size_of_tag by (try (rewrite Z.add_mod, Hc16 by lia; done); lia).
  fold (need size). apply wp_bind. eapply (wp_realloc_in_place s0 bs L p (c + 16)); [done | done | done | done | | |].
  - intros _. apply wp_bind, wp_modify. unfold s0. rewrite relock by done. unfold to_u64, DWS. replace (c + 16 - 16) with c by lia.
    rewrite wrap_small by lia. apply state_move with (M := M); try done. intros r d s' Hr Hd Hnew. apply HQ; auto.
  - intros Hfit. apply wp_bind, wp_modify, wp_ret. unfold s0. rewrite relock by done.
    apply (HQ p c s); [lia | lia | auto | by rewrite insert_delete_id | apply contents_refl | done].
  - intros s1 bs1 L1 z1 Hi1 Hsep1 Hz1 [E1 Hw1] Hu1. change (base s0) with (base s) in *. apply wp_bind, wp_modify, wp_ret.
    assert (Eb : base (set_kmalloc_lock false s1) = base s) by (by rewrite E1).
    apply (HQ p (z1 - 16)); [lia | lia | auto | | |].
    + exists bs1. split; [split_and!; [exists L1; by apply inv_lock | done | done]|]. intros q e. unfold live. rewrite Eb, (Hu1 (q - 8) (e + 16)).
      destruct (decide (q = p)) as [->|Hne].
      * rewrite lookup_insert_eq. split; [intros [= <-]; split; [right; lia | done]|]. intros [[[_ ?]|[_ ?]] _]; [done | f_equal; lia].
      * rewrite lookup_insert_ne, lookup_delete_ne, HM by done. unfold live. assert (q - 8 <> p - 8) by lia. tauto.
    + constructor; [by rewrite E1 | by rewrite E1|]. intros q e w [Hne Hq]%lookup_delete_Some Hwr. apply HM in Hq as [Hbb _].
      cbn [hmem set_kmalloc_lock]. apply (Hw1 _ _ w Hbb). lia.
    + intros i Hir. apply (same_words s (set_kmalloc_lock false s1) p c Hp8); [|lia]. intros w Hwr. cbn [hmem set_kmalloc_lock].
      apply (Hw1 _ _ w Hblk). lia.
Qed.

(** *** [kcalloc] *)

Lemma state_kcalloc s M nmemb size (Q : Z -> kheap -> Prop) :
  heap_state s M -> 0 < size * nmemb -> HeapMemoryEnd s + size * nmemb + 2 * PAGE_SIZE < 2 ^ 64 ->
  (HeapMemoryEnd s < HeapMemoryBrk s + Z.max (need (size * nmemb)) PAGE_SIZE -> Q 0 s) ->
  (forall p c s', p <> 0 -> size * nmemb <= c -> M !! p = None -> heap_state s' (<[p := c]> M) -> contents_kept s M s' ->
     (forall i, 0 <= i < size * nmemb -> mem_byte (hmem s') (p + i) = 0) -> Q p s') ->
  wp (kcalloc nmemb size) Q s.
Proof.
  intros Hst Hs Hb Hnone HQ. unfold kcalloc. assert (Hend : 0 <= HeapMemoryEnd s).
  { destruct Hst as (bs & ([L Hi] & _) & _). destruct (hi_end _ _ _ _ Hi). destruct (hi_start _ _ _ _ Hi). pose proof (hi_brk _ _ _ _ Hi).
    pose proof (total_nonneg _ (inv_positive Hi)). unfold base, sizeof_Seg_Lists in *. lia. }
  unfold to_u64. rewrite wrap_small by (unfold PAGE_SIZE in Hb; lia). set (n := size * nmemb) in *.
  apply wp_bind, (state_kmalloc s M); [done | done | done | intros; cbn [Z.eqb negb when]; apply wp_bind, wp_ret, wp_ret; by apply Hnone|].
  intros p c s1 Hp Hc Hnew Hst1 Hk1. rewrite (proj2 (Z.eqb_neq p 0)) by done. cbn [negb when].
  assert (Hp1 : <[p := c]> M !! p = Some c) by apply lookup_insert_eq. destruct (state_facts _ _ _ _ Hst1 Hp1) as (_ & _ & Hp8 & _ & Hc16).
  apply wp_bind, (wp_memset s1 p n); [lia | done | intros i Hi; apply (state_byte s1 _ p c i Hst1 Hp1); lia|]. intros m' (Hw & Hin & _).
  destruct (state_write s1 _ p c m' Hst1 Hp1) as [Hst2 Hk2].
  { intros w Hwr. apply Hw. destruct (decide (w mod 8 = 0)) as [E8|]; [|auto]. right. destruct Hwr as [?|?]; [auto | right].
    apply Z.mod_divide in E8 as [k ->]; [|done]. apply Z.mod_divide in Hp8 as [j ->]; [|done]. apply Z.mod_divide in Hc16 as [l ->]; [|done]. lia. }
  rewrite delete_insert_id in Hk2 by done. apply wp_ret. apply (HQ p c _ Hp Hc Hnew Hst2); [|done].
  by eapply contents_trans; [|exact Hk1 | exact Hk2].
Qed.

(** ** Setting the heap up *)

(** Bytes set to zero one after the other: the low [k] bytes of a word are
    zero. *)
Definition low_zero (w k : Z) : Z := w / 2 ^ (8 * k) * 2 ^ (8 * k).

Lemma low_zero_step w k : 0 <= k -> set_word_byte (low_zero w k) k 0 = low_zero w (k + 1).
Proof.
  intros Hk. unfold set_word_byte, word_byte, low_zero. rewrite Z.div_mul by lia.
  replace (8 * (k + 1)) with (8 * k + 8) by lia. rewrite Z.pow_add_r by lia. change (2 ^ 8) with 256. rewrite <- Z.div_div by lia.
  pose proof (Z.div_mod (w / 2 ^ (8 * k)) 256 ltac:(lia)). nia.
Qed.

(** [kmalloc_memset] of a whole number of words to zero. *)
Lemma wp_memset_zero s dst n (Q : unit -> kheap -> Prop) :
  0 <= n -> dst mod 8 = 0 -> n mod 8 = 0 -> (forall w, 0 <= hmem s w < 2 ^ 64) ->
  (forall i, 0 <= i < n -> word_ok s (dst + i - (dst + i) mod 8) = true) ->
  (forall m', (forall w, dst <= w < dst + n -> w mod 8 = 0 -> m' w = 0) ->
     (forall w, w < dst \/ dst + n <= w -> m' w = hmem s w) -> Q tt (set_hmem m' s)) ->
  wp (kmalloc_memset dst 0 n) Q s.
Proof.
  intros Hn H8 Hn8 Hr Hok HQ. unfold kmalloc_memset.
  set (val := fun (i w : Z) => if (dst <=? w) && (w <? dst + n) && (w mod 8 =? 0) then low_zero (hmem s w) (Z.min 8 (Z.max 0 (i - (w - dst)))) else hmem s w).
  apply (wp_for_st (fun i s' => exists m', s' = set_hmem m' s /\ forall w, m' w = val i w)).
  - exists (hmem s). split; [by destruct s|]. intros w. unfold val. destruct (_ && _) eqn:E; [|done].
    apply andb_true_iff in E as [[?%Z.leb_le _]%andb_true_iff _]. rewrite (Z.max_l 0) by lia. change (Z.min 8 0) with 0. unfold low_zero.
    change (2 ^ (8 * 0)) with 1. by rewrite Z.div_1_r, Z.mul_1_r.
  - intros i s1 Hi (m1 & -> & Hm1). rewrite Z2Nat.id in Hi by lia. apply wp_store_byte; [apply (Hok i); lia|]. eexists. split; [reflexivity|].
    cbn [hmem set_hmem]. assert (Ea : dst + i - (dst + i) mod 8 = dst + (i - i mod 8) /\ (dst + i) mod 8 = i mod 8).
    { apply Z.mod_divide in H8 as [k ->]; [|done]. rewrite (Z.add_comm (k * 8) i), Z.mod_add by lia. lia. }
    destruct Ea as [-> ->]. pose proof (Z.mod_pos_bound i 8 ltac:(lia)) as Hm. pose proof (Z.div_mod i 8 ltac:(lia)) as Hdm.
    assert (Haw : (dst + (i - i mod 8)) mod 8 = 0).
    { replace (i - i mod 8) with (i / 8 * 8) by lia. by rewrite Z.mod_add. }
    intros w. unfold upd. destruct (Z.eqb_spec w (dst + (i - i mod 8))) as [->|Hne].
    + rewrite Hm1. unfold val. rewrite Haw, (proj2 (Z.leb_le dst _)), (proj2 (Z.ltb_lt _ (dst + n))) by (pose proof (Z.div_mod n 8); lia).
      cbn [andb Z.eqb]. rewrite (Z.min_r 8 (Z.max 0 (i - _))), (Z.max_r 0 (i - _)) by lia.
      replace (i - (dst + (i - i mod 8) - dst)) with (i mod 8) by lia. rewrite low_zero_step by lia. f_equal. lia.
    + rewrite Hm1. unfold val. destruct (_ && _) eqn:E; [|done].
      apply andb_true_iff in E as [[Hw1%Z.leb_le _]%andb_true_iff Hw8%Z.eqb_eq]. f_equal.
      apply Z.mod_divide in Hw8 as [a ->]; [|done]. apply Z.mod_divide in H8 as [b ->]; [|done]. lia.
  - intros s1 (m1 & -> & Hm1). rewrite Z.add_0_l, Z2Nat.id in Hm1 by lia. apply HQ.
    + intros w Hw Hw8. rewrite Hm1. unfold val. rewrite (proj2 (Z.leb_le dst w)), (proj2 (Z.ltb_lt w _)), Hw8 by lia. cbn [andb Z.eqb].
      apply Z.mod_divide in Hw8 as [a ->]; [|done]. apply Z.mod_divide in H8 as [b ->]; [|done]. apply Z.mod_divide in Hn8 as [c ->]; [|done].
      rewrite Z.min_l by lia. unfold low_zero. change (8 * 8) with 64. by rewrite Z.div_small by apply Hr.
    + intros w Hw. rewrite Hm1. unfold val. destruct (Z.leb_spec dst w), (Z.ltb_spec w (dst + n)); cbn [andb]; done || lia.
Qed.

Lemma wp_kmem_sbrk s incr (Q : option Z -> kheap -> Prop) :
  0 < HeapMemoryBrk s -> HeapMemoryEnd s < 2 ^ 64 -> 0 <= incr -> HeapMemoryBrk s + incr <= HeapMemoryEnd s ->
  Q (Some (HeapMemoryBrk s)) (set_brk (HeapMemoryBrk s + incr) s) -> wp (kmem_sbrk incr) Q s.
Proof.
  intros Hb He Hi Hr HQ. unfold kmem_sbrk. apply wp_bind, wp_fetch, wp_bind, wp_fetch.
  rewrite (proj2 (Z.eqb_neq (HeapMemoryBrk s) 0)), (proj2 (Z.eqb_neq (HeapMemoryEnd s) 0)), (proj2 (Z.ltb_ge incr 0)) by lia. cbn [orb].
  unfold to_u64. rewrite wrap_small, (proj2 (Z.ltb_ge _ _)) by lia. by apply wp_bind, wp_modify, wp_ret.
Qed.

(** The heap right after the prologue and the epilogue are written: no block
    but the prologue, all lists empty. *)
Lemma fresh_inv s :
  0 < HeapMemory s -> HeapMemory s mod 8 = 0 -> seg_lists_ptr s = HeapMemory s ->
  HeapMemoryBrk s = HeapMemory s + 72 -> HeapMemoryBrk s <= HeapMemoryEnd s < 2 ^ 64 ->
  (forall o, o ∈ offsets -> hmem s (HeapMemory s + o) = 0) ->
  hmem s (HeapMemory s + 48) = 17 -> hmem s (HeapMemory s + 56) = 17 -> hmem s (HeapMemory s + 64) = 1 ->
  heap_inv s [(16, true)] (fun _ => []) [].
Proof.
  intros Hp H8 Hseg Hb He Hz H1 H2 H3.
  assert (Hat : forall a z u, at_block (base s) [(16, true)] a z u -> a = base s /\ z = 16 /\ u = true).
  { intros a z u [[-> E]|[]%at_block_nil]%at_block_cons. by injection E as <- <-. }
  assert (Et : total [(16, true)] = 16) by done. unfold base, sizeof_Seg_Lists in *. constructor; unfold base, sizeof_Seg_Lists.
  - done.
  - done.
  - lia.
  - done.
  - by exists [].
  - intros a z u (-> & -> & ->)%Hat. replace (HeapMemory s + 48 + 16 - 8) with (HeapMemory s + 56) by lia. by split.
  - rewrite Et, <- H3. f_equal. lia.
  - intros o Ho. split; [by apply Hz | done].
  - intros o. constructor.
  - intros o a. split; [by intros ?%not_elem_of_nil|]. intros (_ & z & (_ & _ & ?)%Hat & _). done.
Qed.

(** [kmem_init] builds an empty heap. *)
Lemma state_kmem_init s start hend (Q : unit -> kheap -> Prop) :
  (forall w, 0 <= hmem s w < 2 ^ 64) -> kmalloc_lock s = false ->
  0 < start -> start mod 8 = 0 -> start + 72 + PAGE_SIZE <= hend -> hend + 2 * PAGE_SIZE < 2 ^ 64 ->
  (forall s', heap_state s' ∅ -> HeapMemory s' = start -> HeapMemoryEnd s' = hend -> Q tt s') ->
  wp (kmem_init start hend) Q s.
Proof.
  intros Hr Hlock Hp H8 Hroom Hend HQ. unfold PAGE_SIZE in *. unfold kmem_init. apply wp_bind, wp_modify, wp_bind. unfold kmm_init.
  assert (Hok : forall m o b, 72 <= b -> 0 <= o <= 64 -> o mod 8 = 0 -> word_ok (mkHeap m (start + b) start hend (start + 48) start false) (start + o) = true).
  { intros m o b Hb Ho Ho8. unfold word_ok. cbn [HeapMemory HeapMemoryBrk]. rewrite !andb_true_iff, Z.eqb_eq, !Z.leb_le.
    split_and!; [|lia | lia]. rewrite Z.add_mod, H8, Ho8 by lia. done. }
  unfold sizeof_Seg_Lists. apply wp_bind, wp_kmem_sbrk; [done | simpl; lia | lia | simpl; lia|]. cbn -[Z.add wp mbind].
  apply wp_bind, wp_modify, wp_bind, wp_memset_zero; [lia | done | done | done | |].
  { intros i Hi. unfold word_ok. cbn [set_seg_lists_ptr set_brk HeapMemory HeapMemoryBrk]. rewrite !andb_true_iff, Z.eqb_eq, !Z.leb_le.
    apply Z.mod_divide in H8 as [k ->]; [|done]. pose proof (Z.mod_pos_bound (k * 8 + i) 8 ltac:(lia)).
    pose proof (Z.div_mod (k * 8 + i) 8 ltac:(lia)). split_and!; [|lia | lia].
    replace (k * 8 + i - (k * 8 + i) mod 8) with ((k * 8 + i) / 8 * 8) by lia. by rewrite Z.mod_mul. }
  intros m' Hz _. apply wp_bind, wp_kmem_sbrk; [simpl; lia | simpl; lia | unfold WS; lia | unfold WS; simpl; lia|].
  unfold WS, DWS. change (Z.lor 16 1) with 17. cbn [HeapMemoryBrk set_hmem set_seg_lists_ptr set_brk]. rewrite <- !(Z.add_assoc start). simpl (48 + 3 * 8).
  apply wp_bind, wp_modify. rewrite Hlock. unfold set_heap_ptr, set_brk, set_hmem, set_seg_lists_ptr. cbn [hmem HeapMemoryBrk HeapMemory HeapMemoryEnd heap_ptr seg_lists_ptr kmalloc_lock].
  change (48 + 3 * 8) with 72. change (48 + 8) with 56. change (48 + 2 * 8) with 64.
  apply wp_bind, wp_store_word; [by apply Hok|]. apply wp_bind, wp_store_word; [by apply Hok|]. apply wp_bind, wp_store_word; [by apply Hok|].
  unfold set_hmem. cbn [hmem HeapMemoryBrk HeapMemory HeapMemoryEnd heap_ptr seg_lists_ptr kmalloc_lock].
  set (m1 := upd _ _ 1). set (s1 := mkHeap _ _ _ _ _ _ _). assert (Hi : heap_inv s1 [(16, true)] (fun _ => []) []).
  { apply fresh_inv; try (simpl; lia); try done; simpl; unfold m1.
    - intros o Ho. assert (0 <= o <= 40 /\ o mod 8 = 0) as [? Ho8] by (unfold offsets in Ho; set_unfold; intuition (subst; done || lia)).
      rewrite !upd_ne by lia. apply Hz; [lia|]. rewrite Z.add_mod, H8, Ho8 by lia. done.
    - by rewrite !upd_ne, upd_eq by lia.
    - by rewrite upd_ne, upd_eq by lia.
    - by rewrite upd_eq. }
  apply wp_bind, (wp_extend_heap s1 _ _ PAGE_SIZE _ Hi); [done | done | done | simpl; unfold PAGE_SIZE; lia | simpl; unfold PAGE_SIZE; lia|].
  intros p s2 bs2 L2 a z Hp0 Hi2 Hsep2 _ _ Hu2 Hk2. apply wp_ret. rewrite (proj2 (Z.eqb_neq p 0)) by done. cbn [negb]. apply wp_ret.
  pose proof (hk_start _ _ _ Hk2) as Es2. apply HQ; [|done | by rewrite (hk_end _ _ _ Hk2)]. exists bs2.
  split; [split_and!; [by exists L2 | done | by rewrite (hk_lock _ _ _ Hk2)]|]. intros q c. split; [by intros ?%lookup_empty_Some|].
  unfold live, base. rewrite Es2. fold (base s1). intros [Hb Hlt]. apply Hu2, at_block_cons in Hb as [[? _]|[]%at_block_nil]. lia.
Qed.

(** ** The clients of the heap *)

(** What the rest of the kernel does with the heap: the four entry points,
    and stores into a payload byte. *)
Inductive heap_op :=
  | Malloc (size : Z)
  | Calloc (nmemb size : Z)
  | Free (ptr : Z)
  | Realloc (ptr size : Z)
  | Store (ptr i v : Z).

Definition run_op (op : heap_op) : KM Z :=
  match op with
  | Malloc size => kmalloc size
  | Calloc nmemb size => kcalloc nmemb size
  | Free ptr => _ ← kfree ptr; mret 0
  | Realloc ptr size => krealloc ptr size
  | Store ptr i v => _ ← store_byte (ptr + i) (to_u8 v); mret 0
  end.

(** A request whose size does not wrap around when the allocator adds its
    header, its alignment and the current end of the heap. *)
Definition fits (s : kheap) (size : Z) : Prop := 0 <= size /\ HeapMemoryEnd s + size + 2 * PAGE_SIZE < 2 ^ 64.

(** The calls a client that holds the payloads [M] may make: pointers are
    NULL or live, stores stay inside the payload. *)
Definition op_ok (s : kheap) (M : gmap Z Z) (op : heap_op) : Prop :=
  match op with
  | Malloc size => fits s size
  | Calloc nmemb size => fits s (size * nmemb)
  | Free ptr => ptr = 0 \/ is_Some (M !! ptr)
  | Realloc ptr size => fits s size /\ (ptr = 0 \/ is_Some (M !! ptr))
  | Store ptr i v => exists c, M !! ptr = Some c /\ 0 <= i < c
  end.

(** The bytes of the payload at [ptr], from its header. *)
Definition payload_size (s : kheap) (ptr : Z) : Z := size_of (hmem s (ptr - WS)) - DWS.

(** The client's ledger after a call that returned [r]. *)
Definition track (M : gmap Z Z) (op : heap_op) (r : Z) (s' : kheap) : gmap Z Z :=
  match op with
  | Malloc _ | Calloc _ _ => if r =? 0 then M else <[r := payload_size s' r]> M
  | Free ptr => delete ptr M
  | Realloc ptr size =>
      if r =? 0 then (if size =? 0 then delete ptr M else M) else <[r := payload_size s' r]> (delete ptr M)
  | Store _ _ _ => M
  end.

(** A request for [size] bytes: NULL, with nothing changed, only for size 0
    or when the heap cannot grow by the block (by a page, if that is more);
    otherwise a payload not live before, at least as large as asked. *)
Definition alloc_post (s : kheap) (M : gmap Z Z) (size r : Z) (s' : kheap) : Prop :=
  (r = 0 /\ s' = s /\ (size = 0 \/ HeapMemoryEnd s < HeapMemoryBrk s + Z.max (need size) PAGE_SIZE)) \/
  (r <> 0 /\ M !! r = None /\ size <= payload_size s' r /\ contents_kept s M s').

Definition op_post (s : kheap) (M : gmap Z Z) (op : heap_op) (r : Z) (s' : kheap) : Prop :=
  match op with
  | Malloc size => alloc_post s M size r s'
  | Calloc nmemb size =>
      alloc_post s M (size * nmemb) r s' /\
      (r <> 0 -> forall i, 0 <= i < size * nmemb -> mem_byte (hmem s') (r + i) = 0)
  | Free ptr => contents_kept s (delete ptr M) s'
  | Realloc ptr size =>
      match M !! ptr with
      | None => alloc_post s M size r s'
      | Some c =>
          (size = 0 /\ r = 0 /\ contents_kept s (delete ptr M) s') \/
          (size <> 0 /\ r = 0 /\ s' = s /\ HeapMemoryEnd s < HeapMemoryBrk s + Z.max (need size) PAGE_SIZE) \/
          (r <> 0 /\ (r = ptr \/ M !! r = None) /\ size <= payload_size s' r /\
           contents_kept s (delete ptr M) s' /\ same_bytes s ptr (Z.min c size) s' r)
      end
  | Store ptr i v =>
      contents_kept s (delete ptr M) s' /\ mem_byte (hmem s') (ptr + i) = to_u8 v /\
      (forall c j, M !! ptr = Some c -> 0 <= j < c -> j <> i -> mem_byte (hmem s') (ptr + j) = mem_byte (hmem s) (ptr + j))
  end.

(** Every state a kernel reaches from [kmem_init] by such calls, with the
    payloads its clients hold. *)
Inductive reach : kheap -> gmap Z Z -> Prop :=
  | reach_init m start hend s :
      (forall w, 0 <= m w < 2 ^ 64) -> 0 < start -> start mod 8 = 0 ->
      start + 72 + PAGE_SIZE <= hend -> hend + 2 * PAGE_SIZE < 2 ^ 64 ->
      kmem_init start hend (mkHeap m 0 0 0 0 0 false) = Ok (tt, s) -> reach s ∅
  | reach_op s M op r s' :
      reach s M -> op_ok s M op -> run_op op s = Ok (r, s') -> reach s' (track M op r s').

Lemma state_payload_size s M p c : heap_state s M -> M !! p = Some c -> payload_size s p = c.
Proof.
  intros (bs & ([L Hi] & _) & HM) [Hb _]%HM. unfold payload_size, WS, DWS. destruct (hi_tags _ _ _ _ Hi _ _ _ Hb) as [-> _].
  destruct (block_facts Hi _ _ _ Hb) as (_ & _ & _ & ? & ? & _ & _ & ?). rewrite size_of_tag by (done || lia). lia.
Qed.

Lemma state_not_null s M : heap_state s M -> M !! 0 = None.
Proof.
  intros Hst. destruct (M !! 0) as [c|] eqn:E; [|done]. destruct (state_facts _ _ _ _ Hst E) as [H _].
  destruct Hst as (bs & ([L Hi] & _) & _). destruct (hi_start _ _ _ _ Hi). lia.
Qed.

(** A fresh payload, entered in the ledger with the size its header gives. *)
Lemma state_enter s M p c : heap_state s (<[p := c]> M) -> payload_size s p = c /\ heap_state s (<[p := payload_size s p]> M).
Proof. intros Hst. rewrite (state_payload_size s _ p c Hst (lookup_insert_eq M p c)). done. Qed.

Lemma state_alloc s M size :
  heap_state s M -> fits s size ->
  wp (kmalloc size) (fun r s' => heap_state s' (track M (Malloc size) r s') /\ alloc_post s M size r s') s.
Proof.
  intros Hst [H0 Hb]. cbn [track]. destruct (decide (size = 0)) as [->|Hne].
  { apply wp_ret. split; [done|]. left. auto. }
  apply (state_kmalloc s M size); [done | lia | done | intros Hfull; split; [done | left; auto]|].
  intros p c s' Hp Hc Hnew Hst' Hk. rewrite (proj2 (Z.eqb_neq p 0)) by done. destruct (state_enter _ _ _ _ Hst') as [E ?].
  split; [done|]. right. rewrite E. auto.
Qed.

Lemma state_calloc s M nmemb size :
  heap_state s M -> fits s (size * nmemb) ->
  wp (kcalloc nmemb size) (fun r s' => heap_state s' (track M (Calloc nmemb size) r s') /\ op_post s M (Calloc nmemb size) r s') s.
Proof.
  intros Hst [H0 Hb]. cbn [track op_post]. destruct (decide (size * nmemb = 0)) as [E0|Hne].
  { unfold kcalloc. rewrite E0. apply wp_bind, wp_ret. apply wp_bind, wp_ret, wp_ret. split; [done|]. split; [left; auto | done]. }
  apply (state_kcalloc s M); [done | lia | done | intros Hfull; split; [done|]; split; [left; auto | done]|].
  intros p c s' Hp Hc Hnew Hst' Hk Hz. rewrite (proj2 (Z.eqb_neq p 0)) by done. destruct (state_enter _ _ _ _ Hst') as [E ?].
  split; [done|]. split; [|done]. right. rewrite E. auto.
Qed.

Lemma state_free s M ptr :
  heap_state s M -> ptr = 0 \/ is_Some (M !! ptr) ->
  wp (kfree ptr) (fun _ s' => heap_state s' (delete ptr M) /\ contents_kept s (delete ptr M) s') s.
Proof.
  intros Hst [->|[c Hc]].
  - apply wp_ret. rewrite delete_id by by eapply state_not_null. done.
  - by apply (state_kfree s M ptr c).
Qed.

Lemma state_realloc s M ptr size :
  heap_state s M -> fits s size -> ptr = 0 \/ is_Some (M !! ptr) ->
  wp (krealloc ptr size) (fun r s' => heap_state s' (track M (Realloc ptr size) r s') /\ op_post s M (Realloc ptr size) r s') s.
Proof.
  intros Hst Hf Hp. pose proof (state_not_null _ _ Hst) as H0. cbn [track op_post]. destruct Hp as [->|[c Hc]].
  { unfold krealloc. cbn [Z.eqb]. rewrite H0, delete_id by done. eapply wp_mono; [by apply (state_alloc s M)|].
    intros r s' [? ?]. split; [|done]. cbn [track] in *. by destruct (r =? 0), (size =? 0). }
  rewrite Hc. assert (Hn : ptr <> 0) by (intros ->; congruence). destruct (decide (size = 0)) as [->|Hne].
  { unfold krealloc. rewrite (proj2 (Z.eqb_neq ptr 0)) by done. cbn [Z.eqb]. apply wp_bind, (state_kfree s M ptr c); [done | done|].
    intros s' Hst' Hk. apply wp_ret. split; [done|]. left. auto. }
  destruct Hf as [Hs Hb]. rewrite (proj2 (Z.eqb_neq size 0)) by done.
  apply (state_krealloc s M ptr c size); [done | done | lia | done | intros Hfull; split; [done|]; right; left; auto|].
  intros r d s' Hr Hd Hfresh Hst' Hk Hsame. rewrite (proj2 (Z.eqb_neq r 0)) by done. destruct (state_enter _ _ _ _ Hst') as [E ?].
  split; [done|]. right. right. rewrite E. auto.
Qed.

Lemma state_store s M ptr c i v :
  heap_state s M -> M !! ptr = Some c -> 0 <= i < c ->
  wp (store_byte (ptr + i) (to_u8 v)) (fun _ s' => heap_state s' M /\ op_post s M (Store ptr i v) 0 s') s.
Proof.
  intros Hst Hc Hi. destruct (state_facts _ _ _ _ Hst Hc) as (_ & _ & Hp8 & _ & Hc16).
  apply wp_store_byte; [by apply (state_byte s M ptr c i)|]. set (m' := upd _ _ _).
  destruct (state_write s M ptr c m' Hst Hc) as [Hst' Hk].
  { intros w Hw. apply upd_ne. intros ->. pose proof (Z.mod_pos_bound (ptr + i) 8 ltac:(lia)). pose proof (Z.div_mod (ptr + i) 8 ltac:(lia)).
    apply Z.mod_divide in Hp8 as [k ->]; [|done]. apply Z.mod_divide in Hc16 as [j ->]; [|done]. lia. }
  assert (Hv : 0 <= to_u8 v < 256) by (apply Z.mod_pos_bound; lia).
  split; [done|]. split; [done|]. cbn [hmem set_hmem]. unfold m'. split.
  - rewrite mem_byte_upd by done. by rewrite Z.eqb_refl.
  - intros c' j _ _ Hj. rewrite mem_byte_upd by done. by rewrite (proj2 (Z.eqb_neq _ _)) by lia.
Qed.

(** Every allowed call returns, does what it promises and keeps the heap. *)
Lemma op_sound s M op :
  heap_state s M -> op_ok s M op -> wp (run_op op) (fun r s' => heap_state s' (track M op r s') /\ op_post s M op r s') s.
Proof.
  intros Hst Hop. destruct op as [size|nmemb size|ptr|ptr size|ptr i v]; cbn [run_op op_ok] in *.
  - by apply state_alloc.
  - by apply state_calloc.
  - eapply wp_bind, wp_mono; [by apply (state_free s M ptr)|]. intros [] s' ?. by apply wp_ret.
  - destruct Hop. by apply state_realloc.
  - destruct Hop as (c & Hc & Hi). eapply wp_bind, wp_mono; [by apply (state_store s M ptr c i v)|]. intros [] s' ?. by apply wp_ret.
Qed.

Lemma reach_state s M : reach s M -> heap_state s M.
Proof.
  induction 1 as [m start hend s Hm Hp H8 Hroom Hend Hrun | s M op r s' _ IH Hok Hrun].
  - destruct (state_kmem_init (mkHeap m 0 0 0 0 0 false) start hend (fun _ s' => heap_state s' ∅)) as ([] & s' & Hrun' & Hst); try done. congruence.
  - destruct (op_sound s M op IH Hok) as (r' & s2 & Hrun' & Hst & _). congruence.
Qed.

(** A size within 16 of 2^64 wraps to a block no larger than the smallest. *)
Lemma need_wraps size : 2 ^ 64 - 16 <= size < 2 ^ 64 -> need size <= 16.
Proof.
  intros Hs. unfold need, to_u64, wrap, DWS. replace (size + 16) with (size + 16 - 2 ^ 64 + 1 * 2 ^ 64) by lia.
  rewrite Z.mod_add, Z.mod_small by lia. destruct (align_spec (size + 16 - 2 ^ 64)) as [Ha Ha16]; [lia | lia|].
  pose proof (Z.div_mod (align (size + 16 - 2 ^ 64)) 16). lia.
Qed.

(** ** Properties *)

(** C7. The kernel heap, in every state reachable from [kmem_init] by any
    sequence of [kmalloc], [kcalloc], [kfree], [krealloc] and stores into
    live payloads: the live payloads lie inside the heap, are 8-byte aligned
    and are separated by at least a header and a footer; every further such
    call returns (no fault, no endless loop, lock released), gives its
    result as specified by [op_post] - a fresh payload large enough or NULL
    only when the heap cannot grow, zeroed for [kcalloc], with the old bytes
    for [krealloc] - and leaves all other payloads' bytes unchanged. *)
Theorem kernel_heap_safe s M :
  reach s M ->
  (forall p c, M !! p = Some c -> HeapMemory s < p /\ p + c < HeapMemoryBrk s <= HeapMemoryEnd s /\ p mod 8 = 0 /\ 16 <= c) /\
  (forall p c q d, M !! p = Some c -> M !! q = Some d -> p <> q -> p + c + 16 <= q \/ q + d + 16 <= p) /\
  (forall op, op_ok s M op -> exists r s', run_op op s = Ok (r, s') /\ op_post s M op r s' /\ kmalloc_lock s' = false /\ reach s' (track M op r s')).
Proof.
  intros Hr. pose proof (reach_state _ _ Hr) as Hst. split_and!.
  - intros p c Hp. destruct (state_facts _ _ _ _ Hst Hp) as (? & ? & ? & ? & _). auto.
  - intros p c q d. by apply (state_disjoint s M).
  - intros op Hok. destruct (op_sound s M op Hst Hok) as (r & s' & Hrun & Hst' & Hpost). exists r, s'.
    split_and!; [done | done | by destruct Hst' as (bs & (_ & _ & ?) & _) | by eapply reach_op].
Qed.

(** The size computations of the allocator wrap around: asked to grow a
    live payload of [c] bytes to a size within 16 of 2^64, [krealloc]
    reports success with the old, far smaller, block; and [kcalloc] whose
    product overflows allocates only the wrapped product. *)
Theorem heap_size_overflow s M p c size :
  reach s M -> M !! p = Some c -> 2 ^ 64 - 16 <= size < 2 ^ 64 ->
  krealloc p size s = Ok (p, s) /\ c < size /\
  (forall nmemb sz, kcalloc nmemb sz s = kcalloc 1 ((sz * nmemb) mod 2 ^ 64) s).
Proof.
  intros Hst%reach_state Hp Hs. destruct (state_facts _ _ _ _ Hst Hp) as (Hlo & Hhi & Hp8 & Hc & Hc16).
  pose proof Hst as (bs & ([L Hi] & Hsep & Hl) & HM). destruct (proj1 (HM _ _) Hp) as [Hblk Hlow].
  destruct (hi_start _ _ _ _ Hi) as [Hpos _]. destruct (hi_end _ _ _ _ Hi) as [_ Hend]. pose proof (need_wraps size Hs) as Hneed.
  destruct (block_facts Hi _ _ _ Hblk) as (_ & _ & _ & _ & _ & _ & _ & ?). split_and!.
  - enough (wp (krealloc p size) (fun r s' => r = p /\ s' = s) s) as (r & s' & -> & -> & ->) by done.
    unfold krealloc. rewrite (proj2 (Z.eqb_neq p 0)), (proj2 (Z.eqb_neq size 0)) by lia.
    apply wp_bind, wp_locked; [done|]. pose proof (inv_lock _ _ _ _ true Hi) as Hi0.
    change (p - WS) with (p - 8). apply wp_bind, (wp_load_tag Hi0 _ _ _ _ Hblk). rewrite size_of_tag by (try (rewrite Z.add_mod, Hc16 by lia; done); lia).
    fold (need size). apply wp_bind. unfold realloc_in_place. rewrite (proj2 (Z.leb_le _ _)) by lia. apply wp_ret.
    apply wp_bind, wp_modify, wp_ret. split; [done|]. by rewrite relock.
  - lia.
  - intros nmemb sz. unfold kcalloc, to_u64, wrap. by rewrite Z.mul_1_r, Z.mod_mod by lia.
Qed.

(** ** Witnesses *)

(** A heap of 60 KiB at address 4096, and one allocation of 100 bytes. *)
Definition boot_heap : kheap := mkHeap (fun _ => 0) 0 0 0 0 0 false.

(** Initialise, allocate, and read off what a client sees. *)
Definition probe (init : KM unit) (alloc : KM Z) (b : kheap) : outcome (Z * Z * Z) :=
  '(_, s1) ← init b;
  '(p, s2) ← alloc s1;
  Ok (p, HeapMemoryEnd s1, payload_size s2 p).

Lemma probe_split init alloc b p e z :
  probe init alloc b = Ok (p, e, z) ->
  exists s1 s2, init b = Ok (tt, s1) /\ alloc s1 = Ok (p, s2) /\ HeapMemoryEnd s1 = e /\ payload_size s2 p = z.
Proof.
  unfold probe. destruct (init b) as [[[] s1]| | |]; try done. cbn [mbind outcome_bind].
  destruct (alloc s1) as [[q s2]| | |] eqn:E; try done. cbn [mbind outcome_bind]. intros [= -> <- <-]. by exists s1, s2.
Qed.

Lemma demo_probe : probe (kmem_init 4096 65536) (kmalloc 100) boot_heap = Ok (4168, 65536, 112).
Proof. vm_compute. reflexivity. Qed.

Lemma demo_reach : exists s, reach s {[4168 := 112]} /\ HeapMemoryEnd s = 65536.
Proof.
  destruct (probe_split _ _ _ _ _ _ demo_probe) as (s1 & s2 & E1 & E2 & Hend & Hpay).
  assert (Hr1 : reach s1 ∅) by (eapply reach_init; [| | | | | exact E1]; clear E1; done). clear E1.
  assert (Hf : fits s1 100) by (unfold fits; rewrite Hend; done).
  destruct (op_sound s1 ∅ (Malloc 100) (reach_state _ _ Hr1) Hf) as (r & s' & E & _ & Hp). cbn [run_op op_post] in E, Hp.
  assert (r = 4168 /\ s' = s2) as [-> ->] by (split; congruence). exists s2. split.
  - pose proof (reach_op s1 ∅ (Malloc 100) 4168 s2 Hr1 Hf E2) as Hr2. cbn [track Z.eqb] in Hr2. by rewrite Hpay, insert_empty in Hr2.
  - destruct Hp as [(? & _)|(_ & _ & _ & Hk)]; [done|]. by rewrite (ck_end _ _ _ Hk).
Qed.

Lemma kernel_heap_safe_witness :
  exists s, reach s {[4168 := 112]} /\
    (exists r s', run_op (Realloc 4168 5000) s = Ok (r, s') /\ op_post s {[4168 := 112]} (Realloc 4168 5000) r s').
Proof.
  destruct demo_reach as (s & Hr & He). exists s. split; [done|].
  destruct (kernel_heap_safe s _ Hr) as (_ & _ & Hop). destruct (Hop (Realloc 4168 5000)) as (r & s' & Hrun & Hpost & _).
  - split; [unfold fits; rewrite He; done | right; by exists 112].
  - by exists r, s'.
Defined.

Lemma heap_size_overflow_witness :
  exists s, reach s {[4168 := 112]} /\ krealloc 4168 (2 ^ 64 - 1) s = Ok (4168, s).
Proof.
  destruct demo_reach as (s & Hr & He). exists s. split; [done|].
  destruct (heap_size_overflow s _ 4168 112 (2 ^ 64 - 1) Hr) as [Hk _]; [done | done | exact Hk].
Defined.
