(* ===== verification/KString.v ===== *)
(** * Strings

    kernel/string.c.  [char] is an unsigned byte on AArch64.  A pointer into a
    string is the list of the bytes from there to the end of the object that
    holds it: dereferencing the empty list, or storing through it, is outside
    the object.  [strtok] writes into its argument and keeps a pointer between
    calls, so it works on a buffer and an index into it. *)

From S2P Require Import Prelude.

Fixpoint strlen (str : list Z) : outcome Z :=
  match str with
  | [] => Fault
  | c :: str => if c =? 0 then Ok 0 else n ← strlen str; Ok (n + 1)
  end.

(** The bytes of [dst] after the copy. *)
Fixpoint strcpy (dst src : list Z) : outcome (list Z) :=
  match src, dst with
  | c :: src, _ :: dst => if c =? 0 then Ok (c :: dst) else r ← strcpy dst src; Ok (c :: r)
  | _, _ => Fault
  end.

(** The second loop of [strncpy]. *)
Fixpoint strncpy_pad (dst : list Z) (n : nat) {struct n} : outcome (list Z) :=
  match n, dst with
  | O, _ => Ok dst
  | S n, _ :: dst => r ← strncpy_pad dst n; Ok (0 :: r)
  | S _, [] => Fault
  end.

Fixpoint strncpy (dst src : list Z) (n : nat) {struct n} : outcome (list Z) :=
  match n with
  | O => Ok dst
  | S n' =>
      match src with
      | [] => Fault
      | c :: src' =>
          if c =? 0 then strncpy_pad dst n else
          match dst with
          | [] => Fault
          | _ :: dst => r ← strncpy dst src' n'; Ok (c :: r)
          end
      end
  end.

Fixpoint strcmp (lhs rhs : list Z) : outcome Z :=
  match lhs, rhs with
  | a :: lhs, b :: rhs => if negb (a =? 0) && (a =? b) then strcmp lhs rhs else Ok (a - b)
  | _, _ => Fault
  end.

(** ** [strtok] *)

Fixpoint is_delim (ch : Z) (delim : list Z) : outcome bool :=
  match delim with
  | [] => Fault
  | d :: delim => if d =? 0 then Ok false else if ch =? d then Ok true else is_delim ch delim
  end.

(** How far a pointer moves over characters that are delimiters ([skip] is
    true) or are not, and the character it stops at. *)
Fixpoint strtok_span (skip : bool) (str delim : list Z) : outcome (nat * Z) :=
  match str with
  | [] => Fault
  | c :: str =>
      if c =? 0 then Ok (0%nat, c) else
      d ← is_delim c delim;
      if Bool.eqb d skip then '(n, e) ← strtok_span skip str delim; Ok (S n, e) else Ok (0%nat, c)
  end.

(** The buffer the tokens are cut from and [static char *next]. *)
Record tok_state := mkTok { tok_buf : list Z; tok_next : option nat }.

(** [str] is NULL or a pointer to the start of the buffer; the result is the
    index of the token, or NULL. *)
Definition strtok (str : option nat) (delim : list Z) : stM tok_state (option nat) := fun s =>
  let buf := tok_buf s in
  match (match str with Some p => Some p | None => tok_next s end) with
  | None => Ok (None, mkTok buf None)
  | Some next =>
      '(n, c) ← strtok_span true (drop next buf) delim;
      let token := (next + n)%nat in
      if c =? 0 then Ok (None, mkTok buf None) else
      '(n, c) ← strtok_span false (drop token buf) delim;
      let next := (token + n)%nat in
      if c =? 0 then Ok (Some token, mkTok buf None)
      else Ok (Some token, mkTok (<[next := 0]> buf) (Some (S next)))
  end.

(** ** [atoi] *)

Definition is_space (c : Z) : bool :=
  (c =? 32) || (c =? 9) || (c =? 10) || (c =? 13) || (c =? 11) || (c =? 12).

Definition is_digit (c : Z) : bool := (48 <=? c) && (c <=? 57).

Fixpoint skip_space (str : list Z) : outcome (list Z) :=
  match str with
  | [] => Fault
  | c :: str' => if is_space c then skip_space str' else Ok str
  end.

(** The digits, with the value so far, an [int] that wraps around. *)
Fixpoint atoi_digits (str : list Z) (value : Z) : outcome (Z * list Z) :=
  match str with
  | [] => Fault
  | c :: str' => if is_digit c then atoi_digits str' (to_s32 (to_s32 (value * 10) + (c - 48))) else Ok (value, str)
  end.

Definition atoi_sign (str : list Z) : outcome (Z * list Z) :=
  match str with
  | [] => Fault
  | c :: str' => Ok (if c =? 45 then (-1, str') else if c =? 43 then (1, str') else (1, str))
  end.

(** [None] stands for the result -1, [Some v] for 0 and [*out == v]. *)
Definition atoi (str : list Z) : outcome (option Z) :=
  str ← skip_space str;
  '(sign, str) ← atoi_sign str;
  match str with
  | [] => Fault
  | c :: _ =>
      if negb (is_digit c) then Ok None else
      '(value, str) ← atoi_digits str 0;
      match str with
      | [] => Fault
      | c :: _ => if negb (c =? 0) then Ok None else Ok (Some (to_s32 (value * sign)))
      end
  end.

(** ** C strings *)

(** [cstr s r]: the bytes of an object that holds the string [s], the
    terminator and [r]. *)
Definition cstr (s r : list Z) : list Z := s ++ 0 :: r.

Definition no_nul (s : list Z) : Prop := Forall (fun c => c <> 0) s.

(** The string a pointer denotes. *)
Fixpoint c_string (l : list Z) : list Z :=
  match l with
  | [] => []
  | c :: l => if c =? 0 then [] else c :: c_string l
  end.

Lemma c_string_cstr s r : no_nul s -> c_string (cstr s r) = s.
Proof. induction 1 as [|c s Hc _ IH]; [done|]. cbn. rewrite (proj2 (Z.eqb_neq c 0) Hc). by f_equal. Qed.

Lemma strlen_cstr s r : no_nul s -> strlen (cstr s r) = Ok (Z.of_nat (length s)).
Proof.
  induction 1 as [|c s Hc _ IH]; [done|]. change (cstr (c :: s) r) with (c :: cstr s r). cbn [strlen length].
  rewrite (proj2 (Z.eqb_neq c 0) Hc), IH. cbn. f_equal. lia.
Qed.

Lemma strcpy_cstr s r dst :
  no_nul s -> (length s < length dst)%nat -> strcpy dst (cstr s r) = Ok (cstr s (drop (S (length s)) dst)).
Proof.
  intros Hs. revert dst. induction Hs as [|c s Hc _ IH]; intros [|x dst] Hl; simpl in Hl; try lia; [done|].
  change (cstr (c :: s) r) with (c :: cstr s r). cbn [strcpy]. rewrite (proj2 (Z.eqb_neq c 0) Hc), IH by lia. done.
Qed.

(** A destination too short for the string and its terminator. *)
Lemma strcpy_overflow s r dst : no_nul s -> (length dst <= length s)%nat -> strcpy dst (cstr s r) = Fault.
Proof.
  intros Hs. revert dst. induction Hs as [|c s Hc _ IH]; intros [|x dst] Hl; simpl in Hl; try lia; try done.
  change (cstr (c :: s) r) with (c :: cstr s r). cbn [strcpy]. rewrite (proj2 (Z.eqb_neq c 0) Hc), IH by lia. done.
Qed.

Lemma strncpy_pad_ok dst n : (n <= length dst)%nat -> strncpy_pad dst n = Ok (replicate n 0 ++ drop n dst).
Proof. revert n. induction dst as [|x dst IH]; intros [|n] Hn; simpl in *; try lia; try done. by rewrite IH by lia. Qed.

Lemma strncpy_cstr s r dst n :
  no_nul s -> (n <= length dst)%nat ->
  strncpy dst (cstr s r) n = Ok (take n (s ++ replicate n 0) ++ drop n dst).
Proof.
  intros Hs. revert dst n. induction Hs as [|c s Hc _ IH]; intros dst [|n] Hl; try done.
  - change (strncpy dst (cstr [] r) (S n)) with (strncpy_pad dst (S n)). rewrite strncpy_pad_ok by done. rewrite app_nil_l, take_ge; [done|]. rewrite length_replicate. lia.
  - change (cstr (c :: s) r) with (c :: cstr s r). destruct dst as [|x dst]; [simpl in Hl; lia|]. simpl in Hl. cbn [strncpy].
    rewrite (proj2 (Z.eqb_neq c 0) Hc), IH by lia. cbn [mbind outcome_bind app take drop].
    rewrite replicate_S_end, app_assoc, (take_app_le (s ++ replicate n 0)); [done|]. rewrite length_app, length_replicate. lia.
Qed.

(** Lexicographic order of the bytes of two strings. *)
Fixpoint string_lt (s t : list Z) : Prop :=
  match s, t with
  | _, [] => False
  | [], _ :: _ => True
  | a :: s, b :: t => a < b \/ a = b /\ string_lt s t
  end.

Lemma strcmp_cstr s t r r' :
  Forall (fun c => 0 < c) s -> Forall (fun c => 0 < c) t ->
  exists d, strcmp (cstr s r) (cstr t r') = Ok d /\ (d = 0 <-> s = t) /\ (d < 0 <-> string_lt s t).
Proof.
  intros Hs. revert t. induction Hs as [|a s Ha _ IH]; intros t Ht; inversion Ht as [|b t' Hb Ht']; subst; cbn [cstr app strcmp string_lt].
  - exists 0. simpl. split_and!; done || lia.
  - exists (0 - b). simpl. split_and!; [done | split; [lia | done] | lia].
  - rewrite (proj2 (Z.eqb_neq a 0)) by lia. cbn [negb andb]. exists (a - 0).
    split_and!; [done | split; [lia | done] | lia].
  - rewrite (proj2 (Z.eqb_neq a 0)) by lia. cbn [negb andb]. destruct (Z.eqb_spec a b) as [->|Hne].
    + destruct (IH t' Ht') as (d & E & H0 & H1). exists d. split_and!; [done | rewrite H0; split; [by intros -> | congruence] |].
      rewrite H1. split; [auto | intros [?|[_ ?]]; [lia | done]].
    + exists (a - b). split_and!; [done | split; [lia | congruence] |]. split; [lia | intros [?|[? _]]; lia].
Qed.

(** ** Tokens *)

Section tokens.
Context (isd : Z -> bool).

(** The fields between delimiters; the tokens are those that are not empty. *)
Fixpoint fields (s : list Z) : list (list Z) :=
  match s with
  | [] => [[]]
  | c :: s =>
      if isd c then [] :: fields s
      else match fields s with f :: fs => (c :: f) :: fs | [] => [[c]] end
  end.

Definition tokens (s : list Z) : list (list Z) := filter (fun f => f <> []) (fields s).

Definition delims (a : list Z) : Prop := Forall (fun c => isd c = true) a.
Definition word (w : list Z) : Prop := Forall (fun c => isd c = false) w.

Lemma tokens_delims a s : delims a -> tokens (a ++ s) = tokens s.
Proof. induction 1 as [|c a Hc _ IH]; [done|]. unfold tokens. cbn [app fields]. rewrite Hc, filter_cons_False by auto. apply IH. Qed.

Lemma fields_word w s : word w -> exists f fs, fields s = f :: fs /\ fields (w ++ s) = (w ++ f) :: fs.
Proof.
  induction 1 as [|c w Hc _ (f & fs & E1 & E2)].
  - destruct s as [|c s]; cbn [app fields]; [by eexists _, _|]. destruct (isd c); [by eexists _, _|]. destruct (fields s); by eexists _, _.
  - exists f, fs. split; [done|]. cbn [app fields]. by rewrite Hc, E2.
Qed.

Lemma tokens_word w : word w -> w <> [] -> tokens w = [w].
Proof.
  intros Hw Hne. destruct (fields_word w [] Hw) as (f & fs & E1 & E2). injection E1 as <- <-. rewrite !app_nil_r in E2.
  unfold tokens. by rewrite E2, filter_cons_True.
Qed.

Lemma tokens_word_delim w c s : word w -> w <> [] -> isd c = true -> tokens (w ++ c :: s) = w :: tokens s.
Proof.
  intros Hw Hne Hc. destruct (fields_word w (c :: s) Hw) as (f & fs & E1 & E2). cbn [fields] in E1. rewrite Hc in E1.
  injection E1 as <- <-. rewrite app_nil_r in E2. unfold tokens. by rewrite E2, filter_cons_True.
Qed.

End tokens.

Lemma is_delim_cstr c d r : no_nul d -> is_delim c (cstr d r) = Ok (bool_decide (c ∈ d)).
Proof.
  induction 1 as [|x d Hx _ IH]; [done|]. change (cstr (x :: d) r) with (x :: cstr d r). cbn [is_delim].
  rewrite (proj2 (Z.eqb_neq x 0) Hx), IH. destruct (Z.eqb_spec c x) as [->|Hne].
  - by rewrite bool_decide_true by left.
  - f_equal. apply bool_decide_ext. rewrite elem_of_cons. tauto.
Qed.

Section strtok.
Context (d dr : list Z) (Hd : no_nul d).
Let isd (c : Z) : bool := bool_decide (c ∈ d).

Lemma strtok_span_cstr skip s r :
  no_nul s ->
  exists a b, s = a ++ b /\ Forall (fun c => isd c = skip) a /\ (forall c b', b = c :: b' -> isd c = negb skip) /\
    strtok_span skip (cstr s r) (cstr d dr) = Ok (length a, hd 0 b).
Proof.
  induction 1 as [|c s Hc Hs (a & b & -> & Ha & Hb & E)]; [by exists [], []|].
  change (cstr (c :: a ++ b) r) with (c :: cstr (a ++ b) r). cbn [strtok_span].
  rewrite (proj2 (Z.eqb_neq c 0) Hc), is_delim_cstr by done. fold (isd c). cbn [mbind outcome_bind].
  destruct (Bool.eqb (isd c) skip) eqn:Eb.
  - apply Bool.eqb_prop in Eb. rewrite E. exists (c :: a), b. split_and!; [done | by constructor | done | done].
  - exists [], (c :: a ++ b). split_and!; [done | done | | done]. intros c' b' [= <- _]. apply eqb_false_iff in Eb. by destruct (isd c), skip.
Qed.

(** One call: no token is left, or the string splits into delimiters, a word
    and the rest, and the call returns the word. *)
Lemma strtok_step pre s r str :
  no_nul s -> (str = Some (length pre) \/ str = None) ->
  let st := mkTok (pre ++ cstr s r) (Some (length pre)) in
  (tokens isd s = [] /\ strtok str (cstr d dr) st = Ok (None, mkTok (pre ++ cstr s r) None)) \/
  (exists a w, s = a ++ w /\ delims isd a /\ word isd w /\ w <> [] /\
     strtok str (cstr d dr) st = Ok (Some (length pre + length a)%nat, mkTok (pre ++ cstr s r) None)) \/
  (exists a w x s', s = a ++ w ++ x :: s' /\ delims isd a /\ word isd w /\ w <> [] /\ isd x = true /\
     strtok str (cstr d dr) st =
       Ok (Some (length pre + length a)%nat,
           mkTok ((pre ++ a ++ w ++ [0]) ++ cstr s' r) (Some (length (pre ++ a ++ w ++ [0]))))).
Proof.
  intros Hs Hstr st. unfold strtok. cbn [tok_buf tok_next st].
  replace (match str with Some p => Some p | None => Some (length pre) end) with (Some (length pre)) by (by destruct Hstr as [->| ->]).
  rewrite drop_app_length. destruct (strtok_span_cstr true s r Hs) as (a & b & -> & Ha & Hb & ->). cbn [mbind outcome_bind].
  apply Forall_app in Hs as [Hna Hnb]. destruct b as [|c b].
  { left. split; [|done]. rewrite tokens_delims by done. done. }
  right. cbn [hd]. inversion Hnb as [|? ? Hc Hnb']; subst. rewrite (proj2 (Z.eqb_neq c 0) Hc).
  replace (drop (length pre + length a) (pre ++ cstr (a ++ c :: b) r)) with (cstr (c :: b) r).
  2: { rewrite <- length_app. unfold cstr. rewrite <- app_assoc, (app_assoc pre). by rewrite drop_app_length. }
  destruct (strtok_span_cstr false (c :: b) r Hnb) as (w & e & Ew & Hw & He & ->). cbn [mbind outcome_bind].
  assert (Hne : w <> []).
  { intros ->. specialize (Hb c b eq_refl). specialize (He c b (eq_sym Ew)). unfold negb in *. congruence. }
  rewrite Ew. destruct e as [|x e].
  - left. exists a, w. rewrite app_nil_r. done.
  - right. exists a, w, x, e. assert (Hx : x <> 0) by (rewrite Ew in Hnb; apply Forall_app in Hnb as [_ Hnb]; by inversion Hnb).
    cbn [hd]. rewrite (proj2 (Z.eqb_neq x 0) Hx). split_and!; [done | done | done | done | by apply (He x e)|].
    assert (El : length (pre ++ a ++ w ++ [0]) = S (length pre + length a + length w)) by (rewrite !length_app; simpl; lia).
    rewrite El. do 3 f_equal. unfold cstr.
    replace (pre ++ (a ++ w ++ x :: e) ++ 0 :: r) with ((pre ++ a ++ w) ++ x :: e ++ 0 :: r) by (by rewrite <- !app_assoc).
    rewrite insert_app_r_alt by (rewrite !length_app; lia). replace (_ - _)%nat with 0%nat by (rewrite !length_app; lia).
    cbn. by rewrite <- !app_assoc.
Qed.

(** [for (t = strtok(str, delim); t != NULL; t = strtok(NULL, delim))] *)
Fixpoint strtok_loop (fuel : nat) (str : option nat) (delim : list Z) : stM tok_state (list nat) :=
  match fuel with
  | O => hang
  | S fuel =>
      t ← strtok str delim;
      match t with
      | None => mret []
      | Some t => ts ← strtok_loop fuel None delim; mret (t :: ts)
      end
  end.

Lemma strtok_loop_tokens fuel pre s r str :
  no_nul s -> (length s < fuel)%nat -> (str = Some (length pre) \/ str = None) ->
  exists ts b, strtok_loop fuel str (cstr d dr) (mkTok (pre ++ cstr s r) (Some (length pre))) = Ok (ts, mkTok (pre ++ b) None) /\
    length b = length (cstr s r) /\ map (fun t => c_string (drop t (pre ++ b))) ts = tokens isd s.
Proof.
  revert fuel pre s str. induction fuel as [|fuel IH]; intros pre s str Hs Hf Hstr; [lia|]. cbn [strtok_loop].
  destruct (strtok_step pre s r str Hs Hstr) as [[Et E]|[(a & w & -> & Ha & Hw & Hne & E)|(a & w & x & s' & -> & Ha & Hw & Hne & Hx & E)]].
  - rewrite (bind_ok _ _ _ _ _ E). by exists [], (cstr s r).
  - rewrite (bind_ok _ _ _ _ _ E). exists [(length pre + length a)%nat], (cstr (a ++ w) r). apply Forall_app in Hs as [_ Hs].
    destruct fuel as [|fuel]; [rewrite length_app in Hf; destruct w; [done | simpl in Hf; lia]|]. split_and!; [done | done|].
    rewrite tokens_delims, tokens_word by done. cbn [map]. unfold cstr. rewrite <- app_assoc, (app_assoc pre), <- length_app, drop_app_length.
    f_equal. by apply c_string_cstr.
  - rewrite (bind_ok _ _ _ _ _ E). rewrite !length_app in Hf. simpl in Hf. apply Forall_app in Hs as [_ Hs]. apply Forall_app in Hs as [Hnw Hs].
    inversion Hs; subst. destruct (IH (pre ++ a ++ w ++ [0]) s' None) as (ts & b & E2 & Hl & Hts); [done | lia | auto|].
    rewrite (bind_ok _ _ _ _ _ E2). exists ((length pre + length a)%nat :: ts), (a ++ w ++ [0] ++ b). split_and!.
    + cbn. by rewrite <- !app_assoc.
    + unfold cstr in *. rewrite !length_app in *. simpl in *. lia.
    + rewrite tokens_delims, tokens_word_delim by done. cbn [map]. f_equal.
      * rewrite (app_assoc pre), <- length_app, drop_app_length. by apply c_string_cstr.
      * rewrite <- Hts. apply map_ext. intros t. do 2 f_equal. by rewrite <- !app_assoc.
Qed.

End strtok.

(** ** Properties *)

(** [strtok] called first with a string and then with NULL until it
    returns NULL: the calls terminate and return, in order, exactly the maximal
    runs of characters that are not delimiters, each terminated in place, and
    the stored pointer ends up NULL, whatever it was before. *)
Theorem strtok_correct d dr s r next0 :
  no_nul d -> no_nul s ->
  exists ts b, strtok_loop (S (length s)) (Some 0%nat) (cstr d dr) (mkTok (cstr s r) next0) = Ok (ts, mkTok b None) /\
    length b = length (cstr s r) /\ map (fun t => c_string (drop t b)) ts = tokens (fun c => bool_decide (c ∈ d)) s.
Proof.
  intros Hd Hs. destruct (strtok_loop_tokens d dr Hd (S (length s)) [] s r (Some 0%nat)) as (ts & b & H); [done | lia | by left|].
  exists ts, b. exact H.
Qed.

Lemma strtok_correct_witness :
  exists ts b, strtok_loop 9 (Some 0%nat) (cstr [47] []) (mkTok (cstr [47; 97; 98; 47; 47; 99; 47; 100] []) None) = Ok (ts, mkTok b None) /\
    length b = 9%nat /\ map (fun t => c_string (drop t b)) ts = [[97; 98]; [99]; [100]].
Proof. apply (strtok_correct [47] [] [47; 97; 98; 47; 47; 99; 47; 100] [] None); repeat constructor; done. Defined.
