(* ===== verification/Printf.v ===== *)
(** * Formatted output

    kernel/uart/printf.c.  The output buffer is an object of its own; a store
    past its end is undefined behaviour, and so is a [va_arg] of a type other
    than the argument's or past the last argument. *)

From S2P Require Import Prelude KString.

Record format_out := mkOut { fo_buf : list Z; fo_size : Z; fo_len : Z }.

Definition format_emit (out : format_out) (c : Z) : outcome format_out :=
  let len := fo_len out in
  buf ← (if negb (fo_size out =? 0) && (to_u64 (len + 1) <? fo_size out) then
           if (Z.to_nat len <? length (fo_buf out))%nat then Ok (<[Z.to_nat len := c]> (fo_buf out)) else Fault
         else Ok (fo_buf out));
  Ok (mkOut buf (fo_size out) (to_u64 (len + 1))).

Fixpoint format_chars (out : format_out) (s : list Z) : outcome format_out :=
  match s with
  | [] => Fault
  | c :: s => if c =? 0 then Ok out else out ← format_emit out c; format_chars out s
  end.

(** "(null)" *)
Definition null_text : list Z := [40; 110; 117; 108; 108; 41; 0].

Definition format_str (out : format_out) (s : option (list Z)) : outcome format_out :=
  format_chars out (match s with None => null_text | Some s => s end).

(** "0123456789abcdef" *)
Definition digits : list Z := [48; 49; 50; 51; 52; 53; 54; 55; 56; 57; 97; 98; 99; 100; 101; 102; 0].

(** [char buf[32]] *)
Definition FORMAT_BUF : nat := 32.

(** The digits of a number, the last first; [room] is what is left of the
    buffer. *)
Fixpoint uint_digits (room : nat) (value base : Z) : outcome (list Z) :=
  match room with
  | O => Ok []
  | S room =>
      if value =? 0 then Ok [] else
      d ← checked (digits !! Z.to_nat (value mod base));
      ds ← uint_digits room (value / base) base;
      Ok (d :: ds)
  end.

(** [while (i > 0) format_emit(out, buf[--i])] *)
Fixpoint emit_digits (out : format_out) (ds : list Z) : outcome format_out :=
  match ds with
  | [] => Ok out
  | d :: ds => out ← emit_digits out ds; format_emit out d
  end.

Definition format_uint (out : format_out) (value base : Z) : outcome format_out :=
  if value =? 0 then format_emit out 48 else
  ds ← uint_digits FORMAT_BUF value base;
  emit_digits out ds.

Definition format_int (out : format_out) (value : Z) : outcome format_out :=
  if value <? 0 then out ← format_emit out 45; format_uint out (to_u64 (- value)) 10
  else format_uint out (to_u64 value) 10.

(** ** The format *)

(** A variable argument, by the way it is passed: an integer register or a
    pointer to a string. *)
Inductive va_list_arg := VInt (x : Z) | VPtr (s : option (list Z)).

Definition va_int (args : list va_list_arg) : outcome (Z * list va_list_arg) :=
  match args with VInt x :: args => Ok (x, args) | _ => Fault end.

Definition va_ptr (args : list va_list_arg) : outcome (option (list Z) * list va_list_arg) :=
  match args with VPtr s :: args => Ok (s, args) | _ => Fault end.


(** An optional "l" or "ll". *)
Definition length_modifier (fmt : list Z) : outcome (bool * list Z) :=
  match fmt with
  | [] => Fault
  | c :: fmt' =>
      if c =? 108 then
        match fmt' with
        | [] => Fault
        | c :: fmt'' => Ok (true, if c =? 108 then fmt'' else fmt')
        end
      else Ok (false, fmt)
  end.

(** The [switch] on the conversion character. *)
Definition convert (out : format_out) (long_arg : bool) (c : Z) (args : list va_list_arg)
    : outcome (format_out * list va_list_arg) :=
  if c =? 99 then
    '(x, args) ← va_int args; out ← format_emit out (to_u8 x); Ok (out, args)
  else if c =? 100 then
    '(x, args) ← va_int args; out ← format_int out (if long_arg then to_s64 x else to_s32 x); Ok (out, args)
  else if c =? 115 then
    '(s, args) ← va_ptr args; out ← format_str out s; Ok (out, args)
  else if c =? 117 then
    '(x, args) ← va_int args; out ← format_uint out (if long_arg then to_u64 x else to_u32 x) 10; Ok (out, args)
  else if (c =? 120) || (c =? 88) then
    '(x, args) ← va_int args; out ← format_uint out (if long_arg then to_u64 x else to_u32 x) 16; Ok (out, args)
  else if c =? 37 then
    out ← format_emit out 37; Ok (out, args)
  else
    out ← format_emit out 37; out ← format_emit out c; Ok (out, args).

(** Every iteration moves [fmt] by at least one character. *)
Fixpoint vsnprintf_loop (fuel : nat) (fmt : list Z) (args : list va_list_arg) (out : format_out) : outcome format_out :=
  match fuel with
  | O => Hang
  | S fuel =>
      match fmt with
      | [] => Fault
      | c :: fmt =>
          if c =? 0 then Ok out else
          if negb (c =? 37) then out ← format_emit out c; vsnprintf_loop fuel fmt args out else
          '(long_arg, fmt) ← length_modifier fmt;
          match fmt with
          | [] => Fault
          | c :: fmt => '(out, args) ← convert out long_arg c args; vsnprintf_loop fuel fmt args out
          end
      end
  end.

(** The result and the buffer. *)
Definition vsnprintf (buf : list Z) (size : Z) (fmt : list Z) (args : list va_list_arg) : outcome (Z * list Z) :=
  out ← vsnprintf_loop (S (length fmt)) fmt args (mkOut buf size 0);
  buf ← (if negb (size =? 0) then
           let nul_pos := if fo_len out <? size then fo_len out else size - 1 in
           if (Z.to_nat nul_pos <? length (fo_buf out))%nat then Ok (<[Z.to_nat nul_pos := 0]> (fo_buf out)) else Fault
         else Ok (fo_buf out));
  Ok (to_s32 (fo_len out), buf).

(** [printf] formats into [char buf[512]] and hands the characters to the UART;
    the result is what is sent. *)
Definition PRINTF_BUF : Z := 512.

Definition uart_write_formatted (buf : list Z) (len : Z) : outcome (list Z) :=
  if (Z.to_nat len <=? length buf)%nat then Ok (take (Z.to_nat len) buf) else Fault.

(** [garbage] is what the buffer on the stack holds before. *)
Definition printf (garbage : list Z) (fmt : list Z) (args : list va_list_arg) : outcome (list Z) :=
  '(len, buf) ← vsnprintf garbage PRINTF_BUF fmt args;
  let len := if PRINTF_BUF <=? len then PRINTF_BUF - 1 else len in
  uart_write_formatted buf len.

(** ** What the output denotes *)

(** The value of a digit and of a numeral, and the numerals without leading
    zeros: the specification of number printing. *)
Definition digit_char (d : Z) : Z := if d <? 10 then 48 + d else 87 + d.
Definition digit_val (c : Z) : Z := if c <? 58 then c - 48 else c - 87.

Definition horner (base : Z) (text : list Z) : Z := foldl (fun v c => v * base + digit_val c) 0 text.

Definition is_numeral (base v : Z) (text : list Z) : Prop :=
  horner base text = v /\ text <> [] /\ (hd 0 text = 48 -> text = [48]) /\
  Forall (fun c => exists d, 0 <= d < base /\ c = digit_char d) text.

Lemma digit_val_char d : 0 <= d < 16 -> digit_val (digit_char d) = d.
Proof. intros Hd. unfold digit_char, digit_val. destruct (Z.ltb_spec d 10); case_bool; lia. Qed.

Lemma digits_lookup d : 0 <= d < 16 -> digits !! Z.to_nat d = Some (digit_char d).
Proof.
  intros Hd. rewrite <- (Z2Nat.id d) at 2 by lia. assert (Hn : (Z.to_nat d < 16)%nat) by lia.
  revert Hn. generalize (Z.to_nat d) as n. intros n Hn. do 16 (destruct n as [|n]; [done|]). lia.
Qed.

Lemma horner_app base s t : horner base (s ++ t) = foldl (fun v c => v * base + digit_val c) (horner base s) t.
Proof. apply foldl_app. Qed.

(** The digits of a positive number. *)
Lemma uint_digits_ok room v base :
  2 <= base <= 16 -> 0 <= v < base ^ Z.of_nat room ->
  exists ds, uint_digits room v base = Ok ds /\ horner base (reverse ds) = v /\
    Forall (fun c => exists d, 0 <= d < base /\ c = digit_char d) ds /\
    (v = 0 -> ds = []) /\ (v <> 0 -> exists ds' c, ds = ds' ++ [c] /\ c <> 48).
Proof.
  intros Hb. revert v. induction room as [|room IH]; intros v Hv; cbn [uint_digits].
  { change (base ^ Z.of_nat 0) with 1 in Hv. exists []. split_and!; [done | simpl; unfold horner; simpl; lia | done | done | lia]. }
  destruct (Z.eqb_spec v 0) as [->|Hne]; [exists []; by split_and!|].
  pose proof (Z.mod_pos_bound v base ltac:(lia)) as Hm. pose proof (Z.div_mod v base ltac:(lia)) as Hdm.
  rewrite digits_lookup by lia. cbn [checked mbind outcome_bind]. destruct (IH (v / base)) as (ds & -> & Hh & Hf & Hz & Hnz).
  { rewrite Nat2Z.inj_succ, Z.pow_succ_r in Hv by lia. split; [apply Z.div_pos; lia|]. apply Z.div_lt_upper_bound; lia. }
  exists (digit_char (v mod base) :: ds). split_and!.
  - done.
  - rewrite reverse_cons, horner_app, Hh. cbn [foldl]. rewrite digit_val_char by lia. lia.
  - constructor; [by eexists | done].
  - done.
  - intros _. destruct (decide (v / base = 0)) as [E|E].
    + rewrite (Hz E). exists [], (digit_char (v mod base)). split; [done|]. unfold digit_char. case_bool; lia.
    + destruct (Hnz E) as (ds' & c & -> & Hc). by exists (digit_char (v mod base) :: ds'), c.
Qed.

(** ** The output buffer *)

(** After the characters [text] were emitted to a buffer of [size] bytes, those
    that leave room for the terminator are in it. *)
Definition kept_chars (size : Z) (text : list Z) : nat := Nat.min (length text) (Z.to_nat (size - 1)).

Definition overlay (buf : list Z) (size : Z) (text : list Z) : list Z :=
  take (kept_chars size text) text ++ drop (kept_chars size text) buf.

Definition outp (buf : list Z) (size : Z) (text : list Z) : format_out :=
  mkOut (overlay buf size text) size (Z.of_nat (length text)).

Section output.
Context (buf : list Z) (size : Z) (Hsize : 0 <= size <= Z.of_nat (length buf)).

Lemma length_overlay text : length (overlay buf size text) = length buf.
Proof. unfold overlay, kept_chars. rewrite length_app, length_take, length_drop. lia. Qed.

Lemma format_emit_ok text c :
  Z.of_nat (length text) + 1 < 2 ^ 63 -> format_emit (outp buf size text) c = Ok (outp buf size (text ++ [c])).
Proof.
  intros Hl. unfold format_emit, outp. cbn [fo_buf fo_size fo_len]. unfold to_u64. rewrite wrap_small by lia.
  rewrite length_app. cbn [length]. replace (Z.of_nat (length text + 1)) with (Z.of_nat (length text) + 1) by lia.
  rewrite Nat2Z.id, length_overlay. unfold overlay, kept_chars. rewrite length_app. cbn [length].
  destruct (Z.eqb_spec size 0) as [->|Hs0]; cbn [negb andb mbind outcome_bind].
  { simpl. by rewrite !Nat.min_0_r. }
  destruct (Z.ltb_spec (Z.of_nat (length text) + 1) size) as [Hin|Hout]; cbn [mbind outcome_bind].
  - destruct (Nat.ltb_spec (length text) (length buf)); [|lia]. cbn [mbind outcome_bind]. rewrite !Nat.min_l by lia.
    rewrite firstn_all, (take_ge (text ++ [c])) by (rewrite length_app; simpl; lia). do 3 f_equal.
    rewrite insert_app_r_alt by lia. rewrite Nat.sub_diag, <- app_assoc. f_equal.
    rewrite (drop_S buf (buf !!! length text)) by (apply list_lookup_lookup_total_lt; lia). cbn. do 2 f_equal. lia.
  - rewrite !Nat.min_r by lia. by rewrite take_app_le by lia.
Qed.

Lemma format_chars_ok text s r :
  no_nul s -> Z.of_nat (length (text ++ s)) < 2 ^ 63 -> format_chars (outp buf size text) (cstr s r) = Ok (outp buf size (text ++ s)).
Proof.
  intros Hs. revert text. induction Hs as [|c s Hc _ IH]; intros text Hl; [by rewrite app_nil_r|].
  change (cstr (c :: s) r) with (c :: cstr s r). cbn [format_chars]. rewrite (proj2 (Z.eqb_neq c 0) Hc).
  rewrite length_app in Hl. simpl in Hl. rewrite format_emit_ok by lia. cbn [mbind outcome_bind].
  rewrite IH; [by rewrite <- app_assoc|]. rewrite !length_app. simpl. lia.
Qed.

Lemma emit_digits_ok text ds :
  Z.of_nat (length (text ++ ds)) < 2 ^ 63 -> emit_digits (outp buf size text) ds = Ok (outp buf size (text ++ reverse ds)).
Proof.
  revert text. induction ds as [|d ds IH]; intros text Hl; [by rewrite app_nil_r|]. rewrite length_app in Hl. cbn [length] in Hl. cbn [emit_digits].
  rewrite IH by (rewrite length_app; lia). cbn [mbind outcome_bind]. rewrite format_emit_ok by (rewrite length_app, length_reverse; lia).
  by rewrite reverse_cons, app_assoc.
Qed.

(** [format_uint] prints the numeral, in the bases the code uses. *)
Lemma format_uint_ok v base :
  (base = 10 \/ base = 16) -> 0 <= v < 2 ^ 64 ->
  exists t, is_numeral base v t /\
    forall text, Z.of_nat (length (text ++ t)) < 2 ^ 63 -> format_uint (outp buf size text) v base = Ok (outp buf size (text ++ t)).
Proof.
  intros Hb Hv. unfold format_uint. destruct (Z.eqb_spec v 0) as [->|Hne].
  { exists [48]. split; [|intros text Hl; apply format_emit_ok; rewrite length_app in Hl; simpl in Hl; lia].
    split_and!; [done | done | done |]. constructor; [|done]. exists 0. split; [lia | done]. }
  destruct (uint_digits_ok FORMAT_BUF v base) as (ds & -> & Hh & Hf & _ & Hnz).
  { lia. } { split; [lia|]. destruct Hb as [->| ->]; (eapply Z.lt_trans; [apply Hv | done]). }
  destruct (Hnz Hne) as (ds' & c & -> & Hc). rewrite reverse_snoc in Hh. exists (reverse (ds' ++ [c])). rewrite reverse_snoc. split.
  - split_and!; [done | done | by intros ?|]. rewrite <- reverse_snoc. by apply Forall_reverse.
  - intros text Hl. cbn [mbind outcome_bind]. rewrite emit_digits_ok; [by rewrite reverse_snoc|].
    rewrite length_app in *. cbn [length] in Hl. rewrite length_reverse in Hl. rewrite length_app. simpl. lia.
Qed.

End output.

(** ** Formats as lists of directives *)

(** A conversion with its argument; a string argument comes with what follows
    it in memory. *)
Inductive conversion :=
  | CChar (x : Z)
  | CInt (x : Z)
  | CStr (s : option (list Z * list Z))
  | CUns (x : Z)
  | CHex (upper : bool) (x : Z)
  | CPercent
  | COther (c : Z).

(** A character, or a conversion after [l] letters "l". *)
Inductive directive :=
  | Lit (c : Z)
  | Conv (l : nat) (k : conversion).

Definition conv_char (k : conversion) : Z :=
  match k with
  | CChar _ => 99 | CInt _ => 100 | CStr _ => 115 | CUns _ => 117
  | CHex upper _ => if upper then 88 else 120
  | CPercent => 37 | COther c => c
  end.

Definition conv_args (k : conversion) : list va_list_arg :=
  match k with
  | CChar x | CInt x | CUns x | CHex _ x => [VInt x]
  | CStr s => [VPtr (option_map (fun '(s, r) => cstr s r) s)]
  | CPercent | COther _ => []
  end.

Definition conv_ok (k : conversion) : Prop :=
  match k with
  | CStr (Some (s, _)) => no_nul s
  | COther c => c ∉ [0; 108; 99; 100; 115; 117; 120; 88; 37]
  | _ => True
  end.

Definition directive_ok (i : directive) : Prop :=
  match i with
  | Lit c => c <> 0 /\ c <> 37
  | Conv l k => (l <= 2)%nat /\ conv_ok k
  end.

Definition format_of (i : directive) : list Z :=
  match i with
  | Lit c => [c]
  | Conv l k => 37 :: replicate l 108 ++ [conv_char k]
  end.

Definition args_of (i : directive) : list va_list_arg :=
  match i with Lit _ => [] | Conv _ k => conv_args k end.

(** A number in sign and magnitude. *)
Definition shows_int (v : Z) (text : list Z) : Prop :=
  if v <? 0 then exists t, text = 45 :: t /\ is_numeral 10 (- v) t else is_numeral 10 v text.

(** What a conversion prints. *)
Definition shows_conv (long : bool) (k : conversion) (text : list Z) : Prop :=
  match k with
  | CChar x => text = [to_u8 x]
  | CInt x => shows_int (if long then to_s64 x else to_s32 x) text
  | CStr None => text = [40; 110; 117; 108; 108; 41]
  | CStr (Some (s, _)) => text = s
  | CUns x => is_numeral 10 (if long then to_u64 x else to_u32 x) text
  | CHex _ x => is_numeral 16 (if long then to_u64 x else to_u32 x) text
  | CPercent => text = [37]
  | COther c => text = [37; c]
  end.

Inductive shows : list directive -> list Z -> Prop :=
  | shows_nil : shows [] []
  | shows_lit c items text : shows items text -> shows (Lit c :: items) (c :: text)
  | shows_convert l k items t text :
      shows_conv (0 <? l)%nat k t -> shows items text -> shows (Conv l k :: items) (t ++ text).

#[local] Arguments format_chars : simpl never.
#[local] Arguments cstr : simpl never.

Lemma to_s32_range x : - 2 ^ 31 <= to_s32 x < 2 ^ 31.
Proof. unfold to_s32. pose proof (Z.mod_pos_bound (x + 2 ^ 31) (2 ^ 32)). lia. Qed.

Lemma to_s64_range x : - 2 ^ 63 <= to_s64 x < 2 ^ 63.
Proof. unfold to_s64. pose proof (Z.mod_pos_bound (x + 2 ^ 63) (2 ^ 64)). lia. Qed.

Lemma unsigned_range (long : bool) x : 0 <= (if long then to_u64 x else to_u32 x) < 2 ^ 64.
Proof. unfold to_u64, to_u32. pose proof (wrap_bound 64 x). pose proof (wrap_bound 32 x). destruct long; lia. Qed.

Section directives.
Context (buf : list Z) (size : Z) (Hsize : 0 <= size <= Z.of_nat (length buf)).

Lemma format_int_ok v :
  - 2 ^ 63 <= v < 2 ^ 63 ->
  exists t, shows_int v t /\
    forall text, Z.of_nat (length (text ++ t)) < 2 ^ 63 -> format_int (outp buf size text) v = Ok (outp buf size (text ++ t)).
Proof.
  intros Hv. unfold format_int, shows_int. destruct (Z.ltb_spec v 0); unfold to_u64; rewrite wrap_small by lia.
  - destruct (format_uint_ok buf size Hsize (- v) 10) as (t & Ht & HE); [auto | lia|]. exists (45 :: t). split; [by exists t|].
    intros text Hl. rewrite length_app in Hl. simpl in Hl. rewrite format_emit_ok by (done || lia). cbn [mbind outcome_bind].
    rewrite HE; [by rewrite <- app_assoc|]. rewrite !length_app. simpl. lia.
  - destruct (format_uint_ok buf size Hsize v 10) as (t & Ht & HE); [auto | lia|]. by exists t.
Qed.

Lemma convert_ok long k :
  conv_ok k ->
  exists t, shows_conv long k t /\
    forall rest text, Z.of_nat (length (text ++ t)) < 2 ^ 63 ->
      convert (outp buf size text) long (conv_char k) (conv_args k ++ rest) = Ok (outp buf size (text ++ t), rest).
Proof.
  intros Hk. destruct k as [x|x|s|x|upper x| |c]; cbn [shows_conv conv_char conv_args app].
  - exists [to_u8 x]. split; [done|]. intros rest text Hl. rewrite length_app in Hl. simpl in Hl. cbn. by rewrite format_emit_ok by (done || lia).
  - destruct (format_int_ok (if long then to_s64 x else to_s32 x)) as (t & Ht & HE).
    { pose proof (to_s32_range x). pose proof (to_s64_range x). destruct long; lia. }
    exists t. split; [done|]. intros rest text Hl. cbn. by rewrite HE.
  - destruct s as [[s r]|]; cbn.
    + exists s. split; [done|]. intros rest text Hl. unfold format_str. by rewrite format_chars_ok.
    + exists [40; 110; 117; 108; 108; 41]. split; [done|]. intros rest text Hl. unfold format_str. change null_text with (cstr [40; 110; 117; 108; 108; 41] []).
      rewrite format_chars_ok; [done | done | by repeat constructor | done].
  - destruct (format_uint_ok buf size Hsize (if long then to_u64 x else to_u32 x) 10) as (t & Ht & HE); [auto | apply unsigned_range|].
    exists t. split; [done|]. intros rest text Hl. cbn. by rewrite HE.
  - destruct (format_uint_ok buf size Hsize (if long then to_u64 x else to_u32 x) 16) as (t & Ht & HE); [auto | apply unsigned_range|].
    exists t. split; [done|]. intros rest text Hl. destruct upper; cbn; by rewrite HE.
  - exists [37]. split; [done|]. intros rest text Hl. rewrite length_app in Hl. simpl in Hl. cbn. by rewrite format_emit_ok by (done || lia).
  - exists [37; c]. split; [done|]. intros rest text Hl. rewrite length_app in Hl. simpl in Hl. cbn [conv_ok] in Hk. unfold convert.
    rewrite !not_elem_of_cons in Hk. destruct Hk as (_ & _ & H1 & H2 & H3 & H4 & H5 & H6 & H7 & _).
    rewrite (proj2 (Z.eqb_neq _ _) H1), (proj2 (Z.eqb_neq _ _) H2), (proj2 (Z.eqb_neq _ _) H3), (proj2 (Z.eqb_neq _ _) H4),
      (proj2 (Z.eqb_neq _ _) H5), (proj2 (Z.eqb_neq _ _) H6), (proj2 (Z.eqb_neq _ _) H7). cbn [orb].
    rewrite format_emit_ok by (done || lia). cbn [mbind outcome_bind].
    rewrite format_emit_ok by (done || (rewrite length_app; simpl; lia)). by rewrite <- app_assoc.
Qed.

Lemma length_modifier_ok l k fmt :
  (l <= 2)%nat -> conv_ok k ->
  length_modifier (replicate l 108 ++ conv_char k :: fmt) = Ok ((0 <? l)%nat, conv_char k :: fmt).
Proof.
  intros Hl Hk. assert (Hc : conv_char k <> 108).
  { destruct k as [| |[[]|]| |[]| |c]; try done. cbn in *. intros ->. apply Hk. right. left. }
  apply Z.eqb_neq in Hc. destruct l as [|[|[|l]]]; [| | |lia]; unfold length_modifier; simpl; by rewrite ?Hc.
Qed.

(** The loop runs through well-formed directives, one iteration each. *)
Lemma vsnprintf_loop_ok items :
  Forall directive_ok items ->
  exists t, shows items t /\
    forall text fuel rest rargs, Z.of_nat (length (text ++ t)) < 2 ^ 63 ->
      vsnprintf_loop (length items + fuel) (mjoin (map format_of items) ++ rest) (mjoin (map args_of items) ++ rargs) (outp buf size text) =
      vsnprintf_loop fuel rest rargs (outp buf size (text ++ t)).
Proof.
  induction 1 as [|i items Hi _ (t & Ht & HE)].
  { exists []. split; [constructor|]. intros text fuel rest rargs _. by rewrite app_nil_r. }
  destruct i as [c|l k].
  - destruct Hi as [H0 H37]. exists (c :: t). split; [by constructor|].
    intros text fuel rest rargs Hl. rewrite length_app in Hl. simpl in Hl.
    change (mjoin (map format_of (Lit c :: items)) ++ rest) with (c :: mjoin (map format_of items) ++ rest).
    change (mjoin (map args_of (Lit c :: items))) with (mjoin (map args_of items)). cbn [length Nat.add vsnprintf_loop].
    rewrite (proj2 (Z.eqb_neq _ _) H0), (proj2 (Z.eqb_neq _ _) H37). cbn [negb].
    rewrite format_emit_ok by (done || lia). cbn [mbind outcome_bind]. rewrite HE; [by rewrite <- app_assoc|].
    rewrite !length_app. simpl. lia.
  - destruct Hi as [Hl Hk]. destruct (convert_ok (0 <? l)%nat k Hk) as (t1 & Ht1 & HE1). exists (t1 ++ t). split; [by constructor|].
    intros text fuel rest rargs Hlen. rewrite !length_app in Hlen.
    replace (mjoin (map format_of (Conv l k :: items)) ++ rest)
      with (37 :: replicate l 108 ++ conv_char k :: mjoin (map format_of items) ++ rest).
    2: { cbn. f_equal. by rewrite <- !app_assoc. }
    change (mjoin (map args_of (Conv l k :: items)) ++ rargs) with ((conv_args k ++ mjoin (map args_of items)) ++ rargs).
    rewrite <- app_assoc. cbn [length Nat.add vsnprintf_loop]. change (37 =? 0) with false. change (negb (37 =? 37)) with false. cbn iota.
    rewrite length_modifier_ok by done. cbn [mbind outcome_bind]. rewrite HE1 by (rewrite length_app; lia). cbn [mbind outcome_bind].
    rewrite HE; [by rewrite <- app_assoc|]. rewrite !length_app. lia.
Qed.

End directives.

(** ** Whole calls *)

(** The buffer after a call that produced [text]. *)
Definition printed (buf : list Z) (size : Z) (text : list Z) : list Z :=
  if size =? 0 then buf else take (kept_chars size text) text ++ 0 :: drop (S (kept_chars size text)) buf.

Lemma length_items items : Forall directive_ok items -> (length items <= length (mjoin (map format_of items)))%nat.
Proof.
  induction 1 as [|i items Hi _ IH]; [done|]. change (mjoin (map format_of (i :: items))) with (format_of i ++ mjoin (map format_of items)).
  rewrite length_app. destruct i; simpl; lia.
Qed.

Lemma vsnprintf_ok buf size items r rargs :
  0 <= size <= Z.of_nat (length buf) -> Forall directive_ok items ->
  exists t, shows items t /\
    (Z.of_nat (length t) < 2 ^ 31 ->
     vsnprintf buf size (cstr (mjoin (map format_of items)) r) (mjoin (map args_of items) ++ rargs) =
     Ok (Z.of_nat (length t), printed buf size t)).
Proof.
  intros Hsize Hok. destruct (vsnprintf_loop_ok buf size Hsize items Hok) as (t & Ht & HE). exists t. split; [done|]. intros Hl.
  unfold vsnprintf. pose proof (length_items items Hok) as Hi.
  set (fmt := cstr (mjoin (map format_of items)) r).
  replace (S (length fmt)) with (length items + S (length fmt - length items))%nat by (unfold fmt, cstr; rewrite length_app; lia).
  set (fuel := (length fmt - length items)%nat).
  replace (mkOut buf size 0) with (outp buf size []).
  2: { unfold outp, overlay, kept_chars. simpl. done. }
  unfold fmt, cstr. rewrite HE by (simpl; lia). cbn [vsnprintf_loop app]. change (0 =? 0) with true. cbn [mbind outcome_bind outp fo_buf fo_len].
  rewrite length_overlay by done. replace (to_s32 (Z.of_nat (length t))) with (Z.of_nat (length t)).
  2: { unfold to_s32. rewrite Z.mod_small; lia. }
  unfold printed. destruct (Z.eqb_spec size 0) as [->|Hne]; cbn [negb mbind outcome_bind].
  { unfold overlay, kept_chars. simpl. by rewrite Nat.min_0_r. }
  replace (Z.to_nat (if Z.of_nat (length t) <? size then Z.of_nat (length t) else size - 1)) with (kept_chars size t).
  2: { unfold kept_chars. case_bool; lia. }
  assert (Hk : (kept_chars size t < length buf)%nat) by (unfold kept_chars; lia).
  destruct (Nat.ltb_spec (kept_chars size t) (length buf)); [|lia]. cbn [mbind outcome_bind]. do 2 f_equal. unfold overlay.
  assert (Hlk : length (take (kept_chars size t) t) = kept_chars size t) by (rewrite length_take; unfold kept_chars; lia).
  rewrite insert_app_r_alt by lia. rewrite Hlk, Nat.sub_diag. f_equal.
  rewrite (drop_S buf (buf !!! kept_chars size t)) by (apply list_lookup_lookup_total_lt; lia). done.
Qed.

(** A format that ends in a lone percent sign: the terminator is taken for the
    conversion character and the loop goes on behind it. *)
Lemma vsnprintf_trailing_percent buf size items rargs :
  0 <= size <= Z.of_nat (length buf) -> Forall directive_ok items ->
  exists t, shows items t /\
    (Z.of_nat (length t) < 2 ^ 31 ->
     vsnprintf buf size (mjoin (map format_of items) ++ [37; 0]) (mjoin (map args_of items) ++ rargs) = Fault).
Proof.
  intros Hsize Hok. destruct (vsnprintf_loop_ok buf size Hsize items Hok) as (t & Ht & HE). exists t. split; [done|]. intros Hl.
  unfold vsnprintf. pose proof (length_items items Hok) as Hi. set (fmt := mjoin (map format_of items) ++ [37; 0]).
  assert (Hf : length fmt = (length (mjoin (map format_of items)) + 2)%nat) by (unfold fmt; by rewrite length_app).
  replace (S (length fmt)) with (length items + S (S (S (length (mjoin (map format_of items)) - length items))))%nat by lia.
  replace (mkOut buf size 0) with (outp buf size []) by done.
  unfold fmt. rewrite HE by (simpl; lia). cbn [vsnprintf_loop app length_modifier]. change (37 =? 0) with false. change (37 =? 37) with true.
  change (0 =? 108) with false. cbn [negb mbind outcome_bind]. unfold convert.
  change (0 =? 99) with false. change (0 =? 100) with false. change (0 =? 115) with false. change (0 =? 117) with false.
  change (0 =? 120) with false. change (0 =? 88) with false. change (0 =? 37) with false. cbn [orb].
  rewrite format_emit_ok by (done || (simpl; lia)). cbn [mbind outcome_bind].
  rewrite format_emit_ok by (done || (rewrite length_app; simpl; lia)). done.
Qed.

(** ** Reading numbers back *)

Lemma to_s32_ext x y : x mod 2 ^ 32 = y mod 2 ^ 32 -> to_s32 x = to_s32 y.
Proof. intros E. unfold to_s32. f_equal. rewrite (Z.add_mod x), (Z.add_mod y) by lia. by rewrite E. Qed.

Lemma to_s32_mod x : to_s32 x mod 2 ^ 32 = x mod 2 ^ 32.
Proof. unfold to_s32. rewrite Zminus_mod_idemp_l. f_equal. lia. Qed.

Lemma to_s32_mul x y : to_s32 (to_s32 x * y) = to_s32 (x * y).
Proof. apply to_s32_ext. rewrite Z.mul_mod, to_s32_mod, <- Z.mul_mod by lia. done. Qed.

Lemma to_s32_add x y : to_s32 (to_s32 x + y) = to_s32 (x + y).
Proof. apply to_s32_ext. rewrite Z.add_mod, to_s32_mod, <- Z.add_mod by lia. done. Qed.

Lemma decimal_digit c : (exists d, 0 <= d < 10 /\ c = digit_char d) -> is_digit c = true /\ digit_val c = c - 48.
Proof.
  intros (d & Hd & ->). unfold digit_char. rewrite (proj2 (Z.ltb_lt d 10)) by lia. unfold is_digit, digit_val. split.
  - apply andb_true_iff. lia.
  - rewrite (proj2 (Z.ltb_lt _ _)) by lia. done.
Qed.

Lemma atoi_digits_ok text r v :
  Forall (fun c => exists d, 0 <= d < 10 /\ c = digit_char d) text ->
  atoi_digits (cstr text r) (to_s32 v) = Ok (to_s32 (foldl (fun v c => v * 10 + digit_val c) v text), 0 :: r).
Proof.
  intros Hf. revert v. induction Hf as [|c text Hc _ IH]; intros v; [done|]. change (cstr (c :: text) r) with (c :: cstr text r).
  destruct (decimal_digit c Hc) as [Ed Ev]. cbn [atoi_digits foldl]. rewrite Ed, to_s32_mul, to_s32_add, <- Ev. apply IH.
Qed.

(** [atoi] reads what [%d] prints. *)
Lemma atoi_shows_int n text r : - 2 ^ 31 <= n < 2 ^ 31 -> shows_int n text -> atoi (cstr text r) = Ok (Some n).
Proof.
  intros Hn Hs. assert (Hnum : forall v t sign, is_numeral 10 v t -> exists c t', t = c :: t' /\ is_digit c = true /\
      atoi_digits (cstr t r) 0 = Ok (to_s32 v, 0 :: r) /\ 48 <= c <= 57 /\ to_s32 (to_s32 v * sign) = to_s32 (v * sign)).
  { intros v t sign (Hh & Hne & _ & Hf). destruct t as [|c t']; [done|]. exists c, t'. inversion Hf as [|? ? Hc _]; subst.
    destruct (decimal_digit c Hc) as [Ed _]. split_and!; [done | done | | | | apply to_s32_mul].
    - change 0 with (to_s32 0) at 1. by rewrite atoi_digits_ok.
    - unfold is_digit in Ed. lia.
    - unfold is_digit in Ed. lia. }
  unfold shows_int in Hs. unfold atoi. destruct (Z.ltb_spec n 0).
  - destruct Hs as (t & -> & Ht). destruct (Hnum _ _ (-1) Ht) as (c & t' & -> & Ed & Ea & _ & Em).
    change (cstr (45 :: c :: t') r) with (45 :: c :: cstr t' r). change (cstr (c :: t') r) with (c :: cstr t' r) in Ea.
    cbn [skip_space]. change (is_space 45) with false. cbn [mbind outcome_bind atoi_sign]. change (45 =? 45) with true.
    cbn [mbind outcome_bind]. rewrite Ed. cbn [negb]. rewrite Ea. cbn [mbind outcome_bind]. change (0 =? 0) with true. cbn [negb].
    rewrite Em, to_s32_id by lia. do 2 f_equal. lia.
  - destruct (Hnum _ _ 1 Hs) as (c & t' & -> & Ed & Ea & Hc & Em). change (cstr (c :: t') r) with (c :: cstr t' r) in *.
    cbn [skip_space]. replace (is_space c) with false by (unfold is_space; repeat case_bool; lia || done).
    cbn [mbind outcome_bind atoi_sign]. rewrite (proj2 (Z.eqb_neq c 45)), (proj2 (Z.eqb_neq c 43)) by lia. cbn [mbind outcome_bind].
    rewrite Ed. cbn [negb]. rewrite Ea. cbn [mbind outcome_bind]. change (0 =? 0) with true. cbn [negb].
    rewrite Em, to_s32_id by lia. do 2 f_equal. lia.
Qed.

(** A numeral is no longer than its value needs. *)
Lemma foldl_horner_ge base v t :
  2 <= base <= 16 -> 0 <= v -> Forall (fun c => exists d, 0 <= d < base /\ c = digit_char d) t ->
  v * base ^ Z.of_nat (length t) <= foldl (fun v c => v * base + digit_val c) v t.
Proof.
  intros Hb Hv Hf. revert v Hv. induction Hf as [|c t (d & Hd & ->) _ IH]; intros v Hv; [simpl; lia|]. cbn [length foldl].
  rewrite digit_val_char, Nat2Z.inj_succ, Z.pow_succ_r by lia.
  specialize (IH (v * base + d) ltac:(nia)). pose proof (Z.pow_nonneg base (Z.of_nat (length t)) ltac:(lia)). nia.
Qed.

Lemma numeral_length base v t k :
  2 <= base <= 16 -> is_numeral base v t -> v < base ^ Z.of_nat k -> (0 < k)%nat -> (length t <= k)%nat.
Proof.
  intros Hb (Hh & Hne & Hz & Hf) Hv Hk. destruct t as [|c t]; [done|]. inversion Hf as [|? ? (d & Hd & ->) Hf']; subst.
  destruct (decide (d = 0)) as [->|Hd0]; [by rewrite (Hz eq_refl)|]. unfold horner in Hv. cbn [foldl] in Hv.
  rewrite digit_val_char in Hv by lia. pose proof (foldl_horner_ge base d t Hb ltac:(lia) Hf') as Hge. rewrite Z.mul_0_l, Z.add_0_l in Hv.
  assert (Hlt : base ^ Z.of_nat (length t) < base ^ Z.of_nat k).
  { pose proof (Z.pow_nonneg base (Z.of_nat (length t)) ltac:(lia)). nia. }
  apply Z.pow_lt_mono_r_iff in Hlt; simpl; lia.
Qed.

Lemma shows_int_length n t : - 2 ^ 31 <= n < 2 ^ 31 -> shows_int n t -> (length t <= 11)%nat.
Proof.
  intros Hn. unfold shows_int. destruct (Z.ltb_spec n 0).
  - intros (t' & -> & Ht). apply (numeral_length 10 _ _ 10) in Ht; [simpl; lia | lia | | lia]. change (10 ^ Z.of_nat 10) with 10000000000. lia.
  - intros Ht. apply (numeral_length 10 _ _ 11) in Ht; [done | lia | | lia]. change (10 ^ Z.of_nat 11) with 100000000000. lia.
Qed.

(** ** Properties *)

(** C34. [vsnprintf], for every format made of well-formed directives (plain
    characters, and the conversions c, d, s, u, x, X, percent and unknown ones
    with up to two letters l) and every buffer of at least [size] bytes: it
    returns the length of the text the directives denote - numbers in
    positional notation without leading zeros, with their sign - and leaves in
    the buffer the text, cut to [size - 1] characters, and a terminator, and
    nothing else changed. *)
Theorem vsnprintf_correct buf size items r rargs :
  0 <= size <= Z.of_nat (length buf) -> Forall directive_ok items ->
  exists t, shows items t /\
    (Z.of_nat (length t) < 2 ^ 31 ->
     vsnprintf buf size (cstr (mjoin (map format_of items)) r) (mjoin (map args_of items) ++ rargs) =
     Ok (Z.of_nat (length t), printed buf size t)).
Proof. apply vsnprintf_ok. Qed.

Lemma vsnprintf_correct_witness :
  exists t, shows [Lit 110; Lit 61; Conv 1 (CInt (-42)); Conv 0 (CHex true 255)] t /\
    (Z.of_nat (length t) < 2 ^ 31 ->
     vsnprintf (replicate 6 7) 6 (cstr [110; 61; 37; 108; 100; 37; 88] []) [VInt (-42); VInt 255] = Ok (Z.of_nat (length t), printed (replicate 6 7) 6 t)).
Proof.
  apply (vsnprintf_correct (replicate 6 7) 6 [Lit 110; Lit 61; Conv 1 (CInt (-42)); Conv 0 (CHex true 255)] [] []); [done|].
  repeat constructor; done.
Defined.

(** Printing and reading numbers are inverse: [atoi] of what [vsnprintf]
    writes for "%d" into a buffer of at least 12 bytes is the number, for
    every [int], the smallest included. *)
Theorem print_parse_int buf n :
  (12 <= length buf)%nat -> - 2 ^ 31 <= n < 2 ^ 31 ->
  exists len buf', vsnprintf buf (Z.of_nat (length buf)) (cstr [37; 100] []) [VInt n] = Ok (len, buf') /\ atoi buf' = Ok (Some n).
Proof.
  intros Hl Hn. destruct (vsnprintf_ok buf (Z.of_nat (length buf)) [Conv 0 (CInt n)] [] []) as (t & Ht & HE); [lia | repeat constructor; lia|].
  inversion Ht as [| |? ? ? t1 ? Hc Hnil]; subst. inversion Hnil; subst. rewrite app_nil_r in *. cbn in Hc. rewrite to_s32_id in Hc by done.
  pose proof (shows_int_length n t1 Hn Hc) as H11. eexists _, _. split; [apply HE; lia|].
  unfold printed, kept_chars. rewrite (proj2 (Z.eqb_neq _ _)) by lia. rewrite Nat.min_l, take_ge by lia. by apply atoi_shows_int.
Qed.

Lemma print_parse_int_witness :
  exists len buf', vsnprintf (replicate 12 7) 12 (cstr [37; 100] []) [VInt (- 2 ^ 31)] = Ok (len, buf') /\ atoi buf' = Ok (Some (- 2 ^ 31)).
Proof. apply (print_parse_int (replicate 12 7) (- 2 ^ 31)); [simpl; lia | lia]. Defined.

(** A format string that ends in a lone percent sign makes [vsnprintf]
    read past its terminator. *)
Theorem format_trailing_percent buf size items rargs :
  0 <= size <= Z.of_nat (length buf) -> Forall directive_ok items ->
  exists t, shows items t /\
    (Z.of_nat (length t) < 2 ^ 31 ->
     vsnprintf buf size (mjoin (map format_of items) ++ [37; 0]) (mjoin (map args_of items) ++ rargs) = Fault).
Proof. apply vsnprintf_trailing_percent. Qed.

Lemma format_trailing_percent_witness :
  exists t, shows [Lit 53; Lit 48] t /\ (Z.of_nat (length t) < 2 ^ 31 -> vsnprintf [1; 2; 3; 4] 4 [53; 48; 37; 0] [] = Fault).
Proof. apply (format_trailing_percent [1; 2; 3; 4] 4 [Lit 53; Lit 48] []); [done | repeat constructor; done]. Defined.
