(* ===== verification/UserLib.v ===== *)
(** * The user library

    user/lib/string.c and user/lib/stdio.c.  Pointers into strings are lists,
    as in KString.v.  [write] is a system call: what it returns for the bytes it
    is given is a parameter; the bytes are appended to the output. *)

From S2P Require Import Prelude KString Printf.

(** ** Strings *)

Fixpoint strlen (str : list Z) : outcome Z :=
  match str with
  | [] => Fault
  | c :: str => if c =? 0 then Ok 0 else n ← strlen str; Ok (n + 1)
  end.

Fixpoint strcmp (lhs rhs : list Z) : outcome Z :=
  match lhs, rhs with
  | a :: lhs, b :: rhs => if negb (a =? 0) && (a =? b) then strcmp lhs rhs else Ok (a - b)
  | _, _ => Fault
  end.

Definition isspace (c : Z) : bool :=
  (c =? 32) || (c =? 9) || (c =? 10) || (c =? 11) || (c =? 12) || (c =? 13).

Fixpoint strtol_space (str : list Z) : outcome (list Z) :=
  match str with
  | [] => Fault
  | c :: str' => if isspace c then strtol_space str' else Ok str
  end.

Definition strtol_digit (c : Z) : option Z :=
  if (48 <=? c) && (c <=? 57) then Some (c - 48)
  else if (97 <=? c) && (c <=? 122) then Some (c - 97 + 10)
  else if (65 <=? c) && (c <=? 90) then Some (c - 65 + 10)
  else None.

(** The value, a [long] that wraps around, and how many digits were read. *)
Fixpoint strtol_digits (str : list Z) (base value : Z) : outcome (Z * nat) :=
  match str with
  | [] => Fault
  | c :: str =>
      if c =? 0 then Ok (value, 0%nat) else
      match strtol_digit c with
      | None => Ok (value, 0%nat)
      | Some digit =>
          if base <=? digit then Ok (value, 0%nat) else
          '(v, n) ← strtol_digits str base (to_s64 (to_s64 (value * base) + digit));
          Ok (v, S n)
      end
  end.

(** The value and the index [*endptr] points to. *)
Definition strtol (nptr : list Z) (base : Z) : outcome (Z * nat) :=
  s ← strtol_space nptr;
  '(sign, s) ← atoi_sign s;
  let base := if base =? 0 then 10 else base in
  '(value, n) ← strtol_digits s base 0;
  Ok (to_s64 (value * sign), if (n =? 0)%nat then 0%nat else (length nptr - length s + n)%nat).

(** The first [n] bytes a pointer reaches. *)
Fixpoint read_bytes (p : list Z) (n : nat) {struct n} : outcome (list Z) :=
  match n, p with
  | O, _ => Ok []
  | S n, c :: p => r ← read_bytes p n; Ok (c :: r)
  | S _, [] => Fault
  end.

(** [granted] is whether [malloc] returns memory; the result is the new string,
    or NULL. *)
Definition str_concat (granted : bool) (str1 str2 : list Z) : outcome (option (list Z)) :=
  len1 ← strlen str1;
  len2 ← strlen str2;
  if negb granted then Ok None else
  a ← read_bytes str1 (Z.to_nat len1);
  b ← read_bytes str2 (Z.to_nat len2);
  Ok (Some (a ++ b ++ [0])).

Definition str_copy (granted : bool) (str : list Z) : outcome (option (list Z)) :=
  len ← strlen str;
  if negb granted then Ok None else
  a ← read_bytes str (Z.to_nat len + 1);
  Ok (Some a).

(** ** [printf] *)

Section stdio.
Context (write_ret : list Z -> Z).

(** The output so far. *)
Abbreviation UM := (stM (list Z)).

Definition write (bytes : list Z) : UM Z := fun out => Ok (write_ret bytes, out ++ bytes).

Definition of_outcome {A} (o : outcome A) : UM A := fun out =>
  match o with Ok a => Ok (a, out) | Fatal => Fatal | Fault => Fault | Hang => Hang end.

Definition print_char (c : Z) : UM Z := write [c].

Definition print_str (s : option (list Z)) : UM Z :=
  let s := match s with None => null_text | Some s => s end in
  len ← of_outcome (strlen s);
  bytes ← of_outcome (read_bytes s (Z.to_nat len));
  write bytes.

(** [while (i > 0) written += print_char(buf[--i])] *)
Fixpoint print_digits (ds : list Z) : UM Z :=
  match ds with
  | [] => mret 0
  | d :: ds => w ← print_digits ds; r ← print_char d; mret (to_s32 (w + r))
  end.

Definition print_uint (value base : Z) : UM Z :=
  if value =? 0 then print_char 48 else
  ds ← of_outcome (uint_digits FORMAT_BUF value base);
  print_digits ds.

(** [-value] is computed as an [int]. *)
Definition print_int (value : Z) : UM Z :=
  if value <? 0 then
    _ ← print_char 45;
    r ← print_uint (to_u64 (to_s32 (- value))) 10;
    mret (to_s32 (1 + r))
  else print_uint (to_u64 value) 10.

Definition print_conv (c : Z) (args : list va_list_arg) : UM (Z * list va_list_arg) :=
  if c =? 115 then '(s, args) ← of_outcome (va_ptr args); r ← print_str s; mret (r, args)
  else if c =? 100 then '(x, args) ← of_outcome (va_int args); r ← print_int (to_s32 x); mret (r, args)
  else if c =? 117 then '(x, args) ← of_outcome (va_int args); r ← print_uint (to_u32 x) 10; mret (r, args)
  else if (c =? 120) || (c =? 88) then '(x, args) ← of_outcome (va_int args); r ← print_uint (to_u32 x) 16; mret (r, args)
  else if c =? 37 then r ← print_char 37; mret (r, args)
  else r1 ← print_char 37; r2 ← print_char c; mret (to_s32 (r1 + r2), args).

Fixpoint printf_loop (fuel : nat) (fmt : list Z) (args : list va_list_arg) (written : Z) : UM Z :=
  match fuel with
  | O => hang
  | S fuel =>
      match fmt with
      | [] => fault
      | c :: fmt =>
          if c =? 0 then mret written else
          if negb (c =? 37) then r ← print_char c; printf_loop fuel fmt args (to_s32 (written + r)) else
          match fmt with
          | [] => fault
          | c :: fmt => '(r, args) ← print_conv c args; printf_loop fuel fmt args (to_s32 (written + r))
          end
      end
  end.

Definition printf (fmt : list Z) (args : list va_list_arg) : UM Z := printf_loop (S (length fmt)) fmt args 0.

Definition puts (s : option (list Z)) : UM Z :=
  w ← print_str s;
  r ← print_char 10;
  mret (to_s32 (w + r)).

End stdio.

(** ** What the library prints *)

Section output.
Context (write_ret : list Z -> Z) (Hwrite : forall bytes, write_ret bytes = Z.of_nat (length bytes)).

(** [prints m t]: [m] writes [t] and returns its length. *)
Definition prints (m : stM (list Z) Z) (t : list Z) : Prop := forall out, m out = Ok (Z.of_nat (length t), out ++ t).

Lemma prints_write bytes : prints (write write_ret bytes) bytes.
Proof. intros out. unfold write. by rewrite Hwrite. Qed.

Lemma read_bytes_app s r : read_bytes (s ++ r) (length s) = Ok s.
Proof. induction s as [|c s IH]; [done|]. cbn. by rewrite IH. Qed.

Lemma user_strlen_cstr s r : no_nul s -> strlen (cstr s r) = Ok (Z.of_nat (length s)).
Proof. apply strlen_cstr. Qed.

Lemma prints_str s r : no_nul s -> prints (print_str write_ret (Some (cstr s r))) s.
Proof.
  intros Hs out. unfold print_str, of_outcome, mbind, stM_bind. rewrite user_strlen_cstr, Nat2Z.id by done.
  unfold cstr. rewrite read_bytes_app. apply prints_write.
Qed.

Lemma prints_digits ds : Z.of_nat (length ds) < 2 ^ 31 -> prints (print_digits write_ret ds) (reverse ds).
Proof.
  induction ds as [|d ds IH]; intros Hl out; [cbn; by rewrite app_nil_r|]. simpl in Hl. cbn [print_digits].
  rewrite (bind_ok _ _ _ _ _ (IH ltac:(lia) out)), (bind_ok _ _ _ _ _ (prints_write [d] _)).
  rewrite reverse_cons, !length_app, length_reverse, <- app_assoc. cbn [length]. unfold mret, stM_ret. do 2 f_equal.
  rewrite to_s32_id by lia. lia.
Qed.

Lemma length_uint_digits room v base ds : uint_digits room v base = Ok ds -> (length ds <= room)%nat.
Proof.
  revert v ds. induction room as [|room IH]; intros v ds; cbn [uint_digits]; [by intros [= <-]|].
  destruct (v =? 0); [intros [= <-]; simpl; lia|]. destruct (digits !! _); [|done]. cbn [checked mbind outcome_bind].
  destruct (uint_digits room (v / base) base) as [ds'| | |] eqn:E; try done. intros [= <-]. specialize (IH _ _ E). simpl. lia.
Qed.

Lemma prints_uint v base :
  (base = 10 \/ base = 16) -> 0 <= v < 2 ^ 64 ->
  exists t, is_numeral base v t /\ prints (print_uint write_ret v base) t /\ (length t <= FORMAT_BUF)%nat.
Proof.
  intros Hb Hv. unfold print_uint. destruct (Z.eqb_spec v 0) as [->|Hne].
  { exists [48]. split_and!; [| apply prints_write | unfold FORMAT_BUF; simpl; lia].
    split_and!; [done | done | done |]. constructor; [|done]. exists 0. split; [lia | done]. }
  destruct (uint_digits_ok FORMAT_BUF v base) as (ds & E & Hh & Hf & _ & Hnz).
  { lia. } { split; [lia|]. destruct Hb as [->| ->]; (eapply Z.lt_trans; [apply Hv | done]). }
  pose proof (length_uint_digits _ _ _ _ E) as Hlen. destruct (Hnz Hne) as (ds' & c & -> & Hc).
  exists (reverse (ds' ++ [c])). rewrite length_reverse. split_and!; [| |done].
  - rewrite reverse_snoc in *. split_and!; [done | done | by intros ?|]. rewrite <- reverse_snoc. by apply Forall_reverse.
  - intros out. rewrite E. unfold of_outcome. unfold mbind, stM_bind. apply prints_digits. unfold FORMAT_BUF in *. lia.
Qed.

Lemma prints_int n :
  - 2 ^ 31 < n < 2 ^ 31 -> exists t, shows_int n t /\ prints (print_int write_ret n) t /\ (length t <= S FORMAT_BUF)%nat.
Proof.
  intros Hn. unfold print_int, shows_int. destruct (Z.ltb_spec n 0).
  - rewrite to_s32_id by lia. unfold to_u64. rewrite wrap_small by lia.
    destruct (prints_uint (- n) 10) as (t & Ht & HE & Hl); [auto | lia|]. exists (45 :: t). split_and!; [by exists t | | simpl; lia].
    intros out. rewrite (bind_ok _ _ _ _ _ (prints_write [45] _)), (bind_ok _ _ _ _ _ (HE _)). unfold mret, stM_ret.
    rewrite <- app_assoc. do 2 f_equal. unfold FORMAT_BUF in *. cbn [length]. rewrite to_s32_id by lia. lia.
  - unfold to_u64. rewrite wrap_small by lia. destruct (prints_uint n 10) as (t & Ht & HE & Hl); [auto | lia|]. exists t. split_and!; [done | done | lia].
Qed.

(** The smallest [int]: its negation wraps around and is sign-extended. *)
Lemma print_int_min out :
  exists t, is_numeral 10 (2 ^ 64 - 2 ^ 31) t /\ print_int write_ret (- 2 ^ 31) out = Ok (1 + Z.of_nat (length t), out ++ 45 :: t).
Proof.
  destruct (prints_uint (2 ^ 64 - 2 ^ 31) 10) as (t & Ht & HE & Hl); [auto | lia|]. exists t. split; [done|]. unfold print_int.
  change (- 2 ^ 31 <? 0) with true. cbn iota. change (to_u64 (to_s32 (- - 2 ^ 31))) with (2 ^ 64 - 2 ^ 31).
  rewrite (bind_ok _ _ _ _ _ (prints_write [45] _)), (bind_ok _ _ _ _ _ (HE _)). unfold mret, stM_ret. rewrite <- app_assoc.
  do 2 f_equal. unfold FORMAT_BUF in *. apply to_s32_id. lia.
Qed.

(** The directives the library knows; every other conversion character is
    printed as it is. *)
Definition user_directive_ok (i : directive) : Prop :=
  match i with
  | Lit c => c <> 0 /\ c <> 37
  | Conv l k =>
      l = 0%nat /\
      match k with
      | CChar _ => False
      | CInt x => to_s32 x <> - 2 ^ 31
      | CStr (Some (s, _)) => no_nul s /\ Z.of_nat (length s) < 2 ^ 31
      | COther c => c ∉ [0; 115; 100; 117; 120; 88; 37]
      | _ => True
      end
  end.

Lemma print_conv_ok k rest :
  user_directive_ok (Conv 0 k) ->
  exists t, shows_conv false k t /\ Z.of_nat (length t) < 2 ^ 31 /\
    forall out, print_conv write_ret (conv_char k) (conv_args k ++ rest) out = Ok ((Z.of_nat (length t), rest), out ++ t).
Proof.
  assert (Hlift : forall (m : stM (list Z) Z) t, prints m t ->
            forall out, (r ← m; mret (r, rest)) out = Ok ((Z.of_nat (length t), rest), out ++ t)).
  { intros m t Hm out. by rewrite (bind_ok _ _ _ _ _ (Hm out)). }
  intros [_ Hk]. destruct k as [x|x|s|x|upper x| |c]; cbn [shows_conv conv_char conv_args app].
  - done.
  - destruct (prints_int (to_s32 x)) as (t & Ht & HE & Hl); [pose proof (to_s32_range x); lia|]. exists t.
    split_and!; [done | unfold FORMAT_BUF in Hl; lia |]. intros out. by apply (Hlift _ _ HE).
  - destruct s as [[s r]|].
    + destruct Hk as [Hs Hl]. exists s. split_and!; [done | done |]. intros out. by apply (Hlift _ _ (prints_str s r Hs)).
    + exists [40; 110; 117; 108; 108; 41]. split_and!; [done | done |]. intros out.
      apply (Hlift _ _ (prints_str [40; 110; 117; 108; 108; 41] [] ltac:(by repeat constructor)) out).
  - destruct (prints_uint (to_u32 x) 10) as (t & Ht & HE & Hl); [auto | apply (unsigned_range false)|]. exists t.
    split_and!; [done | unfold FORMAT_BUF in Hl; lia |]. intros out. by apply (Hlift _ _ HE).
  - destruct (prints_uint (to_u32 x) 16) as (t & Ht & HE & Hl); [auto | apply (unsigned_range false)|]. exists t.
    split_and!; [done | unfold FORMAT_BUF in Hl; lia |]. intros out. destruct upper; by apply (Hlift _ _ HE).
  - exists [37]. split_and!; [done | done |]. intros out. by apply (Hlift _ _ (prints_write [37])).
  - exists [37; c]. split_and!; [done | done |]. intros out. unfold print_conv.
    rewrite !not_elem_of_cons in Hk. destruct Hk as (_ & H1 & H2 & H3 & H4 & H5 & H6 & _).
    rewrite (proj2 (Z.eqb_neq _ _) H1), (proj2 (Z.eqb_neq _ _) H2), (proj2 (Z.eqb_neq _ _) H3), (proj2 (Z.eqb_neq _ _) H4),
      (proj2 (Z.eqb_neq _ _) H5), (proj2 (Z.eqb_neq _ _) H6). cbn [orb].
    rewrite (bind_ok _ _ _ _ _ (prints_write [37] _)), (bind_ok _ _ _ _ _ (prints_write [c] _)). unfold mret, stM_ret.
    by rewrite <- app_assoc.
Qed.

Lemma printf_loop_ok items r :
  Forall user_directive_ok items ->
  exists t, shows items t /\
    forall fuel written out, (length items < fuel)%nat -> 0 <= written -> written + Z.of_nat (length t) < 2 ^ 31 ->
      printf_loop write_ret fuel (cstr (mjoin (map format_of items)) r) (mjoin (map args_of items)) written out =
      Ok (written + Z.of_nat (length t), out ++ t).
Proof.
  induction 1 as [|i items Hi _ (t & Ht & HE)].
  { exists []. split; [constructor|]. intros [|fuel] written out Hf Hw Hl; [simpl in Hf; lia|]. cbn. unfold mret, stM_ret. by rewrite Z.add_0_r, app_nil_r. }
  destruct i as [c|l k].
  - destruct Hi as [H0 H37]. exists (c :: t). split; [by constructor|]. intros [|fuel] written out Hf Hw Hl; simpl in Hf, Hl; [lia|].
    change (cstr (mjoin (map format_of (Lit c :: items))) r) with (c :: cstr (mjoin (map format_of items)) r).
    change (mjoin (map args_of (Lit c :: items))) with (mjoin (map args_of items)). cbn [printf_loop].
    rewrite (proj2 (Z.eqb_neq _ _) H0), (proj2 (Z.eqb_neq _ _) H37). cbn [negb].
    rewrite (bind_ok _ _ _ _ _ (prints_write [c] _)). cbn [length]. rewrite to_s32_id, HE by lia. rewrite <- app_assoc. do 2 f_equal. simpl. lia.
  - pose proof Hi as [-> _]. destruct (print_conv_ok k (mjoin (map args_of items)) Hi) as (t1 & Ht1 & Hl1 & HE1).
    exists (t1 ++ t). split; [by constructor|]. intros [|fuel] written out Hf Hw Hl; simpl in Hf; [lia|]. rewrite length_app in Hl |- *.
    change (cstr (mjoin (map format_of (Conv 0 k :: items))) r) with (37 :: conv_char k :: cstr (mjoin (map format_of items)) r).
    change (mjoin (map args_of (Conv 0 k :: items))) with (conv_args k ++ mjoin (map args_of items)). cbn [printf_loop].
    change (37 =? 0) with false. change (37 =? 37) with true. cbn [negb]. rewrite (bind_ok _ _ _ _ _ (HE1 _)).
    rewrite to_s32_id, HE by lia. rewrite <- app_assoc. do 2 f_equal. lia.
Qed.

End output.

(** ** Reading numbers back *)

Lemma to_s64_ext x y : x mod 2 ^ 64 = y mod 2 ^ 64 -> to_s64 x = to_s64 y.
Proof. intros E. unfold to_s64. f_equal. rewrite (Z.add_mod x), (Z.add_mod y) by lia. by rewrite E. Qed.

Lemma to_s64_mod x : to_s64 x mod 2 ^ 64 = x mod 2 ^ 64.
Proof. unfold to_s64. rewrite Zminus_mod_idemp_l. f_equal. lia. Qed.

Lemma to_s64_mul x y : to_s64 (to_s64 x * y) = to_s64 (x * y).
Proof. apply to_s64_ext. rewrite Z.mul_mod, to_s64_mod, <- Z.mul_mod by lia. done. Qed.

Lemma to_s64_add x y : to_s64 (to_s64 x + y) = to_s64 (x + y).
Proof. apply to_s64_ext. rewrite Z.add_mod, to_s64_mod, <- Z.add_mod by lia. done. Qed.

Lemma strtol_digit_char base d : 2 <= base <= 16 -> 0 <= d < base ->
  digit_char d <> 0 /\ isspace (digit_char d) = false /\ strtol_digit (digit_char d) = Some d.
Proof.
  intros Hb Hd. rewrite <- (Z2Nat.id d) by lia. assert (Hn : (Z.to_nat d < 16)%nat) by lia.
  revert Hn. generalize (Z.to_nat d) as n. intros n Hn. do 16 (destruct n as [|n]; [done|]). lia.
Qed.

Lemma strtol_digits_ok base text r v :
  2 <= base <= 16 -> Forall (fun c => exists d, 0 <= d < base /\ c = digit_char d) text ->
  strtol_digits (cstr text r) base (to_s64 v) = Ok (to_s64 (foldl (fun v c => v * base + digit_val c) v text), length text).
Proof.
  intros Hb Hf. revert v. induction Hf as [|c text (d & Hd & ->) _ IH]; intros v; [done|].
  change (cstr (digit_char d :: text) r) with (digit_char d :: cstr text r). destruct (strtol_digit_char base d Hb Hd) as (H0 & _ & Ed).
  cbn [strtol_digits foldl length]. rewrite (proj2 (Z.eqb_neq _ _) H0), Ed, (proj2 (Z.leb_gt base d)) by lia.
  rewrite to_s64_mul, to_s64_add, digit_val_char by lia. by rewrite IH.
Qed.

(** [strtol] reads decimal numerals with their sign, up to their end. *)
Lemma strtol_shows_int n text r base :
  - 2 ^ 63 <= n < 2 ^ 63 -> base = 0 \/ base = 10 -> shows_int n text -> strtol (cstr text r) base = Ok (n, length text).
Proof.
  intros Hn Hbase Hs.
  assert (Hnum : forall v t, is_numeral 10 v t -> exists d t', t = digit_char d :: t' /\ 0 <= d < 10 /\
      strtol_digits (cstr t r) 10 0 = Ok (to_s64 v, length t)).
  { intros v t (Hh & Hne & _ & Hf). destruct t as [|c t']; [done|]. pose proof Hf as Hf'. inversion Hf' as [|? ? (d & Hd & ->) _]; subst.
    exists d, t'. split_and!; [done | lia | lia |]. change 0 with (to_s64 0) at 1. by rewrite strtol_digits_ok by (lia || done). }
  assert (Hb : (if base =? 0 then 10 else base) = 10) by (by destruct Hbase as [->| ->]).
  unfold shows_int in Hs. unfold strtol. destruct (Z.ltb_spec n 0).
  - destruct Hs as (t & -> & Ht). destruct (Hnum _ _ Ht) as (d & t' & -> & Hd & Ea).
    change (cstr (45 :: digit_char d :: t') r) with (45 :: cstr (digit_char d :: t') r). cbn [strtol_space]. change (isspace 45) with false.
    cbn [mbind outcome_bind atoi_sign]. change (45 =? 45) with true. cbn [mbind outcome_bind]. rewrite Hb, Ea. cbn [mbind outcome_bind].
    rewrite to_s64_mul. do 2 f_equal; [rewrite to_s64_id; lia|]. cbn [length Nat.eqb]. lia.
  - destruct (Hnum _ _ Hs) as (d & t' & -> & Hd & Ea). destruct (strtol_digit_char 10 d) as (H0 & Hsp & Ed); [lia | done|].
    change (cstr (digit_char d :: t') r) with (digit_char d :: cstr t' r) in *. cbn [strtol_space]. rewrite Hsp.
    assert (Hc : 48 <= digit_char d) by (unfold digit_char; case_bool; lia).
    cbn [mbind outcome_bind atoi_sign]. rewrite (proj2 (Z.eqb_neq _ 45)), (proj2 (Z.eqb_neq _ 43)) by lia. cbn [mbind outcome_bind].
    rewrite Hb, Ea. cbn [mbind outcome_bind]. rewrite to_s64_mul. do 2 f_equal; [rewrite to_s64_id; lia|]. cbn [length Nat.eqb]. lia.
Qed.

(** ** Properties *)

(** The user library's [printf] writes to file 1 exactly the text its
    format denotes - the text the kernel's [vsnprintf] is specified by - and
    returns its length, for every format made of characters, d, s, u, x, X and
    percent conversions (and unknown ones, copied), when every [write] is
    complete; but for the smallest [int] it prints the magnitude 2^64 - 2^31. *)
Theorem user_printf_correct write_ret items r :
  (forall bytes, write_ret bytes = Z.of_nat (length bytes)) -> Forall user_directive_ok items ->
  (exists t, shows items t /\
     forall out, Z.of_nat (length t) < 2 ^ 31 ->
       printf write_ret (cstr (mjoin (map format_of items)) r) (mjoin (map args_of items)) out = Ok (Z.of_nat (length t), out ++ t)) /\
  (forall out, exists t, is_numeral 10 (2 ^ 64 - 2 ^ 31) t /\
     printf write_ret (cstr [37; 100] r) [VInt (- 2 ^ 31)] out = Ok (1 + Z.of_nat (length t), out ++ 45 :: t)).
Proof.
  intros Hw Hok. split.
  - destruct (printf_loop_ok write_ret Hw items r Hok) as (t & Ht & HE). exists t. split; [done|]. intros out Hl. apply HE; [|lia | lia].
    clear -Hok. assert (H : (length items <= length (mjoin (map format_of items)))%nat); [|unfold cstr; rewrite length_app; simpl; lia].
    induction Hok as [|i items Hi _ IH]; [done|]. change (mjoin (map format_of (i :: items))) with (format_of i ++ mjoin (map format_of items)).
    rewrite length_app. destruct i; simpl; lia.
  - intros out. destruct (print_int_min write_ret Hw out) as (t & Ht & HE). exists t. split; [done|]. unfold printf, cstr. cbn [app length printf_loop].
    change (37 =? 0) with false. change (37 =? 37) with true. cbn [negb]. unfold print_conv. change (100 =? 115) with false. change (100 =? 100) with true. cbn iota.
    assert (HC : (r0 ← print_int write_ret (to_s32 (- 2 ^ 31)); mret (r0, @nil va_list_arg)) out = Ok ((1 + Z.of_nat (length t), []), out ++ 45 :: t))
      by (by rewrite (bind_ok _ _ _ _ _ HE)).
    rewrite (bind_ok _ _ _ _ _ HC). change (0 =? 0) with true. cbn iota. unfold mret, stM_ret. do 2 f_equal. apply to_s32_id. pose proof (numeral_length 10 _ _ 20 ltac:(lia) Ht ltac:(done) ltac:(lia)). lia.
Qed.

Lemma user_printf_correct_witness :
  exists t, shows [Lit 120; Conv 0 (CInt (-7)); Conv 0 (COther 99)] t /\
    forall out, Z.of_nat (length t) < 2 ^ 31 ->
      printf (fun b => Z.of_nat (length b)) (cstr [120; 37; 100; 37; 99] []) [VInt (-7)] out = Ok (Z.of_nat (length t), out ++ t).
Proof.
  apply (user_printf_correct (fun b => Z.of_nat (length b)) [Lit 120; Conv 0 (CInt (-7)); Conv 0 (COther 99)] []); [done|].
  constructor; [done|]. constructor; [split; done|]. constructor; [|done]. split; [done|]. apply (bool_decide_unpack _). done.
Defined.

(** The string helpers: [str_concat] and [str_copy] return freshly the
    terminated concatenation and copy of their arguments, [strcmp] decides
    equality, and [strtol] reads every [long] back from its decimal numeral,
    stopping at its end. *)
Theorem user_strings_correct s t r r' :
  Forall (fun c => 0 < c) s -> Forall (fun c => 0 < c) t ->
  str_concat true (cstr s r) (cstr t r') = Ok (Some (cstr (s ++ t) [])) /\
  str_copy true (cstr s r) = Ok (Some (cstr s [])) /\
  (exists d, strcmp (cstr s r) (cstr t r') = Ok d /\ (d = 0 <-> s = t)) /\
  (forall n text, - 2 ^ 63 <= n < 2 ^ 63 -> shows_int n text -> strtol (cstr text r) 10 = Ok (n, length text)).
Proof.
  intros Hs Ht. assert (Hn : forall l, Forall (fun c => 0 < c) l -> no_nul l) by (intros l Hl; eapply Forall_impl; [exact Hl | simpl; lia]).
  split_and!.
  - unfold str_concat. rewrite !user_strlen_cstr by auto. cbn [mbind outcome_bind negb]. rewrite !Nat2Z.id. unfold cstr. rewrite !read_bytes_app.
    cbn [mbind outcome_bind]. by rewrite app_assoc.
  - unfold str_copy. rewrite user_strlen_cstr by auto. cbn [mbind outcome_bind negb]. rewrite Nat2Z.id.
    replace (cstr s r) with ((s ++ [0]) ++ r) by (unfold cstr; by rewrite <- app_assoc).
    replace (length s + 1)%nat with (length (s ++ [0])) by (by rewrite length_app). by rewrite read_bytes_app.
  - destruct (strcmp_cstr s t r r' Hs Ht) as (d & E & Hd & _). by exists d.
  - intros n text Hr Hi. apply strtol_shows_int; auto.
Qed.

Lemma user_strings_correct_witness : str_concat true (cstr [97] [9]) (cstr [98; 99] []) = Ok (Some [97; 98; 99; 0]).
Proof. apply (user_strings_correct [97] [98; 99] [9] []); repeat constructor; done. Defined.
