(* ===== verification/Programs.v ===== *)
(** * Programs that wait

    A system call of this kernel is not one step: it gives up the CPU in
    [schedule_yield] and goes on, perhaps on another CPU, when the scheduler
    picks its thread again; and it can be overtaken by the other CPUs whenever
    it holds no lock.  [prog] is the type of such code: a function of the CPU it
    runs on and of the state, whose result is either a value or a point where
    it waits, with the rest of the program.

    [safe I Q r] says that [r] keeps the invariant [I] whenever it waits, as
    long as the rest of the system does, never crashes, and ends with [Q]. *)

From S2P Require Import Prelude.

Inductive res (S A : Type) : Type :=
  | Returned (a : A) (me : nat) (s : S)
  | Crashed (o : outcome Empty_set)
  | Waiting (s : S) (k : nat -> S -> res S A)
  | Unfinished (s : S).

Arguments Returned {S A} a me s.
Arguments Crashed {S A} o.
Arguments Waiting {S A} s k.
Arguments Unfinished {S A} s.

Definition prog (S A : Type) : Type := nat -> S -> res S A.

Fixpoint res_bind {S A B} (f : A -> prog S B) (r : res S A) : res S B :=
  match r with
  | Returned a me s => f a me s
  | Crashed o => Crashed o
  | Waiting s k => Waiting s (fun me s => res_bind f (k me s))
  | Unfinished s => Unfinished s
  end.

#[export] Instance prog_ret {S} : MRet (prog S) := fun A a me s => Returned a me s.
#[export] Instance prog_bind {S} : MBind (prog S) := fun A B f m me s => res_bind f (m me s).

Section prog.
Context {S : Type}.

(** Code that does not wait. *)
Definition atomic {A} (m : stM S A) : prog S A := fun me s =>
  match m s with
  | Ok (a, s') => Returned a me s'
  | Fatal => Crashed Fatal
  | Fault => Crashed Fault
  | Hang => Crashed Hang
  end.

(** The CPU the code runs on. *)
Definition this_cpu : prog S nat := fun me s => Returned me me s.

(** A point where the other CPUs may overtake. *)
Definition pause : prog S unit := fun me s => Waiting s (fun me s => Returned tt me s).

(** [while (1) { wfe }] *)
Definition spin_forever {A} : prog S A := fun _ _ => Crashed Hang.

(** [while] with a body that may wait, cut off after [n] turns: a program is
    described by its cuts for all [n]. *)
Fixpoint loop {A B} (n : nat) (body : A -> prog S (A + B)) (a : A) {struct n} : prog S B :=
  match n with
  | O => fun _ s => Unfinished s
  | Datatypes.S n =>
      r ← body a;
      match r with inl a => loop n body a | inr b => mret b end
  end.

Context (I : S -> Prop).

Fixpoint safe {A} (Q : A -> nat -> S -> Prop) (r : res S A) : Prop :=
  match r with
  | Returned a me s => I s /\ Q a me s
  | Crashed _ => False
  | Waiting s k => I s /\ forall me s', I s' -> safe Q (k me s')
  | Unfinished s => I s
  end.

Lemma safe_mono {A} (P Q : A -> nat -> S -> Prop) r : (forall a me s, I s -> P a me s -> Q a me s) -> safe P r -> safe Q r.
Proof. intros HPQ. induction r as [a me s|o|s k IH|s]; simpl; [intros [? ?]; auto | done | intros [? Hk]; auto | done]. Qed.

Lemma safe_bind {A B} (m : prog S A) (f : A -> prog S B) Q me s :
  safe (fun a me s => safe Q (f a me s)) (m me s) -> safe Q ((m ≫= f) me s).
Proof.
  unfold mbind, prog_bind. generalize (m me s). intros r. induction r as [a me' s'|o|s' k IH|s']; simpl.
  - by intros [_ Hf].
  - done.
  - intros [HI Hk]. split; [done|]. intros me' s'' HI'. by apply IH, Hk.
  - done.
Qed.

Lemma safe_ret {A} (a : A) Q me s : I s -> Q a me s -> safe Q ((mret a : prog S A) me s).
Proof. done. Qed.

Lemma safe_atomic {A} (m : stM S A) Q me s : wp m (fun a s => I s /\ Q a me s) s -> safe Q (atomic m me s).
Proof. intros (a & s' & E & HI & HQ). unfold atomic. by rewrite E. Qed.

(** [atomic] and what follows. *)
Lemma safe_step {A B} (m : stM S A) (f : A -> prog S B) Q me s :
  wp m (fun a s => I s /\ safe Q (f a me s)) s -> safe Q ((atomic m ≫= f) me s).
Proof. intros Hm. by apply safe_bind, safe_atomic. Qed.

Lemma safe_pause Q me s : I s -> (forall me' s', I s' -> Q tt me' s') -> safe Q (pause me s).
Proof. simpl. auto. Qed.

Lemma safe_loop {A B} n (body : A -> prog S (A + B)) (J : A -> nat -> S -> Prop) Q a me s :
  I s -> J a me s ->
  (forall a me s, I s -> J a me s -> safe (fun r me s => match r with inl a => J a me s | inr b => Q b me s end) (body a me s)) ->
  safe Q (loop n body a me s).
Proof.
  intros HI HJ Hb. revert a me s HI HJ. induction n as [|n IH]; intros a me s HI HJ; [done|].
  apply safe_bind. eapply safe_mono; [|by apply Hb]. intros [a'|b] me' s' HI' Hr; [by apply IH | done].
Qed.

End prog.

(** ** Programs on a part of the state *)

Fixpoint embed {S K A} (get : S -> K) (set : K -> S -> S) (s0 : S) (r : res K A) : res S A :=
  match r with
  | Returned a me k => Returned a me (set k s0)
  | Crashed o => Crashed o
  | Waiting k c => Waiting (set k s0) (fun me s => embed get set s (c me (get s)))
  | Unfinished k => Unfinished (set k s0)
  end.

Definition on {S K A} (get : S -> K) (set : K -> S -> S) (m : prog K A) : prog S A :=
  fun me s => embed get set s (m me (get s)).

Lemma safe_on {S K A} (get : S -> K) (set : K -> S -> S) (I : S -> Prop) (J : K -> Prop) (m : prog K A) (Q : A -> nat -> S -> Prop) me s :
  (forall s, I s -> J (get s)) -> (forall s k, I s -> J k -> I (set k s)) -> I s ->
  safe J (fun a me k => forall s, I s -> Q a me (set k s)) (m me (get s)) -> safe I Q (on get set m me s).
Proof.
  intros Hget Hset HI. unfold on. generalize (m me (get s)). intros r. revert s HI.
  induction r as [a me' k|o|k c IH|k]; intros s HI; simpl.
  - intros [HJ HQ]. auto.
  - done.
  - intros [HJ Hc]. split; [auto|]. intros me' s' HI'. apply IH; auto.
  - auto.
Qed.

(** ** Programs that complete at once *)

(** The program returns without giving up the CPU, with a result as in [Q]. *)
Definition runs {S A} (Q : A -> S -> Prop) (me : nat) (m : prog S A) (s : S) : Prop :=
  exists a s', m me s = Returned a me s' /\ Q a s'.

Lemma runs_ret {S A} (Q : A -> S -> Prop) me a s : Q a s -> runs Q me (mret a) s.
Proof. intros HQ. by exists a, s. Qed.

Lemma runs_bind {S A B} (Q : B -> S -> Prop) me (m : prog S A) (f : A -> prog S B) s :
  runs (fun a s' => runs Q me (f a) s') me m s -> runs Q me (m ≫= f) s.
Proof. intros (a & s' & E & b & s2 & E2 & HQ). exists b, s2. unfold mbind, prog_bind. rewrite E. by split. Qed.

Lemma runs_atomic {S A} (Q : A -> S -> Prop) me (m : stM S A) s : wp m Q s -> runs Q me (atomic m) s.
Proof. intros (a & s' & E & HQ). exists a, s'. unfold atomic. by rewrite E. Qed.

Lemma runs_step {S A B} (Q : B -> S -> Prop) me (m : stM S A) (f : A -> prog S B) s :
  wp m (fun a s' => runs Q me (f a) s') s -> runs Q me (atomic m ≫= f) s.
Proof. intros Hm. by apply runs_bind, runs_atomic. Qed.

Lemma runs_mono {S A} (P Q : A -> S -> Prop) me (m : prog S A) s : runs P me m s -> (forall a s', P a s' -> Q a s') -> runs Q me m s.
Proof. intros (a & s' & E & HP) HQ. exists a, s'. auto. Qed.

Lemma runs_on {S K A} (get : S -> K) (set : K -> S -> S) (Q : A -> S -> Prop) me (m : prog K A) s :
  runs (fun a k => Q a (set k s)) me m (get s) -> runs Q me (on get set m) s.
Proof. intros (a & k & E & HQ). exists a, (set k s). unfold on. by rewrite E. Qed.
