(* ===== verification/Tasks.v ===== *)
(** * Threads, processes and CPUs: the state

    The control blocks of kernel/threading/thread.h and
    kernel/scheduler/process.h and the tables that hold them.  A pointer to a
    thread is its index in [threads] (the [tid] that [thread_create] stores in
    the block), a pointer to a process its index in [processes]; a pointer to a
    thread that was freed is an index past the end, and using it is undefined
    behaviour.  [Vec]s are lists and the map of process groups is a finite map,
    as in Services.v.  Calls into the terminals and the timer are recorded in
    [k_calls], in order. *)

From S2P Require Import Prelude Services.

Inductive thread_state :=
  | THREAD_UNUSED
  | THREAD_READY
  | THREAD_RUNNING
  | THREAD_STOPPED
  | THREAD_ZOMBIE
  | THREAD_BLOCKED_INTERRUPTABLE
  | THREAD_BLOCKED_UNINTERUPTABLE
  | THREAD_BLOCKED_KILLABLE.

#[export] Instance thread_state_eq_dec : EqDecision thread_state.
Proof. solve_decision. Defined.

Inductive process_state :=
  | PROC_UNUSED_STATE
  | PROC_RUNNING_STATE
  | PROC_BLOCKED_STATE
  | PROC_STOPPED_STATE
  | PROC_ZOMBIE_STATE.

#[export] Instance process_state_eq_dec : EqDecision process_state.
Proof. solve_decision. Defined.

(** Function pointers stored as signal handlers: the kernel's own functions, or
    an address given by a program (0 is USER_SIG_DFL, 1 is USER_SIG_IGN). *)
Inductive handler :=
  | SIG_DFL
  | SIG_IGN
  | SIG_TERM
  | SIG_STOP
  | SIG_CONT
  | SIG_NOT_IMPLEMENTED
  | Handler (addr : Z).

#[export] Instance handler_eq_dec : EqDecision handler.
Proof. solve_decision. Defined.

Record sigaction := mkSigaction { sa_handler : handler; sa_mask : Z; sa_flags : Z }.

(** Calls to components that keep their own state. *)
Inductive call :=
  | Tty_session_process_exit (pid : Z)
  | Tty_session_process_stop (pid : Z)
  | Tty_session_process_continue (pid : Z)
  | Timer_schedule_local (cpu : nat).

Record cpu_context := mkCtx {
  x19 : Z;
  x20 : Z;
  x21_x29 : list Z;
  x30 : Z;
  sp : Z;
  ttbr0_el1 : Z;
  ttbr0_el1_va : Z
}.

Record tcb := mkTcb {
  t_tid : Z;
  t_state : thread_state;
  t_stopped_state : thread_state;
  t_ctx : cpu_context;
  t_pcb : Z;
  t_kernel_stack : Z;
  t_user_stack_va : Z;
  t_return_value : Z;
  t_is_joinable : bool;
  t_waiting_on_this : list Z;
  t_entry_func : Z;
  t_args : Z;
  t_pending_signals : Z;
  t_mask : Z;
  t_priority : Z;
  t_blocked_until : Z;
  t_waiting_for_pid : Z;
  t_waiting_for_flags : Z
}.

Definition set_t_tid (v : Z) (x : tcb) : tcb :=
  mkTcb v (t_state x) (t_stopped_state x) (t_ctx x) (t_pcb x) (t_kernel_stack x) (t_user_stack_va x) (t_return_value x) (t_is_joinable x) (t_waiting_on_this x) (t_entry_func x) (t_args x) (t_pending_signals x) (t_mask x) (t_priority x) (t_blocked_until x) (t_waiting_for_pid x) (t_waiting_for_flags x).
Definition set_t_state (v : thread_state) (x : tcb) : tcb :=
  mkTcb (t_tid x) v (t_stopped_state x) (t_ctx x) (t_pcb x) (t_kernel_stack x) (t_user_stack_va x) (t_return_value x) (t_is_joinable x) (t_waiting_on_this x) (t_entry_func x) (t_args x) (t_pending_signals x) (t_mask x) (t_priority x) (t_blocked_until x) (t_waiting_for_pid x) (t_waiting_for_flags x).
Definition set_t_stopped_state (v : thread_state) (x : tcb) : tcb :=
  mkTcb (t_tid x) (t_state x) v (t_ctx x) (t_pcb x) (t_kernel_stack x) (t_user_stack_va x) (t_return_value x) (t_is_joinable x) (t_waiting_on_this x) (t_entry_func x) (t_args x) (t_pending_signals x) (t_mask x) (t_priority x) (t_blocked_until x) (t_waiting_for_pid x) (t_waiting_for_flags x).
Definition set_t_ctx (v : cpu_context) (x : tcb) : tcb :=
  mkTcb (t_tid x) (t_state x) (t_stopped_state x) v (t_pcb x) (t_kernel_stack x) (t_user_stack_va x) (t_return_value x) (t_is_joinable x) (t_waiting_on_this x) (t_entry_func x) (t_args x) (t_pending_signals x) (t_mask x) (t_priority x) (t_blocked_until x) (t_waiting_for_pid x) (t_waiting_for_flags x).
Definition set_t_pcb (v : Z) (x : tcb) : tcb :=
  mkTcb (t_tid x) (t_state x) (t_stopped_state x) (t_ctx x) v (t_kernel_stack x) (t_user_stack_va x) (t_return_value x) (t_is_joinable x) (t_waiting_on_this x) (t_entry_func x) (t_args x) (t_pending_signals x) (t_mask x) (t_priority x) (t_blocked_until x) (t_waiting_for_pid x) (t_waiting_for_flags x).
Definition set_t_kernel_stack (v : Z) (x : tcb) : tcb :=
  mkTcb (t_tid x) (t_state x) (t_stopped_state x) (t_ctx x) (t_pcb x) v (t_user_stack_va x) (t_return_value x) (t_is_joinable x) (t_waiting_on_this x) (t_entry_func x) (t_args x) (t_pending_signals x) (t_mask x) (t_priority x) (t_blocked_until x) (t_waiting_for_pid x) (t_waiting_for_flags x).
Definition set_t_user_stack_va (v : Z) (x : tcb) : tcb :=
  mkTcb (t_tid x) (t_state x) (t_stopped_state x) (t_ctx x) (t_pcb x) (t_kernel_stack x) v (t_return_value x) (t_is_joinable x) (t_waiting_on_this x) (t_entry_func x) (t_args x) (t_pending_signals x) (t_mask x) (t_priority x) (t_blocked_until x) (t_waiting_for_pid x) (t_waiting_for_flags x).
Definition set_t_return_value (v : Z) (x : tcb) : tcb :=
  mkTcb (t_tid x) (t_state x) (t_stopped_state x) (t_ctx x) (t_pcb x) (t_kernel_stack x) (t_user_stack_va x) v (t_is_joinable x) (t_waiting_on_this x) (t_entry_func x) (t_args x) (t_pending_signals x) (t_mask x) (t_priority x) (t_blocked_until x) (t_waiting_for_pid x) (t_waiting_for_flags x).
Definition set_t_is_joinable (v : bool) (x : tcb) : tcb :=
  mkTcb (t_tid x) (t_state x) (t_stopped_state x) (t_ctx x) (t_pcb x) (t_kernel_stack x) (t_user_stack_va x) (t_return_value x) v (t_waiting_on_this x) (t_entry_func x) (t_args x) (t_pending_signals x) (t_mask x) (t_priority x) (t_blocked_until x) (t_waiting_for_pid x) (t_waiting_for_flags x).
Definition set_t_waiting_on_this (v : list Z) (x : tcb) : tcb :=
  mkTcb (t_tid x) (t_state x) (t_stopped_state x) (t_ctx x) (t_pcb x) (t_kernel_stack x) (t_user_stack_va x) (t_return_value x) (t_is_joinable x) v (t_entry_func x) (t_args x) (t_pending_signals x) (t_mask x) (t_priority x) (t_blocked_until x) (t_waiting_for_pid x) (t_waiting_for_flags x).
Definition set_t_entry_func (v : Z) (x : tcb) : tcb :=
  mkTcb (t_tid x) (t_state x) (t_stopped_state x) (t_ctx x) (t_pcb x) (t_kernel_stack x) (t_user_stack_va x) (t_return_value x) (t_is_joinable x) (t_waiting_on_this x) v (t_args x) (t_pending_signals x) (t_mask x) (t_priority x) (t_blocked_until x) (t_waiting_for_pid x) (t_waiting_for_flags x).
Definition set_t_args (v : Z) (x : tcb) : tcb :=
  mkTcb (t_tid x) (t_state x) (t_stopped_state x) (t_ctx x) (t_pcb x) (t_kernel_stack x) (t_user_stack_va x) (t_return_value x) (t_is_joinable x) (t_waiting_on_this x) (t_entry_func x) v (t_pending_signals x) (t_mask x) (t_priority x) (t_blocked_until x) (t_waiting_for_pid x) (t_waiting_for_flags x).
Definition set_t_pending_signals (v : Z) (x : tcb) : tcb :=
  mkTcb (t_tid x) (t_state x) (t_stopped_state x) (t_ctx x) (t_pcb x) (t_kernel_stack x) (t_user_stack_va x) (t_return_value x) (t_is_joinable x) (t_waiting_on_this x) (t_entry_func x) (t_args x) v (t_mask x) (t_priority x) (t_blocked_until x) (t_waiting_for_pid x) (t_waiting_for_flags x).
Definition set_t_mask (v : Z) (x : tcb) : tcb :=
  mkTcb (t_tid x) (t_state x) (t_stopped_state x) (t_ctx x) (t_pcb x) (t_kernel_stack x) (t_user_stack_va x) (t_return_value x) (t_is_joinable x) (t_waiting_on_this x) (t_entry_func x) (t_args x) (t_pending_signals x) v (t_priority x) (t_blocked_until x) (t_waiting_for_pid x) (t_waiting_for_flags x).
Definition set_t_priority (v : Z) (x : tcb) : tcb :=
  mkTcb (t_tid x) (t_state x) (t_stopped_state x) (t_ctx x) (t_pcb x) (t_kernel_stack x) (t_user_stack_va x) (t_return_value x) (t_is_joinable x) (t_waiting_on_this x) (t_entry_func x) (t_args x) (t_pending_signals x) (t_mask x) v (t_blocked_until x) (t_waiting_for_pid x) (t_waiting_for_flags x).
Definition set_t_blocked_until (v : Z) (x : tcb) : tcb :=
  mkTcb (t_tid x) (t_state x) (t_stopped_state x) (t_ctx x) (t_pcb x) (t_kernel_stack x) (t_user_stack_va x) (t_return_value x) (t_is_joinable x) (t_waiting_on_this x) (t_entry_func x) (t_args x) (t_pending_signals x) (t_mask x) (t_priority x) v (t_waiting_for_pid x) (t_waiting_for_flags x).
Definition set_t_waiting_for_pid (v : Z) (x : tcb) : tcb :=
  mkTcb (t_tid x) (t_state x) (t_stopped_state x) (t_ctx x) (t_pcb x) (t_kernel_stack x) (t_user_stack_va x) (t_return_value x) (t_is_joinable x) (t_waiting_on_this x) (t_entry_func x) (t_args x) (t_pending_signals x) (t_mask x) (t_priority x) (t_blocked_until x) v (t_waiting_for_flags x).
Definition set_t_waiting_for_flags (v : Z) (x : tcb) : tcb :=
  mkTcb (t_tid x) (t_state x) (t_stopped_state x) (t_ctx x) (t_pcb x) (t_kernel_stack x) (t_user_stack_va x) (t_return_value x) (t_is_joinable x) (t_waiting_on_this x) (t_entry_func x) (t_args x) (t_pending_signals x) (t_mask x) (t_priority x) (t_blocked_until x) (t_waiting_for_pid x) v.

Record pcb := mkPcb {
  p_pid : Z;
  p_ppid : Z;
  p_pgid : Z;
  p_name : list Z;
  p_state : process_state;
  p_exit_code : Z;
  p_tids : list Z;
  p_wait_stop_pending : bool;
  p_wait_cont_pending : bool;
  p_ttbr0_el1 : Z;
  p_ttbr0_el1_va : Z;
  p_children : list Z;
  p_file_descriptors : list Z;
  p_lock : bool;
  p_sigactions : list sigaction;
  p_pending_signals : Z;
  p_child_waitq : list Z;
  p_cwd : Z;
  p_num_blocked_threads : Z;
  p_num_stopped_threads : Z;
  p_num_zombie_threads : Z;
  p_num_running_threads : Z
}.

Definition set_p_pid (v : Z) (x : pcb) : pcb :=
  mkPcb v (p_ppid x) (p_pgid x) (p_name x) (p_state x) (p_exit_code x) (p_tids x) (p_wait_stop_pending x) (p_wait_cont_pending x) (p_ttbr0_el1 x) (p_ttbr0_el1_va x) (p_children x) (p_file_descriptors x) (p_lock x) (p_sigactions x) (p_pending_signals x) (p_child_waitq x) (p_cwd x) (p_num_blocked_threads x) (p_num_stopped_threads x) (p_num_zombie_threads x) (p_num_running_threads x).
Definition set_p_ppid (v : Z) (x : pcb) : pcb :=
  mkPcb (p_pid x) v (p_pgid x) (p_name x) (p_state x) (p_exit_code x) (p_tids x) (p_wait_stop_pending x) (p_wait_cont_pending x) (p_ttbr0_el1 x) (p_ttbr0_el1_va x) (p_children x) (p_file_descriptors x) (p_lock x) (p_sigactions x) (p_pending_signals x) (p_child_waitq x) (p_cwd x) (p_num_blocked_threads x) (p_num_stopped_threads x) (p_num_zombie_threads x) (p_num_running_threads x).
Definition set_p_pgid (v : Z) (x : pcb) : pcb :=
  mkPcb (p_pid x) (p_ppid x) v (p_name x) (p_state x) (p_exit_code x) (p_tids x) (p_wait_stop_pending x) (p_wait_cont_pending x) (p_ttbr0_el1 x) (p_ttbr0_el1_va x) (p_children x) (p_file_descriptors x) (p_lock x) (p_sigactions x) (p_pending_signals x) (p_child_waitq x) (p_cwd x) (p_num_blocked_threads x) (p_num_stopped_threads x) (p_num_zombie_threads x) (p_num_running_threads x).
Definition set_p_name (v : list Z) (x : pcb) : pcb :=
  mkPcb (p_pid x) (p_ppid x) (p_pgid x) v (p_state x) (p_exit_code x) (p_tids x) (p_wait_stop_pending x) (p_wait_cont_pending x) (p_ttbr0_el1 x) (p_ttbr0_el1_va x) (p_children x) (p_file_descriptors x) (p_lock x) (p_sigactions x) (p_pending_signals x) (p_child_waitq x) (p_cwd x) (p_num_blocked_threads x) (p_num_stopped_threads x) (p_num_zombie_threads x) (p_num_running_threads x).
Definition set_p_state (v : process_state) (x : pcb) : pcb :=
  mkPcb (p_pid x) (p_ppid x) (p_pgid x) (p_name x) v (p_exit_code x) (p_tids x) (p_wait_stop_pending x) (p_wait_cont_pending x) (p_ttbr0_el1 x) (p_ttbr0_el1_va x) (p_children x) (p_file_descriptors x) (p_lock x) (p_sigactions x) (p_pending_signals x) (p_child_waitq x) (p_cwd x) (p_num_blocked_threads x) (p_num_stopped_threads x) (p_num_zombie_threads x) (p_num_running_threads x).
Definition set_p_exit_code (v : Z) (x : pcb) : pcb :=
  mkPcb (p_pid x) (p_ppid x) (p_pgid x) (p_name x) (p_state x) v (p_tids x) (p_wait_stop_pending x) (p_wait_cont_pending x) (p_ttbr0_el1 x) (p_ttbr0_el1_va x) (p_children x) (p_file_descriptors x) (p_lock x) (p_sigactions x) (p_pending_signals x) (p_child_waitq x) (p_cwd x) (p_num_blocked_threads x) (p_num_stopped_threads x) (p_num_zombie_threads x) (p_num_running_threads x).
Definition set_p_tids (v : list Z) (x : pcb) : pcb :=
  mkPcb (p_pid x) (p_ppid x) (p_pgid x) (p_name x) (p_state x) (p_exit_code x) v (p_wait_stop_pending x) (p_wait_cont_pending x) (p_ttbr0_el1 x) (p_ttbr0_el1_va x) (p_children x) (p_file_descriptors x) (p_lock x) (p_sigactions x) (p_pending_signals x) (p_child_waitq x) (p_cwd x) (p_num_blocked_threads x) (p_num_stopped_threads x) (p_num_zombie_threads x) (p_num_running_threads x).
Definition set_p_wait_stop_pending (v : bool) (x : pcb) : pcb :=
  mkPcb (p_pid x) (p_ppid x) (p_pgid x) (p_name x) (p_state x) (p_exit_code x) (p_tids x) v (p_wait_cont_pending x) (p_ttbr0_el1 x) (p_ttbr0_el1_va x) (p_children x) (p_file_descriptors x) (p_lock x) (p_sigactions x) (p_pending_signals x) (p_child_waitq x) (p_cwd x) (p_num_blocked_threads x) (p_num_stopped_threads x) (p_num_zombie_threads x) (p_num_running_threads x).
Definition set_p_wait_cont_pending (v : bool) (x : pcb) : pcb :=
  mkPcb (p_pid x) (p_ppid x) (p_pgid x) (p_name x) (p_state x) (p_exit_code x) (p_tids x) (p_wait_stop_pending x) v (p_ttbr0_el1 x) (p_ttbr0_el1_va x) (p_children x) (p_file_descriptors x) (p_lock x) (p_sigactions x) (p_pending_signals x) (p_child_waitq x) (p_cwd x) (p_num_blocked_threads x) (p_num_stopped_threads x) (p_num_zombie_threads x) (p_num_running_threads x).
Definition set_p_ttbr0_el1 (v : Z) (x : pcb) : pcb :=
  mkPcb (p_pid x) (p_ppid x) (p_pgid x) (p_name x) (p_state x) (p_exit_code x) (p_tids x) (p_wait_stop_pending x) (p_wait_cont_pending x) v (p_ttbr0_el1_va x) (p_children x) (p_file_descriptors x) (p_lock x) (p_sigactions x) (p_pending_signals x) (p_child_waitq x) (p_cwd x) (p_num_blocked_threads x) (p_num_stopped_threads x) (p_num_zombie_threads x) (p_num_running_threads x).
Definition set_p_ttbr0_el1_va (v : Z) (x : pcb) : pcb :=
  mkPcb (p_pid x) (p_ppid x) (p_pgid x) (p_name x) (p_state x) (p_exit_code x) (p_tids x) (p_wait_stop_pending x) (p_wait_cont_pending x) (p_ttbr0_el1 x) v (p_children x) (p_file_descriptors x) (p_lock x) (p_sigactions x) (p_pending_signals x) (p_child_waitq x) (p_cwd x) (p_num_blocked_threads x) (p_num_stopped_threads x) (p_num_zombie_threads x) (p_num_running_threads x).
Definition set_p_children (v : list Z) (x : pcb) : pcb :=
  mkPcb (p_pid x) (p_ppid x) (p_pgid x) (p_name x) (p_state x) (p_exit_code x) (p_tids x) (p_wait_stop_pending x) (p_wait_cont_pending x) (p_ttbr0_el1 x) (p_ttbr0_el1_va x) v (p_file_descriptors x) (p_lock x) (p_sigactions x) (p_pending_signals x) (p_child_waitq x) (p_cwd x) (p_num_blocked_threads x) (p_num_stopped_threads x) (p_num_zombie_threads x) (p_num_running_threads x).
Definition set_p_file_descriptors (v : list Z) (x : pcb) : pcb :=
  mkPcb (p_pid x) (p_ppid x) (p_pgid x) (p_name x) (p_state x) (p_exit_code x) (p_tids x) (p_wait_stop_pending x) (p_wait_cont_pending x) (p_ttbr0_el1 x) (p_ttbr0_el1_va x) (p_children x) v (p_lock x) (p_sigactions x) (p_pending_signals x) (p_child_waitq x) (p_cwd x) (p_num_blocked_threads x) (p_num_stopped_threads x) (p_num_zombie_threads x) (p_num_running_threads x).
Definition set_p_lock (v : bool) (x : pcb) : pcb :=
  mkPcb (p_pid x) (p_ppid x) (p_pgid x) (p_name x) (p_state x) (p_exit_code x) (p_tids x) (p_wait_stop_pending x) (p_wait_cont_pending x) (p_ttbr0_el1 x) (p_ttbr0_el1_va x) (p_children x) (p_file_descriptors x) v (p_sigactions x) (p_pending_signals x) (p_child_waitq x) (p_cwd x) (p_num_blocked_threads x) (p_num_stopped_threads x) (p_num_zombie_threads x) (p_num_running_threads x).
Definition set_p_sigactions (v : list sigaction) (x : pcb) : pcb :=
  mkPcb (p_pid x) (p_ppid x) (p_pgid x) (p_name x) (p_state x) (p_exit_code x) (p_tids x) (p_wait_stop_pending x) (p_wait_cont_pending x) (p_ttbr0_el1 x) (p_ttbr0_el1_va x) (p_children x) (p_file_descriptors x) (p_lock x) v (p_pending_signals x) (p_child_waitq x) (p_cwd x) (p_num_blocked_threads x) (p_num_stopped_threads x) (p_num_zombie_threads x) (p_num_running_threads x).
Definition set_p_pending_signals (v : Z) (x : pcb) : pcb :=
  mkPcb (p_pid x) (p_ppid x) (p_pgid x) (p_name x) (p_state x) (p_exit_code x) (p_tids x) (p_wait_stop_pending x) (p_wait_cont_pending x) (p_ttbr0_el1 x) (p_ttbr0_el1_va x) (p_children x) (p_file_descriptors x) (p_lock x) (p_sigactions x) v (p_child_waitq x) (p_cwd x) (p_num_blocked_threads x) (p_num_stopped_threads x) (p_num_zombie_threads x) (p_num_running_threads x).
Definition set_p_child_waitq (v : list Z) (x : pcb) : pcb :=
  mkPcb (p_pid x) (p_ppid x) (p_pgid x) (p_name x) (p_state x) (p_exit_code x) (p_tids x) (p_wait_stop_pending x) (p_wait_cont_pending x) (p_ttbr0_el1 x) (p_ttbr0_el1_va x) (p_children x) (p_file_descriptors x) (p_lock x) (p_sigactions x) (p_pending_signals x) v (p_cwd x) (p_num_blocked_threads x) (p_num_stopped_threads x) (p_num_zombie_threads x) (p_num_running_threads x).
Definition set_p_cwd (v : Z) (x : pcb) : pcb :=
  mkPcb (p_pid x) (p_ppid x) (p_pgid x) (p_name x) (p_state x) (p_exit_code x) (p_tids x) (p_wait_stop_pending x) (p_wait_cont_pending x) (p_ttbr0_el1 x) (p_ttbr0_el1_va x) (p_children x) (p_file_descriptors x) (p_lock x) (p_sigactions x) (p_pending_signals x) (p_child_waitq x) v (p_num_blocked_threads x) (p_num_stopped_threads x) (p_num_zombie_threads x) (p_num_running_threads x).
Definition set_p_num_blocked_threads (v : Z) (x : pcb) : pcb :=
  mkPcb (p_pid x) (p_ppid x) (p_pgid x) (p_name x) (p_state x) (p_exit_code x) (p_tids x) (p_wait_stop_pending x) (p_wait_cont_pending x) (p_ttbr0_el1 x) (p_ttbr0_el1_va x) (p_children x) (p_file_descriptors x) (p_lock x) (p_sigactions x) (p_pending_signals x) (p_child_waitq x) (p_cwd x) v (p_num_stopped_threads x) (p_num_zombie_threads x) (p_num_running_threads x).
Definition set_p_num_stopped_threads (v : Z) (x : pcb) : pcb :=
  mkPcb (p_pid x) (p_ppid x) (p_pgid x) (p_name x) (p_state x) (p_exit_code x) (p_tids x) (p_wait_stop_pending x) (p_wait_cont_pending x) (p_ttbr0_el1 x) (p_ttbr0_el1_va x) (p_children x) (p_file_descriptors x) (p_lock x) (p_sigactions x) (p_pending_signals x) (p_child_waitq x) (p_cwd x) (p_num_blocked_threads x) v (p_num_zombie_threads x) (p_num_running_threads x).
Definition set_p_num_zombie_threads (v : Z) (x : pcb) : pcb :=
  mkPcb (p_pid x) (p_ppid x) (p_pgid x) (p_name x) (p_state x) (p_exit_code x) (p_tids x) (p_wait_stop_pending x) (p_wait_cont_pending x) (p_ttbr0_el1 x) (p_ttbr0_el1_va x) (p_children x) (p_file_descriptors x) (p_lock x) (p_sigactions x) (p_pending_signals x) (p_child_waitq x) (p_cwd x) (p_num_blocked_threads x) (p_num_stopped_threads x) v (p_num_running_threads x).
Definition set_p_num_running_threads (v : Z) (x : pcb) : pcb :=
  mkPcb (p_pid x) (p_ppid x) (p_pgid x) (p_name x) (p_state x) (p_exit_code x) (p_tids x) (p_wait_stop_pending x) (p_wait_cont_pending x) (p_ttbr0_el1 x) (p_ttbr0_el1_va x) (p_children x) (p_file_descriptors x) (p_lock x) (p_sigactions x) (p_pending_signals x) (p_child_waitq x) (p_cwd x) (p_num_blocked_threads x) (p_num_stopped_threads x) (p_num_zombie_threads x) v.

Record pgrp := mkPgrp {
  g_pids : list Z;
  g_refcount : Z;
  g_pgid : Z
}.

Definition set_g_pids (v : list Z) (x : pgrp) : pgrp :=
  mkPgrp v (g_refcount x) (g_pgid x).
Definition set_g_refcount (v : Z) (x : pgrp) : pgrp :=
  mkPgrp (g_pids x) v (g_pgid x).

Record cpu := mkCpu {
  c_ready_to_schedule : bool;
  c_curr_thread : option Z;
  c_scheduler_ticks : Z
}.

Definition set_c_ready_to_schedule (v : bool) (x : cpu) : cpu :=
  mkCpu v (c_curr_thread x) (c_scheduler_ticks x).
Definition set_c_curr_thread (v : option Z) (x : cpu) : cpu :=
  mkCpu (c_ready_to_schedule x) v (c_scheduler_ticks x).
Definition set_c_scheduler_ticks (v : Z) (x : cpu) : cpu :=
  mkCpu (c_ready_to_schedule x) (c_curr_thread x) v.

Record kstate := mkK {
  k_threads : list tcb;
  k_ready_queues : list (list Z);
  k_pri_counters : list Z;
  k_curr_pri : Z;
  k_processes : list pcb;
  k_pgrps : gmap Z pgrp;
  k_cpus : list cpu;
  k_scheduler_lock : bool;
  k_threads_lock : bool;
  k_process_table_lock : bool;
  k_heap : nat -> bool;
  k_pages : nat -> option Z;
  k_calls : list call
}.

Definition set_k_threads (v : list tcb) (x : kstate) : kstate :=
  mkK v (k_ready_queues x) (k_pri_counters x) (k_curr_pri x) (k_processes x) (k_pgrps x) (k_cpus x) (k_scheduler_lock x) (k_threads_lock x) (k_process_table_lock x) (k_heap x) (k_pages x) (k_calls x).
Definition set_k_ready_queues (v : list (list Z)) (x : kstate) : kstate :=
  mkK (k_threads x) v (k_pri_counters x) (k_curr_pri x) (k_processes x) (k_pgrps x) (k_cpus x) (k_scheduler_lock x) (k_threads_lock x) (k_process_table_lock x) (k_heap x) (k_pages x) (k_calls x).
Definition set_k_pri_counters (v : list Z) (x : kstate) : kstate :=
  mkK (k_threads x) (k_ready_queues x) v (k_curr_pri x) (k_processes x) (k_pgrps x) (k_cpus x) (k_scheduler_lock x) (k_threads_lock x) (k_process_table_lock x) (k_heap x) (k_pages x) (k_calls x).
Definition set_k_curr_pri (v : Z) (x : kstate) : kstate :=
  mkK (k_threads x) (k_ready_queues x) (k_pri_counters x) v (k_processes x) (k_pgrps x) (k_cpus x) (k_scheduler_lock x) (k_threads_lock x) (k_process_table_lock x) (k_heap x) (k_pages x) (k_calls x).
Definition set_k_processes (v : list pcb) (x : kstate) : kstate :=
  mkK (k_threads x) (k_ready_queues x) (k_pri_counters x) (k_curr_pri x) v (k_pgrps x) (k_cpus x) (k_scheduler_lock x) (k_threads_lock x) (k_process_table_lock x) (k_heap x) (k_pages x) (k_calls x).
Definition set_k_pgrps (v : gmap Z pgrp) (x : kstate) : kstate :=
  mkK (k_threads x) (k_ready_queues x) (k_pri_counters x) (k_curr_pri x) (k_processes x) v (k_cpus x) (k_scheduler_lock x) (k_threads_lock x) (k_process_table_lock x) (k_heap x) (k_pages x) (k_calls x).
Definition set_k_cpus (v : list cpu) (x : kstate) : kstate :=
  mkK (k_threads x) (k_ready_queues x) (k_pri_counters x) (k_curr_pri x) (k_processes x) (k_pgrps x) v (k_scheduler_lock x) (k_threads_lock x) (k_process_table_lock x) (k_heap x) (k_pages x) (k_calls x).
Definition set_k_scheduler_lock (v : bool) (x : kstate) : kstate :=
  mkK (k_threads x) (k_ready_queues x) (k_pri_counters x) (k_curr_pri x) (k_processes x) (k_pgrps x) (k_cpus x) v (k_threads_lock x) (k_process_table_lock x) (k_heap x) (k_pages x) (k_calls x).
Definition set_k_threads_lock (v : bool) (x : kstate) : kstate :=
  mkK (k_threads x) (k_ready_queues x) (k_pri_counters x) (k_curr_pri x) (k_processes x) (k_pgrps x) (k_cpus x) (k_scheduler_lock x) v (k_process_table_lock x) (k_heap x) (k_pages x) (k_calls x).
Definition set_k_process_table_lock (v : bool) (x : kstate) : kstate :=
  mkK (k_threads x) (k_ready_queues x) (k_pri_counters x) (k_curr_pri x) (k_processes x) (k_pgrps x) (k_cpus x) (k_scheduler_lock x) (k_threads_lock x) v (k_heap x) (k_pages x) (k_calls x).
Definition set_k_heap (v : nat -> bool) (x : kstate) : kstate :=
  mkK (k_threads x) (k_ready_queues x) (k_pri_counters x) (k_curr_pri x) (k_processes x) (k_pgrps x) (k_cpus x) (k_scheduler_lock x) (k_threads_lock x) (k_process_table_lock x) v (k_pages x) (k_calls x).
Definition set_k_pages (v : nat -> option Z) (x : kstate) : kstate :=
  mkK (k_threads x) (k_ready_queues x) (k_pri_counters x) (k_curr_pri x) (k_processes x) (k_pgrps x) (k_cpus x) (k_scheduler_lock x) (k_threads_lock x) (k_process_table_lock x) (k_heap x) v (k_calls x).
Definition set_k_calls (v : list call) (x : kstate) : kstate :=
  mkK (k_threads x) (k_ready_queues x) (k_pri_counters x) (k_curr_pri x) (k_processes x) (k_pgrps x) (k_cpus x) (k_scheduler_lock x) (k_threads_lock x) (k_process_table_lock x) (k_heap x) (k_pages x) v.

#[export] Instance kstate_heap : HasHeap kstate.
Proof. refine {| heap_of := k_heap; set_heap := set_k_heap |}. done. Defined.

Definition MAX_PROCESS_COUNT : Z := 256.
Definition MAX_CPUS : nat := 4.

(** ** Access to the tables *)

Abbreviation KM := (stM kstate).

(** [*tcb] *)
Definition get_tcb (t : Z) : KM tcb := fun s =>
  match k_threads s !! Z.to_nat t with Some x => if 0 <=? t then Ok (x, s) else Fault | None => Fault end.

(** An assignment to fields of [*tcb]. *)
Definition upd_tcb (t : Z) (f : tcb -> tcb) : KM unit :=
  x ← get_tcb t;
  modify (fun s => set_k_threads (<[Z.to_nat t := f x]> (k_threads s)) s).

Definition get_pcb (p : Z) : KM pcb := fun s =>
  match k_processes s !! Z.to_nat p with Some x => if 0 <=? p then Ok (x, s) else Fault | None => Fault end.

Definition upd_pcb (p : Z) (f : pcb -> pcb) : KM unit :=
  x ← get_pcb p;
  modify (fun s => set_k_processes (<[Z.to_nat p := f x]> (k_processes s)) s).

Definition log_call (c : call) : KM unit := modify (fun s => set_k_calls (k_calls s ++ [c]) s).

Definition threads_lock : KM unit := spin_lock k_threads_lock set_k_threads_lock.
Definition threads_unlock : KM unit := spin_unlock set_k_threads_lock.
Definition scheduler_lock : KM unit := spin_lock k_scheduler_lock set_k_scheduler_lock.
Definition scheduler_unlock : KM unit := spin_unlock set_k_scheduler_lock.
Definition process_table_lock : KM unit := spin_lock k_process_table_lock set_k_process_table_lock.
Definition process_table_unlock : KM unit := spin_unlock set_k_process_table_lock.

(** ** Rules *)

Lemma wp_get_tcb t x (Q : tcb -> kstate -> Prop) s :
  0 <= t -> k_threads s !! Z.to_nat t = Some x -> Q x s -> wp (get_tcb t) Q s.
Proof. intros Ht E HQ. exists x, s. unfold get_tcb. by rewrite E, (proj2 (Z.leb_le 0 t)). Qed.

Lemma wp_upd_tcb t x f (Q : unit -> kstate -> Prop) s :
  0 <= t -> k_threads s !! Z.to_nat t = Some x ->
  Q tt (set_k_threads (<[Z.to_nat t := f x]> (k_threads s)) s) -> wp (upd_tcb t f) Q s.
Proof. intros Ht E HQ. by apply wp_bind, (wp_get_tcb _ x), wp_modify. Qed.

Lemma wp_get_pcb p x (Q : pcb -> kstate -> Prop) s :
  0 <= p -> k_processes s !! Z.to_nat p = Some x -> Q x s -> wp (get_pcb p) Q s.
Proof. intros Hp E HQ. exists x, s. unfold get_pcb. by rewrite E, (proj2 (Z.leb_le 0 p)). Qed.

Lemma wp_upd_pcb p x f (Q : unit -> kstate -> Prop) s :
  0 <= p -> k_processes s !! Z.to_nat p = Some x ->
  Q tt (set_k_processes (<[Z.to_nat p := f x]> (k_processes s)) s) -> wp (upd_pcb p f) Q s.
Proof. intros Hp E HQ. by apply wp_bind, (wp_get_pcb _ x), wp_modify. Qed.

(** No allocation is refused from here on. *)
Definition grants (s : kstate) : Prop := forall n, k_heap s n = true.

Lemma wp_list_insert {A} (l : list A) i x (Q : list A -> kstate -> Prop) s :
  grants s -> (i <= length l)%nat ->
  (forall h, (forall n, h n = true) -> Q (insert_at l i x) (set_k_heap h s)) -> wp (list_insert l i x) Q s.
Proof.
  intros Hg Hi HQ. eexists _, _. split; [|by apply (HQ (fun n => k_heap s (S n)))]. unfold list_insert, mbind, stM_bind, granted. simpl.
  rewrite (Hg 0%nat). by rewrite (proj2 (Nat.leb_le i (length l))).
Qed.

Lemma wp_list_push {A} (l : list A) x (Q : list A -> kstate -> Prop) s :
  grants s -> (forall h, (forall n, h n = true) -> Q (l ++ [x]) (set_k_heap h s)) -> wp (list_push l x) Q s.
Proof.
  intros Hg HQ. eexists _, _. split; [|by apply (HQ (fun n => k_heap s (S n)))]. unfold list_push, mbind, stM_bind, granted. simpl.
  by rewrite (Hg 0%nat).
Qed.
