(* ===== verification/Sched.v ===== *)
(** * The scheduler

    kernel/scheduler/scheduler.c: three queues of ready threads, served round
    robin with a quota each; new threads enter at index 0 and threads leave
    from the back.  A context switch ends a step of the scheduler: what a
    thread does after it has been switched back to is a step of its own. *)

From S2P Require Import Prelude Services Tasks.

Definition MAX_PRI_CNTRS : list Z := [9; 6; 4].

(** [thread_ready_queues[i]], [pri_counters[i]], [MAX_PRI_CNTRS[i]] *)
Definition index {A} (l : list A) (i : Z) : KM A :=
  match l !! Z.to_nat i with Some x => if 0 <=? i then mret x else fault | None => fault end.

Definition get_queue (i : Z) : KM (list Z) := qs ← fetch k_ready_queues; index qs i.

Definition set_queue (i : Z) (q : list Z) : KM unit :=
  modify (fun s => set_k_ready_queues (<[Z.to_nat i := q]> (k_ready_queues s)) s).

Definition in_queues (thread : Z) : KM bool := fetch (fun s => existsb (fun q => existsb (Z.eqb thread) q) (k_ready_queues s)).

Definition add_thread_to_scheduler_locked (thread : Z) : KM unit :=
  t ← get_tcb thread;
  if negb (bool_decide (t_state t = THREAD_READY)) then mret tt else
  present ← in_queues thread;
  if (present : bool) then mret tt else
  q ← get_queue (t_priority t);
  q ← list_insert q 0 thread;
  set_queue (t_priority t) q.

Definition add_thread_to_scheduler (thread : Z) : KM unit :=
  _ ← scheduler_lock;
  _ ← add_thread_to_scheduler_locked thread;
  scheduler_unlock.

(** The inner loop of [remove_thread_from_scheduler]. *)
Fixpoint erase_thread (thread : Z) (q : list Z) : list Z :=
  match q with
  | [] => []
  | x :: q => if x =? thread then erase_thread thread q else x :: erase_thread thread q
  end.

Definition remove_thread_from_scheduler (thread : Z) : KM unit :=
  _ ← scheduler_lock;
  _ ← for_st 3 0 (fun priority => q ← get_queue priority; set_queue priority (erase_thread thread q));
  scheduler_unlock.

(** The inner loop of [get_next_thread_locked]: threads are popped until one is
    ready; [None] when the queue is empty. *)
Fixpoint pop_ready (fuel : nat) : KM (option Z) :=
  match fuel with
  | O => hang
  | S fuel =>
      pri ← fetch k_curr_pri;
      q ← get_queue pri;
      match last q with
      | None => mret None
      | Some thread =>
          _ ← set_queue pri (removelast q);
          t ← get_tcb thread;
          if negb (bool_decide (t_state t = THREAD_READY)) then pop_ready fuel else
          counters ← fetch k_pri_counters;
          c ← index counters pri;
          limit ← index MAX_PRI_CNTRS pri;
          let c := c + 1 in
          _ ← (if limit <? c then
                 _ ← modify (set_k_pri_counters (<[Z.to_nat pri := 0]> counters));
                 modify (set_k_curr_pri ((pri + 1) mod 3))
               else modify (set_k_pri_counters (<[Z.to_nat pri := c]> counters)));
          mret (Some thread)
      end
  end.

Fixpoint next_thread (priorities_left : nat) : KM (option Z) :=
  match priorities_left with
  | O => mret None
  | S n =>
      pri ← fetch k_curr_pri;
      q ← get_queue pri;
      t ← pop_ready (S (length q));
      match t with
      | Some t => mret (Some t)
      | None => _ ← modify (fun s => set_k_curr_pri ((k_curr_pri s + 1) mod 3) s); next_thread n
      end
  end.

Definition get_next_thread_locked : KM (option Z) := next_thread 3.

Definition get_next_thread : KM (option Z) :=
  _ ← scheduler_lock;
  t ← get_next_thread_locked;
  _ ← scheduler_unlock;
  mret t.

Definition upd_cpu (me : nat) (f : cpu -> cpu) : KM unit :=
  modify (fun s => set_k_cpus (alter f me (k_cpus s)) s).

(** [scheduler_tick] on CPU [me] up to the context switch, which releases the
    lock; the result is the thread whose context is saved and the one whose
    context is loaded, [None] being the idle task.  [cpu_current()] is NULL
    before [cpu_early_init]. *)
Definition scheduler_tick (me : nat) : KM (option (option Z * option Z)) :=
  cpus ← fetch k_cpus;
  match cpus !! me with
  | None => mret None
  | Some c =>
      _ ← scheduler_lock;
      let curr_thread := c_curr_thread c in
      _ ← upd_cpu me (fun c => set_c_scheduler_ticks (to_u64 (c_scheduler_ticks c + 1)) c);
      _ ← (match curr_thread with
           | None => mret tt
           | Some curr =>
               t ← get_tcb curr;
               if bool_decide (t_state t = THREAD_RUNNING) then
                 _ ← upd_tcb curr (set_t_state THREAD_READY);
                 add_thread_to_scheduler_locked curr
               else mret tt
           end);
      next ← get_next_thread_locked;
      _ ← upd_cpu me (set_c_curr_thread next);
      _ ← (match next with None => mret tt | Some n => upd_tcb n (set_t_state THREAD_RUNNING) end);
      _ ← log_call (Timer_schedule_local me);
      _ ← scheduler_unlock;
      mret (Some (curr_thread, next))
  end.

Definition get_curr_thread (me : nat) : KM (option Z) :=
  fetch (fun s => match k_cpus s !! me with Some c => c_curr_thread c | None => None end).

Definition get_curr_process (me : nat) : KM (option Z) :=
  t ← get_curr_thread me;
  match t with
  | None => mret None
  | Some t => x ← get_tcb t; mret (Some (t_pcb x))
  end.

Definition set_ready_to_schedule (me : nat) : KM unit := upd_cpu me (set_c_ready_to_schedule true).

Definition run_scheduler_if_needed (me : nat) : KM (option (option Z * option Z)) :=
  cpus ← fetch k_cpus;
  match cpus !! me with
  | None => mret None
  | Some c =>
      if negb (c_ready_to_schedule c) then mret None else
      _ ← upd_cpu me (set_c_ready_to_schedule false);
      scheduler_tick me
  end.

(** ** Well-formed scheduler states *)

Record sched_ok (s : kstate) : Prop := {
  so_queues : length (k_ready_queues s) = 3%nat;
  so_nodup : NoDup (mjoin (k_ready_queues s));
  so_valid : forall t, t ∈ mjoin (k_ready_queues s) -> 0 <= t < Z.of_nat (length (k_threads s));
  so_counters : length (k_pri_counters s) = 3%nat;
  so_quota : forall i c m, k_pri_counters s !! i = Some c -> MAX_PRI_CNTRS !! i = Some m -> 0 <= c <= m;
  so_pri : 0 <= k_curr_pri s < 3;
  so_priority : Forall (fun x => 0 <= t_priority x < 3) (k_threads s)
}.

Definition is_ready (s : kstate) (t : Z) : bool :=
  match k_threads s !! Z.to_nat t with Some x => bool_decide (t_state x = THREAD_READY) | None => false end.

(** The state with queue [i] replaced. *)
Definition with_queue (i : Z) (q : list Z) (s : kstate) : kstate :=
  set_k_ready_queues (<[Z.to_nat i := q]> (k_ready_queues s)) s.

(** The quota of priority [i] that is left. *)
Definition quota_left (s : kstate) (i : Z) : Z :=
  match k_pri_counters s !! Z.to_nat i, MAX_PRI_CNTRS !! Z.to_nat i with Some c, Some m => m + 1 - c | _, _ => 0 end.

#[local] Arguments quota_left : simpl never.

(** A thread of priority [i] is dispatched. *)
Definition charge (i : Z) (s : kstate) : kstate :=
  if quota_left s i =? 1
  then set_k_curr_pri ((i + 1) mod 3) (set_k_pri_counters (<[Z.to_nat i := 0]> (k_pri_counters s)) s)
  else set_k_pri_counters (alter (fun c => c + 1) (Z.to_nat i) (k_pri_counters s)) s.

Lemma with_queue_twice i q q' s : with_queue i q (with_queue i q' s) = with_queue i q s.
Proof. unfold with_queue, set_k_ready_queues. simpl. by rewrite list_insert_insert_eq. Qed.

Lemma queue_in_concat s i q t : k_ready_queues s !! i = Some q -> t ∈ q -> t ∈ mjoin (k_ready_queues s).
Proof. intros Hq Ht. apply list_elem_of_join. exists q. split; [done | by eapply list_elem_of_lookup_2]. Qed.

(** Replacing a queue by part of it. *)
Lemma NoDup_concat_insert (qs : list (list Z)) i q q' :
  NoDup (mjoin qs) -> qs !! i = Some q -> q' `sublist_of` q -> NoDup (mjoin (<[i := q']> qs)).
Proof.
  intros Hnd Hq Hsub. apply list_elem_of_split_length in Hq as (l1 & l2 & -> & ->).
  rewrite insert_app_r_alt, Nat.sub_diag by lia. simpl. rewrite join_app in *. cbn [mjoin list_join] in *.
  apply (sublist_NoDup _ (mjoin l1 ++ q ++ mjoin l2)); [done|]. apply sublist_app; [done|]. by apply sublist_app.
Qed.

Lemma elem_of_concat_insert (qs : list (list Z)) i q q' x :
  qs !! i = Some q -> q' `sublist_of` q -> x ∈ mjoin (<[i := q']> qs) -> x ∈ mjoin qs.
Proof.
  intros Hq Hsub Hx. apply list_elem_of_split_length in Hq as (l1 & l2 & -> & ->).
  rewrite insert_app_r_alt, Nat.sub_diag in Hx by lia. simpl in Hx. rewrite join_app in *. cbn [mjoin list_join] in *.
  rewrite !elem_of_app in *. destruct Hx as [?|[Hx|?]]; auto. right. left. by eapply elem_of_sublist.
Qed.

(** ** Taking a thread *)

Lemma wp_index {A} (l : list A) i x (Q : A -> kstate -> Prop) s : 0 <= i -> l !! Z.to_nat i = Some x -> Q x s -> wp (index l i) Q s.
Proof. intros Hi E HQ. unfold index. rewrite E, (proj2 (Z.leb_le 0 i)) by done. by apply wp_ret. Qed.

Lemma wp_get_queue i q (Q : list Z -> kstate -> Prop) s :
  0 <= i -> k_ready_queues s !! Z.to_nat i = Some q -> Q q s -> wp (get_queue i) Q s.
Proof. intros Hi E HQ. by apply wp_bind, wp_fetch, (wp_index _ _ q). Qed.

Lemma ok_queue s i : sched_ok s -> 0 <= i < 3 -> exists q, k_ready_queues s !! Z.to_nat i = Some q.
Proof. intros Hs Hi. apply lookup_lt_is_Some_2. rewrite (so_queues _ Hs). lia. Qed.

Lemma ok_thread s t : sched_ok s -> t ∈ mjoin (k_ready_queues s) -> 0 <= t /\ exists x, k_threads s !! Z.to_nat t = Some x.
Proof. intros Hs Ht. destruct (so_valid _ Hs t Ht). split; [done|]. apply lookup_lt_is_Some_2. lia. Qed.

Lemma ok_quota s i : sched_ok s -> 0 <= i < 3 -> exists c m, k_pri_counters s !! Z.to_nat i = Some c /\ MAX_PRI_CNTRS !! Z.to_nat i = Some m /\
  0 <= c <= m /\ quota_left s i = m + 1 - c /\ m <= 9.
Proof.
  intros Hs Hi. destruct (lookup_lt_is_Some_2 (k_pri_counters s) (Z.to_nat i)) as [c Hc]; [rewrite (so_counters _ Hs); lia|].
  destruct (lookup_lt_is_Some_2 MAX_PRI_CNTRS (Z.to_nat i)) as [m Hm]; [unfold MAX_PRI_CNTRS; simpl; lia|].
  exists c, m. split_and!; [done | done | | | |]; try by destruct (so_quota _ Hs _ _ _ Hc Hm).
  - unfold quota_left. by rewrite Hc, Hm.
  - apply list_elem_of_lookup_2 in Hm. unfold MAX_PRI_CNTRS in Hm. set_unfold. lia.
Qed.

Lemma with_queue_ok s i q q' :
  sched_ok s -> k_ready_queues s !! Z.to_nat i = Some q -> q' `sublist_of` q -> sched_ok (with_queue i q' s).
Proof.
  intros Hs Hq Hsub. constructor; try apply Hs.
  - simpl. rewrite length_insert. apply Hs.
  - simpl. eapply NoDup_concat_insert; [apply Hs | done | done].
  - simpl. intros t Ht. apply (so_valid _ Hs). by eapply elem_of_concat_insert.
Qed.

Lemma charge_ok s i : sched_ok s -> 0 <= i < 3 -> sched_ok (charge i s).
Proof.
  intros Hs Hi. destruct (ok_quota s i Hs Hi) as (c & m & Hc & Hm & Hcm & Hql & _). unfold charge. rewrite Hql.
  destruct (Z.eqb_spec (m + 1 - c) 1); constructor; try apply Hs; simpl.
  - rewrite length_insert. apply Hs.
  - intros j c' m' Hj Hm'. destruct (decide (j = Z.to_nat i)) as [->|Hne].
    + rewrite list_lookup_insert_eq in Hj by (by eapply lookup_lt_Some). injection Hj as <-. assert (m' = m) as -> by congruence. lia.
    + rewrite list_lookup_insert_ne in Hj by done. by apply (so_quota _ Hs j).
  - pose proof (Z.mod_pos_bound (i + 1) 3). lia.
  - rewrite length_alter. apply Hs.
  - intros j c' m' Hj Hm'. destruct (decide (j = Z.to_nat i)) as [->|Hne].
    + rewrite list_lookup_alter_eq, Hc in Hj. injection Hj as <-. assert (m' = m) as -> by congruence. lia.
    + rewrite list_lookup_alter_ne in Hj by done. by apply (so_quota _ Hs j).
Qed.

Lemma wp_pop_ready fuel s q (Q : option Z -> kstate -> Prop) :
  sched_ok s -> k_ready_queues s !! Z.to_nat (k_curr_pri s) = Some q -> (length q < fuel)%nat ->
  (Forall (fun t => is_ready s t = false) q -> Q None (with_queue (k_curr_pri s) [] s)) ->
  (forall q' t l, q = q' ++ t :: l -> is_ready s t = true -> Forall (fun t => is_ready s t = false) l ->
     Q (Some t) (charge (k_curr_pri s) (with_queue (k_curr_pri s) q' s))) ->
  wp (pop_ready fuel) Q s.
Proof.
  revert s q. induction fuel as [|fuel IH]; intros s q Hs Hq Hf Hnone Hsome; [lia|]. cbn [pop_ready].
  pose proof (so_pri _ Hs) as Hp. apply wp_bind, wp_fetch, wp_bind, (wp_get_queue _ q); [lia | done|].
  destruct q as [|t q _] using rev_ind.
  { assert (E : with_queue (k_curr_pri s) [] s = s) by (unfold with_queue; rewrite list_insert_id by done; by destruct s).
    rewrite E in Hnone. by apply wp_ret, Hnone. }
  rewrite last_snoc, removelast_last. apply wp_bind, wp_modify. fold (with_queue (k_curr_pri s) q s).
  assert (Hsub : q `sublist_of` q ++ [t]) by apply sublist_inserts_r, reflexivity.
  pose proof (with_queue_ok s _ _ q Hs Hq Hsub) as Hs1.
  destruct (ok_thread s t Hs) as (Ht & x & Hx); [eapply queue_in_concat; [done|]; apply elem_of_app; right; left|].
  apply wp_bind, (wp_get_tcb _ x); [done | done|]. assert (Er : is_ready s t = bool_decide (t_state x = THREAD_READY)) by (unfold is_ready; by rewrite Hx).
  destruct (bool_decide (t_state x = THREAD_READY)) eqn:Eb; cbn [negb].
  - destruct (ok_quota s (k_curr_pri s) Hs Hp) as (c & m & Hc & Hm & Hcm & Hql & _).
    apply wp_bind, wp_fetch, wp_bind, (wp_index _ _ c); [lia | done|]. apply wp_bind, (wp_index _ _ m); [lia | done|].
    specialize (Hsome q t [] ltac:(done) Er (Forall_nil_2 _)). unfold charge in Hsome.
    change (quota_left (with_queue (k_curr_pri s) q s) (k_curr_pri s)) with (quota_left s (k_curr_pri s)) in Hsome. rewrite Hql in Hsome.
    apply wp_bind. destruct (Z.ltb_spec m (c + 1)).
    + rewrite (proj2 (Z.eqb_eq (m + 1 - c) 1)) in Hsome by lia. apply wp_bind, wp_modify, wp_modify, wp_ret. exact Hsome.
    + rewrite (proj2 (Z.eqb_neq (m + 1 - c) 1)) in Hsome by lia. apply wp_modify, wp_ret.
      replace (<[Z.to_nat (k_curr_pri s):=c + 1]> (k_pri_counters (with_queue (k_curr_pri s) q s)))
        with (alter (fun c => c + 1) (Z.to_nat (k_curr_pri s)) (k_pri_counters s)); [exact Hsome|].
      apply list_eq. intros j. change (k_pri_counters (with_queue (k_curr_pri s) q s)) with (k_pri_counters s).
      destruct (decide (j = Z.to_nat (k_curr_pri s))) as [->|Hne].
      * rewrite list_lookup_alter_eq, Hc, list_lookup_insert_eq by (by eapply lookup_lt_Some). done.
      * by rewrite list_lookup_alter_ne, list_lookup_insert_ne by done.
  - rewrite length_app in Hf. simpl in Hf. apply (IH (with_queue (k_curr_pri s) q s) q); [done | | lia | |].
    + simpl. rewrite list_lookup_insert_eq; [done|]. by eapply lookup_lt_Some.
    + intros Hl. simpl. rewrite with_queue_twice. apply Hnone. apply Forall_app. split; [exact Hl | by repeat constructor].
    + intros q' t' l -> Ht' Hl. simpl. rewrite with_queue_twice. apply (Hsome q' t' (l ++ [t])); [by rewrite <- app_assoc | exact Ht'|].
      apply Forall_app. split; [exact Hl | by repeat constructor].
Qed.

(** ** No starvation *)

(** What changes when a thread is taken: the queues, the quotas and the current
    priority. *)
Definition sched_frame (s s' : kstate) : Prop :=
  exists q c p, s' = set_k_ready_queues q (set_k_pri_counters c (set_k_curr_pri p s)).

Lemma sched_frame_trans s1 s2 s3 : sched_frame s1 s2 -> sched_frame s2 s3 -> sched_frame s1 s3.
Proof. intros (q & c & p & ->) (q' & c' & p' & ->). by exists q', c', p'. Qed.

Lemma with_queue_frame i q s : sched_frame s (with_queue i q s).
Proof. exists (<[Z.to_nat i := q]> (k_ready_queues s)), (k_pri_counters s), (k_curr_pri s). by destruct s. Qed.

Lemma charge_frame i s : sched_frame s (charge i s).
Proof.
  exists (k_ready_queues s), (k_pri_counters (charge i s)), (k_curr_pri (charge i s)). unfold charge.
  destruct (_ =? 1); destruct s; reflexivity.
Qed.

(** Thread [t] is ready in queue [p], with the threads [l] before it. *)
Definition waiting (s : kstate) (t p : Z) (l : list Z) : Prop :=
  0 <= p < 3 /\ is_ready s t = true /\ exists l1, k_ready_queues s !! Z.to_nat p = Some (l1 ++ t :: l).

(** How many threads can be dispatched before it is the turn of queue [p]. *)
Definition turn_wait (s : kstate) (p : Z) : Z :=
  let c := k_curr_pri s in
  if c =? p then 0 else if (c + 1) mod 3 =? p then quota_left s c else quota_left s c + quota_left s ((c + 1) mod 3).

Definition delay (s : kstate) (p : Z) (l : list Z) : Z := 18 * Z.of_nat (length l) + turn_wait s p.

Definition turns_to (c p : Z) : nat := Z.to_nat ((p - c) mod 3).

Lemma three_cases i : 0 <= i < 3 -> i = 0 \/ i = 1 \/ i = 2.
Proof. lia. Qed.

(** The priority after a given one. *)
Ltac next_pri :=
  change ((0 + 1) mod 3) with 1 in *; change ((1 + 1) mod 3) with 2 in *; change ((2 + 1) mod 3) with 0 in *.

Lemma quota_bound s i : sched_ok s -> 0 <= i < 3 -> 1 <= quota_left s i <= (if i =? 0 then 10 else if i =? 1 then 7 else 5).
Proof.
  intros Hs Hi. destruct (ok_quota s i Hs Hi) as (c & m & _ & Hm & Hcm & -> & _).
  destruct (three_cases i Hi) as [->|[->| ->]]; unfold MAX_PRI_CNTRS in Hm; simpl in *; injection Hm as <-; lia.
Qed.

Lemma turn_wait_bound s p : sched_ok s -> 0 <= p < 3 -> 0 <= turn_wait s p <= 17.
Proof.
  intros Hs Hp. pose proof (so_pri _ Hs) as Hc. unfold turn_wait.
  pose proof (quota_bound s 0 Hs ltac:(lia)). pose proof (quota_bound s 1 Hs ltac:(lia)). pose proof (quota_bound s 2 Hs ltac:(lia)).
  destruct (three_cases _ Hc) as [->|[->| ->]], (three_cases _ Hp) as [->|[->| ->]]; simpl in *; next_pri; lia.
Qed.

Lemma charge_quota s i j : sched_ok s -> 0 <= i < 3 -> 0 <= j < 3 ->
  quota_left (charge i s) j = if j =? i then (if quota_left s i =? 1 then quota_left (charge i s) i else quota_left s i - 1) else quota_left s j.
Proof.
  intros Hs Hi Hj. destruct (ok_quota s i Hs Hi) as (c & m & Hc & Hm & Hcm & Hql & _). destruct (Z.eqb_spec j i) as [->|Hne].
  - destruct (Z.eqb_spec (quota_left s i) 1); [done|]. unfold charge. rewrite (proj2 (Z.eqb_neq _ _)) by done.
    unfold quota_left at 1. simpl. rewrite list_lookup_alter_eq, Hc, Hm. simpl. lia.
  - unfold charge. destruct (quota_left s i =? 1); unfold quota_left; simpl.
    + by rewrite list_lookup_insert_ne by lia.
    + by rewrite list_lookup_alter_ne by lia.
Qed.

Lemma two_turns c p : 0 <= c < 3 -> 0 <= p < 3 -> c <> p -> (c + 1) mod 3 <> p -> ((c + 1) mod 3 + 1) mod 3 = p.
Proof. intros Hc Hp. destruct (three_cases _ Hc) as [->|[->| ->]], (three_cases _ Hp) as [->|[->| ->]]; done. Qed.

(** Dispatching a thread of another queue brings the turn of queue [p] nearer. *)
Lemma charge_turn s p : sched_ok s -> 0 <= p < 3 -> k_curr_pri s <> p -> turn_wait (charge (k_curr_pri s) s) p < turn_wait s p.
Proof.
  intros Hs Hp Hne. pose proof (so_pri _ Hs) as Hc. set (c := k_curr_pri s) in *.
  pose proof (quota_bound s c Hs Hc) as Hqc. pose proof (Z.mod_pos_bound (c + 1) 3 ltac:(lia)) as Hm.
  pose proof (quota_bound s ((c + 1) mod 3) Hs ltac:(lia)) as Hqn.
  assert (Hcm : (c + 1) mod 3 <> c) by (destruct (three_cases _ Hc) as [->|[->| ->]]; next_pri; lia).
  assert (Hcur : k_curr_pri (charge c s) = if quota_left s c =? 1 then (c + 1) mod 3 else c) by (unfold charge; destruct (quota_left s c =? 1); reflexivity).
  unfold turn_wait. rewrite Hcur. fold c. rewrite (proj2 (Z.eqb_neq c p)) by done.
  destruct (Z.eqb_spec (quota_left s c) 1) as [E1|E1].
  - destruct (Z.eqb_spec ((c + 1) mod 3) p) as [E|E]; [lia|].
    pose proof (two_turns c p Hc Hp Hne E) as E2.
    rewrite E2, Z.eqb_refl, charge_quota by (done || lia). rewrite (proj2 (Z.eqb_neq _ c)) by done. lia.
  - rewrite (proj2 (Z.eqb_neq c p)) by done. rewrite (charge_quota s c c), (charge_quota s c ((c + 1) mod 3)) by (done || lia).
    rewrite Z.eqb_refl, (proj2 (Z.eqb_neq ((c + 1) mod 3) c)), (proj2 (Z.eqb_neq (quota_left s c) 1)) by done. destruct (_ =? p); lia.
Qed.

Lemma turns_next c p : 0 <= c < 3 -> 0 <= p < 3 -> c <> p -> (turns_to ((c + 1) mod 3) p < turns_to c p)%nat.
Proof.
  intros Hc Hp Hne. destruct (three_cases _ Hc) as [->|[->| ->]], (three_cases _ Hp) as [->|[->| ->]]; try done; vm_compute; lia.
Qed.

(** Passing over an empty queue does too. *)
Lemma skip_turn s p (Hs : sched_ok s) :
  0 <= p < 3 -> k_curr_pri s <> p ->
  let s' := set_k_curr_pri ((k_curr_pri s + 1) mod 3) s in
  sched_ok s' /\ turn_wait s' p < turn_wait s p /\ (turns_to (k_curr_pri s') p < turns_to (k_curr_pri s) p)%nat.
Proof.
  intros Hp Hne s'. pose proof (so_pri _ Hs) as Hc. set (c := k_curr_pri s) in *. pose proof (Z.mod_pos_bound (c + 1) 3 ltac:(lia)).
  pose proof (quota_bound s c Hs Hc). pose proof (quota_bound s ((c + 1) mod 3) Hs ltac:(lia)). split; [constructor; apply Hs || (simpl; lia)|].
  split; [|by apply turns_next]. unfold turn_wait, s'. cbn [k_curr_pri set_k_curr_pri]. fold c.
  change (quota_left (set_k_curr_pri ((c + 1) mod 3) s)) with (quota_left s). rewrite (proj2 (Z.eqb_neq c p)) by done.
  destruct (Z.eqb_spec ((c + 1) mod 3) p) as [|E]; [lia|].
  pose proof (two_turns c p Hc Hp Hne E) as E2.
  rewrite E2, Z.eqb_refl. lia.
Qed.

(** Where the thread taken from its own queue leaves [t]. *)
Lemma pop_split (l1 l q' l0 : list Z) t u :
  l1 ++ t :: l = q' ++ u :: l0 -> t ∉ l0 -> (u = t /\ q' = l1) \/ exists l', q' = l1 ++ t :: l' /\ l = l' ++ u :: l0.
Proof.
  intros E Ht. apply app_eq_inv in E as [(k & -> & Ek)|(k & -> & Ek)].
  - destruct k as [|x k]; simpl in Ek; [injection Ek as <- <-; left; by rewrite app_nil_r|]. injection Ek as <- ->.
    destruct Ht. apply elem_of_app. right. left.
  - destruct k as [|x k]; simpl in Ek; [injection Ek as <- <-; left; by rewrite app_nil_r|]. injection Ek as <- ->.
    right. by exists k.
Qed.

Lemma waiting_frame s s' t p l l1 :
  0 <= p < 3 -> is_ready s t = true -> sched_frame s s' -> k_ready_queues s' !! Z.to_nat p = Some (l1 ++ t :: l) -> waiting s' t p l.
Proof. intros Hp Hr (q & c & pr & ->) Hq. split; [done|]. split; [exact Hr|]. by exists l1. Qed.

(** The next thread, when [t] is waiting: it is [t], or [t] has come closer. *)
Lemma wp_next_thread n s t p l (Q : option Z -> kstate -> Prop) :
  sched_ok s -> waiting s t p l -> (turns_to (k_curr_pri s) p < n)%nat ->
  (forall u s' l', sched_ok s' -> sched_frame s s' -> is_ready s u = true -> u ∈ mjoin (k_ready_queues s) ->
     u = t \/ (waiting s' t p l' /\ delay s' p l' < delay s p l) -> Q (Some u) s') ->
  wp (next_thread n) Q s.
Proof.
  revert s l. induction n as [|n IH]; intros s l Hs Hw Hn HQ; [lia|]. cbn [next_thread].
  pose proof Hw as (Hp & Hrt & l1 & Hq). pose proof (so_pri _ Hs) as Hc. destruct (ok_queue s _ Hs Hc) as [q Hqc].
  apply wp_bind, wp_fetch, wp_bind, (wp_get_queue _ q); [lia | done|]. apply wp_bind.
  apply (wp_pop_ready _ s q); [done | done | lia | |].
  - intros Hnr. destruct (decide (k_curr_pri s = p)) as [E|Hne].
    { rewrite E, Hq in Hqc. injection Hqc as <-. apply Forall_app in Hnr as [_ Hnr]. inversion Hnr. congruence. }
    apply wp_bind, wp_modify. set (s1 := with_queue _ [] s). assert (Hs1 : sched_ok s1) by (eapply with_queue_ok; [done | done | apply sublist_nil_l]).
    destruct (skip_turn s1 p Hs1 Hp Hne) as (Hs2 & Hd & Ht). assert (Hq1 : k_ready_queues s1 !! Z.to_nat p = Some (l1 ++ t :: l)).
    { simpl. rewrite list_lookup_insert_ne; [done | lia]. }
    assert (Hf : sched_frame s (set_k_curr_pri ((k_curr_pri s1 + 1) mod 3) s1)).
    { by exists (k_ready_queues s1), (k_pri_counters s1), ((k_curr_pri s1 + 1) mod 3). }
    apply (IH _ l Hs2); [by eapply waiting_frame | change (k_curr_pri s1) with (k_curr_pri s) in *; lia|]. intros u s' l' Hs' Hf' Hru Hin Hcase. apply (HQ u s' l'); try done.
    + eapply elem_of_concat_insert; [exact Hqc | apply sublist_nil_l | exact Hin].
    + destruct Hcase as [?|[? Hlt]]; [by left | right; split; [done|]]. unfold delay in *.
      change (turn_wait s1 p) with (turn_wait s p) in Hd. lia.
  - intros q' u l0 -> Hru Hl0. apply wp_ret. set (s1 := with_queue (k_curr_pri s) q' s).
    assert (Hs1 : sched_ok s1) by (eapply with_queue_ok; [done | done | apply sublist_inserts_r, reflexivity]).
    assert (Hf : sched_frame s (charge (k_curr_pri s) s1)) by (eapply sched_frame_trans; [apply with_queue_frame | apply charge_frame]).
    assert (Hin : u ∈ mjoin (k_ready_queues s)) by (eapply queue_in_concat; [done|]; apply elem_of_app; right; left).
    destruct (decide (k_curr_pri s = p)) as [E|Hne].
    + rewrite E, Hq in Hqc. injection Hqc as Eq. apply pop_split in Eq as [[-> ->]|(l' & -> & ->)].
      * eapply (HQ t _ l); eauto. by apply charge_ok.
      * apply (HQ u _ l'); [by apply charge_ok | done | done | done|]. right. split.
        { eapply (waiting_frame s); [done | done | done|]. unfold charge. rewrite <- E.
          destruct (_ =? 1); simpl; (rewrite list_lookup_insert_eq; [done | rewrite E; by eapply lookup_lt_Some]). }
        pose proof (turn_wait_bound (charge (k_curr_pri s) s1) p ltac:(by apply charge_ok) Hp).
        pose proof (turn_wait_bound s p Hs Hp). unfold delay. rewrite length_app. simpl. lia.
      * intros Ht0. rewrite Forall_forall in Hl0. specialize (Hl0 t Ht0). congruence.
    + apply (HQ u _ l); [by apply charge_ok | done | done | done|]. right. split.
      { eapply (waiting_frame s); [done | done | done|]. unfold charge. destruct (_ =? 1); simpl; rewrite list_lookup_insert_ne; try done; lia. }
      pose proof (charge_turn s1 p Hs1 Hp Hne) as Hd. change (k_curr_pri s1) with (k_curr_pri s) in Hd.
      change (turn_wait s1 p) with (turn_wait s p) in Hd. unfold delay. lia.
Qed.

(** The next thread, whoever is waiting. *)
Lemma wp_next_any n s (Q : option Z -> kstate -> Prop) :
  sched_ok s ->
  (forall r s', sched_ok s' -> sched_frame s s' -> (forall u, r = Some u -> is_ready s u = true /\ u ∈ mjoin (k_ready_queues s)) -> Q r s') ->
  wp (next_thread n) Q s.
Proof.
  revert s. induction n as [|n IH]; intros s Hs HQ; cbn [next_thread].
  { apply wp_ret, HQ; [done | | done]. exists (k_ready_queues s), (k_pri_counters s), (k_curr_pri s). by destruct s. }
  pose proof (so_pri _ Hs) as Hc. destruct (ok_queue s _ Hs Hc) as [q Hqc].
  apply wp_bind, wp_fetch, wp_bind, (wp_get_queue _ q); [lia | done|]. apply wp_bind. apply (wp_pop_ready _ s q); [done | done | lia | |].
  - intros _. apply wp_bind, wp_modify. set (s1 := with_queue _ [] s).
    assert (Hs1 : sched_ok s1) by (eapply with_queue_ok; [done | done | apply sublist_nil_l]).
    pose proof (Z.mod_pos_bound (k_curr_pri s1 + 1) 3 ltac:(lia)) as Hm.
    apply IH; [constructor; first [exact Hm | apply Hs1]|]. intros r s' Hs' Hf Hr. apply HQ; [done | |].
    + eapply sched_frame_trans; [|exact Hf]. by exists (k_ready_queues s1), (k_pri_counters s1), ((k_curr_pri s1 + 1) mod 3).
    + intros u Hu. destruct (Hr u Hu) as [? Hin]. split; [done|]. eapply elem_of_concat_insert; [exact Hqc | apply sublist_nil_l | exact Hin].
  - intros q' u l0 -> Hru _. apply wp_ret, HQ.
    + apply charge_ok; [|done]. eapply with_queue_ok; [done | done | apply sublist_inserts_r, reflexivity].
    + eapply sched_frame_trans; [apply with_queue_frame | apply charge_frame].
    + intros v [= <-]. split; [done|]. eapply queue_in_concat; [done|]. apply elem_of_app. right. left.
Qed.

(** ** The operations on the queues *)

(** The state between two calls into the scheduler. *)
Record sys_ok (s : kstate) : Prop := {
  sy_sched : sched_ok s;
  sy_grants : grants s;
  sy_lock : k_scheduler_lock s = false;
  sy_curr : forall c u, c ∈ k_cpus s -> c_curr_thread c = Some u -> 0 <= u < Z.of_nat (length (k_threads s))
}.

Lemma in_queues_spec thread s :
  existsb (fun q => existsb (Z.eqb thread) q) (k_ready_queues s) = bool_decide (thread ∈ mjoin (k_ready_queues s)).
Proof.
  apply eq_bool_prop_intro. rewrite bool_decide_spec, list_elem_of_join. split.
  - intros [q [Hq Hx]]%Is_true_true%existsb_exists. apply existsb_exists in Hx as (x & Hx & E%Z.eqb_eq). subst x.
    exists q. split; by apply list_elem_of_In.
  - intros (q & Hx & Hq). apply Is_true_true, existsb_exists. exists q. split; [by apply list_elem_of_In|].
    apply existsb_exists. exists thread. split; [by apply list_elem_of_In | apply Z.eqb_refl].
Qed.

Lemma enqueue_ok s i q u :
  sched_ok s -> k_ready_queues s !! Z.to_nat i = Some q -> (u ∉ mjoin (k_ready_queues s)) -> 0 <= u < Z.of_nat (length (k_threads s)) ->
  sched_ok (with_queue i (u :: q) s).
Proof.
  intros Hs Hq Hu Hv. apply list_elem_of_split_length in Hq as (l1 & l2 & E & Hl).
  assert (Eq : k_ready_queues (with_queue i (u :: q) s) = l1 ++ (u :: q) :: l2).
  { simpl. rewrite E, Hl, insert_app_r_alt, Nat.sub_diag by lia. done. }
  assert (Ep : mjoin (k_ready_queues (with_queue i (u :: q) s)) ≡ₚ u :: mjoin (k_ready_queues s)).
  { rewrite Eq, E, !join_app. cbn [mjoin list_join app]. symmetry. apply Permutation_middle. }
  constructor; try apply Hs.
  - rewrite Eq, length_app. pose proof (so_queues _ Hs) as H3. rewrite E, length_app in H3. exact H3.
  - rewrite Ep. constructor; [done | apply Hs].
  - intros t. rewrite Ep, elem_of_cons. intros [->|Ht]; [done | by apply (so_valid _ Hs)].
Qed.

(** A state reached without touching what [t] waits for. *)
Definition not_delayed (t : Z) (s s' : kstate) : Prop :=
  forall p l, waiting s t p l -> exists l', waiting s' t p l' /\ delay s' p l' <= delay s p l.

Lemma wp_add_thread_locked s u x (Q : unit -> kstate -> Prop) :
  sched_ok s -> grants s -> 0 <= u -> k_threads s !! Z.to_nat u = Some x ->
  (forall s', sched_ok s' -> grants s' -> (forall t, not_delayed t s s') ->
     (exists h q, s' = set_k_heap h (set_k_ready_queues q s)) ->
     (t_state x = THREAD_READY -> u ∈ mjoin (k_ready_queues s')) -> Q tt s') ->
  wp (add_thread_to_scheduler_locked u) Q s.
Proof.
  intros Hs Hg Hu Hx HQ. unfold add_thread_to_scheduler_locked. apply wp_bind, (wp_get_tcb _ x); [done | done|].
  assert (Hsame : forall t, not_delayed t s s) by (intros t p l Hw; exists l; split; [done | lia]).
  assert (Heq : exists h q, s = set_k_heap h (set_k_ready_queues q s)) by (exists (k_heap s), (k_ready_queues s); by destruct s).
  case_bool_decide as Hr; cbn [negb]; [|by apply wp_ret, HQ]. apply wp_bind, wp_fetch. rewrite in_queues_spec.
  case_bool_decide as Hin; [by apply wp_ret, HQ|].
  assert (Hpr : 0 <= t_priority x < 3) by (pose proof (so_priority _ Hs) as Hf; rewrite Forall_lookup in Hf; by apply (Hf _ _ Hx)).
  destruct (ok_queue s _ Hs Hpr) as [q Hq]. apply wp_bind, (wp_get_queue _ q); [lia | done|].
  apply wp_bind, wp_list_insert; [done | lia|]. intros h Hh. apply wp_modify. change (insert_at q 0 u) with (u :: q).
  fold (with_queue (t_priority x) (u :: q) (set_k_heap h s)).
  assert (Hs' : sched_ok (with_queue (t_priority x) (u :: q) (set_k_heap h s))).
  { apply enqueue_ok; [constructor; apply Hs | done | done|]. apply lookup_lt_Some in Hx. simpl. lia. }
  apply HQ; [done | done | | by eexists _, _ |].
  - intros t p l (Hp & Hrt & l1 & Hl). exists l. split; [|done]. split; [done|]. split; [done|]. simpl.
    destruct (decide (Z.to_nat (t_priority x) = Z.to_nat p)) as [E|Hne].
    + rewrite E, list_lookup_insert_eq by (by eapply lookup_lt_Some). rewrite E, Hl in Hq. injection Hq as <-. by exists (u :: l1).
    + rewrite list_lookup_insert_ne by done. by exists l1.
  - intros _. eapply (queue_in_concat _ (Z.to_nat (t_priority x))); [|left]. simpl. rewrite list_lookup_insert_eq; [done|]. by eapply lookup_lt_Some.
Qed.

Lemma not_delayed_trans t s1 s2 s3 : not_delayed t s1 s2 -> not_delayed t s2 s3 -> not_delayed t s1 s3.
Proof. intros H1 H2 p l Hw. destruct (H1 p l Hw) as (l' & Hw' & Hd). destruct (H2 p l' Hw') as (l'' & ? & ?). exists l''. split; [done | lia]. Qed.

(** A new version of the control block of [u]. *)
Definition with_tcb (u : Z) (x : tcb) (s : kstate) : kstate := set_k_threads (<[Z.to_nat u := x]> (k_threads s)) s.

Lemma with_tcb_ok u x s : sched_ok s -> 0 <= t_priority x < 3 -> sched_ok (with_tcb u x s).
Proof.
  intros Hs Hx. constructor; try apply Hs; simpl.
  - intros t Ht. rewrite length_insert. by apply (so_valid _ Hs).
  - apply Forall_insert; [apply Hs | done].
Qed.

Lemma with_tcb_delay t u x s : 0 <= t -> 0 <= u -> t <> u -> not_delayed t s (with_tcb u x s).
Proof.
  intros Ht Hu Hne p l (Hp & Hr & Hq). exists l. split; [|done]. split; [done|]. split; [|done]. unfold is_ready in *. simpl.
  by rewrite list_lookup_insert_ne by lia.
Qed.

Lemma waiting_valid s t p l : sched_ok s -> waiting s t p l -> 0 <= t.
Proof. intros Hs (_ & _ & l1 & Hq). apply (so_valid _ Hs t). eapply queue_in_concat; [exact Hq|]. apply elem_of_app. right. left. Qed.

Lemma relock_sched s b : k_scheduler_lock s = b -> set_k_scheduler_lock b (set_k_scheduler_lock true s) = s.
Proof. intros <-. by destruct s. Qed.

Lemma set_lock_ok b s : sched_ok s -> sched_ok (set_k_scheduler_lock b s).
Proof. intros Hs. constructor; apply Hs. Qed.

(** A step of the scheduler while [t] is waiting: it dispatches [t] or brings it
    closer. *)
Lemma wp_scheduler_tick me s c t p l (Q : option (option Z * option Z) -> kstate -> Prop) :
  sys_ok s -> k_cpus s !! me = Some c -> waiting s t p l ->
  (forall u s', sys_ok s' -> k_cpus s' !! me = Some (mkCpu (c_ready_to_schedule c) (Some u) (to_u64 (c_scheduler_ticks c + 1))) ->
     u = t \/ (exists l', waiting s' t p l' /\ delay s' p l' < delay s p l) -> Q (Some (c_curr_thread c, Some u)) s') ->
  wp (scheduler_tick me) Q s.
Proof.
  intros [Hs Hg Hl Hcur] Hme Hw HQ. pose proof (waiting_valid _ _ _ _ Hs Hw) as Ht. unfold scheduler_tick.
  apply wp_bind, wp_fetch. rewrite Hme. apply wp_bind, wp_spin_lock; [done|]. apply wp_bind, wp_modify.
  set (f := fun c => set_c_scheduler_ticks (to_u64 (c_scheduler_ticks c + 1)) c).
  set (s1 := set_k_cpus _ _). assert (Hs1 : sched_ok s1) by (constructor; apply Hs).
  assert (Hw1 : waiting s1 t p l) by exact Hw. assert (Hd1 : delay s1 p l = delay s p l) by done.
  assert (Hmid : forall s2 l2, sched_ok s2 -> grants s2 -> waiting s2 t p l2 -> delay s2 p l2 <= delay s p l ->
            length (k_threads s2) = length (k_threads s) -> k_cpus s2 = alter f me (k_cpus s) ->
            wp (next ← get_next_thread_locked;
                _ ← upd_cpu me (set_c_curr_thread next);
                _ ← (match next with None => mret tt | Some n => upd_tcb n (set_t_state THREAD_RUNNING) end);
                _ ← log_call (Timer_schedule_local me);
                _ ← scheduler_unlock;
                mret (Some (c_curr_thread c, next))) Q s2).
  { intros s2 l2 Hs2 Hg2 Hw2 Hd2 Hlen Hcpus. apply wp_bind, (wp_next_thread 3 s2 t p l2); [done | done | |].
    { unfold turns_to. pose proof (Z.mod_pos_bound (p - k_curr_pri s2) 3). lia. }
    intros u s3 l3 Hs3 (q3 & c3 & p3 & E3) Hru Hin Hcase. destruct (ok_thread s2 u Hs2 Hin) as (Hu & x & Hx).
    apply wp_bind, wp_modify, wp_bind, (wp_upd_tcb u x); [done | by rewrite E3|]. apply wp_bind, wp_modify, wp_bind, wp_modify, wp_ret.
    set (s4 := set_k_scheduler_lock false _).
    assert (Hc4 : k_cpus s4 = alter (set_c_curr_thread (Some u)) me (alter f me (k_cpus s))) by (unfold s4; simpl; rewrite E3; simpl; by rewrite Hcpus).
    assert (Hlen4 : length (k_threads s4) = length (k_threads s)) by (unfold s4; simpl; rewrite length_insert, E3; simpl; exact Hlen).
    assert (Hxs : k_threads s3 !! Z.to_nat u = Some x) by (by rewrite E3).
    assert (Hs4 : sched_ok s4).
    { pose proof (with_tcb_ok u (set_t_state THREAD_RUNNING x) s3 Hs3) as Hok. destruct Hok; [|constructor; done].
      pose proof (so_priority _ Hs3) as Hf. rewrite Forall_lookup in Hf. exact (Hf _ _ Hxs). }
    apply (HQ u s4).
    - constructor; [done | unfold s4; simpl; rewrite E3; exact Hg2 | done|]. rewrite Hc4, Hlen4. intros c' v Hc' Hv.
      apply list_elem_of_lookup in Hc' as (i & Hi). destruct (decide (i = me)) as [->|Hne].
      + rewrite !list_lookup_alter_eq, Hme in Hi. injection Hi as <-. injection Hv as <-. apply lookup_lt_Some in Hx. lia.
      + rewrite !list_lookup_alter_ne in Hi by done. apply (Hcur c' v); [by eapply list_elem_of_lookup_2 | done].
    - rewrite Hc4, !list_lookup_alter_eq, Hme. done.
    - destruct Hcase as [?|[Hw3 Hd3]]; [by left|]. destruct (decide (u = t)) as [?|Hne]; [by left|]. right.
      destruct (with_tcb_delay t u (set_t_state THREAD_RUNNING x) s3 Ht Hu ltac:(done) p l3 Hw3) as (l4 & Hw4 & Hd4).
      exists l4. split; [exact Hw4|]. change (delay s4 p l4) with (delay (with_tcb u (set_t_state THREAD_RUNNING x) s3) p l4). lia. }
  apply wp_bind. destruct (c_curr_thread c) as [v|] eqn:Ecur; [|apply wp_ret, (Hmid s1 l); done || lia].
  destruct (Hcur c v) as [Hv Hvl]; [by eapply list_elem_of_lookup_2 | done|].
  destruct (lookup_lt_is_Some_2 (k_threads s) (Z.to_nat v)) as [y Hy]; [lia|].
  apply wp_bind, (wp_get_tcb _ y); [done | done|]. case_bool_decide as Hrun; [|apply wp_ret, (Hmid s1 l); done || lia].
  apply wp_bind, (wp_upd_tcb v y); [done | done|]. fold (with_tcb v (set_t_state THREAD_READY y) s1).
  assert (Hvt : t <> v).
  { intros <-. destruct Hw as (_ & Hr & _). unfold is_ready in Hr. rewrite Hy in Hr. apply bool_decide_eq_true in Hr. congruence. }
  destruct (with_tcb_delay t v (set_t_state THREAD_READY y) s1 Ht Hv Hvt p l Hw1) as (l2 & Hw2 & Hd2).
  assert (Hy' : k_threads (with_tcb v (set_t_state THREAD_READY y) s1) !! Z.to_nat v = Some (set_t_state THREAD_READY y)).
  { simpl. rewrite list_lookup_insert_eq; [done|]. by eapply lookup_lt_Some. }
  eapply (wp_add_thread_locked _ v _); [| done | done | exact Hy' |].
  { apply with_tcb_ok; [done|]. pose proof (so_priority _ Hs) as Hf. rewrite Forall_lookup in Hf. exact (Hf _ _ Hy). }
  intros s3 Hs3 Hg3 Hnd (h & q & E3) _. destruct (Hnd t p l2 Hw2) as (l3 & Hw3 & Hd3).
  apply (Hmid s3 l3); [done | done | done | lia | | by rewrite E3]. rewrite E3. simpl. by rewrite length_insert.
Qed.

(** ** What else happens between two steps of the scheduler *)

(** The other operations of the kernel that touch threads or queues, as long as
    they do not stop, block or terminate [t]. *)
Inductive other_step (t : Z) : kstate -> kstate -> Prop :=
  | other_add u s s' : add_thread_to_scheduler u s = Ok (tt, s') -> other_step t s s'
  | other_remove u s s' : u <> t -> 0 <= u -> remove_thread_from_scheduler u s = Ok (tt, s') -> other_step t s s'
  | other_state u st s s' : u <> t -> upd_tcb u (set_t_state st) s = Ok (tt, s') -> other_step t s s'
  | other_priority u pr s s' : 0 <= pr < 3 -> upd_tcb u (set_t_priority pr) s = Ok (tt, s') -> other_step t s s'
  | other_create x s : 0 <= t_priority x < 3 -> other_step t s (set_k_threads (k_threads s ++ [x]) s)
  | other_free x l s :
      k_threads s = l ++ [x] -> (Z.of_nat (length l) ∉ mjoin (k_ready_queues s)) ->
      (forall c, c ∈ k_cpus s -> c_curr_thread c <> Some (Z.of_nat (length l))) -> other_step t s (set_k_threads l s)
  | other_processes ps gs s : other_step t s (set_k_processes ps (set_k_pgrps gs s)).

Lemma erase_thread_filter u q : erase_thread u q = filter (fun x => x <> u) q.
Proof.
  induction q as [|x q IH]; [done|]. cbn [erase_thread]. rewrite filter_cons. destruct (Z.eqb_spec x u); case_decide; try done. by f_equal.
Qed.

Lemma wp_remove_thread u s (Q : unit -> kstate -> Prop) :
  k_scheduler_lock s = false -> length (k_ready_queues s) = 3%nat ->
  Q tt (set_k_ready_queues (map (erase_thread u) (k_ready_queues s)) s) -> wp (remove_thread_from_scheduler u) Q s.
Proof.
  intros Hl H3 HQ. unfold remove_thread_from_scheduler.
  destruct (k_ready_queues s) as [|a [|b [|c [|]]]] eqn:Eq; try done. apply wp_bind, wp_spin_lock; [done|]. apply wp_bind.
  unfold for_st. do 3 (apply wp_bind; apply wp_bind; eapply wp_get_queue; [lia | simpl; rewrite ?Eq; reflexivity|]; apply wp_modify).
  apply wp_ret, wp_modify. replace (set_k_scheduler_lock false _) with (set_k_ready_queues (map (erase_thread u) [a; b; c]) s); [done|].
  destruct s; simpl in *. by rewrite Hl, Eq.
Qed.

Lemma erase_queues_ok u s : sched_ok s -> sched_ok (set_k_ready_queues (map (erase_thread u) (k_ready_queues s)) s).
Proof.
  intros Hs. assert (Hsub : forall qs, mjoin (map (erase_thread u) qs) `sublist_of` mjoin qs).
  { induction qs as [|q qs IH]; [done|]. cbn. apply sublist_app; [|exact IH]. rewrite erase_thread_filter. apply sublist_filter. }
  constructor; try apply Hs; simpl.
  - rewrite length_map. apply Hs.
  - eapply sublist_NoDup; [apply (so_nodup _ Hs) | apply Hsub].
  - intros t Ht. apply (so_valid _ Hs). eapply elem_of_sublist; [exact Ht | apply Hsub].
Qed.

Lemma erase_queues_delay t u s : u <> t -> not_delayed t s (set_k_ready_queues (map (erase_thread u) (k_ready_queues s)) s).
Proof.
  intros Hne p l (Hp & Hr & l1 & Hq). exists (erase_thread u l). split.
  - split; [done|]. split; [done|]. exists (erase_thread u l1). simpl. rewrite list_lookup_fmap, Hq. simpl. f_equal.
    rewrite !erase_thread_filter, filter_app, filter_cons_True by done. done.
  - unfold delay. change (turn_wait (set_k_ready_queues _ s) p) with (turn_wait s p). rewrite erase_thread_filter.
    pose proof (length_filter (fun x => x <> u) l). lia.
Qed.

Lemma wp_add_thread u x s (Q : unit -> kstate -> Prop) :
  sys_ok s -> 0 <= u -> k_threads s !! Z.to_nat u = Some x ->
  (forall s', sys_ok s' -> (forall t, not_delayed t s s') -> (exists h q, s' = set_k_heap h (set_k_ready_queues q s)) ->
     (t_state x = THREAD_READY -> u ∈ mjoin (k_ready_queues s')) -> Q tt s') ->
  wp (add_thread_to_scheduler u) Q s.
Proof.
  intros [Hs Hg Hl Hcur] Hu Hx HQ.
  apply wp_bind, wp_spin_lock; [done|]. apply wp_bind, (wp_add_thread_locked _ u x); [by apply set_lock_ok | done | done | done|].
  intros s1 Hs1 Hg1 Hnd (h & q & E1) Hin. apply wp_modify. apply HQ; [|exact Hnd | | exact Hin].
  - constructor; [by apply set_lock_ok | exact Hg1 | done|]. simpl. rewrite E1. exact Hcur.
  - exists h, q. rewrite E1. destruct s; simpl in *. by rewrite Hl.
Qed.

Lemma add_thread_step u s s' :
  sys_ok s -> add_thread_to_scheduler u s = Ok (tt, s') -> sys_ok s' /\ forall t, not_delayed t s s'.
Proof.
  intros Hok E. pose proof (sy_lock _ Hok) as Hl.
  assert (Hx : 0 <= u /\ exists x, k_threads s !! Z.to_nat u = Some x).
  { unfold add_thread_to_scheduler, add_thread_to_scheduler_locked, mbind, stM_bind, scheduler_lock, spin_lock in E. rewrite Hl in E.
    unfold get_tcb in E. cbn [k_threads set_k_scheduler_lock] in E.
    destruct (k_threads s !! Z.to_nat u) as [x|]; [|done]. destruct (Z.leb_spec 0 u); [|done]. split; [done | by exists x]. }
  destruct Hx as (Hu & x & Hx).
  cut (wp (add_thread_to_scheduler u) (fun _ s' => sys_ok s' /\ forall t, not_delayed t s s') s).
  { intros ([] & s2 & E2 & H2). assert (s2 = s') as <- by congruence. exact H2. }
  by apply (wp_add_thread u x).
Qed.

Lemma upd_tcb_step u f s s' : upd_tcb u f s = Ok (tt, s') -> 0 <= u /\ exists x, k_threads s !! Z.to_nat u = Some x /\ s' = with_tcb u (f x) s.
Proof.
  unfold upd_tcb, mbind, stM_bind, get_tcb. destruct (k_threads s !! Z.to_nat u) as [x|]; [|done]. destruct (Z.leb_spec 0 u); [|done].
  intros [= <-]. split; [done | by exists x].
Qed.

Lemma with_tcb_sys u x s : sys_ok s -> 0 <= t_priority x < 3 -> sys_ok (with_tcb u x s).
Proof. intros [Hs Hg Hl Hcur] Hp. constructor; [by apply with_tcb_ok | done | done|]. simpl. by rewrite length_insert. Qed.

Lemma other_step_ok t s s' : 0 <= t -> sys_ok s -> other_step t s s' -> sys_ok s' /\ not_delayed t s s'.
Proof.
  intros Ht Hok Hstep. pose proof Hok as [Hs Hg Hl Hcur].
  assert (Hpr : forall u x, k_threads s !! u = Some x -> 0 <= t_priority x < 3).
  { intros u x Hx. pose proof (so_priority _ Hs) as Hf. rewrite Forall_lookup in Hf. exact (Hf _ _ Hx). }
  destruct Hstep as [u s s' E | u s s' Hne Hu E | u st s s' Hne E | u pr s s' Hp E | x s Hp | x l s E Hin Hc | ps gs s].
  - destruct (add_thread_step u s s' Hok E) as [? Hnd]. auto.
  - destruct (wp_remove_thread u s (fun _ s' => s' = set_k_ready_queues (map (erase_thread u) (k_ready_queues s)) s) (sy_lock _ Hok) (so_queues _ (sy_sched _ Hok)) eq_refl) as ([] & s2 & E2 & ->).
    assert (s' = set_k_ready_queues (map (erase_thread u) (k_ready_queues s)) s) as -> by congruence.
    split; [|by apply erase_queues_delay]. constructor; [by apply erase_queues_ok | done | done | done].
  - apply upd_tcb_step in E as (Hu & x & Hx & ->). split; [apply with_tcb_sys; [done | exact (Hpr _ _ Hx)] | by apply with_tcb_delay].
  - apply upd_tcb_step in E as (Hu & x & Hx & ->). split; [by apply with_tcb_sys|]. destruct (decide (t = u)) as [<-|Hne]; [|by apply with_tcb_delay].
    intros p l (Hpp & Hr & Hq). exists l. split; [|done]. split; [done|]. split; [|done]. unfold is_ready in *. simpl.
    rewrite list_lookup_insert_eq by (by eapply lookup_lt_Some). by rewrite Hx in Hr.
  - split.
    + constructor; [|done | done | simpl; intros c u Hc' Hu'; rewrite length_app; specialize (Hcur c u Hc' Hu'); lia].
      constructor; try apply Hs; simpl; [|apply Forall_app; split; [apply Hs | by apply Forall_singleton]].
      intros u Hu. rewrite length_app. pose proof (so_valid _ Hs u Hu). lia.
    + intros p l (Hpp & Hr & Hq). exists l. split; [|done]. split; [done|]. split; [|done]. unfold is_ready in *. simpl.
      destruct (k_threads s !! Z.to_nat t) eqn:Et; [|done]. by rewrite (lookup_app_l_Some _ _ _ _ Et).
  - assert (Hlast : forall u, u <> Z.of_nat (length l) -> 0 <= u < Z.of_nat (length (k_threads s)) -> 0 <= u < Z.of_nat (length l)).
    { intros u Hu. rewrite E, length_app. simpl. lia. }
    split.
    + constructor; [|done | done | simpl; intros c u Hc' Hu'; apply Hlast; [intros ->; by apply (Hc c) | by apply (Hcur c)]].
      constructor; try apply Hs; simpl; [|pose proof (so_priority _ Hs) as Hf; rewrite E in Hf; by apply Forall_app in Hf as [? _]].
      intros u Hu. apply Hlast; [by intros -> | by apply (so_valid _ Hs)].
    + intros p l' (Hpp & Hr & l1 & Hq). exists l'. split; [|done]. split; [done|]. split; [|by exists l1]. unfold is_ready in *. simpl.
      assert (Htl : (Z.to_nat t < length l)%nat).
      { assert (Hmem : t ∈ mjoin (k_ready_queues s)) by (eapply queue_in_concat; [exact Hq|]; apply elem_of_app; right; left).
        pose proof (Hlast t ltac:(by intros ->) (so_valid _ Hs t Hmem)). lia. }
      by rewrite E, lookup_app_l in Hr.
  - split; [constructor; done || (constructor; apply Hs)|]. intros p l Hw. exists l. split; [exact Hw | done].
Qed.

Lemma other_steps_ok t s s' : 0 <= t -> sys_ok s -> rtc (other_step t) s s' -> sys_ok s' /\ not_delayed t s s'.
Proof.
  intros Ht Hok Hsteps. induction Hsteps as [s|s s1 s2 H1 _ IH].
  - split; [done|]. intros p l Hw. exists l. split; [done | lia].
  - destruct (other_step_ok t s s1 Ht Hok H1) as [Hok1 Hd1]. destruct (IH Hok1) as [Hok2 Hd2]. split; [done | by eapply not_delayed_trans].
Qed.

(** [t] is dispatched by one of the next [n] steps of the scheduler, on whatever
    CPU each of them is made and whatever the rest of the kernel does in
    between. *)
Fixpoint runs_within (n : nat) (t : Z) (s : kstate) : Prop :=
  match n with
  | O => False
  | S n =>
      forall s1 me c, rtc (other_step t) s s1 -> k_cpus s1 !! me = Some c ->
        exists old u s2, scheduler_tick me s1 = Ok (Some (old, Some u), s2) /\ (u = t \/ runs_within n t s2)
  end.

Lemma runs_within_delay n t s p l : sys_ok s -> waiting s t p l -> delay s p l < Z.of_nat n -> runs_within n t s.
Proof.
  revert s l. induction n as [|n IH]; intros s l Hok Hw Hd.
  - pose proof (turn_wait_bound s p (sy_sched _ Hok) ltac:(by destruct Hw)). unfold delay in Hd. lia.
  - intros s1 me c Hsteps Hme. pose proof (waiting_valid _ _ _ _ (sy_sched _ Hok) Hw) as Ht.
    destruct (other_steps_ok t s s1 Ht Hok Hsteps) as [Hok1 Hnd]. destruct (Hnd p l Hw) as (l1 & Hw1 & Hd1).
    destruct (wp_scheduler_tick me s1 c t p l1 (fun r s2 => exists u, r = Some (c_curr_thread c, Some u) /\ (u = t \/ runs_within n t s2)))
      as (r & s2 & E & u & -> & Hu); [done | done | done | |].
    + intros u s2 Hok2 _ Hcase. exists u. split; [done|]. destruct Hcase as [->|(l2 & Hw2 & Hd2)]; [by left | right].
      apply (IH s2 l2); [done | done | lia].
    + by exists (c_curr_thread c), u, s2.
Qed.

(** ** Properties *)

(** C9. No ready thread starves: a ready thread with the threads [l] before it in
    its queue (the back of the vector, where threads are taken) is dispatched by one of the next 18 * (length l + 1) steps of the
    scheduler, whatever CPUs make them and whatever else the kernel does in
    between to other threads, provided it is not itself stopped, blocked or
    killed and no allocation fails. *)
Theorem no_starvation s t p l : sys_ok s -> waiting s t p l -> runs_within (18 * (length l + 1)) t s.
Proof.
  intros Hok Hw. apply (runs_within_delay _ _ _ p l Hok Hw). pose proof (turn_wait_bound s p (sy_sched _ Hok) ltac:(by destruct Hw)).
  unfold delay. lia.
Qed.

(** Two ready threads of the lowest priority on one idle CPU. *)
Definition demo_ctx : cpu_context := mkCtx 0 0 [] 0 0 0 0.
Definition demo_thread (tid priority : Z) : tcb := mkTcb tid THREAD_READY THREAD_READY demo_ctx 0 0 0 0 true [] 0 0 0 0 priority 0 0 0.
Definition demo_kernel : kstate :=
  mkK [demo_thread 0 2; demo_thread 1 2] [[]; []; [0; 1]] [0; 0; 0] 0 [] ∅ [mkCpu false None 0] false false false (fun _ => true) (fun _ => None) [].

Lemma no_starvation_witness : sys_ok demo_kernel /\ runs_within 36 0 demo_kernel.
Proof.
  assert (Hok : sys_ok demo_kernel).
  { constructor; [constructor | done | done | intros c u Hc Hu; by apply list_elem_of_singleton in Hc as ->]; simpl; try done.
    - by apply (bool_decide_unpack _).
    - intros t Ht. rewrite !elem_of_cons in Ht. destruct Ht as [->|[->|Ht%elem_of_nil]]; [lia | lia | done].
    - intros [|[|[|i]]] c m [=<-] [=<-]; lia.
    - by repeat constructor. }
  split; [exact Hok|]. apply (no_starvation demo_kernel 0 2 [1]); [exact Hok|]. split; [lia|]. split; [done|]. by exists [].
Defined.
