(* ===== verification/Threads.v ===== *)
(** * Threads

    kernel/threading/thread.c, with the two functions its state changes go
    through, [pcb_thread_change_state] of kernel/scheduler/process.c and
    [send_sigchld] of kernel/signals/signals.c.

    The three call each other: a thread that becomes ready changes the state of
    its process, which wakes a thread of the parent that waits for it, which
    changes the state of the parent, and so on towards the root.  [unblock_n n]
    is [unblock_thread] with a stack that has room for [n] such levels;
    [unblock_thread] has room for one level per process.

    The accounting invariant says that the four counters of a process are the
    numbers of its threads in each kind of state and that its own state is the
    one the counters call for. *)

From S2P Require Import Prelude Errors Services Programs Tasks Sched.

Definition WNOHANG : Z := 1.
Definition WUNTRACED : Z := 2.
Definition WCONTINUED : Z := 4.
Definition wait_flags : list Z := [WNOHANG; WUNTRACED; WCONTINUED].

Definition BLOCK_UNTIL_NEW_CHILD : Z := 1.
Definition BLOCK_UNTIL_SIGNAL : Z := 2.
Definition BLOCK_UNTIL_TIMER : Z := 4.
Definition BLOCK_UNTIL_TTY_REQUEST : Z := 8.
Definition block_events : list Z := [BLOCK_UNTIL_NEW_CHILD; BLOCK_UNTIL_SIGNAL; BLOCK_UNTIL_TIMER; BLOCK_UNTIL_TTY_REQUEST].

Definition THREAD_STACK_SIZE : Z := 4096.

(** [flags & f] as a condition *)
Definition has (flags f : Z) : bool := negb (Z.land flags f =? 0).

Definition is_running (st : thread_state) : bool :=
  match st with THREAD_READY | THREAD_RUNNING => true | _ => false end.
Definition is_stopped (st : thread_state) : bool :=
  match st with THREAD_STOPPED => true | _ => false end.
Definition is_zombie (st : thread_state) : bool :=
  match st with THREAD_ZOMBIE => true | _ => false end.
Definition is_blocked (st : thread_state) : bool :=
  match st with THREAD_BLOCKED_INTERRUPTABLE | THREAD_BLOCKED_KILLABLE | THREAD_BLOCKED_UNINTERUPTABLE => true | _ => false end.

(** ** Look-up *)

Definition get_pcb_by_pid (pid : Z) : KM (option Z) :=
  _ ← process_table_lock;
  if (MAX_PROCESS_COUNT <=? pid) || (pid <? 0) then _ ← process_table_unlock; mret None else
  x ← get_pcb pid;
  if bool_decide (p_state x = PROC_UNUSED_STATE) then _ ← process_table_unlock; mret None else
  _ ← process_table_unlock;
  mret (Some pid).

Definition thread_get_by_tid (tid : Z) : KM (option Z) :=
  _ ← threads_lock;
  threads ← fetch k_threads;
  if (tid <? 0) || (Z.of_nat (length threads) <=? tid) then _ ← threads_unlock; mret None else
  x ← get_tcb tid;
  if bool_decide (t_state x = THREAD_UNUSED) then _ ← threads_unlock; mret None else
  _ ← threads_unlock;
  mret (Some tid).

(** ** State changes *)

(** The first switch of [pcb_thread_change_state]. *)
Definition leave_state (st : thread_state) (x : pcb) : pcb :=
  if is_running st then set_p_num_running_threads (p_num_running_threads x - 1) x
  else if is_stopped st then set_p_num_stopped_threads (p_num_stopped_threads x - 1) x
  else if is_zombie st then set_p_num_zombie_threads (p_num_zombie_threads x - 1) x
  else if is_blocked st then set_p_num_blocked_threads (p_num_blocked_threads x - 1) x
  else x.

(** The second one. *)
Definition enter_state (st : thread_state) (x : pcb) : pcb :=
  if is_running st then set_p_num_running_threads (p_num_running_threads x + 1) x
  else if is_stopped st then set_p_num_stopped_threads (p_num_stopped_threads x + 1) x
  else if is_zombie st then set_p_num_zombie_threads (p_num_zombie_threads x + 1) x
  else if is_blocked st then set_p_num_blocked_threads (p_num_blocked_threads x + 1) x
  else x.

(** Whether the waiting thread [w] waits for the child [child] of group [pgid]. *)
Definition waits_for (w : tcb) (child pgid : Z) : bool :=
  (t_waiting_for_pid w =? -1) || (t_waiting_for_pid w =? child)
  || ((t_waiting_for_pid w <? -1) && (pgid =? - t_waiting_for_pid w)).

(** Whether it is to be woken for a child in state [st]. *)
Definition wakes_for (w : tcb) (st : process_state) : bool :=
  match st with
  | PROC_ZOMBIE_STATE => true
  | PROC_STOPPED_STATE => has (t_waiting_for_flags w) WUNTRACED
  | PROC_RUNNING_STATE => has (t_waiting_for_flags w) WCONTINUED
  | _ => false
  end.

Section level.
Context (unblock : option Z -> KM unit).

(** The loop of [send_sigchld] over the threads that wait for a child. *)
Fixpoint notify_waiter (child : Z) (q : list Z) : KM Z :=
  match q with
  | [] => mret 0
  | tid :: q =>
      t ← thread_get_by_tid tid;
      match t with
      | None => notify_waiter child q
      | Some t =>
          w ← get_tcb t;
          c ← get_pcb child;
          if waits_for w child (p_pgid c) then
            if wakes_for w (p_state c) then _ ← unblock (Some t); mret 0 else mret 0
          else notify_waiter child q
      end
  end.

Definition send_sigchld_with (child : Z) : KM Z :=
  c ← get_pcb_by_pid child;
  match c with
  | None => mret SYS_ESRCH
  | Some c =>
      x ← get_pcb c;
      _ ← (if bool_decide (p_state x = PROC_STOPPED_STATE) then upd_pcb c (set_p_wait_stop_pending true)
           else if bool_decide (p_state x = PROC_RUNNING_STATE) then upd_pcb c (set_p_wait_cont_pending true)
           else mret tt);
      parent ← get_pcb_by_pid (p_ppid x);
      match parent with
      | None => mret SYS_ESRCH
      | Some parent => y ← get_pcb parent; notify_waiter child (p_child_waitq y)
      end
  end.

Definition change_state_with (p : Z) (old_state new_state : thread_state) : KM unit :=
  _ ← upd_pcb p (leave_state old_state);
  _ ← upd_pcb p (enter_state new_state);
  x ← get_pcb p;
  if 0 <? p_num_running_threads x then
    _ ← upd_pcb p (set_p_state PROC_RUNNING_STATE);
    _ ← send_sigchld_with (p_pid x);
    mret tt
  else if 0 <? p_num_blocked_threads x then upd_pcb p (set_p_state PROC_BLOCKED_STATE)
  else if 0 <? p_num_stopped_threads x then
    _ ← upd_pcb p (set_p_state PROC_STOPPED_STATE);
    _ ← send_sigchld_with (p_pid x);
    mret tt
  else
    _ ← upd_pcb p (set_p_state PROC_ZOMBIE_STATE);
    _ ← send_sigchld_with (p_pid x);
    mret tt.

Definition unblock_with (tcb : option Z) : KM unit :=
  match tcb with
  | None => mret tt
  | Some t =>
      x ← get_tcb t;
      if negb (is_blocked (t_state x)) then mret tt else
      _ ← change_state_with (t_pcb x) (t_state x) THREAD_READY;
      _ ← upd_tcb t (set_t_state THREAD_READY);
      _ ← upd_tcb t (set_t_blocked_until 0);
      add_thread_to_scheduler t
  end.

End level.

Fixpoint unblock_n (levels : nat) (tcb : option Z) : KM unit :=
  match levels with
  | O => hang
  | S levels => unblock_with (unblock_n levels) tcb
  end.

Definition LEVELS : nat := 257.

Definition unblock_thread : option Z -> KM unit := unblock_n LEVELS.
Definition send_sigchld (child : Z) : KM Z := send_sigchld_with (unblock_n LEVELS) child.
Definition pcb_thread_change_state (p : Z) (old_state new_state : thread_state) : KM unit :=
  change_state_with (unblock_n LEVELS) p old_state new_state.

(** ** Creation and release *)

Definition NULL : Z := -1.

Definition sizeof_tcb : Z := 248.

Definition zero_ctx : cpu_context := mkCtx 0 0 (repeat 0 9) 0 0 0 0.

(** A control block as [kcalloc] returns it. *)
Definition zero_tcb : tcb := mkTcb 0 THREAD_UNUSED THREAD_UNUSED zero_ctx NULL 0 0 0 false [] 0 0 0 0 0 0 0 0.

(** [alloc_page] for a kernel stack: 0 when there is no page. *)
Definition stack_page : KM Z :=
  b ← fetch k_pages;
  _ ← modify (set_k_pages (fun n => b (S n)));
  mret (default 0 (b 0%nat)).

(** [thread_start_trampoline] is code: its address is a parameter. *)
Section create.
Context (thread_start_trampoline : Z).

Fixpoint unused_slot (threads : list tcb) (i : Z) : option Z :=
  match threads with
  | [] => None
  | x :: threads => if bool_decide (t_state x = THREAD_UNUSED) then Some i else unused_slot threads (i + 1)
  end.

Definition new_tcb (tid pcb stack start_routine arg ttbr0 ttbr0_va : Z) (x : tcb) : tcb :=
  mkTcb tid THREAD_READY THREAD_READY
    (mkCtx start_routine arg (repeat 0 9) thread_start_trampoline (stack + THREAD_STACK_SIZE) ttbr0 ttbr0_va)
    pcb stack (t_user_stack_va x) 0 true [] start_routine arg 0 0 1 0 (-2) 0.

Definition thread_create (parent_pcb start_routine arg : Z) : KM Z :=
  _ ← threads_lock;
  threads ← fetch k_threads;
  slot ← (match unused_slot threads 0 with
          | Some i => mret (Some i)
          | None =>
              b ← kmalloc sizeof_tcb;
              if negb b then mret None else
              threads ← list_push threads zero_tcb;
              _ ← modify (set_k_threads threads);
              mret (Some (Z.of_nat (length threads) - 1))
          end);
  match slot with
  | None => _ ← threads_unlock; mret (-1)
  | Some tid =>
      stack ← stack_page;
      _ ← upd_tcb tid (set_t_kernel_stack stack);
      if stack =? 0 then _ ← threads_unlock; mret (-1) else
      waiting ← list_new;
      p ← get_pcb parent_pcb;
      _ ← upd_tcb tid (new_tcb tid parent_pcb stack start_routine arg (p_ttbr0_el1 p) (p_ttbr0_el1_va p));
      _ ← upd_tcb tid (set_t_waiting_on_this waiting);
      tids ← list_push (p_tids p) tid;
      _ ← upd_pcb parent_pcb (set_p_tids tids);
      _ ← threads_unlock;
      _ ← pcb_thread_change_state parent_pcb THREAD_UNUSED THREAD_RUNNING;
      mret tid
  end.

End create.

(** The loops that erase the first occurrence of a value in a vector. *)
Fixpoint erase_first (x : Z) (l : list Z) : list Z :=
  match l with
  | [] => []
  | y :: l => if y =? x then l else y :: erase_first x l
  end.

Definition thread_cleanup (target : Z) : KM unit :=
  x ← get_tcb target;
  let p := t_pcb x in
  _ ← remove_thread_from_scheduler target;
  _ ← threads_lock;
  _ ← upd_tcb target (set_t_waiting_on_this []);
  _ ← upd_tcb target (set_t_state THREAD_UNUSED);
  y ← get_pcb p;
  _ ← upd_pcb p (set_p_tids (erase_first (t_tid x) (p_tids y)));
  threads ← fetch k_threads;
  _ ← (if Z.of_nat (length threads) - 1 =? t_tid x
       then modify (set_k_threads (take (length threads - 1) threads))
       else mret tt);
  _ ← threads_unlock;
  pcb_thread_change_state p THREAD_ZOMBIE THREAD_UNUSED.

(** ** Operations that may give up the CPU *)

Abbreviation KP := (prog kstate).

(** The thread that a CPU runs. *)
Definition running_on (s : kstate) (me : nat) : option Z := match k_cpus s !! me with Some c => c_curr_thread c | None => None end.

Section yielding.
(** What a thread does first when the scheduler has switched back to it:
    [scheduler_handle_pending_signals], which is in Signals.v since it uses the
    operations below. *)
Context (deliver : KP unit).

(** A thread goes on when a CPU runs it again; the waiting is cut off at a
    CPU that runs another thread. *)
Definition resume (old : option Z) : KP unit := fun me s =>
  if bool_decide (running_on s me = old) then deliver me s else Unfinished s.

(** [scheduler_tick] switches to the next thread; the code after it runs when
    the scheduler has switched back. *)
Definition schedule_yield : KP unit := fun me s =>
  match scheduler_tick me s with
  | Ok (None, s') => Returned tt me s'
  | Ok (Some (old, _), s') => Waiting s' (resume old)
  | Fatal => Crashed Fatal
  | Fault => Crashed Fault
  | Hang => Crashed Hang
  end.

Definition current : KP (option Z) := me ← this_cpu; atomic (get_curr_thread me).

Definition yield_if_current (tcb : Z) : KP unit :=
  c ← current;
  if bool_decide (c = Some tcb) then schedule_yield else mret tt.

Definition stop_thread (tcb : Z) : KP unit :=
  x ← atomic (get_tcb tcb);
  if is_stopped (t_state x) then mret tt else
  _ ← atomic (
    p ← get_pcb (t_pcb x);
    _ ← log_call (Tty_session_process_stop (p_pid p));
    _ ← upd_tcb tcb (set_t_stopped_state (t_state x));
    _ ← pcb_thread_change_state (t_pcb x) (t_state x) THREAD_STOPPED;
    upd_tcb tcb (set_t_state THREAD_STOPPED));
  yield_if_current tcb.

Definition terminate_thread (tcb : Z) : KP unit :=
  x ← atomic (get_tcb tcb);
  if is_zombie (t_state x) then mret tt else
  _ ← atomic (
    p ← get_pcb (t_pcb x);
    _ ← log_call (Tty_session_process_exit (p_pid p));
    _ ← pcb_thread_change_state (t_pcb x) (t_state x) THREAD_ZOMBIE;
    upd_tcb tcb (set_t_state THREAD_ZOMBIE));
  yield_if_current tcb.

Definition block_thread (tcb : Z) (blocked_state : thread_state) : KP unit :=
  if negb (is_blocked blocked_state) then mret tt else
  _ ← atomic (
    x ← get_tcb tcb;
    _ ← pcb_thread_change_state (t_pcb x) (t_state x) blocked_state;
    upd_tcb tcb (set_t_state blocked_state));
  yield_if_current tcb.

(** The state a stopped thread goes back to. *)
Definition continued_state (x : tcb) : thread_state :=
  let next_state := match t_stopped_state x with THREAD_RUNNING => THREAD_READY | st => st end in
  if is_blocked next_state && (t_blocked_until x =? 0) then THREAD_READY else next_state.

Definition continue_thread (tcb : Z) : KM unit :=
  x ← get_tcb tcb;
  if negb (is_stopped (t_state x)) then mret tt else
  let next_state := continued_state x in
  p ← get_pcb (t_pcb x);
  _ ← log_call (Tty_session_process_continue (p_pid p));
  _ ← pcb_thread_change_state (t_pcb x) (t_state x) next_state;
  _ ← upd_tcb tcb (set_t_state next_state);
  _ ← upd_tcb tcb (set_t_stopped_state THREAD_READY);
  if bool_decide (next_state = THREAD_READY) then add_thread_to_scheduler tcb else mret tt.

Definition send_unblock_event (tid event : Z) : KM Z :=
  t ← thread_get_by_tid tid;
  match t with
  | None => mret 0
  | Some t =>
      x ← get_tcb t;
      if negb (is_blocked (t_state x)) then mret 0 else
      if has (t_blocked_until x) event then _ ← unblock_thread (Some t); mret 1 else mret 0
  end.

Definition thread_change_priority (tid new_priority : Z) : KM unit :=
  t ← thread_get_by_tid tid;
  match t with
  | None => mret tt
  | Some t => if (new_priority <? 0) || (2 <? new_priority) then mret tt else upd_tcb t (set_t_priority new_priority)
  end.

(** The loop of [thread_exit] that wakes the threads that join this one. *)
Fixpoint wake_joiners (waiting : list Z) : KM unit :=
  match waiting with
  | [] => mret tt
  | tid :: waiting =>
      t ← thread_get_by_tid tid;
      _ ← (match t with
           | None => mret tt
           | Some t =>
               x ← get_tcb t;
               if is_stopped (t_state x) then
                 _ ← upd_tcb t (set_t_state THREAD_READY);
                 add_thread_to_scheduler t
               else mret tt
           end);
      wake_joiners waiting
  end.

(** A thread whose [thread_exit] gets the CPU back spins for ever. *)
Definition thread_exit (retval : Z) : KP unit :=
  c ← current;
  match c with
  | None => spin_forever
  | Some t =>
      _ ← atomic (
        _ ← upd_tcb t (set_t_return_value retval);
        x ← get_tcb t;
        _ ← wake_joiners (t_waiting_on_this x);
        _ ← upd_tcb t (set_t_waiting_on_this []);
        y ← get_tcb t;
        _ ← pcb_thread_change_state (t_pcb y) (t_state y) THREAD_ZOMBIE;
        upd_tcb t (set_t_state THREAD_ZOMBIE));
      _ ← schedule_yield;
      spin_forever
  end.

(** The second component is what is stored at [retval]. *)
Definition thread_join (tid : Z) : KP (Z * option Z) :=
  c ← current;
  match c with
  | None => mret (-1, None)
  | Some cur =>
      x ← atomic (get_tcb cur);
      if (t_pcb x =? NULL) || (t_tid x =? tid) then mret (-1, None) else
      target ← atomic (thread_get_by_tid tid);
      match target with
      | None => mret (-1, None)
      | Some target =>
          y ← atomic (get_tcb target);
          if negb (t_is_joinable y) then mret (-1, None) else
          if is_zombie (t_state y) then _ ← atomic (thread_cleanup target); mret (0, Some (t_return_value y)) else
          _ ← atomic (
            w ← list_push (t_waiting_on_this y) (t_tid x);
            _ ← upd_tcb target (set_t_waiting_on_this w);
            upd_tcb cur (set_t_state THREAD_STOPPED));
          _ ← schedule_yield;
          z ← atomic (get_tcb target);
          _ ← atomic (thread_cleanup target);
          mret (0, Some (t_return_value z))
      end
  end.

End yielding.

Definition thread_detach (tid : Z) : KP Z :=
  c ← current;
  match c with
  | None => mret (-1)
  | Some _ =>
      atomic (
        target ← thread_get_by_tid tid;
        match target with
        | None => mret (-1)
        | Some target =>
            _ ← upd_tcb target (set_t_is_joinable false);
            x ← get_tcb target;
            _ ← (if is_zombie (t_state x) then thread_cleanup target else mret tt);
            mret 0
        end)
  end.

(** ** Accounting *)

Inductive kind := KRun | KStop | KZombie | KBlock.

#[export] Instance kind_eq_dec : EqDecision kind.
Proof. solve_decision. Defined.

Definition kind_of (st : thread_state) : option kind :=
  match st with
  | THREAD_UNUSED => None
  | THREAD_READY | THREAD_RUNNING => Some KRun
  | THREAD_STOPPED => Some KStop
  | THREAD_ZOMBIE => Some KZombie
  | THREAD_BLOCKED_INTERRUPTABLE | THREAD_BLOCKED_UNINTERUPTABLE | THREAD_BLOCKED_KILLABLE => Some KBlock
  end.

Definition thread_count (k : kind) (x : pcb) : Z :=
  match k with
  | KRun => p_num_running_threads x
  | KStop => p_num_stopped_threads x
  | KZombie => p_num_zombie_threads x
  | KBlock => p_num_blocked_threads x
  end.

(** The state a process with these counters has. *)
Definition due_state (x : pcb) : process_state :=
  if 0 <? thread_count KRun x then PROC_RUNNING_STATE
  else if 0 <? thread_count KBlock x then PROC_BLOCKED_STATE
  else if 0 <? thread_count KStop x then PROC_STOPPED_STATE
  else PROC_ZOMBIE_STATE.

Definition one (o : option kind) (k : kind) : Z := if decide (o = Some k) then 1 else 0.

(** How many of [l] are of kind [k] in the view [v]. *)
Definition tally (v : Z -> option kind) (k : kind) (l : list Z) : Z :=
  Z.of_nat (length (filter (fun t => v t = Some k) l)).

Definition upd (v : Z -> option kind) (t : Z) (o : option kind) : Z -> option kind :=
  fun u => if decide (u = t) then o else v u.

Definition tkind (s : kstate) (t : Z) : option kind :=
  match k_threads s !! Z.to_nat t with Some x => kind_of (t_state x) | None => None end.

Definition used (x : pcb) : Prop := p_state x <> PROC_UNUSED_STATE.

(** Process [x] is accounted for in the view [v]. *)
Definition accounted (v : Z -> option kind) (x : pcb) : Prop :=
  NoDup (p_tids x) /\ (forall k, thread_count k x = tally v k (p_tids x)) /\ p_state x = due_state x.

Definition acct (v : Z -> option kind) (s : kstate) : Prop :=
  forall p x, k_processes s !! p = Some x -> used x -> accounted v x.

Lemma tally_ext v v' k l : (forall t, t ∈ l -> v t = v' t) -> tally v k l = tally v' k l.
Proof.
  intros H. unfold tally. do 2 f_equal. induction l as [|t l IH]; [done|]. rewrite !filter_cons, (H t) by left.
  case_decide; [f_equal|]; apply IH; intros; apply H; by right.
Qed.

Lemma tally_cons v k t l : tally v k (t :: l) = one (v t) k + tally v k l.
Proof. unfold tally, one. rewrite filter_cons. case_decide; [rewrite length_cons|]; lia. Qed.

Lemma tally_upd v t o k l : NoDup l -> t ∈ l -> tally (upd v t o) k l = tally v k l - one (v t) k + one o k.
Proof.
  induction 1 as [|u l Hu Hl IH]; [by intros ?%elem_of_nil|]. rewrite !tally_cons, elem_of_cons. intros [<-|Ht].
  - rewrite (tally_ext (upd v t o) v k l) by (intros u Hul; unfold upd; case_decide; [by subst|done]). unfold upd. rewrite decide_True by done. lia.
  - rewrite IH by done. unfold upd at 1. rewrite decide_False by (by intros ->). lia.
Qed.

Lemma tally_upd_ne v t o k l : t ∉ l -> tally (upd v t o) k l = tally v k l.
Proof. intros Ht. apply tally_ext. intros u Hu. unfold upd. case_decide; [by subst | done]. Qed.

Lemma is_running_kind st : is_running st = bool_decide (kind_of st = Some KRun).
Proof. by destruct st. Qed.
Lemma is_blocked_kind st : is_blocked st = bool_decide (kind_of st = Some KBlock).
Proof. by destruct st. Qed.
Lemma is_stopped_kind st : is_stopped st = bool_decide (kind_of st = Some KStop).
Proof. by destruct st. Qed.
Lemma is_zombie_kind st : is_zombie st = bool_decide (kind_of st = Some KZombie).
Proof. by destruct st. Qed.

Lemma leave_counter st k x : thread_count k (leave_state st x) = thread_count k x - one (kind_of st) k.
Proof. destruct st, k; unfold one, leave_state; case_decide as H; simpl in *; try discriminate H; try (by destruct H); lia. Qed.

Lemma enter_counter st k x : thread_count k (enter_state st x) = thread_count k x + one (kind_of st) k.
Proof. destruct st, k; unfold one, enter_state; case_decide as H; simpl in *; try discriminate H; try (by destruct H); lia. Qed.

(** ** What a chain of wake-ups leaves alone *)

Lemma bool_decide_inj (P Q : Prop) `{Decision P, Decision Q} : bool_decide P = bool_decide Q -> P <-> Q.
Proof. repeat case_bool_decide; by intros. Qed.

(** What the structure of the tables depends on in a thread and in a process. *)
(** The signals that have a default action, as a set of bits. *)
Definition known_signals : Z := 0x9FC4.

(** Only known signals are pending, a state to continue in is recorded, and no
    handler is missing. *)
Definition tsig (x : tcb) : bool :=
  (Z.ldiff (t_pending_signals x) known_signals =? 0) && negb (bool_decide (t_stopped_state x = THREAD_UNUSED)).

Definition psig (x : pcb) : bool :=
  (Z.ldiff (p_pending_signals x) known_signals =? 0) && (length (p_sigactions x) =? 32)%nat
  && forallb (fun a => negb (bool_decide (sa_handler a = SIG_NOT_IMPLEMENTED))) (p_sigactions x).

Definition tcore (x : tcb) : Z * Z * bool * bool := (t_tid x, t_pcb x, bool_decide (t_state x = THREAD_UNUSED), tsig x).

Definition pcore (x : pcb) : Z * Z * list Z * list Z * bool * bool :=
  (p_pid x, p_ppid x, p_tids x, p_child_waitq x, bool_decide (p_state x = PROC_UNUSED_STATE), psig x).

Definition cores (s : kstate) := (map tcore (k_threads s), map pcore (k_processes s)).

Definition owner (s : kstate) (t : Z) : Z :=
  match k_threads s !! Z.to_nat t with Some x => t_pcb x | None => NULL end.

(** The threads the CPUs run are in use. *)
Definition curr_used (s : kstate) : Prop :=
  forall c u, c ∈ k_cpus s -> c_curr_thread c = Some u -> exists x, k_threads s !! Z.to_nat u = Some x /\ t_state x <> THREAD_UNUSED.

Section tree.
(** Numbers that grow from parents to children. *)
Context (rank : Z -> nat).

Record tables_ok (s : kstate) : Prop := {
  to_sys : sys_ok s;
  to_tlock : k_threads_lock s = false;
  to_plock : k_process_table_lock s = false;
  to_len : length (k_processes s) = 256%nat;
  to_pid : forall p x, k_processes s !! p = Some x -> p_pid x = Z.of_nat p;
  to_tid : forall t x, k_threads s !! t = Some x -> t_tid x = Z.of_nat t;
  to_tids : forall p x t, k_processes s !! p = Some x -> used x -> t ∈ p_tids x ->
    0 <= t /\ exists y, k_threads s !! Z.to_nat t = Some y /\ t_pcb y = Z.of_nat p;
  to_owner : forall t y, k_threads s !! t = Some y -> t_state y <> THREAD_UNUSED ->
    exists p x, t_pcb y = Z.of_nat p /\ k_processes s !! p = Some x /\ used x /\ Z.of_nat t ∈ p_tids x;
  to_waitq : forall p x w y, k_processes s !! p = Some x -> used x -> w ∈ p_child_waitq x -> 0 <= w ->
    k_threads s !! Z.to_nat w = Some y -> t_state y <> THREAD_UNUSED -> t_pcb y = Z.of_nat p;
  to_tsig : forall t y, k_threads s !! t = Some y -> t_state y <> THREAD_UNUSED -> tsig y = true;
  to_psig : forall p x, k_processes s !! p = Some x -> psig x = true;
  to_curr : curr_used s;
  to_rank : forall p, (rank p < 256)%nat;
  to_tree : forall p x, k_processes s !! p = Some x -> used x ->
    (p_ppid x = Z.of_nat p /\ p_child_waitq x = []) \/ (rank (p_ppid x) < rank (Z.of_nat p))%nat
}.

Lemma cores_thread s s' t x :
  cores s' = cores s -> k_threads s' !! t = Some x -> exists y, k_threads s !! t = Some y /\ tcore x = tcore y.
Proof.
  intros [= Et _] Hx. assert (E : map tcore (k_threads s) !! t = Some (tcore x)) by (rewrite <- Et; by rewrite list_lookup_fmap, Hx).
  rewrite list_lookup_fmap in E. destruct (k_threads s !! t) as [y|]; [|done]. exists y. split; [done|]. simpl in E. congruence.
Qed.

Lemma cores_process s s' p x :
  cores s' = cores s -> k_processes s' !! p = Some x -> exists y, k_processes s !! p = Some y /\ pcore x = pcore y.
Proof.
  intros [= _ Ep] Hx. assert (E : map pcore (k_processes s) !! p = Some (pcore x)) by (rewrite <- Ep; by rewrite list_lookup_fmap, Hx).
  rewrite list_lookup_fmap in E. destruct (k_processes s !! p) as [y|]; [|done]. exists y. split; [done|]. simpl in E. congruence.
Qed.

Lemma tcore_fields x y :
  tcore x = tcore y -> t_pcb x = t_pcb y /\ t_tid x = t_tid y /\ (t_state x = THREAD_UNUSED <-> t_state y = THREAD_UNUSED) /\ tsig x = tsig y.
Proof. intros [= -> -> E E2]. do 2 (split; [done|]). split; [exact (bool_decide_inj _ _ E) | done]. Qed.

Lemma pcore_fields x y :
  pcore x = pcore y -> p_pid x = p_pid y /\ p_ppid x = p_ppid y /\ p_tids x = p_tids y /\ p_child_waitq x = p_child_waitq y /\ (used x <-> used y) /\ psig x = psig y.
Proof.
  unfold used. intros [= -> -> -> -> E E2]. do 4 (split; [done|]). pose proof (bool_decide_inj _ _ E) as E'. by rewrite E'.
Qed.

Lemma cores_owner s s' t : cores s' = cores s -> owner s' t = owner s t.
Proof.
  intros E. unfold owner. destruct (k_threads s' !! _) as [x|] eqn:Ex.
  - destruct (cores_thread _ _ _ _ E Ex) as (y & -> & (-> & _)%tcore_fields). done.
  - destruct (k_threads s !! _) as [x|] eqn:Ey; [|done]. destruct (cores_thread _ _ _ _ (eq_sym E) Ey) as (y & Ey' & _). congruence.
Qed.

Lemma curr_used_cores s s' : cores s' = cores s -> curr_used s -> k_cpus s' = k_cpus s -> curr_used s'.
Proof.
  intros E Hc Ec c u Hin Hu. rewrite Ec in Hin. destruct (Hc c u Hin Hu) as (x & Hx & Hxu).
  destruct (cores_thread _ _ _ _ (eq_sym E) Hx) as (y & Hy & (_ & _ & Eu & _)%tcore_fields). exists y. split; [done|]. by intros ?%Eu.
Qed.

Lemma tables_ok_cores s s' :
  tables_ok s -> cores s' = cores s -> sys_ok s' -> k_threads_lock s' = false -> k_process_table_lock s' = false ->
  k_cpus s' = k_cpus s \/ curr_used s' -> tables_ok s'.
Proof.
  intros H E Hs Htl Hpl Hcpu. assert (curr_used s') by (destruct Hcpu; [by apply (curr_used_cores s); [|apply H|] | done]). constructor; try done; try apply H.
  - assert (length (map pcore (k_processes s')) = length (map pcore (k_processes s))) as El by (by injection E as _ ->).
    rewrite !length_map in El. rewrite El. apply H.
  - intros p x Hx. destruct (cores_process _ _ _ _ E Hx) as (y & Hy & (-> & _)%pcore_fields). by apply (to_pid _ H).
  - intros t x Hx. destruct (cores_thread _ _ _ _ E Hx) as (y & Hy & (_ & -> & _)%tcore_fields). by apply (to_tid _ H).
  - intros p x t Hx Hu Ht. destruct (cores_process _ _ _ _ E Hx) as (y & Hy & (_ & _ & Et & _ & Eu & _)%pcore_fields).
    rewrite Et in Ht. destruct (to_tids _ H p y t Hy (proj1 Eu Hu) Ht) as (? & z & Hz & Ez).
    destruct (cores_thread _ _ _ _ (eq_sym E) Hz) as (z' & Hz' & (Ez' & _)%tcore_fields). split; [done|]. exists z'. split; [done | congruence].
  - intros t x Hx Hu. destruct (cores_thread _ _ _ _ E Hx) as (y & Hy & (Ey & _ & Eu & _)%tcore_fields).
    destruct (to_owner _ H t y Hy ltac:(by intros ?%Eu)) as (p & z & Hp & Hz & Hzu & Ht).
    destruct (cores_process _ _ _ _ (eq_sym E) Hz) as (z' & Hz' & (_ & _ & Et & _ & Ezu & _)%pcore_fields).
    exists p, z'. split; [congruence|]. split; [done|]. split; [by apply Ezu | by rewrite <- Et].
  - intros p x w y Hx Hu Hw Hw0 Hy Hyu. destruct (cores_process _ _ _ _ E Hx) as (x' & Hx' & (_ & _ & _ & Eq & Eu & _)%pcore_fields).
    destruct (cores_thread _ _ _ _ E Hy) as (y' & Hy' & (-> & _ & Eyu & _)%tcore_fields). rewrite Eq in Hw.
    apply (to_waitq _ H p x' w y' Hx' (proj1 Eu Hu) Hw Hw0 Hy'). by intros ?%Eyu.
  - intros t x Hx Hu. destruct (cores_thread _ _ _ _ E Hx) as (y & Hy & (_ & _ & Eu & ->)%tcore_fields).
    apply (to_tsig _ H t y Hy). by intros ?%Eu.
  - intros p x Hx. destruct (cores_process _ _ _ _ E Hx) as (x' & Hx' & (_ & _ & _ & _ & _ & ->)%pcore_fields).
    apply (to_psig _ H p x' Hx').
  - intros p x Hx Hu. destruct (cores_process _ _ _ _ E Hx) as (x' & Hx' & (_ & -> & _ & -> & Eu & _)%pcore_fields).
    apply (to_tree _ H p x' Hx'). by apply Eu.
Qed.

Lemma tlock_id s : k_threads_lock s = false -> set_k_threads_lock false (set_k_threads_lock true s) = s.
Proof. destruct s. simpl. by intros ->. Qed.

Lemma plock_id s : k_process_table_lock s = false -> set_k_process_table_lock false (set_k_process_table_lock true s) = s.
Proof. destruct s. simpl. by intros ->. Qed.

Lemma wp_thread_get_by_tid tid (Q : option Z -> kstate -> Prop) s :
  k_threads_lock s = false ->
  (forall x, 0 <= tid -> k_threads s !! Z.to_nat tid = Some x -> t_state x <> THREAD_UNUSED -> Q (Some tid) s) ->
  ((forall x, 0 <= tid -> k_threads s !! Z.to_nat tid = Some x -> t_state x = THREAD_UNUSED) -> Q None s) ->
  wp (thread_get_by_tid tid) Q s.
Proof.
  intros Hl HS HN. unfold thread_get_by_tid. apply wp_bind, wp_spin_lock; [done|]. apply wp_bind, wp_fetch. simpl.
  destruct (Z.ltb_spec tid 0); [|destruct (Z.leb_spec (Z.of_nat (length (k_threads s))) tid)]; simpl.
  - apply wp_bind, wp_modify, wp_ret. rewrite tlock_id by done. apply HN. lia.
  - apply wp_bind, wp_modify, wp_ret. rewrite tlock_id by done. apply HN. intros x _ Hx%lookup_lt_Some. lia.
  - destruct (lookup_lt_is_Some_2 (k_threads s) (Z.to_nat tid)) as [x Hx]; [lia|].
    apply wp_bind, (wp_get_tcb _ x); [done | done|]. case_bool_decide as E; apply wp_bind, wp_modify, wp_ret; rewrite tlock_id by done.
    + apply HN. congruence.
    + by apply (HS x).
Qed.

Lemma wp_get_pcb_by_pid pid (Q : option Z -> kstate -> Prop) s :
  k_process_table_lock s = false -> length (k_processes s) = 256%nat ->
  (forall x, 0 <= pid -> k_processes s !! Z.to_nat pid = Some x -> used x -> Q (Some pid) s) ->
  ((forall x, 0 <= pid -> k_processes s !! Z.to_nat pid = Some x -> ~ used x) -> Q None s) ->
  wp (get_pcb_by_pid pid) Q s.
Proof.
  intros Hl Hlen HS HN. unfold get_pcb_by_pid, MAX_PROCESS_COUNT. apply wp_bind, wp_spin_lock; [done|].
  destruct (Z.leb_spec 256 pid); [|destruct (Z.ltb_spec pid 0)]; simpl.
  - apply wp_bind, wp_modify, wp_ret. rewrite plock_id by done. apply HN. intros x _ Hx%lookup_lt_Some. lia.
  - apply wp_bind, wp_modify, wp_ret. rewrite plock_id by done. apply HN. lia.
  - destruct (lookup_lt_is_Some_2 (k_processes s) (Z.to_nat pid)) as [x Hx]; [lia|].
    apply wp_bind, (wp_get_pcb _ x); [done | done|]. case_bool_decide as E; apply wp_bind, wp_modify, wp_ret; rewrite plock_id by done.
    + apply HN. intros y _ Hy. unfold used. congruence.
    + by apply (HS x).
Qed.

(** ** Updates of one process *)

Definition with_pcb (p : Z) (x : pcb) (s : kstate) : kstate := set_k_processes (<[Z.to_nat p := x]> (k_processes s)) s.

Lemma with_pcb_twice p x y s : with_pcb p x (with_pcb p y s) = with_pcb p x s.
Proof. unfold with_pcb, set_k_processes. simpl. by rewrite list_insert_insert_eq. Qed.

Lemma with_pcb_lookup p x y s : k_processes s !! Z.to_nat p = Some y -> k_processes (with_pcb p x s) !! Z.to_nat p = Some x.
Proof. intros H. simpl. rewrite list_lookup_insert_eq; [done|]. by eapply lookup_lt_Some. Qed.

Lemma with_pcb_id p x s : k_processes s !! Z.to_nat p = Some x -> with_pcb p x s = s.
Proof. intros H. unfold with_pcb. rewrite list_insert_id by done. by destruct s. Qed.

Lemma with_pcb_cores p x y s : k_processes s !! Z.to_nat p = Some y -> pcore x = pcore y -> cores (with_pcb p x s) = cores s.
Proof.
  intros H E. unfold cores. simpl. f_equal. rewrite list_fmap_insert, E. apply list_insert_id. by rewrite list_lookup_fmap, H.
Qed.

Lemma with_pcb_tables p x y s :
  tables_ok s -> k_processes s !! Z.to_nat p = Some y -> pcore x = pcore y -> tables_ok (with_pcb p x s).
Proof.
  intros H Hy E. apply (tables_ok_cores s); [done | by eapply with_pcb_cores | | apply H | apply H | by left].
  destruct (to_sys _ H) as [Hs Hg Hl Hc]. constructor; [|done | done | done]. constructor; apply Hs.
Qed.

Lemma leave_core st x : pcore (leave_state st x) = pcore x.
Proof. unfold leave_state. by destruct st. Qed.

Lemma enter_core st x : pcore (enter_state st x) = pcore x.
Proof. unfold enter_state. by destruct st. Qed.

Lemma state_core st x : used x -> st <> PROC_UNUSED_STATE -> pcore (set_p_state st x) = pcore x.
Proof. intros Hx Hst. unfold pcore. simpl. by rewrite !bool_decide_eq_false_2. Qed.

(** ** Chains of wake-ups

    [v] is what the counters say of each thread.  It may differ from the states
    of the threads whose change is under way, which all belong to processes of
    rank [b] or more. *)

Definition agrees (b : nat) (v : Z -> option kind) (s : kstate) : Prop :=
  forall t, 0 <= t -> (rank (owner s t) < b)%nat -> v t = tkind s t.

(** The state after a chain that involves processes of rank below [b] only. *)
Definition settles (b : nat) (v : Z -> option kind) (s s' : kstate) : Prop :=
  tables_ok s' /\ (cores s' = cores s /\ k_cpus s' = k_cpus s) /\
  exists v', acct v' s' /\ agrees b v' s' /\
    (forall t, 0 <= t -> (b <= rank (owner s t))%nat -> v' t = v t /\ tkind s' t = tkind s t).

Lemma settles_refl b v s : tables_ok s -> acct v s -> agrees b v s -> settles b v s s.
Proof. intros Ht Ha Hv. split; [done|]. split; [done|]. by exists v. Qed.

Lemma settles_weaken b b' v s s' : (b <= b')%nat -> agrees b' v s -> settles b v s s' -> settles b' v s s'.
Proof.
  intros Hb Hv (Ht & [E Ec] & v' & Ha & Hlow & Hhigh). split; [done|]. split; [done|]. exists v'. split; [done|]. split.
  - intros t Ht0 Hr. destruct (decide (rank (owner s' t) < b)%nat) as [?|Hn]; [by apply Hlow|].
    rewrite (cores_owner _ _ _ E) in Hr, Hn. destruct (Hhigh t) as [-> ->]; [done | lia|]. by apply Hv.
  - intros t Ht0 Hr. apply Hhigh; [done | lia].
Qed.

Lemma settles_from b v s s1 s' :
  cores s1 = cores s -> k_cpus s1 = k_cpus s -> (forall t, tkind s1 t = tkind s t) -> settles b v s1 s' -> settles b v s s'.
Proof.
  intros E Ec Hk (Ht & [E' Ec'] & v' & Ha & Hlow & Hhigh). split; [done|]. split; [split; congruence|]. exists v'. split; [done|]. split; [done|].
  intros t Ht0 Hr. rewrite <- Hk. apply Hhigh; [done|]. by rewrite (cores_owner _ _ _ E).
Qed.

(** A thread of the tables. *)
Definition live (s : kstate) (t : Z) (x : tcb) : Prop :=
  0 <= t /\ k_threads s !! Z.to_nat t = Some x /\ t_state x <> THREAD_UNUSED.

(** [w] is ready and in a queue of the scheduler. *)
Definition queued (s : kstate) (w : Z) : Prop :=
  exists y, k_threads s !! Z.to_nat w = Some y /\ t_state y = THREAD_READY /\ w ∈ mjoin (k_ready_queues s).

(** The first thread of the wait queue [q] that waits for [child] is woken, if
    it asked for children in state [st]. *)
Definition first_woken (child pgid : Z) (st : process_state) (q : list Z) (s s' : kstate) : Prop :=
  forall l1 w l2 x, q = l1 ++ w :: l2 -> (forall u y, u ∈ l1 -> live s u y -> waits_for y child pgid = false) -> live s w x ->
    waits_for x child pgid = true -> wakes_for x st = true -> is_blocked (t_state x) = true -> queued s' w.

(** The parent of [p] is told of its state [st]. *)
Definition parent_told (p : nat) (st : process_state) (s s' : kstate) : Prop :=
  forall x z, k_processes s !! p = Some x -> p_ppid x <> Z.of_nat p -> 0 <= p_ppid x -> k_processes s !! Z.to_nat (p_ppid x) = Some z -> used z ->
    first_woken (Z.of_nat p) (p_pgid x) st (p_child_waitq z) s s'.

(** What [unblock_thread] does to a thread of a process of rank below [n]. *)
Definition unblock_spec (n : nat) (U : option Z -> KM unit) : Prop :=
  forall s v w x, tables_ok s -> acct v s -> agrees (S (rank (owner s w))) v s ->
    0 <= w -> k_threads s !! Z.to_nat w = Some x -> t_state x <> THREAD_UNUSED -> (rank (owner s w) < n)%nat ->
    wp (U (Some w)) (fun _ s' => settles (S (rank (owner s w))) v s s' /\ (is_blocked (t_state x) = true -> queued s' w)) s.

Section level.
Context (n : nat) (U : option Z -> KM unit) (HU : unblock_spec n U).

Lemma notify_waiter_spec p parent y x v s q :
  tables_ok s -> acct v s -> agrees (rank (Z.of_nat p)) v s -> k_processes s !! p = Some x ->
  k_processes s !! parent = Some y -> used y -> (rank (Z.of_nat parent) < rank (Z.of_nat p) <= n)%nat ->
  (forall w, w ∈ q -> w ∈ p_child_waitq y) ->
  wp (notify_waiter U (Z.of_nat p) q)
    (fun _ s' => settles (rank (Z.of_nat p)) v s s' /\ first_woken (Z.of_nat p) (p_pgid x) (p_state x) q s s') s.
Proof.
  intros Ht Ha Hv Hx Hy Hu Hr. induction q as [|w q IH]; intros Hq; cbn [notify_waiter].
  { apply wp_ret. split; [by apply settles_refl|]. by intros []. }
  assert (IH' : (forall z, live s w z -> waits_for z (Z.of_nat p) (p_pgid x) = false) ->
            wp (notify_waiter U (Z.of_nat p) q)
              (fun _ s' => settles (rank (Z.of_nat p)) v s s' /\ first_woken (Z.of_nat p) (p_pgid x) (p_state x) (w :: q) s s') s).
  { intros Hno. eapply wp_mono; [apply IH; intros; apply Hq; by right|]. intros a s' [Hs' Hf]. split; [done|].
    intros [|u l1] w' l2 x' [= <- Eq] Hl1 Hlive Hw.
    - rewrite (Hno x' Hlive) in Hw. done.
    - apply (Hf l1 w' l2 x'); [done | | done | done]. intros u' y' Hu'. apply Hl1. by right. }
  apply wp_bind, wp_thread_get_by_tid; [apply Ht | |intros Hno; apply IH'; intros z (Hz0 & Hz & Hzu); by apply Hno in Hz].
  intros z Hw Hz Hzu. apply wp_bind, (wp_get_tcb _ z); [done | done|]. apply wp_bind, (wp_get_pcb _ x); [lia | by rewrite Nat2Z.id|].
  destruct (waits_for _ _ _) eqn:Ew; [|apply IH'; intros z' (_ & Hz' & _); congruence].
  assert (Hfirst : forall s', (wakes_for z (p_state x) = true -> is_blocked (t_state z) = true -> queued s' w) ->
            first_woken (Z.of_nat p) (p_pgid x) (p_state x) (w :: q) s s').
  { intros s' Hs' [|u l1] w' l2 x' [= <- Eq] Hl1 (_ & Hx' & _) Hw' Hwake Hb.
    - assert (x' = z) as -> by congruence. by apply Hs'.
    - rewrite (Hl1 w z) in Ew; [done | left | by split]. }
  destruct (wakes_for _ _); [|by apply wp_ret; split; [apply settles_refl | apply Hfirst]].
  assert (Eo : owner s w = Z.of_nat parent).
  { unfold owner. rewrite Hz. apply (to_waitq _ Ht parent y w z); try done. apply Hq. by left. }
  apply wp_bind. eapply wp_mono; [apply (HU s v w z); try done|].
  - intros t Ht0 Hrt. apply Hv; [done|]. rewrite Eo in Hrt. lia.
  - rewrite Eo. lia.
  - intros [] s' [Hs' Hqd]. apply wp_ret. split; [|apply Hfirst; auto]. eapply settles_weaken; [|exact Hv | exact Hs']. rewrite Eo. lia.
Qed.

Lemma send_sigchld_spec p x v s :
  tables_ok s -> acct v s -> agrees (rank (Z.of_nat p)) v s -> k_processes s !! p = Some x -> used x ->
  (rank (Z.of_nat p) <= n)%nat ->
  wp (send_sigchld_with U (Z.of_nat p)) (fun _ s' => settles (rank (Z.of_nat p)) v s s' /\ parent_told p (p_state x) s s') s.
Proof.
  intros Ht Ha Hv Hx Hu Hr. unfold send_sigchld_with. apply wp_bind, wp_get_pcb_by_pid; [apply Ht | apply Ht | |].
  2: { intros Hno. exfalso. by apply (Hno x); [lia | rewrite Nat2Z.id|]. }
  intros x' _ Hx' _. rewrite Nat2Z.id in Hx'. assert (x' = x) as -> by congruence.
  apply wp_bind, (wp_get_pcb _ x); [lia | by rewrite Nat2Z.id|]. apply wp_bind.
  (* whichever flag is set, the process keeps its core, its counters and its state *)
  cut (forall x1, pcore x1 = pcore x -> (forall k, thread_count k x1 = thread_count k x) -> p_state x1 = p_state x -> p_pgid x1 = p_pgid x ->
         wp (parent ← get_pcb_by_pid (p_ppid x);
             match parent with
             | None => mret SYS_ESRCH
             | Some parent => y ← get_pcb parent; notify_waiter U (Z.of_nat p) (p_child_waitq y)
             end) (fun _ s' => settles (rank (Z.of_nat p)) v s s' /\ parent_told p (p_state x) s s') (with_pcb (Z.of_nat p) x1 s)).
  { intros H. repeat case_bool_decide; [by apply (wp_upd_pcb _ x); [lia | by rewrite Nat2Z.id | apply H].. |].
    apply wp_ret. specialize (H x eq_refl (fun _ => eq_refl) eq_refl eq_refl). by rewrite (with_pcb_id _ x s) in H by (by rewrite Nat2Z.id). }
  intros x1 Ec Hk Est Epg. set (s1 := with_pcb _ x1 s).
  assert (Hxz : k_processes s !! Z.to_nat (Z.of_nat p) = Some x) by (by rewrite Nat2Z.id).
  assert (Ht1 : tables_ok s1) by (by eapply with_pcb_tables). assert (Ec1 : cores s1 = cores s) by (by eapply with_pcb_cores).
  assert (Hx1 : k_processes s1 !! p = Some x1) by (rewrite <- (Nat2Z.id p) at 1; by eapply with_pcb_lookup).
  destruct (pcore_fields _ _ Ec) as (_ & Epp & Etids & Eq & Eu & _).
  assert (Ha1 : acct v s1).
  { intros q y Hy Hyu. destruct (decide (q = p)) as [->|Hne].
    - rewrite Hx1 in Hy. injection Hy as <-. destruct (Ha p x Hx Hu) as (? & Hc & Hst). split; [by rewrite Etids|]. split; [intros k; by rewrite Hk, Etids|].
      rewrite Est, Hst. unfold due_state. by rewrite !Hk.
    - apply (Ha q y); [|done]. unfold s1, with_pcb in Hy. simpl in Hy. by rewrite Nat2Z.id, list_lookup_insert_ne in Hy. }
  assert (Hv1 : agrees (rank (Z.of_nat p)) v s1) by (intros t Ht0 Hrt; rewrite (cores_owner _ _ _ Ec1) in Hrt; by rewrite (Hv t Ht0 Hrt)).
  apply wp_bind, wp_get_pcb_by_pid; [apply Ht1 | apply Ht1 | |].
  2: { intros Hno. apply wp_ret. split; [apply (settles_from _ _ _ s1); [done | done | done | by apply settles_refl]|].
       intros x' z Hx2 Hne Hp0 Hz Hzu. assert (x' = x) as -> by congruence. exfalso. apply (Hno z); [done | | done].
       unfold s1, with_pcb. simpl. rewrite list_lookup_insert_ne by lia. done. }
  intros y Hpp Hy Hyu. apply wp_bind, (wp_get_pcb _ y); [done | done|].
  destruct (to_tree _ Ht1 p x1 Hx1 (proj2 Eu Hu)) as [[Epar Eqn]|Hlt].
  - rewrite <- Epp, Epar, Nat2Z.id in Hy. assert (y = x1) as -> by congruence. rewrite Eqn. cbn [notify_waiter].
    apply wp_ret. split; [apply (settles_from _ _ _ s1); [done | done | done | by apply settles_refl]|].
    intros x' z Hx2 Hne. assert (x' = x) as -> by congruence. by rewrite <- Epp in Hne.
  - rewrite Epp in Hlt. eapply wp_mono; [eapply (notify_waiter_spec p (Z.to_nat (p_ppid x)) y x1 v s1); try done|].
    + rewrite Z2Nat.id by done. lia.
    + intros ? s' [Hs' Hf]. split; [by apply (settles_from _ _ _ s1)|]. intros x' z Hx2 Hne Hp0 Hz Hzu. assert (x' = x) as -> by congruence.
      assert (z = y) as ->; [|by rewrite <- Epg, <- Est].
      unfold s1, with_pcb in Hy. simpl in Hy. rewrite list_lookup_insert_ne in Hy by lia. congruence.
Qed.

Lemma change_state_spec p x v s old new :
  tables_ok s -> k_processes s !! p = Some x -> used x -> (rank (Z.of_nat p) <= n)%nat -> agrees (rank (Z.of_nat p)) v s ->
  (forall q y, q <> p -> k_processes s !! q = Some y -> used y -> accounted v y) -> NoDup (p_tids x) ->
  (forall k, thread_count k x - one (kind_of old) k + one (kind_of new) k = tally v k (p_tids x)) ->
  wp (change_state_with U (Z.of_nat p) old new)
    (fun _ s' => settles (rank (Z.of_nat p)) v s s' /\ parent_told p (due_state (enter_state new (leave_state old x))) s s') s.
Proof.
  intros Ht Hx Hu Hr Hv Hothers Hnd Hc. unfold change_state_with.
  assert (Hxz : k_processes s !! Z.to_nat (Z.of_nat p) = Some x) by (by rewrite Nat2Z.id).
  apply wp_bind, (wp_upd_pcb _ x); [lia | done|]. fold (with_pcb (Z.of_nat p) (leave_state old x) s).
  apply wp_bind, (wp_upd_pcb _ (leave_state old x)); [lia | by eapply with_pcb_lookup|]. set (x2 := enter_state new (leave_state old x)).
  fold (with_pcb (Z.of_nat p) x2 (with_pcb (Z.of_nat p) (leave_state old x) s)). rewrite with_pcb_twice.
  assert (Hx2 : k_processes (with_pcb (Z.of_nat p) x2 s) !! Z.to_nat (Z.of_nat p) = Some x2) by (by eapply with_pcb_lookup).
  apply wp_bind, (wp_get_pcb _ x2); [lia | done|].
  assert (Ec2 : pcore x2 = pcore x) by (unfold x2; by rewrite enter_core, leave_core).
  destruct (pcore_fields _ _ Ec2) as (Epid & Epp & Etids & _ & Eu & _).
  assert (Hk2 : forall k, thread_count k x2 = tally v k (p_tids x2)).
  { intros k. unfold x2 at 1. rewrite enter_counter, leave_counter, Hc. by rewrite Etids. }
  (* the state with the process in the state its counters call for *)
  set (s3 := with_pcb (Z.of_nat p) (set_p_state (due_state x2) x2) s).
  assert (Hdue : due_state x2 <> PROC_UNUSED_STATE) by (unfold due_state; by repeat case_match).
  assert (Ec3 : pcore (set_p_state (due_state x2) x2) = pcore x) by (rewrite state_core; [done | by apply Eu | done]).
  assert (Ht3 : tables_ok s3) by (by eapply with_pcb_tables). assert (Hc3 : cores s3 = cores s) by (by eapply with_pcb_cores).
  assert (Hx3 : k_processes s3 !! p = Some (set_p_state (due_state x2) x2)) by (rewrite <- (Nat2Z.id p) at 1; by eapply with_pcb_lookup).
  assert (Ha3 : acct v s3).
  { intros q y Hy Hyu. destruct (decide (q = p)) as [->|Hne].
    - rewrite Hx3 in Hy. injection Hy as <-. split; [by rewrite <- Etids in Hnd|]. split; [|done]. intros k. transitivity (thread_count k x2); [by destruct k | exact (Hk2 k)].
    - apply (Hothers q y); [done | | done]. unfold s3, with_pcb in Hy. simpl in Hy. by rewrite Nat2Z.id, list_lookup_insert_ne in Hy. }
  assert (Hv3 : agrees (rank (Z.of_nat p)) v s3) by (intros t Ht0 Hrt; rewrite (cores_owner _ _ _ Hc3) in Hrt; by rewrite (Hv t Ht0 Hrt)).
  assert (Hsig : wp (_ ← send_sigchld_with U (p_pid x2); mret tt)
    (fun _ s' => settles (rank (Z.of_nat p)) v s s' /\ parent_told p (due_state x2) s s') s3).
  { rewrite Epid, (to_pid _ Ht p x Hx). apply wp_bind. eapply wp_mono; [eapply (send_sigchld_spec p _ v s3); try done|].
    intros ? s' [Hs' Hp]. apply wp_ret. split; [by apply (settles_from _ _ _ s3)|]. intros x' z Hx' Hne Hp0 Hz. assert (x' = x) as -> by congruence.
    replace (p_pgid x) with (p_pgid (set_p_state (due_state x2) x2)) by (unfold x2, enter_state, leave_state; by destruct new, old).
    apply (Hp _ z Hx3).
    - simpl. by rewrite Epp.
    - simpl. by rewrite Epp.
    - simpl. rewrite Epp. rewrite list_lookup_insert_ne by lia. done. }
  assert (Hset : forall st Q, due_state x2 = st -> Q tt s3 -> wp (upd_pcb (Z.of_nat p) (set_p_state st)) Q (with_pcb (Z.of_nat p) x2 s)).
  { intros st Q Est HQ. apply (wp_upd_pcb _ x2); [lia | done|]. fold (with_pcb (Z.of_nat p) (set_p_state st x2) (with_pcb (Z.of_nat p) x2 s)).
    rewrite with_pcb_twice, <- Est. exact HQ. }
  unfold due_state, thread_count in Hset. destruct (0 <? p_num_running_threads x2) eqn:E1; [by apply wp_bind, Hset|].
  destruct (0 <? p_num_blocked_threads x2) eqn:E2.
  { apply Hset; [done|]. split; [apply (settles_from _ _ _ s3); [done | done | done | by apply settles_refl]|].
    intros ? ? _ _ _ _ _ ? ? ? ? _ _ _ _ Hwake. unfold due_state, thread_count in Hwake. by rewrite E1, E2 in Hwake. }
  destruct (0 <? p_num_stopped_threads x2); by apply wp_bind, Hset.
Qed.

End level.

(** ** Updates of one thread *)

Lemma with_tcb_cores t x y s : k_threads s !! Z.to_nat t = Some y -> tcore x = tcore y -> cores (with_tcb t x s) = cores s.
Proof.
  intros H E. unfold cores. simpl. f_equal. rewrite list_fmap_insert, E. apply list_insert_id. by rewrite list_lookup_fmap, H.
Qed.

Lemma with_tcb_tables t x y s :
  tables_ok s -> k_threads s !! Z.to_nat t = Some y -> tcore x = tcore y -> (0 <= t_priority y < 3 -> 0 <= t_priority x < 3) -> tables_ok (with_tcb t x s).
Proof.
  intros H Hy E Hp. apply (tables_ok_cores s); [done | by eapply with_tcb_cores | | apply H | apply H | by left].
  apply with_tcb_sys; [apply H|]. apply Hp.
  pose proof (so_priority _ (sy_sched _ (to_sys _ H))) as Hf. rewrite Forall_lookup in Hf. exact (Hf _ _ Hy).
Qed.

Lemma with_tcb_lookup t x y s : k_threads s !! Z.to_nat t = Some y -> k_threads (with_tcb t x s) !! Z.to_nat t = Some x.
Proof. intros H. simpl. rewrite list_lookup_insert_eq; [done|]. by eapply lookup_lt_Some. Qed.

Lemma with_tcb_twice t x y s : with_tcb t x (with_tcb t y s) = with_tcb t x s.
Proof. unfold with_tcb, set_k_threads. simpl. by rewrite list_insert_insert_eq. Qed.

Lemma with_tcb_kind t x y s u :
  k_threads s !! Z.to_nat t = Some y -> tkind (with_tcb t x s) u = if decide (Z.to_nat u = Z.to_nat t) then kind_of (t_state x) else tkind s u.
Proof.
  intros H. unfold tkind. case_decide as E; [rewrite E; by rewrite (with_tcb_lookup t x y s H)|]. simpl. by rewrite list_lookup_insert_ne.
Qed.

(** An update of a thread that the structure of the tables does not see. *)
Definition keeps (f : tcb -> tcb) : Prop :=
  forall y, tsig y = true -> tcore (f y) = tcore y /\ t_state (f y) = t_state y /\ (0 <= t_priority y < 3 -> 0 <= t_priority (f y) < 3).

Lemma tsig_stopped x : tsig x = true -> t_stopped_state x <> THREAD_UNUSED.
Proof. intros [_ Hn]%andb_true_iff E. by rewrite bool_decide_eq_true_2 in Hn. Qed.

Lemma keeps_stopped st : st <> THREAD_UNUSED -> keeps (set_t_stopped_state st).
Proof.
  intros Hst y Hy. split; [|done]. unfold tcore. f_equal. unfold tsig in *. simpl. rewrite (bool_decide_eq_false_2 (st = _)) by done.
  apply andb_true_iff in Hy as [-> ->]. done.
Qed.

Lemma same_core st x : t_state x <> THREAD_UNUSED -> st <> THREAD_UNUSED -> tcore (set_t_state st x) = tcore x.
Proof. intros Hx Hst. unfold tcore. simpl. by rewrite !bool_decide_eq_false_2. Qed.

(** The processes other than that of a thread do not account for it. *)
Lemma other_accounted v t o s p :
  tables_ok s -> acct v s -> 0 <= t -> owner s t = Z.of_nat p ->
  forall q y, q <> p -> k_processes s !! q = Some y -> used y -> accounted (upd v t o) y.
Proof.
  intros Ht Ha Ht0 Ho q y Hne Hy Hu. destruct (Ha q y Hy Hu) as (Hnd & Hc & Hst). split; [done|]. split; [|done].
  intros k. rewrite tally_upd_ne; [apply Hc|]. intros Hin. destruct (to_tids _ Ht q y t Hy Hu Hin) as (_ & z & Hz & Ez).
  unfold owner in Ho. rewrite Hz in Ho. lia.
Qed.

(** The process of a thread does. *)
Lemma own_accounted v t o x s :
  tables_ok s -> acct v s -> 0 <= t -> k_threads s !! Z.to_nat t = Some x -> t_state x <> THREAD_UNUSED ->
  exists p y, t_pcb x = Z.of_nat p /\ k_processes s !! p = Some y /\ used y /\ NoDup (p_tids y) /\
    forall k, thread_count k y - one (v t) k + one o k = tally (upd v t o) k (p_tids y).
Proof.
  intros Ht Ha Ht0 Hx Hxu. destruct (to_owner _ Ht _ _ Hx Hxu) as (p & y & Hp & Hy & Hu & Hin). rewrite Z2Nat.id in Hin by done.
  exists p, y. destruct (Ha p y Hy Hu) as (Hnd & Hc & _). do 4 (split; [done|]). intros k. rewrite tally_upd by done. by rewrite Hc.
Qed.

(** A thread whose counters say [o] is given a state of that kind. *)
Lemma settles_thread b t o st v s s' x f :
  settles b (upd v t o) s s' -> agrees (S b) v s -> 0 <= t -> k_threads s !! Z.to_nat t = Some x -> t_state x <> THREAD_UNUSED ->
  rank (owner s t) = b -> o = kind_of st -> st <> THREAD_UNUSED ->
  keeps f ->
  exists y, k_threads s' !! Z.to_nat t = Some y /\ tcore x = tcore y /\ settles (S b) v s (with_tcb t (set_t_state st (f y)) s').
Proof.
  intros (Ht & [E Ec] & v' & Ha & Hlow & Hhigh) Hv Ht0 Hx Hxu Hb -> Hst Hf.
  destruct (cores_thread _ _ _ _ (eq_sym E) Hx) as (y & Hy & Hc). exists y. split; [done|]. split; [done|].
  destruct (tcore_fields _ _ Hc) as (Eo & _ & Eu & _). destruct (Hf y) as (Hfc & Hfs & Hfp); [apply (to_tsig _ Ht _ _ Hy); tauto|].
  assert (Hc' : tcore (set_t_state st (f y)) = tcore y) by (rewrite same_core; [done | rewrite Hfs; tauto | done]).
  assert (Hcs : cores (with_tcb t (set_t_state st (f y)) s') = cores s') by (by eapply with_tcb_cores).
  split; [by eapply with_tcb_tables|]. split; [split; [congruence | done]|]. exists v'. split; [done|].
  split.
  - intros u Hu0 Hr. rewrite (cores_owner _ _ _ Hcs), (cores_owner _ _ _ E) in Hr. rewrite (with_tcb_kind _ _ y) by done.
    destruct (decide (u = t)) as [->|Hne].
    { rewrite decide_True by done. destruct (Hhigh t) as [-> _]; [done | lia|]. unfold upd. by rewrite decide_True. }
    rewrite decide_False by lia. destruct (decide (rank (owner s u) < b)%nat) as [Hlt|Hge].
    + apply Hlow; [done|]. by rewrite (cores_owner _ _ _ E).
    + destruct (Hhigh u) as [-> ->]; [done | lia|]. unfold upd. rewrite decide_False by done. apply Hv; [done | lia].
  - intros u Hu0 Hr. assert (u <> t) by (intros ->; lia). destruct (Hhigh u) as [-> Hk]; [done | lia|].
    unfold upd. rewrite decide_False by done. split; [done|]. rewrite (with_tcb_kind _ _ y) by done. by rewrite decide_False by lia.
Qed.

(** The ready queues and the heap are not part of the tables. *)
Lemma settles_sched b v s s' h q :
  settles b v s s' -> sys_ok (set_k_heap h (set_k_ready_queues q s')) -> settles b v s (set_k_heap h (set_k_ready_queues q s')).
Proof.
  intros (Ht & E & Hv) Hs. split; [|by split]. apply (tables_ok_cores s'); [done | done | done | apply Ht | apply Ht | by left].
Qed.

Lemma agrees_upd b v t o s : agrees b v s -> (b <= rank (owner s t))%nat -> agrees b (upd v t o) s.
Proof. intros Hv Hb u Hu Hr. unfold upd. rewrite decide_False by (intros ->; lia). by apply Hv. Qed.

Lemma agrees_le b b' v s : (b <= b')%nat -> agrees b' v s -> agrees b v s.
Proof. intros Hb Hv t Ht Hr. apply Hv; [done | lia]. Qed.

(** The change of the state of one thread, in the process and then in the
    thread itself, is accounted for. *)
Lemma set_state_spec n U v t x s st (f : tcb -> tcb) :
  unblock_spec n U -> tables_ok s -> acct v s -> agrees (S (rank (owner s t))) v s -> 0 <= t ->
  k_threads s !! Z.to_nat t = Some x -> t_state x <> THREAD_UNUSED -> (rank (owner s t) <= n)%nat -> st <> THREAD_UNUSED ->
  keeps f ->
  wp (change_state_with U (t_pcb x) (t_state x) st)
     (fun _ s' => exists y, k_threads s' !! Z.to_nat t = Some y /\ tcore x = tcore y /\ settles (S (rank (owner s t))) v s (with_tcb t (set_t_state st (f y)) s')) s.
Proof.
  intros HU Ht Ha Hv Ht0 Hx Hxu Hr Hst Hf.
  destruct (own_accounted v t (kind_of st) x s Ht Ha Ht0 Hx Hxu) as (p & z & Hp & Hz & Hzu & Hnd & Hc).
  assert (Ho : owner s t = Z.of_nat p) by (unfold owner; by rewrite Hx). rewrite Ho in *.
  assert (Hvt : v t = kind_of (t_state x)) by (rewrite (Hv t Ht0) by (rewrite Ho; lia); unfold tkind; by rewrite Hx). rewrite Hvt in Hc.
  rewrite Hp. eapply wp_mono; [eapply (change_state_spec n U HU p z (upd v t (kind_of st))); try done|].
  - apply agrees_upd; [eapply agrees_le; [|exact Hv]; lia | rewrite Ho; lia].
  - by apply (other_accounted _ _ _ s p).
  - intros [] s' [Hs' _].
    by apply (settles_thread (rank (Z.of_nat p)) t _ st v s s' x f Hs'); [| | | |rewrite Ho| | |].
Qed.

Lemma unblock_with_spec n U : unblock_spec n U -> unblock_spec (S n) (unblock_with U).
Proof.
  intros HU s v w x Ht Ha Hv Hw Hx Hxu Hr. unfold unblock_with. apply wp_bind, (wp_get_tcb _ x); [done | done|].
  destruct (is_blocked (t_state x)) eqn:Eb; simpl; [|by apply wp_ret; split; [apply settles_refl|]].
  apply wp_bind. eapply wp_mono; [eapply (set_state_spec n U v w x s THREAD_READY (set_t_blocked_until 0)); try done; lia|].
  intros [] s' (y & Hy & _ & Hset). apply wp_bind, (wp_upd_tcb _ y); [done | done|]. fold (with_tcb w (set_t_state THREAD_READY y) s').
  apply wp_bind, (wp_upd_tcb _ (set_t_state THREAD_READY y)); [done | by eapply with_tcb_lookup|].
  set (z := set_t_blocked_until 0 (set_t_state THREAD_READY y)). fold (with_tcb w z (with_tcb w (set_t_state THREAD_READY y) s')).
  rewrite with_tcb_twice. change (settles (S (rank (owner s w))) v s (with_tcb w z s')) in Hset.
  apply (wp_add_thread w z); [apply Hset | done | by eapply with_tcb_lookup|].
  intros s3 Hs3 _ (h & q & ->) Hin. split; [by apply settles_sched|]. intros _. exists z. split; [by eapply (with_tcb_lookup _ _ y)|]. split; [done | by apply Hin].
Qed.

Lemma unblock_n_spec n : unblock_spec n (unblock_n n).
Proof. induction n as [|n IH]; [intros s v w x; lia | by apply unblock_with_spec]. Qed.

End tree.

(** ** Scheduling does not touch the tables *)

Definition resched (s s' : kstate) : Prop :=
  cores s' = cores s /\ (forall t, tkind s' t = tkind s t) /\ k_processes s' = k_processes s /\
  k_threads_lock s' = k_threads_lock s /\ k_process_table_lock s' = k_process_table_lock s.

Lemma resched_trans s1 s2 s3 : resched s1 s2 -> resched s2 s3 -> resched s1 s3.
Proof.
  intros (E1 & K1 & P1 & T1 & L1) (E2 & K2 & P2 & T2 & L2). split; [congruence|]. split; [intros t; by rewrite K2|]. split_and!; congruence.
Qed.

Lemma resched_frame s s' : k_threads s' = k_threads s -> k_processes s' = k_processes s ->
  k_threads_lock s' = k_threads_lock s -> k_process_table_lock s' = k_process_table_lock s -> resched s s'.
Proof. intros Et Ep Hl Hp. unfold resched, cores, tkind. by rewrite Et, Ep. Qed.

Lemma with_tcb_resched t x y s :
  k_threads s !! Z.to_nat t = Some y -> tcore x = tcore y -> kind_of (t_state x) = kind_of (t_state y) -> resched s (with_tcb t x s).
Proof.
  intros Hy Hc Hk. split; [by eapply with_tcb_cores|]. split; [|done]. intros u. rewrite (with_tcb_kind _ _ y) by done.
  case_decide as E; [|done]. unfold tkind. by rewrite E, Hy.
Qed.

Lemma sys_priority s t x : sched_ok s -> k_threads s !! t = Some x -> 0 <= t_priority x < 3.
Proof. intros Hs Hx. pose proof (so_priority _ Hs) as Hf. rewrite Forall_lookup in Hf. exact (Hf _ _ Hx). Qed.

Lemma resched_used s s' : resched s s' -> curr_used s -> forall c u, c ∈ k_cpus s -> c_curr_thread c = Some u ->
  exists x, k_threads s' !! Z.to_nat u = Some x /\ t_state x <> THREAD_UNUSED.
Proof.
  intros (E & _) Hcu c u Hc Hu. destruct (Hcu c u Hc Hu) as (x & Hx & Hxu).
  destruct (cores_thread _ _ _ _ (eq_sym E) Hx) as (y & Hy & (_ & _ & Eu & _)%tcore_fields). exists y. split; [done|]. by intros ?%Eu.
Qed.

(** The thread whose context is saved; without a CPU nothing happens. *)
Definition tick_result (me : nat) (s : kstate) (r : option (option Z * option Z)) (s' : kstate) : Prop :=
  match r with Some (old, _) => old = running_on s me | None => s' = s end.

(** A step of the scheduler, whoever is waiting. *)
Lemma wp_tick me s (Q : option (option Z * option Z) -> kstate -> Prop) :
  sys_ok s -> (forall r s', sys_ok s' -> resched s s' -> (curr_used s -> curr_used s') -> tick_result me s r s' -> Q r s') -> wp (scheduler_tick me) Q s.
Proof.
  intros Hok HQ. pose proof Hok as [Hs Hg Hl Hcur]. unfold scheduler_tick. apply wp_bind, wp_fetch.
  destruct (k_cpus s !! me) as [c|] eqn:Hme; [|by apply wp_ret, HQ; [| apply resched_frame | |]].
  assert (Hold : c_curr_thread c = running_on s me) by (unfold running_on; by rewrite Hme).
  apply wp_bind, wp_spin_lock; [done|]. apply wp_bind, wp_modify.
  set (f := fun c => set_c_scheduler_ticks (to_u64 (c_scheduler_ticks c + 1)) c).
  set (s1 := set_k_cpus _ _). assert (Hs1 : sched_ok s1) by (constructor; apply Hs). assert (Hr1 : resched s s1) by (by apply resched_frame).
  cut (forall s2, sched_ok s2 -> grants s2 -> resched s1 s2 -> length (k_threads s2) = length (k_threads s) -> k_cpus s2 = k_cpus s1 ->
         wp (next ← get_next_thread_locked; _ ← upd_cpu me (set_c_curr_thread next);
             _ ← (match next with None => mret tt | Some n => upd_tcb n (set_t_state THREAD_RUNNING) end);
             _ ← log_call (Timer_schedule_local me); _ ← scheduler_unlock; mret (Some (c_curr_thread c, next))) Q s2).
  - intros Hmid. apply wp_bind. destruct (c_curr_thread c) as [v|] eqn:Ecur; [|by apply wp_ret, Hmid].
    destruct (Hcur c v) as [Hv Hvl]; [by eapply list_elem_of_lookup_2 | done|].
    destruct (lookup_lt_is_Some_2 (k_threads s) (Z.to_nat v)) as [y Hy]; [lia|].
    apply wp_bind, (wp_get_tcb _ y); [done | done|]. case_bool_decide as Hrun; [|by apply wp_ret, Hmid].
    apply wp_bind, (wp_upd_tcb v y); [done | done|]. fold (with_tcb v (set_t_state THREAD_READY y) s1).
    assert (Hsy : sched_ok (with_tcb v (set_t_state THREAD_READY y) s1)) by (apply with_tcb_ok; [done | by apply (sys_priority s _ y) in Hy]).
    apply (wp_add_thread_locked _ v (set_t_state THREAD_READY y)); [done | done | done | by eapply (with_tcb_lookup v _ y)|].
    intros s3 Hs3 Hg3 _ (h & q & E3) _. apply Hmid; [done | done | | rewrite E3; simpl; by rewrite length_insert | by rewrite E3].
    eapply resched_trans; [|rewrite E3; by apply resched_frame]. eapply (with_tcb_resched _ _ y); [done | apply same_core; [by rewrite Hrun | done] | by simpl; rewrite Hrun].
  - intros s2 Hs2 Hg2 Hr2 Hlen Hcp. apply wp_bind, wp_next_any; [done|]. intros r s3 Hs3 (q3 & c3 & p3 & E3) Hu.
    assert (Hr3 : resched s s3) by (eapply resched_trans; [exact Hr1|]; eapply resched_trans; [exact Hr2|]; rewrite E3; by apply resched_frame).
    apply wp_bind, wp_modify. set (s4 := set_k_cpus _ s3).
    assert (Hc4 : forall c' u, c' ∈ alter (set_c_curr_thread r) me (k_cpus s2) -> c_curr_thread c' = Some u -> r = Some u \/ exists c0, c0 ∈ k_cpus s /\ c_curr_thread c0 = Some u).
    { intros c' u Hc' Hu'. apply list_elem_of_lookup in Hc' as (i & Hi). rewrite Hcp in Hi. simpl in Hi.
      destruct (decide (i = me)) as [->|Hne].
      - rewrite !list_lookup_alter_eq, Hme in Hi. injection Hi as <-. by left.
      - rewrite !list_lookup_alter_ne in Hi by done. right. exists c'. split; [by eapply list_elem_of_lookup_2 | done]. }
    apply wp_bind. destruct r as [u|].
    + destruct (Hu u eq_refl) as [Hru Hin]. destruct (ok_thread s2 u Hs2 Hin) as (Hu0 & x & Hx).
      assert (Hx4 : k_threads s4 !! Z.to_nat u = Some x) by (unfold s4; simpl; by rewrite E3).
      assert (Hux : t_state x = THREAD_READY) by (unfold is_ready in Hru; rewrite Hx in Hru; by apply bool_decide_eq_true in Hru).
      apply (wp_upd_tcb u x); [done | done|]. fold (with_tcb u (set_t_state THREAD_RUNNING x) s4).
      apply wp_bind, wp_modify, wp_bind, wp_modify, wp_ret, HQ.
      * assert (Hs5 : sched_ok (with_tcb u (set_t_state THREAD_RUNNING x) s4)).
        { apply with_tcb_ok; [constructor; apply Hs3 | by apply (sys_priority s2 _ x) in Hx]. }
        constructor; [constructor; apply Hs5 | unfold grants; simpl; by rewrite E3 | done|]. simpl. rewrite length_insert, E3. simpl. rewrite Hlen.
        intros c' u' Hc' Hu'. destruct (Hc4 c' u' Hc' Hu') as [[= <-]|(c0 & Hc0 & Hu0')]; [|by apply (Hcur c0)]. apply lookup_lt_Some in Hx. lia.
      * eapply resched_trans; [exact Hr3|]. eapply resched_trans; [by apply (resched_frame s3 s4)|].
        eapply resched_trans; [eapply (with_tcb_resched u (set_t_state THREAD_RUNNING x) x s4); [done | apply same_core; [by rewrite Hux | done] | by simpl; rewrite Hux]|]. by apply resched_frame.
      * intros Hcu c' u' Hc' Hu'. simpl in Hc'. rewrite E3 in Hc'. simpl in Hc'. destruct (Hc4 c' u' Hc' Hu') as [[= <-]|(c0 & Hc0 & Hu0')].
        { eexists. split; [by eapply (with_tcb_lookup _ _ x) | done]. }
        destruct (resched_used s s3 Hr3 Hcu c0 u' Hc0 Hu0') as (z & Hz & Hzu).
        destruct (decide (Z.to_nat u' = Z.to_nat u)) as [Euu|Hne]; [rewrite Euu; eexists; split; [by eapply (with_tcb_lookup _ _ x) | done]|].
        exists z. split; [simpl; by rewrite list_lookup_insert_ne by congruence | done].
      * done.
    + apply wp_ret, wp_bind, wp_modify, wp_bind, wp_modify, wp_ret, HQ; [|eapply resched_trans; [exact Hr3 | by apply resched_frame]| |done].
      2: { intros Hcu c' u' Hc' Hu'. simpl in Hc'. rewrite E3 in Hc'. simpl in Hc'. destruct (Hc4 c' u' Hc' Hu') as [|(c0 & Hc0 & Hu0')]; [done|]. by apply (resched_used s s3 Hr3 Hcu c0 u'). }
      constructor; [constructor; apply Hs3 | unfold grants; simpl; by rewrite E3 | done|]. simpl. rewrite E3. simpl. rewrite Hlen.
      intros c' u' Hc' Hu'. destruct (Hc4 c' u' Hc' Hu') as [|(c0 & Hc0 & Hu0')]; [done | by apply (Hcur c0)].
Qed.

(** ** The invariant of the tables *)

Section ops.
Context (rank : Z -> nat).

Definition kernel_ok (s : kstate) : Prop := tables_ok rank s /\ acct (tkind s) s.

Lemma acct_ext v v' s : tables_ok rank s -> acct v s -> (forall t, 0 <= t -> v t = v' t) -> acct v' s.
Proof.
  intros Ht Ha E p x Hx Hu. destruct (Ha p x Hx Hu) as (Hnd & Hc & Hst). split; [done|]. split; [|done]. intros k. rewrite Hc.
  apply tally_ext. intros t Hin. apply E. by apply (to_tids _ _ Ht p x t).
Qed.

Lemma agrees_self b s : agrees rank b (tkind s) s.
Proof. by intros t _ _. Qed.

Lemma settles_ok b s s' : settles rank b (tkind s) s s' -> kernel_ok s'.
Proof.
  intros (Ht & [E Ec] & v' & Ha & Hlow & Hhigh). split; [done|]. apply (acct_ext v'); [done | done|]. intros t Ht0.
  destruct (decide (rank (owner s' t) < b)%nat) as [?|Hn]; [by apply Hlow|]. rewrite (cores_owner _ _ _ E) in Hn.
  destruct (Hhigh t) as [-> ->]; [done | lia | done].
Qed.

Lemma kernel_ok_resched s s' : kernel_ok s -> sys_ok s' -> resched s s' -> k_cpus s' = k_cpus s \/ curr_used s' -> kernel_ok s'.
Proof.
  intros [Ht Ha] Hs (E & Hk & Hp & Htl & Hpl) Hcpu. split.
  - apply (tables_ok_cores rank s); [done | done | done | by rewrite Htl; apply Ht | by rewrite Hpl; apply Ht | done].
  - intros p x Hx. rewrite Hp in Hx. intros Hu. destruct (Ha p x Hx Hu) as (Hnd & Hc & Hst). split; [done|]. split; [|done].
    intros k. rewrite Hc. apply tally_ext. intros t _. by rewrite Hk.
Qed.

(** What threads do when they are switched back to keeps the tables consistent. *)
Context (deliver : KP unit).
(** The program goes on in the thread it was in. *)
Definition same_thread {A} (cur : option Z) (_ : A) (me : nat) (s : kstate) : Prop := running_on s me = cur.

Context (Hdel : forall me s, kernel_ok s -> safe kernel_ok (same_thread (running_on s me)) (deliver me s)).

Lemma safe_yield me s : kernel_ok s -> safe kernel_ok (same_thread (running_on s me)) (schedule_yield deliver me s).
Proof.
  intros Hok. destruct (wp_tick me s (fun r s' => kernel_ok s' /\ tick_result me s r s') (to_sys _ _ (proj1 Hok))) as (r & s' & E & Hs' & Hr).
  { intros r s' Hs Hr Hc Hres. split; [|done]. eapply kernel_ok_resched; try done. right. apply Hc, (proj1 Hok). }
  unfold schedule_yield. rewrite E. destruct r as [[old next]|]; simpl; [|split; [done|]; by rewrite Hr].
  split; [done|]. intros me' s2 Hs2. unfold resume. simpl in Hr. subst old. case_bool_decide as Er; [|done]. rewrite <- Er. by apply Hdel.
Qed.

Lemma safe_yield_if_current t me s : kernel_ok s -> safe kernel_ok (same_thread (running_on s me)) (yield_if_current deliver t me s).
Proof.
  intros Hok. unfold yield_if_current. apply safe_bind. simpl. split; [done|].
  case_bool_decide; [by apply safe_yield | by split].
Qed.

Lemma live_process s t x : tables_ok rank s -> live s t x -> exists y, 0 <= t_pcb x /\ k_processes s !! Z.to_nat (t_pcb x) = Some y /\ used y.
Proof.
  intros Ht (Ht0 & Hx & Hu). destruct (to_owner _ _ Ht _ _ Hx Hu) as (p & y & -> & Hy & Hyu & _). exists y. rewrite Nat2Z.id. split; [lia | done].
Qed.

(** Fields of a thread that the accounting does not look at. *)
Lemma kernel_ok_thread t x f s :
  kernel_ok s -> live s t x -> keeps f -> kernel_ok (with_tcb t (f x) s).
Proof.
  intros Hok (Ht0 & Hx & Hu) Hf. destruct (Hf x) as (Hc & Hst & Hp); [by apply (to_tsig _ _ (proj1 Hok) _ _ Hx)|]. apply (kernel_ok_resched s); [done | | |by left].
  - by apply (with_tcb_tables rank t (f x) x); [apply Hok | | |].
  - apply (with_tcb_resched _ _ x); [done | done | by rewrite Hst].
Qed.

(** Steps after which the same threads and processes are in use and every CPU
    runs the thread it ran. *)
Definition calm (s s' : kstate) : Prop := kernel_ok s' /\ k_cpus s' = k_cpus s /\ cores s' = cores s.

Lemma calm_trans s1 s2 s3 : calm s1 s2 -> calm s2 s3 -> calm s1 s3.
Proof. intros (_ & C1 & E1) (H & C2 & E2). split; [done|]. split; congruence. Qed.

Lemma calm_live s s' t x : calm s s' -> live s t x -> exists y, live s' t y /\ t_pcb y = t_pcb x.
Proof.
  intros (_ & _ & E) (Ht0 & Hx & Hu). destruct (cores_thread _ _ _ _ (eq_sym E) Hx) as (y & Hy & (Ep & _ & Eu & _)%tcore_fields).
  exists y. split; [|done]. split; [done|]. split; [done|]. by intros ?%Eu.
Qed.

(** [pcb_thread_change_state] followed by the change of the thread. *)
Lemma wp_set_state t x st f s :
  kernel_ok s -> live s t x -> st <> THREAD_UNUSED -> keeps f ->
  wp (pcb_thread_change_state (t_pcb x) (t_state x) st)
     (fun _ s' => exists y, live s' t y /\ calm s (with_tcb t (set_t_state st (f y)) s')) s.
Proof.
  intros [Ht Ha] (Ht0 & Hx & Hu) Hst Hf.
  eapply wp_mono; [apply (set_state_spec rank LEVELS _ (tkind s) t x s st f); try done|].
  - apply unblock_n_spec.
  - pose proof (to_rank _ _ Ht (owner s t)). unfold LEVELS. lia.
  - intros [] s' (y & Hy & Hc & Hset). exists y. split; [|split; [by eapply settles_ok | split; apply Hset]]. split; [done|]. split; [done|].
    apply tcore_fields in Hc. tauto.
Qed.

(** *** The operations *)

Lemma wp_change t x st s :
  kernel_ok s -> live s t x -> st <> THREAD_UNUSED ->
  wp (_ ← pcb_thread_change_state (t_pcb x) (t_state x) st; upd_tcb t (set_t_state st)) (fun _ s' => calm s s') s.
Proof.
  intros Hok Hx Hst. apply wp_bind. eapply wp_mono; [by apply (wp_set_state t x st id)|].
  intros [] s' (y & (Ht0 & Hy & _) & Hok'). apply (wp_upd_tcb _ y); [done | done|]. exact Hok'.
Qed.

Lemma kernel_ok_log c s : kernel_ok s -> kernel_ok (set_k_calls c s).
Proof. intros Hok. apply (kernel_ok_resched s); [done | | by apply resched_frame | by left]. destruct (to_sys _ _ (proj1 Hok)) as [Hs ? ? ?]. constructor; [constructor; apply Hs | done..]. Qed.

(** The common part of the operations: the process is looked up and the terminal told. *)
Lemma wp_tell {A} t x s (c : Z -> call) (m : KM A) Q :
  kernel_ok s -> live s t x -> (forall s', calm s s' -> live s' t x -> wp m Q s') ->
  wp (p ← get_pcb (t_pcb x); _ ← log_call (c (p_pid p)); m) Q s.
Proof.
  intros Hok Hx Hm. destruct (live_process s t x (proj1 Hok) Hx) as (y & Hp & Hy & _).
  apply wp_bind, (wp_get_pcb _ y); [done | done|]. apply wp_bind, wp_modify, Hm; [by split; [apply kernel_ok_log|] | done].
Qed.

Lemma same_cpus s s' me : k_cpus s' = k_cpus s -> running_on s' me = running_on s me.
Proof. intros E. unfold running_on. by rewrite E. Qed.

Lemma safe_stop t x me s : kernel_ok s -> live s t x -> safe kernel_ok (same_thread (running_on s me)) (stop_thread deliver t me s).
Proof.
  intros Hok Hx. pose proof Hx as (Ht0 & Hxt & Hu). apply safe_step, (wp_get_tcb _ x); [done | done|]. split; [done|].
  destruct (is_stopped (t_state x)); [by split|]. apply safe_step, (wp_tell t x s Tty_session_process_stop _ _ Hok Hx). intros s1 (Hok1 & Hc1 & _) Hx1.
  pose proof Hx1 as (_ & Hx1t & _). apply wp_bind, (wp_upd_tcb _ x); [done | done|]. set (x2 := set_t_stopped_state (t_state x) x). fold (with_tcb t x2 s1).
  eapply wp_mono; [apply (wp_change t x2); [apply (kernel_ok_thread t x (set_t_stopped_state (t_state x))); [done | done | by apply keeps_stopped] | | done]|].
  - split; [done|]. split; [by eapply (with_tcb_lookup _ _ x) | done].
  - intros [] s2 (Hok2 & Hc2 & _). split; [done|]. rewrite <- (same_cpus s s2) by (by rewrite Hc2). by apply safe_yield_if_current.
Qed.

Lemma safe_terminate t x me s : kernel_ok s -> live s t x -> safe kernel_ok (same_thread (running_on s me)) (terminate_thread deliver t me s).
Proof.
  intros Hok Hx. pose proof Hx as (Ht0 & Hxt & Hu). apply safe_step, (wp_get_tcb _ x); [done | done|]. split; [done|].
  destruct (is_zombie (t_state x)); [by split|]. apply safe_step, (wp_tell t x s Tty_session_process_exit _ _ Hok Hx). intros s1 (Hok1 & Hc1 & _) Hx1.
  eapply wp_mono; [by apply (wp_change t x)|]. intros [] s2 (Hok2 & Hc2 & _). split; [done|].
  rewrite <- (same_cpus s s2) by (by rewrite Hc2). by apply safe_yield_if_current.
Qed.

Lemma safe_block t x st me s : kernel_ok s -> live s t x -> safe kernel_ok (same_thread (running_on s me)) (block_thread deliver t st me s).
Proof.
  intros Hok Hx. pose proof Hx as (Ht0 & Hxt & Hu). unfold block_thread. destruct (is_blocked st) eqn:Eb; simpl; [|by split].
  apply safe_step, wp_bind, (wp_get_tcb _ x); [done | done|].
  eapply wp_mono; [apply (wp_change t x); [done | done | by intros ->]|]. intros [] s2 (Hok2 & Hc2 & _). split; [done|].
  rewrite <- (same_cpus s s2) by done. by apply safe_yield_if_current.
Qed.

Lemma wp_unblock t x s : kernel_ok s -> live s t x -> wp (unblock_thread (Some t)) (fun _ s' => calm s s') s.
Proof.
  intros [Ht Ha] (Ht0 & Hx & Hu). eapply wp_mono; [apply (unblock_n_spec rank LEVELS s (tkind s) t x); try done|].
  - pose proof (to_rank _ _ Ht (owner s t)). unfold LEVELS. lia.
  - intros [] s' [Hs' _]. split; [by eapply settles_ok | split; apply Hs'].
Qed.

Lemma kernel_ok_sched s h q : kernel_ok s -> sys_ok (set_k_heap h (set_k_ready_queues q s)) -> kernel_ok (set_k_heap h (set_k_ready_queues q s)).
Proof. intros Hok Hs. apply (kernel_ok_resched s); [done | done | by apply resched_frame | by left]. Qed.

Lemma continued_used x : t_stopped_state x <> THREAD_UNUSED -> continued_state x <> THREAD_UNUSED.
Proof. unfold continued_state. destruct (t_stopped_state x); simpl; try done; by destruct (t_blocked_until x =? 0). Qed.

Lemma wp_continue t x s :
  kernel_ok s -> live s t x -> wp (continue_thread t) (fun _ s' => calm s s') s.
Proof.
  intros Hok Hx. pose proof Hx as (Ht0 & Hxt & Hu). apply wp_bind, (wp_get_tcb _ x); [done | done|].
  assert (Hst : t_stopped_state x <> THREAD_UNUSED) by (by apply tsig_stopped, (to_tsig _ _ (proj1 Hok) _ _ Hxt)).
  destruct (is_stopped (t_state x)); simpl; [|by apply wp_ret]. apply (wp_tell t x s Tty_session_process_continue _ _ Hok Hx). intros s1 Hc1 Hx1.
  apply wp_bind. eapply wp_mono; [apply (wp_set_state t x (continued_state x) (set_t_stopped_state THREAD_READY)); [apply Hc1 | done | by apply continued_used | by apply keeps_stopped]|].
  intros [] s2 (y & (_ & Hy & _) & Hok2). apply wp_bind, (wp_upd_tcb _ y); [done | done|]. fold (with_tcb t (set_t_state (continued_state x) y) s2).
  apply wp_bind, (wp_upd_tcb _ (set_t_state (continued_state x) y)); [done | by eapply (with_tcb_lookup _ _ y)|].
  set (z := set_t_stopped_state THREAD_READY (set_t_state (continued_state x) y)). fold (with_tcb t z (with_tcb t (set_t_state (continued_state x) y) s2)).
  rewrite with_tcb_twice. change (calm s1 (with_tcb t z s2)) in Hok2. pose proof (calm_trans _ _ _ Hc1 Hok2) as Hc2. case_bool_decide; [|by apply wp_ret].
  apply (wp_add_thread t z); [apply Hok2 | done | by eapply (with_tcb_lookup _ _ y)|]. intros s3 Hs3 _ (h & q & ->) _. eapply calm_trans; [exact Hc2|]. by split; [apply kernel_ok_sched; [apply Hok2|]|].
Qed.

Lemma wp_unblock_event tid event s : kernel_ok s -> wp (send_unblock_event tid event) (fun _ s' => calm s s') s.
Proof.
  intros Hok. apply wp_bind, wp_thread_get_by_tid; [apply Hok | |intros _; by apply wp_ret]. intros x Ht0 Hx Hu.
  apply wp_bind, (wp_get_tcb _ x); [done | done|]. destruct (is_blocked (t_state x)); simpl; [|by apply wp_ret].
  destruct (has _ _); [|by apply wp_ret]. apply wp_bind. eapply wp_mono; [by apply (wp_unblock tid x)|]. intros [] s' Hs'. by apply wp_ret.
Qed.

Lemma wp_change_priority tid pr s : kernel_ok s -> wp (thread_change_priority tid pr) (fun _ s' => calm s s') s.
Proof.
  intros Hok. apply wp_bind, wp_thread_get_by_tid; [apply Hok | |intros _; by apply wp_ret]. intros x Ht0 Hx Hu.
  destruct (Z.ltb_spec pr 0); [by apply wp_ret|]. destruct (Z.ltb_spec 2 pr); [by apply wp_ret|]. simpl.
  apply (wp_upd_tcb _ x); [done | done|]. split; [|split; [done | by eapply with_tcb_cores]]. apply (kernel_ok_thread tid x (set_t_priority pr)); [done | done|]. intros y _. split; [done|]. split; [done|]. simpl. lia.
Qed.

(** *** The exit of the last thread of a process *)

Lemma tally_zero v k l : (forall t, t ∈ l -> v t <> Some k) -> tally v k l = 0.
Proof.
  intros H. unfold tally. induction l as [|t l IH]; [done|]. rewrite filter_cons_False by (apply H; left). apply IH. intros u Hu. apply H. by right.
Qed.

Lemma all_zombies v x : (forall k, thread_count k x = tally v k (p_tids x)) -> (forall t, t ∈ p_tids x -> v t = Some KZombie) -> due_state x = PROC_ZOMBIE_STATE.
Proof.
  intros Hc Hz. unfold due_state. rewrite !Hc, !tally_zero; [done | intros t Ht; by rewrite (Hz t Ht)..].
Qed.

Lemma exit_wakes t x p y z l1 w l2 xw s :
  kernel_ok s -> live s t x -> t_pcb x = Z.of_nat p -> k_processes s !! p = Some y ->
  (forall u, u ∈ p_tids y -> u <> t -> tkind s u = Some KZombie) ->
  p_ppid y <> Z.of_nat p -> 0 <= p_ppid y -> k_processes s !! Z.to_nat (p_ppid y) = Some z -> used z ->
  p_child_waitq z = l1 ++ w :: l2 -> (forall u yu, u ∈ l1 -> live s u yu -> waits_for yu (Z.of_nat p) (p_pgid y) = false) ->
  live s w xw -> waits_for xw (Z.of_nat p) (p_pgid y) = true -> is_blocked (t_state xw) = true ->
  wp (pcb_thread_change_state (t_pcb x) (t_state x) THREAD_ZOMBIE)
     (fun _ s' => queued s' w /\ exists y', k_processes s' !! p = Some y' /\ p_state y' = PROC_ZOMBIE_STATE) s.
Proof.
  intros [Ht Ha] (Ht0 & Hx & Hu) Hp Hy Hz Hne Hpp Hzz Hzu Eq Hl1 Hw Hwf Hb.
  destruct (own_accounted rank (tkind s) t (Some KZombie) x s Ht Ha Ht0 Hx Hu) as (p' & y' & Hp' & Hy' & Hyu & Hnd & Hc).
  assert (p' = p) as -> by lia. assert (y' = y) as -> by congruence.
  assert (Ho : owner s t = Z.of_nat p) by (unfold owner; by rewrite Hx).
  assert (Hk : tkind s t = kind_of (t_state x)) by (unfold tkind; by rewrite Hx). rewrite Hk in Hc.
  assert (Hall : forall u, u ∈ p_tids y -> upd (tkind s) t (Some KZombie) u = Some KZombie).
  { intros u Hin. unfold upd. case_decide; [done | by apply Hz]. }
  rewrite Hp. eapply wp_mono; [eapply (change_state_spec rank LEVELS _ (unblock_n_spec rank LEVELS) p y (upd (tkind s) t (Some KZombie))); try done|].
  - pose proof (to_rank _ _ Ht (Z.of_nat p)). unfold LEVELS. lia.
  - apply agrees_upd; [done | rewrite Ho; lia].
  - by apply (other_accounted rank _ _ _ s p).
  - intros [] s' [(Ht' & [E _] & v' & Ha' & _ & Hhigh) Htold]. split.
    + apply (Htold y z Hy Hne Hpp Hzz Hzu l1 w l2 xw); try done. rewrite (all_zombies (upd (tkind s) t (Some KZombie))); [done | |].
      * intros k. rewrite enter_counter, leave_counter. destruct (pcore_fields (enter_state THREAD_ZOMBIE (leave_state (t_state x) y)) y) as (_ & _ & -> & _); [by rewrite enter_core, leave_core|]. apply Hc.
      * destruct (pcore_fields (enter_state THREAD_ZOMBIE (leave_state (t_state x) y)) y) as (_ & _ & -> & _); [by rewrite enter_core, leave_core|]. exact Hall.
    + destruct (cores_process _ _ _ _ (eq_sym E) Hy) as (y1 & Hy1 & (_ & _ & Etids & _ & Eu & _)%pcore_fields). exists y1. split; [done|].
      destruct (Ha' p y1 Hy1 (proj1 Eu Hyu)) as (_ & Hc' & ->). apply (all_zombies v'); [done|]. rewrite <- Etids. intros u Hin.
      destruct (to_tids _ _ Ht p y u Hy Hyu Hin) as (Hu0 & yu & Hyut & Eyu).
      destruct (Hhigh u Hu0) as [-> _]; [unfold owner; rewrite Hyut, Eyu; lia | by apply Hall].
Qed.

(** *** All operations *)

Inductive thread_op :=
  | OpStop (t : Z)
  | OpTerminate (t : Z)
  | OpBlock (t : Z) (st : thread_state)
  | OpUnblock (t : Z)
  | OpContinue (t : Z)
  | OpEvent (tid event : Z)
  | OpPriority (tid priority : Z)
  | OpYield.

Definition run_op (deliver : KP unit) (o : thread_op) : KP unit :=
  match o with
  | OpStop t => stop_thread deliver t
  | OpTerminate t => terminate_thread deliver t
  | OpBlock t st => block_thread deliver t st
  | OpUnblock t => atomic (unblock_thread (Some t))
  | OpContinue t => atomic (continue_thread t)
  | OpEvent tid event => _ ← atomic (send_unblock_event tid event); mret tt
  | OpPriority tid priority => atomic (thread_change_priority tid priority)
  | OpYield => schedule_yield deliver
  end.

(** The pointers passed are to threads of the table. *)
Definition op_args (o : thread_op) (s : kstate) : Prop :=
  match o with
  | OpStop t | OpTerminate t | OpBlock t _ | OpUnblock t => exists x, live s t x
  | OpContinue t => exists x, live s t x
  | _ => True
  end.

Lemma run_op_safe o me s : kernel_ok s -> op_args o s -> safe kernel_ok (same_thread (running_on s me)) (run_op deliver o me s).
Proof.
  intros Hok. assert (Hkeep : forall s', calm s s' -> kernel_ok s' /\ same_thread (running_on s me) tt me s').
  { intros s' (Hs' & Hc & _). split; [done | by apply same_cpus]. }
  destruct o as [t|t|t st|t|t|tid ev|tid pr|]; simpl run_op; cbn [op_args].
  - intros [x Hx]. by eapply safe_stop.
  - intros [x Hx]. by eapply safe_terminate.
  - intros [x Hx]. by eapply safe_block.
  - intros [x Hx]. apply safe_atomic. eapply wp_mono; [by eapply wp_unblock|]. intros [] s'. apply Hkeep.
  - intros (x & Hx). apply safe_atomic. eapply wp_mono; [by eapply wp_continue|]. intros [] s'. apply Hkeep.
  - intros _. apply safe_step. eapply wp_mono; [by apply wp_unblock_event|]. intros r s' Hs'. split; [apply Hs' | by apply Hkeep].
  - intros _. apply safe_atomic. eapply wp_mono; [by apply wp_change_priority|]. intros [] s'. apply Hkeep.
  - intros _. by apply safe_yield.
Qed.

End ops.

(** ** A small system

    Process 0 is init, process 1 a shell that waits for any child, process 2 its
    child, which runs on CPU 0; each has one thread. *)

Definition demo_pcb (pid ppid : Z) (st : process_state) (tids waitq : list Z) (running blocked : Z) : pcb :=
  mkPcb pid ppid 0 [] st 0 tids false false 0 0 [] [] false (repeat (mkSigaction SIG_DFL 0 0) 32) 0 waitq 0 blocked 0 0 running.

Definition demo_process (i : nat) : pcb :=
  match i with
  | 0%nat => demo_pcb 0 0 PROC_RUNNING_STATE [0] [] 1 0
  | 1%nat => demo_pcb 1 0 PROC_BLOCKED_STATE [1] [1] 0 1
  | 2%nat => demo_pcb 2 1 PROC_RUNNING_STATE [2] [] 1 0
  | _ => demo_pcb (Z.of_nat i) 0 PROC_UNUSED_STATE [] [] 0 0
  end.

Definition demo_tcb (tid pcb : Z) (st : thread_state) (waiting_for_pid : Z) : tcb :=
  mkTcb tid st THREAD_READY demo_ctx pcb 0 0 0 true [] 0 0 0 0 1 0 waiting_for_pid 0.

Definition demo_system : kstate :=
  mkK [demo_tcb 0 0 THREAD_READY (-2); demo_tcb 1 1 THREAD_BLOCKED_INTERRUPTABLE (-1); demo_tcb 2 2 THREAD_RUNNING (-2)]
    [[]; [0]; []] [0; 0; 0] 0 (map demo_process (seq 0 256)) ∅ [mkCpu false (Some 2) 0; mkCpu false None 0]
    false false false (fun _ => true) (fun _ => None) [].

Definition demo_rank (p : Z) : nat := if p =? 1 then 1 else if p =? 2 then 2 else 0.

Lemma demo_process_lookup p x : k_processes demo_system !! p = Some x -> x = demo_process p /\ (p < 256)%nat.
Proof.
  change (k_processes demo_system) with (demo_process <$> seq 0 256). rewrite list_lookup_fmap. destruct (seq 0 256 !! p) as [i|] eqn:E; [|done]. apply lookup_seq in E as [-> Hi]. by intros [= <-].
Qed.

Lemma demo_used p x : k_processes demo_system !! p = Some x -> used x -> x = demo_process p /\ (p < 3)%nat.
Proof. intros [-> _]%demo_process_lookup Hu. split; [done|]. destruct p as [|[|[|p]]]; [lia..|]. by destruct Hu. Qed.

Lemma demo_kernel_ok : kernel_ok demo_rank demo_system.
Proof.
  split; [constructor|].
  - constructor; [constructor | done | done |]; simpl; try done.
    + by apply (bool_decide_unpack _).
    + intros t Ht. apply list_elem_of_singleton in Ht as ->. lia.
    + intros [|[|[|i]]] c m [=<-] [=<-]; lia.
    + by repeat constructor.
    + intros c u Hc Hu. rewrite !elem_of_cons in Hc. destruct Hc as [->|[->|Hc%elem_of_nil]]; [injection Hu as <-; lia | done | done].
  - done.
  - done.
  - reflexivity.
  - intros p x [-> _]%demo_process_lookup. by destruct p as [|[|[|p]]].
  - intros t x Hx. destruct t as [|[|[|t]]]; [| | |by destruct t]; by injection Hx as <-.
  - intros p x t Hx Hu Ht. destruct (demo_used _ _ Hx Hu) as [-> Hp].
    destruct p as [|[|[|p]]]; [| | |lia]; apply list_elem_of_singleton in Ht as ->; (split; [lia | by eexists]).
  - intros t y Hy _. destruct t as [|[|[|t]]]; [| | |by destruct t]; injection Hy as <-.
    + exists 0%nat, (demo_process 0). do 3 (split; [done|]). left.
    + exists 1%nat, (demo_process 1). do 3 (split; [done|]). left.
    + exists 2%nat, (demo_process 2). do 3 (split; [done|]). left.
  - intros p x w y Hx Hu Hw _ Hy _. destruct (demo_used _ _ Hx Hu) as [-> Hp].
    destruct p as [|[|[|p]]]; [by apply elem_of_nil in Hw | |by apply elem_of_nil in Hw | lia].
    apply list_elem_of_singleton in Hw as ->. by injection Hy as <-.
  - intros t y Hy _. destruct t as [|[|[|t]]]; [| | |by destruct t]; by injection Hy as <-.
  - intros p x [-> _]%demo_process_lookup. by destruct p as [|[|[|p]]].
  - intros c u Hc Hu. simpl in Hc. rewrite !elem_of_cons in Hc. destruct Hc as [->|[->|Hc%elem_of_nil]]; [|done | done]. injection Hu as <-. by eexists.
  - intros p. unfold demo_rank. repeat case_match; lia.
  - intros p x Hx Hu. destruct (demo_used _ _ Hx Hu) as [-> Hp]. destruct p as [|[|[|p]]]; [by left | right; vm_compute; lia | right; vm_compute; lia | lia].
  - intros p x Hx Hu. destruct (demo_used _ _ Hx Hu) as [-> Hp].
    destruct p as [|[|[|p]]]; [| | |lia]; (split; [by repeat constructor; intros ?%elem_of_nil | by split; [intros []|]]).
Qed.

(** Process 2 with a second thread, which is ready. *)
Definition demo_joined_process (i : nat) : pcb :=
  match i with 2%nat => demo_pcb 2 1 PROC_RUNNING_STATE [2; 3] [] 2 0 | _ => demo_process i end.

Definition demo_joining : kstate :=
  set_k_threads (k_threads demo_system ++ [demo_tcb 3 2 THREAD_READY (-2)]) (set_k_processes (map demo_joined_process (seq 0 256)) demo_system).

Definition on_cpu (s : kstate) (cpu : nat) (t : Z) : Prop := exists c, k_cpus s !! cpu = Some c /\ c_curr_thread c = Some t.

(** The state in which a program returns or waits for the first time. *)
Definition first_state {S A} (r : res S A) : option S :=
  match r with Returned _ _ s | Waiting s _ => Some s | _ => None end.

(** ** Properties *)

(** C11. When the last thread of a process that is not a zombie becomes one, the
    process becomes a zombie and the first thread of the parent that waits for
    it is made ready and queued, whatever wake-ups this causes further up. *)
Theorem child_exit_wakes_parent rank t x p y z l1 w l2 xw s :
  kernel_ok rank s -> live s t x -> t_pcb x = Z.of_nat p -> k_processes s !! p = Some y ->
  (forall u, u ∈ p_tids y -> u <> t -> tkind s u = Some KZombie) ->
  p_ppid y <> Z.of_nat p -> 0 <= p_ppid y -> k_processes s !! Z.to_nat (p_ppid y) = Some z -> used z ->
  p_child_waitq z = l1 ++ w :: l2 -> (forall u yu, u ∈ l1 -> live s u yu -> waits_for yu (Z.of_nat p) (p_pgid y) = false) ->
  live s w xw -> waits_for xw (Z.of_nat p) (p_pgid y) = true -> is_blocked (t_state xw) = true ->
  wp (pcb_thread_change_state (t_pcb x) (t_state x) THREAD_ZOMBIE)
     (fun _ s' => queued s' w /\ exists y', k_processes s' !! p = Some y' /\ p_state y' = PROC_ZOMBIE_STATE) s.
Proof. apply exit_wakes. Qed.

Lemma child_exit_wakes_parent_witness :
  wp (pcb_thread_change_state 2 THREAD_RUNNING THREAD_ZOMBIE)
     (fun _ s' => queued s' 1 /\ exists y', k_processes s' !! 2%nat = Some y' /\ p_state y' = PROC_ZOMBIE_STATE) demo_system.
Proof.
  apply (child_exit_wakes_parent demo_rank 2 (demo_tcb 2 2 THREAD_RUNNING (-2)) 2%nat (demo_process 2) (demo_process 1) [] 1 [] (demo_tcb 1 1 THREAD_BLOCKED_INTERRUPTABLE (-1)));
    try done; try exact demo_kernel_ok.
  - intros u Hu Hne. by apply list_elem_of_singleton in Hu as ->.
  - by intros u yu Hu%elem_of_nil.
Defined.

(** A thread that is stopped and continued by another CPU while it runs is
    queued again although its CPU still executes it: two scheduler steps later
    both CPUs execute the same thread. *)
Theorem double_dispatch deliver :
  kernel_ok demo_rank demo_system /\
  exists s1 s2 s3 s4,
    stop_thread deliver 2 1%nat demo_system = Returned tt 1%nat s1 /\ continue_thread 2 s1 = Ok (tt, s2) /\
    scheduler_tick 1%nat s2 = Ok (Some (None, Some 0), s3) /\ scheduler_tick 1%nat s3 = Ok (Some (Some 0, Some 2), s4) /\
    on_cpu s4 0%nat 2 /\ on_cpu s4 1%nat 2.
Proof.
  split; [exact demo_kernel_ok|]. do 4 eexists. split; [vm_compute; reflexivity|]. split; [vm_compute; reflexivity|].
  split; [vm_compute; reflexivity|]. split; [vm_compute; reflexivity|]. split; eexists; (split; [vm_compute; reflexivity | reflexivity]).
Qed.

