(* ===== verification/Signals.v ===== *)
(** * Signals

    kernel/signals/signals.c and [scheduler_handle_pending_signals] of
    kernel/scheduler/scheduler.c.

    A set of signals is an [int].  Delivering a signal can stop or terminate the
    current thread, which gives up the CPU; a thread that gets the CPU back
    delivers the signals that are pending then.  [deliver n] is this delivery
    with at most [n] nested ones.  The handlers of user programs are called by
    their address: what they do is a parameter. *)

From S2P Require Import Prelude Errors Services Programs Tasks Sched Threads.

Definition SIGINT : Z := 2.
Definition SIGTTOU : Z := 6.
Definition SIGTTIN : Z := 7.
Definition SIGTSTP : Z := 8.
Definition SIGKILL : Z := 9.
Definition SIGSTOP : Z := 10.
Definition SIGCONT : Z := 11.
Definition SIGCHLD : Z := 12.
Definition SIGTERM : Z := 15.
Definition signal_type : list Z := [SIGINT; SIGTTOU; SIGTTIN; SIGTSTP; SIGKILL; SIGSTOP; SIGCONT; SIGCHLD; SIGTERM].

Definition SIG_BLOCK : Z := 0.
Definition SIG_UNBLOCK : Z := 1.
Definition SIG_SETMASK : Z := 2.
Definition mask_commands : list Z := [SIG_BLOCK; SIG_UNBLOCK; SIG_SETMASK].

(** [1 << signum] *)
Definition bit (signum : Z) : Z := to_s32 (Z.shiftl 1 signum).

Definition add_sig (set signum : Z) : Z := Z.lor set (bit signum).
Definition del_sig (set signum : Z) : Z := Z.land set (Z.lnot (bit signum)).

(** The table [initialize_signals] fills. *)
Definition def_signal_handlers (signum : Z) : handler :=
  if signum =? SIGCONT then SIG_CONT
  else if (signum =? SIGSTOP) || (signum =? SIGTSTP) || (signum =? SIGTTIN) || (signum =? SIGTTOU) then SIG_STOP
  else if (signum =? SIGINT) || (signum =? SIGKILL) || (signum =? SIGTERM) then SIG_TERM
  else if signum =? SIGCHLD then SIG_IGN
  else SIG_NOT_IMPLEMENTED.

(** [pcb->sigactions[signum]] *)
Definition get_sigaction (p signum : Z) : KM sigaction :=
  x ← get_pcb p;
  match p_sigactions x !! Z.to_nat signum with Some a => if 0 <=? signum then mret a else fault | None => fault end.

(** [handler == SIG_DFL ? def_signal_handlers[signum] : handler] *)
Definition effective (h : handler) (signum : Z) : handler :=
  if bool_decide (h = SIG_DFL) then def_signal_handlers signum else h.

(** The handlers of programs are given as addresses; 0 and 1 stand for the
    kernel's SIG_DFL and SIG_IGN. *)
Definition USER_SIG_DFL : handler := Handler 0.
Definition USER_SIG_IGN : handler := Handler 1.

(** ** Masks and actions *)

(** The second component is what is stored at [oldset]. *)
Definition sigprocmask (how : Z) (set : option Z) : KP (Z * option Z) :=
  match set with
  | None => mret (SYS_EFAULT, None)
  | Some set =>
      c ← current;
      match c with
      | None => mret (SYS_ESRCH, None)
      | Some t =>
          atomic (
            x ← get_tcb t;
            let old := t_mask x in
            if how =? SIG_BLOCK then _ ← upd_tcb t (set_t_mask (Z.lor old set)); mret (0, Some old)
            else if how =? SIG_UNBLOCK then _ ← upd_tcb t (set_t_mask (Z.land old (Z.lnot set))); mret (0, Some old)
            else if how =? SIG_SETMASK then _ ← upd_tcb t (set_t_mask set); mret (0, Some old)
            else mret (SYS_EINVAL, Some old))
      end
  end.

(** The first component is the result, the second the set. *)
Definition sigemptyset (set : option Z) : Z * option Z := match set with None => (SYS_EFAULT, None) | Some _ => (0, Some 0) end.

Definition sigaddset (set : option Z) (signum : Z) : Z * option Z :=
  match set with
  | None => (SYS_EFAULT, None)
  | Some set => if (signum <? 0) || (32 <=? signum) then (SYS_EINVAL, Some set) else (0, Some (add_sig set signum))
  end.

Definition sigfillset (set : option Z) : Z * option Z := match set with None => (SYS_EFAULT, None) | Some _ => (0, Some (to_s32 0xFFFFFFFF)) end.

(** The second component is what is stored at [old]. *)
Definition sigaction (signum : Z) (sa : option sigaction) (old : bool) : KP (Z * option Tasks.sigaction) :=
  me ← this_cpu;
  p ← atomic (get_curr_process me);
  match p with
  | None => mret (SYS_ESRCH, None)
  | Some p =>
      if (signum <? 0) || (32 <=? signum) then mret (SYS_EINVAL, None) else
      match sa with
      | None => mret (SYS_EFAULT, None)
      | Some sa =>
          atomic (
            a ← get_sigaction p signum;
            let res := if old then Some a else None in
            if ((signum =? SIGKILL) || (signum =? SIGSTOP))
               && negb (bool_decide (sa_handler sa = USER_SIG_DFL)) && negb (bool_decide (sa_handler sa = SIG_DFL))
            then mret (SYS_EINVAL, res) else
            let h := if bool_decide (sa_handler sa = USER_SIG_DFL) then SIG_DFL
                     else if bool_decide (sa_handler sa = USER_SIG_IGN) then SIG_IGN else sa_handler sa in
            _ ← upd_pcb p (fun x => set_p_sigactions (<[Z.to_nat signum := mkSigaction h (sa_mask sa) (sa_flags sa)]> (p_sigactions x)) x);
            mret (0, res))
      end
  end.

(** ** Sending *)

Section send.
(** What threads do when they are switched back to. *)
Context (deliver : KP unit).

Definition clear_pending (t signum : Z) : KP unit := atomic (upd_tcb t (fun x => set_t_pending_signals (del_sig (t_pending_signals x) signum) x)).

Definition handle_interruptable_signal (t signum : Z) : KP unit :=
  x ← atomic (get_tcb t);
  a ← atomic (get_sigaction (t_pcb x) signum);
  let default_handler := effective (sa_handler a) signum in
  let terminating := bool_decide (default_handler = SIG_TERM) in
  let continuing := bool_decide (default_handler = SIG_CONT) in
  if signum =? SIGKILL then _ ← clear_pending t signum; terminate_thread deliver t else
  match t_state x with
  | THREAD_BLOCKED_INTERRUPTABLE =>
      if terminating then _ ← clear_pending t signum; terminate_thread deliver t
      else if bool_decide (default_handler = SIG_STOP) then _ ← clear_pending t signum; stop_thread deliver t
      else if negb continuing then atomic (unblock_thread (Some t)) else mret tt
  | THREAD_BLOCKED_KILLABLE => if terminating then _ ← clear_pending t signum; terminate_thread deliver t else mret tt
  | THREAD_STOPPED => if continuing then _ ← clear_pending t signum; atomic (continue_thread t) else mret tt
  | _ => mret tt
  end.

(** The loop of [pthread_kill] over the pending signals of the process;
    shifting an [int] by its width is undefined. *)
Fixpoint discard_stops (fuel : nat) (p curr : Z) : KM unit :=
  match fuel with
  | O => fault
  | S fuel =>
      x ← get_pcb p;
      if Z.shiftr (p_pending_signals x) curr =? 0 then mret tt else
      _ ← (if negb (Z.land (p_pending_signals x) (bit curr) =? 0) then
             a ← get_sigaction p curr;
             if bool_decide (sa_handler a = SIG_STOP)
             then upd_pcb p (set_p_pending_signals (del_sig (p_pending_signals x) curr)) else mret tt
           else mret tt);
      discard_stops fuel p (curr + 1)
  end.

Definition pthread_kill (tid signal : Z) : KP Z :=
  t ← atomic (thread_get_by_tid tid);
  match t with
  | None => mret SYS_EINVAL
  | Some t =>
      x ← atomic (get_tcb t);
      _ ← (if signal =? SIGCONT then atomic (discard_stops 32 (t_pcb x) 0) else mret tt);
      _ ← atomic (upd_tcb t (fun x => set_t_pending_signals (add_sig (t_pending_signals x) signal) x));
      x ← atomic (get_tcb t);
      if negb (Z.land (t_mask x) (bit signal) =? 0) then mret 0 else
      unblocked ← atomic (send_unblock_event (t_tid x) BLOCK_UNTIL_SIGNAL);
      x ← atomic (get_tcb t);
      _ ← (if (unblocked =? 0) || bool_decide (t_state x = THREAD_BLOCKED_INTERRUPTABLE)
              || bool_decide (t_state x = THREAD_BLOCKED_KILLABLE) || is_stopped (t_state x)
           then handle_interruptable_signal t signal else mret tt);
      mret 0
  end.

(** The loop of [s_kill] over the threads of a process, from index [i] on; the
    vector is read again in every turn. *)
Definition kill_threads (n : nat) (p signal : Z) : KP bool :=
  loop n (fun '(i, sent) =>
    x ← atomic (get_pcb p);
    match p_tids x !! i with
    | None => mret (inr sent)
    | Some tid => r ← pthread_kill tid signal; mret (inl (S i, (sent : bool) || (r =? 0)))
    end) (0%nat, false).

(** The loop that looks for one thread that does not block the signal. *)
Definition signal_one (n : nat) (p signal : Z) : KP Z :=
  loop n (fun i =>
    x ← atomic (get_pcb p);
    match p_tids x !! i with
    | None => _ ← atomic (upd_pcb p (fun x => set_p_pending_signals (add_sig (p_pending_signals x) signal) x)); mret (inr 0)
    | Some tid =>
        t ← atomic (thread_get_by_tid tid);
        match t with
        | None => mret (inl (S i))
        | Some t =>
            y ← atomic (get_tcb t);
            if negb (Z.land (t_mask y) (bit signal) =? 0) then mret (inl (S i)) else
            _ ← atomic (upd_tcb t (set_t_pending_signals (add_sig (t_pending_signals y) signal)));
            _ ← handle_interruptable_signal t signal;
            mret (inr 0)
        end
    end) 0%nat.

(** [s_kill] of a process. *)
Definition kill_process (n : nat) (pid signal : Z) : KP Z :=
  p ← atomic (get_pcb_by_pid pid);
  match p with
  | None => mret SYS_ESRCH
  | Some p =>
      a ← atomic (get_sigaction p signal);
      match effective (sa_handler a) signal with
      | SIG_STOP | SIG_CONT | SIG_TERM => sent ← kill_threads n p signal; mret (if (sent : bool) then 0 else SYS_ESRCH)
      | SIG_IGN => mret 0
      | _ => signal_one n p signal
      end
  end.

(** The members of a group are processes, so the calls for them do not go on to
    another group. *)
Definition s_kill (n : nat) (pid signal : Z) : KP Z :=
  if (signal <? 0) || (32 <=? signal) then mret SYS_EINVAL else
  if pid <? 0 then
    pgrps ← atomic (fetch k_pgrps);
    match pgrps !! (- pid) with
    | None => mret SYS_ESRCH
    | Some _ =>
        sent ← loop n (fun '(i, sent) =>
          pgrps ← atomic (fetch k_pgrps);
          match pgrps !! (- pid) with
          | None => atomic fault
          | Some g =>
              match g_pids g !! i with
              | None => mret (inr sent)
              | Some member => r ← kill_process n member signal; mret (inl (S i, (sent : bool) || (r =? 0)))
              end
          end) (0%nat, false);
        mret (if (sent : bool) then 0 else SYS_ESRCH)
    end
  else kill_process n pid signal.

Definition sigsuspend (mask : option Z) : KP Z :=
  c ← current;
  match mask, c with
  | None, _ => mret SYS_EFAULT
  | _, None => mret SYS_ESRCH
  | Some mask, Some t =>
      '(_, old) ← sigprocmask SIG_SETMASK (Some mask);
      _ ← atomic (upd_tcb t (fun x => set_t_blocked_until (Z.lor (t_blocked_until x) (Z.shiftl 1 BLOCK_UNTIL_SIGNAL)) x));
      _ ← block_thread deliver t THREAD_BLOCKED_INTERRUPTABLE;
      _ ← sigprocmask SIG_SETMASK (Some (default 0 old));
      mret SYS_EINTR
  end.

(** ** Delivery *)

(** The code of a handler of a program, called with the number of the signal. *)
Context (run_handler : Z -> Z -> KP unit).

(** The kernel's own handlers act on the thread of the CPU they are called on. *)
Definition on_current (f : Z -> KP unit) : KP unit :=
  c ← current; match c with None => mret tt | Some t => f t end.

Definition call_default (h : handler) (signum : Z) : KP unit :=
  match h with
  | SIG_IGN => mret tt
  | SIG_CONT => on_current (fun t => atomic (continue_thread t))
  | SIG_STOP => on_current (stop_thread deliver)
  | SIG_TERM => on_current (terminate_thread deliver)
  | SIG_DFL | SIG_NOT_IMPLEMENTED => atomic fatal
  | Handler addr => run_handler addr signum
  end.

Definition call_handler (h : handler) (signum : Z) : KP unit := call_default (effective h signum) signum.

Definition user_def_sig_handler (signum : Z) : KP unit :=
  me ← this_cpu;
  p ← atomic (get_curr_process me);
  match p with
  | None => atomic fault
  | Some p =>
      a ← atomic (get_sigaction p signum);
      '(_, old) ← sigprocmask SIG_BLOCK (Some (Z.lor (sa_mask a) (bit signum)));
      a ← atomic (get_sigaction p signum);
      _ ← call_handler (sa_handler a) signum;
      _ ← sigprocmask SIG_SETMASK (Some (default 0 old));
      mret tt
  end.

(** The loop over the pending signals that [get] reads and [clear] clears. *)
Definition deliver_pending (t p : Z) (get : KM Z) (clear : Z -> KM unit) : KP unit :=
  loop 33 (fun curr =>
    if 32 <=? curr then atomic fault else
    pending ← atomic get;
    if Z.shiftr pending curr =? 0 then mret (inr tt) else
    x ← atomic (get_tcb t);
    _ ← (if negb (Z.land pending (bit curr) =? 0) && (Z.land (t_mask x) (bit curr) =? 0) then
           a ← atomic (get_sigaction p curr);
           _ ← atomic (clear curr);
           match sa_handler a with
           | SIG_DFL | SIG_IGN => call_handler (sa_handler a) curr
           | _ => user_def_sig_handler curr
           end
         else mret tt);
    mret (inl (curr + 1))) 0.

(** The signals that stop and kill whatever the mask. *)
Definition deliver_urgent (t p : Z) (get : KM Z) (clear : Z -> KM unit) : KP unit :=
  pending ← atomic get;
  kill ← atomic (get_sigaction p SIGKILL);
  stop ← atomic (get_sigaction p SIGSTOP);
  if negb (Z.land pending (bit SIGKILL) =? 0) && bool_decide (sa_handler kill = SIG_DFL) then
    _ ← atomic (clear SIGKILL); terminate_thread deliver t
  else if negb (Z.land pending (bit SIGSTOP) =? 0) && bool_decide (sa_handler stop = SIG_DFL) then
    _ ← atomic (clear SIGSTOP); stop_thread deliver t
  else mret tt.

Definition process_pending (p : Z) : KM Z := x ← get_pcb p; mret (p_pending_signals x).
Definition process_clear (p signum : Z) : KM unit := upd_pcb p (fun x => set_p_pending_signals (del_sig (p_pending_signals x) signum) x).
Definition thread_pending (t : Z) : KM Z := x ← get_tcb t; mret (t_pending_signals x).
Definition thread_clear (t signum : Z) : KM unit := upd_tcb t (fun x => set_t_pending_signals (del_sig (t_pending_signals x) signum) x).

Definition scheduler_handle_pending_signals : KP unit :=
  c ← current;
  match c with
  | None => mret tt
  | Some t =>
      x ← atomic (get_tcb t);
      let p := t_pcb x in
      _ ← deliver_urgent t p (process_pending p) (process_clear p);
      _ ← deliver_pending t p (process_pending p) (process_clear p);
      _ ← deliver_urgent t p (thread_pending t) (thread_clear t);
      deliver_pending t p (thread_pending t) (thread_clear t)
  end.

End send.

(** Delivery with at most [n] deliveries nested in it. *)
Fixpoint deliver (run_handler : Z -> Z -> KP unit) (n : nat) : KP unit :=
  match n with
  | O => fun _ s => Unfinished s
  | S n => scheduler_handle_pending_signals (deliver run_handler n) run_handler
  end.

(** ** Sets of known signals *)

Definition known (set : Z) : Prop := Z.ldiff set known_signals = 0.

Lemma known_bits set : known set <-> forall n, 0 <= n -> Z.testbit set n = true -> Z.testbit known_signals n = true.
Proof.
  unfold known. split.
  - intros E n Hn Hb. pose proof (f_equal (fun z => Z.testbit z n) E) as En. cbv beta in En. rewrite Z.ldiff_spec, Hb, Z.bits_0 in En.
    by destruct (Z.testbit known_signals n).
  - intros Hk. apply Z.bits_inj'. intros n Hn. rewrite Z.ldiff_spec, Z.bits_0. destruct (Z.testbit set n) eqn:E; [|done]. by rewrite (Hk n Hn E).
Qed.

Lemma known_cases n : Z.testbit known_signals n = true -> n ∈ [SIGINT; SIGTTOU; SIGTTIN; SIGTSTP; SIGKILL; SIGSTOP; SIGCONT; SIGCHLD; SIGTERM].
Proof.
  intros Hn. assert (0 <= n < 16) as Hr.
  { split; [destruct n; done|]. destruct (decide (n < 16)); [done|]. rewrite Z.bits_above_log2 in Hn; [done | done | change (Z.log2 known_signals) with 15; lia]. }
  assert (Hall : Forall (fun k => Z.testbit known_signals (Z.of_nat k) = true ->
            Z.of_nat k ∈ [SIGINT; SIGTTOU; SIGTTIN; SIGTSTP; SIGKILL; SIGSTOP; SIGCONT; SIGCHLD; SIGTERM]) (seq 0 16)).
  { apply (bool_decide_unpack _). vm_compute. done. }
  rewrite Forall_forall in Hall. specialize (Hall (Z.to_nat n)). rewrite Z2Nat.id in Hall by lia. apply Hall; [|done]. apply elem_of_seq. lia.
Qed.

Lemma known_range n : Z.testbit known_signals n = true -> 0 <= n < 32.
Proof. intros Hn%known_cases. repeat (apply elem_of_cons in Hn as [->|Hn]; [vm_compute; done|]). by apply elem_of_nil in Hn. Qed.

Lemma known_default n : Z.testbit known_signals n = true -> def_signal_handlers n ∈ [SIG_CONT; SIG_STOP; SIG_TERM; SIG_IGN].
Proof. intros Hn%known_cases. repeat (apply elem_of_cons in Hn as [->|Hn]; [by apply (bool_decide_unpack _)|]). by apply elem_of_nil in Hn. Qed.

Lemma known_del set n : known set -> known (del_sig set n).
Proof. rewrite !known_bits. intros Hk m Hm. unfold del_sig. rewrite Z.land_spec. intros [Hb _]%andb_true_iff. auto. Qed.

Lemma bit_pow n : 0 <= n < 31 -> bit n = 2 ^ n.
Proof.
  intros Hn. unfold bit. rewrite Z.shiftl_mul_pow2, Z.mul_1_l by lia. apply to_s32_id.
  pose proof (Z.pow_le_mono_r 2 n 30 ltac:(lia) ltac:(lia)). pose proof (Z.pow_pos_nonneg 2 n). lia.
Qed.

Lemma known_add set n : known set -> Z.testbit known_signals n = true -> known (add_sig set n).
Proof.
  rewrite !known_bits. intros Hk Hn m Hm. unfold add_sig. rewrite Z.lor_spec. intros [Hb|Hb]%orb_true_iff; [by apply Hk|].
  pose proof (known_cases n Hn) as Hc. rewrite bit_pow, Z.pow2_bits_eqb in Hb.
  - apply Z.eqb_eq in Hb. by subst.
  - by apply known_range.
  - repeat (apply elem_of_cons in Hc as [->|Hc]; [vm_compute; done|]). by apply elem_of_nil in Hc.
Qed.

Lemma known_shift set n : known set -> 16 <= n -> Z.shiftr set n = 0.
Proof.
  rewrite known_bits. intros Hk Hn. apply Z.bits_inj'. intros m Hm. rewrite Z.shiftr_spec, Z.bits_0 by lia.
  destruct (Z.testbit set (m + n)) eqn:E; [|done]. apply Hk in E; [|lia]. rewrite Z.bits_above_log2 in E; [done | done | change (Z.log2 known_signals) with 15; lia].
Qed.

(** The number of a pending signal is that of a known one. *)
Lemma known_pending set n : known set -> 0 <= n < 32 -> Z.land set (bit n) <> 0 -> Z.testbit known_signals n = true.
Proof.
  intros Hk Hn Hb. assert (Hm : exists m, 0 <= m /\ Z.testbit set m = true /\ Z.testbit (bit n) m = true).
  { destruct (decide (Z.testbit (Z.land set (bit n)) n = true)) as [E|E].
    - rewrite Z.land_spec in E. apply andb_true_iff in E as [? ?]. exists n. split; [lia | done].
    - destruct (decide (n = 31)) as [->|Hne].
      + exfalso. apply Hb. apply Z.bits_inj'. intros m Hm. rewrite Z.land_spec, Z.bits_0. destruct (Z.testbit set m) eqn:Em; [|done].
        rewrite known_bits in Hk. apply Hk in Em; [|done]. apply known_cases in Em.
        repeat (apply elem_of_cons in Em as [->|Em]; [vm_compute; done|]). by apply elem_of_nil in Em.
      + exfalso. apply Hb. apply Z.bits_inj'. intros m Hm. rewrite Z.bits_0. rewrite Z.land_spec in *. rewrite bit_pow in * by lia.
        destruct (decide (m = n)) as [->|Hmn]; [by destruct (_ && _)|]. rewrite (Z.pow2_bits_false n m) by lia. by rewrite andb_false_r. }
  destruct Hm as (m & Hm & Hs & Hbm). rewrite known_bits in Hk. pose proof (Hk m Hm Hs) as Hkm. replace n with m; [done|].
  destruct (decide (n = 31)) as [->|Hne].
  - apply known_cases in Hkm. repeat (apply elem_of_cons in Hkm as [->|Hkm]; [by vm_compute in Hbm|]). by apply elem_of_nil in Hkm.
  - rewrite bit_pow in Hbm by lia. destruct (decide (m = n)); [done|]. by rewrite Z.pow2_bits_false in Hbm by lia.
Qed.

(** ** Signals and the tables *)

Section tables.
Context (rank : Z -> nat).
#[local] Abbreviation ok := (kernel_ok rank).

Lemma tsig_known x : tsig x = true -> known (t_pending_signals x).
Proof. intros [Hk _]%andb_true_iff. by apply Z.eqb_eq. Qed.

Lemma psig_fields x : psig x = true ->
  known (p_pending_signals x) /\ length (p_sigactions x) = 32%nat /\ Forall (fun a => sa_handler a <> SIG_NOT_IMPLEMENTED) (p_sigactions x).
Proof.
  intros [[Hk Hl]%andb_true_iff Hf]%andb_true_iff. split; [by apply Z.eqb_eq|]. split; [by apply Nat.eqb_eq|].
  apply Forall_forall. intros a Ha. apply list_elem_of_In in Ha. apply (proj1 (forallb_forall _ _) Hf) in Ha.
  apply negb_true_iff, bool_decide_eq_false in Ha. done.
Qed.

Lemma keeps_pending g : (forall v, known v -> known (g v)) -> keeps (fun x => set_t_pending_signals (g (t_pending_signals x)) x).
Proof.
  intros Hg y Hy. split; [|done]. unfold tcore. f_equal. rewrite Hy. pose proof (Hg _ (tsig_known y Hy)) as Hk. unfold tsig in *. simpl.
  apply andb_true_iff in Hy as [_ ->]. unfold known in Hk. by rewrite Hk.
Qed.

Lemma keeps_mask v : keeps (set_t_mask v).
Proof. done. Qed.

(** Fields of a process that the accounting does not look at. *)
Lemma ok_process p x y s :
  ok s -> k_processes s !! Z.to_nat p = Some x -> pcore y = pcore x -> (forall k, thread_count k y = thread_count k x) -> p_state y = p_state x ->
  ok (with_pcb p y s).
Proof.
  intros [Ht Ha] Hx Hc Hk Hst. split; [by eapply with_pcb_tables|]. intros q z Hz Hu. simpl in Hz.
  apply list_lookup_insert_Some in Hz as [(<- & <- & _)|(_ & Hz)]; [|by apply (Ha q)].
  destruct (pcore_fields _ _ Hc) as (_ & _ & Et & _ & Eu & _). destruct (Ha _ x Hx) as (Hnd & Hcnt & Hst'); [by apply Eu|].
  split; [by rewrite Et|]. split; [intros k; rewrite Hk, Et; apply Hcnt|]. rewrite Hst, Hst'. unfold due_state. by rewrite !Hk.
Qed.

Lemma pending_core v x : known v -> psig x = true -> pcore (set_p_pending_signals v x) = pcore x.
Proof.
  intros Hv Hp. unfold pcore. f_equal. rewrite Hp. unfold psig in *. simpl. unfold known in Hv. rewrite Hv.
  by apply andb_true_iff in Hp as [[_ ->]%andb_true_iff ->].
Qed.

Lemma ok_pending p x v s : ok s -> k_processes s !! Z.to_nat p = Some x -> known v -> ok (with_pcb p (set_p_pending_signals v x) s).
Proof. intros Hok Hx Hv. apply (ok_process p x); try done. by apply pending_core, (to_psig _ _ (proj1 Hok) _ _ Hx). Qed.

Lemma calm_pending p x v s : ok s -> k_processes s !! Z.to_nat p = Some x -> known v -> calm rank s (with_pcb p (set_p_pending_signals v x) s).
Proof. intros Hok Hx Hv. split; [by apply ok_pending|]. split; [done|]. apply (with_pcb_cores _ _ x); [done | by apply pending_core, (to_psig _ _ (proj1 Hok) _ _ Hx)]. Qed.

Lemma in_table p s : ok s -> 0 <= p < 256 -> exists x, k_processes s !! Z.to_nat p = Some x /\ psig x = true.
Proof.
  intros [Ht _] Hp. destruct (lookup_lt_is_Some_2 (k_processes s) (Z.to_nat p)) as [x Hx]; [rewrite (to_len _ _ Ht); lia|].
  exists x. split; [done | by eapply to_psig].
Qed.

Lemma live_range t x s : ok s -> live s t x -> 0 <= t_pcb x < 256.
Proof.
  intros [Ht Ha] Hx. destruct (live_process rank s t x Ht Hx) as (y & Hp & Hy & _). apply lookup_lt_Some in Hy. rewrite (to_len _ _ Ht) in Hy. lia.
Qed.

Lemma wp_get_sigaction p n (Q : Tasks.sigaction -> kstate -> Prop) s :
  ok s -> 0 <= p < 256 -> 0 <= n < 32 -> (forall a, sa_handler a <> SIG_NOT_IMPLEMENTED -> Q a s) -> wp (get_sigaction p n) Q s.
Proof.
  intros Hok Hp Hn HQ. destruct (in_table p s Hok Hp) as (x & Hx & (_ & Hl & Hf)%psig_fields).
  apply wp_bind, (wp_get_pcb _ x); [lia | done|]. destruct (lookup_lt_is_Some_2 (p_sigactions x) (Z.to_nat n)) as [a Ha]; [lia|].
  rewrite Ha, (proj2 (Z.leb_le 0 n)) by lia. apply wp_ret, HQ. rewrite Forall_forall in Hf. by apply Hf, list_elem_of_lookup_2 with (Z.to_nat n).
Qed.

Lemma running_live s me t : ok s -> running_on s me = Some t -> exists x, live s t x.
Proof.
  intros [Ht _] Hr. unfold running_on in Hr. destruct (k_cpus s !! me) as [c|] eqn:Ec; [|done]. apply list_elem_of_lookup_2 in Ec.
  destruct (to_curr _ _ Ht c t Ec Hr) as (x & Hx & Hu). exists x. split; [|done]. by apply (sy_curr _ (to_sys _ _ Ht) c t).
Qed.

(** An assignment to a thread that the accounting does not look at. *)
Lemma wp_touch t x f s (Q : unit -> kstate -> Prop) :
  ok s -> live s t x -> keeps f -> (forall s', calm rank s s' -> live s' t (f x) -> Q tt s') -> wp (upd_tcb t f) Q s.
Proof.
  intros Hok Hx Hf HQ. pose proof Hx as (Ht0 & Hxt & Hu). apply (wp_upd_tcb _ x); [done | done|]. fold (with_tcb t (f x) s).
  destruct (Hf x) as (Hc & Hst & _); [by apply (to_tsig _ _ (proj1 Hok) _ _ Hxt)|].
  apply HQ; [split; [by apply (kernel_ok_thread rank t x f) | split; [done | by eapply with_tcb_cores]]|].
  split; [done|]. split; [by eapply (with_tcb_lookup _ _ x) | by rewrite Hst].
Qed.

Section ops.
Context (resumed : KP unit).
Context (Hdel : forall me s, ok s -> safe ok (same_thread (running_on s me)) (resumed me s)).

Lemma safe_current {A} (f : option Z -> KP A) Q me s : ok s -> safe ok Q (f (running_on s me) me s) -> safe ok Q ((current ≫= f) me s).
Proof. intros Hok Hf. apply safe_bind. by split. Qed.

Lemma safe_get {A} t x (f : tcb -> KP A) Q me s : ok s -> live s t x -> safe ok Q (f x me s) -> safe ok Q ((atomic (get_tcb t) ≫= f) me s).
Proof. intros Hok (Ht0 & Hx & _) Hf. by apply safe_step, (wp_get_tcb _ x). Qed.

Lemma safe_sigaction {A} p n (f : Tasks.sigaction -> KP A) Q me s :
  ok s -> 0 <= p < 256 -> 0 <= n < 32 -> (forall a, sa_handler a <> SIG_NOT_IMPLEMENTED -> safe ok Q (f a me s)) ->
  safe ok Q ((atomic (get_sigaction p n) ≫= f) me s).
Proof. intros Hok Hp Hn Hf. apply safe_step, wp_get_sigaction; [done | done | done|]. intros a Ha. split; [done | by apply Hf]. Qed.

(** Clearing a signal and then stopping or terminating the thread. *)
Lemma safe_clear t x n (f : KP unit) me s :
  ok s -> live s t x -> (forall y s', ok s' -> live s' t y -> safe ok (same_thread (running_on s' me)) (f me s')) ->
  safe ok (same_thread (running_on s me)) ((clear_pending t n ≫= fun _ => f) me s).
Proof.
  intros Hok Hx Hf. apply safe_step, (wp_touch t x); [done | done | apply (keeps_pending (fun v => del_sig v n)); intros v; apply known_del|].
  intros s' (Hok' & Hc & _) Hx'. split; [done|]. rewrite <- (same_cpus s s') by done. by eapply Hf.
Qed.

Lemma safe_km {A} (m : KM A) Q me s :
  wp m (fun _ s' => calm rank s s') s -> (forall a s', ok s' -> running_on s' me = running_on s me -> Q a me s') -> safe ok Q (atomic m me s).
Proof. intros Hm HQ. apply safe_atomic. eapply wp_mono; [exact Hm|]. intros a s' (Hs' & Hc & _). split; [done|]. apply HQ; [done | by apply same_cpus]. Qed.

Lemma safe_handle t x n me s :
  ok s -> live s t x -> 0 <= n < 32 -> safe ok (same_thread (running_on s me)) (handle_interruptable_signal resumed t n me s).
Proof.
  intros Hok Hx Hn. apply (safe_get t x); [done | done|]. apply safe_sigaction; [done | by eapply live_range | done|]. intros a _. cbv zeta.
  assert (Hret : safe ok (same_thread (running_on s me)) ((mret tt : KP unit) me s)) by done.
  assert (Hterm : safe ok (same_thread (running_on s me)) ((clear_pending t n ≫= fun _ => terminate_thread resumed t) me s)).
  { apply (safe_clear t x); [done | done|]. intros y s' Hs' Hy. by apply (safe_terminate rank resumed Hdel t y). }
  destruct (n =? SIGKILL); [exact Hterm|]. destruct (t_state x); try exact Hret.
  - case_bool_decide; [|done]. apply (safe_clear t x); [done | done|]. intros y s' Hs' Hy. apply safe_km; [by eapply wp_continue | by intros ? ? ? ?].
  - case_bool_decide; [exact Hterm|]. case_bool_decide.
    + apply (safe_clear t x); [done | done|]. intros y s' Hs' Hy. by apply (safe_stop rank resumed Hdel t y).
    + case_bool_decide; [done|]. apply safe_km; [by eapply wp_unblock | by intros ? ? ? ?].
  - case_bool_decide; [exact Hterm | done].
Qed.
Lemma wp_discard fuel p curr s :
  ok s -> 0 <= p < 256 -> 0 <= curr <= 16 -> 17 <= curr + Z.of_nat fuel <= 32 -> wp (discard_stops fuel p curr) (fun _ s' => calm rank s s') s.
Proof.
  intros Hok Hp. revert curr s Hok. induction fuel as [|fuel IH]; intros curr s Hok Hc Hf; cbn [discard_stops].
  - lia.
  - destruct (in_table p s Hok Hp) as (x & Hx & (Hk & _)%psig_fields). apply wp_bind, (wp_get_pcb _ x); [lia | done|].
    destruct (Z.eqb_spec (Z.shiftr (p_pending_signals x) curr) 0) as [_|Hs]; [by apply wp_ret|].
    assert (curr < 16) by (destruct (decide (curr < 16)); [done|]; destruct Hs; apply known_shift; [done | lia]).
    apply wp_bind. eapply (wp_mono _ (fun _ s' => calm rank s s')).
    + destruct (negb _); [|by apply wp_ret]. apply wp_bind, wp_get_sigaction; [done | done | lia|]. intros a _.
      case_bool_decide; [|by apply wp_ret]. apply (wp_upd_pcb _ x); [lia | done|]. apply (calm_pending p x); [done | done | by apply known_del].
    + intros [] s' Hc'. eapply wp_mono; [apply IH; [apply Hc' | lia | lia]|]. intros [] s2 Hc2. by eapply calm_trans.
Qed.

Lemma safe_pthread_kill tid n me s :
  ok s -> Z.testbit known_signals n = true -> safe ok (same_thread (running_on s me)) (pthread_kill resumed tid n me s).
Proof.
  intros Hok Hn. pose proof (known_range n Hn) as Hr. apply safe_step, wp_thread_get_by_tid; [apply Hok | |intros _; by split; [|split]].
  intros x Ht0 Hx Hu. split; [done|]. assert (Hl : live s tid x) by done. apply (safe_get tid x); [done | done|].
  apply safe_bind. eapply (safe_mono _ (fun _ me' s' => me' = me /\ calm rank s s')).
  2: { destruct (n =? SIGCONT); [|split; [done | split; [done | by split]]]. apply safe_atomic.
       eapply wp_mono; [apply (wp_discard 32 (t_pcb x) 0 s); [done | by eapply live_range | lia | lia]|]. intros [] s' Hc. split; [apply Hc | done]. }
  intros [] me' s1 Hok1 [-> Hc1]. destruct (calm_live rank _ _ _ _ Hc1 Hl) as (y & Hy & _).
  apply safe_step, (wp_touch tid y); [done | done | apply (keeps_pending (fun v => add_sig v n)); intros v Hv; by apply known_add|].
  intros s2 Hc2 Hy2. split; [apply Hc2|]. eapply (safe_get tid); [apply Hc2 | exact Hy2|]. pose proof (calm_trans rank _ _ _ Hc1 Hc2) as (Hok2 & Hcpu & Hcore).
  destruct (negb _); [split; [done | by apply same_cpus]|]. apply safe_step. eapply wp_mono; [by apply wp_unblock_event|].
  intros u s3 Hc3. destruct (calm_live rank _ _ _ _ Hc3 Hy2) as (z & Hz & _). split; [apply Hc3|]. eapply (safe_get tid); [apply Hc3 | exact Hz|].
  pose proof Hc3 as (Hok3 & Hcpu3 & _). rewrite Hcpu in Hcpu3. rewrite <- (same_cpus s s3) by done.
  apply safe_bind. destruct (_ || _); [|by split; [|split]]. eapply safe_mono; [|by eapply safe_handle]. intros [] me4 s4 Hok4 Hs4. by split.
Qed.
Lemma safe_kill_threads k p n me s :
  ok s -> 0 <= p < 256 -> Z.testbit known_signals n = true -> safe ok (same_thread (running_on s me)) (kill_threads resumed k p n me s).
Proof.
  intros Hok Hp Hn. eapply (safe_loop _ _ _ (fun _ => same_thread (running_on s me) tt)); [done | done|].
  intros [i sent] me' s' Hok' Hs'. destruct (in_table p s' Hok' Hp) as (x & Hx & _). apply safe_step, (wp_get_pcb _ x); [lia | done|]. split; [done|].
  destruct (p_tids x !! i) as [tid|]; [|by split]. apply safe_bind. eapply safe_mono; [|by apply safe_pthread_kill].
  intros r me2 s2 Hok2 Hs2. split; [done|]. unfold same_thread in *. congruence.
Qed.

Lemma safe_signal_one k p n me s :
  ok s -> 0 <= p < 256 -> Z.testbit known_signals n = true -> safe ok (same_thread (running_on s me)) (signal_one resumed k p n me s).
Proof.
  intros Hok Hp Hn. eapply (safe_loop _ _ _ (fun _ => same_thread (running_on s me) tt)); [done | done|].
  intros i me' s' Hok' Hs'. destruct (in_table p s' Hok' Hp) as (x & Hx & (Hk & _)%psig_fields). apply safe_step, (wp_get_pcb _ x); [lia | done|]. split; [done|].
  destruct (p_tids x !! i) as [tid|].
  - apply safe_step, wp_thread_get_by_tid; [apply Hok' | |intros _; by split; [|split]]. intros y Ht0 Hy Hu. split; [done|].
    assert (Hl : live s' tid y) by done. apply (safe_get tid y); [done | done|]. destruct (negb _); [by split|].
    apply safe_step, (wp_upd_tcb _ y); [done | done|]. fold (with_tcb tid (set_t_pending_signals (add_sig (t_pending_signals y) n) y) s').
    pose proof (kernel_ok_thread rank tid y (fun x => set_t_pending_signals (add_sig (t_pending_signals x) n) x) s' Hok' Hl) as Hok2.
    split; [apply Hok2, (keeps_pending (fun v => add_sig v n)); intros v Hv; by apply known_add|].
    apply safe_bind. eapply safe_mono; [|eapply safe_handle; [apply Hok2, (keeps_pending (fun v => add_sig v n)); intros v Hv; by apply known_add | | by apply known_range]].
    + intros [] me3 s3 Hok3 Hs3. split; [done|]. unfold same_thread in *. by rewrite Hs3.
    + split; [done|]. split; [by eapply (with_tcb_lookup _ _ y) | done].
  - apply safe_step, (wp_upd_pcb _ x); [lia | done|]. fold (with_pcb p (set_p_pending_signals (add_sig (p_pending_signals x) n) x) s').
    assert (Hok2 : ok (with_pcb p (set_p_pending_signals (add_sig (p_pending_signals x) n) x) s')) by (apply ok_pending; [done | done | by apply known_add]).
    by split; [|split].
Qed.

Lemma safe_kill_process k pid n me s :
  ok s -> Z.testbit known_signals n = true -> safe ok (same_thread (running_on s me)) (kill_process resumed k pid n me s).
Proof.
  intros Hok Hn. apply safe_step, wp_get_pcb_by_pid; [apply Hok | apply Hok | |intros _; by split; [|split]].
  intros x Hp Hx Hu. split; [done|]. assert (0 <= pid < 256) as Hr by (apply lookup_lt_Some in Hx; rewrite (to_len _ _ (proj1 Hok)) in Hx; lia).
  apply safe_sigaction; [done | done | by apply known_range|]. intros a Ha.
  assert (Hall : safe ok (same_thread (running_on s me)) ((sent ← kill_threads resumed k pid n; mret (if (sent : bool) then 0 else SYS_ESRCH)) me s)).
  { apply safe_bind. eapply safe_mono; [|by apply safe_kill_threads]. intros b me2 s2 Hok2 Hs2. by split. }
  assert (Hone : safe ok (same_thread (running_on s me)) (signal_one resumed k pid n me s)) by (by apply safe_signal_one).
  destruct (effective _ _); done.
Qed.

Lemma safe_s_kill k pid n me s :
  ok s -> 0 <= pid -> Z.testbit known_signals n = true -> safe ok (same_thread (running_on s me)) (s_kill resumed k pid n me s).
Proof.
  intros Hok Hp Hn. pose proof (known_range n Hn). unfold s_kill. rewrite (proj2 (Z.ltb_ge n 0)), (proj2 (Z.leb_gt 32 n)), (proj2 (Z.ltb_ge pid 0)) by lia.
  by apply safe_kill_process.
Qed.

Lemma safe_sigprocmask how set me s : ok s -> safe ok (same_thread (running_on s me)) (sigprocmask how set me s).
Proof.
  intros Hok. destruct set as [set|]; [|by split]. apply safe_current; [done|]. destruct (running_on s me) as [t|] eqn:Er; [|by split].
  destruct (running_live s me t Hok Er) as [x Hx]. rewrite <- Er. apply safe_km; [|by intros ? ? ? ?]. pose proof Hx as (Ht0 & Hxt & _).
  apply wp_bind, (wp_get_tcb _ x); [done | done|].
  assert (Hset : forall v r, wp (_ ← upd_tcb t (set_t_mask v); mret r : KM (Z * option Z)) (fun _ s' => calm rank s s') s).
  { intros v r. apply wp_bind, (wp_touch t x); [done | done | apply keeps_mask|]. intros s' Hc _. by apply wp_ret. }
  destruct (how =? SIG_BLOCK); [apply Hset|]. destruct (how =? SIG_UNBLOCK); [apply Hset|]. destruct (how =? SIG_SETMASK); [apply Hset|].
  apply wp_ret. by split.
Qed.

Lemma sigaction_core n a x :
  psig x = true -> sa_handler a <> SIG_NOT_IMPLEMENTED -> pcore (set_p_sigactions (<[n := a]> (p_sigactions x)) x) = pcore x.
Proof.
  intros Hp Ha. unfold pcore. f_equal. rewrite Hp. unfold psig in *. simpl. apply andb_true_iff in Hp as [[-> Hl]%andb_true_iff Hf].
  rewrite length_insert, Hl. simpl. apply forallb_forall. intros y Hy%list_elem_of_In. apply list_elem_of_lookup in Hy as (i & Hi).
  apply list_lookup_insert_Some in Hi as [(_ & <- & _)|(_ & Hi)]; [by rewrite bool_decide_eq_false_2|].
  apply (proj1 (forallb_forall _ _) Hf), list_elem_of_In. by eapply list_elem_of_lookup_2.
Qed.

Lemma safe_sigaction_call n sa old me s :
  ok s -> (forall a, sa = Some a -> sa_handler a <> SIG_NOT_IMPLEMENTED) -> safe ok (same_thread (running_on s me)) (sigaction n sa old me s).
Proof.
  intros Hok Hsa. apply safe_bind. simpl. split; [done|]. apply safe_step, wp_bind, wp_fetch. fold (running_on s me).
  destruct (running_on s me) as [t|] eqn:Er; [|apply wp_ret; by split; [|split]].
  destruct (running_live s me t Hok Er) as [x Hx]. pose proof Hx as (Ht0 & Hxt & _). apply wp_bind, (wp_get_tcb _ x); [done | done|]. apply wp_ret. split; [done|].
  rewrite <- Er. destruct (Z.ltb_spec n 0); [by split|]. destruct (Z.leb_spec 32 n); [by split|]. simpl. destruct sa as [sa|]; [|by split].
  pose proof (live_range t x s Hok Hx) as Hp. apply safe_km; [|by intros ? ? ? ?]. apply wp_bind, wp_get_sigaction; [done | done | lia|]. intros a _.
  destruct (_ && _); [apply wp_ret; by split|]. destruct (in_table _ s Hok Hp) as (y & Hy & Hps). apply wp_bind, (wp_upd_pcb _ y); [lia | done|]. apply wp_ret.
  set (h := if bool_decide _ then _ else _). assert (Hh : h <> SIG_NOT_IMPLEMENTED).
  { unfold h. repeat case_bool_decide; [done | done|]. by apply Hsa. }
  set (y' := set_p_sigactions _ y). fold (with_pcb (t_pcb x) y' s). assert (Hc : pcore y' = pcore y) by (by apply sigaction_core).
  split; [by apply (ok_process (t_pcb x) y)|]. split; [done | by eapply with_pcb_cores].
Qed.

Lemma safe_sigsuspend mask me s : ok s -> safe ok (same_thread (running_on s me)) (sigsuspend resumed mask me s).
Proof.
  intros Hok. apply safe_current; [done|]. destruct mask as [mask|]; [|by split]. destruct (running_on s me) as [t|] eqn:Er; [|by split]. rewrite <- Er.
  apply safe_bind. eapply safe_mono; [|by apply safe_sigprocmask]. intros [r old] me1 s1 Hok1 Hs1. unfold same_thread in Hs1. rewrite Er in Hs1.
  destruct (running_live s1 me1 t Hok1 Hs1) as [x Hx]. apply safe_step, (wp_touch t x); [done | done | done|]. intros s2 (Hok2 & Hc2 & _) Hx2. split; [done|].
  apply safe_bind. eapply safe_mono; [|by eapply (safe_block rank resumed Hdel t)]. intros [] me3 s3 Hok3 Hs3.
  apply safe_bind. eapply safe_mono; [|by apply safe_sigprocmask]. intros u me4 s4 Hok4 Hs4. unfold same_thread in *. split; [done|]. rewrite Hs4, Hs3, Er, <- Hs1. by apply same_cpus.
Qed.

(** *** Delivery *)

Context (run_handler : Z -> Z -> KP unit).
Context (Hrun : forall addr n me s, ok s -> safe ok (same_thread (running_on s me)) (run_handler addr n me s)).

Lemma safe_on_current f me s :
  ok s -> (forall t x, running_on s me = Some t -> live s t x -> safe ok (same_thread (running_on s me)) (f t me s)) ->
  safe ok (same_thread (running_on s me)) (on_current f me s).
Proof.
  intros Hok Hf. apply safe_current; [done|]. destruct (running_on s me) as [t|] eqn:Er; [|by split].
  destruct (running_live s me t Hok Er) as [x Hx]. by apply (Hf t x).
Qed.

Lemma safe_call_handler h n me s :
  ok s -> h <> SIG_NOT_IMPLEMENTED -> Z.testbit known_signals n = true -> safe ok (same_thread (running_on s me)) (call_handler resumed run_handler h n me s).
Proof.
  intros Hok Hh Hn. unfold call_handler. assert (He : effective h n <> SIG_NOT_IMPLEMENTED /\ effective h n <> SIG_DFL).
  { unfold effective. case_bool_decide; [|done]. pose proof (known_default n Hn) as Hd. split; intros E; rewrite E in Hd; by apply (bool_decide_pack _) in Hd. }
  destruct (effective h n) as [| | | | | |addr]; try (by destruct He); cbn [call_default].
  - apply safe_on_current; [done|]. intros t x Hr Hx. by apply (safe_terminate rank resumed Hdel t x).
  - apply safe_on_current; [done|]. intros t x Hr Hx. by apply (safe_stop rank resumed Hdel t x).
  - apply safe_on_current; [done|]. intros t x Hr Hx. apply safe_km; [by eapply wp_continue | by intros ? ? ? ?].
  - by apply Hrun.
Qed.

Lemma safe_user_handler n t me s :
  ok s -> running_on s me = Some t -> Z.testbit known_signals n = true -> safe ok (same_thread (running_on s me)) (user_def_sig_handler resumed run_handler n me s).
Proof.
  intros Hok Hr Hn. destruct (running_live s me t Hok Hr) as [x Hx]. pose proof (live_range t x s Hok Hx) as Hp. apply safe_bind. split; [done|].
  apply safe_step, wp_bind, wp_fetch. fold (running_on s me). rewrite Hr. pose proof Hx as (Ht0 & Hxt & _). apply wp_bind, (wp_get_tcb _ x); [done | done|].
  apply wp_ret. split; [done|]. rewrite <- Hr. pose proof (known_range n Hn). apply safe_sigaction; [done | done | done|]. intros a Ha.
  apply safe_bind. eapply safe_mono; [|by apply safe_sigprocmask]. intros [r old] me1 s1 Hok1 Hs1. apply safe_sigaction; [done | done | done|]. intros b Hb.
  apply safe_bind. eapply safe_mono; [|by apply safe_call_handler]. intros [] me2 s2 Hok2 Hs2.
  apply safe_bind. eapply safe_mono; [|by apply safe_sigprocmask]. intros u me3 s3 Hok3 Hs3. unfold same_thread in *. split; [done|]. congruence.
Qed.

(** The loops over the pending signals, of the process and of the thread. *)
Section pending.
Context (t p : Z) (get : KM Z) (clear : Z -> KM unit).
Context (Hp : 0 <= p < 256).
Context (Hget : forall me s, ok s -> running_on s me = Some t -> wp get (fun v s' => s' = s /\ known v) s).
Context (Hclear : forall n me s, ok s -> running_on s me = Some t -> wp (clear n) (fun _ s' => calm rank s s') s).

Lemma safe_pending_signals me s : ok s -> running_on s me = Some t -> safe ok (same_thread (Some t)) (deliver_pending resumed run_handler t p get clear me s).
Proof.
  intros Hok Hr. eapply (safe_loop _ _ _ (fun curr me s => 0 <= curr <= 16 /\ running_on s me = Some t)); [done | split; [lia | done]|].
  clear me s Hok Hr. intros curr me s Hok [Hc Hr]. rewrite (proj2 (Z.leb_gt 32 curr)) by lia. destruct (running_live s me t Hok Hr) as [x Hx].
  apply safe_step. eapply wp_mono; [by eapply Hget|]. intros v s' [-> Hk]. split; [done|].
  destruct (Z.eqb_spec (Z.shiftr v curr) 0) as [_|Hs]; [by split|]. assert (curr < 16).
  { destruct (decide (curr < 16)); [done|]. destruct Hs. apply known_shift; [done | lia]. }
  apply (safe_get t x); [done | done|]. apply safe_bind. eapply (safe_mono _ (same_thread (Some t))); [intros [] me' s' Hok' Hs'; split; [done|]; split; [lia | done]|].
  destruct (negb (Z.land v (bit curr) =? 0)) eqn:Eb; cbn [andb]; [|by split]. destruct (Z.land (t_mask x) (bit curr) =? 0); [|by split].
  apply safe_sigaction; [done | done | lia|]. intros a Ha. apply safe_step. eapply wp_mono; [by eapply Hclear|].
  intros [] s1 (Hok1 & Hcpu & _). split; [done|]. assert (Hr1 : running_on s1 me = Some t) by (rewrite <- Hr; by apply same_cpus).
  assert (Hn : Z.testbit known_signals curr = true).
  { apply (known_pending v); [done | lia|]. by apply negb_true_iff, Z.eqb_neq in Eb. }
  rewrite <- Hr1. destruct (sa_handler a); try (by eapply safe_user_handler); by apply safe_call_handler.
Qed.

Lemma safe_urgent me s : ok s -> running_on s me = Some t -> safe ok (same_thread (Some t)) (deliver_urgent resumed t p get clear me s).
Proof.
  intros Hok Hr. apply safe_step. eapply wp_mono; [by eapply Hget|]. intros v s' [-> Hk]. split; [done|].
  apply safe_sigaction; [done | done | done|]. intros a _. apply safe_sigaction; [done | done | done|]. intros b _.
  assert (Hthen : forall n (f : KP unit), (forall x s1, ok s1 -> live s1 t x -> safe ok (same_thread (running_on s1 me)) (f me s1)) ->
            safe ok (same_thread (Some t)) ((atomic (clear n) ≫= fun _ => f) me s)).
  { intros n f Hf. apply safe_step. eapply wp_mono; [by eapply Hclear|]. intros [] s1 (Hok1 & Hcpu & _). split; [done|].
    assert (Hr1 : running_on s1 me = Some t) by (rewrite <- Hr; by apply same_cpus). destruct (running_live s1 me t Hok1 Hr1) as [x Hx].
    rewrite <- Hr1. by eapply Hf. }
  destruct (_ && _); [apply Hthen; intros x s1 Hok1 Hx; by apply (safe_terminate rank resumed Hdel t x)|].
  destruct (_ && _); [apply Hthen; intros x s1 Hok1 Hx; by apply (safe_stop rank resumed Hdel t x) | by split].
Qed.
End pending.

Lemma safe_handle_pending me s : ok s -> safe ok (same_thread (running_on s me)) (scheduler_handle_pending_signals resumed run_handler me s).
Proof.
  intros Hok. apply safe_current; [done|]. destruct (running_on s me) as [t|] eqn:Er; [|by split]. destruct (running_live s me t Hok Er) as [x Hx].
  apply (safe_get t x); [done | done|]. cbv zeta. pose proof (live_range t x s Hok Hx) as Hp. clear Hx. revert Hp. generalize (t_pcb x). intros p Hp.
  assert (Hpg : forall me s, ok s -> running_on s me = Some t -> wp (process_pending p) (fun v s' => s' = s /\ known v) s).
  { intros me' s' Hok' _. destruct (in_table p s' Hok' Hp) as (y & Hy & (Hk & _)%psig_fields). apply wp_bind, (wp_get_pcb _ y); [lia | done|]. by apply wp_ret. }
  assert (Hpc : forall n me s, ok s -> running_on s me = Some t -> wp (process_clear p n) (fun _ s' => calm rank s s') s).
  { intros n me' s' Hok' _. destruct (in_table p s' Hok' Hp) as (y & Hy & (Hk & _)%psig_fields). apply (wp_upd_pcb _ y); [lia | done|].
    apply (calm_pending p y); [done | done | by apply known_del]. }
  assert (Htg : forall me s, ok s -> running_on s me = Some t -> wp (thread_pending t) (fun v s' => s' = s /\ known v) s).
  { intros me' s' Hok' Hr'. destruct (running_live s' me' t Hok' Hr') as (y & Ht0 & Hy & Hu). apply wp_bind, (wp_get_tcb _ y); [done | done|]. apply wp_ret.
    split; [done|]. by apply tsig_known, (to_tsig _ _ (proj1 Hok') _ _ Hy). }
  assert (Htc : forall n me s, ok s -> running_on s me = Some t -> wp (thread_clear t n) (fun _ s' => calm rank s s') s).
  { intros n me' s' Hok' Hr'. destruct (running_live s' me' t Hok' Hr') as [y Hy].
    apply (wp_touch t y); [done | done | apply (keeps_pending (fun v => del_sig v n)); intros v; apply known_del | done]. }
  apply safe_bind. eapply safe_mono; [|by apply safe_urgent]. intros [] me1 s1 Hok1 Hr1.
  apply safe_bind. eapply safe_mono; [|by apply safe_pending_signals]. intros [] me2 s2 Hok2 Hr2.
  apply safe_bind. eapply safe_mono; [|by apply safe_urgent]. intros [] me3 s3 Hok3 Hr3. by apply safe_pending_signals.
Qed.
End ops.

Lemma safe_deliver run_handler n :
  (forall addr k me s, ok s -> safe ok (same_thread (running_on s me)) (run_handler addr k me s)) ->
  forall me s, ok s -> safe ok (same_thread (running_on s me)) (deliver run_handler n me s).
Proof.
  intros Hrun. induction n as [|n IH]; intros me s Hok; [done|]. by apply safe_handle_pending.
Qed.
End tables.

(** ** All operations *)

Inductive signal_op :=
  | OnThread (o : thread_op)
  | Kill (pid signal : Z)
  | PthreadKill (tid signal : Z)
  | Sigprocmask (how : Z) (set : option Z)
  | Sigaction (signum : Z) (sa : option Tasks.sigaction) (old : bool)
  | Sigsuspend (mask : option Z)
  | HandlePending.

(** Loops and nested deliveries are cut off after [n] turns. *)
Definition run_call (run_handler : Z -> Z -> KP unit) (n : nat) (o : signal_op) : KP unit :=
  let resumed := deliver run_handler n in
  match o with
  | OnThread o => run_op resumed o
  | Kill pid signal => _ ← s_kill resumed n pid signal; mret tt
  | PthreadKill tid signal => _ ← pthread_kill resumed tid signal; mret tt
  | Sigprocmask how set => _ ← sigprocmask how set; mret tt
  | Sigaction signum sa old => _ ← sigaction signum sa old; mret tt
  | Sigsuspend mask => _ ← sigsuspend resumed mask; mret tt
  | HandlePending => scheduler_handle_pending_signals resumed run_handler
  end.

(** Signals are sent to one process and have a default action, and handlers are
    not the kernel's [SIG_NOT_IMPLEMENTED]. *)
Definition call_args (o : signal_op) (s : kstate) : Prop :=
  match o with
  | OnThread o => op_args o s
  | Kill pid signal => 0 <= pid /\ Z.testbit known_signals signal = true
  | PthreadKill _ signal => Z.testbit known_signals signal = true
  | Sigaction _ sa _ => forall a, sa = Some a -> sa_handler a <> SIG_NOT_IMPLEMENTED
  | _ => True
  end.

(** What is relied on of the handlers of programs: the system calls they make
    keep the tables sound, and they return to the thread they interrupted. *)
Definition handlers_sound (rank : Z -> nat) (run_handler : Z -> Z -> KP unit) : Prop :=
  forall addr signum me s, kernel_ok rank s -> safe (kernel_ok rank) (same_thread (running_on s me)) (run_handler addr signum me s).

Lemma run_call_safe rank run_handler n o me s :
  handlers_sound rank run_handler -> kernel_ok rank s -> call_args o s ->
  safe (kernel_ok rank) (same_thread (running_on s me)) (run_call run_handler n o me s).
Proof.
  intros Hrun Hok Ha. pose proof (safe_deliver rank run_handler n Hrun) as Hdel. unfold run_call. cbv zeta.
  assert (Hdrop : forall A (m : KP A), safe (kernel_ok rank) (same_thread (running_on s me)) (m me s) ->
            safe (kernel_ok rank) (same_thread (running_on s me)) ((_ ← m; mret tt : KP unit) me s)).
  { intros A m Hm. apply safe_bind. eapply safe_mono; [|exact Hm]. intros a me' s' Hok' Hs'. by split. }
  destruct o as [o|pid signal|tid signal|how set|signum sa old|mask|]; cbn [call_args] in Ha.
  - by apply run_op_safe.
  - apply Hdrop, safe_s_kill; [done | done | apply Ha | apply Ha].
  - by apply Hdrop, safe_pthread_kill.
  - by apply Hdrop, safe_sigprocmask.
  - by apply Hdrop, safe_sigaction_call.
  - by apply Hdrop, safe_sigsuspend.
  - by apply safe_handle_pending.
Qed.

(** ** Properties *)



