(* ===== verification/Kill.v ===== *)
(** * What sending a signal does to its receiver

    The theorems of Threads.v and Signals.v say that the operations keep the
    tables consistent; this file says what SIGKILL achieves.  The wake-ups that a
    change of state causes reach other threads, so the file first shows which
    fields of the threads they leave alone. *)

From S2P Require Import Prelude Errors Services Programs Tasks Sched Threads Signals.

(** ** What operations leave alone *)

Section stays.
Context {S : Type} (R : S -> S -> Prop) `{!PreOrder R}.

(** When [m] returns, the state has changed by [R]. *)
Definition stays {A} (m : stM S A) : Prop := forall s a s', m s = Ok (a, s') -> R s s'.

Lemma stays_ret {A} (a : A) : stays (mret a).
Proof. by intros s b s' [= <- <-]. Qed.

Lemma stays_bind {A C} (m : stM S A) (k : A -> stM S C) : stays m -> (forall a, stays (k a)) -> stays (m ≫= k).
Proof.
  intros Hm Hk s c s' E. unfold mbind, stM_bind in E. destruct (m s) as [[a s1]| | |] eqn:Em; try done.
  etrans; [by eapply Hm | by eapply Hk].
Qed.

Lemma stays_fatal {A} : stays (fatal : stM S A).
Proof. done. Qed.

Lemma stays_fault {A} : stays (fault : stM S A).
Proof. done. Qed.

Lemma stays_hang {A} : stays (hang : stM S A).
Proof. done. Qed.

Lemma stays_fetch {A} (g : S -> A) : stays (fetch g).
Proof. by intros s a s' [= <- <-]. Qed.

Lemma stays_modify g : (forall s, R s (g s)) -> stays (modify g).
Proof. intros Hg s [] s' [= <-]. apply Hg. Qed.

Lemma stays_lock (held : S -> bool) set : (forall b s, R s (set b s)) -> stays (spin_lock held set).
Proof. intros Hs s [] s' E. unfold spin_lock in E. destruct (held s); [done|]. injection E as <-. apply Hs. Qed.

Lemma wp_stays {A} (m : stM S A) (Q : A -> S -> Prop) s : stays m -> wp m Q s -> wp m (fun a s' => Q a s' /\ R s s') s.
Proof. intros Hm (a & s' & E & HQ). exists a, s'. split; [done|]. split; [done | by eapply Hm]. Qed.
End stays.

Create HintDb stays.
#[export] Hint Resolve stays_ret stays_fatal stays_fault stays_hang stays_fetch stays_modify stays_lock : stays.

(** One step of a proof of [stays], following the program. *)
Ltac stays_step :=
  lazymatch goal with
  | |- stays _ (_ ≫= _) => apply stays_bind; [exact _| |intros ?]
  | |- stays _ (match ?x with _ => _ end) => destruct x eqn:?
  | |- stays _ _ => solve [auto with stays typeclass_instances]
  end.

(** The fields of a thread that wake-ups do not change. *)
Definition marks (x : tcb) : Z * Z * bool := (t_pending_signals x, t_mask x, is_zombie (t_state x)).

(** A thread that [sigsuspend] should have blocked. *)
Definition awaits (x : tcb) : bool := has (t_blocked_until x) BLOCK_UNTIL_SIGNAL.

Definition woken (x y : tcb) : Prop := marks y = marks x /\ (awaits y = true -> awaits x = true).

Definition wakes (s s' : kstate) : Prop := Forall2 woken (k_threads s) (k_threads s').

#[export] Instance woken_order : PreOrder woken.
Proof. split; [by intros x|]. intros x y z [E1 H1] [E2 H2]. split; [congruence | auto]. Qed.

#[export] Instance wakes_order : PreOrder wakes.
Proof. split; [intros s; unfold wakes; reflexivity|]. intros s1 s2 s3 H1 H2. unfold wakes in *. by etrans. Qed.

Lemma wakes_same s s' : k_threads s' = k_threads s -> wakes s s'.
Proof. intros E. unfold wakes. by rewrite E. Qed.

Lemma wakes_lookup s s' t x : wakes s s' -> k_threads s !! t = Some x -> exists y, k_threads s' !! t = Some y /\ woken x y.
Proof. intros Hw Hx. destruct (Forall2_lookup_l _ _ _ _ _ Hw Hx) as (y & Hy & Hxy). by exists y. Qed.

Lemma wakes_insert s t x y :
  k_threads s !! t = Some x -> woken x y -> wakes s (set_k_threads (<[t := y]> (k_threads s)) s).
Proof.
  intros Hx Hw. unfold wakes. simpl. rewrite <- (list_insert_id (k_threads s) t x) at 1 by done. apply Forall2_insert; [|done]. reflexivity.
Qed.

#[export] Hint Resolve wakes_same : stays.

#[local] Abbreviation quiet := (stays wakes).

Lemma quiet_get_tcb t : quiet (get_tcb t).
Proof. intros s x s' E. unfold get_tcb in E. destruct (k_threads s !! _); [|done]. destruct (0 <=? t); [|done]. by injection E as <- <-. Qed.

Lemma quiet_get_pcb p : quiet (get_pcb p).
Proof. intros s x s' E. unfold get_pcb in E. destruct (k_processes s !! _); [|done]. destruct (0 <=? p); [|done]. by injection E as <- <-. Qed.

Lemma quiet_upd_pcb p f : quiet (upd_pcb p f).
Proof. apply stays_bind; [exact _ | apply quiet_get_pcb|]. intros x. apply stays_modify. intros s. by apply wakes_same. Qed.

Lemma quiet_granted : quiet granted.
Proof. intros s b s' [= <- <-]. by apply wakes_same. Qed.

Lemma quiet_insert {A} (l : list A) i x : quiet (list_insert l i x).
Proof. apply stays_bind; [exact _ | apply quiet_granted|]. intros b. destruct (_ && _); [apply stays_ret, _ | apply stays_fatal]. Qed.

#[export] Hint Resolve quiet_get_tcb quiet_get_pcb quiet_upd_pcb quiet_granted quiet_insert : stays.

Lemma quiet_get_queue i : quiet (get_queue i).
Proof. unfold get_queue, index. repeat stays_step. Qed.

#[export] Hint Resolve quiet_get_queue : stays.

Lemma quiet_add_thread t : quiet (add_thread_to_scheduler t).
Proof.
  unfold add_thread_to_scheduler, scheduler_lock, scheduler_unlock, spin_unlock, add_thread_to_scheduler_locked, in_queues, set_queue. repeat stays_step.
Qed.

Lemma quiet_thread_get tid : quiet (thread_get_by_tid tid).
Proof. unfold thread_get_by_tid, threads_lock, threads_unlock, spin_unlock. repeat stays_step. Qed.

Lemma quiet_pcb_get pid : quiet (get_pcb_by_pid pid).
Proof. unfold get_pcb_by_pid, process_table_lock, process_table_unlock, spin_unlock. repeat stays_step. Qed.

#[export] Hint Resolve quiet_add_thread quiet_thread_get quiet_pcb_get : stays.

Lemma quiet_upd_tcb t f : (forall x, woken x (f x)) -> quiet (upd_tcb t f).
Proof.
  intros Hf s [] s' E. unfold upd_tcb, mbind, stM_bind in E. destruct (get_tcb t s) as [[x s1]| | |] eqn:Eg; try done. injection E as <-.
  unfold get_tcb in Eg. destruct (k_threads s !! Z.to_nat t) as [y|] eqn:Ey; [|done]. destruct (0 <=? t); [|done]. injection Eg as <- <-.
  by eapply wakes_insert.
Qed.

(** A thread that is not a zombie is made ready. *)
Lemma quiet_ready t x s s' : k_threads s !! Z.to_nat t = Some x -> is_zombie (t_state x) = false ->
  upd_tcb t (set_t_state THREAD_READY) s = Ok (tt, s') -> wakes s s'.
Proof.
  intros Hx Hz E. unfold upd_tcb, get_tcb, mbind, stM_bind in E. rewrite Hx in E. destruct (0 <=? t); [|done]. injection E as <-.
  eapply wakes_insert; [done|]. split; [|done]. unfold marks. simpl. by rewrite Hz.
Qed.

Section wake_ups.
Context (U : option Z -> KM unit) (HU : forall t, quiet (U t)).

Lemma quiet_notify child q : quiet (notify_waiter U child q).
Proof. induction q as [|tid q IH]; cbn [notify_waiter]; repeat stays_step; apply HU || exact IH. Qed.

Lemma quiet_sigchld child : quiet (send_sigchld_with U child).
Proof. unfold send_sigchld_with. repeat stays_step. apply quiet_notify. Qed.

Lemma quiet_change_state p old new : quiet (change_state_with U p old new).
Proof. unfold change_state_with. repeat (stays_step || apply quiet_sigchld). Qed.

Lemma quiet_unblock_with t : quiet (unblock_with U t).
Proof.
  destruct t as [t|]; [|apply stays_ret, _]. intros s [] s' E. unfold unblock_with, mbind at 1, stM_bind at 1 in E.
  destruct (get_tcb t s) as [[x s1]| | |] eqn:Eg; try done. unfold get_tcb in Eg. destruct (k_threads s !! Z.to_nat t) as [y|] eqn:Ey; [|done].
  destruct (0 <=? t); [|done]. injection Eg as <- <-. destruct (is_blocked (t_state y)) eqn:Eb; cbn [negb] in E; [|by injection E as <-].
  unfold mbind at 1, stM_bind at 1 in E. destruct (change_state_with _ _ _ _ s) as [[[] s1]| | |] eqn:Ec; try done. apply quiet_change_state in Ec.
  unfold mbind at 1, stM_bind at 1 in E. destruct (upd_tcb t (set_t_state THREAD_READY) s1) as [[[] s2]| | |] eqn:Eu; try done.
  destruct (wakes_lookup _ _ _ _ Ec Ey) as (z & Hz & Em & _). assert (Hnz : is_zombie (t_state z) = false) by (injection Em as _ _ ->; by destruct (t_state y)).
  pose proof (quiet_ready _ _ _ _ Hz Hnz Eu) as E2. do 2 (etrans; [eassumption|]).
  revert E. apply (stays_bind wakes); [apply quiet_upd_tcb; by intros w | intros []; apply quiet_add_thread].
Qed.
End wake_ups.

Lemma quiet_unblock_n n t : quiet (unblock_n n t).
Proof. revert t. induction n as [|n IH]; intros t; [apply stays_hang | by apply quiet_unblock_with]. Qed.

Lemma quiet_unblock t : quiet (unblock_thread t).
Proof. apply quiet_unblock_n. Qed.

Lemma quiet_change p old new : quiet (pcb_thread_change_state p old new).
Proof. apply quiet_change_state, quiet_unblock_n. Qed.

Lemma quiet_event tid event : quiet (send_unblock_event tid event).
Proof. unfold send_unblock_event. repeat (stays_step || apply quiet_unblock). Qed.

(** ** SIGKILL *)

Section kill.
Context (rank : Z -> nat) (resumed : KP unit).
#[local] Abbreviation ok := (kernel_ok rank).

(** The threads other than [t] have at most been woken, and [t] is as [P] says. *)
Definition hits (t : Z) (P : tcb -> Prop) (s s' : kstate) : Prop :=
  calm rank s s' /\ (exists x, k_threads s' !! Z.to_nat t = Some x /\ P x) /\
  forall u x, u <> Z.to_nat t -> k_threads s !! u = Some x -> exists z, k_threads s' !! u = Some z /\ woken x z.

Lemma hits_trans t P Q s1 s2 s3 : hits t P s1 s2 -> hits t Q s2 s3 -> hits t Q s1 s3.
Proof.
  intros (C1 & _ & H1) (C2 & HQ & H2). split; [by eapply calm_trans|]. split; [done|]. intros u x Hu Hx.
  destruct (H1 u x Hu Hx) as (y & Hy & Hxy). destruct (H2 u y Hu Hy) as (z & Hz & Hyz). exists z. split; [done | by etrans].
Qed.

Lemma hits_wakes t x s s' : calm rank s s' -> wakes s s' -> k_threads s !! Z.to_nat t = Some x -> hits t (woken x) s s'.
Proof. intros Hc Hw Hx. split; [done|]. split; [by eapply wakes_lookup|]. intros u y _ Hy. by eapply wakes_lookup. Qed.

Lemma hits_touch t x f s :
  ok s -> live s t x -> keeps f -> hits t (fun y => y = f x) s (with_tcb t (f x) s).
Proof.
  intros Hok Hx Hf. pose proof Hx as (Ht0 & Hxt & Hu). destruct (Hf x) as (Hc & _); [by apply (to_tsig _ _ (proj1 Hok) _ _ Hxt)|].
  split; [split; [by apply (kernel_ok_thread rank t x f) | split; [done | by eapply with_tcb_cores]]|]. split; [exists (f x); split; [by eapply (with_tcb_lookup _ _ x) | done]|].
  intros u y Hne Hy. exists y. split; [|done]. simpl. by rewrite list_lookup_insert_ne.
Qed.

Lemma wp_change_hits t x st s :
  ok s -> live s t x -> st <> THREAD_UNUSED ->
  wp (_ ← pcb_thread_change_state (t_pcb x) (t_state x) st; upd_tcb t (set_t_state st)) (fun _ s' => hits t (fun y => t_state y = st) s s') s.
Proof.
  intros Hok Hx Hst. apply wp_bind. eapply wp_mono; [apply (wp_stays wakes); [apply quiet_change | by apply (wp_set_state rank t x st id)]|].
  intros [] s' [(y & (Ht0 & Hy & _) & Hc) Hw]. apply (wp_upd_tcb _ y); [done | done|]. fold (with_tcb t (set_t_state st y) s').
  split; [exact Hc|]. split; [eexists; split; [by eapply (with_tcb_lookup _ _ y) | done]|]. intros u z Hne Hz.
  destruct (wakes_lookup _ _ _ _ Hw Hz) as (z' & Hz' & Hzz). exists z'. split; [|done]. simpl. by rewrite list_lookup_insert_ne.
Qed.

Lemma runs_terminate t x me s :
  ok s -> live s t x -> running_on s me <> Some t ->
  runs (fun _ => hits t (fun y => is_zombie (t_state y) = true) s) me (terminate_thread resumed t) s.
Proof.
  intros Hok Hx Hr. pose proof Hx as (Ht0 & Hxt & Hu). apply runs_step, (wp_get_tcb _ x); [done | done|].
  destruct (is_zombie (t_state x)) eqn:Ez.
  { apply runs_ret. split; [by split|]. split; [by exists x|]. intros u z _ Hz. by exists z. }
  destruct (live_process rank s t x (proj1 Hok) Hx) as (y & Hp & Hy & _).
  apply runs_step, wp_bind, (wp_get_pcb _ y); [done | done|]. apply wp_bind, wp_modify.
  set (s1 := set_k_calls _ s). assert (Hok1 : ok s1) by (by apply kernel_ok_log).
  eapply wp_mono; [by apply (wp_change_hits t x)|]. intros [] s2 Hh. pose proof Hh as ((_ & Hc & _) & _ & _).
  apply runs_bind. exists (running_on s2 me), s2. split; [done|].
  rewrite (same_cpus s s2) by done. rewrite bool_decide_eq_false_2 by done. apply runs_ret. destruct Hh as (Hc2 & (z & Hz & E) & Ho). split; [exact Hc2|]. split; [|exact Ho].
  exists z. by rewrite E.
Qed.

Lemma keeps_del n : keeps (fun x => set_t_pending_signals (del_sig (t_pending_signals x) n) x).
Proof. apply (keeps_pending (fun v => del_sig v n)). intros v. apply known_del. Qed.

Lemma keeps_add n : Z.testbit known_signals n = true -> keeps (fun x => set_t_pending_signals (add_sig (t_pending_signals x) n) x).
Proof. intros Hn. apply (keeps_pending (fun v => add_sig v n)). intros v Hv. by apply known_add. Qed.

Lemma live_touch t x f s : live s t x -> t_state (f x) = t_state x -> live (with_tcb t (f x) s) t (f x).
Proof. intros (Ht0 & Hx & Hu) E. split; [done|]. split; [by eapply (with_tcb_lookup _ _ x) | by rewrite E]. Qed.

Lemma runs_kill_now t x me s :
  ok s -> live s t x -> running_on s me <> Some t ->
  runs (fun _ => hits t (fun y => is_zombie (t_state y) = true) s) me (handle_interruptable_signal resumed t SIGKILL) s.
Proof.
  intros Hok Hx Hr. pose proof Hx as (Ht0 & Hxt & Hu). apply runs_step, (wp_get_tcb _ x); [done | done|].
  apply runs_step, (wp_get_sigaction rank); [done | by eapply live_range | done|]. intros a _. cbv zeta.
  apply runs_step, (wp_upd_tcb _ x); [done | done|]. set (f := fun x => set_t_pending_signals (del_sig (t_pending_signals x) SIGKILL) x).
  change (set_t_pending_signals _ x) with (f x). fold (with_tcb t (f x) s). pose proof (hits_touch t x f s Hok Hx (keeps_del _)) as Hh.
  eapply runs_mono; [apply (runs_terminate t (f x)); [apply Hh | by apply live_touch | exact Hr]|]. intros [] s' Hs'. by eapply hits_trans.
Qed.

(** A thread that does not wait for this event is not woken. *)
Lemma no_event t x s : ok s -> live s t x -> awaits x = false -> wp (send_unblock_event t BLOCK_UNTIL_SIGNAL) (fun r s' => r = 0 /\ s' = s) s.
Proof.
  intros Hok Hx Hw. pose proof Hx as (Ht0 & Hxt & Hu). apply wp_bind, wp_thread_get_by_tid; [apply Hok | |intros Hn; by destruct Hu; apply Hn].
  intros y _ _ _. apply wp_bind, (wp_get_tcb _ x); [done | done|]. destruct (is_blocked (t_state x)); cbn [negb]; [|by apply wp_ret].
  unfold awaits in Hw. rewrite Hw. by apply wp_ret.
Qed.

(** SIGKILL sent to a thread of another CPU, or to one that does not run. *)
Lemma runs_pthread_kill t x me s :
  ok s -> live s t x -> running_on s me <> Some t -> Z.land (t_mask x) (bit SIGKILL) = 0 -> awaits x = false ->
  runs (fun r s' => r = 0 /\ hits t (fun y => is_zombie (t_state y) = true) s s') me (pthread_kill resumed t SIGKILL) s.
Proof.
  intros Hok Hx Hr Hm Hw. pose proof Hx as (Ht0 & Hxt & Hu). apply runs_step, wp_thread_get_by_tid; [apply Hok | |intros Hn; by destruct Hu; apply Hn].
  intros y _ _ _. apply runs_step, (wp_get_tcb _ x); [done | done|]. apply runs_bind, runs_ret.
  apply runs_step, (wp_upd_tcb _ x); [done | done|]. set (f := fun x => set_t_pending_signals (add_sig (t_pending_signals x) SIGKILL) x).
  change (set_t_pending_signals _ x) with (f x). fold (with_tcb t (f x) s). pose proof (hits_touch t x f s Hok Hx (keeps_add SIGKILL eq_refl)) as Hh.
  pose proof (live_touch t x f s Hx eq_refl) as Hx1. pose proof Hx1 as (_ & Hxt1 & _). apply runs_step, (wp_get_tcb _ (f x)); [done | done|].
  change (t_mask (f x)) with (t_mask x). rewrite Hm. cbn [Z.eqb negb].
  assert (Etid : t_tid (f x) = t) by (change (t_tid x = t); rewrite (to_tid _ _ (proj1 Hok) _ _ Hxt); lia). rewrite Etid.
  apply runs_step. eapply wp_mono; [apply (no_event t (f x)); [apply Hh | done | exact Hw]|]. intros r s' [-> ->].
  apply runs_step, (wp_get_tcb _ (f x)); [done | done|]. cbn [Z.eqb orb]. apply runs_bind. eapply runs_mono; [apply (runs_kill_now t (f x)); [apply Hh | done | exact Hr]|].
  intros [] s' Hs'. apply runs_ret. split; [done | by eapply hits_trans].
Qed.

(** A thread of the table that SIGKILL ends at once. *)
Definition killable (s : kstate) (t : Z) : Prop :=
  exists x, k_threads s !! Z.to_nat t = Some x /\ Z.land (t_mask x) (bit SIGKILL) = 0 /\ awaits x = false.

Definition dead (s : kstate) (t : Z) : Prop := exists x, k_threads s !! Z.to_nat t = Some x /\ is_zombie (t_state x) = true.

Lemma killable_woken s s' t P u : hits t P s s' -> 0 <= t -> 0 <= u -> u <> t -> killable s u -> killable s' u.
Proof.
  intros (_ & _ & Ho) Ht Hu Hne (x & Hx & Hm & Hw). destruct (Ho (Z.to_nat u) x) as (y & Hy & Em & Ew); [lia | done|].
  exists y. injection Em as _ Emask _. rewrite Emask. do 2 (split; [done|]). destruct (awaits y); [by rewrite Ew in Hw | done].
Qed.

Lemma dead_woken s s' t u : hits t (fun y => is_zombie (t_state y) = true) s s' -> 0 <= t -> 0 <= u -> dead s u -> dead s' u.
Proof.
  intros (_ & Hy & Ho) Ht Hu (x & Hx & Hz). destruct (decide (u = t)) as [->|Hne]; [exact Hy|].
  destruct (Ho (Z.to_nat u) x) as (y & Hy' & Em & _); [lia | done|]. exists y. split; [done|]. by injection Em as _ _ ->.
Qed.

Section members.
Context (p : nat) (x : pcb) (s0 : kstate) (me : nat).
Context (Hok0 : ok s0) (Hx0 : k_processes s0 !! p = Some x) (Hused : used x).
Context (Hlive : forall t, t ∈ p_tids x -> exists y, live s0 t y).
Context (Hcpu : forall t, t ∈ p_tids x -> running_on s0 me <> Some t).

(** The loop of [s_kill] from the [i]-th thread on. *)
Lemma runs_kill_from n i sent s :
  calm rank s0 s -> (length (p_tids x) < n + i)%nat -> (i <= length (p_tids x))%nat ->
  (forall j t, (i <= j)%nat -> p_tids x !! j = Some t -> killable s t) ->
  (forall j t, (j < i)%nat -> p_tids x !! j = Some t -> dead s t) ->
  runs (fun b s' => b = (sent || bool_decide (i < length (p_tids x))%nat) /\ calm rank s0 s' /\ forall t, t ∈ p_tids x -> dead s' t) me
    (loop n (fun '(i, sent) =>
      x ← atomic (get_pcb (Z.of_nat p));
      match p_tids x !! i with
      | None => mret (inr sent)
      | Some tid => r ← pthread_kill resumed tid SIGKILL; mret (inl (S i, (sent : bool) || (r =? 0)))
      end) (i, sent)) s.
Proof.
  revert i sent s. induction n as [|n IH]; intros i sent s Hc Hn Hi Hk Hd; [lia|]. cbn [loop]. apply runs_bind.
  destruct (cores_process _ _ _ _ (eq_sym (proj2 (proj2 Hc))) Hx0) as (y & Hy & (_ & _ & Et & _)%pcore_fields).
  apply runs_step, (wp_get_pcb _ y); [lia | by rewrite Nat2Z.id|]. rewrite <- Et. destruct (p_tids x !! i) as [t|] eqn:Ei.
  - assert (Ht : t ∈ p_tids x) by (by eapply list_elem_of_lookup_2). pose proof (lookup_lt_Some _ _ _ Ei). destruct (Hlive t Ht) as [z0 Hz0].
    destruct (calm_live rank _ _ _ _ Hc Hz0) as (z & Hz & _). pose proof Hz as (Ht0 & Hzt & _). destruct (Hk i t ltac:(lia) Ei) as (z' & Hz' & Hm & Hw).
    rewrite Hzt in Hz'. injection Hz' as <-. apply runs_bind.
    eapply runs_mono; [apply (runs_pthread_kill t z); [apply Hc | done | rewrite (same_cpus s0 s) by apply Hc; by apply Hcpu | done | done]|].
    intros r s1 [-> Hh]. apply runs_ret. cbv beta iota.
    assert (Hnd : NoDup (p_tids x)) by apply (proj2 Hok0 p x Hx0 Hused).
    eapply runs_mono; [apply IH; [eapply calm_trans; [exact Hc | apply Hh] | lia | lia | |]|].
    + intros j u Hj Hju. destruct (Hlive u ltac:(by eapply list_elem_of_lookup_2)) as (? & Hu0 & _).
      apply (killable_woken s s1 t _ u Hh Ht0 Hu0); [|apply (Hk j); [lia | done]]. intros ->. pose proof (NoDup_lookup _ _ _ _ Hnd Ei Hju). lia.
    + intros j u Hj Hju. destruct (Hlive u ltac:(by eapply list_elem_of_lookup_2)) as (? & Hu0 & _).
      destruct (decide (j = i)) as [->|Hne]; [replace u with t by congruence; apply Hh | apply (dead_woken s s1 t u Hh Ht0 Hu0), (Hd j); [lia | done]].
    + intros b s2 (-> & Hc2 & Hd2). split; [|done]. rewrite orb_true_r, (bool_decide_eq_true_2 _ H). by rewrite orb_true_r.
  - apply runs_ret. cbv beta iota. apply runs_ret. apply lookup_ge_None_1 in Ei. split; [|split; [done|]].
    + rewrite bool_decide_eq_false_2 by lia. by rewrite orb_false_r.
    + intros t (j & Hj)%list_elem_of_lookup. apply (Hd j); [|done]. apply lookup_lt_Some in Hj. lia.
Qed.

Lemma process_dead s : calm rank s0 s -> (forall t, t ∈ p_tids x -> dead s t) -> exists y, k_processes s !! p = Some y /\ p_state y = PROC_ZOMBIE_STATE.
Proof.
  intros (Hok & _ & Ec) Hd. destruct (cores_process _ _ _ _ (eq_sym Ec) Hx0) as (y & Hy & (_ & _ & Et & _ & Eu & _)%pcore_fields).
  exists y. split; [done|]. destruct (proj2 Hok p y Hy (proj1 Eu Hused)) as (_ & Hc & ->). apply (all_zombies (tkind s)); [done|].
  rewrite <- Et. intros t Ht. destruct (Hd t Ht) as (z & Hz & E). unfold tkind. rewrite Hz. by destruct (t_state z).
Qed.

Lemma runs_s_kill k a :
  p_tids x <> [] -> (length (p_tids x) < k)%nat -> p_sigactions x !! Z.to_nat SIGKILL = Some a -> sa_handler a = SIG_DFL ->
  (forall t, t ∈ p_tids x -> killable s0 t) ->
  runs (fun r s' => r = 0 /\ ok s' /\ (forall t, t ∈ p_tids x -> dead s' t) /\
                    exists y, k_processes s' !! p = Some y /\ p_state y = PROC_ZOMBIE_STATE) me (s_kill resumed k (Z.of_nat p) SIGKILL) s0.
Proof.
  intros Hne Hk Ha Hdfl Hkill. unfold s_kill. rewrite (proj2 (Z.ltb_ge (Z.of_nat p) 0)) by lia. cbn [Z.ltb Z.leb orb Z.compare SIGKILL].
  apply runs_step, wp_get_pcb_by_pid; [apply Hok0 | apply Hok0 | |intros Hn; destruct (Hn x); [lia | by rewrite Nat2Z.id | done]].
  intros y _ _ _. apply runs_step, wp_bind, (wp_get_pcb _ x); [lia | by rewrite Nat2Z.id|]. rewrite Ha. apply wp_ret. rewrite Hdfl.
  change (effective SIG_DFL SIGKILL) with SIG_TERM. cbv iota. apply runs_bind.
  eapply runs_mono; [apply runs_kill_from; [by split | lia | lia | intros j t _ Hj; by apply Hkill, list_elem_of_lookup_2 with j | lia]|].
  intros b s' (-> & Hc & Hd). apply runs_ret. rewrite bool_decide_eq_true_2 by (destruct (p_tids x); [done | simpl; lia]).
  split; [done|]. split; [apply Hc|]. split; [done | by apply process_dead].
Qed.

End members.
End kill.

(** ** Properties *)

(** C13. [kill] with SIGKILL on a process none of whose threads runs on the
    calling CPU, masks the signal or waits for the event of a signal returns 0
    without giving up the CPU.  Then all its threads are zombies, the process
    is a zombie too, and the tables are consistent. *)
Theorem kill_terminates rank resumed k p x a me s :
  kernel_ok rank s -> k_processes s !! p = Some x -> used x -> p_tids x <> [] -> (length (p_tids x) < k)%nat ->
  p_sigactions x !! Z.to_nat SIGKILL = Some a -> sa_handler a = SIG_DFL ->
  (forall t, t ∈ p_tids x -> (exists y, live s t y) /\ killable s t /\ running_on s me <> Some t) ->
  runs (fun r s' => r = 0 /\ kernel_ok rank s' /\ (forall t, t ∈ p_tids x -> dead s' t) /\
                    exists y, k_processes s' !! p = Some y /\ p_state y = PROC_ZOMBIE_STATE) me (s_kill resumed k (Z.of_nat p) SIGKILL) s.
Proof. intros Hok Hx Hu Hne Hk Ha Hdfl Ht. eapply (runs_s_kill rank resumed p x s me Hok Hx Hu); try done; intros t Hin; apply (Ht t Hin). Qed.

Lemma kill_terminates_witness :
  runs (fun r s' => r = 0 /\ kernel_ok demo_rank s' /\ (forall t, t ∈ [2] -> dead s' t) /\
                    exists y, k_processes s' !! 2%nat = Some y /\ p_state y = PROC_ZOMBIE_STATE) 1 (s_kill (mret tt) 2 2 SIGKILL) demo_system.
Proof.
  apply (kill_terminates demo_rank (mret tt) 2 2%nat (demo_process 2) (mkSigaction SIG_DFL 0 0) 1%nat demo_system demo_kernel_ok); try reflexivity; try done.
  - simpl. lia.
  - intros t Ht. apply list_elem_of_singleton in Ht as ->. split; [|split]; [eexists; split; [lia|]; split; [reflexivity | done] | by eexists | done].
Defined.
