(* ===== verification/Interleaving.v ===== *)
(** * Threads that run side by side

    A program of Programs.v stops where it may be interrupted; other threads run
    before it goes on.  [play] lets a list of threads take turns in any order.
    [holds] is a rely-guarantee judgement on one thread: the invariant [I] is
    indexed by a world, the history the threads agree on; a thread moves the
    world by its [guar] and the others by its [rely].  [play_sound] puts the
    threads together. *)

From S2P Require Import Prelude Errors Services Programs.

(** ** Taking turns *)

(** A thread: its next step on a CPU, its result, or a thread whose execution is
    not followed any further. *)
Inductive task (S A : Type) :=
  | Runnable (k : nat -> S -> res S A)
  | Done (a : A)
  | Cut.
Arguments Runnable {S A} _.
Arguments Done {S A} _.
Arguments Cut {S A}.

Section pool.
Context {S A : Type}.

(** Thread [i] runs on CPU [me] up to its next interruption; [None] is a crash. *)
Definition turn (i me : nat) (pool : list (task S A)) (s : S) : option (list (task S A) * S) :=
  match pool !! i with
  | Some (Runnable k) =>
      match k me s with
      | Returned a _ s' => Some (<[i := Done a]> pool, s')
      | Waiting s' k' => Some (<[i := Runnable k']> pool, s')
      | Unfinished s' => Some (<[i := Cut]> pool, s')
      | Crashed _ => None
      end
  | _ => Some (pool, s)
  end.

Fixpoint play (choices : list (nat * nat)) (pool : list (task S A)) (s : S) : option (list (task S A) * S) :=
  match choices with
  | [] => Some (pool, s)
  | (i, me) :: choices => match turn i me pool s with Some (pool, s) => play choices pool s | None => None end
  end.
End pool.

(** ** One thread *)

Section rg.
Context {S W : Type} (I : W -> S -> Prop).

Section thread.
Context (rely guar : W -> W -> Prop) `{!PreOrder guar}.

Fixpoint holds {A} (Q : A -> nat -> S -> W -> Prop) (w : W) (r : res S A) : Prop :=
  match r with
  | Returned a me s => exists w', guar w w' /\ I w' s /\ Q a me s w'
  | Crashed _ => False
  | Waiting s k => exists w', guar w w' /\ I w' s /\ forall w2 me s2, rely w' w2 -> I w2 s2 -> holds Q w2 (k me s2)
  | Unfinished s => exists w', guar w w' /\ I w' s
  end.

Lemma holds_mono {A} (P Q : A -> nat -> S -> W -> Prop) w r :
  (forall a me s w, I w s -> P a me s w -> Q a me s w) -> holds P w r -> holds Q w r.
Proof.
  intros HPQ. revert w. induction r as [a me s|o|s k IH|s]; intros w; simpl; [|done| |done].
  - intros (w' & Hg & HI & HP). exists w'. auto.
  - intros (w' & Hg & HI & Hk). exists w'. auto.
Qed.

(** The thread may already have moved the world. *)
Lemma holds_guar {A} (Q : A -> nat -> S -> W -> Prop) w w' r : guar w w' -> holds Q w' r -> holds Q w r.
Proof.
  intros Hg. destruct r as [a me s|o|s k|s]; simpl; [|done| |].
  - intros (w2 & Hg2 & H). exists w2. split; [by etrans | done].
  - intros (w2 & Hg2 & H). exists w2. split; [by etrans | done].
  - intros (w2 & Hg2 & H). exists w2. split; [by etrans | done].
Qed.

Lemma holds_ret {A} (a : A) (Q : A -> nat -> S -> W -> Prop) me s w : I w s -> Q a me s w -> holds Q w ((mret a : prog S A) me s).
Proof. intros HI HQ. exists w. done. Qed.

Lemma holds_bind {A B} (m : prog S A) (f : A -> prog S B) Q me s w :
  holds (fun a me s w => holds Q w (f a me s)) w (m me s) -> holds Q w ((m ≫= f) me s).
Proof.
  unfold mbind, prog_bind. generalize (m me s). intros r. revert w. induction r as [a me' s'|o|s' k IH|s']; intros w; simpl.
  - intros (w' & Hg & _ & Hf). by eapply holds_guar.
  - done.
  - intros (w' & Hg & HI & Hk). exists w'. auto 10.
  - done.
Qed.

(** An atomic step that moves the world, and what follows. *)
Lemma holds_step {A B} (m : stM S A) (f : A -> prog S B) Q me s w :
  wp m (fun a s' => exists w', guar w w' /\ I w' s' /\ holds Q w' (f a me s')) s -> holds Q w ((atomic m ≫= f) me s).
Proof.
  intros (a & s' & E & w' & Hg & HI & Hf). apply holds_bind. unfold atomic. rewrite E. exists w'. split; [done|]. split; [done|].
  exact Hf.
Qed.

(** [while]: [J] holds at the start of every turn. *)
Lemma holds_loop {A B} n (body : A -> prog S (A + B)) (J : A -> nat -> S -> W -> Prop) Q a me s w :
  I w s -> J a me s w ->
  (forall a me s w, I w s -> J a me s w -> holds (fun r me s w => match r with inl a => J a me s w | inr b => Q b me s w end) w (body a me s)) ->
  holds Q w (loop n body a me s).
Proof.
  intros HI HJ Hb. revert a me s w HI HJ. induction n as [|n IH]; intros a me s w HI HJ; [by exists w|].
  apply holds_bind. eapply holds_mono; [|by apply Hb]. intros [a'|b] me' s' w' HI' Hr; [by apply IH | by exists w'].
Qed.

(** A program on a part of the state that the world does not look at. *)
Lemma holds_on {K A} `{!PreOrder rely} (get : S -> K) (set : K -> S -> S) (J : K -> Prop) (m : prog K A) (P : A -> nat -> K -> Prop) me s w :
  (forall k s, get (set k s) = k) -> (forall w s, I w s -> J (get s)) -> (forall w s k, I w s -> J k -> I w (set k s)) -> I w s ->
  safe J P (m me (get s)) -> holds (fun a me s' w' => rely w w' /\ P a me (get s')) w (on get set m me s).
Proof.
  intros Hgs Hget Hset. unfold on. generalize (m me (get s)). intros r.
  assert (Hgen : forall w0, rely w0 w -> I w s -> safe J P r -> holds (fun a me s' w' => rely w0 w' /\ P a me (get s')) w (embed get set s r)).
  2: { intros HI Hs. by apply Hgen. }
  revert s w. induction r as [a me' k|o|k c IH|k]; intros s w w0 Hr HI; simpl.
  - intros [HJ HP]. exists w. split; [done|]. split; [by apply Hset|]. by rewrite Hgs.
  - done.
  - intros [HJ Hc]. exists w. split; [done|]. split; [by apply Hset|]. intros w2 me' s2 Hr2 HI2.
    apply IH; [by etrans | done | by eapply Hc, Hget].
  - intros HJ. exists w. split; [done | by apply Hset].
Qed.
End thread.

(** ** All threads *)

Context {A : Type} (rely guar : nat -> W -> W -> Prop) (Q : nat -> A -> W -> Prop).
Context (Hrely : forall i, PreOrder (rely i)).
Context (Hothers : forall i j w w', i <> j -> guar i w w' -> rely j w w').
Context (Hstable : forall i a w w', rely i w w' -> Q i a w -> Q i a w').

(** What is known of thread [i] when the world is [w]. *)
Definition task_ok (i : nat) (w : W) (x : task S A) : Prop :=
  match x with
  | Runnable k => forall w2 me s2, rely i w w2 -> I w2 s2 -> holds (rely i) (guar i) (fun a _ _ w => Q i a w) w2 (k me s2)
  | Done a => Q i a w
  | Cut => True
  end.

Definition pool_ok (w : W) (pool : list (task S A)) : Prop := forall i x, pool !! i = Some x -> task_ok i w x.

Lemma task_ok_rely i w w' x : rely i w w' -> task_ok i w x -> task_ok i w' x.
Proof. destruct x as [k|a|]; simpl; [|by apply Hstable | done]. intros Hr Hk w2 me s2 Hr2 HI. apply Hk; [by etrans | done]. Qed.

Lemma pool_ok_insert i w w' pool y : guar i w w' -> pool_ok w pool -> task_ok i w' y -> pool_ok w' (<[i := y]> pool).
Proof.
  intros Hg Hp Hy j x Hx. apply list_lookup_insert_Some in Hx as [(<- & <- & _)|(Hne & Hx)]; [done|].
  apply (task_ok_rely j w); [by apply (Hothers i) | by apply Hp].
Qed.

Lemma turn_sound i me w pool s :
  I w s -> pool_ok w pool -> exists pool' s' w', turn i me pool s = Some (pool', s') /\ I w' s' /\ pool_ok w' pool'.
Proof.
  intros HI Hp. unfold turn. destruct (pool !! i) as [x|] eqn:Ex; [|by exists pool, s, w]. pose proof (Hp i x Ex) as Hx.
  destruct x as [k|a|]; [|by exists pool, s, w|by exists pool, s, w].
  specialize (Hx w me s ltac:(reflexivity) HI). destruct (k me s) as [a me' s'|o|s' k'|s']; simpl in Hx; [|done| |].
  - destruct Hx as (w' & Hg & HI' & HQ). exists (<[i := Done a]> pool), s', w'. split; [done|]. split; [done|]. by apply (pool_ok_insert i w).
  - destruct Hx as (w' & Hg & HI' & Hk). exists (<[i := Runnable k']> pool), s', w'. split; [done|]. split; [done|]. by apply (pool_ok_insert i w).
  - destruct Hx as (w' & Hg & HI'). exists (<[i := Cut]> pool), s', w'. split; [done|]. split; [done|]. by apply (pool_ok_insert i w).
Qed.

Lemma play_sound choices w pool s :
  I w s -> pool_ok w pool -> exists pool' s' w', play choices pool s = Some (pool', s') /\ I w' s' /\ pool_ok w' pool'.
Proof.
  revert w pool s. induction choices as [|[i me] choices IH]; intros w pool s HI Hp; simpl; [by exists pool, s, w|].
  destruct (turn_sound i me w pool s HI Hp) as (pool1 & s1 & w1 & -> & HI1 & Hp1). by apply (IH w1).
Qed.
End rg.
