(* ===== verification/Pipe.v ===== *)
(** * Pipes: kernel/pipe/pipe.c

    The state is the kernel of Tasks.v and one pipe; [None] is a pipe that has
    been freed.  The bytes go through the ring buffer of RingBuffer.v.  Between
    two sections under the lock of the pipe the other CPUs run and the timer may
    take the CPU from the thread: [interruptible].  Creating the inode of a pipe
    and its two descriptors is not modelled. *)

From S2P Require Import Prelude Errors Services RingBuffer Programs Tasks Sched Threads Signals Interleaving FileIO.

Record pipe_st := mkPipe {
  num_readers : Z;
  num_writers : Z;
  buffer : RingBuffer;
  rx_wait_queue : list Z;
  tx_wait_queue : list Z;
  pi_lock : bool
}.

Definition set_num_readers (v : Z) (x : pipe_st) : pipe_st := mkPipe v (num_writers x) (buffer x) (rx_wait_queue x) (tx_wait_queue x) (pi_lock x).
Definition set_num_writers (v : Z) (x : pipe_st) : pipe_st := mkPipe (num_readers x) v (buffer x) (rx_wait_queue x) (tx_wait_queue x) (pi_lock x).
Definition set_buffer (v : RingBuffer) (x : pipe_st) : pipe_st := mkPipe (num_readers x) (num_writers x) v (rx_wait_queue x) (tx_wait_queue x) (pi_lock x).
Definition set_rx (v : list Z) (x : pipe_st) : pipe_st := mkPipe (num_readers x) (num_writers x) (buffer x) v (tx_wait_queue x) (pi_lock x).
Definition set_tx (v : list Z) (x : pipe_st) : pipe_st := mkPipe (num_readers x) (num_writers x) (buffer x) (rx_wait_queue x) v (pi_lock x).
Definition set_pi_lock (v : bool) (x : pipe_st) : pipe_st := mkPipe (num_readers x) (num_writers x) (buffer x) (rx_wait_queue x) (tx_wait_queue x) v.

Record pstate := mkPs {
  ps_kernel : kstate;
  ps_pipe : option pipe_st
}.

Definition set_kernel (k : kstate) (s : pstate) : pstate := mkPs k (ps_pipe s).
Definition set_pipe (p : option pipe_st) (s : pstate) : pstate := mkPs (ps_kernel s) p.

Abbreviation PM := (stM pstate).
Abbreviation PP := (prog pstate).

(** Steps of the kernel. *)
Definition kern {A} (m : KM A) : PM A := lift ps_kernel set_kernel m.
Definition kernp {A} (m : KP A) : PP A := on ps_kernel set_kernel m.

Definition get_pipe : PM pipe_st := fun s => match ps_pipe s with Some p => Ok (p, s) | None => Fault end.
Definition upd_pipe (f : pipe_st -> pipe_st) : PM unit := p ← get_pipe; modify (set_pipe (Some (f p))).

Definition pipe_lock : PM unit := p ← get_pipe; if pi_lock p then hang else upd_pipe (set_pi_lock true).
Definition pipe_unlock : PM unit := upd_pipe (set_pi_lock false).

Definition PIPE_CAPACITY : Z := 4096.

(** The byte that stands for the end of the data. *)
Definition EOT : Z := 4.

Definition pipe_consume : PM (option Z) :=
  p ← get_pipe;
  match consume_ring_buffer (buffer p) with
  | Ok (b, r) => _ ← upd_pipe (set_buffer b); mret r
  | Fatal => fatal
  | Fault => fault
  | Hang => hang
  end.

Definition pipe_produce (c : Z) : PM bool :=
  p ← get_pipe;
  match produce_ring_buffer (Some (buffer p)) c with
  | Ok (Some b, r) => _ ← upd_pipe (set_buffer b); mret r
  | Ok (None, r) => mret r
  | Fatal => fatal
  | Fault => fault
  | Hang => hang
  end.

(** The descriptor table of a process. *)
Fixpoint free_fd (l : list Z) (i : nat) : option nat :=
  match l with
  | [] => None
  | x :: l => if x =? -1 then Some i else free_fd l (S i)
  end.

Definition install_process_fd (pcb k_fd : Z) : KM Z :=
  x ← get_pcb pcb;
  if p_lock x then hang else
  match free_fd (p_file_descriptors x) 0 with
  | Some i => _ ← upd_pcb pcb (set_p_file_descriptors (<[i := k_fd]> (p_file_descriptors x))); mret (Z.of_nat i)
  | None =>
      l ← list_push (p_file_descriptors x) k_fd;
      _ ← upd_pcb pcb (set_p_file_descriptors l);
      mret (Z.of_nat (length l) - 1)
  end.

(** ** Waking up *)

(** The loops pop the last thread until the queue is empty; [l] is the reversed
    queue. *)
Fixpoint wake_all (get : pipe_st -> list Z) (set : list Z -> pipe_st -> pipe_st) (l : list Z) : PM unit :=
  match l with
  | [] => mret tt
  | tid :: l =>
      _ ← upd_pipe (fun p => set (removelast (get p)) p);
      t ← kern (thread_get_by_tid tid);
      _ ← kern (unblock_thread t);
      wake_all get set l
  end.

Definition pipe_wake_up_readers : PM unit := p ← get_pipe; wake_all rx_wait_queue set_rx (rev (rx_wait_queue p)).
Definition pipe_wake_up_writers : PM unit := p ← get_pipe; wake_all tx_wait_queue set_tx (rev (tx_wait_queue p)).

(** ** Opening and closing *)

Definition pipe_free : PM unit := modify (set_pipe None).

Definition pipe_open (mode : Z) : PM Z := fun s =>
  match ps_pipe s with
  | None => Ok (SYS_EINVAL, s)
  | Some _ =>
      (_ ← pipe_lock;
       _ ← (if has mode O_RDONLY then upd_pipe (fun p => set_num_readers (num_readers p + 1) p) else mret tt);
       _ ← (if has mode O_WRONLY then upd_pipe (fun p => set_num_writers (num_writers p + 1) p) else mret tt);
       _ ← pipe_unlock;
       mret 0) s
  end.

Definition pipe_close (mode : Z) : PM Z := fun s =>
  match ps_pipe s with
  | None => Ok (SYS_EINVAL, s)
  | Some _ =>
      (_ ← pipe_lock;
       _ ← (if has mode O_RDONLY then upd_pipe (fun p => set_num_readers (num_readers p - 1) p) else mret tt);
       full ← (if has mode O_WRONLY then
                 _ ← upd_pipe (fun p => set_num_writers (num_writers p - 1) p);
                 p ← get_pipe;
                 if num_writers p =? 0 then
                   wrote ← pipe_produce EOT;
                   if (wrote : bool) then _ ← pipe_wake_up_readers; mret false else mret true
                 else mret false
               else mret false);
       if (full : bool) then _ ← pipe_unlock; mret SYS_EAGAIN else
       p ← get_pipe;
       let should_free := (num_readers p =? 0) && (num_writers p =? 0) in
       _ ← pipe_unlock;
       _ ← (if should_free then pipe_free else mret tt);
       mret 0) s
  end.

(** ** Reading and writing *)

Section blocking.
Context (deliver : KP unit).

(** Other CPUs run here, and the thread may lose its own. *)
Definition interruptible (t : Z) : PP unit := kernp (fun _ k => Waiting k (resume deliver (Some t))).

(** What a locked section of [pipe_read] ends with. *)
Inductive taken :=
  | NoWriter
  | MustWait
  | Took (c : Z).

Definition pipe_take (t : Z) : PM taken :=
  _ ← pipe_lock;
  r ← pipe_consume;
  match r with
  | None =>
      p ← get_pipe;
      if num_writers p =? 0 then _ ← pipe_unlock; mret NoWriter else
      _ ← pipe_wake_up_writers;
      x ← kern (get_tcb t);
      p ← get_pipe;
      q ← kern (list_push (rx_wait_queue p) (t_tid x));
      _ ← upd_pipe (set_rx q);
      _ ← pipe_unlock;
      mret MustWait
  | Some c => _ ← pipe_unlock; mret (Took c)
  end.

(** The loop of [pipe_read], with the bytes stored so far; the boolean says
    whether the loop ended because all bytes had been read. *)
Definition read_loop_bytes (fuel : nat) (t count : Z) : PP (bool * list Z) :=
  loop fuel (fun read =>
    if count <=? Z.of_nat (length read) then mret (inr (true, read)) else
    _ ← interruptible t;
    r ← atomic (pipe_take t);
    match r with
    | NoWriter => mret (inr (false, read))
    | MustWait =>
        _ ← interruptible t;
        _ ← kernp (block_thread deliver t THREAD_BLOCKED_INTERRUPTABLE);
        mret (inl read)
    | Took c => if c =? EOT then mret (inr (false, read)) else mret (inl (read ++ [c]))
    end) [].

Definition wake_section (wake : PM unit) : PM unit := _ ← pipe_lock; _ ← wake; pipe_unlock.

(** The result and the bytes stored at [buffer]. *)
Definition pipe_read (fuel : nat) (count : Z) : PP (Z * list Z) :=
  c ← kernp current;
  match c with
  | None => mret (SYS_ESRCH, [])
  | Some t =>
      '(all, read) ← read_loop_bytes fuel t count;
      _ ← (if (all : bool) then _ ← interruptible t; atomic (wake_section pipe_wake_up_writers) else mret tt);
      mret (to_s32 (Z.of_nat (length read)), read)
  end.

Definition pipe_put (t c : Z) : PM bool :=
  _ ← pipe_lock;
  wrote ← pipe_produce c;
  if (wrote : bool) then _ ← pipe_unlock; mret true else
  _ ← pipe_wake_up_readers;
  x ← kern (get_tcb t);
  p ← get_pipe;
  q ← kern (list_push (tx_wait_queue p) (t_tid x));
  _ ← upd_pipe (set_tx q);
  _ ← pipe_unlock;
  mret false.

(** The loop of [pipe_write] on the bytes that are left. *)
Definition write_loop_bytes (fuel : nat) (t : Z) (buf : list Z) : PP unit :=
  loop fuel (fun buf =>
    match buf with
    | [] => mret (inr tt)
    | c :: rest =>
        _ ← interruptible t;
        wrote ← atomic (pipe_put t c);
        if (wrote : bool) then mret (inl rest) else
        _ ← interruptible t;
        _ ← kernp (block_thread deliver t THREAD_BLOCKED_INTERRUPTABLE);
        mret (inl buf)
    end) buf.

Definition pipe_write (fuel : nat) (buf : list Z) : PP (Z * list Z) :=
  c ← kernp current;
  match c with
  | None => mret (SYS_ESRCH, [])
  | Some t =>
      _ ← write_loop_bytes fuel t buf;
      _ ← interruptible t;
      _ ← atomic (wake_section pipe_wake_up_readers);
      mret (to_s32 (Z.of_nat (length buf)), [])
  end.

(** A thread that calls the kernel once a CPU runs it. *)
Definition thread_of {A} (t : Z) (m : PP A) : PP A := _ ← kernp (resume (mret tt) (Some t)); m.

End blocking.

(** ** The stream

    A world is the pair of the bytes that have gone into the pipe and those that
    have come out; what is between them is in the buffer.  [total] bounds what
    goes in. *)

Definition world : Type := list Z * list Z.

(** What the wake-ups leave alone. *)
Definition same_data (p p' : pipe_st) : Prop :=
  buffer p' = buffer p /\ num_writers p' = num_writers p /\ num_readers p' = num_readers p /\ pi_lock p' = pi_lock p.

#[export] Instance same_data_order : PreOrder same_data.
Proof. split; [by intros p|]. unfold same_data. intros p1 p2 p3 (-> & -> & -> & ->) (-> & -> & -> & ->). done. Qed.

Section stream.
Context (rank : Z -> nat) (total : list Z).

Definition pipe_inv (w : world) (p : pipe_st) : Prop :=
  pi_lock p = false /\ 0 < num_writers p /\ exists q, rrep (buffer p) q /\ w.1 = w.2 ++ q.

Definition stream (w : world) (s : pstate) : Prop :=
  kernel_ok rank (ps_kernel s) /\ w.1 `prefix_of` total /\ exists p, ps_pipe s = Some p /\ pipe_inv w p.

(** The writer makes the first component longer, the reader the second. *)
Definition writes (w w' : world) : Prop := w.1 `prefix_of` w'.1 /\ w'.2 = w.2.
Definition reads (w w' : world) : Prop := w'.1 = w.1 /\ w.2 `prefix_of` w'.2.

#[export] Instance writes_order : PreOrder writes.
Proof. split; [by intros w|]. intros w1 w2 w3 [H1 E1] [H2 E2]. split; [by etrans | congruence]. Qed.

#[export] Instance reads_order : PreOrder reads.
Proof. split; [by intros w|]. intros w1 w2 w3 [E1 H1] [E2 H2]. split; [congruence | by etrans]. Qed.

Lemma wp_get_pipe p (Q : pipe_st -> pstate -> Prop) s : ps_pipe s = Some p -> Q p s -> wp get_pipe Q s.
Proof. intros E HQ. exists p, s. unfold get_pipe. by rewrite E. Qed.

Lemma wp_upd_pipe p f (Q : unit -> pstate -> Prop) s : ps_pipe s = Some p -> Q tt (set_pipe (Some (f p)) s) -> wp (upd_pipe f) Q s.
Proof. intros E HQ. apply wp_bind, (wp_get_pipe p); [done|]. by apply wp_modify. Qed.

Lemma wp_kern {A} (m : KM A) (Q : A -> pstate -> Prop) s : wp m (fun a k => Q a (set_kernel k s)) (ps_kernel s) -> wp (kern m) Q s.
Proof. apply wp_lift. Qed.

Lemma wp_pipe_lock p (Q : unit -> pstate -> Prop) s :
  ps_pipe s = Some p -> pi_lock p = false -> Q tt (set_pipe (Some (set_pi_lock true p)) s) -> wp pipe_lock Q s.
Proof. intros E Hl HQ. apply wp_bind, (wp_get_pipe p); [done|]. rewrite Hl. by apply (wp_upd_pipe p). Qed.

(** A step that wakes threads up. *)
Definition disturbs (s s' : pstate) : Prop :=
  calm rank (ps_kernel s) (ps_kernel s') /\ forall p, ps_pipe s = Some p -> exists p', ps_pipe s' = Some p' /\ same_data p p'.

Lemma disturbs_trans s1 s2 s3 : disturbs s1 s2 -> disturbs s2 s3 -> disturbs s1 s3.
Proof.
  intros [C1 H1] [C2 H2]. split; [by eapply calm_trans|]. intros p Hp. destruct (H1 p Hp) as (p' & Hp' & S1). destruct (H2 p' Hp') as (p2 & Hp2 & S2).
  exists p2. split; [done | by etrans].
Qed.

Lemma wp_wake_one tid k : kernel_ok rank k -> wp (t ← thread_get_by_tid tid; unblock_thread t) (fun _ k' => calm rank k k') k.
Proof.
  intros Hok. apply wp_bind, wp_thread_get_by_tid; [apply Hok | |].
  - intros x Ht Hx Hu. by apply (wp_unblock rank tid x).
  - intros _. by apply wp_ret.
Qed.

Lemma wp_wake_all get set l s p :
  (forall q p, same_data p (set q p)) -> kernel_ok rank (ps_kernel s) -> ps_pipe s = Some p ->
  wp (wake_all get set l) (fun _ s' => disturbs s s') s.
Proof.
  intros Hset. revert s p. induction l as [|tid l IH]; intros s p Hok Hp; cbn [wake_all].
  - apply wp_ret. split; [by split|]. intros p' Hp'. by exists p'.
  - apply wp_bind, (wp_upd_pipe p); [done|]. set (s1 := set_pipe _ s).
    assert (Hd : disturbs s s1).
    { split; [by split|]. intros p' Hp'. rewrite Hp in Hp'. injection Hp' as <-. eexists. split; [done | apply Hset]. }
    destruct (wp_wake_one tid (ps_kernel s1) Hok) as ([] & k' & Ek & Hk).
    unfold mbind, stM_bind in Ek. destruct (thread_get_by_tid tid (ps_kernel s1)) as [[t k1]| | |] eqn:Et; try done.
    apply wp_bind, wp_kern. exists t, k1. split; [done|]. apply wp_bind, wp_kern. exists tt, k'. split; [done|].
    assert (Hd2 : disturbs s1 (set_kernel k' (set_kernel k1 s1))) by (split; [done|]; intros p' Hp'; by exists p').
    eapply wp_mono; [apply (IH (set_kernel k' (set_kernel k1 s1)) _ (proj1 Hk) eq_refl)|]. intros [] s' Hs'. eapply disturbs_trans; [exact Hd|]. by eapply disturbs_trans.
Qed.

Lemma wp_wake_readers s p : kernel_ok rank (ps_kernel s) -> ps_pipe s = Some p -> wp pipe_wake_up_readers (fun _ s' => disturbs s s') s.
Proof. intros Hok Hp. apply wp_bind, (wp_get_pipe p); [done|]. by apply (wp_wake_all _ _ _ _ p). Qed.

Lemma wp_wake_writers s p : kernel_ok rank (ps_kernel s) -> ps_pipe s = Some p -> wp pipe_wake_up_writers (fun _ s' => disturbs s s') s.
Proof. intros Hok Hp. apply wp_bind, (wp_get_pipe p); [done|]. by apply (wp_wake_all _ _ _ _ p). Qed.

Lemma kernel_ok_heap h k : kernel_ok rank k -> (forall n, h n = true) -> kernel_ok rank (set_k_heap h k).
Proof.
  intros Hok Hh. apply (kernel_ok_resched rank k); [done | | by apply resched_frame | by left].
  destruct (to_sys _ _ (proj1 Hok)) as [Hs ? ? ?]. constructor; [constructor; apply Hs | done..].
Qed.

(** The thread goes to sleep: it is put on a queue after the others have been woken. *)
Lemma wp_enqueue {B} t x (wake : PM unit) (get : pipe_st -> list Z) (set : list Z -> pipe_st -> pipe_st) (b : B) s p :
  (forall q p, same_data p (set q p)) -> (forall s p, kernel_ok rank (ps_kernel s) -> ps_pipe s = Some p -> wp wake (fun _ s' => disturbs s s') s) ->
  kernel_ok rank (ps_kernel s) -> live (ps_kernel s) t x -> ps_pipe s = Some p ->
  wp (_ ← wake; x ← kern (get_tcb t); p ← get_pipe; q ← kern (list_push (get p) (t_tid x)); _ ← upd_pipe (set q); _ ← pipe_unlock; mret b)
     (fun r s' => r = b /\ calm rank (ps_kernel s) (ps_kernel s') /\
                  exists p', ps_pipe s' = Some p' /\ same_data (set_pi_lock false p) p') s.
Proof.
  intros Hset Hwake Hok Hx Hp. apply wp_bind. eapply wp_mono; [by apply (Hwake s p)|]. intros [] s1 [Hc1 Hp1]. destruct (Hp1 p Hp) as (p1 & Hp1' & S1).
  destruct (calm_live rank _ _ _ _ Hc1 Hx) as (y & (Ht0 & Hy & _) & _).
  apply wp_bind, wp_kern, (wp_get_tcb _ y); [done | done|]. apply wp_bind, (wp_get_pipe p1); [done|].
  apply wp_bind, wp_kern, wp_list_push; [apply Hc1|]. intros h Hh. apply wp_bind, (wp_upd_pipe p1); [done|].
  apply wp_bind. eapply wp_upd_pipe; [reflexivity|]. apply wp_ret. split; [done|]. split.
  - eapply calm_trans; [exact Hc1|]. split; [|done]. apply kernel_ok_heap; [apply Hc1 | done].
  - eexists. split; [reflexivity|]. destruct S1 as (E1 & E2 & E3 & E4). destruct (Hset (get p1 ++ [t_tid y]) p1) as (F1 & F2 & F3 & F4).
    split; simpl; [by rewrite F1, E1|]. split; [by rewrite F2, E2|]. split; [by rewrite F3, E3 | done].
Qed.

(** What a locked section of the reader does to the stream. *)
Definition took (w w' : world) (r : taken) : Prop :=
  match r with NoWriter => False | MustWait => w' = w | Took c => w' = (w.1, w.2 ++ [c]) end.

Lemma wp_take t x w s :
  stream w s -> live (ps_kernel s) t x ->
  wp (pipe_take t) (fun r s' => exists w', reads w w' /\ stream w' s' /\ calm rank (ps_kernel s) (ps_kernel s') /\ took w w' r) s.
Proof.
  intros (Hok & Hpre & p & Hp & Hl & Hw & q & Hq & Ew) Hx. apply wp_bind, (wp_pipe_lock p); [done | done|]. set (p1 := set_pi_lock true p). set (s1 := set_pipe (Some p1) s).
  destruct q as [|c q].
  - assert (Ec : consume_ring_buffer (buffer p1) = Ok (buffer p1, None)) by (unfold consume_ring_buffer, p1; cbn [buffer set_pi_lock]; by rewrite (rrep_size _ _ Hq)).
    apply wp_bind, wp_bind, (wp_get_pipe p1); [done|]. rewrite Ec. apply wp_bind, (wp_upd_pipe p1); [done|]. apply wp_ret.
    apply wp_bind, (wp_get_pipe (set_buffer (buffer p1) p1)); [done|]. change (num_writers (set_buffer (buffer p1) p1)) with (num_writers p).
    rewrite (proj2 (Z.eqb_neq _ _)) by lia.
    eapply wp_mono; [apply (wp_enqueue t x pipe_wake_up_writers rx_wait_queue set_rx MustWait _ (set_buffer (buffer p1) p1)); [done | apply wp_wake_writers | done | done | done]|].
    intros r s' (-> & Hc & p' & Hp' & E1 & E2 & _ & E4). exists w. split; [done|]. split; [|done]. split; [apply Hc|]. split; [done|].
    exists p'. split; [done|]. split; [done|]. split; [by rewrite E2|]. exists []. by rewrite E1.
  - destruct (consume_sim (buffer p1) c q Hq) as (b & Ec & Hb & _). apply wp_bind, wp_bind, (wp_get_pipe p1); [done|]. rewrite Ec.
    apply wp_bind, (wp_upd_pipe p1); [done|]. apply wp_ret. apply wp_bind, (wp_upd_pipe (set_buffer b p1)); [done|]. apply wp_ret.
    exists (w.1, w.2 ++ [c]). split; [split; [done | by apply prefix_app_r]|]. split; [|done]. split; [done|]. split; [done|].
    eexists. split; [reflexivity|]. split; [done|]. split; [done|]. exists q. split; [done|]. simpl. by rewrite Ew, <- app_assoc.
Qed.

Lemma wp_put t x c w s :
  stream w s -> live (ps_kernel s) t x -> w.1 ++ [c] `prefix_of` total ->
  wp (pipe_put t c) (fun r s' => exists w', writes w w' /\ stream w' s' /\ calm rank (ps_kernel s) (ps_kernel s') /\
                                            w' = if (r : bool) then (w.1 ++ [c], w.2) else w) s.
Proof.
  intros (Hok & Hpre & p & Hp & Hl & Hw & q & Hq & Ew) Hx Hnext. apply wp_bind, (wp_pipe_lock p); [done | done|]. set (p1 := set_pi_lock true p). set (s1 := set_pipe (Some p1) s).
  destruct (decide (rb_size (buffer p1) = rb_capacity (buffer p1))) as [Hfull|Hroom].
  - assert (Ec : produce_ring_buffer (Some (buffer p1)) c = Ok (Some (buffer p1), false)) by (unfold produce_ring_buffer; by rewrite (proj2 (Z.eqb_eq _ _) Hfull)).
    apply wp_bind, wp_bind, (wp_get_pipe p1); [done|]. rewrite Ec. apply wp_bind, (wp_upd_pipe p1); [done|]. apply wp_ret.
    eapply wp_mono; [apply (wp_enqueue t x pipe_wake_up_readers tx_wait_queue set_tx false _ (set_buffer (buffer p1) p1)); [done | apply wp_wake_readers | done | done | done]|].
    intros r s' (-> & Hc & p' & Hp' & E1 & E2 & _ & E4). exists w. split; [done|]. split; [|done]. split; [apply Hc|]. split; [done|].
    exists p'. split; [done|]. split; [done|]. split; [by rewrite E2|]. exists q. by rewrite E1.
  - destruct (produce_sim (buffer p1) q c Hq Hroom) as (b & Ec & Hb & _). apply wp_bind, wp_bind, (wp_get_pipe p1); [done|]. rewrite Ec.
    apply wp_bind, (wp_upd_pipe p1); [done|]. apply wp_ret. apply wp_bind, (wp_upd_pipe (set_buffer b p1)); [done|]. apply wp_ret.
    exists (w.1 ++ [c], w.2). split; [split; [by apply prefix_app_r | done]|]. split; [|done]. split; [done|]. split; [done|].
    eexists. split; [reflexivity|]. split; [done|]. split; [done|]. exists (q ++ [c]). split; [done|]. simpl. by rewrite Ew, <- app_assoc.
Qed.

(** The wake-ups at the end. *)
Lemma wp_wake_section wake w s :
  (forall s p, kernel_ok rank (ps_kernel s) -> ps_pipe s = Some p -> wp wake (fun _ s' => disturbs s s') s) ->
  stream w s -> wp (wake_section wake) (fun _ s' => stream w s' /\ calm rank (ps_kernel s) (ps_kernel s')) s.
Proof.
  intros Hwake (Hok & Hpre & p & Hp & Hl & Hw & q & Hq & Ew). apply wp_bind, (wp_pipe_lock p); [done | done|].
  apply wp_bind. eapply wp_mono; [by apply (Hwake _ (set_pi_lock true p))|]. intros [] s1 [Hc Hp1]. destruct (Hp1 _ eq_refl) as (p1 & Hp1' & E1 & E2 & _ & _).
  apply (wp_upd_pipe p1); [done|]. split; [|done]. split; [apply Hc|]. split; [done|]. eexists. split; [reflexivity|]. split; [done|].
  split; [simpl; rewrite E2; exact Hw|]. exists q. simpl. by rewrite E1.
Qed.

(** *** One thread *)

Section threads.
Context (deliver : KP unit).
Context (Hdel : forall me k, kernel_ok rank k -> safe (kernel_ok rank) (same_thread (running_on k me)) (deliver me k)).

(** The thread still runs, on some CPU. *)
Definition runs_here (t : Z) (me : nat) (s : pstate) : Prop := running_on (ps_kernel s) me = Some t.

Lemma here_live t me w s : stream w s -> runs_here t me s -> exists x, live (ps_kernel s) t x.
Proof. intros (Hok & _) Hr. by eapply running_live. Qed.

Lemma here_calm t me s s' : calm rank (ps_kernel s) (ps_kernel s') -> runs_here t me s -> runs_here t me s'.
Proof. intros (_ & Hc & _) Hr. unfold runs_here. by rewrite (same_cpus (ps_kernel s)). Qed.

Section either.
Context (rely guar : world -> world -> Prop) `{!PreOrder rely} `{!PreOrder guar}.

Lemma holds_kern {A} (m : KP A) (P : A -> nat -> kstate -> Prop) me w s :
  stream w s -> safe (kernel_ok rank) P (m me (ps_kernel s)) ->
  holds stream rely guar (fun a me s' w' => rely w w' /\ P a me (ps_kernel s')) w (kernp m me s).
Proof. intros Hs Hm. apply (holds_on stream rely guar ps_kernel set_kernel (kernel_ok rank)); try done; [by intros ? ? (? & _)|]. by intros w' s' k (_ & ? & ?) Hk. Qed.

Lemma holds_resume t me w s d :
  stream w s -> (forall me k, kernel_ok rank k -> safe (kernel_ok rank) (same_thread (running_on k me)) (d me k)) ->
  holds stream rely guar (fun _ me s' w' => rely w w' /\ runs_here t me s') w (kernp (resume d (Some t)) me s).
Proof.
  intros Hs Hd. apply (holds_kern _ (fun _ me k => running_on k me = Some t)); [done|]. unfold resume. case_bool_decide as E; [|apply Hs].
  eapply safe_mono; [|by apply Hd, Hs]. intros [] me' k Hk Hr. unfold same_thread in Hr. congruence.
Qed.

Lemma holds_interruptible t me w s :
  stream w s -> holds stream rely guar (fun _ me s' w' => rely w w' /\ runs_here t me s') w (interruptible deliver t me s).
Proof.
  intros Hs. apply (holds_kern _ (fun _ me k => running_on k me = Some t)); [done|]. split; [apply Hs|]. intros me' k Hk. unfold resume.
  case_bool_decide as E; [|done]. eapply safe_mono; [|by apply Hdel]. intros [] me2 k2 _ Hr. unfold same_thread in Hr. congruence.
Qed.

Lemma holds_block t st me w s :
  stream w s -> runs_here t me s -> holds stream rely guar (fun _ me s' w' => rely w w' /\ runs_here t me s') w (kernp (block_thread deliver t st) me s).
Proof.
  intros Hs Hr. destruct (here_live t me w s Hs Hr) as [x Hx]. apply (holds_kern _ (fun _ me k => running_on k me = Some t)); [done|].
  eapply safe_mono; [|apply (safe_block rank deliver Hdel t x); [apply Hs | done]]. intros [] me' k _ Hr'. unfold same_thread in Hr'. congruence.
Qed.

(** The end of a turn in which the thread had to wait. *)
Lemma holds_sleep {A} t (a : A) (Q : A -> nat -> pstate -> world -> Prop) st me w s :
  stream w s -> (forall me s' w', stream w' s' -> rely w w' -> runs_here t me s' -> Q a me s' w') ->
  holds stream rely guar Q w ((_ ← interruptible deliver t; _ ← kernp (block_thread deliver t st); mret a) me s).
Proof.
  intros Hs HQ. apply holds_bind; [exact _|]. eapply holds_mono; [|by apply holds_interruptible]. intros [] me1 s1 w1 Hs1 [Hr1 Hh1].
  apply holds_bind; [exact _|]. eapply holds_mono; [|by apply holds_block]. intros [] me2 s2 w2 Hs2 [Hr2 Hh2].
  apply holds_ret; [exact _ | done|]. apply HQ; [done | by etrans | done].
Qed.
End either.

Lemma kern_current me s : kernp current me s = Returned (running_on (ps_kernel s) me) me s.
Proof. by destruct s. Qed.

Lemma holds_read_bytes fuel t count me w s :
  stream w s -> runs_here t me s -> 0 <= count ->
  holds stream writes reads (fun '(all, read) me s' w' =>
    runs_here t me s' /\ Z.of_nat (length read) <= count /\
    if (all : bool) then Z.of_nat (length read) = count /\ w'.2 = w.2 ++ read else w'.2 = w.2 ++ read ++ [EOT]) w (read_loop_bytes deliver fuel t count me s).
Proof.
  intros Hs Hr Hc. eapply (holds_loop stream writes reads _ _ (fun read me s' w' => runs_here t me s' /\ Z.of_nat (length read) <= count /\ w'.2 = w.2 ++ read));
    [done | by rewrite app_nil_r|]. clear me s Hs Hr. intros read me s w1 Hs (Hr & Hlen & Ew).
  destruct (Z.leb_spec count (Z.of_nat (length read))); [apply holds_ret; [exact _ | done|]; split; [done|]; split; [lia|]; split; [lia | done]|].
  apply holds_bind; [exact _|]. eapply holds_mono; [|by apply holds_interruptible; try exact _]. intros [] me2 s2 w2 Hs2 [[_ Er2] Hh2].
  destruct (here_live t me2 w2 s2 Hs2 Hh2) as [x Hx]. apply holds_step; [exact _|]. eapply wp_mono; [by apply (wp_take t x w2)|].
  intros r s3 (w3 & Hg & Hs3 & Hcalm & Htook). exists w3. split; [done|]. split; [done|]. pose proof (here_calm t me2 s2 s3 Hcalm Hh2) as Hh3.
  destruct r as [| |c]; cbn [took] in Htook; [done| |].
  - subst w3. apply holds_sleep; [exact _ | exact _ | done|]. intros me4 s4 w4 Hs4 [_ Er4] Hh4. split; [done|]. split; [done|]. by rewrite Er4, Er2.
  - subst w3. destruct (Z.eqb_spec c EOT) as [->|Hne]; (apply holds_ret; [exact _ | done|]); (split; [done|]).
    + split; [done|]. simpl. by rewrite Er2, Ew, <- app_assoc.
    + split; [rewrite length_app; simpl; lia|]. simpl. by rewrite Er2, Ew, <- app_assoc.
Qed.

Lemma holds_read fuel t count me w s :
  stream w s -> runs_here t me s -> 0 <= count < 2 ^ 31 ->
  holds stream writes reads (fun '(v, read) _ _ w' =>
    v = Z.of_nat (length read) /\ ((v = count /\ w'.2 = w.2 ++ read) \/ w'.2 = w.2 ++ read ++ [EOT])) w (pipe_read deliver fuel count me s).
Proof.
  intros Hs Hr Hc. apply holds_bind; [exact _|]. rewrite kern_current, Hr. exists w. split; [done|]. split; [done|]. apply holds_bind; [exact _|]. eapply holds_mono; [|apply holds_read_bytes; [done | done | lia]].
  intros [all read] me1 s1 w1 Hs1 (Hh1 & Hlen & Hend). apply holds_bind; [exact _|]. destruct all.
  - apply holds_bind; [exact _|]. eapply holds_mono; [|by apply holds_interruptible; try exact _]. intros [] me2 s2 w2 Hs2 [[_ Er2] Hh2].
    destruct (wp_wake_section _ w2 s2 wp_wake_writers Hs2) as ([] & s3 & E & Hs3 & _). unfold atomic. rewrite E. exists w2. split; [done|]. split; [done|].
    apply holds_ret; [exact _ | done|]. rewrite to_s32_id by lia. split; [done|]. left. rewrite Er2. exact Hend.
  - apply holds_ret; [exact _ | done|]. apply holds_ret; [exact _ | done|]. rewrite to_s32_id by lia. split; [done|]. by right.
Qed.

Lemma holds_write_loop_bytes fuel t buf me w s :
  stream w s -> runs_here t me s -> w.1 ++ buf `prefix_of` total ->
  holds stream reads writes (fun _ me s' w' => runs_here t me s' /\ w'.1 = w.1 ++ buf) w (write_loop_bytes deliver fuel t buf me s).
Proof.
  intros Hs Hr Hpre. eapply (holds_loop stream reads writes _ _ (fun rest me s' w' => runs_here t me s' /\ w'.1 ++ rest = w.1 ++ buf)); [done | done|].
  clear me s Hs Hr. intros rest me s w1 Hs (Hr & Ew). destruct rest as [|c rest]; [apply holds_ret; [exact _ | done|]; split; [done | by rewrite app_nil_r in Ew]|].
  apply holds_bind; [exact _|]. eapply holds_mono; [|by apply holds_interruptible; try exact _]. intros [] me2 s2 w2 Hs2 [[Er2 _] Hh2].
  destruct (here_live t me2 w2 s2 Hs2 Hh2) as [x Hx]. apply holds_step; [exact _|].
  eapply wp_mono; [apply (wp_put t x c w2); [done | done | rewrite Er2; etrans; [|exact Hpre]; rewrite <- Ew; exists rest; by rewrite <- app_assoc]|].
  intros r s3 (w3 & Hg & Hs3 & Hcalm & Hput). exists w3. split; [done|]. split; [done|]. pose proof (here_calm t me2 s2 s3 Hcalm Hh2) as Hh3. destruct r; subst w3.
  - apply holds_ret; [exact _ | done|]. split; [done|]. simpl. rewrite Er2, <- Ew, <- app_assoc. done.
  - apply holds_sleep; [exact _ | exact _ | done|]. intros me4 s4 w4 Hs4 [Er4 _] Hh4. split; [done|]. by rewrite Er4, Er2.
Qed.

Lemma holds_write fuel t buf me w s :
  stream w s -> runs_here t me s -> w.1 ++ buf `prefix_of` total -> Z.of_nat (length buf) < 2 ^ 31 ->
  holds stream reads writes (fun '(v, _) _ _ w' => v = Z.of_nat (length buf) /\ w'.1 = w.1 ++ buf) w (pipe_write deliver fuel buf me s).
Proof.
  intros Hs Hr Hpre Hlen. apply holds_bind; [exact _|]. rewrite kern_current, Hr. exists w. split; [done|]. split; [done|]. apply holds_bind; [exact _|]. eapply holds_mono; [|by apply holds_write_loop_bytes].
  intros [] me1 s1 w1 Hs1 (Hh1 & Ew1). apply holds_bind; [exact _|]. eapply holds_mono; [|by apply holds_interruptible; try exact _].
  intros [] me2 s2 w2 Hs2 [[Er2 _] Hh2]. apply holds_step; [exact _|]. eapply wp_mono; [apply (wp_wake_section _ w2 s2 wp_wake_readers Hs2)|].
  intros [] s3 [Hs3 _]. exists w2. split; [done|]. split; [done|]. apply holds_ret; [exact _ | done|]. rewrite to_s32_id by lia. split; [done|]. by rewrite Er2.
Qed.
End threads.
End stream.

(** ** A writer and a reader *)

(** The writer is thread 0 of the pool, the reader thread 1. *)
Definition relies (i : nat) (w w' : world) : Prop := match i with 0%nat => reads w w' | 1%nat => writes w w' | _ => True end.
Definition guarantees (i : nat) (w w' : world) : Prop := match i with 0%nat => writes w w' | 1%nat => reads w w' | _ => w = w' end.

(** A pipe that is open for writing and holds the bytes [q]. *)
Definition pipe_holding (q : list Z) (s : pstate) : Prop :=
  exists p, ps_pipe s = Some p /\ pi_lock p = false /\ 0 < num_writers p /\ rrep (buffer p) q.

(** What delivering signals is relied on for. *)
Definition delivers (rank : Z -> nat) (deliver : KP unit) : Prop :=
  forall me k, kernel_ok rank k -> safe (kernel_ok rank) (same_thread (running_on k me)) (deliver me k).

Lemma prefix_take (l k : list Z) : l `prefix_of` k -> l = take (length l) k.
Proof. intros [m ->]. by rewrite take_app_length. Qed.

Lemma pipe_pool rank deliver fuel tw tr buf count choices s :
  delivers rank deliver -> kernel_ok rank (ps_kernel s) -> pipe_holding [] s ->
  Z.of_nat (length buf) < 2 ^ 31 -> 0 <= count < 2 ^ 31 ->
  exists pool s' w, play choices [Runnable (thread_of tw (pipe_write deliver fuel buf)); Runnable (thread_of tr (pipe_read deliver fuel count))] s = Some (pool, s') /\
    stream rank buf w s' /\
    (forall v r, pool !! 0%nat = Some (Done (v, r)) -> v = Z.of_nat (length buf) /\ w.1 = buf) /\
    (forall v r, pool !! 1%nat = Some (Done (v, r)) -> v = Z.of_nat (length r) /\ ((v = count /\ w.2 = r) \/ w.2 = r ++ [EOT])).
Proof.
  intros Hdel Hok (p & Hp & Hl & Hw & Hq) Hbuf Hcount.
  set (Q := fun i '(v, r) (w : world) =>
    match i with
    | 0%nat => v = Z.of_nat (length buf) /\ w.1 = buf
    | 1%nat => v = Z.of_nat (length r) /\ ((v = count /\ w.2 = r) \/ w.2 = r ++ [EOT])
    | _ => True
    end : Prop).
  destruct (play_sound (stream rank buf) relies guarantees Q) with (choices := choices) (w := ([], []) : world) (s := s)
    (pool := [Runnable (thread_of tw (pipe_write deliver fuel buf)); Runnable (thread_of tr (pipe_read deliver fuel count))])
    as (pool & s' & w' & E & HI & Hpool).
  - intros [|[|i]]; [exact _ | exact _ | by split].
  - intros [|[|i]] [|[|j]] w w' Hne; simpl; try done; by intros ->.
  - intros [|[|i]] [v r] w w'; simpl; [by intros [-> _] | by intros [_ ->] | done].
  - split; [done|]. split; [apply prefix_nil|]. exists p. split; [done|]. split; [done|]. split; [done|]. by exists [].
  - intros i x Hx. destruct i as [|[|i]]; [| |done]; injection Hx as <-; intros w2 me s2 Hr Hs2; apply holds_bind; try exact _;
      (eapply holds_mono; [|apply (holds_resume rank buf); [exact _ | exact _ | done | by intros ? ? ?]]).
    + intros [] me3 s3 w3 Hs3 [Hr3 Hh3]. destruct Hr as [E1 _]. destruct Hr3 as [E3 _]. simpl in E1. rewrite E1 in E3.
      eapply holds_mono; [|apply (holds_write rank buf deliver Hdel fuel tw buf me3 w3 s3 Hs3 Hh3); [by rewrite E3 | done]].
      intros [v r] me4 s4 w4 _ [-> E4]. split; [done|]. by rewrite E4, E3.
    + intros [] me3 s3 w3 Hs3 [Hr3 Hh3]. destruct Hr as [_ E1]. destruct Hr3 as [_ E3]. simpl in E1. rewrite E1 in E3.
      eapply holds_mono; [|by apply (holds_read rank buf deliver Hdel fuel tr count me3 w3 s3 Hs3 Hh3)].
      intros [v r] me4 s4 w4 _ [-> E4]. rewrite E3 in E4. by split.
  - exists pool, s', w'. split; [done|]. split; [done|]. split; intros v r Hx; apply (Hpool _ _ Hx).
Qed.

(** ** Properties *)

(** Thread 2 runs on CPU 0 and thread 0 on CPU 1. *)
Definition demo_two : kstate := match scheduler_tick 1 demo_system with Ok (_, s) => s | _ => demo_system end.

Lemma demo_two_ok : kernel_ok demo_rank demo_two.
Proof.
  assert (Hd : delivers demo_rank (mret tt)) by (intros me k Hk; by split).
  pose proof (safe_yield demo_rank (mret tt) Hd 1%nat demo_system demo_kernel_ok) as Hs. unfold schedule_yield in Hs. unfold demo_two.
  destruct (scheduler_tick 1 demo_system) as [[[[old next]|] s]| | |]; [by destruct Hs | by destruct Hs | done..].
Qed.

(** They share an empty pipe with room for four bytes. *)
Definition demo_pipe : pstate := mkPs demo_two (Some (mkPipe 1 1 (create_ring_buffer (fun _ => true) 4) [] [] false)).

Definition demo_writer : PP (Z * list Z) := thread_of 2 (pipe_write (mret tt) 10 [10; 20; 30]).
Definition demo_reader (count : Z) : PP (Z * list Z) := thread_of 0 (pipe_read (mret tt) 10 count).

Lemma demo_pipe_holding : pipe_holding [] demo_pipe.
Proof. eexists. split; [reflexivity|]. split; [done|]. split; [simpl; lia|]. apply rrep_create; [lia | done]. Qed.



(** The reader finds the pipe empty; before it blocks, the writer runs to its end. *)
Definition lost_schedule : list (nat * nat) := [(1, 1); (1, 1)]%nat ++ repeat (0, 0)%nat 6 ++ [(1, 1)]%nat.

