(* ===== verification/Timer.v ===== *)
(** * Software timers: kernel/timer/timer.c

    One hardware timer per CPU drives 64 shared software timers and one local
    timer per CPU.  The counter runs on its own: [tm_counter] gives the value of
    each time it is read, as an unbounded number of which the registers hold the
    low 64 bits.  Writing CNTP_TVAL sets the compare value of the CPU to the
    counter plus the written 32 bits taken as a signed number.

    The handler of the timer interrupt returns the calls it makes after it has
    released the lock. *)

From S2P Require Import Prelude Errors Services Programs Tasks Sched Threads Interleaving.

Definition MAX_SOFTWARE_TIMERS : nat := 64.
Definition TIMER_MAX_TVAL : Z := 0xffffffff.

(** Handlers are addresses, 0 being NULL. *)
Record software_timer := mkTimer {
  tm_active : bool;
  tm_deadline : Z;
  tm_handler : Z;
  tm_ctx : Z
}.

Definition set_active (v : bool) (x : software_timer) : software_timer := mkTimer v (tm_deadline x) (tm_handler x) (tm_ctx x).

(** The timer registers of a CPU: CNTP_CTL's enable bit and the compare value. *)
Record cntp := mkCntp {
  cp_enabled : bool;
  cp_cval : Z
}.

Record tstate := mkT {
  timer_ticks : Z;
  timer_frequency : Z;
  timer_lock : bool;
  software_timers : list software_timer;
  local_timers : list software_timer;
  tm_cntp : list cntp;
  tm_counter : nat -> Z;
  tm_cntfrq : Z
}.

Definition set_ticks (v : Z) (x : tstate) : tstate := mkT v (timer_frequency x) (timer_lock x) (software_timers x) (local_timers x) (tm_cntp x) (tm_counter x) (tm_cntfrq x).
Definition set_frequency (v : Z) (x : tstate) : tstate := mkT (timer_ticks x) v (timer_lock x) (software_timers x) (local_timers x) (tm_cntp x) (tm_counter x) (tm_cntfrq x).
Definition set_timer_lock (v : bool) (x : tstate) : tstate := mkT (timer_ticks x) (timer_frequency x) v (software_timers x) (local_timers x) (tm_cntp x) (tm_counter x) (tm_cntfrq x).
Definition set_software (v : list software_timer) (x : tstate) : tstate := mkT (timer_ticks x) (timer_frequency x) (timer_lock x) v (local_timers x) (tm_cntp x) (tm_counter x) (tm_cntfrq x).
Definition set_locals (v : list software_timer) (x : tstate) : tstate := mkT (timer_ticks x) (timer_frequency x) (timer_lock x) (software_timers x) v (tm_cntp x) (tm_counter x) (tm_cntfrq x).
Definition set_cntp (v : list cntp) (x : tstate) : tstate := mkT (timer_ticks x) (timer_frequency x) (timer_lock x) (software_timers x) (local_timers x) v (tm_counter x) (tm_cntfrq x).
Definition set_counter (v : nat -> Z) (x : tstate) : tstate := mkT (timer_ticks x) (timer_frequency x) (timer_lock x) (software_timers x) (local_timers x) (tm_cntp x) v (tm_cntfrq x).

Abbreviation TM := (stM tstate).

Definition lock_timers : TM unit := spin_lock timer_lock set_timer_lock.
Definition unlock_timers : TM unit := spin_unlock set_timer_lock.

(** ** Registers *)

(** The counter, before it is cut to 64 bits. *)
Definition read_counter : TM Z := fun s => Ok (tm_counter s 0%nat, set_counter (fun n => tm_counter s (S n)) s).

Definition read_cntfrq_el0 : TM Z := fetch tm_cntfrq.
Definition read_cntpct_el0 : TM Z := now ← read_counter; mret (to_u64 now).

Definition upd_cntp (me : nat) (f : cntp -> cntp) : TM unit := modify (fun s => set_cntp (alter f me (tm_cntp s)) s).

Definition write_cntp_tval_el0 (me : nat) (value : Z) : TM unit :=
  now ← read_counter; upd_cntp me (fun c => mkCntp (cp_enabled c) (now + to_s32 value)).

Definition write_cntp_ctl_el0 (me : nat) (value : Z) : TM unit := upd_cntp me (fun c => mkCntp (Z.testbit value 0) (cp_cval c)).

(** ** Time *)

Definition ms_ticks (frequency milliseconds : Z) : Z :=
  to_u64 (to_u64 (frequency / 1000 * milliseconds) + to_u64 (frequency mod 1000 * milliseconds) / 1000).

Definition timer_ms_to_counter_ticks (milliseconds : Z) : TM Z :=
  frequency ← fetch timer_frequency;
  frequency ← (if frequency =? 0 then f ← read_cntfrq_el0; _ ← modify (set_frequency f); mret f else mret frequency);
  let ticks := ms_ticks frequency milliseconds in
  mret (if ticks =? 0 then 1 else ticks).

(** [(int64_t)(a - b)] of two 64-bit values *)
Definition diff (a b : Z) : Z := to_s64 (to_u64 (a - b)).

(** ** Programming the hardware timer *)

(** The loop over the timers; [None] is [found == 0]. *)
Fixpoint earliest (l : list software_timer) (next : option Z) : option Z :=
  match l with
  | [] => next
  | x :: l =>
      if negb (tm_active x) then earliest l next else
      match next with
      | None => earliest l (Some (tm_deadline x))
      | Some d => earliest l (Some (if diff (tm_deadline x) d <? 0 then tm_deadline x else d))
      end
  end.

Definition local_timer (me : nat) (s : tstate) : option software_timer :=
  match local_timers s !! me with Some x => if tm_active x then Some x else None | None => None end.

Definition timer_rearm_locked (me : nat) : TM unit :=
  now ← read_cntpct_el0;
  local ← fetch (local_timer me);
  l ← fetch software_timers;
  match earliest l (tm_deadline <$> local) with
  | None => write_cntp_ctl_el0 me 0
  | Some next_deadline =>
      let delay := if 0 <? diff next_deadline now then to_u64 (next_deadline - now) else 1 in
      let delay := if TIMER_MAX_TVAL <? delay then TIMER_MAX_TVAL else delay in
      _ ← write_cntp_tval_el0 me (to_u32 delay);
      write_cntp_ctl_el0 me 1
  end.

(** ** The interrupt *)

Definition expired (now : Z) (x : software_timer) : bool := tm_active x && (0 <=? diff now (tm_deadline x)).

Definition timer_irq_handler (me : nat) : TM (list (Z * Z)) :=
  _ ← write_cntp_ctl_el0 me 0;
  _ ← lock_timers;
  _ ← modify (fun s => set_ticks (to_u64 (timer_ticks s + 1)) s);
  now ← read_cntpct_el0;
  locals ← fetch local_timers;
  let local_call := match locals !! me with Some x => if expired now x then [(tm_handler x, tm_ctx x)] else [] | None => [] end in
  _ ← modify (set_locals (alter (fun x => if expired now x then set_active false x else x) me locals));
  l ← fetch software_timers;
  let calls := (fun x => (tm_handler x, tm_ctx x)) <$> filter (fun x => expired now x = true) l in
  _ ← modify (set_software ((fun x => if expired now x then set_active false x else x) <$> l));
  _ ← timer_rearm_locked me;
  _ ← unlock_timers;
  mret (filter (fun c => c.1 <> 0) (local_call ++ calls)).

(** ** Starting and stopping timers *)

Definition timer_init (me : nat) : TM unit :=
  _ ← write_cntp_ctl_el0 me 0;
  f ← read_cntfrq_el0;
  _ ← modify (set_frequency f);
  _ ← modify (fun s => set_software (set_active false <$> software_timers s) s);
  _ ← modify (fun s => set_locals (set_active false <$> local_timers s) s);
  _ ← write_cntp_ctl_el0 me 0;
  f ← fetch timer_frequency;
  if f =? 0 then f ← read_cntfrq_el0; modify (set_frequency f) else mret tt.

Definition timer_init_cpu (me : nat) : TM unit :=
  _ ← write_cntp_ctl_el0 me 0;
  f ← fetch timer_frequency;
  if f =? 0 then f ← read_cntfrq_el0; modify (set_frequency f) else mret tt.

Definition timer_get_ticks : TM Z := _ ← lock_timers; t ← fetch timer_ticks; _ ← unlock_timers; mret t.
Definition timer_get_frequency : TM Z := fetch timer_frequency.

Fixpoint free_slot (l : list software_timer) (i : nat) : option nat :=
  match l with
  | [] => None
  | x :: l => if tm_active x then free_slot l (S i) else Some i
  end.

Definition timer_schedule_interrupt_ms (me : nat) (milliseconds handler ctx : Z) : TM Z :=
  if handler =? 0 then mret (-1) else
  delay_ticks ← timer_ms_to_counter_ticks milliseconds;
  _ ← lock_timers;
  l ← fetch software_timers;
  match free_slot l 0 with
  | None => _ ← unlock_timers; mret (-1)
  | Some slot =>
      now ← read_cntpct_el0;
      _ ← modify (set_software (<[slot := mkTimer true (to_u64 (now + delay_ticks)) handler ctx]> l));
      _ ← timer_rearm_locked me;
      _ ← unlock_timers;
      mret 0
  end.

Definition timer_schedule_local_interrupt_ms (me : nat) (milliseconds handler ctx : Z) : TM Z :=
  if handler =? 0 then mret (-1) else
  if (MAX_CPUS <=? me)%nat then mret (-1) else
  _ ← lock_timers;
  now ← read_cntpct_el0;
  delay_ticks ← timer_ms_to_counter_ticks milliseconds;
  _ ← modify (fun s => set_locals (<[me := mkTimer true (to_u64 (now + delay_ticks)) handler ctx]> (local_timers s)) s);
  _ ← timer_rearm_locked me;
  _ ← unlock_timers;
  mret 0.

Definition timer_cancel_interrupt (me : nat) : TM unit :=
  _ ← lock_timers;
  _ ← modify (fun s => set_software (set_active false <$> software_timers s) s);
  _ ← modify (fun s => set_locals (alter (set_active false) me (local_timers s)) s);
  _ ← timer_rearm_locked me;
  unlock_timers.

(** The busy loop of [timer_delay_ms]; without fuel it has not come to its end. *)
Fixpoint spin_until (fuel : nat) (deadline : Z) : TM bool :=
  match fuel with
  | O => mret false
  | S fuel => now ← read_cntpct_el0; if diff now deadline <? 0 then spin_until fuel deadline else mret true
  end.

Definition timer_delay_ms (fuel : nat) (milliseconds : Z) : TM bool :=
  frequency ← fetch timer_frequency;
  frequency ← (if frequency =? 0 then read_cntfrq_el0 else mret frequency);
  now ← read_cntpct_el0;
  spin_until fuel (to_u64 (now + ms_ticks frequency milliseconds)).

(** ** Deadlines as times *)

(** Comparing two times by their low 64 bits. *)
Lemma diff_spec a b : - 2 ^ 63 <= a - b < 2 ^ 63 -> diff (to_u64 a) (to_u64 b) = a - b.
Proof.
  intros Hab. unfold diff, to_s64, to_u64, wrap. rewrite <- Zminus_mod, Zplus_mod_idemp_l. rewrite Z.mod_small; lia.
Qed.

(** The result of the conversion is exact, rounded down. *)
Lemma ms_ticks_spec f ms : 0 <= f -> 0 <= ms -> f * ms < 2 ^ 64 -> ms_ticks f ms = f * ms / 1000.
Proof.
  intros Hf Hms Hb. unfold ms_ticks, to_u64, wrap. pose proof (Z.div_mod f 1000 ltac:(lia)) as E. pose proof (Z.mod_pos_bound f 1000 ltac:(lia)).
  pose proof (Z.div_pos f 1000 Hf ltac:(lia)). assert (0 <= f / 1000 * ms <= f * ms) by nia. assert (0 <= f mod 1000 * ms <= f * ms) by nia.
  rewrite (Z.mod_small (f / 1000 * ms)), (Z.mod_small (f mod 1000 * ms)) by lia.
  assert (Efm : f * ms / 1000 = f / 1000 * ms + f mod 1000 * ms / 1000).
  { rewrite E at 1. replace ((1000 * (f / 1000) + f mod 1000) * ms) with (f mod 1000 * ms + f / 1000 * ms * 1000) by lia. rewrite Z.div_add by lia. lia. }
  rewrite <- Efm. apply Z.mod_small. split; [apply Z.div_pos; nia | apply Z.div_lt_upper_bound; lia].
Qed.

(** A timer that runs: when it is due, whom it calls. *)
Record entry := mkEntry {
  e_time : Z;
  e_handler : Z;
  e_ctx : Z
}.

Definition slot_rep (e : option entry) (x : software_timer) : Prop :=
  match e with
  | None => tm_active x = false
  | Some e => e_handler e <> 0 /\ x = mkTimer true (to_u64 (e_time e)) (e_handler e) (e_ctx e)
  end.

Abbreviation timers_rep := (Forall2 slot_rep).

(** All deadlines are near the time [now], in the past or in the future. *)
Definition near (now : Z) (e : option entry) : Prop := forall x, e = Some x -> - 2 ^ 61 <= e_time x - now <= 2 ^ 61.

(** Due at [now]. *)
Definition due (now : Z) (e : option entry) : bool := match e with Some x => e_time x <=? now | None => false end.

Definition call_of (e : option entry) : option (Z * Z) := (fun x => (e_handler x, e_ctx x)) <$> e.

(** The calls that the timers [l] make at [now], and the timers that are left. *)
Definition fires (now : Z) (l : list (option entry)) : list (Z * Z) := omap call_of (filter (fun e => due now e = true) l).
Definition rest (now : Z) (e : option entry) : option entry := if due now e then None else e.

Definition min_time (next : option Z) (e : option entry) : option Z :=
  match e, next with
  | None, _ => next
  | Some x, None => Some (e_time x)
  | Some x, Some d => Some (Z.min (e_time x) d)
  end.

(** The first deadline of all. *)
Definition first_time (next : option Z) (l : list (option entry)) : option Z := fold_left min_time l next.

Lemma earliest_spec now es l next :
  timers_rep es l -> Forall (near now) es -> (forall d, next = Some d -> - 2 ^ 61 <= d - now <= 2 ^ 61) ->
  earliest l (to_u64 <$> next) = to_u64 <$> first_time next es.
Proof.
  intros Hr. revert next. induction Hr as [|e x es l He Hr IH]; intros next Hn Hd; [done|]. apply Forall_cons in Hn as [Hne Hn]. cbn [earliest].
  destruct e as [e|]; cbn [slot_rep] in He; [|rewrite He; by apply IH]. destruct He as [_ ->]. specialize (Hne e eq_refl).
  destruct next as [d|]; simpl.
  - specialize (Hd d eq_refl). rewrite diff_spec by lia. replace (if _ <? 0 then _ else _) with (to_u64 (Z.min (e_time e) d)) by (destruct (Z.ltb_spec (e_time e - d) 0); f_equal; lia).
    apply (IH (Some (Z.min (e_time e) d))); [done|]. intros d' [= <-]. lia.
  - apply (IH (Some (e_time e))); [done|]. intros d' [= <-]. lia.
Qed.

Lemma first_time_near now es next :
  Forall (near now) es -> (forall d, next = Some d -> - 2 ^ 61 <= d - now <= 2 ^ 61) -> forall d, first_time next es = Some d -> - 2 ^ 61 <= d - now <= 2 ^ 61.
Proof.
  intros Hn. revert next. induction Hn as [|e es He Hn IH]; intros next Hd; [done|]. apply IH. intros d. destruct e as [x|]; [|apply Hd].
  specialize (He x eq_refl). destruct next as [d'|]; intros [= <-]; [specialize (Hd d' eq_refl); lia | lia].
Qed.

(** It is not later than any of the deadlines. *)
Lemma first_time_le es next e : Some e ∈ es -> exists d, first_time next es = Some d /\ d <= e_time e.
Proof.
  intros Hin. assert (Hmono : forall l d, exists d', first_time (Some d) l = Some d' /\ d' <= d).
  { induction l as [|[x|] l IH]; intros d; [by exists d| |apply IH]. destruct (IH (Z.min (e_time x) d)) as (d' & E & ?). exists d'. split; [done | lia]. }
  revert next. induction es as [|x es IH]; intros next; [by apply elem_of_nil in Hin|]. apply elem_of_cons in Hin as [<-|Hin]; [|by apply IH].
  destruct next as [d|]; simpl.
  - destruct (Hmono es (Z.min (e_time e) d)) as (d' & E & ?). exists d'. split; [done | lia].
  - apply Hmono.
Qed.

(** ** The compare register *)

Definition arm_delay (now d : Z) : Z := Z.min (Z.max 1 (d - now)) TIMER_MAX_TVAL.

(** The registers of a CPU that was set at time [at_] for the deadline [next],
    the counter having been read at [now]. *)
Definition armed (now at_ : Z) (next : option Z) (c : cntp) : Prop :=
  match next with
  | None => cp_enabled c = false
  | Some d => cp_enabled c = true /\ cp_cval c = at_ + to_s32 (arm_delay now d)
  end.

Lemma delay_spec now d :
  - 2 ^ 61 <= d - now <= 2 ^ 61 ->
  to_u32 (let delay := if 0 <? diff (to_u64 d) (to_u64 now) then to_u64 (to_u64 d - to_u64 now) else 1 in
          if TIMER_MAX_TVAL <? delay then TIMER_MAX_TVAL else delay) = arm_delay now d.
Proof.
  intros Hd. unfold arm_delay, TIMER_MAX_TVAL. rewrite diff_spec by lia. cbv zeta.
  assert (E : (if 0 <? d - now then to_u64 (to_u64 d - to_u64 now) else 1) = Z.max 1 (d - now)).
  { destruct (Z.ltb_spec 0 (d - now)); [|lia]. unfold to_u64, wrap. rewrite <- Zminus_mod, Z.mod_small; lia. }
  rewrite E. destruct (Z.ltb_spec 0xffffffff (Z.max 1 (d - now))); rewrite to_u32_small; lia.
Qed.

(** The local timer of a CPU. *)
Definition own (el : list (option entry)) (me : nat) : option entry := mjoin (el !! me).

Definition next_time (es el : list (option entry)) (me : nat) : option Z := first_time (e_time <$> own el me) es.

Lemma local_timer_spec el me s : timers_rep el (local_timers s) -> tm_deadline <$> local_timer me s = to_u64 <$> (e_time <$> own el me).
Proof.
  intros Hr. unfold local_timer, own. destruct (el !! me) as [e|] eqn:Ee.
  - destruct (Forall2_lookup_l _ _ _ _ _ Hr Ee) as (x & -> & He). destruct e as [e|]; cbn [slot_rep] in He; simpl.
    + by destruct He as [_ ->].
    + by rewrite He.
  - rewrite (lookup_ge_None_2 (local_timers s)); [done|]. rewrite <- (Forall2_length _ _ _ Hr). by apply lookup_ge_None.
Qed.

(** Only the registers of [me] and the counter change. *)
Definition rearmed (me : nat) (next : option Z) (s s' : tstate) : Prop :=
  exists c k, s' = set_counter k (set_cntp (<[me := c]> (tm_cntp s)) s) /\ armed (tm_counter s 0) (tm_counter s 1) next c.

Lemma wp_counter (Q : Z -> tstate -> Prop) s : Q (tm_counter s 0) (set_counter (fun n => tm_counter s (S n)) s) -> wp read_counter Q s.
Proof. intros HQ. by eexists _, _. Qed.

Lemma wp_read_cntpct (Q : Z -> tstate -> Prop) s : Q (to_u64 (tm_counter s 0)) (set_counter (fun n => tm_counter s (S n)) s) -> wp read_cntpct_el0 Q s.
Proof. intros HQ. by apply wp_bind, wp_counter, wp_ret. Qed.

Lemma alter_insert {A} (f : A -> A) (i : nat) (l : list A) x : l !! i = Some x -> alter f i l = <[i := f x]> l.
Proof. revert i. induction l as [|y l IH]; intros [|i]; simpl; [done | done | by intros [= ->] |]. intros Hx. f_equal. by apply IH. Qed.

Lemma wp_ctl me v c (Q : unit -> tstate -> Prop) s :
  tm_cntp s !! me = Some c -> Q tt (set_cntp (<[me := mkCntp (Z.testbit v 0) (cp_cval c)]> (tm_cntp s)) s) -> wp (write_cntp_ctl_el0 me v) Q s.
Proof. intros Hc HQ. apply wp_modify. rewrite (alter_insert _ _ _ c) by done. exact HQ. Qed.

Lemma wp_tval me v c (Q : unit -> tstate -> Prop) s :
  tm_cntp s !! me = Some c ->
  Q tt (set_cntp (<[me := mkCntp (cp_enabled c) (tm_counter s 0 + to_s32 v)]> (tm_cntp s)) (set_counter (fun n => tm_counter s (S n)) s)) ->
  wp (write_cntp_tval_el0 me v) Q s.
Proof. intros Hc HQ. apply wp_bind, wp_counter, wp_modify. rewrite (alter_insert _ _ _ c) by done. exact HQ. Qed.

Lemma wp_rearm me es el c (Q : unit -> tstate -> Prop) s :
  timers_rep es (software_timers s) -> timers_rep el (local_timers s) -> Forall (near (tm_counter s 0)) es -> near (tm_counter s 0) (own el me) ->
  tm_cntp s !! me = Some c -> (forall s', rearmed me (next_time es el me) s s' -> Q tt s') -> wp (timer_rearm_locked me) Q s.
Proof.
  intros Hes Hel Hnear Hown Hc HQ. apply wp_bind, wp_read_cntpct. set (now := tm_counter s 0). apply wp_bind, wp_fetch. apply wp_bind, wp_fetch.
  assert (Hd : forall d, e_time <$> own el me = Some d -> - 2 ^ 61 <= d - now <= 2 ^ 61).
  { intros d Hd. destruct (own el me) as [e|]; [|done]. injection Hd as <-. by apply Hown. }
  change (local_timer me _) with (local_timer me s). cbn [software_timers set_counter]. rewrite (local_timer_spec el me s Hel), (earliest_spec now es _ _ Hes Hnear Hd).
  fold (next_time es el me). destruct (next_time es el me) as [d|] eqn:En; cbn [fmap option_fmap option_map].
  - assert (Hnd : - 2 ^ 61 <= d - now <= 2 ^ 61) by (by apply (first_time_near now es (e_time <$> own el me))).
    pose proof (delay_spec now d Hnd) as Ed. cbv zeta in Ed |- *. rewrite Ed. apply wp_bind, (wp_tval me _ c); [done|]. eapply wp_ctl; [by apply list_lookup_insert_eq, lookup_lt_Some with c|].
    apply HQ. eexists _, _. split; [simpl; by rewrite list_insert_insert_eq|]. by split.
  - eapply wp_ctl; [exact Hc|]. apply HQ. eexists _, _. by split.
Qed.

(** ** What the operations do *)

(** The timers of the system: [es] are the shared ones, [el] the local ones. *)
Definition timers (es el : list (option entry)) (s : tstate) : Prop :=
  timer_lock s = false /\ timers_rep es (software_timers s) /\ timers_rep el (local_timers s).

(** The first [n] readings of the counter are in order, and all deadlines are near them. *)
Definition on_time (n : nat) (es el : list (option entry)) (me : nat) (s : tstate) : Prop :=
  (forall i, (S i < n)%nat -> tm_counter s i <= tm_counter s (S i)) /\
  (forall i, (i < n)%nat -> Forall (near (tm_counter s i)) es /\ near (tm_counter s i) (own el me)).

Lemma expired_spec now e x : slot_rep e x -> near now e -> expired (to_u64 now) x = due now e.
Proof.
  intros Hr Hn. unfold expired. destruct e as [e|]; cbn [slot_rep] in Hr; simpl; [|by rewrite Hr]. destruct Hr as [_ ->]. specialize (Hn e eq_refl). simpl.
  rewrite diff_spec by lia. destruct (Z.leb_spec 0 (now - e_time e)), (Z.leb_spec (e_time e) now); done || lia.
Qed.

(** A timer that is due is switched off. *)
Lemma rest_rep now e x : slot_rep e x -> near now e -> slot_rep (rest now e) (if expired (to_u64 now) x then set_active false x else x).
Proof. intros Hr Hn. rewrite (expired_spec now e) by done. unfold rest. by destruct (due now e). Qed.

Lemma rest_near now now' e : near now' e -> near now' (rest now e).
Proof. intros Hn. unfold rest. by destruct (due now e). Qed.

Lemma rests_rep now es l :
  timers_rep es l -> Forall (near now) es -> timers_rep (rest now <$> es) ((fun x => if expired (to_u64 now) x then set_active false x else x) <$> l).
Proof. intros Hr Hn. induction Hr as [|e x es l He Hr IH]; [constructor|]. apply Forall_cons in Hn as [Hne Hn]. constructor; [by apply rest_rep | by apply IH]. Qed.

Lemma fires_spec now es l :
  timers_rep es l -> Forall (near now) es ->
  (fun x => (tm_handler x, tm_ctx x)) <$> filter (fun x => expired (to_u64 now) x = true) l = fires now es.
Proof.
  intros Hr Hn. unfold fires. induction Hr as [|e x es l He Hr IH]; [done|]. apply Forall_cons in Hn as [Hne Hn]. rewrite !filter_cons, (expired_spec now e) by done.
  destruct (due now e) eqn:Ed; simpl; [|by apply IH]. destruct e as [e|]; [|done]. destruct He as [_ ->]. simpl. f_equal. by apply IH.
Qed.

Lemma fires_handlers now es l : timers_rep es l -> Forall (fun c => c.1 <> 0) (fires now es).
Proof.
  intros Hr. unfold fires. induction Hr as [|e x es l He Hr IH]; [constructor|]. rewrite filter_cons. case_decide; [|done]. simpl.
  destruct e as [e|]; simpl; [|done]. constructor; [apply He | done].
Qed.

(** The local timer that is due, as a list. *)
Lemma own_fires now el l me :
  timers_rep el l -> near now (own el me) ->
  match l !! me with Some x => if expired (to_u64 now) x then [(tm_handler x, tm_ctx x)] else [] | None => [] end = fires now [own el me].
Proof.
  intros Hr Hn. unfold fires, own in *. destruct (el !! me) as [e|] eqn:Ee.
  - destruct (Forall2_lookup_l _ _ _ _ _ Hr Ee) as (x & -> & He). simpl in *. rewrite (expired_spec now e) by done. rewrite filter_cons.
    destruct (due now e) eqn:Ed; simpl; [|done]. destruct e as [e|]; [|done]. by destruct He as [_ ->].
  - rewrite (lookup_ge_None_2 l); [done|]. rewrite <- (Forall2_length _ _ _ Hr). by apply lookup_ge_None.
Qed.

Lemma own_handlers now el l me : timers_rep el l -> Forall (fun c => c.1 <> 0) (fires now [own el me]).
Proof.
  intros Hr. unfold own. destruct (el !! me) as [e|] eqn:Ee; [|constructor]. destruct (Forall2_lookup_l _ _ _ _ _ Hr Ee) as (x & Hx & He). simpl.
  apply (fires_handlers now [e] [x]). by constructor.
Qed.

Lemma own_rest now el me : own (alter (rest now) me el) me = rest now (own el me).
Proof. unfold own. rewrite list_lookup_alter_eq. by destruct (el !! me). Qed.

Lemma alter_rep now el l me :
  timers_rep el l -> near now (own el me) ->
  timers_rep (alter (rest now) me el) (alter (fun x => if expired (to_u64 now) x then set_active false x else x) me l).
Proof.
  intros Hr Hn. apply Forall2_alter; [done|]. intros e x He Hx Hex. apply rest_rep; [done|]. unfold own in Hn. by rewrite He in Hn.
Qed.

Lemma filter_all {A} (P : A -> Prop) `{!forall x, Decision (P x)} (l : list A) : Forall P l -> filter P l = l.
Proof. induction 1 as [|x l Hx Hl IH]; [done|]. rewrite filter_cons_True by done. by rewrite IH. Qed.

Lemma fires_cons now e es : fires now (e :: es) = fires now [e] ++ fires now es.
Proof. unfold fires. rewrite !filter_cons. case_decide; simpl; [|done]. by destruct e. Qed.

Lemma wp_irq me es el c (Q : list (Z * Z) -> tstate -> Prop) s :
  timers es el s -> on_time 2 es el me s -> tm_cntp s !! me = Some c ->
  (forall s' c', timers (rest (tm_counter s 0) <$> es) (alter (rest (tm_counter s 0)) me el) s' ->
     timer_ticks s' = to_u64 (timer_ticks s + 1) -> tm_cntp s' = <[me := c']> (tm_cntp s) ->
     armed (tm_counter s 1) (tm_counter s 2) (next_time (rest (tm_counter s 0) <$> es) (alter (rest (tm_counter s 0)) me el) me) c' ->
     Q (fires (tm_counter s 0) (own el me :: es)) s') ->
  wp (timer_irq_handler me) Q s.
Proof.
  intros (Hlock & Hes & Hel) [Hmono Hnear] Hc HQ. destruct (Hnear 0%nat ltac:(lia)) as [Hn0 Ho0]. destruct (Hnear 1%nat ltac:(lia)) as [Hn1 Ho1].
  set (now := tm_counter s 0) in *. apply wp_bind, (wp_ctl me _ c); [done|]. apply wp_bind, wp_spin_lock; [done|]. apply wp_bind, wp_modify.
  apply wp_bind, wp_read_cntpct. apply wp_bind, wp_fetch. apply wp_bind, wp_modify. apply wp_bind, wp_fetch. apply wp_bind, wp_modify.
  apply wp_bind. eapply (wp_rearm me (rest now <$> es) (alter (rest now) me el)).
  - by apply rests_rep.
  - by apply alter_rep.
  - simpl. apply Forall_fmap. eapply Forall_impl; [exact Hn1|]. intros e He. by apply rest_near.
  - simpl. rewrite own_rest. by apply rest_near.
  - simpl. by apply list_lookup_insert_eq, lookup_lt_Some with c.
  - intros s' (c' & k & -> & Harm). apply wp_bind, wp_modify, wp_ret. simpl in Harm |- *. cbn [local_timers software_timers set_ticks set_timer_lock set_cntp set_counter].
    fold now. rewrite (own_fires now el) by done. rewrite (fires_spec now es) by done.
    replace (filter _ _) with (fires now (own el me :: es)).
    + apply (HQ _ c'); [|done | simpl; by rewrite list_insert_insert_eq | exact Harm]. split; [done|]. split; [by apply rests_rep | by apply alter_rep].
    + rewrite fires_cons. symmetry. apply filter_all, Forall_app. split; [by eapply own_handlers | by eapply fires_handlers].
Qed.

Lemma free_slot_spec es l k :
  timers_rep es l ->
  match free_slot l k with
  | Some i => (k <= i)%nat /\ es !! (i - k)%nat = Some None /\ forall j, (j < i - k)%nat -> exists e, es !! j = Some (Some e)
  | None => Forall is_Some es
  end.
Proof.
  intros Hr. revert k. induction Hr as [|e x es l He Hr IH]; intros k; cbn [free_slot]; [constructor|].
  destruct e as [e|]; cbn [slot_rep] in He.
  - destruct He as [_ ->]. simpl. specialize (IH (S k)). destruct (free_slot l (S k)) as [i|]; [|by constructor].
    destruct IH as (Hk & Hi & Hj). split; [lia|]. replace (i - k)%nat with (S (i - S k)) by lia. split; [done|].
    intros [|j] Hlt; [by exists e | apply Hj; lia].
  - rewrite He, Nat.sub_diag. split; [lia|]. split; [done|]. lia.
Qed.

Definition delay_of (frequency milliseconds : Z) : Z := Z.max 1 (frequency * milliseconds / 1000).

Lemma wp_delay_ticks ms (Q : Z -> tstate -> Prop) s :
  0 < timer_frequency s -> 0 <= ms -> timer_frequency s * ms < 2 ^ 64 -> Q (delay_of (timer_frequency s) ms) s -> wp (timer_ms_to_counter_ticks ms) Q s.
Proof.
  intros Hf Hms Hb HQ. apply wp_bind, wp_fetch. rewrite (proj2 (Z.eqb_neq _ _)) by lia. apply wp_bind, wp_ret. cbv zeta. apply wp_ret.
  rewrite ms_ticks_spec by lia. replace (if _ =? 0 then _ else _) with (delay_of (timer_frequency s) ms); [done|]. unfold delay_of.
  pose proof (Z.div_pos (timer_frequency s * ms) 1000 ltac:(nia) ltac:(lia)). destruct (Z.eqb_spec (timer_frequency s * ms / 1000) 0); lia.
Qed.

Lemma insert_rep (i : nat) e x es l : timers_rep es l -> slot_rep e x -> timers_rep (<[i := e]> es) (<[i := x]> l).
Proof. intros Hr He. by apply Forall2_insert. Qed.

(** The readings of the counter between taking the lock and setting the
    hardware are close to each other. *)
Lemma wp_schedule me ms h ctx es el c (Q : Z -> tstate -> Prop) s :
  let now := tm_counter s 0 in
  let e := mkEntry (now + delay_of (timer_frequency s) ms) h ctx in
  timers es el s -> on_time 2 es el me s -> near (tm_counter s 1) (Some e) -> tm_cntp s !! me = Some c -> h <> 0 ->
  0 < timer_frequency s -> 0 <= ms -> timer_frequency s * ms < 2 ^ 64 ->
  (Forall is_Some es -> Q (-1) s) ->
  (forall i s' c', es !! i = Some None -> timers (<[i := Some e]> es) el s' -> tm_cntp s' = <[me := c']> (tm_cntp s) ->
     armed (tm_counter s 1) (tm_counter s 2) (next_time (<[i := Some e]> es) el me) c' -> Q 0 s') ->
  wp (timer_schedule_interrupt_ms me ms h ctx) Q s.
Proof.
  intros now e (Hlock & Hes & Hel) [Hmono Hnear] Hne Hc Hh Hf Hms Hb Hfull HQ. destruct (Hnear 1%nat ltac:(lia)) as [Hn1 Ho1].
  unfold timer_schedule_interrupt_ms. rewrite (proj2 (Z.eqb_neq _ _) Hh). apply wp_bind, wp_delay_ticks; [done | done | done|].
  apply wp_bind, wp_spin_lock; [done|]. apply wp_bind, wp_fetch. pose proof (free_slot_spec es (software_timers s) 0 Hes) as Hslot.
  change (software_timers (set_timer_lock true s)) with (software_timers s). destruct (free_slot (software_timers s) 0) as [i|].
  - destruct Hslot as (_ & Hi & _). rewrite Nat.sub_0_r in Hi. apply wp_bind, wp_read_cntpct, wp_bind, wp_modify.
    assert (Hrep : timers_rep (<[i := Some e]> es)
              (<[i := mkTimer true (to_u64 (to_u64 now + delay_of (timer_frequency s) ms)) h ctx]> (software_timers s))).
    { apply insert_rep; [done|]. split; [done|]. f_equal. unfold to_u64, wrap. by rewrite Zplus_mod_idemp_l. }
    apply wp_bind. eapply (wp_rearm me (<[i := Some e]> es) el); [exact Hrep | done | by apply Forall_insert | done | exact Hc|].
    intros s' (c' & k & -> & Harm). apply wp_bind, wp_modify, wp_ret. apply (HQ i _ c'); [done | by split | done | exact Harm].
  - apply wp_bind, wp_modify, wp_ret. replace (set_timer_lock false (set_timer_lock true s)) with s; [by apply Hfull|]. destruct s. simpl in *. by rewrite Hlock.
Qed.

(** The compare value is reached in time for every deadline less than 2^31 ticks away. *)
Lemma armed_in_time now at_ next es c e :
  armed now at_ (first_time next es) c -> Some e ∈ es -> now <= at_ -> e_time e - now < 2 ^ 31 ->
  cp_enabled c = true /\ cp_cval c <= at_ + Z.max 1 (e_time e - now).
Proof.
  intros Ha Hin Hat Hd. destruct (first_time_le es next e Hin) as (d & E & Hle). rewrite E in Ha. destruct Ha as [Hen ->]. split; [done|].
  unfold arm_delay, TIMER_MAX_TVAL. rewrite to_s32_id by lia. lia.
Qed.

(** A longer delay is taken for a negative one. *)
Lemma armed_too_far now at_ d c : armed now at_ (Some d) c -> 2 ^ 31 <= d - now -> cp_enabled c = true /\ cp_cval c < at_.
Proof.
  intros [Hen ->] Hd. split; [done|]. unfold arm_delay, TIMER_MAX_TVAL. set (x := Z.min (Z.max 1 (d - now)) 0xffffffff).
  assert (Hx : 2 ^ 31 <= x < 2 ^ 32) by lia. unfold to_s32. replace (x + 2 ^ 31) with (x - 2 ^ 31 + 1 * 2 ^ 32) by lia. rewrite Z.mod_add, Z.mod_small by lia. lia.
Qed.

(** The busy loop ends with the first reading that is not before the deadline. *)
Lemma wp_spin_until n fuel d s :
  (forall i, (i <= n)%nat -> - 2 ^ 61 <= d - tm_counter s i <= 2 ^ 61) -> d <= tm_counter s n -> (n < fuel)%nat ->
  wp (spin_until fuel (to_u64 d)) (fun r s' => r = true /\ exists i, (i <= n)%nat /\ d <= tm_counter s i /\ tm_counter s' 0 = tm_counter s (S i)) s.
Proof.
  revert n s. induction fuel as [|fuel IH]; intros n s Hnear Hd Hfuel; [lia|]. apply wp_bind, wp_read_cntpct.
  pose proof (Hnear 0%nat ltac:(lia)). rewrite diff_spec by lia. destruct (Z.ltb_spec (tm_counter s 0 - d) 0).
  - destruct n as [|n]; [lia|]. eapply wp_mono; [apply (IH n); [|done | lia]; intros i Hi; apply (Hnear (S i)); lia|].
    intros r s' (-> & i & Hi & Hdi & E). split; [done|]. exists (S i). split; [lia | done].
  - apply wp_ret. split; [done|]. exists 0%nat. split; [lia|]. split; [lia | done].
Qed.

(** ** Sleeping *)

Abbreviation sleep_state := (kstate * tstate)%type.
Abbreviation SP := (prog sleep_state).

Definition in_kernel {A} (m : KP A) : SP A := on fst (fun k s => (k, s.2)) m.
Definition in_timers {A} (m : TM A) : SP A := atomic (lift snd (fun t s => (s.1, t)) m).

Definition timer_wake_thread (ctx : Z) : KM unit :=
  t ← thread_get_by_tid (to_s32 ctx);
  match t with
  | None => mret tt
  | Some t =>
      x ← get_tcb t;
      if is_stopped (t_state x) && is_blocked (t_stopped_state x) && has (t_blocked_until x) BLOCK_UNTIL_TIMER
      then upd_tcb t (fun x => set_t_blocked_until (Z.land (t_blocked_until x) (Z.lnot BLOCK_UNTIL_TIMER)) x)
      else unblock_thread (Some t)
  end.

Section sleep.
(** Delivering signals, and the address of [timer_wake_thread]. *)
Context (deliver : KP unit) (wake_addr : Z).

Definition timer_sleep_ms (milliseconds : Z) : SP Z :=
  c ← in_kernel current;
  match c with
  | None => mret SYS_ESRCH
  | Some t =>
      if milliseconds =? 0 then _ ← in_kernel (schedule_yield deliver); mret 0 else
      _ ← in_kernel (atomic (upd_tcb t (fun x => set_t_blocked_until (Z.lor (t_blocked_until x) BLOCK_UNTIL_TIMER) x)));
      x ← in_kernel (atomic (get_tcb t));
      me ← this_cpu;
      r ← in_timers (timer_schedule_interrupt_ms me milliseconds wake_addr (t_tid x));
      if negb (r =? 0) then
        _ ← in_kernel (atomic (upd_tcb t (fun x => set_t_blocked_until (Z.land (t_blocked_until x) (Z.lnot BLOCK_UNTIL_TIMER)) x)));
        mret SYS_EAGAIN
      else
      _ ← in_kernel (fun _ k => Waiting k (resume deliver (Some t)));
      _ ← in_kernel (block_thread deliver t THREAD_BLOCKED_INTERRUPTABLE);
      mret 0
  end.

(** The interrupt of a CPU, with the calls that wake threads. *)
Fixpoint run_calls (calls : list (Z * Z)) : KM unit :=
  match calls with
  | [] => mret tt
  | (h, ctx) :: calls => _ ← (if h =? wake_addr then timer_wake_thread ctx else mret tt); run_calls calls
  end.

Definition timer_interrupt : SP Z :=
  me ← this_cpu; calls ← in_timers (timer_irq_handler me); _ ← in_kernel (atomic (run_calls calls)); mret 0.
End sleep.

(** ** Properties *)

(** C16. The timer interrupt calls the handlers of exactly the timers that are due,
    the local one of the CPU first and the others in the order of their slots;
    it switches these off and leaves the others running; and it sets the
    hardware for the first deadline that is left.  Deadlines are compared by
    their low 64 bits, so the counter may wrap around. *)
Theorem timer_irq_correct me es el c s :
  timers es el s -> on_time 2 es el me s -> tm_cntp s !! me = Some c ->
  let now := tm_counter s 0 in
  wp (timer_irq_handler me) (fun calls s' =>
    calls = fires now (own el me :: es) /\ timers (rest now <$> es) (alter (rest now) me el) s' /\
    exists c', tm_cntp s' = <[me := c']> (tm_cntp s) /\
      armed (tm_counter s 1) (tm_counter s 2) (next_time (rest now <$> es) (alter (rest now) me el) me) c') s.
Proof. intros Ht Hon Hc now. apply (wp_irq me es el c); try done. intros s' c' Hs' _ Hc' Ha. split; [done|]. split; [done|]. by exists c'. Qed.

(** Three readings around a wrap-around of the counter, a shared timer that is
    due, one that is not, and a local timer that is due. *)
Definition demo_timers : tstate :=
  mkT 0 1000 false
    [mkTimer true (2 ^ 64 - 5) 7 1; mkTimer false 0 0 0; mkTimer true 100 7 2]
    [mkTimer true (2 ^ 64 - 9) 8 0; mkTimer false 0 0 0]
    [mkCntp true (2 ^ 64 - 9); mkCntp false 0] (fun n => 2 ^ 64 - 2 + Z.of_nat n * 4) 1000.

Definition demo_shared : list (option entry) := [Some (mkEntry (2 ^ 64 - 5) 7 1); None; Some (mkEntry (2 ^ 64 + 100) 7 2)].
Definition demo_local : list (option entry) := [Some (mkEntry (2 ^ 64 - 9) 8 0); None].

Lemma demo_timers_rep : timers demo_shared demo_local demo_timers.
Proof. split; [done|]. split; by repeat constructor. Qed.

Lemma demo_on_time : on_time 2 demo_shared demo_local 0 demo_timers.
Proof.
  split; [intros i Hi; simpl; lia|]. intros i Hi. split.
  - repeat (apply Forall_cons; split; [intros x E; simplify_eq; simpl; lia|]). done.
  - intros x [= <-]. simpl. lia.
Qed.

Lemma timer_irq_correct_witness :
  wp (timer_irq_handler 0) (fun calls s' =>
    calls = [(8, 0); (7, 1)] /\ timers [None; None; Some (mkEntry (2 ^ 64 + 100) 7 2)] [None; None] s' /\
    exists c', tm_cntp s' = <[0%nat := c']> (tm_cntp demo_timers) /\ armed (2 ^ 64 + 2) (2 ^ 64 + 6) (Some (2 ^ 64 + 100)) c') demo_timers.
Proof. apply (timer_irq_correct 0 demo_shared demo_local (mkCntp true (2 ^ 64 - 9)) demo_timers demo_timers_rep demo_on_time). reflexivity. Defined.

(** Starting a timer puts it into a free slot and sets the hardware of the CPU
    so that no timer that is less than 2^31 ticks away is missed; when no slot
    is free it returns -1 and changes nothing. *)
Theorem timer_schedule_correct me ms h ctx es el c s :
  let e := mkEntry (tm_counter s 0 + delay_of (timer_frequency s) ms) h ctx in
  timers es el s -> on_time 2 es el me s -> near (tm_counter s 1) (Some e) -> tm_counter s 1 <= tm_counter s 2 -> tm_cntp s !! me = Some c -> h <> 0 ->
  0 < timer_frequency s -> 0 <= ms -> timer_frequency s * ms < 2 ^ 64 ->
  wp (timer_schedule_interrupt_ms me ms h ctx) (fun r s' =>
    (r = -1 /\ s' = s /\ Forall is_Some es) \/
    (r = 0 /\ exists i c', es !! i = Some None /\ timers (<[i := Some e]> es) el s' /\ tm_cntp s' = <[me := c']> (tm_cntp s) /\
       forall x, Some x ∈ <[i := Some e]> es -> e_time x - tm_counter s 1 < 2 ^ 31 ->
         cp_enabled c' = true /\ cp_cval c' <= tm_counter s 2 + Z.max 1 (e_time x - tm_counter s 1))) s.
Proof.
  intros e Ht Hon Hne Hle Hc Hh Hf Hms Hb. apply (wp_schedule me ms h ctx es el c); try done; [by left|]. intros i s' c' Hi Hs' Hc' Ha. right. split; [done|].
  exists i, c'. split; [done|]. split; [done|]. split; [done|]. intros x Hx Hd. by eapply armed_in_time.
Qed.

Lemma timer_schedule_correct_witness :
  let e := mkEntry (2 ^ 64 - 2 + 50) 7 3 in
  wp (timer_schedule_interrupt_ms 0 50 7 3) (fun r s' =>
    (r = -1 /\ s' = demo_timers /\ Forall is_Some demo_shared) \/
    (r = 0 /\ exists i c', demo_shared !! i = Some None /\ timers (<[i := Some e]> demo_shared) demo_local s' /\ tm_cntp s' = <[0%nat := c']> (tm_cntp demo_timers) /\
       forall x, Some x ∈ <[i := Some e]> demo_shared -> e_time x - (2 ^ 64 + 2) < 2 ^ 31 ->
         cp_enabled c' = true /\ cp_cval c' <= 2 ^ 64 + 6 + Z.max 1 (e_time x - (2 ^ 64 + 2)))) demo_timers.
Proof.
  apply (timer_schedule_correct 0 50 7 3 demo_shared demo_local (mkCntp true (2 ^ 64 - 9)) demo_timers demo_timers_rep demo_on_time); try (simpl; lia).
  - intros x [= <-]. vm_compute. split; discriminate.
  - reflexivity.
Defined.

(** C36. The busy wait ends if the counter reaches the deadline, and not before: it
    returns after the first reading that is at least the given number of
    milliseconds after the first one. *)
Theorem timer_delay_terminates n fuel ms s :
  let d := tm_counter s 0 + timer_frequency s * ms / 1000 in
  0 < timer_frequency s -> 0 <= ms -> timer_frequency s * ms < 2 ^ 64 ->
  (forall i, (i <= S n)%nat -> - 2 ^ 61 <= d - tm_counter s i <= 2 ^ 61) -> d <= tm_counter s (S n) -> (n < fuel)%nat ->
  wp (timer_delay_ms fuel ms) (fun r s' => r = true /\ exists i, (i <= n)%nat /\ d <= tm_counter s (S i) /\ tm_counter s' 0 = tm_counter s (S (S i))) s.
Proof.
  intros d Hf Hms Hb Hnear Hd Hfuel. apply wp_bind, wp_fetch. rewrite (proj2 (Z.eqb_neq _ _)) by lia. apply wp_bind, wp_ret. apply wp_bind, wp_read_cntpct.
  rewrite ms_ticks_spec by lia. replace (to_u64 (to_u64 _ + _)) with (to_u64 d) by (unfold to_u64, wrap; by rewrite Zplus_mod_idemp_l).
  apply (wp_spin_until n); [|done | done]. intros i Hi. apply (Hnear (S i)). lia.
Qed.

Lemma timer_delay_terminates_witness :
  wp (timer_delay_ms 9 20) (fun r s' => r = true /\ exists i, (i <= 8)%nat /\ 2 ^ 64 - 2 + 20 <= tm_counter demo_timers (S i) /\ tm_counter s' 0 = tm_counter demo_timers (S (S i))) demo_timers.
Proof. apply (timer_delay_terminates 8 9 20 demo_timers); cbn [timer_frequency tm_counter demo_timers]; change (1000 * 20 / 1000) with 20; lia. Defined.

(** A delay of 2^31 ticks or more is written to a register that is read as a
    signed number: the compare value lies in the past, so that the interrupt
    comes at once, again and again, until the deadline is near. *)
Theorem timer_long_delay me ms h ctx c s :
  let d := tm_counter s 0 + delay_of (timer_frequency s) ms in
  timers [None] [] s -> tm_cntp s !! me = Some c -> h <> 0 ->
  0 < timer_frequency s -> 0 <= ms -> timer_frequency s * ms < 2 ^ 64 ->
  2 ^ 31 <= d - tm_counter s 1 <= 2 ^ 61 -> tm_counter s 0 <= tm_counter s 1 ->
  wp (timer_schedule_interrupt_ms me ms h ctx) (fun r s' =>
    r = 0 /\ exists c', tm_cntp s' !! me = Some c' /\ cp_enabled c' = true /\ cp_cval c' < tm_counter s 2) s.
Proof.
  intros d Ht Hc Hh Hf Hms Hb Hd Hmono. apply (wp_schedule me ms h ctx [None] [] c); try done.
  - split; [intros i Hi; assert (i = 0%nat) as -> by lia; done|]. intros i _. split; [|by intros x]. by apply Forall_singleton.
  - intros x [= <-]. simpl. fold d. lia.
  - intros Hall. apply Forall_cons in Hall as [[y Hy] _]. discriminate Hy.
  - intros i s' c' Hi _ Hc' Ha. split; [done|]. exists c'. rewrite Hc'. split; [by apply list_lookup_insert_eq, lookup_lt_Some with c|].
    destruct i as [|i]; [|by destruct i]. apply (armed_too_far (tm_counter s 1) _ d); [exact Ha | lia].
Qed.

(** A counter at 54 MHz and a delay of a minute. *)
Definition demo_minute : tstate := mkT 0 54000000 false [mkTimer false 0 0 0] [] [mkCntp false 0] (fun n => Z.of_nat n * 100) 54000000.

Lemma timer_long_delay_witness :
  wp (timer_schedule_interrupt_ms 0 60000 7 0) (fun r s' =>
    r = 0 /\ exists c', tm_cntp s' !! 0%nat = Some c' /\ cp_enabled c' = true /\ cp_cval c' < 200) demo_minute.
Proof.
  apply (timer_long_delay 0 60000 7 0 (mkCntp false 0) demo_minute); try (simpl; lia).
  - split; [done|]. split; by repeat constructor.
  - reflexivity.
  - vm_compute. split; discriminate.
Defined.

(** Thread 2 runs on CPU 0; the timer interrupts come on CPU 1. *)
Definition demo_sleep : sleep_state :=
  (demo_system, mkT 0 1000 false [mkTimer false 0 0 0] [mkTimer false 0 0 0; mkTimer false 0 0 0] [mkCntp false 0; mkCntp false 0] (fun n => Z.of_nat n * 100) 1000).

(** A sleep may never end: [timer_sleep_ms] starts its timer before it blocks
    the thread.  If the timer runs out in between, the wake-up finds a thread
    that runs and does nothing; the thread then blocks with no timer left. *)
Theorem sleep_lost_wakeup :
  kernel_ok demo_rank demo_system /\
  match play [(0, 0); (1, 1); (0, 0)]%nat [Runnable (timer_sleep_ms (mret tt) 99 1); Runnable (timer_interrupt 99)] demo_sleep with
  | Some ([Runnable _; Done 0], (k, t)) =>
      (exists x, k_threads k !! 2%nat = Some x /\ t_state x = THREAD_BLOCKED_INTERRUPTABLE) /\
      mjoin (k_ready_queues k) = [] /\ Forall (fun x => tm_active x = false) (software_timers t ++ local_timers t)
  | _ => False
  end.
Proof. split; [exact demo_kernel_ok|]. vm_compute. split; [by eexists|]. split; [done | by repeat constructor]. Qed.
