(* ===== verification/ExecStack.v ===== *)
(** * The stack of a new program

    kernel/fs/elf_loader.c: [copy_exec_args], [copy_exec_name], [stack_write]
    and [setup_exec_stack], which copy the arguments of [exec] out of the old
    image and lay them out at the top of the new user stack, through the page
    tables of PageTable.v.

    A string is the list of its bytes up to its NUL, which is not part of it;
    a copy of it on the heap has the NUL.  [kfree] has no effect on the stream
    of answers that stands for the heap, so [free_exec_args] is not written. *)

From S2P Require Import Prelude Errors Bytes KString Services PageAlloc PageTable Cow Fork Destroy AddressSpace VmRegion DemandPaging.

Definition EXEC_MAX_ARGS : Z := 32.
Definition EXEC_MAX_ARG_LEN : Z := 256.

(** [src[i]] *)
Definition char_at (src : list Z) (i : Z) : Z := default 0 (src !! Z.to_nat i).

(** The first loop of [copy_exec_arg]. *)
Fixpoint arg_len (fuel : nat) (src : list Z) (len : Z) : Z :=
  match fuel with
  | O => len
  | S fuel => if (len <? EXEC_MAX_ARG_LEN) && negb (char_at src len =? 0) then arg_len fuel src (len + 1) else len
  end.

(** [copy_exec_name]: the last component of the path ... *)
Fixpoint last_component (path name : list Z) : list Z :=
  match path with
  | [] => name
  | c :: path => last_component path (if (c =? 47) && negb (char_at path 0 =? 0) then path else name)
  end.

(** ... cut to the size of the buffer. *)
Definition copy_exec_name (dst_size : nat) (path : list Z) : list Z :=
  match dst_size with
  | O => []
  | S n => take n (last_component path path) ++ [0]
  end.

Section copy.
Context {F : Type}.

(** The error code and the copy. *)
Definition copy_exec_arg (src : list Z) : stM (vm_state F) (Z * list Z) :=
  let len := arg_len (Z.to_nat EXEC_MAX_ARG_LEN) src 0 in
  if len =? EXEC_MAX_ARG_LEN then mret (INVALID_ARGS, []) else
  copy ← kmalloc (len + 1);
  if negb (copy : bool) then mret (INVALID_ARGS, []) else
  mret (SUCCESS, map (char_at src) (seqZ 0 (len + 1))).

Fixpoint copy_args_loop (argv args : list (list Z)) : stM (vm_state F) (Z * list (list Z)) :=
  match argv with
  | [] => mret (SUCCESS, args)
  | arg :: argv =>
      if EXEC_MAX_ARGS <=? Z.of_nat (length args) then mret (INVALID_ARGS, []) else
      r ← copy_exec_arg arg;
      let '(err, copy) := r in
      if negb (err =? SUCCESS) then mret (err, []) else copy_args_loop argv (args ++ [copy])
  end.

(** [argv] is the array up to its NULL; [None] is the NULL pointer. *)
Definition copy_exec_args (argv : option (list (list Z))) : stM (vm_state F) (Z * list (list Z)) :=
  match argv with
  | None => mret (SUCCESS, [])
  | Some argv => copy_args_loop argv []
  end.

End copy.

Section stack.
Variable page_pool_start : Z.

Definition stack_base : Z := USER_STACK_TOP - USER_STACK_SIZE.

Fixpoint stack_write_loop (fuel : nat) (table va : Z) (src : list Z) (off size : Z) : M Z :=
  if negb (0 <? size) then mret SUCCESS
  else
    match fuel with
    | O => fault
    | S fuel =>
        let page_va := align_down va in
        mapped ← pt_get_mapped_page table page_va;
        page ← (if mapped =? 0 then pt_seed_user_page page_pool_start table page_va else mret mapped);
        if page =? 0 then mret INVALID_ARGS else
        let page_offset := Z.land va PAGE_MASK in
        let chunk := min_u64 size (PAGE_SIZE - page_offset) in
        _ ← copy_bytes (page + page_offset) src off chunk;
        stack_write_loop fuel table (to_u64 (va + chunk)) src (off + chunk) (size - chunk)
    end.

Definition stack_write (table va : Z) (src : list Z) (size : Z) : M Z :=
  if (va <? stack_base) || (USER_STACK_TOP <? va) || (USER_STACK_TOP - va <? size) then mret INVALID_ARGS
  else stack_write_loop (Z.to_nat size) table va src 0 size.

(** [strlen] of a copied argument. *)
Definition copied_strlen (arg : list Z) : M Z :=
  match strlen arg with Ok n => mret n | _ => fault end.

(** The loop of [setup_exec_stack], from the last argument down to the first;
    [ptrs] are the entries of [argv_ptrs] written so far. *)
Fixpoint push_args (n : nat) (table : Z) (args : list (list Z)) (sp : Z) (ptrs : list Z) : M (Z + Z * list Z) :=
  match n with
  | O => mret (inr (sp, ptrs))
  | S i =>
      match args !! i with
      | None => fault
      | Some arg =>
          len0 ← copied_strlen arg;
          let len := len0 + 1 in
          if sp <? stack_base + len then mret (inl INVALID_ARGS) else
          let sp := sp - len in
          err ← stack_write table sp arg len;
          if negb (err =? SUCCESS) then mret (inl err) else push_args i table args sp (sp :: ptrs)
      end
  end.

(** An error code, or the stack pointer and the address of [argv]. *)
Definition setup_exec_stack (table : Z) (args : list (list Z)) (argc : nat) : M (Z + Z * Z) :=
  r ← push_args argc table args USER_STACK_TOP [];
  match r with
  | inl err => mret (inl err)
  | inr (sp, ptrs) =>
      let argv_ptrs := ptrs ++ [0] in
      let sp := Z.land sp (not64 0xf) in
      let argv_bytes := (Z.of_nat argc + 1) * 8 in
      if sp <? stack_base + argv_bytes then mret (inl INVALID_ARGS) else
      let sp := sp - argv_bytes in
      err ← stack_write table sp (concat (map (le 8) argv_ptrs)) argv_bytes;
      if negb (err =? SUCCESS) then mret (inl err) else mret (inr (sp, sp))
  end.

End stack.

(** ** Building an address space

    [built s sp]: in the state [s], which came from [s0], the tables rooted at
    [r] represent the address space [sp], all of whose pages are its own and
    writable, and every other address space of [s0] is as it was. *)

Section theory.
Variable page_pool_start : Z.
Hypothesis pool_in_ram : KERNEL_VA_BASE < page_pool_start <= RAM_end.
Variables (s0 : pt_state) (lab0 : gmap Z (Z * list Z)) (r : Z).

(** No count of a page that is mapped is at its 16-bit limit. *)
Definition low (s : pt_state) (lab : gmap Z (Z * list Z)) : Prop :=
  forall x d pg, maps s lab x d -> page_struct s d = Some pg -> refcount pg < 65535.

Lemma low_map_step s s' lab lab' used used' ok l0 va pte :
  vm_ok page_pool_start s lab used -> map_step page_pool_start s s' lab lab' used used' ok l0 va pte ->
  (ok = true -> forall d, desc_table pte = d -> exists pg, page_struct s' d = Some pg /\ refcount pg < 65535) ->
  low s lab -> low s' lab'.
Proof.
  intros Hok T Hnew Hlow x d pg (Hx & Hv & Hd) Hpg. apply (map_slots _ _ _ _ _ _ _ _ _ _ _ T) in Hx.
  destruct Hx as (Hr & Hl & Hix). assert (E : leaf s' x = if ok && bool_decide (x = (l0, indices va)) then pte else leaf s x).
  { destruct x as [q ix]. by apply (ms_entry _ _ _ _ _ _ _ _ _ _ _ T). }
  destruct (ok && bool_decide (x = (l0, indices va))) eqn:Eb; rewrite E in Hv, Hd.
  - apply andb_true_iff in Eb as [-> _]. destruct (Hnew eq_refl d Hd) as (pg' & E' & Hlt). congruence.
  - assert (Hm : maps s lab x d) by by split_and!. destruct (ci_data _ _ _ (vo_cow _ _ _ _ Hok) _ _ Hm) as [Hu Hn].
    destruct (ms_data _ _ _ _ _ _ _ _ _ _ _ T d Hu Hn) as [_ E']. apply (Hlow x d); [done | congruence].
Qed.

Lemma low_new_root s s' lab used c fl' :
  vm_ok page_pool_start s lab used -> c ∉ used -> in_ram c -> c mod 4096 = 0 -> fresh_page s s' c ->
  alloc_inv page_pool_start s' fl' ({[c]} ∪ used) -> low s lab -> low s' (<[c := (c, [])]> lab).
Proof.
  intros Hok Hcu Hcr Hca Hfr Ha Hlow [q ix] d pg (Hx & Hv & Hd) Hpg. destruct (vo_pt _ _ _ _ Hok) as [fl Hi].
  destruct (new_root_vm _ pool_in_ram s s' lab used c fl') as (_ & _ & Hz & Hleaf & _); try done.
  destruct (fresh_used_kept _ pool_in_ram s s' fl used c (pi_alloc _ _ _ _ _ Hi)) as [_ Hkp]; try done.
  destruct (decide (q = c)) as [->|Hqc].
  { destruct Hx as (_ & _ & Hix). unfold leaf in Hv. simpl in Hv. by rewrite empty_table in Hv. }
  assert (Hs : slot_ok lab (q, ix)).
  { destruct Hx as (Hq & Hl). split; [|done]. unfold is_root in *. simpl in *. by rewrite lookup_insert_ne in Hq. }
  rewrite Hleaf in Hv, Hd by done. assert (Hm : maps s lab (q, ix) d) by by split_and!.
  apply (Hlow (q, ix) d); [done|]. rewrite <- (Hkp d); [done|]. by eapply ci_used; [apply Hok|].
Qed.

Record built (s : pt_state) (sp : space) : Prop := {
  bu_ok : exists lab used, vm_ok page_pool_start s lab used /\ is_root lab r /\ lab0 ⊆ lab /\ (low s0 lab0 -> low s lab);
  bu_self : space_rel s r sp;
  bu_own : forall ix pg, ix_ok ix -> sp ix = Some pg -> ap_write pg = true /\ pte_is_writable (leaf s (r, ix)) = true;
  bu_other : forall q sp', is_root lab0 q -> q <> r -> space_rel s0 q sp' -> space_rel s q sp';
  bu_leaf : forall q ix, is_root lab0 q -> q <> r -> ix_ok ix -> leaf s (q, ix) = leaf s0 (q, ix)
}.

Lemma wp_built_map s sp va attrs :
  built s sp -> pte_is_writable attrs = true ->
  wp (pt_map_new_page page_pool_start r va attrs) (fun page s' =>
    (page = 0 /\ built s' sp /\ exhausted page_pool_start s') \/
    (page <> 0 /\ built s' (set_space sp (indices va) (mkAPage true (fun _ => 0))) /\
     desc_table (leaf s' (r, indices va)) = page)) s.
Proof.
  intros [(lab & used & Hok & Hr & Hsub & Hlow) Hself Hown Hother Hleaf] Hw. destruct (vo_pt _ _ _ _ Hok) as [fl Hi].
  eapply wp_mono; [by eapply (wp_pt_map_new_page_full _ pool_in_ram)|].
  intros page s' (lab' & used' & T & Hpg & Hex). destruct (Z.eqb_spec page 0) as [->|Hp]; cbn [negb] in T.
  - left. split_and!; [done | | by apply Hex]. pose proof (map_slots _ _ _ _ _ _ _ _ _ _ _ T) as Hs.
    assert (Hl : forall z, slot_ok lab z -> leaf s' z = leaf s z).
    { intros z (H1 & H2 & H3). exact (ms_entry _ _ _ _ _ _ _ _ _ _ _ T (fst z) (snd z) H1 H2 H3). }
    assert (Hrel : forall q sp', is_root lab q -> space_rel s q sp' -> space_rel s' q sp')
      by (intros q sp' Hq; eapply (step_space_rel page_pool_start s s' lab used Hok); [done | apply T | done]).
    constructor.
    + exists lab', used'. split_and!; [| by eapply lookup_weaken, (ms_sub _ _ _ _ _ _ _ _ _ _ _ T) | etransitivity; [done | apply T] |].
      2: { intros H0. eapply (low_map_step s s'); [done | exact T | done | by apply Hlow]. }
      eapply (step_vm_ok page_pool_start s s' lab lab' used used' Hok); try done; apply T. apply Hok.
    + by apply Hrel.
    + intros ix pg Hix Hsp. rewrite Hl by by split. by eapply Hown.
    + intros q sp' Hq Hne Hs0. apply Hrel; [by eapply lookup_weaken | by apply Hother].
    + intros q ix Hq Hne Hix. rewrite Hl; [by apply Hleaf|]. split; [by eapply lookup_weaken | done].
  - right. destruct (Hpg Hp) as (P1 & P2 & P3 & P4 & P5 & P6 & P7).
    destruct (map_space page_pool_start s s' lab lab' used used' r va attrs page)
      as (Hok' & Ho & Hs & Hx & Hl); try done; [apply P6, Hok | apply T, Hok |]. rewrite Hw in Hs. split_and!; [done | |].
    + constructor.
      * exists lab', used'. split_and!; [done | by eapply lookup_weaken, (ms_sub _ _ _ _ _ _ _ _ _ _ _ T) | etransitivity; [done | apply T] |].
        intros H0. eapply (low_map_step s s'); [done | exact T | | by apply Hlow]. intros _ d Hd. exists (mkPage 1 0). split; [|done].
        assert (d = page) as -> by (rewrite <- Hd; apply phys_desc_table; [done | done | apply page_desc_addr]). apply P6, Hok.
      * by apply Hs.
      * intros ix pg Hix. unfold set_space. case_decide as E; [|intros Hsp; rewrite Hl by done; by eapply Hown].
        subst ix. intros [= <-]. by rewrite Hx, page_desc_writable.
      * intros q sp' Hq Hne Hs0. apply Ho; [by eapply lookup_weaken | done | by apply Hother].
      * intros q ix Hq Hne [Hlen Hix]. rewrite <- Hleaf by done.
        pose proof (ms_entry _ _ _ _ _ _ _ _ _ _ _ T q ix (lookup_weaken _ _ _ _ Hq Hsub) Hlen Hix) as E.
        rewrite bool_decide_false in E by congruence. exact E.
    + rewrite Hx. apply phys_desc_table; [done | done | apply page_desc_addr].
Qed.

(** The page at [ix] and its place in memory. *)
Lemma built_page s sp ix pg :
  built s sp -> ix_ok ix -> sp ix = Some pg ->
  let p := desc_table (leaf s (r, ix)) in
  in_ram p /\ p mod 4096 = 0 /\ desc_valid (leaf s (r, ix)) = true /\
  forall i, index_ok i -> ap_words pg i = mem s (p + 8 * i).
Proof.
  intros [(lab & used & Hok & Hr & _) Hself _ _ _] Hix Hsp p. specialize (Hself ix Hix). rewrite Hsp in Hself.
  destruct Hself as (Hv & _ & Hview). destruct (vo_pt _ _ _ _ Hok) as [fl Hi].
  assert (Hm : maps s lab (r, ix) p) by (split_and!; [by split | done | done]).
  destruct (data_page _ pool_in_ram s lab fl used _ _ Hi (vo_cow _ _ _ _ Hok) Hm). split_and!; try done.
  intros i Hi'. by rewrite <- Hview.
Qed.

Lemma built_write s sp ix pg m :
  built s sp -> ix_ok ix -> sp ix = Some pg ->
  outside_kept (desc_table (leaf s (r, ix))) (mem s) m ->
  built (set_mem m s) (set_space sp ix (mkAPage true (fun i => m (desc_table (leaf s (r, ix)) + 8 * i)))).
Proof.
  intros Hb Hix Hsp Hm. destruct (built_page s sp ix pg Hb Hix Hsp) as (_ & _ & Hv & _).
  destruct Hb as [(lab & used & Hok & Hr & Hsub & Hlow) Hself Hown Hother Hleaf].
  set (d := desc_table (leaf s (r, ix))) in *. destruct (Hown ix pg Hix Hsp) as [Hpw Hw].
  assert (Hx : maps s lab (r, ix) d) by (split_and!; [by split | done | done]).
  destruct (page_write_vm _ pool_in_ram s lab used (r, ix) d m Hok Hx Hw Hm) as (W1 & W2 & W3 & W4).
  assert (Hmap : forall q ix', is_root lab q -> ix_ok ix' -> desc_valid (leaf s (q, ix')) = true ->
            maps s lab (q, ix') (desc_table (leaf s (q, ix')))) by (intros; by split_and!; [split|..]).
  constructor.
  - exists lab, used. split_and!; [done | done | done|]. intros H0 z d' pg' (Hz & Hv' & Hd'). rewrite W2 in Hv', Hd' by done.
    intros Hpg'. apply (Hlow H0 z d'); [by split_and! | exact Hpg'].
  - intros ix' Hix'. unfold set_space. specialize (Hself ix' Hix'). rewrite W2 by by split. case_decide as E.
    + subst ix'. rewrite Hsp in Hself. destruct Hself as (Hv' & Hmw & _).
      split_and!; [done | by rewrite (W3 _ _ Hx), Hmw, Hpw |]. intros i Hi. rewrite (W4 _ _ i Hx Hi). by rewrite decide_True.
    + destruct (sp ix') as [pg'|]; [|done]. destruct Hself as (Hv' & Hmw & Hview).
      pose proof (Hmap r ix' Hr Hix' Hv') as Hx'. split_and!; [done | by rewrite (W3 _ _ Hx') |].
      intros i Hi. rewrite (W4 _ _ i Hx' Hi), decide_False by congruence. by apply Hview.
  - intros ix' pg' Hix'. unfold set_space. rewrite W2 by by split. case_decide as E; [|by apply Hown].
    subst ix'. by intros [= <-].
  - intros q sp' Hq Hne Hs0. assert (Hq' : is_root lab q) by by eapply lookup_weaken.
    eapply space_rel_keep; [| |by apply Hother].
    + intros ix' Hix'. by apply W2.
    + intros ix' Hix' Hv'. pose proof (Hmap q ix' Hq' Hix' Hv') as Hx'. split; [by apply (W3 _ _ Hx')|].
      intros i Hi. rewrite (W4 _ _ i Hx' Hi), decide_False by congruence. done.
  - intros q ix' Hq Hne Hix'. rewrite W2; [by apply Hleaf|]. split; [by eapply lookup_weaken | done].
Qed.

(** *** Bytes *)

Definition page_byte (pg : apage) (o : Z) : Z := word_byte (ap_words pg (o / 8)) (o mod 8).

Definition space_byte (sp : space) (a : Z) : option Z :=
  match sp (indices a) with Some pg => Some (page_byte pg (a mod 4096)) | None => None end.

Lemma same_page a b :
  0 <= a < 2 ^ 48 -> 0 <= b < 2 ^ 48 -> indices a = indices b <-> a / 4096 = b / 4096.
Proof.
  intros Ha Hb. rewrite indices_vpn. unfold vpn. rewrite !Z.mod_small; [done | |];
    (split; [apply Z.div_pos; lia | apply Z.div_lt_upper_bound; lia]).
Qed.

Lemma built_byte s sp ix pg o :
  built s sp -> ix_ok ix -> sp ix = Some pg -> 0 <= o < 4096 ->
  page_byte pg o = mem_byte (mem s) (desc_table (leaf s (r, ix)) + o).
Proof.
  intros Hb Hix Hsp Ho. destruct (built_page s sp ix pg Hb Hix Hsp) as (_ & Hp & _ & Hw).
  unfold page_byte, mem_byte. destruct (byte_of_page _ o Hp Ho) as (-> & Hi & ->). by rewrite Hw.
Qed.

(** [sp'] is [sp] with [src] at [va]; only pages of the user stack are new. *)
Record stores (sp sp' : space) (va : Z) (src : list Z) : Prop := {
  st_new : forall a, va <= a < va + Z.of_nat (length src) -> space_byte sp' a = src !! Z.to_nat (a - va);
  st_old : forall a b, 0 <= a < 2 ^ 48 -> ~ va <= a < va + Z.of_nat (length src) ->
    space_byte sp a = Some b -> space_byte sp' a = Some b;
  st_pages : forall ix, (forall a, stack_base <= a < USER_STACK_TOP -> ix <> indices a) -> sp' ix = sp ix
}.

Lemma stores_nil sp va : stores sp sp va [].
Proof. constructor; [|done|done]. intros a Ha. simpl in Ha. lia. Qed.

Lemma stores_app sp1 sp2 sp3 va l1 l2 :
  0 <= va -> va + Z.of_nat (length l1) + Z.of_nat (length l2) <= 2 ^ 48 -> Forall is_byte l1 ->
  stores sp1 sp2 va l1 -> stores sp2 sp3 (va + Z.of_nat (length l1)) l2 -> stores sp1 sp3 va (l1 ++ l2).
Proof.
  intros Hva Hend Hb [N1 O1 P1] [N2 O2 P2]. constructor.
  - rewrite length_app. intros a Ha. destruct (decide (a < va + Z.of_nat (length l1))).
    + rewrite lookup_app_l by lia. destruct (lookup_lt_is_Some_2 l1 (Z.to_nat (a - va))) as [b Eb]; [lia|].
      rewrite Eb. apply O2; [lia | lia |]. rewrite N1 by lia. done.
    + rewrite lookup_app_r by lia. rewrite N2 by lia. f_equal. lia.
  - rewrite length_app. intros a b Ha Hn Hs. apply O2; [done | lia |]. apply O1; [done | lia | done].
  - intros ix Hix. by rewrite P2, P1.
Qed.

(** One page's share of the copy. *)
Lemma wp_write_chunk s sp va pg src off n :
  built s sp -> stack_base <= va -> 0 < n -> va mod 4096 + n <= 4096 -> va + n <= USER_STACK_TOP ->
  sp (indices va) = Some pg -> 0 <= off -> off + n <= Z.of_nat (length src) -> Forall is_byte src ->
  wp (copy_bytes (desc_table (leaf s (r, indices va)) + va mod 4096) src off n) (fun _ s' => exists sp',
    built s' sp' /\ stores sp sp' va (slice src (Z.to_nat off) (Z.to_nat n))) s.
Proof.
  intros Hb Hlo Hn Hpg Hhi Hsp Hoff Hlen Hbytes.
  assert (Hx : ix_ok (indices va)) by (split; [done | apply indices_ok]).
  destruct (built_page s sp _ pg Hb Hx Hsp) as (Hram & Hal & _ & Hwords). set (p := desc_table _) in *.
  pose proof (Z.mod_pos_bound va 4096 ltac:(lia)) as Hmod. pose proof (Z.div_mod va 4096) as Hdm.
  unfold stack_base, USER_STACK_TOP, USER_STACK_SIZE in *.
  apply wp_copy_bytes; [done | lia | lia | done | done | lia | done |]. intros m' [Hout Hw].
  exists (set_space sp (indices va) (mkAPage true (fun i => m' (p + 8 * i)))).
  split; [by eapply built_write|].
  assert (Hlen' : Z.of_nat (length (slice src (Z.to_nat off) (Z.to_nat n))) = n).
  { unfold slice. rewrite length_take, length_drop. lia. }
  assert (Hbyte : forall o, 0 <= o < 4096 -> page_byte (mkAPage true (fun i => m' (p + 8 * i))) o = mem_byte m' (p + o)).
  { intros o Ho. unfold page_byte, mem_byte. cbn [ap_words]. by destruct (byte_of_page p o Hal Ho) as (-> & _ & ->). }
  constructor; rewrite ?Hlen'.
  - intros a Ha. assert (Hsame : a / 4096 = va / 4096) by (symmetry; apply (Z.div_unique_pos a 4096 (va / 4096) (va mod 4096 + (a - va))); lia).
    assert (Hamod : a mod 4096 = va mod 4096 + (a - va)) by (pose proof (Z.div_mod a 4096); lia).
    unfold space_byte, set_space. rewrite decide_True by (apply same_page; lia).
    rewrite Hbyte by (apply Z.mod_pos_bound; lia). rewrite Hw by (apply Z.mod_pos_bound; lia). rewrite Hamod.
    rewrite (proj2 (Z.leb_le _ _)), (proj2 (Z.ltb_lt _ _)) by lia. cbn [andb].
    rewrite lookup_slice, decide_True by lia.
    destruct (lookup_lt_is_Some_2 src (Z.to_nat (off + (a - va)))) as [b Eb]; [lia|].
    replace (va mod 4096 + (a - va) - va mod 4096) with (a - va) by lia. rewrite Eb.
    replace (Z.to_nat off + Z.to_nat (a - va))%nat with (Z.to_nat (off + (a - va))) by lia. by rewrite Eb.
  - intros a b Ha Hn' Hs. unfold space_byte, set_space in *. case_decide as E; [|done].
    rewrite E, Hsp in Hs. injection Hs as <-. f_equal. apply same_page in E; [|lia..].
    pose proof (Z.mod_pos_bound a 4096 ltac:(lia)). pose proof (Z.div_mod a 4096).
    rewrite Hbyte by done. rewrite Hw by done. rewrite (built_byte s sp (indices va) pg) by done.
    destruct (Z.leb_spec (va mod 4096) (a mod 4096)), (Z.ltb_spec (a mod 4096) (va mod 4096 + n)); simpl; done || lia.
  - intros ix Hix. unfold set_space. rewrite decide_False; [done|]. apply Hix. unfold stack_base, USER_STACK_TOP, USER_STACK_SIZE. lia.
Qed.

Lemma stores_fresh sp sp' va pg l :
  sp (indices va) = None -> stack_base <= va < USER_STACK_TOP ->
  stores (set_space sp (indices va) pg) sp' va l -> stores sp sp' va l.
Proof.
  intros Hno Hva [N O P]. constructor; [done | |].
  - intros a b Ha Hn Hs. apply O; [done | done |]. unfold space_byte, set_space in *.
    case_decide as E; [|done]. by rewrite E, Hno in Hs.
  - intros ix Hix. rewrite P by done. unfold set_space. rewrite decide_False; [done | by apply Hix].
Qed.

(** The page at [va], mapped if it was not. *)
Lemma wp_stack_page s sp va :
  built s sp -> 0 <= va < 2 ^ 64 -> stack_base <= va < USER_STACK_TOP ->
  wp (mapped ← pt_get_mapped_page r (align_down va);
      if mapped =? 0 then pt_seed_user_page page_pool_start r (align_down va) else mret mapped)
    (fun page s' => exists sp', built s' sp' /\
      (page = 0 /\ exhausted page_pool_start s' \/
       page <> 0 /\ page = desc_table (leaf s' (r, indices va)) /\ (exists pg, sp' (indices va) = Some pg) /\
       forall sp2 l, stores sp' sp2 va l -> stores sp sp2 va l)) s.
Proof.
  intros Hb Hva Hst. assert (Hx : ix_ok (indices va)) by (split; [done | apply indices_ok]).
  assert (Hr0 : r <> 0).
  { destruct Hb as [(lab & used & Hok & Hr & _) _ _ _ _]. destruct (vo_pt _ _ _ _ Hok) as [fl Hi].
    destruct (table_page _ pool_in_ram _ _ _ _ _ _ Hi Hr) as [Hram _]. by apply in_ram_nonzero. }
  apply wp_bind. eexists _, s. split; [by apply pt_get_mapped_page_eq|].
  change (translate s r (align_down va)) with (leaf s (r, indices (align_down va))). rewrite indices_align_down.
  pose proof (bu_self _ _ Hb (indices va) Hx) as Hself. destruct (sp (indices va)) as [pg|] eqn:Hsp.
  - destruct (built_page s sp _ pg Hb Hx Hsp) as (Hram & _ & Hv & _).
    rewrite mapped_address_leaf by done. rewrite align_down_page, Z.add_0_r.
    rewrite (proj2 (Z.eqb_neq _ _)) by by apply in_ram_nonzero. apply wp_ret. exists sp. split; [done|]. right.
    split_and!; [by apply in_ram_nonzero | done | by exists pg | done].
  - unfold mapped_address. rewrite Hself. cbn [Z.eqb].
    eapply wp_mono; [by apply (wp_built_map s sp (align_down va) ATTR_USER_RW Hb)|]. rewrite indices_align_down.
    intros page s' [(-> & Hb' & Hex) | (Hp & Hb' & Hpage)].
    + exists sp. split; [done | by left].
    + eexists. split; [exact Hb'|]. right. split_and!; [done | done | |].
      * eexists. unfold set_space. by rewrite decide_True.
      * intros sp2 l. by apply stores_fresh.
Qed.

Lemma slice_split (l : list Z) o n k :
  (k <= n)%nat -> slice l o n = slice l o k ++ slice l (o + k) (n - k).
Proof.
  intros Hk. unfold slice. rewrite <- drop_drop, <- (take_drop k (take n (drop o l))), take_take, Nat.min_l by lia.
  f_equal. by rewrite skipn_firstn_comm.
Qed.

Lemma wp_stack_write_loop src fuel : forall va off n s sp,
  built s sp -> stack_base <= va -> va + n <= USER_STACK_TOP -> 0 <= n -> 0 <= off ->
  off + n <= Z.of_nat (length src) -> n <= Z.of_nat fuel -> Forall is_byte src ->
  wp (stack_write_loop page_pool_start fuel r va src off n) (fun res s' => exists sp', built s' sp' /\
    (res = SUCCESS /\ stores sp sp' va (slice src (Z.to_nat off) (Z.to_nat n)) \/
     res = INVALID_ARGS /\ exhausted page_pool_start s')) s.
Proof.
  induction fuel as [|fuel IH]; intros va off n s sp Hb Hlo Hhi Hn Hoff Hlen Hfuel Hbytes; cbn [stack_write_loop].
  { rewrite (proj2 (Z.ltb_ge 0 n)) by lia. apply wp_ret. exists sp. split; [done|]. left. split; [done|].
    replace n with 0 by lia. apply stores_nil. }
  destruct (Z.ltb_spec 0 n) as [Hpos|]; cbn [negb].
  2: { apply wp_ret. exists sp. split; [done|]. left. split; [done|]. replace n with 0 by lia. apply stores_nil. }
  pose proof (Z.mod_pos_bound va 4096 ltac:(lia)) as Hmod.
  assert (Hrange : 0 <= va < 2 ^ 64) by (unfold stack_base, USER_STACK_TOP, USER_STACK_SIZE in *; lia).
  apply wp_assoc. apply wp_bind. eapply wp_mono; [apply (wp_stack_page s sp va Hb Hrange); lia|].
  intros page s1 (sp1 & Hb1 & [[-> Hex] | (Hp & -> & (pg & Hpg) & Htrans)]).
  { apply wp_ret. exists sp1. split; [done | by right]. }
  rewrite (proj2 (Z.eqb_neq _ _) Hp). change PAGE_MASK with (2 ^ 12 - 1). rewrite land_ones_mod by lia.
  change (2 ^ 12) with 4096. change PAGE_SIZE with 4096. set (k := min_u64 n (4096 - va mod 4096)).
  assert (Hk : 0 < k <= n /\ k <= 4096 - va mod 4096) by (unfold k, min_u64; case_bool; lia).
  apply wp_bind. eapply wp_mono; [eapply (wp_write_chunk s1 sp1 va pg src off k Hb1); done || lia|].
  intros [] s2 (sp2 & Hb2 & Hst). apply Htrans in Hst.
  assert (Hva : to_u64 (va + k) = va + k) by (apply wrap_small; unfold stack_base, USER_STACK_TOP, USER_STACK_SIZE in *; lia).
  rewrite Hva. eapply wp_mono; [apply (IH (va + k) (off + k) (n - k) s2 sp2 Hb2); done || lia|].
  intros res s' (sp' & Hb' & Hres). exists sp'. split; [done|]. destruct Hres as [[-> Hst'] | ?]; [left | by right].
  split; [done|]. rewrite (slice_split src _ _ (Z.to_nat k)) by lia.
  assert (Hl : Z.of_nat (length (slice src (Z.to_nat off) (Z.to_nat k))) = k)
    by (unfold slice; rewrite length_take, length_drop; lia).
  replace (Z.to_nat (off + k)) with (Z.to_nat off + Z.to_nat k)%nat in Hst' by lia.
  replace (Z.to_nat (n - k)) with (Z.to_nat n - Z.to_nat k)%nat in Hst' by lia.
  eapply stores_app; [lia | | | exact Hst | by rewrite Hl].
  - rewrite Hl. unfold slice. rewrite length_take. unfold USER_STACK_TOP in *. lia.
  - unfold slice. by apply Forall_take, Forall_drop.
Qed.

Lemma wp_stack_write s sp va src :
  built s sp -> stack_base <= va -> va + Z.of_nat (length src) <= USER_STACK_TOP -> Forall is_byte src ->
  wp (stack_write page_pool_start r va src (Z.of_nat (length src))) (fun res s' => exists sp', built s' sp' /\
    (res = SUCCESS /\ stores sp sp' va src \/ res = INVALID_ARGS /\ exhausted page_pool_start s')) s.
Proof.
  intros Hb Hlo Hhi Hbytes. unfold stack_write.
  rewrite (proj2 (Z.ltb_ge _ _)), (proj2 (Z.ltb_ge _ _)), (proj2 (Z.ltb_ge _ _)) by lia. cbn [orb].
  eapply wp_mono; [apply (wp_stack_write_loop src _ va 0 _ s sp Hb); done || lia|].
  intros res s' (sp' & Hb' & Hres). exists sp'. split; [done|]. rewrite Nat2Z.id in Hres.
  by replace (slice src (Z.to_nat 0) (length src)) with src in Hres by (unfold slice; simpl; by rewrite take_ge).
Qed.

(** *** The arguments *)

(** A copied argument: no NUL but the last byte. *)
Definition c_arg (a : list Z) : Prop := exists w, a = w ++ [0] /\ Forall (fun b => 0 < b < 256) w.

Lemma c_arg_bytes a : c_arg a -> Forall is_byte a.
Proof.
  intros (w & -> & Hw). apply Forall_app. split; [|apply Forall_singleton; unfold is_byte; lia].
  eapply Forall_impl; [exact Hw|]. unfold is_byte. simpl. lia.
Qed.

Lemma c_arg_strlen a s : c_arg a -> copied_strlen a s = Ok (Z.of_nat (length a) - 1, s).
Proof.
  intros (w & -> & Hw). unfold copied_strlen.
  assert (E : strlen (w ++ [0]) = Ok (Z.of_nat (length w))).
  { clear -Hw. induction Hw as [|b w Hb _ IH]; [done|]. cbn [app strlen length].
    rewrite (proj2 (Z.eqb_neq b 0)) by lia. rewrite IH. cbn. do 2 f_equal. lia. }
  rewrite E, length_app. unfold mret, stM_ret. do 2 f_equal. simpl. lia.
Qed.

(** The bytes [l] at [p]. *)
Definition holds_bytes (sp : space) (p : Z) (l : list Z) : Prop :=
  forall j b, l !! j = Some b -> space_byte sp (p + Z.of_nat j) = Some b.

Lemma stores_holds sp sp' va src : stores sp sp' va src -> holds_bytes sp' va src.
Proof.
  intros Hs j b Hj. pose proof (lookup_lt_Some _ _ _ Hj). rewrite (st_new _ _ _ _ Hs) by lia.
  replace (va + Z.of_nat j - va) with (Z.of_nat j) by lia. by rewrite Nat2Z.id.
Qed.

Lemma stores_keeps sp sp' va src p l :
  stores sp sp' va src -> va + Z.of_nat (length src) <= p -> 0 <= va -> p + Z.of_nat (length l) <= 2 ^ 48 ->
  holds_bytes sp p l -> holds_bytes sp' p l.
Proof.
  intros Hs Hp Hva Hend Hh j b Hj. pose proof (lookup_lt_Some _ _ _ Hj).
  apply (st_old _ _ _ _ Hs); [lia | lia | by apply Hh].
Qed.

(** The pages outside the user stack are the same. *)
Definition stack_only (sp sp' : space) : Prop :=
  forall ix, (forall a, stack_base <= a < USER_STACK_TOP -> ix <> indices a) -> sp' ix = sp ix.

Definition total (args : list (list Z)) : Z := Z.of_nat (sum_list_with length args).

(** The arguments from number [n] on are above [spv]. *)
Definition pushed (sp : space) (spv : Z) (args : list (list Z)) (n : nat) (ptrs : list Z) : Prop :=
  length ptrs = (length args - n)%nat /\
  forall i a, args !! (n + i)%nat = Some a ->
    exists p, ptrs !! i = Some p /\ spv <= p /\ p + Z.of_nat (length a) <= USER_STACK_TOP /\ holds_bytes sp p a.

Lemma total_drop args n a :
  args !! n = Some a -> total (drop n args) = Z.of_nat (length a) + total (drop (S n) args).
Proof. intros Ha. unfold total. rewrite (drop_S args a n Ha). cbn [sum_list_with]. lia. Qed.

Lemma total_le args n : total (drop n args) <= total args.
Proof.
  unfold total. rewrite <- (take_drop n args) at 2. rewrite sum_list_with_app. lia.
Qed.

Lemma wp_push_args args n : forall spv ptrs s sp,
  Forall c_arg args -> (n <= length args)%nat -> built s sp ->
  spv = USER_STACK_TOP - total (drop n args) -> stack_base <= spv -> pushed sp spv args n ptrs ->
  wp (push_args page_pool_start n r args spv ptrs) (fun res s' => exists sp', built s' sp' /\
    match res with
    | inl e => e = INVALID_ARGS /\ (exhausted page_pool_start s' \/ USER_STACK_SIZE < total args)
    | inr (spv', ptrs') => spv' = USER_STACK_TOP - total args /\ stack_base <= spv' /\ pushed sp' spv' args 0 ptrs' /\ stack_only sp sp'
    end) s.
Proof.
  induction n as [|n IH]; intros spv ptrs s sp Hargs Hn Hb Hspv Hlo Hpush; cbn [push_args].
  { apply wp_ret. exists sp. split; [done|]. rewrite drop_0 in Hspv. by split_and!. }
  destruct (lookup_lt_is_Some_2 args n) as [a Ha]; [lia|]. rewrite Ha.
  pose proof (Forall_lookup_1 _ _ _ _ Hargs Ha) as Hca.
  apply wp_bind. eexists _, s. split; [by apply c_arg_strlen|].
  replace (Z.of_nat (length a) - 1 + 1) with (Z.of_nat (length a)) by lia.
  pose proof (total_drop args n a Ha) as Htot. pose proof (total_le args n) as Hle.
  destruct (Z.ltb_spec spv (stack_base + Z.of_nat (length a))) as [Hbig|Hfit].
  { apply wp_ret. exists sp. split; [done|]. split; [done|]. right. unfold stack_base in *. lia. }
  apply wp_bind. eapply wp_mono; [apply (wp_stack_write s sp (spv - Z.of_nat (length a)) a Hb)|].
  { lia. } { unfold total in *. lia. } { by apply c_arg_bytes. }
  intros res s1 (sp1 & Hb1 & [[-> Hst] | [-> Hex]]); cbn [negb Z.eqb SUCCESS INVALID_ARGS].
  2: { apply wp_ret. exists sp1. split; [done|]. split; [done | by left]. }
  assert (Hpos : 0 <= stack_base) by done. assert (Htop : USER_STACK_TOP < 2 ^ 48) by done.
  eapply wp_mono; [apply (IH (spv - Z.of_nat (length a)) _ s1 sp1 Hargs); [lia | done | lia | lia |]|].
  - destruct Hpush as [Hlen Hpush]. split; [simpl; lia|]. intros i b Hib. destruct i as [|i].
    + rewrite Nat.add_0_r, Ha in Hib. injection Hib as <-. eexists. split; [done|].
      split_and!; [lia | unfold total in *; lia | by eapply stores_holds].
    + rewrite Nat.add_succ_r in Hib. destruct (Hpush i b Hib) as (p & Hp & H1 & H2 & H3). exists p.
      split_and!; [done | lia | done |]. eapply stores_keeps; [exact Hst | lia | lia | lia | done].
  - intros res s2 (sp2 & Hb2 & Hres). exists sp2. split; [done|]. destruct res as [e|[spv' ptrs']]; [done|].
    destruct Hres as (H1 & H2 & H3 & H4). split_and!; [done | done | done |].
    intros ix Hix. rewrite H4 by done. by apply (st_pages _ _ _ _ Hst).
Qed.

(** What the arguments take of the stack. *)
Definition stack_need (args : list (list Z)) : Z :=
  (total args + 15) / 16 * 16 + 8 * (Z.of_nat (length args) + 1).

(** [argv] is the NULL-terminated array at [argv_va] of the addresses of the
    arguments, all in the user stack. *)
Record laid_out (sp : space) (argv_va : Z) (args : list (list Z)) : Prop := {
  lo_arg : forall i a, args !! i = Some a -> exists p, argv_va < p /\ p + Z.of_nat (length a) <= USER_STACK_TOP /\
    holds_bytes sp (argv_va + 8 * Z.of_nat i) (le 8 p) /\ holds_bytes sp p a;
  lo_null : holds_bytes sp (argv_va + 8 * Z.of_nat (length args)) (le 8 0)
}.

Lemma concat_le_lookup ps i p j b :
  ps !! i = Some p -> le 8 p !! j = Some b -> concat (map (le 8) ps) !! (8 * i + j)%nat = Some b.
Proof.
  revert i. induction ps as [|q ps IH]; intros i; [done|]. cbn [map concat]. destruct i as [|i].
  - intros [= ->] Hj. change (8 * 0 + j)%nat with j. rewrite lookup_app_l; [done|]. by apply lookup_lt_Some in Hj.
  - intros Hp Hj. change (ps !! i = Some p) in Hp. pose proof (IH i Hp Hj) as Hr. rewrite lookup_app_r by (rewrite length_le; lia). rewrite length_le.
    rewrite <- Hr. f_equal. lia.
Qed.

Lemma length_concat_le ps : length (concat (map (le 8) ps)) = (8 * length ps)%nat.
Proof. induction ps as [|p ps IH]; [done|]. cbn [map concat length]. rewrite length_app, length_le, IH. lia. Qed.

Lemma concat_le_bytes ps : Forall is_byte (concat (map (le 8) ps)).
Proof. induction ps as [|p ps IH]; [apply Forall_nil_2|]. cbn [map concat]. apply Forall_app. split; [apply le_bytes | done]. Qed.

Lemma align16 x : 0 <= x < 2 ^ 63 -> Z.land x (not64 0xf) = x - x mod 16.
Proof. intros Hx. change (not64 0xf) with (2 ^ 64 - 2 ^ 4). rewrite land_high_mod by lia. change (2 ^ 4) with 16. by rewrite Z.mod_small by lia. Qed.

Lemma wp_setup_exec_stack s sp args :
  Forall c_arg args -> built s sp ->
  wp (setup_exec_stack page_pool_start r args (length args)) (fun res s' => exists sp', built s' sp' /\
    match res with
    | inl e => e = INVALID_ARGS /\ (exhausted page_pool_start s' \/ USER_STACK_SIZE < stack_need args)
    | inr (usp, argv) => argv = usp /\ usp = USER_STACK_TOP - stack_need args /\ stack_base <= usp /\
        laid_out sp' argv args /\ stack_only sp sp'
    end) s.
Proof.
  intros Hargs Hb. unfold setup_exec_stack. apply wp_bind.
  assert (Hdrop : total (drop (length args) args) = 0) by by rewrite drop_all.
  eapply wp_mono; [apply (wp_push_args args (length args) USER_STACK_TOP [] s sp Hargs); [lia | done | lia | done |]|].
  { split; [simpl; lia|]. intros i a Ha. apply lookup_lt_Some in Ha. lia. }
  assert (Hneed : total args <= stack_need args) by (unfold stack_need, total; Z.to_euclidean_division_equations; lia).
  intros res s1 (sp1 & Hb1 & Hres). destruct res as [e|[spv ptrs]].
  { apply wp_ret. exists sp1. split; [done|]. destruct Hres as (-> & [?|?]); (split; [done|]); [by left | right; lia]. }
  destruct Hres as (-> & Hlo & [Hlen Hpush] & Honly). rewrite Nat.sub_0_r in Hlen.
  assert (Hnn : 0 <= total args) by (unfold total; lia).
  rewrite align16 by (unfold stack_base, USER_STACK_TOP, USER_STACK_SIZE in *; lia).
  set (spv := USER_STACK_TOP - total args) in *. set (sp16 := spv - spv mod 16).
  set (n := (Z.of_nat (length args) + 1) * 8).
  assert (E16 : sp16 - n = USER_STACK_TOP - stack_need args).
  { unfold sp16, spv, n, stack_need, USER_STACK_TOP. Z.to_euclidean_division_equations. lia. }
  assert (Hsp16 : sp16 <= spv) by (unfold sp16; pose proof (Z.mod_pos_bound spv 16); lia).
  destruct (Z.ltb_spec sp16 (stack_base + n)) as [Hbig|Hfit].
  { apply wp_ret. exists sp1. split; [done|]. split; [done|]. right. unfold stack_base in *. lia. }
  set (bytes := concat (map (le 8) (ptrs ++ [0]))).
  assert (Hbl : n = Z.of_nat (length bytes)) by (unfold bytes, n; rewrite length_concat_le, length_app, Hlen; simpl; lia).
  apply wp_bind. rewrite Hbl at 2. eapply wp_mono; [apply (wp_stack_write s1 sp1 (sp16 - n) bytes Hb1)|].
  { lia. } { unfold spv in *. lia. } { apply concat_le_bytes. }
  intros res s2 (sp2 & Hb2 & [[-> Hst] | [-> Hex]]); cbn [negb Z.eqb SUCCESS INVALID_ARGS]; apply wp_ret; exists sp2; (split; [done|]).
  2: { split; [done | by left]. }
  pose proof (stores_holds _ _ _ _ Hst) as Hargv. assert (Hpos : 0 <= stack_base) by done. assert (Htop : USER_STACK_TOP < 2 ^ 48) by done.
  assert (Hword : forall i p, (ptrs ++ [0]) !! i = Some p -> holds_bytes sp2 (sp16 - n + 8 * Z.of_nat i) (le 8 p)).
  { intros i p Hp j b Hj. rewrite <- Z.add_assoc. replace (8 * Z.of_nat i + Z.of_nat j) with (Z.of_nat (8 * i + j)) by lia.
    apply Hargv. unfold bytes. by eapply concat_le_lookup. }
  split_and!; [done | done | lia | |].
  - constructor.
    + intros i a Ha. destruct (Hpush i a Ha) as (p & Hp & H1 & H2 & H3). exists p.
      split_and!; [unfold n in *; lia | done | |].
      * apply Hword. rewrite lookup_app_l; [done | by apply lookup_lt_Some in Hp].
      * eapply stores_keeps; [exact Hst | lia | lia | lia | done].
    + apply Hword. rewrite <- Hlen. by rewrite lookup_app_r, Nat.sub_diag by done.
  - intros ix Hix. rewrite (st_pages _ _ _ _ Hst) by done. by apply Honly.
Qed.

End theory.
