(* ===== verification/ExecImage.v ===== *)
(** * Loading a program

    kernel/fs/elf_loader.c: reading and checking the ELF header, and the part
    of [elf_exec_process] that builds the new image (lines 313 to 440), from
    the copy of the arguments to the last program header: a new page table
    with its kernel stack, the arguments on the user stack and one memory
    region per loadable segment.  Every failure destroys the new table and
    closes the file.

    The file system is reached through the interface [ExecFiles]. *)

From S2P Require Import Prelude Errors Bytes KString Services PageAlloc PageTable Cow Fork Destroy AddressSpace VmRegion DemandPaging ExecStack.

(** ** The file system as the loader calls it *)

Class ExecFiles (F : Type) := {
  (** [k_open(path, O_RDONLY)] *)
  ef_open : list Z -> stM F Z;
  (** [get_oft_entry_by_fd]: the error code and the entry. *)
  ef_entry : Z -> stM F (Z * Z);
  (** [entry->inode->inode.metadata.perm], [entry->ino_id] and [get_file_size(entry)]. *)
  ef_perm : Z -> stM F Z;
  ef_ino : Z -> stM F Z;
  ef_size : Z -> stM F Z;
  (** [k_lseek(fd, offset, F_SEEK_SET)] *)
  ef_lseek : Z -> Z -> stM F Z;
  (** [k_read(entry, buf, n)]: the result and the bytes read. *)
  ef_read : Z -> Z -> stM F (Z * list Z);
  ef_close : Z -> stM F Z
}.

(** ** The ELF structures *)

Definition ELF_NIDENT : nat := 16.
Definition ELF_CLASS_64 : Z := 2.
Definition ELF_DATA_LSB : Z := 1.
Definition ELF_VERSION_CURRENT : Z := 1.
Definition ELF_TYPE_EXEC : Z := 2.
Definition ELF_MACHINE_AARCH64 : Z := 183.
Definition ELF_PH_TYPE_LOAD : Z := 1.

(** The constants of elf_loader.c. *)
Definition elf_constants : list Z :=
  [Z.of_nat ELF_NIDENT; ELF_CLASS_64; ELF_DATA_LSB; ELF_VERSION_CURRENT; ELF_TYPE_EXEC; ELF_MACHINE_AARCH64; ELF_PH_TYPE_LOAD;
   EXEC_MAX_ARGS; EXEC_MAX_ARG_LEN].

Definition sizeof_ehdr : Z := 64.
Definition sizeof_phdr : Z := 56.

Record elf64_ehdr := mkEhdr {
  e_ident : list Z;
  e_type : Z;
  e_machine : Z;
  e_version : Z;
  e_entry : Z;
  e_phoff : Z;
  e_shoff : Z;
  e_flags : Z;
  e_ehsize : Z;
  e_phentsize : Z;
  e_phnum : Z;
  e_shentsize : Z;
  e_shnum : Z;
  e_shstrndx : Z
}.

(** The structure read over the bytes of a buffer. *)
Definition field (b : list Z) (off n : nat) : Z := unle (slice b off n).

Definition ehdr_of (b : list Z) : elf64_ehdr :=
  mkEhdr (slice b 0 ELF_NIDENT) (field b 16 2) (field b 18 2) (field b 20 4) (field b 24 8) (field b 32 8)
    (field b 40 8) (field b 48 4) (field b 52 2) (field b 54 2) (field b 56 2) (field b 58 2) (field b 60 2) (field b 62 2).

(** [p_type] is followed by four bytes of padding. *)
Record elf64_phdr := mkPhdr {
  p_type : Z;
  p_offset : Z;
  p_vaddr : Z;
  p_paddr : Z;
  p_filesz : Z;
  p_memsz : Z;
  p_align : Z
}.

Definition phdr_of (b : list Z) : elf64_phdr :=
  mkPhdr (field b 0 4) (field b 8 8) (field b 16 8) (field b 24 8) (field b 32 8) (field b 40 8) (field b 48 8).

Definition validate_elf_header (header : elf64_ehdr) (file_size : Z) : Z :=
  let ident i := default 0 (e_ident header !! i) in
  if file_size <? sizeof_ehdr then INVALID_ARGS else
  if negb (ident 0%nat =? 0x7f) || negb (ident 1%nat =? 69) || negb (ident 2%nat =? 76) || negb (ident 3%nat =? 70)
  then INVALID_ARGS else
  if negb (ident 4%nat =? ELF_CLASS_64) || negb (ident 5%nat =? ELF_DATA_LSB) || negb (ident 6%nat =? ELF_VERSION_CURRENT)
  then INVALID_ARGS else
  if negb (e_type header =? ELF_TYPE_EXEC) || negb (e_machine header =? ELF_MACHINE_AARCH64)
     || negb (e_version header =? ELF_VERSION_CURRENT)
  then INVALID_ARGS else
  if (e_ehsize header <? sizeof_ehdr) || negb (e_phentsize header =? sizeof_phdr) then INVALID_ARGS else
  if e_phnum header =? 0 then INVALID_ARGS else
  if (file_size <? e_phoff header) || ((file_size - e_phoff header) / e_phentsize header <? e_phnum header)
  then INVALID_ARGS else SUCCESS.

(** ** Building the image *)

(** What the rest of [elf_exec_process] uses. *)
Record image := mkImage {
  im_table : Z;
  im_entry_pc : Z;
  im_user_sp : Z;
  im_user_argv : Z;
  im_argc : nat;
  im_name : list Z
}.

Section load.
Variable page_pool_start : Z.
Context {F : Type} `{ExecFiles F}.

Abbreviation VM := (stM (vm_state F)).

Definition initialize_user_page_table : VM Z :=
  l0 ← in_pt (alloc_page page_pool_start);
  if l0 =? 0 then mret 0 else
  ok ← add_page_table_struct l0;
  mret (if ok =? 0 then 0 else l0).

Definition destroy_page_table (table : Z) : VM unit :=
  if table =? 0 then mret tt else
  _ ← free_page_table_struct table;
  in_pt (destroy_page_table_level 3 table).

Fixpoint read_exact_loop (fuel : nat) (entry size : Z) (buf : list Z) : VM (Z * list Z) :=
  if negb (Z.of_nat (length buf) <? size) then mret (SUCCESS, buf)
  else
    match fuel with
    | O => fault
    | S fuel =>
        r ← in_fs (ef_read entry (size - Z.of_nat (length buf)));
        let '(bytes_read, bytes) := r in
        if bytes_read <? 0 then mret (bytes_read, buf) else
        if bytes_read =? 0 then mret (FILE_READ_ERROR, buf) else
        read_exact_loop fuel entry size (buf ++ bytes)
    end.

(** The error code and the bytes; each turn reads at least one byte. *)
Definition read_exact_at (fd entry offset size : Z) : VM (Z * list Z) :=
  err ← in_fs (ef_lseek fd (to_s32 offset));
  if err <? 0 then mret (err, []) else
  read_exact_loop (Z.to_nat size) entry size [].

Definition elf_load_user_segment (table ino_id file_offset file_size va mem_size : Z) : VM Z :=
  add_vm_region table ino_id file_offset file_size va mem_size
    (Z.lor (Z.lor MMAP_PROT_READ MMAP_PROT_WRITE) MMAP_PROT_EXEC) (Z.lor MAP_PRIVATE MAP_FIXED).

Definition kernel_stack_base : Z := PROC_KERNEL_STACK_TOP - PROC_KERNEL_STACK_SIZE.

(** The loop that maps the kernel stack; [false] when a page is missing. *)
Fixpoint seed_kernel_stack (n : nat) (table va : Z) : VM bool :=
  match n with
  | O => mret true
  | S n =>
      page ← in_pt (pt_seed_kernel_page page_pool_start table va);
      if page =? 0 then mret false else seed_kernel_stack n table (va + PAGE_SIZE)
  end.

(** The failures after the table was made. *)
Definition exec_abort (table entry err : Z) : VM Z :=
  _ ← destroy_page_table table;
  _ ← in_fs (ef_close entry);
  mret err.

(** The loop over the program headers, from number [i]. *)
Fixpoint load_segments (n : nat) (i : Z) (fd entry table : Z) (header : elf64_ehdr) (file_size : Z) : VM Z :=
  match n with
  | O => mret SUCCESS
  | S n =>
      let ph_offset := to_u64 (e_phoff header + i * e_phentsize header) in
      r ← read_exact_at fd entry ph_offset sizeof_phdr;
      let '(err, bytes) := r in
      if negb (err =? SUCCESS) then exec_abort table entry err else
      let phdr := phdr_of bytes in
      if negb (p_type phdr =? ELF_PH_TYPE_LOAD) then load_segments n (i + 1) fd entry table header file_size else
      if (p_memsz phdr <? p_filesz phdr) || (file_size <? p_offset phdr) || (file_size - p_offset phdr <? p_filesz phdr)
      then exec_abort table entry INVALID_ARGS else
      ino ← in_fs (ef_ino entry);
      err ← elf_load_user_segment table ino (p_offset phdr) (p_filesz phdr) (p_vaddr phdr) (p_memsz phdr);
      if negb (err =? SUCCESS) then exec_abort table entry err else
      err ← in_fs (ef_lseek fd (to_s32 (p_offset phdr + p_filesz phdr)));
      if err <? 0 then exec_abort table entry err else
      load_segments n (i + 1) fd entry table header file_size
  end.

(** From the header on: the new table and what is in it. *)
Definition load_table (fd entry : Z) (args : list (list Z)) (header : elf64_ehdr) (file_size : Z) : VM (Z + Z * Z * Z) :=
  new_table ← initialize_user_page_table;
  if new_table =? 0 then _ ← in_fs (ef_close entry); mret (inl INVALID_ARGS) else
  ok ← seed_kernel_stack 2 new_table kernel_stack_base;
  if negb (ok : bool) then e ← exec_abort new_table entry INVALID_ARGS; mret (inl e) else
  r ← in_pt (setup_exec_stack page_pool_start new_table args (length args));
  match r with
  | inl err => e ← exec_abort new_table entry err; mret (inl e)
  | inr (user_sp, user_argv) =>
      err ← load_segments (Z.to_nat (e_phnum header)) 0 fd entry new_table header file_size;
      if negb (err =? SUCCESS) then mret (inl err) else
      err ← in_fs (ef_close entry);
      if negb (err =? SUCCESS) then _ ← destroy_page_table new_table; mret (inl err) else
      mret (inr (new_table, user_sp, user_argv))
  end.

Definition build_image (path : list Z) (argv : option (list (list Z))) : VM (Z + image) :=
  r ← copy_exec_args argv;
  let '(err, args) := r in
  if negb (err =? SUCCESS) then mret (inl err) else
  let exec_name := copy_exec_name 32 path in
  fd ← in_fs (ef_open path);
  if fd <? 0 then mret (inl fd) else
  r ← in_fs (ef_entry fd);
  let '(err, entry) := r in
  if negb (err =? SUCCESS) then mret (inl err) else
  perm ← in_fs (ef_perm entry);
  if Z.land perm 1 =? 0 then _ ← in_fs (ef_close entry); mret (inl INVALID_PERMISSIONS) else
  file_size ← in_fs (ef_size entry);
  if file_size <=? 0 then _ ← in_fs (ef_close entry); mret (inl FILE_READ_ERROR) else
  r ← read_exact_at fd entry 0 sizeof_ehdr;
  let '(err, bytes) := r in
  if negb (err =? SUCCESS) then _ ← in_fs (ef_close entry); mret (inl err) else
  let header := ehdr_of bytes in
  let err := validate_elf_header header file_size in
  if negb (err =? SUCCESS) then _ ← in_fs (ef_close entry); mret (inl err) else
  t ← load_table fd entry args header file_size;
  match t with
  | inl err => mret (inl err)
  | inr (table, user_sp, user_argv) =>
      mret (inr (mkImage table (e_entry header) user_sp user_argv (length args) exec_name))
  end.

End load.

(** ** What loading relies on from the file system

    [of_path] is the file a path names; open files have contents and a
    position, and reading does not change contents. *)

Record open_files := mkFiles {
  of_entry : Z -> Z;
  of_data : Z -> list Z;
  of_ino : Z -> Z
}.

Class ExecFileLaws (F : Type) `{ExecFiles F} := {
  of_path : F -> list Z -> list Z * Z;
  of_view : F -> open_files;
  of_pos : F -> Z -> Z;
  data_law : forall f e, Forall is_byte (of_data (of_view f) e);
  open_law : forall path f, wp (ef_open path) (fun fd f' => 0 <= fd ->
    let e := of_entry (of_view f') fd in (of_data (of_view f') e, of_ino (of_view f') e) = of_path f path) f;
  entry_law : forall fd f, wp (ef_entry fd) (fun r f' => of_view f' = of_view f /\
    (fst r = SUCCESS -> snd r = of_entry (of_view f) fd)) f;
  perm_law : forall e f, wp (ef_perm e) (fun _ f' => of_view f' = of_view f) f;
  ino_law : forall e f, wp (ef_ino e) (fun i f' => of_view f' = of_view f /\ i = of_ino (of_view f) e) f;
  size_law : forall e f, wp (ef_size e) (fun n f' => of_view f' = of_view f /\
    (0 < n -> n = Z.of_nat (length (of_data (of_view f) e)) /\ n < 2 ^ 31)) f;
  lseek_law : forall fd off f, wp (ef_lseek fd off) (fun n f' => of_view f' = of_view f /\
    (0 <= n -> of_pos f' (of_entry (of_view f) fd) = off)) f;
  read_law : forall e n f, 0 < n -> 0 <= of_pos f e -> wp (ef_read e n) (fun r f' => of_view f' = of_view f /\
    (0 <= fst r -> fst r = Z.of_nat (length (snd r)) /\ fst r <= n /\
      snd r = slice (of_data (of_view f) e) (Z.to_nat (of_pos f e)) (length (snd r)) /\ of_pos f' e = of_pos f e + fst r)) f;
  close_law : forall e f, wp (ef_close e) (fun _ _ => True) f
}.

(** ** Outcomes

    [xp H m Q s]: [m] returns with [Q], or stops in [fatal_exception] because
    an allocation was refused, or hangs for the reason [H]. *)

Section outcomes.
Context {F : Type} (H : Prop).
Implicit Types (s : vm_state F).

Definition xp {A} (m : stM (vm_state F) A) (Q : A -> vm_state F -> Prop) s : Prop :=
  match m s with
  | Ok (a, s') => Q a s' /\ (refusal s' -> refusal s)
  | Fatal => refusal s
  | Hang => H
  | Fault => False
  end.

Lemma xp_ret {A} (a : A) (Q : A -> vm_state F -> Prop) s : Q a s -> xp (mret a) Q s.
Proof. by split. Qed.

Lemma xp_bind {A B} (m : stM (vm_state F) A) (f : A -> stM (vm_state F) B) (Q : B -> vm_state F -> Prop) s :
  xp m (fun a s' => xp (f a) Q s') s -> xp (m ≫= f) Q s.
Proof.
  unfold xp, mbind, stM_bind. destruct (m s) as [[a s']| | |]; try done.
  destruct (f a s') as [[b s'']| | |]; intros [Hf Hr]; try done; [|auto].
  destruct Hf as [HQ Hr']. auto.
Qed.

Lemma xp_mono {A} (m : stM (vm_state F) A) (P Q : A -> vm_state F -> Prop) s :
  xp m P s -> (forall a s', P a s' -> Q a s') -> xp m Q s.
Proof. unfold xp. destruct (m s) as [[a s']| | |]; try done. intros [HP Hr] HPQ. split; auto. Qed.

Lemma xp_hp {A} (m : stM (vm_state F) A) (Q : A -> vm_state F -> Prop) s : hp m Q s -> xp m Q s.
Proof. unfold hp, xp. by destruct (m s) as [[a s']| | |]. Qed.

Lemma xp_pt {A} (m : M A) (Q : A -> vm_state F -> Prop) s :
  wp m (fun a p => Q a (set_pt p s)) (vm_pt s) -> xp (in_pt m) Q s.
Proof. intros (a & p & E & HQ). unfold xp, in_pt, lift. rewrite E. split; [done|]. by intros [n Hn]; exists n. Qed.

Lemma xp_fs {A} (m : stM F A) (Q : A -> vm_state F -> Prop) s :
  wp m (fun a f => Q a (set_fs f s)) (vm_fs s) -> xp (in_fs m) Q s.
Proof. intros (a & p & E & HQ). unfold xp, in_fs, lift. rewrite E. split; [done|]. by intros [n Hn]; exists n. Qed.

Lemma xp_eq {A} (m : stM (vm_state F) A) a (Q : A -> vm_state F -> Prop) s : m s = Ok (a, s) -> Q a s -> xp m Q s.
Proof. intros E HQ. unfold xp. by rewrite E. Qed.

Lemma xp_result {A} (m : stM (vm_state F) A) (Q : A -> vm_state F -> Prop) s :
  xp m Q s -> xp m (fun a s' => Q a s' /\ m s = Ok (a, s')) s.
Proof. unfold xp. destruct (m s) as [[a s']| | |]; try done. by intros [HQ Hr]. Qed.

(** A lock that is held. *)
Lemma xp_hang {A} (m : stM (vm_state F) A) (Q : A -> vm_state F -> Prop) s : m s = Hang -> H -> xp m Q s.
Proof. intros E HH. unfold xp. by rewrite E. Qed.

End outcomes.

(** ** Copying the arguments *)

Definition is_string (w : list Z) : Prop := Forall (fun b => 0 < b < 256) w.

Lemma char_at_string w i b : is_string w -> w !! i = Some b -> char_at w (Z.of_nat i) = b /\ b <> 0.
Proof. intros Hw Hi. unfold char_at. rewrite Nat2Z.id, Hi. pose proof (Forall_lookup_1 _ _ _ _ Hw Hi). simpl in *. split; [done | lia]. Qed.

Lemma arg_len_eq w fuel len :
  is_string w -> 0 <= len <= Z.of_nat (length w) -> len <= EXEC_MAX_ARG_LEN -> EXEC_MAX_ARG_LEN - len <= Z.of_nat fuel ->
  arg_len fuel w len = Z.min (Z.of_nat (length w)) EXEC_MAX_ARG_LEN.
Proof.
  intros Hw. revert len. induction fuel as [|fuel IH]; intros len Hl Hm Hf; cbn [arg_len]; [lia|].
  destruct (Z.ltb_spec len EXEC_MAX_ARG_LEN) as [Hlt|]; cbn [andb]; [|lia].
  destruct (decide (len = Z.of_nat (length w))) as [->|Hne].
  - unfold char_at. rewrite Nat2Z.id, lookup_ge_None_2 by lia. simpl. lia.
  - destruct (lookup_lt_is_Some_2 w (Z.to_nat len)) as [b Hb]; [lia|].
    destruct (char_at_string w _ b Hw Hb) as [E Hb0]. rewrite Z2Nat.id in E by lia. rewrite E, (proj2 (Z.eqb_neq _ _) Hb0).
    cbn [negb]. apply IH; lia.
Qed.

Lemma copied_bytes w : map (char_at w) (seqZ 0 (Z.of_nat (length w) + 1)) = w ++ [0].
Proof.
  apply list_eq. intros i. rewrite list_lookup_fmap. destruct (decide (i < length w + 1)%nat) as [Hi|Hi].
  - rewrite lookup_seqZ_lt by lia. simpl. unfold char_at. rewrite Z.add_0_l, Nat2Z.id.
    destruct (decide (i < length w)%nat).
    + rewrite lookup_app_l by done. by destruct (lookup_lt_is_Some_2 w i) as [b ->].
    + rewrite lookup_app_r by lia. replace i with (length w) by lia. by rewrite Nat.sub_diag, lookup_ge_None_2 by lia.
  - rewrite lookup_seqZ_ge by lia. symmetry. apply lookup_ge_None_2. rewrite length_app. simpl. lia.
Qed.

Definition terminated (w : list Z) : list Z := w ++ [0].

(** Only the heap is used. *)
Definition heap_only {F} (s s' : vm_state F) : Prop := exists h, s' = set_heap h s.

Lemma hp_copy_exec_arg {F} (s : vm_state F) w :
  is_string w ->
  hp (copy_exec_arg w) (fun r s' => heap_only s s' /\ (r = (INVALID_ARGS, []) \/ r = (SUCCESS, terminated w))) s.
Proof.
  intros Hw. unfold copy_exec_arg. rewrite arg_len_eq by (done || unfold EXEC_MAX_ARG_LEN; lia).
  destruct (Z.eqb_spec (Z.min (Z.of_nat (length w)) EXEC_MAX_ARG_LEN) EXEC_MAX_ARG_LEN) as [E|E].
  { apply hp_ret. split; [exists (vm_heap s); by destruct s | by left]. }
  rewrite Z.min_l by lia. apply hp_bind, hp_kmalloc; [unfold EXEC_MAX_ARG_LEN, KERNEL_HEAP_SIZE in *; lia|].
  intros [] h _ _; cbn [negb]; apply hp_ret; (split; [by exists h|]); [right | by left]. by rewrite copied_bytes.
Qed.

Lemma hp_copy_args_loop {F} argv : forall args (s : vm_state F),
  Forall is_string argv ->
  hp (copy_args_loop argv args) (fun r s' => heap_only s s' /\
    (r = (INVALID_ARGS, []) \/ r = (SUCCESS, args ++ map terminated argv))) s.
Proof.
  induction argv as [|w argv IH]; intros args s Hs; cbn [copy_args_loop].
  { apply hp_ret. split; [exists (vm_heap s); by destruct s | right; by rewrite app_nil_r]. }
  apply Forall_cons in Hs as [Hw Hs].
  case_bool; [apply hp_ret; split; [exists (vm_heap s); by destruct s | by left]|].
  apply hp_bind. eapply hp_mono; [by apply hp_copy_exec_arg|]. intros r s1 [[h ->] [-> | ->]] _; cbn [negb Z.eqb SUCCESS INVALID_ARGS].
  { apply hp_ret. split; [by exists h | by left]. }
  eapply hp_mono; [by apply IH|]. intros r s2 [[h2 ->] Hr] _. split; [by exists h2|].
  cbn [map]. by rewrite <- app_assoc in Hr.
Qed.

Definition args_of (argv : option (list (list Z))) : list (list Z) := map terminated (default [] argv).

Lemma hp_copy_exec_args {F} argv (s : vm_state F) :
  Forall is_string (default [] argv) ->
  hp (copy_exec_args argv) (fun r s' => heap_only s s' /\ (r = (INVALID_ARGS, []) \/ r = (SUCCESS, args_of argv))) s.
Proof.
  destruct argv as [argv|]; intros Hs; [by apply (hp_copy_args_loop argv [])|].
  apply hp_ret. split; [exists (vm_heap s); by destruct s | by right].
Qed.

Lemma args_of_c_arg argv : Forall is_string (default [] argv) -> Forall c_arg (args_of argv).
Proof. intros Hs. unfold args_of. apply Forall_map. eapply Forall_impl; [exact Hs|]. intros w Hw. by exists w. Qed.

(** ** Reading *)

Section load_theory.
Variable page_pool_start : Z.
Hypothesis pool_in_ram : KERNEL_VA_BASE < page_pool_start <= RAM_end.
Context {F : Type} `{ExecFileLaws F} (X : Prop).
Implicit Types (s : vm_state F).

(** Only the file system is used, and the open files stay. *)
Definition files_only s s' : Prop := exists f, s' = set_fs f s /\ of_view f = of_view (vm_fs s).

Lemma files_only_refl s : files_only s s.
Proof. exists (vm_fs s). by destruct s. Qed.

Lemma files_only_trans s1 s2 s3 : files_only s1 s2 -> files_only s2 s3 -> files_only s1 s3.
Proof. intros (f & -> & E) (f' & -> & E'). exists f'. split; [done | simpl in E'; congruence]. Qed.

Lemma slice_plus (d : list Z) o n k : slice d o n ++ slice d (o + n) k = slice d o (n + k).
Proof. rewrite (slice_split d o (n + k) n) by lia. by replace (n + k - n)%nat with k by lia. Qed.

Lemma xp_read_exact_loop entry size off fuel : forall buf s,
  let d := of_data (of_view (vm_fs s)) entry in
  0 <= off -> of_pos (vm_fs s) entry = off + Z.of_nat (length buf) ->
  buf = slice d (Z.to_nat off) (length buf) -> size - Z.of_nat (length buf) <= Z.of_nat fuel -> Z.of_nat (length buf) <= size ->
  xp X (read_exact_loop fuel entry size buf) (fun r s' => files_only s s' /\
    (fst r = SUCCESS -> snd r = slice d (Z.to_nat off) (Z.to_nat size) /\ Z.of_nat (length (snd r)) = size)) s.
Proof.
  induction fuel as [|fuel IH]; intros buf s d Hoff Hpos Hbuf Hfuel Hle; cbn [read_exact_loop];
    (destruct (Z.ltb_spec (Z.of_nat (length buf)) size) as [Hlt|Hge]; cbn [negb]).
  - lia.
  - apply xp_ret. split; [apply files_only_refl|]. intros _. simpl. split; [|lia].
    replace (Z.to_nat size) with (length buf) by lia. done.
  - apply xp_bind, xp_fs. eapply wp_mono; [apply read_law; lia|]. intros [n bytes] f' [Hv Hn]. simpl in Hn.
    destruct (Z.ltb_spec n 0) as [Hneg|Hnn].
    { apply xp_ret. split; [by exists f'|]. simpl. intros ->. done. }
    destruct (Z.eqb_spec n 0) as [->|Hn0]; [apply xp_ret; split; [by exists f' | done]|].
    destruct (Hn Hnn) as (E1 & E2 & E3 & E4).
    eapply xp_mono; [apply (IH (buf ++ bytes) (set_fs f' s)); rewrite ?length_app; cbn [vm_fs set_fs]; try lia|].
    + rewrite Hv. fold d. rewrite <- (slice_plus d (Z.to_nat off) (length buf) (length bytes)), <- Hbuf. f_equal.
      rewrite E3 at 1. fold d. f_equal. lia.
    + cbn [vm_fs set_fs]. rewrite Hv. fold d. intros r s' [Hf Hr]. split; [|done].
      eapply files_only_trans; [|exact Hf]. by exists f'.
  - apply xp_ret. split; [apply files_only_refl|]. intros _. simpl. split; [|lia].
    replace (Z.to_nat size) with (length buf) by lia. done.
Qed.

Lemma xp_read_exact_at fd off size s :
  let entry := of_entry (of_view (vm_fs s)) fd in
  let d := of_data (of_view (vm_fs s)) entry in
  0 <= off < 2 ^ 31 -> 0 <= size ->
  xp X (read_exact_at fd entry off size) (fun r s' => files_only s s' /\
    (fst r = SUCCESS -> snd r = slice d (Z.to_nat off) (Z.to_nat size) /\ Z.of_nat (length (snd r)) = size)) s.
Proof.
  intros entry d Hoff Hsize. unfold read_exact_at. rewrite to_s32_id by lia.
  apply xp_bind, xp_fs. eapply wp_mono; [apply lseek_law|]. intros n f' [Hv Hn].
  destruct (Z.ltb_spec n 0) as [Hneg|Hnn]; [apply xp_ret; split; [by exists f' | simpl; intros ->; done]|].
  eapply xp_mono; [apply (xp_read_exact_loop entry size off _ [] (set_fs f' s)); cbn [vm_fs set_fs length]; try lia|].
  - unfold entry; rewrite (Hn Hnn). lia.
  - done.
  - cbn [vm_fs set_fs]. rewrite Hv. fold d. intros r s' [Hf Hr]. split; [|done].
    eapply files_only_trans; [|exact Hf]. by exists f'.
Qed.

(** *** The state while the image is built *)

Variables (s0 : vm_state F) (lab0 : gmap Z (Z * list Z)) (used0 : gset Z).
Hypothesis Hok0 : vm_ok page_pool_start (vm_pt s0) lab0 used0.
Hypothesis Hlock0 : vm_lock s0 = false.
Hypothesis Hstructs0 : forall t, is_Some (smap s0 !! t) -> is_root lab0 t.

(** The new table [r] with its pages [sp] and its regions [segs]. *)
Record loading (r : Z) s (sp : space) (segs : list mem_segment) : Prop := {
  lg_lock : vm_lock s = false;
  lg_new : ~ is_root lab0 r;
  lg_built : built page_pool_start (vm_pt s0) lab0 r (vm_pt s) sp;
  lg_segs : exists m, vm_structs s = Some m /\ default [] (m !! r) = segs /\ forall t, t <> r -> m !! t = smap s0 !! t
}.

(** Every address space of [s0] is as it was, and so are the regions. *)
Record intact s : Prop := {
  it_lock : vm_lock s = false;
  it_ok : exists lab used, vm_ok page_pool_start (vm_pt s) lab used /\ forall q, is_root lab0 q -> is_root lab q;
  it_space : forall q sp, is_root lab0 q -> space_rel (vm_pt s0) q sp -> space_rel (vm_pt s) q sp;
  it_segs : forall t, smap s !! t = smap s0 !! t
}.

Lemma intact_refl : intact s0.
Proof. constructor; try done. by exists lab0, used0. Qed.

(** Neither the heap nor the file system matters. *)
Definition memory_same s s' : Prop := vm_pt s' = vm_pt s /\ vm_structs s' = vm_structs s /\ vm_lock s' = vm_lock s.

Lemma memory_same_refl s : memory_same s s.
Proof. done. Qed.

Lemma memory_same_trans s1 s2 s3 : memory_same s1 s2 -> memory_same s2 s3 -> memory_same s1 s3.
Proof. intros (?&?&?) (?&?&?). split_and!; congruence. Qed.

Lemma files_memory s s' : files_only s s' -> memory_same s s'.
Proof. by intros (f & -> & _). Qed.

Lemma heap_memory s s' : heap_only s s' -> memory_same s s'.
Proof. by intros [h ->]. Qed.

Lemma intact_same s s' : memory_same s s' -> intact s -> intact s'.
Proof. intros (E1 & E2 & E3) [L O Sp G]. constructor; unfold smap in *; rewrite ?E1, ?E2, ?E3; done. Qed.

Lemma loading_same r s s' sp segs : memory_same s s' -> loading r s sp segs -> loading r s' sp segs.
Proof. intros (E1 & E2 & E3) [L N B G]. constructor; rewrite ?E1, ?E2, ?E3; done. Qed.

Lemma xp_close e s (Q : Z -> vm_state F -> Prop) :
  (forall n s', memory_same s s' -> Q n s') -> xp X (in_fs (ef_close e)) Q s.
Proof. intros HQ. apply xp_fs. eapply wp_mono; [apply close_law|]. intros n f _. by apply HQ. Qed.

Lemma hp_add_struct s table :
  vm_lock s = false -> table <> 0 -> smap s !! table = None ->
  hp (add_page_table_struct table) (fun ok s' =>
    ok = 1 /\ with_structs s (<[table := []]> (smap s)) false s' \/ ok = 0 /\ with_structs s (smap s) false s') s.
Proof.
  intros Hl Ht Hno. unfold add_page_table_struct. rewrite (proj2 (Z.eqb_neq _ _) Ht).
  apply hp_bind, hp_lock; [done|]. apply hp_bind. eapply hp_mono; [apply hp_init|].
  intros ? s1 [h ->] _. apply hp_bind. eapply hp_mono; [apply hp_get_struct|].
  intros o s2 [-> [h2 ->]] _. change (smap (mkVM _ _ _ _ _)) with (smap s). rewrite Hno.
  apply hp_bind, hp_kmalloc; [done|]. intros [] h3 _ _; cbn [negb].
  2: { apply hp_bind, hp_unlock, hp_ret. right. split; [done | by exists h3]. }
  apply hp_bind, (hp_grow (fun b => b)); [done | done |]. intros h4 _.
  apply hp_bind. eapply hp_mono; [by apply hp_put_struct|]. intros [] s5 Hs5 _.
  - destruct Hs5 as [h5 ->]. apply hp_bind, hp_unlock, hp_ret. left. split; [done | by exists h5].
  - destruct Hs5 as [_ [h5 ->]]. apply hp_bind, hp_unlock, hp_ret. right. split; [done | by exists h5].
Qed.

Lemma xp_initialize s :
  memory_same s0 s ->
  xp X (initialize_user_page_table page_pool_start) (fun r s' =>
    vm_fs s' = vm_fs s /\ (r = 0 /\ intact s' \/ r <> 0 /\ loading r s' empty_space [])) s.
Proof.
  intros (Ept & Est & Elk). destruct (vo_pt _ _ _ _ Hok0) as [fl Hi]. unfold initialize_user_page_table.
  apply xp_bind, xp_pt. rewrite Ept. eapply wp_mono; [apply (wp_alloc_page _ pool_in_ram (vm_pt s0) fl used0), Hi|].
  intros c p1 [(-> & Ha & Em & Eg & _) | (Hc0 & Hcu & Hcr & Hca & Hfr & fl' & Ha)].
  - apply xp_ret. split; [done|]. left. split; [done|].
    assert (T : table_step page_pool_start (vm_pt s0) p1 lab0 lab0 used0 used0).
    { eapply alloc_table_step; [done | done | done | by rewrite Em | | by rewrite Eg]. intros. unfold page_struct. by rewrite Eg. }
    destruct (vm_ok_table_step _ _ _ _ _ _ _ Hok0 T) as [Hok1 HR]. constructor.
    + simpl. congruence.
    + by exists lab0, used0.
    + intros q sp Hq Hsp. by apply HR.
    + intros t. unfold smap. simpl. by rewrite Est.
  - rewrite (proj2 (Z.eqb_neq _ _) Hc0).
    destruct (new_root_vm _ pool_in_ram (vm_pt s0) p1 lab0 used0 c fl') as (Hok1 & Hlc & Hz & Hlf & HR); try done.
    assert (Hnr : ~ is_root lab0 c) by (unfold is_root; congruence).
    assert (Hsm : smap (set_pt p1 s) = smap s0) by (unfold smap; simpl; by rewrite Est).
    apply xp_bind, xp_hp. eapply hp_mono; [apply hp_add_struct; [simpl; congruence | done |]|].
    { rewrite Hsm. destruct (smap s0 !! c) eqn:E; [|done]. destruct Hnr. apply Hstructs0. by eexists. }
    rewrite Hsm. intros ok s2 [[-> [h ->]] | [-> [h ->]]] _; apply xp_ret; (split; [done|]).
    + right. rewrite (proj2 (Z.eqb_neq 1 0)) by lia. split; [done|]. constructor; [done | done | |].
      * constructor.
        -- exists (<[c := (c, [])]> lab0), ({[c]} ∪ used0). split_and!; [done | apply lookup_insert_eq | by apply insert_subseteq | by eapply (low_new_root page_pool_start pool_in_ram)].
        -- intros ix [Hl4 Hix]. unfold leaf. simpl. by rewrite empty_table.
        -- done.
        -- intros q sp' Hq _ Hsp. by apply HR.
        -- intros q ix Hq _ Hix. by apply Hlf.
      * eexists. split; [done|]. split; [by rewrite lookup_insert_eq|]. intros t Ht. by apply lookup_insert_ne.
    + left. split; [done|]. constructor; [done | | |done].
      * exists (<[c := (c, [])]> lab0), ({[c]} ∪ used0). split; [done|]. intros q Hq. unfold is_root.
        rewrite lookup_insert_ne; [done|]. intros <-. done.
      * intros q sp Hq Hsp. by apply HR.
Qed.

(** *** Pages of the new image *)

Definition blank_page : apage := mkAPage true (fun _ => 0).

Fixpoint seeded (n : nat) (va : Z) (sp : space) : space :=
  match n with
  | O => sp
  | S n => seeded n (va + PAGE_SIZE) (set_space sp (indices va) blank_page)
  end.

Lemma xp_seed_kernel_stack n : forall va r s sp segs,
  loading r s sp segs ->
  xp X (seed_kernel_stack page_pool_start n r va) (fun ok s' => vm_fs s' = vm_fs s /\ exists sp',
    loading r s' sp' segs /\ (ok = true -> sp' = seeded n va sp)) s.
Proof.
  induction n as [|n IH]; intros va r s sp segs Hl; cbn [seed_kernel_stack].
  { apply xp_ret. split; [done|]. by exists sp. }
  apply xp_bind, xp_pt. eapply wp_mono; [apply (wp_built_map _ pool_in_ram _ _ _ _ sp va ATTR_KERNEL_RW (lg_built _ _ _ _ Hl)); reflexivity|].
  intros page p1 [(-> & Hb & _) | (Hp & Hb & _)].
  - apply xp_ret. split; [done|]. exists sp. split; [|done]. destruct Hl as [L N _ G]. by constructor.
  - rewrite (proj2 (Z.eqb_neq _ _) Hp).
    eapply xp_mono; [apply (IH (va + PAGE_SIZE) r (set_pt p1 s) (set_space sp (indices va) blank_page) segs)|].
    + destruct Hl as [L N _ G]. by constructor.
    + intros ok s' [Ef Hs]. by split.
Qed.

Lemma xp_exec_stack r s sp segs args :
  loading r s sp segs -> Forall c_arg args ->
  xp X (in_pt (setup_exec_stack page_pool_start r args (length args))) (fun res s' => vm_fs s' = vm_fs s /\ exists sp',
    loading r s' sp' segs /\
    match res with
    | inl e => e = INVALID_ARGS
    | inr (usp, argv) => argv = usp /\ usp = USER_STACK_TOP - stack_need args /\ stack_base <= usp /\
        laid_out sp' argv args /\ stack_only sp sp'
    end) s.
Proof.
  intros [L N B G] Hargs. apply xp_pt. eapply wp_mono; [by apply (wp_setup_exec_stack _ pool_in_ram (vm_pt s0) lab0 r (vm_pt s) sp)|].
  intros res p1 (sp' & Hb & Hres). split; [done|]. exists sp'. split; [by constructor|].
  destruct res as [e|[usp argv]]; [by destruct Hres | done].
Qed.

(** *** Giving up *)

Lemma hp_free_struct s m table :
  vm_lock s = false -> vm_structs s = Some m -> table <> 0 ->
  hp (free_page_table_struct table) (fun _ s' => s' = set_structs (Some (delete table m)) s) s.
Proof.
  intros Hl Em Ht. unfold free_page_table_struct. apply hp_bind, hp_lock; [done|]. apply hp_bind, hp_fetch.
  cbn [vm_structs set_lock]. rewrite Em, (proj2 (Z.eqb_neq _ _) Ht). cbn [negb when].
  apply hp_bind, hp_modify; [done|]. apply hp_unlock. unfold set_lock, set_structs. simpl. by rewrite Hl.
Qed.

Lemma xp_destroy_new r s sp segs :
  loading r s sp segs -> xp X (destroy_page_table r) (fun _ s' => vm_fs s' = vm_fs s /\ intact s') s.
Proof.
  intros [L N [(lab & used & Hok & Hr & Hsub & Hlow) Hself Hown Hother _] (m & Em & Hm & Ht)]. unfold destroy_page_table.
  destruct (vo_pt _ _ _ _ Hok) as [fl Hi]. destruct (table_page _ pool_in_ram _ _ _ _ _ _ Hi Hr) as [Hram _].
  apply in_ram_nonzero in Hram. rewrite (proj2 (Z.eqb_neq _ _) Hram).
  apply xp_bind, xp_hp. eapply hp_mono; [by apply (hp_free_struct s m)|]. intros [] s1 -> _.
  apply xp_pt. eapply wp_mono; [apply (wp_destroy_vm _ pool_in_ram _ lab used r Hok Hr)|].
  intros [] p' (used' & Hok' & HR). split; [done|].
  assert (Hne : forall q, is_root lab0 q -> q <> r) by (intros q Hq ->; done).
  constructor; [done | | |].
  - exists (survivors lab r), used'. split; [done|]. intros q Hq. apply survivors_lookup. split; [by eapply lookup_weaken | by apply Hne].
  - intros q sp' Hq Hs. apply HR; [by eapply lookup_weaken | by apply Hne | by apply Hother; [|apply Hne|]].
  - intros t. unfold smap. simpl. destruct (decide (t = r)) as [->|Htr].
    + rewrite lookup_delete_eq. symmetry. destruct (default ∅ (vm_structs s0) !! r) eqn:E; [|done].
      destruct N. apply Hstructs0. unfold smap. rewrite E. by eexists.
    + rewrite lookup_delete_ne by done. by apply Ht.
Qed.

Lemma xp_exec_abort r entry err s sp segs :
  loading r s sp segs -> xp X (exec_abort r entry err) (fun e s' => e = err /\ intact s') s.
Proof.
  intros Hl. apply xp_bind. eapply xp_mono; [by eapply xp_destroy_new|]. intros [] s1 [_ Hi].
  apply xp_bind, xp_close. intros n s2 Hs. apply xp_ret. split; [done | by eapply intact_same].
Qed.

(** *** The segments *)

Definition phdr_at (d : list Z) (h : elf64_ehdr) (i : Z) : elf64_phdr :=
  phdr_of (slice d (Z.to_nat (e_phoff h + i * e_phentsize h)) (Z.to_nat sizeof_phdr)).

Definition segment_of (ino : Z) (ph : elf64_phdr) : mem_segment :=
  mkSeg (p_vaddr ph) (p_memsz ph) ino (p_offset ph) (p_filesz ph)
    (Z.lor (Z.lor MMAP_PROT_READ MMAP_PROT_WRITE) MMAP_PROT_EXEC) (Z.lor MAP_PRIVATE MAP_FIXED).

(** The loadable segments among the [n] program headers from number [i] on. *)
Fixpoint loadable (d : list Z) (h : elf64_ehdr) (ino : Z) (i : Z) (n : nat) : list mem_segment :=
  match n with
  | O => []
  | S n =>
      let ph := phdr_at d h i in
      if p_type ph =? ELF_PH_TYPE_LOAD then segment_of ino ph :: loadable d h ino (i + 1) n
      else loadable d h ino (i + 1) n
  end.

(** A segment starts inside or right after one that comes before it. *)
Definition touching (l : list mem_segment) : Prop :=
  exists i j g g', (i < j)%nat /\ l !! i = Some g /\ l !! j = Some g' /\ seg_start g <= seg_start g' <= seg_end g.

(** The file contents of the segment are in the file and fit the segment. *)
Definition in_file (file_size : Z) (g : mem_segment) : Prop :=
  seg_file_size g <= seg_length g /\ seg_file_offset g + seg_file_size g <= file_size.

Lemma elem_of_inserted l : forall segs g, g ∈ foldl insert_region segs l <-> g ∈ l \/ g ∈ segs.
Proof.
  induction l as [|x l IH]; intros segs g; simpl.
  - split; [by right | intros [?%elem_of_nil|?]; done].
  - rewrite IH, elem_of_insert_region, elem_of_cons. tauto.
Qed.

Lemma sorted_inserted l : forall segs, sorted segs -> sorted (foldl insert_region segs l).
Proof. induction l as [|x l IH]; intros segs Hs; simpl; [done|]. by apply IH, sorted_insert. Qed.

Lemma touching_here pre g g' post : g ∈ pre -> seg_start g <= seg_start g' <= seg_end g -> touching (pre ++ g' :: post).
Proof.
  intros [i Hi]%list_elem_of_lookup Hg. pose proof (lookup_lt_Some _ _ _ Hi).
  exists i, (length pre), g, g'. split_and!; [done | | | lia | lia].
  - by rewrite lookup_app_l.
  - by rewrite lookup_app_r, Nat.sub_diag by lia.
Qed.

Lemma touching_nil : ~ touching [].
Proof. intros (i & j & g & g' & _ & Hi & _). by rewrite lookup_nil in Hi. Qed.

Lemma touching_snoc pre g' :
  touching (pre ++ [g']) -> touching pre \/ exists g, g ∈ pre /\ seg_start g <= seg_start g' <= seg_end g.
Proof.
  intros (i & j & g & h & Hij & Hi & Hj & Hg). pose proof (lookup_lt_Some _ _ _ Hj) as Hlt. rewrite length_app in Hlt. simpl in Hlt.
  rewrite lookup_app_l in Hi by lia. destruct (decide (j < length pre)%nat).
  - left. rewrite lookup_app_l in Hj by done. by exists i, j, g, h.
  - right. rewrite lookup_app_r in Hj by lia. replace (j - length pre)%nat with 0%nat in Hj by lia. injection Hj as <-.
    exists g. split; [by eapply list_elem_of_lookup_2 | done].
Qed.

Lemma field_bound b off n : Forall is_byte b -> 0 <= field b off n.
Proof. intros Hb. unfold field. apply unle_bound. unfold slice. by apply Forall_take, Forall_drop. Qed.

Lemma xp_add_segment r s sp segs seg pre post :
  loading r s sp segs -> sorted segs -> segs = foldl insert_region [] pre -> (touching (pre ++ seg :: post) -> X) ->
  xp X (add_vm_region r (seg_ino seg) (seg_file_offset seg) (seg_file_size seg) (seg_start seg) (seg_length seg) (seg_prot seg) (seg_map_flags seg))
    (fun e s' => vm_fs s' = vm_fs s /\
      (e = SUCCESS /\ loading r s' sp (insert_region segs seg) /\ (~ touching pre -> ~ touching (pre ++ [seg])) \/
       e = INVALID_ARGS /\ loading r s' sp segs \/
       e = INVALID_ARGS /\ vm_lock s' = true /\ touching (pre ++ seg :: post))) s.
Proof.
  intros [L N B (m & Em & Hm & Ht)] Hs Hsegs HX. apply xp_hp. eapply hp_mono; [by apply hp_add_vm_region|].
  assert (Eseg : segments s r = segs) by (unfold segments, smap; by rewrite Em).
  assert (Esm : smap s = m) by (unfold smap; by rewrite Em).
  intros e s' (m' & l & [h ->] & Ht' & Hres) _. split; [done|].
  assert (Hload : forall segs', default [] (m' !! r) = segs' -> loading r (mkVM (vm_pt s) (Some m') false h (vm_fs s)) sp segs').
  { intros segs' Hm'. constructor; [done | done | done |]. exists m'. split_and!; [done | done |].
    intros t Htr. rewrite Ht', Esm by done. by apply Ht. }
  destruct Hres as [-> -> _ E | -> -> Ho E | -> -> Hno E]; rewrite Eseg in *.
  - right. left. split; [done | by apply Hload].
  - right. right. split_and!; [done | done |]. apply region_place_overlap in Ho as (g & Hg & Hr); [|done].
    rewrite Hsegs in Hg. apply elem_of_inserted in Hg as [Hg|?%elem_of_nil]; [by eapply touching_here | done].
  - left. split_and!; [done | apply Hload; rewrite E; by destruct seg |]. intros Hpre [?|(g & Hg & Hr)]%touching_snoc; [done|].
    apply Hno, region_place_overlap; [done|]. exists g. split; [|done]. rewrite Hsegs. apply elem_of_inserted. by left.
Qed.

Lemma loading_nonzero r s sp segs : loading r s sp segs -> r <> 0.
Proof.
  intros [_ _ [(lab & used & Hok & Hr & _) _ _ _] _]. destruct (vo_pt _ _ _ _ Hok) as [fl Hi].
  destruct (table_page _ pool_in_ram _ _ _ _ _ _ Hi Hr) as [Hram _]. by apply in_ram_nonzero.
Qed.

Lemma exec_abort_hangs r entry err s : r <> 0 -> vm_lock s = true -> exec_abort r entry err s = Hang.
Proof.
  intros Hr Hl. unfold exec_abort, destroy_page_table. rewrite (proj2 (Z.eqb_neq _ _) Hr).
  by apply bind_hang, bind_hang, lock_held_hangs.
Qed.

Section segments.
Variables (fd : Z) (v : open_files) (h : elf64_ehdr) (r : Z) (sp : space).
Let entry : Z := of_entry v fd.
Let d : list Z := of_data v entry.
Let ino : Z := of_ino v entry.
Let size : Z := Z.of_nat (length d).
Hypothesis Hsize : size < 2 ^ 31.
Hypothesis Hent : e_phentsize h = sizeof_phdr.
Hypothesis Hoff : 0 <= e_phoff h.
Hypothesis HX : touching (loadable d h ino 0 (Z.to_nat (e_phnum h))) -> X.

Lemma xp_load_segments n : forall i pre s,
  loading r s sp (foldl insert_region [] pre) -> of_view (vm_fs s) = v -> 0 <= i ->
  e_phoff h + (i + Z.of_nat n) * sizeof_phdr <= size ->
  pre ++ loadable d h ino i n = loadable d h ino 0 (Z.to_nat (e_phnum h)) -> Forall (in_file size) pre -> ~ touching pre ->
  xp X (load_segments n i fd entry r h size) (fun e s' =>
    e = SUCCESS /\ loading r s' sp (foldl insert_region [] (loadable d h ino 0 (Z.to_nat (e_phnum h)))) /\
      Forall (in_file size) (loadable d h ino 0 (Z.to_nat (e_phnum h))) /\ ~ touching (loadable d h ino 0 (Z.to_nat (e_phnum h))) \/
    e <> SUCCESS /\ intact s') s.
Proof.
  induction n as [|n IH]; intros i pre s Hl Hv Hi Hfit Hall Hin Hnt; cbn [load_segments].
  { apply xp_ret. left. cbn [loadable] in Hall. rewrite app_nil_r in Hall. rewrite <- Hall. by split_and!. }
  assert (Hu : to_u64 (e_phoff h + i * e_phentsize h) = e_phoff h + i * e_phentsize h)
    by (apply wrap_small; rewrite Hent; unfold sizeof_phdr in *; lia).
  rewrite Hu. apply xp_bind.
  assert (Eentry : entry = of_entry (of_view (vm_fs s)) fd) by by rewrite Hv.
  rewrite Eentry at 1. eapply xp_mono; [apply xp_read_exact_at; rewrite ?Hent; unfold sizeof_phdr in *; lia|].
  rewrite <- Eentry, Hv. fold d. intros [err bytes] s1 [Hf Hr]. simpl in Hr. pose proof (files_memory _ _ Hf) as Hms.
  apply (loading_same _ _ s1) in Hl; [|done]. assert (Hv1 : of_view (vm_fs s1) = v) by (destruct Hf as (f & -> & E); simpl; congruence).
  destruct (Z.eqb_spec err SUCCESS) as [->|Herr]; cbn [negb].
  2: { eapply xp_mono; [by eapply xp_exec_abort|]. intros e s2 [-> Hit]. right. by split. }
  destruct (Hr eq_refl) as [-> _]. fold (phdr_at d h i). set (ph := phdr_at d h i). cbn [loadable] in Hall. fold ph in Hall.
  assert (Hnext : forall pre', pre' ++ loadable d h ino (i + 1) n = loadable d h ino 0 (Z.to_nat (e_phnum h)) ->
    Forall (in_file size) pre' -> ~ touching pre' -> forall s, loading r s sp (foldl insert_region [] pre') -> of_view (vm_fs s) = v ->
    xp X (load_segments n (i + 1) fd entry r h size) (fun e s' =>
      e = SUCCESS /\ loading r s' sp (foldl insert_region [] (loadable d h ino 0 (Z.to_nat (e_phnum h)))) /\
        Forall (in_file size) (loadable d h ino 0 (Z.to_nat (e_phnum h))) /\ ~ touching (loadable d h ino 0 (Z.to_nat (e_phnum h))) \/
      e <> SUCCESS /\ intact s') s).
  { intros pre' Hall' Hin' Hnt' s' Hl' Hv'. by apply (IH (i + 1) pre' s'); [| |lia|lia| | |]. }
  destruct (p_type ph =? ELF_PH_TYPE_LOAD); cbn [negb]; [|by apply (Hnext pre)].
  destruct ((p_memsz ph <? p_filesz ph) || (size <? p_offset ph) || (size - p_offset ph <? p_filesz ph)) eqn:Hbad.
  { eapply xp_mono; [by eapply xp_exec_abort|]. intros e s2 [-> Hit]. right. by split. }
  apply orb_false_iff in Hbad as [[Hb1%Z.ltb_ge Hb2%Z.ltb_ge]%orb_false_iff Hb3%Z.ltb_ge].
  apply xp_bind, xp_fs. eapply wp_mono; [apply ino_law|]. intros ino' f2 [Hv2 ->]. rewrite Hv1 in *. fold ino.
  apply xp_bind. eapply xp_mono; [apply (xp_add_segment r (set_fs f2 s1) sp (foldl insert_region [] pre) (segment_of ino ph) pre (loadable d h ino (i + 1) n))|].
  { by apply (loading_same _ s1). } { apply sorted_inserted, sorted_nil. } { done. } { rewrite Hall. apply HX. }
  intros e s3 [Ef [(-> & Hl3 & Hnt3) | [[-> Hl3] | (-> & Hlk & Ht)]]]; cbn [negb Z.eqb SUCCESS INVALID_ARGS].
  2: { eapply xp_mono; [by eapply xp_exec_abort|]. intros e s4 [-> Hit]. right. by split. }
  2: { apply xp_hang; [|by apply HX; rewrite <- Hall]. apply exec_abort_hangs; [by eapply loading_nonzero | done]. }
  apply xp_bind, xp_fs. eapply wp_mono; [apply lseek_law|]. intros k f4 [Hv4 _]. rewrite Ef in Hv4. cbn [vm_fs set_fs] in Hv4. rewrite Hv2 in Hv4.
  assert (Hl4 : loading r (set_fs f4 s3) sp (foldl insert_region [] (pre ++ [segment_of ino ph]))).
  { rewrite foldl_app. by apply (loading_same _ s3). }
  destruct (Z.ltb_spec k 0).
  { eapply xp_mono; [by eapply xp_exec_abort|]. intros e s5 [-> Hit]. right. split; [|done]. unfold SUCCESS. lia. }
  apply (Hnext (pre ++ [segment_of ino ph])); [by rewrite <- app_assoc | | by apply Hnt3 | done | done].
  apply Forall_app. split; [done|]. apply Forall_singleton. split; cbn [segment_of seg_file_size seg_length seg_file_offset]; lia.
Qed.

End segments.

(** *** The header *)

Lemma validate_facts h size :
  validate_elf_header h size = SUCCESS -> 0 <= e_phoff h -> 0 <= e_phnum h ->
  sizeof_ehdr <= size /\ e_phentsize h = sizeof_phdr /\ e_phoff h + e_phnum h * sizeof_phdr <= size /\
  e_type h = ELF_TYPE_EXEC /\ e_machine h = ELF_MACHINE_AARCH64.
Proof.
  intros Hv H1 H2. unfold validate_elf_header in Hv.
  destruct (Z.ltb_spec size sizeof_ehdr); [done|].
  match type of Hv with context [if ?b then _ else _] => destruct b; [done|] end.
  match type of Hv with context [if ?b then _ else _] => destruct b; [done|] end.
  match type of Hv with context [if ?b then _ else _] => destruct b eqn:Et; [done|] end.
  match type of Hv with context [if ?b then _ else _] => destruct b eqn:Es; [done|] end.
  match type of Hv with context [if ?b then _ else _] => destruct b; [done|] end.
  match type of Hv with context [if ?b then _ else _] => destruct b eqn:Ep; [done|] end.
  rewrite !orb_false_iff, !negb_false_iff, !Z.eqb_eq, !Z.ltb_ge in *. destruct Es as [_ Es], Ep as [Ep1 Ep2], Et as [[Et1 Et2] _].
  split_and!; try done. rewrite Es in Ep2. unfold sizeof_phdr in *. pose proof (Z.mul_div_le (size - e_phoff h) 56). lia.
Qed.

Definition kernel_stack_space : space := seeded 2 kernel_stack_base empty_space.

(** The image of the program in the file [d] with the arguments [args]. *)
Record loaded_image (d : list Z) (ino : Z) (args : list (list Z)) (t usp argv : Z) s : Prop := {
  ld_args : argv = usp /\ usp = USER_STACK_TOP - stack_need args /\ stack_base <= usp;
  ld_image : exists sp,
    loading t s sp (foldl insert_region [] (loadable d (ehdr_of (slice d 0 64)) ino 0 (Z.to_nat (e_phnum (ehdr_of (slice d 0 64)))))) /\
    laid_out sp argv args /\ stack_only kernel_stack_space sp;
  ld_in_file : Forall (in_file (Z.of_nat (length d))) (loadable d (ehdr_of (slice d 0 64)) ino 0 (Z.to_nat (e_phnum (ehdr_of (slice d 0 64)))));
  ld_apart : ~ touching (loadable d (ehdr_of (slice d 0 64)) ino 0 (Z.to_nat (e_phnum (ehdr_of (slice d 0 64)))))
}.

Lemma xp_load_table fd v args s :
  let entry := of_entry v fd in let d := of_data v entry in let ino := of_ino v entry in
  let h := ehdr_of (slice d 0 64) in
  memory_same s0 s -> of_view (vm_fs s) = v -> Forall c_arg args -> Z.of_nat (length d) < 2 ^ 31 ->
  validate_elf_header h (Z.of_nat (length d)) = SUCCESS -> Forall is_byte d ->
  (touching (loadable d h ino 0 (Z.to_nat (e_phnum h))) -> X) ->
  xp X (load_table page_pool_start fd entry args h (Z.of_nat (length d))) (fun res s' =>
    match res with
    | inl e => e <> SUCCESS /\ intact s'
    | inr (t, usp, argv) => loaded_image d ino args t usp argv s'
    end) s.
Proof.
  intros entry d ino h Hs0 Hv Hargs Hsize Hval Hbytes HX.
  assert (Hb : Forall is_byte (slice d 0 64)) by (unfold slice; by apply Forall_take, Forall_drop).
  destruct (validate_facts h _ Hval) as (_ & Hent & Hfit & _); [by apply field_bound..|].
  unfold load_table. apply xp_bind. eapply xp_mono; [by apply xp_initialize|].
  intros r s1 [Ef1 [[-> Hit] | [Hr Hl1]]].
  { cbn [Z.eqb]. apply xp_bind, xp_close. intros n s2 Hs2. apply xp_ret. split; [done | by eapply intact_same]. }
  rewrite (proj2 (Z.eqb_neq _ _) Hr). apply xp_bind. eapply xp_mono; [by apply xp_seed_kernel_stack|].
  intros ok s2 [Ef2 (sp2 & Hl2 & Hsp2)].
  destruct ok; cbn [negb].
  2: { apply xp_bind. eapply xp_mono; [by eapply xp_exec_abort|]. intros e s3 [-> Hit]. by apply xp_ret. }
  rewrite (Hsp2 eq_refl) in Hl2. fold kernel_stack_space in Hl2.
  apply xp_bind. eapply xp_mono; [by eapply xp_exec_stack|]. intros res s3 [Ef3 (sp3 & Hl3 & Hres)].
  destruct res as [e|[usp argv]].
  { subst e. apply xp_bind. eapply xp_mono; [by eapply xp_exec_abort|]. intros e s4 [-> Hit]. by apply xp_ret. }
  destruct Hres as (Hargv & Husp & Hlo & Hout & Honly). apply xp_bind.
  assert (Hv3 : of_view (vm_fs s3) = v) by congruence.
  eapply xp_mono; [apply (xp_load_segments fd v h r sp3 Hsize Hent ltac:(by apply field_bound) HX _ 0 [] s3 Hl3 Hv3); [lia | | done | apply Forall_nil_2 | apply touching_nil]|].
  { rewrite Z2Nat.id by by apply field_bound. fold entry d. lia. }
  fold entry d ino. intros e s4 [(-> & Hl4 & Hin & Hnt) | [He Hit]]; cbn [negb Z.eqb SUCCESS].
  2: { rewrite (proj2 (Z.eqb_neq _ _) He). by apply xp_ret. }
  apply xp_bind, xp_close. intros n s5 Hs5. destruct (Z.eqb_spec n SUCCESS) as [->|Hn]; cbn [negb].
  - apply xp_ret. constructor; [done | | done | done]. exists sp3. split_and!; [|done|done]. by eapply loading_same.
  - apply xp_bind. eapply xp_mono; [eapply xp_destroy_new; by eapply loading_same|]. intros [] s6 [_ Hit]. by apply xp_ret.
Qed.

(** *** The whole of it *)

Lemma memory_heap s : heap_only s0 s -> memory_same s0 s /\ vm_fs s = vm_fs s0.
Proof. by intros [h ->]. Qed.

Definition program_of (d : list Z) : elf64_ehdr := ehdr_of (slice d 0 64).

Definition program_segments (d : list Z) (ino : Z) : list mem_segment :=
  loadable d (program_of d) ino 0 (Z.to_nat (e_phnum (program_of d))).

Lemma xp_build_image path argv :
  let '(d, ino) := of_path (vm_fs s0) path in
  Forall is_string (default [] argv) -> (touching (program_segments d ino) -> X) ->
  xp X (build_image page_pool_start path argv) (fun res s' =>
    match res with
    | inl e => e <> SUCCESS /\ intact s'
    | inr im => loaded_image d ino (args_of argv) (im_table im) (im_user_sp im) (im_user_argv im) s' /\
        validate_elf_header (program_of d) (Z.of_nat (length d)) = SUCCESS /\ im_entry_pc im = e_entry (program_of d) /\
        im_argc im = length (default [] argv) /\ im_name im = copy_exec_name 32 path
    end) s0.
Proof.
  destruct (of_path (vm_fs s0) path) as [d ino] eqn:Epath. intros Hstr HX. unfold build_image.
  pose proof (fun s Hs => intact_same s0 s Hs intact_refl) as Hsame.
  apply xp_bind, xp_hp. eapply hp_mono; [by apply hp_copy_exec_args|]. intros r s1 [Hh1 [-> | ->]] _; cbn [negb Z.eqb SUCCESS INVALID_ARGS].
  { apply xp_ret. split; [done|]. by apply Hsame, heap_memory. }
  destruct (memory_heap _ Hh1) as [Hm1 Ef1].
  apply xp_bind, xp_fs. rewrite Ef1. eapply wp_mono; [apply open_law|]. intros fd f2 Hopen. rewrite Epath in Hopen.
  assert (Hm2 : memory_same s0 (set_fs f2 s1)) by exact Hm1. set (s2 := set_fs f2 s1) in *.
  destruct (Z.ltb_spec fd 0) as [Hneg|Hfd].
  { apply xp_ret. split; [unfold SUCCESS; lia | by apply Hsame]. }
  specialize (Hopen Hfd). set (v := of_view f2) in *. injection Hopen as Ed Eino.
  apply xp_bind, xp_fs. eapply wp_mono; [apply entry_law|]. intros [err entry] f3 [Hv3 He3]. simpl in He3.
  destruct (Z.eqb_spec err SUCCESS) as [->|Herr]; cbn [negb]; [|apply xp_ret; split; [done | by apply Hsame]].
  set (e := of_entry v fd) in *. assert (Ee : entry = e) by exact (He3 eq_refl). subst entry. clear He3. change (of_view (vm_fs s2)) with v in Hv3.
  apply xp_bind, xp_fs. eapply wp_mono; [apply perm_law|]. intros perm f4 Hv4. cbn [vm_fs set_fs] in Hv4. rewrite Hv3 in Hv4.
  assert (Hclose : forall s err, memory_same s0 s -> err <> SUCCESS ->
    xp X (_ ← in_fs (ef_close e); mret (inl err)) (fun (res : Z + image) s' =>
    match res with
    | inl e => e <> SUCCESS /\ intact s'
    | inr im => loaded_image d ino (args_of argv) (im_table im) (im_user_sp im) (im_user_argv im) s' /\
        validate_elf_header (program_of d) (Z.of_nat (length d)) = SUCCESS /\ im_entry_pc im = e_entry (program_of d) /\
        im_argc im = length (default [] argv) /\ im_name im = copy_exec_name 32 path
    end) s).
  { intros s' err Hs' Hne. apply xp_bind, xp_close. intros n s'' Hs''. apply xp_ret. split; [done|].
    apply Hsame. by eapply memory_same_trans. }
  case_bool; [by apply Hclose|].
  apply xp_bind, xp_fs. eapply wp_mono; [apply size_law|]. intros size f5 [Hv5 Hsz]. cbn [vm_fs set_fs] in Hv5, Hsz. rewrite Hv4 in Hv5, Hsz.
  destruct (Z.leb_spec size 0) as [Hz|Hpos]; [by apply Hclose|]. destruct (Hsz Hpos) as [-> Hsmall]. rewrite Ed in Hsmall |- *.
  set (s5 := set_fs f5 _). assert (Hm5 : memory_same s0 s5) by exact Hm2.
  assert (Hv5' : of_view (vm_fs s5) = v) by exact Hv5.
  apply xp_bind. assert (Ee' : e = of_entry (of_view (vm_fs s5)) fd) by by rewrite Hv5'. rewrite Ee' at 1.
  eapply xp_mono; [apply xp_read_exact_at; unfold sizeof_ehdr; lia|]. rewrite <- Ee', Hv5', Ed. intros [err bytes] s6 [Hf6 Hr6]. simpl in Hr6.
  assert (Hm6 : memory_same s0 s6) by (eapply memory_same_trans; [exact Hm5 | by apply files_memory]).
  destruct (Z.eqb_spec err SUCCESS) as [->|Herr]; cbn [negb]; [|by apply Hclose].
  destruct (Hr6 eq_refl) as [-> _]. change (slice d (Z.to_nat 0) (Z.to_nat sizeof_ehdr)) with (slice d 0 64). fold (program_of d).
  destruct (Z.eqb_spec (validate_elf_header (program_of d) (Z.of_nat (length d))) SUCCESS) as [Hval|Hval]; cbn [negb]; [|by apply Hclose].
  assert (Hv6 : of_view (vm_fs s6) = v) by (destruct Hf6 as (f & -> & E); simpl; congruence).
  apply xp_bind. pose proof (xp_load_table fd v (args_of argv) s6) as HL. cbv zeta in HL. fold e in HL. rewrite Ed, Eino in HL.
  eapply xp_mono; [apply HL; try done|].
  - by apply args_of_c_arg.
  - rewrite <- Ed. apply data_law.
  - intros [err|[[t usp] uargv]] s7 Hres; apply xp_ret; [done|]. simpl. split_and!; try done.
    unfold args_of. by rewrite length_map.
Qed.

End load_theory.

(** ** Segments that touch *)

(** A segment that starts inside, or right at the end of, one that is
    loaded. *)
Lemma load_touching {F} `{ExecFileLaws F} (s s1 : vm_state F) n i fd entry table h size bytes g :
  let ph := phdr_of bytes in
  vm_lock s1 = false -> ~ refusal s1 -> sorted (segments s1 table) -> table <> 0 ->
  read_exact_at fd entry (to_u64 (e_phoff h + i * e_phentsize h)) sizeof_phdr s = Ok ((SUCCESS, bytes), s1) ->
  p_type ph = ELF_PH_TYPE_LOAD -> p_filesz ph <= p_memsz ph -> p_offset ph <= size -> p_filesz ph <= size - p_offset ph ->
  g ∈ segments s1 table -> seg_start g <= p_vaddr ph <= seg_end g ->
  load_segments (S n) i fd entry table h size s = Hang.
Proof.
  intros ph Hl Hnr Hs Ht Hread Hty H1 H2 H3 Hg Hin. cbn [load_segments]. unfold mbind, stM_bind. rewrite Hread. cbn [negb Z.eqb SUCCESS].
  fold ph. rewrite Hty, Z.eqb_refl. cbn [negb]. rewrite !(proj2 (Z.ltb_ge _ _)) by lia. cbn [orb].
  destruct (ino_law entry (vm_fs s1)) as (ino & f & Eino & _ & _). unfold in_fs at 1, lift. rewrite Eino.
  pose proof (hp_add_vm_region (set_fs f s1) table ino (p_offset ph) (p_filesz ph) (p_vaddr ph) (p_memsz ph)
    (Z.lor (Z.lor MMAP_PROT_READ MMAP_PROT_WRITE) MMAP_PROT_EXEC) (Z.lor MAP_PRIVATE MAP_FIXED) Hl) as Ha.
  unfold hp in Ha. unfold elf_load_user_segment.
  destruct (add_vm_region _ _ _ _ _ _ _ _ _) as [[r s2]| | |]; [| by destruct Hnr | done | done].
  destruct Ha as [(m' & l & [h' ->] & _ & Hres) _]. destruct Hres as [_ _ Hr _ | -> -> _ _ | _ _ Hno _]; [by destruct Hnr | |].
  - cbn [negb Z.eqb SUCCESS INVALID_ARGS]. by apply exec_abort_hangs.
  - destruct Hno. apply region_place_overlap; [done|]. by exists g.
Qed.

(** ** An example

    A file system with one file, inode 7: an ELF header, one program header and
    nothing else.  Its state is the position in the file. *)

Definition demo_program : list Z :=
  [0x7f; 69; 76; 70; 2; 1; 1; 0; 0; 0; 0; 0; 0; 0; 0; 0] ++ le 2 2 ++ le 2 183 ++ le 4 1 ++ le 8 0x10040 ++ le 8 64 ++ le 8 0
  ++ le 4 0 ++ le 2 64 ++ le 2 56 ++ le 2 1 ++ le 2 0 ++ le 2 0 ++ le 2 0
  ++ le 4 1 ++ le 4 5 ++ le 8 0 ++ le 8 0x10000 ++ le 8 0x10000 ++ le 8 120 ++ le 8 0x1000 ++ le 8 0x1000.

Definition demo_files : ExecFiles Z := {|
  ef_open _ := _ ← modify (fun _ => 0); mret 3;
  ef_entry _ := mret (SUCCESS, 100);
  ef_perm _ := mret 7;
  ef_ino _ := mret 7;
  ef_size _ := mret (Z.of_nat (length demo_program));
  ef_lseek _ off := _ ← modify (fun _ => off); mret 0;
  ef_read _ n := fun pos =>
    let bytes := slice demo_program (Z.to_nat pos) (Z.to_nat n) in
    Ok ((Z.of_nat (length bytes), bytes), pos + Z.of_nat (length bytes));
  ef_close _ := mret SUCCESS
|}.

#[local] Existing Instance demo_files.

#[local] Instance demo_file_laws : ExecFileLaws Z.
Proof.
  refine {| of_path _ _ := (demo_program, 7); of_view _ := mkFiles (fun _ => 100) (fun _ => demo_program) (fun _ => 7); of_pos pos _ := pos |}.
  - intros f e. cbn [of_data]. unfold demo_program. rewrite !Forall_app. split_and!; try apply le_bytes.
    repeat constructor; unfold is_byte; lia.
  - intros path f. apply wp_bind, wp_modify, wp_ret. done.
  - intros fd f. by apply wp_ret.
  - intros fd f. by apply wp_ret.
  - intros fd f. by apply wp_ret.
  - intros fd f. apply wp_ret. split; [done|]. intros _. split; [done | by vm_compute].
  - intros fd off f. by apply wp_bind, wp_modify, wp_ret.
  - intros e n f Hn Hf. eexists _, _. split; [done|]. split; [done|]. intros _. cbn [fst snd of_data]. split_and!; [done | | | done].
    + unfold slice. rewrite length_take. lia.
    + unfold slice. by rewrite length_take, <- take_take, firstn_all.
  - intros e f. by apply wp_ret.
Defined.

(** ** Properties *)

(** C39.  A program with two loadable segments of which the second starts
    inside the first, or right where the page of its end ends, hangs the kernel: when the
    loop over the program headers of [exec] gets to it, [add_vm_region]
    refuses it without releasing the lock of the regions, and the clean-up
    waits for that lock. *)
Theorem exec_touching_hangs {F} `{ExecFileLaws F} (s s1 : vm_state F) n i fd entry table h size bytes g :
  let ph := phdr_of bytes in
  vm_lock s1 = false -> ~ refusal s1 -> sorted (segments s1 table) -> table <> 0 ->
  read_exact_at fd entry (to_u64 (e_phoff h + i * e_phentsize h)) sizeof_phdr s = Ok ((SUCCESS, bytes), s1) ->
  p_type ph = ELF_PH_TYPE_LOAD -> p_filesz ph <= p_memsz ph -> p_offset ph <= size -> p_filesz ph <= size - p_offset ph ->
  g ∈ segments s1 table -> seg_start g <= p_vaddr ph <= seg_end g ->
  load_segments (S n) i fd entry table h size s = Hang.
Proof. apply load_touching. Qed.

Definition touching_example : vm_state Z :=
  mkVM boot_example (Some {[ 0x5000 := [mkSeg 0xf000 0x1000 7 0 120 7 5] ]}) false (fun _ => true) 0.

Lemma exec_touching_hangs_witness :
  load_segments 1 0 3 100 0x5000 (program_of demo_program) 120 touching_example = Hang.
Proof.
  destruct (read_exact_at 3 100 64 sizeof_phdr touching_example) as [[[e bytes] s1]| | |] eqn:E; vm_compute in E; try discriminate E.
  injection E as <- <- <-.
  eapply (exec_touching_hangs touching_example _ 0 0 3 100 0x5000 (program_of demo_program) 120 _ (mkSeg 0xf000 0x1000 7 0 120 7 5)).
  5: { vm_compute. reflexivity. }
  - reflexivity.
  - intros [k Hk]. discriminate Hk.
  - repeat constructor.
  - discriminate.
  - reflexivity.
  - vm_compute. discriminate.
  - vm_compute. discriminate.
  - vm_compute. discriminate.
  - by apply list_elem_of_singleton.
  - split; vm_compute; discriminate.
Defined.
