(* ===== verification/Exec.v ===== *)
(** * Replacing the image of a process

    kernel/fs/elf_loader.c: [elf_exec_process], the body of the exec system
    call and of the creation of the first user processes.  It ends the other
    threads of the process, builds the new image (ExecImage.v) and, when that
    succeeded, switches to it: the kernel stack is copied to the new address
    space, the trap frame in the copy is rewritten so that the return from the
    system call enters the new program, and the old address space is
    destroyed.

    The state is that of the scheduler and of the memory system side by side.
    [install_ttbr0] writes a register that the model does not have. *)

From S2P Require Import Prelude Errors Bytes KString Services PageAlloc PageTable Cow Fork Destroy AddressSpace VmRegion DemandPaging ExecStack ExecImage.
From S2P Require Import Programs Tasks Sched Threads Signals.

Record exec_state (F : Type) := mkExec { ex_k : kstate; ex_vm : vm_state F }.
Arguments mkExec {F} _ _.
Arguments ex_k {F} _.
Arguments ex_vm {F} _.

Definition set_ex_k {F} (k : kstate) (s : exec_state F) : exec_state F := mkExec k (ex_vm s).
Definition set_ex_vm {F} (v : vm_state F) (s : exec_state F) : exec_state F := mkExec (ex_k s) v.

(** ** The threads of the process *)

(** The calling thread if it belongs to the process [p], else its first thread. *)
Definition exec_thread_of (p : Z) : KP (option Z) :=
  c ← current;
  mine ← (match c with
          | None => mret false
          | Some t => x ← atomic (get_tcb t); mret (t_pcb x =? p)
          end);
  if (mine : bool) then mret c else
  y ← atomic (get_pcb p);
  match p_tids y with
  | [] => mret None
  | tid :: _ => atomic (thread_get_by_tid tid)
  end.

Definition kill_others (deliver : KP unit) (n : nat) (p exec_thread : Z) : KP unit :=
  loop n (fun i =>
    y ← atomic (get_pcb p);
    match p_tids y !! i with
    | None => mret (inr tt)
    | Some tid =>
        t ← atomic (thread_get_by_tid tid);
        match t with
        | None => mret (inl (S i))
        | Some t =>
            if t =? exec_thread then mret (inl (S i)) else
            x ← atomic (get_tcb t);
            _ ← thread_detach (t_tid x);
            _ ← terminate_thread deliver t;
            mret (inl (S i))
        end
    end) 0%nat.

Definition reset_exec_signal_dispositions (p : Z) : KM unit :=
  upd_pcb p (fun y => set_p_sigactions (imap (fun signum a =>
    if negb (Z.of_nat signum =? SIGKILL) && negb (Z.of_nat signum =? SIGSTOP) && bool_decide (sa_handler a = SIG_IGN)
    then a else mkSigaction SIG_DFL 0 0) (p_sigactions y)) y).

(** kernel/scheduler/process.c; [p_name] holds the bytes before the NUL. *)
Fixpoint name_prefix (n : nat) (name : list Z) : list Z :=
  match n, name with
  | S n, c :: name => if c =? 0 then [] else c :: name_prefix n name
  | _, _ => []
  end.

Definition process_copy_name (p : Z) (name : list Z) : KM unit :=
  let name := if char_at name 0 =? 0 then [63] else name in
  upd_pcb p (set_p_name (name_prefix 31 name)).

Definition set_process_name_for_pid (pid : Z) (name : list Z) : KM Z :=
  pcb ← get_pcb_by_pid pid;
  match pcb with
  | None => mret SYS_ESRCH
  | Some p => _ ← process_copy_name p name; mret 0
  end.

(** ** Switching to the image *)

(** [copy_bytes(dst, src, PAGE_SIZE)] *)
Definition copy_page (dst src : Z) : M unit :=
  for_st (Z.to_nat PAGE_SIZE) 0 (fun i => b ← fetch (fun s => mem_byte (mem s) (src + i)); wr_byte (dst + i) b).

(** Stores to the 64-bit fields of the structure at [base]: field number and
    value. *)
Fixpoint write_words (base : Z) (ws : list (Z * Z)) : M unit :=
  match ws with
  | [] => mret tt
  | (i, v) :: ws => _ ← wr (base + 8 * i) v; write_words base ws
  end.

(** [struct trap_frame]: [regs[0]] to [regs[30]], [sp], [elr], [spsr], [esr],
    [far], [type] and [intid]. *)
Definition FRAME_SP : Z := 31.
Definition FRAME_ELR : Z := 32.
Definition FRAME_ESR : Z := 34.
Definition FRAME_FAR : Z := 35.
Definition FRAME_TYPE : Z := 36.
Definition FRAME_INTID : Z := 37.
Definition FRAME_WORDS : Z := 38.

Definition frame_stores (im : image) : list (Z * Z) :=
  [(FRAME_ELR, im_entry_pc im); (FRAME_SP, im_user_sp im); (FRAME_ESR, 0); (FRAME_FAR, 0); (FRAME_TYPE, 0); (FRAME_INTID, 0)]
  ++ map (fun i => (i, 0)) (seqZ 0 31)
  ++ [(0, Z.of_nat (im_argc im)); (1, im_user_argv im)].

Section exec.
Variable page_pool_start : Z.
Context {F : Type} `{ExecFiles F}.

Abbreviation XM := (stM (exec_state F)).

Definition in_k {A} (m : KM A) : XM A := lift ex_k set_ex_k m.
Definition in_vm {A} (m : stM (vm_state F) A) : XM A := lift ex_vm set_ex_vm m.

(** The loop that copies the kernel stack; [false] when a page is missing. *)
Fixpoint copy_kernel_stack (n : nat) (old_table new_table va : Z) : stM (vm_state F) bool :=
  match n with
  | O => mret true
  | S n =>
      old_page ← in_pt (pt_get_mapped_page old_table va);
      new_page ← in_pt (pt_get_mapped_page new_table va);
      if (old_page =? 0) || (new_page =? 0) then mret false else
      _ ← in_pt (copy_page new_page old_page);
      copy_kernel_stack n old_table new_table (va + PAGE_SIZE)
  end.

(** Copying the kernel stack and writing the frame; [false] after the new
    table was destroyed. *)
Definition enter_image (old_table frame_va : Z) (im : image) : stM (vm_state F) bool :=
  let frame_page_va := align_down frame_va in
  let frame_offset := frame_va - frame_page_va in
  if (frame_va <? kernel_stack_base) || (PROC_KERNEL_STACK_TOP <=? frame_va) || (PAGE_SIZE <=? frame_offset)
  then _ ← destroy_page_table (im_table im); mret false else
  ok ← copy_kernel_stack 2 old_table (im_table im) kernel_stack_base;
  if negb (ok : bool) then _ ← destroy_page_table (im_table im); mret false else
  new_frame_page ← in_pt (pt_get_mapped_page (im_table im) frame_page_va);
  if new_frame_page =? 0 then _ ← destroy_page_table (im_table im); mret false else
  _ ← in_pt (write_words (new_frame_page + frame_offset) (frame_stores im));
  mret true.

(** The fields of the thread and of the process.  [vec_clear] keeps the
    storage of [tids], so [vec_push_back] needs no allocation. *)
Definition set_exec_ctx (frame_va table : Z) (c : cpu_context) : cpu_context :=
  mkCtx frame_va (x20 c) (x21_x29 c) (x30 c) frame_va (kernel_phys_addr table) table.

Definition set_table (table : Z) (y : pcb) : pcb :=
  set_p_ttbr0_el1_va table (set_p_ttbr0_el1 (kernel_phys_addr table) y).

(** From line 312 on. *)
Definition exec_image (p exec_thread : Z) (path : list Z) (argv : option (list (list Z))) (frame_va : Z)
    (install_table : bool) : XM Z :=
  r ← in_vm (build_image page_pool_start path argv);
  match r with
  | inl err => mret err
  | inr im =>
      y ← in_k (get_pcb p);
      let old_table := p_ttbr0_el1_va y in
      ok ← in_vm (enter_image old_table frame_va im);
      if negb (ok : bool) then mret INVALID_ARGS else
      _ ← in_k (upd_tcb exec_thread (fun x => set_t_ctx (set_exec_ctx frame_va (im_table im) (t_ctx x)) x));
      _ ← in_k (upd_pcb p (set_table (im_table im)));
      _ ← (if install_table then in_vm (destroy_page_table old_table) else mret tt);
      x ← in_k (get_tcb exec_thread);
      _ ← in_k (upd_pcb p (set_p_tids [t_tid x]));
      y ← in_k (get_pcb p);
      _ ← in_k (set_process_name_for_pid (p_pid y) (im_name im));
      _ ← in_k (reset_exec_signal_dispositions p);
      mret SUCCESS
  end.

(** [frame] is whether the frame pointer is not NULL. *)
Definition elf_exec_process (deliver : KP unit) (n : nat) (p : option Z) (path : option (list Z)) (argv : option (list (list Z)))
    (frame : bool) (frame_va : Z) (install_table : bool) : prog (exec_state F) Z :=
  match p, path, frame with
  | Some p, Some path, true =>
      t ← on ex_k set_ex_k (exec_thread_of p);
      match t with
      | None => mret INVALID_ARGS
      | Some exec_thread =>
          _ ← on ex_k set_ex_k (kill_others deliver n p exec_thread);
          atomic (exec_image p exec_thread path argv frame_va install_table)
      end
  | _, _, _ => mret INVALID_ARGS
  end.

End exec.

(** ** Theory: memory *)

(** The bytes of one page become those of another. *)
Lemma wp_copy_page dst src s (Q : unit -> pt_state -> Prop) :
  dst mod 4096 = 0 -> src mod 4096 = 0 -> dst <> src ->
  (forall m', bytes_written (mem s) m' dst 0 4096 (fun i => mem_byte (mem s) (src + i)) -> Q tt (set_mem m' s)) ->
  wp (copy_page dst src) Q s.
Proof.
  intros Hd Hs Hne HQ. unfold copy_page.
  apply (wp_for_st (fun i s' => exists m', s' = set_mem m' s /\
    bytes_written (mem s) m' dst 0 i (fun i => mem_byte (mem s) (src + i)))).
  - exists (mem s). split; [by destruct s | by apply bytes_written_nil].
  - intros j t Hj (m' & -> & Hm). change (Z.of_nat (Z.to_nat PAGE_SIZE)) with 4096 in Hj.
    assert (Hsrc : mem_byte m' (src + j) = mem_byte (mem s) (src + j)).
    { unfold mem_byte. destruct (byte_of_page src j Hs ltac:(lia)) as (-> & Hi & ->). f_equal.
      apply (proj1 Hm), word_of_other; [done | done | done | exact Hi]. }
    apply wp_bind, wp_fetch, wp_bind, wp_fetch, wp_modify. eexists. split; [done|]. cbn [mem set_mem]. rewrite Hsrc.
    assert (Hb : 0 <= mem_byte (mem s) (src + j) < 256) by (unfold mem_byte, word_byte; apply Z.mod_pos_bound; lia).
    eapply (bytes_written_trans _ m' _ dst 0 j 1); [lia | lia | done | | done |].
    + split.
      * intros a Ha. apply upd_ne. intros ->. by rewrite byte_word_in_page in Ha by (done || lia).
      * intros o Ho. rewrite mem_byte_upd by done. instantiate (1 := fun _ => mem_byte (mem s) (src + j)).
        repeat case_bool; simpl; done || lia.
    + intros i Hi. by replace i with 0 by lia; rewrite Z.add_0_r.
  - intros t (m' & -> & Hm). by apply HQ.
Qed.

(** Word stores into one page. *)
Definition writes (base : Z) (ws : list (Z * Z)) (m : Z -> Z) : Z -> Z :=
  foldl (fun m w => PageAlloc.upd m (base + 8 * fst w) (snd w)) m ws.

Definition last_write (ws : list (Z * Z)) (k : Z) : option Z :=
  foldl (fun acc w => if fst w =? k then Some (snd w) else acc) None ws.

Lemma wp_write_words base ws : forall s (Q : unit -> pt_state -> Prop),
  Q tt (set_mem (writes base ws (mem s)) s) -> wp (write_words base ws) Q s.
Proof.
  induction ws as [|[i v] ws IH]; intros s Q HQ; cbn [write_words].
  - apply wp_ret. by destruct s.
  - apply wp_bind, wp_modify, IH. exact HQ.
Qed.

Lemma writes_at base ws k : forall m,
  writes base ws m (base + 8 * k) = default (m (base + 8 * k)) (last_write ws k).
Proof.
  intros m. unfold last_write. induction ws as [|[i v] ws IH] using rev_ind; [done|].
  unfold writes in *. rewrite !foldl_app. cbn [foldl fst snd]. unfold PageAlloc.upd.
  destruct (Z.eqb_spec i k) as [->|Hne]; [by rewrite Z.eqb_refl|].
  rewrite (proj2 (Z.eqb_neq _ _)) by lia. apply IH.
Qed.

Lemma writes_outside base ws a : forall m,
  (forall i v, (i, v) ∈ ws -> a <> base + 8 * i) -> writes base ws m a = m a.
Proof.
  intros m. unfold writes. induction ws as [|[i v] ws IH] using rev_ind; intros Ha; [done|].
  rewrite foldl_app. cbn [foldl fst snd]. unfold PageAlloc.upd.
  rewrite (proj2 (Z.eqb_neq _ _)); [|apply (Ha i v); apply elem_of_app; right; by apply list_elem_of_singleton].
  apply IH. intros j w Hj. apply (Ha j w). apply elem_of_app. by left.
Qed.

(** The frame of a process that enters a new program; the saved processor
    state, field 33, is left as it is. *)
Definition frame_word (im : image) (k : Z) : option Z :=
  if k =? 0 then Some (Z.of_nat (im_argc im))
  else if k =? 1 then Some (im_user_argv im)
  else if k =? FRAME_SP then Some (im_user_sp im)
  else if k =? FRAME_ELR then Some (im_entry_pc im)
  else if k =? 33 then None
  else Some 0.

Lemma frame_stores_word im k : 0 <= k < FRAME_WORDS -> last_write (frame_stores im) k = frame_word im k.
Proof.
  intros Hk. assert (Hall : Forall (fun k => last_write (frame_stores im) k = frame_word im k) (seqZ 0 FRAME_WORDS))
    by (vm_compute; repeat constructor).
  rewrite Forall_forall in Hall. apply Hall, elem_of_seqZ. lia.
Qed.

Lemma frame_stores_range im i v : (i, v) ∈ frame_stores im -> 0 <= i < FRAME_WORDS.
Proof.
  intros Hin. assert (Hall : Forall (fun w => 0 <= fst w < FRAME_WORDS) (frame_stores im))
    by (vm_compute; repeat (constructor; [done|]); constructor).
  rewrite Forall_forall in Hall. by apply (Hall (i, v)).
Qed.

(** A page of an address space and its place in memory. *)
Lemma space_page pool s lab used q sp ix pg :
  KERNEL_VA_BASE < pool <= RAM_end -> vm_ok pool s lab used -> is_root lab q -> space_rel s q sp -> ix_ok ix -> sp ix = Some pg ->
  let d := desc_table (leaf s (q, ix)) in
  q <> 0 /\ in_ram d /\ d mod 4096 = 0 /\ desc_valid (leaf s (q, ix)) = true /\ maps s lab (q, ix) d /\
  forall i, index_ok i -> ap_words pg i = mem s (d + 8 * i).
Proof.
  intros Hpool Hok Hq Hrel Hix Hsp d. specialize (Hrel ix Hix). rewrite Hsp in Hrel.
  destruct Hrel as (Hv & _ & Hview). destruct (vo_pt _ _ _ _ Hok) as [fl Hi].
  destruct (table_page _ Hpool _ _ _ _ _ _ Hi Hq) as [Hram _].
  assert (Hm : maps s lab (q, ix) d) by (split_and!; [by split | done | done]).
  destruct (data_page _ Hpool s lab fl used _ _ Hi (vo_cow _ _ _ _ Hok) Hm).
  split_and!; try done; [by apply in_ram_nonzero|]. intros i Hi'. by rewrite <- Hview.
Qed.

Lemma mapped_page_eq s q va :
  q <> 0 -> in_ram (desc_table (leaf s (q, indices va))) -> desc_valid (leaf s (q, indices va)) = true -> va mod 4096 = 0 ->
  pt_get_mapped_page q va s = Ok (desc_table (leaf s (q, indices va)), s).
Proof.
  intros Hq Hr Hv Ha. rewrite pt_get_mapped_page_eq by done.
  change (translate s q va) with (leaf s (q, indices va)). by rewrite mapped_address_leaf, Ha, Z.add_0_r by done.
Qed.

Section exec_theory.
Variable page_pool_start : Z.
Hypothesis pool_in_ram : KERNEL_VA_BASE < page_pool_start <= RAM_end.
Context {F : Type} `{ExecFileLaws F} (X : Prop).
Variables (s0 : vm_state F) (lab0 : gmap Z (Z * list Z)) (used0 : gset Z).
Hypothesis Hok0 : vm_ok page_pool_start (vm_pt s0) lab0 used0.
Hypothesis Hlock0 : vm_lock s0 = false.
Hypothesis Hstructs0 : forall t, is_Some (smap s0 !! t) -> is_root lab0 t.
(** The old address space. *)
Variables (old : Z) (spo : space).
Hypothesis Hold : is_root lab0 old.
Hypothesis Hspo : space_rel (vm_pt s0) old spo.
Hypothesis Hkstack : forall va, kernel_stack_base <= va < PROC_KERNEL_STACK_TOP -> exists pg, spo (indices va) = Some pg.

Abbreviation loading := (loading page_pool_start s0 lab0).
Abbreviation intact := (intact page_pool_start s0 lab0).

(** The pages of the kernel stack below [va] are copies. *)
Definition copied (sp : space) (va : Z) : Prop :=
  forall a, kernel_stack_base <= a < va -> space_byte sp a = space_byte spo a.

Lemma kernel_stack_page va : kernel_stack_base <= va < PROC_KERNEL_STACK_TOP -> 0 <= va < 2 ^ 48.
Proof. unfold kernel_stack_base, PROC_KERNEL_STACK_TOP, PROC_KERNEL_STACK_SIZE. lia. Qed.

(** Copying one page of the kernel stack. *)
Lemma xp_copy_stack_page t s sp segs va pg :
  loading t s sp segs -> kernel_stack_base <= va < PROC_KERNEL_STACK_TOP -> va mod 4096 = 0 -> sp (indices va) = Some pg ->
  exists op np, in_pt (pt_get_mapped_page old va) s = Ok (op, s) /\ in_pt (pt_get_mapped_page t va) s = Ok (np, s) /\
    op <> 0 /\ np <> 0 /\
    xp X (in_pt (copy_page np op)) (fun _ s' => vm_fs s' = vm_fs s /\ exists sp', loading t s' sp' segs /\
      (forall ix, ix <> indices va -> sp' ix = sp ix) /\
      forall a, va <= a < va + 4096 -> space_byte sp' a = space_byte spo a) s.
Proof.
  intros Hl Hva Hal Hsp. pose proof (lg_built _ _ _ _ _ _ _ Hl) as Hb.
  destruct (bu_ok _ _ _ _ _ _ Hb) as (lab & used & Hok & Ht & Hsub & Hlow).
  pose proof (bu_other _ _ _ _ _ _ Hb) as Hother.
  assert (Hto : old <> t) by (intros ->; by apply (lg_new _ _ _ _ _ _ _ Hl)).
  destruct (Hkstack va Hva) as [pgo Hpgo]. assert (Hx : ix_ok (indices va)) by (split; [done | apply indices_ok]).
  pose proof (lookup_weaken _ _ _ _ Hold Hsub) as Hold'. pose proof (Hother old spo Hold Hto Hspo) as Hrelo.
  destruct (space_page _ _ _ _ _ _ _ _ pool_in_ram Hok Hold' Hrelo Hx Hpgo) as (Ho0 & Hor & Hoa & Hov & Hom & How).
  destruct (space_page _ _ _ _ _ _ _ _ pool_in_ram Hok Ht (bu_self _ _ _ _ _ _ Hb) Hx Hsp) as (Ht0 & Hnr & Hna & Hnv & Hnm & Hnw).
  destruct (bu_own _ _ _ _ _ _ Hb _ _ Hx Hsp) as [_ Hw].
  set (op := desc_table (leaf (vm_pt s) (old, indices va))) in *. set (np := desc_table (leaf (vm_pt s) (t, indices va))) in *.
  assert (Hne : np <> op).
  { intros E. rewrite <- E in Hom.
    assert (Hd : (t, indices va) <> (old, indices va)) by congruence.
    pose proof (ci_excl _ _ _ (vo_cow _ _ _ _ Hok) _ _ _ Hnm Hom Hd). congruence. }
  assert (Hset : set_pt (vm_pt s) s = s) by by destruct s.
  exists op, np. split_and!; [| | by apply in_ram_nonzero | by apply in_ram_nonzero |].
  { unfold in_pt, lift. rewrite mapped_page_eq by done. by rewrite Hset. }
  { unfold in_pt, lift. rewrite mapped_page_eq by done. by rewrite Hset. }
  apply xp_pt, wp_copy_page; [done | done | done |]. intros m' [Hout Hbytes]. split; [done|].
  eexists. split; [|split].
  - destruct Hl as [L N _ G]. constructor; [done | done | | done]. by eapply (built_write _ pool_in_ram).
  - intros ix Hix. unfold set_space. by rewrite decide_False.
  - intros a Ha. pose proof (kernel_stack_page _ Hva) as Hrange.
    assert (Hdiv : a / 4096 = va / 4096) by (pose proof (Z.div_mod va 4096); symmetry; apply (Z.div_unique_pos a 4096 (va / 4096) (a - va)); lia).
    assert (Hmod : a mod 4096 = a - va) by (pose proof (Z.div_mod va 4096); symmetry; apply (Z.mod_unique_pos a 4096 (va / 4096) (a - va)); lia).
    assert (Hsame : indices a = indices va) by (apply same_page; unfold PROC_KERNEL_STACK_TOP in *; lia).
    unfold space_byte, set_space. rewrite Hsame, decide_True, Hpgo by done. f_equal. rewrite Hmod.
    assert (Ho : 0 <= a - va < 4096) by lia.
    unfold page_byte at 1. cbn [ap_words]. fold np. destruct (byte_of_page np (a - va) Hna Ho) as (E1 & Hi & E2).
    rewrite <- E1, <- E2. fold (mem_byte m' (np + (a - va))). rewrite Hbytes by done.
    rewrite (proj2 (Z.leb_le _ _)), (proj2 (Z.ltb_lt _ _)) by lia. cbn [andb]. rewrite Z.sub_0_r.
    unfold mem_byte, page_byte. destruct (byte_of_page op (a - va) Hoa Ho) as (-> & _ & ->). by rewrite How.
Qed.

Lemma indices_ne a b : 0 <= a < 2 ^ 48 -> 0 <= b < 2 ^ 48 -> a / 4096 <> b / 4096 -> indices a <> indices b.
Proof. intros Ha Hb Hne E. by apply Hne, same_page. Qed.

Lemma kernel_stack_pages : indices 0x8ff000 <> indices 0x8fe000.
Proof. vm_compute. discriminate. Qed.

(** [sp'] differs from [sp] in the kernel stack only. *)
Definition kernel_only (sp sp' : space) : Prop :=
  forall a, 0 <= a < 2 ^ 48 -> ~ kernel_stack_base <= a < PROC_KERNEL_STACK_TOP -> sp' (indices a) = sp (indices a).

Lemma xp_copy_kernel_stack t s sp segs :
  loading t s sp segs -> (forall va, kernel_stack_base <= va < PROC_KERNEL_STACK_TOP -> exists pg, sp (indices va) = Some pg) ->
  xp X (copy_kernel_stack 2 old t kernel_stack_base) (fun ok s' => ok = true /\ vm_fs s' = vm_fs s /\ exists sp',
    loading t s' sp' segs /\ kernel_only sp sp' /\
    forall a, kernel_stack_base <= a < PROC_KERNEL_STACK_TOP -> space_byte sp' a = space_byte spo a) s.
Proof.
  intros Hl Hmap. unfold kernel_stack_base, PROC_KERNEL_STACK_SIZE, PROC_KERNEL_STACK_TOP in *.
  change (0x900000 - 8192) with 0x8fe000 in *. cbn [copy_kernel_stack].
  destruct (Hmap 0x8fe000 ltac:(lia)) as [pg1 Hpg1].
  destruct (xp_copy_stack_page t s sp segs 0x8fe000 pg1 Hl ltac:(unfold kernel_stack_base, PROC_KERNEL_STACK_SIZE, PROC_KERNEL_STACK_TOP; lia) eq_refl Hpg1) as (op & np & E1 & E2 & Hop & Hnp & Hcp).
  apply xp_bind, (xp_eq _ _ _ _ _ E1). apply xp_bind, (xp_eq _ _ _ _ _ E2).
  rewrite (proj2 (Z.eqb_neq _ _) Hop), (proj2 (Z.eqb_neq _ _) Hnp). cbn [orb].
  apply xp_bind. eapply xp_mono; [exact Hcp|]. intros [] s1 [Ef1 (sp1 & Hl1 & Hpages1 & Hbytes1)].
  change (0x8fe000 + PAGE_SIZE) with 0x8ff000.
  clear Hcp E1 E2. pose proof kernel_stack_pages as Hn12.
  destruct (Hmap 0x8ff000 ltac:(lia)) as [pg2 Hpg2]. rewrite <- (Hpages1 _ Hn12) in Hpg2.
  destruct (xp_copy_stack_page t s1 sp1 segs 0x8ff000 pg2 Hl1 ltac:(unfold kernel_stack_base, PROC_KERNEL_STACK_SIZE, PROC_KERNEL_STACK_TOP; lia) eq_refl Hpg2) as (op' & np' & E1' & E2' & Hop' & Hnp' & Hcp').
  apply xp_bind, (xp_eq _ _ _ _ _ E1'). apply xp_bind, (xp_eq _ _ _ _ _ E2').
  rewrite (proj2 (Z.eqb_neq _ _) Hop'), (proj2 (Z.eqb_neq _ _) Hnp'). cbn [orb].
  apply xp_bind. eapply xp_mono; [exact Hcp'|]. intros [] s2 [Ef2 (sp2 & Hl2 & Hpages2 & Hbytes2)].
  clear Hcp' E1' E2' Hpg1 Hpg2. apply xp_ret. split_and!; [done | congruence |]. exists sp2. split_and!; [done | |].
  - intros a Ha Hn. unfold kernel_stack_base, PROC_KERNEL_STACK_SIZE, PROC_KERNEL_STACK_TOP in Hn.
    rewrite Hpages2, Hpages1; [done | |]; (apply indices_ne; [done | lia |]);
      Z.to_euclidean_division_equations; lia.
  - intros a Ha. destruct (decide (a < 0x8ff000)).
    + rewrite <- Hbytes1 by lia. unfold space_byte. rewrite Hpages2; [done|].
      apply indices_ne; [lia | lia |]. Z.to_euclidean_division_equations. lia.
    + apply Hbytes2. lia.
Qed.

(** *** The frame *)

Definition frame_ok (frame_va : Z) : Prop :=
  kernel_stack_base <= frame_va < PROC_KERNEL_STACK_TOP /\ frame_va mod 8 = 0 /\ frame_va mod 4096 + 8 * FRAME_WORDS <= 4096.

(** The kernel stack of the new image: the old one with a new frame. *)
Record new_stack (sp : space) (frame_va : Z) (im : image) : Prop := {
  ns_frame : forall k v, 0 <= k < FRAME_WORDS -> frame_word im k = Some v -> space_load sp (frame_va + 8 * k) = Some v;
  ns_rest : forall a, kernel_stack_base <= a < PROC_KERNEL_STACK_TOP ->
    (forall k, 0 <= k < FRAME_WORDS -> k <> 33 -> ~ frame_va + 8 * k <= a < frame_va + 8 * k + 8) ->
    space_byte sp a = space_byte spo a
}.

Lemma xp_write_frame t s sp segs frame_va im pg :
  loading t s sp segs -> frame_ok frame_va -> sp (indices frame_va) = Some pg ->
  (forall a, kernel_stack_base <= a < PROC_KERNEL_STACK_TOP -> space_byte sp a = space_byte spo a) ->
  xp X (in_pt (write_words (desc_table (leaf (vm_pt s) (t, indices frame_va)) + frame_va mod 4096) (frame_stores im)))
    (fun _ s' => vm_fs s' = vm_fs s /\ exists sp', loading t s' sp' segs /\ kernel_only sp sp' /\ new_stack sp' frame_va im) s.
Proof.
  intros Hl (Hfr & H8 & Hpage) Hsp Hcopied. pose proof (lg_built _ _ _ _ _ _ _ Hl) as Hb.
  assert (Hx : ix_ok (indices frame_va)) by (split; [done | apply indices_ok]).
  destruct (built_page _ pool_in_ram _ _ _ _ _ _ _ Hb Hx Hsp) as (Hr & Hal & Hv & Hw).
  set (p := desc_table (leaf (vm_pt s) (t, indices frame_va))) in *. set (off := frame_va mod 4096) in *.
  pose proof (Z.mod_pos_bound frame_va 4096 ltac:(lia)) as Hoff. fold off in Hoff. unfold FRAME_WORDS in Hpage.
  assert (Hoff8 : off = 8 * (off / 8)) by (unfold off; Z.to_euclidean_division_equations; lia).
  set (o8 := off / 8) in *. pose proof (kernel_stack_page _ Hfr) as Hrange.
  apply xp_pt, wp_write_words. split; [done|]. set (m' := writes _ _ _).
  assert (Hslot : forall k, p + off + 8 * k = p + 8 * (o8 + k)) by lia.
  assert (Hout : outside_kept p (mem (vm_pt s)) m').
  { intros a Ha. apply writes_outside. intros i v Hi ->. apply frame_stores_range in Hi. unfold FRAME_WORDS in Hi.
    rewrite Hslot, word_of_idx in Ha; [done | lia]. }
  eexists. split; [|split].
  - destruct Hl as [L N _ G]. constructor; [done | done | | done]. by eapply (built_write _ pool_in_ram).
  - intros a Ha Hn. unfold set_space. rewrite decide_False; [done|]. apply indices_ne; [done | done |].
    unfold kernel_stack_base, PROC_KERNEL_STACK_SIZE, PROC_KERNEL_STACK_TOP in *. Z.to_euclidean_division_equations. lia.
  - fold p. constructor.
    + intros k v Hk Hword. unfold FRAME_WORDS in Hk.
      assert (Hdiv : (frame_va + 8 * k) / 4096 = frame_va / 4096).
      { pose proof (Z.div_mod frame_va 4096). fold off in H1. symmetry. apply (Z.div_unique_pos _ 4096 _ (off + 8 * k)); lia. }
      assert (Hmod : (frame_va + 8 * k) mod 4096 = off + 8 * k).
      { pose proof (Z.div_mod frame_va 4096). fold off in H1. symmetry. apply (Z.mod_unique_pos _ 4096 (frame_va / 4096)); lia. }
      unfold space_load, set_space. rewrite decide_True by (apply same_page; unfold PROC_KERNEL_STACK_TOP in *; lia).
      cbn [ap_words]. f_equal. rewrite Hmod. replace ((off + 8 * k) / 8) with (o8 + k) by (Z.to_euclidean_division_equations; lia).
      rewrite <- Hslot. unfold m'. rewrite writes_at, frame_stores_word, Hword by (unfold FRAME_WORDS; lia). done.
    + intros a Ha Hn. rewrite <- Hcopied by done. pose proof (kernel_stack_page _ Ha) as Harange.
      unfold space_byte, set_space. case_decide as E; [|done]. rewrite E, Hsp. f_equal. unfold page_byte. cbn [ap_words].
      set (o := a mod 4096). pose proof (Z.mod_pos_bound a 4096 ltac:(lia)) as Ho. fold o in Ho.
      assert (Hi : index_ok (o / 8)) by (unfold index_ok; Z.to_euclidean_division_equations; lia).
      rewrite Hw by done. f_equal. destruct (decide (0 <= o / 8 - o8 < 38)) as [Hin|Hnot].
      * replace (p + 8 * (o / 8)) with (p + off + 8 * (o / 8 - o8)) by lia. unfold m'. rewrite writes_at, frame_stores_word by done.
        destruct (decide (o / 8 - o8 = 33)) as [->|Hne]; [done|]. exfalso. apply (Hn (o / 8 - o8)); [done | done |].
        apply same_page in E; [|done..]. unfold o in *. pose proof (Z.div_mod a 4096). pose proof (Z.div_mod frame_va 4096).
        fold off in H2. Z.to_euclidean_division_equations. lia.
      * apply writes_outside. intros i v Hi'. apply frame_stores_range in Hi'. unfold FRAME_WORDS in Hi'. lia.
Qed.

Lemma kernel_stack_mapped sp va :
  stack_only kernel_stack_space sp -> kernel_stack_base <= va < PROC_KERNEL_STACK_TOP -> exists pg, sp (indices va) = Some pg.
Proof.
  intros Hs Hva. exists blank_page. pose proof (kernel_stack_page _ Hva) as Hrange.
  unfold kernel_stack_base, PROC_KERNEL_STACK_SIZE, PROC_KERNEL_STACK_TOP in Hva. rewrite Hs.
  - unfold kernel_stack_space. cbn [seeded]. unfold set_space.
    change kernel_stack_base with 0x8fe000. change (0x8fe000 + PAGE_SIZE) with 0x8ff000.
    case_decide as E1; [done|]. rewrite decide_True; [done|].
    destruct (decide (va < 0x8ff000)); [|destruct E1]; apply same_page; try lia; Z.to_euclidean_division_equations; lia.
  - intros a Ha. unfold stack_base, USER_STACK_TOP, USER_STACK_SIZE in Ha. apply indices_ne; [lia | lia |].
    Z.to_euclidean_division_equations. lia.
Qed.

Lemma kernel_only_trans sp1 sp2 sp3 : kernel_only sp1 sp2 -> kernel_only sp2 sp3 -> kernel_only sp1 sp3.
Proof. intros H12 H23 a Ha Hn. by rewrite H23, H12. Qed.

Lemma laid_out_kernel_only sp sp' args :
  let argv := USER_STACK_TOP - stack_need args in
  stack_base <= argv -> kernel_only sp sp' -> laid_out sp argv args -> laid_out sp' argv args.
Proof.
  intros argv Hlo Hk [Ha Hn].
  assert (Hbyte : forall p l, stack_base <= p -> p + Z.of_nat (length l) <= USER_STACK_TOP -> holds_bytes sp p l -> holds_bytes sp' p l).
  { intros p l Hp Hl Hh j b Hj. pose proof (lookup_lt_Some _ _ _ Hj). rewrite <- (Hh j b Hj). unfold space_byte. rewrite Hk; [done | |];
      unfold stack_base, USER_STACK_TOP, USER_STACK_SIZE, kernel_stack_base, PROC_KERNEL_STACK_SIZE, PROC_KERNEL_STACK_TOP in *; lia. }
  assert (Hneed : argv + 8 * (Z.of_nat (length args) + 1) <= USER_STACK_TOP).
  { unfold argv, stack_need, total. Z.to_euclidean_division_equations. lia. }
  constructor.
  - intros i a Hi. destruct (Ha i a Hi) as (p & H1 & H2 & H3 & H4). exists p. pose proof (lookup_lt_Some _ _ _ Hi).
    split_and!; [done | done | |].
    + apply Hbyte; [lia | rewrite length_le; lia | done].
    + apply Hbyte; [lia | done | done].
  - apply Hbyte; [lia | rewrite length_le; lia | done].
Qed.

Lemma xp_enter_image s sp segs frame_va im :
  loading (im_table im) s sp segs -> stack_only kernel_stack_space sp -> frame_ok frame_va ->
  xp X (enter_image old frame_va im) (fun ok s' => ok = true /\ exists sp',
    loading (im_table im) s' sp' segs /\ kernel_only sp sp' /\ new_stack sp' frame_va im) s.
Proof.
  intros Hl Hst Hfr. pose proof Hfr as (Hrange & H8 & Hpage). set (t := im_table im) in *.
  pose proof (kernel_stack_page _ Hrange) as Hrange'.
  assert (Hdown : align_down frame_va = frame_va - frame_va mod 4096) by (apply align_down_eq; lia).
  unfold enter_image. fold t. rewrite Hdown. replace (frame_va - (frame_va - frame_va mod 4096)) with (frame_va mod 4096) by lia.
  pose proof (Z.mod_pos_bound frame_va 4096 ltac:(lia)) as Hmod.
  rewrite (proj2 (Z.ltb_ge _ _)), (proj2 (Z.leb_gt _ _)), (proj2 (Z.leb_gt _ _)) by (change PAGE_SIZE with 4096; lia). cbn [orb].
  apply xp_bind. eapply xp_mono; [apply (xp_copy_kernel_stack t s sp segs Hl); intros va Hva; by apply kernel_stack_mapped|].
  intros ok s1 (-> & Ef & sp1 & Hl1 & Hk1 & Hc1). cbn [negb].
  assert (Hpg : exists pg, sp1 (indices frame_va) = Some pg).
  { specialize (Hc1 frame_va Hrange). unfold space_byte in Hc1. destruct (Hkstack frame_va Hrange) as [pgo Hpgo].
    rewrite Hpgo in Hc1. destruct (sp1 (indices frame_va)); [by eexists | done]. }
  destruct Hpg as [pg Hpg]. assert (Hx : ix_ok (indices frame_va)) by (split; [done | apply indices_ok]).
  pose proof (lg_built _ _ _ _ _ _ _ Hl1) as Hb1.
  destruct (built_page _ pool_in_ram _ _ _ _ _ _ _ Hb1 Hx Hpg) as (Hr & _ & Hv & _).
  assert (Hix : indices (frame_va - frame_va mod 4096) = indices frame_va) by (rewrite <- Hdown; apply indices_align_down).
  apply xp_bind. eapply (xp_eq _ _ (desc_table (leaf (vm_pt s1) (t, indices frame_va)))).
  { unfold in_pt, lift. rewrite mapped_page_eq; rewrite ?Hix; [by destruct s1 | | done | done |].
    - by eapply (loading_nonzero _ pool_in_ram).
    - rewrite <- Hdown. apply align_down_page. }
  rewrite (proj2 (Z.eqb_neq _ _)) by by apply in_ram_nonzero.
  apply xp_bind. eapply xp_mono; [by eapply xp_write_frame|]. intros [] s2 [_ (sp2 & Hl2 & Hk2 & Hns)].
  apply xp_ret. split; [done|]. exists sp2. split_and!; [done | by eapply kernel_only_trans | done].
Qed.

(** *** Destroying the old image *)

(** The new address space is there, the old one is not, and every other one is
    as it was. *)
Record replaced (s : vm_state F) (t : Z) (sp : space) (segs : list mem_segment) : Prop := {
  rp_lock : vm_lock s = false;
  rp_new : space_rel (vm_pt s) t sp;
  rp_segs : segments s t = segs;
  rp_roots : exists lab used, vm_ok page_pool_start (vm_pt s) lab used /\ is_root lab t /\ ~ is_root lab old /\
    forall q, is_root lab0 q -> q <> old -> is_root lab q;
  rp_other : forall q sp', is_root lab0 q -> q <> old -> space_rel (vm_pt s0) q sp' -> space_rel (vm_pt s) q sp';
  rp_other_segs : forall q, q <> old -> q <> t -> smap s !! q = smap s0 !! q;
  rp_old : smap s !! old = None
}.

Lemma xp_destroy_old t s sp segs :
  loading t s sp segs -> xp X (destroy_page_table old) (fun _ s' => replaced s' t sp segs) s.
Proof.
  intros Hl. pose proof Hl as [L N [(lab & used & Hok & Ht & Hsub & Hlow) Hself Hown Hother _] (m & Em & Hm & Hmt)].
  assert (Hto : t <> old) by (by intros ->). assert (Hold' : is_root lab old) by by eapply lookup_weaken.
  destruct (vo_pt _ _ _ _ Hok) as [fl Hi]. destruct (table_page _ pool_in_ram _ _ _ _ _ _ Hi Hold') as [Hram _].
  apply in_ram_nonzero in Hram. unfold destroy_page_table. rewrite (proj2 (Z.eqb_neq _ _) Hram).
  apply xp_bind, xp_hp. eapply hp_mono; [by apply (hp_free_struct s m)|]. intros [] s1 -> _.
  apply xp_pt. eapply wp_mono; [apply (wp_destroy_vm _ pool_in_ram _ lab used old Hok Hold')|].
  intros [] p' (used' & Hok' & HR). constructor.
  - done.
  - by apply HR.
  - unfold segments, smap. simpl. by rewrite lookup_delete_ne by done.
  - exists (survivors lab old), used'. split_and!; [done | by apply survivors_lookup | |].
    + unfold is_root. by intros [_ ?]%survivors_lookup.
    + intros q Hq Hne. apply survivors_lookup. split; [by eapply lookup_weaken | done].
  - intros q sp' Hq Hne Hs. apply HR; [by eapply lookup_weaken | done |]. apply Hother; [done | by intros -> | done].
  - intros q Hqo Hqt. unfold smap. simpl. rewrite lookup_delete_ne by done. by apply Hmt.
  - unfold smap. simpl. apply lookup_delete_eq.
Qed.

End exec_theory.

(** ** Theory: the system call *)

Section exec_outcomes.
Context {F : Type} (X : Prop).
Implicit Types (s : exec_state F).

(** As [xp], with the kernel tables beside the memory system. *)
Definition xe {A} (m : stM (exec_state F) A) (Q : A -> exec_state F -> Prop) s : Prop :=
  match m s with
  | Ok (a, s') => Q a s' /\ (refusal (ex_vm s') -> refusal (ex_vm s))
  | Fatal => refusal (ex_vm s)
  | Hang => X
  | Fault => False
  end.

Lemma xe_ret {A} (a : A) (Q : A -> exec_state F -> Prop) s : Q a s -> xe (mret a) Q s.
Proof. by split. Qed.

Lemma xe_bind {A B} (m : stM (exec_state F) A) (f : A -> stM (exec_state F) B) (Q : B -> exec_state F -> Prop) s :
  xe m (fun a s' => xe (f a) Q s') s -> xe (m ≫= f) Q s.
Proof.
  unfold xe, mbind, stM_bind. destruct (m s) as [[a s']| | |]; try done.
  destruct (f a s') as [[b s'']| | |]; intros [Hf Hr]; try done; [|auto].
  destruct Hf as [HQ Hr']. auto.
Qed.

Lemma xe_mono {A} (m : stM (exec_state F) A) (P Q : A -> exec_state F -> Prop) s :
  xe m P s -> (forall a s', P a s' -> Q a s') -> xe m Q s.
Proof. unfold xe. destruct (m s) as [[a s']| | |]; try done. intros [HP Hr] HPQ. split; auto. Qed.

Lemma xe_vm {A} (m : stM (vm_state F) A) (Q : A -> exec_state F -> Prop) s :
  xp X m (fun a v => Q a (set_ex_vm v s)) (ex_vm s) -> xe (in_vm m) Q s.
Proof. unfold xp, xe, in_vm, lift. by destruct (m (ex_vm s)) as [[a v]| | |]. Qed.

Lemma xe_k {A} (m : KM A) (Q : A -> exec_state F -> Prop) s :
  wp m (fun a k => Q a (set_ex_k k s)) (ex_k s) -> xe (in_k m) Q s.
Proof. intros (a & k & E & HQ). unfold xe, in_k, lift. by rewrite E. Qed.

End exec_outcomes.

(** What the system call leaves in the tables of the kernel: the process has
    the new table, one thread, the name of the program and the default action
    for every signal that it did not ignore. *)
Definition exec_sigaction (signum : nat) (a : Tasks.sigaction) : Tasks.sigaction :=
  if bool_decide (sa_handler a = SIG_IGN /\ Z.of_nat signum <> SIGKILL /\ Z.of_nat signum <> SIGSTOP) then a else mkSigaction SIG_DFL 0 0.

Definition exec_pcb (table tid : Z) (name : list Z) (y : pcb) : pcb :=
  set_p_sigactions (imap exec_sigaction (p_sigactions y))
    (set_p_name (name_prefix 31 (if char_at name 0 =? 0 then [63] else name)) (set_p_tids [tid] (set_table table y))).

Definition exec_kernel (p t table frame_va : Z) (name : list Z) (x : tcb) (y : pcb) (k : kstate) : kstate :=
  set_k_processes (<[Z.to_nat p := exec_pcb table (t_tid x) name y]> (k_processes k))
    (set_k_threads (<[Z.to_nat t := set_t_ctx (set_exec_ctx frame_va table (t_ctx x)) x]> (k_threads k)) k).

Lemma imap_sigactions l :
  imap (fun signum a => if negb (Z.of_nat signum =? SIGKILL) && negb (Z.of_nat signum =? SIGSTOP) && bool_decide (sa_handler a = SIG_IGN)
    then a else mkSigaction SIG_DFL 0 0) l = imap exec_sigaction l.
Proof.
  apply imap_ext. intros i a _. unfold exec_sigaction.
  destruct (Z.eqb_spec (Z.of_nat i) SIGKILL), (Z.eqb_spec (Z.of_nat i) SIGSTOP); cbn [negb andb]; repeat case_bool_decide; tauto.
Qed.

Section exec_call.
Variable page_pool_start : Z.
Hypothesis pool_in_ram : KERNEL_VA_BASE < page_pool_start <= RAM_end.
Context {F : Type} `{ExecFileLaws F}.

(** A process that can make the call: [p] has the thread [t] and an address
    space with a kernel stack, and no lock is held. *)
Record exec_caller (s : exec_state F) (lab : gmap Z (Z * list Z)) (p t : Z) (x : tcb) (y : pcb) (spo : space) : Prop := {
  ec_mem : exists used, vm_ok page_pool_start (vm_pt (ex_vm s)) lab used;
  ec_lock : vm_lock (ex_vm s) = false;
  ec_structs : forall r, is_Some (smap (ex_vm s) !! r) -> is_root lab r;
  ec_root : is_root lab (p_ttbr0_el1_va y);
  ec_space : space_rel (vm_pt (ex_vm s)) (p_ttbr0_el1_va y) spo;
  ec_stack : forall va, kernel_stack_base <= va < PROC_KERNEL_STACK_TOP -> exists pg, spo (indices va) = Some pg;
  ec_table_lock : k_process_table_lock (ex_k s) = false;
  ec_pcb : k_processes (ex_k s) !! Z.to_nat p = Some y;
  ec_pid : 0 <= p < MAX_PROCESS_COUNT /\ p_pid y = p /\ p_state y <> PROC_UNUSED_STATE;
  ec_tcb : 0 <= t /\ k_threads (ex_k s) !! Z.to_nat t = Some x
}.

(** The image that the process runs after the call. *)
Record executed (s s' : exec_state F) lab p t x y spo path argv frame_va (im : image) (sp : space) : Prop := {
  ed_header : let '(d, ino) := of_path (vm_fs (ex_vm s)) path in
    validate_elf_header (program_of d) (Z.of_nat (length d)) = SUCCESS /\ im_entry_pc im = e_entry (program_of d);
  ed_args : im_argc im = length (default [] argv) /\ im_user_argv im = im_user_sp im /\
    stack_base <= im_user_sp im < USER_STACK_TOP /\ laid_out sp (im_user_argv im) (args_of argv);
  ed_stack : new_stack spo sp frame_va im;
  ed_only : forall a, 0 <= a < 2 ^ 48 -> ~ stack_base <= a < USER_STACK_TOP -> ~ kernel_stack_base <= a < PROC_KERNEL_STACK_TOP -> sp (indices a) = None;
  ed_segments : let '(d, ino) := of_path (vm_fs (ex_vm s)) path in exists segs,
    segs ≡ₚ program_segments d ino /\ ~ touching (program_segments d ino) /\ Forall (in_file (Z.of_nat (length d))) segs /\
    replaced page_pool_start (ex_vm s) lab (p_ttbr0_el1_va y) (ex_vm s') (im_table im) sp segs;
  ed_kernel : ex_k s' = exec_kernel p t (im_table im) frame_va (copy_exec_name 32 path) x y (ex_k s)
}.

Lemma inserted_perm l : foldl insert_region [] l ≡ₚ l.
Proof.
  rewrite <- (app_nil_r l) at 2. generalize (@nil mem_segment) as segs.
  induction l as [|g l IH]; intros segs; [done|]. cbn [foldl]. rewrite IH, insert_region_perm. cbn [app].
  by rewrite Permutation_middle.
Qed.

Lemma no_page_elsewhere sp sp' :
  stack_only kernel_stack_space sp -> kernel_only sp sp' ->
  forall a, 0 <= a < 2 ^ 48 -> ~ stack_base <= a < USER_STACK_TOP -> ~ kernel_stack_base <= a < PROC_KERNEL_STACK_TOP -> sp' (indices a) = None.
Proof.
  intros Hst Hk a Ha Hn1 Hn2. rewrite Hk by done.
  unfold kernel_stack_base, PROC_KERNEL_STACK_SIZE, PROC_KERNEL_STACK_TOP in Hn2.
  unfold stack_base, USER_STACK_TOP, USER_STACK_SIZE in Hn1. rewrite Hst.
  - unfold kernel_stack_space. cbn [seeded]. unfold set_space.
    change kernel_stack_base with 0x8fe000. change (0x8fe000 + PAGE_SIZE) with 0x8ff000.
    rewrite !decide_False; [done | |]; (apply indices_ne; [done | lia |]); Z.to_euclidean_division_equations; lia.
  - intros b Hb. unfold stack_base, USER_STACK_TOP, USER_STACK_SIZE in Hb. apply indices_ne; [done | lia |].
    Z.to_euclidean_division_equations. lia.
Qed.

Lemma wp_set_process_name p y name k (Q : Z -> kstate -> Prop) :
  0 <= p < MAX_PROCESS_COUNT -> k_processes k !! Z.to_nat p = Some y -> p_state y <> PROC_UNUSED_STATE ->
  k_process_table_lock k = false ->
  Q 0 (set_k_processes (<[Z.to_nat p := set_p_name (name_prefix 31 (if char_at name 0 =? 0 then [63] else name)) y]> (k_processes k)) k) ->
  wp (set_process_name_for_pid p name) Q k.
Proof.
  intros Hp Hy Hst Hlock HQ. unfold set_process_name_for_pid, get_pcb_by_pid. apply wp_bind, wp_bind, wp_spin_lock; [done|].
  rewrite (proj2 (Z.leb_gt _ _)), (proj2 (Z.ltb_ge _ _)) by lia. cbn [orb].
  apply wp_bind, (wp_get_pcb _ y); [lia | done |]. rewrite bool_decide_false by done.
  apply wp_bind, wp_modify, wp_ret. replace (set_k_process_table_lock false _) with k by (destruct k; simpl in *; by subst).
  by apply wp_bind, (wp_upd_pcb _ y); [lia | done | apply wp_ret].
Qed.

(** What remains once the new image is in place. *)
Lemma exec_kernel_eq p t x y name table frame_va k :
  let k1 := set_k_threads (<[Z.to_nat t := set_t_ctx (set_exec_ctx frame_va table (t_ctx x)) x]> (k_threads k)) k in
  let y1 := set_table table y in
  let y2 := set_p_tids [t_tid x] y1 in
  let y3 := set_p_name (name_prefix 31 (if char_at name 0 =? 0 then [63] else name)) y2 in
  let y4 := set_p_sigactions (imap exec_sigaction (p_sigactions y3)) y3 in
  set_k_processes (<[Z.to_nat p := y4]> (<[Z.to_nat p := y3]> (<[Z.to_nat p := y2]> (<[Z.to_nat p := y1]> (k_processes k))))) k1
  = exec_kernel p t table frame_va name x y k.
Proof. intros k1 y1 y2 y3 y4. by rewrite !list_insert_insert_eq. Qed.

Lemma xe_exec_image s lab p t x y spo path argv frame_va (X : Prop) :
  exec_caller s lab p t x y spo -> frame_ok frame_va -> Forall is_string (default [] argv) ->
  (let '(d, ino) := of_path (vm_fs (ex_vm s)) path in touching (program_segments d ino) -> X) ->
  xe X (exec_image page_pool_start p t path argv frame_va true) (fun r s' =>
    (r <> SUCCESS /\ build_image page_pool_start path argv (ex_vm s) = Ok (inl r, ex_vm s') /\ ex_k s' = ex_k s /\
       intact page_pool_start (ex_vm s) lab (ex_vm s')) \/
    (r = SUCCESS /\ exists im sp, executed s s' lab p t x y spo path argv frame_va im sp)) s.
Proof.
  intros [[used Hok] Hlock Hstr Hroot Hspace Hks Hptl Hy (Hp & Hpid & Hst) [Ht Hx]] Hfr Hargs HX.
  pose proof (xp_build_image page_pool_start pool_in_ram X (ex_vm s) lab used Hok Hlock Hstr path argv) as Hbuild.
  destruct (of_path (vm_fs (ex_vm s)) path) as [d ino] eqn:Epath. specialize (Hbuild Hargs HX).
  unfold exec_image. apply xe_bind, xe_vm. eapply xp_mono; [apply xp_result, Hbuild|]. intros [e|im] v1 [Him Hres].
  { apply xe_ret. left. by destruct Him. }
  destruct Him as ([(Ha1 & Ha2 & Ha3) (sp1 & Hl1 & Hlay & Honly) Hin Hapart] & Hval & Hpc & Hargc & Hname).
  apply xe_bind, xe_k, (wp_get_pcb _ y); [lia | done |].
  apply xe_bind, xe_vm. eapply xp_mono; [by eapply (xp_enter_image page_pool_start pool_in_ram X (ex_vm s) lab)|].
  intros ok v2 [-> (sp2 & Hl2 & Hk2 & Hns)]. cbn [negb].
  apply xe_bind, xe_k, (wp_upd_tcb _ x); [done | done |].
  apply xe_bind, xe_k, (wp_upd_pcb _ y); [lia | done |].
  apply xe_bind, xe_vm. eapply xp_mono; [by eapply (xp_destroy_old page_pool_start pool_in_ram X (ex_vm s) lab)|].
  intros [] v3 Hrep. pose proof (lookup_lt_Some _ _ _ Hx) as Hxlt. pose proof (lookup_lt_Some _ _ _ Hy) as Hylt.
  apply xe_bind, xe_k. eapply wp_get_tcb; [done | by apply list_lookup_insert_eq |]. cbn [t_tid set_t_ctx].
  apply xe_bind, xe_k. eapply wp_upd_pcb; [lia | by apply list_lookup_insert_eq |].
  apply xe_bind, xe_k. eapply wp_get_pcb; [lia | by apply list_lookup_insert_eq; cbn [k_processes set_k_processes set_k_threads ex_k set_ex_k set_ex_vm]; rewrite ?length_insert |].
  apply xe_bind, xe_k. cbn [p_pid set_p_tids set_table set_p_ttbr0_el1_va set_p_ttbr0_el1]. rewrite Hpid.
  eapply wp_set_process_name; [done | by apply list_lookup_insert_eq; cbn [k_processes set_k_processes set_k_threads ex_k set_ex_k set_ex_vm]; rewrite ?length_insert | done | done |].
  apply xe_bind, xe_k. eapply wp_upd_pcb; [lia | by apply list_lookup_insert_eq; cbn [k_processes set_k_processes set_k_threads ex_k set_ex_k set_ex_vm]; rewrite ?length_insert |].
  apply xe_ret. right. split; [done|]. exists im, sp2.
  constructor; rewrite ?Epath; [done | | done | by eapply no_page_elsewhere | |].
  - split_and!; [done | done | lia | unfold USER_STACK_TOP, stack_need, total in *; Z.to_euclidean_division_equations; lia |].
    rewrite Ha1, Ha2 in Hlay |- *. rewrite Ha2 in Ha3. by apply (laid_out_kernel_only sp1).
  - eexists. split_and!; [apply inserted_perm | done | by rewrite inserted_perm | done].
  - rewrite imap_sigactions, <- Hname. apply exec_kernel_eq.
Qed.

(** The call from the only thread of the process. *)
Record exec_single (s : exec_state F) (me : nat) (p t : Z) (x : tcb) (y : pcb) : Prop := {
  es_current : running_on (ex_k s) me = Some t;
  es_threads_lock : k_threads_lock (ex_k s) = false;
  es_pcb : t_pcb x = p;
  es_tid : t_tid x = t;
  es_state : t_state x <> THREAD_UNUSED;
  es_tids : p_tids y = [t]
}.

Lemma runs_exec_thread_of k me p t x :
  running_on k me = Some t -> 0 <= t -> k_threads k !! Z.to_nat t = Some x -> t_pcb x = p ->
  runs (fun a k' => a = Some t /\ k' = k) me (exec_thread_of p) k.
Proof.
  intros Hc Ht Hx Hp. unfold exec_thread_of, current. apply runs_bind, runs_bind. exists me, k. split; [done|].
  apply runs_atomic, wp_fetch. change (match k_cpus k !! me with Some c => c_curr_thread c | None => None end) with (running_on k me). rewrite Hc.
  apply runs_bind, runs_step, (wp_get_tcb _ x); [done | done|]. apply runs_ret. rewrite Hp, Z.eqb_refl. by apply runs_ret.
Qed.

Lemma runs_kill_others deliver n k me p t x y :
  (2 <= n)%nat -> 0 <= p -> k_processes k !! Z.to_nat p = Some y -> p_tids y = [t] ->
  0 <= t -> k_threads k !! Z.to_nat t = Some x -> t_state x <> THREAD_UNUSED -> k_threads_lock k = false ->
  runs (fun _ k' => k' = k) me (kill_others deliver n p t) k.
Proof.
  intros Hn Hp Hy Htids Ht Hx Hu Hl. destruct n as [|[|n]]; [lia | lia |]. unfold kill_others. cbn [loop].
  apply runs_bind, runs_step, (wp_get_pcb _ y); [done | done|]. rewrite Htids. cbn [lookup list_lookup].
  apply runs_step, wp_thread_get_by_tid; [done | | intros Hno; by destruct Hu; apply Hno].
  intros x' _ _ _. rewrite Z.eqb_refl. apply runs_ret.
  apply runs_bind, runs_step, (wp_get_pcb _ y); [done | done|]. rewrite Htids. cbn [lookup list_lookup]. by apply runs_ret, runs_ret.
Qed.

Lemma exec_single_eq deliver n s lab me p t x y spo path argv frame_va :
  (2 <= n)%nat -> exec_caller s lab p t x y spo -> exec_single s me p t x y ->
  elf_exec_process page_pool_start deliver n (Some p) (Some path) argv true frame_va true me s
  = atomic (exec_image page_pool_start p t path argv frame_va true) me s.
Proof.
  intros Hn [_ _ _ _ _ _ _ Hy (Hp & _ & _) [Ht Hx]] [Hc Hl Hpcb Htid Hu Htids]. unfold elf_exec_process.
  assert (Hself : set_ex_k (ex_k s) s = s) by by destruct s.
  destruct (runs_exec_thread_of _ _ p t x Hc Ht Hx Hpcb) as (? & k1 & E1 & -> & ->).
  destruct (runs_kill_others deliver n (ex_k s) me p t x y Hn ltac:(lia) Hy Htids Ht Hx Hu Hl) as ([] & ? & E2 & ->).
  unfold mbind, prog_bind at 1, on. rewrite E1. cbn [embed res_bind]. unfold mbind, prog_bind, on. rewrite Hself, E2. cbn [embed res_bind].
  by rewrite Hself.
Qed.

End exec_call.

(** ** An example *)

#[local] Existing Instance demo_files.
#[local] Existing Instance demo_file_laws.

(** Process 2 of [demo_system] with the address space [root], in which the
    kernel stack is mapped. *)
Definition demo_exec_ops : list vm_op := [VNew; VMap 0 0x8fe000 ATTR_KERNEL_RW; VMap 0 0x8ff000 ATTR_KERNEL_RW].

Definition demo_exec (root : Z) (ps : pt_state) : exec_state Z :=
  mkExec (set_k_processes (<[2%nat := set_p_ttbr0_el1_va root (demo_process 2)]> (k_processes demo_system)) demo_system)
    (mkVM ps (Some {[ root := [] ]}) false (fun _ => true) 0).

Definition demo_argv : list (list Z) := [[108; 115]; [45; 97]].

Definition demo_path : list Z := [47; 98; 105; 110; 47; 108; 115].

(** ** Properties *)


(** The address space after boot. *)
Definition boot_log (o : outcome (list Z * list vm_event * pt_state)) : option (nat * list vm_event) :=
  match o with Ok ((roots, log), _) => Some (length roots, log) | _ => None end.

Lemma demo_boot : boot_log (boot_run pool_example [] all_pages demo_exec_ops boot_example) =
  Some (1%nat, [EMap 0 0x8ff000 true; EMap 0 0x8fe000 true; ENew]).
Proof. lazy. reflexivity. Qed.

Definition demo_space : space := set_space (set_space empty_space (indices 0x8fe000) blank_page) (indices 0x8ff000) blank_page.

Lemma demo_space_stack va : kernel_stack_base <= va < PROC_KERNEL_STACK_TOP -> exists pg, demo_space (indices va) = Some pg.
Proof. by apply (kernel_stack_mapped demo_space). Qed.

Lemma demo_caller : exists root ps lab,
  exec_caller pool_example (demo_exec root ps) lab 2 2 (demo_tcb 2 2 THREAD_RUNNING (-2)) (set_p_ttbr0_el1_va root (demo_process 2)) demo_space.
Proof.
  destruct (wp_boot_run pool_example pool_example_ok [] all_pages demo_exec_ops boot_example) as ([roots log] & ps & E & lab & used & Hok & _ & Hlen & Hroots & Hrel).
  { by split_and!. }
  { unfold all_pages. by rewrite length_replicate, Z2Nat.id. }
  pose proof demo_boot as Hlog. rewrite E in Hlog. cbn [boot_log] in Hlog. injection Hlog as Hone ->. clear E Hlen.
  destruct roots as [|root [|]]; [done | | done]. exists root, ps, lab.
  assert (Hroot : is_root lab root) by (apply Hroots, list_elem_of_singleton; done).
  constructor; [by exists used | reflexivity | | exact Hroot | | apply demo_space_stack | reflexivity | reflexivity | | ].
  - intros r Hr. unfold smap in Hr. simpl in Hr. destruct (decide (r = root)) as [->|Hne]; [done|].
    rewrite lookup_singleton_ne in Hr by done. by destruct Hr.
  - apply (Hrel 0%nat root demo_space); reflexivity.
  - split_and!; [lia | done | reflexivity | discriminate].
  - split; [lia | reflexivity].
Qed.

