(* ===== verification/Process.v ===== *)
(** * Processes: groups and waiting

    kernel/scheduler/process.c without memory: process groups ([add_to_pgrp],
    [remove_from_pgrp], [setpgrp], [getpgid]), the search for a child to wait
    for, the choice of an unused process, names and priorities.  The creation
    and the end of processes, which need the memory system, are in
    ProcLife.v. *)

From S2P Require Import Prelude Errors Services Programs Tasks Sched Threads Signals.

(** ** Process groups

    The hash map [pgrps] is the finite map [k_pgrps]; a change through a
    pointer to a group is an insertion. *)

Definition get_pgrp_by_pgid (pgid : Z) : KM (option pgrp) := fetch (fun s => k_pgrps s !! pgid).

Definition put_pgrp (key : Z) (g : pgrp) : KM unit := modify (fun s => set_k_pgrps (<[key := g]> (k_pgrps s)) s).

Definition sizeof_pgrp : Z := 40.

(** A new, empty group; [None] when there is no memory, and [pgrp_destroy] has
    freed what had been allocated. *)
Definition make_pgrp (pgid : Z) : KM (option pgrp) :=
  b ← kmalloc sizeof_pgrp;
  if negb (b : bool) then mret None else
  pids ← list_new;
  let g := mkPgrp pids 0 pgid in
  m ← fetch k_pgrps;
  r ← map_put m pgid g;
  match r with
  | None => mret None
  | Some m' => _ ← modify (set_k_pgrps m'); mret (Some g)
  end.

Definition add_to_pgrp (pid : Z) : KM Z :=
  pcb ← get_pcb_by_pid pid;
  match pcb with
  | None => mret (-1)
  | Some p =>
      y ← get_pcb p;
      g ← get_pgrp_by_pgid (p_pgid y);
      g ← (match g with Some g => mret (Some g) | None => make_pgrp (p_pgid y) end);
      match g with
      | None => mret (-1)
      | Some g =>
          if bool_decide (pid ∈ g_pids g) then mret 0 else
          pids ← list_push (g_pids g) pid;
          _ ← put_pgrp (p_pgid y) (mkPgrp pids (g_refcount g + 1) (g_pgid g));
          mret 0
      end
  end.

Definition remove_from_pgrp (pid : Z) : KM unit :=
  pcb ← get_pcb_by_pid pid;
  match pcb with
  | None => mret tt
  | Some p =>
      y ← get_pcb p;
      g ← get_pgrp_by_pgid (p_pgid y);
      match g with
      | None => mret tt
      | Some g =>
          let g' := if bool_decide (pid ∈ g_pids g)
                    then mkPgrp (erase_first pid (g_pids g)) (g_refcount g - 1) (g_pgid g) else g in
          _ ← put_pgrp (p_pgid y) g';
          if g_refcount g' <=? 0
          then modify (fun s => set_k_pgrps (delete (g_pgid g') (k_pgrps s)) s)
          else mret tt
      end
  end.

(** The process a call with the argument [pid] is about: 0 is the caller. *)
Definition target_process (me : nat) (pid : Z) : KM (option Z) :=
  if pid =? 0 then get_curr_process me else get_pcb_by_pid pid.

Definition setpgrp (me : nat) (pid pgid : Z) : KM Z :=
  pcb ← target_process me pid;
  match pcb with
  | None => mret SYS_ESRCH
  | Some p =>
      y ← get_pcb p;
      let pgid := if pgid =? 0 then p_pid y else pgid in
      if p_pgid y =? pgid then mret 0 else
      let old_pgid := p_pgid y in
      _ ← remove_from_pgrp (p_pid y);
      _ ← upd_pcb p (set_p_pgid pgid);
      r ← add_to_pgrp (p_pid y);
      if negb (r =? 0) then
        _ ← upd_pcb p (set_p_pgid old_pgid);
        _ ← add_to_pgrp (p_pid y);
        mret SYS_EAGAIN
      else mret 0
  end.

Definition getpgid (me : nat) : KM Z :=
  pcb ← get_curr_process me;
  match pcb with
  | None => mret SYS_ESRCH
  | Some p => y ← get_pcb p; mret (p_pgid y)
  end.

Fixpoint change_priorities (tids : list Z) (new_priority : Z) : KM unit :=
  match tids with
  | [] => mret tt
  | tid :: tids => _ ← thread_change_priority tid new_priority; change_priorities tids new_priority
  end.

Definition process_change_priority (me : nat) (pid new_priority : Z) : KM unit :=
  pcb ← target_process me pid;
  match pcb with
  | None => mret tt
  | Some p =>
      if (new_priority <? 0) || (2 <? new_priority) then mret tt else
      y ← get_pcb p; change_priorities (p_tids y) new_priority
  end.

(** ** Waiting for children *)

Definition can_wait_on_child (p flags : Z) : KM bool :=
  y ← get_pcb p;
  if bool_decide (p_state y = PROC_ZOMBIE_STATE) then mret true else
  if has flags WUNTRACED && p_wait_stop_pending y then _ ← upd_pcb p (set_p_wait_stop_pending false); mret true else
  if has flags WCONTINUED && p_wait_cont_pending y then _ ← upd_pcb p (set_p_wait_cont_pending false); mret true else
  mret false.

Definition child_matches_wait (wait_pid : Z) (y : pcb) : bool :=
  if wait_pid =? -1 then true
  else if wait_pid <? -1 then p_pgid y =? - wait_pid
  else p_pid y =? wait_pid.

Fixpoint find_waitable_child (children : list Z) (wait_pid flags : Z) : KM (option Z) :=
  match children with
  | [] => mret None
  | pid :: children =>
      pcb ← get_pcb_by_pid pid;
      match pcb with
      | None => find_waitable_child children wait_pid flags
      | Some p =>
          y ← get_pcb p;
          if negb (child_matches_wait wait_pid y) then find_waitable_child children wait_pid flags else
          ok ← can_wait_on_child p flags;
          if (ok : bool) then mret (Some p) else find_waitable_child children wait_pid flags
      end
  end.

Fixpoint has_wait_child (children : list Z) (wait_pid : Z) : KM bool :=
  match children with
  | [] => mret false
  | pid :: children =>
      pcb ← get_pcb_by_pid pid;
      match pcb with
      | None => has_wait_child children wait_pid
      | Some p => y ← get_pcb p; if child_matches_wait wait_pid y then mret true else has_wait_child children wait_pid
      end
  end.

Definition remove_from_waitq (p tid : Z) : KM unit := upd_pcb p (fun y => set_p_child_waitq (erase_first tid (p_child_waitq y)) y).

(** ** Unused processes *)

Fixpoint unused_process (l : list pcb) (i : Z) : option Z :=
  match l with
  | [] => None
  | y :: l => if bool_decide (p_state y = PROC_UNUSED_STATE) then Some i else unused_process l (i + 1)
  end.

Definition get_next_unused_pcb : KM (option Z) :=
  _ ← process_table_lock;
  l ← fetch k_processes;
  match unused_process l 0 with
  | Some i =>
      _ ← upd_pcb i (set_p_pid i);
      _ ← upd_pcb i (set_p_state PROC_BLOCKED_STATE);
      _ ← process_table_unlock;
      mret (Some i)
  | None => _ ← process_table_unlock; mret None
  end.

(** ** Theory: groups *)

Definition in_group (k : kstate) (g pid : Z) : Prop := exists grp, k_pgrps k !! g = Some grp /\ pid ∈ g_pids grp.

Definition process (k : kstate) (pid : Z) (y : pcb) : Prop :=
  0 <= pid /\ k_processes k !! Z.to_nat pid = Some y /\ used y.

(** Every process of [P], and nothing else, is in the group it names; groups
    are not empty and count their members. *)
Record groups_ok (P : Z -> Prop) (k : kstate) : Prop := {
  go_wf : forall g grp, k_pgrps k !! g = Some grp ->
    g_pgid grp = g /\ NoDup (g_pids grp) /\ g_refcount grp = Z.of_nat (length (g_pids grp)) /\ g_pids grp <> [];
  go_mem : forall g pid, in_group k g pid <-> P pid /\ exists y, process k pid y /\ p_pgid y = g
}.

(** What the operations on groups rely on in the process table. *)
Record processes_ok (k : kstate) : Prop := {
  po_lock : k_process_table_lock k = false;
  po_len : length (k_processes k) = 256%nat;
  po_pid : forall p y, k_processes k !! p = Some y -> p_pid y = Z.of_nat p
}.

(** [k'] is [k] but for the groups and the heap. *)
Definition groups_only (k k' : kstate) : Prop := exists m h, k' = set_k_heap h (set_k_pgrps m k).

Lemma groups_only_refl k : groups_only k k.
Proof. exists (k_pgrps k), (k_heap k). by destruct k. Qed.

Lemma groups_only_trans k1 k2 k3 : groups_only k1 k2 -> groups_only k2 k3 -> groups_only k1 k3.
Proof. intros (m & h & ->) (m' & h' & ->). by exists m', h'. Qed.

Lemma groups_only_set k m : groups_only k (set_k_pgrps m k).
Proof. by exists m, (k_heap k). Qed.

Lemma groups_only_processes k k' : groups_only k k' -> k_processes k' = k_processes k.
Proof. by intros (m & h & ->). Qed.

Lemma groups_only_process k k' pid y : groups_only k k' -> process k' pid y <-> process k pid y.
Proof. by intros (m & h & ->). Qed.

Lemma groups_only_ok k k' : groups_only k k' -> processes_ok k -> processes_ok k'.
Proof. intros (m & h & ->) [? ? ?]. by constructor. Qed.

Lemma groups_ok_ext P P' k : (forall pid, P pid <-> P' pid) -> groups_ok P k -> groups_ok P' k.
Proof. intros HP [Hw Hm]. constructor; [done|]. intros g pid. by rewrite Hm, HP. Qed.

(** A process that is in no group may change its group. *)
Lemma groups_ok_free P k k' :
  groups_ok P k -> k_pgrps k' = k_pgrps k -> (forall pid y g, P pid -> (process k pid y /\ p_pgid y = g) <-> (process k' pid y /\ p_pgid y = g)) ->
  groups_ok P k'.
Proof.
  intros [Hw Hm] E Hp. constructor; [by rewrite E|]. intros g pid. unfold in_group. rewrite E. fold (in_group k g pid). rewrite Hm.
  split; intros [HP (y & Hy)]; (split; [done|]); exists y; by apply (Hp pid y g HP).
Qed.

Lemma wp_get_process pid (Q : option Z -> kstate -> Prop) k :
  processes_ok k -> (forall y, process k pid y -> Q (Some pid) k) -> ((forall y, ~ process k pid y) -> Q None k) ->
  wp (get_pcb_by_pid pid) Q k.
Proof.
  intros [Hl Hn _] Hs Hno. apply wp_get_pcb_by_pid; [done | done | intros x H0 Hx Hu; by apply (Hs x) |].
  intros H. apply Hno. intros y (H0 & Hy & Hu). by apply (H y).
Qed.

Lemma process_inj k pid y y' : process k pid y -> process k pid y' -> y = y'.
Proof. intros (_ & H1 & _) (_ & H2 & _). congruence. Qed.

Lemma erase_first_perm x l : x ∈ l -> l ≡ₚ x :: erase_first x l.
Proof.
  induction l as [|y l IH]; [by intros ?%elem_of_nil|]. simpl. destruct (Z.eqb_spec y x) as [->|Hne]; [done|].
  rewrite elem_of_cons. intros [->|Hin]; [done|]. rewrite (IH Hin) at 1. apply Permutation_swap.
Qed.

Lemma elem_of_erase x l z : NoDup l -> x ∈ l -> z ∈ erase_first x l <-> z ∈ l /\ z <> x.
Proof.
  intros Hnd Hx. pose proof (erase_first_perm x l Hx) as Hp. rewrite Hp in Hnd. apply NoDup_cons in Hnd as [Hn _].
  assert (Hz : z ∈ l <-> z = x \/ z ∈ erase_first x l) by (rewrite <- elem_of_cons; by rewrite <- Hp).
  rewrite Hz. split; [intros Hin; split; [by right | by intros ->] | tauto].
Qed.

(** The group [g] gets the value [grp], which has members. *)
Lemma groups_ok_put (P P' : Z -> Prop) k k' g grp :
  groups_ok P k -> groups_only k k' -> k_pgrps k' = <[g := grp]> (k_pgrps k) ->
  g_pgid grp = g -> NoDup (g_pids grp) -> g_refcount grp = Z.of_nat (length (g_pids grp)) -> g_pids grp <> [] ->
  (forall pid, pid ∈ g_pids grp <-> P' pid /\ exists y, process k pid y /\ p_pgid y = g) ->
  (forall pid y, process k pid y -> p_pgid y <> g -> P' pid <-> P pid) ->
  groups_ok P' k'.
Proof.
  intros [Hw Hm] Hk E E1 E2 E3 E4 Hin Hother. constructor.
  - intros h grp'. rewrite E. destruct (decide (h = g)) as [->|Hne]; [rewrite lookup_insert_eq; by intros [= <-] | rewrite lookup_insert_ne by done; apply Hw].
  - intros h pid. unfold in_group. rewrite E. destruct (decide (h = g)) as [->|Hne].
    + rewrite lookup_insert_eq. setoid_rewrite (groups_only_process k k'); [|done]. rewrite <- Hin.
      split; [by intros (? & [= <-] & ?) | by exists grp].
    + rewrite lookup_insert_ne by done. fold (in_group k h pid). rewrite Hm. setoid_rewrite (groups_only_process k k'); [|done].
      split; intros [HP (y & Hy & <-)]; (split; [|by exists y]); by apply (Hother pid y).
Qed.

Lemma groups_ok_delete (P P' : Z -> Prop) k k' g :
  groups_ok P k -> groups_only k k' -> k_pgrps k' = delete g (k_pgrps k) ->
  (forall pid y, process k pid y -> p_pgid y = g -> ~ P' pid) ->
  (forall pid y, process k pid y -> p_pgid y <> g -> P' pid <-> P pid) ->
  groups_ok P' k'.
Proof.
  intros [Hw Hm] Hk E Hnone Hother. constructor.
  - intros h grp'. rewrite E. destruct (decide (h = g)) as [->|Hne]; [by rewrite lookup_delete_eq | rewrite lookup_delete_ne by done; apply Hw].
  - intros h pid. unfold in_group. rewrite E. setoid_rewrite (groups_only_process k k'); [|done]. destruct (decide (h = g)) as [->|Hne].
    + rewrite lookup_delete_eq. split; [by intros (? & ? & _)|]. intros [HP (y & Hy & Hg)]. by destruct (Hnone pid y Hy Hg).
    + rewrite lookup_delete_ne by done. fold (in_group k h pid). rewrite Hm.
      split; intros [HP (y & Hy & <-)]; (split; [|by exists y]); by apply (Hother pid y).
Qed.

(** Everyone but [pid]. *)
Definition but (pid : Z) (q : Z) : Prop := q <> pid.
Definition everyone (q : Z) : Prop := True.

Lemma hp_make_pgrp k pgid :
  k_pgrps k !! pgid = None ->
  hp (make_pgrp pgid) (fun r k' => groups_only k k' /\
    ((r = None /\ refusal k /\ k_pgrps k' = k_pgrps k) \/
     (r = Some (mkPgrp [] 0 pgid) /\ k_pgrps k' = <[pgid := mkPgrp [] 0 pgid]> (k_pgrps k)))) k.
Proof.
  intros Hnone. assert (Hh : forall h, groups_only k (set_k_heap h k)) by (intros h; exists (k_pgrps k), h; by destruct k).
  apply hp_bind, hp_kmalloc; [unfold sizeof_pgrp, KERNEL_HEAP_SIZE; lia|]. intros [] h1 Hb1 Hr1; cbn [negb].
  2: { apply hp_ret. split; [apply Hh|]. left. auto. }
  apply hp_bind, (hp_grow (fun b => b)); [done | done|]. intros h2 Hr2.
  apply hp_bind, hp_fetch. change (k_pgrps (set_heap h2 (set_heap h1 k))) with (k_pgrps k). unfold map_put. rewrite Hnone.
  apply hp_bind, hp_bind, hp_granted. intros [] h3 Hb3 Hr3; cbn [negb].
  2: { apply hp_ret, hp_ret. split; [apply (Hh h3)|]. left. split_and!; [done | | done]. by apply Hr1, Hr2, Hb3. }
  apply hp_bind, hp_granted. intros [] h4 Hb4 Hr4; cbn [negb].
  2: { apply hp_ret, hp_ret. split; [apply (Hh h4)|]. left. split_and!; [done | | done]. by apply Hr1, Hr2, Hr3, Hb4. }
  apply hp_ret, hp_bind, hp_modify; [done|]. apply hp_ret. split; [by eexists _, _|]. by right.
Qed.

Lemma groups_joined k k' pid y l :
  groups_ok (but pid) k -> process k pid y -> groups_only k k' ->
  k_pgrps k' = <[p_pgid y := mkPgrp (l ++ [pid]) (Z.of_nat (length l) + 1) (p_pgid y)]> (k_pgrps k) ->
  NoDup l -> (forall q, q ∈ l <-> in_group k (p_pgid y) q) -> groups_ok everyone k'.
Proof.
  intros Hg Hy Hk E Hnd Hl. eapply (groups_ok_put (but pid) everyone); try done; cbn [g_pgid g_pids g_refcount].
  - apply NoDup_app. split_and!; [done | | apply NoDup_singleton]. intros z Hz ->%list_elem_of_singleton.
    apply Hl, (go_mem _ _ Hg) in Hz as [Hb _]. by apply Hb.
  - rewrite length_app. simpl. lia.
  - by destruct l.
  - intros q. rewrite elem_of_app, list_elem_of_singleton, Hl, (go_mem _ _ Hg). unfold but, everyone. split.
    + intros [[_ ?]| ->]; [done|]. split; [done|]. by exists y.
    + intros (_ & Hex). destruct (decide (q = pid)); auto.
  - intros q y2 Hq Hne. unfold but, everyone. split; [|done]. intros _ ->. apply Hne. by rewrite (process_inj _ _ _ _ Hq Hy).
Qed.

Lemma hp_add_to_pgrp k pid y :
  processes_ok k -> groups_ok (but pid) k -> process k pid y ->
  hp (add_to_pgrp pid) (fun r k' => groups_only k k' /\
    ((r = 0 /\ groups_ok everyone k') \/ (r = -1 /\ refusal k /\ groups_ok (but pid) k'))) k.
Proof.
  intros Hp Hg Hy. pose proof Hy as (H0 & Hyk & Hu).
  apply hp_bind, hp_wp, wp_get_process; [done | | intros Hno; by destruct (Hno y)]. intros y' Hy'. split; [|done].
  apply hp_bind, hp_wp, (wp_get_pcb _ y); [done | done|]. split; [|done].
  apply hp_bind, hp_fetch. set (g := p_pgid y).
  destruct (k_pgrps k !! g) as [grp|] eqn:Eg.
  - apply hp_bind, hp_ret. destruct (go_wf _ _ Hg g grp Eg) as (E1 & E2 & E3 & E4).
    assert (Hq : forall q, q ∈ g_pids grp <-> in_group k g q) by (intros q; split; [by exists grp | intros (? & E & ?); congruence]).
    rewrite bool_decide_false by (intros [Hb _]%Hq%(go_mem _ _ Hg); by apply Hb).
    apply hp_bind, (hp_grow (fun b => b)); [done | done|]. intros h Hr. apply hp_bind, hp_modify; [done|]. apply hp_ret.
    assert (Hk : groups_only k (set_k_pgrps (<[g := mkPgrp (g_pids grp ++ [pid]) (g_refcount grp + 1) (g_pgid grp)]> (k_pgrps k)) (set_k_heap h k))) by by eexists _, _.
    split; [done|]. left. split; [done|]. apply (groups_joined k _ pid y (g_pids grp)); try done. by rewrite E1, E3.
  - apply hp_bind. eapply hp_mono; [by apply hp_make_pgrp|]. intros r k1 [Hk [(-> & Hr & E) | [-> E]]] Hr1.
    + apply hp_ret. split; [done|]. right. split_and!; [done | done|]. eapply groups_ok_free; [done | done|].
      intros q y2 g2 _. by rewrite (groups_only_process k k1).
    + cbn [g_pids g_refcount g_pgid app]. rewrite bool_decide_false by apply not_elem_of_nil.
      apply hp_bind, (hp_grow (fun b => b)); [done | done|]. intros h Hr. apply hp_bind, hp_modify; [done|]. apply hp_ret.
      assert (Hk' : groups_only k (set_k_pgrps (<[g := mkPgrp [pid] (0 + 1) g]> (k_pgrps k1)) (set_k_heap h k1)))
        by (eapply groups_only_trans; [exact Hk | by eexists _, _]).
      split; [done|]. left. split; [done|]. apply (groups_joined k _ pid y []); try done.
      * transitivity (<[g := mkPgrp [pid] (0 + 1) g]> (k_pgrps k1)); [done|]. by rewrite E, insert_insert_eq.
      * constructor.
      * intros q. fold g. split; [by intros ?%elem_of_nil | intros (? & ? & _); congruence].
Qed.

Lemma wp_remove_from_pgrp k pid y (Q : unit -> kstate -> Prop) :
  processes_ok k -> groups_ok everyone k -> process k pid y ->
  (forall k', groups_only k k' -> k_heap k' = k_heap k -> groups_ok (but pid) k' -> Q tt k') -> wp (remove_from_pgrp pid) Q k.
Proof.
  intros Hp Hg Hy HQ. pose proof Hy as (H0 & Hyk & Hu).
  apply wp_bind, wp_get_process; [done | | intros Hno; by destruct (Hno y)]. intros _ _.
  apply wp_bind, (wp_get_pcb _ y); [done | done|]. apply wp_bind, wp_fetch. set (g := p_pgid y).
  assert (Hin : in_group k g pid) by (apply (go_mem _ _ Hg); split; [done | by exists y]).
  destruct Hin as (grp & Eg & Hin). rewrite Eg. destruct (go_wf _ _ Hg g grp Eg) as (E1 & E2 & E3 & E4).
  rewrite bool_decide_true by done. set (grp' := mkPgrp _ _ _). apply wp_bind, wp_modify.
  pose proof (erase_first_perm _ _ Hin) as Hperm. pose proof (Permutation_length Hperm) as Hlen. simpl in Hlen.
  assert (Hother : forall q y2, process k q y2 -> p_pgid y2 <> g -> but pid q <-> everyone q).
  { intros q y2 Hq Hne. unfold but, everyone. split; [done|]. intros _ ->. apply Hne. by rewrite (process_inj _ _ _ _ Hq Hy). }
  assert (Hq : forall q, q ∈ erase_first pid (g_pids grp) <-> but pid q /\ exists y, process k q y /\ p_pgid y = g).
  { intros q. rewrite elem_of_erase by done. assert (E : q ∈ g_pids grp <-> in_group k g q) by (split; [by exists grp | intros (? & E & ?); congruence]).
    rewrite E, (go_mem _ _ Hg). unfold but, everyone. tauto. }
  cbn [g_refcount grp']. destruct (Z.leb_spec (g_refcount grp - 1) 0) as [Hle|Hgt].
  - apply wp_modify, HQ; [eapply groups_only_trans; apply groups_only_set | done|].
    assert (Hnil : erase_first pid (g_pids grp) = []) by (apply length_zero_iff_nil; lia). rewrite Hnil in Hq.
    eapply (groups_ok_delete everyone); [done | eapply groups_only_trans; apply groups_only_set | | | done].
    + cbn [k_pgrps set_k_pgrps g_pgid grp']. rewrite E1. by rewrite delete_insert_eq.
    + intros q y2 Hq2 Hg2 Hb. apply (not_elem_of_nil q), Hq. split; [done|]. by exists y2.
  - apply wp_ret, HQ; [apply groups_only_set | done|].
    eapply (groups_ok_put everyone); [done | apply groups_only_set | done | done | | | | exact Hq | done]; cbn [g_pids g_refcount grp'].
    + rewrite Hperm in E2. by apply NoDup_cons in E2 as [_ ?].
    + lia.
    + intros Hnil. rewrite Hnil in Hlen. simpl in Hlen. lia.
Qed.

(** ** Theory: [setpgrp] *)

(** CPU [me] runs a thread of the process [p]. *)
Definition caller (me : nat) (k : kstate) (p : Z) : Prop :=
  exists t x y, running_on k me = Some t /\ 0 <= t /\ k_threads k !! Z.to_nat t = Some x /\ t_pcb x = p /\ process k p y.

Lemma wp_get_curr_process me k p (Q : option Z -> kstate -> Prop) :
  caller me k p -> Q (Some p) k -> wp (get_curr_process me) Q k.
Proof.
  intros (t & x & y & Hr & Ht & Hx & Hp & _) HQ. apply wp_bind, wp_fetch.
  change (match k_cpus k !! me with Some c => c_curr_thread c | None => None end) with (running_on k me). rewrite Hr.
  apply wp_bind, (wp_get_tcb _ x); [done | done|]. apply wp_ret. by rewrite Hp.
Qed.

Lemma set_pgid_process k p y g q z :
  process k p y -> process (set_k_processes (<[Z.to_nat p := set_p_pgid g y]> (k_processes k)) k) q z <->
  (q = p /\ z = set_p_pgid g y) \/ (q <> p /\ process k q z).
Proof.
  intros (Hp & Hy & Hu). unfold process. cbn [k_processes set_k_processes]. destruct (decide (q = p)) as [->|Hne].
  - rewrite list_lookup_insert_eq by by eapply lookup_lt_Some. split; [intros (_ & [= <-] & _); auto|].
    intros [[_ ->]|[? _]]; [|done]. by split_and!.
  - split; [intros (Hq & Hz & Hu'); right | intros [[? _]|[_ (Hq & Hz & Hu')]]; [done|]].
    + rewrite list_lookup_insert_ne in Hz by lia. by split_and!.
    + rewrite list_lookup_insert_ne by lia. by split_and!.
Qed.

Lemma set_pgid_ok k p y g : process k p y -> processes_ok k -> processes_ok (set_k_processes (<[Z.to_nat p := set_p_pgid g y]> (k_processes k)) k).
Proof.
  intros (Hp & Hy & Hu) [Hl Hn Hpid]. constructor; cbn [k_processes set_k_processes]; [done | by rewrite length_insert|].
  intros q z Hz. destruct (decide (q = Z.to_nat p)) as [->|Hne].
  - rewrite list_lookup_insert_eq in Hz by by eapply lookup_lt_Some. injection Hz as <-. by apply (Hpid _ y).
  - rewrite list_lookup_insert_ne in Hz by done. by apply Hpid.
Qed.

Lemma set_pgid_groups k p y g :
  process k p y -> groups_ok (but p) k -> groups_ok (but p) (set_k_processes (<[Z.to_nat p := set_p_pgid g y]> (k_processes k)) k).
Proof.
  intros Hy Hg. eapply groups_ok_free; [done | done|]. intros q z h Hq. rewrite set_pgid_process by done. unfold but in Hq. tauto.
Qed.

Lemma hp_setpgrp_target k q y pgid :
  processes_ok k -> groups_ok everyone k -> process k q y ->
  let g := if pgid =? 0 then q else pgid in
  hp (y ← get_pcb q;
      let pgid := if pgid =? 0 then p_pid y else pgid in
      if p_pgid y =? pgid then mret 0 else
      let old_pgid := p_pgid y in
      _ ← remove_from_pgrp (p_pid y);
      _ ← upd_pcb q (set_p_pgid pgid);
      r ← add_to_pgrp (p_pid y);
      if negb (r =? 0) then
        _ ← upd_pcb q (set_p_pgid old_pgid);
        _ ← add_to_pgrp (p_pid y);
        mret SYS_EAGAIN
      else mret 0)
   (fun r k' =>
      (forall q' z, q' <> q -> process k' q' z <-> process k q' z) /\
      ((r = 0 /\ process k' q (set_p_pgid g y) /\ groups_ok everyone k') \/
       (r = SYS_EAGAIN /\ refusal k /\ process k' q y /\ (groups_ok everyone k' \/ groups_ok (but q) k')))) k.
Proof.
  intros Hp Hg Hy g. pose proof Hy as (Hq & Hyk & Hu). assert (Hpid : p_pid y = q) by (rewrite (po_pid _ Hp _ _ Hyk); lia).
  apply hp_bind, hp_wp, (wp_get_pcb _ y); [done | done|]. split; [|done]. cbv zeta. rewrite Hpid. fold g.
  destruct (Z.eqb_spec (p_pgid y) g) as [E|Hne].
  { apply hp_ret. split; [done|]. left. split_and!; [done | | done]. rewrite <- E. by destruct y. }
  apply hp_bind, hp_wp. eapply wp_remove_from_pgrp; [done | done | done|]. intros k1 Hk1 Eh1 Hg1. split; [|done].
  assert (Hy1 : process k1 q y) by by apply (groups_only_process k k1).
  apply hp_bind, hp_wp, (wp_upd_pcb _ y); [done | by apply Hy1|]. split; [|done]. set (k2 := set_k_processes _ k1).
  pose proof (set_pgid_process k1 q y g) as Hproc. fold k2 in Hproc.
  assert (Hy2 : process k2 q (set_p_pgid g y)) by (apply Hproc; auto).
  assert (Hother : forall q' z, q' <> q -> process k2 q' z <-> process k q' z).
  { intros q' z Hq'. rewrite Hproc by done. rewrite (groups_only_process k k1) by done. tauto. }
  apply hp_bind. eapply hp_mono; [apply (hp_add_to_pgrp k2 q (set_p_pgid g y))|].
  { apply set_pgid_ok; [done | by eapply groups_only_ok]. } { by apply set_pgid_groups. } { done. }
  intros r k3 [Hk3 [[-> Hg3] | (-> & Hr3 & Hg3)]] Hr; cbn [Z.eqb negb].
  { apply hp_ret. split; [intros q' z Hq'; rewrite (groups_only_process k2 k3) by done; by apply Hother|].
    left. split_and!; [done | by apply (groups_only_process k2 k3) | done]. }
  assert (Hy3 : process k3 q (set_p_pgid g y)) by by apply (groups_only_process k2 k3).
  apply hp_bind, hp_wp, (wp_upd_pcb _ (set_p_pgid g y)); [done | by apply Hy3|]. split; [|done]. set (k4 := set_k_processes _ k3).
  assert (Eback : set_p_pgid (p_pgid y) (set_p_pgid g y) = y) by by destruct y.
  pose proof (set_pgid_process k3 q (set_p_pgid g y) (p_pgid y)) as Hproc4. fold k4 in Hproc4.
  assert (Hy4 : process k4 q y) by (apply Hproc4; [done|]; left; by rewrite Eback).
  apply hp_bind. eapply hp_mono; [apply (hp_add_to_pgrp k4 q y)|].
  { apply set_pgid_ok; [done|]. eapply groups_only_ok; [exact Hk3|]. apply set_pgid_ok; [done | by eapply groups_only_ok]. }
  { by apply set_pgid_groups. } { done. }
  intros r4 k5 [Hk5 Hres] _. apply hp_ret. split.
  - intros q' z Hq'. rewrite (groups_only_process k4 k5), Hproc4, (groups_only_process k2 k3), Hother by done. tauto.
  - right. split_and!; [done | | by apply (groups_only_process k4 k5) |].
    + destruct Hr3 as [n Hn]. exists n. change (k_heap k n = false). rewrite <- Eh1. exact Hn.
    + destruct Hres as [[_ ?] | (_ & _ & ?)]; auto.
Qed.

(** ** Properties *)

(** C14.  Process groups.  When every process is in the group it names,
    [setpgrp] finds the process (0 is the caller), puts it in the group asked
    for (0 is the group with its own number) and takes it out of the old one,
    deleting a group that has become empty; then again every process, and
    nothing else, is in the group it names, groups have no repeated members and
    count them.  Other processes are untouched.  The call fails with
    [SYS_ESRCH] only if there is no such process, and with [SYS_EAGAIN] only if
    an allocation is refused; then the process names its old group, and it is
    in that group unless the allocation for that was refused as well. *)
Theorem setpgrp_correct me pid pgid k p :
  processes_ok k -> groups_ok everyone k -> caller me k p ->
  let q := if pid =? 0 then p else pid in
  let g := if pgid =? 0 then q else pgid in
  match setpgrp me pid pgid k with
  | Ok (r, k') =>
      (forall q' z, q' <> q -> process k' q' z <-> process k q' z) /\
      ((r = SYS_ESRCH /\ k' = k /\ forall y, ~ process k q y) \/
       (exists y, process k q y /\
          ((r = 0 /\ process k' q (set_p_pgid g y) /\ groups_ok everyone k') \/
           (r = SYS_EAGAIN /\ refusal k /\ process k' q y /\ (groups_ok everyone k' \/ groups_ok (but q) k')))))
  | Fatal => refusal k
  | Fault | Hang => False
  end.
Proof.
  intros Hp Hg Hc q g.
  assert (Hfound : wp (target_process me pid) (fun r k' => k' = k /\ match r with Some q' => q' = q /\ exists y, process k q y | None => forall y, ~ process k q y end) k).
  { unfold target_process, q. destruct (pid =? 0).
    - pose proof Hc as (t & x & y & _ & _ & _ & _ & Hy). eapply wp_get_curr_process; [done|]. split_and!; [done | done|]. by exists y.
    - apply wp_get_process; [done | intros y Hy; split_and!; [done | done | by exists y] | done]. }
  enough (Hs : hp (setpgrp me pid pgid) (fun r k' =>
      (forall q' z, q' <> q -> process k' q' z <-> process k q' z) /\
      ((r = SYS_ESRCH /\ k' = k /\ forall y, ~ process k q y) \/
       (exists y, process k q y /\
          ((r = 0 /\ process k' q (set_p_pgid g y) /\ groups_ok everyone k') \/
           (r = SYS_EAGAIN /\ refusal k /\ process k' q y /\ (groups_ok everyone k' \/ groups_ok (but q) k')))))) k).
  { unfold hp in Hs. destruct (setpgrp me pid pgid k) as [[r k']| | |]; [by destruct Hs | done..]. }
  apply hp_bind, hp_wp. eapply wp_mono; [exact Hfound|]. intros r k1 [-> Hr]. split; [|done]. destruct r as [q'|].
  - destruct Hr as [-> (y & Hy)]. eapply hp_mono; [by apply (hp_setpgrp_target k q y pgid)|].
    intros r k' [Ho Hs] _. split; [done|]. right. by exists y.
  - apply hp_ret. split; [done|]. by left.
Qed.

(** Two processes in one group; the second leaves it. *)
Definition demo_groups : kstate := set_k_pgrps {[ 0 := mkPgrp [0; 1; 2] 3 0 ]} demo_system.

Lemma demo_processes_ok : processes_ok demo_groups.
Proof.
  constructor; [done | done|]. intros p y Hy. apply demo_process_lookup in Hy as [-> _]. by repeat (destruct p as [|p]; try done).
Qed.

Lemma demo_groups_process pid y : process demo_groups pid y <-> y = demo_process (Z.to_nat pid) /\ 0 <= pid < 3.
Proof.
  split.
  - intros (H0 & Hy & Hu). destruct (demo_used _ _ Hy Hu) as [-> ?]. split; [done | lia].
  - intros [-> Hp]. assert (Hc : pid = 0 \/ pid = 1 \/ pid = 2) by lia.
    destruct Hc as [->|[->| ->]]; (split_and!; [lia | done | done]).
Qed.

Lemma demo_groups_ok : groups_ok everyone demo_groups.
Proof.
  assert (E : k_pgrps demo_groups = {[ 0 := mkPgrp [0; 1; 2] 3 0 ]}) by done.
  constructor; unfold in_group; rewrite E.
  - intros g grp [<- <-]%lookup_singleton_Some. split_and!; [done | | done | done]. by apply (bool_decide_unpack _).
  - intros g pid. unfold everyone. split.
    + intros (grp & [<- <-]%lookup_singleton_Some & Hin). split; [done|]. exists (demo_process (Z.to_nat pid)). rewrite demo_groups_process.
      cbn [g_pids] in Hin. rewrite !elem_of_cons, elem_of_nil in Hin. destruct Hin as [->|[->|[->|[]]]]; (split; [split; [done | lia] | done]).
    + intros [_ (y & [-> Hp]%demo_groups_process & <-)]. exists (mkPgrp [0; 1; 2] 3 0).
      assert (Hc : pid = 0 \/ pid = 1 \/ pid = 2) by lia.
      destruct Hc as [->|[->| ->]]; (split; [done | cbn [g_pids]; rewrite !elem_of_cons; auto]).
Qed.

Lemma setpgrp_correct_witness :
  match setpgrp 0 0 0 demo_groups with
  | Ok (r, k') => r = 0 /\ process k' 2 (set_p_pgid 2 (demo_process 2)) /\ groups_ok everyone k'
  | _ => False
  end.
Proof.
  assert (Hc : caller 0 demo_groups 2) by (eexists 2, _, _; split_and!; [done | lia | reflexivity | done | by apply demo_groups_process; split; [|lia]]).
  pose proof (setpgrp_correct 0 0 0 demo_groups 2 demo_processes_ok demo_groups_ok Hc) as H. revert H.
  assert (E : match setpgrp 0 0 0 demo_groups with Ok (r, _) => r = 0 | _ => False end) by (vm_compute; reflexivity).
  revert E. destruct (setpgrp 0 0 0 demo_groups) as [[r k']| | |]; [|done..]. intros -> [_ [[? _]|(y & [-> _]%demo_groups_process & [(_ & ? & ?)|[? _]])]]; try done.
Defined.
