(* ===== verification/ProcLife.v ===== *)
(** * Processes: creation, waiting and the end

    kernel/scheduler/process.c with the memory system: [proc_create],
    [setup_process_main_thread], [cpy_address_space], [fork], [proc_destroy]
    and [s_waitpid_impl]; and [close] of kernel/fs/cmds.c, which [dup2] calls.

    The state is that of Exec.v.  The file system is an interface: what is used
    of it is that a kernel descriptor can be closed and can get one more
    reference.  Addresses of code are parameters. *)

From S2P Require Import Prelude Errors Bytes KString Services PageAlloc PageTable Cow Fork Destroy AddressSpace VmRegion DemandPaging ExecStack ExecImage.
From S2P Require Import Layout Programs Tasks Sched Threads Signals Exec Process.

Class ProcFiles (F : Type) := {
  (** [get_oft_entry_by_fd(k_fd, &entry)] and, when it succeeds, [k_close(entry)]. *)
  pf_close : Z -> stM F Z;
  (** [k_file_add_reference(k_fd)] *)
  pf_add_reference : Z -> stM F Z
}.

(** [spin_lock_irqsave(&pcb->lock)] *)
Definition pcb_lock (p : Z) : KM unit :=
  y ← get_pcb p; if p_lock y then hang else upd_pcb p (set_p_lock true).
Definition pcb_unlock (p : Z) : KM unit := upd_pcb p (set_p_lock false).

Section life.
Variables (page_pool_start thread_start_trampoline process_first_run USER_THREAD_START : Z).
Context {F : Type} `{ProcFiles F}.

Abbreviation XM := (stM (exec_state F)).
Abbreviation in_files m := (in_vm (in_fs m)).

(** ** Creation *)

Definition main_frame_va : Z := PROC_KERNEL_STACK_TOP - 8 * FRAME_WORDS.

Definition main_frame (func args : Z) : list (Z * Z) :=
  map (fun i => (i, 0)) (seqZ 0 31)
  ++ [(0, func); (1, args); (FRAME_SP, USER_STACK_TOP); (FRAME_ELR, USER_THREAD_START); (33, 0); (FRAME_ESR, 0); (FRAME_FAR, 0); (FRAME_TYPE, 0); (FRAME_INTID, 0)].

Definition main_ctx (y : pcb) (x : tcb) : tcb :=
  set_t_user_stack_va USER_STACK_TOP
    (set_t_ctx (mkCtx main_frame_va 0 (repeat 0 9) process_first_run main_frame_va (p_ttbr0_el1 y) (p_ttbr0_el1_va y)) x).

Definition setup_process_main_thread (p thread func args : Z) : XM Z :=
  y ← in_k (get_pcb p);
  let table := p_ttbr0_el1_va y in
  let frame_page_va := align_down main_frame_va in
  let frame_offset := main_frame_va - frame_page_va in
  ok ← in_vm (seed_kernel_stack page_pool_start 2 table kernel_stack_base);
  if negb (ok : bool) then mret SYS_ENOMEM else
  frame_page ← in_vm (in_pt (pt_get_mapped_page table frame_page_va));
  if (frame_page =? 0) || (PAGE_SIZE <=? frame_offset) then mret SYS_EFAULT else
  _ ← in_vm (in_pt (write_words (frame_page + frame_offset) (main_frame func args)));
  _ ← in_k (upd_tcb thread (main_ctx y));
  mret SUCCESS.

(** The fields of a new process that do not depend on its parent. *)
Definition fresh_process (children fds tids waitq : list Z) (y : pcb) : pcb :=
  mkPcb (p_pid y) (p_ppid y) (p_pgid y) (p_name y) PROC_RUNNING_STATE 0 tids false false (p_ttbr0_el1 y) (p_ttbr0_el1_va y)
    children fds (p_lock y) (repeat (mkSigaction SIG_DFL 0 0) 32) 0 waitq (p_cwd y) 0 0 0 0.

(** Linking the new process [n] to its parent. *)
Definition adopt (n : Z) (parent : option Z) : KM unit :=
  match parent with
  | None => upd_pcb n (fun y => set_p_cwd ROOT_INO (set_p_pgid n y))
  | Some pp =>
      _ ← pcb_lock pp;
      z ← get_pcb pp;
      _ ← upd_pcb n (set_p_pgid (p_pgid z));
      children ← list_push (p_children z) n;
      _ ← upd_pcb pp (set_p_children children);
      _ ← upd_pcb n (set_p_cwd (p_cwd z));
      pcb_unlock pp
  end.

(** Up to the page table: the number of the new process. *)
Definition new_process (ppid : Z) : KM (option Z) :=
  np ← get_next_unused_pcb;
  match np with
  | None => mret None
  | Some n =>
      _ ← upd_pcb n (fun y => set_p_lock false (set_p_ppid ppid y));
      parent ← (if ppid =? n then mret None else get_pcb_by_pid ppid);
      _ ← adopt n parent;
      children ← list_new;
      fds ← list_new;
      tids ← list_new;
      name ← (match parent with Some pp => z ← get_pcb pp; mret (p_name z) | None => mret [63] end);
      _ ← process_copy_name n name;
      waitq ← list_new;
      _ ← upd_pcb n (fresh_process children fds tids waitq);
      mret (Some n)
  end.

Definition proc_create (func args ppid : Z) : XM Z :=
  np ← in_k (new_process ppid);
  match np with
  | None => mret SYS_EAGAIN
  | Some n =>
      user_l0 ← in_vm (initialize_user_page_table page_pool_start);
      if user_l0 =? 0 then mret SYS_ENOMEM else
      _ ← in_k (upd_pcb n (set_table user_l0));
      tid ← in_k (thread_create thread_start_trampoline n func args);
      if tid <? 0 then mret SYS_EAGAIN else
      main_thread ← in_k (thread_get_by_tid tid);
      match main_thread with
      | None => mret SYS_EAGAIN
      | Some t =>
          err ← setup_process_main_thread n t func args;
          if negb (err =? SUCCESS) then mret SYS_EAGAIN else
          r ← in_k (add_to_pgrp n);
          if negb (r =? 0) then mret SYS_EAGAIN else mret n
      end
  end.

(** ** The end *)

(** Threads are cleaned up until none is left; [n] is the number there were. *)
Fixpoint cleanup_threads (n : nat) (p : Z) : KM unit :=
  y ← get_pcb p;
  match p_tids y with
  | [] => mret tt
  | next_tid :: tids =>
      match n with
      | O => hang
      | S n =>
          t ← thread_get_by_tid next_tid;
          _ ← (match t with
               | None => upd_pcb p (set_p_tids tids)
               | Some t => thread_cleanup t
               end);
          cleanup_threads n p
      end
  end.

Fixpoint close_all (fds : list Z) : stM F unit :=
  match fds with
  | [] => mret tt
  | k_fd :: fds => _ ← (if k_fd <? 0 then mret 0 else pf_close k_fd); close_all fds
  end.

(** Taking [p] out of the list of its parent. *)
Definition disown (p : Z) : KM unit :=
  y ← get_pcb p;
  parent ← get_pcb_by_pid (p_ppid y);
  match parent with
  | None => mret tt
  | Some pp =>
      _ ← pcb_lock pp;
      _ ← upd_pcb pp (fun z => set_p_children (erase_first (p_pid y) (p_children z)) z);
      pcb_unlock pp
  end.

Section destroy.
Variable proc_destroy : Z -> XM unit.

(** Children are destroyed or given to init, from the back; the result says
    whether init got one. *)
Fixpoint release_children (n : nat) (p : Z) (init : option Z) (added : bool) : XM bool :=
  y ← in_k (get_pcb p);
  match last (p_children y) with
  | None => mret added
  | Some child =>
      match n with
      | O => hang
      | S n =>
          _ ← in_k (upd_pcb p (set_p_children (removelast (p_children y))));
          c ← in_k (get_pcb_by_pid child);
          match c with
          | None => release_children n p init added
          | Some c =>
              z ← in_k (get_pcb c);
              if bool_decide (p_state z = PROC_ZOMBIE_STATE)
              then _ ← proc_destroy c; release_children n p init added
              else
                match init with
                | None => fault
                | Some i =>
                    _ ← in_k (pcb_lock i);
                    w ← in_k (get_pcb i);
                    children ← in_k (list_push (p_children w) child);
                    _ ← in_k (upd_pcb i (set_p_children children));
                    _ ← in_k (pcb_unlock i);
                    _ ← in_k (upd_pcb c (set_p_ppid (p_pid w)));
                    release_children n p init true
                end
          end
      end
  end.

Definition destroy_body (p : Z) : XM unit :=
  y ← in_k (get_pcb p);
  _ ← in_k (log_call (Tty_session_process_exit (p_pid y)));
  _ ← in_k (pcb_lock p);
  let fds := p_file_descriptors y in
  b ← in_k (kmalloc (4 * Z.of_nat (length fds)));
  if negb (b : bool) && negb (length fds =? 0)%nat then in_k (pcb_unlock p) else
  _ ← in_k (upd_pcb p (set_p_file_descriptors (map (fun _ => -1) fds)));
  _ ← in_k (pcb_unlock p);
  _ ← in_files (close_all fds);
  _ ← in_k (upd_pcb p (set_p_file_descriptors []));
  _ ← in_k (remove_from_pgrp (p_pid y));
  y ← in_k (get_pcb p);
  _ ← in_k (cleanup_threads (length (p_tids y)) p);
  _ ← in_vm (destroy_page_table (p_ttbr0_el1_va y));
  _ ← in_k (upd_pcb p (fun y => set_p_state PROC_UNUSED_STATE (set_p_child_waitq [] (set_p_tids [] y))));
  _ ← in_k (disown p);
  init ← in_k (get_pcb_by_pid 0);
  y ← in_k (get_pcb p);
  added ← release_children (length (p_children y)) p init false;
  match init with
  | Some i =>
      if (added : bool) then
        w ← in_k (get_pcb i);
        match p_tids w with
        | [] => fatal
        | tid :: _ => _ ← in_k (send_unblock_event tid BLOCK_UNTIL_NEW_CHILD); mret tt
        end
      else mret tt
  | None => mret tt
  end.

End destroy.

(** A process destroys its zombie children; each call makes one process unused,
    so the recursion is no deeper than the table. *)
Fixpoint proc_destroy_n (n : nat) (p : Z) : XM unit :=
  match n with
  | O => hang
  | S n => destroy_body (proc_destroy_n n) p
  end.

Definition proc_destroy : Z -> XM unit := proc_destroy_n 257.

(** ** Waiting *)

Definition WAIT_EXITED : Z := 1.
Definition WAIT_SIGNALED : Z := 2.
Definition WAIT_STOPPED : Z := 3.
Definition WAIT_CONTINUED : Z := 4.

(** The child's number and the status; a zombie is destroyed. *)
Definition reap (child : Z) : XM (Z * Z) :=
  y ← in_k (get_pcb child);
  if bool_decide (p_state y = PROC_ZOMBIE_STATE) then
    _ ← proc_destroy child;
    mret (p_pid y, if Z.land (p_exit_code y) 128 =? 0 then WAIT_EXITED else WAIT_SIGNALED)
  else mret (p_pid y, if bool_decide (p_state y = PROC_STOPPED_STATE) then WAIT_STOPPED else WAIT_CONTINUED).

Definition start_waiting (p t pid flags : Z) : KM unit :=
  _ ← upd_tcb t (set_t_waiting_for_pid pid);
  _ ← upd_tcb t (set_t_waiting_for_flags flags);
  x ← get_tcb t;
  y ← get_pcb p;
  q ← list_push (p_child_waitq y) (t_tid x);
  upd_pcb p (set_p_child_waitq q).

Definition stop_waiting (p t flags : Z) : KM unit :=
  _ ← upd_tcb t (set_t_waiting_for_flags flags);
  _ ← upd_tcb t (set_t_waiting_for_pid (-2));
  x ← get_tcb t;
  remove_from_waitq p (t_tid x).

(** No lock is held while the thread decides to block: other CPUs may run
    before it does. *)
Definition wait_any (deliver : KP unit) (n : nat) (p t pid flags : Z) : KP (Z + Z) :=
  r ← atomic (
    y ← get_pcb p;
    some ← has_wait_child (p_children y) pid;
    if negb (some : bool) then mret (Some (inl SYS_ECHILD)) else
    c ← find_waitable_child (p_children y) pid flags;
    match c with
    | Some c => mret (Some (inr c))
    | None =>
        if has flags WNOHANG then mret (Some (inl 0)) else
        _ ← start_waiting p t pid flags; mret None
    end);
  match r with
  | Some r => mret r
  | None =>
      c ← loop n (fun _ =>
        _ ← pause;
        _ ← block_thread deliver t THREAD_BLOCKED_INTERRUPTABLE;
        c ← atomic (y ← get_pcb p; find_waitable_child (p_children y) pid flags);
        mret (match c with Some c => inr c | None => inl tt end)) tt;
      _ ← atomic (stop_waiting p t flags);
      mret (inr c)
  end.

Definition wait_one (deliver : KP unit) (n : nat) (p t pid flags : Z) : KP (Z + Z) :=
  r ← atomic (
    c ← get_pcb_by_pid pid;
    match c with
    | None => mret (Some (inl SYS_ECHILD))
    | Some c =>
        z ← get_pcb c;
        y ← get_pcb p;
        if negb (p_ppid z =? p_pid y) then mret (Some (inl SYS_ECHILD)) else
        ok ← can_wait_on_child c flags;
        if (ok : bool) then mret (Some (inr c)) else
        if has flags WNOHANG then mret (Some (inl 0)) else
        _ ← start_waiting p t pid flags; mret None
    end);
  match r with
  | Some r => mret r
  | None =>
      _ ← loop n (fun _ =>
        ok ← atomic (can_wait_on_child pid flags);
        if (ok : bool) then mret (inr tt) else
        _ ← atomic (_ ← upd_tcb t (set_t_waiting_for_pid pid); upd_tcb t (set_t_waiting_for_flags flags));
        _ ← pause;
        _ ← block_thread deliver t THREAD_BLOCKED_INTERRUPTABLE;
        mret (inl tt)) tt;
      _ ← atomic (stop_waiting p t flags);
      mret (inr pid)
  end.

(** The result and what is stored at [status]. *)
Definition s_waitpid_impl (deliver : KP unit) (n : nat) (pid flags : Z) : prog (exec_state F) (Z * option Z) :=
  me ← this_cpu;
  cp ← atomic (in_k (get_curr_process me));
  ct ← atomic (in_k (get_curr_thread me));
  match cp, ct with
  | Some p, Some t =>
      r ← on ex_k set_ex_k (if pid <? 0 then wait_any deliver n p t pid flags else wait_one deliver n p t pid flags);
      match r with
      | inl err => mret (err, None)
      | inr child => r ← atomic (reap child); mret (fst r, Some (snd r))
      end
  | _, _ => mret (SYS_ESRCH, None)
  end.

(** ** Fork *)

(** The address space of [src] is copied; a copy that runs out of pages stops
    half way, without a word. *)
Definition cpy_address_space (src dst : Z) : XM unit :=
  y ← in_k (get_pcb src);
  let src_l0 := p_ttbr0_el1_va y in
  dst_l0 ← in_vm (in_pt (alloc_page page_pool_start));
  if dst_l0 =? 0 then mret tt else
  r ← in_vm (copy_page_table_struct src_l0 dst_l0);
  if negb (r =? SUCCESS) then mret tt else
  z ← in_k (get_pcb dst);
  _ ← in_vm (destroy_page_table (p_ttbr0_el1_va z));
  _ ← in_k (upd_pcb dst (set_table dst_l0));
  _ ← in_vm (in_pt (cpy_tables page_pool_start src_l0 dst_l0));
  mret tt.

(** [*child_frame = *frame]: [src] is an address of the running process. *)
Fixpoint copy_frame (n : nat) (i table src dst : Z) : M unit :=
  match n with
  | O => mret tt
  | S n =>
      w ← user_load table (src + 8 * i);
      match w with
      | None => fault
      | Some w => _ ← wr (dst + 8 * i) w; copy_frame n (i + 1) table src dst
      end
  end.

Fixpoint share_fds (fds : list Z) (child : Z) : XM unit :=
  match fds with
  | [] => mret tt
  | fd :: fds =>
      z ← in_k (get_pcb child);
      l ← in_k (list_push (p_file_descriptors z) fd);
      _ ← in_k (upd_pcb child (set_p_file_descriptors l));
      _ ← (if fd <? 0 then mret 0 else in_files (pf_add_reference fd));
      share_fds fds child
  end.

(** From the copy on: [parent] is the process, [child] the new one. *)
Definition fork_child (parent child frame_va : Z) : XM Z :=
  y ← in_k (get_pcb parent);
  _ ← cpy_address_space parent child;
  let kernel_stack_page_va := align_down frame_va in
  let frame_offset := frame_va - kernel_stack_page_va in
  if (frame_va <? kernel_stack_base) || (PROC_KERNEL_STACK_TOP <=? frame_va) || (PAGE_SIZE <=? frame_offset)
  then _ ← proc_destroy child; mret SYS_EINVAL else
  z ← in_k (get_pcb child);
  page ← in_vm (in_pt (pt_get_mapped_page (p_ttbr0_el1_va z) kernel_stack_page_va));
  if page =? 0 then _ ← proc_destroy child; mret SYS_EFAULT else
  match p_tids z with
  | [] => fatal
  | tid :: _ =>
      t ← in_k (thread_get_by_tid tid);
      _ ← in_vm (in_pt (copy_frame (Z.to_nat FRAME_WORDS) 0 (p_ttbr0_el1_va y) frame_va (page + frame_offset)));
      _ ← in_vm (in_pt (wr (page + frame_offset) 0));
      match t with
      | None => fault
      | Some t =>
          _ ← in_k (upd_tcb t (fun x => set_t_ctx (mkCtx frame_va (x20 (t_ctx x)) (x21_x29 (t_ctx x)) (x30 (t_ctx x)) frame_va
                                                     (p_ttbr0_el1 z) (p_ttbr0_el1_va z)) x));
          _ ← in_k (pcb_lock parent);
          _ ← share_fds (p_file_descriptors y) child;
          _ ← in_k (pcb_unlock parent);
          _ ← in_k (add_thread_to_scheduler t);
          mret (p_pid z)
      end
  end.

Definition fork (me : nat) (frame_va : Z) : XM Z :=
  parent ← in_k (get_curr_process me);
  parent_thd ← in_k (get_curr_thread me);
  match parent, parent_thd with
  | Some parent, Some parent_thd =>
      y ← in_k (get_pcb parent);
      x ← in_k (get_tcb parent_thd);
      child_pid ← proc_create (t_entry_func x) (t_args x) (p_pid y);
      if child_pid <? 0 then mret SYS_EAGAIN else
      child ← in_k (get_pcb_by_pid child_pid);
      match child with
      | None => fault
      | Some child => fork_child parent child frame_va
      end
  | _, _ => mret SYS_ESRCH
  end.

(** ** Descriptors *)

(** kernel/fs/cmds.c *)
Definition close (me : nat) (fd : Z) : XM Z :=
  pcb ← in_k (get_curr_process me);
  match pcb with
  | None => mret PID_NOT_FOUND
  | Some p =>
      _ ← in_k (pcb_lock p);
      y ← in_k (get_pcb p);
      if fd <? 0 then _ ← in_k (pcb_unlock p); mret INVALID_ARGS else
      match p_file_descriptors y !! Z.to_nat fd with
      | None => _ ← in_k (pcb_unlock p); mret INVALID_ARGS
      | Some k_fd =>
          if k_fd <? 0 then _ ← in_k (pcb_unlock p); mret OFT_FD_DOES_NOT_EXIST else
          _ ← in_k (upd_pcb p (set_p_file_descriptors (<[Z.to_nat fd := -1]> (p_file_descriptors y))));
          _ ← in_k (pcb_unlock p);
          in_files (pf_close k_fd)
      end
  end.

Fixpoint pad_fds (n : nat) (fds : list Z) : KM (list Z) :=
  match n with
  | O => mret fds
  | S n => fds ← list_push fds (-1); pad_fds n fds
  end.

Definition dup2 (me : nat) (oldfd newfd : Z) : XM Z :=
  pcb ← in_k (get_curr_process me);
  match pcb with
  | None => mret SYS_ESRCH
  | Some p =>
      _ ← in_k (pcb_lock p);
      y ← in_k (get_pcb p);
      match (if (oldfd <? 0) || (newfd <? 0) then None else p_file_descriptors y !! Z.to_nat oldfd) with
      | None => _ ← in_k (pcb_unlock p); mret SYS_EBADF
      | Some old_kfd =>
          if old_kfd <? 0 then _ ← in_k (pcb_unlock p); mret SYS_EBADF else
          _ ← in_files (pf_add_reference old_kfd);
          _ ← in_k (pcb_unlock p);
          _ ← close me newfd;
          _ ← in_k (pcb_lock p);
          y ← in_k (get_pcb p);
          fds ← in_k (pad_fds (Z.to_nat newfd + 1 - length (p_file_descriptors y)) (p_file_descriptors y));
          _ ← in_k (upd_pcb p (set_p_file_descriptors (<[Z.to_nat newfd := old_kfd]> fds)));
          _ ← in_k (pcb_unlock p);
          mret 0
      end
  end.

End life.
