(* ===== verification/ProcTheory.v ===== *)
(** * Processes: what the operations do to the tables of the kernel

    Specifications of the parts of ProcLife.v that work on the tables of
    processes and threads: the choice of a new process, its link to the
    parent, the creation and the clean-up of its thread.  A state is described
    by what it holds at the entries that differ from an earlier state. *)

From S2P Require Import Prelude Errors Services PageAlloc PageTable Layout ExecStack ExecImage.
From S2P Require Import Programs Tasks Sched Threads Signals Exec Process ProcLife.

Fixpoint assoc {A} (l : list (Z * A)) (i : Z) : option A :=
  match l with
  | [] => None
  | (j, a) :: l => if decide (i = j) then Some a else assoc l i
  end.

Lemma assoc_app {A} (l l' : list (Z * A)) i : assoc (l' ++ l) i = match assoc l' i with Some a => Some a | None => assoc l i end.
Proof. induction l' as [|[j a] l' IH]; [done|]. simpl. by destruct (decide (i = j)). Qed.

(** [k'] has the processes [U] and the threads [T], and otherwise those of [k];
    [None] is a thread that is no longer in the table. *)
Record ktab (k k' : kstate) (U : list (Z * pcb)) (T : list (Z * option tcb)) : Prop := {
  kt_procs : forall i, 0 <= i -> k_processes k' !! Z.to_nat i = match assoc U i with Some y => Some y | None => k_processes k !! Z.to_nat i end;
  kt_threads : forall i, 0 <= i -> k_threads k' !! Z.to_nat i = match assoc T i with Some x => x | None => k_threads k !! Z.to_nat i end;
  kt_len : length (k_processes k') = length (k_processes k);
  kt_plock : k_process_table_lock k' = k_process_table_lock k;
  kt_tlock : k_threads_lock k' = k_threads_lock k;
  kt_slock : k_scheduler_lock k' = k_scheduler_lock k;
  kt_cpus : k_cpus k' = k_cpus k
}.

(** The same tables; the heap, the groups, the queues and the log may differ. *)
Definition same_tabs (k k' : kstate) : Prop := ktab k k' [] [].

Lemma ktab_refl k : ktab k k [] [].
Proof. by constructor. Qed.

Lemma ktab_trans k k1 k2 U T U' T' : ktab k k1 U T -> ktab k1 k2 U' T' -> ktab k k2 (U' ++ U) (T' ++ T).
Proof.
  intros [P1 T1 L1 A1 B1 C1 D1] [P2 T2 L2 A2 B2 C2 D2]. constructor; try congruence.
  - intros i Hi. rewrite P2, assoc_app by done. destruct (assoc U' i); [done|]. by apply P1.
  - intros i Hi. rewrite T2, assoc_app by done. destruct (assoc T' i); [done|]. by apply T1.
Qed.

Lemma ktab_same k k1 k2 U T : ktab k k1 U T -> same_tabs k1 k2 -> ktab k k2 U T.
Proof. intros H1 H2. exact (ktab_trans _ _ _ _ _ _ _ H1 H2). Qed.

Lemma ktab_pcb k p x y : 0 <= p -> k_processes k !! Z.to_nat p = Some x -> ktab k (with_pcb p y k) [(p, y)] [].
Proof.
  intros Hp Hx. constructor; try done; cbn [k_processes set_k_processes with_pcb].
  - intros i Hi. simpl. case_decide as E; [subst i; apply list_lookup_insert_eq; by eapply lookup_lt_Some|].
    rewrite list_lookup_insert_ne; [done | lia].
  - by rewrite length_insert.
Qed.

Lemma ktab_tcb k t x y : 0 <= t -> k_threads k !! Z.to_nat t = Some x -> ktab k (with_tcb t y k) [] [(t, Some y)].
Proof.
  intros Hp Hx. constructor; try done; cbn [k_threads set_k_threads with_tcb].
  intros i Hi. simpl. case_decide as E; [subst i; apply list_lookup_insert_eq; by eapply lookup_lt_Some|].
  rewrite list_lookup_insert_ne; [done | lia].
Qed.

Lemma ktab_ext k k' U U' T T' :
  ktab k k' U T -> (forall i, 0 <= i -> assoc U i = assoc U' i) -> (forall i, 0 <= i -> assoc T i = assoc T' i) -> ktab k k' U' T'.
Proof. intros [] HU HT. constructor; try done; intros i Hi; rewrite <- ?HU, <- ?HT by done; auto. Qed.

Lemma ktab_process k k' U T p y : ktab k k' U T -> assoc U p = Some y -> 0 <= p -> k_processes k' !! Z.to_nat p = Some y.
Proof. intros H E Hp. by rewrite (kt_procs _ _ _ _ H), E. Qed.

Lemma ktab_old k k' U T p : ktab k k' U T -> assoc U p = None -> 0 <= p -> k_processes k' !! Z.to_nat p = k_processes k !! Z.to_nat p.
Proof. intros H E Hp. by rewrite (kt_procs _ _ _ _ H), E. Qed.

(** ** Steps *)

Lemma hp_get_pcb p y (Q : pcb -> kstate -> Prop) k : 0 <= p -> k_processes k !! Z.to_nat p = Some y -> Q y k -> hp (get_pcb p) Q k.
Proof. intros Hp Hy HQ. by apply hp_wp, (wp_get_pcb _ y). Qed.

Lemma hp_upd_pcb p y f (Q : unit -> kstate -> Prop) k :
  0 <= p -> k_processes k !! Z.to_nat p = Some y -> Q tt (with_pcb p (f y) k) -> hp (upd_pcb p f) Q k.
Proof. intros Hp Hy HQ. by apply hp_wp, (wp_upd_pcb _ y). Qed.

Lemma hp_upd_tcb t x f (Q : unit -> kstate -> Prop) k :
  0 <= t -> k_threads k !! Z.to_nat t = Some x -> Q tt (with_tcb t (f x) k) -> hp (upd_tcb t f) Q k.
Proof. intros Hp Hy HQ. by apply hp_wp, (wp_upd_tcb _ x). Qed.

Lemma heap_tabs h k : same_tabs k (set_k_heap h k).
Proof. by constructor. Qed.

Lemma hp_list {A} (l : list A) x (Q : list A -> kstate -> Prop) k :
  (forall h, (refusal (set_k_heap h k) -> refusal k) -> Q (l ++ [x]) (set_k_heap h k)) -> hp (list_push l x) Q k.
Proof. intros HQ. by apply (hp_grow (fun b => b)). Qed.

Lemma hp_nil {A} (Q : list A -> kstate -> Prop) k :
  (forall h, (refusal (set_k_heap h k) -> refusal k) -> Q [] (set_k_heap h k)) -> hp list_new Q k.
Proof. intros HQ. by apply (hp_grow (fun b => b)). Qed.

(** The scheduler's queues and counters. *)
Definition sched_same (k k' : kstate) : Prop :=
  k_ready_queues k' = k_ready_queues k /\ k_pri_counters k' = k_pri_counters k /\ k_curr_pri k' = k_curr_pri k.

(** A step that leaves the groups and the scheduler alone. *)
Definition kstep (k k' : kstate) (U : list (Z * pcb)) (T : list (Z * option tcb)) : Prop :=
  ktab k k' U T /\ k_pgrps k' = k_pgrps k /\ sched_same k k'.

Lemma kstep_refl k : kstep k k [] [].
Proof. split; [apply ktab_refl | done]. Qed.

Lemma kstep_heap k k1 U T h : kstep k k1 U T -> kstep k (set_k_heap h k1) U T.
Proof. intros [H E]. split; [by eapply ktab_same, heap_tabs | done]. Qed.

Lemma kstep_pcb k k1 U T p x y :
  kstep k k1 U T -> 0 <= p -> k_processes k1 !! Z.to_nat p = Some x -> kstep k (with_pcb p y k1) ((p, y) :: U) T.
Proof. intros [H E] Hp Hx. split; [|done]. eapply (ktab_trans _ _ _ _ _ [_] []); [done | by eapply ktab_pcb]. Qed.

Lemma kstep_tcb k k1 U T t x y :
  kstep k k1 U T -> 0 <= t -> k_threads k1 !! Z.to_nat t = Some x -> kstep k (with_tcb t y k1) U ((t, Some y) :: T).
Proof. intros [H E] Ht Hx. split; [|done]. eapply (ktab_trans _ _ _ _ _ [] [_]); [done | by eapply ktab_tcb]. Qed.

Lemma kstep_ext k k' U U' T : kstep k k' U T -> (forall i, 0 <= i -> assoc U i = assoc U' i) -> kstep k k' U' T.
Proof. intros [H E] HU. split; [|done]. by eapply ktab_ext. Qed.

Lemma hp_kpcb k k1 U T p y f (Q : unit -> kstate -> Prop) :
  kstep k k1 U T -> 0 <= p -> k_processes k1 !! Z.to_nat p = Some y ->
  (forall k2, kstep k k2 ((p, f y) :: U) T -> Q tt k2) -> hp (upd_pcb p f) Q k1.
Proof. intros H Hp Hy HQ. eapply hp_upd_pcb; [done | done|]. apply HQ. by eapply kstep_pcb. Qed.

Lemma hp_ktcb k k1 U T t x f (Q : unit -> kstate -> Prop) :
  kstep k k1 U T -> 0 <= t -> k_threads k1 !! Z.to_nat t = Some x ->
  (forall k2, kstep k k2 U ((t, Some (f x)) :: T) -> Q tt k2) -> hp (upd_tcb t f) Q k1.
Proof. intros H Hp Hy HQ. eapply hp_upd_tcb; [done | done|]. apply HQ. by eapply kstep_tcb. Qed.

(** An entry of the table, from what is known of the step. *)
Ltac entry := match goal with
  | H : kstep ?k ?k1 _ _ |- k_processes ?k1 !! _ = _ => rewrite (kt_procs _ _ _ _ (proj1 H)) by lia; simpl; repeat first [rewrite decide_True by done | rewrite decide_False by congruence]; try done
  | H : kstep ?k ?k1 _ _ |- k_threads ?k1 !! _ = _ => rewrite (kt_threads _ _ _ _ (proj1 H)) by lia; simpl; repeat first [rewrite decide_True by done | rewrite decide_False by congruence]; try done
  end.

(** ** A new process *)

Lemma unused_process_spec l : forall i,
  match unused_process l i with
  | Some n => i <= n < i + Z.of_nat (length l) /\ exists z, l !! Z.to_nat (n - i) = Some z /\ p_state z = PROC_UNUSED_STATE
  | None => forall z, z ∈ l -> used z
  end.
Proof.
  induction l as [|y l IH]; intros i; simpl; [by intros z ?%elem_of_nil|].
  case_bool_decide as E.
  - split; [lia|]. exists y. by rewrite Z.sub_diag.
  - specialize (IH (i + 1)). destruct (unused_process l (i + 1)) as [n|].
    + destruct IH as [Hn (z & Hz & Hu)]. split; [lia|]. exists z. split; [|done].
      replace (Z.to_nat (n - i)) with (S (Z.to_nat (n - (i + 1)))) by lia. done.
    + intros z [->|Hz]%elem_of_cons; [done | by apply IH].
Qed.

Lemma hp_get_next_unused k (Q : option Z -> kstate -> Prop) :
  processes_ok k ->
  (forall n z k', 0 <= n < 256 -> k_processes k !! Z.to_nat n = Some z -> p_state z = PROC_UNUSED_STATE ->
     kstep k k' [(n, set_p_state PROC_BLOCKED_STATE (set_p_pid n z))] [] -> Q (Some n) k') ->
  Q None k -> hp get_next_unused_pcb Q k.
Proof.
  intros [Hl Hlen Hpid] HS HN. unfold get_next_unused_pcb. apply hp_bind, hp_wp, wp_spin_lock; [done|]. split; [|done].
  apply hp_bind, hp_fetch. cbn [k_processes set_k_process_table_lock].
  pose proof (unused_process_spec (k_processes k) 0) as Hu. destruct (unused_process (k_processes k) 0) as [n|].
  - destruct Hu as [Hn (z & Hz & Hst)]. rewrite Z.sub_0_r in Hz. rewrite Hlen in Hn.
    apply hp_bind, (hp_upd_pcb _ z); [lia | done|].
    apply hp_bind, (hp_upd_pcb _ (set_p_pid n z)); [lia | by eapply with_pcb_lookup|].
    apply hp_bind, hp_wp, wp_modify. split; [|done]. apply hp_ret, (HS n z); [lia | done | done|].
    rewrite with_pcb_twice. split; [|by split]. destruct (ktab_pcb k n z (set_p_state PROC_BLOCKED_STATE (set_p_pid n z)) ltac:(lia) Hz). by constructor.
  - apply hp_bind, hp_wp, wp_modify. split; [|done]. apply hp_ret. by rewrite plock_id.
Qed.

(** [get_pcb_by_pid] finds a process that is in use. *)
Lemma hp_kget k k1 U T pid y (Q : option Z -> kstate -> Prop) :
  kstep k k1 U T -> k_process_table_lock k = false -> length (k_processes k) = 256%nat ->
  0 <= pid -> k_processes k1 !! Z.to_nat pid = Some y -> used y -> Q (Some pid) k1 -> hp (get_pcb_by_pid pid) Q k1.
Proof.
  intros [H _] Hl Hn Hp Hy Hu HQ. apply hp_wp, wp_get_pcb_by_pid; [by rewrite (kt_plock _ _ _ _ H) | by rewrite (kt_len _ _ _ _ H) | done|].
  intros Hno. by destruct (Hno y).
Qed.

Lemma hp_pcb_lock k k1 U T p y (Q : unit -> kstate -> Prop) :
  kstep k k1 U T -> 0 <= p -> k_processes k1 !! Z.to_nat p = Some y -> p_lock y = false ->
  (forall k2, kstep k k2 ((p, set_p_lock true y) :: U) T -> Q tt k2) -> hp (pcb_lock p) Q k1.
Proof.
  intros H Hp Hy Hl HQ. apply hp_bind, (hp_get_pcb _ y); [done | done|]. rewrite Hl. by eapply hp_kpcb.
Qed.

(** The entry of the child [n] of the process [p]; [z] is what the entry held. *)
Definition child_pcb (n p : Z) (y z : pcb) : pcb :=
  mkPcb n p (p_pgid y) (name_prefix 31 (if char_at (p_name y) 0 =? 0 then [63] else p_name y)) PROC_RUNNING_STATE 0 [] false false
    (p_ttbr0_el1 z) (p_ttbr0_el1_va z) [] [] false (repeat (mkSigaction SIG_DFL 0 0) 32) 0 [] (p_cwd y) 0 0 0 0.

Lemma hp_adopt k k1 U T n p x y (Q : unit -> kstate -> Prop) :
  kstep k k1 U T -> 0 <= n -> 0 <= p -> n <> p ->
  k_processes k1 !! Z.to_nat n = Some x -> k_processes k1 !! Z.to_nat p = Some y -> p_lock y = false ->
  (forall k2, kstep k k2 ((p, set_p_children (p_children y ++ [n]) y) :: (n, set_p_cwd (p_cwd y) (set_p_pgid (p_pgid y) x)) :: U) T -> Q tt k2) ->
  hp (adopt n (Some p)) Q k1.
Proof.
  intros H Hn Hp Hne Hx Hy Hl HQ. unfold adopt. apply hp_bind, (hp_pcb_lock k k1 U T p y); [done..|]. intros k2 H2.
  apply hp_bind, (hp_get_pcb _ (set_p_lock true y)); [done | entry|].
  apply hp_bind, (hp_kpcb k k2 _ T n x _ _ H2); [done | rewrite (kt_procs _ _ _ _ (proj1 H2)) by done; simpl; rewrite decide_False, <- Hx, (kt_procs _ _ _ _ (proj1 H)) by done; done|]. intros k3 H3.
  apply hp_bind, hp_list. intros h Hr. pose proof (kstep_heap _ _ _ _ h H3) as H4.
  apply hp_bind, (hp_kpcb k _ _ T p (set_p_lock true y) _ _ H4); [done | entry|]. intros k5 H5.
  apply hp_bind, (hp_kpcb k _ _ T n (set_p_pgid (p_pgid y) x) _ _ H5); [done | entry|]. intros k6 H6.
  eapply (hp_kpcb k _ _ T p _ _ _ H6); [done | entry|]. intros k7 H7. apply (HQ k7).
  replace (set_p_children (p_children y ++ [n]) y) with (set_p_lock false (set_p_children (p_children (set_p_lock true y) ++ [n]) (set_p_lock true y)))
    by (destruct y; simpl in Hl; by subst).
  eapply kstep_ext; [exact H7|]. intros i Hi. simpl. by repeat case_decide.
Qed.

Lemma hp_new_process k p y :
  processes_ok k -> process k p y -> p_lock y = false ->
  hp (new_process p) (fun r k' =>
    match r with
    | None => k' = k
    | Some n => n <> p /\ 0 <= n < 256 /\ exists z, k_processes k !! Z.to_nat n = Some z /\ p_state z = PROC_UNUSED_STATE /\
        kstep k k' [(n, child_pcb n p y z); (p, set_p_children (p_children y ++ [n]) y)] []
    end) k.
Proof.
  intros Hok (Hp & Hy & Hu) Hlock. pose proof Hok as [Hl Hlen _]. unfold new_process. apply hp_bind, hp_get_next_unused; [done | | by apply hp_ret].
  intros n z k1 Hn Hz Hst H1. assert (Hne : n <> p) by (intros ->; rewrite Hz in Hy; injection Hy as ->; by apply Hu).
  apply hp_bind, (hp_kpcb k _ _ [] n (set_p_state PROC_BLOCKED_STATE (set_p_pid n z)) _ _ H1); [lia | entry|]. intros k2 H2.
  rewrite (proj2 (Z.eqb_neq p n)) by done. apply hp_bind, (hp_kget k _ _ _ _ y _ H2); [done | done | done | entry | done|].
  apply hp_bind. eapply (hp_adopt k _ _ [] n p _ y _ H2); [lia | done | done | entry | entry | done|]. intros k3 H3.
  apply hp_bind, hp_nil. intros h4 _. pose proof (kstep_heap _ _ _ _ h4 H3) as H4. clear H3.
  apply hp_bind, hp_nil. intros h5 _. pose proof (kstep_heap _ _ _ _ h5 H4) as H5. clear H4.
  apply hp_bind, hp_nil. intros h6 _. pose proof (kstep_heap _ _ _ _ h6 H5) as H6. clear H5.
  apply hp_bind, hp_bind, (hp_get_pcb _ (set_p_children (p_children y ++ [n]) y)); [done | entry|]. apply hp_ret.
  apply hp_bind. eapply (hp_kpcb k _ _ [] n); [exact H6 | lia | entry|]. intros k7 H7.
  apply hp_bind, hp_nil. intros h8 _. pose proof (kstep_heap _ _ _ _ h8 H7) as H8. clear H7.
  apply hp_bind. eapply (hp_kpcb k _ _ [] n); [exact H8 | lia | entry|]. intros k9 H9. apply hp_ret.
  split_and!; [done | lia | lia|]. exists z. split_and!; [done | done|].
  eapply kstep_ext; [exact H9|]. intros i Hi. simpl. by repeat case_decide.
Qed.

(** ** A change of state that no one waits for *)

Definition marked_pcb (z : pcb) : pcb :=
  match p_state z with
  | PROC_STOPPED_STATE => set_p_wait_stop_pending true z
  | PROC_RUNNING_STATE => set_p_wait_cont_pending true z
  | _ => z
  end.

Definition settled (old new : thread_state) (x : pcb) : pcb :=
  let y := enter_state new (leave_state old x) in marked_pcb (set_p_state (due_state y) y).

(** No thread of the parent of [x] waits for a child. *)
Definition unwatched (k : kstate) (x : pcb) : Prop :=
  forall z, 0 <= p_ppid x -> k_processes k !! Z.to_nat (p_ppid x) = Some z -> used z -> p_child_waitq z = [].

Lemma hp_sigchld_quiet U0 k k1 U T p x (Q : Z -> kstate -> Prop) :
  kstep k k1 U T -> k_process_table_lock k = false -> length (k_processes k) = 256%nat ->
  0 <= p -> k_processes k1 !! Z.to_nat p = Some x -> used x -> p_ppid x <> p -> unwatched k1 x ->
  (forall r k2, kstep k k2 ((p, marked_pcb x) :: U) T -> Q r k2) -> hp (send_sigchld_with U0 p) Q k1.
Proof.
  intros H Hl Hn Hp Hx Hu Hpp Hw HQ. apply hp_bind, (hp_kget k _ _ _ _ x _ H); [done..|].
  apply hp_bind, (hp_get_pcb _ x); [done | done|]. apply hp_bind.
  assert (Hstep : hp (if bool_decide (p_state x = PROC_STOPPED_STATE) then upd_pcb p (set_p_wait_stop_pending true)
           else if bool_decide (p_state x = PROC_RUNNING_STATE) then upd_pcb p (set_p_wait_cont_pending true)
           else mret tt) (fun _ k2 => kstep k k2 ((p, marked_pcb x) :: U) T) k1).
  { unfold marked_pcb. case_bool_decide as E1; [|case_bool_decide as E2].
    - rewrite E1. by eapply (hp_kpcb k _ _ _ _ _ _ _ H).
    - rewrite E2. by eapply (hp_kpcb k _ _ _ _ _ _ _ H).
    - apply hp_ret. replace (match p_state x with PROC_STOPPED_STATE => _ | PROC_RUNNING_STATE => _ | _ => x end) with x by by destruct (p_state x).
      destruct H as [H E]. split; [|done]. destruct H. constructor; try done. intros i Hi. simpl. case_decide; [by subst | auto]. }
  eapply hp_mono; [exact Hstep|]. intros [] k2 H2 _. clear Hstep.
  apply hp_bind, hp_wp, wp_get_pcb_by_pid; [by rewrite (kt_plock _ _ _ _ (proj1 H2)) | by rewrite (kt_len _ _ _ _ (proj1 H2)) | |].
  - intros z H0 Hz Hzu. split; [|done]. apply hp_bind, (hp_get_pcb _ z); [done | done|].
    assert (Hz1 : k_processes k1 !! Z.to_nat (p_ppid x) = Some z).
    { rewrite <- Hz, (kt_procs _ _ _ _ (proj1 H)), (kt_procs _ _ _ _ (proj1 H2)) by done. simpl. by rewrite decide_False. }
    rewrite (Hw z H0 Hz1 Hzu). apply hp_ret. eapply HQ. exact H2.
  - intros _. split; [|done]. apply hp_ret. eapply HQ. exact H2.
Qed.

Lemma hp_change_quiet U0 k k1 U T p x old new (Q : unit -> kstate -> Prop) :
  kstep k k1 U T -> k_process_table_lock k = false -> length (k_processes k) = 256%nat ->
  0 <= p -> k_processes k1 !! Z.to_nat p = Some x -> p_pid x = p -> p_ppid x <> p -> unwatched k1 x ->
  (forall k2, kstep k k2 ((p, settled old new x) :: U) T -> Q tt k2) -> hp (change_state_with U0 p old new) Q k1.
Proof.
  intros H Hl Hn Hp Hx Hpid Hpp Hw HQ. unfold change_state_with.
  apply hp_bind, (hp_kpcb k _ _ _ p x _ _ H); [done | done|]. intros k2 H2.
  apply hp_bind. eapply (hp_kpcb k _ _ _ p _ _ _ H2); [done | entry|]. intros k3 H3.
  apply hp_bind. eapply hp_get_pcb; [done | entry|]. set (y := enter_state new (leave_state old x)) in *.
  assert (Ey : p_pid y = p /\ p_ppid y = p_ppid x) by (unfold y, enter_state, leave_state; by destruct old, new). destruct Ey as [-> Epp].
  assert (Hstep : forall st, hp (upd_pcb p (set_p_state st)) (fun _ k4 => kstep k k4 ((p, set_p_state st y) :: U) T) k3).
  { intros st. eapply (hp_kpcb k _ _ _ p _ _ _ H3); [done | entry|]. intros k4 H4. eapply kstep_ext; [exact H4|].
    intros i Hi. simpl. by repeat case_decide. }
  assert (Hdue : forall st, st <> PROC_UNUSED_STATE -> due_state y = st -> hp (_ ← upd_pcb p (set_p_state st); _ ← send_sigchld_with U0 p; mret tt) Q k3).
  { intros st Hst Ed. apply hp_bind. eapply hp_mono; [apply Hstep|]. intros [] k4 H4 _. apply hp_bind.
    eapply (hp_sigchld_quiet U0 k _ _ _ p (set_p_state st y) _ H4); [done | done | done | entry | done | simpl; by rewrite Epp | |].
    - intros z H0 Hz Hzu. simpl in H0, Hz. rewrite Epp in H0, Hz. apply (Hw z H0); [|done]. rewrite <- Hz.
      rewrite (kt_procs _ _ _ _ (proj1 H)), (kt_procs _ _ _ _ (proj1 H4)) by done. simpl. by rewrite decide_False.
    - intros r k5 H5. apply hp_ret, HQ. eapply kstep_ext; [exact H5|]. intros i Hi. simpl. case_decide; [|done]. unfold settled. fold y. by rewrite Ed. }
  unfold due_state, thread_count in Hdue.
  destruct (0 <? p_num_running_threads y) eqn:Er; [by apply Hdue|].
  destruct (0 <? p_num_blocked_threads y) eqn:Eb.
  - eapply hp_mono; [apply Hstep|]. intros [] k4 H4 _. apply HQ. eapply kstep_ext; [exact H4|].
    intros i Hi. simpl. case_decide; [|done]. unfold settled. fold y. unfold due_state, thread_count. by rewrite Er, Eb.
  - destruct (0 <? p_num_stopped_threads y); by apply Hdue.
Qed.

(** ** A new thread *)

Lemma unused_slot_spec l : forall i,
  match unused_slot l i with
  | Some n => i <= n < i + Z.of_nat (length l) /\ exists x, l !! Z.to_nat (n - i) = Some x /\ t_state x = THREAD_UNUSED
  | None => True
  end.
Proof.
  induction l as [|y l IH]; intros i; simpl; [done|]. case_bool_decide as E.
  - split; [lia|]. exists y. by rewrite Z.sub_diag.
  - specialize (IH (i + 1)). destruct (unused_slot l (i + 1)) as [n|]; [|done].
    destruct IH as [Hn (z & Hz & Hu)]. split; [lia|]. exists z. split; [|done].
    replace (Z.to_nat (n - i)) with (S (Z.to_nat (n - (i + 1)))) by lia. done.
Qed.

Lemma kstep_push k k1 U T x :
  kstep k k1 U T -> kstep k (set_k_threads (k_threads k1 ++ [x]) k1) U ((Z.of_nat (length (k_threads k1)), Some x) :: T).
Proof.
  intros [H E]. split; [|done]. destruct H. constructor; try done. intros i Hi. cbn [k_threads set_k_threads assoc]. case_decide as Ei.
  - subst i. rewrite Nat2Z.id. by rewrite list_lookup_middle.
  - rewrite <- kt_threads0 by done. destruct (decide (i < Z.of_nat (length (k_threads k1)))).
    + rewrite lookup_app_l by lia. done.
    + rewrite !lookup_ge_None_2; [done | lia | rewrite length_app; simpl; lia].
Qed.

Lemma kstep_trans k k1 k2 U T U' T' : kstep k k1 U T -> kstep k1 k2 U' T' -> kstep k k2 (U' ++ U) (T' ++ T).
Proof.
  intros (H1 & E1 & Q1 & C1 & P1) (H2 & E2 & Q2 & C2 & P2). split; [by eapply ktab_trans|]. split; [congruence|]. split_and!; congruence.
Qed.

(** What was done while the lock was held. *)
Lemma kstep_unlock k k2 U T :
  k_threads_lock k = false -> kstep (set_k_threads_lock true k) k2 U T -> kstep k (set_k_threads_lock false k2) U T.
Proof. intros Hl [H E]. split; [|done]. destruct H. by constructor. Qed.

(** The thread that [thread_create] leaves. *)
Definition created_tcb (tramp tid p stack f arg : Z) (y : pcb) (x : tcb) : tcb :=
  set_t_waiting_on_this [] (new_tcb tramp tid p stack f arg (p_ttbr0_el1 y) (p_ttbr0_el1_va y) (set_t_kernel_stack stack x)).

Definition unused_at (k : kstate) (t : Z) : Prop :=
  0 <= t /\ forall x, k_threads k !! Z.to_nat t = Some x -> t_state x = THREAD_UNUSED.

(** The place for a new thread. *)
Lemma hp_thread_slot k kl :
  kl = set_k_threads_lock true k ->
  hp (match unused_slot (k_threads k) 0 with
      | Some i => mret (Some i)
      | None =>
          b ← kmalloc sizeof_tcb;
          if negb (b : bool) then mret None else
          threads ← list_push (k_threads k) zero_tcb;
          _ ← modify (set_k_threads threads);
          mret (Some (Z.of_nat (length threads) - 1))
      end)
   (fun slot k' =>
      match slot with
      | None => kstep kl k' [] []
      | Some t => unused_at k t /\ exists x T, t_state x = THREAD_UNUSED /\ kstep kl k' [] T /\ k_threads k' !! Z.to_nat t = Some x /\
          (T = [] \/ T = [(t, Some x)])
      end) kl.
Proof.
  intros ->. pose proof (unused_slot_spec (k_threads k) 0) as Hs. destruct (unused_slot (k_threads k) 0) as [t|].
  - destruct Hs as [Ht (x & Hx & Hu)]. rewrite Z.sub_0_r in Hx. apply hp_ret. split; [split; [lia|]; intros x' Hx'; congruence|].
    exists x, []. split_and!; [done | apply kstep_refl | done | by left].
  - apply hp_bind, hp_kmalloc; [done|]. intros [] h _ _; cbn [negb]; [|apply hp_ret, (kstep_heap _ _ _ _ h), kstep_refl].
    apply hp_bind, hp_list. intros h2 _. apply hp_bind, hp_modify; [done|]. apply hp_ret.
    rewrite length_app. cbn [length]. replace (Z.of_nat (length (k_threads k) + 1) - 1) with (Z.of_nat (length (k_threads k))) by lia.
    split; [split; [lia|]; rewrite Nat2Z.id, lookup_ge_None_2 by lia; done|]. exists zero_tcb, [(Z.of_nat (length (k_threads k)), Some zero_tcb)].
    split_and!; [done | | | by right].
    + apply (kstep_push _ (set_k_heap h2 (set_k_heap h (set_k_threads_lock true k))) [] []), kstep_heap, kstep_heap, kstep_refl.
    + cbn [k_threads set_k_threads]. rewrite Nat2Z.id. by rewrite list_lookup_middle.
Qed.

Lemma kstep_pages k k1 U T pg : kstep k k1 U T -> kstep k (set_k_pages pg k1) U T.
Proof. intros [H E]. split; [|done]. destruct H. by constructor. Qed.

Lemma hp_thread_create tramp k p y f arg :
  k_threads_lock k = false -> k_process_table_lock k = false -> length (k_processes k) = 256%nat ->
  0 <= p -> k_processes k !! Z.to_nat p = Some y -> p_pid y = p -> p_ppid y <> p -> unwatched k y ->
  hp (thread_create tramp p f arg) (fun r k' =>
    (r = -1 /\ exists T, kstep k k' [] T /\ (T = [] \/ exists t x, T = [(t, Some x)] /\ unused_at k t /\ t_state x = THREAD_UNUSED)) \/
    (unused_at k r /\ exists x stack,
       kstep k k' [(p, settled THREAD_UNUSED THREAD_RUNNING (set_p_tids (p_tids y ++ [r]) y))]
         [(r, Some (created_tcb tramp r p stack f arg y x))])) k.
Proof.
  intros Htl Hpl Hlen Hp Hy Hpid Hpp Hw. unfold thread_create. apply hp_bind, hp_wp, wp_spin_lock; [done|]. split; [|done].
  apply hp_bind, hp_fetch. apply hp_bind. eapply hp_mono; [by apply (hp_thread_slot k)|]. intros slot k1 Hslot _.
  destruct slot as [t|].
  2: { apply hp_bind, hp_modify; [done|]. apply hp_ret. left. split; [done|]. exists []. split; [by apply kstep_unlock | by left]. }
  destruct Hslot as (Hun & x & T & Hxu & H1 & Hx1 & HT). pose proof Hun as [Ht _].
  apply hp_bind, hp_bind, hp_fetch, hp_bind, hp_modify; [done|]. apply hp_ret. set (stack := default 0 _).
  set (kl := set_k_threads_lock true k) in *. apply (kstep_pages kl _ _ _ (fun n => k_pages k1 (S n))) in H1.
  apply hp_bind, (hp_ktcb kl _ _ _ t x _ _ H1); [done | done|]. intros k2 H2.
  destruct (stack =? 0).
  { apply hp_bind, hp_modify; [done|]. apply hp_ret. left. split; [done|]. exists [(t, Some (set_t_kernel_stack stack x))]. split.
    - apply kstep_unlock; [done|]. destruct H2 as [H2 E2]. split; [|done]. eapply ktab_ext; [exact H2 | done|].
      intros i Hi. destruct HT as [-> | ->]; [done|]. simpl. by case_decide.
    - right. exists t, (set_t_kernel_stack stack x). by split_and!. }
  apply hp_bind, hp_nil. intros h _. pose proof (kstep_heap _ _ _ _ h H2) as H3. clear H2.
  apply hp_bind, (hp_get_pcb _ y); [done | entry|].
  apply hp_bind. eapply (hp_ktcb kl _ _ _ t _ _ _ H3); [done | entry|]. intros k4 H4.
  apply hp_bind. eapply (hp_ktcb kl _ _ _ t _ _ _ H4); [done | entry|]. intros k5 H5.
  apply hp_bind, hp_list. intros h6 _. pose proof (kstep_heap _ _ _ _ h6 H5) as H6. clear H5.
  apply hp_bind, (hp_kpcb kl _ _ _ p y _ _ H6); [done | entry|]. intros k7 H7.
  apply hp_bind, hp_modify; [done|]. apply kstep_unlock in H7; [|done]. apply hp_bind.
  eapply (hp_change_quiet _ k _ _ _ p (set_p_tids (p_tids y ++ [t]) y) _ _ _ H7); [done | done | done | entry | done | done | |].
  - intros z H0 Hz Hzu. apply (Hw z H0); [|done]. revert Hz. rewrite (kt_procs _ _ _ _ (proj1 H7)) by done. simpl. by rewrite decide_False.
  - intros k8 H8. apply hp_ret. right. split; [done|]. exists x, stack. destruct H8 as [H8 E8]. split; [|done].
    eapply ktab_ext; [exact H8 | intros i Hi; simpl; by repeat case_decide|].
    intros i Hi. destruct HT as [-> | ->]; simpl; by repeat case_decide.
Qed.

(** ** The end of threads *)

(** What the end of its threads leaves of a process. *)
Record same_process (y y' : pcb) : Prop := {
  sp_pid : p_pid y' = p_pid y;
  sp_ppid : p_ppid y' = p_ppid y;
  sp_pgid : p_pgid y' = p_pgid y;
  sp_children : p_children y' = p_children y;
  sp_table : p_ttbr0_el1_va y' = p_ttbr0_el1_va y;
  sp_lock : p_lock y' = p_lock y;
  sp_waitq : p_child_waitq y' = p_child_waitq y
}.

Lemma settled_same old new y : same_process y (settled old new y) /\ p_tids (settled old new y) = p_tids y /\ used (settled old new y).
Proof.
  unfold settled. set (x := enter_state new (leave_state old y)).
  assert (Hx : same_process y x /\ p_tids x = p_tids y) by (unfold x, enter_state, leave_state; by destruct old, new). destruct Hx as [[] Ht].
  unfold marked_pcb, used. cbn [p_state set_p_state].
  assert (Hd : due_state x <> PROC_UNUSED_STATE) by (unfold due_state; by repeat case_match).
  by destruct (due_state x); split_and!; try constructor.
Qed.

Lemma same_process_trans y1 y2 y3 : same_process y1 y2 -> same_process y2 y3 -> same_process y1 y3.
Proof. intros [] []. constructor; congruence. Qed.

(** What cleaning up needs: the locks are free and no thread of the parent
    waits. *)
Record quiet (k : kstate) (p : Z) (y : pcb) : Prop := {
  qu_slock : k_scheduler_lock k = false;
  qu_queues : length (k_ready_queues k) = 3%nat;
  qu_tlock : k_threads_lock k = false;
  qu_plock : k_process_table_lock k = false;
  qu_len : length (k_processes k) = 256%nat;
  qu_proc : process k p y;
  qu_pid : p_pid y = p;
  qu_ppid : p_ppid y <> p;
  qu_watch : unwatched k y;
  qu_nodup : NoDup (p_tids y);
  qu_own : forall t x, t ∈ p_tids y -> live k t x -> t_pcb x = p /\ t_tid x = t
}.

(** [k'] is [k] without the threads [ts] of the process [p], now [y']. *)
Record cleaned (k k' : kstate) (p : Z) (y' : pcb) (ts : list Z) : Prop := {
  cl_tab : exists T, ktab k k' [(p, y')] T /\ forall t o, assoc T t = Some o -> t ∈ ts /\ forall x, o = Some x -> t_state x = THREAD_UNUSED;
  cl_gone : forall t, t ∈ ts -> unused_at k' t \/ t < 0;
  cl_groups : k_pgrps k' = k_pgrps k;
  cl_queues : length (k_ready_queues k') = length (k_ready_queues k)
}.

Lemma hp_thread_cleanup k p y t x tids :
  quiet k p y -> p_tids y = t :: tids -> live k t x ->
  hp (thread_cleanup t) (fun _ k' => exists T y', ktab k k' [(p, y')] T /\ k_pgrps k' = k_pgrps k /\
     k_ready_queues k' = map (erase_thread t) (k_ready_queues k) /\ same_process y y' /\ p_tids y' = tids /\ used y' /\
     (T = [(t, None)] \/ exists x', T = [(t, Some x')] /\ t_state x' = THREAD_UNUSED)) k.
Proof.
  intros [Hsl Hq Htl Hpl Hlen (Hp & Hy & Hu) Hpid Hpp Hw Hnd Hown] Ets (Ht & Hx & Hxu).
  destruct (Hown t x) as [Ep Et]; [rewrite Ets; left | done|]. unfold thread_cleanup.
  apply hp_bind, hp_wp, (wp_get_tcb _ x); [done | done|]. split; [|done]. rewrite Ep, Et.
  apply hp_bind, hp_wp, wp_remove_thread; [done | done|]. split; [|done]. set (k0 := set_k_ready_queues _ k).
  apply hp_bind, hp_wp, wp_spin_lock; [done|]. split; [|done]. pose proof (kstep_refl (set_k_threads_lock true k0)) as H1.
  apply hp_bind, (hp_ktcb _ _ _ _ t x _ _ H1); [done | done|]. intros k2 H2.
  apply hp_bind. eapply (hp_ktcb _ _ _ _ t _ _ _ H2); [done | entry|]. intros k3 H3.
  apply hp_bind, (hp_get_pcb _ y); [done | entry|].
  apply hp_bind, (hp_kpcb _ _ _ _ p y _ _ H3); [done | entry|]. intros k4 H4.
  apply hp_bind, hp_fetch. rewrite Ets in H4. cbn [erase_first] in H4. rewrite Z.eqb_refl in H4.
  apply hp_bind. set (x' := set_t_state THREAD_UNUSED _) in *.
  assert (Hlast : hp (if Z.of_nat (length (k_threads k4)) - 1 =? t
       then modify (set_k_threads (take (length (k_threads k4) - 1) (k_threads k4))) else mret tt)
       (fun _ k5 => exists o, (o = None \/ o = Some x') /\ kstep (set_k_threads_lock true k0) k5 [(p, set_p_tids tids y)] [(t, o)]) k4).
  { apply kstep_ext with (U' := [(p, set_p_tids tids y)]) in H4; [|done].
    destruct (Z.eqb_spec (Z.of_nat (length (k_threads k4)) - 1) t) as [E|E].
    - apply hp_modify; [done|]. exists None. split; [by left|]. destruct H4 as [H4 E4]. split; [|done]. destruct H4. constructor; try done.
      intros i Hi. cbn [k_threads set_k_threads assoc]. case_decide as Ei.
      + subst i. apply lookup_ge_None_2. rewrite length_take. lia.
      + destruct (decide (i < t)).
        * rewrite lookup_take, decide_True by lia. rewrite kt_threads0 by done. simpl. by rewrite !decide_False.
        * rewrite lookup_ge_None_2 by (rewrite length_take; lia). symmetry.
          specialize (kt_threads0 i Hi). simpl in kt_threads0. rewrite !decide_False in kt_threads0 by done.
          refine (eq_trans (eq_sym kt_threads0) _). apply lookup_ge_None_2. lia.
    - apply hp_ret. exists (Some x'). split; [by right|]. destruct H4 as [H4 E4]. split; [|done]. eapply ktab_ext; [exact H4 | done|].
      intros i Hi. simpl. by repeat case_decide. }
  eapply hp_mono; [exact Hlast|]. intros [] k5 (o & Ho & H5) _. clear Hlast H1 H2 H3 H4.
  apply hp_bind, hp_modify; [done|]. apply kstep_unlock in H5; [|done].
  eapply (hp_change_quiet _ k0 _ _ _ p (set_p_tids tids y) _ _ _ H5); [done | done | done | entry | done | done | |].
  - intros z H0 Hz Hzu. apply (Hw z H0); [|done]. revert Hz. rewrite (kt_procs _ _ _ _ (proj1 H5)) by done. simpl. by rewrite decide_False.
  - intros k6 H6. destruct (settled_same THREAD_ZOMBIE THREAD_UNUSED (set_p_tids tids y)) as (S1 & S2 & S3).
    exists [(t, o)], (settled THREAD_ZOMBIE THREAD_UNUSED (set_p_tids tids y)). destruct H6 as (H6 & E6 & Q6 & _). split_and!; try done.
    + assert (H0 : ktab k k0 [] []) by by constructor. pose proof (ktab_trans _ _ _ _ _ _ _ H0 H6) as H7.
      eapply ktab_ext; [exact H7 | intros i Hi; simpl; by repeat case_decide | done].
    + eapply same_process_trans; [|exact S1]. by constructor.
    + destruct Ho as [-> | ->]; [by left | right; by exists x'].
Qed.

Lemma cleaned_cons k k1 k2 p y1 y2 t ts T :
  ktab k k1 [(p, y1)] T -> k_pgrps k1 = k_pgrps k -> length (k_ready_queues k1) = length (k_ready_queues k) ->
  (forall u o, assoc T u = Some o -> u = t /\ forall x, o = Some x -> t_state x = THREAD_UNUSED) -> unused_at k1 t \/ t < 0 ->
  cleaned k1 k2 p y2 ts -> cleaned k k2 p y2 (t :: ts).
Proof.
  intros H1 E1 Q1 HT Ht [(T2 & H2 & HT2) G2 E2 Q2]. constructor.
  - exists (T2 ++ T). split.
    + eapply ktab_ext; [by eapply ktab_trans | | done]. intros i Hi. simpl. by repeat case_decide.
    + intros u o Hu. assert (Hc : assoc T2 u = Some o \/ assoc T u = Some o).
      { rewrite assoc_app in Hu. destruct (assoc T2 u); [left | right]; done. }
      destruct Hc as [[Hin Ho]%HT2|Hc]; [split; [by right | done]|].
      destruct (HT u o Hc) as [-> Ho]. split; [left | done].
  - intros u [->|Hu]%elem_of_cons; [|by apply G2]. destruct Ht as [[Ht Hun]|?]; [left | by right]. split; [done|].
    intros x. rewrite (kt_threads _ _ _ _ H2) by done.
    destruct (assoc T2 t) as [o|] eqn:Eo; [intros ->; by apply (HT2 t (Some x)) | apply Hun].
  - congruence.
  - congruence.
Qed.

Lemma quiet_step k k1 p y y1 T :
  quiet k p y -> ktab k k1 [(p, y1)] T -> length (k_ready_queues k1) = length (k_ready_queues k) -> same_process y y1 ->
  p_tids y1 `sublist_of` p_tids y -> used y1 -> (forall u x, assoc T u = Some (Some x) -> t_state x = THREAD_UNUSED) -> quiet k1 p y1.
Proof.
  intros [Hsl Hq Htl Hpl Hlen (Hp & Hy & Hu) Hpid Hpp Hw Hnd Hown] H HQ [S1 S2 S3 S4 S5 S6 S7] Hsub Hu1 HT.
  constructor; rewrite ?(kt_slock _ _ _ _ H), ?(kt_tlock _ _ _ _ H), ?(kt_plock _ _ _ _ H), ?(kt_len _ _ _ _ H), ?HQ; try done; try congruence.
  - split_and!; [done | | done]. rewrite (kt_procs _ _ _ _ H) by done. simpl. by rewrite decide_True.
  - intros z H0 Hz Hzu. rewrite S2 in H0, Hz. apply (Hw z H0); [|done]. revert Hz. rewrite (kt_procs _ _ _ _ H) by done. simpl. by rewrite decide_False.
  - by eapply sublist_NoDup.
  - intros t x Hin (Ht & Hx & Hxu). rewrite (kt_threads _ _ _ _ H) in Hx by done. destruct (assoc T t) as [o|] eqn:E.
    + subst o. destruct Hxu. by eapply HT.
    + apply Hown; [by eapply sublist_subseteq | done].
Qed.

Lemma hp_cleanup_threads n : forall k p y,
  quiet k p y -> length (p_tids y) = n ->
  hp (cleanup_threads n p) (fun _ k' => exists y', cleaned k k' p y' (p_tids y) /\ same_process y y' /\ p_tids y' = [] /\ used y') k.
Proof.
  induction n as [|n IH]; intros k p y Hq Hn; pose proof (qu_proc _ _ _ Hq) as (Hp & Hy & Hu).
  - cbn [cleanup_threads]. apply hp_bind, (hp_get_pcb _ y); [done | done|]. destruct (p_tids y) eqn:Et; [|done].
    apply hp_ret. exists y. split_and!; [|by constructor | done | done]. constructor; [|by intros t ?%elem_of_nil | done|].
    + exists []. split; [|done]. rewrite <- (with_pcb_id p y k Hy) at 2. by eapply ktab_pcb.
    + done.
  - cbn [cleanup_threads]. apply hp_bind, (hp_get_pcb _ y); [done | done|]. destruct (p_tids y) as [|t tids] eqn:Et; [done|].
    apply hp_bind, hp_wp, wp_thread_get_by_tid; [apply Hq | |].
    + intros x Ht Hx Hxu. split; [|done]. apply hp_bind. eapply hp_mono; [by apply (hp_thread_cleanup k p y t x tids)|].
      intros [] k1 (T & y1 & H1 & E1 & Q1 & S1 & Et1 & Hu1 & HT) _.
      assert (HTt : forall u o, assoc T u = Some o -> u = t /\ forall x, o = Some x -> t_state x = THREAD_UNUSED).
      { intros u o Hu0. destruct HT as [-> | (x' & -> & Hx')]; simpl in Hu0; case_decide; try done; injection Hu0 as <-; (split; [done|]); intros x0 Hx0; by simplify_eq. }
      assert (Hq1 : quiet k1 p y1).
      { eapply quiet_step; [exact Hq | exact H1 | by rewrite Q1, length_map | done | rewrite Et1, Et; by apply sublist_cons | done|].
        intros u x0 Ex. by apply (HTt u (Some x0)). }
      eapply hp_mono; [apply (IH k1 p y1); [done | rewrite Et1; simpl in Hn; lia]|]. intros [] k2 (y2 & C & S2 & Et2 & Hu2) _. exists y2. rewrite Et1 in C.
      split_and!; [|by eapply same_process_trans | done | done].
      eapply cleaned_cons; [exact H1 | done | by rewrite Q1, length_map | done | | done].
      left. split; [done|]. intros x0. rewrite (kt_threads _ _ _ _ H1) by done.
      destruct HT as [-> | (x' & -> & Hx')]; simpl; rewrite decide_True by done; [done | by intros [= ->]].
    + intros Hno. split; [|done]. apply hp_bind, (hp_upd_pcb _ y); [done | done|]. set (k1 := with_pcb p (set_p_tids tids y) k).
      assert (H1 : ktab k k1 [(p, set_p_tids tids y)] []) by by eapply ktab_pcb.
      assert (Hq1 : quiet k1 p (set_p_tids tids y))
        by (eapply quiet_step; [exact Hq | exact H1 | done | by constructor | simpl; rewrite Et; by apply sublist_cons | done | done]).
      eapply hp_mono; [apply (IH k1 p (set_p_tids tids y)); [done | simpl in *; lia]|]. intros [] k2 (y2 & C & S2 & Et2 & Hu2) _. exists y2.
      split_and!; [|eapply same_process_trans; [|exact S2]; by constructor | done | done].
      eapply cleaned_cons; [exact H1 | done | done | done | | done].
      destruct (decide (0 <= t)); [left | right; lia]. split; [done|]. intros x0 Hx0. by apply Hno.
Qed.
