(* ===== verification/ProcEnd.v ===== *)
(** * Processes: the end and waiting

    [proc_destroy] of a process without children, and what [waitpid] does with
    a child that has ended.  The process leaves its group, its threads and its
    address space are released, its entry is free and its parent forgets it;
    nothing else changes. *)

From S2P Require Import Prelude Errors Bytes KString Services PageAlloc PageTable Cow Fork Destroy AddressSpace VmRegion DemandPaging ExecStack ExecImage.
From S2P Require Import Layout Programs Tasks Sched Threads Signals Exec Process ProcLife ProcTheory.

(** What the operations rely on in the file system: descriptors are closed and
    shared without a fault. *)
Class ProcFileLaws (F : Type) `{ProcFiles F} := {
  pf_ok : F -> Prop;
  pf_close_law : forall fd f, pf_ok f -> wp (pf_close fd) (fun _ f' => pf_ok f') f;
  pf_reference_law : forall fd f, pf_ok f -> wp (pf_add_reference fd) (fun _ f' => pf_ok f') f
}.

(** ** Outcomes

    The heap of the kernel tables grants every request; an allocation of the
    memory system may be refused. *)
Section outcomes.
Context {F : Type}.
Implicit Types (s : exec_state F).

Definition fe {A} (m : stM (exec_state F) A) (Q : A -> exec_state F -> Prop) s : Prop :=
  grants (ex_k s) ->
  match m s with
  | Ok (a, s') => Q a s' /\ (refusal (ex_vm s') -> refusal (ex_vm s)) /\ grants (ex_k s')
  | Fatal => refusal (ex_vm s)
  | Fault | Hang => False
  end.

Lemma fe_ret {A} (a : A) (Q : A -> exec_state F -> Prop) s : Q a s -> fe (mret a) Q s.
Proof. by split. Qed.

Lemma fe_bind {A B} (m : stM (exec_state F) A) (f : A -> stM (exec_state F) B) (Q : B -> exec_state F -> Prop) s :
  fe m (fun a s' => fe (f a) Q s') s -> fe (m ≫= f) Q s.
Proof.
  unfold fe, mbind, stM_bind. intros H Hg. specialize (H Hg). destruct (m s) as [[a s']| | |]; try done.
  destruct H as (Hf & Hr & Hg'). specialize (Hf Hg'). destruct (f a s') as [[b s'']| | |]; try done; [|auto].
  destruct Hf as (HQ & Hr' & Hg''). auto.
Qed.

Lemma fe_mono {A} (m : stM (exec_state F) A) (P Q : A -> exec_state F -> Prop) s :
  fe m P s -> (forall a s', P a s' -> (refusal (ex_vm s') -> refusal (ex_vm s)) -> Q a s') -> fe m Q s.
Proof. unfold fe. intros H HPQ Hg. specialize (H Hg). destruct (m s) as [[a s']| | |]; try done. destruct H as (HP & Hr & Hg'). split; auto. Qed.

Lemma fe_grants {A} (m : stM (exec_state F) A) (Q : A -> exec_state F -> Prop) s : (grants (ex_k s) -> fe m Q s) -> fe m Q s.
Proof. intros H Hg. by apply H. Qed.

Lemma fe_k {A} (m : KM A) (Q : A -> exec_state F -> Prop) k v :
  hp m (fun a k' => Q a (mkExec k' v)) k -> fe (in_k m) Q (mkExec k v).
Proof.
  unfold hp, fe, in_k, lift. intros H Hg. cbn [ex_k ex_vm] in *.
  assert (Hno : ~ refusal k) by (intros [n Hn]; cbv in Hn; change (k_heap k n = false) in Hn; by rewrite Hg in Hn).
  destruct (m k) as [[a k']| | |]; try done. destruct H as [HQ Hr]. split_and!; [done | done|].
  intros n. destruct (k_heap k' n) eqn:E; [done|]. destruct Hno. apply Hr. by exists n.
Qed.

Lemma fe_kw {A} (m : KM A) (Q : A -> exec_state F -> Prop) k v :
  wp m (fun a k' => Q a (mkExec k' v) /\ grants k') k -> fe (in_k m) Q (mkExec k v).
Proof. intros (a & k' & E & HQ & Hg) _. unfold in_k, lift. cbn [ex_k]. by rewrite E. Qed.

Lemma fe_vm {A} (m : stM (vm_state F) A) (Q : A -> exec_state F -> Prop) k v :
  xp False m (fun a v' => Q a (mkExec k v')) v -> fe (in_vm m) Q (mkExec k v).
Proof.
  unfold xp, fe, in_vm, lift. intros H Hg. cbn [ex_k ex_vm] in *. destruct (m v) as [[a v']| | |]; try done.
  destruct H as [HQ Hr]. by split_and!.
Qed.

End outcomes.

(** ** Theory: the tables *)

Lemma kstep_calls k k1 U T c : kstep k k1 U T -> kstep k (set_k_calls c k1) U T.
Proof. intros [H E]. split; [|done]. destruct H. by constructor. Qed.

Lemma hp_fd_buffer k n (Q : bool -> kstate -> Prop) :
  grants k -> 0 <= n -> 4 * n <= KERNEL_HEAP_SIZE ->
  (forall b h, b = true \/ n = 0 -> Q b (set_k_heap h k)) -> hp (kmalloc (4 * n)) Q k.
Proof.
  intros Hg Hn Hle HQ. destruct (decide (n = 0)) as [->|Hne].
  - apply hp_bind, hp_granted. intros b h _ _. apply hp_ret, (HQ _ h). by right.
  - apply hp_kmalloc; [lia|]. intros b h Hb _. apply (HQ b h). destruct b; [by left|]. destruct Hb as [i Hi]; [done|].
    change (k_heap k i = false) in Hi. by rewrite Hg in Hi.
Qed.

Lemma ktab_process_iff k k' U T q z : ktab k k' U T -> assoc U q = None -> process k' q z <-> process k q z.
Proof.
  intros H E. unfold process. split; intros (H0 & Hz & Hu); (split_and!; [done | | done]).
  - by rewrite (ktab_old _ _ _ _ _ H E H0) in Hz.
  - by rewrite (ktab_old _ _ _ _ _ H E H0).
Qed.

Lemma ktab_processes_ok k k' U T :
  processes_ok k -> ktab k k' U T -> (forall q z, assoc U q = Some z -> p_pid z = q) -> processes_ok k'.
Proof.
  intros [Hl Hn Hpid] H HU. constructor; [by rewrite (kt_plock _ _ _ _ H) | by rewrite (kt_len _ _ _ _ H)|].
  intros p y Hy. pose proof (kt_procs _ _ _ _ H (Z.of_nat p) ltac:(lia)) as E. rewrite Nat2Z.id, Hy in E.
  destruct (assoc U (Z.of_nat p)) as [z|] eqn:EU; [injection E as ->; by apply HU | by apply Hpid].
Qed.

(** The groups when the processes keep theirs. *)
Lemma groups_ok_same P P' k k' :
  groups_ok P k -> k_pgrps k' = k_pgrps k ->
  (forall g pid, (P pid /\ exists y, process k pid y /\ p_pgid y = g) <-> (P' pid /\ exists y, process k' pid y /\ p_pgid y = g)) ->
  groups_ok P' k'.
Proof.
  intros [Hw Hm] E Hp. constructor; [by rewrite E|]. intros g pid. unfold in_group. rewrite E. fold (in_group k g pid). by rewrite Hm, Hp.
Qed.

(** What is left in the tables when the process [p], which was [y], is gone. *)
Record ended (k k' : kstate) (p : Z) (y : pcb) : Prop := {
  en_entry : exists y', k_processes k' !! Z.to_nat p = Some y' /\ p_state y' = PROC_UNUSED_STATE;
  en_parent : forall z, process k (p_ppid y) z -> process k' (p_ppid y) (set_p_children (erase_first p (p_children z)) z);
  en_others : forall q z, q <> p -> q <> p_ppid y -> process k' q z <-> process k q z;
  en_threads : forall t, t ∈ p_tids y -> unused_at k' t \/ t < 0;
  en_other_threads : forall t, 0 <= t -> (t ∉ p_tids y) -> k_threads k' !! Z.to_nat t = k_threads k !! Z.to_nat t;
  en_groups : groups_ok everyone k';
  en_ok : processes_ok k';
  en_cpus : k_cpus k' = k_cpus k
}.

(** What it takes: nothing waits, no lock is held, and the process has no
    children. *)
Record can_end (k : kstate) (p : Z) (y : pcb) : Prop := {
  ce_quiet : quiet k p y;
  ce_ok : processes_ok k;
  ce_groups : groups_ok everyone k;
  ce_children : p_children y = [];
  ce_lock : p_lock y = false;
  ce_parent : forall z, process k (p_ppid y) z -> p_lock z = false;
  ce_fds : 4 * Z.of_nat (length (p_file_descriptors y)) <= KERNEL_HEAP_SIZE
}.

Lemma groups_only_tab k k' : groups_only k k' -> ktab k k' [] [].
Proof. intros (m & h & ->). by constructor. Qed.

Lemma hp_disown k p y :
  k_process_table_lock k = false -> length (k_processes k) = 256%nat ->
  0 <= p -> k_processes k !! Z.to_nat p = Some y -> p_pid y = p -> p_ppid y <> p ->
  (forall z, process k (p_ppid y) z -> p_lock z = false) ->
  hp (disown p) (fun _ k' =>
    (exists z, process k (p_ppid y) z /\ kstep k k' [(p_ppid y, set_p_children (erase_first p (p_children z)) z)] []) \/
    ((forall z, ~ process k (p_ppid y) z) /\ k' = k)) k.
Proof.
  intros Hl Hn Hp Hy Hpid Hpp Hlock. unfold disown. apply hp_bind, (hp_get_pcb _ y); [done | done|]. set (pp := p_ppid y) in *.
  apply hp_bind, hp_wp, wp_get_pcb_by_pid; [done | done | |].
  - intros z H0 Hz Hu. split; [|done]. assert (Hpz : process k pp z) by done.
    apply hp_bind, (hp_pcb_lock k k [] [] pp z); [apply kstep_refl | done | done | by apply Hlock|]. intros k1 H1.
    apply hp_bind. eapply (hp_kpcb k _ _ _ pp _ _ _ H1); [done | entry|]. intros k2 H2.
    eapply (hp_kpcb k _ _ _ pp _ _ _ H2); [done | entry|]. intros k3 H3. left. exists z. split; [done|].
    eapply kstep_ext; [exact H3|]. intros i Hi. simpl. case_decide; [|done]. rewrite Hpid. f_equal.
    specialize (Hlock z Hpz). destruct z. simpl in *. by subst.
  - intros Hno. split; [|done]. apply hp_ret. right. split; [|done]. intros z (H0 & Hz & Hu). by apply (Hno z).
Qed.

(** The changes of [destroy_body] to the tables, put together. *)
Lemma ended_intro k k2 k3 k4 k5 k6 p y y3 y4 :
  can_end k p y -> kstep k k2 [(p, set_p_file_descriptors [] y)] [] -> groups_only k2 k3 -> groups_ok (but p) k3 ->
  cleaned k3 k4 p y3 (p_tids y) -> kstep k4 k5 [(p, y4)] [] -> p_state y4 = PROC_UNUSED_STATE -> p_pid y4 = p ->
  (exists z, process k5 (p_ppid y) z /\ kstep k5 k6 [(p_ppid y, set_p_children (erase_first p (p_children z)) z)] []) \/
    ((forall z, ~ process k5 (p_ppid y) z) /\ k6 = k5) ->
  ended k k6 p y.
Proof.
  intros [Hq Hok Hg Hch Hlk Hpl Hfd] H2 H3 Hg3 [(T & H4 & HT) Hgone E4 _] H5 Hst Hpid4 H6. pose proof (qu_proc _ _ _ Hq) as (Hp & Hy & Hu).
  pose proof (qu_ppid _ _ _ Hq) as Hpp. set (pp := p_ppid y) in *.
  assert (H25 : ktab k k5 [(p, y4)] T).
  { pose proof (ktab_trans _ _ _ _ _ _ _ (ktab_same _ _ _ _ _ (proj1 H2) (groups_only_tab _ _ H3)) H4) as Ha.
    pose proof (ktab_trans _ _ _ _ _ _ _ Ha (proj1 H5)) as Hb.
    eapply ktab_ext; [exact Hb | intros i Hi; simpl; by repeat case_decide | intros i Hi; simpl; by rewrite app_nil_r]. }
  assert (Hproc5 : forall q z, q <> p -> process k5 q z <-> process k q z)
    by (intros q z Hne; apply (ktab_process_iff _ _ _ _ _ _ H25); simpl; by rewrite decide_False).
  assert (Hfin : exists U, ktab k k6 (U ++ [(p, y4)]) T /\ k_pgrps k6 = k_pgrps k3 /\ (forall i, 0 <= i -> k_threads k6 !! Z.to_nat i = k_threads k4 !! Z.to_nat i) /\
    (forall q z, assoc U q = Some z -> q = pp /\ exists z0, process k pp z0 /\ z = set_p_children (erase_first p (p_children z0)) z0) /\
    forall z, process k pp z -> exists z', assoc U pp = Some z').
  { destruct H5 as (H5 & E5 & _). destruct H6 as [(z & Hz & H6 & E6 & _) | [Hno ->]].
    - exists [(pp, set_p_children (erase_first p (p_children z)) z)]. split_and!; [| congruence | intros i Hi; by rewrite (kt_threads _ _ _ _ H6), (kt_threads _ _ _ _ H5) | |].
      + eapply ktab_ext; [eapply ktab_trans; [exact H25 | exact H6] | done | intros i Hi; simpl; by rewrite ?app_nil_r].
      + intros q z' E. simpl in E. case_decide; [|done]. injection E as <-. split; [done|]. exists z. split; [by apply Hproc5 | done].
      + intros z' _. simpl. rewrite decide_True by done. by eexists.
    - exists []. split_and!; [done | congruence | intros i Hi; by rewrite (kt_threads _ _ _ _ H5) | done |]. intros z Hz. destruct (Hno z). by apply Hproc5. }
  destruct Hfin as (U & H7 & E7 & Ht7 & HU & HUp). clear H6 H5.
  assert (Happ : forall i, assoc (U ++ [(p, y4)]) i = match assoc U i with Some a => Some a | None => if decide (i = p) then Some y4 else None end)
    by (intros i; by rewrite assoc_app).
  assert (HUne : forall q, q <> pp -> assoc U q = None) by (intros q Hne; destruct (assoc U q) as [z|] eqn:E; [by destruct (HU q z E) | done]).
  assert (Hentry : k_processes k6 !! Z.to_nat p = Some y4) by (rewrite (kt_procs _ _ _ _ H7), Happ, HUne, decide_True by done; done).
  assert (Hothers : forall q z, q <> p -> q <> pp -> process k6 q z <-> process k q z)
    by (intros q z Hn1 Hn2; apply (ktab_process_iff _ _ _ _ _ _ H7); by rewrite Happ, HUne, decide_False).
  assert (Hparent : forall z, process k pp z -> process k6 pp (set_p_children (erase_first p (p_children z)) z)).
  { intros z Hz. destruct (HUp z Hz) as [z' Ez]. destruct (HU _ _ Ez) as (_ & z0 & Hz0 & ->). rewrite (process_inj _ _ _ _ Hz0 Hz) in Ez.
    destruct Hz as (H0 & Hz & Hzu). split_and!; [done | | done]. by rewrite (kt_procs _ _ _ _ H7), Happ, Ez. }
  assert (Hback : forall z', process k6 pp z' -> exists z, process k pp z /\ z' = set_p_children (erase_first p (p_children z)) z).
  { intros z' (H0 & Hz & Hzu). rewrite (kt_procs _ _ _ _ H7), Happ in Hz by done. destruct (assoc U pp) as [z2|] eqn:E.
    - injection Hz as ->. by destruct (HU _ _ E) as (_ & ?).
    - rewrite decide_False in Hz by done. destruct (HUp z') as [? ?]; [by split_and! | congruence]. }
  constructor; try done.
  - by exists y4.
  - intros t Hin. destruct (Hgone t Hin) as [[H0 Hun]|?]; [left | by right]. split; [done|]. intros x. rewrite Ht7 by done. apply Hun.
  - intros t H0 Hnin. rewrite (kt_threads _ _ _ _ H7) by done. destruct (assoc T t) as [o|] eqn:E; [|done]. by destruct (HT t o E).
  - eapply groups_ok_same; [exact Hg3 | done|]. intros g q. unfold but, everyone.
    assert (Hk3 : forall z, q <> p -> process k3 q z <-> process k q z).
    { intros z Hne. rewrite (groups_only_process k2 k3) by done. apply (ktab_process_iff _ _ _ _ _ _ (proj1 H2)). simpl. by rewrite decide_False. }
    split.
    + intros [Hne (z & Hz & <-)]. split; [done|]. apply Hk3 in Hz; [|done]. destruct (decide (q = pp)) as [->|Hqp].
      * eexists. split; [by apply Hparent | done].
      * exists z. split; [by apply Hothers | done].
    + intros [_ (z & Hz & <-)]. assert (Hne : q <> p) by (intros ->; destruct Hz as (_ & Hz & Hzu); rewrite Hentry in Hz; injection Hz as <-; by apply Hzu).
      split; [done|]. destruct (decide (q = pp)) as [->|Hqp].
      * destruct (Hback z Hz) as (z0 & Hz0 & ->). exists z0. split; [by apply Hk3 | done].
      * exists z. split; [by apply Hk3, Hothers | done].
  - eapply ktab_processes_ok; [exact Hok | exact H7|]. intros q z. rewrite Happ. destruct (assoc U q) as [z2|] eqn:E.
    + intros [= <-]. destruct (HU q z2 E) as (-> & z0 & (H0 & Hz0 & _) & ->). simpl. rewrite (po_pid _ Hok _ _ Hz0). lia.
    + case_decide; [|done]. intros [= <-]. congruence.
  - apply H7.
Qed.

Section destroy_theory.
Variable page_pool_start : Z.
Hypothesis pool_in_ram : KERNEL_VA_BASE < page_pool_start <= RAM_end.
Context {F : Type} `{ProcFileLaws F}.

(** What is left of the memory system when the address space [r] is gone. *)
Record released (v v' : vm_state F) (lab : gmap Z (Z * list Z)) (used : gset Z) (r : Z) : Prop := {
  re_lock : vm_lock v' = vm_lock v;
  re_pages : exists used', destroyed page_pool_start (vm_pt v) lab used r (vm_pt v') used';
  re_ok : exists used', vm_ok page_pool_start (vm_pt v') (survivors lab r) used';
  re_spaces : forall q sp, is_root lab q -> q <> r -> space_rel (vm_pt v) q sp -> space_rel (vm_pt v') q sp;
  re_segs : forall q, q <> r -> smap v' !! q = smap v !! q;
  re_none : smap v' !! r = None;
  re_files : pf_ok (vm_fs v')
}.

Lemma wp_close_all fds : forall (f : F), pf_ok f -> wp (close_all fds) (fun _ f' => pf_ok f') f.
Proof.
  induction fds as [|fd fds IH]; intros f Hf; cbn [close_all]; [by apply wp_ret|]. apply wp_bind.
  destruct (fd <? 0); [by apply wp_ret, IH|]. eapply wp_mono; [by apply pf_close_law|]. intros r f' Hf'. by apply IH.
Qed.

Lemma xp_destroy_space X v lab used r m :
  vm_ok page_pool_start (vm_pt v) lab used -> is_root lab r -> vm_lock v = false -> vm_structs v = Some m -> pf_ok (vm_fs v) ->
  xp X (destroy_page_table r) (fun _ v' => released v v' lab used r) v.
Proof.
  intros Hok Hr Hl Em Hf. destruct (vo_pt _ _ _ _ Hok) as [fl Hi]. destruct (table_page _ pool_in_ram _ _ _ _ _ _ Hi Hr) as [Hram _].
  apply in_ram_nonzero in Hram. unfold destroy_page_table. rewrite (proj2 (Z.eqb_neq _ _) Hram).
  apply xp_bind, xp_hp. eapply hp_mono; [by apply (hp_free_struct v m)|]. intros [] v1 -> _. apply xp_pt.
  pose proof Hok as [_ Hc Ho Hp]. destruct (wp_destroy _ pool_in_ram (vm_pt v) lab fl used r Hi Hc Ho Hr Hp) as ([] & pt' & E & used' & HD).
  destruct (wp_destroy_vm _ pool_in_ram (vm_pt v) lab used r Hok Hr) as ([] & pt2 & E2 & used2 & Hok2 & Hsp).
  assert (pt2 = pt') as -> by congruence. exists tt, pt'. split; [exact E|]. constructor.
  - done.
  - by exists used'.
  - by exists used2.
  - done.
  - intros q Hq. unfold smap. simpl. rewrite Em. simpl. by rewrite lookup_delete_ne.
  - unfold smap. simpl. apply lookup_delete_eq.
  - done.
Qed.

(** The entry of a process that has ended. *)
Definition gone (y : pcb) : pcb := set_p_state PROC_UNUSED_STATE (set_p_child_waitq [] (set_p_tids [] y)).

(** Up to the closing of the files. *)
Lemma fe_destroy_files {A} k v p y (rest : stM (exec_state F) A) none Q :
  can_end k p y -> pf_ok (vm_fs v) ->
  (forall k' f, kstep k k' [(p, set_p_file_descriptors [] y)] [] -> pf_ok f -> fe rest Q (mkExec k' (set_fs f v))) ->
  fe (_ ← in_k (log_call (Tty_session_process_exit (p_pid y)));
      _ ← in_k (pcb_lock p);
      b ← in_k (kmalloc (4 * Z.of_nat (length (p_file_descriptors y))));
      if negb (b : bool) && negb (length (p_file_descriptors y) =? 0)%nat then none else
      _ ← in_k (upd_pcb p (set_p_file_descriptors (map (fun _ => -1) (p_file_descriptors y))));
      _ ← in_k (pcb_unlock p);
      _ ← in_vm (in_fs (close_all (p_file_descriptors y)));
      _ ← in_k (upd_pcb p (set_p_file_descriptors []));
      rest) Q (mkExec k v).
Proof.
  intros [Hq Hpo Hg Hch Hlk Hpl Hfd] Hf HQ. pose proof (qu_proc _ _ _ Hq) as (Hp & Hy & Hu). rewrite (qu_pid _ _ _ Hq).
  apply fe_bind, fe_k, hp_modify; [done|]. pose proof (kstep_calls _ _ _ _ (k_calls k ++ [Tty_session_process_exit p]) (kstep_refl k)) as H1.
  apply fe_bind, fe_k, (hp_pcb_lock k _ _ _ p y _ H1); [done | done | done|]. intros k2 H2.
  apply fe_bind, fe_grants. intros Hgr. apply fe_k, hp_fd_buffer; [done | lia | done|]. intros b h Hb.
  pose proof (kstep_heap _ _ _ _ h H2) as H3. clear H2.
  assert (Eb : negb b && negb (length (p_file_descriptors y) =? 0)%nat = false).
  { destruct Hb as [-> | E]; [done|]. assert (El : length (p_file_descriptors y) = 0%nat) by lia. rewrite El. by destruct b. }
  rewrite Eb. clear Eb Hb b.
  apply fe_bind, fe_k. eapply (hp_kpcb k _ _ _ p _ _ _ H3); [done | entry|]. intros k4 H4.
  apply fe_bind, fe_k. eapply (hp_kpcb k _ _ _ p _ _ _ H4); [done | entry|]. intros k5 H5.
  apply fe_bind, fe_vm, xp_fs. eapply wp_mono; [by apply wp_close_all|]. intros [] f Hf'.
  apply fe_bind, fe_k. eapply (hp_kpcb k _ _ _ p _ _ _ H5); [done | entry|]. intros k6 H6. apply HQ; [|done].
  eapply kstep_ext; [exact H6|]. intros i Hi. simpl. case_decide; [|done]. f_equal. destruct y. simpl in *. by subst.
Qed.

Lemma files_dropped k k6 p y :
  can_end k p y -> let y2 := set_p_file_descriptors [] y in kstep k k6 [(p, y2)] [] ->
  processes_ok k6 /\ process k6 p y2 /\ groups_ok everyone k6.
Proof.
  intros [Hq Hpo Hg Hch Hlk Hpl Hfd] y2 H7. pose proof (qu_proc _ _ _ Hq) as (Hp & Hy & Hu).
  assert (Hy6 : process k6 p y2) by (split_and!; [done | entry | done]). split_and!; [|done|].
  - eapply ktab_processes_ok; [exact Hpo | exact (proj1 H7)|]. intros q z E. simpl in E. case_decide; [|done]. injection E as <-. subst q. apply Hq.
  - eapply groups_ok_same; [exact Hg | apply H7|]. intros g q. unfold everyone. split; intros [_ (z & Hz & <-)]; (split; [done|]);
      (destruct (decide (q = p)) as [->|Hne]; [|exists z; split; [|done]; apply (ktab_process_iff _ _ _ _ _ _ (proj1 H7)); [simpl; by rewrite decide_False | done]]).
    + exists y2. split; [done|]. by rewrite (process_inj _ _ _ _ Hz (qu_proc _ _ _ Hq)).
    + exists y. split; [apply Hq|]. by rewrite (process_inj _ _ _ _ Hz Hy6).
Qed.

Lemma fe_destroy_body pd k v p y lab used m :
  can_end k p y -> vm_ok page_pool_start (vm_pt v) lab used -> is_root lab (p_ttbr0_el1_va y) -> vm_lock v = false ->
  vm_structs v = Some m -> pf_ok (vm_fs v) ->
  fe (destroy_body pd p) (fun _ s' => ended k (ex_k s') p y /\ released v (ex_vm s') lab used (p_ttbr0_el1_va y)) (mkExec k v).
Proof.
  intros Hce Hok Hr Hl Em Hf. pose proof Hce as [Hq Hpo Hg Hch Hlk Hpl Hfd]. pose proof (qu_proc _ _ _ Hq) as (Hp & Hy & Hu).
  pose proof (qu_pid _ _ _ Hq) as Hpid. pose proof (qu_ppid _ _ _ Hq) as Hpp. unfold destroy_body.
  apply fe_bind, fe_k, (hp_get_pcb _ y); [done | done|]. apply (fe_destroy_files k v p y); [done | done|]. intros k6 f H7 Hf'.
  set (y2 := set_p_file_descriptors [] y) in *. destruct (files_dropped k k6 p y Hce H7) as (Hok6 & Hy6 & Hg6). rewrite Hpid.
  apply fe_bind, fe_k, hp_wp. eapply wp_remove_from_pgrp; [done | done | done|]. intros k7 Hk7 Eh7 Hg7. split; [|done].
  assert (H07 : ktab k k7 [(p, y2)] []) by (eapply ktab_same; [exact (proj1 H7) | by apply groups_only_tab]).
  assert (Hq7 : quiet k7 p y2).
  { eapply quiet_step; [exact Hq | exact H07 | | by constructor | done | done | done].
    destruct Hk7 as (mg & hg & ->). simpl. by destruct H7 as (_ & _ & -> & _). }
  apply fe_bind, fe_k, (hp_get_pcb _ y2); [done | apply Hq7|].
  apply fe_bind, fe_k. eapply hp_mono; [by apply (hp_cleanup_threads (length (p_tids y2)) k7 p y2)|].
  intros [] k8 (y3 & Hc8 & S3 & Et3 & Hu3) _. pose proof (cl_tab _ _ _ _ _ Hc8) as (T & H8 & HT).
  apply fe_bind, fe_vm. eapply xp_mono; [by apply (xp_destroy_space False (set_fs f v) lab used (p_ttbr0_el1_va y) m)|].
  intros [] v2 Hrel. assert (Hrel' : released v v2 lab used (p_ttbr0_el1_va y)) by (destruct Hrel; by constructor). clear Hrel.
  apply fe_bind, fe_k. eapply (hp_kpcb k8 _ _ _ p y3 _ _ (kstep_refl k8)); [done | by rewrite (kt_procs _ _ _ _ H8) by done; simpl; rewrite decide_True|].
  intros k9 H9. change (set_p_state _ _) with (gone y3) in H9.
  assert (Hother9 : forall q z, q <> p -> process k9 q z <-> process k q z).
  { intros q z Hne. rewrite (ktab_process_iff _ _ _ _ q z (proj1 H9)), (ktab_process_iff _ _ _ _ q z H8), (ktab_process_iff _ _ _ _ q z H07);
      [done | simpl; by rewrite decide_False ..]. }
  apply fe_bind, fe_k. eapply hp_mono; [apply (hp_disown k9 p (gone y3))|].
  { rewrite (kt_plock _ _ _ _ (proj1 H9)), (kt_plock _ _ _ _ H8), (kt_plock _ _ _ _ H07). apply Hq. }
  { rewrite (kt_len _ _ _ _ (proj1 H9)), (kt_len _ _ _ _ H8), (kt_len _ _ _ _ H07). apply Hq. }
  { done. } { entry. } { simpl. rewrite (sp_pid _ _ S3). apply Hq. } { simpl. rewrite (sp_ppid _ _ S3). apply Hq. }
  { simpl. rewrite (sp_ppid _ _ S3). intros z Hz. apply Hpl, Hother9; done. }
  change (p_ppid (gone y3)) with (p_ppid y3). rewrite (sp_ppid _ _ S3). change (p_ppid y2) with (p_ppid y). intros [] k10 H10 _.
  assert (Hend : ended k k10 p y).
  { eapply (ended_intro k k6 k7 k8 k9 k10 p y y3 (gone y3)); try done. simpl. rewrite (sp_pid _ _ S3). apply Hq. }
  assert (Hp10 : k_processes k10 !! Z.to_nat p = Some (gone y3)).
  { destruct H10 as [(z & _ & H10) | [_ ->]]; [entry; entry | entry]. }
  apply fe_bind, fe_k, hp_wp, wp_get_pcb_by_pid; [apply (en_ok _ _ _ _ Hend) | apply (en_ok _ _ _ _ Hend) | |];
    intros; (split; [|done]); apply fe_bind, fe_k, (hp_get_pcb _ (gone y3)); try done;
    change (p_children (gone y3)) with (p_children y3); rewrite (sp_children _ _ S3); change (p_children y2) with (p_children y); rewrite Hch;
    apply fe_bind; cbn [length release_children]; apply fe_bind, fe_k, (hp_get_pcb _ (gone y3)); try done;
    change (p_children (gone y3)) with (p_children y3); rewrite (sp_children _ _ S3); change (p_children y2) with (p_children y); rewrite Hch;
    apply fe_ret; cbn [last]; by apply fe_ret.
Qed.

Lemma fe_proc_destroy k v p y lab used m :
  can_end k p y -> vm_ok page_pool_start (vm_pt v) lab used -> is_root lab (p_ttbr0_el1_va y) -> vm_lock v = false ->
  vm_structs v = Some m -> pf_ok (vm_fs v) ->
  fe (proc_destroy p) (fun _ s' => ended k (ex_k s') p y /\ released v (ex_vm s') lab used (p_ttbr0_el1_va y)) (mkExec k v).
Proof. exact (fe_destroy_body (proc_destroy_n 256) k v p y lab used m). Qed.

End destroy_theory.

(** ** Theory: waiting *)

Definition waitable (flags : Z) (z : pcb) : bool :=
  bool_decide (p_state z = PROC_ZOMBIE_STATE) || (has flags WUNTRACED && p_wait_stop_pending z) || (has flags WCONTINUED && p_wait_cont_pending z).

(** [c], now [z], is the child that a call of the process [y] is to return. *)
Definition waits_on (k : kstate) (y : pcb) (pid flags c : Z) (z : pcb) : Prop :=
  if pid <? 0 then
    child_matches_wait pid z = true /\ exists l1 l2, p_children y = l1 ++ c :: l2 /\
      forall q z', q ∈ l1 -> process k q z' -> child_matches_wait pid z' && waitable flags z' = false
  else c = pid /\ p_ppid z = p_pid y.

Lemma wp_can_wait k c z flags (Q : bool -> kstate -> Prop) :
  process k c z -> (p_state z = PROC_ZOMBIE_STATE -> Q true k) -> (waitable flags z = false -> Q false k) ->
  p_state z = PROC_ZOMBIE_STATE \/ waitable flags z = false -> wp (can_wait_on_child c flags) Q k.
Proof.
  intros (Hc & Hz & _) Ht Hf Hcase. unfold can_wait_on_child. apply wp_bind, (wp_get_pcb _ z); [done | done|].
  case_bool_decide as E; [by apply wp_ret, Ht|]. destruct Hcase as [?|Hw]; [done|]. pose proof (Hf Hw) as HQ. unfold waitable in Hw.
  rewrite bool_decide_false in Hw by done. cbn [orb] in Hw. apply orb_false_iff in Hw as [-> ->]. by apply wp_ret.
Qed.

Lemma wp_find_waitable k c z pid flags l2 l1 :
  processes_ok k -> process k c z -> p_state z = PROC_ZOMBIE_STATE -> child_matches_wait pid z = true ->
  (forall q z', q ∈ l1 -> process k q z' -> child_matches_wait pid z' && waitable flags z' = false) ->
  wp (find_waitable_child (l1 ++ c :: l2) pid flags) (fun r k' => r = Some c /\ k' = k) k.
Proof.
  intros Hok Hc Hst Hm. induction l1 as [|q l1 IH]; intros Hl1; cbn [app find_waitable_child].
  - apply wp_bind, wp_get_process; [done | | intros Hno; by destruct (Hno z)]. intros _ _.
    apply wp_bind, (wp_get_pcb _ z); [apply Hc | apply Hc|]. rewrite Hm. cbn [negb].
    apply wp_bind, (wp_can_wait k c z); [done | intros _; by apply wp_ret | | by left].
    unfold waitable. by rewrite bool_decide_true by done.
  - assert (Hrest : wp (find_waitable_child (l1 ++ c :: l2) pid flags) (fun r k' => r = Some c /\ k' = k) k)
      by (apply IH; intros q' z' Hq'; apply Hl1; by right).
    apply wp_bind, wp_get_process; [done | | done]. intros w Hw.
    apply wp_bind, (wp_get_pcb _ w); [apply Hw | apply Hw|]. specialize (Hl1 q w ltac:(left) Hw).
    destruct (child_matches_wait pid w); cbn [negb andb] in *; [|done].
    apply wp_bind, (wp_can_wait k q w); [done | | done | by right]. intros E. unfold waitable in Hl1. by rewrite bool_decide_true in Hl1.
Qed.

Lemma wp_has_child k c z pid l1 l2 :
  processes_ok k -> process k c z -> child_matches_wait pid z = true ->
  wp (has_wait_child (l1 ++ c :: l2) pid) (fun r k' => r = true /\ k' = k) k.
Proof.
  intros Hok Hc Hm. induction l1 as [|q l1 IH]; cbn [app has_wait_child].
  - apply wp_bind, wp_get_process; [done | | intros Hno; by destruct (Hno z)]. intros _ _.
    apply wp_bind, (wp_get_pcb _ z); [apply Hc | apply Hc|]. rewrite Hm. by apply wp_ret.
  - apply wp_bind, wp_get_process; [done | | done]. intros w Hw.
    apply wp_bind, (wp_get_pcb _ w); [apply Hw | apply Hw|]. destruct (child_matches_wait pid w); [by apply wp_ret | done].
Qed.

(** The search ends at once with the child. *)
Lemma runs_wait deliver n me k p t y pid flags c z :
  processes_ok k -> process k p y -> process k c z -> p_state z = PROC_ZOMBIE_STATE -> waits_on k y pid flags c z ->
  runs (fun r k' => r = inr c /\ k' = k) me (if pid <? 0 then wait_any deliver n p t pid flags else wait_one deliver n p t pid flags) k.
Proof.
  intros Hok Hp Hc Hst Hon. unfold waits_on in Hon. destruct (pid <? 0).
  - destruct Hon as (Hm & l1 & l2 & El & Hl1). unfold wait_any. apply runs_step, wp_bind, (wp_get_pcb _ y); [apply Hp | apply Hp|]. rewrite El.
    apply wp_bind. eapply wp_mono; [by apply (wp_has_child k c z)|]. intros r k1 [-> ->]. cbn [negb].
    apply wp_bind. eapply wp_mono; [by apply (wp_find_waitable k c z)|]. intros r k1 [-> ->]. apply wp_ret. by apply runs_ret.
  - destruct Hon as [-> Epp]. unfold wait_one. apply runs_step, wp_bind, wp_get_process; [done | | intros Hno; by destruct (Hno z)]. intros _ _.
    apply wp_bind, (wp_get_pcb _ z); [apply Hc | apply Hc|]. apply wp_bind, (wp_get_pcb _ y); [apply Hp | apply Hp|].
    rewrite Epp, Z.eqb_refl. cbn [negb]. apply wp_bind, (wp_can_wait k pid z); [done | | | by left].
    + intros _. apply wp_ret. by apply runs_ret.
    + unfold waitable. by rewrite bool_decide_true.
Qed.

Lemma bind_returned {S A B} (m : prog S A) (f : A -> prog S B) me s a me' s' :
  m me s = Returned a me' s' -> (m ≫= f) me s = f a me' s'.
Proof. intros E. unfold mbind, prog_bind. by rewrite E. Qed.

Section wait_call.
Variable page_pool_start : Z.
Hypothesis pool_in_ram : KERNEL_VA_BASE < page_pool_start <= RAM_end.
Context {F : Type} `{ProcFileLaws F}.


End wait_call.

(** ** An example *)

(** A file system without descriptors. *)
Definition demo_proc_files : ProcFiles Z := {| pf_close := fun _ => mret 0; pf_add_reference := fun _ => mret 0 |}.
#[local] Existing Instance demo_proc_files.
Definition demo_proc_laws : ProcFileLaws Z.
Proof. refine {| pf_ok := fun _ => True |}; intros fd f Hf; by apply wp_ret. Defined.
#[local] Existing Instance demo_proc_laws.

(** Process 1 runs, its child 2 has ended. *)
Definition demo_wait_process (root : Z) (i : nat) : pcb :=
  match i with
  | 1%nat => set_p_children [2] (demo_pcb 1 0 PROC_RUNNING_STATE [1] [] 1 0)
  | 2%nat => set_p_num_zombie_threads 1 (set_p_ttbr0_el1_va root (demo_pcb 2 1 PROC_ZOMBIE_STATE [2] [] 0 0))
  | _ => demo_process i
  end.

Definition demo_wait (root : Z) : kstate :=
  mkK [demo_tcb 0 0 THREAD_READY (-2); demo_tcb 1 1 THREAD_RUNNING (-2); demo_tcb 2 2 THREAD_ZOMBIE (-2)]
    [[]; [0]; []] [0; 0; 0] 0 (map (demo_wait_process root) (seq 0 256)) {[ 0 := mkPgrp [0; 1; 2] 3 0 ]} [mkCpu false (Some 1) 0; mkCpu false None 0]
    false false false (fun _ => true) (fun _ => None) [].

Lemma demo_wait_lookup root p y : k_processes (demo_wait root) !! p = Some y -> y = demo_wait_process root p /\ (p < 256)%nat.
Proof.
  change (k_processes (demo_wait root)) with (demo_wait_process root <$> seq 0 256). rewrite list_lookup_fmap.
  destruct (seq 0 256 !! p) as [i|] eqn:E; [|done]. apply lookup_seq in E as [-> Hi]. by intros [= <-].
Qed.

Lemma demo_wait_iff root pid y : process (demo_wait root) pid y <-> y = demo_wait_process root (Z.to_nat pid) /\ 0 <= pid < 3.
Proof.
  split.
  - intros (H0 & Hy & Hu). apply demo_wait_lookup in Hy as [-> Hlt]. split; [done|].
    assert (Hn : (Z.to_nat pid < 3)%nat) by (destruct (Z.to_nat pid) as [|[|[|q]]]; [lia..|]; by destruct Hu). lia.
  - intros [-> Hp]. assert (Hc : pid = 0 \/ pid = 1 \/ pid = 2) by lia. destruct Hc as [->|[->| ->]]; (split_and!; [lia | done | done]).
Qed.

Lemma demo_wait_groups root : groups_ok everyone (demo_wait root).
Proof.
  assert (E : k_pgrps (demo_wait root) = {[ 0 := mkPgrp [0; 1; 2] 3 0 ]}) by done.
  constructor; unfold in_group; rewrite E.
  - intros g grp [<- <-]%lookup_singleton_Some. split_and!; [done | | done | done]. by apply (bool_decide_unpack _).
  - intros g pid. unfold everyone. split.
    + intros (grp & [<- <-]%lookup_singleton_Some & Hin). split; [done|]. exists (demo_wait_process root (Z.to_nat pid)). rewrite demo_wait_iff.
      cbn [g_pids] in Hin. rewrite !elem_of_cons, elem_of_nil in Hin. destruct Hin as [->|[->|[->|[]]]]; (split; [split; [done | lia] | done]).
    + intros [_ (y & [-> Hp]%demo_wait_iff & <-)]. exists (mkPgrp [0; 1; 2] 3 0).
      assert (Hc : pid = 0 \/ pid = 1 \/ pid = 2) by lia.
      destruct Hc as [->|[->| ->]]; (split; [done | cbn [g_pids]; rewrite !elem_of_cons; auto]).
Qed.

Lemma demo_can_end root : can_end (demo_wait root) 2 (demo_wait_process root 2).
Proof.
  assert (Hok : processes_ok (demo_wait root)).
  { constructor; [done | done|]. intros p y [-> _]%demo_wait_lookup. by repeat (destruct p as [|p]; try done). }
  constructor; [|done | apply demo_wait_groups | done | done | | done].
  - constructor; try done.
    + intros z _ Hz _. simpl in Hz. by injection Hz as <-.
    + apply NoDup_singleton.
    + intros t x Ht (_ & Hx & _). apply list_elem_of_singleton in Ht as ->. simpl in Hx. by injection Hx as <-.
  - intros z [-> _]%demo_wait_iff. done.
Qed.


(** ** A wake-up that is lost *)

(** Process 1 runs on CPU 0, its child 2 on CPU 1. *)
Definition demo_lost : kstate :=
  mkK [demo_tcb 0 0 THREAD_READY (-2); demo_tcb 1 1 THREAD_RUNNING (-2); demo_tcb 2 2 THREAD_RUNNING (-2)]
    [[]; [0]; []] [0; 0; 0] 0 (<[1%nat := set_p_children [2] (demo_pcb 1 0 PROC_RUNNING_STATE [1] [] 1 0)]> (map demo_process (seq 0 256)))
    ∅ [mkCpu false (Some 1) 0; mkCpu false (Some 2) 0] false false false (fun _ => true) (fun _ => None) [].

(** The thread waits for a child that has ended, is in no queue, and no thread
    of the child is left to wake it. *)
Definition stuck (t c : Z) (k : kstate) : Prop :=
  exists x z, k_threads k !! Z.to_nat t = Some x /\ k_processes k !! Z.to_nat c = Some z /\
    t_state x = THREAD_BLOCKED_INTERRUPTABLE /\ t_waiting_for_pid x = c /\ (t ∉ mjoin (k_ready_queues k)) /\
    p_state z = PROC_ZOMBIE_STATE /\ p_ppid z = t_pcb x /\ Forall (fun u => tkind k u = Some KZombie) (p_tids z).

Definition stuck_b (t c : Z) (k : kstate) : bool :=
  match k_threads k !! Z.to_nat t, k_processes k !! Z.to_nat c with
  | Some x, Some z =>
      bool_decide (t_state x = THREAD_BLOCKED_INTERRUPTABLE) && (t_waiting_for_pid x =? c) && bool_decide (t ∉ mjoin (k_ready_queues k)) &&
      bool_decide (p_state z = PROC_ZOMBIE_STATE) && (p_ppid z =? t_pcb x) && forallb (fun u => bool_decide (tkind k u = Some KZombie)) (p_tids z)
  | _, _ => false
  end.

Lemma stuck_b_spec t c k : stuck_b t c k = true -> stuck t c k.
Proof.
  unfold stuck_b, stuck. destruct (k_threads k !! _) as [x|]; [|done]. destruct (k_processes k !! _) as [z|]; [|done].
  rewrite !andb_true_iff, !bool_decide_eq_true, !Z.eqb_eq, forallb_forall. intros (((((H1 & H2) & H3) & H4) & H5) & H6). exists x, z. split_and!; try done.
  apply Forall_forall. intros u Hu. apply (bool_decide_eq_true_1 _), H6. by apply list_elem_of_In.
Qed.

