(* ===== verification/Forking.v ===== *)
(** * Fork

    [fork] of kernel/scheduler/process.c, from the tables of the kernel to the
    pages: the call creates a process, gives it a copy of the address space of
    its parent and a copy of the trap frame in which the result is 0, shares
    the open files, and makes its thread ready. *)

From S2P Require Import Prelude Errors Bytes KString Services PageAlloc PageTable Cow Fork Destroy AddressSpace VmRegion DemandPaging ExecStack ExecImage.
From S2P Require Import Layout Programs Tasks Sched Threads Signals Exec Process ProcLife ProcTheory ProcEnd.

(** ** Theory: the trap frame *)

(** A frame in one page at [p]: the words [ws] are stored. *)
Section frame.
Variables (sp : space) (frame_va p : Z) (pg : apage) (m0 : Z -> Z) (ws : list (Z * Z)).
Hypothesis Hframe : frame_ok frame_va.
Hypothesis Hp : p mod 4096 = 0.
Hypothesis Hsp : sp (indices frame_va) = Some pg.
Hypothesis Hwords : forall i, index_ok i -> ap_words pg i = m0 (p + 8 * i).
Hypothesis Hws : forall i v, (i, v) ∈ ws -> 0 <= i < FRAME_WORDS.

Definition frame_mem : Z -> Z := writes (p + frame_va mod 4096) ws m0.
Definition frame_space : space := set_space sp (indices frame_va) (mkAPage (ap_write pg) (fun i => frame_mem (p + 8 * i))).

Let off := frame_va mod 4096.

Lemma frame_facts : 0 <= frame_va < 2 ^ 48 /\ 0 <= off /\ off + 8 * FRAME_WORDS <= 4096 /\ off = 8 * (off / 8).
Proof.
  clear -Hframe. destruct Hframe as (Hr & H8 & Hpg). pose proof (Z.mod_pos_bound frame_va 4096 ltac:(lia)). unfold off.
  unfold kernel_stack_base, PROC_KERNEL_STACK_SIZE, PROC_KERNEL_STACK_TOP in Hr. split_and!; [lia | lia | lia | lia | Z.to_euclidean_division_equations; lia].
Qed.

Lemma frame_outside : outside_kept p m0 frame_mem.
Proof.
  destruct frame_facts as (_ & Ho & Hend & H8). unfold FRAME_WORDS in Hend. intros a Ha. apply writes_outside. intros i v Hi ->.
  apply Hws in Hi. unfold FRAME_WORDS in Hi. fold off in Ha. replace (p + off + 8 * i) with (p + 8 * (off / 8 + i)) in Ha by lia.
  rewrite word_of_idx in Ha; [done | lia].
Qed.

Lemma frame_load k :
  0 <= k < FRAME_WORDS ->
  space_load frame_space (frame_va + 8 * k) = Some (default (m0 (p + off + 8 * k)) (last_write ws k)).
Proof.
  intros Hk. destruct frame_facts as (Hr & Ho & Hend & H8). unfold FRAME_WORDS in *. pose proof (Z.div_mod frame_va 4096 ltac:(lia)) as Hdm. fold off in Hdm.
  assert (Hdiv : (frame_va + 8 * k) / 4096 = frame_va / 4096) by (symmetry; apply (Z.div_unique_pos _ 4096 _ (off + 8 * k)); lia).
  assert (Hmod : (frame_va + 8 * k) mod 4096 = off + 8 * k) by (symmetry; apply (Z.mod_unique_pos _ 4096 (frame_va / 4096)); lia).
  destruct Hframe as (Hks & _). unfold kernel_stack_base, PROC_KERNEL_STACK_SIZE, PROC_KERNEL_STACK_TOP in Hks.
  unfold space_load, frame_space, set_space. rewrite decide_True by (apply same_page; lia). cbn [ap_words]. f_equal. rewrite Hmod.
  replace ((off + 8 * k) / 8) with (off / 8 + k) by (Z.to_euclidean_division_equations; lia). unfold frame_mem. fold off.
  replace (p + 8 * (off / 8 + k)) with (p + off + 8 * k) by lia. apply writes_at.
Qed.

Lemma frame_rest a :
  0 <= a < 2 ^ 48 -> ~ frame_va <= a < frame_va + 8 * FRAME_WORDS -> space_byte frame_space a = space_byte sp a.
Proof.
  intros Ha Hn. destruct frame_facts as (Hr & Ho & Hend & H8). unfold FRAME_WORDS in *.
  unfold space_byte, frame_space, set_space. case_decide as E; [|done]. rewrite E, Hsp. f_equal. unfold page_byte. cbn [ap_words].
  set (o := a mod 4096). pose proof (Z.mod_pos_bound a 4096 ltac:(lia)) as Hob. fold o in Hob.
  assert (Hi : index_ok (o / 8)) by (unfold index_ok; Z.to_euclidean_division_equations; lia).
  rewrite Hwords by done. f_equal. apply writes_outside. intros i v Hin. apply Hws in Hin. unfold FRAME_WORDS in Hin. fold off.
  apply same_page in E; [|done..]. intros Heq. apply Hn. pose proof (Z.div_mod a 4096 ltac:(lia)). pose proof (Z.div_mod frame_va 4096 ltac:(lia)).
  fold off in H0. fold o in H. assert (o / 8 = off / 8 + i) by lia. pose proof (Z.div_mod o 8 ltac:(lia)). pose proof (Z.mod_pos_bound o 8 ltac:(lia)). lia.
Qed.

End frame.

(** ** Theory: memory *)

Section fork_memory.
Variable page_pool_start : Z.
Hypothesis pool_in_ram : KERNEL_VA_BASE < page_pool_start <= RAM_end.

(** Destroying an address space whose pages are its own leaves the counts of
    the other pages and the other tables alone. *)
Lemma wp_destroy_own s lab used t :
  vm_ok page_pool_start s lab used -> is_root lab t -> low s lab ->
  (forall ix, ix_ok ix -> desc_valid (leaf s (t, ix)) = true -> pte_is_writable (leaf s (t, ix)) = true) ->
  wp (destroy_page_table_level 3 t) (fun _ s' => exists used', vm_ok page_pool_start s' (survivors lab t) used' /\
    low s' (survivors lab t) /\ (forall q sp, is_root lab q -> q <> t -> space_rel s q sp -> space_rel s' q sp) /\
    forall c x, lab !! c = Some x -> fst x <> t -> forall i, index_ok i -> mem s' (c + 8 * i) = mem s (c + 8 * i)) s.
Proof.
  intros Hok Ht Hlow Hown. pose proof Hok as [[fl Hi] Hc Ho Hp].
  destruct (wp_destroy _ pool_in_ram s lab fl used t Hi Hc Ho Ht Hp) as ([] & s' & E & used' & HD).
  destruct (wp_destroy_vm _ pool_in_ram s lab used t Hok Ht) as ([] & s2 & E2 & used2 & Hok2 & Hsp).
  assert (s2 = s') as -> by congruence. exists tt, s'. split; [done|]. exists used2. split_and!; [done | | done |].
  - intros x d pg (Hx & Hv & Hd) Hpg. rewrite (de_leaf _ _ _ _ _ _ _ HD) in Hv, Hd by done.
    apply survivors_slot in Hx as [Hx Hne]. assert (Hm : maps s lab x d) by by split_and!.
    destruct (ci_data _ _ _ Hc _ _ Hm) as [Hu Hl].
    destruct (de_other _ _ _ _ _ _ _ HD d Hu Hl) as (_ & _ & Epg); [|apply (Hlow x d); [done | congruence]].
    intros ix Hmt. pose proof Hmt as ((_ & Hlen & Hix) & Hvt & _). 
    pose proof (Hown ix (conj Hlen Hix) Hvt) as Hw. rewrite (ci_excl _ _ _ Hc (t, ix) x d Hmt Hm) in Hw by (intros <-; done). done.
  - intros c [q p] Hc' Hne i Hx. apply (de_words _ _ _ _ _ _ _ HD c (q, p)); [by apply survivors_lookup | done].
Qed.

Context {F : Type}.
Implicit Types (v : vm_state F).

(** The state when the call starts: [src] is the table of the parent. *)
Variables (s0 : vm_state F) (lab0 : gmap Z (Z * list Z)) (used0 : gset Z) (src : Z) (spo : space) (segs0 : list mem_segment).
Hypothesis Hok0 : vm_ok page_pool_start (vm_pt s0) lab0 used0.
Hypothesis Hlock0 : vm_lock s0 = false.
Hypothesis Hstructs0 : forall t, is_Some (smap s0 !! t) -> is_root lab0 t.
Hypothesis Hlow0 : low (vm_pt s0) lab0.
Hypothesis Hsrc : is_root lab0 src.
Hypothesis Hspo : space_rel (vm_pt s0) src spo.
Hypothesis Hsegs0 : smap s0 !! src = Some segs0.
(** The kernel stack of the parent is mapped, writable, and not for user mode. *)
Hypothesis Hkstack : forall va, kernel_stack_base <= va < PROC_KERNEL_STACK_TOP ->
  (exists pg, spo (indices va) = Some pg /\ ap_write pg = true) /\ pte_is_user (leaf (vm_pt s0) (src, indices va)) = false.

Abbreviation loading := (loading page_pool_start s0 lab0).

(** Every address space of the start is as it was, and so are its regions. *)
Record kept v : Prop := {
  kp_lock : vm_lock v = false;
  kp_space : forall q sp, is_root lab0 q -> space_rel (vm_pt s0) q sp -> space_rel (vm_pt v) q sp;
  kp_segs : exists m, vm_structs v = Some m /\ forall q, is_root lab0 q -> m !! q = smap s0 !! q
}.

(** The new table [t] with the pages [sp], those of the kernel stack its own. *)
Record fork_mem v (t : Z) (sp : space) : Prop := {
  fm_kept : kept v;
  fm_new : ~ is_root lab0 t;
  fm_ok : exists lab used, vm_ok page_pool_start (vm_pt v) lab used /\ is_root lab t /\ forall q, is_root lab0 q -> is_root lab q;
  fm_self : space_rel (vm_pt v) t sp;
  fm_stack : forall va pg, kernel_stack_base <= va < PROC_KERNEL_STACK_TOP -> sp (indices va) = Some pg ->
    pte_is_writable (leaf (vm_pt v) (t, indices va)) = true
}.

Lemma loading_kept t v sp segs : loading t v sp segs -> kept v.
Proof.
  intros [L N [_ _ _ Hother _] (m & Em & _ & Hm)]. assert (Hne : forall q, is_root lab0 q -> q <> t) by (intros q Hq ->; done).
  constructor; [done | intros q sp' Hq Hs; by apply Hother; [|apply Hne|]|]. exists m. split; [done|]. intros q Hq. apply Hm. by apply Hne.
Qed.

Lemma loading_fork_mem t v sp segs : loading t v sp segs -> fork_mem v t sp.
Proof.
  intros Hl. pose proof (loading_kept _ _ _ _ Hl) as Hk. destruct Hl as [L N [(lab & used & Hok & Ht & Hsub & _) Hself Hown _ _] _].
  constructor; [done | done | | done |].
  - exists lab, used. split_and!; [done | done|]. intros q Hq. by eapply lookup_weaken.
  - intros va pg Hva Hsp. destruct (Hown (indices va) pg) as [_ ?]; [split; [done | apply indices_ok] | done | done].
Qed.

(** *** The first table of the child *)

Lemma main_frame_ok : frame_ok main_frame_va.
Proof. split_and!; vm_compute; done. Qed.

Lemma main_frame_range func args start i w : (i, w) ∈ main_frame start func args -> 0 <= i < FRAME_WORDS.
Proof.
  intros Hin. assert (Hall : Forall (fun w => 0 <= fst w < FRAME_WORDS) (main_frame start func args))
    by (vm_compute; repeat (constructor; [done|]); constructor).
  rewrite Forall_forall in Hall. by apply (Hall (i, w)).
Qed.

Lemma xp_mapped_page X t v sp segs va pg :
  loading t v sp segs -> sp (indices va) = Some pg -> 0 <= va < 2 ^ 48 ->
  xp X (in_pt (pt_get_mapped_page t (align_down va))) (fun page v' => v' = v /\ page = desc_table (leaf (vm_pt v) (t, indices va)) /\ page <> 0) v.
Proof.
  intros Hl Hsp Hva. assert (Hx : ix_ok (indices va)) by (split; [done | apply indices_ok]).
  destruct (built_page _ pool_in_ram _ _ _ _ _ _ _ (lg_built _ _ _ _ _ _ _ Hl) Hx Hsp) as (Hr & _ & Hv & _).
  eapply (xp_eq _ _ (desc_table (leaf (vm_pt v) (t, indices va)))).
  - unfold in_pt, lift. rewrite mapped_page_eq; rewrite ?indices_align_down; [by destruct v | | done | done | apply align_down_page].
    by eapply (loading_nonzero _ pool_in_ram).
  - split_and!; [done | done | by apply in_ram_nonzero].
Qed.

Lemma xp_write_main X t v sp segs pg func args start :
  loading t v sp segs -> sp (indices main_frame_va) = Some pg ->
  xp X (in_pt (write_words (desc_table (leaf (vm_pt v) (t, indices main_frame_va)) + (main_frame_va - align_down main_frame_va)) (main_frame start func args)))
    (fun _ v' => vm_fs v' = vm_fs v /\ exists sp', loading t v' sp' segs) v.
Proof.
  intros Hl Hsp. pose proof (lg_built _ _ _ _ _ _ _ Hl) as Hb. assert (Hx : ix_ok (indices main_frame_va)) by (split; [done | apply indices_ok]).
  destruct (built_page _ pool_in_ram _ _ _ _ _ _ _ Hb Hx Hsp) as (Hr & Hal & Hv & Hw).
  replace (main_frame_va - align_down main_frame_va) with (main_frame_va mod 4096) by (vm_compute; done).
  apply xp_pt, wp_write_words. split; [done|]. eexists. destruct Hl as [L N _ G]. constructor; [done | done | | done].
  eapply (built_write _ pool_in_ram); [done | done | done|].
  apply (frame_outside main_frame_va); [apply main_frame_ok|]. intros i w. apply main_frame_range.
Qed.

(** [t] is still there, and [c] is a new table without entries. *)
Record copying v (t c : Z) (sp : space) : Prop := {
  cp_kept : kept v;
  cp_t : ~ is_root lab0 t /\ space_rel (vm_pt v) t sp;
  cp_c : (~ is_root lab0 c) /\ c <> t /\ forall i, index_ok i -> mem (vm_pt v) (c + 8 * i) = 0;
  cp_ok : exists lab used, vm_ok page_pool_start (vm_pt v) lab used /\ is_root lab t /\ is_root lab c /\ lab0 ⊆ lab /\ low (vm_pt v) lab;
  cp_own : forall ix, ix_ok ix -> desc_valid (leaf (vm_pt v) (t, ix)) = true -> pte_is_writable (leaf (vm_pt v) (t, ix)) = true;
  cp_leaf : forall q ix, is_root lab0 q -> ix_ok ix -> leaf (vm_pt v) (q, ix) = leaf (vm_pt s0) (q, ix)
}.

Lemma built_own t v sp segs ix :
  loading t v sp segs -> ix_ok ix -> desc_valid (leaf (vm_pt v) (t, ix)) = true -> pte_is_writable (leaf (vm_pt v) (t, ix)) = true.
Proof.
  intros [_ _ [_ Hself Hown _ _] _] Hix Hv. specialize (Hself ix Hix). destruct (sp ix) as [pg|] eqn:E; [by apply (Hown ix pg) | congruence].
Qed.

Lemma xp_alloc_copy X t v sp segs :
  loading t v sp segs ->
  xp X (in_pt (alloc_page page_pool_start)) (fun c v' =>
    (vm_fs v' = vm_fs v /\ vm_heap v' = vm_heap v) /\ ((c = 0 /\ fork_mem v' t sp /\ exhausted page_pool_start (vm_pt v')) \/ (c <> 0 /\ copying v' t c sp))) v.
Proof.
  intros Hl. pose proof (loading_kept _ _ _ _ Hl) as Hk. pose proof (loading_fork_mem _ _ _ _ Hl) as Hfm.
  pose proof Hl as [L N [(lab & used & Hok & Ht & Hsub & Hlow) Hself Hown Hother Hleaf] _].
  assert (Hne : forall q, is_root lab0 q -> q <> t) by (intros q Hq ->; done).
  destruct (vo_pt _ _ _ _ Hok) as [fl Hi]. apply xp_pt. eapply wp_mono; [apply (wp_alloc_page _ pool_in_ram (vm_pt v) fl used), Hi|].
  intros c p1 [(-> & Ha & Em & Eg & -> & Ef & _) | (Hc0 & Hcu & Hcr & Hca & Hfr & fl' & Ha)]; (split; [done|]).
  - left. assert (T : table_step page_pool_start (vm_pt v) p1 lab lab used used).
    { eapply alloc_table_step; [done | done | done | by rewrite Em | | by rewrite Eg]. intros. unfold page_struct. by rewrite Eg. }
    destruct (vm_ok_table_step _ _ _ _ _ _ _ Hok T) as [Hok1 HR]. split_and!; [done | | by split; [apply Ha|]].
    destruct Hk as [K1 K2 K3]. constructor; [constructor; [done | | done] | done | | by apply HR |].
    + intros q sp' Hq Hs. apply HR; [by eapply lookup_weaken | by apply K2].
    + exists lab, used. split_and!; [done | done|]. intros q Hq. by eapply lookup_weaken.
    + intros va pg Hva Hsp. simpl. unfold leaf. rewrite Em. by apply (fm_stack _ _ _ Hfm va pg).
  - right. split; [done|]. destruct (new_root_vm _ pool_in_ram (vm_pt v) p1 lab used c fl') as (Hok1 & Hlc & Hz & Hlf & HR); try done.
    assert (Hct : c <> t) by (intros ->; unfold is_root in Ht; congruence).
    destruct Hk as [K1 K2 K3]. constructor.
    + constructor; [done | | done]. intros q sp' Hq Hs. apply HR; [by eapply lookup_weaken | by apply K2].
    + split; [done | by apply HR].
    + split_and!; [|done | done]. intros Hc. pose proof (lookup_weaken _ _ _ _ Hc Hsub) as Hc'. unfold is_root in Hc'. congruence.
    + exists (<[c := (c, [])]> lab), ({[c]} ∪ used). split_and!; [done | | apply lookup_insert_eq | |].
      * unfold is_root. by rewrite lookup_insert_ne.
      * etransitivity; [done|]. by apply insert_subseteq.
      * eapply (low_new_root page_pool_start pool_in_ram); try done. by apply Hlow.
    + intros ix Hix. simpl. rewrite Hlf by by split. by eapply built_own.
    + intros q ix Hq Hix. simpl. rewrite Hlf; [by apply Hleaf; [|apply Hne|]|]. split; [by eapply lookup_weaken | done].
Qed.

Lemma copying_fork_mem v t c sp : copying v t c sp -> fork_mem v t sp.
Proof.
  intros [Hk [Htn Hself] _ (lab & used & Hok & Ht & _ & Hsub & _) Hown _]. constructor; [done | done | | done |].
  - exists lab, used. split_and!; [done | done|]. intros q Hq. by eapply lookup_weaken.
  - intros va pg Hva Hsp. assert (Hx : ix_ok (indices va)) by (split; [done | apply indices_ok]).
    specialize (Hself _ Hx). rewrite Hsp in Hself. by apply Hown; [|apply Hself].
Qed.

Lemma xp_copy_regions X t c v sp :
  copying v t c sp ->
  xp X (copy_page_table_struct src c) (fun r v' => vm_fs v' = vm_fs v /\ copying v' t c sp /\
    ((r = SUCCESS /\ segments v' c = segs0) \/ (r <> SUCCESS /\ refusal v))) v.
Proof.
  intros [[K1 K2 (m & Em & Hm)] Ht (Hcn & Hct & Hz) Hok Hown Hleaf]. assert (Hne : src <> c) by (by intros ->).
  apply xp_hp. eapply hp_mono; [by apply (hp_copy_page_table_struct v src c)|]. intros r v' (m' & [h ->] & Hm' & Hres) _.
  assert (Esrc : smap v !! src = Some segs0) by (unfold smap; rewrite Em; simpl; by rewrite Hm).
  split_and!; [done | |].
  - constructor; [constructor; [done | done|] | done | done | done | done | done].
    exists m'. split; [done|]. intros q Hq. rewrite Hm' by (intros ->; done). unfold smap. rewrite Em. simpl. by apply Hm.
  - destruct Hres as [(-> & segs & E & Ec) | (-> & [E|Hr] & _)].
    + left. split; [done|]. unfold segments, smap. simpl. rewrite Ec. simpl. congruence.
    + congruence.
    + by right.
Qed.

(** The first table of the child is gone; [c] has the regions of the parent. *)
Record blank v (c : Z) : Prop := {
  bl_kept : kept v;
  bl_c : (~ is_root lab0 c) /\ forall i, index_ok i -> mem (vm_pt v) (c + 8 * i) = 0;
  bl_ok : exists lab used, vm_ok page_pool_start (vm_pt v) lab used /\ is_root lab c /\ low (vm_pt v) lab /\ forall q, is_root lab0 q -> is_root lab q;
  bl_leaf : forall q ix, is_root lab0 q -> ix_ok ix -> leaf (vm_pt v) (q, ix) = leaf (vm_pt s0) (q, ix);
  bl_segs : segments v c = segs0
}.

Lemma xp_destroy_first X t c v sp :
  copying v t c sp -> segments v c = segs0 ->
  xp X (destroy_page_table t) (fun _ v' => vm_fs v' = vm_fs v /\ blank v' c) v.
Proof.
  intros [[K1 K2 (m & Em & Hm)] [Htn Hself] (Hcn & Hct & Hz) (lab & used & Hok & Ht & Hc & Hsub & Hlow) Hown Hleaf] Esegs.
  destruct (vo_pt _ _ _ _ Hok) as [fl Hi]. destruct (table_page _ pool_in_ram _ _ _ _ _ _ Hi Ht) as [Hram _].
  apply in_ram_nonzero in Hram. unfold destroy_page_table. rewrite (proj2 (Z.eqb_neq _ _) Hram).
  assert (Hne : forall q, is_root lab0 q -> q <> t) by (intros q Hq ->; done).
  assert (Hsurv : forall q, is_root lab0 q -> is_root (survivors lab t) q).
  { intros q Hq. apply survivors_lookup. split; [by eapply lookup_weaken | by apply Hne]. }
  apply xp_bind, xp_hp. eapply hp_mono; [by apply (hp_free_struct v m)|]. intros [] v1 -> _. apply xp_pt.
  destruct (wp_destroy _ pool_in_ram (vm_pt v) lab fl used t Hi (vo_cow _ _ _ _ Hok) (vo_once _ _ _ _ Hok) Ht (vo_pages _ _ _ _ Hok)) as ([] & p2 & E2 & used2 & HD).
  destruct (wp_destroy_own (vm_pt v) lab used t Hok Ht Hlow Hown) as ([] & p' & E & used' & Hok' & Hlow' & Hsp & Hw).
  assert (p2 = p') as -> by congruence. exists tt, p'. split; [done|]. split; [done|]. constructor.
  - constructor; [done | |].
    + intros q sp' Hq Hs. apply Hsp; [by eapply lookup_weaken | by apply Hne | by apply K2].
    + eexists. split; [done|]. intros q Hq. rewrite lookup_delete_ne; [by apply Hm | by apply not_eq_sym, Hne].
  - split; [done|]. intros i Hx. simpl. rewrite (Hw c _ Hc Hct i Hx). by apply Hz.
  - exists (survivors lab t), used'. split_and!; [done | by apply survivors_lookup | done | done].
  - intros q ix Hq Hix. simpl. rewrite (de_leaf _ _ _ _ _ _ _ HD) by (split; [by apply Hsurv | done]). by apply Hleaf.
  - rewrite <- Esegs. unfold segments, smap. simpl. rewrite Em. simpl. by rewrite lookup_delete_ne.
Qed.

(** The pages that a table maps. *)
Definition space_of (s : pt_state) (c : Z) : space :=
  fun ix => if desc_valid (leaf s (c, ix)) then Some (mkAPage (may_write s (c, ix)) (Cow.view s (c, ix))) else None.

Lemma space_of_rel s c : space_rel s c (space_of s c).
Proof. intros ix Hix. unfold space_of. by destruct (desc_valid (leaf s (c, ix))). Qed.

Lemma xp_copy_tables X c v :
  blank v c ->
  xp X (in_pt (cpy_tables page_pool_start src c)) (fun complete v' => vm_fs v' = vm_fs v /\ segments v' c = segs0 /\
    exists sp, fork_mem v' c sp /\ (sp = spo \/ exhausted page_pool_start (vm_pt v'))) v.
Proof.
  intros [[K1 K2 K3] [Hcn Hz] (lab & used & Hok & Hc & Hlow & Hroots) Hleaf Esegs]. assert (Hne : src <> c) by (by intros ->).
  pose proof (fork_start page_pool_start (vm_pt v) lab used src c Hok (Hroots _ Hsrc) Hc Hne Hz Hlow) as HF0.
  apply xp_pt. eapply wp_mono; [by apply (wp_cpy_tables page_pool_start pool_in_ram (vm_pt v) lab used src c HF0); [apply Hroots|..]|].
  intros complete p' (D & lab' & used' & HF & Hsub & Hex & Hall). split_and!; [done | done|].
  assert (Hkept : kept (set_pt p' v)).
  { constructor; [done | | done]. intros q sp Hq Hs. eapply (fork_space_rel page_pool_start D); [exact HF | by apply Hroots | by intros -> | by apply K2]. }
  assert (Hmem : forall sp, space_rel p' c sp -> fork_mem (set_pt p' v) c sp).
  { intros sp Hsp. constructor; [done | done | | done |].
    - exists lab', used'. split_and!; [by eapply fork_vm | by eapply lookup_weaken|]. intros q Hq. eapply lookup_weaken; [by apply Hroots | done].
    - intros va pg Hva E. assert (Hix : ix_ok (indices va)) by (split; [done | apply indices_ok]).
      pose proof (Hsp _ Hix) as Hr. rewrite E in Hr. destruct Hr as (Hv & _). simpl.
      destruct (pte_is_writable (leaf p' (c, indices va))) eqn:Ew; [done|]. exfalso.
      destruct (Hkstack va Hva) as [(pgo & Hpgo & Hwo) Huo].
      assert (HnD : ~ D (indices va)).
      { intros HDx. destruct (fi_child _ _ _ _ _ _ _ _ _ HF _ Hix HDx) as [Hv' Hrest]. rewrite Hv in Hv'.
        destruct (Hrest (eq_sym Hv')) as (Hu & Hmw & _). rewrite Hleaf in Hu by done. rewrite Huo in Hu.
        pose proof (K2 src spo Hsrc Hspo _ Hix) as Hp. rewrite Hpgo in Hp. destruct Hp as (_ & Hmo & _). rewrite Hmo, Hwo in Hmw.
        unfold may_write in Hmw. by rewrite Ew, Hu in Hmw. }
      by rewrite (fi_todo _ _ _ _ _ _ _ _ _ HF _ Hix HnD) in Hv. }
  destruct complete.
  - exists spo. split; [|by left]. apply Hmem. eapply (fork_child_rel page_pool_start (vm_pt v) lab src c p' lab' used'); [|by apply K2].
    eapply fork_inv_equiv; [exact HF|]. intros ix Hix. split; [done | intros _; by apply Hall].
  - exists (space_of p' c). split; [apply Hmem, space_of_rel | right; by apply Hex].
Qed.

(** *** The frame of the child *)

Lemma fork_mem_write v t sp va pg m :
  let d := desc_table (leaf (vm_pt v) (t, indices va)) in
  fork_mem v t sp -> kernel_stack_base <= va < PROC_KERNEL_STACK_TOP -> sp (indices va) = Some pg ->
  outside_kept d (mem (vm_pt v)) m ->
  fork_mem (set_pt (set_mem m (vm_pt v)) v) t (set_space sp (indices va) (mkAPage (ap_write pg) (fun i => m (d + 8 * i)))).
Proof.
  intros d Hfm Hva Hsp Hout. assert (Hx : ix_ok (indices va)) by (split; [done | apply indices_ok]).
  destruct Hfm as [[K1 K2 K3] Hn (lab & used & Hok & Ht & Hroots) Hself Hst]. pose proof (Hst va pg Hva Hsp) as Hw.
  pose proof (Hself _ Hx) as Hs. rewrite Hsp in Hs. destruct Hs as (Hv & Hmw & _).
  assert (Hm : maps (vm_pt v) lab (t, indices va) d) by (split_and!; [by split | done | done]).
  destruct (page_write_vm _ pool_in_ram (vm_pt v) lab used (t, indices va) d m Hok Hm Hw Hout) as (W1 & W2 & W3 & W4).
  assert (Hmap : forall q ix', is_root lab q -> ix_ok ix' -> desc_valid (leaf (vm_pt v) (q, ix')) = true ->
            maps (vm_pt v) lab (q, ix') (desc_table (leaf (vm_pt v) (q, ix')))) by (intros; by split_and!; [split|..]).
  constructor; [constructor; [done | | done] | done | by exists lab, used | |].
  - intros q sp' Hq Hs0. assert (Hqt : q <> t) by (by intros ->). pose proof (Hroots q Hq) as Hq'. cbn [vm_pt set_pt].
    eapply space_rel_keep; [| |by apply K2].
    + intros ix' Hix'. by apply W2.
    + intros ix' Hix' Hv'. pose proof (Hmap q ix' Hq' Hix' Hv') as Hx'. split; [by apply (W3 _ _ Hx')|].
      intros i Hi. rewrite (W4 _ _ i Hx' Hi), decide_False by congruence. done.
  - intros ix' Hix'. cbn [vm_pt set_pt]. unfold set_space. specialize (Hself ix' Hix'). rewrite W2 by by split. case_decide as E.
    + subst ix'. split_and!; [done | by rewrite (W3 _ _ Hm), Hmw |]. intros i Hi. rewrite (W4 _ _ i Hm Hi). by rewrite decide_True.
    + destruct (sp ix') as [pg'|]; [|done]. destruct Hself as (Hv' & Hmw' & Hview).
      pose proof (Hmap t ix' Ht Hix' Hv') as Hx'. split_and!; [done | by rewrite (W3 _ _ Hx') |].
      intros i Hi. rewrite (W4 _ _ i Hx' Hi), decide_False by congruence. by apply Hview.
  - intros va' pg' Hva'. unfold set_space. cbn [vm_pt set_pt]. rewrite W2 by (split; [done | split; [done | apply indices_ok]]).
    case_decide as E; [rewrite E; done | by apply Hst].
Qed.

(** The words of the frame of the parent. *)
Definition frame_words (frame_va i : Z) (n : nat) : list (Z * Z) :=
  map (fun k => (k, default 0 (space_load spo (frame_va + 8 * k)))) (seqZ i (Z.of_nat n)).

Lemma wp_copy_frame lab used p t ix d frame_va dst n : forall i m,
  vm_ok page_pool_start p lab used -> maps p lab (t, ix) d -> pte_is_writable (leaf p (t, ix)) = true ->
  is_root lab src -> src <> t -> space_rel p src spo -> outside_kept d (mem p) m ->
  frame_va mod 8 = 0 -> (forall k, i <= k < i + Z.of_nat n -> is_Some (space_load spo (frame_va + 8 * k)) /\ word_of d (dst + 8 * k) = true) ->
  wp (copy_frame n i src frame_va dst) (fun _ p' => p' = set_mem (writes dst (frame_words frame_va i n) m) p) (set_mem m p).
Proof.
  induction n as [|n IH]; intros i m Hok Hm Hw Hs Hst Hsp Hout H8 Hk; cbn [copy_frame]; [by apply wp_ret|].
  destruct (Hk i ltac:(lia)) as [[w Ew] Hd].
  destruct (page_write_vm _ pool_in_ram p lab used (t, ix) d m Hok Hm Hw Hout) as (W1 & W2 & W3 & W4).
  assert (Hsp' : space_rel (set_mem m p) src spo).
  { eapply space_rel_keep; [| |exact Hsp].
    - intros ix' Hix'. by apply W2.
    - intros ix' Hix' Hv'. assert (Hx' : maps p lab (src, ix') (desc_table (leaf p (src, ix')))) by by split_and!; [split|..].
      split; [by apply (W3 _ _ Hx')|]. intros j Hj. rewrite (W4 _ _ j Hx' Hj), decide_False by congruence. done. }
  apply wp_bind. eexists _, _. split; [apply (user_load_eq _ pool_in_ram (set_mem m p) lab used src spo); try done|].
  { Z.to_euclidean_division_equations. lia. }
  rewrite Ew. apply wp_bind, wp_modify. unfold frame_words. rewrite seqZ_cons by lia. cbn [map]. rewrite Ew. cbn [default].
  replace (Z.pred (Z.of_nat (S n))) with (Z.of_nat n) by lia.
  change (writes dst (?x :: ?l) m) with (writes dst l (PageAlloc.upd m (dst + 8 * i) w)).
  eapply (IH (Z.succ i) (PageAlloc.upd m (dst + 8 * i) w)); try done.
  - intros a Ha. rewrite upd_ne; [by apply Hout|]. intros ->. congruence.
  - intros k Hk'. apply Hk. lia.
Qed.

(** The pages of the child: those of [sp], with the frame of the parent in
    which the result is 0. *)
Record child_stack (sp' sp : space) (frame_va : Z) : Prop := {
  cs_result : space_load sp' frame_va = Some 0;
  cs_frame : forall k, 0 < k < FRAME_WORDS -> space_load sp' (frame_va + 8 * k) = space_load spo (frame_va + 8 * k);
  cs_rest : forall a, 0 <= a < 2 ^ 48 -> ~ frame_va <= a < frame_va + 8 * FRAME_WORDS -> space_byte sp' a = space_byte sp a
}.

Lemma frame_words_range frame_va k (w : Z) : (k, w) ∈ frame_words frame_va 0 (Z.to_nat FRAME_WORDS) ++ [(0, 0)] -> 0 <= k < FRAME_WORDS.
Proof.
  rewrite elem_of_app, list_elem_of_singleton. intros [Hin|[= -> _]]; [|unfold FRAME_WORDS; lia].
  unfold frame_words in Hin. apply list_elem_of_fmap in Hin as (j & [= -> _] & Hj%elem_of_seqZ). unfold FRAME_WORDS in *. lia.
Qed.

Lemma frame_words_last frame_va k :
  0 <= k < FRAME_WORDS ->
  last_write (frame_words frame_va 0 (Z.to_nat FRAME_WORDS) ++ [(0, 0)]) k = Some (if k =? 0 then 0 else default 0 (space_load spo (frame_va + 8 * k))).
Proof.
  intros Hk. assert (Hall : forall f : Z -> Z, Forall (fun k => last_write (map (fun k => (k, f k)) (seqZ 0 (Z.of_nat (Z.to_nat FRAME_WORDS))) ++ [(0, 0)]) k = Some (if k =? 0 then 0 else f k)) (seqZ 0 FRAME_WORDS))
    by (intros f; vm_compute; repeat constructor).
  specialize (Hall (fun k => default 0 (space_load spo (frame_va + 8 * k)))). rewrite Forall_forall in Hall. apply Hall, elem_of_seqZ. lia.
Qed.

Lemma parent_frame_load frame_va k : frame_ok frame_va -> 0 <= k < FRAME_WORDS -> is_Some (space_load spo (frame_va + 8 * k)).
Proof.
  intros (Hr & H8 & Hpg) Hk. unfold FRAME_WORDS in *. pose proof (Z.mod_pos_bound frame_va 4096 ltac:(lia)).
  assert (Hva : kernel_stack_base <= frame_va + 8 * k < PROC_KERNEL_STACK_TOP).
  { unfold kernel_stack_base, PROC_KERNEL_STACK_SIZE, PROC_KERNEL_STACK_TOP in *. Z.to_euclidean_division_equations. lia. }
  destruct (Hkstack _ Hva) as [(pg & E & _) _]. unfold space_load. rewrite E. by eexists.
Qed.

Lemma fork_frame v t sp frame_va pg :
  let d := desc_table (leaf (vm_pt v) (t, indices frame_va)) in
  let ws := frame_words frame_va 0 (Z.to_nat FRAME_WORDS) ++ [(0, 0)] in
  fork_mem v t sp -> frame_ok frame_va -> sp (indices frame_va) = Some pg ->
  let v' := set_pt (set_mem (writes (d + frame_va mod 4096) ws (mem (vm_pt v))) (vm_pt v)) v in
  exists sp', fork_mem v' t sp' /\ child_stack sp' sp frame_va.
Proof.
  intros d ws Hfm Hfr Hsp v'. assert (Hx : ix_ok (indices frame_va)) by (split; [done | apply indices_ok]).
  destruct (fm_ok _ _ _ Hfm) as (lab & used & Hok & Ht & Hroots).
  destruct (space_page _ _ _ _ _ _ _ _ pool_in_ram Hok Ht (fm_self _ _ _ Hfm) Hx Hsp) as (_ & Hram & Hal & Hv & _ & Hw). fold d in Hram, Hal, Hw.
  assert (Hrange : forall i w, (i, w) ∈ ws -> 0 <= i < FRAME_WORDS) by (intros i w; apply frame_words_range).
  exists (frame_space sp frame_va d pg (mem (vm_pt v)) ws). split.
  - apply fork_mem_write; [done | by destruct Hfr | done|]. by apply frame_outside.
  - assert (Hload : forall k, 0 <= k < FRAME_WORDS -> space_load (frame_space sp frame_va d pg (mem (vm_pt v)) ws) (frame_va + 8 * k)
      = Some (if k =? 0 then 0 else default 0 (space_load spo (frame_va + 8 * k)))).
    { intros k Hk. rewrite frame_load by done. unfold ws. rewrite frame_words_last by done. done. }
    constructor.
    + pose proof (Hload 0 ltac:(unfold FRAME_WORDS; lia)) as H0. by rewrite Z.mul_0_r, Z.add_0_r in H0.
    + intros k Hk. rewrite Hload by lia. rewrite (proj2 (Z.eqb_neq k 0)) by lia.
      destruct (parent_frame_load frame_va k Hfr ltac:(lia)) as [w ->]. done.
    + intros a Ha Hn. by eapply frame_rest.
Qed.

Lemma xp_copy_frame X v t sp frame_va pg :
  let d := desc_table (leaf (vm_pt v) (t, indices frame_va)) in
  fork_mem v t sp -> frame_ok frame_va -> sp (indices frame_va) = Some pg ->
  xp X (in_pt (copy_frame (Z.to_nat FRAME_WORDS) 0 src frame_va (d + frame_va mod 4096)))
    (fun _ v' => v' = set_pt (set_mem (writes (d + frame_va mod 4096) (frame_words frame_va 0 (Z.to_nat FRAME_WORDS)) (mem (vm_pt v))) (vm_pt v)) v) v.
Proof.
  intros d Hfm Hfr Hsp. assert (Hx : ix_ok (indices frame_va)) by (split; [done | apply indices_ok]). pose proof Hfr as (Hks & H8 & Hpg).
  destruct (fm_ok _ _ _ Hfm) as (lab & used & Hok & Ht & Hroots).
  destruct (space_page _ _ _ _ _ _ _ _ pool_in_ram Hok Ht (fm_self _ _ _ Hfm) Hx Hsp) as (_ & Hram & Hal & Hv & Hm & Hw). fold d in Hram, Hal, Hm.
  destruct (frame_facts frame_va Hfr) as (_ & Ho & Hend & Ho8). unfold FRAME_WORDS in Hend.
  pose proof (wp_copy_frame lab used (vm_pt v) t (indices frame_va) d frame_va (d + frame_va mod 4096) (Z.to_nat FRAME_WORDS) 0 (mem (vm_pt v))) as Hc.
  replace (set_mem (mem (vm_pt v)) (vm_pt v)) with (vm_pt v) in Hc by by destruct (vm_pt v).
  apply xp_pt. eapply wp_mono; [apply Hc; try done|].
  - by eapply (fm_stack _ _ _ Hfm).
  - by apply Hroots.
  - intros ->. by apply (fm_new _ _ _ Hfm).
  - by apply (kp_space _ (fm_kept _ _ _ Hfm)).
  - intros k Hk. split; [apply parent_frame_load; [done | unfold FRAME_WORDS in *; lia]|].
    replace (d + frame_va mod 4096 + 8 * k) with (d + 8 * (frame_va mod 4096 / 8 + k)) by lia. apply word_of_idx.
    unfold FRAME_WORDS in Hk. lia.
  - by intros [] p' ->.
Qed.

(** ** Theory: the tables *)

Context `{ProcFileLaws F}.
Variables (tramp first_run uts : Z).

(** The process [p], now [y], that makes the call. *)
Variables (k0 : kstate) (p : Z) (y : pcb).
Hypothesis Hpo : processes_ok k0.
Hypothesis Hgroups : groups_ok everyone k0.
Hypothesis Hparent : process k0 p y.
Hypothesis Hplock : p_lock y = false.
Hypothesis Hwaitq : p_child_waitq y = [].
Hypothesis Htlock : k_threads_lock k0 = false.
Hypothesis Hsys : sys_ok k0.
Hypothesis Htable : p_ttbr0_el1_va y = src.
Hypothesis Hfiles : pf_ok (vm_fs s0).

(** The other processes and the threads in use are as they were; the caller may
    have other children. *)
Record tables_kept (k' : kstate) : Prop := {
  tk_others : forall q z, q <> p -> process k0 q z -> process k' q z;
  tk_parent : exists l, process k' p (set_p_children l y);
  tk_threads : forall t x, live k0 t x -> k_threads k' !! Z.to_nat t = Some x
}.

Definition free_entry (n : Z) : Prop := 0 <= n < 256 /\ n <> p /\ forall z, ~ process k0 n z.

Lemma tables_kept_intro k' U T n l :
  ktab k0 k' U T -> free_entry n -> (forall q, q <> n -> q <> p -> assoc U q = None) -> assoc U p = Some (set_p_children l y) ->
  (forall t o, assoc T t = Some o -> unused_at k0 t) -> tables_kept k'.
Proof.
  intros HT (Hn & Hnp & Hfree) HU Hp HTu. constructor.
  - intros q z Hq Hz. apply (ktab_process_iff _ _ _ _ _ _ HT); [|done]. apply HU; [|done]. intros ->. by apply (Hfree z).
  - exists l. destruct Hparent as (Hp0 & _ & Hu). split_and!; [done | by rewrite (kt_procs _ _ _ _ HT), Hp | done].
  - intros t x (Ht & Hx & Hu). rewrite (kt_threads _ _ _ _ HT) by done. destruct (assoc T t) as [o|] eqn:E; [|done].
    destruct Hu. by apply (HTu t o E).
Qed.

(** The child when [proc_create] has given it a table and a thread. *)
Definition newborn (n t tid : Z) : pcb :=
  mkPcb n p (p_pgid y) (name_prefix 31 (if char_at (p_name y) 0 =? 0 then [63] else p_name y)) PROC_RUNNING_STATE 0 [tid] false true
    (kernel_phys_addr t) t [] [] false (repeat (mkSigaction SIG_DFL 0 0) 32) 0 [] (p_cwd y) 0 0 0 1.

Lemma newborn_eq n t tid z :
  settled THREAD_UNUSED THREAD_RUNNING (set_p_tids [tid] (set_table t (child_pcb n p y z))) = newborn n t tid.
Proof. lazy -[name_prefix char_at kernel_phys_addr Z.eqb repeat]. reflexivity. Qed.

(** A new process [n] with the table [t] and the thread [tid]. *)
Record created (k' : kstate) (n t tid : Z) (x : tcb) : Prop := {
  cr_free : free_entry n;
  cr_tab : ktab k0 k' [(n, newborn n t tid); (p, set_p_children (p_children y ++ [n]) y)] [(tid, Some x)];
  cr_sched : sched_same k0 k';
  cr_groups : groups_ok everyone k';
  cr_unused : unused_at k0 tid;
  cr_thread : t_pcb x = n /\ t_tid x = tid /\ t_state x = THREAD_READY /\ t_priority x = 1 /\ x30 (t_ctx x) = first_run
}.

Lemma created_kept k' n t tid x : created k' n t tid x -> tables_kept k'.
Proof.
  intros [Hf HT _ _ Hu _]. pose proof Hf as (_ & Hne & _). eapply tables_kept_intro; [exact HT | exact Hf | | |].
  - intros q H1 H2. simpl. by rewrite !decide_False.
  - simpl. by rewrite decide_False, decide_True.
  - intros t' o E. simpl in E. case_decide; [by subst | done].
Qed.

Lemma fe_setup_main k v n thr c x t func args :
  0 <= n -> k_processes k !! Z.to_nat n = Some c -> p_ttbr0_el1_va c = t -> 0 <= thr -> k_threads k !! Z.to_nat thr = Some x ->
  loading t v empty_space [] ->
  fe (setup_process_main_thread page_pool_start first_run uts n thr func args) (fun r s' =>
    vm_fs (ex_vm s') = vm_fs v /\ (exists sp, loading t (ex_vm s') sp []) /\
    ((r <> SUCCESS /\ ex_k s' = k) \/ (r = SUCCESS /\ ex_k s' = with_tcb thr (main_ctx first_run c x) k))) (mkExec k v).
Proof.
  intros Hn Hc Et Hthr Hx Hl. unfold setup_process_main_thread. apply fe_bind, fe_k, (hp_get_pcb _ c); [done | done|]. rewrite Et.
  apply fe_bind, fe_vm. eapply xp_mono; [by apply (xp_seed_kernel_stack page_pool_start pool_in_ram False s0 lab0 2 kernel_stack_base t v empty_space [])|].
  intros ok v1 (Ef1 & sp1 & Hl1 & Hsp1). destruct ok; cbn [negb].
  2: { apply fe_ret. cbn [ex_vm ex_k]. split_and!; [done | by exists sp1 | by left]. }
  specialize (Hsp1 eq_refl). fold kernel_stack_space in Hsp1. pose proof main_frame_ok as (Hr & _).
  destruct (kernel_stack_mapped kernel_stack_space main_frame_va) as [pg Hpg]; [by intros ix _ | done|]. rewrite <- Hsp1 in Hpg.
  apply fe_bind, fe_vm. eapply xp_mono; [apply (xp_mapped_page False t v1 sp1 [] main_frame_va pg Hl1 Hpg); vm_compute; done|].
  intros page v2 (-> & Epage & Hpage). rewrite (proj2 (Z.eqb_neq _ _) Hpage).
  replace (PAGE_SIZE <=? main_frame_va - align_down main_frame_va) with false by (vm_compute; done). cbn [orb].
  apply fe_bind, fe_vm. rewrite Epage. eapply xp_mono; [by apply (xp_write_main False t v1 sp1 [] pg func args uts)|].
  intros [] v3 [Ef3 (sp3 & Hl3)]. apply fe_bind, fe_k, (hp_upd_tcb _ x); [done | done|]. apply fe_ret. cbn [ex_vm ex_k].
  split_and!; [congruence | by exists sp3 | by right].
Qed.

Lemma intact_kept v : intact page_pool_start s0 lab0 v -> kept v.
Proof.
  intros [L _ Hsp Hseg]. constructor; [done | done|]. pose proof (Hseg src) as E. rewrite Hsegs0 in E. unfold smap in E.
  destruct (vm_structs v) as [m|] eqn:Em; [|done]. exists m. split; [done|]. intros q _. rewrite <- (Hseg q). unfold smap. by rewrite Em.
Qed.

Lemma start_kept : kept s0.
Proof.
  constructor; [done | done|]. unfold smap in Hsegs0. destruct (vm_structs s0) as [m|] eqn:Em; [|done]. exists m. split; [done|].
  intros q _. unfold smap. by rewrite Em.
Qed.

Lemma tables_kept_refl : tables_kept k0.
Proof. constructor; [done | exists (p_children y); by destruct y | by intros t x (_ & ? & _)]. Qed.

(** The group of the new process, once it is in the table. *)
Lemma newborn_groups k n c T :
  free_entry n -> ktab k0 k [(n, c); (p, set_p_children (p_children y ++ [n]) y)] T -> k_pgrps k = k_pgrps k0 -> p_pid c = n -> used c -> processes_ok k /\ groups_ok (but n) k /\ process k n c.
Proof.
  intros (Hn & Hnp & Hfree) HT E Hpid Hu. destruct Hparent as (Hp0 & Hy & Hyu).
  assert (Hp' : process k p (set_p_children (p_children y ++ [n]) y)).
  { split_and!; [done | | done]. rewrite (kt_procs _ _ _ _ HT) by done. simpl. by rewrite decide_False, decide_True. }
  split_and!.
  - eapply ktab_processes_ok; [exact Hpo | exact HT|]. intros q z. simpl. case_decide; [intros [= <-]; congruence|]. case_decide; [|done].
    intros [= <-]. subst q. simpl. rewrite (po_pid _ Hpo _ _ Hy). lia.
  - eapply groups_ok_same; [exact Hgroups | done|]. intros g q. unfold everyone, but. split.
    + intros [_ (z & Hz & <-)]. assert (Hqn : q <> n) by (intros ->; by apply (Hfree z)). split; [done|].
      destruct (decide (q = p)) as [->|Hqp].
      * eexists. split; [exact Hp'|]. simpl. by rewrite (process_inj _ _ _ _ Hz Hparent).
      * exists z. split; [|done]. apply (ktab_process_iff _ _ _ _ _ _ HT); [simpl; by rewrite !decide_False | done].
    + intros [Hqn (z & Hz & <-)]. split; [done|]. destruct (decide (q = p)) as [->|Hqp].
      * exists y. split; [done|]. by rewrite (process_inj _ _ _ _ Hz Hp').
      * exists z. split; [|done]. apply (ktab_process_iff _ _ _ _ _ _ HT) in Hz; [done | simpl; by rewrite !decide_False].
  - split_and!; [lia | | done]. rewrite (kt_procs _ _ _ _ HT) by lia. simpl. by rewrite decide_True.
Qed.

(** What a failed call leaves. *)
Definition failed (r : Z) (s' : exec_state F) : Prop := r < 0 /\ pf_ok (vm_fs (ex_vm s')) /\ kept (ex_vm s') /\ tables_kept (ex_k s').

Lemma kstep_kept k' n c T :
  kstep k0 k' [(n, c); (p, set_p_children (p_children y ++ [n]) y)] T -> free_entry n ->
  (forall t o, assoc T t = Some o -> unused_at k0 t) -> tables_kept k'.
Proof.
  intros [HT _] Hf HTu. pose proof Hf as (_ & Hne & _). eapply tables_kept_intro; [exact HT | exact Hf | | | done].
  - intros q H1 H2. simpl. by rewrite !decide_False.
  - simpl. by rewrite decide_False, decide_True.
Qed.

(** The thread of the new process. *)
Lemma hp_first_thread k1 n t z func args :
  let c1 := set_table t (child_pcb n p y z) in
  free_entry n -> kstep k0 k1 [(n, c1); (p, set_p_children (p_children y ++ [n]) y)] [] ->
  hp (thread_create tramp n func args) (fun tid k2 =>
    (tid = -1 /\ tables_kept k2) \/
    (unused_at k0 tid /\ exists x stack, kstep k0 k2 [(n, newborn n t tid); (p, set_p_children (p_children y ++ [n]) y)]
       [(tid, Some (created_tcb tramp tid n stack func args c1 x))])) k1.
Proof.
  intros c1 Hf H1. pose proof Hf as (Hn & Hnp & _). destruct Hparent as (Hp0 & Hy & Hyu).
  assert (Hun : forall t', unused_at k1 t' -> unused_at k0 t') by (intros t' [Ht Hu]; split; [done|]; intros x; specialize (Hu x); by rewrite (kt_threads _ _ _ _ (proj1 H1)) in Hu).
  eapply hp_mono; [apply (hp_thread_create tramp k1 n c1 func args)|].
  { by rewrite (kt_tlock _ _ _ _ (proj1 H1)). } { rewrite (kt_plock _ _ _ _ (proj1 H1)). apply Hpo. } { rewrite (kt_len _ _ _ _ (proj1 H1)). apply Hpo. }
  { lia. } { entry. } { done. } { simpl. congruence. }
  { intros w Hw0 Hw Hwu. simpl in Hw. rewrite (kt_procs _ _ _ _ (proj1 H1)) in Hw by done. simpl in Hw. rewrite decide_False, decide_True in Hw by done.
    injection Hw as <-. done. }
  intros tid k2 Hres _. destruct Hres as [(-> & T & H2 & HT) | (Hu & x & stack & H2)].
  - left. split; [done|]. pose proof (kstep_trans _ _ _ _ _ _ _ H1 H2) as H3. eapply kstep_kept; [exact H3 | done|].
    intros t' o E. rewrite app_nil_r in E. destruct HT as [-> | (u & x & -> & Hu & _)]; [done|]. simpl in E. case_decide; [subst; by apply Hun | done].
  - right. split; [by apply Hun|]. exists x, stack. pose proof (kstep_trans _ _ _ _ _ _ _ H1 H2) as H3.
    change (p_tids c1 ++ [tid]) with [tid] in H3.
    assert (En : settled THREAD_UNUSED THREAD_RUNNING (set_p_tids [tid] c1) = newborn n t tid) by (unfold newborn, c1; exact eq_refl).
    rewrite En in H3.
    eapply kstep_ext; [exact H3|]. intros i Hi. cbn [assoc app].
    destruct (decide (i = n)); reflexivity.
Qed.

(** From the thread on. *)
Lemma fe_create_thread k1 v n t z func args :
  let c1 := set_table t (child_pcb n p y z) in
  free_entry n -> kstep k0 k1 [(n, c1); (p, set_p_children (p_children y ++ [n]) y)] [] -> loading t v empty_space [] -> pf_ok (vm_fs v) ->
  fe (tid ← in_k (thread_create tramp n func args);
      if tid <? 0 then mret SYS_EAGAIN else
      main_thread ← in_k (thread_get_by_tid tid);
      match main_thread with
      | None => mret SYS_EAGAIN
      | Some thr =>
          err ← setup_process_main_thread page_pool_start first_run uts n thr func args;
          if negb (err =? SUCCESS) then mret SYS_EAGAIN else
          r ← in_k (add_to_pgrp n);
          if negb (r =? 0) then mret SYS_EAGAIN else mret n
      end)
   (fun r s' => failed r s' \/ (r = n /\ pf_ok (vm_fs (ex_vm s')) /\ exists tid x, created (ex_k s') n t tid x /\ exists sp, loading t (ex_vm s') sp []))
   (mkExec k1 v).
Proof.
  intros c1 Hf H1 Hl Hfs. pose proof Hf as (Hn & Hnp & _). assert (Hk : kept v) by by eapply loading_kept.
  apply fe_bind, fe_k. eapply hp_mono; [by apply (hp_first_thread k1 n t z func args)|]. intros tid k2 Hres _.
  destruct Hres as [(-> & Htk) | (Hun & x & stack & H2)]; [apply fe_ret; left; by split_and!|].
  pose proof Hun as [Ht0 _]. rewrite (proj2 (Z.ltb_ge tid 0)) by done. set (x1 := created_tcb _ _ _ _ _ _ _ _) in H2.
  assert (Hx1 : k_threads k2 !! Z.to_nat tid = Some x1) by (rewrite (kt_threads _ _ _ _ (proj1 H2)) by done; cbn [assoc]; by rewrite decide_True).
  apply fe_bind, fe_k, hp_wp, wp_thread_get_by_tid; [by rewrite (kt_tlock _ _ _ _ (proj1 H2)) | | intros Hno; specialize (Hno x1 Ht0 Hx1); done].
  intros _ _ _ _. split; [|done]. apply fe_bind.
  eapply fe_mono; [apply (fe_setup_main k2 v n tid (newborn n t tid) x1 t func args); try done; [lia | entry]|].
  intros err [k3 v3] (Ef & (sp & Hl3) & Hres) _. cbn [ex_vm ex_k] in *. assert (Hfs3 : pf_ok (vm_fs v3)) by by rewrite Ef.
  assert (Hk3 : kept v3) by by eapply loading_kept.
  assert (Htk2 : tables_kept k2).
  { eapply kstep_kept; [exact H2 | done|]. intros t' o E. cbn [assoc] in E. destruct (decide (t' = tid)); [by subst | done]. }
  destruct Hres as [[Herr ->] | [-> ->]].
  { rewrite (proj2 (Z.eqb_neq _ _) Herr). cbn [negb]. apply fe_ret. left. by split_and!. }
  cbn [negb Z.eqb SUCCESS]. set (x2 := main_ctx first_run (newborn n t tid) x1).
  pose proof (kstep_tcb k0 k2 _ _ tid x1 x2 H2 Ht0 Hx1) as (H3 & E3 & S3). clear H2 H1.
  destruct (newborn_groups (with_tcb tid x2 k2) n (newborn n t tid) _ Hf H3 E3 eq_refl) as (Hpo3 & Hg3 & Hn3); [done|].
  apply fe_bind, fe_grants. intros Hgr. apply fe_k. eapply hp_mono; [by apply (hp_add_to_pgrp _ n (newborn n t tid))|].
  intros r k4 [Hgo Hr] _. destruct Hr as [[-> Hg4] | (_ & [i Hi] & _)].
  2: { change (k_heap (with_tcb tid x2 k2) i = false) in Hi. by rewrite Hgr in Hi. }
  cbn [Z.eqb negb]. apply fe_ret. right. split_and!; [done | done|]. exists tid, x2. split; [|by exists sp]. constructor; try done.
  - eapply ktab_same in H3; [|by apply groups_only_tab]. eapply ktab_ext; [exact H3 | done|].
    intros i Hi. cbn [assoc app]. by destruct (decide (i = tid)).
  - destruct Hgo as (m & h & ->). done.
Qed.

Lemma fe_proc_create func args :
  fe (proc_create page_pool_start tramp first_run uts func args p) (fun r s' =>
    failed r s' \/ (pf_ok (vm_fs (ex_vm s')) /\ exists t tid x, created (ex_k s') r t tid x /\ exists sp, loading t (ex_vm s') sp [])) (mkExec k0 s0).
Proof.
  unfold proc_create. apply fe_bind, fe_k. eapply hp_mono; [by apply (hp_new_process k0 p y)|]. intros [n|] k1 Hn _.
  2: { subst k1. apply fe_ret. left. split_and!; [done | done | apply start_kept | apply tables_kept_refl]. }
  destruct Hn as (Hnp & Hn & z & Hz & Hzu & H1).
  assert (Hf : free_entry n) by (split_and!; [lia | lia | done|]; intros w (_ & Hw & Hwu); rewrite Hz in Hw; injection Hw as <-; done).
  apply fe_bind, fe_vm. eapply xp_mono; [by apply (xp_initialize page_pool_start pool_in_ram False s0 lab0 used0)|].
  intros t v1 [Ef Hres]. assert (Hfs1 : pf_ok (vm_fs v1)) by by rewrite Ef. destruct Hres as [[-> Hi] | [Ht Hl]].
  { apply fe_ret. left. split_and!; [done | done | by apply intact_kept|]. eapply kstep_kept; [exact H1 | done | done]. }
  rewrite (proj2 (Z.eqb_neq _ _) Ht). apply fe_bind, fe_k. eapply (hp_kpcb k0 _ _ _ n _ _ _ H1); [lia | entry|]. intros k2 H2.
  eapply fe_mono; [apply (fe_create_thread k2 v1 n t z func args); try done|].
  - eapply kstep_ext; [exact H2|]. intros i Hi. cbn [assoc app]. by destruct (decide (i = n)).
  - intros r s' [Hfail | (-> & Hfs & tid & x & Hc & Hsp)] _; [by left | right]. split; [done|]. by exists t, tid, x.
Qed.

(** ** Theory: the copy *)

(** The pages and the regions are those of the parent, unless memory ran out. *)
Definition copied (s v : vm_state F) (t : Z) (sp : space) : Prop :=
  (sp = spo /\ segments v t = segs0) \/ exhausted page_pool_start (vm_pt v) \/ refusal s.

Lemma fe_cpy_space k v n c y1 t sp :
  0 <= n -> k_processes k !! Z.to_nat n = Some c -> c = set_table t c ->
  0 <= p -> k_processes k !! Z.to_nat p = Some y1 -> p_ttbr0_el1_va y1 = src -> loading t v sp [] -> pf_ok (vm_fs v) ->
  fe (cpy_address_space page_pool_start p n) (fun _ s' => pf_ok (vm_fs (ex_vm s')) /\ exists t' sp',
    fork_mem (ex_vm s') t' sp' /\ kstep k (ex_k s') [(n, set_table t' c)] [] /\ copied v (ex_vm s') t' sp') (mkExec k v).
Proof.
  intros Hn Hc Ec Hp0 Hy1 Esrc Hl Hfs. unfold cpy_address_space. apply fe_bind, fe_k, (hp_get_pcb _ y1); [done | done|]. rewrite Esrc.
  assert (Hsame : kstep k k [(n, set_table t c)] []).
  { rewrite <- Ec. split; [|done]. rewrite <- (with_pcb_id n c k Hc) at 2. by eapply ktab_pcb. }
  apply fe_bind, fe_vm. eapply xp_mono; [by apply (xp_alloc_copy False t v sp [])|].
  intros d v1 [[Ef1 Eh1] Hres]. assert (Hfs1 : pf_ok (vm_fs v1)) by by rewrite Ef1. destruct Hres as [(-> & Hfm & Hex) | (Hd & Hcp)].
  { apply fe_ret. split; [done|]. exists t, sp. split_and!; [done | done | right; by left]. }
  rewrite (proj2 (Z.eqb_neq _ _) Hd). apply fe_bind, fe_vm. eapply xp_mono; [by apply (xp_copy_regions False t d v1 sp)|].
  intros r v2 (Ef2 & Hcp2 & Hres). assert (Hfs2 : pf_ok (vm_fs v2)) by by rewrite Ef2. destruct Hres as [[-> Eseg] | [Hr Href]].
  2: { rewrite (proj2 (Z.eqb_neq _ _) Hr). cbn [negb]. apply fe_ret. split; [done|]. exists t, sp. split_and!; [by eapply copying_fork_mem | done|].
       right. right. destruct Href as [i Hi]. exists i. change (vm_heap v i = false). by rewrite <- Eh1. }
  cbn [negb Z.eqb SUCCESS]. apply fe_bind, fe_k, (hp_get_pcb _ c); [done | done|]. assert (Et : p_ttbr0_el1_va c = t) by (by rewrite Ec). rewrite Et.
  apply fe_bind, fe_vm. eapply xp_mono; [by apply (xp_destroy_first False t d v2 sp)|]. intros [] v3 [Ef3 Hbl].
  apply fe_bind, fe_k, (hp_kpcb k _ _ _ n c _ _ (kstep_refl k)); [done | done|]. intros k2 H2.
  apply fe_bind, fe_vm. eapply xp_mono; [by apply (xp_copy_tables False d v3)|].
  intros complete v4 (Ef4 & Eseg4 & sp4 & Hfm4 & Hsp4). apply fe_ret. cbn [ex_vm ex_k]. split; [by rewrite Ef4, Ef3|].
  exists d, sp4. split_and!; [done | done|]. destruct Hsp4 as [->|Hex]; [by left | right; by left].
Qed.

(** The page of the frame in the table of the child. *)
Lemma xp_frame_page X v t sp frame_va :
  fork_mem v t sp -> frame_ok frame_va ->
  xp X (in_pt (pt_get_mapped_page t (align_down frame_va))) (fun page v' => v' = v /\
    match sp (indices frame_va) with None => page = 0 | Some _ => page <> 0 /\ page = desc_table (leaf (vm_pt v) (t, indices frame_va)) end) v.
Proof.
  intros Hfm (Hr & _). assert (Hx : ix_ok (indices frame_va)) by (split; [done | apply indices_ok]).
  destruct (fm_ok _ _ _ Hfm) as (lab & used & Hok & Ht & _). destruct (vo_pt _ _ _ _ Hok) as [fl Hi].
  destruct (table_page _ pool_in_ram _ _ _ _ _ _ Hi Ht) as [Hram _]. apply in_ram_nonzero in Hram.
  destruct (sp (indices frame_va)) as [pg|] eqn:E.
  - destruct (space_page _ _ _ _ _ _ _ _ pool_in_ram Hok Ht (fm_self _ _ _ Hfm) Hx E) as (_ & Hdr & _ & Hv & _).
    eapply (xp_eq _ _ (desc_table (leaf (vm_pt v) (t, indices frame_va)))); [|split_and!; [done | by apply in_ram_nonzero | done]].
    unfold in_pt, lift. rewrite mapped_page_eq; rewrite ?indices_align_down; [by destruct v | done | done | done | apply align_down_page].
  - pose proof (fm_self _ _ _ Hfm _ Hx) as Hs. rewrite E in Hs. eapply (xp_eq _ _ 0); [|done].
    unfold in_pt, lift. rewrite pt_get_mapped_page_eq by done. unfold mapped_address, translate.
    change (entry (mem (vm_pt v)) t (indices (align_down frame_va))) with (leaf (vm_pt v) (t, indices (align_down frame_va))).
    rewrite indices_align_down, Hs. by destruct v.
Qed.

(** ** Theory: the rest of the call *)

Lemma fe_share_fds n fds : forall k v z,
  0 <= n -> k_processes k !! Z.to_nat n = Some z -> pf_ok (vm_fs v) ->
  fe (share_fds fds n) (fun _ s' => kstep k (ex_k s') [(n, set_p_file_descriptors (p_file_descriptors z ++ fds) z)] [] /\
    exists f, ex_vm s' = set_fs f v /\ pf_ok f) (mkExec k v).
Proof.
  induction fds as [|fd fds IH]; intros k v z Hn Hz Hf; cbn [share_fds].
  - apply fe_ret. cbn [ex_k ex_vm]. rewrite app_nil_r. split.
    + split; [|done]. replace (set_p_file_descriptors (p_file_descriptors z) z) with z by by destruct z.
      rewrite <- (with_pcb_id n z k Hz) at 2. by eapply ktab_pcb.
    + exists (vm_fs v). split; [by destruct v | done].
  - apply fe_bind, fe_k, (hp_get_pcb _ z); [done | done|]. apply fe_bind, fe_k, hp_list. intros h _.
    pose proof (kstep_heap k k [] [] h (kstep_refl k)) as H1.
    apply fe_bind, fe_k, (hp_kpcb k _ _ _ n z _ _ H1); [done | done|]. intros k2 H2.
    set (z2 := set_p_file_descriptors (p_file_descriptors z ++ [fd]) z) in *.
    assert (Hrest : forall f, pf_ok f -> fe (share_fds fds n) (fun _ s' => kstep k (ex_k s') [(n, set_p_file_descriptors (p_file_descriptors z ++ fd :: fds) z)] [] /\
      exists f, ex_vm s' = set_fs f v /\ pf_ok f) (mkExec k2 (set_fs f v))).
    { intros f Hf'. eapply fe_mono; [apply (IH k2 (set_fs f v) z2); [done | entry | done]|].
      intros [] [k3 v3] (H3 & f' & -> & Hf3) _. cbn [ex_k ex_vm] in *. split; [|by exists f'].
      pose proof (kstep_trans _ _ _ _ _ _ _ H2 H3) as H4. eapply kstep_ext; [exact H4|]. intros i Hi. cbn [assoc app].
      destruct (decide (i = n)); [|done]. f_equal. unfold z2, set_p_file_descriptors. simpl. by rewrite <- app_assoc. }
    apply fe_bind. destruct (fd <? 0).
    + apply fe_ret. specialize (Hrest _ Hf). by replace (set_fs (vm_fs v) v) with v in Hrest by by destruct v.
    + apply fe_vm, xp_fs. eapply wp_mono; [by apply pf_reference_law|]. intros r f Hf'. by apply Hrest.
Qed.

Lemma kstep_sys k k' U T :
  sys_ok k -> ktab k k' U T -> sched_same k k' -> grants k' -> (forall t o, assoc T t = Some o -> exists x, o = Some x /\ 0 <= t_priority x < 3) -> sys_ok k'.
Proof.
  intros [[Q1 Q2 Q3 Q4 Q5 Q6 Q7] Hg Hl Hcur] HT (Eq & Ec & Ep) Hg' Hpr.
  assert (Hlen : forall i, 0 <= i < Z.of_nat (length (k_threads k)) -> 0 <= i < Z.of_nat (length (k_threads k'))).
  { intros i Hi. split; [lia|]. destruct (lookup_lt_is_Some_2 (k_threads k) (Z.to_nat i)) as [x Hx]; [lia|].
    assert (Hs : is_Some (k_threads k' !! Z.to_nat i)).
    { rewrite (kt_threads _ _ _ _ HT) by lia. destruct (assoc T i) as [o|] eqn:E; [destruct (Hpr i o E) as (x' & -> & _); by eexists | by eexists]. }
    apply lookup_lt_is_Some_1 in Hs. lia. }
  constructor; [constructor | done | by rewrite (kt_slock _ _ _ _ HT) |].
  - by rewrite Eq.
  - by rewrite Eq.
  - rewrite Eq. intros t Ht. by apply Hlen, Q3.
  - by rewrite Ec.
  - by rewrite Ec.
  - by rewrite Ep.
  - apply Forall_lookup. intros i x Hx. pose proof (kt_threads _ _ _ _ HT (Z.of_nat i) ltac:(lia)) as E. rewrite Nat2Z.id, Hx in E.
    destruct (assoc T (Z.of_nat i)) as [o|] eqn:Eo; [destruct (Hpr _ _ Eo) as (x' & -> & Hp'); by injection E as -> |].
    rewrite Forall_lookup in Q7. by apply (Q7 i).
  - rewrite (kt_cpus _ _ _ _ HT). intros c u Hc Hu. apply Hlen. by apply (Hcur c).
Qed.

(** *** The new process *)

Lemma created_entries k n t tid x :
  created k n t tid x -> process k n (newborn n t tid) /\ process k p (set_p_children (p_children y ++ [n]) y) /\ live k tid x.
Proof.
  intros [(Hn & Hnp & _) HT _ _ [Ht0 _] (_ & _ & Est & _)]. destruct Hparent as (Hp0 & Hy & Hyu). split_and!.
  - split_and!; [lia | | done]. rewrite (kt_procs _ _ _ _ HT) by lia. cbn [assoc]. by rewrite decide_True.
  - split_and!; [done | | done]. rewrite (kt_procs _ _ _ _ HT) by lia. cbn [assoc]. by rewrite decide_False, decide_True.
  - split_and!; [done | | by rewrite Est]. rewrite (kt_threads _ _ _ _ HT) by lia. cbn [assoc]. by rewrite decide_True.
Qed.

Lemma created_ok k n t tid x : created k n t tid x -> processes_ok k.
Proof.
  intros [(Hn & Hnp & _) HT _ _ _ _]. eapply ktab_processes_ok; [exact Hpo | exact HT|]. intros q z. cbn [assoc].
  destruct (decide (q = n)); [by intros [= <-]|]. destruct (decide (q = p)); [|done]. intros [= <-]. subst q. simpl.
  destruct Hparent as (Hp0 & Hy & _). rewrite (po_pid _ Hpo _ _ Hy). lia.
Qed.

(** The child gets another table. *)
Lemma created_table k k' n t t' tid x :
  created k n t tid x -> kstep k k' [(n, set_table t' (newborn n t tid))] [] -> created k' n t' tid x.
Proof.
  intros Hc H1. destruct (created_entries _ _ _ _ _ Hc) as (Hn1 & _ & _). pose proof Hc as [Hf HT (S1 & S2 & S3) Hg Hu Hx].
  destruct H1 as (H1 & E1 & Q1 & Q2 & Q3). change (set_table t' (newborn n t tid)) with (newborn n t' tid) in *.
  assert (Hn2 : process k' n (newborn n t' tid)).
  { destruct Hn1 as (H0' & _). split_and!; [done | | done]. rewrite (kt_procs _ _ _ _ H1) by lia. cbn [assoc]. by rewrite decide_True. }
  constructor; try done.
  - pose proof (ktab_trans _ _ _ _ _ _ _ HT H1) as H2. eapply ktab_ext; [exact H2 | | done]. intros i Hi. cbn [assoc app].
    by destruct (decide (i = n)).
  - split_and!; congruence.
  - eapply groups_ok_same; [exact Hg | done|]. intros g q. unfold everyone. split; intros [_ (z & Hz & <-)]; (split; [done|]);
      (destruct (decide (q = n)) as [->|Hne]; [|exists z; split; [|done]; apply (ktab_process_iff _ _ _ _ _ _ H1); [cbn [assoc]; by rewrite decide_False | done]]).
    + exists (newborn n t' tid). split; [done|]. by rewrite (process_inj _ _ _ _ Hz Hn1).
    + exists (newborn n t tid). split; [done|]. by rewrite (process_inj _ _ _ _ Hz Hn2).
Qed.

Lemma created_can_end k n t tid x : created k n t tid x -> can_end k n (newborn n t tid).
Proof.
  intros Hc. destruct (created_entries _ _ _ _ _ Hc) as (Hn1 & Hp1 & (_ & Hx & _)). pose proof (created_ok _ _ _ _ _ Hc) as Hok.
  destruct Hc as [(Hn & Hnp & _) HT (S1 & _ & _) Hg Hu (Epcb & Etid & _)]. destruct Hsys as [Hso _ Hsl _].
  constructor; [|done | done | done | done | |by unfold KERNEL_HEAP_SIZE].
  - constructor; try done.
    + by rewrite (kt_slock _ _ _ _ HT).
    + rewrite S1. apply Hso.
    + by rewrite (kt_tlock _ _ _ _ HT).
    + apply Hok.
    + apply Hok.
    + intros z _ Hz Hzu. simpl in Hz. destruct Hp1 as (_ & Hp1 & _). rewrite Hp1 in Hz. by injection Hz as <-.
    + apply NoDup_singleton.
    + intros t' x' Ht' (_ & Hx' & _). apply list_elem_of_singleton in Ht' as ->. rewrite Hx in Hx'. by injection Hx' as <-.
  - intros z Hz. simpl in Hz. by rewrite (process_inj _ _ _ _ Hz Hp1).
Qed.

Lemma fe_fork_abort k v n t tid x sp err :
  created k n t tid x -> fork_mem v t sp -> pf_ok (vm_fs v) -> err < 0 ->
  fe (_ ← proc_destroy n; mret err) failed (mkExec k v).
Proof.
  intros Hc Hfm Hf Herr. destruct (created_entries _ _ _ _ _ Hc) as (Hn1 & Hp1 & _). pose proof Hc as [(Hn & Hnp & Hfree) HT _ _ Hu _].
  pose proof Hfm as [[K1 K2 (m & Em & Hm)] Htn (lab & used & Hok & Ht & Hroots) _ _].
  apply fe_bind. eapply fe_mono; [apply (fe_proc_destroy page_pool_start pool_in_ram k v n (newborn n t tid) lab used m); [by eapply created_can_end | done..]|].
  intros [] [k' v'] [[E1 E2 E3 E4 E5 E6 E7 E8] [R1 R2 R3 R4 R5 R6 R7]] _. cbn [ex_k ex_vm] in *. simpl in E2, E3, E4, E5.
  apply fe_ret. split_and!; [done | done | |].
  - cbn [ex_vm]. assert (Hne : forall q, is_root lab0 q -> q <> t) by (intros q Hq ->; done).
    constructor; [congruence | intros q sp' Hq Hs; apply R4; [by apply Hroots | by apply Hne | by apply K2]|].
    pose proof (R5 src (Hne _ Hsrc)) as Es. assert (Esv : smap v !! src = Some segs0) by (unfold smap; rewrite Em; simpl; by rewrite Hm).
    rewrite Esv in Es. unfold smap in Es. destruct (vm_structs v') as [m'|] eqn:Em'; [|done]. exists m'. split; [done|]. intros q Hq.
    pose proof (R5 q (Hne q Hq)) as Eq. unfold smap in Eq. rewrite Em, Em' in Eq. simpl in Eq. rewrite Eq. by apply Hm.
  - cbn [ex_k]. constructor.
    + intros q z Hqp Hz. assert (Hqn : q <> n) by (intros ->; by apply (Hfree z)).
      apply E3; [done | done|]. apply (ktab_process_iff _ _ _ _ _ _ HT); [cbn [assoc]; by rewrite !decide_False | done].
    + eexists. exact (E2 _ Hp1).
    + intros t' x' (Ht' & Hx' & Hxu). assert (Hne : t' <> tid) by (intros ->; destruct Hxu; by apply Hu).
      rewrite E5; [|done | by intros ?%list_elem_of_singleton]. rewrite (kt_threads _ _ _ _ HT) by done. cbn [assoc]. by rewrite decide_False.
Qed.

(** *** The result *)

(** The child [n] of the process: its entry, its thread, which is ready to run,
    and its address space. *)
Record forked (s' : exec_state F) (n frame_va : Z) : Prop := {
  fo_free : free_entry n;
  fo_kept : tables_kept (ex_k s');
  fo_parent : process (ex_k s') p (set_p_children (p_children y ++ [n]) y);
  fo_groups : groups_ok everyone (ex_k s');
  fo_child : exists t tid x sp sp',
    process (ex_k s') n (set_p_file_descriptors (p_file_descriptors y) (newborn n t tid)) /\
    (k_threads (ex_k s') !! Z.to_nat tid = Some x /\ t_pcb x = n /\ t_state x = THREAD_READY /\ tid ∈ mjoin (k_ready_queues (ex_k s')) /\
     t_ctx x = mkCtx frame_va (x20 (t_ctx x)) (x21_x29 (t_ctx x)) first_run frame_va (kernel_phys_addr t) t) /\
    fork_mem (ex_vm s') t sp' /\ child_stack sp' sp frame_va /\ copied s0 (ex_vm s') t sp
}.

Definition child_thread (t frame_va : Z) (x : tcb) : tcb :=
  set_t_ctx (mkCtx frame_va (x20 (t_ctx x)) (x21_x29 (t_ctx x)) (x30 (t_ctx x)) frame_va (kernel_phys_addr t) t) x.

(** The tables when the files are shared and the thread is ready. *)
Lemma forked_tables k k1 k2 n t tid x x1 frame_va :
  created k n t tid x -> x1 = child_thread t frame_va x ->
  kstep k k1 [(n, set_p_file_descriptors (p_file_descriptors y) (newborn n t tid)); (p, set_p_children (p_children y ++ [n]) y)] [(tid, Some x1)] ->
  (exists h q, k2 = set_k_heap h (set_k_ready_queues q k1)) ->
  tables_kept k2 /\ process k2 p (set_p_children (p_children y ++ [n]) y) /\ groups_ok everyone k2 /\
  process k2 n (set_p_file_descriptors (p_file_descriptors y) (newborn n t tid)) /\ k_threads k2 !! Z.to_nat tid = Some x1.
Proof.
  intros Hc -> H1 (h & q & Ek2). destruct (created_entries _ _ _ _ _ Hc) as (Hn1 & Hp1 & (Ht0 & Hx & _)).
  pose proof Hc as [Hf HT _ Hg Hu _]. pose proof Hf as (Hn & Hnp & _).
  set (c2 := set_p_file_descriptors _ _) in *. set (y1 := set_p_children _ _) in *.
  assert (H2 : ktab k k2 [(n, c2); (p, y1)] [(tid, Some (child_thread t frame_va x))]) by (destruct H1 as [[] _]; rewrite Ek2; by constructor).
  assert (Ep : k_pgrps k2 = k_pgrps k) by (rewrite Ek2; apply H1).
  assert (Hn2 : process k2 n c2) by (split_and!; [lia | rewrite (kt_procs _ _ _ _ H2) by lia; cbn [assoc]; by rewrite decide_True | done]).
  assert (Hp2 : process k2 p y1).
  { destruct Hp1 as (Hp0 & _ & Hyu). split_and!; [done | rewrite (kt_procs _ _ _ _ H2) by lia; cbn [assoc]; by rewrite decide_False, decide_True | done]. }
  split_and!; [| done | | done | rewrite (kt_threads _ _ _ _ H2) by lia; cbn [assoc]; by rewrite decide_True].
  - pose proof (ktab_trans _ _ _ _ _ _ _ HT H2) as H3. eapply (tables_kept_intro _ _ _ n (p_children y ++ [n])); [exact H3 | done | | |].
    + intros r Hr1 Hr2. cbn [assoc app]. by rewrite !decide_False.
    + cbn [assoc app]. by rewrite decide_False, decide_True.
    + intros t' o. cbn [assoc app]. by destruct (decide (t' = tid)) as [->|].
  - eapply groups_ok_same; [exact Hg | done|]. intros g r. unfold everyone. split; intros [_ (z & Hz & <-)]; (split; [done|]);
      (destruct (decide (r = n)) as [->|Hrn]; [|destruct (decide (r = p)) as [->|Hrp]; [|exists z; split; [|done];
         apply (ktab_process_iff _ _ _ _ _ _ H2); [cbn [assoc]; by rewrite !decide_False | done]]]).
    + exists c2. split; [done|]. by rewrite (process_inj _ _ _ _ Hz Hn1).
    + exists y1. split; [done|]. by rewrite (process_inj _ _ _ _ Hz Hp1).
    + exists (newborn n t tid). split; [done|]. by rewrite (process_inj _ _ _ _ Hz Hn2).
    + exists y1. split; [done|]. by rewrite (process_inj _ _ _ _ Hz Hp2).
Qed.

Lemma fe_fork_finish k v n t tid x sp frame_va pg :
  created k n t tid x -> fork_mem v t sp -> copied s0 v t sp -> frame_ok frame_va -> sp (indices frame_va) = Some pg -> pf_ok (vm_fs v) ->
  let page := desc_table (leaf (vm_pt v) (t, indices frame_va)) in
  fe (thr ← in_k (thread_get_by_tid tid);
      _ ← in_vm (in_pt (copy_frame (Z.to_nat FRAME_WORDS) 0 src frame_va (page + frame_va mod 4096)));
      _ ← in_vm (in_pt (wr (page + frame_va mod 4096) 0));
      match thr with
      | None => fault
      | Some thr =>
          _ ← in_k (upd_tcb thr (child_thread t frame_va));
          _ ← in_k (pcb_lock p);
          _ ← share_fds (p_file_descriptors y) n;
          _ ← in_k (pcb_unlock p);
          _ ← in_k (add_thread_to_scheduler thr);
          mret n
      end) (fun r s' => r = n /\ pf_ok (vm_fs (ex_vm s')) /\ forked s' n frame_va) (mkExec k v).
Proof.
  intros Hc Hfm Hcp Hfr Hsp Hfs page. destruct (created_entries _ _ _ _ _ Hc) as ((Hn0 & Hn1 & _) & (Hp0 & Hp1 & _) & (Ht0 & Hx & Hxu)).
  pose proof Hc as [Hf HT Hss Hg Hu (Epcb & Etid & Est & Epr & E30)]. pose proof Hf as (Hn & Hnp & _).
  apply fe_bind, fe_k, hp_wp, wp_thread_get_by_tid; [by rewrite (kt_tlock _ _ _ _ HT) | | intros Hno; destruct Hxu; by apply Hno].
  intros _ _ _ _. split; [|done]. apply fe_bind, fe_vm. eapply xp_mono; [by apply (xp_copy_frame False v t sp frame_va pg)|]. intros [] v1 ->.
  destruct (fork_frame v t sp frame_va pg Hfm Hfr Hsp) as (sp' & Hfm' & Hcs).
  apply fe_bind, fe_vm, xp_pt, wp_modify. set (v2 := set_pt _ (set_pt _ v)).
  assert (Ev2 : v2 = set_pt (set_mem (writes (page + frame_va mod 4096) (frame_words frame_va 0 (Z.to_nat FRAME_WORDS) ++ [(0, 0)]) (mem (vm_pt v))) (vm_pt v)) v).
  { unfold v2. cbn [vm_pt set_pt mem set_mem]. unfold writes. rewrite foldl_app. cbn [foldl fst snd]. by rewrite Z.mul_0_r, Z.add_0_r. }
  assert (Hfm2 : fork_mem v2 t sp') by (rewrite Ev2; exact Hfm'). assert (Hcp2 : copied s0 v2 t sp) by (rewrite Ev2; exact Hcp). assert (Hfs2 : pf_ok (vm_fs v2)) by (rewrite Ev2; done).
  clearbody v2. clear Ev2 Hfm'.
  apply fe_bind, fe_k, (hp_ktcb k _ _ _ tid x _ _ (kstep_refl k)); [done | done|]. intros k1 H1.
  apply fe_bind, fe_k. eapply (hp_pcb_lock k k1 _ _ p _ _ H1); [done | entry; exact Hp1 | done|]. intros k2 H2.
  apply fe_bind. eapply fe_mono; [apply (fe_share_fds n (p_file_descriptors y) k2 v2 (newborn n t tid)); [lia | entry; exact Hn1 | done]|].
  intros [] [k3 v3] (H3 & f & Ev & Hf3) _. cbn [ex_k ex_vm] in *. subst v3. pose proof (kstep_trans _ _ _ _ _ _ _ H2 H3) as H4. clear H1 H2 H3.
  apply fe_bind, fe_k. eapply (hp_kpcb k _ _ _ p _ _ _ H4); [done | entry|]. intros k5 H5.
  set (c2 := set_p_file_descriptors (p_file_descriptors y) (newborn n t tid)). set (y1 := set_p_children (p_children y ++ [n]) y) in *.
  assert (H6 : kstep k k5 [(n, c2); (p, y1)] [(tid, Some (child_thread t frame_va x))]).
  { eapply kstep_ext; [exact H5|]. intros i Hi. cbn [assoc app]. destruct (decide (i = p)) as [->|]; [rewrite decide_False by done|by repeat destruct (decide _)].
    f_equal. unfold y1. destruct y. simpl in *. by subst. }
  clear H4 H5. apply fe_bind, fe_grants. intros Hgr. cbn [ex_k] in Hgr.
  assert (Hsys5 : sys_ok k5).
  { destruct H6 as (H6 & _ & (Q1 & Q2 & Q3)). destruct Hss as (R1 & R2 & R3). pose proof (ktab_trans _ _ _ _ _ _ _ HT H6) as H7.
    eapply (kstep_sys k0); [done | exact H7 | split_and!; congruence | done|]. intros t' o. cbn [assoc app].
    destruct (decide (t' = tid)); [|done]. intros [= <-]. eexists. split; [done|]. simpl. rewrite Epr. lia. }
  assert (Hx5 : k_threads k5 !! Z.to_nat tid = Some (child_thread t frame_va x)) by entry.
  apply fe_kw. eapply (wp_add_thread tid); [done | done | exact Hx5|]. intros k6 Hs6 _ Hk6 Hin. split; [|apply Hs6]. apply fe_ret.
  destruct (forked_tables k k5 k6 n t tid x _ frame_va Hc eq_refl H6 Hk6) as (F1 & F2 & F3 & F4 & F5).
  split_and!; [done | exact Hf3|]. constructor; cbn [ex_k ex_vm]; [done | done | done | done|].
  exists t, tid, (child_thread t frame_va x), sp, sp'. split_and!; [done | done | done | done | by apply Hin | simpl; by rewrite E30 | | done | exact Hcp2].
  destruct Hfm2 as [[K1 K2 K3] M2 M3 M4 M5]. constructor; [by constructor | done..].
Qed.

Lemma fe_fork_child k v n t tid x sp frame_va :
  created k n t tid x -> loading t v sp [] -> frame_ok frame_va -> pf_ok (vm_fs v) -> (refusal v -> refusal s0) ->
  fe (fork_child page_pool_start p n frame_va) (fun r s' => failed r s' \/ (r = n /\ pf_ok (vm_fs (ex_vm s')) /\ forked s' n frame_va)) (mkExec k v).
Proof.
  intros Hc Hl Hfr Hfs Href. destruct (created_entries _ _ _ _ _ Hc) as ((Hn0 & Hn1 & _) & (Hp0 & Hp1 & _) & _).
  pose proof Hfr as (Hr & H8 & Hpg). unfold fork_child. apply fe_bind, fe_k; eapply hp_get_pcb; [done | exact Hp1|].
  apply fe_bind. eapply fe_mono; [by apply (fe_cpy_space k v n (newborn n t tid) _ t sp Hn0 Hn1 eq_refl Hp0 Hp1)|].
  intros [] [k1 v1] (Hfs1 & t1 & sp1 & Hfm & H1 & Hcp) _. cbn [ex_k ex_vm] in *. pose proof (created_table _ _ _ _ _ _ _ Hc H1) as Hc1.
  assert (Hcp1 : copied s0 v1 t1 sp1) by (destruct Hcp as [?|[?|?]]; [by left | right; by left | right; right; auto]).
  destruct (created_entries _ _ _ _ _ Hc1) as ((_ & Hn2 & _) & _ & _).
  destruct (frame_facts frame_va Hfr) as (Hrange & Ho & Hend & _). unfold FRAME_WORDS in Hend.
  assert (Hdown : align_down frame_va = frame_va - frame_va mod 4096) by (apply align_down_eq; lia).
  replace (frame_va - align_down frame_va) with (frame_va mod 4096) by lia.
  rewrite (proj2 (Z.ltb_ge _ _)), (proj2 (Z.leb_gt _ _)), (proj2 (Z.leb_gt _ _)) by (change PAGE_SIZE with 4096; lia). cbn [orb].
  apply fe_bind, fe_k; eapply hp_get_pcb; [done | exact Hn2|]. cbn [p_ttbr0_el1_va p_ttbr0_el1 p_tids p_pid newborn].
  apply fe_bind, fe_vm. eapply xp_mono; [by apply (xp_frame_page False v1 t1 sp1 frame_va)|]. intros page v2 [-> Hpage].
  destruct (sp1 (indices frame_va)) as [pg|] eqn:Epg.
  - destruct Hpage as [Hp0' ->]. rewrite (proj2 (Z.eqb_neq _ _) Hp0').
    change (p_ttbr0_el1_va (set_p_children (p_children y ++ [n]) y)) with (p_ttbr0_el1_va y). rewrite Htable.
    change (p_file_descriptors (set_p_children (p_children y ++ [n]) y)) with (p_file_descriptors y).
    eapply fe_mono; [by apply (fe_fork_finish k1 v1 n t1 tid x sp1 frame_va pg)|]. intros r s' Hres _. by right.
  - subst page. cbn [Z.eqb]. eapply fe_mono; [by apply (fe_fork_abort k1 v1 n t1 tid x sp1 SYS_EFAULT)|]. intros r s' Hres _. by left.
Qed.

Lemma fe_fork me frame_va :
  caller me k0 p -> frame_ok frame_va ->
  fe (fork page_pool_start tramp first_run uts me frame_va) (fun r s' =>
    failed r s' \/ (0 <= r /\ pf_ok (vm_fs (ex_vm s')) /\ forked s' r frame_va)) (mkExec k0 s0).
Proof.
  intros Hc Hfr. pose proof Hc as (t & x & y' & Hrun & Ht & Hx & _ & Hy').
  unfold fork. apply fe_bind, fe_k, hp_wp. eapply wp_get_curr_process; [exact Hc|]. split; [|done].
  apply fe_bind, fe_k, hp_wp, wp_fetch. change (match k_cpus k0 !! me with Some c => c_curr_thread c | None => None end) with (running_on k0 me).
  rewrite Hrun. split; [|done]. pose proof Hparent as (Hp0 & Hyk & _).
  apply fe_bind, fe_k; eapply hp_get_pcb; [done | exact Hyk|].
  apply fe_bind, fe_k, hp_wp, (wp_get_tcb _ x); [done | done|]. split; [|done].
  replace (p_pid y) with p by (rewrite (po_pid _ Hpo _ _ Hyk); lia).
  apply fe_bind. eapply fe_mono; [apply fe_proc_create|]. intros r [k1 v1] [Hf | (Hfs & t1 & tid & x1 & Hcr & sp & Hl)] Href; cbn [ex_k ex_vm] in *.
  - destruct Hf as (Hr & Hf). rewrite (proj2 (Z.ltb_lt _ _) Hr). apply fe_ret. left. by split.
  - destruct (created_entries _ _ _ _ _ Hcr) as (Hn & _ & _). pose proof Hn as (Hr & _ & _).
    rewrite (proj2 (Z.ltb_ge _ _) Hr). apply fe_bind, fe_k, hp_wp. apply wp_get_process; [by eapply created_ok | | intros Hno; by destruct (Hno _ Hn)].
    intros z _. split; [|done]. eapply fe_mono; [by apply (fe_fork_child k1 v1 r t1 tid x1 sp frame_va)|].
    intros r' s' [Hf | (-> & Hfs' & Hd)] _; [by left | by right].
Qed.

End fork_memory.

(** ** Properties *)

(** A process [p] that can fork: its tables and its memory are well formed, its
    kernel stack is mapped for the kernel only, and no lock is held. *)
Record fork_caller (page_pool_start : Z) {F} `{ProcFileLaws F} (s : exec_state F) (me : nat) (lab : gmap Z (Z * list Z))
    (p : Z) (y : pcb) (spo : space) (segs : list mem_segment) : Prop := {
  fc_mem : exists used, vm_ok page_pool_start (vm_pt (ex_vm s)) lab used;
  fc_lock : vm_lock (ex_vm s) = false;
  fc_structs : forall t, is_Some (smap (ex_vm s) !! t) -> is_root lab t;
  fc_low : low (vm_pt (ex_vm s)) lab;
  fc_root : is_root lab (p_ttbr0_el1_va y);
  fc_space : space_rel (vm_pt (ex_vm s)) (p_ttbr0_el1_va y) spo;
  fc_segs : smap (ex_vm s) !! p_ttbr0_el1_va y = Some segs;
  fc_kstack : forall va, kernel_stack_base <= va < PROC_KERNEL_STACK_TOP ->
    (exists pg, spo (indices va) = Some pg /\ ap_write pg = true) /\
    pte_is_user (leaf (vm_pt (ex_vm s)) (p_ttbr0_el1_va y, indices va)) = false;
  fc_tables : processes_ok (ex_k s) /\ groups_ok everyone (ex_k s) /\ sys_ok (ex_k s);
  fc_caller : caller me (ex_k s) p;
  fc_process : process (ex_k s) p y /\ p_lock y = false /\ p_child_waitq y = [];
  fc_threads : k_threads_lock (ex_k s) = false;
  fc_files : pf_ok (vm_fs (ex_vm s))
}.


(** ** An example *)

#[local] Existing Instance demo_proc_files.
#[local] Existing Instance demo_proc_laws.

(** The memory after boot with the address space of one process. *)
Definition demo_fork_tables (l : list Page) : stM pt_state (Z * bool) :=
  _ ← pt_init (Some l);
  root ← alloc_page pool_example;
  if root =? 0 then mret (0, false) else
  p1 ← pt_map_new_page pool_example root 0x8fe000 ATTR_KERNEL_RW;
  p2 ← pt_map_new_page pool_example root 0x8ff000 ATTR_KERNEL_RW;
  mret (root, negb (p1 =? 0) && negb (p2 =? 0)).

Definition user_page (s : pt_state) (root va : Z) : bool := pte_is_user (leaf s (root, indices va)).

Definition demo_fork_facts (o : outcome (Z * bool * pt_state)) : option (bool * bool * bool) :=
  match o with
  | Ok ((root, ok), s) => Some (ok, user_page s root 0x8fe000, user_page s root 0x8ff000)
  | _ => None
  end.

Lemma demo_fork_run : demo_fork_facts (demo_fork_tables all_pages boot_example) = Some (true, false, false).
Proof. lazy. reflexivity. Qed.

Lemma kernel_stack_space_pages va :
  kernel_stack_base <= va < PROC_KERNEL_STACK_TOP -> indices va = indices 0x8fe000 \/ indices va = indices 0x8ff000.
Proof.
  intros Hva. unfold kernel_stack_base, PROC_KERNEL_STACK_SIZE, PROC_KERNEL_STACK_TOP in Hva.
  destruct (decide (va < 0x8ff000)); [left | right]; apply same_page; try lia; Z.to_euclidean_division_equations; lia.
Qed.

Lemma wp_demo_fork_tables l :
  RAM_END_PHYS / 4096 <= Z.of_nat (length l) ->
  wp (demo_fork_tables l) (fun r s => snd r = true -> exists lab used,
    vm_ok pool_example s lab used /\ is_root lab (fst r) /\ low s lab /\ space_rel s (fst r) kernel_stack_space) boot_example.
Proof.
  intros Hlen. destruct (boot_run_inv pool_example pool_example_ok boot_example) as [_ [fl Ha]]; [done|].
  apply wp_bind, wp_modify. set (s0 := set_pages _ _).
  assert (Ha0 : alloc_inv pool_example s0 fl ∅) by (eapply alloc_inv_write; [exact Ha | done | done | done |]; by intros l' [= <-]).
  pose proof (vm_empty pool_example s0 fl ∅ Ha0 ltac:(done)) as Hok0.
  apply wp_bind. eapply wp_mono; [by apply (wp_alloc_page _ pool_example_ok s0 fl ∅)|].
  intros c s1 [(-> & _) | (Hc0 & Hcu & Hcr & Hca & Hfr & fl' & Ha1)]; [by apply wp_ret|]. rewrite (proj2 (Z.eqb_neq _ _) Hc0).
  destruct (new_root_vm _ pool_example_ok s0 s1 ∅ ∅ c fl') as (Hok1 & _ & Hz & _); try done.
  set (lab1 := <[c := (c, [])]> ∅) in Hok1.
  assert (Hb : built pool_example s1 lab1 c s1 empty_space).
  { constructor; [| | done | done | done].
    - exists lab1, ({[c]} ∪ ∅). split_and!; [done | apply lookup_insert_eq | done | done].
    - intros ix [Hl Hix]. unfold leaf. simpl. by rewrite empty_table. }
  assert (Hlow : low s1 lab1).
  { eapply (low_new_root _ pool_example_ok s0 s1 ∅ ∅ c fl'); try done. intros x d pg ((Hx & _) & _). unfold is_root in Hx. by rewrite lookup_empty in Hx. }
  apply wp_bind. eapply wp_mono; [by apply (wp_built_map _ pool_example_ok s1 lab1 c s1 empty_space 0x8fe000 ATTR_KERNEL_RW)|].
  intros p1 s2 [(-> & Hb2 & _) | (Hp1 & Hb2 & _)].
  { apply wp_bind. eapply wp_mono; [by apply (wp_built_map _ pool_example_ok s1 lab1 c s2 _ 0x8ff000 ATTR_KERNEL_RW Hb2)|]. intros; by apply wp_ret. }
  apply wp_bind. eapply wp_mono; [by apply (wp_built_map _ pool_example_ok s1 lab1 c s2 _ 0x8ff000 ATTR_KERNEL_RW Hb2)|].
  intros p2 s3 [(-> & _) | (Hp2 & Hb3 & _)]; apply wp_ret; cbn [fst snd]; [by rewrite andb_false_r|]. intros _.
  destruct Hb3 as [(lab & used & Hok & Hr & _ & Hl) Hself _ _ _]. exists lab, used. split_and!; [done | done | by apply Hl | done].
Qed.

Lemma demo_fork_space : exists root ps lab used,
  vm_ok pool_example ps lab used /\ is_root lab root /\ low ps lab /\ space_rel ps root kernel_stack_space /\
  user_page ps root 0x8fe000 = false /\ user_page ps root 0x8ff000 = false.
Proof.
  destruct (wp_demo_fork_tables all_pages) as ([root ok] & ps & E & H).
  { unfold all_pages. by rewrite length_replicate, Z2Nat.id. }
  pose proof demo_fork_run as Hrun. rewrite E in Hrun. cbn [demo_fork_facts] in Hrun.
  injection Hrun as -> H1 H2. destruct (H eq_refl) as (lab & used & ?). exists root, ps, lab, used. tauto.
Qed.

(** Process 2 of [demo_groups] with that address space. *)
Definition demo_fork (root : Z) (ps : pt_state) : exec_state Z :=
  mkExec (set_k_processes (<[2%nat := set_p_ttbr0_el1_va root (demo_process 2)]> (k_processes demo_groups)) demo_groups)
    (mkVM ps (Some {[ root := [] ]}) false (fun _ => true) 0).

Lemma demo_fork_process root ps q z :
  process (ex_k (demo_fork root ps)) q z <->
  (q = 2 /\ z = set_p_ttbr0_el1_va root (demo_process 2)) \/ (q <> 2 /\ process demo_groups q z).
Proof.
  unfold process, demo_fork. cbn [ex_k k_processes set_k_processes]. destruct (decide (q = 2)) as [->|Hne].
  - change (Z.to_nat 2) with 2%nat. rewrite list_lookup_insert_eq by by eapply lookup_lt_is_Some_1. split; [intros (_ & [= <-] & _); auto|].
    intros [[_ ->]|[? _]]; [|done]. by split_and!.
  - split; [intros (Hq & Hz & Hu); right | intros [[? _]|[_ (Hq & Hz & Hu)]]; [done|]].
    + rewrite list_lookup_insert_ne in Hz by lia. by split_and!.
    + rewrite list_lookup_insert_ne by lia. by split_and!.
Qed.

Lemma demo_fork_tables_ok root ps : let k := ex_k (demo_fork root ps) in processes_ok k /\ groups_ok everyone k /\ sys_ok k.
Proof.
  intros k. split_and!.
  - destruct demo_processes_ok as [H1 H2 H3]. constructor; [done | reflexivity|].
    intros q z [(<- & <- & _)|[_ Hz]]%list_lookup_insert_Some; [done | by apply H3].
  - eapply groups_ok_same; [apply demo_groups_ok | done|]. intros g q. unfold everyone. unfold k.
    assert (H2 : process demo_groups 2 (demo_process 2)) by (apply demo_groups_process; split; [done | lia]).
    split; intros [_ (z & Hz & <-)]; (split; [done|]).
    + destruct (decide (q = 2)) as [->|Hq]; [|exists z; split; [apply demo_fork_process; by right | done]].
      eexists. split; [apply demo_fork_process; by left|]. by rewrite (process_inj _ _ _ _ Hz H2).
    + apply demo_fork_process in Hz as [[-> ->]|[_ Hz]]; [by exists (demo_process 2) | by exists z].
  - constructor; [constructor | by intros n | done |].
    + done.
    + apply NoDup_singleton.
    + intros t Ht. apply list_elem_of_singleton in Ht as ->. simpl. lia.
    + done.
    + intros [|[|[|i]]] c m [= <-] [= <-]; lia.
    + simpl. lia.
    + repeat constructor; simpl; lia.
    + intros c u Hc Hu. change (k_cpus k) with [mkCpu false (Some 2) 0; mkCpu false None 0] in Hc.
      apply elem_of_cons in Hc as [->|Hc%list_elem_of_singleton]; [injection Hu as <-; simpl; lia | by subst c].
Qed.

